(* ===== verification/_CoqProject ===== *)
-Q . S2P
Prelude.v
SbiTypes.v
Conc.v
Locks.v
Fifo.v
Dlist.v
Heap.v
Bitops.v
Hartmask.v
Strings.v
Scratch.v
Ecall.v
Domain.v
Csr.v
Pmp.v
PmpProps.v
HartFeat.v
Trap.v
TrapLdst.v
TrapStore.v
Timer.v
IllegalInsn.v
VecLdst.v
VecProps.v
VecCorrect.v
TrapDispatch.v
Pmu.v
PmuProps.v
Console.v
ConsoleProps.v
Dbcn.v
Hsm.v
HsmConc.v
System.v
Cppc.v
Dbtr.v
DbtrProps.v
Fwft.v
FwftProps.v
Mpxy.v
MpxyProps.v
DomainCtx.v
DomainCtxProps.v
DomainData.v
DomainReg.v
DomainInit.v
DomainBoot.v
Tlb.v
Ipi.v
IpiConc.v
Rfence.v
Sse.v
SseInv.v
SseProps.v
Rv32.v
Rv32Isa.v
Hanoi.v
FgStack.v
Logisim.v
Labyrinth.v
Pstree.v
Minilibc.v
