(* ===== verification/Prelude.v ===== *)
(** * Verification of the programs of OS-jyy.

    The repository holds the material of an operating systems course: small
    programs written for the lectures (course1, course3 to course5), the
    exercises (os2025), and the RISC-V firmware OpenSBI (course2/opensbi), which
    the lectures read.  This library models the parts that carry the logic:
    the core library of the firmware (lib/sbi), and the lecture programs and
    exercises that compute something rather than demonstrate a system call.

    ** Parts of the firmware and how they interact

    All harts run the firmware at once.  A hart that boots detects its features
    and sets up its registers ([HartFeat]); the first one makes the root domain
    ([DomainBoot]), and the physical memory protection enforces what the domain of
    a hart grants ([Pmp]).  A trap enters [TrapDispatch], which emulates the
    instruction ([TrapLdst], [TrapStore], [VecLdst], [IllegalInsn]), serves the
    interrupt or redirects the trap to the supervisor ([Trap]).  An SBI call enters
    [Ecall], which finds the extension of the call and runs its handler.  The HSM
    handler starts, stops and suspends harts ([Hsm]), [System] the whole machine;
    the RFENCE and IPI handlers build a request and send it through the interrupt
    layer ([Ipi]) to the harts of the caller's protection domain ([Domain]) that
    are up ([Hsm]).  A fence request is queued in the byte FIFO ([Fifo]) of the
    receiving hart, merged there if possible ([Tlb]), executed by the receiver and
    acknowledged through an atomic counter.  Software events ([Sse]) are injected
    into a supervisor, one handler running above the other by priority.  The calls
    that use memory of the supervisor (console [Dbcn], debug triggers [Dbtr],
    message proxy [Mpxy]) check it against the domain before machine mode touches
    it.  The timer ([Timer]), the counters ([Pmu]), the firmware features ([Fwft]),
    performance control ([Cppc]) and the contexts and data of domains ([DomainCtx],
    [DomainData]) have calls of their own.  The scratch spaces ([Scratch]) number
    the harts and hold the data of each; heap ([Heap]), lists ([Dlist]), masks
    ([Hartmask], [Bitops]), strings ([Strings]) and locks ([Locks]) serve all.

    ** Files

    - [Prelude]: machine integers ([wrap], [signed]), lists, the tactics and the
      hint databases.  [SbiTypes]: error codes and privilege modes.
    - [Conc]: programs of atomic steps, their sequential ([run]) and interleaved
      ([pstep]) execution, and the program logic [safe] (a global invariant and a
      ghost view per hart) used for remote fences and the counters.
    - [Locks] (riscv_locks.c): the ticket lock as functions and as interleaved
      atomic accesses; mutual exclusion, refinement of a first-come-first-served
      queue lock, and that a waiter can always get the lock.
    - [Fifo] (sbi_fifo.c): the ring of bytes refines a bounded queue; the
      [EntryCodec] class lets a client work on typed entries.
    - [Dlist] (sbi_list.h): the pointer stores refine operations on a sequence.
    - [Heap] (sbi_heap.c): the invariant of the three node lists over any sequence
      of calls, soundness and completeness of allocation, and of free.
    - [Bitops], [Hartmask] (sbi_bitops.*, sbi_bitmap.*, sbi_math.c,
      sbi_hartmask.h): searches against the bits of a number; masks refine sets.
    - [Strings] (sbi_string.c): string and memory functions, overlap included.
    - [Console], [ConsoleProps] (sbi_console.c), [Dbcn] (sbi_ecall_dbcn.c): the
      formatted text is what the conversions mean, whichever buffers it goes
      through; the console calls respect the domain.
    - [Scratch] (sbi_scratch.c): hart numbering and the offset allocator.
    - [Ecall] (sbi_ecall.c, sbi_ecall_base.c): registration, dispatch, results.
    - [Domain] (sbi_domain.c): regions, address checks against the lookup of every
      single address, and the sanitising of a domain.  [DomainReg]: adding ranges
      to the root domain covers exactly the range.  [DomainInit]: registration
      keeps the harts partitioned.  [DomainBoot]: the root domain protects the
      firmware; startup of the boot harts.
    - [DomainCtx], [DomainCtxProps] (sbi_domain_context.c): entering and leaving a
      domain is a round trip.  [DomainData] (sbi_domain_data.c): the data of
      domains are neither leaked nor freed twice.
    - [Csr] (riscv_encoding.h, riscv_asm.c): the registers of a hart and the monad
      [csrM] of functions that access them.  [Pmp], [PmpProps] (riscv_asm.c,
      sbi_hart.c): entries of the memory protection; the configured hardware
      grants what the domain grants, with and without Smepmp, when its entries can
      express the regions.
    - [HartFeat] (sbi_hart.c): features, initialisation, switch to the next stage.
    - [Trap] (sbi_trap.c), [TrapLdst], [TrapStore] (sbi_trap_ldst.c, sbi_unpriv.c),
      [VecLdst], [VecProps], [VecCorrect] (sbi_trap_v_ldst.c), [IllegalInsn]
      (sbi_illegal_insn.c, sbi_emulate_csr.c): redirection and emulation against
      the instruction set, scalar and vector;
      [TrapDispatch] (sbi_trap.c, sbi_double_trap.c, sbi_irqchip.c): an exception
      from below machine mode that is neither a call nor a double trap does not make
      the firmware hang.
    - [Timer] (sbi_timer.c, sbi_ecall_time.c): time, delays, the timer interrupt.
    - [Pmu], [PmuProps] (sbi_pmu.c, sbi_ecall_pmu.c): counters of a hart.
    - [Hsm], [HsmConc] (sbi_hsm.c, the boot paths of sbi_init.c): the functions as
      programs of atomic accesses, then all harts interleaved: legal transitions
      only, no hang, and start arguments of exactly one caller for harts that do not
      suspend.  [System]
      (sbi_system.c, sbi_ecall_srst.c, sbi_ecall_susp.c): reset, and suspend as a
      round trip.  [Cppc] (sbi_cppc.c, sbi_ecall_cppc.c).
    - [Tlb] (sbi_tlb.c), [Ipi] (sbi_ipi.c, riscv_atomic.c, sbi_ecall_rfence.c,
      sbi_ecall_ipi.c), [IpiConc], [Rfence]: what a hart executes for a fence
      request, merging, sending and acknowledging; then the promise of the RFENCE
      extension under every interleaving.
    - [Sse], [SseInv], [SseProps] (sbi_sse.c): supervisor software events, nested
      by priority; contexts restored, lists exact, attributes.
    - [Dbtr], [DbtrProps] (sbi_dbtr.c, sbi_ecall_dbtr.c): the trigger table and the
      hardware agree; no trigger fires in machine mode.
    - [Fwft], [FwftProps] (sbi_fwft.c): features as a map with locks.
    - [Mpxy], [MpxyProps] (sbi_mpxy.c): the proxy stays inside granted memory.
    - [Rv32], [Rv32Isa] (course1/mini-rv32ima): the emulator, total on any
      instruction word, and equal to the instruction set on encoded instructions.
    - [Hanoi], [FgStack] (course1/hanoi): recursive programs and their versions
      with an explicit stack.
    - [Logisim] (course1/logisim): the circuit counts modulo three.
    - [Labyrinth] (os2025/labyrinth): loading and saving, moves, connectivity.
    - [Pstree] (os2025/pstree): reading the files of /proc, the hash table, linking
      and printing of processes.
    - [Minilibc] (course5/minilibc): strings, formatted output, malloc and free.

    ** Conventions

    A C integer of [w] bits is a [Z]; an operation that can wrap is followed by
    [wrap w].  A function that can touch memory outside of an object, overflow an
    [int], access a register that does not exist or spin for ever returns an
    option, and the theorems show when it is [Some].  Error codes are the numbers
    of the source.  A pointer is an address or an index; null is 0 or [None].
    Where the source shares memory between harts, its functions are programs of
    atomic accesses and the theorems hold for all interleavings, with sequentially
    consistent memory: the fences of the source are not modelled as instructions.
    The hardware of a hart is a class: [Hw] says which registers and which of their
    bits exist, [TrigHw] what its triggers can do, [VHw] which vector types and
    lengths its vector unit chooses.

    Fuel: loops over words of a bitmap, bytes of a string, or addresses of a range
    have a bound computed from the data, and the theorems show that it is enough;
    [Labyrinth.dfs] has one unit per cell, [Hanoi] and [FgStack] are shown to end
    for a bound that depends on the argument, [Pstree] has the number of nodes
    (a path from the root has no repetition), [DomainReg.sort_merge] the number of
    regions (a pass that merges makes the list shorter), the loops of [VecLdst] the
    vector length.  [Conc.Iter] and
    [Conc.Wait] are unbounded: they have no fuel and the theorems about them are
    safety theorems.

    Parameters: the drivers of devices (console, IPI, timer, HSM, suspend, reset,
    counters, message channels, performance control), the clock, the outcome of
    allocations, the memory accesses on behalf of the supervisor, the interrupt
    hardware in [Ipi], the handlers and registers an ecall works on, the subsystems
    behind [TrapDispatch], the system calls of Linux in [Minilibc], the contents of
    /proc and of files.  What is assumed of one is a named hypothesis of the
    theorem and has a witness with a concrete instance.

    ** Where the code falls short

    A theorem states its conditions in its comment.  Where a condition is there
    because the code is wrong without it, an example or a lemma beside the theorem
    shows it: [flush_all_request_skipped], [last_page_request_skipped] ([Tlb]),
    [check_addr_range_shl64], [check_addr_range_diverges] ([Domain]),
    [dbcn_reads_firmware] ([Dbcn]), [small_region_unprotected],
    [smepmp_m_write_only], [smepmp_stops_early] ([PmpProps]),
    [suspend_replaces_start_arguments] ([HsmConc]), [double_trap_from_user_hangs]
    ([TrapDispatch]), [redirect_keeps_stale_spelp] ([Trap]),
    [byte_index_is_strided], [whole_load_changes_vl], [trap_forgets_vstart]
    ([VecCorrect]), [resume_in_virtual_mode] ([SseProps]),
    [platform_event_without_counter] ([PmuProps]), [read_wraps], [warm_boot_null]
    ([DbtrProps]), [long_messages_shrink_shmem], [other_harts_shmem_at_zero],
    [last_page_not_checked] ([MpxyProps]), [name_with_parenthesis] ([Pstree]).  The
    value of [1UL << 64], which C leaves undefined, is the parameter [shl64] of the
    functions that check address ranges.

    ** Not modelled

    Vendored code: toybox (course1/tar), libfdt and libquad (opensbi/lib/utils).
    Hardware access: the drivers of opensbi/lib/utils, the platform directories and
    the assembly of trap entry and exit.  In lib/sbi also: the cold boot sequence
    of sbi_init.c, the wrappers of sbi_platform.c, the legacy calls
    (sbi_ecall_legacy.c), the functions that only print, and the unit tests.  Of
    the lectures and exercises: demonstrations of system calls (fork, exec, pipes, file descriptors, address
    spaces), the exercises that are only frames to be filled in (crepl, fsrecov,
    sperf, mymalloc, libkvdb), httpd (sockets), gpt (floating point), the test kit
    (macros and processes), the C++ and Python programs, and os2025/.shadow, which
    copies os2025. *)

From Stdlib Require Export ZArith Lia.
From stdpp Require Export base functions strings numbers option gmap list.

Open Scope Z_scope.

(** ** Machine integers

    A [w]-bit unsigned integer of the C code is a [Z] in [[0, 2^w)].  The
    operations of the source that can wrap are followed by [wrap w]; the
    signed reading of a [w]-bit pattern is [signed w]. *)

Definition wrap (w z : Z) : Z := z `mod` 2 ^ w.

Definition signed (w z : Z) : Z :=
  let u := wrap w z in if u <? 2 ^ (w - 1) then u else u - 2 ^ w.

Abbreviation u8 := (wrap 8).
Abbreviation u16 := (wrap 16).
Abbreviation u32 := (wrap 32).
Abbreviation u64 := (wrap 64).
Abbreviation s32 := (signed 32).

Definition in_range (w z : Z) : Prop := 0 <= z < 2 ^ w.

Lemma pow2_pos w : 0 <= w -> 0 < 2 ^ w.
Proof. intros. apply Z.pow_pos_nonneg; lia. Qed.

Lemma wrap_range w z : 0 <= w -> in_range w (wrap w z).
Proof. intros. apply Z.mod_pos_bound, pow2_pos; lia. Qed.

Lemma wrap_small w z : in_range w z -> wrap w z = z.
Proof. intros. by apply Z.mod_small. Qed.

Lemma wrap_wrap w z : 0 <= w -> wrap w (wrap w z) = wrap w z.
Proof. intros. by apply wrap_small, wrap_range. Qed.

Lemma wrap_add_l w a b : wrap w (wrap w a + b) = wrap w (a + b).
Proof. apply Zplus_mod_idemp_l. Qed.

Lemma wrap_add_r w a b : wrap w (a + wrap w b) = wrap w (a + b).
Proof. apply Zplus_mod_idemp_r. Qed.

Lemma wrap_sub_l w a b : wrap w (wrap w a - b) = wrap w (a - b).
Proof. apply Zminus_mod_idemp_l. Qed.

Lemma wrap_sub_r w a b : wrap w (a - wrap w b) = wrap w (a - b).
Proof. apply Zminus_mod_idemp_r. Qed.

Lemma wrap_period w z k : 0 <= w -> wrap w (z + k * 2 ^ w) = wrap w z.
Proof. intros. apply Z_mod_plus_full. Qed.

Lemma wrap_land w z : 0 <= w -> wrap w z = Z.land z (Z.ones w).
Proof. intros. unfold wrap. by rewrite Z.land_ones. Qed.

Lemma wrap_testbit w z i :
  0 <= w -> Z.testbit (wrap w z) i = bool_decide (i < w) && Z.testbit z i.
Proof.
  intros Hw. unfold wrap. case_bool_decide.
  - destruct (decide (0 <= i)); [by rewrite Z.mod_pow2_bits_low|].
    by rewrite !Z.testbit_neg_r by lia.
  - by rewrite Z.mod_pow2_bits_high by lia.
Qed.

Lemma signed_range w z : 0 < w -> - 2 ^ (w - 1) <= signed w z < 2 ^ (w - 1).
Proof.
  intros Hw. unfold signed.
  assert (2 ^ w = 2 * 2 ^ (w - 1)) by (rewrite <- Z.pow_succ_r by lia; f_equal; lia).
  pose proof (wrap_range w z ltac:(lia)) as [??]. case_match; lia.
Qed.

Lemma wrap_signed w z : 0 < w -> wrap w (signed w z) = wrap w z.
Proof.
  intros Hw. unfold signed. case_match; [apply wrap_wrap; lia|].
  replace (wrap w z - 2 ^ w) with (wrap w z + (-1) * 2 ^ w) by lia.
  rewrite wrap_period by lia. apply wrap_wrap; lia.
Qed.

Lemma signed_small w z : 0 < w -> - 2 ^ (w - 1) <= z < 2 ^ (w - 1) -> signed w (wrap w z) = z.
Proof.
  intros Hw Hz. unfold signed. rewrite wrap_wrap by lia.
  assert (2 ^ w = 2 * 2 ^ (w - 1)) by (rewrite <- Z.pow_succ_r by lia; f_equal; lia).
  unfold wrap. destruct (decide (0 <= z)).
  - rewrite Z.mod_small by lia. case_match; lia.
  - replace (z `mod` 2 ^ w) with (z + 2 ^ w);
      [case_match; lia|].
    rewrite <- (Z_mod_plus_full z 1 (2 ^ w)). rewrite Z.mod_small by lia. lia.
Qed.

(** ** Bit-level reasoning *)

Create Rewrite HintDb zbits.
#[export] Hint Rewrite Z.land_spec Z.lor_spec Z.lxor_spec Z.ldiff_spec : zbits.
#[export] Hint Rewrite Z.lnot_spec using lia : zbits.
#[export] Hint Rewrite Z.shiftr_spec using lia : zbits.
#[export] Hint Rewrite Z.shiftl_spec using lia : zbits.
#[export] Hint Rewrite wrap_testbit using lia : zbits.
#[export] Hint Rewrite Z.testbit_0_l Z.bits_0 : zbits.
#[export] Hint Rewrite Z.ones_spec_low using lia : zbits.
#[export] Hint Rewrite Z.ones_spec_high using lia : zbits.
#[export] Hint Rewrite andb_false_r andb_true_r andb_false_l andb_true_l
  orb_false_r orb_true_r orb_false_l orb_true_l : zbits.

(** [zbits i Hi] reduces an equation on integers to its bit [i]. *)
Ltac zbits i Hi := apply Z.bits_inj'; intros i Hi; autorewrite with zbits.

Lemma testbit_above w z i : in_range w z -> 0 <= w <= i -> Z.testbit z i = false.
Proof.
  intros Hz ?. rewrite <- (wrap_small w z Hz). rewrite wrap_testbit by lia.
  by rewrite bool_decide_eq_false_2 by lia.
Qed.

(** The low half of a pair packed as [lo + 2^w * hi]. *)
Lemma pack_low w lo hi : in_range w lo -> wrap w (lo + hi * 2 ^ w) = lo.
Proof.
  intros [??]. destruct (decide (0 <= w)).
  - rewrite wrap_period by lia. by apply wrap_small.
  - rewrite Z.pow_neg_r in * by lia. lia.
Qed.

Lemma pack_high w lo hi : 0 <= w -> in_range w lo -> Z.shiftr (lo + hi * 2 ^ w) w = hi.
Proof.
  intros ? [??]. rewrite Z.shiftr_div_pow2, Z.div_add by lia.
  rewrite Z.div_small by lia. lia.
Qed.

(** Masking with [~(2^k - 1)] rounds down to a multiple of [2^k]. *)
Lemma land_lnot_ones z k : 0 <= k -> Z.land z (Z.lnot (2 ^ k - 1)) = z - z `mod` 2 ^ k.
Proof.
  intros Hk. rewrite <- Z.ldiff_land.
  replace (2 ^ k - 1) with (Z.ones k) by (rewrite Z.ones_equiv; lia).
  rewrite Z.ldiff_ones_r by lia. rewrite Z.shiftl_mul_pow2, Z.shiftr_div_pow2 by lia.
  pose proof (Z.div_mod z (2 ^ k)). pose proof (pow2_pos k). nia.
Qed.

(** ** Ranges of bit operations

    [rng] proves [in_range w e] for the expressions the C code builds. *)

Create HintDb rng.

Lemma in_range_bits w z :
  0 <= w -> in_range w z <-> 0 <= z /\ (forall i, w <= i -> Z.testbit z i = false).
Proof.
  intros Hw. split.
  - intros Hz. split; [destruct Hz; lia|]. intros i Hi. by apply (testbit_above w).
  - intros [Hz Hi]. assert (z = wrap w z) as ->; [|by apply wrap_range].
    apply Z.bits_inj'. intros i ?. rewrite wrap_testbit by lia.
    case_bool_decide; [done|]. apply Hi. lia.
Qed.

Lemma in_range_land_l w a b : 0 <= w -> in_range w a -> 0 <= b -> in_range w (Z.land a b).
Proof.
  intros Hw [Ha Hi]%in_range_bits Hb; [|done]. apply in_range_bits; [done|].
  split; [apply Z.land_nonneg; lia|]. intros i ?. by rewrite Z.land_spec, Hi.
Qed.

Lemma in_range_land_r w a b : 0 <= w -> 0 <= a -> in_range w b -> in_range w (Z.land a b).
Proof. intros. rewrite Z.land_comm. by apply in_range_land_l. Qed.

Lemma in_range_lor w a b : 0 <= w -> in_range w a -> in_range w b -> in_range w (Z.lor a b).
Proof.
  intros Hw [Ha Hi]%in_range_bits [Hb Hj]%in_range_bits; [|done..]. apply in_range_bits; [done|].
  split; [apply Z.lor_nonneg; lia|]. intros i ?. by rewrite Z.lor_spec, Hi, Hj.
Qed.

Lemma in_range_lxor w a b : 0 <= w -> in_range w a -> in_range w b -> in_range w (Z.lxor a b).
Proof.
  intros Hw [Ha Hi]%in_range_bits [Hb Hj]%in_range_bits; [|done..]. apply in_range_bits; [done|].
  split; [apply Z.lxor_nonneg; lia|]. intros i ?. by rewrite Z.lxor_spec, Hi, Hj.
Qed.

Lemma in_range_shiftr w a k : in_range w a -> 0 <= k -> in_range w (Z.shiftr a k).
Proof.
  intros [??] ?. rewrite Z.shiftr_div_pow2 by lia. pose proof (pow2_pos k).
  split; [apply Z.div_pos; lia|]. eapply Z.le_lt_trans; [apply Z.div_le_upper_bound with (q := a); nia|done].
Qed.

Lemma in_range_mono v w a : in_range v a -> v <= w -> in_range w a.
Proof. unfold in_range. pose proof (Z.pow_le_mono_r 2 v w). lia. Qed.

Lemma in_range_nonneg w a : in_range w a -> 0 <= a.
Proof. by intros []. Qed.

Lemma in_range_b2z w b : 0 < w -> in_range w (Z.b2z b).
Proof.
  intros. pose proof (Z.pow_le_mono_r 2 1 w). unfold in_range.
  destruct b; cbn [Z.b2z]; lia.
Qed.

Lemma in_range_shiftl w a k : 0 <= k <= w -> in_range (w - k) a -> in_range w (Z.shiftl a k).
Proof.
  intros Hk [??]. rewrite Z.shiftl_mul_pow2 by lia.
  replace w with (w - k + k) by lia. unfold in_range.
  rewrite Z.pow_add_r by lia. pose proof (pow2_pos k). nia.
Qed.

(** The database [rng] holds the ranges of a component's own values. *)
Ltac rng :=
  lazymatch goal with
  | |- in_range _ (wrap _ _) =>
      first [apply wrap_range; lia | eapply in_range_mono; [apply wrap_range; lia|lia]]
  | |- in_range _ (Z.lor _ _) => apply in_range_lor; [lia|rng|rng]
  | |- in_range _ (Z.lxor _ _) => apply in_range_lxor; [lia|rng|rng]
  | |- in_range _ (Z.land _ _) =>
      first [apply in_range_land_l; [lia|solve [rng]|solve [rng]]
            |apply in_range_land_r; [lia|solve [rng]|solve [rng]]]
  | |- in_range _ (Z.shiftr _ _) => apply in_range_shiftr; [rng|lia]
  | |- in_range _ (Z.shiftl (Zpos _) (Zpos _)) => vm_compute; split; congruence
  | |- in_range _ (Z.shiftl _ _) => apply in_range_shiftl; [lia|rng]
  | |- in_range _ (Z.b2z _) => apply in_range_b2z; lia
  | |- in_range _ (if _ then _ else _) => case_match; rng
  | |- in_range _ _ => first [unfold in_range; lia | assumption | solve [eauto 6 with rng]]
  | |- 0 <= Z.land _ _ => eapply (in_range_nonneg 32); rng
  | |- 0 <= Z.shiftr _ _ => eapply (in_range_nonneg 32); rng
  | |- 0 <= wrap _ _ => eapply in_range_nonneg; rng
  | |- 0 <= _ => first [lia | eapply (in_range_nonneg 32); solve [eauto 6 with rng]]
  | |- _ => first [assumption | eauto 6 with rng]
  end.

(** ** Bit fields as quotients and remainders *)

Lemma land_low x k : 0 <= k -> Z.land x (2 ^ k - 1) = x `mod` 2 ^ k.
Proof. intros. rewrite <- Z.land_ones by done. by rewrite Z.ones_equiv, Z.sub_1_r. Qed.

Lemma land_field x n k :
  0 <= n -> 0 <= k -> Z.land x ((2 ^ n - 1) * 2 ^ k) = (x / 2 ^ k) `mod` 2 ^ n * 2 ^ k.
Proof.
  intros Hn Hk. rewrite <- Z.shiftl_mul_pow2 by done.
  rewrite <- (Z.shiftl_mul_pow2 (_ `mod` _)) by done.
  apply Z.bits_inj'. intros i Hi. rewrite Z.land_spec, !Z.shiftl_spec by done.
  rewrite <- land_low, Z.land_spec, <- Z.shiftr_div_pow2 by done.
  destruct (decide (k <= i)).
  - rewrite Z.shiftr_spec by lia. do 2 f_equal. lia.
  - rewrite !(Z.testbit_neg_r _ (i - k)) by lia. by rewrite !andb_false_r.
Qed.

(** [lor] of values on disjoint bits is their sum. *)
Lemma lor_disjoint_add a b k : 0 <= k -> in_range k a -> Z.lor a (b * 2 ^ k) = a + b * 2 ^ k.
Proof.
  intros Hk Ha. rewrite <- Z.shiftl_mul_pow2 by done.
  assert (Z.land a (Z.shiftl b k) = 0) as Hz.
  { apply Z.bits_inj'. intros i Hi. rewrite Z.land_spec, Z.shiftl_spec, Z.bits_0 by done.
    destruct (decide (k <= i)); [by rewrite (testbit_above k a) by (done || lia)|].
    by rewrite (Z.testbit_neg_r _ (i - k)), andb_false_r by lia. }
  rewrite Z.add_nocarry_lxor by done. symmetry. by apply Z.lxor_lor.
Qed.

(** ** Lists *)

(** Predicates that agree on a list select the same elements. *)
Lemma list_filter_agree {A} (P Q : A -> Prop) `{!forall x, Decision (P x)} `{!forall x, Decision (Q x)} (l : list A) :
  (forall x, x ∈ l -> P x <-> Q x) -> filter P l = filter Q l.
Proof.
  induction l as [|a l IH]; intros Hpq; [done|]. rewrite !filter_cons. rewrite IH by (intros x Hx; apply Hpq; by right).
  pose proof (Hpq a ltac:(left)) as Ha. repeat case_decide; tauto.
Qed.

(** ** Finite sequences of steps of a transition relation *)

Section Reach.
Context {St : Type} (step : St -> St -> Prop).

Inductive steps : St -> St -> Prop :=
| steps_nil s : steps s s
| steps_snoc s t u : steps s t -> step t u -> steps s u.

Lemma steps_one s t : step s t -> steps s t.
Proof. intros. eapply steps_snoc; [constructor|done]. Qed.

Lemma steps_trans s t u : steps s t -> steps t u -> steps s u.
Proof. intros Hst. induction 1; eauto using steps. Qed.

Lemma steps_cons s t u : step s t -> steps t u -> steps s u.
Proof. eauto using steps_trans, steps_one. Qed.

Lemma steps_invariant (P : St -> Prop) :
  (forall s t, P s -> step s t -> P t) -> forall s t, P s -> steps s t -> P t.
Proof. intros HP s t Hs. induction 1; eauto. Qed.
End Reach.

(** ** Loops

    A [while] loop is a function [body] on its state: [None] is an error,
    [inl] the next state, [inr] the result.  [loop] runs it with fuel;
    [reaches n s t] says that [n] iterations lead from [s] to [t]. *)

Section Loop.
Context {St R : Type} (body : St -> option (St + R)).

Fixpoint loop (fuel : nat) (s : St) : option R :=
  match fuel with
  | O => None
  | S fuel =>
      match body s with
      | None => None
      | Some (inl s) => loop fuel s
      | Some (inr r) => Some r
      end
  end.

Inductive reaches : nat -> St -> St -> Prop :=
| reaches_refl s : reaches 0 s s
| reaches_step n s t u : body s = Some (inl t) -> reaches n t u -> reaches (S n) s u.

Lemma reaches_one s t : body s = Some (inl t) -> reaches 1 s t.
Proof. eauto using reaches. Qed.

Lemma reaches_trans m n s t u : reaches m s t -> reaches n t u -> reaches (m + n) s u.
Proof. induction 1; simpl; eauto using reaches. Qed.

Lemma loop_reaches n s t fuel : reaches n s t -> loop (n + fuel) s = loop fuel t.
Proof. induction 1 as [|n s t u Hb _ IH]; simpl; [done|]. by rewrite Hb. Qed.

Lemma loop_result n s t r :
  reaches n s t -> body t = Some (inr r) -> loop (n + 1) s = Some r.
Proof. intros Hn Hb. rewrite (loop_reaches _ _ _ _ Hn). simpl. by rewrite Hb. Qed.

(** More fuel does not change a result. *)
Lemma loop_mono fuel fuel' s r : (fuel <= fuel')%nat -> loop fuel s = Some r -> loop fuel' s = Some r.
Proof.
  revert fuel' s. induction fuel as [|fuel IH]; intros [|fuel'] s Hle; simpl; try done; [lia|].
  destruct (body s) as [[s'|r']|]; [|done..]. intros. apply IH; [lia|done].
Qed.
End Loop.

(** ** Arrays in flat memory

    A C array of [n] entries of [es] bytes each is a flat list; entry [i] is
    [chunk es i].  [list_inserts] is the store of consecutive cells. *)

Definition chunk {A} (es i : nat) (m : list A) : list A := take es (drop (i * es) m).

Lemma chunk_length {A} es i n (m : list A) :
  length m = (n * es)%nat -> (i < n)%nat -> length (chunk es i m) = es.
Proof. intros Hm Hi. unfold chunk. rewrite length_take, length_drop. nia. Qed.

Lemma chunk_store_eq {A} es i n (m bs : list A) :
  length m = (n * es)%nat -> (i < n)%nat -> length bs = es ->
  chunk es i (list_inserts (i * es) bs m) = bs.
Proof.
  intros Hm Hi Hb. unfold chunk. apply list_eq. intros k.
  destruct (decide (k < es)%nat).
  - rewrite lookup_take_lt, lookup_drop by done. rewrite list_lookup_inserts by nia.
    f_equal. lia.
  - rewrite lookup_take_ge by lia. symmetry. apply lookup_ge_None. lia.
Qed.

Lemma chunk_store_ne {A} es i j (m bs : list A) :
  i <> j -> length bs = es -> chunk es j (list_inserts (i * es) bs m) = chunk es j m.
Proof.
  intros Hij Hb. unfold chunk. apply list_eq. intros k.
  destruct (decide (k < es)%nat); [|by rewrite !lookup_take_ge by lia].
  rewrite !lookup_take_lt, !lookup_drop by done.
  destruct (decide (j < i)%nat); [apply list_lookup_inserts_lt|apply list_lookup_inserts_ge]; nia.
Qed.
