(* ===== verification/SbiTypes.v ===== *)
(** * Constants shared by the OpenSBI components: error codes
    (include/sbi/sbi_error.h, with the numbers of
    include/sbi/sbi_ecall_interface.h) and privilege modes. *)

From S2P Require Import Prelude.

Local Open Scope Z_scope.

Definition SBI_OK : Z := 0.
Definition SBI_EFAIL : Z := -1.
Definition SBI_ENOTSUPP : Z := -2.
Definition SBI_EINVAL : Z := -3.
Definition SBI_EDENIED : Z := -4.
Definition SBI_EINVALID_ADDR : Z := -5.
Definition SBI_EALREADY : Z := -6.
Definition SBI_EALREADY_STARTED : Z := -7.
Definition SBI_EALREADY_STOPPED : Z := -8.
Definition SBI_EINVALID_STATE : Z := -10.
Definition SBI_EBAD_RANGE : Z := -11.
Definition SBI_ENODEV : Z := -1000.
Definition SBI_ENOSPC : Z := -1003.
Definition SBI_ENOMEM : Z := -1004.
Definition SBI_ENOENT : Z := -1006.

Definition PRV_U : Z := 0.
Definition PRV_S : Z := 1.
Definition PRV_M : Z := 3.

(** The build modelled is the 64-bit one. *)
Definition riscv_xlen : Z := 64.
