(* ===== verification/Conc.v ===== *)
(** * Concurrent programs over a shared state.

    A function of the source that several harts run at the same time is a
    program: atomic accesses to the shared state ([Do]), waiting ([Wait]),
    unbounded loops ([Iter]), and an end ([Ret], or [Exit] when the function does
    not return).  [run] executes a program alone, [pstep] makes one step of it
    between the steps of other harts.  [safe] is the proof method: a global
    invariant over the state and one ghost view per hart, which every access of
    a program keeps by changing the view of its own hart only.  [Asm] is what may be
    assumed of the states a run goes through. *)

From S2P Require Import Prelude.

Local Open Scope Z_scope.

Inductive prog (St Ex A : Type) : Type :=
| Ret (a : A)
| Exit (e : Ex)
| Do (R : Type) (a : St -> R * St) (k : R -> prog St Ex A)
| Wait (c : St -> bool) (k : prog St Ex A)
| Iter (X R : Type) (body : X -> prog St Ex (X + R)) (x : X) (k : R -> prog St Ex A).
Arguments Ret {St Ex A} a.
Arguments Exit {St Ex A} e.
Arguments Do {St Ex A R} a k.
Arguments Wait {St Ex A} c k.
Arguments Iter {St Ex A X R} body x k.

Declare Scope conc_scope.
Notation "'do' x <- a 'in' k" := (Do a (fun x => k)) (at level 10, x name, a at level 100, k at level 200) : conc_scope.
Notation "'do_' a 'in' k" := (Do a (fun _ => k)) (at level 10, a at level 100, k at level 200) : conc_scope.

Section Programs.
Context {St Ex : Type}.
Abbreviation prog := (prog St Ex).

Fixpoint pbind {A B} (p : prog A) (f : A -> prog B) : prog B :=
  match p with
  | Ret a => f a
  | Exit e => Exit e
  | Do a k => Do a (fun r => pbind (k r) f)
  | Wait c k => Wait c (pbind k f)
  | Iter body x k => Iter body x (fun y => pbind (k y) f)
  end.

(** One more turn of a loop, or what comes after it. *)
Definition again {A X R} (body : X -> prog (X + R)) (k : R -> prog A) (r : X + R) : prog A :=
  match r with inl x => Iter body x k | inr y => k y end.

(** Runs a program alone; [None] when it waits for ever or the fuel is short. *)
Fixpoint run (fuel : nat) {A} (p : prog A) (s : St) : option ((A + Ex) * St) :=
  match fuel with
  | O => None
  | S fuel =>
      match p with
      | Ret a => Some (inl a, s)
      | Exit e => Some (inr e, s)
      | Do a k => run fuel (k (a s).1) (a s).2
      | Wait c k => if c s then run fuel k s else None
      | Iter body x k => run fuel (pbind (body x) (again body k)) s
      end
  end.

(** One step of a program; [None] when it is over or waits. *)
Definition pstep {A} (p : prog A) (s : St) : option (prog A * St) :=
  match p with
  | Ret _ => None
  | Exit _ => None
  | Do a k => Some (k (a s).1, (a s).2)
  | Wait c k => if c s then Some (k, s) else None
  | Iter body x k => Some (pbind (body x) (again body k), s)
  end.

(** ** Safety under interleaving *)

Context {V : Type} (Inv : St -> (Z -> V) -> Prop) (exit_ok : Z -> V -> Ex -> Prop).

Fixpoint safe (Asm : St -> Prop) {A} (i : Z) (Q : V -> A -> Prop) (v : V) (p : prog A) {struct p} : Prop :=
  match p with
  | Ret a => Q v a
  | Exit e => exit_ok i v e
  | Do a k =>
      forall s g, Inv s g -> Asm s -> g i = v ->
        exists g', (forall j, j <> i -> g' j = g j) /\ Inv (a s).2 g' /\ safe Asm i Q (g' i) (k (a s).1)
  | Wait _ k => safe Asm i Q v k
  | Iter body x k =>
      exists (J : _ -> V -> Prop) (K : V -> _ -> Prop),
        J x v /\
        (forall x v, J x v -> safe Asm i (fun v r => match r with inl x => J x v | inr y => K v y end) v (body x)) /\
        forall v y, K v y -> safe Asm i Q v (k y)
  end.

Lemma safe_mono {A} (p : prog A) : forall (Asm Asm' : St -> Prop) i (Q Q' : V -> A -> Prop) v,
  (forall s, Asm' s -> Asm s) -> (forall v a, Q v a -> Q' v a) -> safe Asm i Q v p -> safe Asm' i Q' v p.
Proof.
  induction p as [A a|A e|A R a k IH|A c k IH|A X R body IHb x k IH]; intros Asm Asm' i Q Q' v HA HQ Hp; cbn [safe] in *; [by eauto|done|..].
  - intros s g Hs Ha Hg. destruct (Hp s g Hs (HA s Ha) Hg) as (g' & ? & ? & ?). exists g'. split_and!; eauto.
  - eauto.
  - destruct Hp as (J & K & Hx & Hb & Hk). exists J, K. split; [done|]. split; [|eauto].
    intros y w Hy. eapply IHb; [done| |by apply Hb]. done.
Qed.

Lemma safe_bind {A B} (p : prog A) : forall Asm i (Q : V -> A -> Prop) (R : V -> B -> Prop) f v,
  safe Asm i Q v p -> (forall v a, Q v a -> safe Asm i R v (f a)) -> safe Asm i R v (pbind p f).
Proof.
  induction p as [A a|A e|A T a k IH|A c k IH|A X T body IHb x k IH]; intros Asm i Q R f v Hp Hf; cbn [safe pbind] in *; [by eauto|done|..].
  - intros s g Hs Ha Hg. destruct (Hp s g Hs Ha Hg) as (g' & ? & ? & ?). exists g'. split_and!; eauto.
  - eauto.
  - destruct Hp as (J & K & Hx & Hb & Hk). exists J, K. split_and!; eauto.
Qed.

(** A loop with an invariant [J] and a postcondition [K]. *)
Lemma safe_iter {A X R} Asm i (Q : V -> A -> Prop) (body : X -> prog (X + R)) k (J : X -> V -> Prop) (K : V -> R -> Prop) v x :
  J x v ->
  (forall x v, J x v -> safe Asm i (fun v r => match r with inl x => J x v | inr y => K v y end) v (body x)) ->
  (forall v y, K v y -> safe Asm i Q v (k y)) -> safe Asm i Q v (Iter body x k).
Proof. intros Hx Hb Hk. cbn [safe]. by exists J, K. Qed.

(** A step of a safe program keeps the invariant and stays safe. *)
Lemma safe_step {A} Asm i (Q : V -> A -> Prop) (p p' : prog A) s s' g :
  Inv s g -> Asm s -> safe Asm i Q (g i) p -> pstep p s = Some (p', s') ->
  exists g', (forall j, j <> i -> g' j = g j) /\ Inv s' g' /\ safe Asm i Q (g' i) p'.
Proof.
  intros Hs Ha Hp E. destruct p as [a|e|R a k|c k|X R body x k]; cbn [pstep safe] in *; simplify_eq.
  - by apply Hp.
  - destruct (c s); simplify_eq. by exists g.
  - destruct Hp as (J & K & Hx & Hb & Hk). exists g. split; [done|]. split; [done|].
    eapply safe_bind; [by apply Hb|]. intros v [x'|y] Hr; cbn [again]; [|by apply Hk].
    cbn [safe]. exists J, K. split_and!; eauto.
Qed.

End Programs.

Notation "'call' x <- p 'in' k" := (pbind p (fun x => k)) (at level 10, x name, p at level 100, k at level 200) : conc_scope.
