(* ===== verification/Locks.v ===== *)
(** * The ticket spinlock of OpenSBI (lib/sbi/riscv_locks.c).

    [spinlock_t] is the pair of 16-bit counters [owner] and [next] that share
    one 32-bit word.  [spin_lock], [spin_trylock] and [spin_unlock] are given
    twice: as functions on the lock word for a hart that runs alone, and as
    the atomic memory accesses of their inline assembly, interleaved between
    harts.  The second model refines a first-come-first-served queue lock. *)

From S2P Require Import Prelude.

Local Open Scope Z_scope.

Create HintDb locks.

(** ** The data (include/sbi/riscv_locks.h) *)

Definition TICKET_SHIFT : Z := 16.

Record spinlock_t := Spinlock { owner : Z; next : Z }.

Definition SPIN_LOCK_UNLOCKED : spinlock_t := {| owner := 0; next := 0 |}.

(** The little-endian 32-bit word that holds the two counters. *)
Definition lock_word (l : spinlock_t) : Z := l.(owner) + l.(next) * 2 ^ TICKET_SHIFT.

Definition word_lock (w : Z) : spinlock_t :=
  {| owner := wrap 16 w; next := wrap 16 (Z.shiftr w TICKET_SHIFT) |}.

Definition lock_wf (l : spinlock_t) : Prop := in_range 16 l.(owner) /\ in_range 16 l.(next).

(** ** The operations for a hart that runs alone *)

Definition spin_lock_unlocked (l : spinlock_t) : bool := l.(owner) =? l.(next).

Definition spin_lock_check (l : spinlock_t) : bool := negb (spin_lock_unlocked l).

(** One pass of the lr/sc loop of [spin_trylock]: the final value of [l0]
    and the word stored by sc.w, if the branch to [2:] is not taken. *)
Definition trylock_pass (word : Z) : Z * option Z :=
  let inc := Z.shiftl 1 TICKET_SHIFT in
  let mask := Z.shiftl 0xffff TICKET_SHIFT in
  let tmp2 := Z.land (Z.shiftl word TICKET_SHIFT) mask in
  let tmp1 := Z.land word mask in
  if tmp1 =? tmp2 then (0, Some (u32 (word + inc))) else (word, None).

(** [sc_ok] is the outcome of each sc.w of the loop: [false] retries. *)
Fixpoint spin_trylock (sc_ok : list bool) (l : spinlock_t) : option (bool * spinlock_t) :=
  match trylock_pass (lock_word l) with
  | (l0, None) => Some (l0 =? 0, l)
  | (l0, Some w) =>
      match sc_ok with
      | true :: _ => Some (l0 =? 0, word_lock w)
      | false :: sc => spin_trylock sc l
      | [] => None
      end
  end.

(** [amoadd.w]: the ticket word read and the lock with [next] advanced. *)
Definition amoadd_ticket (l : spinlock_t) : Z * spinlock_t :=
  let inc := Z.shiftl 1 TICKET_SHIFT in
  (lock_word l, word_lock (u32 (lock_word l + inc))).

Definition ticket_of (l0 : Z) : Z := Z.land (Z.shiftr l0 TICKET_SHIFT) 0xffff.

(** [spin_lock] when no other hart runs: it returns at once on a free lock
    and spins for ever ([None]) on a held one. *)
Definition spin_lock (l : spinlock_t) : option spinlock_t :=
  let '(l0, l') := amoadd_ticket l in
  if ticket_of l0 =? Z.land l0 0xffff then Some l' else None.

Definition spin_unlock (l : spinlock_t) : spinlock_t :=
  {| owner := u16 (l.(owner) + 1); next := l.(next) |}.

(** ** The operations of several harts, interleaved

    A hart is between two atomic accesses to the lock word.  [Spin tk l0]
    holds the ticket [tmp1] and the last value [l0] read by [spin_lock];
    [Rel o] has read [lock->owner] in [spin_unlock] and not stored it yet;
    [Try w] is between lr.w and sc.w of [spin_trylock]. *)

Inductive pc := Idle | Spin (tk l0 : Z) | Crit | Rel (o : Z) | Try (w : Z).

Record sys := Sys { lk : spinlock_t; pcs : nat -> pc }.

(** SBI_HARTMASK_MAX_BITS of include/sbi/sbi_hartmask.h. *)
Definition NHARTS : nat := 128.

Inductive hart_step (i : nat) (s : sys) : sys -> Prop :=
| st_amoadd l0 l' :
    s.(pcs) i = Idle -> amoadd_ticket s.(lk) = (l0, l') ->
    hart_step i s (Sys l' (<[i := Spin (ticket_of l0) l0]> s.(pcs)))
| st_beq tk l0 :
    s.(pcs) i = Spin tk l0 -> tk = Z.land l0 0xffff ->
    hart_step i s (Sys s.(lk) (<[i := Crit]> s.(pcs)))
| st_lw tk l0 :
    s.(pcs) i = Spin tk l0 -> tk <> Z.land l0 0xffff ->
    hart_step i s (Sys s.(lk) (<[i := Spin tk (lock_word s.(lk))]> s.(pcs)))
| st_unlock_load :
    s.(pcs) i = Crit ->
    hart_step i s (Sys s.(lk) (<[i := Rel s.(lk).(owner)]> s.(pcs)))
| st_unlock_store o :
    s.(pcs) i = Rel o ->
    hart_step i s (Sys {| owner := u16 (o + 1); next := s.(lk).(next) |}
                       (<[i := Idle]> s.(pcs)))
| st_try_busy l0 :
    s.(pcs) i = Idle -> trylock_pass (lock_word s.(lk)) = (l0, None) ->
    hart_step i s s
| st_try_lr l0 w :
    s.(pcs) i = Idle -> trylock_pass (lock_word s.(lk)) = (l0, Some w) ->
    hart_step i s (Sys s.(lk) (<[i := Try (lock_word s.(lk))]> s.(pcs)))
| st_try_sc w l0 w' :
    s.(pcs) i = Try w -> lock_word s.(lk) = w -> trylock_pass w = (l0, Some w') ->
    hart_step i s (Sys (word_lock w') (<[i := Crit]> s.(pcs)))
| st_try_sc_fail w :
    s.(pcs) i = Try w ->
    hart_step i s (Sys s.(lk) (<[i := Idle]> s.(pcs))).

Definition sys_step (s s' : sys) : Prop := exists i, (i < NHARTS)%nat /\ hart_step i s s'.

Definition sys_init : sys := Sys SPIN_LOCK_UNLOCKED (fun _ => Idle).

(** ** Abstract specification: a first-come-first-served queue lock

    The queue holds the harts that have asked for the lock, oldest first; the
    flag says whether the hart at its head is in the critical section. *)

Inductive qlock_step : list nat * bool -> list nat * bool -> Prop :=
| q_arrive i q b : i ∉ q -> qlock_step (q, b) (q ++ [i], b)
| q_enter i q : qlock_step (i :: q, false) (i :: q, true)
| q_leave i q : qlock_step (i :: q, true) (q, false)
| q_try i : qlock_step ([], false) ([i], true).

(** ** Lemmas on the lock word *)

Lemma land_0xffff z : Z.land z 0xffff = wrap 16 z.
Proof. rewrite wrap_land by lia. done. Qed.

Lemma lock_word_owner l : lock_wf l -> Z.land (lock_word l) 0xffff = l.(owner).
Proof. intros [Ho _]. rewrite land_0xffff. by apply pack_low. Qed.

Lemma lock_word_ticket l : lock_wf l -> ticket_of (lock_word l) = l.(next).
Proof.
  intros [Ho Hn]. unfold ticket_of, lock_word, TICKET_SHIFT.
  rewrite pack_high by (done || lia). rewrite land_0xffff. by apply wrap_small.
Qed.

Lemma word_lock_inc l : lock_wf l ->
  word_lock (u32 (lock_word l + 2 ^ 16)) = {| owner := l.(owner); next := u16 (l.(next) + 1) |}.
Proof.
  intros [Ho Hn]. unfold word_lock, lock_word, TICKET_SHIFT, in_range in *.
  assert (Hc : u32 (owner l + next l * 2 ^ 16 + 2 ^ 16) = owner l + u16 (next l + 1) * 2 ^ 16).
  { unfold wrap. destruct (decide (next l = 2 ^ 16 - 1)) as [->|].
    - change ((2 ^ 16 - 1 + 1) `mod` 2 ^ 16) with 0.
      rewrite <- (Z_mod_plus_full _ (-1) (2 ^ 32)), Z.mod_small; lia.
    - rewrite !Z.mod_small by lia. lia. }
  rewrite Hc. f_equal; [by apply pack_low|].
  rewrite pack_high by (done || lia). apply wrap_wrap; lia.
Qed.

Lemma amoadd_ticket_eq l : lock_wf l ->
  amoadd_ticket l = (lock_word l, {| owner := l.(owner); next := u16 (l.(next) + 1) |}).
Proof. intros Hl. unfold amoadd_ticket. by rewrite <- word_lock_inc. Qed.

Lemma trylock_pass_eq l : lock_wf l ->
  trylock_pass (lock_word l) =
    if l.(owner) =? l.(next) then (0, Some (u32 (lock_word l + 2 ^ 16))) else (lock_word l, None).
Proof.
  intros [Ho Hn]. unfold trylock_pass.
  assert (Hm : forall a, Z.land a (Z.shiftl 0xffff TICKET_SHIFT)
                         = Z.shiftl (wrap 16 (Z.shiftr a 16)) 16).
  { intros a. rewrite wrap_land by lia. unfold TICKET_SHIFT.
    change 0xffff with (Z.ones 16). zbits i Hi.
    destruct (decide (16 <= i)); [|rewrite !(Z.testbit_neg_r _ (i - 16)) by lia; by rewrite !andb_false_r].
    rewrite Z.shiftr_spec by lia. by rewrite Z.sub_add. }
  rewrite !Hm. unfold lock_word at 1 2, TICKET_SHIFT.
  rewrite pack_high, (wrap_small _ (next l)) by (done || lia).
  rewrite Z.shiftr_shiftl_l, Z.sub_diag, Z.shiftl_0_r by lia.
  fold TICKET_SHIFT. unfold TICKET_SHIFT. rewrite pack_low by done.
  rewrite !Z.shiftl_mul_pow2 by lia. rewrite (Z.eqb_sym (owner l)).
  destruct (Z.eqb_spec (next l) (owner l)) as [->|]; [by rewrite Z.eqb_refl|].
  destruct (Z.eqb_spec (next l * 2 ^ 16) (owner l * 2 ^ 16)); [lia|done].
Qed.

Lemma lock_word_zero l : lock_wf l -> lock_word l = 0 -> l.(owner) = l.(next).
Proof. intros [[??] [??]]. unfold lock_word, TICKET_SHIFT. lia. Qed.

(** A hart that runs alone takes and releases a free lock without waiting. *)
Definition lock_free (l : spinlock_t) : Prop := lock_wf l /\ spin_lock_unlocked l = true.

Definition acquired (l : spinlock_t) : spinlock_t :=
  {| owner := l.(owner); next := u16 (l.(next) + 1) |}.

Lemma spin_lock_free l : lock_free l -> spin_lock l = Some (acquired l).
Proof.
  intros [Hwf Hf]. unfold spin_lock. rewrite amoadd_ticket_eq by done.
  rewrite lock_word_ticket, lock_word_owner, Z.eqb_sym by done.
  unfold spin_lock_unlocked in Hf. by rewrite Hf.
Qed.

Lemma spin_unlock_free l : lock_free l -> lock_free (spin_unlock (acquired l)).
Proof.
  intros [[Ho Hn] Hf]. unfold spin_lock_unlocked in Hf. apply Z.eqb_eq in Hf.
  split; [split; by apply wrap_range|]. unfold spin_lock_unlocked. simpl. by rewrite Hf, Z.eqb_refl.
Qed.

Lemma unlocked_free : lock_free SPIN_LOCK_UNLOCKED.
Proof. repeat split; simpl; lia. Qed.

#[export] Hint Resolve spin_unlock_free unlocked_free : locks.

(** ** The refinement *)

Definition waiter_ok (l : spinlock_t) (b : bool) (k : nat) (p : pc) : Prop :=
  match p with
  | Spin tk l0 => tk = u16 (l.(owner) + Z.of_nat k) /\ (Z.land l0 0xffff = tk -> k = 0%nat)
                  /\ (k = 0%nat -> b = false)
  | Crit => k = 0%nat /\ b = true
  | Rel o => k = 0%nat /\ b = true /\ o = l.(owner)
  | Idle | Try _ => False
  end.

Definition outside (p : pc) : Prop := p = Idle \/ exists w, p = Try w.

Record lock_repr (s : sys) (q : list nat) (b : bool) : Prop := {
  repr_wf : lock_wf s.(lk);
  repr_nodup : NoDup q;
  repr_harts : Forall (fun i => (i < NHARTS)%nat) q;
  repr_next : s.(lk).(next) = u16 (s.(lk).(owner) + Z.of_nat (length q));
  repr_in : forall k i, q !! k = Some i -> waiter_ok s.(lk) b k (s.(pcs) i);
  repr_out : forall i, i ∉ q -> outside (s.(pcs) i);
  repr_empty : q = [] -> b = false;
}.

Lemma nodup_bounded_length (q : list nat) (n : nat) :
  NoDup q -> Forall (fun i => (i < n)%nat) q -> (length q <= n)%nat.
Proof.
  intros Hnd Hall. replace n with (length (seq 0 n)) by apply length_seq.
  apply submseteq_length, NoDup_submseteq; [done|].
  intros i Hi. rewrite Forall_forall in Hall.
  apply elem_of_seq. specialize (Hall i Hi). lia.
Qed.

Lemma u16_offset_inj o a b :
  0 <= a < 2 ^ 16 -> 0 <= b < 2 ^ 16 -> u16 (o + a) = u16 (o + b) -> a = b.
Proof.
  intros Ha Hb Heq. unfold wrap in Heq.
  assert (Hd : ((o + a) - (o + b)) `mod` 2 ^ 16 = 0).
  { by rewrite Zminus_mod, Heq, Z.sub_diag. }
  replace (o + a - (o + b)) with (a - b) in Hd by lia.
  apply Z.mod_divide in Hd as [c Hc]; lia.
Qed.

Section Simulation.
Context (s : sys) (q : list nat) (b : bool) (Hr : lock_repr s q b).

Lemma queue_length : (length q <= NHARTS)%nat.
Proof. eapply nodup_bounded_length; apply Hr. Qed.

Lemma in_queue i : ~ outside (s.(pcs) i) -> exists k, q !! k = Some i.
Proof.
  intros Hout. destruct (decide (i ∈ q)) as [Hi|Hi]; [by apply list_elem_of_lookup in Hi|].
  by destruct Hout; apply (repr_out _ _ _ Hr).
Qed.

Lemma not_in_queue i : outside (s.(pcs) i) -> i ∉ q.
Proof.
  intros Hout Hi. apply list_elem_of_lookup in Hi as [k Hk].
  pose proof (repr_in _ _ _ Hr _ _ Hk) as Hw. destruct Hout as [Ew | [w Ew]]; by rewrite Ew in Hw.
Qed.

Lemma next_is_owner : s.(lk).(owner) = s.(lk).(next) -> q = [].
Proof.
  intros Heq. pose proof queue_length. unfold NHARTS in *.
  pose proof (repr_next _ _ _ Hr) as Hn. destruct (repr_wf _ _ _ Hr) as [Ho _].
  rewrite <- Heq, <- (wrap_small 16 (owner (lk s))) in Hn at 1 by done.
  rewrite <- (Z.add_0_r (owner (lk s))) in Hn at 1.
  apply u16_offset_inj in Hn; [|lia|lia]. destruct q; [done|simpl in *; lia].
Qed.

(** Only the hart at the head of the queue has left the waiting loop. *)
Lemma head_of_queue i k : q !! k = Some i -> k = 0%nat -> exists q', q = i :: q'.
Proof. intros Hk ->. destruct q; simplify_eq/=. eauto. Qed.

(** A step that leaves the lock word alone keeps the other harts' claims. *)
Lemma repr_pc_update i k p :
  q !! k = Some i -> waiter_ok s.(lk) b k p -> lock_repr (Sys s.(lk) (<[i := p]> s.(pcs))) q b.
Proof.
  intros Hk Hp. destruct Hr as [? Hnd ?? Hin Hout ?]. split; try done; simpl.
  - intros k' j Hj. destruct (decide (i = j)) as [<-|].
    + assert (k' = k) as -> by (eapply NoDup_lookup; eauto). by rewrite fn_lookup_insert.
    + rewrite fn_lookup_insert_ne by done. eauto.
  - intros j Hj. rewrite fn_lookup_insert_ne; [eauto|]. intros <-. apply Hj.
    eapply list_elem_of_lookup_2; eauto.
Qed.

Lemma repr_outside_update i p :
  i ∉ q -> outside p -> lock_repr (Sys s.(lk) (<[i := p]> s.(pcs))) q b.
Proof.
  intros Hi Hp. destruct Hr as [???? Hin Hout ?]. split; try done; simpl.
  - intros k j Hj. rewrite fn_lookup_insert_ne; [eauto|]. intros <-. apply Hi.
    eapply list_elem_of_lookup_2; eauto.
  - intros j Hj. destruct (decide (i = j)) as [<-|];
      [by rewrite fn_lookup_insert|rewrite fn_lookup_insert_ne by done; eauto].
Qed.

Lemma repr_arrive i p b' :
  (i < NHARTS)%nat -> i ∉ q -> (q = [] \/ b' = b) -> waiter_ok s.(lk) b' (length q) p ->
  lock_repr (Sys {| owner := s.(lk).(owner); next := u16 (s.(lk).(next) + 1) |}
                 (<[i := p]> s.(pcs))) (q ++ [i]) b'.
Proof.
  intros Hlt Hi Hb Hp. destruct Hr as [[Ho Hn] Hnd Hall Hnext Hin Hout _].
  split; simpl.
  - split; simpl; [done|by apply wrap_range].
  - apply NoDup_app. repeat split; [done| |by apply NoDup_singleton].
    intros j Hj Hj'. by apply list_elem_of_singleton in Hj' as ->.
  - apply Forall_app. by rewrite Forall_singleton.
  - rewrite Hnext, wrap_add_l, length_app. simpl. f_equal. lia.
  - intros k j Hk. apply lookup_app_Some in Hk as [Hk|[Hlen Hk]].
    + rewrite fn_lookup_insert_ne by (intros <-; apply Hi; eapply list_elem_of_lookup_2; eauto).
      destruct Hb as [Hq|Hb]; [by rewrite Hq in Hk|subst b'; by apply Hin].
    + apply list_lookup_singleton_Some in Hk as [Hk <-]. rewrite fn_lookup_insert.
      replace k with (length q) by lia. by destruct p.
  - intros j Hj. rewrite fn_lookup_insert_ne by set_solver. apply Hout. set_solver.
  - by destruct q.
Qed.

(** The head leaves: every waiter moves up one place. *)
Lemma repr_leave i q' :
  q = i :: q' -> b = true ->
  lock_repr (Sys {| owner := u16 (s.(lk).(owner) + 1); next := s.(lk).(next) |}
                 (<[i := Idle]> s.(pcs))) q' false.
Proof.
  intros Hq Hb. pose proof queue_length as Hlen. unfold NHARTS in *.
  destruct Hr as [[Ho Hn] Hnd Hall Hnext Hin Hout _]. subst q b.
  apply NoDup_cons in Hnd as [Hni Hnd]. apply Forall_cons in Hall as [? Hall].
  split; simpl; try done.
  - split; simpl; [by apply wrap_range|done].
  - rewrite Hnext, wrap_add_l. f_equal. simpl. lia.
  - intros k j Hk. assert (i <> j) by (intros <-; apply Hni; eapply list_elem_of_lookup_2; eauto).
    rewrite fn_lookup_insert_ne by done. pose proof (Hin (S k) j Hk) as Hw.
    apply lookup_lt_Some in Hk. simpl in Hlen.
    destruct (pcs s j); simpl in *; try (destruct Hw; lia || done).
    destruct Hw as (-> & Hl & _). rewrite wrap_add_l. split_and!; [f_equal; lia| |done].
    intros He. specialize (Hl He). lia.
  - intros j Hj. destruct (decide (i = j)) as [<-|];
      [rewrite fn_lookup_insert; by left|rewrite fn_lookup_insert_ne by done].
    apply Hout. set_solver.
Qed.

(** A hart that enters is at the head of the queue, and nobody is inside. *)
Lemma repr_enter i tk l0 :
  s.(pcs) i = Spin tk l0 -> tk = Z.land l0 0xffff ->
  exists q', q = i :: q' /\ b = false /\ lock_repr (Sys s.(lk) (<[i := Crit]> s.(pcs))) q true.
Proof.
  intros Hpc Htk. destruct (in_queue i) as [k Hk]; [by rewrite Hpc; intros [|[? ?]]|].
  pose proof (repr_in _ _ _ Hr _ _ Hk) as Hw. rewrite Hpc in Hw.
  destruct Hw as (_ & H0 & Hbf). specialize (H0 (eq_sym Htk)) as ->.
  destruct (head_of_queue i 0 Hk eq_refl) as [q' Hq]. exists q'. split_and!; [done|by apply Hbf|].
  specialize (Hbf eq_refl). clear Htk Hpc.
  destruct Hr as [? Hnd ?? Hin Hout ?]. subst q. split; try done; simpl.
  - intros [|k'] j Hj; simplify_eq/=; [by rewrite fn_lookup_insert|].
    assert (j ≠ i) by (intros ->; apply NoDup_cons in Hnd as [[] _]; eapply list_elem_of_lookup_2; eauto).
    rewrite fn_lookup_insert_ne by done. specialize (Hin (S k') j Hj).
    destruct (pcs s j); simpl in *; naive_solver lia.
  - intros j Hj. rewrite fn_lookup_insert_ne; [eauto|set_solver].
Qed.
End Simulation.

Lemma lock_init_repr : lock_repr sys_init [] false.
Proof. split; simpl; try done; try constructor; try done; by left. Qed.

(** Each atomic access is a step of the queue lock, or no step. *)
Lemma lock_simulation s s' q b :
  lock_repr s q b -> sys_step s s' ->
  exists q' b', ((q', b') = (q, b) \/ qlock_step (q, b) (q', b')) /\ lock_repr s' q' b'.
Proof.
  intros Hr (i & Hi & Hst). pose proof (repr_wf _ _ _ Hr) as Hwf.
  destruct Hst as [l0 l' Hpc Hamo|tk l0 Hpc Htk|tk l0 Hpc Htk|Hpc|o Hpc|l0 Hpc _
                  |l0 w Hpc _|w l0 w' Hpc <- Hp|w Hpc].
  - rewrite amoadd_ticket_eq in Hamo by done. simplify_eq. rewrite lock_word_ticket by done.
    assert (Hni : i ∉ q) by (eapply not_in_queue; [done|by left]).
    exists (q ++ [i]), b. split; [right; by constructor|]. eapply repr_arrive; try done; [by right|].
    pose proof (repr_next _ _ _ Hr) as Hn. pose proof (queue_length _ _ _ Hr). unfold NHARTS in *.
    split_and!; [done|rewrite lock_word_owner by done; intros Ho; apply next_is_owner in Hr; subst; done|].
    intros Hq. eapply repr_empty; [done|]. by apply nil_length_inv.
  - destruct (repr_enter _ _ _ Hr _ _ _ Hpc Htk) as (q' & -> & -> & Hr').
    exists (i :: q'), true. split; [right; constructor|done].
  - destruct (in_queue _ _ _ Hr i) as [k Hk]; [by rewrite Hpc; intros [|[? ?]]|].
    exists q, b. split; [by left|]. eapply repr_pc_update; [done..|].
    pose proof (repr_in _ _ _ Hr _ _ Hk) as Hw. rewrite Hpc in Hw. destruct Hw as (-> & _ & Hb).
    split_and!; [done| |done]. rewrite lock_word_owner by done. intros Ho.
    pose proof (queue_length _ _ _ Hr). apply lookup_lt_Some in Hk. unfold NHARTS in *.
    destruct Hwf as [Hwo _]. rewrite <- (wrap_small 16 (owner (lk s))) in Ho at 1 by done.
    rewrite <- (Z.add_0_r (owner (lk s))) in Ho at 1. apply u16_offset_inj in Ho; lia.
  - destruct (in_queue _ _ _ Hr i) as [k Hk]; [by rewrite Hpc; intros [|[? ?]]|].
    exists q, b. split; [by left|]. eapply repr_pc_update; [done..|].
    pose proof (repr_in _ _ _ Hr _ _ Hk) as Hw. rewrite Hpc in Hw. by destruct Hw.
  - destruct (in_queue _ _ _ Hr i) as [k Hk]; [by rewrite Hpc; intros [|[? ?]]|].
    pose proof (repr_in _ _ _ Hr _ _ Hk) as Hw. rewrite Hpc in Hw. destruct Hw as (-> & -> & ->).
    destruct (head_of_queue _ _ _ Hr _ _ Hk eq_refl) as [q' ->].
    exists q', false. split; [right; constructor|by eapply repr_leave].
  - exists q, b. split; [by left|done].
  - exists q, b. split; [by left|]. eapply repr_outside_update; [done| |right; eauto].
    eapply not_in_queue; [done|by left].
  - rewrite trylock_pass_eq in Hp by done.
    destruct (Z.eqb_spec (owner (lk s)) (next (lk s))) as [Ho|]; [|done]. simplify_eq.
    pose proof (next_is_owner _ _ _ Hr Ho) as ->. rewrite (repr_empty _ _ _ Hr eq_refl).
    exists [i], true. split; [right; constructor|].
    rewrite word_lock_inc by done. eapply (repr_arrive _ [] b); try done; [by apply not_elem_of_nil|by left].
  - exists q, b. split; [by left|]. eapply repr_outside_update; [done| |by left].
    eapply not_in_queue; [done|right; eauto].
Qed.

Lemma reachable_repr s :
  steps sys_step sys_init s ->
  exists q b, steps qlock_step ([], false) (q, b) /\ lock_repr s q b.
Proof.
  remember sys_init as s0 eqn:Hs0. induction 1 as [s|s t u _ IH Hst]; subst.
  - eexists _, _. split; [apply steps_nil|apply lock_init_repr].
  - destruct IH as (q & b & Hq & Hr); [done|].
    destruct (lock_simulation _ _ _ _ Hr Hst) as (q' & b' & [Heq|Hqs] & Hr');
      exists q', b'; (split; [|done]); [by rewrite Heq|by eapply steps_snoc].
Qed.

Definition holds (p : pc) : Prop := p = Crit \/ exists o, p = Rel o.

Lemma holder_is_head s q b i :
  lock_repr s q b -> holds (s.(pcs) i) -> head q = Some i /\ b = true.
Proof.
  intros Hr Hh. destruct (in_queue _ _ _ Hr i) as [k Hk].
  { intros [Ho|[w Ho]]; rewrite Ho in Hh; by destruct Hh as [|[? ?]]. }
  pose proof (repr_in _ _ _ Hr _ _ Hk) as Hw.
  destruct Hh as [E|[o E]]; rewrite E in Hw; destruct Hw as [-> Hw];
    destruct (head_of_queue _ _ _ Hr _ _ Hk eq_refl) as [q' ->]; destruct Hw; by subst.
Qed.

(** ** Progress of the waiting harts *)

(** A hart at the head of the queue reaches the critical section by itself. *)
Lemma head_enters s q i tk l0 :
  lock_repr s (i :: q) false -> s.(pcs) i = Spin tk l0 ->
  exists s', steps sys_step s s' /\ lock_repr s' (i :: q) true /\ s'.(pcs) i = Crit
             /\ (forall j, j <> i -> s'.(pcs) j = s.(pcs) j).
Proof.
  intros Hr Hpc. pose proof (Forall_inv (repr_harts _ _ _ Hr)) as Hi.
  assert (Hgo : forall s tk l0, lock_repr s (i :: q) false -> s.(pcs) i = Spin tk l0 ->
    tk = Z.land l0 0xffff ->
    exists s', steps sys_step s s' /\ lock_repr s' (i :: q) true /\ s'.(pcs) i = Crit
             /\ (forall j, j <> i -> s'.(pcs) j = s.(pcs) j)).
  { intros s1 tk1 l1 Hr1 Hpc1 Htk. destruct (repr_enter _ _ _ Hr1 _ _ _ Hpc1 Htk) as (? & _ & _ & Hr2).
    eexists. split; [apply steps_one; exists i; split; [done|by eapply st_beq]|].
    split; [done|]. simpl. rewrite fn_lookup_insert. split; [done|].
    intros j Hj. by rewrite fn_lookup_insert_ne. }
  destruct (decide (tk = Z.land l0 0xffff)) as [Htk|Htk]; [by eapply Hgo|].
  pose proof (repr_in _ _ _ Hr 0%nat i eq_refl) as Hw. rewrite Hpc in Hw.
  destruct Hw as (Et & _ & _). destruct (repr_wf _ _ _ Hr) as [Ho Hn].
  set (s1 := Sys s.(lk) (<[i := Spin tk (lock_word s.(lk))]> s.(pcs))).
  assert (Hst : sys_step s s1) by (exists i; split; [done|by eapply st_lw]).
  destruct (Hgo s1 tk (lock_word s.(lk))) as (s' & Hs & Hr' & Hc & Hj).
  - by eapply (repr_pc_update _ _ _ Hr i 0).
  - simpl. by rewrite fn_lookup_insert.
  - rewrite lock_word_owner by done. rewrite Et, Z.add_0_r. by apply wrap_small.
  - exists s'. split; [by eapply steps_cons|]. split_and!; [done..|].
    intros j Hne. rewrite Hj by done. simpl. by rewrite fn_lookup_insert_ne.
Qed.

Lemma holder_releases s q i :
  lock_repr s (i :: q) true -> holds (s.(pcs) i) ->
  exists s', steps sys_step s s' /\ lock_repr s' q false
             /\ (forall j, j <> i -> s'.(pcs) j = s.(pcs) j).
Proof.
  intros Hr Hh. pose proof (Forall_inv (repr_harts _ _ _ Hr)) as Hi.
  assert (Hgo : forall s, lock_repr s (i :: q) true -> s.(pcs) i = Rel s.(lk).(owner) ->
    exists s', steps sys_step s s' /\ lock_repr s' q false
               /\ (forall j, j <> i -> s'.(pcs) j = s.(pcs) j)).
  { intros s1 Hr1 Hpc. eexists. split; [apply steps_one; exists i; split; [done|by eapply st_unlock_store]|].
    split; [by eapply repr_leave|]. intros j Hj. simpl. by rewrite fn_lookup_insert_ne. }
  pose proof (repr_in _ _ _ Hr 0%nat i eq_refl) as Hw.
  destruct Hh as [Hpc|[o Hpc]]; rewrite Hpc in Hw; [|destruct Hw as (_ & _ & ->); by apply Hgo].
  set (s1 := Sys s.(lk) (<[i := Rel s.(lk).(owner)]> s.(pcs))).
  destruct (Hgo s1) as (s' & Hs & Hr' & Hj).
  - by eapply (repr_pc_update _ _ _ Hr i 0).
  - simpl. by rewrite fn_lookup_insert.
  - exists s'. split; [eapply steps_cons; [exists i; split; [done|by apply st_unlock_load]|done]|].
    split; [done|]. intros j Hne. rewrite Hj by done. simpl. by rewrite fn_lookup_insert_ne.
Qed.

Lemma head_leaves s q b i :
  lock_repr s (i :: q) b ->
  exists s', steps sys_step s s' /\ lock_repr s' q false
             /\ (forall j, j <> i -> s'.(pcs) j = s.(pcs) j).
Proof.
  intros Hr. pose proof (repr_in _ _ _ Hr 0%nat i eq_refl) as Hw.
  destruct (pcs s i) as [|tk l0| |o|w] eqn:Hpc; try done; simpl in Hw.
  - destruct Hw as (_ & _ & Hb). specialize (Hb eq_refl) as ->.
    destruct (head_enters _ _ _ _ _ Hr Hpc) as (s1 & Hs1 & Hr1 & Hc & Hj).
    destruct (holder_releases _ _ _ Hr1) as (s2 & Hs2 & Hr2 & Hj2); [by left|].
    exists s2. split; [by eapply steps_trans|]. split; [done|]. intros j Hne. by rewrite Hj2, Hj.
  - destruct Hw as [_ ->]. apply holder_releases; [done|by left].
  - destruct Hw as (_ & -> & ->). apply holder_releases; [done|right; eauto].
Qed.

Lemma waiter_enters k : forall s q b i tk l0,
  lock_repr s q b -> q !! k = Some i -> s.(pcs) i = Spin tk l0 ->
  exists s', steps sys_step s s' /\ s'.(pcs) i = Crit.
Proof.
  induction k as [|k IH]; intros s q b i tk l0 Hr Hk Hpc; destruct q as [|h q]; simplify_eq/=.
  - pose proof (repr_in _ _ _ Hr 0%nat i eq_refl) as Hw. rewrite Hpc in Hw.
    destruct Hw as (_ & _ & Hb). specialize (Hb eq_refl) as ->.
    destruct (head_enters _ _ _ _ _ Hr Hpc) as (s1 & ? & _ & ? & _). eauto.
  - destruct (head_leaves _ _ _ _ Hr) as (s1 & Hs1 & Hr1 & Hj).
    assert (i <> h).
    { intros ->. pose proof (repr_nodup _ _ _ Hr) as Hnd. apply NoDup_cons in Hnd as [[] _].
      by eapply list_elem_of_lookup_2. }
    destruct (IH s1 q false i tk l0) as (s2 & ? & ?); [done|done|by rewrite Hj|].
    exists s2. split; [by eapply steps_trans|done].
Qed.

(** ** Properties *)

(** No two harts are ever in the critical section of the same ticket lock
    (between the exit of [spin_lock] or a successful [spin_trylock] and the
    store of [spin_unlock]), however their atomic accesses interleave. *)
Theorem spinlock_mutual_exclusion s i j :
  steps sys_step sys_init s -> holds (s.(pcs) i) -> holds (s.(pcs) j) -> i = j.
Proof.
  intros Hs Hi Hj. destruct (reachable_repr s Hs) as (q & b & _ & Hr).
  destruct (holder_is_head _ _ _ _ Hr Hi), (holder_is_head _ _ _ _ Hr Hj). congruence.
Qed.

(** C12: the ticket lock refines the first-come-first-served queue lock: every
    reachable state corresponds to a reachable queue whose members are exactly
    the harts that hold a ticket, in ticket order, and whose head is the only
    hart that may be inside. *)
Theorem spinlock_refines_queue_lock s :
  steps sys_step sys_init s ->
  exists q b, steps qlock_step ([], false) (q, b) /\
    s.(lk).(next) = u16 (s.(lk).(owner) + Z.of_nat (length q)) /\
    (forall i, i ∈ q <-> ~ outside (s.(pcs) i)) /\
    (forall k i tk l0, q !! k = Some i -> s.(pcs) i = Spin tk l0 ->
       tk = u16 (s.(lk).(owner) + Z.of_nat k)) /\
    (forall i, holds (s.(pcs) i) -> head q = Some i /\ b = true).
Proof.
  intros Hs. destruct (reachable_repr s Hs) as (q & b & Hq & Hr). exists q, b. split_and!; try done.
  - apply Hr.
  - intros i. split; [intros Hi Ho; by eapply not_in_queue|].
    intros Ho. destruct (in_queue _ _ _ Hr i Ho) as [k Hk]. by eapply list_elem_of_lookup_2.
  - intros k i tk l0 Hk Hpc. pose proof (repr_in _ _ _ Hr _ _ Hk) as Hw. rewrite Hpc in Hw. apply Hw.
  - intros i. by apply holder_is_head.
Qed.

(** No waiting hart is locked out: from every reachable state in which a
    hart spins, some schedule of the harts takes it into the critical section. *)
Theorem spinlock_waiter_can_enter s i tk l0 :
  steps sys_step sys_init s -> s.(pcs) i = Spin tk l0 ->
  exists s', steps sys_step s s' /\ s'.(pcs) i = Crit.
Proof.
  intros Hs Hpc. destruct (reachable_repr s Hs) as (q & b & _ & Hr).
  destruct (in_queue _ _ _ Hr i) as [k Hk]; [by rewrite Hpc; intros [|[? ?]]|].
  by eapply waiter_enters.
Qed.

(** ** Witnesses *)

(** Hart 0 takes the lock, then hart 1 waits with ticket 1. *)
Definition one_spins : sys :=
  Sys {| owner := 0; next := 1 |} (<[0%nat := Spin 0 0]> (fun _ => Idle)).

Definition one_holds : sys := Sys {| owner := 0; next := 1 |} (<[0%nat := Crit]> one_spins.(pcs)).

Definition two_harts : sys :=
  Sys {| owner := 0; next := 2 |} (<[1%nat := Spin 1 65536]> one_holds.(pcs)).

Lemma two_harts_reachable : steps sys_step sys_init two_harts.
Proof.
  apply (steps_snoc _ _ one_holds); [apply (steps_snoc _ _ one_spins); [apply steps_one|]|].
  - exists 0%nat. split; [unfold NHARTS; lia|].
    exact (st_amoadd 0 sys_init 0 {| owner := 0; next := 1 |} eq_refl eq_refl).
  - exists 0%nat. split; [unfold NHARTS; lia|]. exact (st_beq 0 one_spins 0 0 eq_refl eq_refl).
  - exists 1%nat. split; [unfold NHARTS; lia|].
    exact (st_amoadd 1 one_holds 65536 {| owner := 0; next := 2 |} eq_refl eq_refl).
Defined.

Lemma spinlock_mutual_exclusion_witness : holds (two_harts.(pcs) 0%nat) /\ 0%nat = 0%nat.
Proof.
  split; [by left|].
  apply (spinlock_mutual_exclusion two_harts 0 0); [apply two_harts_reachable|by left|by left].
Defined.

Lemma spinlock_refines_queue_lock_witness :
  exists q b, steps qlock_step ([], false) (q, b) /\ 2 = u16 (0 + Z.of_nat (length q)).
Proof.
  destruct (spinlock_refines_queue_lock two_harts two_harts_reachable) as (q & b & ? & ? & _).
  exists q, b. by split.
Defined.

Lemma spinlock_waiter_can_enter_witness :
  exists s', steps sys_step two_harts s' /\ s'.(pcs) 1%nat = Crit.
Proof. apply (spinlock_waiter_can_enter two_harts 1 1 65536); [apply two_harts_reachable|reflexivity]. Defined.
