(* ===== verification/Fifo.v ===== *)
(** * The FIFO of OpenSBI (lib/sbi/sbi_fifo.c).

    A ring of [num_entries] entries of [entry_size] bytes in the byte array
    [queue].  A null [struct sbi_fifo *] or [void *data] is [None].  An
    operation is [None] when it spins for ever on [qlock].  The operations
    refine a bounded first-in-first-out queue of entries. *)

From S2P Require Import Prelude SbiTypes Locks.

Local Open Scope Z_scope.

(** ** The data (include/sbi/sbi_fifo.h) *)

Record sbi_fifo := mkFifo {
  queue : list Z;
  qlock : spinlock_t;
  entry_size : Z;
  num_entries : Z;
  avail : Z;
  tail : Z;
}.

Definition SBI_FIFO_SKIP : Z := 0.
Definition SBI_FIFO_UPDATED : Z := 1.
Definition SBI_FIFO_UNCHANGED : Z := 2.

Definition set_queue (q : list Z) (f : sbi_fifo) : sbi_fifo :=
  mkFifo q f.(qlock) f.(entry_size) f.(num_entries) f.(avail) f.(tail).
Definition set_qlock (l : spinlock_t) (f : sbi_fifo) : sbi_fifo :=
  mkFifo f.(queue) l f.(entry_size) f.(num_entries) f.(avail) f.(tail).
Definition set_avail (a : Z) (f : sbi_fifo) : sbi_fifo :=
  mkFifo f.(queue) f.(qlock) f.(entry_size) f.(num_entries) a f.(tail).
Definition set_tail (t : Z) (f : sbi_fifo) : sbi_fifo :=
  mkFifo f.(queue) f.(qlock) f.(entry_size) f.(num_entries) f.(avail) t.

(** ** Byte copies of the source *)

(** [n] bytes read at offset [off]. *)
Definition load_bytes (m : list Z) (off n : Z) : list Z := take (Z.to_nat n) (drop (Z.to_nat off) m).

Definition store_bytes (m : list Z) (off : Z) (bs : list Z) : list Z :=
  list_inserts (Z.to_nat off) bs m.

Definition sbi_memset (m : list Z) (c : Z) (count : Z) : list Z :=
  list_inserts 0 (replicate (Z.to_nat count) c) m.

(** The bytes moved by the [switch] on [entry_size]: one scalar access of
    width 1, 2, 4 or 8, or [sbi_memcpy] of [entry_size] bytes. *)
Definition copy_width (es : Z) : Z :=
  if es =? 1 then 1 else if es =? 2 then 2 else if es =? 4 then 4
  else if es =? 8 then 8 else es.

(** ** The operations *)

Definition sbi_fifo_init (queue_mem : list Z) (entries es : Z) : sbi_fifo :=
  mkFifo (sbi_memset queue_mem 0 (entries * es)) SPIN_LOCK_UNLOCKED es entries 0 0.

Definition __sbi_fifo_is_full (f : sbi_fifo) : bool := f.(avail) =? f.(num_entries).

Definition __sbi_fifo_is_empty (f : sbi_fifo) : bool := f.(avail) =? 0.

Definition sbi_fifo_avail (fp : option sbi_fifo) : option (Z * option sbi_fifo) :=
  match fp with
  | None => Some (0, None)
  | Some f =>
      l ← spin_lock f.(qlock);
      let ret := f.(avail) in
      Some (ret, Some (set_qlock (spin_unlock l) f))
  end.

Definition sbi_fifo_is_full (fp : option sbi_fifo) : option (Z * option sbi_fifo) :=
  match fp with
  | None => Some (SBI_EINVAL, None)
  | Some f =>
      l ← spin_lock f.(qlock);
      let ret := __sbi_fifo_is_full f in
      Some (Z.b2z ret, Some (set_qlock (spin_unlock l) f))
  end.

Definition sbi_fifo_is_empty (fp : option sbi_fifo) : option (Z * option sbi_fifo) :=
  match fp with
  | None => Some (SBI_EINVAL, None)
  | Some f =>
      l ← spin_lock f.(qlock);
      let ret := __sbi_fifo_is_empty f in
      Some (Z.b2z ret, Some (set_qlock (spin_unlock l) f))
  end.

Definition __sbi_fifo_enqueue (f : sbi_fifo) (data : list Z) : sbi_fifo :=
  let head := u32 (f.(tail) + f.(avail)) in
  let head := if f.(num_entries) <=? head then u32 (head - f.(num_entries)) else head in
  let f := set_queue (store_bytes f.(queue) (u32 (head * f.(entry_size)))
                        (take (Z.to_nat (copy_width f.(entry_size))) data)) f in
  set_avail (u16 (f.(avail) + 1)) f.

(** [want] is false for a null [data]. *)
Definition __sbi_fifo_dequeue (f : sbi_fifo) (want : bool) : option (list Z) * sbi_fifo :=
  let out := if want
             then Some (load_bytes f.(queue) (u32 (f.(tail) * f.(entry_size)))
                          (copy_width f.(entry_size)))
             else None in
  let f := set_avail (u16 (f.(avail) - 1)) f in
  let f := set_tail (u16 (f.(tail) + 1)) f in
  let f := if f.(num_entries) <=? f.(tail) then set_tail 0 f else f in
  (out, f).

Definition __sbi_fifo_reset (f : sbi_fifo) : sbi_fifo :=
  let size := f.(num_entries) * f.(entry_size) in
  let f := set_avail 0 f in
  let f := set_tail 0 f in
  set_queue (sbi_memset f.(queue) 0 size) f.

Definition sbi_fifo_reset (fp : option sbi_fifo) : option (bool * option sbi_fifo) :=
  match fp with
  | None => Some (false, None)
  | Some f =>
      l ← spin_lock f.(qlock);
      let f := __sbi_fifo_reset (set_qlock l f) in
      Some (true, Some (set_qlock (spin_unlock l) f))
  end.

(** The loop of [sbi_fifo_inplace_update] from index [i], [n] entries left.
    [fptr] returns its code and the entry as it leaves it. *)
Fixpoint inplace_loop (fptr : list Z -> Z * list Z) (n : nat) (i ret : Z) (f : sbi_fifo)
  : Z * sbi_fifo :=
  match n with
  | O => (ret, f)
  | S n =>
      let index := f.(tail) + i in
      let index := if f.(num_entries) <=? index then index - f.(num_entries) else index in
      let off := u32 (index * f.(entry_size)) in
      let '(ret, entry) := fptr (load_bytes f.(queue) off f.(entry_size)) in
      let f := set_queue (store_bytes f.(queue) off entry) f in
      if (ret =? SBI_FIFO_SKIP) || (ret =? SBI_FIFO_UPDATED) then (ret, f)
      else inplace_loop fptr n (i + 1) ret f
  end.

(** [fptr in], with [None] for a null [in]. *)
Definition sbi_fifo_inplace_update (fp : option sbi_fifo) (fptr : option (list Z -> Z * list Z))
  : option (Z * option sbi_fifo) :=
  match fp, fptr with
  | Some f, Some fptr =>
      l ← spin_lock f.(qlock);
      if __sbi_fifo_is_empty f then
        Some (SBI_FIFO_UNCHANGED, Some (set_qlock (spin_unlock l) f))
      else
        let '(ret, f) := inplace_loop fptr (Z.to_nat f.(avail)) 0 SBI_FIFO_UNCHANGED (set_qlock l f) in
        Some (ret, Some (set_qlock (spin_unlock l) f))
  | _, _ => Some (SBI_FIFO_UNCHANGED, fp)
  end.

Definition sbi_fifo_enqueue (fp : option sbi_fifo) (data : option (list Z)) (force : bool)
  : option (Z * option sbi_fifo) :=
  match fp, data with
  | Some f, Some data =>
      l ← spin_lock f.(qlock);
      let f := set_qlock l f in
      if __sbi_fifo_is_full f then
        if negb force then Some (SBI_ENOSPC, Some (set_qlock (spin_unlock l) f))
        else
          let '(_, f) := __sbi_fifo_dequeue f false in
          let f := __sbi_fifo_enqueue f data in
          Some (0, Some (set_qlock (spin_unlock l) f))
      else
        let f := __sbi_fifo_enqueue f data in
        Some (0, Some (set_qlock (spin_unlock l) f))
  | _, _ => Some (SBI_EINVAL, fp)
  end.

(** [want] is false for a null [data]; the result carries what is stored there. *)
Definition sbi_fifo_dequeue (fp : option sbi_fifo) (want : bool)
  : option (Z * option (list Z) * option sbi_fifo) :=
  match fp, want with
  | Some f, true =>
      l ← spin_lock f.(qlock);
      let f := set_qlock l f in
      if __sbi_fifo_is_empty f then Some (SBI_ENOENT, None, Some (set_qlock (spin_unlock l) f))
      else
        let '(out, f) := __sbi_fifo_dequeue f true in
        Some (0, out, Some (set_qlock (spin_unlock l) f))
  | _, _ => Some (SBI_EINVAL, None, fp)
  end.

(** ** Abstract specification: a bounded queue of entries *)

Inductive fifo_op :=
| Enqueue (data : list Z) (force : bool)
| Dequeue
| Reset
| Update (fptr : list Z -> Z * list Z)
| Avail
| IsFull
| IsEmpty.

(** What an operation returns: its code and the entry it hands out. *)
Definition fifo_result : Type := Z * option (list Z).

(** The callback runs on the entries from the oldest on, until it answers
    SKIP or UPDATED. *)
Fixpoint update_spec {E} (fptr : E -> Z * E) (ret : Z) (q : list E) : Z * list E :=
  match q with
  | [] => (ret, [])
  | e :: q =>
      let '(ret, e') := fptr e in
      if (ret =? SBI_FIFO_SKIP) || (ret =? SBI_FIFO_UPDATED) then (ret, e' :: q)
      else let '(ret, q') := update_spec fptr ret q in (ret, e' :: q')
  end.

Definition fifo_spec (cap : nat) (o : fifo_op) (q : list (list Z)) : fifo_result * list (list Z) :=
  match o with
  | Enqueue d force =>
      if bool_decide (length q = cap) then
        if force then ((0, None), List.tl q ++ [d]) else ((SBI_ENOSPC, None), q)
      else ((0, None), q ++ [d])
  | Dequeue => match q with [] => ((SBI_ENOENT, None), []) | e :: q => ((0, Some e), q) end
  | Reset => ((1, None), [])
  | Update fptr => let '(r, q) := update_spec fptr SBI_FIFO_UNCHANGED q in ((r, None), q)
  | Avail => ((Z.of_nat (length q), None), q)
  | IsFull => ((Z.b2z (bool_decide (length q = cap)), None), q)
  | IsEmpty => ((Z.b2z (bool_decide (q = [])), None), q)
  end.

(** The implementation of an operation. *)
Definition fifo_exec (o : fifo_op) (f : sbi_fifo) : option (fifo_result * option sbi_fifo) :=
  match o with
  | Enqueue d force => '(r, f) ← sbi_fifo_enqueue (Some f) (Some d) force; Some ((r, None), f)
  | Dequeue => '(r, out, f) ← sbi_fifo_dequeue (Some f) true; Some ((r, out), f)
  | Reset => '(r, f) ← sbi_fifo_reset (Some f); Some ((Z.b2z r, None), f)
  | Update fptr => '(r, f) ← sbi_fifo_inplace_update (Some f) (Some fptr); Some ((r, None), f)
  | Avail => '(r, f) ← sbi_fifo_avail (Some f); Some ((r, None), f)
  | IsFull => '(r, f) ← sbi_fifo_is_full (Some f); Some ((r, None), f)
  | IsEmpty => '(r, f) ← sbi_fifo_is_empty (Some f); Some ((r, None), f)
  end.

(** The arguments the callers must respect: [data] points to [entry_size]
    bytes, and the callback does not change the size of an entry. *)
Definition op_ok (es : Z) (o : fifo_op) : Prop :=
  match o with
  | Enqueue d _ => length d = Z.to_nat es
  | Update fptr => forall e, length e = Z.to_nat es -> length (snd (fptr e)) = Z.to_nat es
  | _ => True
  end.

Fixpoint run_spec (cap : nat) (os : list fifo_op) (q : list (list Z))
  : list fifo_result * list (list Z) :=
  match os with
  | [] => ([], q)
  | o :: os => let '(r, q) := fifo_spec cap o q in
               let '(rs, q) := run_spec cap os q in (r :: rs, q)
  end.

Fixpoint run_exec (os : list fifo_op) (f : sbi_fifo) : option (list fifo_result * sbi_fifo) :=
  match os with
  | [] => Some ([], f)
  | o :: os =>
      '(r, fp) ← fifo_exec o f;
      f ← fp;
      '(rs, f) ← run_exec os f;
      Some (r :: rs, f)
  end.

(** ** Representation *)

Definition slot (f : sbi_fifo) (i : nat) : list Z := chunk (Z.to_nat f.(entry_size)) i f.(queue).

(** The ring index of the [k]-th oldest entry. *)
Definition ring (n t k : nat) : nat := if (t + k <? n)%nat then (t + k)%nat else (t + k - n)%nat.

Definition contents (f : sbi_fifo) : list (list Z) :=
  (fun k => slot f (ring (Z.to_nat f.(num_entries)) (Z.to_nat f.(tail)) k))
    <$> seq 0 (Z.to_nat f.(avail)).

Record fifo_ok (f : sbi_fifo) : Prop := {
  wf_es : 0 < f.(entry_size) < 2 ^ 16;
  wf_n : 0 < f.(num_entries) < 2 ^ 16;
  wf_avail : 0 <= f.(avail) <= f.(num_entries);
  wf_tail : 0 <= f.(tail) < f.(num_entries);
  wf_queue : length f.(queue) = (Z.to_nat f.(num_entries) * Z.to_nat f.(entry_size))%nat;
}.

(** The invariant between two operations: the ring is sound, the lock free. *)
Definition fifo_wf (f : sbi_fifo) : Prop := lock_free f.(qlock) /\ fifo_ok f.

(** ** The ring on natural numbers *)

Section Ring.
Context (es n t : nat) (Ht : (t < n)%nat).

Definition ring_contents (a : nat) (q : list Z) : list (list Z) :=
  (fun k => chunk es (ring n t k) q) <$> seq 0 a.

Lemma ring_lt k : (k < n)%nat -> (ring n t k < n)%nat.
Proof. intros. unfold ring. destruct (Nat.ltb_spec (t + k) n); lia. Qed.

Lemma ring_inj j k : (j < n)%nat -> (k < n)%nat -> ring n t j = ring n t k -> j = k.
Proof.
  unfold ring. intros.
  destruct (Nat.ltb_spec (t + j) n), (Nat.ltb_spec (t + k) n); lia.
Qed.

Lemma ring_contents_length a q : length (ring_contents a q) = a.
Proof. unfold ring_contents. by rewrite length_fmap, length_seq. Qed.

Lemma ring_contents_lookup a q k :
  (k < a)%nat -> ring_contents a q !! k = Some (chunk es (ring n t k) q).
Proof.
  intros Hk. unfold ring_contents. rewrite list_lookup_fmap.
  by rewrite lookup_seq_lt.
Qed.

Lemma ring_contents_store a q k d :
  length q = (n * es)%nat -> (a <= n)%nat -> (k < n)%nat -> length d = es ->
  ring_contents a (list_inserts (ring n t k * es) d q) = <[k := d]> (ring_contents a q).
Proof.
  intros Hq Ha Hk Hd. apply list_eq_same_length with (length (ring_contents a q));
    rewrite ?length_insert, ?ring_contents_length; try done.
  intros j x y Hj. rewrite ring_contents_lookup by done. intros [= <-].
  destruct (decide (j = k)) as [->|Hne].
  - rewrite list_lookup_insert_eq by (by rewrite ring_contents_length). intros [= <-].
    eapply chunk_store_eq; [done|by apply ring_lt|done].
  - rewrite list_lookup_insert_ne, ring_contents_lookup by done. intros [= <-].
    apply chunk_store_ne; [|done]. intros He. apply Hne. symmetry. apply ring_inj; lia.
Qed.

Lemma ring_contents_snoc a q :
  ring_contents (S a) q = ring_contents a q ++ [chunk es (ring n t a) q].
Proof. unfold ring_contents. by rewrite seq_S, fmap_app. Qed.

Lemma ring_contents_enqueue a q d :
  length q = (n * es)%nat -> (a < n)%nat -> length d = es ->
  ring_contents (S a) (list_inserts (ring n t a * es) d q) = ring_contents a q ++ [d].
Proof.
  intros Hq Ha Hd. rewrite ring_contents_snoc, ring_contents_store by lia.
  rewrite list_insert_ge by (rewrite ring_contents_length; lia).
  by erewrite chunk_store_eq by (try apply ring_lt; eauto).
Qed.
End Ring.

Lemma ring_contents_dequeue es n t a q :
  (t < n)%nat -> (S a <= n)%nat ->
  ring_contents es n t (S a) q
  = chunk es t q :: ring_contents es n (if (S t <? n)%nat then S t else 0%nat) a q.
Proof.
  intros Ht Ha. unfold ring_contents. rewrite <- cons_seq, <- fmap_S_seq, fmap_cons.
  f_equal; [f_equal; unfold ring; destruct (Nat.ltb_spec (t + 0) n); lia|].
  rewrite <- list_fmap_compose. apply list_fmap_ext. intros i k Hk. simpl.
  apply lookup_seq in Hk as [-> Hlt]. f_equal. unfold ring.
  destruct (Nat.ltb_spec (S t) n), (Nat.ltb_spec (t + S (0 + i)) n);
    repeat case_match; rewrite ?Nat.ltb_lt, ?Nat.ltb_ge in *; lia.
Qed.

Lemma contents_ring f :
  contents f = ring_contents (Z.to_nat f.(entry_size)) (Z.to_nat f.(num_entries))
                 (Z.to_nat f.(tail)) (Z.to_nat f.(avail)) f.(queue).
Proof. done. Qed.

Lemma contents_length f : length (contents f) = Z.to_nat f.(avail).
Proof. rewrite contents_ring. apply ring_contents_length. Qed.

(** ** The machine arithmetic of the source stays within its widths *)

Lemma copy_width_id es : copy_width es = es.
Proof.
  unfold copy_width. destruct (Z.eqb_spec es 1), (Z.eqb_spec es 2), (Z.eqb_spec es 4),
    (Z.eqb_spec es 8); lia.
Qed.

Lemma slot_offset f i :
  fifo_ok f -> 0 <= i < f.(num_entries) ->
  Z.to_nat (u32 (i * f.(entry_size))) = (Z.to_nat i * Z.to_nat f.(entry_size))%nat.
Proof.
  intros [? ? _ _ _] Hi. rewrite wrap_small; [by rewrite Z2Nat.inj_mul by lia|].
  unfold in_range. nia.
Qed.

Lemma ring_index n t k :
  0 <= t < n -> 0 <= k <= n ->
  (if n <=? t + k then t + k - n else t + k) = Z.of_nat (ring (Z.to_nat n) (Z.to_nat t) (Z.to_nat k)).
Proof.
  intros. unfold ring.
  destruct (Z.leb_spec n (t + k)), (Nat.ltb_spec (Z.to_nat t + Z.to_nat k) (Z.to_nat n)); lia.
Qed.

(** ** The operations on a well-formed FIFO *)

Lemma enqueue_core f d :
  fifo_ok f -> f.(avail) < f.(num_entries) -> length d = Z.to_nat f.(entry_size) ->
  let f' := __sbi_fifo_enqueue f d in
  fifo_ok f' /\ contents f' = contents f ++ [d] /\
  f'.(num_entries) = f.(num_entries) /\ f'.(entry_size) = f.(entry_size) /\ f'.(qlock) = f.(qlock).
Proof.
  intros Hf Ha Hd. pose proof Hf as [Hes Hn Hav Ht Hq]. simpl.
  assert (Hh : u32 (tail f + avail f) = tail f + avail f) by (apply wrap_small; unfold in_range; lia).
  pose proof (ring_index (num_entries f) (tail f) (avail f) ltac:(lia) ltac:(lia)) as Hr.
  pose proof (ring_lt (Z.to_nat (num_entries f)) (Z.to_nat (tail f)) ltac:(lia)
                (Z.to_nat (avail f)) ltac:(lia)) as Hrl.
  assert (Hhead : (if num_entries f <=? u32 (tail f + avail f)
                   then u32 (u32 (tail f + avail f) - num_entries f) else u32 (tail f + avail f))
                  = Z.of_nat (ring (Z.to_nat (num_entries f)) (Z.to_nat (tail f)) (Z.to_nat (avail f)))).
  { rewrite <- Hr, Hh. destruct (Z.leb_spec (num_entries f) (tail f + avail f)); [|done].
    apply wrap_small. unfold in_range. lia. }
  unfold __sbi_fifo_enqueue. rewrite Hhead. simpl. rewrite copy_width_id, take_ge by lia.
  unfold store_bytes. rewrite slot_offset, Nat2Z.id by (done || lia).
  assert (Hav1 : u16 (avail f + 1) = avail f + 1) by (apply wrap_small; unfold in_range; lia).
  rewrite Hav1. split_and!; try done.
  - split; simpl; try done; [lia|]. by rewrite length_inserts.
  - rewrite !contents_ring. simpl. replace (Z.to_nat (avail f + 1)) with (S (Z.to_nat (avail f))) by lia.
    apply ring_contents_enqueue; lia || done.
Qed.

Lemma dequeue_core f want :
  fifo_ok f -> 0 < f.(avail) ->
  let '(out, f') := __sbi_fifo_dequeue f want in
  exists e, contents f = e :: contents f' /\ length e = Z.to_nat f.(entry_size) /\
    out = (if want then Some e else None) /\ fifo_ok f' /\ f'.(avail) = f.(avail) - 1 /\
    f'.(num_entries) = f.(num_entries) /\ f'.(entry_size) = f.(entry_size) /\ f'.(qlock) = f.(qlock).
Proof.
  intros Hf Ha. pose proof Hf as [Hes Hn Hav Ht Hq]. unfold __sbi_fifo_dequeue.
  rewrite copy_width_id. unfold load_bytes. rewrite slot_offset by (done || lia).
  assert (Hav1 : u16 (avail f - 1) = avail f - 1) by (apply wrap_small; unfold in_range; lia).
  assert (Ht1 : u16 (tail f + 1) = tail f + 1) by (apply wrap_small; unfold in_range; lia).
  simpl. rewrite Hav1, Ht1.
  exists (chunk (Z.to_nat (entry_size f)) (Z.to_nat (tail f)) (queue f)).
  assert (Hlen := chunk_length (Z.to_nat (entry_size f)) (Z.to_nat (tail f))
            (Z.to_nat (num_entries f)) (queue f) Hq ltac:(lia)).
  split.
  - rewrite contents_ring. replace (Z.to_nat (avail f)) with (S (Z.to_nat (avail f - 1))) by lia.
    rewrite ring_contents_dequeue by lia. f_equal. rewrite contents_ring.
    destruct (Z.leb_spec (num_entries f) (tail f + 1)),
      (Nat.ltb_spec (S (Z.to_nat (tail f))) (Z.to_nat (num_entries f))); simpl; try lia; [done|].
    f_equal. lia.
  - destruct (Z.leb_spec (num_entries f) (tail f + 1)); simpl;
      (split_and!; try done; split; simpl; try done; lia).
Qed.

Lemma inplace_loop_spec fptr rest : forall f pre ret,
  fifo_ok f -> op_ok f.(entry_size) (Update fptr) ->
  contents f = pre ++ rest ->
  let '(r, f') := inplace_loop fptr (length rest) (Z.of_nat (length pre)) ret f in
  let '(r', rest') := update_spec fptr ret rest in
  r = r' /\ contents f' = pre ++ rest' /\ (exists q, f' = set_queue q f) /\
  fifo_ok f'.
Proof.
  induction rest as [|e rest IH]; intros f pre ret Hf Hok Hc; simpl.
  { split_and!; try done. exists (queue f). by destruct f. }
  pose proof (contents_length f) as Hlen. rewrite Hc, length_app in Hlen. simpl in Hlen.
  pose proof Hf as [Hes Hn Hav Ht Hq]. simpl in *.
  pose proof (ring_index (num_entries f) (tail f) (Z.of_nat (length pre)) ltac:(lia) ltac:(lia)) as Hr.
  rewrite Hr. set (i := ring _ _ _) in *.
  assert (Hi : (i < Z.to_nat (num_entries f))%nat) by (apply ring_lt; lia).
  unfold load_bytes, store_bytes.
  rewrite slot_offset, Nat2Z.id by (done || lia).
  fold (chunk (Z.to_nat (entry_size f)) i (queue f)).
  assert (He : chunk (Z.to_nat (entry_size f)) i (queue f) = e).
  { rewrite contents_ring in Hc. apply (f_equal (lookup (length pre))) in Hc.
    rewrite list_lookup_middle, ring_contents_lookup in Hc by lia. subst i. rewrite Nat2Z.id. congruence. }
  rewrite He. assert (Hle : length e = Z.to_nat (entry_size f)).
  { rewrite <- He. eapply chunk_length; done. }
  specialize (Hok e Hle) as Hle'. destruct (fptr e) as [r e'] eqn:Hfp. simpl in Hle'.
  set (f1 := set_queue _ f).
  assert (Hc1 : contents f1 = pre ++ e' :: rest).
  { rewrite contents_ring. subst f1 i. simpl. rewrite Nat2Z.id.
    rewrite ring_contents_store by (done || lia). rewrite <- contents_ring, Hc.
    rewrite insert_app_r_alt, Nat.sub_diag by lia. done. }
  assert (Hf1 : fifo_ok f1).
  { destruct Hf. split; try done. simpl in *. by rewrite length_inserts. }
  destruct ((r =? SBI_FIFO_SKIP) || (r =? SBI_FIFO_UPDATED)).
  { split_and!; [done|done|by eexists|done]. }
  specialize (IH f1 (pre ++ [e']) r Hf1 ltac:(done)). rewrite <- app_assoc in IH. specialize (IH Hc1).
  rewrite length_app, Nat2Z.inj_add in IH. change (Z.of_nat (length [e'])) with 1 in IH.
  destruct (inplace_loop fptr (length rest) (Z.of_nat (length pre) + 1) r f1) as [r2 f2].
  destruct (update_spec fptr r rest) as [r3 rest']. destruct IH as (-> & Hc2 & [q Hq2] & Hf2).
  split_and!; [done| |exists q; by rewrite Hq2|done]. by rewrite Hc2, <- app_assoc.
Qed.

Lemma contents_set_qlock l f : contents (set_qlock l f) = contents f.
Proof. done. Qed.

Lemma reset_core f :
  fifo_ok f -> fifo_ok (__sbi_fifo_reset f) /\ contents (__sbi_fifo_reset f) = [].
Proof.
  intros [Hes Hn Hav Ht Hq]. split; [|done].
  split; simpl; try lia. unfold sbi_memset. by rewrite length_inserts.
Qed.

Lemma full_iff f : fifo_ok f ->
  __sbi_fifo_is_full f = bool_decide (length (contents f) = Z.to_nat f.(num_entries)).
Proof.
  intros []. rewrite contents_length. unfold __sbi_fifo_is_full.
  destruct (Z.eqb_spec (avail f) (num_entries f)); case_bool_decide; lia || done.
Qed.

Lemma empty_iff f : fifo_ok f -> __sbi_fifo_is_empty f = bool_decide (contents f = []).
Proof.
  intros []. unfold __sbi_fifo_is_empty. pose proof (contents_length f) as Hl.
  destruct (Z.eqb_spec (avail f) 0) as [E|E]; case_bool_decide as Hc; try done.
  - destruct Hc. apply nil_length_inv. lia.
  - rewrite Hc in Hl. simpl in Hl. lia.
Qed.

(** Every operation does to the ring what its specification does to the queue
    of entries, returns the same result, and leaves the lock free. *)
Definition refines_op (o : fifo_op) (f : sbi_fifo) : Prop :=
  exists r f', fifo_exec o f = Some (r, Some f') /\
    fifo_spec (Z.to_nat f.(num_entries)) o (contents f) = (r, contents f') /\
    fifo_wf f' /\ f'.(num_entries) = f.(num_entries) /\ f'.(entry_size) = f.(entry_size).

#[local] Opaque __sbi_fifo_dequeue __sbi_fifo_enqueue __sbi_fifo_is_full __sbi_fifo_is_empty __sbi_fifo_reset.


Section Refine.
Context (f : sbi_fifo) (Hl : lock_free f.(qlock)) (Hf : fifo_ok f).
Let fl := set_qlock (acquired (qlock f)) f.

(** Every operation takes the free lock first. *)
Ltac take_lock :=
  unfold refines_op;
  cbn [fifo_exec sbi_fifo_enqueue sbi_fifo_dequeue sbi_fifo_reset sbi_fifo_inplace_update sbi_fifo_avail
       sbi_fifo_is_full sbi_fifo_is_empty mbind option_bind];
  rewrite (spin_lock_free _ Hl).

Lemma fl_ok : fifo_ok fl.
Proof using Hf. by destruct Hf. Qed.

Lemma unlocked_wf f' : fifo_ok f' -> fifo_wf (set_qlock (spin_unlock (acquired (qlock f))) f').
Proof using Hl. intros Hf'. split; [by apply spin_unlock_free|by destruct Hf']. Qed.

Lemma refines_enqueue d force :
  length d = Z.to_nat f.(entry_size) -> refines_op (Enqueue d force) f.
Proof using Hl Hf.
  intros Hd. take_lock. simpl. fold fl.
  rewrite (full_iff fl fl_ok). change (contents fl) with (contents f).
  change (num_entries fl) with (num_entries f).
  pose proof (contents_length f) as Hlen. destruct Hf as [? ? ? ? ?].
  case_bool_decide as Hfull; [destruct force|]; simpl.
  - pose proof (dequeue_core fl false fl_ok) as Hdq.
    destruct (__sbi_fifo_dequeue fl false) as [out f1].
    destruct Hdq as (e & Hc & _ & _ & Hf1 & Ha & Hn1 & He1 & Hq1); [simpl; lia|]. simpl in *.
    destruct (enqueue_core f1 d Hf1) as (Hf2 & Hc2 & Hn2 & He2 & _); [lia|by rewrite He1|].
    eexists _, _. split; [done|]. split.
    + change (contents f) with (contents fl). rewrite Hc. simpl. by rewrite <- Hc2.
    + split; [by apply unlocked_wf|]. simpl. by rewrite Hn2, He2.
  - eexists _, _. split; [done|]. split; [done|]. split; [by apply unlocked_wf, fl_ok|done].
  - destruct (enqueue_core fl d fl_ok) as (Hf2 & Hc2 & Hn2 & He2 & _); [simpl; lia|done|].
    eexists _, _. split; [done|]. split; [by rewrite (eq_sym Hc2 : contents f ++ [d] = _)|].
    split; [by apply unlocked_wf|]. simpl. by rewrite Hn2, He2.
Qed.

Lemma refines_dequeue : refines_op Dequeue f.
Proof using Hl Hf.
  take_lock. simpl. fold fl.
  rewrite (empty_iff fl fl_ok). change (contents fl) with (contents f).
  pose proof (contents_length f) as Hlen. destruct Hf as [? ? ? ? ?].
  case_bool_decide as He; simpl.
  - eexists _, _. split; [done|]. rewrite contents_set_qlock. change (contents fl) with (contents f).
    rewrite He. split; [done|]. split; [by apply unlocked_wf, fl_ok|done].
  - pose proof (dequeue_core fl true fl_ok) as Hdq.
    destruct (__sbi_fifo_dequeue fl true) as [out f1].
    destruct Hdq as (e & Hc & _ & -> & Hf1 & _ & Hn1 & He1 & Hq1).
    { simpl. destruct (contents f); [done|simpl in Hlen; lia]. }
    eexists _, _. split; [done|]. change (contents f) with (contents fl). rewrite Hc.
    split; [done|]. split; [by apply unlocked_wf|]. simpl. by rewrite Hn1, He1.
Qed.

Lemma refines_update fptr :
  op_ok f.(entry_size) (Update fptr) -> refines_op (Update fptr) f.
Proof using Hl Hf.
  intros Hop. take_lock. simpl. fold fl.
  rewrite (empty_iff f Hf). pose proof (contents_length f) as Hlen.
  case_bool_decide as He.
  - eexists _, _. simpl. split; [done|]. rewrite He. simpl. rewrite contents_set_qlock, He.
    split; [done|]. split; [by apply unlocked_wf|done].
  - pose proof (inplace_loop_spec fptr (contents f) fl [] SBI_FIFO_UNCHANGED fl_ok Hop eq_refl) as Hs.
    rewrite Hlen in Hs. change (Z.of_nat (length [])) with 0 in Hs.
    destruct (inplace_loop fptr (Z.to_nat (avail f)) 0 SBI_FIFO_UNCHANGED fl) as [r f1].
    destruct (update_spec fptr SBI_FIFO_UNCHANGED (contents f)) as [r' q'].
    destruct Hs as (-> & Hc & [q ->] & Hf1). eexists _, _. split; [done|].
    rewrite contents_set_qlock, Hc. split; [done|]. split; [by apply unlocked_wf|done].
Qed.

Lemma refines_reset : refines_op Reset f.
Proof using Hl Hf.
  take_lock. simpl. fold fl.
  destruct (reset_core fl fl_ok) as [Hr Hc]. eexists _, _. split; [done|].
  rewrite contents_set_qlock, Hc. split; [done|]. split; [by apply unlocked_wf|done].
Qed.

(** The read-only operations. *)
Lemma refines_query o : o = Avail \/ o = IsFull \/ o = IsEmpty -> refines_op o f.
Proof using Hl Hf.
  intros Ho. pose proof (unlocked_wf f Hf) as Hu. pose proof (contents_length f) as Hlen.
  destruct Ho as [-> |[-> | ->]]; take_lock; simpl;
    eexists _, _; (split; [done|]); rewrite contents_set_qlock; (split; [|by split]).
  - rewrite Hlen. destruct Hf. by rewrite Z2Nat.id by lia.
  - by rewrite (full_iff f Hf).
  - by rewrite (empty_iff f Hf).
Qed.
End Refine.

#[local] Transparent __sbi_fifo_dequeue __sbi_fifo_enqueue __sbi_fifo_is_full __sbi_fifo_is_empty __sbi_fifo_reset.

Lemma fifo_exec_refines o f : fifo_wf f -> op_ok f.(entry_size) o -> refines_op o f.
Proof.
  intros [Hl Hf] Hop. destruct o; eauto using refines_enqueue, refines_dequeue, refines_update,
    refines_reset, refines_query.
Qed.

(** ** Entries of a C type

    The clients store values of one type; [EntryCodec] is what they promise about
    its representation in memory. *)

Class EntryCodec (E : Type) := {
  encode : E -> list Z;
  decode : list Z -> E;
  sizeof : Z;
  storable : E -> Prop;
  encode_length e : storable e -> length (encode e) = Z.to_nat sizeof;
  decode_encode e : storable e -> decode (encode e) = e;
  decode_storable bs : length bs = Z.to_nat sizeof -> storable (decode bs);
}.

Section Entries.
Context `{EntryCodec E}.

(** The callback on the bytes of an entry. *)
Definition on_bytes (fptr : E -> Z * E) (bs : list Z) : Z * list Z :=
  let '(r, e) := fptr (decode bs) in (r, encode e).

(** A FIFO that holds the entries [q]. *)
Definition fifo_holds (f : sbi_fifo) (q : list E) : Prop :=
  fifo_wf f /\ f.(entry_size) = sizeof /\ contents f = encode <$> q /\ Forall storable q.

Lemma update_spec_bytes fptr : (forall e, storable e -> storable (fptr e).2) -> forall q ret,
  Forall storable q ->
  update_spec (on_bytes fptr) ret (encode <$> q) = (let '(r, q') := update_spec fptr ret q in (r, encode <$> q')) /\
  Forall storable (update_spec fptr ret q).2.
Proof.
  intros Hs q. induction q as [|e q IH]; intros ret Hq; [done|]. apply Forall_cons in Hq as [He Hq].
  specialize (Hs e He). cbn [update_spec fmap list_fmap]. unfold on_bytes at 1. rewrite decode_encode by done.
  destruct (fptr e) as [r e'] eqn:E1. cbn [snd] in Hs. destruct (_ || _); [split; [done|by constructor]|]. destruct (IH r Hq) as [-> H2].
  destruct (update_spec fptr r q) as [r' q']. split; [done|by constructor].
Qed.

Lemma holds_enqueue f q e : fifo_holds f q -> storable e ->
  exists r f' q', sbi_fifo_enqueue (Some f) (Some (encode e)) false = Some (r, Some f') /\ fifo_holds f' q' /\
    f'.(num_entries) = f.(num_entries) /\
    if bool_decide (length q = Z.to_nat f.(num_entries)) then r = SBI_ENOSPC /\ q' = q else r = 0 /\ q' = q ++ [e].
Proof.
  intros (Hf & Hsz & Hc & Hq) He.
  destruct (fifo_exec_refines (Enqueue (encode e) false) f Hf) as (r & f' & Ex & Es & Hf' & Hn & Hs);
    [cbn [op_ok]; rewrite Hsz; by apply encode_length|].
  cbn [fifo_exec] in Ex. destruct (sbi_fifo_enqueue _ _ _) as [[r0 fo]|]; [|done]. simpl in Ex. simplify_eq.
  exists r0, f', (if bool_decide (length q = Z.to_nat f.(num_entries)) then q else q ++ [e]).
  cbn [fifo_spec] in Es. rewrite Hc, length_fmap in Es. split; [done|]. case_bool_decide; simplify_eq.
  - split_and!; [|done..]. split_and!; [done|congruence|congruence|done].
  - split_and!; [|done..]. split_and!; [done|congruence| |].
    + by rewrite fmap_app.
    + apply Forall_app. split; [done|by constructor].
Qed.

Lemma holds_dequeue f q : fifo_holds f q ->
  exists r out f' q', sbi_fifo_dequeue (Some f) true = Some (r, out, Some f') /\ fifo_holds f' q' /\
    f'.(num_entries) = f.(num_entries) /\
    match q with
    | [] => r = SBI_ENOENT /\ q' = []
    | e :: q => r = 0 /\ out = Some (encode e) /\ q' = q
    end.
Proof.
  intros (Hf & Hsz & Hc & Hq). destruct (fifo_exec_refines Dequeue f Hf) as (r & f' & Ex & Es & Hf' & Hn & Hs); [done|].
  cbn [fifo_exec] in Ex. destruct (sbi_fifo_dequeue _ _) as [[[r0 out] fo]|]; [|done]. simpl in Ex. simplify_eq.
  cbn [fifo_spec] in Es. rewrite Hc in Es. exists r0, out, f'.
  destruct q as [|e q]; cbn [fmap list_fmap] in Es; simplify_eq.
  - exists []. split_and!; try done. split_and!; [done|congruence|done|done].
  - exists q. split_and!; try done. split_and!; [done|congruence|done|by apply Forall_cons in Hq as []].
Qed.

Lemma holds_update fptr f q : fifo_holds f q -> (forall e, storable e -> storable (fptr e).2) ->
  exists f', sbi_fifo_inplace_update (Some f) (Some (on_bytes fptr)) =
               Some ((update_spec fptr SBI_FIFO_UNCHANGED q).1, Some f') /\
    fifo_holds f' (update_spec fptr SBI_FIFO_UNCHANGED q).2 /\ f'.(num_entries) = f.(num_entries).
Proof.
  intros (Hf & Hsz & Hc & Hq) Hs.
  destruct (fifo_exec_refines (Update (on_bytes fptr)) f Hf) as (r & f' & Ex & Es & Hf' & Hn & Hse).
  { cbn [op_ok]. rewrite Hsz. intros bs Hbs. specialize (Hs _ (decode_storable bs Hbs)). unfold on_bytes.
    destruct (fptr (decode bs)) as [r e]. by apply encode_length. }
  cbn [fifo_exec] in Ex. destruct (sbi_fifo_inplace_update _ _) as [[r0 fo]|]; [|done]. simpl in Ex. simplify_eq.
  cbn [fifo_spec] in Es. rewrite Hc in Es. destruct (update_spec_bytes fptr Hs q SBI_FIFO_UNCHANGED Hq) as [Eq Hq'].
  rewrite Eq in Es. exists f'. destruct (update_spec fptr SBI_FIFO_UNCHANGED q) as [r' q']. cbn [fst snd] in *. simplify_eq.
  split; [done|]. split; [|done]. split_and!; [done|congruence|done|done].
Qed.
End Entries.

(** ** Properties *)

(** C14: over any sequence of calls, the byte ring of [sbi_fifo.c] answers
    exactly like a bounded first-in-first-out queue of [num_entries] entries,
    never deadlocks on its lock, and ends in a state that represents that
    queue.  This includes [force], which drops the oldest entry of a full
    queue, and the in-place update that stops at the first SKIP or UPDATED. *)
Theorem sbi_fifo_refines_queue os f :
  fifo_wf f -> Forall (op_ok f.(entry_size)) os ->
  exists f', run_exec os f = Some (fst (run_spec (Z.to_nat f.(num_entries)) os (contents f)), f') /\
    contents f' = snd (run_spec (Z.to_nat f.(num_entries)) os (contents f)) /\ fifo_wf f'.
Proof.
  revert f. induction os as [|o os IH]; intros f Hf Hops; simpl; [eauto|].
  apply Forall_cons in Hops as [Hop Hops].
  destruct (fifo_exec_refines o f Hf Hop) as (r & f1 & -> & -> & Hf1 & Hn & He). simpl.
  destruct (IH f1 Hf1) as (f2 & -> & Hc & Hf2); [by rewrite He|].
  rewrite Hn in *. simpl. exists f2.
  destruct (run_spec (Z.to_nat (num_entries f)) os (contents f1)) as [rs q]. by simpl in *.
Qed.

(** [sbi_fifo_init] on a buffer of the right size gives a well-formed,
    empty FIFO. *)
Theorem sbi_fifo_init_empty mem entries es :
  0 < entries < 2 ^ 16 -> 0 < es < 2 ^ 16 ->
  length mem = (Z.to_nat entries * Z.to_nat es)%nat ->
  fifo_wf (sbi_fifo_init mem entries es) /\ contents (sbi_fifo_init mem entries es) = [].
Proof.
  intros Hn He Hm. split; [|done]. split; [apply unlocked_free|].
  split; simpl; try lia. unfold sbi_memset. by rewrite length_inserts.
Qed.

(** ** Witnesses *)

Definition demo_fifo : sbi_fifo := sbi_fifo_init (replicate 6 7) 3 2.

Definition demo_ops : list fifo_op :=
  [Enqueue [1; 2] false; Enqueue [3; 4] false; Enqueue [5; 6] false; Enqueue [7; 8] false;
   Enqueue [7; 8] true; Update (fun e => (if bool_decide (e = [5; 6]) then SBI_FIFO_UPDATED
                                          else SBI_FIFO_UNCHANGED, [9; 9])); Dequeue; Dequeue; Dequeue; Dequeue].

Lemma demo_fifo_wf : fifo_wf demo_fifo.
Proof. split; [apply unlocked_free|]. split; vm_compute; try done; by split. Defined.

Lemma demo_ops_ok : Forall (op_ok 2) demo_ops.
Proof. unfold demo_ops. repeat apply Forall_cons_2; simpl; try done. Defined.

Lemma sbi_fifo_refines_queue_witness :
  exists f', run_exec demo_ops demo_fifo
    = Some ([(0, None); (0, None); (0, None); (SBI_ENOSPC, None); (0, None); (SBI_FIFO_UPDATED, None);
             (0, Some [9; 9]); (0, Some [9; 9]); (0, Some [7; 8]); (SBI_ENOENT, None)], f')
    /\ contents f' = [].
Proof.
  destruct (sbi_fifo_refines_queue demo_ops demo_fifo demo_fifo_wf demo_ops_ok) as (f' & Hr & Hc & _).
  exists f'. split; [exact Hr|exact Hc].
Defined.

Lemma sbi_fifo_init_empty_witness :
  fifo_wf (sbi_fifo_init (replicate 6 7) 3 2) /\ contents (sbi_fifo_init (replicate 6 7) 3 2) = [].
Proof. apply (sbi_fifo_init_empty (replicate 6 7) 3 2); [lia|lia|reflexivity]. Defined.
