(* ===== verification/Dlist.v ===== *)
(** * The circular doubly linked list of OpenSBI (include/sbi/sbi_list.h).

    The pointer model: [nxt] and [prv] give the two fields of the
    [struct sbi_dlist] at each address, so that the operations are the stores
    of the source, aliased nodes included.  [dlist_repr] says that a head
    represents a sequence of nodes; each operation is then an operation on
    that sequence. *)

From S2P Require Import Prelude.

Local Open Scope Z_scope.

Definition SBI_LIST_POISON_PREV : Z := 0xDEADBEEF.
Definition SBI_LIST_POISON_NEXT : Z := 0xFADEBABE.

Record dmem := Dmem { nxt : Z -> Z; prv : Z -> Z }.

Definition set_nxt (p v : Z) (m : dmem) : dmem := Dmem (<[p := v]> m.(nxt)) m.(prv).
Definition set_prv (p v : Z) (m : dmem) : dmem := Dmem m.(nxt) (<[p := v]> m.(prv)).

(** ** The operations *)

Definition SBI_INIT_LIST_HEAD (ptr : Z) (m : dmem) : dmem := set_prv ptr ptr (set_nxt ptr ptr m).

Definition __sbi_list_add (new prev next : Z) (m : dmem) : dmem :=
  let m := set_prv new prev m in
  let m := set_nxt new next m in
  let m := set_nxt prev new m in
  set_prv next new m.

Definition sbi_list_empty (head : Z) (m : dmem) : bool := m.(nxt) head =? head.

Definition sbi_list_add (new head : Z) (m : dmem) : dmem :=
  __sbi_list_add new head (m.(nxt) head) m.

Definition sbi_list_add_tail (new tnode : Z) (m : dmem) : dmem :=
  __sbi_list_add new (m.(prv) tnode) tnode m.

Definition __sbi_list_del (prev next : Z) (m : dmem) : dmem :=
  let m := set_nxt prev next m in
  set_prv next prev m.

Definition __sbi_list_del_entry (entry : Z) (m : dmem) : dmem :=
  __sbi_list_del (m.(prv) entry) (m.(nxt) entry) m.

Definition sbi_list_del (entry : Z) (m : dmem) : dmem :=
  let m := __sbi_list_del (m.(prv) entry) (m.(nxt) entry) m in
  let m := set_nxt entry SBI_LIST_POISON_NEXT m in
  set_prv entry SBI_LIST_POISON_PREV m.

Definition sbi_list_del_init (entry : Z) (m : dmem) : dmem :=
  let m := __sbi_list_del_entry entry m in
  SBI_INIT_LIST_HEAD entry m.

Definition sbi_list_first_entry (head : Z) (m : dmem) : Z := m.(nxt) head.

Definition sbi_list_last_entry (head : Z) (m : dmem) : Z := m.(prv) head.

(** The nodes visited by [sbi_list_for_each], from [pos] on; [None] when
    [fuel] iterations do not reach the head again. *)
Fixpoint list_for_each (fuel : nat) (m : dmem) (head pos : Z) : option (list Z) :=
  match fuel with
  | O => None
  | S fuel => if pos =? head then Some []
              else l ← list_for_each fuel m head (m.(nxt) pos); Some (pos :: l)
  end.

Definition sbi_list_for_each (fuel : nat) (head : Z) (m : dmem) : option (list Z) :=
  list_for_each fuel m head (m.(nxt) head).

(** ** Representation *)

(** [a] is linked in both directions to [b] through the nodes [l]. *)
Fixpoint linked (m : dmem) (a : Z) (l : list Z) (b : Z) : Prop :=
  match l with
  | [] => m.(nxt) a = b /\ m.(prv) b = a
  | x :: l => m.(nxt) a = x /\ m.(prv) x = a /\ linked m x l b
  end.

Definition dlist_repr (m : dmem) (head : Z) (l : list Z) : Prop :=
  NoDup (head :: l) /\ linked m head l head.

Lemma linked_app m a l1 x l2 b :
  linked m a (l1 ++ x :: l2) b <-> linked m a l1 x /\ linked m x l2 b.
Proof. revert a. induction l1 as [|y l1 IH]; intros a; simpl; [tauto|]. rewrite IH. tauto. Qed.

Lemma linked_first m a l b : linked m a l b -> m.(nxt) a = hd b l.
Proof. by destruct l; intros []. Qed.

Lemma linked_last m a l b : linked m a l b -> m.(prv) b = default a (last l).
Proof.
  destruct l as [|x l _] using rev_ind; [by intros []|].
  rewrite linked_app, last_snoc. simpl. tauto.
Qed.

Lemma linked_set_nxt m a l b p v : p ∉ a :: l -> linked (set_nxt p v m) a l b <-> linked m a l b.
Proof.
  revert a. induction l as [|x l IH]; intros a Hp; simpl;
    rewrite fn_lookup_insert_ne by set_solver; [done|].
  rewrite IH by set_solver. done.
Qed.

Lemma linked_set_prv m a l b p v : p ∉ l ++ [b] -> linked (set_prv p v m) a l b <-> linked m a l b.
Proof.
  revert a. induction l as [|x l IH]; intros a Hp; simpl;
    rewrite fn_lookup_insert_ne by set_solver; [done|].
  rewrite IH by set_solver. done.
Qed.

(** Fields of the memory after a sequence of stores. *)
Ltac dmem_simpl :=
  repeat first [rewrite fn_lookup_insert | rewrite fn_lookup_insert_ne by set_solver].

(** A segment that none of the stores touches. *)
Ltac dmem_frame :=
  repeat first [rewrite linked_set_prv by set_solver | rewrite linked_set_nxt by set_solver].

Lemma nodup_mid_l (h x : Z) l1 l2 :
  NoDup (h :: (l1 ++ [x]) ++ l2) -> x <> h /\ x ∉ l1 /\ x ∉ l2 /\ h ∉ l1 /\ h ∉ l2.
Proof. rewrite <- app_assoc. rewrite NoDup_cons, NoDup_app, NoDup_app. set_solver. Qed.

Lemma nodup_mid_r (h y : Z) l1 l2 :
  NoDup (h :: l1 ++ y :: l2) -> y <> h /\ y ∉ l1 /\ y ∉ l2 /\ h ∉ l1 /\ h ∉ l2.
Proof. rewrite NoDup_cons, NoDup_app, NoDup_cons. set_solver. Qed.

Lemma nodup_apart (h : Z) l1 l2 : NoDup (h :: l1 ++ l2) -> forall z, z ∈ l1 -> z ∉ l2.
Proof. rewrite NoDup_cons, NoDup_app. set_solver. Qed.

(** The stores of [__sbi_list_add] between two neighbours on the circle. *)
Lemma add_between m head new l1 l2 :
  dlist_repr m head (l1 ++ l2) -> new ∉ head :: l1 ++ l2 ->
  dlist_repr (__sbi_list_add new (default head (last l1)) (hd head l2) m) head (l1 ++ new :: l2).
Proof.
  intros [Hnd Hl] Hnew. split.
  { apply NoDup_cons in Hnd as [Hh Hnd]. apply NoDup_app in Hnd as (? & ? & ?).
    rewrite NoDup_cons, NoDup_app, NoDup_cons. set_solver. }
  pose proof (nodup_apart _ _ _ Hnd) as Hap.
  destruct l1 as [|x l1 _] using rev_ind; destruct l2 as [|y l2]; simpl in *;
    rewrite ?last_snoc, ?app_nil_r in *; simpl in *; unfold __sbi_list_add.
  - split; simpl; dmem_simpl; done.
  - pose proof (nodup_mid_r head y [] l2 Hnd). destruct Hl as (? & ? & Hl).
    split_and!; simpl; dmem_simpl; try done. dmem_frame. done.
  - pose proof (nodup_mid_r head x l1 [] Hnd). apply linked_app in Hl as [Hl [? ?]].
    rewrite <- app_assoc. simpl. rewrite linked_app. split; [dmem_frame; done|].
    simpl. split_and!; dmem_simpl; done.
  - pose proof (nodup_mid_l head x l1 (y :: l2) Hnd).
    pose proof (nodup_mid_r head y (l1 ++ [x]) l2 Hnd).
    rewrite <- !app_assoc in *. simpl in *. apply linked_app in Hl as [Hl (? & ? & Hl')].
    rewrite linked_app. split; [dmem_frame; done|].
    simpl. split_and!; dmem_simpl; try done. dmem_frame. done.
Qed.

Lemma del_between m head entry l1 l2 :
  dlist_repr m head (l1 ++ entry :: l2) ->
  m.(prv) entry = default head (last l1) /\ m.(nxt) entry = hd head l2 /\
  dlist_repr (__sbi_list_del (default head (last l1)) (hd head l2) m) head (l1 ++ l2).
Proof.
  intros [Hnd Hl]. pose proof Hl as Hl0. apply linked_app in Hl0 as [Ha Hb].
  split; [by apply linked_last in Ha|]. split; [by apply linked_first in Hb|]. split.
  { revert Hnd. rewrite !NoDup_cons, !NoDup_app, NoDup_cons. set_solver. }
  pose proof (nodup_mid_r _ _ _ _ Hnd) as (? & ? & ? & ? & ?).
  pose proof (nodup_apart _ _ _ Hnd) as Hap.
  destruct l1 as [|x l1 _] using rev_ind; destruct l2 as [|y l2]; simpl in *;
    rewrite ?last_snoc, ?app_nil_r in *; simpl in *; unfold __sbi_list_del.
  - split; simpl; dmem_simpl; done.
  - destruct Hb as (? & ? & Hb). pose proof (nodup_mid_r head y [entry] l2 Hnd).
    split_and!; simpl; dmem_simpl; try done. dmem_frame. done.
  - apply linked_app in Ha as [Ha [? ?]]. pose proof (nodup_mid_l head x l1 [entry] Hnd).
    rewrite linked_app. split; [dmem_frame; done|]. simpl. split; dmem_simpl; done.
  - apply linked_app in Ha as [Ha [? ?]]. destruct Hb as (? & ? & Hb).
    pose proof (nodup_mid_l head x l1 (entry :: y :: l2) Hnd).
    assert (Hnd2 : NoDup (head :: (l1 ++ [x; entry]) ++ y :: l2))
      by (by rewrite <- app_assoc in *).
    pose proof (nodup_mid_r head y (l1 ++ [x; entry]) l2 Hnd2).
    rewrite <- !app_assoc in *. simpl in *. rewrite linked_app.
    split; [dmem_frame; done|]. simpl. split_and!; dmem_simpl; try done. dmem_frame. done.
Qed.

(** Stores to a node that is not on the list. *)
Lemma repr_frame m head l p v :
  p ∉ head :: l -> dlist_repr m head l ->
  dlist_repr (set_nxt p v m) head l /\ dlist_repr (set_prv p v m) head l.
Proof.
  intros Hp [Hnd Hl]. split; (split; [done|]).
  - by apply linked_set_nxt.
  - apply linked_set_prv; [set_solver|done].
Qed.

Lemma for_each_linked m head l : forall a fuel,
  linked m a l head -> head ∉ l -> (length l < fuel)%nat ->
  list_for_each fuel m head (m.(nxt) a) = Some l.
Proof.
  induction l as [|x l IH]; intros a fuel Hl Hh Hf; destruct fuel as [|fuel]; simpl in *; try lia.
  - destruct Hl as [-> _]. by rewrite Z.eqb_refl.
  - destruct Hl as (-> & _ & Hl). destruct (Z.eqb_spec x head) as [->|]; [set_solver|].
    rewrite (IH x); [done|done|set_solver|lia].
Qed.

(** ** Properties *)

(** C40: The pointer operations of [sbi_list.h] are the operations on the
    sequence of nodes a head represents: [sbi_list_add] after the head or
    after any node of the list, [sbi_list_add_tail], [sbi_list_del],
    [sbi_list_del_init], the emptiness test, the first and last entry, and
    the [for_each] loop, which visits exactly the nodes, in order. *)
Theorem sbi_list_refines_sequence m head l :
  dlist_repr m head l ->
  sbi_list_empty head m = bool_decide (l = []) /\
  sbi_list_for_each (S (length l)) head m = Some l /\
  sbi_list_first_entry head m = hd head l /\
  sbi_list_last_entry head m = default head (last l) /\
  (forall new, new ∉ head :: l ->
     dlist_repr (sbi_list_add new head m) head (new :: l) /\
     dlist_repr (sbi_list_add_tail new head m) head (l ++ [new])) /\
  (forall new l1 n l2, l = l1 ++ n :: l2 -> new ∉ head :: l ->
     dlist_repr (sbi_list_add new n m) head (l1 ++ n :: new :: l2)) /\
  (forall e l1 l2, l = l1 ++ e :: l2 ->
     dlist_repr (sbi_list_del e m) head (l1 ++ l2) /\
     dlist_repr (sbi_list_del_init e m) head (l1 ++ l2) /\
     dlist_repr (sbi_list_del_init e m) e []).
Proof.
  intros Hr. pose proof Hr as [Hnd Hl]. apply NoDup_cons in Hnd as Hnd'. destruct Hnd' as [Hh _].
  pose proof (linked_first _ _ _ _ Hl) as Hf. pose proof (linked_last _ _ _ _ Hl) as Hla.
  split_and!; try done.
  - unfold sbi_list_empty. rewrite Hf. destruct l as [|x l]; simpl; [by rewrite Z.eqb_refl|].
    destruct (Z.eqb_spec x head) as [->|]; [set_solver|done].
  - apply for_each_linked; [done|done|lia].
  - intros new Hnew. unfold sbi_list_add, sbi_list_add_tail. rewrite Hf, Hla. split.
    + by apply (add_between m head new [] l).
    + rewrite <- (app_nil_r l) in Hr, Hnew. by apply (add_between m head new l []).
  - intros new l1 n l2 -> Hnew. unfold sbi_list_add.
    apply linked_app in Hl as [_ Hl2]. rewrite (linked_first _ _ _ _ Hl2).
    rewrite cons_middle, app_assoc in Hr, Hnew.
    pose proof (add_between m head new (l1 ++ [n]) l2 Hr Hnew) as Ha.
    by rewrite last_snoc, <- app_assoc in Ha.
  - intros e l1 l2 ->. destruct (del_between _ _ _ _ _ Hr) as (Hp & Hn & Hd).
    assert (He : e ∉ head :: l1 ++ l2) by (pose proof (nodup_mid_r _ _ _ _ Hnd); set_solver).
    unfold sbi_list_del, sbi_list_del_init, __sbi_list_del_entry, SBI_INIT_LIST_HEAD.
    rewrite Hp, Hn. split_and!.
    1, 2: apply repr_frame; [done|]; by apply repr_frame.
    split; [by apply NoDup_singleton|]. simpl. by rewrite !fn_lookup_insert.
Qed.

(** ** Witness *)

Definition demo_list : dmem :=
  sbi_list_add_tail 30 1 (sbi_list_add_tail 20 1 (SBI_INIT_LIST_HEAD 1 (Dmem (fun _ => 0) (fun _ => 0)))).

Lemma demo_list_repr : dlist_repr demo_list 1 [20; 30].
Proof.
  split; [|vm_compute; repeat split].
  rewrite !NoDup_cons. repeat split; try apply NoDup_nil_2; set_solver.
Defined.

Lemma sbi_list_refines_sequence_witness :
  sbi_list_for_each 3 1 demo_list = Some [20; 30] /\
  dlist_repr (sbi_list_del 20 demo_list) 1 [30].
Proof.
  destruct (sbi_list_refines_sequence demo_list 1 [20; 30] demo_list_repr) as (_ & Hf & _ & _ & _ & _ & Hd).
  split; [exact Hf|]. apply (Hd 20 [] [30]). reflexivity.
Defined.
