(* ===== verification/Heap.v ===== *)
(** * The heap allocator of OpenSBI (lib/sbi/sbi_heap.c).

    A heap is described by three lists of [struct heap_node]: unused nodes,
    free ranges and used ranges.  The intrusive lists are the sequences their
    heads represent (see Dlist); [sbi_list_add], [sbi_list_add_tail] and
    [sbi_list_del] on them are [cons], append and removal.  A node keeps its
    own address [nptr] in the housekeeping area.  An operation is [None] when
    it spins for ever on the heap lock; a null pointer is 0. *)

From S2P Require Import Prelude SbiTypes Locks.

Local Open Scope Z_scope.

Definition HEAP_ALLOC_ALIGN : Z := 64.
Definition HEAP_HOUSEKEEPING_FACTOR : Z := 16.
Definition HEAP_BASE_ALIGN : Z := 1024.

Record heap_node := Node { nptr : Z; addr : Z; size : Z }.

(** sizeof(struct heap_node) on a 64-bit target *)
Definition sizeof_heap_node : Z := 32.

Record sbi_heap_control := Heap {
  lock : spinlock_t;
  base : Z;
  hpsize : Z;
  hkbase : Z;
  hksize : Z;
  free_node_list : list heap_node;
  free_space_list : list heap_node;
  used_space_list : list heap_node;
}.

Definition set_lists (fn fs us : list heap_node) (hp : sbi_heap_control) : sbi_heap_control :=
  Heap hp.(lock) hp.(base) hp.(hpsize) hp.(hkbase) hp.(hksize) fn fs us.
Definition set_lock (l : spinlock_t) (hp : sbi_heap_control) : sbi_heap_control :=
  Heap l hp.(base) hp.(hpsize) hp.(hkbase) hp.(hksize)
    hp.(free_node_list) hp.(free_space_list) hp.(used_space_list).

(** include/sbi/sbi_types.h *)
Definition ROUNDUP (a b : Z) : Z := u64 (u64 (u64 (a - 1) / b + 1) * b).

(** ** Allocation *)

Definition lowest_aligned (align : Z) (n : heap_node) : Z := ROUNDUP n.(addr) align.
Definition pad (align : Z) (n : heap_node) : Z := u64 (lowest_aligned align n - n.(addr)).

(** The first free range that fits, with the ranges before and after it. *)
Fixpoint find_fit (align sz : Z) (l : list heap_node)
  : option (list heap_node * heap_node * list heap_node) :=
  match l with
  | [] => None
  | n :: l =>
      if u64 (sz + pad align n) <=? n.(size) then Some ([], n, l)
      else '(l1, np, l2) ← find_fit align sz l; Some (n :: l1, np, l2)
  end.

(** The body of [alloc_with_align] between [spin_lock] and [spin_unlock]. *)
Definition alloc_locked (align sz : Z) (hp : sbi_heap_control) : Z * sbi_heap_control :=
  let fns := hp.(free_node_list) in
  let uss := hp.(used_space_list) in
  match find_fit align sz hp.(free_space_list) with
  | None => (0, hp)
  | Some (l1, np, l2) =>
      let p := pad align np in
      if negb (p =? 0) then
        match fns with
        | [] => (0, hp)
        | n :: fns' =>
            let total := u64 (sz + p) in
            let n' := Node n.(nptr) (lowest_aligned align np) sz in
            let np' := Node np.(nptr) np.(addr) p in
            if total <? np.(size) then
              match fns' with
              | [] => (0, hp)      (* n is put back *)
              | rem :: fns'' =>
                  let rem' := Node rem.(nptr) (u64 (np.(addr) + total)) (u64 (np.(size) - total)) in
                  (n'.(addr), set_lists fns'' (l1 ++ np' :: l2 ++ [rem']) (uss ++ [n']) hp)
              end
            else if negb (total =? np.(size)) then (0, hp)
            else (n'.(addr), set_lists fns' (l1 ++ np' :: l2) (uss ++ [n']) hp)
        end
      else
        match (if sz <? np.(size) then fns else []) with
        | n :: fns' =>
            let n' := Node n.(nptr) np.(addr) sz in
            let np' := Node np.(nptr) (u64 (np.(addr) + sz)) (u64 (np.(size) - sz)) in
            (n'.(addr), set_lists fns' (l1 ++ np' :: l2) (uss ++ [n']) hp)
        | [] =>
            if sz =? np.(size) then (np.(addr), set_lists fns (l1 ++ l2) (uss ++ [np]) hp)
            else (0, hp)
        end
  end.

Definition alloc_with_align (hp : sbi_heap_control) (align sz : Z) : option (Z * sbi_heap_control) :=
  if sz =? 0 then Some (0, hp)
  else
    let sz := u64 (sz + (align - 1)) in
    let sz := Z.land sz (Z.lnot (align - 1)) in
    l ← spin_lock hp.(lock);
    let '(ret, hp) := alloc_locked align sz (set_lock l hp) in
    Some (ret, set_lock (spin_unlock l) hp).

Definition sbi_malloc_from (hp : sbi_heap_control) (sz : Z) : option (Z * sbi_heap_control) :=
  alloc_with_align hp HEAP_ALLOC_ALIGN sz.

Definition sbi_aligned_alloc_from (hp : sbi_heap_control) (alignment sz : Z)
  : option (Z * sbi_heap_control) :=
  let alignment := if alignment <? HEAP_ALLOC_ALIGN then HEAP_ALLOC_ALIGN else alignment in
  if negb (Z.land alignment (alignment - 1) =? 0) then Some (0, hp)
  else if negb (sz `mod` alignment =? 0) then Some (0, hp)
  else alloc_with_align hp alignment sz.

(** Memory contents, for the functions that clear what they allocate. *)
Definition memset (m : Z -> Z) (p c n : Z) : Z -> Z :=
  fun a => if (p <=? a) && (a <? p + n) then c else m a.

Definition sbi_zalloc_from (hp : sbi_heap_control) (m : Z -> Z) (sz : Z)
  : option (Z * sbi_heap_control * (Z -> Z)) :=
  '(ret, hp) ← sbi_malloc_from hp sz;
  let m := if negb (ret =? 0) then memset m ret 0 sz else m in
  Some (ret, hp, m).

Definition sbi_calloc_from (hp : sbi_heap_control) (m : Z -> Z) (nitems sz : Z)
  : option (Z * sbi_heap_control * (Z -> Z)) :=
  sbi_zalloc_from hp m (u64 (nitems * sz)).

(** ** Release *)

(** The used range that holds [ptr], with the ranges before and after it. *)
Fixpoint find_used (ptr : Z) (l : list heap_node)
  : option (list heap_node * heap_node * list heap_node) :=
  match l with
  | [] => None
  | n :: l =>
      if (n.(addr) <=? ptr) && (ptr <? u64 (n.(addr) + n.(size))) then Some ([], n, l)
      else '(l1, np, l2) ← find_used ptr l; Some (n :: l1, np, l2)
  end.

(** The loop over the free ranges: the new list, and whether the node of
    [np] went back to the unused nodes ([false] while [np] is not placed). *)
Fixpoint free_merge (np : heap_node) (l : list heap_node) : option (list heap_node * bool) :=
  match l with
  | [] => None
  | n :: l =>
      if u64 (np.(addr) + np.(size)) =? n.(addr) then
        Some (Node n.(nptr) np.(addr) (u64 (n.(size) + np.(size))) :: l, true)
      else if np.(addr) =? u64 (n.(addr) + n.(size)) then
        Some (Node n.(nptr) n.(addr) (u64 (n.(size) + np.(size))) :: l, true)
      else if u64 (n.(addr) + n.(size)) <? np.(addr) then Some (n :: np :: l, false)
      else '(l, b) ← free_merge np l; Some (n :: l, b)
  end.

Definition free_locked (ptr : Z) (hp : sbi_heap_control) : sbi_heap_control :=
  match find_used ptr hp.(used_space_list) with
  | None => hp
  | Some (l1, np, l2) =>
      match free_merge np hp.(free_space_list) with
      | Some (fs, true) => set_lists (hp.(free_node_list) ++ [np]) fs (l1 ++ l2) hp
      | Some (fs, false) => set_lists hp.(free_node_list) fs (l1 ++ l2) hp
      | None => set_lists hp.(free_node_list) (hp.(free_space_list) ++ [np]) (l1 ++ l2) hp
      end
  end.

Definition sbi_free_from (hp : sbi_heap_control) (ptr : Z) : option sbi_heap_control :=
  if ptr =? 0 then Some hp
  else
    l ← spin_lock hp.(lock);
    Some (set_lock (spin_unlock l) (free_locked ptr (set_lock l hp))).

(** ** Accounting *)

Definition sum_sizes (l : list heap_node) : Z := foldr (fun n s => n.(size) + s) 0 l.

Definition sbi_heap_free_space_from (hp : sbi_heap_control) : option (Z * sbi_heap_control) :=
  l ← spin_lock hp.(lock);
  let ret := foldl (fun ret n => u64 (ret + n.(size))) 0 hp.(free_space_list) in
  Some (ret, set_lock (spin_unlock l) hp).

(** The source reads the free space of the global heap, whatever [hp] is. *)
Definition sbi_heap_used_space_from (hp global_hpctrl : sbi_heap_control) : option Z :=
  '(fsp, _) ← sbi_heap_free_space_from global_hpctrl;
  Some (u64 (hp.(hpsize) - hp.(hksize) - fsp)).

Definition sbi_heap_reserved_space_from (hp : sbi_heap_control) : Z := hp.(hksize).

(** ** Initialisation *)

Definition heap_nodes (hkb : Z) (count : nat) : list heap_node :=
  (fun i => Node (u64 (hkb + sizeof_heap_node * Z.of_nat i)) 0 0) <$> seq 0 count.

(** [None] when the list of nodes is empty: the source then treats the list
    head inside [hpctrl] as a node. *)
Definition sbi_heap_init_new (b sz : Z) : option sbi_heap_control :=
  let hks := Z.land (sz / HEAP_HOUSEKEEPING_FACTOR) (Z.lnot (HEAP_BASE_ALIGN - 1)) in
  match heap_nodes b (Z.to_nat (hks / sizeof_heap_node)) with
  | [] => None
  | n :: fns =>
      Some (Heap SPIN_LOCK_UNLOCKED b sz b hks fns
              [Node n.(nptr) (u64 (b + hks)) (u64 (sz - hks))] [])
  end.

(** The fields of [struct sbi_scratch] that [sbi_heap_init] reads. *)
Record fw_layout := Fw {
  fw_start : Z; fw_size : Z; fw_rw_offset : Z; fw_heap_offset : Z; fw_heap_size : Z;
}.

Inductive init_result := InitErr (e : Z) | InitOk (hp : sbi_heap_control) | InitUndefined.

Definition sbi_heap_init (s : fw_layout) : init_result :=
  if (s.(fw_heap_size) =? 0)
     || negb (Z.land s.(fw_heap_size) (HEAP_BASE_ALIGN - 1) =? 0)
     || (s.(fw_heap_offset) <? s.(fw_rw_offset))
     || (s.(fw_size) <? u64 (s.(fw_heap_offset) + s.(fw_heap_size)))
     || negb (Z.land s.(fw_heap_offset) (HEAP_BASE_ALIGN - 1) =? 0)
  then InitErr SBI_EINVAL
  else match sbi_heap_init_new (u64 (s.(fw_start) + s.(fw_heap_offset))) s.(fw_heap_size) with
       | Some hp => InitOk hp
       | None => InitUndefined
       end.

(** ** Tilings

    The ranges of a list tile [[lo, hi)] when, in some order, each one starts
    where the one before it ends. *)

Definition node_end (n : heap_node) : Z := n.(addr) + n.(size).

Fixpoint chain (lo : Z) (l : list heap_node) (hi : Z) : Prop :=
  match l with
  | [] => lo = hi
  | n :: l => n.(addr) = lo /\ 0 < n.(size) /\ chain (node_end n) l hi
  end.

Definition tiled (lo hi : Z) (l : list heap_node) : Prop := exists l', l' ≡ₚ l /\ chain lo l' hi.

#[export] Instance tiled_proper lo hi : Proper (Permutation ==> iff) (tiled lo hi).
Proof.
  assert (H : forall l l', l ≡ₚ l' -> tiled lo hi l -> tiled lo hi l').
  { intros l l' Hp (k & Hk & Hc). exists k. by rewrite <- Hp. }
  intros l l' Hp. split; apply H; [done|by symmetry].
Qed.

#[export] Instance sum_sizes_proper : Proper (Permutation ==> eq) sum_sizes.
Proof. induction 1; simpl; lia. Qed.

Lemma sum_sizes_app l1 l2 : sum_sizes (l1 ++ l2) = sum_sizes l1 + sum_sizes l2.
Proof. induction l1; simpl; lia. Qed.

Lemma chain_app lo l1 l2 hi : chain lo (l1 ++ l2) hi <-> exists m, chain lo l1 m /\ chain m l2 hi.
Proof.
  revert lo. induction l1 as [|n l1 IH]; intros lo; simpl.
  - split; [eauto|by intros (m & -> & ?)].
  - rewrite IH. naive_solver.
Qed.

Lemma chain_le lo l hi : chain lo l hi -> lo <= hi.
Proof.
  revert lo. induction l as [|n l IH]; intros lo; simpl; [lia|].
  intros (? & ? & Hc). apply IH in Hc. unfold node_end in *. lia.
Qed.

Lemma chain_sum lo l hi : chain lo l hi -> sum_sizes l = hi - lo.
Proof.
  revert lo. induction l as [|n l IH]; intros lo; simpl; [lia|].
  intros (? & ? & Hc). apply IH in Hc. unfold node_end in *. lia.
Qed.

Lemma chain_bound lo l hi n :
  chain lo l hi -> n ∈ l -> lo <= n.(addr) /\ 0 < n.(size) /\ node_end n <= hi.
Proof.
  intros Hc (l1 & l2 & ->)%list_elem_of_split. apply chain_app in Hc as (m & H1 & -> & ? & H2).
  apply chain_le in H1, H2. done.
Qed.

Lemma tiled_bound lo hi l n :
  tiled lo hi l -> n ∈ l -> lo <= n.(addr) /\ 0 < n.(size) /\ node_end n <= hi.
Proof. intros (k & Hk & Hc) Hn. eapply chain_bound; [done|by rewrite Hk]. Qed.

Lemma tiled_sum lo hi l : tiled lo hi l -> sum_sizes l = hi - lo.
Proof. intros (k & Hk & Hc). rewrite <- Hk. by apply chain_sum. Qed.

(** Distinct ranges of a tiling do not overlap. *)
Lemma tiled_disjoint lo hi a b l :
  tiled lo hi (a :: b :: l) -> node_end a <= b.(addr) \/ node_end b <= a.(addr).
Proof.
  intros (k & Hk & Hc). assert (Ha : a ∈ k) by (rewrite Hk; set_solver).
  apply list_elem_of_split in Ha as (l1 & l2 & ->).
  assert (Hb : l1 ++ l2 ≡ₚ b :: l).
  { apply (Permutation_cons_inv (a := a)). by rewrite Permutation_middle. }
  apply chain_app in Hc as (m & H1 & -> & ? & H2).
  assert (Hin : b ∈ l1 ++ l2) by (rewrite Hb; set_solver).
  apply elem_of_app in Hin as [Hin|Hin].
  - right. eapply (chain_bound _ _ _ b) in H1; [lia|done].
  - left. eapply (chain_bound _ _ _ b) in H2; [lia|done].
Qed.

(** Cutting a range into consecutive parts. *)
Lemma tiled_split lo hi n parts l :
  tiled lo hi (n :: l) -> chain n.(addr) parts (node_end n) -> tiled lo hi (parts ++ l).
Proof.
  intros (k & Hk & Hc) Hp. assert (Hn : n ∈ k) by (rewrite Hk; set_solver).
  apply list_elem_of_split in Hn as (l1 & l2 & ->).
  apply chain_app in Hc as (m & H1 & <- & _ & H2).
  exists (l1 ++ parts ++ l2). split; [|rewrite chain_app; exists (addr n); by rewrite chain_app; eauto].
  rewrite <- Permutation_middle in Hk. apply Permutation_cons_inv in Hk. rewrite <- Hk.
  rewrite !app_assoc. by rewrite (Permutation_app_comm l1).
Qed.

(** Joining two ranges that touch. *)
Lemma tiled_merge lo hi a b ab l :
  tiled lo hi (a :: b :: l) -> node_end a = b.(addr) ->
  ab.(addr) = a.(addr) -> ab.(size) = a.(size) + b.(size) -> tiled lo hi (ab :: l).
Proof.
  intros (k & Hk & Hc) Hab Ha Hs. assert (Hb : b ∈ k) by (rewrite Hk; set_solver).
  apply list_elem_of_split in Hb as (l1 & l2 & ->).
  assert (Hal : l1 ++ l2 ≡ₚ a :: l).
  { apply (Permutation_cons_inv (a := b)). rewrite Permutation_middle, Hk. constructor. }
  apply chain_app in Hc as (m & H1 & Hm & Hbs & H2).
  assert (Hin : a ∈ l1 ++ l2) by (rewrite Hal; set_solver).
  apply elem_of_app in Hin as [Hin|Hin]; last first.
  { eapply (chain_bound _ _ _ a) in H2; [unfold node_end in *; lia|done]. }
  apply list_elem_of_split in Hin as (l3 & l4 & ->).
  apply chain_app in H1 as (m' & H3 & Ham & Has & H4).
  destruct l4 as [|c l4]; simpl in H4.
  2: { destruct H4 as (? & ? & H4). apply chain_le in H4. unfold node_end in *. lia. }
  exists (l3 ++ ab :: l2). split.
  - rewrite <- app_assoc in Hal. simpl in Hal. rewrite <- Permutation_middle in Hal |- *.
    apply Permutation_cons_inv in Hal. by rewrite Hal.
  - rewrite chain_app. exists m'. split; [done|]. simpl. unfold node_end in *.
    split_and!; [lia|lia|]. replace (addr ab + size ab) with (addr b + size b) by lia. done.
Qed.

(** ** The invariant *)

Definition heap_lo (hp : sbi_heap_control) : Z := hp.(hkbase) + hp.(hksize).
Definition heap_hi (hp : sbi_heap_control) : Z := hp.(base) + hp.(hpsize).

Definition node_aligned (n : heap_node) : Prop :=
  (HEAP_ALLOC_ALIGN | n.(addr)) /\ (HEAP_ALLOC_ALIGN | n.(size)).

Definition ranges (hp : sbi_heap_control) : list heap_node :=
  hp.(free_space_list) ++ hp.(used_space_list).

Record heap_ok (hp : sbi_heap_control) : Prop := {
  ok_lo : 0 < heap_lo hp;
  ok_hi : heap_hi hp + HEAP_ALLOC_ALIGN <= 2 ^ 64;
  ok_tiled : tiled (heap_lo hp) (heap_hi hp) (ranges hp);
  ok_aligned : Forall node_aligned (ranges hp);
}.

(** Between two operations: the ranges tile the heap and the lock is free. *)
Definition heap_wf (hp : sbi_heap_control) : Prop := lock_free hp.(lock) /\ heap_ok hp.

(** The nodes of the housekeeping area, wherever they are. *)
Definition nodes_of (hp : sbi_heap_control) : list Z :=
  nptr <$> (hp.(free_node_list) ++ ranges hp).

Lemma roundup_spec a k :
  0 <= k -> 0 < a -> a + 2 ^ k <= 2 ^ 64 ->
  a <= ROUNDUP a (2 ^ k) < a + 2 ^ k /\ (2 ^ k | ROUNDUP a (2 ^ k)).
Proof.
  intros Hk Ha Hb. pose proof (pow2_pos k Hk) as Hp. unfold ROUNDUP.
  pose proof (Z.div_mod (a - 1) (2 ^ k) ltac:(lia)) as Hdm.
  pose proof (Z.mod_pos_bound (a - 1) (2 ^ k) Hp) as Hm.
  set (d := (a - 1) / 2 ^ k) in *. set (r := (a - 1) `mod` 2 ^ k) in *.
  assert (0 <= d) by (apply Z.div_pos; lia).
  rewrite (wrap_small 64 (a - 1)) by (unfold in_range; lia). fold d.
  rewrite (wrap_small 64 (d + 1)) by (unfold in_range; nia).
  rewrite wrap_small by (unfold in_range; nia).
  split; [nia|]. by apply Z.divide_factor_r.
Qed.

Lemma align_divides k : 6 <= k -> (HEAP_ALLOC_ALIGN | 2 ^ k).
Proof.
  intros Hk. exists (2 ^ (k - 6)). unfold HEAP_ALLOC_ALIGN. change 64 with (2 ^ 6).
  rewrite <- Z.pow_add_r by lia. f_equal. lia.
Qed.

Lemma find_fit_spec align sz l l1 np l2 :
  find_fit align sz l = Some (l1, np, l2) ->
  l = l1 ++ np :: l2 /\ u64 (sz + pad align np) <= np.(size).
Proof.
  revert l1. induction l as [|n l IH]; intros l1; simpl; [done|].
  destruct (Z.leb_spec (u64 (sz + pad align n)) (size n)); [naive_solver|].
  destruct (find_fit align sz l) as [[[? ?] ?]|]; intros ?; simplify_eq/=.
  destruct (IH l0 eq_refl) as [-> ?]. done.
Qed.

(** Replacing a free range by parts of which one becomes used. *)
Lemma alloc_commit hp fn fs l1 np l2 n parts keep :
  heap_ok hp -> hp.(free_space_list) = l1 ++ np :: l2 ->
  chain np.(addr) parts (node_end np) -> Forall node_aligned parts ->
  parts ≡ₚ n :: keep -> fs ≡ₚ keep ++ l1 ++ l2 ->
  let hp' := set_lists fn fs (hp.(used_space_list) ++ [n]) hp in
  heap_ok hp' /\ sum_sizes fs = sum_sizes hp.(free_space_list) - n.(size).
Proof.
  intros [Hlo Hhi Ht Ha] Hfs Hc Hpa Hp Hfs'. unfold ranges in *.
  rewrite Hfs in Ht, Ha. rewrite <- app_assoc in Ht, Ha. simpl in Ht, Ha.
  rewrite <- Permutation_middle in Ht, Ha. apply Forall_cons in Ha as [_ Ha].
  assert (Hperm : fs ++ hp.(used_space_list) ++ [n] ≡ₚ parts ++ l1 ++ l2 ++ used_space_list hp).
  { rewrite Hfs', Hp, !app_assoc. rewrite <- Permutation_cons_append. simpl.
    by rewrite <- !app_assoc. }
  split; [split; unfold ranges; simpl; try done|].
  - rewrite Hperm. eapply tiled_split; [|done]. by rewrite <- ?app_assoc in *.
  - rewrite Hperm. apply Forall_app. split; [done|]. by rewrite <- ?app_assoc in *.
  - apply chain_sum in Hc. rewrite Hp in Hc. rewrite Hfs', Hfs, !sum_sizes_app. simpl in *.
    unfold node_end in Hc. lia.
Qed.

(** What a call to the allocator guarantees: nothing changed and a null
    pointer, or a new used range cut from a free one. *)
Definition alloc_post (align sz : Z) (hp : sbi_heap_control) (ret : Z) (hp' : sbi_heap_control) : Prop :=
  heap_ok hp' /\ nodes_of hp' ≡ₚ nodes_of hp /\
  heap_lo hp' = heap_lo hp /\ heap_hi hp' = heap_hi hp /\
  ((ret = 0 /\ ranges hp' = ranges hp /\ hp'.(used_space_list) = hp.(used_space_list)) \/
   (0 < ret /\ (align | ret) /\ exists n f,
      n.(addr) = ret /\ n.(size) = sz /\ hp'.(used_space_list) = hp.(used_space_list) ++ [n] /\
      f ∈ hp.(free_space_list) /\ f.(addr) <= ret /\ ret + sz <= node_end f /\
      sum_sizes hp'.(free_space_list) = sum_sizes hp.(free_space_list) - sz)).

Lemma alloc_post_fail align sz hp : heap_ok hp -> alloc_post align sz hp 0 hp.
Proof. intros. split_and!; auto. Qed.

Lemma alloc_post_ok align sz hp fn fs l1 np l2 n parts keep :
  heap_ok hp -> hp.(free_space_list) = l1 ++ np :: l2 ->
  chain np.(addr) parts (node_end np) -> Forall node_aligned parts ->
  parts ≡ₚ n :: keep -> fs ≡ₚ keep ++ l1 ++ l2 ->
  nptr <$> (fn ++ parts) ≡ₚ nptr <$> (hp.(free_node_list) ++ [np]) ->
  n.(size) = sz -> (align | n.(addr)) ->
  alloc_post align sz hp n.(addr) (set_lists fn fs (hp.(used_space_list) ++ [n]) hp).
Proof.
  intros Hok Hfs Hc Hpa Hp Hfs' Hids Hsz Hal.
  destruct (alloc_commit hp fn fs l1 np l2 n parts keep Hok Hfs Hc Hpa Hp Hfs') as [Hok' Hsum].
  assert (Hn : n ∈ parts) by (rewrite Hp; set_solver).
  pose proof (chain_bound _ _ _ _ Hc Hn) as (Hb1 & Hb2 & Hb3).
  assert (Hnp : np ∈ hp.(free_space_list)) by (rewrite Hfs; set_solver).
  destruct Hok as [Hlo Hhi Ht _].
  pose proof (tiled_bound _ _ _ np Ht ltac:(unfold ranges; set_solver)) as (Hn1 & _ & _).
  split; [done|]. split.
  - unfold nodes_of, ranges. simpl. rewrite Hfs, Hfs', !fmap_app in *. simpl in *.
    assert (Hpn : nptr <$> parts ≡ₚ nptr n :: (nptr <$> keep)) by (by rewrite Hp).
    rewrite Hpn in Hids. rewrite <- !app_assoc. simpl.
    rewrite (app_assoc (nptr <$> free_node_list hp)).
    rewrite <- (Permutation_middle (_ ++ (nptr <$> l1))).
    transitivity ((nptr <$> fn) ++ (nptr n :: (nptr <$> keep)) ++ (nptr <$> l1) ++ (nptr <$> l2)
                  ++ (nptr <$> used_space_list hp)).
    { simpl. f_equiv. rewrite !app_assoc. by rewrite <- Permutation_cons_append. }
    rewrite app_assoc, Hids. rewrite <- !app_assoc. simpl. by rewrite <- Permutation_middle.
  - split_and!; try done. right. split; [lia|]. split; [done|]. exists n, np.
    unfold node_end in *. split_and!; try done; try lia. simpl. by rewrite Hsum, Hsz.
Qed.

Lemma alloc_locked_spec k sz hp :
  6 <= k -> 0 < sz -> (2 ^ k | sz) -> sz + 2 ^ k <= 2 ^ 64 -> heap_hi hp + 2 ^ k <= 2 ^ 64 ->
  heap_ok hp -> let '(ret, hp') := alloc_locked (2 ^ k) sz hp in alloc_post (2 ^ k) sz hp ret hp'.
Proof.
  intros Hk Hsz Hd Hov Hhi Hok. unfold alloc_locked.
  destruct (find_fit (2 ^ k) sz (free_space_list hp)) as [[[l1 np] l2]|] eqn:Hff;
    [|by apply alloc_post_fail].
  apply find_fit_spec in Hff as [Hfs Hfit].
  pose proof Hok as [Hlo _ Ht Ha].
  assert (Hin : np ∈ ranges hp) by (unfold ranges; rewrite Hfs; set_solver).
  pose proof (tiled_bound _ _ _ np Ht Hin) as (Hb1 & Hb2 & Hb3).
  rewrite Forall_forall in Ha. destruct (Ha np Hin) as [Ha1 Ha2].
  pose proof (align_divides k Hk) as Hdk. assert (Hds : (HEAP_ALLOC_ALIGN | sz)) by (by eapply Z.divide_trans).
  unfold pad, node_end in *.
  destruct (roundup_spec (addr np) k) as [Hr Hrd]; [lia|lia|lia|].
  fold (lowest_aligned (2 ^ k) np) in Hr, Hrd. set (la := lowest_aligned (2 ^ k) np) in *.
  assert (Hdla : (HEAP_ALLOC_ALIGN | la)) by (exact (Z.divide_trans _ _ _ Hdk Hrd)).
  rewrite (wrap_small 64 (la - addr np)) in * by (unfold in_range; lia).
  rewrite (wrap_small 64 (sz + (la - addr np))) in * by (unfold in_range; lia).
  destruct (Z.eqb_spec (la - addr np) 0) as [Hp0|Hp0]; simpl.
  - assert (la = addr np) as Hla by lia.
    destruct (Z.ltb_spec sz (size np)) as [Hlt|Hge];
      [destruct (free_node_list hp) as [|n fns'] eqn:Hfn|];
      [destruct (Z.eqb_spec sz (size np)); [lia|by apply alloc_post_fail]| |].
    + rewrite !wrap_small by (unfold in_range; lia).
      set (n' := Node (nptr n) (addr np) sz).
      set (np' := Node (nptr np) (addr np + sz) (size np - sz)).
      apply (alloc_post_ok _ sz hp fns' (l1 ++ np' :: l2) l1 np l2 n' [n'; np'] [np']); try done.
      * simpl. unfold node_end. simpl. split_and!; lia.
      * repeat constructor; simpl; try done; [by apply Z.divide_add_r|by apply Z.divide_sub_r].
      * by rewrite <- Permutation_middle.
      * rewrite Hfn, fmap_app. simpl. rewrite fmap_app. simpl. solve_Permutation.
      * simpl. by rewrite <- Hla.
    + destruct (Z.eqb_spec sz (size np)) as [->|]; [|by apply alloc_post_fail].
      apply (alloc_post_ok _ (size np) hp (free_node_list hp) (l1 ++ l2) l1 np l2 np [np] []); try done.
      * by repeat constructor.
      * by rewrite <- Hla.
  - destruct (free_node_list hp) as [|n fns'] eqn:Hfn; [by apply alloc_post_fail|].
    set (n' := Node (nptr n) la sz). set (np' := Node (nptr np) (addr np) (la - addr np)).
    assert (Haln : node_aligned n' /\ node_aligned np').
    { repeat split; simpl; try done; by apply Z.divide_sub_r. }
    destruct Haln as [Haln Halnp].
    destruct (Z.ltb_spec (sz + (la - addr np)) (size np)) as [Hlt|Hge].
    + destruct fns' as [|rem fns'']; [by apply alloc_post_fail|].
      rewrite !wrap_small by (unfold in_range; lia).
      set (rem' := Node _ _ _).
      apply (alloc_post_ok _ sz hp fns'' (l1 ++ np' :: l2 ++ [rem']) l1 np l2 n' [np'; n'; rem'] [np'; rem']);
        try done.
      * simpl. unfold node_end. simpl. split_and!; lia.
      * repeat (constructor; [done|]). constructor; [|done]. split; simpl;
          [apply Z.divide_add_r; [done|]|apply Z.divide_sub_r; [done|]];
          (apply Z.divide_add_r; [done|by apply Z.divide_sub_r]).
      * constructor.
      * rewrite <- Permutation_middle, app_assoc, <- Permutation_cons_append. done.
      * rewrite Hfn, fmap_app. simpl. rewrite fmap_app. simpl. solve_Permutation.
    + destruct (Z.eqb_spec (sz + (la - addr np)) (size np)) as [He|]; [|by apply alloc_post_fail]. simpl.
      apply (alloc_post_ok _ sz hp fns' (l1 ++ np' :: l2) l1 np l2 n' [np'; n'] [np']); try done.
      * simpl. unfold node_end. simpl. split_and!; lia.
      * by repeat (constructor; [done|]).
      * constructor.
      * by rewrite <- Permutation_middle.
      * rewrite Hfn, fmap_app. simpl. rewrite fmap_app. simpl. solve_Permutation.
Qed.

(** ** Release of a range *)

Lemma find_used_spec ptr l l1 np l2 :
  find_used ptr l = Some (l1, np, l2) ->
  l = l1 ++ np :: l2 /\ np.(addr) <= ptr < u64 (node_end np).
Proof.
  revert l1. induction l as [|n l IH]; intros l1; simpl; [done|].
  destruct (Z.leb_spec (addr n) ptr), (Z.ltb_spec ptr (u64 (addr n + size n))); simpl;
    try (intros ?; simplify_eq; done);
    destruct (find_used ptr l) as [[[? ?] ?]|]; intros ?; simplify_eq/=;
    by destruct (IH l0 eq_refl) as [-> ?].
Qed.

Lemma find_used_complete ptr l n :
  n ∈ l -> n.(addr) <= ptr < u64 (node_end n) -> is_Some (find_used ptr l).
Proof.
  intros Hn Hp. induction l as [|m l IH]; [set_solver|]. simpl.
  apply elem_of_cons in Hn as [<-|Hn].
  - destruct (Z.leb_spec (addr n) ptr), (Z.ltb_spec ptr (u64 (addr n + size n)));
      unfold node_end in *; simpl; (by eexists) || lia.
  - case_match; [by eexists|]. destruct (IH Hn) as [[[? ?] ?] ->]. by eexists.
Qed.

(** [np] is joined to the node [n], or placed as a range of its own. *)
Lemma free_merge_spec np l fs b :
  free_merge np l = Some (fs, b) ->
  (b = false /\ fs ≡ₚ np :: l) \/
  (b = true /\ exists l1 n l2 n', l = l1 ++ n :: l2 /\ fs = l1 ++ n' :: l2 /\
     n'.(nptr) = n.(nptr) /\ n'.(size) = u64 (n.(size) + np.(size)) /\
     ((u64 (node_end np) = n.(addr) /\ n'.(addr) = np.(addr)) \/
      (np.(addr) = u64 (node_end n) /\ n'.(addr) = n.(addr)))).
Proof.
  revert fs. induction l as [|n l IH]; intros fs; simpl; [done|].
  destruct (Z.eqb_spec (u64 (addr np + size np)) (addr n)).
  { intros [= <- <-]. right. split; [done|]. eexists [], n, l, _. split_and!; try done. by left. }
  destruct (Z.eqb_spec (addr np) (u64 (addr n + size n))).
  { intros [= <- <-]. right. split; [done|]. eexists [], n, l, _. split_and!; try done. by right. }
  destruct (u64 (addr n + size n) <? addr np).
  { intros [= <- <-]. left. split; [done|]. constructor. }
  destruct (free_merge np l) as [[fs' b']|]; [|done]. intros [= <- <-].
  destruct (IH fs' eq_refl) as [[-> Hp]|(-> & l1 & m & l2 & n' & -> & -> & ?)].
  - left. split; [done|]. rewrite Hp. constructor.
  - right. split; [done|]. by exists (n :: l1), m, l2, n'.
Qed.

Definition free_post (ptr : Z) (hp hp' : sbi_heap_control) : Prop :=
  heap_ok hp' /\ nodes_of hp' ≡ₚ nodes_of hp /\
  heap_lo hp' = heap_lo hp /\ heap_hi hp' = heap_hi hp /\
  ((hp' = hp /\ forall n, n ∈ hp.(used_space_list) -> ~ (n.(addr) <= ptr < node_end n)) \/
   exists l1 n l2, hp.(used_space_list) = l1 ++ n :: l2 /\ n.(addr) <= ptr < node_end n /\
     hp'.(used_space_list) = l1 ++ l2 /\
     sum_sizes hp'.(free_space_list) = sum_sizes hp.(free_space_list) + n.(size)).

(** Giving back [np]: the free ranges keep their sum and the rest its tiling. *)
Lemma free_commit hp fn fs l1 np l2 :
  heap_ok hp -> hp.(used_space_list) = l1 ++ np :: l2 ->
  tiled (heap_lo hp) (heap_hi hp) (fs ++ l1 ++ l2) -> Forall node_aligned fs ->
  nptr <$> (fn ++ fs) ≡ₚ nptr <$> (hp.(free_node_list) ++ np :: hp.(free_space_list)) ->
  heap_ok (set_lists fn fs (l1 ++ l2) hp) /\
  nodes_of (set_lists fn fs (l1 ++ l2) hp) ≡ₚ nodes_of hp /\
  sum_sizes fs = sum_sizes hp.(free_space_list) + np.(size).
Proof.
  intros [Hlo Hhi Ht Ha] Hus Htf Haf Hids. split_and!.
  - split; unfold ranges in *; simpl; try done. rewrite Hus in Ha.
    rewrite !Forall_app, Forall_cons in Ha. rewrite !Forall_app. tauto.
  - unfold nodes_of, ranges in *. simpl. rewrite Hus, !fmap_app in *. rewrite !fmap_cons in *.
    rewrite app_assoc, Hids. rewrite <- !app_assoc. solve_Permutation.
  - apply tiled_sum in Ht, Htf. unfold ranges in Ht. rewrite Hus, !sum_sizes_app in *. simpl in Ht. lia.
Qed.

Lemma free_locked_spec ptr hp : heap_ok hp -> free_post ptr hp (free_locked ptr hp).
Proof.
  intros Hok. pose proof Hok as [Hlo Hhi Ht Ha]. unfold HEAP_ALLOC_ALIGN in Hhi. unfold free_locked.
  assert (Hend : forall n, n ∈ ranges hp -> u64 (node_end n) = node_end n /\ addr n < node_end n).
  { intros n Hn. pose proof (tiled_bound _ _ _ _ Ht Hn) as (? & ? & ?). unfold node_end in *.
    split; [apply wrap_small; unfold in_range|]; lia. }
  destruct (find_used ptr (used_space_list hp)) as [[[l1 np] l2]|] eqn:Hfu; last first.
  { split_and!; try done. left. split; [done|]. intros n Hn Hp.
    destruct (find_used_complete ptr _ n Hn) as [? Hs]; [|by rewrite Hfu in Hs].
    destruct (Hend n) as [-> _]; [unfold ranges; set_solver|done]. }
  apply find_used_spec in Hfu as [Hus Hptr].
  assert (Hnp : np ∈ ranges hp) by (unfold ranges; rewrite Hus; set_solver).
  destruct (Hend np Hnp) as [Hnpe Hnplt]. rewrite Hnpe in Hptr.
  assert (Hanp : node_aligned np) by (rewrite Forall_forall in Ha; auto).
  pose proof Ha as Haf. unfold ranges in Haf. apply Forall_app in Haf as [Haf _].
  assert (Ht' : tiled (heap_lo hp) (heap_hi hp) (np :: hp.(free_space_list) ++ l1 ++ l2)).
  { unfold ranges in Ht. rewrite Hus in Ht. revert Ht. apply tiled_proper. solve_Permutation. }
  assert (Hgo : forall fn fs, tiled (heap_lo hp) (heap_hi hp) (fs ++ l1 ++ l2) ->
    Forall node_aligned fs ->
    nptr <$> (fn ++ fs) ≡ₚ nptr <$> (hp.(free_node_list) ++ np :: hp.(free_space_list)) ->
    free_post ptr hp (set_lists fn fs (l1 ++ l2) hp)).
  { intros fn fs Ht1 Ha1 Hids.
    destruct (free_commit hp fn fs l1 np l2 Hok Hus Ht1 Ha1 Hids) as (? & ? & ?).
    split_and!; try done. right. exists l1, np, l2. split_and!; done || lia. }
  destruct (free_merge np (free_space_list hp)) as [[fs [|]]|] eqn:Hfm.
  - apply free_merge_spec in Hfm as [[? _]|(_ & k1 & n & k2 & n' & Hfs & -> & Hid & Hs & Hadj)]; [done|].
    assert (Hn : n ∈ ranges hp) by (unfold ranges; rewrite Hfs; set_solver).
    destruct (Hend n Hn) as [Hne Hnlt].
    assert (Han : node_aligned n) by (rewrite Forall_forall in Ha; auto).
    pose proof (tiled_bound _ _ _ _ Ht Hn) as (? & ? & ?).
    pose proof (tiled_bound _ _ _ _ Ht Hnp) as (? & ? & ?).
    assert (Ht2 : tiled (heap_lo hp) (heap_hi hp) (np :: n :: (k1 ++ k2) ++ l1 ++ l2)).
    { rewrite Hfs in Ht'. revert Ht'. apply tiled_proper. solve_Permutation. }
    assert (Hsum : u64 (size n + size np) = size n + size np).
    { apply wrap_small. unfold in_range, node_end in *. lia. }
    rewrite Hsum in Hs. apply Hgo.
    + assert (Hm : tiled (heap_lo hp) (heap_hi hp) (n' :: (k1 ++ k2) ++ l1 ++ l2)).
      { destruct Hadj as [[Hadj Hna]|[Hadj Hna]].
        - eapply tiled_merge; [exact Ht2|congruence|done|lia].
        - eapply (tiled_merge _ _ n np); [|congruence|done|done].
          revert Ht2. apply tiled_proper. constructor. }
      revert Hm. apply tiled_proper. solve_Permutation.
    + rewrite Hfs in Haf. rewrite Forall_app, Forall_cons in Haf. rewrite Forall_app, Forall_cons.
      destruct Hanp, Han. split_and!; try tauto. split.
      * destruct Hadj as [[_ ->]|[_ ->]]; done.
      * rewrite Hs. by apply Z.divide_add_r.
    + rewrite Hfs, !fmap_app. simpl. rewrite !fmap_app. simpl. rewrite Hid. solve_Permutation.
  - apply free_merge_spec in Hfm as [[_ Hp]|[? _]]; [|done]. apply Hgo.
    + by rewrite Hp.
    + rewrite Hp. by constructor.
    + by rewrite Hp.
  - apply Hgo.
    + by rewrite <- Permutation_cons_append.
    + apply Forall_app. by rewrite Forall_singleton.
    + by rewrite <- Permutation_cons_append.
Qed.

(** ** The calls *)

Lemma set_lock_ok l hp : heap_ok (set_lock l hp) <-> heap_ok hp.
Proof. split; intros []; by split. Qed.

(** The size the allocator reserves for a request of [sz] bytes. *)
Definition reserved (k sz : Z) : Z := sz + (2 ^ k - 1) - (sz + (2 ^ k - 1)) `mod` 2 ^ k.

Lemma reserved_spec k sz : 0 <= k -> sz <= reserved k sz < sz + 2 ^ k /\ (2 ^ k | reserved k sz).
Proof.
  intros Hk. unfold reserved. pose proof (pow2_pos k Hk).
  pose proof (Z.mod_pos_bound (sz + (2 ^ k - 1)) (2 ^ k) ltac:(lia)).
  split; [lia|]. apply Z.mod_divide; [lia|]. rewrite Zminus_mod_idemp_r, Z.sub_diag. apply Z.mod_0_l. lia.
Qed.

Lemma reserved_source k sz :
  0 <= k -> 0 < sz -> sz + 2 ^ k <= 2 ^ 64 ->
  Z.land (u64 (sz + (2 ^ k - 1))) (Z.lnot (2 ^ k - 1)) = reserved k sz.
Proof.
  intros Hk Hsz Hov. pose proof (pow2_pos k Hk).
  rewrite wrap_small by (unfold in_range; lia). by apply land_lnot_ones.
Qed.

Lemma alloc_with_align_spec k sz hp :
  heap_wf hp -> 6 <= k -> 0 < sz -> sz + 2 * 2 ^ k <= 2 ^ 64 -> heap_hi hp + 2 ^ k <= 2 ^ 64 ->
  exists ret hp', alloc_with_align hp (2 ^ k) sz = Some (ret, hp') /\
    lock_free hp'.(lock) /\ alloc_post (2 ^ k) (reserved k sz) hp ret hp'.
Proof.
  intros [Hl Hok] Hk Hsz Hov Hhi. unfold alloc_with_align.
  destruct (Z.eqb_spec sz 0); [lia|]. rewrite reserved_source by lia.
  rewrite (spin_lock_free _ Hl). simpl.
  destruct (reserved_spec k sz ltac:(lia)) as [Hr Hd].
  pose proof (alloc_locked_spec k (reserved k sz) (set_lock (acquired (lock hp)) hp)) as Ha.
  destruct (alloc_locked (2 ^ k) (reserved k sz) (set_lock (acquired (lock hp)) hp)) as [ret hp'].
  eexists _, _. split; [done|]. split; [by apply spin_unlock_free|].
  destruct Ha as (Hok' & Hrest); [lia|lia|done|lia|done|by apply set_lock_ok|].
  split; [by apply set_lock_ok|exact Hrest].
Qed.

Lemma sbi_free_from_spec ptr hp :
  heap_wf hp -> exists hp', sbi_free_from hp ptr = Some hp' /\ lock_free hp'.(lock) /\
    (ptr = 0 /\ hp' = hp \/ exists hp1, hp' = set_lock hp'.(lock) hp1 /\ free_post ptr (set_lock (acquired hp.(lock)) hp) hp1).
Proof.
  intros [Hl Hok]. unfold sbi_free_from. destruct (Z.eqb_spec ptr 0) as [->|].
  { exists hp. split_and!; auto. }
  rewrite (spin_lock_free _ Hl). simpl. eexists. split; [done|]. split; [by apply spin_unlock_free|].
  right. eexists. split; [done|]. apply free_locked_spec. by apply set_lock_ok.
Qed.

Lemma sum_sizes_nonneg l : (forall n, n ∈ l -> 0 < n.(size)) -> 0 <= sum_sizes l.
Proof.
  induction l as [|n l IH]; intros Hpos; simpl; [lia|].
  pose proof (Hpos n ltac:(set_solver)). specialize (IH ltac:(set_solver)). lia.
Qed.

(** The 64-bit sum of the source is the sum of the sizes. *)
Lemma foldl_sum_sizes l : forall acc,
  (forall n, n ∈ l -> 0 < n.(size)) -> 0 <= acc -> acc + sum_sizes l < 2 ^ 64 ->
  foldl (fun ret n => u64 (ret + n.(size))) acc l = acc + sum_sizes l.
Proof.
  induction l as [|n l IH]; intros acc Hpos H0 H1; simpl in *; [lia|].
  pose proof (Hpos n ltac:(set_solver)). pose proof (sum_sizes_nonneg l ltac:(set_solver)).
  rewrite wrap_small by (unfold in_range; lia). rewrite IH; [lia|set_solver|lia|lia].
Qed.

Lemma heap_accounting hp :
  heap_ok hp ->
  sum_sizes hp.(free_space_list) + sum_sizes hp.(used_space_list) = heap_hi hp - heap_lo hp /\
  0 <= sum_sizes hp.(free_space_list) /\ 0 <= sum_sizes hp.(used_space_list).
Proof.
  intros [Hlo Hhi Ht _]. pose proof (tiled_sum _ _ _ Ht) as Hs. unfold ranges in *.
  rewrite sum_sizes_app in Hs. split; [done|].
  split; apply sum_sizes_nonneg; intros n Hn; apply (tiled_bound _ _ _ n Ht); set_solver.
Qed.

Lemma free_space_eq hp :
  heap_wf hp ->
  sbi_heap_free_space_from hp
  = Some (sum_sizes hp.(free_space_list), set_lock (spin_unlock (acquired hp.(lock))) hp).
Proof.
  intros [Hl Hok]. unfold sbi_heap_free_space_from. rewrite (spin_lock_free _ Hl). simpl.
  do 2 f_equal. destruct (heap_accounting hp Hok) as (Hs & Hf & Hu). destruct Hok as [Hlo Hhi Ht _].
  unfold HEAP_ALLOC_ALIGN in *. rewrite foldl_sum_sizes; [done| |lia|lia].
  intros n Hn. apply (tiled_bound _ _ _ n Ht). unfold ranges. set_solver.
Qed.

(** ** Sequences of calls *)

Inductive heap_op := Malloc (sz : Z) | AlignedAlloc (k sz : Z) | Free (ptr : Z).

Definition heap_exec (o : heap_op) (hp : sbi_heap_control) : option sbi_heap_control :=
  match o with
  | Malloc sz => snd <$> sbi_malloc_from hp sz
  | AlignedAlloc k sz => snd <$> sbi_aligned_alloc_from hp (2 ^ k) sz
  | Free ptr => sbi_free_from hp ptr
  end.

(** Requests small enough for the 64-bit arithmetic of the allocator. *)
Definition heap_op_ok (hi : Z) (o : heap_op) : Prop :=
  match o with
  | Malloc sz => 0 <= sz /\ sz + 128 <= 2 ^ 64
  | AlignedAlloc k sz => 0 <= k /\ 0 <= sz /\ sz + 2 * 2 ^ Z.max 6 k <= 2 ^ 64 /\ hi + 2 ^ Z.max 6 k <= 2 ^ 64
  | Free _ => True
  end.

Fixpoint heap_run (os : list heap_op) (hp : sbi_heap_control) : option sbi_heap_control :=
  match os with [] => Some hp | o :: os => hp ← heap_exec o hp; heap_run os hp end.

Lemma pow2_land_pred k : 0 <= k -> Z.land (2 ^ k) (2 ^ k - 1) = 0.
Proof.
  intros Hk. rewrite <- (Z.ones_equiv k : Z.ones k = 2 ^ k - 1), Z.land_ones by lia.
  apply Z.mod_same. pose proof (pow2_pos k Hk). lia.
Qed.

Lemma aligned_alloc_eq hp k sz :
  0 <= k ->
  sbi_aligned_alloc_from hp (2 ^ k) sz
  = if sz `mod` 2 ^ Z.max 6 k =? 0 then alloc_with_align hp (2 ^ Z.max 6 k) sz else Some (0, hp).
Proof.
  intros Hk. unfold sbi_aligned_alloc_from.
  assert (Ha : (if 2 ^ k <? HEAP_ALLOC_ALIGN then HEAP_ALLOC_ALIGN else 2 ^ k) = 2 ^ Z.max 6 k).
  { unfold HEAP_ALLOC_ALIGN. change 64 with (2 ^ 6). destruct (Z.ltb_spec (2 ^ k) (2 ^ 6)) as [Hlt|Hge].
    - apply Z.pow_lt_mono_r_iff in Hlt; [|lia|lia]. f_equal. lia.
    - apply Z.pow_le_mono_r_iff in Hge; [|lia|lia]. f_equal. lia. }
  rewrite Ha, pow2_land_pred by lia. simpl. by destruct (sz `mod` 2 ^ Z.max 6 k =? 0).
Qed.

(** What every call preserves. *)
Definition preserves (hp hp' : sbi_heap_control) : Prop :=
  heap_wf hp' /\ nodes_of hp' ≡ₚ nodes_of hp /\ heap_lo hp' = heap_lo hp /\ heap_hi hp' = heap_hi hp.

Lemma preserves_refl hp : heap_wf hp -> preserves hp hp.
Proof. intros. unfold preserves. by split_and!. Qed.

Lemma preserves_trans a b c : preserves a b -> preserves b c -> preserves a c.
Proof. intros (? & Hab & ? & ?) (? & Hbc & ? & ?). unfold preserves. split_and!; try congruence; try done. by rewrite Hbc. Qed.

Lemma alloc_preserves k sz hp :
  heap_wf hp -> 6 <= k -> 0 <= sz -> sz + 2 * 2 ^ k <= 2 ^ 64 -> heap_hi hp + 2 ^ k <= 2 ^ 64 ->
  exists ret hp', alloc_with_align hp (2 ^ k) sz = Some (ret, hp') /\ preserves hp hp'.
Proof.
  intros Hwf Hk Hsz Hov Hhi. destruct (decide (sz = 0)) as [->|].
  { exists 0, hp. split; [done|by apply preserves_refl]. }
  destruct (alloc_with_align_spec k sz hp Hwf) as (ret & hp' & He & Hl & Hok & Hn & ? & ? & _); try lia.
  exists ret, hp'. split; [done|]. unfold preserves, heap_wf. by split_and!.
Qed.

Lemma free_preserves ptr hp :
  heap_wf hp -> exists hp', sbi_free_from hp ptr = Some hp' /\ preserves hp hp'.
Proof.
  intros Hwf. destruct (sbi_free_from_spec ptr hp Hwf) as (hp' & He & Hl & [[_ ->]|(hp1 & Heq & Hok & Hn & ? & ? & _)]).
  - exists hp. split; [done|by apply preserves_refl].
  - exists hp'. rewrite Heq. rewrite Heq in He. split; [done|]. unfold preserves, heap_wf. split_and!; try done.
    by apply set_lock_ok.
Qed.

Lemma heap_exec_preserves o hp :
  heap_wf hp -> heap_op_ok (heap_hi hp) o ->
  exists hp', heap_exec o hp = Some hp' /\ preserves hp hp'.
Proof.
  intros Hwf Ho. pose proof Hwf as [_ [_ Hhi _ _]]. unfold HEAP_ALLOC_ALIGN in Hhi.
  destruct o as [sz|k sz|ptr]; simpl in *.
  - destruct (alloc_preserves 6 sz hp Hwf) as (ret & hp' & He & Hp); try lia.
    exists hp'. split; [|done]. unfold sbi_malloc_from, HEAP_ALLOC_ALIGN. change 64 with (2 ^ 6). by rewrite He.
  - rewrite aligned_alloc_eq by lia.
    destruct (sz `mod` 2 ^ Z.max 6 k =? 0); [|exists hp; split; [done|by apply preserves_refl]].
    destruct (alloc_preserves (Z.max 6 k) sz hp Hwf) as (ret & hp' & He & Hp); try lia.
    exists hp'. by rewrite He.
  - by apply free_preserves.
Qed.

Lemma aligned_pad_zero hp n :
  heap_ok hp -> n ∈ ranges hp -> pad HEAP_ALLOC_ALIGN n = 0 /\ lowest_aligned HEAP_ALLOC_ALIGN n = n.(addr).
Proof.
  intros [Hlo Hhi Ht Ha] Hn. pose proof (tiled_bound _ _ _ _ Ht Hn) as (? & ? & ?).
  rewrite Forall_forall in Ha. destruct (Ha n Hn) as [[q Hq] _]. unfold HEAP_ALLOC_ALIGN, node_end in *.
  destruct (roundup_spec (addr n) 6) as [Hr [r Hrd]]; [lia|lia|lia|].
  change (2 ^ 6) with 64 in *. assert (Hla : lowest_aligned 64 n = addr n) by (unfold lowest_aligned; lia).
  unfold pad. by rewrite Hla, Z.sub_diag.
Qed.

Lemma find_fit_complete align sz l n :
  n ∈ l -> u64 (sz + pad align n) <= n.(size) -> is_Some (find_fit align sz l).
Proof.
  induction l as [|m l IH]; intros Hn Hs; [set_solver|]. simpl.
  destruct (Z.leb_spec (u64 (sz + pad align m)) (size m)); [by eexists|].
  apply elem_of_cons in Hn as [->|Hn]; [lia|]. destruct (IH Hn Hs) as [[[? ?] ?] ->]. by eexists.
Qed.

(** ** Properties *)

(** An allocation of [sz] bytes with alignment [2^k] either changes no
    range and returns a null pointer, or returns an aligned address of a new
    range of at least [sz] bytes that lies inside one previously free range;
    the new range is disjoint from every range in use, the free space shrinks
    by exactly its size, and the allocator's invariant is kept. *)
Theorem alloc_with_align_sound k sz hp :
  heap_wf hp -> 6 <= k -> 0 < sz -> sz + 2 * 2 ^ k <= 2 ^ 64 -> heap_hi hp + 2 ^ k <= 2 ^ 64 ->
  exists ret hp', alloc_with_align hp (2 ^ k) sz = Some (ret, hp') /\ heap_wf hp' /\
    ((ret = 0 /\ ranges hp' = ranges hp) \/
     ((2 ^ k | ret) /\ exists n, n.(addr) = ret /\ sz <= n.(size) < sz + 2 ^ k /\
        hp'.(used_space_list) = hp.(used_space_list) ++ [n] /\
        (exists f, f ∈ hp.(free_space_list) /\ f.(addr) <= ret /\ node_end n <= node_end f) /\
        (forall u, u ∈ hp.(used_space_list) -> node_end u <= ret \/ node_end n <= u.(addr)) /\
        sum_sizes hp'.(free_space_list) = sum_sizes hp.(free_space_list) - n.(size))).
Proof.
  intros Hwf Hk Hsz Hov Hhi.
  destruct (alloc_with_align_spec k sz hp Hwf) as (ret & hp' & He & Hl & Hok & _ & _ & _ & Hpost); try lia.
  exists ret, hp'. split; [done|]. split; [done|].
  destruct Hpost as [(? & ? & _)|(_ & Hd & n & f & <- & Hs & Hu & Hf & H1 & H2 & Hsum)]; [by left|right].
  split; [done|]. exists n. pose proof (reserved_spec k sz ltac:(lia)) as [Hr _]. rewrite Hs.
  split_and!; try done; try lia.
  - exists f. unfold node_end at 1. rewrite Hs. done.
  - intros u (l1 & l2 & Hul)%list_elem_of_split. destruct Hok as [_ _ Ht _].
    assert (Htp : tiled (heap_lo hp') (heap_hi hp') (u :: n :: hp'.(free_space_list) ++ l1 ++ l2)).
    { revert Ht. apply tiled_proper. unfold ranges. rewrite Hu, Hul. solve_Permutation. }
    by apply tiled_disjoint in Htp.
Qed.

(** [sbi_free_from] of an address inside a range in use takes exactly
    that range out of use and gives its bytes back to the free space; of any
    other address it changes nothing. *)
Theorem sbi_free_from_sound ptr hp :
  heap_wf hp -> ptr <> 0 ->
  exists hp', sbi_free_from hp ptr = Some hp' /\ heap_wf hp' /\
    (((forall n, n ∈ hp.(used_space_list) -> ~ (n.(addr) <= ptr < node_end n)) /\ ranges hp' = ranges hp) \/
     exists l1 n l2, hp.(used_space_list) = l1 ++ n :: l2 /\ n.(addr) <= ptr < node_end n /\
       hp'.(used_space_list) = l1 ++ l2 /\
       sum_sizes hp'.(free_space_list) = sum_sizes hp.(free_space_list) + n.(size)).
Proof.
  intros Hwf Hp. destruct (sbi_free_from_spec ptr hp Hwf) as (hp' & He & Hl & [[-> _]|(hp1 & Heq & Hok & _ & _ & _ & Hpost)]); [done|].
  exists hp'. split; [done|]. rewrite Heq. split; [split; [by rewrite Heq in Hl|by apply set_lock_ok]|].
  destruct Hpost as [[-> Hn]|Hpost]; [by left|by right].
Qed.

(** C13: over any sequence of allocations and releases, free and used ranges
    tile the heap exactly (so no two of them overlap and no byte is lost), the
    lock is released, and no housekeeping node is lost or duplicated. *)
Theorem heap_run_invariant os hp :
  heap_wf hp -> Forall (heap_op_ok (heap_hi hp)) os ->
  exists hp', heap_run os hp = Some hp' /\ heap_wf hp' /\
    tiled (heap_lo hp) (heap_hi hp) (hp'.(free_space_list) ++ hp'.(used_space_list)) /\
    nodes_of hp' ≡ₚ nodes_of hp.
Proof.
  intros Hwf Hos. cut (exists hp', heap_run os hp = Some hp' /\ preserves hp hp').
  { intros (hp' & He & Hwf' & Hn & Hlo & Hhi). exists hp'. split_and!; try done.
    destruct Hwf' as [_ [_ _ Ht _]]. by rewrite Hlo, Hhi in Ht. }
  revert hp Hwf Hos. induction os as [|o os IH]; intros hp Hwf Hos; simpl.
  { exists hp. split; [done|by apply preserves_refl]. }
  apply Forall_cons in Hos as [Ho Hos]. destruct (heap_exec_preserves o hp Hwf Ho) as (hp1 & -> & Hp). simpl.
  destruct (IH hp1) as (hp2 & -> & Hp2); [apply Hp|by destruct Hp as (_ & _ & _ & ->)|].
  exists hp2. split; [done|by eapply preserves_trans].
Qed.

(** [sbi_malloc_from] never fails without cause: if some free range is
    large enough for the rounded size and a housekeeping node is left, it
    returns a block. *)
Theorem sbi_malloc_from_complete sz hp f :
  heap_wf hp -> 0 < sz -> sz + 128 <= 2 ^ 64 ->
  f ∈ hp.(free_space_list) -> reserved 6 sz <= f.(size) -> hp.(free_node_list) <> [] ->
  exists ret hp', sbi_malloc_from hp sz = Some (ret, hp') /\ ret <> 0.
Proof.
  intros [Hl Hok] Hsz Hov Hf Hfit Hnode. unfold sbi_malloc_from, alloc_with_align.
  destruct (Z.eqb_spec sz 0) as [|_]; [lia|].
  assert (Hre := reserved_source 6 sz ltac:(lia) Hsz ltac:(lia)). change (2 ^ 6) with HEAP_ALLOC_ALIGN in Hre.
  rewrite Hre, (spin_lock_free _ Hl). simpl. destruct (reserved_spec 6 sz ltac:(lia)) as [Hr _].
  set (rs := reserved 6 sz) in *. unfold alloc_locked. simpl. change (2 ^ 6) with 64 in Hr.
  assert (Hpad : forall n, n ∈ free_space_list hp -> u64 (rs + pad HEAP_ALLOC_ALIGN n) = rs).
  { intros n Hn. destruct (aligned_pad_zero hp n Hok) as [-> _]; [unfold ranges; set_solver|].
    rewrite Z.add_0_r. apply wrap_small. unfold in_range. lia. }
  destruct (find_fit_complete HEAP_ALLOC_ALIGN rs _ f Hf) as [[[l1 np] l2] Hff]; [by rewrite Hpad|].
  rewrite Hff. apply find_fit_spec in Hff as [Hfs Hsz'].
  assert (Hnp : np ∈ free_space_list hp) by (rewrite Hfs; set_solver). rewrite Hpad in Hsz' by done.
  destruct (aligned_pad_zero hp np Hok) as [-> _]; [unfold ranges; set_solver|]. simpl.
  destruct Hok as [Hlo _ Ht _].
  pose proof (tiled_bound _ _ _ np Ht ltac:(unfold ranges; set_solver)) as (? & ? & ?).
  destruct (free_node_list hp) as [|nd fns]; [done|].
  destruct (Z.ltb_spec rs (size np)); simpl.
  - eexists _, _. split; [done|]. simpl. lia.
  - destruct (Z.eqb_spec rs (size np)); [|lia]. eexists _, _. split; [done|]. simpl. lia.
Qed.

(** [sbi_heap_init_new] on at least 16 KiB gives a well-formed heap whose
    free space is everything but the housekeeping sixteenth, with distinct
    housekeeping nodes. *)
Theorem sbi_heap_init_new_wf b sz :
  0 < b -> (HEAP_ALLOC_ALIGN | b) -> (HEAP_BASE_ALIGN | sz) -> 16 * HEAP_BASE_ALIGN <= sz ->
  b + sz + HEAP_ALLOC_ALIGN <= 2 ^ 64 ->
  exists hp, sbi_heap_init_new b sz = Some hp /\ heap_wf hp /\ NoDup (nodes_of hp) /\
    hp.(used_space_list) = [] /\
    sum_sizes hp.(free_space_list) = sz - sbi_heap_reserved_space_from hp /\
    sbi_heap_reserved_space_from hp <= sz / 16.
Proof.
  unfold HEAP_ALLOC_ALIGN, HEAP_BASE_ALIGN. intros Hb [kb Hkb] [ks Hks] Hsz Hov.
  unfold sbi_heap_init_new, HEAP_HOUSEKEEPING_FACTOR, HEAP_BASE_ALIGN, sizeof_heap_node.
  change (1024 - 1) with (2 ^ 10 - 1). rewrite land_lnot_ones by lia.
  set (q := sz / 16). assert (Hq : 1024 <= q /\ 16 * q <= sz).
  { subst q. split; [apply Z.div_le_lower_bound; lia|apply Z.mul_div_le; lia]. }
  pose proof (Z.mod_pos_bound q (2 ^ 10) ltac:(lia)) as Hm. pose proof (Z.div_mod q (2 ^ 10) ltac:(lia)) as Hdm.
  change (2 ^ 10) with 1024 in *.
  set (hks := q - q `mod` 1024). assert (Hh : hks = 1024 * (q / 1024)) by lia.
  assert (Hd : 0 < q / 1024) by (apply Z.div_str_pos; lia).
  assert (Hcnt : hks / 32 = 32 * (q / 1024)).
  { rewrite Hh. replace (1024 * (q / 1024)) with (32 * (q / 1024) * 32) by lia. apply Z.div_mul. lia. }
  rewrite Hcnt. set (cnt := Z.to_nat (32 * (q / 1024))).
  assert (Hids : nptr <$> heap_nodes b cnt = (fun i => b + 32 * Z.of_nat i) <$> seq 0 cnt).
  { unfold heap_nodes. rewrite <- list_fmap_compose. apply list_fmap_ext. intros i j Hj. simpl.
    apply lookup_seq in Hj as [-> Hlt]. subst cnt. unfold sizeof_heap_node. apply wrap_small. unfold in_range. lia. }
  assert (Hnd : NoDup (nptr <$> heap_nodes b cnt)).
  { rewrite Hids. apply NoDup_fmap_2; [intros i j; lia|apply NoDup_seq]. }
  assert (Hlen : length (heap_nodes b cnt) = cnt) by (unfold heap_nodes; by rewrite length_fmap, length_seq).
  destruct (heap_nodes b cnt) as [|n fns] eqn:Hn; [simpl in Hlen; lia|].
  eexists. split; [done|]. rewrite !wrap_small by (unfold in_range; lia). split_and!; try done.
  - split; [apply unlocked_free|]. split; unfold heap_lo, heap_hi, ranges, HEAP_ALLOC_ALIGN; simpl; try lia.
    + exists [Node (nptr n) (b + hks) (sz - hks)]. split; [done|]. simpl. unfold node_end. simpl. split_and!; lia.
    + constructor; [|done]. split; simpl; unfold HEAP_ALLOC_ALIGN.
      * exists (kb + 16 * (q / 1024)). lia.
      * exists (16 * ks - 16 * (q / 1024)). lia.
  - unfold nodes_of, ranges. simpl. rewrite fmap_app. simpl. revert Hnd. simpl.
    intros Hnd'. by rewrite <- Permutation_cons_append.
  - unfold sbi_heap_reserved_space_from. simpl. lia.
  - unfold sbi_heap_reserved_space_from. simpl. lia.
Qed.

(** For the global heap, [sbi_heap_used_space_from] is the total size of
    the ranges in use. *)
Theorem sbi_heap_used_space_global hp :
  heap_wf hp -> hp.(hkbase) = hp.(base) -> 0 <= hp.(hksize) -> hp.(hpsize) < 2 ^ 64 ->
  sbi_heap_used_space_from hp hp = Some (sum_sizes hp.(used_space_list)).
Proof.
  intros Hwf Hb Hk Hs. unfold sbi_heap_used_space_from. rewrite free_space_eq by done. simpl.
  destruct Hwf as [_ Hok]. destruct (heap_accounting hp Hok) as (Hsum & Hf & Hu).
  unfold heap_hi, heap_lo in Hsum. f_equal. rewrite wrap_small; [lia|unfold in_range; lia].
Qed.

(** ** A concrete heap of 64 KiB at 0x80040000 *)

Definition demo_heap : sbi_heap_control :=
  Heap SPIN_LOCK_UNLOCKED 0x80040000 0x10000 0x80040000 0x1000
    [Node 0x80040020 0 0; Node 0x80040040 0 0; Node 0x80040060 0 0]
    [Node 0x80040000 0x80041000 0xf000] [].

Lemma demo_heap_wf : heap_wf demo_heap.
Proof.
  split; [apply unlocked_free|]. split; unfold ranges, heap_lo, heap_hi; simpl; try (vm_compute; congruence).
  - eexists. split; [reflexivity|]. repeat split.
  - constructor; [|constructor]. split; [by exists 0x2001040|by exists 0x3c0].
Defined.

(** The rounding [size += align - 1] wraps for a request near 2^64: the
    allocator then hands out a non-null pointer to an empty range. *)
Example malloc_size_overflow :
  exists hp, sbi_malloc_from demo_heap (2 ^ 64 - 1) = Some (0x80041000, hp) /\
    hp.(used_space_list) = [Node 0x80040020 0x80041000 0].
Proof. eexists. split; vm_compute; reflexivity. Qed.

(** [sbi_calloc_from] does not check [nitems * size] either: 2^61 + 1 items of
    eight bytes give one 64-byte block. *)
Example calloc_overflow :
  (fun '(ret, hp, _) => (ret, hp.(used_space_list)))
    <$> sbi_calloc_from demo_heap (fun _ => 1) (2 ^ 61 + 1) 8
  = Some (0x80041000, [Node 0x80040020 0x80041000 64]).
Proof. vm_compute. reflexivity. Qed.

(** The used space of a heap other than the global one is computed from the
    free space of the global heap: an untouched heap reports 64 bytes in use. *)
Example used_space_of_other_heap :
  exists g, sbi_malloc_from demo_heap 64 = Some (0x80041000, g) /\
    demo_heap.(used_space_list) = [] /\ sbi_heap_used_space_from demo_heap g = Some 64.
Proof. eexists. split; [vm_compute; reflexivity|]. split; vm_compute; reflexivity. Qed.

(** [sbi_heap_init] accepts a heap of 1 KiB, for which there is no
    housekeeping node to take. *)
Example heap_init_without_nodes :
  sbi_heap_init (Fw 0x80000000 0x80000 0x40000 0x40000 1024) = InitUndefined.
Proof. vm_compute. reflexivity. Qed.

(** ** Witnesses *)

Lemma alloc_with_align_sound_witness :
  exists ret hp', alloc_with_align demo_heap (2 ^ 12) 4096 = Some (ret, hp') /\ heap_wf hp'.
Proof.
  destruct (alloc_with_align_sound 12 4096 demo_heap demo_heap_wf) as (ret & hp' & He & Hw & _);
    [lia|lia|lia|vm_compute; congruence|]. by exists ret, hp'.
Defined.

(** The heap after one allocation of 128 bytes. *)
Definition demo_heap1 : sbi_heap_control :=
  Heap {| owner := 1; next := 1 |} 0x80040000 0x10000 0x80040000 0x1000
    [Node 0x80040040 0 0; Node 0x80040060 0 0]
    [Node 0x80040000 0x80041080 0xef80] [Node 0x80040020 0x80041000 128].

Lemma demo_heap1_wf : heap_wf demo_heap1.
Proof.
  split; [by vm_compute|]. split; unfold ranges, heap_lo, heap_hi; simpl; try (vm_compute; congruence).
  - exists [Node 0x80040020 0x80041000 128; Node 0x80040000 0x80041080 0xef80].
    split; [constructor|repeat split].
  - constructor; [|constructor; [|constructor]]; split.
    + by exists 0x2001042.
    + by exists 0x3be.
    + by exists 0x2001040.
    + by exists 2.
Defined.

Lemma sbi_free_from_sound_witness :
  exists hp', sbi_free_from demo_heap1 0x80041000 = Some hp' /\ heap_wf hp'.
Proof.
  destruct (sbi_free_from_sound 0x80041000 demo_heap1 demo_heap1_wf) as (hp' & He & Hw & _); [done|].
  by exists hp'.
Defined.

Lemma heap_run_invariant_witness :
  exists hp', heap_run [Malloc 100; AlignedAlloc 12 4096; Free 0x80041000; Malloc 5] demo_heap = Some hp'
              /\ heap_wf hp'.
Proof.
  destruct (heap_run_invariant [Malloc 100; AlignedAlloc 12 4096; Free 0x80041000; Malloc 5] demo_heap demo_heap_wf)
    as (hp' & He & Hw & _).
  - repeat constructor; simpl; vm_compute; congruence.
  - by exists hp'.
Defined.

Lemma sbi_malloc_from_complete_witness :
  exists ret hp', sbi_malloc_from demo_heap 100 = Some (ret, hp') /\ ret <> 0.
Proof.
  apply (sbi_malloc_from_complete 100 demo_heap (Node 0x80040000 0x80041000 0xf000) demo_heap_wf);
    [lia|lia|by apply list_elem_of_here|vm_compute; congruence|done].
Defined.

Lemma sbi_heap_init_new_wf_witness :
  exists hp, sbi_heap_init_new 0x80040000 0x10000 = Some hp /\ heap_wf hp.
Proof.
  destruct (sbi_heap_init_new_wf 0x80040000 0x10000) as (hp & He & Hw & _);
    [lia|by exists 0x2001000|by exists 64|vm_compute; congruence|vm_compute; congruence|by exists hp].
Defined.

Lemma sbi_heap_used_space_global_witness :
  sbi_heap_used_space_from demo_heap1 demo_heap1 = Some 128.
Proof. apply (sbi_heap_used_space_global demo_heap1 demo_heap1_wf); [reflexivity|vm_compute; congruence|vm_compute; congruence]. Defined.
