(* ===== verification/Bitops.v ===== *)
(** * Bit operations of OpenSBI (sbi_bitops.h, sbi_bitops.c, sbi_bitmap.h,
    sbi_bitmap.c, sbi_math.c), on a 64-bit machine.

    A bitmap is a list of 64-bit words.  [bval] is the number whose bit [i] is
    bit [i] of the bitmap; the searches are specified on it.  Reading a word
    past the end of the bitmap is [None]. *)

From S2P Require Import Prelude SbiTypes.

Local Open Scope Z_scope.

Definition BITS_PER_LONG : Z := 64.

(** [~0UL] and [~x] *)
Definition ones64 : Z := 2 ^ 64 - 1.
Definition not64 (x : Z) : Z := u64 (Z.lnot x).

Definition BITS_TO_LONGS (nbits : Z) : Z := (nbits + BITS_PER_LONG - 1) / BITS_PER_LONG.
Definition BIT_MASK (nr : Z) : Z := Z.shiftl 1 (nr `mod` BITS_PER_LONG).
Definition BIT_WORD (bit : Z) : Z := bit / BITS_PER_LONG.

(** ** Searches in a word *)

(** One [if] of [sbi_ffs]: [num] and [word]. *)
Definition ffs_step (mask k : Z) (s : Z * Z) : Z * Z :=
  let '(num, word) := s in if Z.land word mask =? 0 then (num + k, Z.shiftr word k) else (num, word).

Definition sbi_ffs (word : Z) : Z :=
  let s := ffs_step 0xffffffff 32 (0, word) in
  let s := ffs_step 0xffff 16 s in
  let s := ffs_step 0xff 8 s in
  let s := ffs_step 0xf 4 s in
  let '(num, word) := ffs_step 0x3 2 s in
  if Z.land word 0x1 =? 0 then num + 1 else num.

Definition sbi_ffz (x : Z) : Z := sbi_ffs (not64 x).

(** One [if] of [sbi_fls], which looks at the top [k] bits. *)
Definition fls_step (k : Z) (s : Z * Z) : Z * Z :=
  let '(num, word) := s in
  if Z.land word (u64 (Z.shiftl ones64 (BITS_PER_LONG - k))) =? 0
  then (num - k, u64 (Z.shiftl word k)) else (num, word).

Definition sbi_fls (word : Z) : Z :=
  let s := fls_step 32 (BITS_PER_LONG - 1, word) in
  let s := fls_step 16 s in
  let s := fls_step 8 s in
  let s := fls_step 4 s in
  let '(num, word) := fls_step 2 s in
  if Z.land word (u64 (Z.shiftl ones64 (BITS_PER_LONG - 1))) =? 0 then num - 1 else num.

(** [while (word) { word &= word - 1; count++; }] *)
Fixpoint popcount_loop (fuel : nat) (word count : Z) : option Z :=
  if word =? 0 then Some count
  else match fuel with
       | O => None
       | S fuel => popcount_loop fuel (Z.land word (word - 1)) (count + 1)
       end.
Definition sbi_popcount (word : Z) : option Z := popcount_loop 64 word 0.

(** ** Searches in a bitmap *)

(** The last, partial word: [found_first]. *)
Definition found_first (word result size : Z) : Z :=
  let tmp := Z.land word (Z.shiftr ones64 (BITS_PER_LONG - size)) in
  if tmp =? 0 then result + size else result + sbi_ffs tmp.

(** The loop over whole words and what follows it. *)
Fixpoint first_bit_from (p : list Z) (result size : Z) : option Z :=
  if negb (Z.land size (Z.lnot (BITS_PER_LONG - 1)) =? 0) then
    match p with
    | [] => None
    | tmp :: p => if negb (tmp =? 0) then Some (result + sbi_ffs tmp)
                  else first_bit_from p (result + BITS_PER_LONG) (size - BITS_PER_LONG)
    end
  else if size =? 0 then Some result
  else match p with [] => None | w :: _ => Some (found_first w result size) end.

Definition find_first_bit (addr : list Z) (size : Z) : option Z := first_bit_from addr 0 size.

Definition find_next_bit (addr : list Z) (size offset : Z) : option Z :=
  let p := drop (Z.to_nat (offset / BITS_PER_LONG)) addr in
  let result := Z.land offset (Z.lnot (BITS_PER_LONG - 1)) in
  if size <=? offset then Some size
  else
    let size := size - result in
    let offset := offset `mod` BITS_PER_LONG in
    if negb (offset =? 0) then
      match p with
      | [] => None
      | w :: p =>
          let tmp := Z.land w (u64 (Z.shiftl ones64 offset)) in
          if size <? BITS_PER_LONG then Some (found_first tmp result size)
          else if negb (tmp =? 0) then Some (result + sbi_ffs tmp)
          else first_bit_from p (result + BITS_PER_LONG) (size - BITS_PER_LONG)
      end
    else first_bit_from p result size.

(** The searches for a clear bit. *)
Definition found_first_zero (word result size : Z) : Z :=
  let tmp := Z.lor word (u64 (Z.shiftl ones64 size)) in
  if tmp =? ones64 then result + size else result + sbi_ffz tmp.

Fixpoint first_zero_from (p : list Z) (result size : Z) : option Z :=
  if negb (Z.land size (Z.lnot (BITS_PER_LONG - 1)) =? 0) then
    match p with
    | [] => None
    | tmp :: p => if negb (not64 tmp =? 0) then Some (result + sbi_ffz tmp)
                  else first_zero_from p (result + BITS_PER_LONG) (size - BITS_PER_LONG)
    end
  else if size =? 0 then Some result
  else match p with [] => None | w :: _ => Some (found_first_zero w result size) end.

Definition find_first_zero_bit (addr : list Z) (size : Z) : option Z := first_zero_from addr 0 size.

Definition find_next_zero_bit (addr : list Z) (size offset : Z) : option Z :=
  let p := drop (Z.to_nat (offset / BITS_PER_LONG)) addr in
  let result := Z.land offset (Z.lnot (BITS_PER_LONG - 1)) in
  if size <=? offset then Some size
  else
    let size := size - result in
    let offset := offset `mod` BITS_PER_LONG in
    if negb (offset =? 0) then
      match p with
      | [] => None
      | w :: p =>
          let tmp := Z.lor w (Z.shiftr ones64 (BITS_PER_LONG - offset)) in
          if size <? BITS_PER_LONG then Some (found_first_zero tmp result size)
          else if negb (not64 tmp =? 0) then Some (result + sbi_ffz tmp)
          else first_zero_from p (result + BITS_PER_LONG) (size - BITS_PER_LONG)
      end
    else first_zero_from p result size.

(** [while (words)] of [find_last_bit]: the words below index [words]. *)
Fixpoint last_bit_below (addr : list Z) (words : nat) (size : Z) : option Z :=
  match words with
  | O => Some size
  | S words => tmp ← addr !! words;
      if negb (tmp =? 0) then Some (Z.of_nat words * BITS_PER_LONG + sbi_fls tmp)
      else last_bit_below addr words size
  end.

Definition find_last_bit (addr : list Z) (size : Z) : option Z :=
  let words := Z.to_nat (size / BITS_PER_LONG) in
  if negb (Z.land size (BITS_PER_LONG - 1) =? 0) then
    w ← addr !! words;
    let tmp := Z.land w (Z.shiftr ones64 (BITS_PER_LONG - Z.land size (BITS_PER_LONG - 1))) in
    if negb (tmp =? 0) then Some (Z.of_nat words * BITS_PER_LONG + sbi_fls tmp)
    else last_bit_below addr words size
  else last_bit_below addr words size.

(** ** Single bits *)

Definition upd_word (addr : list Z) (nr : Z) (f : Z -> Z) : option (list Z) :=
  let i := Z.to_nat (BIT_WORD nr) in w ← addr !! i; Some (<[i := f w]> addr).

Definition __set_bit (nr : Z) (addr : list Z) : option (list Z) :=
  upd_word addr nr (fun w => Z.lor w (BIT_MASK nr)).
Definition __clear_bit (nr : Z) (addr : list Z) : option (list Z) :=
  upd_word addr nr (fun w => Z.land w (not64 (BIT_MASK nr))).
Definition __change_bit (nr : Z) (addr : list Z) : option (list Z) :=
  upd_word addr nr (fun w => Z.lxor w (BIT_MASK nr)).
Definition __test_bit (nr : Z) (addr : list Z) : option Z :=
  w ← addr !! Z.to_nat (BIT_WORD nr); Some (Z.land 1 (Z.shiftr w (Z.land nr (BITS_PER_LONG - 1)))).
Definition __test_and_set_bit (nr : Z) (addr : list Z) : option (bool * list Z) :=
  old ← addr !! Z.to_nat (BIT_WORD nr);
  addr ← __set_bit nr addr; Some (negb (Z.land old (BIT_MASK nr) =? 0), addr).
Definition __test_and_clear_bit (nr : Z) (addr : list Z) : option (bool * list Z) :=
  old ← addr !! Z.to_nat (BIT_WORD nr);
  addr ← __clear_bit nr addr; Some (negb (Z.land old (BIT_MASK nr) =? 0), addr).

(** ** Whole bitmaps *)

(** [dst[k] = op(bitmap1[k], bitmap2[k])] for [k] below [BITS_TO_LONGS(bits)] *)
Fixpoint bitmap_op (op : Z -> Z -> Z) (k nr : nat) (dst b1 b2 : list Z) : option (list Z) :=
  match nr with
  | O => Some dst
  | S nr => x ← b1 !! k; y ← b2 !! k; bitmap_op op (S k) nr (<[k := op x y]> dst) b1 b2
  end.

Definition __bitmap_and (dst b1 b2 : list Z) (bits : Z) : option (list Z) :=
  bitmap_op Z.land 0 (Z.to_nat (BITS_TO_LONGS bits)) dst b1 b2.
Definition __bitmap_or (dst b1 b2 : list Z) (bits : Z) : option (list Z) :=
  bitmap_op Z.lor 0 (Z.to_nat (BITS_TO_LONGS bits)) dst b1 b2.
Definition __bitmap_xor (dst b1 b2 : list Z) (bits : Z) : option (list Z) :=
  bitmap_op Z.lxor 0 (Z.to_nat (BITS_TO_LONGS bits)) dst b1 b2.

(** [log2roundup]: the loop counts [ret] up to [__riscv_xlen]. *)
Fixpoint log2roundup_loop (fuel : nat) (x ret : Z) : Z :=
  match fuel with
  | O => ret
  | S fuel => if ret <? riscv_xlen then
                if x <=? Z.shiftl 1 ret then ret else log2roundup_loop fuel x (ret + 1)
              else ret
  end.
Definition log2roundup (x : Z) : Z := log2roundup_loop 64 x 0.

(** ** Words: the searches are right *)

(** [n] is the lowest set bit of [w]. *)
Definition lsb (w n : Z) : Prop :=
  0 <= n /\ Z.testbit w n = true /\ forall m, 0 <= m < n -> Z.testbit w m = false.

(** [n] is the highest set bit of [w] below bit 64. *)
Definition msb (w n : Z) : Prop :=
  0 <= n < 64 /\ Z.testbit w n = true /\ forall m, n < m < 64 -> Z.testbit w m = false.

Lemma testbit_low_mask w k m : 0 <= k -> 0 <= m ->
  Z.testbit (Z.land w (2 ^ k - 1)) m = Z.testbit w m && (m <? k).
Proof.
  intros. replace (2 ^ k - 1) with (Z.ones k) by (rewrite Z.ones_equiv; lia).
  rewrite Z.land_spec. f_equal. destruct (Z.ltb_spec m k); [by apply Z.ones_spec_low|by apply Z.ones_spec_high].
Qed.

Lemma ffs_step_lsb k num w n :
  0 < k -> lsb w n -> n < 2 * k ->
  exists w' n', ffs_step (2 ^ k - 1) k (num, w) = (num + (n - n'), w') /\ lsb w' n' /\ n' < k.
Proof.
  intros Hk (Hn & Hb & Hl) Hn2. unfold ffs_step. destruct (decide (n < k)).
  - assert ((Z.land w (2 ^ k - 1) =? 0) = false) as ->.
    { apply Z.eqb_neq. intros E. apply (f_equal (fun z => Z.testbit z n)) in E.
      rewrite testbit_low_mask, Hb, Z.bits_0 in E by lia. lia. }
    exists w, n. split; [f_equal; lia|]. split; [done|lia].
  - assert ((Z.land w (2 ^ k - 1) =? 0) = true) as ->.
    { apply Z.eqb_eq. apply Z.bits_inj'. intros m Hm. rewrite testbit_low_mask, Z.bits_0 by lia.
      destruct (Z.ltb_spec m k); [|by rewrite andb_false_r]. by rewrite Hl by lia. }
    exists (Z.shiftr w k), (n - k). split; [f_equal; lia|]. split; [|lia].
    split; [lia|]. rewrite Z.shiftr_spec by lia. replace (n - k + k) with n by lia. split; [done|].
    intros m Hm. rewrite Z.shiftr_spec by lia. apply Hl. lia.
Qed.

Lemma sbi_ffs_lsb w n : lsb w n -> n < 64 -> sbi_ffs w = n.
Proof.
  intros Hw Hn. unfold sbi_ffs.
  destruct (ffs_step_lsb 32 0 w n) as (w1 & n1 & E1 & H1 & L1); [lia|done|lia|].
  change (2 ^ 32 - 1) with 0xffffffff in E1. rewrite E1.
  destruct (ffs_step_lsb 16 (0 + (n - n1)) w1 n1) as (w2 & n2 & E2 & H2 & L2); [lia|done|lia|].
  change (2 ^ 16 - 1) with 0xffff in E2. rewrite E2.
  destruct (ffs_step_lsb 8 (0 + (n - n1) + (n1 - n2)) w2 n2) as (w3 & n3 & E3 & H3 & L3); [lia|done|lia|].
  change (2 ^ 8 - 1) with 0xff in E3. rewrite E3.
  destruct (ffs_step_lsb 4 (0 + (n - n1) + (n1 - n2) + (n2 - n3)) w3 n3) as (w4 & n4 & E4 & H4 & L4);
    [lia|done|lia|]. change (2 ^ 4 - 1) with 0xf in E4. rewrite E4.
  destruct (ffs_step_lsb 2 (0 + (n - n1) + (n1 - n2) + (n2 - n3) + (n3 - n4)) w4 n4)
    as (w5 & n5 & E5 & H5 & L5); [lia|done|lia|].
  change (2 ^ 2 - 1) with 0x3 in E5. rewrite E5.
  destruct (ffs_step_lsb 1 0 w5 n5) as (w6 & n6 & E6 & [H6 _] & L6); [lia|done|lia|].
  change (2 ^ 1 - 1) with 1 in E6. unfold ffs_step in E6. destruct H5 as [? _].
  destruct (Z.land w5 1 =? 0); injection E6 as E6 _; lia.
Qed.

Lemma testbit_high_mask w k m : 0 <= k <= 64 -> 0 <= m ->
  Z.testbit (Z.land w (u64 (Z.shiftl ones64 (64 - k)))) m = Z.testbit w m && (64 - k <=? m) && (m <? 64).
Proof.
  intros. unfold ones64. replace (2 ^ 64 - 1) with (Z.ones 64) by reflexivity.
  rewrite Z.land_spec, wrap_testbit, Z.shiftl_spec by lia. rewrite <- andb_assoc. f_equal.
  case_bool_decide; [|destruct (Z.ltb_spec m 64); [lia|by rewrite andb_false_r]].
  destruct (Z.ltb_spec m 64); [|lia]. rewrite andb_true_r. simpl.
  destruct (Z.leb_spec (64 - k) m); [apply Z.ones_spec_low; lia|apply Z.testbit_neg_r; lia].
Qed.

Lemma fls_step_msb k num w n :
  0 < k <= 32 -> msb w n -> 64 - 2 * k <= n ->
  exists w' n', fls_step k (num, w) = (num - (n' - n), w') /\ msb w' n' /\ 64 - k <= n'.
Proof.
  intros Hk (Hn & Hb & Hh) Hn2. unfold fls_step, BITS_PER_LONG. destruct (decide (n < 64 - k)).
  - assert ((Z.land w (u64 (Z.shiftl ones64 (64 - k))) =? 0) = true) as ->.
    { apply Z.eqb_eq. apply Z.bits_inj'. intros m Hm. rewrite testbit_high_mask, Z.bits_0 by lia.
      destruct (Z.leb_spec (64 - k) m), (Z.ltb_spec m 64); rewrite ?andb_false_r; try done.
      by rewrite Hh by lia. }
    exists (u64 (Z.shiftl w k)), (n + k). split; [f_equal; lia|]. split; [|lia].
    split; [lia|]. rewrite wrap_testbit, Z.shiftl_spec, bool_decide_eq_true_2 by lia.
    replace (n + k - k) with n by lia. split; [done|]. intros m Hm.
    rewrite wrap_testbit, Z.shiftl_spec, bool_decide_eq_true_2 by lia. apply Hh. lia.
  - assert ((Z.land w (u64 (Z.shiftl ones64 (64 - k))) =? 0) = false) as ->.
    { apply Z.eqb_neq. intros E. apply (f_equal (fun z => Z.testbit z n)) in E.
      rewrite testbit_high_mask, Hb, Z.bits_0 in E by lia. lia. }
    exists w, n. split; [f_equal; lia|]. split; [done|lia].
Qed.

Lemma sbi_fls_msb w n : msb w n -> sbi_fls w = n.
Proof.
  intros Hw. pose proof Hw as [Hn _]. unfold sbi_fls.
  destruct (fls_step_msb 32 63 w n) as (w1 & n1 & E1 & H1 & L1); [lia|done|lia|]. change (BITS_PER_LONG - 1) with 63.
  rewrite E1. pose proof H1 as [R1 _].
  destruct (fls_step_msb 16 (63 - (n1 - n)) w1 n1) as (w2 & n2 & E2 & H2 & L2); [lia|done|lia|].
  rewrite E2. pose proof H2 as [R2 _].
  destruct (fls_step_msb 8 (63 - (n1 - n) - (n2 - n1)) w2 n2) as (w3 & n3 & E3 & H3 & L3); [lia|done|lia|].
  rewrite E3. pose proof H3 as [R3 _].
  destruct (fls_step_msb 4 (63 - (n1 - n) - (n2 - n1) - (n3 - n2)) w3 n3) as (w4 & n4 & E4 & H4 & L4); [lia|done|lia|].
  rewrite E4. pose proof H4 as [R4 _].
  destruct (fls_step_msb 2 (63 - (n1 - n) - (n2 - n1) - (n3 - n2) - (n4 - n3)) w4 n4) as (w5 & n5 & E5 & H5 & L5);
    [lia|done|lia|]. rewrite E5. pose proof H5 as [R5 _].
  destruct (fls_step_msb 1 0 w5 n5) as (w6 & n6 & E6 & [H6 _] & L6); [lia|done|lia|].
  unfold fls_step, BITS_PER_LONG in E6. change (64 - 1) with 63 in E6.
  destruct (Z.land w5 _ =? 0); injection E6 as E6 _; lia.
Qed.

(** ** Bitmaps as numbers *)

Fixpoint bval (p : list Z) : Z := match p with [] => 0 | w :: p => w + bval p * 2 ^ 64 end.

Abbreviation words_ok := (Forall (in_range 64)).

Lemma testbit_cons w v i : in_range 64 w -> 0 <= i ->
  Z.testbit (w + v * 2 ^ 64) i = if i <? 64 then Z.testbit w i else Z.testbit v (i - 64).
Proof.
  intros Hw Hi. rewrite <- lor_disjoint_add, Z.lor_spec, <- Z.shiftl_mul_pow2, Z.shiftl_spec by (done || lia).
  destruct (Z.ltb_spec i 64); [by rewrite (Z.testbit_neg_r v), orb_false_r by lia|].
  by rewrite (testbit_above 64 w) by (done || lia).
Qed.

Lemma bits_or_lsb w k : 
  (forall m, 0 <= m < Z.of_nat k -> Z.testbit w m = false) \/ exists n, lsb w n /\ n < Z.of_nat k.
Proof.
  induction k as [|k [IH|(n & Hn & Hk)]]; [left; lia| |right; exists n; split; [done|lia]].
  destruct (Z.testbit w (Z.of_nat k)) eqn:E.
  - right. exists (Z.of_nat k). split; [|lia]. split; [lia|]. done.
  - left. intros m Hm. destruct (decide (m = Z.of_nat k)) as [->|]; [done|]. apply IH. lia.
Qed.

Lemma lsb_exists w : in_range 64 w -> w <> 0 -> exists n, lsb w n /\ n < 64.
Proof.
  intros Hw Hne. destruct (bits_or_lsb w 64) as [H|H]; [|done]. exfalso. apply Hne.
  apply Z.bits_inj'. intros i Hi. rewrite Z.bits_0. destruct (decide (i < 64)); [apply H; lia|].
  apply (testbit_above 64); [done|lia].
Qed.

(** [r] is the first set bit of [v] from [from], or [size] if there is none below it. *)
Definition next_set (v from size r : Z) : Prop :=
  from <= r <= size /\ (forall i, from <= i < r -> Z.testbit v i = false) /\
  (r < size -> Z.testbit v r = true).

Lemma size_whole size : 0 <= size -> (Z.land size (Z.lnot (BITS_PER_LONG - 1)) =? 0) = (size <? 64).
Proof.
  intros H. change (BITS_PER_LONG - 1) with (2 ^ 6 - 1). rewrite land_lnot_ones by lia. change (2 ^ 6) with 64.
  destruct (Z.ltb_spec size 64); [rewrite Z.mod_small by lia; lia|].
  apply Z.eqb_neq. pose proof (Z.mod_pos_bound size 64). lia.
Qed.

Lemma testbit_part_mask w size m : 0 < size < 64 -> 0 <= m ->
  Z.testbit (Z.land w (Z.shiftr ones64 (BITS_PER_LONG - size))) m = Z.testbit w m && (m <? size).
Proof.
  intros Hs Hm. rewrite Z.land_spec, Z.shiftr_spec by done. f_equal. unfold ones64, BITS_PER_LONG.
  replace (2 ^ 64 - 1) with (Z.ones 64) by reflexivity.
  destruct (Z.ltb_spec m size); [apply Z.ones_spec_low|apply Z.ones_spec_high]; lia.
Qed.

Lemma found_first_spec w result size :
  in_range 64 w -> 0 < size < 64 ->
  exists r, found_first w result size = result + r /\ next_set w 0 size r.
Proof.
  intros Hw Hs. unfold found_first. set (tmp := Z.land w _).
  assert (Ht : forall m, 0 <= m -> Z.testbit tmp m = Z.testbit w m && (m <? size))
    by (intros; by apply testbit_part_mask).
  destruct (Z.eqb_spec tmp 0) as [E|E].
  - exists size. split; [done|]. split; [lia|]. split; [|lia]. intros i Hi.
    specialize (Ht i ltac:(lia)). rewrite E, Z.bits_0 in Ht. destruct (Z.ltb_spec i size); [|lia].
    by rewrite andb_true_r in Ht.
  - destruct (lsb_exists tmp) as (n & Hn & H64); [apply in_range_land_l; [lia|done|apply Z.shiftr_nonneg; unfold ones64; lia]|done|].
    exists n. rewrite (sbi_ffs_lsb tmp n) by done. split; [done|]. destruct Hn as (H0 & Hb & Hl).
    rewrite Ht in Hb by done. apply andb_true_iff in Hb as [Hb Hlt]. split; [lia|]. split; [|done].
    intros i Hi. specialize (Hl i ltac:(lia)). rewrite Ht in Hl by lia.
    destruct (Z.ltb_spec i size); [|lia]. by rewrite andb_true_r in Hl.
Qed.

Lemma first_bit_from_spec p : forall result size,
  words_ok p -> 0 <= size <= 64 * Z.of_nat (length p) ->
  exists r, first_bit_from p result size = Some (result + r) /\ next_set (bval p) 0 size r.
Proof.
  induction p as [|w p IH]; intros result size Hp Hs; cbn [first_bit_from];
    rewrite size_whole by lia; destruct (Z.ltb_spec size 64) as [Hlt|Hge]; cbn [negb].
  - assert (size = 0) as -> by (simpl in Hs; lia). exists 0. split; [simpl; f_equal; lia|].
    split; [lia|]. split; [lia|lia].
  - simpl in Hs. lia.
  - apply Forall_cons in Hp as [Hw Hp]. destruct (Z.eqb_spec size 0) as [->|].
    { exists 0. split; [f_equal; lia|]. split; [lia|]. split; lia. }
    destruct (found_first_spec w result size Hw ltac:(lia)) as (r & -> & Hr & Hb & Hs').
    exists r. split; [done|]. cbn [bval]. split; [done|]. split.
    + intros i Hi. rewrite testbit_cons by (done || lia). destruct (Z.ltb_spec i 64); [|lia]. by apply Hb.
    + intros Hrs. rewrite testbit_cons by (done || lia). destruct (Z.ltb_spec r 64); [|lia]. by apply Hs'.
  - apply Forall_cons in Hp as [Hw Hp]. cbn [bval]. destruct (Z.eqb_spec w 0) as [->|Hne]; cbn [negb].
    + destruct (IH (result + BITS_PER_LONG) (size - BITS_PER_LONG) Hp) as (r & -> & Hr & Hb & Hs');
        unfold BITS_PER_LONG in *; [cbn [length] in Hs; lia|].
      exists (64 + r). split; [f_equal; lia|]. split; [lia|]. split.
      * intros i Hi. rewrite testbit_cons by (done || lia). destruct (Z.ltb_spec i 64); [apply Z.bits_0|].
        apply Hb. lia.
      * intros Hrs. rewrite testbit_cons by (done || lia). destruct (Z.ltb_spec (64 + r) 64); [lia|].
        replace (64 + r - 64) with r by lia. apply Hs'. lia.
    + destruct (lsb_exists w Hw Hne) as (n & Hn & H64). rewrite (sbi_ffs_lsb w n) by done.
      exists n. split; [done|]. destruct Hn as (H0 & Hb & Hl). split; [lia|]. split.
      * intros i Hi. rewrite testbit_cons by (done || lia). destruct (Z.ltb_spec i 64); [|lia]. by apply Hl.
      * intros _. rewrite testbit_cons by (done || lia). destruct (Z.ltb_spec n 64); [|lia]. done.
Qed.

Lemma bval_drop p k i : words_ok p -> 0 <= i ->
  Z.testbit (bval (drop k p)) i = Z.testbit (bval p) (i + 64 * Z.of_nat k).
Proof.
  revert k. induction p as [|w p IH]; intros [|k] Hp Hi; cbn [drop bval].
  - f_equal. lia.
  - by rewrite !Z.bits_0.
  - f_equal. lia.
  - apply Forall_cons in Hp as [Hw Hp]. rewrite IH by done. rewrite testbit_cons by (done || lia).
    destruct (Z.ltb_spec (i + 64 * Z.of_nat (S k)) 64); [lia|]. f_equal. lia.
Qed.

Lemma testbit_from_mask w o m : 0 <= o < 64 -> 0 <= m < 64 ->
  Z.testbit (Z.land w (u64 (Z.shiftl ones64 o))) m = Z.testbit w m && (o <=? m).
Proof.
  intros. pose proof (testbit_high_mask w (64 - o) m ltac:(lia) ltac:(lia)) as E.
  replace (64 - (64 - o)) with o in E by lia. rewrite E.
  destruct (Z.ltb_spec m 64); [|lia]. by rewrite andb_true_r.
Qed.

Lemma land_range64 w x : in_range 64 w -> in_range 64 (Z.land w (u64 x)).
Proof. intros. rng. Qed.

(** The part of a search that starts inside word [w] of [w :: p]. *)
Lemma next_in_word w p result size offset :
  in_range 64 w -> words_ok p -> 0 < offset < 64 -> offset < size <= 64 * Z.of_nat (S (length p)) ->
  exists r, (let tmp := Z.land w (u64 (Z.shiftl ones64 offset)) in
     if size <? BITS_PER_LONG then Some (found_first tmp result size)
     else if negb (tmp =? 0) then Some (result + sbi_ffs tmp)
     else first_bit_from p (result + BITS_PER_LONG) (size - BITS_PER_LONG)) = Some (result + r) /\
    next_set (w + bval p * 2 ^ 64) offset size r.
Proof.
  intros Hw Hp Ho Hs. cbv zeta. set (tmp := Z.land w _). unfold BITS_PER_LONG in *.
  assert (in_range 64 tmp) as Htr by (by apply land_range64).
  assert (Ht : forall m, 0 <= m < 64 -> Z.testbit tmp m = Z.testbit w m && (offset <=? m))
    by (intros; apply testbit_from_mask; lia).
  assert (Hlow : forall i, offset <= i < 64 -> Z.testbit (w + bval p * 2 ^ 64) i = Z.testbit tmp i).
  { intros i Hi. rewrite testbit_cons, Ht by (done || lia). destruct (Z.ltb_spec i 64); [|lia].
    destruct (Z.leb_spec offset i); [|lia]. by rewrite andb_true_r. }
  destruct (Z.ltb_spec size 64) as [Hlt|Hge]; [|destruct (Z.eqb_spec tmp 0) as [E|E]; cbn [negb]].
  - destruct (found_first_spec tmp result size Htr ltac:(lia)) as (r & -> & Hr & Hb & Hs').
    exists r. split; [done|]. assert (offset <= r).
    { destruct (decide (r < size)) as [Hrs|]; [|lia]. specialize (Hs' Hrs). rewrite Ht in Hs' by lia.
      apply andb_true_iff in Hs' as [_ ?]. lia. }
    split; [lia|]. split; intros; rewrite Hlow by lia; [apply Hb; lia|apply Hs'; lia].
  - destruct (first_bit_from_spec p (result + 64) (size - 64) Hp ltac:(lia)) as (r & -> & Hr & Hb & Hs').
    exists (64 + r). split; [f_equal; lia|]. split; [lia|]. split.
    + intros i Hi. destruct (decide (i < 64)); [rewrite Hlow, E by lia; apply Z.bits_0|].
      rewrite testbit_cons by (done || lia). destruct (Z.ltb_spec i 64); [lia|]. apply Hb. lia.
    + intros Hrs. rewrite testbit_cons by (done || lia). destruct (Z.ltb_spec (64 + r) 64); [lia|].
      replace (64 + r - 64) with r by lia. apply Hs'. lia.
  - destruct (lsb_exists tmp Htr E) as (n & Hn & H64). rewrite (sbi_ffs_lsb tmp n) by done.
    destruct Hn as (H0 & Hb & Hl). exists n. split; [done|]. assert (offset <= n).
    { rewrite Ht in Hb by lia. apply andb_true_iff in Hb as [_ ?]. lia. }
    split; [lia|]. split; intros; rewrite Hlow by lia; [apply Hl; lia|done].
Qed.

Lemma find_next_bit_spec addr size offset :
  words_ok addr -> 0 <= offset -> size <= 64 * Z.of_nat (length addr) ->
  exists r, find_next_bit addr size offset = Some r /\
    (if size <=? offset then r = size else next_set (bval addr) offset size r).
Proof.
  intros Hp Ho Hs. unfold find_next_bit. cbv zeta. destruct (Z.leb_spec size offset) as [|Hlt]; [by exists size|].
  change (BITS_PER_LONG - 1) with (2 ^ 6 - 1). rewrite land_lnot_ones by lia. change (2 ^ 6) with 64.
  set (k := Z.to_nat (offset / BITS_PER_LONG)). unfold BITS_PER_LONG in *.
  pose proof (Z.div_mod offset 64 ltac:(lia)) as Hdm. pose proof (Z.mod_pos_bound offset 64 ltac:(lia)) as Hm.
  assert (Z.of_nat k = offset / 64) as Ek by (unfold k; rewrite Z2Nat.id; [done|apply Z.div_pos; lia]).
  set (base := offset - offset `mod` 64) in *. assert (base = 64 * Z.of_nat k) as Eb by (unfold base; lia).
  assert (length (drop k addr) = (length addr - k)%nat) as Hl by apply length_drop.
  assert (words_ok (drop k addr)) as Hd by by apply Forall_drop.
  assert (forall r, next_set (bval (drop k addr)) (offset `mod` 64) (size - base) r ->
    next_set (bval addr) offset size (base + r)) as Hshift.
  { intros r (Hr & Hb & Hs'). split; [lia|]. split.
    - intros i Hi. rewrite <- (Hb (i - base)), bval_drop by (done || lia). f_equal. lia.
    - intros Hrs. rewrite <- Hs', bval_drop by (done || lia). f_equal. lia. }
  destruct (Z.eqb_spec (offset `mod` 64) 0) as [E0|Hne]; cbn [negb].
  - destruct (first_bit_from_spec (drop k addr) base (size - base) Hd) as (r & -> & Hr); [lia|].
    exists (base + r). split; [done|]. apply Hshift. by rewrite E0.
  - destruct (drop k addr) as [|w p]; [cbn [length] in Hl; lia|]. apply Forall_cons in Hd as [Hw Hd].
    destruct (next_in_word w p base (size - base) (offset `mod` 64) Hw Hd) as (r & E & Hr);
      [lia|cbn [length] in Hl; lia|]. cbv zeta in E. unfold BITS_PER_LONG in E.
    exists (base + r). split; [exact E|]. by apply Hshift.
Qed.

(** ** Clear bits *)

Lemma testbit_not64 x i : 0 <= i < 64 -> Z.testbit (not64 x) i = negb (Z.testbit x i).
Proof.
  intros. unfold not64. rewrite wrap_testbit, bool_decide_eq_true_2, Z.lnot_spec by lia. done.
Qed.

Lemma not64_range x : in_range 64 (not64 x).
Proof. unfold not64. rng. Qed.

Lemma ext64 x y : in_range 64 x -> in_range 64 y -> (forall i, 0 <= i < 64 -> Z.testbit x i = Z.testbit y i) -> x = y.
Proof.
  intros Hx Hy H. apply Z.bits_inj'. intros i Hi. destruct (decide (i < 64)); [apply H; lia|].
  rewrite !(testbit_above 64) by (done || lia). done.
Qed.

Lemma not64_lor w x : in_range 64 w -> in_range 64 x -> not64 (Z.lor w x) = Z.land (not64 w) (not64 x).
Proof.
  intros Hw Hx. apply ext64; [apply not64_range|apply in_range_land_l; [lia|apply not64_range|apply not64_range]|].
  intros i Hi. rewrite Z.land_spec, !testbit_not64, Z.lor_spec by done. apply negb_orb.
Qed.

Lemma not64_high size : 0 < size < 64 -> not64 (u64 (Z.shiftl ones64 size)) = Z.shiftr ones64 (BITS_PER_LONG - size).
Proof.
  intros Hs. apply ext64; [apply not64_range|apply in_range_shiftr; [unfold ones64, in_range; lia|unfold BITS_PER_LONG; lia]|].
  intros i Hi. rewrite testbit_not64, wrap_testbit, Z.shiftl_spec, Z.shiftr_spec, bool_decide_eq_true_2 by lia.
  unfold ones64, BITS_PER_LONG. replace (2 ^ 64 - 1) with (Z.ones 64) by reflexivity. simpl.
  destruct (decide (size <= i)).
  - rewrite Z.ones_spec_low, Z.ones_spec_high by lia. done.
  - rewrite Z.testbit_neg_r, Z.ones_spec_low by lia. done.
Qed.

Lemma not64_low o : 0 < o < 64 -> not64 (Z.shiftr ones64 (BITS_PER_LONG - o)) = u64 (Z.shiftl ones64 o).
Proof.
  intros Hs. rewrite <- not64_high by done. apply ext64; [apply not64_range|rng|].
  intros i Hi. rewrite !testbit_not64 by done. apply negb_involutive.
Qed.

Lemma not64_zero x : in_range 64 x -> (x =? ones64) = (not64 x =? 0).
Proof.
  intros Hx. destruct (Z.eqb_spec x ones64) as [->|Hne]; [done|]. symmetry. apply Z.eqb_neq. intros E.
  apply Hne, ext64; [done|unfold ones64, in_range; lia|]. intros i Hi.
  apply (f_equal (fun z => Z.testbit z i)) in E. rewrite testbit_not64, Z.bits_0 in E by done.
  apply negb_false_iff in E. rewrite E. unfold ones64. replace (2 ^ 64 - 1) with (Z.ones 64) by reflexivity.
  by rewrite Z.ones_spec_low by lia.
Qed.

(** Searching for a clear bit is searching the complement for a set one. *)
Lemma found_first_zero_not w result size :
  in_range 64 w -> 0 < size < 64 -> found_first_zero w result size = found_first (not64 w) result size.
Proof.
  intros Hw Hs. unfold found_first_zero, found_first, sbi_ffz.
  assert (in_range 64 (u64 (Z.shiftl ones64 size))) by rng.
  assert (in_range 64 (Z.lor w (u64 (Z.shiftl ones64 size)))) by rng.
  rewrite not64_zero, not64_lor, not64_high by done. done.
Qed.

Lemma first_zero_from_not p : forall result size,
  words_ok p -> 0 <= size -> first_zero_from p result size = first_bit_from (not64 <$> p) result size.
Proof.
  induction p as [|w p IH]; intros result size Hp Hs; [done|]. apply Forall_cons in Hp as [Hw Hp].
  rewrite fmap_cons. cbn [first_zero_from first_bit_from]. rewrite size_whole by done.
  destruct (Z.ltb_spec size 64); cbn [negb].
  - destruct (Z.eqb_spec size 0); [done|]. by rewrite found_first_zero_not by (done || lia).
  - unfold sbi_ffz. destruct (not64 w =? 0); cbn [negb]; [|done]. apply IH; [done|unfold BITS_PER_LONG; lia].
Qed.

Lemma find_next_zero_bit_not addr size offset :
  words_ok addr -> 0 <= offset -> find_next_zero_bit addr size offset = find_next_bit (not64 <$> addr) size offset.
Proof.
  intros Hp Ho. unfold find_next_zero_bit, find_next_bit. cbv zeta. rewrite <- fmap_drop.
  destruct (Z.leb_spec size offset); [done|]. set (k := Z.to_nat _).
  assert (words_ok (drop k addr)) as Hd by by apply Forall_drop.
  change (BITS_PER_LONG - 1) with (2 ^ 6 - 1). rewrite land_lnot_ones by lia. change (2 ^ 6) with BITS_PER_LONG.
  pose proof (Z.mod_pos_bound offset BITS_PER_LONG ltac:(done)) as Hm.
  destruct (Z.eqb_spec (offset `mod` BITS_PER_LONG) 0); cbn [negb];
    [apply first_zero_from_not; [done|lia]|].
  destruct (drop k addr) as [|w p]; [done|]. apply Forall_cons in Hd as [Hw Hd]. rewrite fmap_cons.
  set (o := offset `mod` BITS_PER_LONG) in *. change BITS_PER_LONG with 64 in Hm.
  assert (in_range 64 (Z.shiftr ones64 (BITS_PER_LONG - o))) as Hr
    by (apply in_range_shiftr; [unfold ones64, in_range; lia|unfold BITS_PER_LONG; lia]).
  assert (not64 (Z.lor w (Z.shiftr ones64 (BITS_PER_LONG - o))) = Z.land (not64 w) (u64 (Z.shiftl ones64 o))) as E.
  { by rewrite not64_lor, not64_low by (done || lia). }
  rewrite <- E. destruct (Z.ltb_spec (size - (offset - o)) BITS_PER_LONG) as [Hlt|Hge].
  - f_equal. apply found_first_zero_not; [apply in_range_lor; [lia|done..]|unfold BITS_PER_LONG in Hlt; lia].
  - unfold sbi_ffz. destruct (not64 (Z.lor _ _) =? 0); cbn [negb]; [|done].
    apply first_zero_from_not; [done|unfold BITS_PER_LONG in *; lia].
Qed.

Lemma bval_not p i : words_ok p -> 0 <= i < 64 * Z.of_nat (length p) ->
  Z.testbit (bval (not64 <$> p)) i = negb (Z.testbit (bval p) i).
Proof.
  revert i. induction p as [|w p IH]; intros i Hp Hi; [simpl in Hi; lia|]. apply Forall_cons in Hp as [Hw Hp].
  rewrite fmap_cons. cbn [bval length] in *. rewrite !testbit_cons by (done || apply not64_range || lia).
  destruct (Z.ltb_spec i 64); [apply testbit_not64; lia|apply IH; [done|lia]].
Qed.

(** ** The last set bit *)

Lemma bval_lookup p k w j : words_ok p -> p !! k = Some w -> 0 <= j < 64 ->
  Z.testbit (bval p) (64 * Z.of_nat k + j) = Z.testbit w j.
Proof.
  intros Hp Hk Hj. pose proof (bval_drop p k j Hp ltac:(lia)) as E.
  replace (64 * Z.of_nat k + j) with (j + 64 * Z.of_nat k) by lia. rewrite <- E.
  rewrite (drop_S _ _ _ Hk). cbn [bval]. rewrite testbit_cons by (lia || by eapply Forall_lookup_1 in Hp).
  destruct (Z.ltb_spec j 64); [done|lia].
Qed.

Lemma msb_exists w : in_range 64 w -> w <> 0 -> exists n, msb w n.
Proof.
  intros Hw Hne. assert (forall k, (k <= 64)%nat ->
    (forall m, 64 - Z.of_nat k <= m < 64 -> Z.testbit w m = false) \/ exists n, msb w n) as H.
  { induction k as [|k IH]; intros Hk; [left; lia|]. destruct IH as [IH|]; [lia| |by right].
    destruct (Z.testbit w (64 - Z.of_nat (S k))) eqn:E.
    - right. exists (64 - Z.of_nat (S k)). split; [lia|]. split; [done|]. intros m Hm. apply IH. lia.
    - left. intros m Hm. destruct (decide (m = 64 - Z.of_nat (S k))) as [->|]; [done|]. apply IH. lia. }
  destruct (H 64%nat) as [Hz|]; [lia| |done]. exfalso. apply Hne, ext64; [done|rng|].
  intros i Hi. rewrite Z.bits_0. apply Hz. lia.
Qed.

(** [r] is the highest set bit below [size], or [dflt] if there is none. *)
Definition last_set (v size dflt r : Z) : Prop :=
  (r = dflt /\ forall i, 0 <= i < size -> Z.testbit v i = false) \/
  (0 <= r < size /\ Z.testbit v r = true /\ forall i, r < i < size -> Z.testbit v i = false).

Lemma last_set_word p k w n size' dflt :
  words_ok p -> p !! k = Some w -> msb w n -> 64 * Z.of_nat k + n < size' <= 64 * Z.of_nat k + 64 ->
  last_set (bval p) size' dflt (Z.of_nat k * 64 + n).
Proof.
  intros Hp Hk (Hn & Hb & Hh) Hs. right. replace (Z.of_nat k * 64 + n) with (64 * Z.of_nat k + n) by lia.
  split; [lia|]. split; [by rewrite (bval_lookup p k w)|]. intros i Hi.
  replace i with (64 * Z.of_nat k + (i - 64 * Z.of_nat k)) by lia.
  rewrite (bval_lookup p k w) by (done || lia). apply Hh. lia.
Qed.

Lemma last_bit_below_spec addr words size0 :
  words_ok addr -> (words <= length addr)%nat ->
  exists r, last_bit_below addr words size0 = Some r /\ last_set (bval addr) (64 * Z.of_nat words) size0 r.
Proof.
  intros Hp. induction words as [|k IH]; intros Hk; [exists size0; split; [done|left; split; [done|lia]]|].
  cbn [last_bit_below]. destruct (lookup_lt_is_Some_2 addr k ltac:(lia)) as [w Hw]. rewrite Hw.
  cbn [mbind option_bind]. assert (in_range 64 w) as Hr by (by eapply Forall_lookup_1 in Hp).
  destruct (Z.eqb_spec w 0) as [->|Hne]; cbn [negb].
  - destruct (IH ltac:(lia)) as (r & -> & Hl). exists r. split; [done|].
    assert (Hz : forall i, 64 * Z.of_nat k <= i < 64 * Z.of_nat (S k) -> Z.testbit (bval addr) i = false).
    { intros i Hi. replace i with (64 * Z.of_nat k + (i - 64 * Z.of_nat k)) by lia.
      rewrite (bval_lookup addr k 0) by (done || lia). apply Z.bits_0. }
    destruct Hl as [[-> Hl]|(Hr' & Hb & Hl)]; [left|right].
    + split; [done|]. intros i Hi. destruct (decide (i < 64 * Z.of_nat k)); [apply Hl|apply Hz]; lia.
    + split; [lia|]. split; [done|]. intros i Hi.
      destruct (decide (i < 64 * Z.of_nat k)); [apply Hl|apply Hz]; lia.
  - destruct (msb_exists w Hr Hne) as (n & Hn). rewrite (sbi_fls_msb w n Hn).
    eexists. split; [reflexivity|]. apply (last_set_word addr k w); [done..|]. destruct Hn. lia.
Qed.

Lemma find_last_bit_spec addr size :
  words_ok addr -> 0 <= size <= 64 * Z.of_nat (length addr) ->
  exists r, find_last_bit addr size = Some r /\ last_set (bval addr) size size r.
Proof.
  intros Hp Hs. unfold find_last_bit. cbv zeta. change (BITS_PER_LONG - 1) with (2 ^ 6 - 1).
  rewrite land_low by lia. change (2 ^ 6) with 64. unfold BITS_PER_LONG.
  pose proof (Z.div_mod size 64 ltac:(lia)) as Hdm. pose proof (Z.mod_pos_bound size 64 ltac:(lia)) as Hm.
  set (k := Z.to_nat (size / 64)).
  assert (Z.of_nat k = size / 64) as Ek by (unfold k; rewrite Z2Nat.id; [done|apply Z.div_pos; lia]).
  destruct (last_bit_below_spec addr k size Hp) as (r & El & Hl); [lia|].
  destruct (Z.eqb_spec (size `mod` 64) 0) as [E0|Hne]; cbn [negb].
  { exists r. split; [done|]. by replace size with (64 * Z.of_nat k) at 1 by lia. }
  destruct (lookup_lt_is_Some_2 addr k ltac:(lia)) as [w Hw]. rewrite Hw. cbn [mbind option_bind].
  assert (in_range 64 w) as Hr by (by eapply Forall_lookup_1 in Hp).
  set (tmp := Z.land w _). set (s := size `mod` 64) in *.
  assert (Ht : forall m, 0 <= m -> Z.testbit tmp m = Z.testbit w m && (m <? s))
    by (intros; apply testbit_part_mask; lia).
  assert (in_range 64 tmp) as Htr
    by (apply in_range_land_l; [lia|done|apply Z.shiftr_nonneg; unfold ones64; lia]).
  assert (Hbit : forall i, 64 * Z.of_nat k <= i < size -> Z.testbit (bval addr) i = Z.testbit tmp (i - 64 * Z.of_nat k)).
  { intros i Hi. replace i with (64 * Z.of_nat k + (i - 64 * Z.of_nat k)) at 1 by lia.
    rewrite (bval_lookup addr k w), Ht by (done || lia).
    destruct (Z.ltb_spec (i - 64 * Z.of_nat k) s); [by rewrite andb_true_r|lia]. }
  destruct (Z.eqb_spec tmp 0) as [E|Hn0]; cbn [negb].
  - rewrite El. exists r. split; [done|]. rewrite E in Hbit. destruct Hl as [[-> Hl]|(Hr' & Hb & Hl)]; [left|right].
    + split; [done|]. intros i Hi. destruct (decide (i < 64 * Z.of_nat k)); [apply Hl; lia|].
      rewrite Hbit by lia. apply Z.bits_0.
    + split; [lia|]. split; [done|]. intros i Hi. destruct (decide (i < 64 * Z.of_nat k)); [apply Hl; lia|].
      rewrite Hbit by lia. apply Z.bits_0.
  - destruct (msb_exists tmp Htr Hn0) as (n & Hn). rewrite (sbi_fls_msb tmp n Hn).
    destruct Hn as (Hn & Hb & Hh). rewrite Ht in Hb by lia. apply andb_true_iff in Hb as [Hb Hns].
    eexists. split; [reflexivity|]. right. split; [lia|]. split.
    + rewrite Hbit by lia. replace (Z.of_nat k * 64 + n - 64 * Z.of_nat k) with n by lia.
      rewrite Ht by lia. by rewrite Hb, Hns.
    + intros i Hi. rewrite Hbit by lia. apply Hh. lia.
Qed.

(** The bitmap searches of OpenSBI are right, for every bitmap and every
    size within it: [find_first_bit] and [find_next_bit] give the first set bit
    from the start or the offset, [find_first_zero_bit] and
    [find_next_zero_bit] the first clear bit, [find_last_bit] the last set bit,
    or the size when there is none. *)
Theorem bitmap_searches addr size offset :
  words_ok addr -> 0 <= size <= 64 * Z.of_nat (length addr) -> 0 <= offset < size ->
  exists r1 r2 z1 z2 l,
    find_first_bit addr size = Some r1 /\ next_set (bval addr) 0 size r1 /\
    find_next_bit addr size offset = Some r2 /\ next_set (bval addr) offset size r2 /\
    find_first_zero_bit addr size = Some z1 /\ next_set (bval (not64 <$> addr)) 0 size z1 /\
    find_next_zero_bit addr size offset = Some z2 /\ next_set (bval (not64 <$> addr)) offset size z2 /\
    find_last_bit addr size = Some l /\ last_set (bval addr) size size l /\
    (forall i, 0 <= i < size -> Z.testbit (bval (not64 <$> addr)) i = negb (Z.testbit (bval addr) i)).
Proof.
  intros Hp Hs Ho. assert (words_ok (not64 <$> addr)) as Hn
    by (apply Forall_fmap, Forall_true; intros; apply not64_range).
  destruct (first_bit_from_spec addr 0 size Hp Hs) as (r1 & E1 & H1).
  destruct (find_next_bit_spec addr size offset Hp ltac:(lia) ltac:(lia)) as (r2 & E2 & H2).
  destruct (first_bit_from_spec (not64 <$> addr) 0 size Hn) as (z1 & F1 & G1); [by rewrite length_fmap|].
  destruct (find_next_bit_spec (not64 <$> addr) size offset Hn ltac:(lia)) as (z2 & F2 & G2);
    [rewrite length_fmap; lia|].
  destruct (find_last_bit_spec addr size Hp Hs) as (l & El & Hl).
  destruct (Z.leb_spec size offset); [lia|].
  exists r1, r2, z1, z2, l. unfold find_first_bit, find_first_zero_bit.
  rewrite first_zero_from_not, find_next_zero_bit_not by (done || lia).
  split_and!; try done. intros i Hi. apply bval_not; [done|lia].
Qed.

Lemma bitmap_searches_witness :
  find_next_bit [0x10; 0; 0x4] 150 5 = Some 130 /\ next_set (bval [0x10; 0; 0x4]) 5 150 130.
Proof.
  destruct (bitmap_searches [0x10; 0; 0x4] 150 5) as (r1 & r2 & z1 & z2 & l & _ & _ & E & H & _);
    [repeat constructor; unfold in_range; lia|simpl; lia|lia|].
  assert (r2 = 130) as -> by (vm_compute in E; congruence). split; [exact E|exact H].
Defined.
