(* ===== verification/Hartmask.v ===== *)
(** * Hart masks of OpenSBI (sbi_hartmask.h and the bitmap operations behind it).

    A hart mask is a bitmap of [SBI_HARTMASK_MAX_BITS] bits; [hart_set] is the
    set of hart indices it stands for.  [h2i] stands for
    [sbi_hartid_to_hartindex], which searches the platform's table. *)

From S2P Require Import Prelude SbiTypes Bitops.

Local Open Scope Z_scope.

Definition SBI_HARTMASK_MAX_BITS : Z := 128.

Abbreviation sbi_hartmask := (list Z).

(** [bitmap_zero], [bitmap_copy], [bitmap_fill], [bitmap_zero_except] for
    [nbits] above [BITS_PER_LONG] *)
Definition bitmap_zero (dst : list Z) (nbits : Z) : list Z :=
  list_inserts 0 (replicate (Z.to_nat (BITS_TO_LONGS nbits)) 0) dst.
Definition bitmap_copy (dst src : list Z) (nbits : Z) : list Z :=
  list_inserts 0 (take (Z.to_nat (BITS_TO_LONGS nbits)) src) dst.
Definition BITMAP_LAST_WORD_MASK (nbits : Z) : Z :=
  if negb (nbits `mod` BITS_PER_LONG =? 0) then Z.shiftl 1 (nbits `mod` BITS_PER_LONG) - 1 else ones64.
Definition bitmap_fill (dst : list Z) (nbits : Z) : list Z :=
  let nlongs := Z.to_nat (BITS_TO_LONGS nbits) in
  <[(nlongs - 1)%nat := BITMAP_LAST_WORD_MASK nbits]> (list_inserts 0 (replicate (nlongs - 1) ones64) dst).
Definition bitmap_zero_except (dst : list Z) (exception nbits : Z) : option (list Z) :=
  let dst := bitmap_zero dst nbits in
  if exception <? nbits then __set_bit exception dst else Some dst.

Section Hartmask.
Context (h2i : Z -> Z).

Definition SBI_HARTMASK_INIT (m : sbi_hartmask) : sbi_hartmask := bitmap_zero m SBI_HARTMASK_MAX_BITS.
Definition SBI_HARTMASK_INIT_EXCEPT (m : sbi_hartmask) (h : Z) : option sbi_hartmask :=
  bitmap_zero_except m (h2i h) SBI_HARTMASK_MAX_BITS.

Definition sbi_hartmask_set_hartindex (i : Z) (m : sbi_hartmask) : option sbi_hartmask :=
  if i <? SBI_HARTMASK_MAX_BITS then __set_bit i m else Some m.
Definition sbi_hartmask_set_hartid (h : Z) (m : sbi_hartmask) : option sbi_hartmask :=
  sbi_hartmask_set_hartindex (h2i h) m.
Definition sbi_hartmask_clear_hartindex (i : Z) (m : sbi_hartmask) : option sbi_hartmask :=
  if i <? SBI_HARTMASK_MAX_BITS then __clear_bit i m else Some m.
Definition sbi_hartmask_clear_hartid (h : Z) (m : sbi_hartmask) : option sbi_hartmask :=
  sbi_hartmask_clear_hartindex (h2i h) m.
Definition sbi_hartmask_test_hartindex (i : Z) (m : sbi_hartmask) : option Z :=
  if i <? SBI_HARTMASK_MAX_BITS then __test_bit i m else Some 0.
Definition sbi_hartmask_test_hartid (h : Z) (m : sbi_hartmask) : option Z :=
  sbi_hartmask_test_hartindex (h2i h) m.
Definition sbi_hartmask_set_all (m : sbi_hartmask) : sbi_hartmask := bitmap_fill m SBI_HARTMASK_MAX_BITS.
Definition sbi_hartmask_clear_all (m : sbi_hartmask) : sbi_hartmask := bitmap_zero m SBI_HARTMASK_MAX_BITS.
Definition sbi_hartmask_copy (dst src : sbi_hartmask) : sbi_hartmask := bitmap_copy dst src SBI_HARTMASK_MAX_BITS.
Definition sbi_hartmask_and (dst m1 m2 : sbi_hartmask) : option sbi_hartmask :=
  __bitmap_and dst m1 m2 SBI_HARTMASK_MAX_BITS.
Definition sbi_hartmask_or (dst m1 m2 : sbi_hartmask) : option sbi_hartmask :=
  __bitmap_or dst m1 m2 SBI_HARTMASK_MAX_BITS.
Definition sbi_hartmask_xor (dst m1 m2 : sbi_hartmask) : option sbi_hartmask :=
  __bitmap_xor dst m1 m2 SBI_HARTMASK_MAX_BITS.
End Hartmask.

(** [sbi_hartmask_for_each_hartindex]: the indices its body runs for, from [i]. *)
Fixpoint for_each_from (fuel : nat) (m : sbi_hartmask) (i : Z) : option (list Z) :=
  match fuel with
  | O => None
  | S fuel =>
      if i <? SBI_HARTMASK_MAX_BITS then
        next ← find_next_bit m SBI_HARTMASK_MAX_BITS (i + 1);
        rest ← for_each_from fuel m next; Some (i :: rest)
      else Some []
  end.

Definition sbi_hartmask_for_each_hartindex (m : sbi_hartmask) : option (list Z) :=
  i ← find_first_bit m SBI_HARTMASK_MAX_BITS; for_each_from 129 m i.

(** ** The set of harts *)

Record mask_wf (m : sbi_hartmask) : Prop := MaskWf { mw_len : length m = 2%nat; mw_words : words_ok m }.

(** Membership of a hart index. *)
Definition hart_in (i : Z) (m : sbi_hartmask) : bool :=
  (0 <=? i) && (i <? SBI_HARTMASK_MAX_BITS) && Z.testbit (bval m) i.

Lemma mask_bit m i : mask_wf m -> 0 <= i < 128 ->
  exists w, m !! Z.to_nat (BIT_WORD i) = Some w /\ in_range 64 w /\ hart_in i m = Z.testbit w (i `mod` 64).
Proof.
  intros [Hl Hw] Hi. unfold BIT_WORD, BITS_PER_LONG.
  pose proof (Z.div_mod i 64 ltac:(lia)) as Hdm. pose proof (Z.mod_pos_bound i 64 ltac:(lia)) as Hm.
  assert (0 <= i / 64) by (apply Z.div_pos; lia).
  destruct (lookup_lt_is_Some_2 m (Z.to_nat (i / 64))) as [w Hlk]; [rewrite Hl; lia|].
  exists w. split; [done|]. split; [by eapply Forall_lookup_1 in Hw|]. unfold hart_in, SBI_HARTMASK_MAX_BITS.
  replace ((0 <=? i) && (i <? 128)) with true by lia. cbn [andb].
  rewrite <- (bval_lookup m (Z.to_nat (i / 64)) w (i `mod` 64)) by (done || lia). f_equal. lia.
Qed.

(** A mask is determined word by word. *)
Lemma mask_ext m' (P : Z -> bool) :
  mask_wf m' -> (forall k w, m' !! k = Some w -> forall j, 0 <= j < 64 -> Z.testbit w j = P (64 * Z.of_nat k + j)) ->
  forall i, 0 <= i < 128 -> hart_in i m' = P i.
Proof.
  intros Hm Hk i Hi. destruct (mask_bit m' i Hm Hi) as (w & Hlk & _ & ->).
  rewrite (Hk _ _ Hlk) by (apply Z.mod_pos_bound; lia). f_equal. unfold BIT_WORD, BITS_PER_LONG.
  rewrite Z2Nat.id by (apply Z.div_pos; lia). pose proof (Z.div_mod i 64). lia.
Qed.

Lemma BIT_MASK_range i : in_range 64 (BIT_MASK i).
Proof.
  unfold BIT_MASK, BITS_PER_LONG. pose proof (Z.mod_pos_bound i 64 ltac:(lia)).
  rewrite Z.shiftl_mul_pow2, Z.mul_1_l by lia. split; [apply Z.pow_nonneg; lia|apply Z.pow_lt_mono_r; lia].
Qed.

Lemma BIT_MASK_bit i j : 0 <= j < 64 -> Z.testbit (BIT_MASK i) j = (j =? i `mod` 64).
Proof.
  intros Hj. unfold BIT_MASK, BITS_PER_LONG. pose proof (Z.mod_pos_bound i 64 ltac:(lia)).
  rewrite Z.shiftl_mul_pow2, Z.mul_1_l by lia. rewrite Z.pow2_bits_eqb by lia. lia.
Qed.

(** An update of the word that holds bit [i]. *)
Lemma upd_word_mask m i f (g : Z -> bool -> bool) :
  mask_wf m -> 0 <= i < 128 -> (forall w, in_range 64 w -> in_range 64 (f w)) ->
  (forall w j, in_range 64 w -> 0 <= j < 64 -> Z.testbit (f w) j = if j =? i `mod` 64 then g j (Z.testbit w j) else Z.testbit w j) ->
  exists m', upd_word m i f = Some m' /\ mask_wf m' /\
    forall j, 0 <= j < 128 -> hart_in j m' = if j =? i then g (i `mod` 64) (hart_in j m) else hart_in j m.
Proof.
  intros Hm Hi Hf Hb. destruct (mask_bit m i Hm Hi) as (w & Hlk & Hw & Ei). unfold upd_word. rewrite Hlk.
  cbn [mbind option_bind]. set (k := Z.to_nat (BIT_WORD i)) in *. eexists. split; [reflexivity|].
  assert (mask_wf (<[k := f w]> m)) as Hm'.
  { destruct Hm as [Hl Hws]. split; [by rewrite length_insert|]. apply Forall_insert; [done|by apply Hf]. }
  split; [done|]. intros j Hj. destruct (mask_bit _ j Hm' Hj) as (w' & Hlk' & _ & ->).
  destruct (mask_bit m j Hm Hj) as (w0 & Hlk0 & Hw0 & Ej).
  pose proof (Z.mod_pos_bound j 64 ltac:(lia)). pose proof (Z.div_mod j 64 ltac:(lia)). pose proof (Z.div_mod i 64 ltac:(lia)).
  assert (0 <= j / 64) by (apply Z.div_pos; lia). assert (0 <= i / 64) by (apply Z.div_pos; lia).
  destruct (decide (Z.to_nat (BIT_WORD j) = k)) as [Ek|Hk].
  - rewrite Ek in Hlk', Hlk0. rewrite list_lookup_insert_eq in Hlk' by (by apply lookup_lt_is_Some_1).
    assert (w0 = w) as -> by congruence. injection Hlk' as <-. rewrite Hb, Ej by (done || lia).
    unfold k, BIT_WORD, BITS_PER_LONG in Ek.
    destruct (Z.eqb_spec (j `mod` 64) (i `mod` 64)) as [E|], (Z.eqb_spec j i); try lia; [|done]. by rewrite E.
  - rewrite list_lookup_insert_ne in Hlk' by done. assert (w0 = w') as -> by congruence. rewrite Ej.
    unfold k, BIT_WORD, BITS_PER_LONG in Hk. destruct (Z.eqb_spec j i) as [->|]; [done|done].
Qed.

Lemma set_hartindex_spec m i :
  mask_wf m -> 0 <= i ->
  exists m', sbi_hartmask_set_hartindex i m = Some m' /\ mask_wf m' /\
    forall j, 0 <= j < 128 -> hart_in j m' = (j =? i) || hart_in j m.
Proof.
  intros Hm Hi. unfold sbi_hartmask_set_hartindex, SBI_HARTMASK_MAX_BITS.
  destruct (Z.ltb_spec i 128); [|exists m; split; [done|]; split; [done|];
    intros j Hj; by destruct (Z.eqb_spec j i); [lia|]].
  destruct (upd_word_mask m i (fun w => Z.lor w (BIT_MASK i)) (fun _ _ => true)) as (m' & E & Hm' & Hj);
    [done|lia|intros; apply in_range_lor; [lia|done|apply BIT_MASK_range]|..].
  - intros w j Hw Hj. rewrite Z.lor_spec, BIT_MASK_bit by done. destruct (_ =? _); [apply orb_true_r|apply orb_false_r].
  - exists m'. split; [done|]. split; [done|]. intros j Hj'. rewrite Hj by done. by destruct (j =? i).
Qed.

Lemma clear_hartindex_spec m i :
  mask_wf m -> 0 <= i ->
  exists m', sbi_hartmask_clear_hartindex i m = Some m' /\ mask_wf m' /\
    forall j, 0 <= j < 128 -> hart_in j m' = negb (j =? i) && hart_in j m.
Proof.
  intros Hm Hi. unfold sbi_hartmask_clear_hartindex, SBI_HARTMASK_MAX_BITS.
  destruct (Z.ltb_spec i 128); [|exists m; split; [done|]; split; [done|];
    intros j Hj; by destruct (Z.eqb_spec j i); [lia|]].
  destruct (upd_word_mask m i (fun w => Z.land w (not64 (BIT_MASK i))) (fun _ _ => false)) as (m' & E & Hm' & Hj);
    [done|lia|intros; apply in_range_land_l; [lia|done|apply not64_range]|..].
  - intros w j Hw Hj. rewrite Z.land_spec, testbit_not64, BIT_MASK_bit by done.
    destruct (_ =? _); [apply andb_false_r|apply andb_true_r].
  - exists m'. split; [done|]. split; [done|]. intros j Hj'. rewrite Hj by done. by destruct (j =? i).
Qed.

Lemma test_hartindex_spec m i :
  mask_wf m -> 0 <= i -> sbi_hartmask_test_hartindex i m = Some (Z.b2z (hart_in i m)).
Proof.
  intros Hm Hi. unfold sbi_hartmask_test_hartindex, SBI_HARTMASK_MAX_BITS. destruct (Z.ltb_spec i 128).
  - destruct (mask_bit m i Hm ltac:(lia)) as (w & Hlk & Hw & ->). unfold __test_bit. rewrite Hlk.
    cbn [mbind option_bind]. f_equal. change (BITS_PER_LONG - 1) with (2 ^ 6 - 1). rewrite (land_low i) by lia.
    change (2 ^ 6) with 64. pose proof (Z.mod_pos_bound i 64 ltac:(lia)).
    rewrite Z.land_comm. change 1 with (2 ^ 1 - 1). rewrite land_low by lia. change (2 ^ 1) with 2.
    rewrite <- (Z.bit0_mod (Z.shiftr w (i `mod` 64))), Z.shiftr_spec by lia. done.
  - f_equal. unfold hart_in, SBI_HARTMASK_MAX_BITS. destruct (Z.ltb_spec i 128); [lia|]. by rewrite andb_false_r.
Qed.

Lemma two_words (m : sbi_hartmask) : mask_wf m -> exists w0 w1, m = [w0; w1] /\ in_range 64 w0 /\ in_range 64 w1.
Proof.
  intros [Hl Hw]. destruct m as [|w0 [|w1 [|]]]; try done. rewrite !Forall_cons in Hw. naive_solver.
Qed.

Lemma bitmap_op_spec op g dst m1 m2 :
  (forall x y, in_range 64 x -> in_range 64 y -> in_range 64 (op x y)) ->
  (forall x y j, Z.testbit (op x y) j = g (Z.testbit x j) (Z.testbit y j)) ->
  mask_wf dst -> mask_wf m1 -> mask_wf m2 ->
  exists m', bitmap_op op 0 (Z.to_nat (BITS_TO_LONGS SBI_HARTMASK_MAX_BITS)) dst m1 m2 = Some m' /\ mask_wf m' /\
    forall j, 0 <= j < 128 -> hart_in j m' = g (hart_in j m1) (hart_in j m2).
Proof.
  intros Hr Hg Hd H1 H2. destruct (two_words _ Hd) as (d0 & d1 & -> & _).
  destruct (two_words _ H1) as (x0 & x1 & -> & X0 & X1). destruct (two_words _ H2) as (y0 & y1 & -> & Y0 & Y1).
  exists [op x0 y0; op x1 y1]. split; [done|].
  assert (mask_wf [op x0 y0; op x1 y1]) as Hm' by (split; [done|]; repeat constructor; apply Hr; done).
  split; [done|]. intros j Hj.
  destruct (mask_bit _ j Hm' Hj) as (w & Hw & _ & ->).
  destruct (mask_bit _ j H1 Hj) as (w1 & Hw1 & _ & ->). destruct (mask_bit _ j H2 Hj) as (w2 & Hw2 & _ & ->).
  destruct (Z.to_nat (BIT_WORD j)) as [|[|]]; simpl in *; simplify_eq; apply Hg.
Qed.

(** ** Iteration *)

Lemma filter_none {A} (P : A -> Prop) `{forall x, Decision (P x)} (l : list A) :
  (forall x, x ∈ l -> ~ P x) -> filter P l = [].
Proof.
  induction l as [|x l IH]; intros Hl; [done|].
  rewrite filter_cons_False by (apply Hl; set_solver). apply IH. set_solver.
Qed.

(** The members from [from] on, in increasing order. *)
Definition harts_from (m : sbi_hartmask) (from : Z) : list Z :=
  filter (fun i => hart_in i m = true) (seqZ from (128 - from)).

Lemma next_set_filter m from r :
  next_set (bval m) from 128 r -> 0 <= from ->
  harts_from m from = if r <? 128 then r :: harts_from m (r + 1) else [].
Proof.
  intros (Hr & Hl & Hb) Hf. unfold harts_from. replace (128 - from) with (r - from + (128 - r)) by lia.
  rewrite seqZ_app by lia. rewrite filter_app, (filter_none _ (seqZ from (r - from))).
  2:{ intros x Hx. apply elem_of_seqZ in Hx. unfold hart_in. rewrite Hl by lia. by rewrite andb_false_r. }
  replace (from + (r - from)) with r by lia. simpl. destruct (Z.ltb_spec r 128).
  - rewrite seqZ_cons by lia. rewrite filter_cons_True; [do 3 f_equal; lia|].
    unfold hart_in, SBI_HARTMASK_MAX_BITS. rewrite Hb by done. lia.
  - rewrite seqZ_nil by lia. done.
Qed.

Lemma for_each_from_spec fuel : forall m i,
  mask_wf m -> 0 <= i <= 128 -> (Z.to_nat (128 - i) < fuel)%nat ->
  for_each_from fuel m i = Some (if i <? 128 then i :: harts_from m (i + 1) else []).
Proof.
  induction fuel as [|fuel IH]; intros m i Hm Hi Hf; [lia|]. cbn [for_each_from].
  unfold SBI_HARTMASK_MAX_BITS. destruct (Z.ltb_spec i 128) as [Hlt|]; [|done].
  destruct (find_next_bit_spec m 128 (i + 1)) as (r & -> & Hr); [apply Hm|lia|rewrite (mw_len m Hm); lia|].
  cbn [mbind option_bind]. destruct (Z.leb_spec 128 (i + 1)).
  - subst r. rewrite IH by (done || lia). cbn [mbind option_bind]. do 2 f_equal.
    rewrite Z.ltb_irrefl. unfold harts_from. by rewrite seqZ_nil by lia.
  - rewrite (next_set_filter m (i + 1) r Hr) by lia. destruct Hr as (Hr & _).
    rewrite IH by (done || lia). done.
Qed.

Lemma for_each_spec m : mask_wf m -> sbi_hartmask_for_each_hartindex m = Some (harts_from m 0).
Proof.
  intros Hm. unfold sbi_hartmask_for_each_hartindex, find_first_bit, SBI_HARTMASK_MAX_BITS.
  destruct (first_bit_from_spec m 0 128) as (r & -> & Hr); [apply Hm|rewrite (mw_len m Hm); lia|].
  cbn [mbind option_bind]. rewrite Z.add_0_l, (next_set_filter m 0 r Hr) by lia. destruct Hr as (Hr & _).
  rewrite for_each_from_spec by (done || lia). done.
Qed.

(** The next member after [i], or the end; the first member. *)
Lemma mask_next m i : mask_wf m -> 0 <= i < 128 ->
  exists r, find_next_bit m SBI_HARTMASK_MAX_BITS (i + 1) = Some r /\ i < r <= 128 /\
    (r < 128 -> hart_in r m = true) /\ forall j, i < j < r -> hart_in j m = false.
Proof.
  intros Hm Hi. unfold SBI_HARTMASK_MAX_BITS.
  destruct (find_next_bit_spec m 128 (i + 1)) as (r & -> & Hr); [apply Hm|lia|rewrite (mw_len m Hm); lia|].
  exists r. split; [done|]. destruct (Z.leb_spec 128 (i + 1)); [subst r; split; [lia|]; split; [lia|lia]|].
  destruct Hr as (Hr & Hl & Hb). unfold hart_in, SBI_HARTMASK_MAX_BITS. split; [lia|]. split.
  - intros. rewrite Hb by done. lia.
  - intros j Hj. rewrite Hl by lia. apply andb_false_r.
Qed.

Lemma mask_first m : mask_wf m ->
  exists r, find_first_bit m SBI_HARTMASK_MAX_BITS = Some r /\ 0 <= r <= 128 /\
    (r < 128 -> hart_in r m = true) /\ forall j, 0 <= j < r -> hart_in j m = false.
Proof.
  intros Hm. unfold find_first_bit, SBI_HARTMASK_MAX_BITS.
  destruct (first_bit_from_spec m 0 128) as (r & -> & Hr & Hl & Hb); [apply Hm|rewrite (mw_len m Hm); lia|].
  exists r. split; [done|]. unfold hart_in, SBI_HARTMASK_MAX_BITS. split; [lia|]. split.
  - intros. rewrite Hb by done. lia.
  - intros j Hj. rewrite Hl by lia. apply andb_false_r.
Qed.

Lemma hart_in_range i m : hart_in i m = true -> 0 <= i < 128.
Proof. unfold hart_in, SBI_HARTMASK_MAX_BITS. lia. Qed.

(** A hart mask behaves as a set of hart indices below 128.  Testing,
    setting and clearing an index (any index, also out of range), the set
    operations on two masks, clearing and filling are membership, insertion,
    removal, intersection, union, symmetric difference, the empty and the full
    set; the iterator runs through exactly the members in increasing order. *)
Theorem hartmask_refines_set m m1 m2 i :
  mask_wf m -> mask_wf m1 -> mask_wf m2 -> 0 <= i ->
  sbi_hartmask_test_hartindex i m = Some (Z.b2z (hart_in i m)) /\
  (exists m', sbi_hartmask_set_hartindex i m = Some m' /\ mask_wf m' /\
     forall j, 0 <= j < 128 -> hart_in j m' = (j =? i) || hart_in j m) /\
  (exists m', sbi_hartmask_clear_hartindex i m = Some m' /\ mask_wf m' /\
     forall j, 0 <= j < 128 -> hart_in j m' = negb (j =? i) && hart_in j m) /\
  (exists m', sbi_hartmask_and m m1 m2 = Some m' /\ mask_wf m' /\
     forall j, 0 <= j < 128 -> hart_in j m' = hart_in j m1 && hart_in j m2) /\
  (exists m', sbi_hartmask_or m m1 m2 = Some m' /\ mask_wf m' /\
     forall j, 0 <= j < 128 -> hart_in j m' = hart_in j m1 || hart_in j m2) /\
  (exists m', sbi_hartmask_xor m m1 m2 = Some m' /\ mask_wf m' /\
     forall j, 0 <= j < 128 -> hart_in j m' = xorb (hart_in j m1) (hart_in j m2)) /\
  sbi_hartmask_copy m m1 = m1 /\
  (mask_wf (sbi_hartmask_clear_all m) /\ forall j, hart_in j (sbi_hartmask_clear_all m) = false) /\
  (mask_wf (sbi_hartmask_set_all m) /\ forall j, 0 <= j < 128 -> hart_in j (sbi_hartmask_set_all m) = true) /\
  sbi_hartmask_for_each_hartindex m = Some (filter (fun j => hart_in j m = true) (seqZ 0 128)).
Proof.
  intros Hm H1 H2 Hi. destruct (two_words m Hm) as (w0 & w1 & Em & _).
  destruct (two_words m1 H1) as (v0 & v1 & Em1 & _).
  split; [by apply test_hartindex_spec|]. split; [by apply set_hartindex_spec|].
  split; [by apply clear_hartindex_spec|].
  split; [apply (bitmap_op_spec Z.land andb); [intros; apply in_range_land_l; [lia|done|by eapply in_range_nonneg]|apply Z.land_spec|done..]|].
  split; [apply (bitmap_op_spec Z.lor orb); [intros; by apply in_range_lor|apply Z.lor_spec|done..]|].
  split; [apply (bitmap_op_spec Z.lxor xorb); [intros; by apply in_range_lxor|apply Z.lxor_spec|done..]|].
  split; [by subst|].
  assert (sbi_hartmask_clear_all m = [0; 0]) as -> by by subst.
  assert (sbi_hartmask_set_all m = [ones64; ones64]) as -> by by subst.
  split; [|split; [|by apply for_each_spec]].
  - split; [split; [done|]; repeat constructor; rng|]. intros j. unfold hart_in.
    change (bval [0; 0]) with 0. rewrite Z.bits_0. apply andb_false_r.
  - assert (mask_wf [ones64; ones64]) as Hf
      by (split; [done|]; repeat constructor; unfold ones64, in_range; lia).
    split; [done|]. intros j Hj. destruct (mask_bit _ j Hf Hj) as (w & Hw & _ & ->).
    assert (w = Z.ones 64) as -> by (destruct (Z.to_nat (BIT_WORD j)) as [|[|]]; simpl in Hw; simplify_eq; done).
    apply Z.ones_spec_low. pose proof (Z.mod_pos_bound j 64). lia.
Qed.

Lemma hartmask_refines_set_witness :
  sbi_hartmask_for_each_hartindex [0x9; 0x2] = Some [0; 3; 65] /\
  exists m', sbi_hartmask_clear_hartindex 3 [0x9; 0x2] = Some m' /\ hart_in 3 m' = false.
Proof.
  assert (forall a b, in_range 64 a -> in_range 64 b -> mask_wf [a; b]) as Hwf
    by (intros a b Ha Hb; split; [reflexivity|apply List.Forall_cons; [exact Ha|apply List.Forall_cons; [exact Hb|apply List.Forall_nil]]]).
  assert (mask_wf [0x9; 0x2]) as H by (apply Hwf; unfold in_range; lia).
  destruct (hartmask_refines_set [0x9; 0x2] [0x9; 0x2] [0x9; 0x2] 3 H H H ltac:(lia))
    as (_ & _ & (m' & E & _ & Hj) & _ & _ & _ & _ & _ & _ & Hall).
  split; [exact Hall|]. exists m'. split; [exact E|]. rewrite Hj by lia. reflexivity.
Defined.
