(* ===== verification/Strings.v ===== *)
(** * String and memory functions of OpenSBI (sbi_string.c).

    Memory is a list of bytes and a pointer an index; [None] is an access
    outside of it.  [char] is unsigned, as it is on RISC-V.  A null result
    pointer is [None] inside the result. *)

From S2P Require Import Prelude.

Local Open Scope Z_scope.
Local Open Scope nat_scope.

Abbreviation memory := (list Z).

Definition store (m : memory) (p : nat) (c : Z) : option memory :=
  if p <? length m then Some (<[p := c]> m) else None.

(** The strings from a pointer on, read by a loop that only advances. *)
Fixpoint strcmp_from (a b : list Z) : option Z :=
  match a, b with
  | x :: a, y :: b => if (x =? y)%Z && negb (x =? 0)%Z then strcmp_from a b else Some (x - y)%Z
  | _, _ => None
  end.

Definition sbi_strcmp (m : memory) (a b : nat) : option Z := strcmp_from (drop a m) (drop b m).

Fixpoint strncmp_from (a b : list Z) (count : nat) {struct count} : option Z :=
  match count with
  | O => Some 0%Z
  | S n =>
      match a, b with
      | x :: a, y :: b => if (x =? y)%Z && negb (x =? 0)%Z then strncmp_from a b n else Some (x - y)%Z
      | _, _ => None
      end
  end.

Definition sbi_strncmp (m : memory) (a b count : nat) : option Z := strncmp_from (drop a m) (drop b m) count.

Fixpoint strlen_from (s : list Z) (ret : nat) : option nat :=
  match s with
  | [] => None
  | x :: s => if negb (x =? 0)%Z then strlen_from s (ret + 1) else Some ret
  end.

Definition sbi_strlen (m : memory) (str : nat) : option nat := strlen_from (drop str m) 0.

Fixpoint strnlen_from (s : list Z) (count ret : nat) : option nat :=
  match s with
  | [] => None
  | x :: s => if negb (x =? 0)%Z && (ret <? count) then strnlen_from s count (ret + 1) else Some ret
  end.

Definition sbi_strnlen (m : memory) (str count : nat) : option nat := strnlen_from (drop str m) count 0.

(** [src] advances, so the memory bounds the iterations. *)
Fixpoint strcpy_loop (fuel : nat) (m : memory) (dest src : nat) : option memory :=
  match fuel with
  | O => None
  | S fuel =>
      c ← m !! src;
      if negb (c =? 0)%Z then m ← store m dest c; strcpy_loop fuel m (S dest) (S src) else Some m
  end.

Definition sbi_strcpy (m : memory) (dest src : nat) : option memory := strcpy_loop (length m) m dest src.

Fixpoint sbi_strncpy (m : memory) (dest src count : nat) : option memory :=
  match count with
  | O => Some m
  | S n =>
      c ← m !! src;
      if negb (c =? 0)%Z then m ← store m dest c; sbi_strncpy m (S dest) (S src) n else Some m
  end.

Fixpoint strchr_from (s : list Z) (c : Z) (p : nat) : option (option nat) :=
  match s with
  | [] => None
  | x :: s =>
      if negb (x =? 0)%Z && negb (x =? u8 c)%Z then strchr_from s c (S p)
      else if (x =? 0)%Z then Some None else Some (Some p)
  end.

Definition sbi_strchr (m : memory) (s : nat) (c : Z) : option (option nat) := strchr_from (drop s m) c s.

(** [last] is [s + n]. *)
Fixpoint strrchr_loop (m : memory) (s : nat) (c : Z) (n : nat) : option (option nat) :=
  x ← m !! (s + n);
  match n with
  | S n' => if negb (x =? u8 c)%Z then strrchr_loop m s c n' else Some (Some (s + n))
  | O => if negb (x =? u8 c)%Z then Some None else Some (Some (s + n))
  end.

Definition sbi_strrchr (m : memory) (s : nat) (c : Z) : option (option nat) :=
  n ← sbi_strlen m s; strrchr_loop m s c n.

Fixpoint sbi_memset (m : memory) (s : nat) (c : Z) (count : nat) : option memory :=
  match count with
  | O => Some m
  | S n => m ← store m s (u8 c); sbi_memset m (S s) c n
  end.

Fixpoint sbi_memcpy (m : memory) (dest src count : nat) : option memory :=
  match count with
  | O => Some m
  | S n => c ← m !! src; m ← store m dest c; sbi_memcpy m (S dest) (S src) n
  end.

(** The backward loop: [temp1] is [dest + count - 1]. *)
Fixpoint memmove_down (m : memory) (dest src count : nat) : option memory :=
  match count with
  | O => Some m
  | S n => c ← m !! (src + n); m ← store m (dest + n) c; memmove_down m dest src n
  end.

Definition sbi_memmove (m : memory) (dest src count : nat) : option memory :=
  if src =? dest then Some m
  else if dest <? src then sbi_memcpy m dest src count
  else memmove_down m dest src count.

Fixpoint memcmp_from (a b : list Z) (count : nat) : option Z :=
  match count with
  | O => Some 0%Z
  | S n =>
      match a, b with
      | x :: a, y :: b => if (x =? y)%Z then memcmp_from a b n else Some (x - y)%Z
      | _, _ => None
      end
  end.

Definition sbi_memcmp (m : memory) (s1 s2 count : nat) : option Z := memcmp_from (drop s1 m) (drop s2 m) count.

Fixpoint memchr_from (s : list Z) (c : Z) (count p : nat) : option (option nat) :=
  match count with
  | O => Some None
  | S n =>
      match s with
      | [] => None
      | x :: s => if (u8 c =? x)%Z then Some (Some p) else memchr_from s c n (S p)
      end
  end.

Definition sbi_memchr (m : memory) (s : nat) (c : Z) (count : nat) : option (option nat) := memchr_from (drop s m) c count s.

(** ** Memory functions *)

Lemma store_ok m p c : p < length m -> store m p c = Some (<[p := c]> m).
Proof. intros H. unfold store. by destruct (Nat.ltb_spec p (length m)); [|lia]. Qed.

(** [m'] is [m] with the [n] bytes that were at [src] now also at [dest]. *)
Definition moved (m : memory) (dest src n : nat) (m' : memory) : Prop :=
  length m' = length m /\
  forall j, m' !! j = if decide (dest <= j < dest + n) then m !! (src + (j - dest)) else m !! j.

Lemma memcpy_moved n : forall m dest src,
  src + n <= length m -> dest + n <= length m -> dest <= src \/ src + n <= dest ->
  exists m', sbi_memcpy m dest src n = Some m' /\ moved m dest src n m'.
Proof.
  induction n as [|n IH]; intros m dest src Hs Hd Hov; cbn [sbi_memcpy].
  { exists m. split; [done|]. split; [done|]. intros j. by rewrite decide_False by lia. }
  destruct (lookup_lt_is_Some_2 m src) as [c Hc]; [lia|]. rewrite Hc. cbn [mbind option_bind].
  rewrite store_ok by lia. cbn [mbind option_bind].
  destruct (IH (<[dest := c]> m) (S dest) (S src)) as (m' & E & Hl & Hj); [rewrite ?length_insert; lia..|].
  exists m'. split; [done|]. split; [by rewrite Hl, length_insert|]. intros j. rewrite Hj.
  destruct (decide (j = dest)) as [->|Hne].
  - rewrite decide_False, decide_True by lia. rewrite list_lookup_insert_eq by lia. rewrite <- Hc. f_equal. lia.
  - destruct (decide (S dest <= j < S dest + n)).
    + rewrite decide_True by lia. rewrite list_lookup_insert_ne by lia. f_equal. lia.
    + rewrite decide_False by lia. by rewrite list_lookup_insert_ne.
Qed.

Lemma memmove_down_moved n : forall m dest src,
  src + n <= length m -> dest + n <= length m -> src <= dest ->
  exists m', memmove_down m dest src n = Some m' /\ moved m dest src n m'.
Proof.
  induction n as [|n IH]; intros m dest src Hs Hd Hov; cbn [memmove_down].
  { exists m. split; [done|]. split; [done|]. intros j. by rewrite decide_False by lia. }
  destruct (lookup_lt_is_Some_2 m (src + n)) as [c Hc]; [lia|]. rewrite Hc. cbn [mbind option_bind].
  rewrite store_ok by lia. cbn [mbind option_bind].
  destruct (IH (<[dest + n := c]> m) dest src) as (m' & E & Hl & Hj); [rewrite ?length_insert; lia..|].
  exists m'. split; [done|]. split; [by rewrite Hl, length_insert|]. intros j. rewrite Hj.
  destruct (decide (j = dest + n)) as [->|Hne].
  - rewrite decide_False, decide_True by lia. rewrite list_lookup_insert_eq by lia. rewrite <- Hc. f_equal. lia.
  - destruct (decide (dest <= j < dest + n)).
    + rewrite decide_True by lia. rewrite list_lookup_insert_ne by lia. done.
    + rewrite decide_False by lia. by rewrite list_lookup_insert_ne.
Qed.

Lemma memmove_moved m dest src n :
  src + n <= length m -> dest + n <= length m ->
  exists m', sbi_memmove m dest src n = Some m' /\ moved m dest src n m'.
Proof.
  intros Hs Hd. unfold sbi_memmove. destruct (Nat.eqb_spec src dest) as [->|Hne].
  - exists m. split; [done|]. split; [done|]. intros j. destruct (decide _); [f_equal; lia|done].
  - destruct (Nat.ltb_spec dest src); [apply memcpy_moved; lia|apply memmove_down_moved; lia].
Qed.

Lemma memset_spec n : forall m s c, s + n <= length m ->
  exists m', sbi_memset m s c n = Some m' /\ length m' = length m /\
    forall j, m' !! j = if decide (s <= j < s + n) then Some (u8 c) else m !! j.
Proof.
  induction n as [|n IH]; intros m s c Hs; cbn [sbi_memset].
  { exists m. split; [done|]. split; [done|]. intros j. by rewrite decide_False by lia. }
  rewrite store_ok by lia. cbn [mbind option_bind].
  destruct (IH (<[s := u8 c]> m) (S s) c) as (m' & E & Hl & Hj); [rewrite length_insert; lia|].
  exists m'. split; [done|]. split; [by rewrite Hl, length_insert|]. intros j. rewrite Hj.
  destruct (decide (j = s)) as [->|Hne].
  - rewrite decide_False, decide_True by lia. by rewrite list_lookup_insert_eq by lia.
  - destruct (decide (S s <= j < S s + n)); [by rewrite decide_True by lia|].
    rewrite decide_False by lia. by rewrite list_lookup_insert_ne.
Qed.

(** The result of a comparison of two byte sequences of equal length. *)
Definition compares (d : Z) (a b : list Z) : Prop :=
  (d = 0%Z <-> a = b) /\
  (d <> 0%Z -> exists k x y, take k a = take k b /\ a !! k = Some x /\ b !! k = Some y /\ d = (x - y)%Z).

Lemma compares_cons d x a b : compares d a b -> compares d (x :: a) (x :: b).
Proof.
  intros [H1 H2]. split; [rewrite H1; split; congruence|]. intros Hd. destruct (H2 Hd) as (k & u & v & ? & ? & ? & ?).
  exists (S k), u, v. cbn. split; [congruence|done].
Qed.

Lemma compares_differ x y a b : x <> y -> compares (x - y)%Z (x :: a) (y :: b).
Proof. intros Hne. split; [split; [intros; lia|intros; simplify_eq]|]. intros _. by exists 0, x, y. Qed.

Lemma memcmp_compares n : forall a b, n <= length a -> n <= length b ->
  exists d, memcmp_from a b n = Some d /\ compares d (take n a) (take n b).
Proof.
  induction n as [|n IH]; intros [|x a] [|y b] Ha Hb; cbn [memcmp_from length take] in *; try lia.
  1-4: exists 0%Z; split; [done|]; split; [done|]; done.
  destruct (Z.eqb_spec x y) as [->|Hne].
  - destruct (IH a b) as (d & E & Hd); [lia..|]. exists d. split; [done|]. by apply compares_cons.
  - exists (x - y)%Z. split; [done|]. by apply compares_differ.
Qed.

Lemma memchr_first n : forall s c p, n <= length s ->
  memchr_from s c n p = Some ((fun kx => p + kx.1) <$> list_find (fun x => u8 c = x) (take n s)).
Proof.
  induction n as [|n IH]; intros [|x s] c p Hn; cbn [memchr_from take list_find length] in *; try done; [lia|].
  destruct (Z.eqb_spec (u8 c) x) as [->|Hne].
  - rewrite decide_True by done. cbn. by rewrite Nat.add_0_r.
  - rewrite decide_False by done. rewrite IH by lia. rewrite <- option_fmap_compose. f_equal.
    destruct (list_find _ _) as [[k y]|]; [|done]. cbn. f_equal. lia.
Qed.

(** The memory functions.  Inside the memory, [sbi_memmove] leaves at [dest]
    the bytes that were at [src], however the two ranges overlap, and changes
    nothing else; [sbi_memcpy] does the same when the ranges are disjoint or
    [dest] is below; [sbi_memset] fills its range; [sbi_memcmp] is 0 exactly on
    equal ranges and otherwise the difference of the first two bytes that
    differ; [sbi_memchr] finds the first occurrence in the range. *)
Theorem memory_functions m dest src n c :
  src + n <= length m -> dest + n <= length m ->
  (exists m', sbi_memmove m dest src n = Some m' /\ moved m dest src n m') /\
  (dest <= src \/ src + n <= dest -> exists m', sbi_memcpy m dest src n = Some m' /\ moved m dest src n m') /\
  (exists m', sbi_memset m dest c n = Some m' /\ length m' = length m /\
     forall j, m' !! j = if decide (dest <= j < dest + n) then Some (u8 c) else m !! j) /\
  (exists d, sbi_memcmp m dest src n = Some d /\ compares d (take n (drop dest m)) (take n (drop src m))) /\
  sbi_memchr m src c n = Some ((fun kx => src + kx.1) <$> list_find (fun x => u8 c = x) (take n (drop src m))).
Proof.
  intros Hs Hd. split_and!; [by apply memmove_moved|intros; by apply memcpy_moved|by apply memset_spec|..].
  - apply memcmp_compares; rewrite length_drop; lia.
  - apply memchr_first. rewrite length_drop. lia.
Qed.

Lemma memory_functions_witness :
  sbi_memmove [1; 2; 3; 4; 5]%Z 1 0 4 = Some [1; 1; 2; 3; 4]%Z /\ moved [1; 2; 3; 4; 5]%Z 1 0 4 [1; 1; 2; 3; 4]%Z.
Proof.
  assert (sbi_memmove [1; 2; 3; 4; 5]%Z 1 0 4 = Some [1; 1; 2; 3; 4]%Z) as E by reflexivity. split; [exact E|].
  destruct (memory_functions [1; 2; 3; 4; 5]%Z 1 0 4 0%Z) as ((m' & E' & Hm') & _); [simpl; lia|simpl; lia|].
  rewrite E in E'. injection E' as <-. exact Hm'.
Defined.

(** ** Strings *)

(** The string [l] at [p], with its terminator. *)
Definition str_at (m : memory) (p : nat) (l : list Z) : Prop :=
  Forall (fun x => x <> 0%Z) l /\ exists rest, drop p m = l ++ 0%Z :: rest.

Lemma strlen_from_spec l rest : forall r, Forall (fun x => x <> 0%Z) l ->
  strlen_from (l ++ 0%Z :: rest) r = Some (r + length l).
Proof.
  induction l as [|x l IH]; intros r Hl; cbn [strlen_from app length]; [by rewrite Nat.add_0_r|].
  apply Forall_cons in Hl as [Hx Hl]. destruct (Z.eqb_spec x 0); [done|]. cbn [negb]. rewrite IH by done. f_equal. lia.
Qed.

Lemma strnlen_from_spec l rest n : forall r, Forall (fun x => x <> 0%Z) l -> r <= n ->
  strnlen_from (l ++ 0%Z :: rest) n r = Some (Nat.min (r + length l) n).
Proof.
  induction l as [|x l IH]; intros r Hl Hr; cbn [strnlen_from app length]; [f_equal; cbn; lia|].
  apply Forall_cons in Hl as [Hx Hl]. destruct (Z.eqb_spec x 0); [done|]. cbn [negb andb].
  destruct (Nat.ltb_spec r n); [rewrite IH by (done || lia); f_equal; lia|f_equal; lia].
Qed.

Lemma strcmp_from_spec la : forall lb ra rb,
  Forall (fun x => x <> 0%Z) la -> Forall (fun x => x <> 0%Z) lb ->
  exists d, strcmp_from (la ++ 0%Z :: ra) (lb ++ 0%Z :: rb) = Some d /\ compares d (la ++ [0%Z]) (lb ++ [0%Z]).
Proof.
  induction la as [|x la IH]; intros [|y lb] ra rb Ha Hb; cbn [strcmp_from app]; rewrite ?Forall_cons in *.
  - exists 0%Z. split; [done|]. by split.
  - destruct Hb as [Hy Hb]. exists (0 - y)%Z. destruct (Z.eqb_spec 0 y); [done|]. split; [done|]. by apply compares_differ.
  - destruct Ha as [Hx Ha]. exists (x - 0)%Z. destruct (Z.eqb_spec x 0); [done|]. split; [done|]. by apply compares_differ.
  - destruct Ha as [Hx Ha], Hb as [Hy Hb]. destruct (Z.eqb_spec x y) as [->|Hne].
    + destruct (Z.eqb_spec y 0); [done|]. cbn [negb andb]. destruct (IH lb ra rb Ha Hb) as (d & E & Hd).
      exists d. split; [done|]. by apply compares_cons.
    + exists (x - y)%Z. split; [done|]. by apply compares_differ.
Qed.

Lemma strncmp_from_spec n : forall la lb ra rb,
  Forall (fun x => x <> 0%Z) la -> Forall (fun x => x <> 0%Z) lb ->
  exists d, strncmp_from (la ++ 0%Z :: ra) (lb ++ 0%Z :: rb) n = Some d /\
            compares d (take n (la ++ [0%Z])) (take n (lb ++ [0%Z])).
Proof.
  induction n as [|n IH]; intros la lb ra rb Ha Hb; [exists 0%Z; split; [done|]; by split|].
  destruct la as [|x la], lb as [|y lb]; cbn [strncmp_from app take]; rewrite ?Forall_cons in *.
  - exists 0%Z. split; [done|]. by split.
  - destruct Hb as [Hy Hb]. exists (0 - y)%Z. destruct (Z.eqb_spec 0 y); [done|]. split; [done|]. by apply compares_differ.
  - destruct Ha as [Hx Ha]. exists (x - 0)%Z. destruct (Z.eqb_spec x 0); [done|]. split; [done|]. by apply compares_differ.
  - destruct Ha as [Hx Ha], Hb as [Hy Hb]. destruct (Z.eqb_spec x y) as [->|Hne].
    + destruct (Z.eqb_spec y 0); [done|]. cbn [negb andb]. destruct (IH la lb ra rb Ha Hb) as (d & E & Hd).
      exists d. split; [done|]. by apply compares_cons.
    + exists (x - y)%Z. split; [done|]. by apply compares_differ.
Qed.

Lemma strchr_from_spec l rest c : forall p, Forall (fun x => x <> 0%Z) l ->
  strchr_from (l ++ 0%Z :: rest) c p = Some ((fun kx => p + kx.1) <$> list_find (fun x => x = u8 c) l).
Proof.
  induction l as [|x l IH]; intros p Hl; cbn [strchr_from app list_find]; [done|].
  apply Forall_cons in Hl as [Hx Hl]. destruct (Z.eqb_spec x 0); [done|]. cbn [negb andb].
  destruct (Z.eqb_spec x (u8 c)) as [E|Hne]; cbn [negb].
  - rewrite decide_True by done. cbn. by rewrite Nat.add_0_r.
  - rewrite decide_False by done. rewrite IH by done. rewrite <- option_fmap_compose. f_equal.
    destruct (list_find _ _) as [[k y]|]; [|done]. cbn. f_equal. lia.
Qed.

(** The last position of [c] among the first [n + 1] bytes at [s]. *)
Lemma strrchr_loop_spec m s c n : s + n < length m ->
  exists r, strrchr_loop m s c n = Some r /\
    match r with
    | Some p => exists k, p = s + k /\ k <= n /\ m !! p = Some (u8 c) /\ (forall j, k < j <= n -> m !! (s + j) <> Some (u8 c))
    | None => forall j, j <= n -> m !! (s + j) <> Some (u8 c)
    end.
Proof.
  induction n as [|n IH]; intros Hn; cbn [strrchr_loop];
    (destruct (lookup_lt_is_Some_2 m _ Hn) as [x Hx]); rewrite Hx; cbn [mbind option_bind];
    destruct (Z.eqb_spec x (u8 c)) as [E|Hne]; cbn [negb].
  - exists (Some (s + 0)). split; [done|]. exists 0. split_and!; [done..|congruence|]. intros; lia.
  - exists None. split; [done|]. intros j Hj. assert (j = 0) as -> by lia. congruence.
  - exists (Some (s + S n)). split; [done|]. exists (S n). split_and!; [done..|congruence|]. intros; lia.
  - destruct IH as (r & E & Hr); [lia|]. exists r. split; [done|].
    assert (m !! (s + S n) <> Some (u8 c)) as Hlast by congruence. destruct r as [p|].
    + destruct Hr as (k & ? & ? & ? & Hr). exists k. split_and!; [done|lia|done|]. intros j Hj.
      destruct (decide (j = S n)) as [->|]; [done|]. apply Hr. lia.
    + intros j Hj. destruct (decide (j = S n)) as [->|]; [done|]. apply Hr. lia.
Qed.

(** The same, byte by byte. *)
Definition bytes_at (m : memory) (p : nat) (l : list Z) : Prop := forall i, i < length l -> m !! (p + i) = l !! i.

Lemma str_at_bytes m p l : str_at m p l -> bytes_at m p (l ++ [0%Z]) /\ p + length l < length m.
Proof.
  intros [_ [rest E]]. split.
  - intros i Hi. rewrite <- lookup_drop, E. rewrite length_app in Hi. cbn in Hi.
    change (0%Z :: rest) with ([0%Z] ++ rest). rewrite app_assoc. rewrite lookup_app_l; [done|]. rewrite length_app. cbn. lia.
  - pose proof (f_equal length E) as El. rewrite length_drop, length_app in El. cbn in El. lia.
Qed.

Lemma bytes_at_insert m p x l dest c :
  bytes_at m p (x :: l) -> dest <= p \/ p + length l < dest -> bytes_at (<[dest := c]> m) (S p) l.
Proof.
  intros H Hd i Hi. rewrite list_lookup_insert_ne by lia. replace (S p + i) with (p + S i) by lia.
  by rewrite H by (cbn; lia).
Qed.

(** Both copies move the characters before the terminator, and nothing more. *)
Lemma strncpy_moved l : forall m dest src n,
  Forall (fun x => x <> 0%Z) l -> bytes_at m src (l ++ [0%Z]) ->
  dest + Nat.min n (length l) <= length m -> dest + length l <= src \/ src + length l < dest ->
  exists m', sbi_strncpy m dest src n = Some m' /\ moved m dest src (Nat.min n (length l)) m'.
Proof.
  induction l as [|x l IH]; intros m dest src n Hl Hsrc Hd Hov; (destruct n as [|n]; cbn [sbi_strncpy];
    [exists m; split; [done|]; split; [done|]; intros j; by rewrite decide_False by (cbn; lia)|]);
    pose proof (Hsrc 0 ltac:(cbn; lia)) as Hc; rewrite Nat.add_0_r in Hc; cbn in Hc; rewrite Hc; cbn [mbind option_bind].
  - exists m. split; [done|]. split; [done|]. intros j. by rewrite decide_False by (cbn; lia).
  - apply Forall_cons in Hl as [Hx Hl]. cbn [length] in *. destruct (Z.eqb_spec x 0); [done|]. cbn [negb].
    rewrite store_ok by lia. cbn [mbind option_bind].
    destruct (IH (<[dest := x]> m) (S dest) (S src) n Hl) as (m' & E & Hlm & Hj);
      [apply (bytes_at_insert m src x); [done|rewrite length_app; cbn; lia]|rewrite length_insert; lia|lia|].
    exists m'. split; [done|]. split; [by rewrite Hlm, length_insert|]. intros j. rewrite Hj.
    destruct (decide (j = dest)) as [->|Hne].
    + rewrite decide_False, decide_True by lia. rewrite list_lookup_insert_eq by lia. rewrite <- Hc. f_equal. lia.
    + destruct (decide (S dest <= j < S dest + Nat.min n (length l))).
      * rewrite decide_True by lia. rewrite list_lookup_insert_ne by lia. f_equal. lia.
      * rewrite decide_False by lia. by rewrite list_lookup_insert_ne.
Qed.

(** A count that the string does not reach makes no difference. *)
Lemma strcpy_strncpy l : forall m dest src fuel,
  Forall (fun x => x <> 0%Z) l -> bytes_at m src (l ++ [0%Z]) -> length l < fuel ->
  dest + length l <= src \/ src + length l < dest -> dest + length l <= length m ->
  strcpy_loop fuel m dest src = sbi_strncpy m dest src (length l).
Proof.
  induction l as [|x l IH]; intros m dest src [|fuel] Hl Hsrc Hf Hov Hd; cbn [length] in *; try lia; cbn [strcpy_loop sbi_strncpy];
    pose proof (Hsrc 0 ltac:(cbn; lia)) as Hc; rewrite Nat.add_0_r in Hc; cbn in Hc; rewrite Hc; cbn [mbind option_bind]; [done|].
  apply Forall_cons in Hl as [Hx Hl]. destruct (Z.eqb_spec x 0); [done|]. cbn [negb].
  rewrite store_ok by lia. cbn [mbind option_bind].
  apply IH; [done|apply (bytes_at_insert m src x); [done|rewrite length_app; cbn; lia]|lia|lia|rewrite length_insert; lia].
Qed.

(** The string functions on terminated strings [l] at [p] and [k] at [q].
    Lengths are exact and bounded by the count; comparisons are 0 exactly on
    equal strings (up to the count) and otherwise the difference of the first
    characters that differ; searches find the first and the last occurrence of a
    character; copies between ranges that do not meet move the characters (up to
    the count), without the terminator. *)
Theorem string_functions m p q l k n c dest :
  str_at m p l -> str_at m q k ->
  sbi_strlen m p = Some (length l) /\ sbi_strnlen m p n = Some (Nat.min (length l) n) /\
  (exists d, sbi_strcmp m p q = Some d /\ compares d (l ++ [0%Z]) (k ++ [0%Z])) /\
  (exists d, sbi_strncmp m p q n = Some d /\ compares d (take n (l ++ [0%Z])) (take n (k ++ [0%Z]))) /\
  sbi_strchr m p c = Some ((fun kx => p + kx.1) <$> list_find (fun x => x = u8 c) l) /\
  (exists r, sbi_strrchr m p c = Some r /\
     match r with
     | Some a => exists i, a = p + i /\ (l ++ [0%Z]) !! i = Some (u8 c) /\ forall j, i < j -> (l ++ [0%Z]) !! j <> Some (u8 c)
     | None => (u8 c) ∉ l ++ [0%Z]
     end) /\
  (dest + length l <= p \/ p + length l < dest -> dest + length l <= length m ->
   (exists m', sbi_strcpy m dest p = Some m' /\ moved m dest p (length l) m') /\
   (exists m', sbi_strncpy m dest p n = Some m' /\ moved m dest p (Nat.min n (length l)) m')).
Proof.
  intros Hp [Hk [rk Ek]]. pose proof (str_at_bytes _ _ _ Hp) as [Hby Hlen]. destruct Hp as [Hl [rl El]].
  assert (sbi_strlen m p = Some (length l)) as Hsl by (unfold sbi_strlen; rewrite El; by apply strlen_from_spec).
  split_and!; [done|unfold sbi_strnlen; rewrite El; apply strnlen_from_spec; [done|lia]| | | | |].
  - unfold sbi_strcmp. rewrite El, Ek. by apply strcmp_from_spec.
  - unfold sbi_strncmp. rewrite El, Ek. by apply strncmp_from_spec.
  - unfold sbi_strchr. rewrite El. by apply strchr_from_spec.
  - unfold sbi_strrchr. rewrite Hsl. cbn [mbind option_bind].
    destruct (strrchr_loop_spec m p c (length l) Hlen) as (r & E & Hr). exists r. split; [done|].
    assert (length (l ++ [0%Z]) = S (length l)) as Hl1 by (rewrite length_app; cbn; lia).
    destruct r as [a|].
    + destruct Hr as (i & -> & Hi & Ha & Hj). exists i. split; [done|]. split; [rewrite <- Hby by lia; done|].
      intros j Hij. destruct (decide (j <= length l)); [rewrite <- Hby by lia; apply Hj; lia|].
      by rewrite lookup_ge_None_2 by lia.
    + intros [i Hi]%list_elem_of_lookup. pose proof (lookup_lt_Some _ _ _ Hi) as Hlt.
      apply (Hr i); [lia|]. by rewrite Hby by lia.
  - intros Hov Hd. split; [|apply strncpy_moved; (done || lia)].
    unfold sbi_strcpy. rewrite (strcpy_strncpy l) by (done || lia).
    destruct (strncpy_moved l m dest p (length l)) as (m' & E & Hm'); [done|done|lia|done|].
    rewrite Nat.min_id in Hm'. by exists m'.
Qed.

Lemma string_functions_witness :
  exists d, sbi_strcmp [104; 105; 0; 104; 111; 0]%Z 0 3 = Some d /\ compares d [104; 105; 0]%Z [104; 111; 0]%Z.
Proof.
  destruct (string_functions [104; 105; 0; 104; 111; 0]%Z 0 3 [104; 105]%Z [104; 111]%Z 1 111%Z 0)
    as (_ & _ & H & _); [split; [repeat constructor; discriminate|by exists [104; 111; 0]%Z]|
                         split; [repeat constructor; discriminate|by exists []]|].
  exact H.
Defined.

(** [sbi_strcpy] does not write the terminator: copying "hi" over "xyz" gives "hiz". *)
Example strcpy_unterminated :
  sbi_strcpy [104; 105; 0; 120; 121; 122; 0]%Z 3 0 = Some [104; 105; 0; 104; 105; 122; 0]%Z.
Proof. reflexivity. Qed.

(** [sbi_strchr] does not find the terminator, which the C function does. *)
Example strchr_terminator : sbi_strchr [104; 105; 0]%Z 0 0%Z = Some None.
Proof. reflexivity. Qed.
