(* ===== verification/Scratch.v ===== *)
(** * Scratch spaces of the harts (sbi_scratch.c, sbi_scratch.h).

    The table from hart index to hart id and to scratch space, and the allocator
    of per-hart data, which hands out an offset that is valid in the scratch space
    of every hart.  A scratch space is a block of [SBI_SCRATCH_SIZE] bytes, a
    pointer to it its number; [None] as a result is an access outside of an
    object. *)

From S2P Require Import Prelude SbiTypes Hartmask Strings.

Local Open Scope Z_scope.

Definition SIZEOF_POINTER : Z := 8.
Definition SBI_SCRATCH_EXTRA_SPACE_OFFSET : Z := 15 * SIZEOF_POINTER.
Definition SBI_SCRATCH_SIZE : Z := 0x1000.

(** The variables of the file, with the spaces the pointers lead to. *)
Record scratch_state := ScratchState {
  last_hartindex_having_scratch : Z;
  hartindex_to_hartid_table : list Z;
  hartindex_to_scratch_table : list (option nat);
  extra_offset : Z;
  spaces : list memory;
}.

(** [u32] of -1. *)
Definition minus1U : Z := u32 (-1).

(** The loop from [i]; the table ends before the bound only if it is exceeded. *)
Fixpoint hartid_search (fuel : nat) (st : scratch_state) (hartid i : Z) : option Z :=
  match fuel with
  | O => None
  | S fuel =>
      if i <=? st.(last_hartindex_having_scratch) then
        h ← st.(hartindex_to_hartid_table) !! Z.to_nat i;
        if h =? hartid then Some i else hartid_search fuel st hartid (i + 1)
      else Some minus1U
  end.

Definition sbi_hartid_to_hartindex (st : scratch_state) (hartid : Z) : option Z :=
  hartid_search (S (length st.(hartindex_to_hartid_table))) st hartid 0.

Definition sbi_hartindex_to_hartid (st : scratch_state) (hartindex : Z) : option Z :=
  if hartindex <=? st.(last_hartindex_having_scratch)
  then st.(hartindex_to_hartid_table) !! Z.to_nat hartindex else Some minus1U.

Definition sbi_hartindex_to_scratch (st : scratch_state) (hartindex : Z) : option (option nat) :=
  if hartindex <=? st.(last_hartindex_having_scratch)
  then st.(hartindex_to_scratch_table) !! Z.to_nat hartindex else Some None.

Definition sbi_hartindex_valid (st : scratch_state) (hartindex : Z) : bool :=
  hartindex <=? st.(last_hartindex_having_scratch).

(** [tab[i] = v] *)
Definition set_entry {A} (tab : list A) (i : nat) (v : A) : option (list A) :=
  if (i <? length tab)%nat then Some (<[i := v]> tab) else None.

(** The loop of [sbi_scratch_init] over [n] more harts from index [i]. *)
Fixpoint scratch_init_loop (st : scratch_state) (index2id : option (list Z)) (hartid2scratch : Z -> Z -> option nat)
    (i n : nat) : option scratch_state :=
  match n with
  | O => Some st
  | S n =>
      h ← match index2id with Some tab => tab !! i | None => Some (Z.of_nat i) end;
      ids ← set_entry st.(hartindex_to_hartid_table) i h;
      ptrs ← set_entry st.(hartindex_to_scratch_table) i (hartid2scratch h (Z.of_nat i));
      scratch_init_loop (ScratchState st.(last_hartindex_having_scratch) ids ptrs st.(extra_offset) st.(spaces))
        index2id hartid2scratch (S i) n
  end.

Definition sbi_scratch_init (st : scratch_state) (hart_count : nat) (index2id : option (list Z))
    (hartid2scratch : Z -> Z -> option nat) : option scratch_state :=
  st ← scratch_init_loop st index2id hartid2scratch 0 hart_count;
  Some (ScratchState (u32 (Z.of_nat hart_count - 1)) st.(hartindex_to_hartid_table) st.(hartindex_to_scratch_table)
          st.(extra_offset) st.(spaces)).

(** Clears [size] bytes at [offset] in the spaces of the harts [is_]. *)
Fixpoint clear_spaces (st : scratch_state) (offset size : Z) (is_ : list Z) (sp : list memory) : option (list memory) :=
  match is_ with
  | [] => Some sp
  | i :: is_ =>
      rscratch ← sbi_hartindex_to_scratch st i;
      match rscratch with
      | None => clear_spaces st offset size is_ sp
      | Some p =>
          m ← sp !! p;
          m ← sbi_memset m (Z.to_nat offset) 0 (Z.to_nat size);
          clear_spaces st offset size is_ (<[p := m]> sp)
      end
  end.

Definition sbi_scratch_alloc_offset (st : scratch_state) (size : Z) : option (Z * scratch_state) :=
  if size =? 0 then Some (0, st)
  else
    let size := u64 (size + (SIZEOF_POINTER - 1)) in
    let size := Z.land size (u64 (Z.lnot (SIZEOF_POINTER - 1))) in
    let '(ret, off) :=
      if SBI_SCRATCH_SIZE <? u64 (st.(extra_offset) + size) then (0, st.(extra_offset))
      else (st.(extra_offset), u64 (st.(extra_offset) + size)) in
    sp ← (if negb (ret =? 0)
          then clear_spaces st ret size (seqZ 0 (st.(last_hartindex_having_scratch) + 1)) st.(spaces)
          else Some st.(spaces));
    Some (ret, ScratchState st.(last_hartindex_having_scratch) st.(hartindex_to_hartid_table)
                 st.(hartindex_to_scratch_table) off sp).

Definition sbi_scratch_free_offset (st : scratch_state) (offset : Z) : scratch_state :=
  if (offset <? SBI_SCRATCH_EXTRA_SPACE_OFFSET) || (SBI_SCRATCH_SIZE <=? offset) then st else st.

Definition sbi_scratch_used_space (st : scratch_state) : Z := st.(extra_offset).

(** ** The hart numbering *)

(** The state before [sbi_scratch_init]. *)
Definition scratch_boot (sp : list memory) : scratch_state :=
  ScratchState 0 (minus1U :: replicate 128 0) (replicate 129 None) SBI_SCRATCH_EXTRA_SPACE_OFFSET sp.

Lemma scratch_init_loop_spec ids h2s n : forall st i,
  (i + n <= length ids)%nat -> length st.(hartindex_to_hartid_table) = 129%nat -> length st.(hartindex_to_scratch_table) = 129%nat ->
  (i + n <= 129)%nat ->
  exists st', scratch_init_loop st (Some ids) h2s i n = Some st' /\
    st'.(extra_offset) = st.(extra_offset) /\ st'.(spaces) = st.(spaces) /\
    length st'.(hartindex_to_hartid_table) = 129%nat /\ length st'.(hartindex_to_scratch_table) = 129%nat /\
    (forall j, st'.(hartindex_to_hartid_table) !! j =
       if decide (i <= j < i + n)%nat then ids !! j else st.(hartindex_to_hartid_table) !! j) /\
    (forall j, st'.(hartindex_to_scratch_table) !! j =
       if decide (i <= j < i + n)%nat then (fun h => h2s h (Z.of_nat j)) <$> ids !! j else st.(hartindex_to_scratch_table) !! j).
Proof.
  induction n as [|n IH]; intros st i Hi Hl1 Hl2 Hb; cbn [scratch_init_loop].
  { exists st. split_and!; try done; intros j; by rewrite decide_False by lia. }
  destruct (lookup_lt_is_Some_2 ids i) as [h Hh]; [lia|]. rewrite Hh. cbn [mbind option_bind].
  unfold set_entry. rewrite Hl1, Hl2. destruct (Nat.ltb_spec i 129); [|lia]. cbn [mbind option_bind].
  destruct (IH (ScratchState (last_hartindex_having_scratch st) (<[i:=h]> (hartindex_to_hartid_table st))
     (<[i:=h2s h (Z.of_nat i)]> (hartindex_to_scratch_table st)) (extra_offset st) (spaces st)) (S i))
    as (st' & E & H1 & H2 & H3 & H4 & H5 & H6); cbn [hartindex_to_hartid_table hartindex_to_scratch_table]; rewrite ?length_insert; try lia.
  exists st'. split_and!; try done; intros j; rewrite ?H5, ?H6; cbn [hartindex_to_hartid_table hartindex_to_scratch_table];
    (destruct (decide (j = i)) as [->|Hne];
     [rewrite decide_False, decide_True by lia; rewrite list_lookup_insert_eq by lia; by rewrite Hh|
      rewrite list_lookup_insert_ne by done; destruct (decide _), (decide _); lia || done]).
Qed.

(** The search finds the only entry that holds the id. *)
Lemma hartid_search_spec st hartid n fuel : forall i,
  st.(last_hartindex_having_scratch) = Z.of_nat n - 1 -> (n <= length st.(hartindex_to_hartid_table))%nat ->
  (i <= n)%nat -> (n - i < fuel)%nat ->
  exists r, hartid_search fuel st hartid (Z.of_nat i) = Some r /\
    ((exists k, r = Z.of_nat k /\ (i <= k < n)%nat /\ st.(hartindex_to_hartid_table) !! k = Some hartid) \/
     (r = minus1U /\ forall k, (i <= k < n)%nat -> st.(hartindex_to_hartid_table) !! k <> Some hartid)).
Proof.
  induction fuel as [|fuel IH]; intros i Hlast Hlen Hi Hf; [lia|]. cbn [hartid_search]. rewrite Hlast.
  destruct (Z.leb_spec (Z.of_nat i) (Z.of_nat n - 1)); cycle 1.
  { exists minus1U. split; [done|]. right. split; [done|]. intros; lia. }
  rewrite Nat2Z.id. destruct (lookup_lt_is_Some_2 (hartindex_to_hartid_table st) i) as [h Hh]; [lia|].
  rewrite Hh. cbn [mbind option_bind]. destruct (Z.eqb_spec h hartid) as [->|Hne].
  - exists (Z.of_nat i). split; [done|]. left. exists i. split_and!; [done|lia|lia|done].
  - replace (Z.of_nat i + 1) with (Z.of_nat (S i)) by lia.
    destruct (IH (S i)) as (r & E & [(k & ? & ? & ?)|[? Hno]]); [done|done|lia|lia|..]; exists r; (split; [done|]).
    + left. exists k. split_and!; [done|lia|lia|done].
    + right. split; [done|]. intros k Hk. destruct (decide (k = i)) as [->|]; [congruence|]. apply Hno. lia.
Qed.

(** The hart numbering.  After [sbi_scratch_init] for a platform that lists
    the ids of its at most 128 harts without repetition, the table maps every
    hart index to its id and [sbi_hartid_to_hartindex] maps every id back to its
    index, answers -1U for every other id, and each index has the scratch space
    of its hart. *)
Theorem hart_numbering_inverse sp ids h2s :
  (1 <= length ids <= 128)%nat -> NoDup ids ->
  exists st, sbi_scratch_init (scratch_boot sp) (length ids) (Some ids) h2s = Some st /\
    (forall i h, ids !! i = Some h ->
       sbi_hartindex_to_hartid st (Z.of_nat i) = Some h /\ sbi_hartid_to_hartindex st h = Some (Z.of_nat i) /\
       sbi_hartindex_to_scratch st (Z.of_nat i) = Some (h2s h (Z.of_nat i)) /\ sbi_hartindex_valid st (Z.of_nat i) = true) /\
    (forall h, h ∉ ids -> sbi_hartid_to_hartindex st h = Some minus1U) /\
    sbi_hartindex_to_scratch st minus1U = Some None.
Proof.
  intros Hn Hnd. destruct (scratch_init_loop_spec ids h2s (length ids) (scratch_boot sp) 0) as (st & E & H1 & H2 & H3 & H4 & H5 & H6);
    [lia|done|done|lia|].
  unfold sbi_scratch_init. rewrite E. cbn [mbind option_bind]. eexists. split; [reflexivity|].
  set (st' := ScratchState _ _ _ _ _).
  assert (last_hartindex_having_scratch st' = Z.of_nat (length ids) - 1) as Hlast
    by (cbn; apply wrap_small; unfold in_range; lia).
  assert (forall k, (k < length ids)%nat -> hartindex_to_hartid_table st' !! k = ids !! k) as Htab
    by (intros k Hk; cbn; rewrite H5, decide_True by lia; done).
  assert (forall h, exists r, sbi_hartid_to_hartindex st' h = Some r /\
    ((exists k, r = Z.of_nat k /\ (0 <= k < length ids)%nat /\ hartindex_to_hartid_table st' !! k = Some h) \/
     (r = minus1U /\ forall k, (0 <= k < length ids)%nat -> hartindex_to_hartid_table st' !! k <> Some h))) as Hsearch.
  { intros h. apply (hartid_search_spec st' h (length ids) (S (length (hartindex_to_hartid_table st'))) 0); [done|cbn; lia|lia|cbn; lia]. }
  split_and!.
  - intros i h Hi. pose proof (lookup_lt_Some _ _ _ Hi) as Hlt.
    unfold sbi_hartindex_to_hartid, sbi_hartindex_to_scratch, sbi_hartindex_valid. rewrite Hlast.
    destruct (Z.leb_spec (Z.of_nat i) (Z.of_nat (length ids) - 1)); [|lia]. rewrite Nat2Z.id. split_and!; [by rewrite Htab| | |done].
    + destruct (Hsearch h) as (r & Er & [(k & -> & Hk & Hkk)|[_ Hno]]).
      * rewrite Er. do 2 f_equal. rewrite Htab in Hkk by lia. by eapply NoDup_lookup.
      * destruct (Hno i); [lia|]. by rewrite Htab.
    + cbn. rewrite H6, decide_True by lia. by rewrite Hi.
  - intros h Hh. destruct (Hsearch h) as (r & Er & [(k & -> & Hk & Hkk)|[-> _]]); [|done].
    rewrite Htab in Hkk by lia. destruct Hh. by eapply list_elem_of_lookup_2.
  - unfold sbi_hartindex_to_scratch. rewrite Hlast. destruct (Z.leb_spec minus1U (Z.of_nat (length ids) - 1)); [|done].
    unfold minus1U in *. change (u32 (-1)) with 4294967295 in *. lia.
Qed.

Lemma hart_numbering_inverse_witness :
  exists st, sbi_scratch_init (scratch_boot []) 3 (Some [0; 4; 2]) (fun _ i => Some (Z.to_nat i)) = Some st /\
    sbi_hartid_to_hartindex st 2 = Some 2 /\ sbi_hartid_to_hartindex st 7 = Some minus1U.
Proof.
  destruct (hart_numbering_inverse [] [0; 4; 2] (fun _ i => Some (Z.to_nat i))) as (st & E & H1 & H2 & _).
  - simpl. lia.
  - apply (bool_decide_unpack _). vm_compute. exact I.
  - exists st. split; [exact E|]. destruct (H1 2%nat 2 eq_refl) as (_ & E2 & _). split; [exact E2|].
    apply H2. apply (bool_decide_unpack _). vm_compute. exact I.
Defined.

(** ** The allocator *)

Definition space_ok (m : memory) : Prop := length m = Z.to_nat SBI_SCRATCH_SIZE.

(** Every entry of the table is a scratch space of full size, and the next
    offset is an aligned one inside. *)
Record scratch_wf (st : scratch_state) : Prop := ScratchWf {
  sw_last : 0 <= st.(last_hartindex_having_scratch) < 128;
  sw_table : length st.(hartindex_to_scratch_table) = 129%nat;
  sw_ptrs : forall i p, st.(hartindex_to_scratch_table) !! i = Some (Some p) -> (p < length st.(spaces))%nat;
  sw_spaces : Forall space_ok st.(spaces);
  sw_offset : SBI_SCRATCH_EXTRA_SPACE_OFFSET <= st.(extra_offset) <= SBI_SCRATCH_SIZE;
  sw_aligned : st.(extra_offset) `mod` SIZEOF_POINTER = 0;
}.

(** [sp'] is [sp] with zeros at [off, off + size) of the spaces in [P], maybe. *)
Definition cleared (off size : Z) (P : nat -> Prop) (sp sp' : list memory) : Prop :=
  length sp' = length sp /\ Forall space_ok sp' /\
  forall p m', sp' !! p = Some m' -> exists m, sp !! p = Some m /\
    (forall j, ~ (Z.to_nat off <= j < Z.to_nat off + Z.to_nat size)%nat -> m' !! j = m !! j) /\
    (P p -> forall j, (Z.to_nat off <= j < Z.to_nat off + Z.to_nat size)%nat -> m' !! j = Some 0) /\
    (forall j, (Z.to_nat off <= j < Z.to_nat off + Z.to_nat size)%nat -> m' !! j = m !! j \/ m' !! j = Some 0).

Lemma clear_spaces_spec st off size : scratch_wf st -> 0 <= off -> 0 <= size -> off + size <= SBI_SCRATCH_SIZE ->
  forall is_ sp, length sp = length st.(spaces) -> Forall space_ok sp ->
  Forall (fun i => 0 <= i <= st.(last_hartindex_having_scratch)) is_ ->
  exists sp', clear_spaces st off size is_ sp = Some sp' /\
    cleared off size (fun p => exists i, i ∈ is_ /\ st.(hartindex_to_scratch_table) !! Z.to_nat i = Some (Some p)) sp sp'.
Proof.
  intros Hwf Ho Hs Hos. induction is_ as [|i is_ IH]; intros sp Hlen Hsp Hi; cbn [clear_spaces].
  { exists sp. split; [done|]. split; [done|]. split; [done|]. intros p m' Hp. exists m'. split_and!; [done|done| |by left].
    intros (i & []%not_elem_of_nil & _). }
  apply Forall_cons in Hi as [Hi His]. unfold sbi_hartindex_to_scratch.
  destruct (Z.leb_spec i (last_hartindex_having_scratch st)); [|lia]. pose proof (sw_last st Hwf).
  destruct (lookup_lt_is_Some_2 (hartindex_to_scratch_table st) (Z.to_nat i)) as [e He]; [rewrite (sw_table st Hwf); lia|].
  rewrite He. cbn [mbind option_bind]. destruct e as [p|]; cycle 1.
  { destruct (IH sp Hlen Hsp His) as (sp' & E & H1 & H2 & H3). exists sp'. split; [done|]. split; [done|]. split; [done|].
    intros q m' Hq. destruct (H3 q m' Hq) as (m & Hm & Ha & Hb & Hc). exists m. split_and!; [done..| |done].
    intros (k & [->|Hk]%elem_of_cons & Hkq); [congruence|]. apply Hb. eauto. }
  pose proof (sw_ptrs st Hwf _ _ He) as Hp. destruct (lookup_lt_is_Some_2 sp p) as [m Hm]; [lia|]. rewrite Hm. cbn [mbind option_bind].
  pose proof (Forall_lookup_1 _ _ _ _ Hsp Hm) as Hml. unfold space_ok in Hml.
  destruct (memset_spec (Z.to_nat size) m (Z.to_nat off) 0) as (m1 & -> & Hl1 & Hj1); [lia|]. cbn [mbind option_bind].
  destruct (IH (<[p := m1]> sp)) as (sp' & E & H1 & H2 & H3);
    [by rewrite length_insert|apply Forall_insert; [done|unfold space_ok; lia]|done|].
  exists sp'. split; [done|]. split; [by rewrite H1, length_insert|]. split; [done|].
  intros q m' Hq. destruct (H3 q m' Hq) as (m2 & Hm2 & Ha & Hb & Hc). change (u8 0) with 0 in Hj1.
  destruct (decide (q = p)) as [->|Hne].
  - rewrite list_lookup_insert_eq in Hm2 by lia. simplify_eq. exists m. split_and!; [done|..].
    + intros j Hj. rewrite Ha, Hj1 by done. by rewrite decide_False.
    + intros _ j Hj. destruct (Hc j Hj) as [->|]; [|done]. by rewrite Hj1, decide_True.
    + intros j Hj. right. destruct (Hc j Hj) as [->|]; [|done]. by rewrite Hj1, decide_True.
  - rewrite list_lookup_insert_ne in Hm2 by done. exists m2. split_and!; [done..| |done].
    intros (k & [->|Hk]%elem_of_cons & Hkq); [congruence|]. apply Hb. eauto.
Qed.

(** Sizes for which the arithmetic of the allocator does not wrap. *)
Definition size_ok (size : Z) : Prop := 0 <= size /\ size + SIZEOF_POINTER + SBI_SCRATCH_SIZE < 2 ^ 64.

(** A successful allocation. *)
Record fresh_block (st : scratch_state) (size ret : Z) (st' : scratch_state) : Prop := FreshBlock {
  fb_ret : ret = st.(extra_offset);
  fb_aligned : ret `mod` SIZEOF_POINTER = 0;
  fb_room : SBI_SCRATCH_EXTRA_SPACE_OFFSET <= ret /\ ret + size <= st'.(extra_offset) <= SBI_SCRATCH_SIZE;
  fb_zero : forall i p m', sbi_hartindex_to_scratch st i = Some (Some p) -> 0 <= i -> st'.(spaces) !! p = Some m' ->
    forall j, ret <= j < ret + size -> m' !! Z.to_nat j = Some 0;
  fb_rest : forall p m', st'.(spaces) !! p = Some m' -> exists m, st.(spaces) !! p = Some m /\
    forall j, 0 <= j < ret \/ st'.(extra_offset) <= j -> m' !! Z.to_nat j = m !! Z.to_nat j;
}.

Lemma round_up_8 size : 0 <= size -> size + 8 < 2 ^ 64 ->
  Z.land (u64 (size + (SIZEOF_POINTER - 1))) (u64 (Z.lnot (SIZEOF_POINTER - 1))) = (size + 7) / 8 * 8.
Proof.
  intros H1 H2. unfold SIZEOF_POINTER. rewrite wrap_small by (unfold in_range; lia).
  transitivity (Z.land (size + 7) (Z.lnot (2 ^ 3 - 1))).
  - zbits i Hi. case_bool_decide; [by replace (size + (8 - 1)) with (size + 7) by lia|].
    rewrite (testbit_above 64) by (unfold in_range; lia). by rewrite (testbit_above 64 (size + 7)) by (unfold in_range; lia).
  - rewrite land_lnot_ones by lia. change (2 ^ 3) with 8. pose proof (Z.div_mod (size + 7) 8). lia.
Qed.

Lemma scratch_alloc_spec st size : scratch_wf st -> size_ok size ->
  exists ret st', sbi_scratch_alloc_offset st size = Some (ret, st') /\ scratch_wf st' /\
    st'.(hartindex_to_scratch_table) = st.(hartindex_to_scratch_table) /\
    st'.(last_hartindex_having_scratch) = st.(last_hartindex_having_scratch) /\
    ((ret = 0 /\ st' = st /\ (size = 0 \/ SBI_SCRATCH_SIZE < st.(extra_offset) + (size + 7) / 8 * 8)) \/
     (ret <> 0 /\ 0 < size /\ fresh_block st size ret st')).
Proof.
  intros Hwf [Hs Hb]. unfold SIZEOF_POINTER, SBI_SCRATCH_SIZE in Hb. unfold sbi_scratch_alloc_offset.
  destruct (Z.eqb_spec size 0) as [->|Hne]; [exists 0, st; by split_and!; try left; try split_and!; auto|].
  cbv zeta. rewrite round_up_8 by lia. pose proof (sw_offset st Hwf) as Ho. pose proof (sw_aligned st Hwf) as Hal.
  unfold SBI_SCRATCH_SIZE, SBI_SCRATCH_EXTRA_SPACE_OFFSET, SIZEOF_POINTER in *.
  set (sz := (size + 7) / 8 * 8). assert (size <= sz < size + 8 /\ sz `mod` 8 = 0) as [Hsz Hm8].
  { unfold sz. split; [pose proof (Z.div_mod (size + 7) 8); pose proof (Z.mod_pos_bound (size + 7) 8); lia|by apply Z.mod_mul]. }
  rewrite wrap_small by (unfold in_range; lia).
  destruct (Z.ltb_spec 0x1000 (extra_offset st + sz)) as [Hbig|Hfit].
  { cbn [Z.eqb negb mbind option_bind]. exists 0, st. destruct st. by split_and!; try left; auto. }
  destruct (Z.eqb_spec (extra_offset st) 0); [lia|]. cbn [negb].
  destruct (clear_spaces_spec st (extra_offset st) sz Hwf ltac:(lia) ltac:(lia) Hfit
    (seqZ 0 (last_hartindex_having_scratch st + 1)) (spaces st) eq_refl (sw_spaces st Hwf)) as (sp' & -> & H1 & H2 & H3).
  { apply Forall_forall. intros i Hi%elem_of_seqZ. lia. }
  cbn [mbind option_bind]. eexists _, _. split; [reflexivity|].
  assert ((extra_offset st + sz) `mod` 8 = 0) as Hal' by (rewrite Z.add_mod by lia; by rewrite Hal, Hm8).
  split; [|split; [done|split; [done|right]]].
  - split; cbn [last_hartindex_having_scratch hartindex_to_scratch_table spaces extra_offset];
      unfold SBI_SCRATCH_SIZE, SBI_SCRATCH_EXTRA_SPACE_OFFSET, SIZEOF_POINTER in *;
      [apply Hwf|apply Hwf|intros; rewrite H1; by eapply sw_ptrs|done|lia|done].
  - split; [done|]. split; [lia|].
    split; cbn [spaces extra_offset]; unfold SBI_SCRATCH_SIZE, SBI_SCRATCH_EXTRA_SPACE_OFFSET, SIZEOF_POINTER in *; [done|done|lia|..].
    + intros i p m' Hi Hi0 Hp j Hj. destruct (H3 p m' Hp) as (m & Hm & _ & Hz & _). apply Hz; [|lia].
      unfold sbi_hartindex_to_scratch in Hi. destruct (Z.leb_spec i (last_hartindex_having_scratch st)); [|done].
      exists i. split; [apply elem_of_seqZ; lia|done].
    + intros p m' Hp. destruct (H3 p m' Hp) as (m & Hm & Ho' & _). exists m. split; [done|]. intros j Hj. apply Ho'. lia.
Qed.

(** A sequence of allocations. *)
Fixpoint scratch_allocs (st : scratch_state) (sizes : list Z) : option (list Z * scratch_state) :=
  match sizes with
  | [] => Some ([], st)
  | size :: sizes =>
      '(ret, st) ← sbi_scratch_alloc_offset st size;
      '(rets, st) ← scratch_allocs st sizes;
      Some (ret :: rets, st)
  end.

(** The blocks handed out, in order: each one aligned, inside the extra space
    and after the one before. *)
Fixpoint blocks_ok (lo : Z) (sizes rets : list Z) (hi : Z) : Prop :=
  match sizes, rets with
  | [], [] => lo <= hi
  | size :: sizes, ret :: rets =>
      (ret = 0 /\ blocks_ok lo sizes rets hi) \/
      (lo <= ret /\ ret `mod` SIZEOF_POINTER = 0 /\ blocks_ok (ret + size) sizes rets hi)
  | _, _ => False
  end.

Lemma blocks_ok_mono sizes : forall rets lo lo' hi, lo' <= lo -> blocks_ok lo sizes rets hi -> blocks_ok lo' sizes rets hi.
Proof.
  induction sizes as [|size sizes IH]; intros [|ret rets] lo lo' hi Hle; cbn [blocks_ok]; try done; [lia|].
  intros [[-> H]|[H1 [H2 H3]]]; [left; split; [done|]; by eapply IH|right; split_and!; [lia|done|done]].
Qed.

(** The blocks of the scratch allocator never overlap.  From a well-formed
    state, every sequence of requests (of sizes far from the 64-bit limit) runs
    without an access outside the scratch spaces; every offset it returns is
    either 0 or a multiple of the pointer size at or after the end of the block
    before it, and all blocks lie in the extra space of the 4096 bytes. *)
Theorem scratch_blocks_disjoint st sizes :
  scratch_wf st -> Forall size_ok sizes ->
  exists rets st', scratch_allocs st sizes = Some (rets, st') /\ scratch_wf st' /\
    blocks_ok st.(extra_offset) sizes rets st'.(extra_offset) /\
    SBI_SCRATCH_EXTRA_SPACE_OFFSET <= st.(extra_offset) /\ st'.(extra_offset) <= SBI_SCRATCH_SIZE.
Proof.
  revert st. induction sizes as [|size sizes IH]; intros st Hwf Hsz; cbn [scratch_allocs].
  { exists [], st. pose proof (sw_offset st Hwf). split_and!; [done|done|cbn; lia|lia|lia]. }
  apply Forall_cons in Hsz as [Hs Hsz].
  destruct (scratch_alloc_spec st size Hwf Hs) as (ret & st1 & -> & Hwf1 & _ & _ & Hr). cbn [mbind option_bind].
  destruct (IH st1 Hwf1 Hsz) as (rets & st' & -> & Hwf' & Hbl & H1 & H2). cbn [mbind option_bind].
  exists (ret :: rets), st'. pose proof (sw_offset st Hwf) as Hoff. split_and!; [done|done| |lia|done].
  destruct Hr as [(-> & -> & _)|(_ & _ & [-> Ha [_ Hroom] _ _])]; [by left|].
  right. split_and!; [lia|done|]. eapply blocks_ok_mono; [|done]. lia.
Qed.

Definition demo_scratch : scratch_state :=
  ScratchState 1 (0 :: 1 :: replicate 127 0) (Some 0%nat :: Some 1%nat :: replicate 127 None)
    SBI_SCRATCH_EXTRA_SPACE_OFFSET (replicate 2 (replicate 4096 7)).

Lemma demo_scratch_wf : scratch_wf demo_scratch.
Proof.
  split; cbn [last_hartindex_having_scratch hartindex_to_scratch_table spaces extra_offset demo_scratch];
    unfold SBI_SCRATCH_EXTRA_SPACE_OFFSET, SBI_SCRATCH_SIZE, SIZEOF_POINTER; [lia|done| | |lia|done].
  - intros [|[|i]] p; [intros; simplify_eq/=; lia..|]. change (replicate 127 None !! i = Some (Some p) -> (p < 2)%nat).
    intros H%lookup_replicate_1. by destruct H.
  - repeat constructor.
Qed.

Lemma scratch_blocks_disjoint_witness :
  exists rets st', scratch_allocs demo_scratch [8; 3; 0; 5000; 16] = Some (rets, st') /\
    blocks_ok 120 [8; 3; 0; 5000; 16] rets st'.(extra_offset).
Proof.
  destruct (scratch_blocks_disjoint demo_scratch [8; 3; 0; 5000; 16] demo_scratch_wf) as (rets & st' & E & _ & H & _).
  - repeat constructor; unfold SIZEOF_POINTER, SBI_SCRATCH_SIZE; lia.
  - exists rets, st'. split; [exact E|exact H].
Defined.

(** A size near the 64-bit limit wraps: the request succeeds and moves the next
    offset back over blocks handed out before. *)
Example scratch_alloc_wraps :
  match sbi_scratch_alloc_offset (ScratchState 0 [0] [None] 512 []) (2 ^ 64 - 256) with
  | Some (ret, st) => ret = 512 /\ st.(extra_offset) = 256
  | None => False
  end.
Proof. vm_compute. done. Qed.
