(* ===== verification/Ecall.v ===== *)
(** * SBI call dispatch of OpenSBI (sbi_ecall.c, sbi_ecall_base.c and the
    registration functions of the extensions).

    An extension is a range of extension ids with a handler; the registry is the
    list of the registered ones, in order (the linked list of the source, whose
    operations are those of [Dlist]).  [St] is the state the handlers work on. *)

From S2P Require Import Prelude SbiTypes.

Local Open Scope Z_scope.

Definition SBI_SUCCESS : Z := 0.
Definition SBI_ERR_FAILED : Z := -1.
Definition SBI_LAST_ERR : Z := -14.
Definition SBI_EXT_0_1_SET_TIMER : Z := 0x0.
Definition SBI_EXT_0_1_CONSOLE_GETCHAR : Z := 0x2.
Definition SBI_EXT_0_1_SHUTDOWN : Z := 0x8.
Definition SBI_ECALL_VERSION_MAJOR : Z := 2.
Definition SBI_ECALL_VERSION_MINOR : Z := 0.
Definition SBI_SPEC_VERSION_MAJOR_OFFSET : Z := 24.
Definition SBI_SPEC_VERSION_MAJOR_MASK : Z := 0x7f.
Definition SBI_OPENSBI_IMPID : Z := 1.
Definition OPENSBI_VERSION : Z := Z.lor (Z.shiftl 1 16) 6.

(** The registers of the trap frame a call uses. *)
Record sbi_trap_regs := Regs {
  mepc : Z; a0 : Z; a1 : Z; a2 : Z; a3 : Z; a4 : Z; a5 : Z; a6 : Z; a7 : Z;
}.

Record sbi_ecall_return := Out { skip_regs_update : bool; value : Z }.

Section Registry.
Context {St : Type}.

(** [int] result, registers, return value and state. *)
Definition handler : Type := Z -> Z -> sbi_trap_regs -> St -> Z * sbi_trap_regs * sbi_ecall_return * St.

(** [addr] is the address of the object, its identity. *)
Record sbi_ecall_extension := Ext {
  addr : nat;
  extid_start : Z;
  extid_end : Z;
  experimental : bool;
  probe : option (Z -> Z * Z);
  handle : option handler;
}.

Abbreviation exts_list := (list sbi_ecall_extension).

Fixpoint sbi_ecall_find_extension (l : exts_list) (extid : Z) : option sbi_ecall_extension :=
  match l with
  | [] => None
  | t :: l => if (t.(extid_start) <=? extid) && (extid <=? t.(extid_end)) then Some t else sbi_ecall_find_extension l extid
  end.

(** The overlap test of the registration loop. *)
Definition no_overlap (ext t : sbi_ecall_extension) : bool :=
  (t.(extid_end) <? ext.(extid_start)) || (ext.(extid_end) <? t.(extid_start)).

Definition sbi_ecall_register_extension (l : exts_list) (ext : option sbi_ecall_extension) : Z * exts_list :=
  match ext with
  | None => (SBI_EINVAL, l)
  | Some ext =>
      if (ext.(extid_end) <? ext.(extid_start)) || negb (bool_decide (is_Some ext.(handle))) then (SBI_EINVAL, l)
      else if negb (forallb (no_overlap ext) l) then (SBI_EINVAL, l)
      else (0, l ++ [ext])
  end.

Fixpoint list_del (l : exts_list) (a : nat) : exts_list :=
  match l with
  | [] => []
  | t :: l => if (t.(addr) =? a)%nat then l else t :: list_del l a
  end.

Definition sbi_ecall_unregister_extension (l : exts_list) (ext : option sbi_ecall_extension) : exts_list :=
  match ext with
  | None => l
  | Some ext =>
      let found := existsb (fun t => (t.(addr) =? ext.(addr))%nat) l in
      if found then list_del l ext.(addr) else l
  end.

Definition sbi_ecall_handler (l : exts_list) (regs : sbi_trap_regs) (s : St) : sbi_trap_regs * St :=
  let extension_id := regs.(a7) in
  let func_id := regs.(a6) in
  let '(ret, regs, out, s, is_0_1_spec) :=
    match sbi_ecall_find_extension l extension_id with
    | Some ext =>
        match ext.(handle) with
        | Some h =>
            let '(ret, regs, out, s) := h extension_id func_id regs s in
            (ret, regs, out, s,
             (SBI_EXT_0_1_SET_TIMER <=? extension_id) && (extension_id <=? SBI_EXT_0_1_SHUTDOWN))
        | None => (SBI_ENOTSUPP, regs, Out false 0, s, false)
        end
    | None => (SBI_ENOTSUPP, regs, Out false 0, s, false)
    end in
  if out.(skip_regs_update) then (regs, s)
  else
    let ret := if (ret <? SBI_LAST_ERR) || (negb (extension_id =? SBI_EXT_0_1_CONSOLE_GETCHAR) && (SBI_SUCCESS <? ret))
               then SBI_ERR_FAILED else ret in
    (Regs (u64 (regs.(mepc) + 4)) (u64 ret) (if is_0_1_spec then regs.(a1) else out.(value))
       regs.(a2) regs.(a3) regs.(a4) regs.(a5) regs.(a6) regs.(a7), s).

(** A [register_extensions] callback that checks [avail] and registers [ext]. *)
Definition register_if (avail : bool) (ext : sbi_ecall_extension) (l : exts_list) : Z * exts_list :=
  if avail then sbi_ecall_register_extension l (Some ext) else (0, l).

(** [sbi_ecall_exts]; a null callback is [None]. *)
Fixpoint sbi_ecall_init (cbs : list (option (exts_list -> Z * exts_list))) (l : exts_list) : Z * exts_list :=
  match cbs with
  | [] => (0, l)
  | cb :: cbs =>
      let '(ret, l) := match cb with Some f => f l | None => (SBI_ENODEV, l) end in
      if negb (ret =? 0) then (ret, l) else sbi_ecall_init cbs l
  end.

(** ** The base extension *)

Definition sbi_ecall_base_probe (l : exts_list) (extid : Z) : Z * Z :=
  match sbi_ecall_find_extension l extid with
  | None => (0, 0)
  | Some ext => match ext.(probe) with Some f => f extid | None => (0, 1) end
  end.

(** The ids of the hart are [mvendorid], [marchid] and [mimpid]. *)
Definition sbi_ecall_base_handler (l : exts_list) (impid mvendorid marchid mimpid funcid : Z) (regs : sbi_trap_regs) : Z * Z :=
  if funcid =? 0x0 then
    (0, Z.lor (Z.land (Z.shiftl SBI_ECALL_VERSION_MAJOR SBI_SPEC_VERSION_MAJOR_OFFSET)
                      (Z.shiftl SBI_SPEC_VERSION_MAJOR_MASK SBI_SPEC_VERSION_MAJOR_OFFSET)) SBI_ECALL_VERSION_MINOR)
  else if funcid =? 0x1 then (0, impid)
  else if funcid =? 0x2 then (0, OPENSBI_VERSION)
  else if funcid =? 0x4 then (0, mvendorid)
  else if funcid =? 0x5 then (0, marchid)
  else if funcid =? 0x6 then (0, mimpid)
  else if funcid =? 0x3 then sbi_ecall_base_probe l regs.(a0)
  else (SBI_ENOTSUPP, 0).

(** ** The registry *)

(** Each registered range is non-empty and has a handler, and no two meet. *)
Definition ext_wf (e : sbi_ecall_extension) : Prop := e.(extid_start) <= e.(extid_end) /\ is_Some e.(handle).
Definition disjoint_ext (e1 e2 : sbi_ecall_extension) : Prop := no_overlap e1 e2 = true.
Definition registry_wf (l : exts_list) : Prop :=
  Forall ext_wf l /\ forall i j e1 e2, l !! i = Some e1 -> l !! j = Some e2 -> i <> j -> disjoint_ext e1 e2.

Definition serves (e : sbi_ecall_extension) (extid : Z) : Prop := e.(extid_start) <= extid <= e.(extid_end).

Lemma disjoint_ext_sym e1 e2 : disjoint_ext e1 e2 -> disjoint_ext e2 e1.
Proof. unfold disjoint_ext, no_overlap. intros H. rewrite orb_comm. done. Qed.

Lemma disjoint_serves e1 e2 x : disjoint_ext e1 e2 -> serves e1 x -> serves e2 x -> False.
Proof. unfold disjoint_ext, no_overlap, serves. lia. Qed.

Lemma find_extension_Some l x e : sbi_ecall_find_extension l x = Some e -> e ∈ l /\ serves e x.
Proof.
  induction l as [|t l IH]; cbn [sbi_ecall_find_extension]; [done|].
  destruct (_ && _) eqn:E; [|intros H; destruct (IH H); split; [by right|done]].
  intros [= <-]. split; [by left|]. unfold serves. lia.
Qed.

Lemma find_extension_None l x : sbi_ecall_find_extension l x = None <-> forall e, e ∈ l -> ~ serves e x.
Proof.
  induction l as [|t l IH]; cbn [sbi_ecall_find_extension]; [split; [intros _ e []%not_elem_of_nil|done]|].
  destruct (_ && _) eqn:E.
  - split; [done|]. intros H. destruct (H t); [by left|]. unfold serves. lia.
  - rewrite IH. split; [|intros H e He; apply H; by right]. intros H e [->|He]%elem_of_cons; [unfold serves; lia|by apply H].
Qed.

Lemma find_extension_unique l x e : registry_wf l -> e ∈ l -> serves e x -> sbi_ecall_find_extension l x = Some e.
Proof.
  intros [_ Hd] He Hx. destruct (sbi_ecall_find_extension l x) as [e'|] eqn:E.
  - apply find_extension_Some in E as [He' Hx']. apply list_elem_of_lookup in He as [i Hi], He' as [j Hj].
    destruct (decide (i = j)) as [->|Hne]; [congruence|]. destruct (disjoint_serves e e' x); [by eapply Hd|done..].
  - rewrite find_extension_None in E. by destruct (E e He).
Qed.

Lemma register_spec l ext : registry_wf l ->
  let '(ret, l') := sbi_ecall_register_extension l (Some ext) in
  registry_wf l' /\
  ((ret = 0 /\ l' = l ++ [ext] /\ ext_wf ext /\ Forall (disjoint_ext ext) l) \/
   (ret = SBI_EINVAL /\ l' = l /\ (~ ext_wf ext \/ ~ Forall (disjoint_ext ext) l))).
Proof.
  intros Hwf. unfold sbi_ecall_register_extension.
  destruct ((extid_end ext <? extid_start ext) || _) eqn:E1.
  { split; [done|]. right. split_and!; [done..|]. left. intros [H1 H2]. rewrite bool_decide_eq_true_2 in E1 by done. cbn in E1. lia. }
  destruct (forallb (no_overlap ext) l) eqn:E2; cbn [negb].
  - assert (Forall (disjoint_ext ext) l) as Hall.
    { apply Forall_forall. intros x Hx. rewrite forallb_forall in E2. apply E2. by apply list_elem_of_In. }
    assert (ext_wf ext) as Hext.
    { apply orb_false_iff in E1 as [H1 H2]. apply negb_false_iff, bool_decide_eq_true in H2. split; [lia|done]. }
    split; [|by left]. destruct Hwf as [Hf Hd]. split; [apply Forall_app; split; [done|by apply Forall_singleton]|].
    intros i j e1 e2 Hi Hj Hne. rewrite !lookup_snoc_Some in *. destruct Hi as [[? Hi]|[? <-]], Hj as [[? Hj]|[? <-]]; try lia.
    + by eapply Hd.
    + apply disjoint_ext_sym. by eapply Forall_lookup_1 in Hi.
    + by eapply Forall_lookup_1 in Hj.
  - split; [done|]. right. split_and!; [done..|]. right. intros Hall. rewrite <- not_true_iff_false, forallb_forall in E2.
    apply E2. intros x Hx%list_elem_of_In. by eapply Forall_forall in Hall.
Qed.
End Registry.
Arguments sbi_ecall_extension : clear implicits.

(** ** The extensions of the library *)

Definition SBI_EXT_VENDOR_START : Z := 0x09000000.
Definition SBI_EXT_VENDOR_END : Z := 0x09FFFFFF.

Inductive extname :=
| E_time | E_rfence | E_ipi | E_base | E_hsm | E_srst | E_susp | E_pmu | E_dbcn | E_cppc | E_fwft | E_legacy
| E_vendor | E_dbtr | E_sse | E_mpxy.

Instance extname_eq_dec : EqDecision extname.
Proof. solve_decision. Defined.

Definition all_exts : list extname :=
  [E_time; E_rfence; E_ipi; E_base; E_hsm; E_srst; E_susp; E_pmu; E_dbcn; E_cppc; E_fwft; E_legacy; E_vendor; E_dbtr;
   E_sse; E_mpxy].

Definition sbi_ecall_vendor_id (mvendorid : Z) : Z :=
  SBI_EXT_VENDOR_START + Z.land mvendorid (SBI_EXT_VENDOR_END - SBI_EXT_VENDOR_START).

(** [extid_start] and [extid_end] when the extension registers itself. *)
Definition ext_range (mvendorid : Z) (n : extname) : Z * Z :=
  match n with
  | E_time => (0x54494D45, 0x54494D45) | E_rfence => (0x52464E43, 0x52464E43) | E_ipi => (0x735049, 0x735049)
  | E_base => (0x10, 0x10) | E_hsm => (0x48534D, 0x48534D) | E_srst => (0x53525354, 0x53525354)
  | E_susp => (0x53555350, 0x53555350) | E_pmu => (0x504D55, 0x504D55) | E_dbcn => (0x4442434E, 0x4442434E)
  | E_cppc => (0x43505043, 0x43505043) | E_fwft => (0x46574654, 0x46574654)
  | E_legacy => (SBI_EXT_0_1_SET_TIMER, SBI_EXT_0_1_SHUTDOWN)
  | E_vendor => (sbi_ecall_vendor_id mvendorid, sbi_ecall_vendor_id mvendorid)
  | E_dbtr => (0x44425452, 0x44425452) | E_sse => (0x535345, 0x535345) | E_mpxy => (0x4D505859, 0x4D505859)
  end.

Definition ext_experimental (n : extname) : bool :=
  match n with E_dbtr | E_fwft | E_sse | E_mpxy => true | _ => false end.

Definition ext_addr (n : extname) : nat := default 0%nat (fst <$> list_find (eq n) all_exts).

Section Table.
Context {St : Type} (hs : extname -> @handler St) (mvendorid : Z).

Definition ext_of (n : extname) : sbi_ecall_extension St :=
  Ext (ext_addr n) (ext_range mvendorid n).1 (ext_range mvendorid n).2 (ext_experimental n) None (Some (hs n)).

(** The callbacks of a build that contains the extensions [order], where [avail]
    says which find the device they need. *)
Definition ext_callbacks (avail : extname -> bool) (order : list extname) :=
  map (fun n => Some (register_if (avail n) (ext_of n))) order.

Lemma vendor_id_range : 0 <= mvendorid -> SBI_EXT_VENDOR_START <= sbi_ecall_vendor_id mvendorid <= SBI_EXT_VENDOR_END.
Proof.
  intros H. unfold sbi_ecall_vendor_id, SBI_EXT_VENDOR_START, SBI_EXT_VENDOR_END.
  change (0x09FFFFFF - 0x09000000) with (2 ^ 24 - 1). rewrite land_low by lia.
  pose proof (Z.mod_pos_bound mvendorid (2 ^ 24)). lia.
Qed.

Lemma ext_of_wf n : ext_wf (ext_of n).
Proof.
  split; [|done]. destruct n; cbn [ext_of ext_range extid_start extid_end fst snd];
    unfold SBI_EXT_0_1_SET_TIMER, SBI_EXT_0_1_SHUTDOWN; lia.
Qed.

Lemma ext_of_disjoint n1 n2 : 0 <= mvendorid -> n1 <> n2 -> disjoint_ext (ext_of n1) (ext_of n2).
Proof.
  intros Hv Hne. pose proof (vendor_id_range Hv) as Hr. unfold disjoint_ext, no_overlap, SBI_EXT_VENDOR_START, SBI_EXT_VENDOR_END in *.
  destruct n1, n2; try done; cbn [ext_of ext_range extid_start extid_end fst snd];
    unfold SBI_EXT_0_1_SET_TIMER, SBI_EXT_0_1_SHUTDOWN in *; lia.
Qed.

Lemma ecall_init_spec avail order : 0 <= mvendorid -> forall l done_,
  NoDup (done_ ++ order) -> l = map ext_of (filter (fun n => avail n = true) done_) -> registry_wf l ->
  let l' := map ext_of (filter (fun n => avail n = true) (done_ ++ order)) in
  sbi_ecall_init (ext_callbacks avail order) l = (0, l') /\ registry_wf l'.
Proof.
  intros Hv. induction order as [|n order IH]; intros l done_ Hnd -> Hwf; cbv zeta; cbn [ext_callbacks map sbi_ecall_init].
  { by rewrite app_nil_r. }
  assert ((done_ ++ [n]) ++ order = done_ ++ n :: order) as Eapp by by rewrite <- app_assoc.
  unfold register_if. destruct (avail n) eqn:En; cycle 1.
  { cbn [Z.eqb negb]. specialize (IH (map ext_of (filter (fun n => avail n = true) done_)) (done_ ++ [n])).
    rewrite Eapp in IH. apply IH; [done| |done]. rewrite filter_app, filter_cons_False, filter_nil, app_nil_r by congruence. done. }
  pose proof (register_spec (map ext_of (filter (fun n => avail n = true) done_)) (ext_of n) Hwf) as Hreg.
  destruct (sbi_ecall_register_extension _ _) as [ret l1]. destruct Hreg as [Hwf1 [(-> & -> & _)|(_ & _ & Hbad)]].
  - cbn [Z.eqb negb]. specialize (IH (map ext_of (filter (fun n => avail n = true) (done_ ++ [n]))) (done_ ++ [n])).
    rewrite Eapp in IH. rewrite filter_app, filter_cons_True, filter_nil, map_app in IH by done. by apply IH.
  - exfalso. destruct Hbad as [Hbad|Hbad]; [by apply Hbad, ext_of_wf|]. apply Hbad. apply Forall_forall.
    intros x (m & -> & Hm)%list_elem_of_fmap. apply list_elem_of_filter in Hm as [_ Hm].
    apply ext_of_disjoint; [done|]. intros ->. apply NoDup_app in Hnd as (_ & Hnd & _). apply (Hnd m Hm). by left.
Qed.
End Table.

(** The answer to a call no extension serves. *)
Definition not_supported (regs : sbi_trap_regs) : sbi_trap_regs :=
  Regs (u64 (regs.(mepc) + 4)) (u64 SBI_ENOTSUPP) 0 regs.(a2) regs.(a3) regs.(a4) regs.(a5) regs.(a6) regs.(a7).

(** The extensions of the library can always be registered together, and
    calls reach the right handler.  Whatever subset is built in, in whatever
    order, and whichever devices are present, [sbi_ecall_init] succeeds; the
    registered ranges are disjoint; the lookup of an id finds exactly the
    available extension whose range holds it; and a call whose id no available
    extension serves returns [SBI_ENOTSUPP] and value 0 after the ecall
    instruction, without touching the state. *)
Theorem ecall_dispatch {St : Type} (hs : extname -> @handler St) mvendorid avail order :
  0 <= mvendorid -> NoDup order ->
  exists l, sbi_ecall_init (ext_callbacks hs mvendorid avail order) [] = (0, l) /\ registry_wf l /\
    (forall n x, n ∈ order -> avail n = true -> serves (ext_of hs mvendorid n) x ->
       sbi_ecall_find_extension l x = Some (ext_of hs mvendorid n)) /\
    (forall regs s, (forall n, n ∈ order -> avail n = true -> ~ serves (ext_of hs mvendorid n) regs.(a7)) ->
       sbi_ecall_handler l regs s = (not_supported regs, s)).
Proof.
  intros Hv Hnd. destruct (ecall_init_spec hs mvendorid avail order Hv [] []) as [E Hwf]; [exact Hnd|reflexivity| |].
  { split; [constructor|]. by intros i j e1 e2 H. }
  cbn [app] in *. eexists. split; [exact E|]. split; [done|]. split.
  - intros n x Hn Ha Hx. apply find_extension_unique; [done| |done]. apply list_elem_of_fmap. exists n. split; [done|].
    by apply list_elem_of_filter.
  - intros regs s Hno. unfold sbi_ecall_handler. rewrite (proj2 (find_extension_None _ _)); [by destruct (a7 regs =? SBI_EXT_0_1_CONSOLE_GETCHAR)|].
    intros e (n & -> & Hn)%list_elem_of_fmap. apply list_elem_of_filter in Hn as [Ha Hn]. by apply Hno.
Qed.

Lemma ecall_dispatch_witness :
  exists l, sbi_ecall_init (ext_callbacks (St := unit) (fun _ _ _ r s => (0, r, Out false 5, s)) 0x489 (fun n => bool_decide (n <> E_cppc)) all_exts) []
      = (0, l) /\ sbi_ecall_find_extension l 0x48534D = Some (ext_of (fun _ _ _ r s => (0, r, Out false 5, s)) 0x489 E_hsm).
Proof.
  destruct (ecall_dispatch (St := unit) (fun _ _ _ r s => (0, r, Out false 5, s)) 0x489 (fun n => bool_decide (n <> E_cppc)) all_exts)
    as (l & E & _ & Hf & _).
  - lia.
  - apply (bool_decide_unpack _). vm_compute. exact I.
  - exists l. split; [exact E|]. apply Hf; [apply (bool_decide_unpack _); vm_compute; exact I|reflexivity|].
    unfold serves. cbn. lia.
Defined.

(** What a call returns.  Whatever its handler does, a call whose registers
    are to be updated comes back after the ecall instruction with an error code
    of the SBI specification in [a0] (a positive value only from the legacy
    console read), the value in [a1] (kept as the handler left it for legacy
    calls), and the other registers as the handler left them; when the handler
    asks for no update its registers are used as they are. *)
Theorem ecall_result {St : Type} (l : list (sbi_ecall_extension St)) ext h regs s ret regs1 out s1 :
  sbi_ecall_find_extension l regs.(a7) = Some ext -> ext.(handle) = Some h ->
  h regs.(a7) regs.(a6) regs s = (ret, regs1, out, s1) ->
  let '(regs', s') := sbi_ecall_handler l regs s in
  s' = s1 /\
  (out.(skip_regs_update) = true -> regs' = regs1) /\
  (out.(skip_regs_update) = false ->
     regs'.(mepc) = u64 (regs1.(mepc) + 4) /\
     (exists r, regs'.(a0) = u64 r /\ SBI_LAST_ERR <= r /\ (r <= SBI_SUCCESS \/ regs.(a7) = SBI_EXT_0_1_CONSOLE_GETCHAR) /\
        (SBI_LAST_ERR <= ret <= SBI_SUCCESS -> r = ret)) /\
     regs'.(a1) = (if (0 <=? regs.(a7)) && (regs.(a7) <=? 8) then regs1.(a1) else out.(value)) /\
     (regs'.(a2), regs'.(a3), regs'.(a4), regs'.(a5), regs'.(a6), regs'.(a7)) =
     (regs1.(a2), regs1.(a3), regs1.(a4), regs1.(a5), regs1.(a6), regs1.(a7))).
Proof.
  intros Hf Hh Hr. unfold sbi_ecall_handler. rewrite Hf, Hh, Hr. destruct (skip_regs_update out); [done|].
  split; [done|]. split; [done|]. intros _. split; [done|]. split; [|done].
  unfold SBI_LAST_ERR, SBI_SUCCESS, SBI_ERR_FAILED. eexists. split; [reflexivity|].
  destruct (_ || _) eqn:E; [lia|]. destruct (Z.eqb_spec (a7 regs) SBI_EXT_0_1_CONSOLE_GETCHAR) as [->|]; cbn [negb andb] in E.
  - split_and!; [lia|by right|done].
  - split_and!; [lia|left; lia|done].
Qed.

Lemma ecall_result_witness :
  let ext := Ext (St := unit) 0 0x10 0x10 false None (Some (fun _ _ r s => (5, r, Out false 9, s))) in
  exists r, (sbi_ecall_handler [ext] (Regs 100 1 2 3 4 5 6 0 0x10) tt).1.(a0) = u64 r /\ r <= SBI_SUCCESS.
Proof.
  intros ext.
  pose proof (ecall_result [ext] ext (fun _ _ r s => (5, r, Out false 9, s)) (Regs 100 1 2 3 4 5 6 0 0x10) tt
    5 (Regs 100 1 2 3 4 5 6 0 0x10) (Out false 9) tt eq_refl eq_refl eq_refl) as H.
  destruct (sbi_ecall_handler _ _ _) as [regs' s']. destruct H as (_ & _ & H). destruct (H eq_refl) as (_ & (r & E & _ & [H1|H1] & _) & _).
  - exists r. split; [exact E|exact H1].
  - discriminate H1.
Defined.
