(* ===== verification/Domain.v ===== *)
(** * Protection domains of OpenSBI (sbi_domain.c, sbi_domain.h), 64-bit.

    A domain is a list of naturally aligned power-of-two memory regions (the
    array up to its terminator) with hart masks and the next booting stage.
    [shl64] stands for the value of [1UL << 64], which C leaves undefined and
    [BIT(64)] evaluates: on RISC-V the shift takes the amount modulo 64 and the
    value is 1; the arithmetic of the source is right for 0. *)

From stdpp Require Import sorting.
From S2P Require Import Prelude SbiTypes Bitops Hartmask.

Local Open Scope Z_scope.

Definition SBI_DOMAIN_READ : Z := 1.
Definition SBI_DOMAIN_WRITE : Z := 2.
Definition SBI_DOMAIN_EXECUTE : Z := 4.
Definition SBI_DOMAIN_MMIO : Z := 8.

Definition SBI_DOMAIN_MEMREGION_M_READABLE : Z := 1.
Definition SBI_DOMAIN_MEMREGION_M_WRITABLE : Z := 2.
Definition SBI_DOMAIN_MEMREGION_M_EXECUTABLE : Z := 4.
Definition SBI_DOMAIN_MEMREGION_SU_READABLE : Z := 8.
Definition SBI_DOMAIN_MEMREGION_SU_WRITABLE : Z := 16.
Definition SBI_DOMAIN_MEMREGION_SU_EXECUTABLE : Z := 32.
Definition SBI_DOMAIN_MEMREGION_M_ACCESS_MASK : Z := 0x7.
Definition SBI_DOMAIN_MEMREGION_SU_ACCESS_MASK : Z := 0x38.
Definition SBI_DOMAIN_MEMREGION_SU_ACCESS_SHIFT : Z := 3.
Definition SBI_DOMAIN_MEMREGION_MMIO : Z := 2 ^ 31.

Record sbi_domain_memregion := Region { order : Z; base : Z; flags : Z }.

(** The fields the modelled functions use; a null pointer is [None]. *)
Record sbi_domain := Dom {
  assigned_harts : sbi_hartmask;
  possible_harts : option sbi_hartmask;
  regions : option (list sbi_domain_memregion);
  next_arg1 : Z;
  next_addr : Z;
  next_mode : Z;
  fw_region_inited : bool;
}.

(** [sbi_domain_for_each_memregion] *)
Definition memregions (dom : sbi_domain) : list sbi_domain_memregion := default [] dom.(regions).

(** ** Regions *)

(** The loop of [sbi_domain_memregion_init] from [order]. *)
Fixpoint memregion_loop (fuel : nat) (addr size ord : Z) : Z * Z :=
  match fuel with
  | O => (0, ord)
  | S fuel =>
      if ord <=? riscv_xlen then
        if ord <? riscv_xlen then
          let b := Z.land addr (u64 (Z.lnot (Z.shiftl 1 ord - 1))) in
          let last := u64 (addr + size - 1) in
          if (b <=? addr) && (addr <? u64 (b + Z.shiftl 1 ord)) && (b <=? last)
             && (last <? u64 (b + Z.shiftl 1 ord))
          then (b, ord) else memregion_loop fuel addr size (ord + 1)
        else (0, ord)
      else (0, ord)
  end.

Definition sbi_domain_memregion_init (addr size fl : Z) : sbi_domain_memregion :=
  let '(b, ord) := memregion_loop 66 addr size (log2roundup size) in Region ord b fl.

(** The last address of a region. *)
Definition rend (reg : sbi_domain_memregion) : Z :=
  if reg.(order) <? riscv_xlen then u64 (reg.(base) + (Z.shiftl 1 reg.(order) - 1)) else u64 (-1).

Definition in_region (reg : sbi_domain_memregion) (addr : Z) : bool :=
  (reg.(base) <=? addr) && (addr <=? rend reg).

Definition is_region_valid (reg : sbi_domain_memregion) : bool :=
  if (reg.(order) <? 3) || (riscv_xlen <? reg.(order)) then false
  else if (reg.(order) =? riscv_xlen) && negb (reg.(base) =? 0) then false
  else if (reg.(order) <? riscv_xlen) && negb (Z.land reg.(base) (Z.shiftl 1 reg.(order) - 1) =? 0) then false
  else true.

Definition is_region_before (regA regB : sbi_domain_memregion) : bool :=
  if regA.(order) <? regB.(order) then true
  else (regA.(order) =? regB.(order)) && (regA.(base) <? regB.(base)).

(** ** Access checks *)

(** The permission bits an access asks for. *)
Definition access_rwx (access_flags : Z) : Z :=
  let has f := negb (Z.land access_flags f =? 0) in
  Z.lor (Z.lor (if has SBI_DOMAIN_READ then SBI_DOMAIN_MEMREGION_M_READABLE else 0)
               (if has SBI_DOMAIN_WRITE then SBI_DOMAIN_MEMREGION_M_WRITABLE else 0))
        (if has SBI_DOMAIN_EXECUTE then SBI_DOMAIN_MEMREGION_M_EXECUTABLE else 0).

(** What a region grants to the mode. *)
Definition region_rwx (reg : sbi_domain_memregion) (mode : Z) : Z :=
  if mode =? PRV_M then Z.land reg.(flags) SBI_DOMAIN_MEMREGION_M_ACCESS_MASK
  else Z.shiftr (Z.land reg.(flags) SBI_DOMAIN_MEMREGION_SU_ACCESS_MASK) SBI_DOMAIN_MEMREGION_SU_ACCESS_SHIFT.

(** The verdict of the first region that holds the address. *)
Definition region_allows (reg : sbi_domain_memregion) (mode access_flags : Z) : bool :=
  let mmio := negb (Z.land access_flags SBI_DOMAIN_MMIO =? 0) in
  let rmmio := negb (Z.land reg.(flags) SBI_DOMAIN_MEMREGION_MMIO =? 0) in
  let rwx := access_rwx access_flags in
  if negb (Bool.eqb mmio rmmio) then false else Z.land (region_rwx reg mode) rwx =? rwx.

Fixpoint check_regions (regs : list sbi_domain_memregion) (addr mode access_flags : Z) : bool :=
  match regs with
  | [] => mode =? PRV_M
  | reg :: regs => if in_region reg addr then region_allows reg mode access_flags
                   else check_regions regs addr mode access_flags
  end.

Definition sbi_domain_check_addr (dom : option sbi_domain) (addr mode access_flags : Z) : bool :=
  match dom with
  | None => false
  | Some dom => check_regions (memregions dom) addr mode access_flags
  end.

(** A region and its place in the array, which is its address. *)
Definition find_region (dom : sbi_domain) (addr : Z) : option (nat * sbi_domain_memregion) :=
  list_find (fun reg => in_region reg addr = true) (memregions dom).

Section Shl64.
Context (shl64 : Z).

Definition BIT (nr : Z) : Z := if nr <? 64 then Z.shiftl 1 nr else shl64.

Definition is_region_subset (regA regB : sbi_domain_memregion) : bool :=
  let regA_start := regA.(base) in
  let regA_end := u64 (regA.(base) + (BIT regA.(order) - 1)) in
  let regB_start := regB.(base) in
  let regB_end := u64 (regB.(base) + (BIT regB.(order) - 1)) in
  (regB_start <=? regA_start) && (regA_start <? regB_end) && (regB_start <? regA_end) && (regA_end <=? regB_end).

Definition is_region_compatible (regA regB : sbi_domain_memregion) : bool :=
  is_region_subset regA regB && (regA.(flags) =? regB.(flags)).

(** The loop of [find_next_subset_region] over the array from index [k]. *)
Fixpoint next_subset (sregs : list sbi_domain_memregion) (k : nat) (reg : nat * sbi_domain_memregion) (addr : Z)
    (ret : option sbi_domain_memregion) : option sbi_domain_memregion :=
  match sregs with
  | [] => ret
  | sreg :: sregs =>
      let ret :=
        if (k =? reg.1)%nat || (sreg.(base) <=? addr) || negb (is_region_subset sreg reg.2) then ret
        else match ret with
             | None => Some sreg
             | Some r => if (sreg.(base) <? r.(base)) || ((sreg.(base) =? r.(base)) && (sreg.(order) <? r.(order)))
                         then Some sreg else Some r
             end in
      next_subset sregs (S k) reg addr ret
  end.

Definition find_next_subset_region (dom : sbi_domain) (reg : nat * sbi_domain_memregion) (addr : Z)
    : option sbi_domain_memregion :=
  next_subset (memregions dom) 0 reg addr None.

(** One iteration of the loop of [sbi_domain_check_addr_range]. *)
Definition range_body (dom : sbi_domain) (max mode access_flags : Z) (addr : Z) : option (Z + bool) :=
  if addr <? max then
    match find_region dom addr with
    | None => Some (inr false)
    | Some (k, reg) =>
        if negb (sbi_domain_check_addr (Some dom) addr mode access_flags) then Some (inr false)
        else
          match find_next_subset_region dom (k, reg) addr with
          | Some sreg => Some (inl sreg.(base))
          | None => if reg.(order) <? riscv_xlen then Some (inl (u64 (reg.(base) + Z.shiftl 1 reg.(order))))
                    else Some (inr true)
          end
    end
  else Some (inr true).

Definition sbi_domain_check_addr_range (fuel : nat) (dom : option sbi_domain) (addr size mode access_flags : Z)
    : option bool :=
  match dom with
  | None => Some false
  | Some dom => loop (range_body dom (u64 (addr + size)) mode access_flags) fuel addr
  end.

(** ** Sanitizing a domain *)

(** The inner loop of the sort: [reg] is compared with the regions after it. *)
Fixpoint sort_inner (reg : sbi_domain_memregion) (l : list sbi_domain_memregion)
    : sbi_domain_memregion * list sbi_domain_memregion :=
  match l with
  | [] => (reg, [])
  | reg1 :: l =>
      if is_region_before reg1 reg
      then let '(m, l) := sort_inner reg1 l in (m, reg :: l)
      else let '(m, l) := sort_inner reg l in (m, reg1 :: l)
  end.

Fixpoint sort_regions (count : nat) (l : list sbi_domain_memregion) : list sbi_domain_memregion :=
  match count, l with
  | S count, reg :: l => let '(m, l) := sort_inner reg l in m :: sort_regions count l
  | _, _ => l
  end.

(** [while (i < (count - 1))]: a region covered by a later one is removed. *)
Fixpoint remove_covered (fuel i : nat) (l : list sbi_domain_memregion) : list sbi_domain_memregion :=
  match fuel with
  | O => l
  | S fuel =>
      if (i <? length l - 1)%nat then
        match l !! i with
        | None => l
        | Some reg =>
            if existsb (is_region_compatible reg) (drop (S i) l)
            then remove_covered fuel i (take i l ++ drop (S i) l)
            else remove_covered fuel (S i) l
        end
      else l
  end.

(** [hartindex_valid] stands for [sbi_hartindex_valid] of the platform.  The
    sort leaves [i] at [count - 1], where the removal starts. *)
Definition sanitize_domain (hartindex_valid : Z -> bool) (dom : sbi_domain) : Z * sbi_domain :=
  match dom.(possible_harts) with
  | None => (SBI_EINVAL, dom)
  | Some harts =>
      match sbi_hartmask_for_each_hartindex harts with
      | None => (SBI_EINVAL, dom)
      | Some is_ =>
          if negb (forallb hartindex_valid is_) then (SBI_EINVAL, dom)
          else
            match dom.(regions) with
            | None => (SBI_EINVAL, dom)
            | Some regs =>
                if negb (forallb is_region_valid regs) then (SBI_EINVAL, dom)
                else if negb dom.(fw_region_inited) then (SBI_EINVAL, dom)
                else
                  let count := length regs in
                  let regs := sort_regions count regs in
                  let regs := remove_covered (2 * count) (count - 1) regs in
                  let dom := Dom dom.(assigned_harts) dom.(possible_harts) (Some regs) dom.(next_arg1)
                                 dom.(next_addr) dom.(next_mode) dom.(fw_region_inited) in
                  if negb (dom.(next_mode) =? PRV_S) && negb (dom.(next_mode) =? PRV_U) then (SBI_EINVAL, dom)
                  else if negb (sbi_domain_check_addr (Some dom) dom.(next_addr) dom.(next_mode) SBI_DOMAIN_EXECUTE)
                  then (SBI_EINVAL, dom)
                  else (SBI_OK, dom)
            end
      end
  end.
End Shl64.

(** ** Aligned regions *)

Definition region_wf (r : sbi_domain_memregion) : Prop := is_region_valid r = true /\ in_range 64 r.(base).

Lemma shl1 n : 0 <= n -> Z.shiftl 1 n = 2 ^ n.
Proof. intros. rewrite Z.shiftl_mul_pow2 by lia. lia. Qed.

Lemma pow2_le m n : 0 <= m <= n -> 2 ^ m <= 2 ^ n.
Proof. intros. apply Z.pow_le_mono_r; lia. Qed.

(** A valid region is an aligned block that ends inside the address space. *)
Lemma region_wf_spec r : region_wf r ->
  3 <= r.(order) <= 64 /\ 0 <= r.(base) /\ r.(base) `mod` 2 ^ r.(order) = 0 /\
  r.(base) + 2 ^ r.(order) <= 2 ^ 64 /\ rend r = r.(base) + 2 ^ r.(order) - 1 /\ 8 <= 2 ^ r.(order).
Proof.
  intros [Hv Hb]. unfold is_region_valid, riscv_xlen in Hv. unfold rend, riscv_xlen.
  destruct ((order r <? 3) || (64 <? order r)) eqn:E1; [done|].
  assert (3 <= order r <= 64) as Ho by lia. rewrite shl1 in * by lia.
  pose proof (pow2_le 3 (order r) ltac:(lia)) as H8. change (2 ^ 3) with 8 in H8.
  destruct (Z.ltb_spec (order r) 64) as [Hlt|Hge].
  - assert ((order r =? 64) = false) as E2 by lia. rewrite E2 in Hv. cbn [andb] in Hv.
    rewrite land_low in Hv by lia. destruct (Z.eqb_spec (base r `mod` 2 ^ order r) 0) as [Hm|]; [|done].
    unfold in_range in Hb.
    assert (2 ^ 64 = 2 ^ (64 - order r) * 2 ^ order r) as Ep by (rewrite <- Z.pow_add_r by lia; f_equal; lia).
    apply Z.mod_divide in Hm as [k Hk]; [|lia].
    assert (base r + 2 ^ order r <= 2 ^ 64) as Hend.
    { assert (k < 2 ^ (64 - order r)) by nia. nia. }
    split_and!; try lia; [rewrite Hk; apply Z.mod_mul; lia|].
    rewrite wrap_small by (unfold in_range; lia). lia.
  - assert (order r = 64) as E by lia. rewrite E in *. cbn [Z.eqb Pos.eqb andb] in Hv.
    destruct (Z.eqb_spec (base r) 0) as [E0|]; [|done]. rewrite E0. done.
Qed.

Lemma in_region_spec r a : region_wf r -> in_region r a = true <-> r.(base) <= a < r.(base) + 2 ^ r.(order).
Proof. intros Hr. destruct (region_wf_spec r Hr) as (_ & _ & _ & _ & E & _). unfold in_region. lia. Qed.

(** The base of an aligned block that holds [a] is [a] rounded down. *)
Lemma block_base r a : region_wf r -> in_region r a = true -> r.(base) = a / 2 ^ r.(order) * 2 ^ r.(order).
Proof.
  intros Hr Ha%in_region_spec; [|done]. destruct (region_wf_spec r Hr) as (Ho & _ & Hm & _ & _ & H8).
  apply Z.mod_divide in Hm as [k Hk]; [|lia]. rewrite Hk. f_equal.
  apply Z.div_unique with (a - k * 2 ^ order r); lia.
Qed.

(** Two blocks that share an address are nested. *)
Lemma blocks_nested r1 r2 a :
  region_wf r1 -> region_wf r2 -> r1.(order) <= r2.(order) -> in_region r1 a = true -> in_region r2 a = true ->
  r2.(base) <= r1.(base) /\ r1.(base) + 2 ^ r1.(order) <= r2.(base) + 2 ^ r2.(order).
Proof.
  intros H1 H2 Hle Ha1 Ha2. rewrite (block_base r1 a H1 Ha1), (block_base r2 a H2 Ha2).
  destruct (region_wf_spec r1 H1) as (Ho1 & _ & _ & _ & _ & P1).
  set (o1 := order r1) in *. set (o2 := order r2) in *.
  assert (2 ^ o2 = 2 ^ o1 * 2 ^ (o2 - o1)) as E by (rewrite <- Z.pow_add_r by lia; f_equal; lia).
  pose proof (pow2_pos (o2 - o1) ltac:(lia)) as Hd. set (d := 2 ^ (o2 - o1)) in *.
  rewrite E, <- Z.div_div by lia. set (q := a / 2 ^ o1).
  pose proof (Z.div_mod q d ltac:(lia)). pose proof (Z.mod_pos_bound q d Hd). nia.
Qed.

(** ** [sbi_domain_memregion_init] *)

Lemma log2roundup_loop_spec fuel x : forall ret,
  0 <= ret <= 64 -> (Z.to_nat (64 - ret) <= fuel)%nat -> (forall r, 0 <= r < ret -> 2 ^ r < x) ->
  let n := log2roundup_loop fuel x ret in
  ret <= n <= 64 /\ (n < 64 -> x <= 2 ^ n) /\ (forall r, 0 <= r < n -> 2 ^ r < x).
Proof.
  induction fuel as [|fuel IH]; intros ret Hr Hf Hl; cbn [log2roundup_loop]; [split_and!; try lia; done|].
  unfold riscv_xlen. destruct (Z.ltb_spec ret 64); [|split_and!; try lia; done].
  rewrite shl1 by lia. destruct (Z.leb_spec x (2 ^ ret)); [split_and!; try lia; done|].
  destruct (IH (ret + 1)) as (H1 & H2 & H3); [lia|lia| |].
  - intros r Hr'. destruct (decide (r = ret)) as [->|]; [done|]. apply Hl. lia.
  - cbv zeta. split_and!; try lia; done.
Qed.

Lemma log2roundup_spec x :
  0 <= log2roundup x <= 64 /\ (log2roundup x < 64 -> x <= 2 ^ log2roundup x) /\
  (forall r, 0 <= r < log2roundup x -> 2 ^ r < x).
Proof. apply log2roundup_loop_spec; lia. Qed.

(** An aligned block of [2 ^ ord] bytes that holds [addr, addr + size). *)
Definition covers (b ord addr size : Z) : Prop :=
  0 <= b /\ b `mod` 2 ^ ord = 0 /\ b <= addr /\ addr + size <= b + 2 ^ ord.

Lemma covers_base b ord addr size :
  0 <= ord -> 1 <= size -> covers b ord addr size -> b = addr / 2 ^ ord * 2 ^ ord.
Proof.
  intros Ho Hs (Hb & Hm & H1 & H2). pose proof (pow2_pos ord Ho). apply Z.mod_divide in Hm as [k Hk]; [|lia].
  rewrite Hk. f_equal. apply Z.div_unique with (addr - k * 2 ^ ord); lia.
Qed.

Lemma round_down addr ord : in_range 64 addr -> 0 <= ord < 64 ->
  Z.land addr (u64 (Z.lnot (Z.shiftl 1 ord - 1))) = addr / 2 ^ ord * 2 ^ ord.
Proof.
  intros Ha Ho. rewrite shl1 by lia. pose proof (pow2_pos ord ltac:(lia)).
  transitivity (Z.land addr (Z.lnot (2 ^ ord - 1))).
  - zbits i Hi. case_bool_decide; [done|]. by rewrite (testbit_above 64 addr) by (done || lia).
  - rewrite land_lnot_ones by lia. pose proof (Z.div_mod addr (2 ^ ord)). lia.
Qed.

Lemma memregion_loop_spec fuel addr size : forall ord,
  in_range 64 addr -> 1 <= size -> addr + size <= 2 ^ 64 -> 0 <= ord <= 64 ->
  (Z.to_nat (64 - ord) < fuel)%nat ->
  (forall o b, 0 <= o < ord -> covers b o addr size -> 2 ^ 64 <= b + 2 ^ o) ->
  let '(b, n) := memregion_loop fuel addr size ord in
  0 <= n <= 64 /\ covers b n addr size /\
  (forall o b', 0 <= o -> covers b' o addr size -> b' + 2 ^ o < 2 ^ 64 -> n <= o).
Proof.
  induction fuel as [|fuel IH]; intros ord Ha Hs He Ho Hf Hmin; [lia|]. cbn [memregion_loop]. unfold riscv_xlen.
  destruct (Z.leb_spec ord 64); [|lia]. unfold in_range in Ha.
  assert (Hmin' : forall o b', 0 <= o -> covers b' o addr size -> b' + 2 ^ o < 2 ^ 64 -> ord <= o).
  { intros o b' Ho' Hc Hb'. destruct (decide (o < ord)) as [Hlt|]; [|lia].
    pose proof (Hmin o b' ltac:(lia) Hc). lia. }
  destruct (Z.ltb_spec ord 64) as [Hlt|Hge].
  - cbv zeta. rewrite round_down, shl1, (wrap_small 64 (addr + size - 1)) by (unfold in_range; lia).
    pose proof (pow2_pos ord ltac:(lia)) as Hp. set (b := addr / 2 ^ ord * 2 ^ ord).
    assert (0 <= b <= addr) as Hb.
    { unfold b. pose proof (Z.div_mod addr (2 ^ ord)). pose proof (Z.mod_pos_bound addr (2 ^ ord)).
      pose proof (Z.div_pos addr (2 ^ ord)). nia. }
    assert (b + 2 ^ ord <= 2 ^ 64) as Hbe.
    { assert (2 ^ 64 = 2 ^ (64 - ord) * 2 ^ ord) as Ep by (rewrite <- Z.pow_add_r by lia; f_equal; lia).
      unfold b in *. assert (addr / 2 ^ ord < 2 ^ (64 - ord)) by nia. nia. }
    destruct (_ && _ && _ && _) eqn:Ec.
    + rewrite !andb_true_iff in Ec. destruct Ec as [[[_ C1] _] C2].
      split; [lia|]. split; [|done]. split_and!; [lia|unfold b; apply Z.mod_mul; lia|lia|].
      destruct (decide (b + 2 ^ ord = 2 ^ 64)) as [E|]; [lia|].
      rewrite wrap_small in C2 by (unfold in_range; lia). lia.
    + apply IH; [unfold in_range; lia|done|done|lia|lia|]. intros o b' Ho' Hc.
      destruct (decide (2 ^ 64 <= b' + 2 ^ o)) as [|Hlo]; [done|exfalso].
      assert (ord <= o) by (apply (Hmin' o b'); [lia|done|lia]). assert (o = ord) as -> by lia.
      pose proof (covers_base b' ord addr size ltac:(lia) Hs Hc) as Eb. fold b in Eb. subst b'.
      destruct Hc as (_ & _ & _ & Hc2). rewrite wrap_small in Ec by (unfold in_range; lia). lia.
  - assert (ord = 64) as -> by lia. split; [lia|]. split; [|done]. split_and!; [lia|done|lia|lia].
Qed.

(** ** Sorting the regions *)

(** [is_region_before] is the strict part of this order. *)
Definition region_le (r1 r2 : sbi_domain_memregion) : Prop := is_region_before r2 r1 = false.

Lemma region_le_spec r1 r2 :
  region_le r1 r2 <-> r1.(order) < r2.(order) \/ (r1.(order) = r2.(order) /\ r1.(base) <= r2.(base)).
Proof. unfold region_le, is_region_before. case_match; lia. Qed.

Lemma region_le_trans r1 r2 r3 : region_le r1 r2 -> region_le r2 r3 -> region_le r1 r3.
Proof. rewrite !region_le_spec. lia. Qed.

Lemma sort_inner_spec reg l : forall m l',
  sort_inner reg l = (m, l') ->
  m :: l' ≡ₚ reg :: l /\ region_le m reg /\ Forall (region_le m) l' /\ length l' = length l.
Proof.
  revert reg. induction l as [|reg1 l IH]; intros reg m l' E; cbn [sort_inner] in E.
  - simplify_eq. split_and!; [done|apply region_le_spec; lia|constructor|done].
  - destruct (is_region_before reg1 reg) eqn:Eb.
    + destruct (sort_inner reg1 l) as [m1 l1] eqn:E1. simplify_eq.
      destruct (IH _ _ _ E1) as (Hp & Hle & Hall & Hlen).
      assert (region_le m reg) as Hmr.
      { eapply region_le_trans; [done|]. apply region_le_spec. unfold is_region_before in Eb. case_match; lia. }
      split_and!; [by rewrite Permutation_swap, Hp|done|by constructor|simpl; lia].
    + destruct (sort_inner reg l) as [m1 l1] eqn:E1. simplify_eq.
      destruct (IH _ _ _ E1) as (Hp & Hle & Hall & Hlen).
      split_and!; [rewrite Permutation_swap, Hp; apply Permutation_swap|done|..|simpl; lia].
      constructor; [|done]. by eapply region_le_trans.
Qed.

Lemma sort_regions_spec n : forall l, length l = n ->
  sort_regions n l ≡ₚ l /\ StronglySorted region_le (sort_regions n l).
Proof.
  induction n as [|n IH]; intros [|reg l] Hl; simplify_eq/=; [split; [done|constructor]|].
  destruct (sort_inner reg l) as [m l'] eqn:E. destruct (sort_inner_spec _ _ _ _ E) as (Hp & _ & Hall & Hlen).
  destruct (IH l' Hlen) as [Hp' Hs]. split; [by rewrite Hp'|].
  constructor; [done|]. by rewrite Hp'.
Qed.

(** The removal starts where it stops. *)
Lemma remove_covered_end shl64 fuel i l : (length l - 1 <= i)%nat -> remove_covered shl64 fuel i l = l.
Proof.
  intros Hi. destruct fuel as [|fuel]; cbn [remove_covered]; [done|].
  destruct (Nat.ltb_spec i (length l - 1)); [lia|done].
Qed.

(** Where the order matters: the first region that holds an address is one of
    the smallest that do. *)
Lemma sorted_first dom a k reg :
  StronglySorted region_le (memregions dom) -> find_region dom a = Some (k, reg) ->
  memregions dom !! k = Some reg /\ in_region reg a = true /\
  forall r, r ∈ memregions dom -> in_region r a = true -> region_le reg r.
Proof.
  unfold find_region. intros Hs (Hk & Hin & Hbefore)%list_find_Some. split_and!; [done..|].
  intros r [j Hj]%list_elem_of_lookup Hr. destruct (decide (j < k)%nat) as [Hlt|].
  - by destruct (Hbefore j r Hj Hlt).
  - destruct (decide (j = k)) as [->|]; [simplify_eq; apply region_le_spec; lia|].
    rewrite <- (take_drop (S k) (memregions dom)) in Hs. eapply StronglySorted_app_1_elem_of; [done|..].
    + apply list_elem_of_lookup. exists k. by rewrite lookup_take_lt by lia.
    + apply list_elem_of_lookup. exists (j - S k)%nat. rewrite lookup_drop. by replace (S k + (j - S k))%nat with j by lia.
Qed.

(** ** The range check *)

(** Valid regions, smallest first, as [sanitize_domain] leaves them, none of
    which ends at the top of the address space unless it is all of it. *)
Definition regions_wf (regs : list sbi_domain_memregion) : Prop :=
  Forall region_wf regs /\ StronglySorted region_le regs /\
  Forall (fun r => r.(order) < 64 -> r.(base) + 2 ^ r.(order) < 2 ^ 64) regs.

(** [BIT(64)] is 0, or there is no region of all memory for it to be evaluated on. *)
Definition bit64_ok (shl64 : Z) (regs : list sbi_domain_memregion) : Prop := shl64 = 0 \/ Forall (fun r => r.(order) < 64) regs.

Lemma is_region_subset_spec shl64 r1 r2 : bit64_ok shl64 [r1; r2] -> region_wf r1 -> region_wf r2 ->
  is_region_subset shl64 r1 r2 = true <->
  r2.(base) <= r1.(base) /\ r1.(base) + 2 ^ r1.(order) <= r2.(base) + 2 ^ r2.(order).
Proof.
  assert (forall r, shl64 = 0 \/ order r < 64 -> region_wf r -> u64 (base r + (BIT shl64 (order r) - 1)) = base r + 2 ^ order r - 1) as He.
  { intros r H64 Hr. destruct (region_wf_spec r Hr) as (Ho & Hb & _ & He & _ & H8). unfold BIT.
    destruct (Z.ltb_spec (order r) 64).
    - rewrite shl1 by lia. rewrite wrap_small; [lia|unfold in_range; lia].
    - assert (order r = 64) as E by lia. destruct H64 as [-> |]; [|lia]. rewrite E in *. assert (base r = 0) as -> by lia. done. }
  intros H64 H1 H2. assert ((shl64 = 0 \/ order r1 < 64) /\ (shl64 = 0 \/ order r2 < 64)) as [Ha Hb].
  { destruct H64 as [->|H64]; [by split; left|]. apply Forall_cons in H64 as [Ha Hb]. apply Forall_cons in Hb as [Hb _]. split; by right. }
  unfold is_region_subset. cbv zeta. rewrite (He r1 Ha H1), (He r2 Hb H2).
  destruct (region_wf_spec r1 H1) as (_ & _ & _ & _ & _ & P1).
  destruct (region_wf_spec r2 H2) as (_ & _ & _ & _ & _ & P2). lia.
Qed.

Lemma bit64_pair shl64 regs j k r1 r2 : bit64_ok shl64 regs -> regs !! j = Some r1 -> regs !! k = Some r2 -> bit64_ok shl64 [r1; r2].
Proof.
  intros [->|H] Hj Hk; [by left|]. right. rewrite Forall_lookup in H. repeat (apply Forall_cons; split); [by eapply H|by eapply H|by apply Forall_nil].
Qed.

Section Range.
Context (shl64 : Z).
Local Set Default Proof Using "Type".

(** The candidates of [find_next_subset_region]. *)
Definition candidate (reg : nat * sbi_domain_memregion) (addr : Z) (k : nat) (s : sbi_domain_memregion) : Prop :=
  k <> reg.1 /\ addr < s.(base) /\ is_region_subset shl64 s reg.2 = true.

Lemma next_subset_spec sregs reg addr : forall k ret,
  let res := next_subset shl64 sregs k reg addr ret in
  (forall s, res = Some s -> ret = Some s \/ exists j, sregs !! j = Some s /\ candidate reg addr (k + j) s) /\
  (forall s, ret = Some s -> exists t, res = Some t /\ t.(base) <= s.(base)) /\
  (forall j s, sregs !! j = Some s -> candidate reg addr (k + j) s -> exists t, res = Some t /\ t.(base) <= s.(base)).
Proof.
  induction sregs as [|sreg sregs IH]; intros k ret; cbn [next_subset].
  { cbv zeta. split_and!; [by left|intros s ->; eexists; split; [done|lia]|done]. }
  match goal with |- context [next_subset shl64 sregs (S k) reg addr ?r] => set (ret' := r) end.
  destruct (IH (S k) ret') as (H1 & H2 & H3). cbv zeta.
  assert (Hret : (forall s, ret' = Some s -> ret = Some s \/ (s = sreg /\ candidate reg addr k sreg)) /\
                 (forall s, ret = Some s -> exists t, ret' = Some t /\ t.(base) <= s.(base)) /\
                 (candidate reg addr k sreg -> exists t, ret' = Some t /\ t.(base) <= sreg.(base))).
  { clear H1 H2 H3. subst ret'. unfold candidate. destruct (Nat.eqb_spec k reg.1), (Z.leb_spec (base sreg) addr),
      (is_region_subset shl64 sreg reg.2); cbn [orb negb].
    8: by split_and!; intros; [left|eexists; split; [done|lia]|destruct_and!].
    7: { destruct ret as [r|]; [|split_and!; intros; simplify_eq; [by right|eexists; split; [done|lia]]].
         destruct ((base sreg <? base r) || ((base sreg =? base r) && (order sreg <? order r))) eqn:E;
           split_and!; intros; simplify_eq;
           first [by left | by right | eexists; split; [reflexivity|lia]]. }
    all: by split_and!; intros; [left|eexists; split; [done|lia]|destruct_and?; lia]. }
  destruct Hret as (R1 & R2 & R3). split_and!.
  - intros s [Hs|(j & Hj & Hc)]%H1.
    + apply R1 in Hs as [?|[-> Hc]]; [by left|]. right. exists 0%nat. by rewrite Nat.add_0_r.
    + right. exists (S j). split; [done|]. by replace (k + S j)%nat with (S k + j)%nat by lia.
  - intros s Hs. destruct (R2 s Hs) as (t & Ht & ?). destruct (H2 t Ht) as (t' & ? & ?). exists t'. split; [done|lia].
  - intros [|j] s Hj Hc; simplify_eq/=.
    + rewrite Nat.add_0_r in Hc. destruct (R3 Hc) as (t & Ht & ?). destruct (H2 t Ht) as (t' & ? & ?).
      exists t'. split; [done|lia].
    + rewrite Nat.add_succ_r in Hc. by apply (H3 j).
Qed.

(** The address the loop goes to after [addr]. *)
Definition next_addr_of (dom : sbi_domain) (kreg : nat * sbi_domain_memregion) (addr : Z) : Z :=
  match find_next_subset_region shl64 dom kreg addr with
  | Some s => s.(base)
  | None => kreg.2.(base) + 2 ^ kreg.2.(order)
  end.

(** The verdict on [addr] is the verdict on every address before the next one. *)
Lemma next_addr_same dom k reg addr a : bit64_ok shl64 (memregions dom) ->
  regions_wf (memregions dom) -> find_region dom addr = Some (k, reg) ->
  addr <= a < next_addr_of dom (k, reg) addr -> find_region dom a = Some (k, reg).
Proof.
  intros H64 (Hwf & Hs & _) Hf Ha. pose proof Hf as Hf'. unfold find_region in Hf'.
  apply list_find_Some in Hf' as (Hk & Hin & Hbefore). rewrite Forall_lookup in Hwf.
  pose proof (Hwf _ _ Hk) as Hreg. pose proof Hin as Hin'. apply in_region_spec in Hin'; [|done].
  destruct (next_subset_spec (memregions dom) (k, reg) addr 0 None) as (H1 & _ & H3).
  fold (find_next_subset_region shl64 dom (k, reg) addr) in H1, H3.
  assert (in_region reg a = true) as Hra.
  { apply in_region_spec; [done|]. unfold next_addr_of in Ha.
    destruct (find_next_subset_region _ _ _ _) as [s|]; [|cbn [snd] in Ha; lia].
    destruct (H1 s eq_refl) as [?|(j & Hj & _ & _ & Hsub)]; [done|].
    apply is_region_subset_spec in Hsub; [|by eapply bit64_pair|by eapply Hwf|done].
    destruct (region_wf_spec s) as (_ & _ & _ & _ & _ & ?); [by eapply Hwf|]. cbn [snd] in Hsub. lia. }
  unfold find_region. apply list_find_Some. split_and!; [done..|].
  intros j y Hj Hlt Hya.
  assert (region_le y reg) as Hle.
  { rewrite <- (take_drop k (memregions dom)) in Hs. eapply StronglySorted_app_1_elem_of; [done|..].
    - apply list_elem_of_lookup. exists j. by rewrite lookup_take_lt by lia.
    - apply list_elem_of_lookup. exists 0%nat. rewrite lookup_drop. by rewrite Nat.add_0_r. }
  apply region_le_spec in Hle. pose proof (Hwf _ _ Hj) as Hy.
  pose proof (blocks_nested y reg a Hy Hreg ltac:(lia) Hya Hra) as Hnest.
  apply in_region_spec in Hya; [|done].
  assert (addr < base y) as Hlo.
  { destruct (decide (addr < base y)); [done|]. destruct (Hbefore j y Hj Hlt). apply in_region_spec; [done|lia]. }
  destruct (H3 j y Hj) as (t & Ht & Hle2).
  { split_and!; [cbn; lia|done|]. apply is_region_subset_spec; [by eapply bit64_pair|done|done|done]. }
  unfold next_addr_of in Ha. rewrite Ht in Ha. lia.
Qed.

Lemma next_addr_bounds dom k reg addr :
  regions_wf (memregions dom) -> find_region dom addr = Some (k, reg) ->
  addr < next_addr_of dom (k, reg) addr <= 2 ^ 64 /\
  (find_next_subset_region shl64 dom (k, reg) addr = None -> reg.(order) < 64 ->
   u64 (reg.(base) + Z.shiftl 1 reg.(order)) = next_addr_of dom (k, reg) addr).
Proof.
  intros (Hwf & _ & Htop) Hf. rewrite !Forall_lookup in *.
  apply list_find_Some in Hf as (Hk & Hin & _). pose proof (Hwf _ _ Hk) as Hreg. pose proof (Htop _ _ Hk) as Ht.
  apply in_region_spec in Hin; [|done]. destruct (region_wf_spec reg Hreg) as (? & ? & _ & ? & _ & ?).
  unfold next_addr_of. destruct (find_next_subset_region _ _ _ _) as [s|] eqn:E; cbn [snd].
  - split; [|done]. destruct (next_subset_spec (memregions dom) (k, reg) addr 0 None) as (Hn1 & _ & _).
    destruct (Hn1 s E) as [?|(j & Hj & _ & ? & _)]; [done|].
    destruct (region_wf_spec s) as (_ & _ & _ & ? & _ & ?); [by eapply Hwf|]. lia.
  - split; [lia|]. intros _ Ho. rewrite shl1 by lia. apply wrap_small. unfold in_range. lia.
Qed.

Lemma check_addr_find dom a mode fl k reg :
  find_region dom a = Some (k, reg) -> sbi_domain_check_addr (Some dom) a mode fl = region_allows reg mode fl.
Proof.
  unfold find_region, sbi_domain_check_addr. generalize (memregions dom). intros l. revert k.
  induction l as [|r l IH]; intros k; cbn [list_find check_regions]; [done|].
  destruct (decide (in_region r a = true)) as [E|E].
  - rewrite E. by intros [= <- <-].
  - apply not_true_is_false in E. rewrite E. intros [[j r'] [Hj Heq]]%fmap_Some. simplify_eq/=. eauto.
Qed.

(** An address is granted when a region holds it and the first such region allows the access. *)
Definition granted (dom : sbi_domain) (mode fl a : Z) : Prop :=
  is_Some (find_region dom a) /\ sbi_domain_check_addr (Some dom) a mode fl = true.

Lemma range_loop dom max mode fl : bit64_ok shl64 (memregions dom) -> regions_wf (memregions dom) -> max < 2 ^ 64 ->
  forall n addr, (Z.to_nat (max - addr) < n)%nat ->
  exists b, loop (range_body shl64 dom max mode fl) n addr = Some b /\
            (b = true <-> forall a, addr <= a < max -> granted dom mode fl a).
Proof.
  intros H64 Hwf Hmax. induction n as [|n IH]; intros addr Hn; [lia|]. cbn [loop]. unfold range_body at 1.
  destruct (Z.ltb_spec addr max); [|exists true; split; [done|]; split; [lia|done]].
  destruct (find_region dom addr) as [[k reg]|] eqn:Hf; cycle 1.
  { exists false. split; [done|]. split; [done|]. intros Hall. destruct (Hall addr ltac:(lia)) as [[? Hs] _].
    by rewrite Hf in Hs. }
  destruct (sbi_domain_check_addr (Some dom) addr mode fl) eqn:Hc; cbn [negb]; cycle 1.
  { exists false. split; [done|]. split; [done|]. intros Hall. destruct (Hall addr ltac:(lia)) as [_ Hs].
    by rewrite Hc in Hs. }
  destruct (next_addr_bounds dom k reg addr Hwf Hf) as [Hnext Hwrap].
  assert (forall a, addr <= a < next_addr_of dom (k, reg) addr -> granted dom mode fl a) as Hseg.
  { intros a Ha. pose proof (next_addr_same _ _ _ _ _ H64 Hwf Hf Ha) as Hf2. split; [by rewrite Hf2|].
    by rewrite (check_addr_find _ _ _ _ _ _ Hf2), <- (check_addr_find _ _ mode fl _ _ Hf). }
  assert (exists b, loop (range_body shl64 dom max mode fl) n (next_addr_of dom (k, reg) addr) = Some b /\
            (b = true <-> forall a, addr <= a < max -> granted dom mode fl a)) as (b & Hb & Hiff).
  { destruct (IH (next_addr_of dom (k, reg) addr)) as (b & Hb & Hiff); [lia|]. exists b. split; [done|].
    rewrite Hiff. split; intros Hall a Ha; [|apply Hall; lia].
    destruct (decide (a < next_addr_of dom (k, reg) addr)); [apply Hseg|apply Hall]; lia. }
  unfold next_addr_of in Hb, Hwrap, Hseg.
  destruct (find_next_subset_region shl64 dom (k, reg) addr) as [s|] eqn:Es; [by exists b|]. cbn [snd] in *.
  unfold riscv_xlen. destruct (Z.ltb_spec (order reg) 64) as [Ho|Ho].
  - rewrite Hwrap by done. by exists b.
  - exists true. split; [done|]. split; [|done]. intros _ a Ha. apply Hseg.
    apply list_find_Some in Hf as (Hk & _ & _). destruct Hwf as (Hwf & _). rewrite Forall_lookup in Hwf.
    destruct (region_wf_spec reg) as (? & ? & _); [by eapply Hwf|]. assert (order reg = 64) as -> by lia. lia.
Qed.

End Range.

(** C20: [sbi_domain_check_addr_range] is exact and terminates, where the code is
    right about [1UL << 64]: on a domain without a region of all memory (order 64),
    or if that shift gives 0 (on RISC-V it gives 1, see [check_addr_range_shl64]).
    The regions are valid and sorted, smallest first, as [sanitize_domain] leaves
    them, and none but the one of all memory ends exactly at the top of the address
    space (for such a region the loop may not end, see [check_addr_range_diverges]).
    Then a range that does not reach the top of the address space is accepted if
    and only if every address of it lies in a region and [sbi_domain_check_addr]
    allows it there, although the loop visits one address per region and
    sub-region; [size + 1] iterations suffice. *)
Theorem check_addr_range_exact shl64 dom addr size mode fl : bit64_ok shl64 (memregions dom) ->
  regions_wf (memregions dom) -> 0 <= addr -> 0 <= size -> addr + size < 2 ^ 64 ->
  exists b, sbi_domain_check_addr_range shl64 (S (Z.to_nat size)) (Some dom) addr size mode fl = Some b /\
            (b = true <-> forall a, addr <= a < addr + size -> granted dom mode fl a).
Proof.
  intros H64 Hwf Ha Hs He. unfold sbi_domain_check_addr_range. rewrite wrap_small by (unfold in_range; lia).
  apply range_loop; [done|done|lia|lia].
Qed.

(** Firmware of 256 KiB that only machine mode may touch, inside all of memory. *)
Definition fw_domain : sbi_domain :=
  Dom [0] (Some [1]) (Some [Region 18 0x80000000 0x7; Region 64 0 0x3f]) 0 0x80200000 PRV_S true.

Lemma fw_domain_wf : regions_wf (memregions fw_domain).
Proof.
  repeat constructor; cbn [order base]; try lia; vm_compute; congruence.
Defined.

(** The same firmware in a domain of the 2 GiB from 0x80000000 on. *)
Definition ram_domain : sbi_domain :=
  Dom [0] (Some [1]) (Some [Region 18 0x80040000 0x7; Region 31 0x80000000 0x3f]) 0 0x80200000 PRV_S true.

Lemma ram_domain_wf : regions_wf (memregions ram_domain).
Proof.
  repeat constructor; cbn [order base]; try lia; vm_compute; congruence.
Defined.

Lemma ram_domain_bit64 shl64 : bit64_ok shl64 (memregions ram_domain).
Proof. right. repeat constructor. Defined.

Lemma check_addr_range_exact_witness :
  exists b, sbi_domain_check_addr_range 1 (S (Z.to_nat 4096)) (Some ram_domain) 0x8003f800 4096 PRV_S 1 = Some b /\
            (b = true <-> forall a, 0x8003f800 <= a < 0x8003f800 + 4096 -> granted ram_domain PRV_S 1 a).
Proof. apply (check_addr_range_exact 1 ram_domain 0x8003f800 4096 PRV_S 1 (ram_domain_bit64 1) ram_domain_wf); lia. Defined.

(** On RISC-V, where [1UL << 64] is 1, nothing is a subset of the region of all
    memory: the firmware in the middle of the range is not seen. *)
Example check_addr_range_shl64 :
  sbi_domain_check_addr_range 1 10 (Some fw_domain) 0x7ffff800 4096 PRV_S 1 = Some true /\
  sbi_domain_check_addr_range 0 10 (Some fw_domain) 0x7ffff800 4096 PRV_S 1 = Some false /\
  sbi_domain_check_addr (Some fw_domain) 0x80000000 PRV_S 1 = false.
Proof. done. Qed.

(** A region that ends at the top of the address space sends the loop back to
    address 0, and here for ever. *)
Definition top_domain : sbi_domain :=
  Dom [0] (Some [1]) (Some [Region 12 (2 ^ 64 - 4096) 0x3f; Region 64 0 0x3f]) 0 0 PRV_S true.

Example check_addr_range_diverges fuel :
  sbi_domain_check_addr_range 0 fuel (Some top_domain) (2 ^ 64 - 4096) 4095 PRV_S 1 = None.
Proof.
  unfold sbi_domain_check_addr_range.
  set (body := range_body 0 top_domain (u64 (2 ^ 64 - 4096 + 4095)) PRV_S 1).
  assert (body (2 ^ 64 - 4096) = Some (inl 0)) as H1 by done.
  assert (body 0 = Some (inl (2 ^ 64 - 4096))) as H2 by done.
  cut (loop body fuel (2 ^ 64 - 4096) = None /\ loop body fuel 0 = None); [tauto|].
  induction fuel as [|fuel [IH1 IH2]]; cbn [loop]; [done|]. by rewrite H1, H2.
Qed.

(** ** The theorems on regions and domains *)

(** [sbi_domain_memregion_init] makes the smallest block.  For a non-empty
    range inside the address space the region it makes is aligned to its size
    and holds the range, and no smaller aligned block does, blocks that end
    exactly at the top of the address space excepted. *)
Theorem memregion_init_smallest addr size fl :
  in_range 64 addr -> 1 <= size -> addr + size <= 2 ^ 64 ->
  let reg := sbi_domain_memregion_init addr size fl in
  0 <= reg.(order) <= 64 /\ reg.(flags) = fl /\ covers reg.(base) reg.(order) addr size /\
  forall o b, 0 <= o -> covers b o addr size -> b + 2 ^ o < 2 ^ 64 -> reg.(order) <= o.
Proof.
  intros Ha Hs He. unfold sbi_domain_memregion_init. destruct (log2roundup_spec size) as (Hl & _ & Hsmall).
  pose proof (memregion_loop_spec 66 addr size (log2roundup size) Ha Hs He Hl ltac:(lia)) as H.
  destruct (memregion_loop _ _ _ _) as [b n]. cbn [order base flags].
  destruct H as (Hn & Hc & Hmin); [|by split_and!; try lia].
  intros o b' Ho (_ & _ & H1 & H2). pose proof (Hsmall o Ho). lia.
Qed.

Lemma memregion_init_smallest_witness :
  sbi_domain_memregion_init 0x80200100 0x2000 0x3f = Region 14 0x80200000 0x3f /\
  covers 0x80200000 14 0x80200100 0x2000.
Proof.
  split; [vm_compute; reflexivity|].
  exact (proj1 (proj2 (proj2 (memregion_init_smallest 0x80200100 0x2000 0x3f
           ltac:(unfold in_range; lia) ltac:(lia) ltac:(lia))))).
Defined.

(** The exception matters: the last page of the address space gets all of it. *)
Example memregion_init_top : sbi_domain_memregion_init (2 ^ 64 - 4096) 4096 0x3f = Region 64 0 0x3f.
Proof. done. Qed.

(** The conditions under which a domain is accepted. *)
Definition sane (hartindex_valid : Z -> bool) (dom dom' : sbi_domain) : Prop :=
  (exists harts regs, dom.(possible_harts) = Some harts /\ dom.(regions) = Some regs /\
     (forall i, 0 <= i < 128 -> hart_in i harts = true -> hartindex_valid i = true) /\
     Forall (fun r => is_region_valid r = true) regs) /\
  dom.(fw_region_inited) = true /\ (dom.(next_mode) = PRV_S \/ dom.(next_mode) = PRV_U) /\
  sbi_domain_check_addr (Some dom') dom.(next_addr) dom.(next_mode) SBI_DOMAIN_EXECUTE = true.

Lemma forallb_harts hv harts :
  forallb hv (harts_from harts 0) = true <-> (forall i, 0 <= i < 128 -> hart_in i harts = true -> hv i = true).
Proof.
  rewrite forallb_forall. setoid_rewrite <- list_elem_of_In. unfold harts_from.
  setoid_rewrite list_elem_of_filter. setoid_rewrite elem_of_seqZ.
  split; intros H i; [intros Hi Hin; apply H; split; [done|lia]|intros [Hin Hi]; apply H; [lia|done]].
Qed.

(** What [sanitize_domain] promises of its result. *)
Definition sanitized (hv : Z -> bool) (dom : sbi_domain) (ret : Z) (dom' : sbi_domain) : Prop :=
  (ret = SBI_OK <-> sane hv dom dom') /\ (ret = SBI_OK \/ ret = SBI_EINVAL) /\
  memregions dom' ≡ₚ memregions dom /\ (ret = SBI_OK -> StronglySorted region_le (memregions dom')) /\
  dom'.(possible_harts) = dom.(possible_harts) /\ dom'.(assigned_harts) = dom.(assigned_harts) /\
  dom'.(next_addr) = dom.(next_addr) /\ dom'.(next_mode) = dom.(next_mode).

Lemma sanitized_error hv dom : ~ sane hv dom dom -> sanitized hv dom SBI_EINVAL dom.
Proof. intros Hn. split; [by split|]. split; [by right|]. by split_and!. Qed.

Lemma forallb_Forall {A} (f : A -> bool) l : forallb f l = true <-> Forall (fun x => f x = true) l.
Proof. rewrite forallb_forall, Forall_forall. by setoid_rewrite list_elem_of_In. Qed.

(** The checks before the sort. *)
Lemma sanitize_prefix shl64 hv dom :
  (forall m, dom.(possible_harts) = Some m -> mask_wf m) ->
  sanitize_domain shl64 hv dom = (SBI_EINVAL, dom) /\ ~ sane hv dom dom \/
  exists harts regs, dom.(possible_harts) = Some harts /\ dom.(regions) = Some regs /\
    dom.(fw_region_inited) = true /\ forallb hv (harts_from harts 0) = true /\ forallb is_region_valid regs = true.
Proof.
  intros Hm. unfold sanitize_domain, sane. destruct (possible_harts dom) as [harts|] eqn:Eh.
  2:{ left. split; [done|]. intros ((? & ? & ? & _) & _). done. }
  rewrite (for_each_spec harts (Hm _ eq_refl)).
  destruct (forallb hv (harts_from harts 0)) eqn:Ev; cbn [negb].
  2:{ left. split; [done|]. intros ((harts' & regs & ? & _ & Hv & _) & _). simplify_eq.
      rewrite (proj2 (forallb_harts _ _) Hv) in Ev. done. }
  destruct (regions dom) as [regs|] eqn:Er.
  2:{ left. split; [done|]. intros ((? & ? & _ & ? & _) & _). done. }
  destruct (forallb is_region_valid regs) eqn:Ef; cbn [negb].
  2:{ left. split; [done|]. intros ((harts' & regs' & _ & ? & _ & Hv) & _). simplify_eq.
      apply forallb_Forall in Hv. congruence. }
  destruct (fw_region_inited dom); cbn [negb].
  - right. by exists harts, regs.
  - left. split; [done|]. by intros (_ & ? & _).
Qed.

(** [sanitize_domain] decides exactly the documented conditions (possible
    harts known to the platform, regions present and valid, firmware region set
    up, next mode supervisor or user, next address executable in that mode) and
    answers [SBI_EINVAL] otherwise; it only ever reorders the regions, and a
    domain it accepts has them smallest first. *)
Theorem sanitize_domain_spec shl64 hv dom ret dom' :
  (forall m, dom.(possible_harts) = Some m -> mask_wf m) ->
  sanitize_domain shl64 hv dom = (ret, dom') -> sanitized hv dom ret dom'.
Proof.
  intros Hm E. destruct (sanitize_prefix shl64 hv dom Hm) as [[E' Hn]|(harts & regs & Eh & Er & Efw & Ev & Ef)].
  { rewrite E' in E. simplify_eq. by apply sanitized_error. }
  unfold sanitize_domain in E. rewrite Eh, (for_each_spec harts (Hm _ Eh)), Er, Efw, Ev, Ef in E. cbn [negb] in E.
  destruct (sort_regions_spec (length regs) regs eq_refl) as [Hp Hs].
  rewrite remove_covered_end in E by (rewrite (Permutation_length Hp); lia).
  cbv zeta in E. cbn [next_mode next_addr] in E.
  set (d := Dom _ _ _ _ _ _ _) in E.
  assert (memregions dom = regs) as Emr by (unfold memregions; by rewrite Er).
  assert (forall ret, (ret = SBI_OK <-> sane hv dom d) -> ret = SBI_OK \/ ret = SBI_EINVAL -> sanitized hv dom ret d)
    as Hsan by (intros r H1 H2; unfold sanitized; rewrite Emr; split_and!; auto; done).
  destruct (_ && _) eqn:Emode in E; [|destruct (sbi_domain_check_addr _ _ _ _) eqn:Eca in E];
    cbn [negb] in E; injection E as <- <-; apply Hsan; [|by right| |by left| |by right].
  - split; [done|]. intros (_ & _ & Hmode & _). lia.
  - split; [|done]. intros _. split_and!; [|done|lia|done].
    exists harts, regs. split_and!; [done..|by apply forallb_harts|by apply forallb_Forall].
  - split; [done|]. intros (_ & _ & _ & Hca). congruence.
Qed.

Lemma sanitize_domain_spec_witness :
  exists dom', sanitize_domain 0 (fun _ => true)
    (Dom [0; 0] (Some [1; 0]) (Some [Region 64 0 0x3f; Region 18 0x80000000 0x7]) 0 0x80200000 PRV_S true)
    = (SBI_OK, dom') /\ StronglySorted region_le (memregions dom').
Proof.
  eexists. split; [vm_compute; reflexivity|].
  refine (proj1 (proj2 (proj2 (proj2 (sanitize_domain_spec 0 (fun _ => true)
    (Dom [0; 0] (Some [1; 0]) (Some [Region 64 0 0x3f; Region 18 0x80000000 0x7]) 0 0x80200000 PRV_S true)
    SBI_OK _ _ _)))) eq_refl); [|vm_compute; reflexivity].
  intros m [= <-]. split; [reflexivity|]. repeat constructor; unfold in_range; lia.
Defined.

(** The pass over the sorted regions that should remove a region covered by
    another with the same rights starts at the last one, and removes nothing. *)
Example covered_region_stays :
  let dom := Dom [0; 0] (Some [1; 0]) (Some [Region 12 0x80000000 0x3f; Region 64 0 0x3f]) 0 0x80200000 PRV_S true in
  sanitize_domain 0 (fun _ => true) dom = (SBI_OK, dom) /\
  remove_covered 0 2 0 [Region 12 0x80000000 0x3f; Region 64 0 0x3f] = [Region 64 0 0x3f].
Proof. done. Qed.
