(* ===== verification/Csr.v ===== *)
(** * Control and status registers of a hart, and their accessors
    (lib/sbi/riscv_asm.c, include/sbi/riscv_asm.h, include/sbi/sbi_csr_detect.h).

    The registers themselves are hardware: [Hw] says which a hart implements and
    [hw_read], [hw_write] follow the privileged specification for them: the PMP
    registers with their locks, granularity and address width, [mseccfg] with its
    sticky bits, and every other register with a mask of writable bits.  An
    access to a register that is not implemented traps ([None]).

    The functions of the source are written in the monad [csrM]: they read and
    write the registers of the hart they run on, and [None] is a trap they do
    not expect, or [sbi_panic]. *)

From S2P Require Import Prelude SbiTypes Bitops.

Local Open Scope Z_scope.

(** ** Register numbers (include/sbi/riscv_encoding.h) *)

Definition CSR_PMPCFG0 : Z := 0x3a0.
Definition CSR_PMPADDR0 : Z := 0x3b0.
Definition CSR_MSTATUS : Z := 0x300.
Definition CSR_MISA : Z := 0x301.
Definition CSR_MEDELEG : Z := 0x302.
Definition CSR_MIDELEG : Z := 0x303.
Definition CSR_MIE : Z := 0x304.
Definition CSR_MTVEC : Z := 0x305.
Definition CSR_MCOUNTEREN : Z := 0x306.
Definition CSR_MENVCFG : Z := 0x30a.
Definition CSR_MSTATEEN0 : Z := 0x30c.
Definition CSR_MCOUNTINHIBIT : Z := 0x320.
Definition CSR_MCYCLECFG : Z := 0x321.
Definition CSR_MINSTRETCFG : Z := 0x322.
Definition CSR_MHPMEVENT3 : Z := 0x323.
Definition CSR_MEPC : Z := 0x341.
Definition CSR_MIP : Z := 0x344.
Definition CSR_MSECCFG : Z := 0x747.
Definition CSR_MCYCLE : Z := 0xb00.
Definition CSR_MINSTRET : Z := 0xb02.
Definition CSR_MHPMCOUNTER3 : Z := 0xb03.
Definition CSR_SIE : Z := 0x104.
Definition CSR_STVEC : Z := 0x105.
Definition CSR_SCOUNTEREN : Z := 0x106.
Definition CSR_SSCRATCH : Z := 0x140.
Definition CSR_STIMECMP : Z := 0x14d.
Definition CSR_SATP : Z := 0x180.
Definition CSR_VSIE : Z := 0x204.
Definition CSR_VSTVEC : Z := 0x205.
Definition CSR_VSSCRATCH : Z := 0x240.
Definition CSR_VSATP : Z := 0x280.
Definition CSR_UIE : Z := 0x004.
Definition CSR_UTVEC : Z := 0x005.
Definition CSR_USCRATCH : Z := 0x040.
Definition CSR_TIME : Z := 0xc01.
Definition CSR_SCOUNTOVF : Z := 0xda0.
Definition CSR_MTOPI : Z := 0xfb0.
Definition CSR_TSELECT : Z := 0x7a0.

Definition PMP_R : Z := 0x01.
Definition PMP_W : Z := 0x02.
Definition PMP_X : Z := 0x04.
Definition PMP_A : Z := 0x18.
Definition PMP_A_TOR : Z := 0x08.
Definition PMP_A_NA4 : Z := 0x10.
Definition PMP_A_NAPOT : Z := 0x18.
Definition PMP_L : Z := 0x80.
Definition PMP_SHIFT : Z := 2.
Definition PMP_COUNT : Z := 64.
Definition PMP_ADDR_MASK : Z := 2 ^ 54 - 1.

Definition MSECCFG_MML : Z := 1.
Definition MSECCFG_MMWP : Z := 2.
Definition MSECCFG_RLB : Z := 4.
Definition MSECCFG_USEED : Z := 0x100.
Definition MSECCFG_SSEED : Z := 0x200.

(** ** The hardware *)

(** [hw_pmp_csrs] PMP registers exist, of which the first [hw_pmps] hold a value
    and the rest are read-only zero; regions are multiples of [2 ^ (hw_grain + 2)]
    bytes and [hw_addr_bits] bits of a [pmpaddr] are implemented.  [hw_mask] is
    the mask of writable bits of the other registers. *)
Class Hw := {
  hw_pmp_csrs : nat;
  hw_pmps : nat;
  hw_grain : Z;
  hw_addr_bits : Z;
  hw_mask : Z -> option Z;
}.

Record hart := Hart { pmpcfgs : list Z; pmpaddrs : list Z; csrs : gmap Z Z }.

Definition csr_val (h : hart) (c : Z) : Z := default 0 (h.(csrs) !! c).

Definition cfg_of (h : hart) (i : nat) : Z := default 0 (h.(pmpcfgs) !! i).
Definition addr_of (h : hart) (i : nat) : Z := default 0 (h.(pmpaddrs) !! i).

Definition has (v mask : Z) : bool := negb (Z.land v mask =? 0).

Definition rlb (h : hart) : bool := has (csr_val h CSR_MSECCFG) MSECCFG_RLB.
Definition mml (h : hart) : bool := has (csr_val h CSR_MSECCFG) MSECCFG_MML.
Definition mmwp (h : hart) : bool := has (csr_val h CSR_MSECCFG) MSECCFG_MMWP.

(** A locked entry keeps its configuration and address until reset, unless rule
    locking is bypassed; a locked top-of-range entry also locks the address below. *)
Definition locked (h : hart) (i : nat) : bool := has (cfg_of h i) PMP_L && negb (rlb h).
Definition addr_locked (h : hart) (i : nat) : bool :=
  locked h i || (locked h (S i) && (Z.land (cfg_of h (S i)) PMP_A =? PMP_A_TOR)).

(** The eight bytes of a [pmpcfg] register, the lowest first. *)
Fixpoint word_of (bs : list Z) : Z :=
  match bs with [] => 0 | b :: bs => b + 2 ^ 8 * word_of bs end.

Definition byte_of (w : Z) (j : Z) : Z := Z.land (Z.shiftr w (8 * j)) 0xff.

(** Bits 5 and 6 of a configuration are read-only zero. *)
Definition CFG_BITS : Z := 0x9f.

Section Hardware.
Context {hw : Hw}.

(** What a [pmpaddr] register reads as, which is also what it matches with: below
    the granularity its bits read as ones when it names a naturally aligned block
    and as zeros otherwise. *)
Definition addr_view (cfg v : Z) : Z :=
  if has cfg 0x10 then (if 2 <=? hw_grain then Z.lor v (2 ^ (hw_grain - 1) - 1) else v)
  else Z.land v (Z.lnot (2 ^ hw_grain - 1)).

(** Register [c] of the [pmpcfg] family holds the entries from this one on. *)
Definition cfg_base (c : Z) : nat := Z.to_nat (4 * (c - CSR_PMPCFG0)).

Definition is_pmpcfg (c : Z) : bool := (CSR_PMPCFG0 <=? c) && (c <? CSR_PMPCFG0 + 16).
Definition is_pmpaddr (c : Z) : bool := (CSR_PMPADDR0 <=? c) && (c <? CSR_PMPADDR0 + 64).

Definition hw_read (h : hart) (c : Z) : option Z :=
  if is_pmpcfg c then
    if Z.odd c || (hw_pmp_csrs <=? cfg_base c)%nat then None
    else Some (word_of (take 8 (drop (cfg_base c) h.(pmpcfgs))))
  else if is_pmpaddr c then
    let i := Z.to_nat (c - CSR_PMPADDR0) in
    if (hw_pmp_csrs <=? i)%nat then None
    else Some (if (i <? hw_pmps)%nat then addr_view (cfg_of h i) (addr_of h i) else 0)
  else match hw_mask c with None => None | Some _ => Some (csr_val h c) end.

(** The entries of a [pmpcfg] register that are not locked take their byte. *)
Definition write_cfg (h : hart) (base : nat) (v : Z) : hart :=
  Hart (imap (fun i b => if (base <=? i)%nat && (i <? base + 8)%nat && negb (locked h i)
                         then Z.land (byte_of v (Z.of_nat (i - base))) CFG_BITS else b) h.(pmpcfgs))
       h.(pmpaddrs) h.(csrs).

Definition write_addr (h : hart) (i : nat) (v : Z) : hart :=
  if addr_locked h i then h
  else Hart h.(pmpcfgs) (<[i := Z.land v (2 ^ hw_addr_bits - 1)]> h.(pmpaddrs)) h.(csrs).

Definition any_locked (h : hart) : bool := existsb (fun b => has b PMP_L) h.(pmpcfgs).

(** MML and MMWP cannot be cleared; RLB cannot be set again while an entry is
    locked. *)
Definition mseccfg_value (h : hart) (m v : Z) : Z :=
  let old := csr_val h CSR_MSECCFG in
  let sticky := Z.land old (Z.lor MSECCFG_MML MSECCFG_MMWP) in
  let v := Z.lor (Z.land v m) sticky in
  if any_locked h && negb (rlb h) then Z.land v (Z.lnot MSECCFG_RLB) else v.

Definition hw_write (h : hart) (c v : Z) : option hart :=
  if is_pmpcfg c then
    if Z.odd c || (hw_pmp_csrs <=? cfg_base c)%nat then None else Some (write_cfg h (cfg_base c) v)
  else if is_pmpaddr c then
    let i := Z.to_nat (c - CSR_PMPADDR0) in
    if (hw_pmp_csrs <=? i)%nat then None else Some (if (i <? hw_pmps)%nat then write_addr h i v else h)
  else
    match hw_mask c with
    | None => None
    | Some m =>
        let v' := if c =? CSR_MSECCFG then mseccfg_value h m v
                  else Z.lor (Z.land (csr_val h c) (Z.lnot m)) (Z.land v m) in
        Some (Hart h.(pmpcfgs) h.(pmpaddrs) (<[c := v']> h.(csrs)))
    end.

(** ** The monad of functions that run on a hart *)

Definition csrM (A : Type) : Type := hart -> option (A * hart).

#[global] Instance csrM_ret : MRet csrM := fun A x h => Some (x, h).
#[global] Instance csrM_bind : MBind csrM := fun A B f m h =>
  match m h with None => None | Some (x, h) => f x h end.

Definition sbi_panic {A} : csrM A := fun _ => None.

Definition csr_read (c : Z) : csrM Z := fun h => match hw_read h c with Some v => Some (v, h) | None => None end.
Definition csr_write (c v : Z) : csrM unit := fun h =>
  match hw_write h c v with Some h => Some (tt, h) | None => None end.
Definition csr_set (c v : Z) : csrM unit := old ← csr_read c; csr_write c (Z.lor old v).
Definition csr_clear (c v : Z) : csrM unit := old ← csr_read c; csr_write c (Z.land old (Z.lnot v)).
Definition csr_swap (c v : Z) : csrM Z := old ← csr_read c; csr_write c v;; mret old.

(** An access with [sbi_hart_expected_trap] installed: the result says whether it
    was carried out ([trap.cause] is zero). *)
Definition csr_read_allowed (c : Z) : csrM (option Z) := fun h => Some (hw_read h c, h).
Definition csr_write_allowed (c v : Z) : csrM bool := fun h =>
  match hw_write h c v with Some h => Some (true, h) | None => Some (false, h) end.

(** The registers the switches of [csr_read_num] and [csr_write_num] list. *)
Definition csr_num_known (c : Z) : bool :=
  is_pmpcfg c || is_pmpaddr c || (c =? CSR_MCYCLE) || (c =? CSR_MINSTRET)
  || ((CSR_MHPMCOUNTER3 <=? c) && (c <? CSR_MHPMCOUNTER3 + 29))
  || (c =? CSR_MCOUNTINHIBIT) || (c =? CSR_MCYCLECFG) || (c =? CSR_MINSTRETCFG)
  || ((CSR_MHPMEVENT3 <=? c) && (c <? CSR_MHPMEVENT3 + 29)).

Definition csr_read_num (c : Z) : csrM Z := if csr_num_known c then csr_read c else sbi_panic.
Definition csr_write_num (c v : Z) : csrM unit := if csr_num_known c then csr_write c v else sbi_panic.
End Hardware.

(** ** Extensions in [misa] *)

(** Letters are their codes; [platform] stands for [sbi_platform_misa_extension],
    which is asked when the register reads as zero. *)
Definition misa_extension_imp `{Hw} (platform : Z -> bool) (ext : Z) : csrM bool :=
  misa ← csr_read CSR_MISA;
  if negb (misa =? 0) then
    if (65 <=? ext) && (ext <=? 90) then mret (has misa (Z.shiftl 1 (ext - 65)))
    else if (97 <=? ext) && (ext <=? 122) then mret (has misa (Z.shiftl 1 (ext - 97)))
    else mret false
  else mret (platform ext).

(** [misa_extension] of riscv_asm.h, a macro on a letter. *)
Definition misa_extension `{Hw} (platform : Z -> bool) (c : Z) : csrM bool := misa_extension_imp platform c.
