(* ===== verification/Pmp.v ===== *)
(** * Physical memory protection: entries (lib/sbi/riscv_asm.c) and their
    configuration from a domain's regions (lib/sbi/sbi_hart.c).

    The specification is the hardware's access check [pmp_check]: the first entry
    that matches a byte of the access decides it.  The theorems relate it to the
    check that the domain code makes in software ([Domain.check_regions]). *)

From S2P Require Import Prelude SbiTypes Bitops Domain Csr.

Local Open Scope Z_scope.

(** ** The access check of the hardware *)

Inductive access := AccR | AccW | AccX.

Definition acc_bit (acc : access) : Z := match acc with AccR => PMP_R | AccW => PMP_W | AccX => PMP_X end.

Inductive pmp_match := NoMatch | PartialMatch | FullMatch.

(** Smepmp gives a meaning to every value of L, R, W and X once [mseccfg.MML] is
    set: [su] is the permission for S and U mode, [m] the one for M mode, as R, W
    and X bits. *)
Definition mml_perms (cfg : Z) : Z * Z (* su, m *) :=
  let l := has cfg PMP_L in let r := has cfg PMP_R in let w := has cfg PMP_W in let x := has cfg PMP_X in
  match l, r, w, x with
  | false, false, true, false => (PMP_R, Z.lor PMP_R PMP_W)
  | false, false, true, true => (Z.lor PMP_R PMP_W, Z.lor PMP_R PMP_W)
  | true, false, true, false => (PMP_X, PMP_X)
  | true, false, true, true => (PMP_X, Z.lor PMP_R PMP_X)
  | true, true, true, true => (PMP_R, PMP_R)
  | false, _, _, _ => (Z.land cfg 7, 0)
  | true, _, _, _ => (0, Z.land cfg 7)
  end.

Definition entry_allows (mml : bool) (cfg mode : Z) (acc : access) : bool :=
  if mml then has (if mode =? PRV_M then (mml_perms cfg).2 else (mml_perms cfg).1) (acc_bit acc)
  else if (mode =? PRV_M) && negb (has cfg PMP_L) then true else has cfg (acc_bit acc).

Section Check.
Context {hw : Hw}.

(** The bytes an entry covers, from the first to one past the last; [prev] is the
    address register below it. *)
Definition entry_range (cfg addr prev : Z) : option (Z * Z) :=
  let a := Z.land cfg PMP_A in
  let v := addr_view cfg addr in
  if a =? PMP_A_TOR then
    Some (4 * Z.land prev (Z.lnot (2 ^ hw_grain - 1)), 4 * v)
  else if a =? PMP_A_NA4 then Some (4 * v, 4 * v + 4)
  else if a =? PMP_A_NAPOT then
    let m := Z.lxor v (v + 1) in
    Some (4 * Z.land v (Z.lnot m), 4 * (Z.land v (Z.lnot m) + m + 1))
  else None.

Definition entry_match (cfg addr prev a w : Z) : pmp_match :=
  match entry_range cfg addr prev with
  | None => NoMatch
  | Some (lo, hi) =>
      if (hi <=? a) || (a + w <=? lo) then NoMatch
      else if (lo <=? a) && (a + w <=? hi) then FullMatch else PartialMatch
  end.

Fixpoint check_entries (mml : bool) (dflt : bool) (cfgs addrs : list Z) (prev mode a w : Z) (acc : access) : bool :=
  match cfgs, addrs with
  | cfg :: cfgs, addr :: addrs =>
      match entry_match cfg addr prev a w with
      | FullMatch => entry_allows mml cfg mode acc
      | PartialMatch => false
      | NoMatch => check_entries mml dflt cfgs addrs addr mode a w acc
      end
  | _, _ => dflt
  end.

(** An access that no entry matches. *)
Definition check_default (h : hart) (mode : Z) (acc : access) : bool :=
  if mode =? PRV_M then
    if mmwp h then false else if mml h then match acc with AccX => false | _ => true end else true
  else (hw_pmps =? 0)%nat.

(** May mode [mode] access the [w] bytes at the physical address [a]? *)
Definition pmp_check (h : hart) (mode a w : Z) (acc : access) : bool :=
  check_entries (mml h) (check_default h mode acc) h.(pmpcfgs) h.(pmpaddrs) 0 mode a w acc.

(** ** Entries (riscv_asm.c) *)

(** [while (!(x & 1UL))] *)
Fixpoint ctz_loop (fuel : nat) (x ret : Z) : Z :=
  match fuel with
  | O => ret
  | S fuel => if Z.land x 1 =? 0 then ctz_loop fuel (Z.shiftr x 1) (ret + 1) else ret
  end.

Definition ctz (x : Z) : Z := if x =? 0 then 8 * 8 else ctz_loop 64 x 0.

Definition pmpcfg_csr (n : Z) : Z := Z.land (CSR_PMPCFG0 + Z.shiftr n 2) (Z.lnot 1).
Definition pmpcfg_shift (n : Z) : Z := Z.shiftl (Z.land n 7) 3.

Definition pmp_disable (n : Z) : csrM Z :=
  if PMP_COUNT <=? n then mret SBI_EINVAL
  else
    let cfgmask := u64 (Z.lnot (u64 (Z.shiftl 0xff (pmpcfg_shift n)))) in
    old ← csr_read_num (pmpcfg_csr n);
    csr_write_num (pmpcfg_csr n) (Z.land old cfgmask);;
    mret SBI_OK.

(** The [pmpaddr] value of a block of [2 ^ log2len] bytes. *)
Definition pmpaddr_encode (addr log2len : Z) : Z :=
  if log2len =? PMP_SHIFT then Z.shiftr addr PMP_SHIFT
  else if log2len =? riscv_xlen then u64 (-1)
  else
    let addrmask := u64 (Z.shiftl 1 (log2len - PMP_SHIFT) - 1) in
    Z.lor (Z.land (Z.shiftr addr PMP_SHIFT) (u64 (Z.lnot addrmask))) (Z.shiftr addrmask 1).

Definition pmp_set (n prot addr log2len : Z) : csrM Z :=
  if (PMP_COUNT <=? n) || (riscv_xlen <? log2len) || (log2len <? PMP_SHIFT) then mret SBI_EINVAL
  else
    let prot := Z.lor (Z.land prot (u64 (Z.lnot PMP_A)))
                      (if log2len =? PMP_SHIFT then PMP_A_NA4 else PMP_A_NAPOT) in
    let cfgmask := u64 (Z.lnot (u64 (Z.shiftl 0xff (pmpcfg_shift n)))) in
    old ← csr_read_num (pmpcfg_csr n);
    let pmpcfg := Z.lor (Z.land old cfgmask)
                        (Z.land (u64 (Z.shiftl prot (pmpcfg_shift n))) (u64 (Z.lnot cfgmask))) in
    csr_write_num (CSR_PMPADDR0 + n) (pmpaddr_encode addr log2len);;
    csr_write_num (pmpcfg_csr n) pmpcfg;;
    mret SBI_OK.

(** The result of [pmp_get] and what it stores through its three pointers, which
    its callers pass non-null. *)
Definition pmp_get (n : Z) : csrM (Z * (Z * Z * Z)) :=
  if PMP_COUNT <=? n then mret (SBI_EINVAL, (0, 0, 0))
  else
    let cfgmask := u64 (Z.shiftl 0xff (pmpcfg_shift n)) in
    w ← csr_read_num (pmpcfg_csr n);
    let prot := Z.shiftr (Z.land w cfgmask) (pmpcfg_shift n) in
    addr ← csr_read_num (CSR_PMPADDR0 + n);
    if Z.land prot PMP_A =? PMP_A_NAPOT then
      if addr =? u64 (-1) then mret (SBI_OK, (prot, 0, riscv_xlen))
      else
        let t1 := ctz (u64 (Z.lnot addr)) in
        let base := u64 (Z.shiftl (Z.land addr (u64 (Z.lnot (u64 (Z.shiftl 1 t1 - 1))))) PMP_SHIFT) in
        mret (SBI_OK, (prot, base, t1 + PMP_SHIFT + 1))
    else mret (SBI_OK, (prot, u64 (Z.shiftl addr PMP_SHIFT), PMP_SHIFT)).

Definition is_pmp_entry_mapped (entry : Z) : csrM bool :=
  '(rc, (prot, _, _)) ← pmp_get entry;
  mret (if negb (rc =? 0) then false else has prot PMP_A).

(** ** Region flags (sbi_domain.h) *)

Definition SBI_DOMAIN_MEMREGION_ACCESS_MASK : Z := 0x3f.
Definition SBI_DOMAIN_MEMREGION_ENF_PERMISSIONS : Z := 2 ^ 6.
Definition SBI_DOMAIN_MEMREGION_M_RWX : Z := 7.
Definition SBI_DOMAIN_MEMREGION_SHARED_RDONLY : Z := 0x09.
Definition SBI_DOMAIN_MEMREGION_SHARED_SUX_MRX : Z := 0x25.
Definition SBI_DOMAIN_MEMREGION_SHARED_SUX_MX : Z := 0x24.
Definition SBI_DOMAIN_MEMREGION_SHARED_SURW_MRW : Z := 0x1b.
Definition SBI_DOMAIN_MEMREGION_SHARED_SUR_MRW : Z := 0x0b.

Definition access_is (fl v : Z) : bool := Z.land fl SBI_DOMAIN_MEMREGION_ACCESS_MASK =? v.

Definition SBI_DOMAIN_MEMREGION_IS_SHARED (fl : Z) : bool :=
  access_is fl SBI_DOMAIN_MEMREGION_SHARED_RDONLY || access_is fl SBI_DOMAIN_MEMREGION_SHARED_SUX_MRX
  || access_is fl SBI_DOMAIN_MEMREGION_SHARED_SUX_MX || access_is fl SBI_DOMAIN_MEMREGION_SHARED_SURW_MRW
  || access_is fl SBI_DOMAIN_MEMREGION_SHARED_SUR_MRW.

Definition SBI_DOMAIN_MEMREGION_M_ONLY_ACCESS (fl : Z) : bool :=
  has fl SBI_DOMAIN_MEMREGION_M_ACCESS_MASK && negb (has fl SBI_DOMAIN_MEMREGION_SU_ACCESS_MASK).
Definition SBI_DOMAIN_MEMREGION_SU_ONLY_ACCESS (fl : Z) : bool :=
  has fl SBI_DOMAIN_MEMREGION_SU_ACCESS_MASK && negb (has fl SBI_DOMAIN_MEMREGION_M_ACCESS_MASK).

(** ** Configuration from the regions of a domain (sbi_hart.c) *)

Definition orl (l : list Z) : Z := foldr Z.lor 0 l.
Definition bit_if (b : bool) (v : Z) : Z := if b then v else 0.

Definition sbi_hart_get_smepmp_flags (fl : Z) : Z :=
  if SBI_DOMAIN_MEMREGION_IS_SHARED fl then
    if access_is fl SBI_DOMAIN_MEMREGION_SHARED_RDONLY then orl [PMP_L; PMP_R; PMP_W; PMP_X]
    else if access_is fl SBI_DOMAIN_MEMREGION_SHARED_SUX_MRX then orl [PMP_L; PMP_W; PMP_X]
    else if access_is fl SBI_DOMAIN_MEMREGION_SHARED_SUX_MX then orl [PMP_L; PMP_W]
    else if access_is fl SBI_DOMAIN_MEMREGION_SHARED_SURW_MRW then orl [PMP_W; PMP_X]
    else if access_is fl SBI_DOMAIN_MEMREGION_SHARED_SUR_MRW then PMP_W
    else 0
  else if SBI_DOMAIN_MEMREGION_M_ONLY_ACCESS fl then
    if Z.land fl SBI_DOMAIN_MEMREGION_M_ACCESS_MASK =? SBI_DOMAIN_MEMREGION_M_RWX then 0
    else orl [PMP_L; bit_if (has fl SBI_DOMAIN_MEMREGION_M_READABLE) PMP_R;
              bit_if (has fl SBI_DOMAIN_MEMREGION_M_WRITABLE) PMP_W;
              bit_if (has fl SBI_DOMAIN_MEMREGION_M_EXECUTABLE) PMP_X]
  else if SBI_DOMAIN_MEMREGION_SU_ONLY_ACCESS fl then
    orl [bit_if (has fl SBI_DOMAIN_MEMREGION_SU_READABLE) PMP_R;
         bit_if (has fl SBI_DOMAIN_MEMREGION_SU_WRITABLE) PMP_W;
         bit_if (has fl SBI_DOMAIN_MEMREGION_SU_EXECUTABLE) PMP_X]
  else 0.

(** The condition under which a region is given an entry. *)
Definition pmp_fits (pmp_log2gran pmp_addr_max : Z) (reg : sbi_domain_memregion) : bool :=
  (pmp_log2gran <=? reg.(order)) && (Z.shiftr reg.(base) PMP_SHIFT <? pmp_addr_max).

Definition sbi_hart_smepmp_set (reg : sbi_domain_memregion) (pmp_idx pmp_flags pmp_log2gran pmp_addr_max : Z)
    : csrM unit :=
  if pmp_fits pmp_log2gran pmp_addr_max reg
  then pmp_set pmp_idx pmp_flags reg.(base) reg.(order);; mret tt
  else mret tt.

Definition SBI_SMEPMP_RESV_ENTRY : Z := 0.

(** One of the two loops of [sbi_hart_smepmp_configure]: the M-only regions, or
    the others.  [false] is the early [return 0]. *)
Fixpoint smepmp_pass (m_only : bool) (pmp_count pmp_log2gran pmp_addr_max pmp_idx : Z)
    (regs : list sbi_domain_memregion) : csrM bool :=
  match regs with
  | [] => mret true
  | reg :: regs =>
      let pmp_idx := if pmp_idx =? SBI_SMEPMP_RESV_ENTRY then pmp_idx + 1 else pmp_idx in
      if pmp_count <=? pmp_idx then mret true
      else if negb (Bool.eqb (SBI_DOMAIN_MEMREGION_M_ONLY_ACCESS reg.(flags)) m_only)
      then smepmp_pass m_only pmp_count pmp_log2gran pmp_addr_max (pmp_idx + 1) regs
      else
        let pmp_flags := sbi_hart_get_smepmp_flags reg.(flags) in
        if pmp_flags =? 0 then mret false
        else
          sbi_hart_smepmp_set reg pmp_idx pmp_flags pmp_log2gran pmp_addr_max;;
          smepmp_pass m_only pmp_count pmp_log2gran pmp_addr_max (pmp_idx + 1) regs
  end.

Definition sbi_hart_smepmp_configure (regs : list sbi_domain_memregion)
    (pmp_count pmp_log2gran pmp_addr_max : Z) : csrM Z :=
  csr_set CSR_MSECCFG MSECCFG_RLB;;
  pmp_disable SBI_SMEPMP_RESV_ENTRY;;
  ok ← smepmp_pass true pmp_count pmp_log2gran pmp_addr_max 0 regs;
  if negb ok then mret 0
  else
    csr_set CSR_MSECCFG MSECCFG_MML;;
    smepmp_pass false pmp_count pmp_log2gran pmp_addr_max 0 regs;;
    mret 0.

Definition oldpmp_flags (fl : Z) : Z :=
  orl [bit_if (has fl SBI_DOMAIN_MEMREGION_ENF_PERMISSIONS) PMP_L;
       bit_if (has fl SBI_DOMAIN_MEMREGION_SU_READABLE) PMP_R;
       bit_if (has fl SBI_DOMAIN_MEMREGION_SU_WRITABLE) PMP_W;
       bit_if (has fl SBI_DOMAIN_MEMREGION_SU_EXECUTABLE) PMP_X].

Fixpoint oldpmp_loop (pmp_count pmp_log2gran pmp_addr_max pmp_idx : Z) (regs : list sbi_domain_memregion)
    : csrM unit :=
  match regs with
  | [] => mret tt
  | reg :: regs =>
      if pmp_count <=? pmp_idx then mret tt
      else if pmp_fits pmp_log2gran pmp_addr_max reg
      then pmp_set pmp_idx (oldpmp_flags reg.(flags)) reg.(base) reg.(order);;
           oldpmp_loop pmp_count pmp_log2gran pmp_addr_max (pmp_idx + 1) regs
      else oldpmp_loop pmp_count pmp_log2gran pmp_addr_max pmp_idx regs
  end.

Definition sbi_hart_oldpmp_configure (regs : list sbi_domain_memregion)
    (pmp_count pmp_log2gran pmp_addr_max : Z) : csrM Z :=
  oldpmp_loop pmp_count pmp_log2gran pmp_addr_max 0 regs;; mret 0.

(** [struct sbi_hart_features] *)
Record sbi_hart_features := Features {
  detected : bool;
  priv_version : Z;
  extensions : list Z;
  pmp_count : Z;
  pmp_addr_bits : Z;
  pmp_log2gran : Z;
  mhpm_mask : Z;
  mhpm_bits : Z;
}.

(** [enum sbi_hart_extensions] *)
Definition SBI_HART_EXT_SMAIA : Z := 0.
Definition SBI_HART_EXT_SMEPMP : Z := 1.

Definition sbi_hart_has_extension (f : sbi_hart_features) (ext : Z) : bool :=
  match __test_bit ext f.(extensions) with Some v => negb (v =? 0) | None => false end.

(** The loop of [sbi_hart_map_saddr]; [None] is [SBI_EFAIL]. *)
Fixpoint saddr_loop (fuel : nat) (addr size ord : Z) : option (Z * Z) :=
  match fuel with
  | O => None
  | S fuel =>
      if riscv_xlen <? ord then Some (0, ord)
      else if ord <? riscv_xlen then
        let b := Z.land addr (u64 (Z.lnot (Z.shiftl 1 ord - 1))) in
        let last := u64 (addr + size - 1) in
        if (b <=? addr) && (addr <? u64 (b + Z.shiftl 1 ord)) && (b <=? last)
           && (last <? u64 (b + Z.shiftl 1 ord))
        then Some (b, ord) else saddr_loop fuel addr size (ord + 1)
      else None
  end.

Definition sbi_hart_map_saddr (f : sbi_hart_features) (addr size : Z) : csrM Z :=
  if negb (sbi_hart_has_extension f SBI_HART_EXT_SMEPMP) then mret SBI_OK
  else
    mapped ← is_pmp_entry_mapped SBI_SMEPMP_RESV_ENTRY;
    if mapped : bool then mret SBI_ENOSPC
    else
      match saddr_loop 66 addr size (Z.max f.(pmp_log2gran) (log2roundup size)) with
      | None => mret SBI_EFAIL
      | Some (b, ord) => pmp_set SBI_SMEPMP_RESV_ENTRY (Z.lor PMP_W PMP_X) b ord;; mret SBI_OK
      end.

Definition sbi_hart_unmap_saddr (f : sbi_hart_features) : csrM Z :=
  if negb (sbi_hart_has_extension f SBI_HART_EXT_SMEPMP) then mret SBI_OK
  else pmp_disable SBI_SMEPMP_RESV_ENTRY.

(** [regs] are the regions of the domain of this hart.  The fences at the end
    flush caches that the model does not have; the reads of [misa] that guard
    them stay. *)
Definition sbi_hart_pmp_configure (platform : Z -> bool) (f : sbi_hart_features) (regs : list sbi_domain_memregion)
    : csrM Z :=
  if f.(pmp_count) =? 0 then mret 0
  else
    let pmp_bits := u32 (f.(pmp_addr_bits) - 1) in
    let pmp_addr_max := Z.lor (u64 (Z.shiftl 1 pmp_bits)) (u64 (Z.shiftl 1 pmp_bits - 1)) in
    rc ← (if sbi_hart_has_extension f SBI_HART_EXT_SMEPMP
          then sbi_hart_smepmp_configure regs f.(pmp_count) f.(pmp_log2gran) pmp_addr_max
          else sbi_hart_oldpmp_configure regs f.(pmp_count) f.(pmp_log2gran) pmp_addr_max);
    s ← misa_extension platform 83;
    (if s : bool then misa_extension platform 72 else mret false);;
    mret rc.
End Check.

(** ** Bytes of a configuration register *)

Lemma byte_of_testbit w j i : 0 <= j -> 0 <= i ->
  Z.testbit (byte_of w j) i = bool_decide (i < 8) && Z.testbit w (8 * j + i).
Proof.
  intros Hj Hi. unfold byte_of. change 0xff with (2 ^ 8 - 1). rewrite land_low by lia.
  change (Z.shiftr w (8 * j) `mod` 2 ^ 8) with (wrap 8 (Z.shiftr w (8 * j))).
  rewrite wrap_testbit, Z.shiftr_spec by lia. do 2 f_equal. lia.
Qed.

Lemma byte_of_range w j : in_range 8 (byte_of w j).
Proof. unfold byte_of. change 0xff with (2 ^ 8 - 1). rewrite land_low by lia. apply Z.mod_pos_bound. lia. Qed.

Lemma byte_of_div w j : 0 <= j -> byte_of w j = (w / 2 ^ (8 * j)) `mod` 2 ^ 8.
Proof. intros. unfold byte_of. change 0xff with (2 ^ 8 - 1). by rewrite land_low, Z.shiftr_div_pow2 by lia. Qed.

Lemma byte_of_word bs j b : Forall (in_range 8) bs -> bs !! j = Some b -> byte_of (word_of bs) (Z.of_nat j) = b.
Proof.
  revert j. induction bs as [|b0 bs IH]; intros j Hbs Hj; [done|]. inversion Hbs as [|?? Hb0 Hbs']; subst.
  rewrite byte_of_div by lia. cbn [word_of]. destruct j as [|j].
  - simplify_eq/=. rewrite Z.div_1_r, Z.mul_comm. by apply (pack_low 8).
  - rewrite <- (IH j Hbs' Hj), byte_of_div by lia. unfold in_range in Hb0.
    replace (8 * Z.of_nat (S j)) with (8 + 8 * Z.of_nat j) by lia.
    rewrite Z.pow_add_r, <- Z.div_div by lia. do 2 f_equal.
    rewrite Z.mul_comm, Z.div_add, Z.div_small by lia. lia.
Qed.

(** What [pmp_set] and [pmp_disable] write: one byte is replaced. *)
Definition put_byte (w j b : Z) : Z :=
  Z.lor (Z.land w (u64 (Z.lnot (u64 (Z.shiftl 0xff (8 * j))))))
        (Z.land (u64 (Z.shiftl b (8 * j))) (u64 (Z.lnot (u64 (Z.lnot (u64 (Z.shiftl 0xff (8 * j)))))))).

Lemma testbit_ff i : Z.testbit 0xff i = bool_decide (0 <= i < 8).
Proof.
  destruct (decide (0 <= i)); [|by rewrite Z.testbit_neg_r, bool_decide_eq_false_2 by lia].
  change 0xff with (Z.ones 8). destruct (decide (i < 8)).
  - by rewrite Z.ones_spec_low, bool_decide_eq_true_2 by lia.
  - by rewrite Z.ones_spec_high, bool_decide_eq_false_2 by lia.
Qed.

Lemma byte_of_put w j b k : 0 <= j < 8 -> 0 <= k < 8 ->
  byte_of (put_byte w j b) k = if decide (k = j) then Z.land b 0xff else byte_of w k.
Proof.
  intros Hj Hk. apply Z.bits_inj'. intros i Hi. rewrite byte_of_testbit by lia. unfold put_byte.
  rewrite Z.lor_spec, !Z.land_spec, !wrap_testbit, !Z.lnot_spec, !wrap_testbit, !Z.lnot_spec, !wrap_testbit,
    !Z.shiftl_spec, !testbit_ff by lia.
  destruct (decide (i < 8)).
  - rewrite (bool_decide_eq_true_2 (i < 8)), (bool_decide_eq_true_2 (8 * k + i < 64)) by lia. cbn [andb].
    destruct (decide (k = j)) as [->|].
    + rewrite bool_decide_eq_true_2 by lia. rewrite Z.land_spec, testbit_ff, bool_decide_eq_true_2 by lia.
      cbn. rewrite !andb_true_r, andb_false_r. cbn. f_equal. lia.
    + rewrite bool_decide_eq_false_2 by lia. cbn. rewrite byte_of_testbit, bool_decide_eq_true_2 by lia.
      by rewrite andb_true_r, andb_false_r, orb_false_r.
  - rewrite (bool_decide_eq_false_2 (i < 8)) by lia. cbn [andb]. destruct (decide (k = j)).
    + by rewrite Z.land_spec, testbit_ff, bool_decide_eq_false_2, andb_false_r by lia.
    + by rewrite byte_of_testbit, bool_decide_eq_false_2 by lia.
Qed.

Lemma pmpcfg_csr_spec n : 0 <= n -> pmpcfg_csr n = CSR_PMPCFG0 + 2 * (n / 8).
Proof.
  intros. unfold pmpcfg_csr. rewrite Z.shiftr_div_pow2 by lia. change (2 ^ 2) with 4.
  change (Z.lnot 1) with (Z.lnot (2 ^ 1 - 1)). rewrite land_lnot_ones by lia. change (2 ^ 1) with 2.
  unfold CSR_PMPCFG0. pose proof (Z.div_mod n 4). pose proof (Z.div_mod n 8).
  pose proof (Z.mod_pos_bound n 4). pose proof (Z.mod_pos_bound n 8).
  pose proof (Z.div_mod (928 + n / 4) 2). pose proof (Z.mod_pos_bound (928 + n / 4) 2). lia.
Qed.

Lemma pmpcfg_shift_spec n : 0 <= n -> pmpcfg_shift n = 8 * (n `mod` 8).
Proof.
  intros. unfold pmpcfg_shift. change 7 with (2 ^ 3 - 1). rewrite land_low, Z.shiftl_mul_pow2 by lia.
  change (2 ^ 3) with 8. lia.
Qed.

(** ** The effect of [pmp_set] and [pmp_disable] on the registers *)

Section Effects.
Context {hw : Hw}.

Definition hw_ok : Prop :=
  (hw_pmps <= hw_pmp_csrs <= 64)%nat /\ 0 <= hw_grain <= 51 /\ hw_grain < hw_addr_bits <= 54.

Definition cfg_ok (b : Z) : Prop := Z.land b CFG_BITS = b.

Definition hart_ok (h : hart) : Prop :=
  length h.(pmpcfgs) = hw_pmps /\ length h.(pmpaddrs) = hw_pmps /\ Forall cfg_ok h.(pmpcfgs).

Definition set_cfg (h : hart) (n : nat) (b : Z) : hart := Hart (<[n := b]> h.(pmpcfgs)) h.(pmpaddrs) h.(csrs).
Definition set_addr (h : hart) (n : nat) (v : Z) : hart := Hart h.(pmpcfgs) (<[n := v]> h.(pmpaddrs)) h.(csrs).

Lemma cfg_ok_land b : cfg_ok (Z.land b CFG_BITS).
Proof. unfold cfg_ok. rewrite <- Z.land_assoc. done. Qed.

Lemma cfg_ok_range b : cfg_ok b -> in_range 8 b.
Proof.
  intros <-. unfold CFG_BITS. apply in_range_bits; [lia|]. split; [apply Z.land_nonneg; lia|].
  intros i Hi. rewrite Z.land_spec. rewrite (testbit_above 8 0x9f i); [apply andb_false_r|done|lia].
Qed.

Lemma hart_ok_bytes h : hart_ok h -> Forall (in_range 8) h.(pmpcfgs).
Proof. intros (_ & _ & H). eapply Forall_impl; [done|]. apply cfg_ok_range. Qed.

Lemma cfg_csr_access n : hw_ok -> 0 <= n < Z.of_nat hw_pmps ->
  is_pmpcfg (pmpcfg_csr n) = true /\ csr_num_known (pmpcfg_csr n) = true /\
  Z.odd (pmpcfg_csr n) = false /\ cfg_base (pmpcfg_csr n) = (8 * Z.to_nat (n / 8))%nat /\
  (hw_pmp_csrs <=? cfg_base (pmpcfg_csr n))%nat = false.
Proof.
  intros (Hn & _) H. rewrite pmpcfg_csr_spec by lia.
  pose proof (Z.div_mod n 8). pose proof (Z.mod_pos_bound n 8).
  assert (is_pmpcfg (CSR_PMPCFG0 + 2 * (n / 8)) = true) as E by (unfold is_pmpcfg, CSR_PMPCFG0; lia).
  assert (cfg_base (CSR_PMPCFG0 + 2 * (n / 8)) = (8 * Z.to_nat (n / 8))%nat) as E2
    by (unfold cfg_base, CSR_PMPCFG0; lia).
  rewrite E2. split_and!; [done|by unfold csr_num_known; rewrite E| |done|apply Nat.leb_gt; lia].
  rewrite Z.odd_add, Z.odd_mul. done.
Qed.

Lemma addr_csr_access n : hw_ok -> 0 <= n < Z.of_nat hw_pmps ->
  is_pmpcfg (CSR_PMPADDR0 + n) = false /\ is_pmpaddr (CSR_PMPADDR0 + n) = true /\
  csr_num_known (CSR_PMPADDR0 + n) = true /\ Z.to_nat (CSR_PMPADDR0 + n - CSR_PMPADDR0) = Z.to_nat n /\
  (hw_pmp_csrs <=? Z.to_nat n)%nat = false /\ (Z.to_nat n <? hw_pmps)%nat = true.
Proof.
  intros (Hn & _) H. assert (is_pmpaddr (CSR_PMPADDR0 + n) = true) as E by (unfold is_pmpaddr, CSR_PMPADDR0; lia).
  split_and!; [unfold is_pmpcfg, CSR_PMPCFG0, CSR_PMPADDR0; lia|done|unfold csr_num_known; rewrite E; by rewrite orb_true_r|lia|apply Nat.leb_gt; lia|apply Nat.ltb_lt; lia].
Qed.

(** Writing back a configuration register with one byte replaced changes that
    entry, unless it is locked. *)
Lemma write_cfg_put h n b : hart_ok h -> 0 <= n < Z.of_nat hw_pmps -> locked h (Z.to_nat n) = false ->
  let base := (8 * Z.to_nat (n / 8))%nat in
  write_cfg h base (put_byte (word_of (take 8 (drop base h.(pmpcfgs)))) (n `mod` 8) b) =
  set_cfg h (Z.to_nat n) (Z.land b CFG_BITS).
Proof.
  intros Hh Hn Hl base. unfold write_cfg, set_cfg. f_equal. apply list_eq. intros i.
  destruct Hh as (Hlen & Hlen' & Hok). rewrite list_lookup_imap.
  pose proof (Z.div_mod n 8). pose proof (Z.mod_pos_bound n 8).
  assert (Z.of_nat base = 8 * (n / 8)) as Hbase by (subst base; lia). clearbody base.
  assert (Ein : forall k, (base <=? k)%nat && (k <? base + 8)%nat = bool_decide (base <= k < base + 8)%nat).
  { intros k. apply eq_bool_prop_intro. rewrite andb_True, bool_decide_spec, !Is_true_true, Nat.leb_le, Nat.ltb_lt. lia. }
  destruct (h.(pmpcfgs) !! i) as [c|] eqn:Ei; cbn [fmap option_fmap option_map]; rewrite ?Ein.
  2: { rewrite list_lookup_insert_ne; [done|]. intros E. apply lookup_ge_None in Ei. lia. }
  destruct (decide (i = Z.to_nat n)) as [Hi|Hi].
  - rewrite Hi in Ei |- *. rewrite list_lookup_insert_eq by lia. rewrite Hl, bool_decide_eq_true_2 by lia. f_equal.
    rewrite byte_of_put, decide_True by lia. by rewrite <- Z.land_assoc.
  - rewrite list_lookup_insert_ne, Ei by done. f_equal.
    case_bool_decide as Hb; [|done]. destruct (locked h i); [done|]. rewrite byte_of_put, decide_False by lia.
    rewrite (byte_of_word _ (i - base) c).
    + rewrite Forall_lookup in Hok. exact (Hok _ _ Ei).
    + apply Forall_take, Forall_drop. eapply Forall_impl; [done|]. apply cfg_ok_range.
    + rewrite lookup_take_lt, lookup_drop by lia. rewrite <- Ei. f_equal. lia.
Qed.

Lemma csr_read_cfg h n : hw_ok -> 0 <= n < Z.of_nat hw_pmps ->
  csr_read_num (pmpcfg_csr n) h = Some (word_of (take 8 (drop (8 * Z.to_nat (n / 8)) h.(pmpcfgs))), h).
Proof.
  intros Hw Hn. destruct (cfg_csr_access n Hw Hn) as (E1 & E2 & E3 & E4 & E5).
  unfold csr_read_num, csr_read, hw_read. by rewrite E2, E1, E3, E5, E4.
Qed.

Lemma csr_write_cfg h n v : hw_ok -> 0 <= n < Z.of_nat hw_pmps ->
  csr_write_num (pmpcfg_csr n) v h = Some (tt, write_cfg h (8 * Z.to_nat (n / 8)) v).
Proof.
  intros Hw Hn. destruct (cfg_csr_access n Hw Hn) as (E1 & E2 & E3 & E4 & E5).
  unfold csr_write_num, csr_write, hw_write. by rewrite E2, E1, E3, E5, E4.
Qed.

Lemma csr_read_addr h n : hw_ok -> 0 <= n < Z.of_nat hw_pmps ->
  csr_read_num (CSR_PMPADDR0 + n) h = Some (addr_view (cfg_of h (Z.to_nat n)) (addr_of h (Z.to_nat n)), h).
Proof.
  intros Hw Hn. destruct (addr_csr_access n Hw Hn) as (E1 & E2 & E3 & E4 & E5 & E6).
  unfold csr_read_num, csr_read, hw_read. by rewrite E3, E1, E2, E4, E5, E6.
Qed.

Lemma csr_write_addr h n v : hw_ok -> 0 <= n < Z.of_nat hw_pmps -> addr_locked h (Z.to_nat n) = false ->
  csr_write_num (CSR_PMPADDR0 + n) v h = Some (tt, set_addr h (Z.to_nat n) (Z.land v (2 ^ hw_addr_bits - 1))).
Proof.
  intros Hw Hn Hl. destruct (addr_csr_access n Hw Hn) as (E1 & E2 & E3 & E4 & E5 & E6).
  unfold csr_write_num, csr_write, hw_write, write_addr. by rewrite E3, E1, E2, E4, E5, E6, Hl.
Qed.

(** The configuration byte of an entry for a block of [2 ^ log2len] bytes. *)
Definition entry_cfg (prot log2len : Z) : Z :=
  Z.land (Z.lor (Z.land prot (u64 (Z.lnot PMP_A))) (if log2len =? PMP_SHIFT then PMP_A_NA4 else PMP_A_NAPOT)) CFG_BITS.

Definition entry_addr (addr log2len : Z) : Z := Z.land (pmpaddr_encode addr log2len) (2 ^ hw_addr_bits - 1).

Lemma pmp_set_effect h n prot addr log2len :
  hw_ok -> hart_ok h -> 0 <= n < Z.of_nat hw_pmps -> 2 <= log2len <= 64 -> addr_locked h (Z.to_nat n) = false ->
  pmp_set n prot addr log2len h =
  Some (SBI_OK, set_cfg (set_addr h (Z.to_nat n) (entry_addr addr log2len)) (Z.to_nat n) (entry_cfg prot log2len)).
Proof.
  intros Hw Hh Hn Hl Hlock. unfold pmp_set.
  assert ((PMP_COUNT <=? n) || (riscv_xlen <? log2len) || (log2len <? PMP_SHIFT) = false) as ->.
  { destruct Hw as (? & _). unfold PMP_COUNT, riscv_xlen, PMP_SHIFT. lia. }
  unfold mbind, csrM_bind. rewrite csr_read_cfg by done. rewrite csr_write_addr by done.
  rewrite csr_write_cfg by done. unfold mret, csrM_ret. do 2 f_equal.
  rewrite pmpcfg_shift_spec by lia.
  assert (locked h (Z.to_nat n) = false) as Hlk.
  { unfold addr_locked in Hlock. by apply orb_false_iff in Hlock as [? _]. }
  apply (write_cfg_put (set_addr h (Z.to_nat n) (entry_addr addr log2len)) n); [|done|done].
  destruct Hh as (? & ? & ?). split_and!; [done|cbn; by rewrite length_insert|done].
Qed.

Lemma pmp_disable_effect h n :
  hw_ok -> hart_ok h -> 0 <= n < Z.of_nat hw_pmps -> locked h (Z.to_nat n) = false ->
  pmp_disable n h = Some (SBI_OK, set_cfg h (Z.to_nat n) 0).
Proof.
  intros Hw Hh Hn Hlock. unfold pmp_disable.
  assert ((PMP_COUNT <=? n) = false) as -> by (destruct Hw as (? & _); unfold PMP_COUNT; lia).
  unfold mbind, csrM_bind. rewrite csr_read_cfg by done. rewrite csr_write_cfg by done.
  unfold mret, csrM_ret. do 2 f_equal. rewrite pmpcfg_shift_spec by lia.
  pose proof (write_cfg_put h n 0 Hh Hn Hlock) as E. cbv zeta in E. rewrite Z.land_0_l in E. rewrite <- E. f_equal.
  unfold put_byte. rewrite Z.shiftl_0_l. change (u64 0) with 0. by rewrite Z.land_0_l, Z.lor_0_r.
Qed.

Lemma set_hart_ok h n a b : hart_ok h -> cfg_ok b -> hart_ok (set_cfg (set_addr h n a) n b).
Proof.
  intros (? & ? & ?) ?. split_and!; cbn; [by rewrite length_insert..|]. by apply Forall_insert.
Qed.

Lemma entry_cfg_ok prot log2len : cfg_ok (entry_cfg prot log2len).
Proof. apply cfg_ok_land. Qed.
End Effects.

(** ** The block an entry matches *)

Lemma land_disjoint a b k : 0 <= k -> in_range k a -> Z.land a (b * 2 ^ k) = 0.
Proof.
  intros Hk Ha. rewrite <- Z.shiftl_mul_pow2 by done. apply Z.bits_inj'. intros i Hi.
  rewrite Z.land_spec, Z.shiftl_spec, Z.bits_0 by done.
  destruct (decide (k <= i)); [by rewrite (testbit_above k a) by (done || lia)|].
  by rewrite (Z.testbit_neg_r _ (i - k)), andb_false_r by lia.
Qed.

Lemma add_lxor a b k : 0 <= k -> in_range k a -> a + b * 2 ^ k = Z.lxor a (b * 2 ^ k).
Proof. intros. apply Z.add_nocarry_lxor. by apply land_disjoint. Qed.

(** The trailing ones of [q * 2 ^ (t + 1) + 2 ^ t - 1], with the zero above them. *)
Lemma trailing_ones q t : 0 <= t ->
  let v := q * 2 ^ (t + 1) + (2 ^ t - 1) in
  Z.lxor v (v + 1) = 2 ^ (t + 1) - 1 /\ Z.land v (Z.lnot (2 ^ (t + 1) - 1)) = q * 2 ^ (t + 1).
Proof.
  intros Ht v. pose proof (pow2_pos t Ht) as Hp.
  assert (2 ^ (t + 1) = 2 * 2 ^ t) as Ep by (rewrite Z.pow_add_r by lia; lia).
  split.
  - replace (v + 1) with (2 ^ t + q * 2 ^ (t + 1)) by (unfold v; lia).
    replace v with ((2 ^ t - 1) + q * 2 ^ (t + 1)) by (unfold v; lia).
    rewrite !add_lxor by (unfold in_range; lia). set (c := q * 2 ^ (t + 1)).
    rewrite (Z.lxor_comm (2 ^ t) c), Z.lxor_assoc, <- (Z.lxor_assoc c c), Z.lxor_nilpotent, Z.lxor_0_l.
    pose proof (add_lxor (2 ^ t - 1) 1 t Ht) as E. rewrite Z.mul_1_l in E. rewrite <- E by (unfold in_range; lia). lia.
  - rewrite land_lnot_ones by lia.
    replace (v `mod` 2 ^ (t + 1)) with (2 ^ t - 1); [unfold v; lia|].
    unfold v. rewrite Z.add_comm, Z.mod_add by lia. symmetry. apply Z.mod_small. lia.
Qed.

Lemma pmpaddr_encode_spec b o : in_range 64 b -> 3 <= o < 64 -> b `mod` 2 ^ o = 0 ->
  pmpaddr_encode b o = b / 4 + (2 ^ (o - 3) - 1) /\ exists q, 0 <= q /\ b / 4 = q * 2 ^ (o - 2).
Proof.
  intros Hb Ho Hm. unfold pmpaddr_encode, PMP_SHIFT, riscv_xlen.
  destruct (Z.eqb_spec o 2); [lia|]. destruct (Z.eqb_spec o 64); [lia|].
  pose proof (pow2_pos (o - 2) ltac:(lia)) as Hp. pose proof (pow2_pos (o - 3) ltac:(lia)) as Hp3.
  assert (2 ^ o = 4 * 2 ^ (o - 2)) as Eo by (replace o with (o - 2 + 2) at 1 by lia; rewrite Z.pow_add_r by lia; lia).
  assert (2 ^ (o - 2) = 2 * 2 ^ (o - 3)) as Eo3
    by (replace (o - 2) with (o - 3 + 1) by lia; rewrite Z.pow_add_r by lia; lia).
  apply Z.mod_divide in Hm as [q Hq]; [|lia]. unfold in_range in Hb.
  assert (b / 4 = q * 2 ^ (o - 2)) as Ed by (symmetry; apply Z.div_unique with 0; lia).
  split; [|exists q; split; [nia|done]].
  assert (2 ^ (o - 2) <= 2 ^ 61) as Hle by (apply Z.pow_le_mono_r; lia).
  rewrite shl1, (wrap_small 64 (2 ^ (o - 2) - 1)) by (unfold in_range; lia).
  rewrite !Z.shiftr_div_pow2 by lia. change (2 ^ 2) with 4. change (2 ^ 1) with 2.
  replace ((2 ^ (o - 2) - 1) / 2) with (2 ^ (o - 3) - 1) by (apply Z.div_unique with 1; lia).
  assert (in_range 64 (b / 4)) as Hr by (unfold in_range; split; [apply Z.div_pos; lia|apply Z.div_lt_upper_bound; lia]).
  replace (Z.land (b / 4) (u64 (Z.lnot (2 ^ (o - 2) - 1)))) with (b / 4).
  - rewrite Ed, Z.lor_comm. rewrite lor_disjoint_add by (unfold in_range; lia). lia.
  - transitivity (Z.land (b / 4) (Z.lnot (2 ^ (o - 2) - 1))).
    + rewrite land_lnot_ones, Ed, Z.mod_mul by lia. lia.
    + zbits i Hi. case_bool_decide; [done|]. by rewrite (testbit_above 64 (b / 4)) by (done || lia).
Qed.

Section Blocks.
Context {hw : Hw} (Hhw : hw_ok).

Local Set Default Proof Using "Type".

(** The region fits the granularity and the address width of the hardware. *)
Definition hw_fits (r : sbi_domain_memregion) : Prop := hw_grain + 2 <= r.(order) /\ r.(base) / 4 < 2 ^ hw_addr_bits.

(** What the address register of a region's entry holds. *)
Lemma entry_addr_spec r : region_wf r -> hw_fits r ->
  exists q t, 0 <= q /\ 0 <= t /\ hw_grain - 1 <= t /\ t + 3 = Z.min r.(order) (hw_addr_bits + 3) /\
    r.(base) = q * 2 ^ (t + 3) /\ entry_addr r.(base) r.(order) = q * 2 ^ (t + 1) + (2 ^ t - 1).
Proof using Hhw.
  intros Hr [Hg Hf]. destruct (region_wf_spec r Hr) as (Ho & Hb0 & Hm & Hend & _ & _).
  destruct Hr as [_ Hb]. destruct Hhw as (_ & Hgr & Hab). set (nb := hw_addr_bits) in *.
  assert (forall k, nb <= k -> (2 ^ k - 1) `mod` 2 ^ nb = 2 ^ nb - 1) as Hones.
  { intros k Hk. symmetry. apply Z.mod_unique_pos with (2 ^ (k - nb) - 1).
    - pose proof (pow2_pos nb). lia.
    - replace k with (nb + (k - nb)) at 1 by lia. rewrite Z.pow_add_r by lia. lia. }
  unfold entry_addr. fold nb. rewrite land_low by lia.
  destruct (decide (r.(order) = 64)) as [E64|].
  { rewrite E64 in *. exists 0, nb. split_and!; try lia. change (pmpaddr_encode (base r) 64) with (2 ^ 64 - 1).
    rewrite Hones by lia. lia. }
  destruct (pmpaddr_encode_spec r.(base) r.(order) Hb ltac:(lia) Hm) as [-> (q & Hq0 & Hq)].
  assert (r.(base) = 4 * (r.(base) / 4)) as Eb4.
  { apply Z.mod_divide in Hm as [k Hk]; [|pose proof (pow2_pos (order r)); lia].
    replace (order r) with (order r - 2 + 2) in Hk by lia. rewrite Z.pow_add_r in Hk by lia.
    apply Z.div_exact; [lia|]. apply Z.mod_divide; [lia|]. exists (k * 2 ^ (order r - 2)). lia. }
  destruct (decide (r.(order) - 3 < nb)) as [Hlt|Hge].
  - exists q, (order r - 3). replace (order r - 3 + 1) with (order r - 2) by lia.
    replace (order r - 3 + 3) with (order r - 2 + 2) by lia. rewrite Z.pow_add_r by lia.
    split_and!; try lia. rewrite Hq. apply Z.mod_small.
    assert (2 ^ (order r - 2) = 2 * 2 ^ (order r - 3)) as E1
      by (replace (order r - 2) with (order r - 3 + 1) by lia; rewrite Z.pow_add_r by lia; lia).
    pose proof (pow2_pos (order r - 3) ltac:(lia)). split; [nia|].
    assert (2 ^ nb = 2 ^ (nb - (order r - 2)) * 2 ^ (order r - 2)) as E2.
    { destruct (decide (order r - 2 <= nb)); [|lia]. rewrite <- Z.pow_add_r by lia. f_equal. lia. }
    rewrite Hq in Hf. assert (q < 2 ^ (nb - (order r - 2))) by nia. nia.
  - assert (2 ^ nb < 2 ^ (order r - 2)) by (apply Z.pow_lt_mono_r; lia).
    assert (q = 0) as -> by nia. exists 0, nb. split_and!; try lia.
    rewrite Hq, Z.mul_0_l, Z.add_0_l, Hones by lia. lia.
Qed.

Lemma lor_trailing q t k : 0 <= t -> 0 <= k <= t ->
  Z.lor (q * 2 ^ (t + 1) + (2 ^ t - 1)) (2 ^ k - 1) = q * 2 ^ (t + 1) + (2 ^ t - 1).
Proof.
  intros Ht Hk. assert (2 ^ (t + 1) = 2 * 2 ^ t) as Ep by (rewrite Z.pow_add_r by lia; lia).
  pose proof (pow2_pos t Ht). rewrite Z.add_comm, <- lor_disjoint_add by (unfold in_range; lia).
  rewrite <- Z.lor_assoc, (Z.lor_comm (q * _)), Z.lor_assoc. f_equal.
  replace (2 ^ t - 1) with (Z.ones t) by (rewrite Z.ones_equiv; lia).
  replace (2 ^ k - 1) with (Z.ones k) by (rewrite Z.ones_equiv; lia). zbits i Hi.
  destruct (decide (i < t)); [by rewrite Z.ones_spec_low by lia|]. by rewrite !Z.ones_spec_high by lia.
Qed.

Lemma entry_cfg_land prot o m : In m [PMP_R; PMP_W; PMP_X; PMP_L; 7] ->
  Z.land (entry_cfg prot o) m = Z.land prot m.
Proof.
  intros H. unfold entry_cfg. rewrite <- Z.land_assoc, Z.land_lor_distr_l, <- Z.land_assoc.
  repeat (destruct H as [<-|H]; [case_match; apply Z.lor_0_r|]). done.
Qed.

Lemma entry_cfg_mode prot o : Z.land (entry_cfg prot o) PMP_A = if o =? 2 then PMP_A_NA4 else PMP_A_NAPOT.
Proof.
  unfold entry_cfg. rewrite <- Z.land_assoc, Z.land_lor_distr_l, <- Z.land_assoc.
  change (Z.land (u64 (Z.lnot PMP_A)) (Z.land CFG_BITS PMP_A)) with 0. rewrite Z.land_0_r.
  change PMP_SHIFT with 2. by destruct (o =? 2).
Qed.

Lemma entry_cfg_bit4 prot o : has (entry_cfg prot o) 0x10 = true.
Proof.
  assert (Z.land (entry_cfg prot o) 0x10 = Z.land (Z.land (entry_cfg prot o) PMP_A) 0x10) as E
    by (by rewrite <- Z.land_assoc).
  unfold has. rewrite E, entry_cfg_mode. by destruct (o =? 2).
Qed.

(** The entry of a region covers the region, up to the end of the physical
    address space. *)
Lemma entry_range_region r prot prev : region_wf r -> hw_fits r ->
  entry_range (entry_cfg prot r.(order)) (entry_addr r.(base) r.(order)) prev =
  Some (r.(base), r.(base) + 2 ^ Z.min r.(order) (hw_addr_bits + 3)).
Proof using Hhw.
  intros Hr Hf. destruct (region_wf_spec r Hr) as (Ho & _).
  destruct (entry_addr_spec r Hr Hf) as (q & t & Hq & Ht & Hg & Et & Eb & ->).
  unfold entry_range. rewrite entry_cfg_mode. destruct (Z.eqb_spec (order r) 2); [lia|].
  change (PMP_A_NAPOT =? PMP_A_TOR) with false. change (PMP_A_NAPOT =? PMP_A_NA4) with false.
  change (PMP_A_NAPOT =? PMP_A_NAPOT) with true. cbv iota zeta.
  assert (addr_view (entry_cfg prot (order r)) (q * 2 ^ (t + 1) + (2 ^ t - 1)) = q * 2 ^ (t + 1) + (2 ^ t - 1)) as ->.
  { unfold addr_view. rewrite entry_cfg_bit4. destruct (Z.leb_spec 2 hw_grain); [|done]. apply lor_trailing; lia. }
  destruct (trailing_ones q t Ht) as [-> ->]. rewrite <- Et, Eb.
  replace (t + 3) with (t + 1 + 2) by lia. rewrite (Z.pow_add_r 2 (t + 1) 2) by lia. change (2 ^ 2) with 4.
  f_equal. f_equal; lia.
Qed.

(** A naturally aligned access. *)
Definition aligned_access (a k : Z) : Prop :=
  0 <= k <= 3 /\ 0 <= a /\ a `mod` 2 ^ k = 0 /\ a + 2 ^ k <= 2 ^ (hw_addr_bits + 2).

Lemma entry_match_region r prot prev a k : region_wf r -> hw_fits r -> aligned_access a k ->
  entry_match (entry_cfg prot r.(order)) (entry_addr r.(base) r.(order)) prev a (2 ^ k) =
  if in_region r a then FullMatch else NoMatch.
Proof using Hhw.
  intros Hr Hf (Hk & Ha & Hal & Hpa). unfold entry_match. rewrite entry_range_region by done.
  destruct (region_wf_spec r Hr) as (Ho & Hb0 & Hm & _).
  pose proof (pow2_pos k ltac:(lia)) as Hpk. pose proof (pow2_pos (order r) ltac:(lia)) as Hpo.
  assert (2 ^ order r = 2 ^ (order r - k) * 2 ^ k) as Eo by (rewrite <- Z.pow_add_r by lia; f_equal; lia).
  apply Z.mod_divide in Hm as [q Hq]; [|lia]. apply Z.mod_divide in Hal as [p Hp]; [|lia].
  destruct Hhw as (_ & ? & Hab).
  assert (r.(base) + 2 ^ Z.min (order r) (hw_addr_bits + 3) = r.(base) + 2 ^ order r \/
          (r.(base) = 0 /\ 2 ^ order r >= 2 ^ (hw_addr_bits + 3) /\ Z.min (order r) (hw_addr_bits + 3) = hw_addr_bits + 3))
    as Hend.
  { destruct (Z.min_spec (order r) (hw_addr_bits + 3)) as [[? ->]|[? ->]]; [by left|].
    assert (2 ^ (hw_addr_bits + 3) <= 2 ^ order r) by (apply Z.pow_le_mono_r; lia). right. split; [|lia].
    destruct Hf as [_ Hf].
    assert (r.(base) < 2 ^ hw_addr_bits * 4) by (pose proof (Z.div_mod r.(base) 4); pose proof (Z.mod_pos_bound r.(base) 4); lia).
    assert (2 ^ (hw_addr_bits + 3) = 2 ^ hw_addr_bits * 8) as E8
      by (rewrite Z.pow_add_r by lia; change (2 ^ 3) with 8; lia).
    assert (q < 1) by nia. assert (0 <= q) by nia. nia. }
  assert (2 ^ (hw_addr_bits + 3) = 2 * 2 ^ (hw_addr_bits + 2)) as E3
    by (replace (hw_addr_bits + 3) with (hw_addr_bits + 2 + 1) by lia; rewrite (Z.pow_add_r 2 (_ + 2)) by lia; lia).
  set (hi := r.(base) + 2 ^ Z.min _ _) in *.
  destruct (in_region r a) eqn:Ein.
  - apply in_region_spec in Ein; [|done].
    assert (a + 2 ^ k <= hi) as Hhi.
    2: { destruct (Z.leb_spec hi a), (Z.leb_spec (a + 2 ^ k) (base r)), (Z.leb_spec (base r) a),
           (Z.leb_spec (a + 2 ^ k) hi); try lia; done. }
    destruct Hend as [->|(E0 & Hge & Em)]; [|unfold hi; rewrite Em; lia].
    assert (p < q * 2 ^ (order r - k) + 2 ^ (order r - k)) by nia. nia.
  - assert (~ (r.(base) <= a < r.(base) + 2 ^ order r)) as Hno by (rewrite <- in_region_spec by done; by rewrite Ein).
    assert (hi <= a \/ a + 2 ^ k <= r.(base)) as Hout.
    { destruct Hend as [E|(E0 & Hge & Em)]; [rewrite E|lia].
      destruct (decide (a < r.(base))); [right|lia]. assert (p < q * 2 ^ (order r - k)) by nia. nia. }
    destruct (Z.leb_spec hi a), (Z.leb_spec (a + 2 ^ k) (base r)); try lia; done.
Qed.

(** ** The check over the entries of a list of regions *)

Definition off (cfg : Z) : Prop := Z.land cfg PMP_A = 0.

Lemma entry_match_off cfg addr prev a w : off cfg -> entry_match cfg addr prev a w = NoMatch.
Proof. unfold off, entry_match, entry_range. by intros ->. Qed.

Lemma check_entries_off m d cfgs addrs prev mode a w acc : Forall off cfgs ->
  check_entries m d cfgs addrs prev mode a w acc = d.
Proof.
  intros Hoff. revert addrs prev. induction Hoff as [|c cfgs Hc _ IH]; intros [|v addrs] prev; cbn [check_entries]; try done.
  by rewrite entry_match_off.
Qed.

(** The verdict of the first region that holds the address, with the permissions
    [prot] gives it. *)
Fixpoint first_region (m d : bool) (prot : sbi_domain_memregion -> Z) (regs : list sbi_domain_memregion)
    (mode a : Z) (acc : access) : bool :=
  match regs with
  | [] => d
  | r :: regs => if in_region r a then entry_allows m (entry_cfg (prot r) r.(order)) mode acc
                 else first_region m d prot regs mode a acc
  end.

Lemma check_entries_regions m d prot regs cfgs addrs prev mode a k acc :
  Forall region_wf regs -> Forall hw_fits regs -> aligned_access a k -> Forall off cfgs ->
  check_entries m d (map (fun r => entry_cfg (prot r) r.(order)) regs ++ cfgs)
    (map (fun r => entry_addr r.(base) r.(order)) regs ++ addrs) prev mode a (2 ^ k) acc =
  first_region m d prot regs mode a acc.
Proof using Hhw.
  intros Hwf Hf Ha Hoff. revert prev. induction regs as [|r regs IH]; intros prev; cbn.
  - by apply check_entries_off.
  - inversion Hwf; inversion Hf; subst. rewrite entry_match_region by done.
    destruct (in_region r a); [done|]. by apply IH.
Qed.
End Blocks.
