(* ===== verification/PmpProps.v ===== *)
(** * Physical memory protection: what the configuration enforces.

    After [sbi_hart_pmp_configure] the hardware's check of an access agrees with
    the check the domain code makes in software, with plain PMP entries for S and
    U mode, and with Smepmp for M mode too. *)

From S2P Require Import Prelude SbiTypes Bitops Domain Csr Pmp.

Local Open Scope Z_scope.

(** ** What a domain grants *)

Definition acc_flag (acc : access) : Z :=
  match acc with AccR => SBI_DOMAIN_READ | AccW => SBI_DOMAIN_WRITE | AccX => SBI_DOMAIN_EXECUTE end.

(** The PMP does not tell memory from memory-mapped I/O: an access is granted
    when the domain grants it as one or the other. *)
Definition domain_grants (regs : list sbi_domain_memregion) (a mode : Z) (acc : access) : bool :=
  check_regions regs a mode (acc_flag acc) || check_regions regs a mode (Z.lor (acc_flag acc) SBI_DOMAIN_MMIO).

(** The permission bits of a region for a mode, at the place of the PMP's. *)
Definition flags_perm (fl mode : Z) (acc : access) : bool :=
  has fl (if mode =? PRV_M then acc_bit acc else 8 * acc_bit acc).

Lemma land_pow2 v k : 0 <= k -> Z.land v (2 ^ k) = if Z.testbit v k then 2 ^ k else 0.
Proof.
  intros Hk. apply Z.bits_inj'. intros i Hi. rewrite Z.land_spec, Z.pow2_bits_eqb by lia.
  destruct (Z.eqb_spec k i) as [<-|Hne].
  - destruct (Z.testbit v k); [by rewrite Z.pow2_bits_true by lia|by rewrite Z.bits_0].
  - rewrite andb_false_r. destruct (Z.testbit v k); [by rewrite Z.pow2_bits_false by lia|by rewrite Z.bits_0].
Qed.

Lemma has_pow2 v k : 0 <= k -> has v (2 ^ k) = Z.testbit v k.
Proof.
  intros Hk. unfold has. rewrite land_pow2 by done. pose proof (pow2_pos k Hk).
  destruct (Z.testbit v k); [|done]. by destruct (Z.eqb_spec (2 ^ k) 0); [lia|].
Qed.

Lemma land_pow2_eqb v k : 0 <= k -> (Z.land v (2 ^ k) =? 2 ^ k) = Z.testbit v k.
Proof.
  intros Hk. rewrite land_pow2 by done. pose proof (pow2_pos k Hk).
  destruct (Z.testbit v k); [apply Z.eqb_refl|]. by destruct (Z.eqb_spec 0 (2 ^ k)); [lia|].
Qed.

Definition acc_pos (acc : access) : Z := match acc with AccR => 0 | AccW => 1 | AccX => 2 end.

Lemma flags_perm_testbit fl mode acc :
  flags_perm fl mode acc = Z.testbit fl (if mode =? PRV_M then acc_pos acc else 3 + acc_pos acc).
Proof.
  unfold flags_perm. rewrite <- has_pow2 by (destruct (mode =? PRV_M), acc; cbn; lia).
  f_equal. by destruct (mode =? PRV_M), acc.
Qed.

Lemma region_allows_perm r mode acc :
  region_allows r mode (acc_flag acc) || region_allows r mode (Z.lor (acc_flag acc) SBI_DOMAIN_MMIO) =
  flags_perm r.(flags) mode acc.
Proof.
  rewrite flags_perm_testbit. unfold region_allows.
  set (rm := negb (Z.land r.(flags) SBI_DOMAIN_MEMREGION_MMIO =? 0)).
  assert (forall f, access_rwx f = access_rwx f -> (Z.land (region_rwx r mode) (2 ^ acc_pos acc) =? 2 ^ acc_pos acc) =
    Z.testbit r.(flags) (if mode =? PRV_M then acc_pos acc else 3 + acc_pos acc)) as E.
  { intros _ _. rewrite land_pow2_eqb by (by destruct acc). unfold region_rwx. destruct (mode =? PRV_M).
    - rewrite Z.land_spec. by destruct acc; rewrite andb_true_r.
    - rewrite Z.shiftr_spec, Z.land_spec by (by destruct acc). rewrite Z.add_comm. by destruct acc; rewrite andb_true_r. }
  specialize (E 0 eq_refl). rewrite <- E. clear E.
  destruct acc; cbn [acc_flag acc_pos]; destruct rm; cbn [negb Bool.eqb]; try rewrite orb_false_r; reflexivity.
Qed.

Lemma check_regions_cons r regs a mode f :
  check_regions (r :: regs) a mode f = if in_region r a then region_allows r mode f else check_regions regs a mode f.
Proof. done. Qed.

Lemma domain_grants_cons r regs a mode acc :
  domain_grants (r :: regs) a mode acc =
  if in_region r a then flags_perm r.(flags) mode acc else domain_grants regs a mode acc.
Proof. unfold domain_grants. rewrite !check_regions_cons. destruct (in_region r a); [apply region_allows_perm|done]. Qed.

(** ** Plain PMP *)

Lemma has_entry_cfg prot o m : In m [PMP_R; PMP_W; PMP_X; PMP_L] -> has (entry_cfg prot o) m = has prot m.
Proof. intros H. unfold has. rewrite entry_cfg_land; [done|]. cbn in *. tauto. Qed.

Lemma has_lor_l v w m : has (Z.lor v w) m = has v m || has w m.
Proof.
  unfold has. rewrite Z.land_lor_distr_l. destruct (Z.eqb_spec (Z.land v m) 0) as [->|Hv]; [done|].
  destruct (Z.eqb_spec (Z.lor (Z.land v m) (Z.land w m)) 0) as [E|]; [|done]. by apply Z.lor_eq_0_iff in E as [? _].
Qed.

Lemma has_bit_if b v m : has (bit_if b v) m = b && has v m.
Proof. by destruct b. Qed.

Lemma oldpmp_flags_perm fl mode acc : mode <> PRV_M -> has (oldpmp_flags fl) (acc_bit acc) = flags_perm fl mode acc.
Proof.
  intros Hm%Z.eqb_neq. unfold flags_perm. rewrite Hm. unfold oldpmp_flags, orl. cbn [foldr].
  rewrite !has_lor_l, !has_bit_if. destruct acc; cbn; rewrite ?andb_false_r, ?andb_true_r, ?orb_false_r, ?orb_false_l; done.
Qed.

(** An entry that is off and not locked. *)
Definition fresh (cfg : Z) : Prop := Z.land cfg (Z.lor PMP_A PMP_L) = 0.

Lemma fresh_off cfg : fresh cfg -> off cfg.
Proof.
  unfold fresh, off. intros H. rewrite Z.land_lor_distr_r in H. by apply Z.lor_eq_0_iff in H as [? _].
Qed.

Lemma fresh_unlocked cfg : fresh cfg -> has cfg PMP_L = false.
Proof.
  unfold fresh, has. intros H. rewrite Z.land_lor_distr_r in H. apply Z.lor_eq_0_iff in H as [_ ->]. done.
Qed.

Section Old.
Context {hw : Hw} (Hhw : hw_ok).

Local Set Default Proof Using "Type".

Definition old_entry (r : sbi_domain_memregion) : Z := entry_cfg (oldpmp_flags r.(flags)) r.(order).
Definition reg_addr (r : sbi_domain_memregion) : Z := entry_addr r.(base) r.(order).

(** The registers, seen as the entries below index [idx] and those from there. *)
Definition split_at (idx : nat) (h : hart) (pc rc pa ra : list Z) : Prop :=
  h.(pmpcfgs) = pc ++ rc /\ h.(pmpaddrs) = pa ++ ra /\ length pc = idx /\ length pa = idx.

Lemma cfg_of_split idx h pc rc pa ra k : split_at idx h pc rc pa ra -> cfg_of h (idx + k) = default 0 (rc !! k).
Proof.
  intros (E & _ & Hl & _). unfold cfg_of. rewrite E, lookup_app_r by lia. do 2 f_equal. lia.
Qed.

Lemma fresh_addr_unlocked idx h pc rc pa ra : split_at idx h pc rc pa ra -> Forall fresh rc ->
  addr_locked h idx = false.
Proof.
  intros Hs Hf. assert (forall k, locked h (idx + k) = false) as Hl.
  { intros k. unfold locked. rewrite (cfg_of_split _ _ _ _ _ _ k Hs). destruct (rc !! k) as [c|] eqn:E; [|done].
    cbn. rewrite fresh_unlocked; [done|]. rewrite Forall_lookup in Hf. eauto. }
  unfold addr_locked. pose proof (Hl 0%nat) as H0. pose proof (Hl 1%nat) as H1.
  rewrite Nat.add_0_r in H0. rewrite Nat.add_1_r in H1. by rewrite H0, H1.
Qed.

(** Setting the entry at [idx] extends the left part by it. *)
Lemma split_set idx h pc c rc pa v ra prot b o :
  split_at idx h pc (c :: rc) pa (v :: ra) ->
  split_at (S idx) (set_cfg (set_addr h idx (entry_addr b o)) idx (entry_cfg prot o))
    (pc ++ [entry_cfg prot o]) rc (pa ++ [entry_addr b o]) ra.
Proof.
  intros (Ec & Ea & Hc & Ha). unfold split_at, set_cfg, set_addr. cbn. rewrite Ec, Ea, !length_app, <- !app_assoc. cbn.
  split_and!; try lia; [|].
  - rewrite insert_app_r_alt by lia. by rewrite Hc, Nat.sub_diag.
  - rewrite insert_app_r_alt by lia. by rewrite Ha, Nat.sub_diag.
Qed.

Definition count_ok (pmp_count : Z) : Prop := 0 <= pmp_count <= Z.of_nat hw_pmps.

Definition old_done (pmp_count gran amax idx : Z) (regs : list sbi_domain_memregion) : list sbi_domain_memregion :=
  take (Z.to_nat (pmp_count - idx)) (filter (fun r => pmp_fits gran amax r = true) regs).

Lemma oldpmp_loop_effect cnt gran amax regs : count_ok cnt -> Forall region_wf regs ->
  forall idx h pc rc pa ra, hart_ok h -> split_at idx h pc rc pa ra -> Forall fresh rc -> length rc = length ra ->
  let l := old_done cnt gran amax (Z.of_nat idx) regs in
  oldpmp_loop cnt gran amax (Z.of_nat idx) regs h =
  Some (tt, Hart (pc ++ map old_entry l ++ drop (length l) rc) (pa ++ map reg_addr l ++ drop (length l) ra) h.(csrs)).
Proof using Hhw.
  intros Hcnt Hwf. induction Hwf as [|r regs Hr Hwf IH]; intros idx h pc rc pa ra Hh Hs Hf Hlen; cbn [oldpmp_loop].
  - unfold old_done. rewrite filter_nil, take_nil. cbn. rewrite !drop_0.
    destruct Hs as (<- & <- & _). by destruct h.
  - destruct (Z.leb_spec cnt (Z.of_nat idx)) as [Hge|Hlt].
    { unfold old_done. replace (Z.to_nat (cnt - Z.of_nat idx)) with 0%nat by lia. rewrite take_0. cbn. rewrite !drop_0.
      destruct Hs as (<- & <- & _). by destruct h. }
    unfold old_done. rewrite filter_cons. destruct (pmp_fits gran amax r) eqn:Efit; cbn [decide]; cycle 1.
    { rewrite decide_False by done. by apply IH. }
    rewrite decide_True by done. destruct (region_wf_spec r Hr) as (Ho & _).
    destruct Hh as (Hl1 & Hl2 & Hok). pose proof Hs as (Ec & Ea & Hc & Ha).
    assert (length rc = (hw_pmps - idx)%nat) as Hrc by (rewrite Ec, length_app in Hl1; lia).
    unfold count_ok in Hcnt. destruct rc as [|c rc]; [cbn in Hrc; lia|]. destruct ra as [|v ra]; [done|].
    unfold mbind, csrM_bind. rewrite pmp_set_effect; [|done|done|lia|lia|].
    2: { rewrite Nat2Z.id. by eapply fresh_addr_unlocked. }
    rewrite Nat2Z.id. replace (Z.of_nat idx + 1) with (Z.of_nat (S idx)) by lia.
    inversion Hf; subst. erewrite IH; [..|by eapply split_set| |].
    + replace (Z.to_nat (cnt - Z.of_nat (length pc))) with (S (Z.to_nat (cnt - Z.of_nat (S (length pc))))) by lia.
      cbn. rewrite <- !app_assoc. done.
    + apply set_hart_ok; [done|apply entry_cfg_ok].
    + done.
    + by simplify_eq/=.
Qed.

(** The verdict over the configured regions is the domain's, for S and U mode. *)
Lemma first_region_old regs a mode acc d : mode <> PRV_M ->
  d = false -> first_region false d (fun r => oldpmp_flags r.(flags)) regs mode a acc = domain_grants regs a mode acc.
Proof.
  intros Hm ->. induction regs as [|r regs IH].
  - apply Z.eqb_neq in Hm. unfold domain_grants. cbn [check_regions first_region]. by rewrite Hm.
  - rewrite domain_grants_cons. cbn [first_region]. destruct (in_region r a); [|done].
    unfold entry_allows. pose proof (proj2 (Z.eqb_neq _ _) Hm) as Em. rewrite Em. cbn [andb].
    rewrite has_entry_cfg by (destruct acc; cbn; tauto). by apply oldpmp_flags_perm.
Qed.

(** The features [hart_detect_features] finds. *)
Definition features_match (f : sbi_hart_features) : Prop :=
  f.(pmp_count) = Z.of_nat hw_pmps /\ f.(pmp_log2gran) = hw_grain + 2 /\ f.(pmp_addr_bits) = hw_addr_bits.

Definition addr_max : Z := 2 ^ hw_addr_bits - 1.

Lemma addr_max_spec f : features_match f ->
  let pmp_bits := u32 (f.(pmp_addr_bits) - 1) in
  Z.lor (u64 (Z.shiftl 1 pmp_bits)) (u64 (Z.shiftl 1 pmp_bits - 1)) = addr_max.
Proof using Hhw.
  intros (_ & _ & ->). cbv zeta. destruct Hhw as (_ & Hg & Hab).
  rewrite (wrap_small 32) by (unfold in_range; lia). rewrite shl1 by lia. set (k := hw_addr_bits - 1).
  assert (2 ^ k <= 2 ^ 53) by (apply Z.pow_le_mono_r; lia). pose proof (pow2_pos k ltac:(lia)).
  rewrite !wrap_small by (unfold in_range; lia).
  pose proof (lor_disjoint_add (2 ^ k - 1) 1 k ltac:(lia)) as E. rewrite Z.mul_1_l, Z.lor_comm in E.
  rewrite E by (unfold in_range; lia). unfold addr_max. replace hw_addr_bits with (k + 1) by lia.
  rewrite Z.pow_add_r by lia. lia.
Qed.

(** The bound [pmp_addr_max] is exact: the address of a region in units of four
    bytes is even. *)
Lemma pmp_fits_spec r : region_wf r -> pmp_fits (hw_grain + 2) addr_max r = true <-> hw_fits r.
Proof using Hhw.
  intros Hr. destruct (region_wf_spec r Hr) as (Ho & Hb0 & Hm & _). unfold pmp_fits, hw_fits, PMP_SHIFT, addr_max.
  rewrite Z.shiftr_div_pow2 by lia. change (2 ^ 2) with 4.
  assert ((r.(base) / 4) `mod` 2 = 0) as Heven.
  { apply Z.mod_divide in Hm as [q Hq]; [|pose proof (pow2_pos (order r)); lia].
    replace (order r) with (order r - 3 + 3) in Hq by lia. rewrite Z.pow_add_r in Hq by lia.
    change (2 ^ 3) with 8 in Hq. replace (r.(base) / 4) with (q * 2 ^ (order r - 3) * 2) by (apply Z.div_unique with 0; lia).
    apply Z.mod_mul. lia. }
  destruct Hhw as (_ & Hg & Hab).
  assert (2 ^ hw_addr_bits = 2 * 2 ^ (hw_addr_bits - 1)) as Ep
    by (rewrite <- Z.pow_succ_r by lia; f_equal; lia).
  pose proof (Z.div_mod (r.(base) / 4) 2). rewrite andb_true_iff, Z.leb_le, Z.ltb_lt. lia.
Qed.

#[global] Instance hw_fits_dec r : Decision (hw_fits r).
Proof. unfold hw_fits. apply _. Defined.

(** The regions that get an entry. *)
Definition programmed (regs : list sbi_domain_memregion) : list sbi_domain_memregion :=
  take hw_pmps (filter hw_fits regs).

Lemma old_done_programmed regs : Forall region_wf regs ->
  old_done (Z.of_nat hw_pmps) (hw_grain + 2) addr_max 0 regs = programmed regs.
Proof using Hhw.
  intros Hwf. unfold old_done, programmed. rewrite Z.sub_0_r, Nat2Z.id. f_equal.
  induction Hwf as [|r regs Hr _ IH]; [done|]. rewrite !filter_cons, IH.
  pose proof (pmp_fits_spec r Hr). repeat case_decide; tauto || done.
Qed.

Lemma misa_read platform ext h : hw_mask CSR_MISA <> None -> exists b, misa_extension platform ext h = Some (b, h).
Proof.
  intros Hm. unfold misa_extension, misa_extension_imp, mbind, csrM_bind, csr_read, hw_read.
  change (is_pmpcfg CSR_MISA) with false. change (is_pmpaddr CSR_MISA) with false. cbv iota.
  destruct (hw_mask CSR_MISA); [|done]. repeat case_match; eexists; reflexivity.
Qed.

Lemma programmed_all regs : Forall hw_fits regs -> (length regs <= hw_pmps)%nat -> programmed regs = regs.
Proof.
  intros Hf Hl. unfold programmed. assert (filter hw_fits regs = regs) as ->; [|by apply take_ge].
  clear Hl. induction Hf as [|r regs Hr _ IH]; [done|]. by rewrite filter_cons, decide_True, IH by done.
Qed.

Lemma pmp_configure_old platform f regs h :
  features_match f -> sbi_hart_has_extension f SBI_HART_EXT_SMEPMP = false -> hart_ok h -> Forall fresh h.(pmpcfgs) ->
  hw_mask CSR_MISA <> None -> (0 < hw_pmps)%nat -> Forall region_wf regs ->
  sbi_hart_pmp_configure platform f regs h =
  Some (0, Hart (map old_entry (programmed regs) ++ drop (length (programmed regs)) h.(pmpcfgs))
                (map reg_addr (programmed regs) ++ drop (length (programmed regs)) h.(pmpaddrs)) h.(csrs)).
Proof using Hhw.
  intros Hfm Hext Hh Hfresh Hmisa Hpos Hwf. unfold sbi_hart_pmp_configure. rewrite (addr_max_spec f Hfm).
  destruct Hfm as (Ec & Eg & _). rewrite Ec, Eg, Hext. destruct (Z.eqb_spec (Z.of_nat hw_pmps) 0); [lia|].
  pose proof Hh as (Hl1 & Hl2 & _). unfold sbi_hart_oldpmp_configure, mbind, csrM_bind.
  assert (count_ok (Z.of_nat hw_pmps)) as Hcnt by (unfold count_ok; lia).
  pose proof (oldpmp_loop_effect (Z.of_nat hw_pmps) (hw_grain + 2) addr_max regs Hcnt Hwf 0
    h [] h.(pmpcfgs) [] h.(pmpaddrs) Hh ltac:(done) Hfresh ltac:(lia)) as E.
  change (Z.of_nat 0) with 0 in E. cbv zeta in E. rewrite old_done_programmed in E by done. rewrite E. cbn [mret csrM_ret].
  set (h' := Hart _ _ _). destruct (misa_read platform 83 h' Hmisa) as [b ->]. destruct b; [|done].
  destruct (misa_read platform 72 h' Hmisa) as [b ->]. done.
Qed.

(** The hart that [pmp_configure_old] leaves. *)
Definition old_configured (regs : list sbi_domain_memregion) (h : hart) : hart :=
  Hart (map old_entry (programmed regs) ++ drop (length (programmed regs)) h.(pmpcfgs))
       (map reg_addr (programmed regs) ++ drop (length (programmed regs)) h.(pmpaddrs)) h.(csrs).

Lemma old_configured_checks regs h : Forall fresh h.(pmpcfgs) -> mml h = false -> (0 < hw_pmps)%nat -> Forall region_wf regs ->
  forall mode a k acc, mode = PRV_S \/ mode = PRV_U -> aligned_access a k ->
    pmp_check (old_configured regs h) mode a (2 ^ k) acc = domain_grants (programmed regs) a mode acc.
Proof using Hhw.
  intros Hfresh Hmml Hpos Hwf mode a k acc Hmode Ha. assert (mode <> PRV_M) as Hm by (unfold PRV_M, PRV_S, PRV_U in *; lia).
  unfold pmp_check. cbn [old_configured pmpcfgs pmpaddrs].
  rewrite (check_entries_regions Hhw _ _ (fun r => oldpmp_flags r.(flags))); [|..|done|].
  - unfold mml, csr_val in *. cbn [old_configured csrs]. rewrite Hmml. apply first_region_old; [done|].
    unfold check_default. apply Z.eqb_neq in Hm. rewrite Hm. apply Nat.eqb_neq. lia.
  - apply Forall_take, Forall_forall. intros r Hr. apply list_elem_of_filter in Hr as [_ Hr].
    rewrite Forall_forall in Hwf. by apply Hwf.
  - apply Forall_take, Forall_forall. intros r Hr. by apply list_elem_of_filter in Hr as [? _].
  - apply Forall_drop. eapply Forall_impl; [done|]. apply fresh_off.
Qed.

(** C2: after [sbi_hart_pmp_configure] on a hart without Smepmp, the PMP hardware
    lets S and U mode make exactly the naturally aligned accesses that the
    domain's region list grants in software ([sbi_domain_check_addr]), when the
    hardware can express every region: each is at least as large as the granularity
    and lies inside the address width ([hw_fits]), and there are as many entries as
    regions.  The entries are programmed in the order of the regions, so the first
    region that holds an address decides in both.  The hart comes with free
    (unlocked, off) entries.  Without [hw_fits] the property fails: the code leaves
    such a region out without an error, and [small_region_unprotected] shows S mode
    reading what the domain denies it. *)
Theorem pmp_configure_enforces_domain platform f regs h :
  features_match f -> sbi_hart_has_extension f SBI_HART_EXT_SMEPMP = false -> hart_ok h -> Forall fresh h.(pmpcfgs) ->
  mml h = false -> hw_mask CSR_MISA <> None -> (0 < hw_pmps)%nat ->
  Forall region_wf regs -> Forall hw_fits regs -> (length regs <= hw_pmps)%nat ->
  exists h', sbi_hart_pmp_configure platform f regs h = Some (0, h') /\
    forall mode a k acc, mode = PRV_S \/ mode = PRV_U -> aligned_access a k ->
      pmp_check h' mode a (2 ^ k) acc = domain_grants regs a mode acc.
Proof using Hhw.
  intros Hfm Hext Hh Hfresh Hmml Hmisa Hpos Hwf Hfit Hlen. eexists. split; [by apply pmp_configure_old|].
  intros mode a k acc Hm Ha. fold (old_configured regs h). rewrite old_configured_checks by done. by rewrite programmed_all.
Qed.
End Old.

(** ** Smepmp *)

(** The permissions an entry can express under Smepmp's machine mode lockdown, of
    the 64 combinations: the fourteen rows of its truth table that grant something. *)
Definition smepmp_expressible : list Z :=
  [0x01; 0x03; 0x04; 0x05;  (* M only: R, RW, X, RX *)
   0x08; 0x18; 0x20; 0x28; 0x38;  (* S/U only: R, RW, X, RX, RWX *)
   0x09; 0x25; 0x24; 0x1b; 0x0b].  (* shared *)

Definition perms_exact (fl : Z) : bool :=
  let cfg := sbi_hart_get_smepmp_flags fl in
  negb (cfg =? 0) && forallb (fun acc => Bool.eqb (has (mml_perms cfg).1 (acc_bit acc)) (flags_perm fl PRV_S acc) &&
    Bool.eqb (has (mml_perms cfg).2 (acc_bit acc)) (flags_perm fl PRV_M acc)) [AccR; AccW; AccX].

Lemma smepmp_flags_low fl :
  sbi_hart_get_smepmp_flags fl = sbi_hart_get_smepmp_flags (Z.land fl SBI_DOMAIN_MEMREGION_ACCESS_MASK).
Proof.
  unfold sbi_hart_get_smepmp_flags, SBI_DOMAIN_MEMREGION_IS_SHARED, SBI_DOMAIN_MEMREGION_M_ONLY_ACCESS,
    SBI_DOMAIN_MEMREGION_SU_ONLY_ACCESS, access_is, has. rewrite <- !Z.land_assoc. reflexivity.
Qed.

Lemma flags_perm_low fl mode acc : flags_perm fl mode acc = flags_perm (Z.land fl SBI_DOMAIN_MEMREGION_ACCESS_MASK) mode acc.
Proof. unfold flags_perm, has. rewrite <- Z.land_assoc. by destruct (mode =? PRV_M), acc. Qed.

Lemma perms_exact_low fl : perms_exact fl = perms_exact (Z.land fl SBI_DOMAIN_MEMREGION_ACCESS_MASK).
Proof.
  unfold perms_exact. rewrite <- smepmp_flags_low. cbn [forallb]. by rewrite !(flags_perm_low fl).
Qed.

Lemma low6 fl : exists k, (k < 64)%nat /\ Z.land fl SBI_DOMAIN_MEMREGION_ACCESS_MASK = Z.of_nat k.
Proof.
  unfold SBI_DOMAIN_MEMREGION_ACCESS_MASK. change 0x3f with (2 ^ 6 - 1). rewrite land_low by lia.
  pose proof (Z.mod_pos_bound fl (2 ^ 6) ltac:(lia)). exists (Z.to_nat (fl `mod` 2 ^ 6)). lia.
Qed.

(** [sbi_hart_get_smepmp_flags] gives a region an encoding that means, under
    Smepmp, exactly the region's permissions for M mode and for S and U mode, when
    and only when the permissions are among the fourteen that Smepmp can express. *)
Theorem smepmp_flags_exact fl :
  perms_exact fl = true <-> In (Z.land fl SBI_DOMAIN_MEMREGION_ACCESS_MASK) smepmp_expressible.
Proof.
  rewrite perms_exact_low. destruct (low6 fl) as (k & Hk & ->).
  assert (forallb (fun n => Bool.eqb (perms_exact (Z.of_nat n)) (existsb (Z.eqb (Z.of_nat n)) smepmp_expressible)) (seq 0 64) = true)
    as H by (vm_compute; reflexivity).
  rewrite forallb_forall in H. specialize (H k ltac:(apply in_seq; lia)). apply Bool.eqb_prop in H. rewrite H.
  rewrite existsb_exists. split; [intros (x & Hx & ->%Z.eqb_eq); done|]. intros Hx. exists (Z.of_nat k). by rewrite Z.eqb_refl.
Qed.

(** A region that only M mode may write is given the encoding of code that every
    mode may execute. *)
Example smepmp_m_write_only :
  SBI_DOMAIN_MEMREGION_M_ONLY_ACCESS SBI_DOMAIN_MEMREGION_M_WRITABLE = true /\
  mml_perms (sbi_hart_get_smepmp_flags SBI_DOMAIN_MEMREGION_M_WRITABLE) = (PMP_X, PMP_X).
Proof. split; reflexivity. Qed.

Section Smepmp.
Context {hw : Hw} (Hhw : hw_ok).

Local Set Default Proof Using "Type".

Definition me_entry (r : sbi_domain_memregion) : Z := entry_cfg (sbi_hart_get_smepmp_flags r.(flags)) r.(order).

Definition selected (m_only : bool) (r : sbi_domain_memregion) : bool :=
  Bool.eqb (SBI_DOMAIN_MEMREGION_M_ONLY_ACCESS r.(flags)) m_only.

(** The entries of a pass: those of the selected regions are replaced. *)
Definition pass_map (m_only : bool) (f : sbi_domain_memregion -> Z) : list sbi_domain_memregion -> list Z -> list Z :=
  zip_with (fun r c => if selected m_only r then f r else c).

Lemma rlb_unlocked h i : rlb h = true -> addr_locked h i = false /\ locked h i = false.
Proof. intros H. unfold addr_locked, locked. rewrite H. by rewrite !andb_false_r. Qed.

(** A region that an entry can express: in size and place, and in its permissions. *)
Definition encodable (r : sbi_domain_memregion) : Prop :=
  region_wf r /\ hw_fits r /\ In (Z.land r.(flags) SBI_DOMAIN_MEMREGION_ACCESS_MASK) smepmp_expressible.

Lemma encodable_flags r : encodable r -> (sbi_hart_get_smepmp_flags r.(flags) =? 0) = false.
Proof. intros (_ & _ & H%smepmp_flags_exact). unfold perms_exact in H. by destruct (_ =? 0). Qed.

Lemma smepmp_pass_effect m_only cnt regs : count_ok cnt -> Forall encodable regs ->
  forall idx h pc mc rc pa ma ra, hart_ok h -> rlb h = true ->
  split_at idx h pc (mc ++ rc) pa (ma ++ ra) -> length mc = length regs -> length ma = length regs ->
  (1 <= idx)%nat -> Z.of_nat (idx + length regs) <= cnt ->
  smepmp_pass m_only cnt (hw_grain + 2) addr_max (Z.of_nat idx) regs h =
  Some (true, Hart (pc ++ pass_map m_only me_entry regs mc ++ rc) (pa ++ pass_map m_only reg_addr regs ma ++ ra) h.(csrs)).
Proof using Hhw.
  intros Hcnt Henc. induction Henc as [|r regs Hr Henc IH]; intros idx h pc mc rc pa ma ra Hh Hrlb Hs Hmc Hma Hidx Hlen.
  - destruct mc, ma; try done. destruct Hs as (E1 & E2 & _). cbn in E1, E2 |- *. rewrite <- E1, <- E2. by destruct h.
  - destruct mc as [|c mc]; [done|]. destruct ma as [|v ma]; [done|]. cbn [smepmp_pass length] in *.
    unfold SBI_SMEPMP_RESV_ENTRY. destruct (Z.eqb_spec (Z.of_nat idx) 0); [lia|].
    destruct (Z.leb_spec cnt (Z.of_nat idx)); [lia|]. replace (Z.of_nat idx + 1) with (Z.of_nat (S idx)) by lia.
    fold (selected m_only r). destruct (selected m_only r) eqn:Esel; cbn [negb]; cycle 1.
    + destruct Hs as (Ec & Ea & Hc & Ha).
      rewrite (IH (S idx) h (pc ++ [c]) mc rc (pa ++ [v]) ma ra); try done; try lia.
      * unfold pass_map. cbn [zip_with]. rewrite Esel, <- !app_assoc. done.
      * unfold split_at. rewrite Ec, Ea, !length_app, <- !app_assoc. cbn. split_and!; [done|done|lia|lia].
    + rewrite (encodable_flags r Hr). destruct Hr as (Hwf & Hfit & _).
      unfold sbi_hart_smepmp_set. rewrite (proj2 (pmp_fits_spec Hhw r Hwf) Hfit).
      destruct (region_wf_spec r Hwf) as (Ho & _). destruct (rlb_unlocked h idx Hrlb) as [Hl1 Hl2].
      unfold mbind, csrM_bind. unfold count_ok in Hcnt.
      rewrite pmp_set_effect; [|done|done|lia|lia|by rewrite Nat2Z.id]. rewrite Nat2Z.id. cbn [mret csrM_ret].
      set (h' := set_cfg _ _ _). fold (me_entry r) (reg_addr r) in h'.
      rewrite (IH (S idx) h' (pc ++ [me_entry r]) mc rc (pa ++ [reg_addr r]) ma ra); try done; try lia.
      * unfold pass_map. cbn [zip_with]. rewrite Esel, <- !app_assoc. done.
      * apply set_hart_ok; [done|apply entry_cfg_ok].
      * by eapply split_set.
Qed.

Lemma pass_from_zero m_only cnt gran amax regs : smepmp_pass m_only cnt gran amax 0 regs = smepmp_pass m_only cnt gran amax 1 regs.
Proof. by destruct regs. Qed.

Lemma pass_map_both f regs mc : length mc = length regs -> pass_map false f regs (pass_map true f regs mc) = map f regs.
Proof.
  revert mc. induction regs as [|r regs IH]; intros [|c mc] Hl; try done.
  unfold pass_map in *. cbn [zip_with map]. rewrite IH by (by simplify_eq/=). f_equal. unfold selected. by destruct (SBI_DOMAIN_MEMREGION_M_ONLY_ACCESS _).
Qed.

Lemma pass_map_length m_only f regs mc : length mc = length regs -> length (pass_map m_only f regs mc) = length regs.
Proof. intros H. unfold pass_map. rewrite length_zip_with. lia. Qed.

Lemma pass_map_ok m_only regs mc : Forall cfg_ok mc -> Forall cfg_ok (pass_map m_only me_entry regs mc).
Proof.
  intros H. revert regs. induction H as [|c mc Hc _ IH]; intros [|r regs]; try constructor; [|apply IH].
  case_match; [apply entry_cfg_ok|done].
Qed.

(** The Smepmp verdict over the regions is the domain's. *)
Lemma has_mml_perms prot o : mml_perms (entry_cfg prot o) = mml_perms prot.
Proof.
  unfold mml_perms. rewrite !has_entry_cfg by (cbn; tauto). rewrite entry_cfg_land by (cbn; tauto). done.
Qed.

Lemma perms_exact_entry fl o mode acc : perms_exact fl = true ->
  entry_allows true (entry_cfg (sbi_hart_get_smepmp_flags fl) o) mode acc = flags_perm fl mode acc.
Proof.
  intros H. unfold perms_exact in H. apply andb_true_iff in H as [_ H]. rewrite forallb_forall in H.
  specialize (H acc ltac:(destruct acc; cbn; tauto)). apply andb_true_iff in H as [H1%eqb_prop H2%eqb_prop].
  unfold entry_allows. rewrite has_mml_perms. unfold flags_perm in *. cbn [Z.eqb PRV_S PRV_M Pos.eqb] in *.
  destruct (mode =? PRV_M); done.
Qed.

Lemma first_region_me regs a mode acc d : Forall encodable regs ->
  (mode <> PRV_M /\ d = false) \/ Exists (fun r => in_region r a = true) regs ->
  first_region true d (fun r => sbi_hart_get_smepmp_flags r.(flags)) regs mode a acc = domain_grants regs a mode acc.
Proof.
  intros Henc. induction Henc as [|r regs (_ & _ & Hp) _ IH]; intros Hc.
  - destruct Hc as [[Hm ->]|Hc]; [|by inversion Hc]. unfold domain_grants. cbn [check_regions first_region].
    apply Z.eqb_neq in Hm. by rewrite Hm.
  - rewrite domain_grants_cons. cbn [first_region]. destruct (in_region r a) eqn:Ein; [by apply perms_exact_entry, smepmp_flags_exact|].
    apply IH. destruct Hc as [?|Hc]; [by left|]. inversion Hc; subst; [congruence|]. by right.
Qed.

Lemma csr_bind {A B} (m : csrM A) (g : A -> csrM B) h x h' : m h = Some (x, h') -> (m ≫= g) h = g x h'.
Proof. unfold mbind, csrM_bind. by intros ->. Qed.

(** The hardware has [mseccfg] with its MML and RLB bits. *)
Definition hw_smepmp : Prop :=
  exists m, hw_mask CSR_MSECCFG = Some m /\ Z.land m MSECCFG_MML = MSECCFG_MML /\ Z.land m MSECCFG_RLB = MSECCFG_RLB.

Lemma mseccfg_set h v : hw_smepmp -> any_locked h && negb (rlb h) = false ->
  exists h', csr_set CSR_MSECCFG v h = Some (tt, h') /\ h'.(pmpcfgs) = h.(pmpcfgs) /\ h'.(pmpaddrs) = h.(pmpaddrs) /\
    rlb h' = rlb h || has v MSECCFG_RLB /\ mml h' = mml h || has v MSECCFG_MML.
Proof.
  intros (m & Hm & Hmml & Hrlb) Hl. unfold csr_set, mbind, csrM_bind, csr_read, hw_read, csr_write, hw_write.
  change (is_pmpcfg CSR_MSECCFG) with false. change (is_pmpaddr CSR_MSECCFG) with false. cbv iota. rewrite Hm.
  change (CSR_MSECCFG =? CSR_MSECCFG) with true. cbv iota zeta. eexists. split; [done|]. cbn [pmpcfgs pmpaddrs].
  do 2 (split; [done|]). unfold mseccfg_value. rewrite Hl. unfold rlb, mml.
  assert (forall c a l v, csr_val (Hart c a (<[CSR_MSECCFG := v]> l)) CSR_MSECCFG = v) as Ev
    by (intros; unfold csr_val; cbn [csrs]; by rewrite lookup_insert_eq).
  rewrite Ev. set (old := csr_val h CSR_MSECCFG). unfold has.
  rewrite !Z.land_lor_distr_l, <- !Z.land_assoc, Hmml, Hrlb.
  change (Z.land (Z.lor MSECCFG_MML MSECCFG_MMWP) MSECCFG_RLB) with 0.
  change (Z.land (Z.lor MSECCFG_MML MSECCFG_MMWP) MSECCFG_MML) with MSECCFG_MML.
  rewrite Z.land_0_r, Z.lor_0_r. split.
  - rewrite <- Z.land_lor_distr_l. apply has_lor_l.
  - rewrite <- Z.lor_assoc, (Z.lor_comm (Z.land v _)), Z.lor_assoc, Z.lor_diag, <- Z.land_lor_distr_l. apply has_lor_l.
Qed.

(** The two passes, from a state with rule locking bypassed. *)
Lemma smepmp_passes h regs c0 v0 mc rc ma ra :
  hw_smepmp -> hart_ok h -> rlb h = true -> h.(pmpcfgs) = c0 :: mc ++ rc -> h.(pmpaddrs) = v0 :: ma ++ ra ->
  Forall encodable regs -> length mc = length regs -> length ma = length regs -> (length regs < hw_pmps)%nat ->
  exists h', (ok ← smepmp_pass true (Z.of_nat hw_pmps) (hw_grain + 2) addr_max 0 regs;
     if negb ok then mret 0
     else csr_set CSR_MSECCFG MSECCFG_MML;;
          smepmp_pass false (Z.of_nat hw_pmps) (hw_grain + 2) addr_max 0 regs;; mret 0) h = Some (0, h') /\
    h'.(pmpcfgs) = c0 :: map me_entry regs ++ rc /\ h'.(pmpaddrs) = v0 :: map reg_addr regs ++ ra /\ mml h' = true.
Proof using Hhw.
  intros Hme Hh Hrlb Ec Ea Henc Hmc Hma Hlen. rewrite !pass_from_zero.
  assert (count_ok (Z.of_nat hw_pmps)) as Hcnt by (unfold count_ok; lia).
  unfold mbind at 1, csrM_bind at 1.
  pose proof (smepmp_pass_effect true (Z.of_nat hw_pmps) regs Hcnt Henc 1 h [c0] mc rc [v0] ma ra Hh Hrlb ltac:(done) Hmc Hma
    ltac:(lia) ltac:(lia)) as E1. change (Z.of_nat 1) with 1 in E1. rewrite E1. cbn [negb].
  set (h1 := Hart _ _ _). pose proof Hh as (Hl1 & Hl2 & Hok). rewrite Ec in Hl1, Hok. rewrite Ea in Hl2.
  cbn in Hl1, Hl2. rewrite length_app in Hl1, Hl2.
  assert (hart_ok h1) as Hh1.
  { unfold hart_ok, h1. cbn. rewrite !length_app, !pass_map_length by done. split_and!; [lia|lia|].
    inversion Hok as [|?? H0 Hrest]; subst. apply Forall_app in Hrest as [? ?]. constructor; [done|].
    apply Forall_app. split; [by apply pass_map_ok|done]. }
  destruct (mseccfg_set h1 MSECCFG_MML Hme) as (h2 & E2 & Ec2 & Ea2 & Hr2 & Hm2).
  { change (rlb h1) with (rlb h). rewrite Hrlb. apply andb_false_r. }
  unfold mbind at 1, csrM_bind at 1. rewrite E2. unfold mbind, csrM_bind.
  pose proof (smepmp_pass_effect false (Z.of_nat hw_pmps) regs Hcnt Henc 1 h2 [c0] (pass_map true me_entry regs mc) rc
    [v0] (pass_map true reg_addr regs ma) ra) as E3.
  rewrite !pass_map_both in E3 by done. change (Z.of_nat 1) with 1 in E3. rewrite E3; clear E3.
  - eexists. split; [done|]. cbn. split_and!; [done|done|]. unfold mml, csr_val in Hm2 |- *. cbn [csrs]. rewrite Hm2.
    apply orb_true_r.
  - unfold hart_ok. rewrite Ec2, Ea2. exact Hh1.
  - rewrite Hr2. change (rlb h1) with (rlb h). by rewrite Hrlb.
  - unfold split_at. by rewrite Ec2, Ea2.
  - by rewrite pass_map_length.
  - by rewrite pass_map_length.
  - lia.
  - lia.
Qed.

Lemma take_drop_split {A} (l : list A) n : (n < length l)%nat ->
  exists c0 mc rc, l = c0 :: mc ++ rc /\ length mc = n /\ rc = drop (S n) l.
Proof.
  intros Hn. destruct l as [|c0 l]; [cbn in Hn; lia|]. exists c0, (take n l), (drop n l). cbn.
  rewrite take_drop. split_and!; [done| |done]. rewrite length_take. cbn in Hn. lia.
Qed.

(** C16: after [sbi_hart_pmp_configure] on a hart with Smepmp, the PMP hardware
    grants an access to M mode as well as to S and U mode exactly when the
    domain's region list grants it, on every address that a region covers and for
    S and U mode on every address.
    Conditions: every region can be expressed by an entry ([encodable]: it fits the
    granularity and the address width, and its permissions are one of the fourteen
    combinations in [smepmp_expressible]), there is an entry for each besides the
    reserved one, and the entries are off and, without rule-locking bypass, not
    locked.  A region with other permissions is not enforced as it says:
    [smepmp_m_write_only] (it gets the encoding of shared code) and
    [smepmp_stops_early] (the regions after it have no entry). *)
Theorem smepmp_configure_enforces_domain platform f regs h :
  features_match f -> sbi_hart_has_extension f SBI_HART_EXT_SMEPMP = true -> hw_smepmp -> hw_mask CSR_MISA <> None ->
  hart_ok h -> Forall off h.(pmpcfgs) -> any_locked h && negb (rlb h) = false ->
  Forall encodable regs -> (length regs < hw_pmps)%nat ->
  exists h', sbi_hart_pmp_configure platform f regs h = Some (0, h') /\
    forall mode a k acc, aligned_access a k -> mode <> PRV_M \/ Exists (fun r => in_region r a = true) regs ->
      pmp_check h' mode a (2 ^ k) acc = domain_grants regs a mode acc.
Proof using Hhw.
  intros Hfm Hext Hme Hmisa Hh Hoff Hlk Henc Hlen. unfold sbi_hart_pmp_configure. rewrite (addr_max_spec Hhw f Hfm).
  destruct Hfm as (Ec & Eg & _). rewrite Ec, Eg, Hext. destruct (Z.eqb_spec (Z.of_nat hw_pmps) 0); [lia|].
  destruct (mseccfg_set h MSECCFG_RLB Hme Hlk) as (h1 & E1 & Ec1 & Ea1 & Hr1 & Hm1).
  assert (hart_ok h1) as Hh1 by (unfold hart_ok; by rewrite Ec1, Ea1).
  change (has MSECCFG_RLB MSECCFG_RLB) with true in Hr1. rewrite orb_true_r in Hr1.
  pose proof Hh as (Hl1 & Hl2 & _).
  destruct (take_drop_split h.(pmpcfgs) (length regs)) as (c0 & mc & rc & Ec0 & Hmc & Hrc); [lia|].
  destruct (take_drop_split h.(pmpaddrs) (length regs)) as (v0 & ma & ra & Ea0 & Hma & _); [lia|].
  set (h2 := set_cfg h1 (Z.to_nat SBI_SMEPMP_RESV_ENTRY) 0).
  destruct (smepmp_passes h2 regs 0 v0 mc rc ma ra) as (h3 & E3 & Ec3 & Ea3 & Hm3); try done.
  - destruct Hh1 as (? & ? & ?). split_and!; cbn; [by rewrite length_insert|done|by apply Forall_insert].
  - cbn. rewrite Ec1, Ec0. done.
  - cbn. by rewrite Ea1.
  - exists h3. split.
    { erewrite csr_bind; [|unfold sbi_hart_smepmp_configure; rewrite (csr_bind _ _ _ _ _ E1);
        erewrite csr_bind by (apply pmp_disable_effect; [done|done|unfold SBI_SMEPMP_RESV_ENTRY; lia|by apply rlb_unlocked]);
        exact E3].
      destruct (misa_read platform 83 h3 Hmisa) as [b Eb]. rewrite (csr_bind _ _ _ _ _ Eb). unfold mbind, csrM_bind.
      destruct b; [|done]. by destruct (misa_read platform 72 h3 Hmisa) as [b' ->]. }
    intros mode a k acc Ha Hc. unfold pmp_check. rewrite Ec3, Ea3, Hm3. cbn [check_entries].
    rewrite entry_match_off by done. unfold me_entry.
    rewrite (check_entries_regions Hhw _ _ (fun r => sbi_hart_get_smepmp_flags r.(flags))); [|..|done|].
    + apply first_region_me; [done|]. destruct Hc as [Hm|]; [left|by right]. split; [done|].
      unfold check_default. apply Z.eqb_neq in Hm. rewrite Hm. apply Nat.eqb_neq. lia.
    + eapply Forall_impl; [done|]. by intros r (? & _).
    + eapply Forall_impl; [done|]. by intros r (_ & ? & _).
    + rewrite Hrc. by apply Forall_drop.
Qed.
End Smepmp.

(** ** Reading an entry back *)

Lemma ctz_loop_spec t m fuel ret : (t < fuel)%nat ->
  ctz_loop fuel (2 ^ Z.of_nat t * (2 * m + 1)) ret = ret + Z.of_nat t.
Proof.
  revert fuel ret. induction t as [|t IH]; intros [|fuel] ret Hf; try lia; cbn [ctz_loop];
    change (Z.land ?x 1) with (Z.land x (2 ^ 1 - 1)); rewrite land_low by lia; change (2 ^ 1) with 2.
  - change (2 ^ Z.of_nat 0) with 1. rewrite Z.mul_1_l.
    replace ((2 * m + 1) `mod` 2) with 1 by (rewrite Z.add_comm, Z.mul_comm, Z_mod_plus_full; done). cbn. lia.
  - rewrite Nat2Z.inj_succ, Z.pow_succ_r by lia. set (x := 2 ^ Z.of_nat t * (2 * m + 1)).
    replace (2 * 2 ^ Z.of_nat t * (2 * m + 1)) with (x * 2) by (unfold x; lia). rewrite Z.mod_mul by lia. cbn [Z.eqb].
    rewrite Z.shiftr_div_pow2 by lia. change (2 ^ 1) with 2. rewrite Z.div_mul by lia. unfold x. rewrite IH by lia. lia.
Qed.

Lemma ctz_trailing q t : 0 <= q -> 0 <= t <= 60 -> q * 2 ^ (t + 1) + (2 ^ t - 1) < 2 ^ 62 ->
  ctz (u64 (Z.lnot (q * 2 ^ (t + 1) + (2 ^ t - 1)))) = t.
Proof.
  intros Hq Ht Hv. set (v := q * 2 ^ (t + 1) + (2 ^ t - 1)) in *. pose proof (pow2_pos t ltac:(lia)) as Hp.
  assert (2 ^ (t + 1) = 2 * 2 ^ t) as Ep by (rewrite Z.pow_add_r by lia; lia).
  assert (0 <= v) as Hv0 by (unfold v; nia).
  assert (2 ^ 64 = 2 ^ t * (2 * 2 ^ (63 - t))) as E64.
  { replace (2 * 2 ^ (63 - t)) with (2 ^ (64 - t)) by (rewrite <- Z.pow_succ_r by lia; f_equal; lia).
    rewrite <- Z.pow_add_r by lia. f_equal. lia. }
  assert (u64 (Z.lnot v) = 2 ^ t * (2 * (2 ^ (63 - t) - q - 1) + 1)) as ->.
  { unfold Z.lnot, wrap. symmetry. apply Z.mod_unique_pos with (-1); [|unfold v; nia]. 
    assert (2 ^ t * (2 * (2 ^ (63 - t) - q - 1) + 1) = 2 ^ 64 - 1 - v) as -> by (unfold v; nia). lia. }
  unfold ctz. destruct (Z.eqb_spec (2 ^ t * (2 * (2 ^ (63 - t) - q - 1) + 1)) 0) as [E|]; [nia|].
  pose proof (ctz_loop_spec (Z.to_nat t) (2 ^ (63 - t) - q - 1) 64 0 ltac:(lia)) as E.
  rewrite Z2Nat.id in E by lia. rewrite E. lia.
Qed.

Section RoundTrip.
Context {hw : Hw} (Hhw : hw_ok).

Local Set Default Proof Using "Type".

Lemma pmp_get_read h n : hart_ok h -> 0 <= n < Z.of_nat hw_pmps ->
  let prot := cfg_of h (Z.to_nat n) in let addr := addr_view prot (addr_of h (Z.to_nat n)) in
  pmp_get n h = Some ((SBI_OK,
    if Z.land prot PMP_A =? PMP_A_NAPOT then
      if addr =? u64 (-1) then (prot, 0, riscv_xlen)
      else let t1 := ctz (u64 (Z.lnot addr)) in
           (prot, u64 (Z.shiftl (Z.land addr (u64 (Z.lnot (u64 (Z.shiftl 1 t1 - 1))))) PMP_SHIFT), t1 + PMP_SHIFT + 1)
    else (prot, u64 (Z.shiftl addr PMP_SHIFT), PMP_SHIFT)), h).
Proof using Hhw.
  intros Hh Hn prot addr. unfold pmp_get.
  assert ((PMP_COUNT <=? n) = false) as -> by (destruct Hhw as (? & _); unfold PMP_COUNT; lia).
  rewrite (csr_bind _ _ _ _ _ (csr_read_cfg h n Hhw Hn)), (csr_bind _ _ _ _ _ (csr_read_addr h n Hhw Hn)).
  pose proof (Z.mod_pos_bound n 8). pose proof (Z.div_mod n 8).
  set (w := word_of _).
  assert (Z.shiftr (Z.land w (u64 (Z.shiftl 0xff (pmpcfg_shift n)))) (pmpcfg_shift n) = prot) as ->.
  { rewrite pmpcfg_shift_spec by lia. transitivity (byte_of w (n `mod` 8)).
    - apply Z.bits_inj'. intros i Hi. rewrite byte_of_testbit, Z.shiftr_spec, Z.land_spec, wrap_testbit, Z.shiftl_spec,
        testbit_ff by lia.
      repeat case_bool_decide; try lia; rewrite ?andb_true_r, ?andb_false_r; cbn [andb]; try done; f_equal; lia.
    - replace (n `mod` 8) with (Z.of_nat (Z.to_nat (n `mod` 8))) by lia. apply byte_of_word.
      + apply Forall_take, Forall_drop. by apply hart_ok_bytes.
      + rewrite lookup_take_lt, lookup_drop by lia. unfold prot, cfg_of.
        replace (8 * Z.to_nat (n / 8) + Z.to_nat (n `mod` 8))%nat with (Z.to_nat n) by lia.
        destruct (h.(pmpcfgs) !! Z.to_nat n) eqn:E; [done|]. apply lookup_ge_None in E. destruct Hh as (? & _). lia. }
  change (addr_view (cfg_of h (Z.to_nat n)) (addr_of h (Z.to_nat n))) with addr. clearbody prot addr.
  destruct (_ =? PMP_A_NAPOT); [|done]. by destruct (addr =? _).
Qed.

(** [pmp_get] reads back what [pmp_set] wrote: the same protection bits with
    the address-matching mode, base and size, for every naturally aligned region
    that the hardware's granularity and address width can hold. *)
Theorem pmp_set_get_roundtrip h n prot r :
  hart_ok h -> 0 <= n < Z.of_nat hw_pmps -> addr_locked h (Z.to_nat n) = false ->
  region_wf r -> hw_fits r -> r.(order) < hw_addr_bits + 3 ->
  exists h', pmp_set n prot r.(base) r.(order) h = Some (SBI_OK, h') /\
    pmp_get n h' = Some ((SBI_OK, (Z.lor (Z.land prot 0x87) PMP_A_NAPOT, r.(base), r.(order))), h').
Proof using Hhw.
  intros Hh Hn Hl Hr Hf Hord. destruct (region_wf_spec r Hr) as (Ho & Hb0 & _ & Hend & _).
  pose proof Hh as (Hl1 & Hl2 & _). eexists. split; [apply pmp_set_effect; try done; lia|].
  set (h' := set_cfg _ _ _). rewrite pmp_get_read; [|by apply set_hart_ok, entry_cfg_ok|done].
  unfold cfg_of, addr_of, h', set_cfg, set_addr. cbn [pmpcfgs pmpaddrs]. rewrite !list_lookup_insert_eq by lia. cbn [default].
  unfold id. rewrite entry_cfg_mode. destruct (Z.eqb_spec (order r) 2); [lia|]. change (PMP_A_NAPOT =? PMP_A_NAPOT) with true.
  destruct (entry_addr_spec Hhw r Hr Hf) as (q & t & Hq & Ht & Hg & Et & Eb & ->). rewrite Z.min_l in Et by lia.
  destruct Hhw as (_ & Hgr & Hab). set (v := q * 2 ^ (t + 1) + (2 ^ t - 1)).
  assert (addr_view (entry_cfg prot (order r)) v = v) as ->.
  { unfold addr_view. rewrite entry_cfg_bit4. destruct (Z.leb_spec 2 hw_grain); [|done]. apply lor_trailing; lia. }
  pose proof (pow2_pos t Ht). assert (2 ^ (t + 1) = 2 * 2 ^ t) as E1 by (rewrite Z.pow_add_r by lia; lia).
  assert (2 ^ (t + 3) = 4 * 2 ^ (t + 1)) as E3
    by (replace (t + 3) with (t + 1 + 2) by lia; rewrite (Z.pow_add_r 2 (t + 1)) by lia; lia).
  assert (2 ^ order r = 2 ^ (t + 3)) as Eo by (f_equal; lia).
  assert (0 <= v < 2 ^ 62) as Hv by (unfold v; nia).
  change (u64 (-1)) with (2 ^ 64 - 1). destruct (Z.eqb_spec v (2 ^ 64 - 1)); [lia|]. cbv zeta.
  assert (ctz (u64 (Z.lnot v)) = t) as -> by (apply ctz_trailing; fold v; lia). f_equal. f_equal. f_equal. unfold PMP_SHIFT at 2. f_equal; [|lia]. f_equal.
  - unfold entry_cfg. destruct (Z.eqb_spec (order r) PMP_SHIFT); [unfold PMP_SHIFT in *; lia|].
    rewrite Z.land_lor_distr_l, <- Z.land_assoc. done.
  - rewrite shl1 by lia. assert (2 ^ t <= 2 ^ 62) by (apply Z.pow_le_mono_r; lia).
    rewrite (wrap_small 64 (2 ^ t - 1)) by (unfold in_range; lia).
    replace (Z.land v (u64 (Z.lnot (2 ^ t - 1)))) with (Z.land v (Z.lnot (2 ^ t - 1))).
    2: { zbits i Hi. case_bool_decide; [done|]. rewrite (testbit_above 62 v); [done|unfold in_range; lia|lia]. }
    rewrite land_lnot_ones by lia. replace (v `mod` 2 ^ t) with (2 ^ t - 1).
    2: { apply Z.mod_unique_pos with (2 * q); [lia|unfold v; lia]. }
    rewrite Z.shiftl_mul_pow2 by (unfold PMP_SHIFT; lia). change (2 ^ PMP_SHIFT) with 4.
    rewrite wrap_small; unfold in_range, v; nia.
Qed.
End RoundTrip.

(** ** Sharing memory with S mode under Smepmp *)

Section Saddr.
Context {hw : Hw} (Hhw : hw_ok).

Local Set Default Proof Using "Type".

Lemma saddr_loop_spec fuel addr size : forall ord,
  0 <= addr -> 1 <= size -> addr + size <= 2 ^ 60 -> 2 <= ord <= 60 -> (Z.to_nat (60 - ord) < fuel)%nat ->
  exists b o, saddr_loop fuel addr size ord = Some (b, o) /\ ord <= o <= 60 /\ covers b o addr size.
Proof.
  induction fuel as [|fuel IH]; intros ord Ha Hs He Ho Hf; [lia|]. cbn [saddr_loop]. unfold riscv_xlen.
  destruct (Z.ltb_spec 64 ord); [lia|]. destruct (Z.ltb_spec ord 64); [|lia]. cbv zeta.
  rewrite round_down, shl1, (wrap_small 64 (addr + size - 1)) by (unfold in_range; lia).
  pose proof (pow2_pos ord ltac:(lia)) as Hp. set (b := addr / 2 ^ ord * 2 ^ ord).
  assert (0 <= b <= addr) as Hb.
  { unfold b. pose proof (Z.div_mod addr (2 ^ ord)). pose proof (Z.mod_pos_bound addr (2 ^ ord)).
    pose proof (Z.div_pos addr (2 ^ ord)). nia. }
  assert (2 ^ ord <= 2 ^ 60) by (apply Z.pow_le_mono_r; lia).
  assert (b `mod` 2 ^ ord = 0) as Hbm by (unfold b; apply Z.mod_mul; lia).
  rewrite (wrap_small 64 (b + 2 ^ ord)) by (unfold in_range; lia).
  destruct (_ && _ && _ && _) eqn:Ec.
  - rewrite !andb_true_iff in Ec. destruct Ec as [[[_ C1] _] C2]. exists b, ord. split_and!; [done|lia|lia|].
    split_and!; [lia|done|lia|lia].
  - destruct (decide (ord = 60)) as [->|].
    + assert (b = 0) as Eb by (unfold b; rewrite Z.div_small by lia; lia). lia.
    + destruct (IH (ord + 1)) as (b' & o' & E & Ho' & Hc); try lia. exists b', o'. split_and!; [done|lia|lia|done].
Qed.

(** The entry of the block covers the shared bytes. *)
Lemma entry_range_block prot b o prev addr size : covers b o addr size -> 1 <= size -> addr + size <= 2 ^ (hw_addr_bits + 2) ->
  hw_grain + 2 <= o <= 60 ->
  exists lo hi, entry_range (entry_cfg prot o) (entry_addr b o) prev = Some (lo, hi) /\ lo <= addr /\ addr + size <= hi.
Proof using Hhw.
  intros (Hb & Hm & Hlo & Hhi) Hs Hpa Ho. pose proof Hhw as (_ & Hg & Hab).
  assert (2 ^ (hw_addr_bits + 2) = 4 * 2 ^ hw_addr_bits) as E4 by (rewrite Z.pow_add_r by lia; lia).
  assert (2 ^ (hw_addr_bits + 2) <= 2 ^ 56) by (apply Z.pow_le_mono_r; lia).
  assert (b / 4 < 2 ^ hw_addr_bits) as Hb4 by (apply Z.div_lt_upper_bound; lia).
  assert (0 <= b / 4) by (apply Z.div_pos; lia).
  destruct (decide (o = 2)) as [->|Hne].
  - unfold entry_range. rewrite entry_cfg_mode. change (2 =? 2) with true. cbv iota.
    change (PMP_A_NA4 =? PMP_A_TOR) with false. change (PMP_A_NA4 =? PMP_A_NA4) with true. cbv iota.
    unfold addr_view. rewrite entry_cfg_bit4. destruct (Z.leb_spec 2 hw_grain); [lia|].
    unfold entry_addr. change (pmpaddr_encode b 2) with (Z.shiftr b 2). rewrite Z.shiftr_div_pow2, land_low by lia.
    change (2 ^ 2) with 4 in *. rewrite Z.mod_small by lia. eexists _, _. split; [done|].
    pose proof (Z.div_mod b 4). lia.
  - set (r := Region o b 0). assert (region_wf r) as Hr.
    { split; [|unfold in_range; cbn; lia]. unfold is_region_valid, riscv_xlen. cbn [order base r].
      destruct (Z.ltb_spec o 3), (Z.ltb_spec 64 o), (Z.eqb_spec o 64), (Z.ltb_spec o 64); try lia.
      rewrite shl1, land_low, Hm by lia. done. }
    pose proof (entry_range_region Hhw r prot prev Hr) as E. cbn [order base r] in E.
    rewrite E by (unfold hw_fits; cbn; lia). eexists _, _. split; [done|]. split; [lia|].
    destruct (Z.min_spec o (hw_addr_bits + 3)) as [[? ->]|[? ->]]; [lia|].
    assert (2 ^ (hw_addr_bits + 2) <= 2 ^ (hw_addr_bits + 3)) by (apply Z.pow_le_mono_r; lia). lia.
Qed.

Lemma check_entries_prev m d cfgs addrs p1 p2 mode a w acc :
  Z.land (default 0 (cfgs !! 0%nat)) PMP_A <> PMP_A_TOR ->
  check_entries m d cfgs addrs p1 mode a w acc = check_entries m d cfgs addrs p2 mode a w acc.
Proof.
  intros Ht. destruct cfgs as [|c cfgs], addrs as [|v addrs]; try done. cbn in Ht |- *.
  unfold entry_match, entry_range. apply Z.eqb_neq in Ht. by rewrite Ht.
Qed.

Lemma entry_mapped h n : hart_ok h -> 0 <= n < Z.of_nat hw_pmps ->
  is_pmp_entry_mapped n h = Some (has (cfg_of h (Z.to_nat n)) PMP_A, h).
Proof using Hhw.
  intros Hh Hn. unfold is_pmp_entry_mapped. rewrite (csr_bind _ _ _ _ _ (pmp_get_read Hhw h n Hh Hn)).
  destruct (_ =? PMP_A_NAPOT); [destruct (_ =? u64 (-1))|]; done.
Qed.

Lemma saddr_window f h addr size :
  sbi_hart_has_extension f SBI_HART_EXT_SMEPMP = true -> f.(pmp_log2gran) = hw_grain + 2 ->
  hart_ok h -> rlb h = true -> mml h = true -> off (cfg_of h 0) -> Z.land (cfg_of h 1) PMP_A <> PMP_A_TOR ->
  (0 < hw_pmps)%nat -> 0 <= addr -> 1 <= size -> addr + size <= 2 ^ (hw_addr_bits + 2) ->
  exists h', sbi_hart_map_saddr f addr size h = Some (SBI_OK, h') /\
    (forall mode a w acc, addr <= a -> 1 <= w -> a + w <= addr + size ->
       pmp_check h' mode a w acc = match acc with AccX => false | _ => true end) /\
    (forall addr' size', sbi_hart_map_saddr f addr' size' h' = Some (SBI_ENOSPC, h')) /\
    exists h'', sbi_hart_unmap_saddr f h' = Some (SBI_OK, h'') /\
      forall mode a w acc, pmp_check h'' mode a w acc = pmp_check h mode a w acc.
Proof using Hhw.
  intros Hext Hgran Hh Hrlb Hmml Hoff Htor Hpos Ha Hs Hpa. unfold sbi_hart_map_saddr, sbi_hart_unmap_saddr.
  rewrite Hext, Hgran. cbn [negb]. unfold SBI_SMEPMP_RESV_ENTRY. pose proof Hhw as (_ & Hg & Hab).
  assert (2 ^ (hw_addr_bits + 2) <= 2 ^ 56) by (apply Z.pow_le_mono_r; lia).
  assert (log2roundup size <= 60) as Hl2.
  { destruct (decide (log2roundup size <= 60)); [done|]. destruct (log2roundup_spec size) as (_ & _ & Hmin).
    pose proof (Hmin 60 ltac:(lia)). lia. }
  destruct (log2roundup_spec size) as ([Hl0 _] & _).
  destruct (saddr_loop_spec 66 addr size (Z.max (hw_grain + 2) (log2roundup size))) as (b & o & Eloop & Ho & Hcov); try lia.
  assert (has (cfg_of h (Z.to_nat 0)) PMP_A = false) as Hnot by (change (Z.to_nat 0) with 0%nat; unfold has; by rewrite Hoff).
  pose proof Hh as (Hlc & Hla & _). destruct h as [[|c0 cfgs] [|v0 addrs] cs]; cbn in Hlc, Hla; try lia.
  set (h := Hart (c0 :: cfgs) (v0 :: addrs) cs) in *.
  set (e := entry_cfg (Z.lor PMP_W PMP_X) o). set (v := entry_addr b o).
  set (h' := Hart (e :: cfgs) (v :: addrs) cs).
  assert (hart_ok h') as Hh' by (apply (set_hart_ok h 0 v e Hh), entry_cfg_ok).
  assert (pmp_set 0 (Z.lor PMP_W PMP_X) b o h = Some (SBI_OK, h')) as Eset.
  { apply (pmp_set_effect h 0); try done; try lia. by apply rlb_unlocked. }
  exists h'. split_and!.
  - rewrite (csr_bind _ _ _ _ _ (entry_mapped h 0 Hh ltac:(lia))), Hnot, Eloop. by rewrite (csr_bind _ _ _ _ _ Eset).
  - intros mode a w acc Hlo Hw Hhi. unfold pmp_check. change (mml h') with (mml h). rewrite Hmml.
    cbn [pmpcfgs pmpaddrs h' check_entries]. unfold entry_match.
    destruct (entry_range_block (Z.lor PMP_W PMP_X) b o 0 addr size Hcov Hs Hpa ltac:(lia)) as (lo & hi & E & H1 & H2).
    fold e v in E. rewrite E. destruct (Z.leb_spec hi a), (Z.leb_spec (a + w) lo), (Z.leb_spec lo a), (Z.leb_spec (a + w) hi); try lia. cbn [orb andb].
    unfold entry_allows, e. rewrite has_mml_perms. by destruct (mode =? PRV_M), acc.
  - intros addr' size'. rewrite (csr_bind _ _ _ _ _ (entry_mapped h' 0 Hh' ltac:(lia))).
    change (cfg_of h' (Z.to_nat 0)) with e. unfold has, e. rewrite entry_cfg_mode. by destruct (o =? 2).
  - exists (set_cfg h' 0 0). split; [apply (pmp_disable_effect h' 0); try done; [lia|by apply rlb_unlocked]|].
    intros mode a w acc. unfold pmp_check. change (mml (set_cfg h' 0 0)) with (mml h).
    change (check_default (set_cfg h' 0 0) mode acc) with (check_default h mode acc).
    cbn [pmpcfgs pmpaddrs set_cfg h' h check_entries insert list_insert]. rewrite !entry_match_off by done.
    by apply check_entries_prev.
Qed.

(** [sbi_hart_map_saddr] gives M mode and S and U mode read and write access
    to every byte of the range it is called with (and no mode execute access),
    refuses a second mapping, and [sbi_hart_unmap_saddr] leaves every access
    decided as it was before. *)
Theorem map_saddr_shares f h addr size :
  sbi_hart_has_extension f SBI_HART_EXT_SMEPMP = true -> f.(pmp_log2gran) = hw_grain + 2 ->
  hart_ok h -> rlb h = true -> mml h = true -> off (cfg_of h 0) -> Z.land (cfg_of h 1) PMP_A <> PMP_A_TOR ->
  (0 < hw_pmps)%nat -> 0 <= addr -> 1 <= size -> addr + size <= 2 ^ (hw_addr_bits + 2) ->
  exists h', sbi_hart_map_saddr f addr size h = Some (SBI_OK, h') /\
    (forall mode a w acc, addr <= a -> 1 <= w -> a + w <= addr + size ->
       pmp_check h' mode a w acc = match acc with AccX => false | _ => true end) /\
    (forall addr' size', sbi_hart_map_saddr f addr' size' h' = Some (SBI_ENOSPC, h')) /\
    exists h'', sbi_hart_unmap_saddr f h' = Some (SBI_OK, h'') /\
      forall mode a w acc, pmp_check h'' mode a w acc = pmp_check h mode a w acc.
Proof using Hhw. apply saddr_window. Qed.
End Saddr.

(** ** Concrete harts *)

(** Sixteen entries, the given granularity, 54 address bits, and every other
    register fully writable. *)
Definition hw16 (grain : Z) : Hw :=
  {| hw_pmp_csrs := 64; hw_pmps := 16; hw_grain := grain; hw_addr_bits := 54; hw_mask := fun _ => Some (2 ^ 64 - 1) |}.

Definition hart16 : hart := Hart (replicate 16 0) (replicate 16 0) ∅.

Definition features16 (grain : Z) (ext : Z) : sbi_hart_features := Features true 3 [ext] 16 54 (grain + 2) 0 64.

(** The firmware's memory for M mode inside memory for S and U mode. *)
Definition regs16 : list sbi_domain_memregion := [Region 19 0x80000000 0x05; Region 64 0 0x38].

Lemma hw16_ok grain : 0 <= grain <= 51 -> @hw_ok (hw16 grain).
Proof. intros. unfold hw_ok. cbn. lia. Qed.

Lemma hart16_ok grain : @hart_ok (hw16 grain) hart16.
Proof. unfold hart_ok. cbn. split_and!; [done..|]. repeat constructor. Qed.

Lemma regs16_wf : Forall region_wf regs16.
Proof. repeat constructor; vm_compute; congruence. Qed.

Lemma pmp_configure_enforces_domain_witness :
  exists h', @sbi_hart_pmp_configure (hw16 10) (fun _ => true) (features16 10 0) regs16 hart16 = Some (0, h') /\
    @pmp_check (hw16 10) h' PRV_S 0x80000008 (2 ^ 3) AccR = false /\
    @pmp_check (hw16 10) h' PRV_S 0x80080000 (2 ^ 3) AccW = true.
Proof.
  destruct (pmp_configure_enforces_domain (hw16_ok 10 ltac:(lia)) (fun _ => true) (features16 10 0) regs16 hart16)
    as (h' & E & H).
  - split_and!; reflexivity.
  - reflexivity.
  - apply hart16_ok.
  - repeat constructor.
  - reflexivity.
  - discriminate.
  - cbn; lia.
  - exact regs16_wf.
  - repeat constructor; vm_compute; congruence.
  - cbn; lia.
  - exists h'. split; [exact E|]. rewrite !H; [split; vm_compute; reflexivity|..]; try (by left);
      unfold aligned_access; cbn; split_and!; try lia; reflexivity.
Defined.

Lemma regs16_encodable : Forall (@encodable (hw16 10)) regs16.
Proof. repeat constructor; vm_compute; congruence. Qed.

Lemma smepmp_configure_enforces_domain_witness :
  exists h', @sbi_hart_pmp_configure (hw16 10) (fun _ => true) (features16 10 2) regs16 hart16 = Some (0, h') /\
    @pmp_check (hw16 10) h' PRV_M 0x80000008 (2 ^ 3) AccX = true /\
    @pmp_check (hw16 10) h' PRV_M 0x80080000 (2 ^ 3) AccR = false /\
    @pmp_check (hw16 10) h' PRV_S 0x80080000 (2 ^ 3) AccR = true.
Proof.
  destruct (smepmp_configure_enforces_domain (hw16_ok 10 ltac:(lia)) (fun _ => true) (features16 10 2) regs16 hart16)
    as (h' & E & H).
  - split_and!; reflexivity.
  - reflexivity.
  - by exists (2 ^ 64 - 1).
  - discriminate.
  - apply hart16_ok.
  - repeat constructor.
  - reflexivity.
  - exact regs16_encodable.
  - cbn; lia.
  - exists h'. split; [exact E|]. rewrite !H; [split_and!; vm_compute; reflexivity|..];
      try (left; discriminate); try (right; repeat ((left; reflexivity) || right));
      unfold aligned_access; cbn; split_and!; try lia; reflexivity.
Defined.

Lemma pmp_set_get_roundtrip_witness :
  exists h', @pmp_set (hw16 10) 9 PMP_R 0x80000000 19 hart16 = Some (SBI_OK, h') /\
    @pmp_get (hw16 10) 9 h' = Some ((SBI_OK, (Z.lor (Z.land PMP_R 0x87) PMP_A_NAPOT, 0x80000000, 19)), h').
Proof.
  apply (pmp_set_get_roundtrip (hw16_ok 10 ltac:(lia)) hart16 9 PMP_R (Region 19 0x80000000 0)).
  - apply hart16_ok.
  - cbn; lia.
  - reflexivity.
  - split; vm_compute; split; congruence.
  - split; vm_compute; congruence.
  - cbn; lia.
Defined.

(** The whole address space is read back with another size where [pmpaddr] has
    fewer than 64 bits. *)
Example pmp_get_all_memory :
  match @pmp_set (hw16 0) 9 PMP_R 0 64 hart16 with
  | Some (_, h') => @pmp_get (hw16 0) 9 h' = Some ((SBI_OK, (Z.lor PMP_R PMP_A_NAPOT, 0, 57)), h')
  | None => False
  end.
Proof. vm_compute. reflexivity. Qed.

Definition mml_hart : hart := Hart (replicate 16 0) (replicate 16 0) {[ CSR_MSECCFG := Z.lor MSECCFG_MML MSECCFG_RLB ]}.

Lemma map_saddr_shares_witness :
  exists h', @sbi_hart_map_saddr (hw16 10) (features16 10 2) 0x80201004 16 mml_hart = Some (SBI_OK, h') /\
    @pmp_check (hw16 10) h' PRV_M 0x80201008 4 AccW = true.
Proof.
  destruct (map_saddr_shares (hw16_ok 10 ltac:(lia)) (features16 10 2) mml_hart 0x80201004 16) as (h' & E & H & _).
  - reflexivity.
  - reflexivity.
  - apply (hart16_ok 10).
  - reflexivity.
  - reflexivity.
  - reflexivity.
  - discriminate.
  - cbn; lia.
  - lia.
  - lia.
  - vm_compute; discriminate.
  - exists h'. split; [exact E|]. apply (H PRV_M 0x80201008 4 AccW); lia.
Defined.

(** A region below the granularity gets no entry, and the region around it
    decides: S mode may read what the domain denies it. *)
Example small_region_unprotected :
  let regs := [Region 8 0x80000000 0x07; Region 64 0 0x38] in
  match @sbi_hart_pmp_configure (hw16 10) (fun _ => true) (features16 10 0) regs hart16 with
  | Some (rc, h') => rc = 0 /\ @pmp_check (hw16 10) h' PRV_S 0x80000000 8 AccR = true /\
                     domain_grants regs 0x80000000 PRV_S AccR = false
  | None => False
  end.
Proof. vm_compute. split_and!; reflexivity. Qed.

(** With Smepmp, one region whose permissions have no encoding ends the
    configuration with success: the regions after it have no entry. *)
Example smepmp_stops_early :
  let regs := [Region 12 0x10000000 0; Region 19 0x80000000 0x18] in
  match @sbi_hart_pmp_configure (hw16 10) (fun _ => true) (features16 10 2) regs hart16 with
  | Some (rc, h') => rc = 0 /\ @pmp_check (hw16 10) h' PRV_S 0x80000000 8 AccR = false /\
                     domain_grants regs 0x80000000 PRV_S AccR = true
  | None => False
  end.
Proof. vm_compute. split_and!; reflexivity. Qed.
