(* ===== verification/HartFeat.v ===== *)
(** * Features of a hart and its initialisation (lib/sbi/sbi_hart.c, 64-bit).

    [hart_detect_features] probes the registers of the hart; the theorems show
    that what it finds out about the PMP is what the hardware has, so that the
    configuration of the PMP that follows enforces the domain, and what
    [sbi_hart_switch_mode] leaves in the registers when the hart leaves M mode.

    [platform] stands for [sbi_platform_misa_extension], [extensions_init] for
    [sbi_platform_extensions_init] (its result and the features it leaves),
    [pmu_irq_mask] for [sbi_pmu_irq_mask]. *)

From S2P Require Import Prelude SbiTypes Bitops Domain Csr Pmp PmpProps.

Local Open Scope Z_scope.

(** ** Constants *)

Definition SBI_HART_PRIV_VER_UNKNOWN : Z := 0.
Definition SBI_HART_PRIV_VER_1_10 : Z := 1.
Definition SBI_HART_PRIV_VER_1_11 : Z := 2.
Definition SBI_HART_PRIV_VER_1_12 : Z := 3.

Definition SBI_HART_EXT_SMSTATEEN : Z := 2.
Definition SBI_HART_EXT_SSCOFPMF : Z := 3.
Definition SBI_HART_EXT_SSTC : Z := 4.
Definition SBI_HART_EXT_ZICNTR : Z := 5.
Definition SBI_HART_EXT_ZIHPM : Z := 6.
Definition SBI_HART_EXT_ZKR : Z := 7.
Definition SBI_HART_EXT_SMCNTRPMF : Z := 8.
Definition SBI_HART_EXT_ZICBOZ : Z := 10.
Definition SBI_HART_EXT_ZICBOM : Z := 11.
Definition SBI_HART_EXT_SVPBMT : Z := 12.
Definition SBI_HART_EXT_SDTRIG : Z := 13.
Definition SBI_HART_EXT_SMCSRIND : Z := 14.
Definition SBI_HART_EXT_SMCDELEG : Z := 15.
Definition SBI_HART_EXT_SVADE : Z := 18.
Definition SBI_HART_EXT_SVADU : Z := 19.

Definition MSTATUS_MPIE : Z := 0x80.
Definition MSTATUS_MPP : Z := 0x1800.
Definition MSTATUS_FS : Z := 0x6000.
Definition MSTATUS_VS : Z := 0x600.
Definition MSTATUS_MPV : Z := 2 ^ 39.
Definition MHPMEVENT_OF : Z := 2 ^ 63.
Definition MHPMEVENT_MINH : Z := 2 ^ 62.
Definition CSR_FCSR : Z := 0x003.

Definition letter_D : Z := 68.
Definition letter_F : Z := 70.
Definition letter_H : Z := 72.
Definition letter_N : Z := 78.
Definition letter_S : Z := 83.
Definition letter_U : Z := 85.
Definition letter_V : Z := 86.

Section Hart.
Context {hw : Hw} (platform : Z -> bool).

(** ** Extensions *)

(** The update is outside of the array when it has no word for the extension. *)
Definition sbi_hart_update_extension (f : sbi_hart_features) (ext : Z) (enable : bool) : csrM sbi_hart_features :=
  match (if enable then __set_bit ext f.(extensions) else __clear_bit ext f.(extensions)) with
  | Some e => mret (Features f.(detected) f.(priv_version) e f.(pmp_count) f.(pmp_addr_bits) f.(pmp_log2gran)
                             f.(mhpm_mask) f.(mhpm_bits))
  | None => sbi_panic
  end.

Definition set_priv (f : sbi_hart_features) (v : Z) : sbi_hart_features :=
  Features f.(detected) v f.(extensions) f.(pmp_count) f.(pmp_addr_bits) f.(pmp_log2gran) f.(mhpm_mask) f.(mhpm_bits).
Definition set_pmp (f : sbi_hart_features) (count bits gran : Z) : sbi_hart_features :=
  Features f.(detected) f.(priv_version) f.(extensions) count bits gran f.(mhpm_mask) f.(mhpm_bits).
Definition set_mhpm (f : sbi_hart_features) (mask bits : Z) : sbi_hart_features :=
  Features f.(detected) f.(priv_version) f.(extensions) f.(pmp_count) f.(pmp_addr_bits) f.(pmp_log2gran) mask bits.
Definition set_detected (f : sbi_hart_features) : sbi_hart_features :=
  Features true f.(priv_version) f.(extensions) f.(pmp_count) f.(pmp_addr_bits) f.(pmp_log2gran) f.(mhpm_mask) f.(mhpm_bits).

(** ** Detection *)

Definition hart_pmp_get_allowed_addr : csrM Z :=
  ok ← csr_write_allowed CSR_PMPCFG0 0;
  if negb ok then mret 0
  else
    ok ← csr_write_allowed CSR_PMPADDR0 PMP_ADDR_MASK;
    if negb ok then mret 0
    else v ← csr_read_allowed CSR_PMPADDR0; mret (default 0 v).

Definition hart_mhpm_get_allowed_bits : csrM Z :=
  ok ← csr_write_allowed CSR_MHPMCOUNTER3 (u64 (Z.lnot 0));
  if negb ok then mret (sbi_fls (u64 (Z.lnot 0)) + 1)
  else v ← csr_read_allowed CSR_MHPMCOUNTER3;
       match v with None => mret 0 | Some v => mret (sbi_fls v + 1) end.

(** [__check_hpm_csr]: the mask with the bit of a counter that holds what is
    written. *)
Definition check_hpm_csr (csr mask : Z) : csrM Z :=
  old ← csr_read_allowed csr;
  match old with
  | None => mret mask
  | Some oldval =>
      ok ← csr_write_allowed csr 1;
      if negb ok then mret mask
      else v ← csr_swap csr oldval;
           mret (if v =? 1 then Z.lor mask (u32 (Z.shiftl 1 (csr - CSR_MCYCLE))) else mask)
  end.

(** [__check_hpm_csr_2] and its multiples: [n] counters from [csr]. *)
Fixpoint check_hpm_csrs (n : nat) (csr mask : Z) : csrM Z :=
  match n with
  | O => mret mask
  | S n => mask ← check_hpm_csr csr mask; check_hpm_csrs n (csr + 1) mask
  end.

(** [__check_csr_64] with [rdonly] clear: counts registers until one does not hold
    the value. *)
Fixpoint check_csrs (n : nat) (csr wrval count : Z) : csrM Z :=
  match n with
  | O => mret count
  | S n =>
      old ← csr_read_allowed csr;
      match old with
      | None => mret count
      | Some oldval =>
          ok ← csr_write_allowed csr wrval;
          if negb ok then mret count
          else v ← csr_swap csr oldval;
               if Z.land v wrval =? wrval then check_csrs n (csr + 1) wrval (count + 1) else mret count
      end
  end.

(** [__check_priv] *)
Definition check_priv (f : sbi_hart_features) (csr base_priv priv : Z) : csrM sbi_hart_features :=
  v ← csr_read_allowed csr;
  mret (match v with
        | Some _ => if base_priv <=? f.(priv_version) then set_priv f priv else f
        | None => f
        end).

(** [__check_ext_csr] *)
Definition check_ext_csr (f : sbi_hart_features) (base_priv csr ext : Z) : csrM sbi_hart_features :=
  if base_priv <=? f.(priv_version) then
    v ← csr_read_allowed csr;
    match v with Some _ => sbi_hart_update_extension f ext true | None => mret f end
  else mret f.

Definition SBI_EILL : Z := -1002.

Definition detect_pmp (f : sbi_hart_features) : csrM sbi_hart_features :=
  val ← hart_pmp_get_allowed_addr;
  if negb (val =? 0) then
    count ← check_csrs 64 CSR_PMPADDR0 val f.(pmp_count);
    mret (set_pmp f count (sbi_fls val + 1) (sbi_ffs val + 2))
  else mret f.

Definition detect_mhpm (f : sbi_hart_features) : csrM sbi_hart_features :=
  mask ← check_hpm_csr CSR_MHPMCOUNTER3 f.(mhpm_mask);
  bits ← hart_mhpm_get_allowed_bits;
  mask ← check_hpm_csrs 28 (CSR_MHPMCOUNTER3 + 1) mask;
  mret (set_mhpm f mask bits).

Definition detect_priv (f : sbi_hart_features) : csrM sbi_hart_features :=
  f ← check_priv f CSR_MCOUNTEREN SBI_HART_PRIV_VER_UNKNOWN SBI_HART_PRIV_VER_1_10;
  f ← check_priv f CSR_MCOUNTINHIBIT SBI_HART_PRIV_VER_1_10 SBI_HART_PRIV_VER_1_11;
  check_priv f CSR_MENVCFG SBI_HART_PRIV_VER_1_11 SBI_HART_PRIV_VER_1_12.

Definition detect_ext (f : sbi_hart_features) : csrM sbi_hart_features :=
  f ← check_ext_csr f SBI_HART_PRIV_VER_1_11 CSR_SCOUNTOVF SBI_HART_EXT_SSCOFPMF;
  f ← check_ext_csr f SBI_HART_PRIV_VER_UNKNOWN CSR_TIME SBI_HART_EXT_ZICNTR;
  f ← check_ext_csr f SBI_HART_PRIV_VER_UNKNOWN CSR_MTOPI SBI_HART_EXT_SMAIA;
  f ← check_ext_csr f SBI_HART_PRIV_VER_1_12 CSR_STIMECMP SBI_HART_EXT_SSTC;
  f ← check_ext_csr f SBI_HART_PRIV_VER_1_12 CSR_MSTATEEN0 SBI_HART_EXT_SMSTATEEN;
  f ← check_ext_csr f SBI_HART_PRIV_VER_1_12 CSR_MCYCLECFG SBI_HART_EXT_SMCNTRPMF;
  check_ext_csr f SBI_HART_PRIV_VER_UNKNOWN CSR_TSELECT SBI_HART_EXT_SDTRIG.

Definition hart_detect_features (extensions_init : sbi_hart_features -> Z * sbi_hart_features)
    (f : sbi_hart_features) : csrM (Z * sbi_hart_features) :=
  if f.(detected) then mret (0, f)
  else
    let f := Features false SBI_HART_PRIV_VER_UNKNOWN (map (fun _ => 0) f.(extensions)) 0 f.(pmp_addr_bits)
                      f.(pmp_log2gran) 0 f.(mhpm_bits) in
    f ← detect_pmp f;
    f ← detect_mhpm f;
    f ← detect_priv f;
    f ← detect_ext f;
    let has_zicntr := sbi_hart_has_extension f SBI_HART_EXT_ZICNTR in
    let '(rc, f) := extensions_init f in
    if negb (rc =? 0) then mret (rc, f)
    else
      f ← sbi_hart_update_extension f SBI_HART_EXT_ZICNTR has_zicntr;
      f ← (if negb (f.(mhpm_mask) =? 0) then sbi_hart_update_extension f SBI_HART_EXT_ZIHPM true else mret f);
      let f := set_detected f in
      if sbi_hart_has_extension f SBI_HART_EXT_SMEPMP then
        v ← csr_read CSR_MSECCFG;
        mret (if has v MSECCFG_MML then SBI_EILL else 0, f)
      else mret (0, f).

(** ** Initialisation *)

Definition not_ (m : Z) : Z := u64 (Z.lnot m).

(** [for (cidx = 0; cidx <= 28; cidx++)] of [mstatus_init]. *)
Fixpoint mhpmevent_init (n : nat) (cidx mhpm_mask : Z) : csrM unit :=
  match n with
  | O => mret tt
  | S n =>
      (if negb (has mhpm_mask (u32 (Z.shiftl 1 (cidx + 3)))) then mret tt
       else csr_write_num (CSR_MHPMEVENT3 + cidx) (Z.lor MHPMEVENT_OF MHPMEVENT_MINH));;
      mhpmevent_init n (cidx + 1) mhpm_mask
  end.

Definition SMSTATEEN_STATEN : Z := 2 ^ 63.
Definition SMSTATEEN0_HSENVCFG : Z := 2 ^ 62.
Definition SMSTATEEN0_SVSLCT : Z := 2 ^ 60.
Definition SMSTATEEN0_AIA : Z := 2 ^ 59.
Definition SMSTATEEN0_IMSIC : Z := 2 ^ 58.
Definition SMSTATEEN0_CONTEXT : Z := 2 ^ 57.
Definition ENVCFG_STCE : Z := 2 ^ 63.
Definition ENVCFG_PBMTE : Z := 2 ^ 62.
Definition ENVCFG_ADUE : Z := 2 ^ 61.
Definition ENVCFG_CDE : Z := 2 ^ 60.
Definition ENVCFG_DTE : Z := 2 ^ 59.
Definition ENVCFG_CBZE : Z := 2 ^ 7.
Definition ENVCFG_CBCFE : Z := 2 ^ 6.
Definition ENVCFG_CBIE_INV : Z := 3.
Definition ENVCFG_CBIE_SHIFT : Z := 4.

Definition mstateen0_value (f : sbi_hart_features) (v : Z) : Z :=
  let smaia := sbi_hart_has_extension f SBI_HART_EXT_SMAIA in
  let smcsrind := sbi_hart_has_extension f SBI_HART_EXT_SMCSRIND in
  let v := orl [v; SMSTATEEN_STATEN; SMSTATEEN0_CONTEXT; SMSTATEEN0_HSENVCFG] in
  let aia := Z.lor SMSTATEEN0_AIA SMSTATEEN0_IMSIC in
  let v := if smaia then Z.lor v aia else Z.land v (not_ aia) in
  if smaia || smcsrind then Z.lor v SMSTATEEN0_SVSLCT else Z.land v (not_ SMSTATEEN0_SVSLCT).

Definition menvcfg_value (f : sbi_hart_features) (v : Z) : Z :=
  let v := Z.land v (not_ ENVCFG_DTE) in
  let set_ext v ext bits := if sbi_hart_has_extension f ext then Z.lor v bits else v in
  let v := set_ext v SBI_HART_EXT_ZICBOZ ENVCFG_CBZE in
  let v := set_ext v SBI_HART_EXT_ZICBOM ENVCFG_CBCFE in
  let v := set_ext v SBI_HART_EXT_ZICBOM (Z.shiftl ENVCFG_CBIE_INV ENVCFG_CBIE_SHIFT) in
  let v := set_ext v SBI_HART_EXT_SVPBMT ENVCFG_PBMTE in
  let v := set_ext v SBI_HART_EXT_SSTC ENVCFG_STCE in
  let v := set_ext v SBI_HART_EXT_SMCDELEG ENVCFG_CDE in
  let v := set_ext v SBI_HART_EXT_SVADU ENVCFG_ADUE in
  if sbi_hart_has_extension f SBI_HART_EXT_SVADE then Z.land v (not_ ENVCFG_ADUE) else v.

Definition mstatus_init (f : sbi_hart_features) : csrM unit :=
  d ← misa_extension platform letter_D;
  fp ← (if d : bool then mret true else misa_extension platform letter_F);
  v ← misa_extension platform letter_V;
  csr_write CSR_MSTATUS (Z.lor (bit_if fp MSTATUS_FS) (bit_if v MSTATUS_VS));;
  s ← misa_extension platform letter_S;
  (if s && (SBI_HART_PRIV_VER_1_10 <=? f.(priv_version)) then csr_write CSR_SCOUNTEREN 7 else mret tt);;
  (if SBI_HART_PRIV_VER_1_10 <=? f.(priv_version) then csr_write CSR_MCOUNTEREN (u64 (-1)) else mret tt);;
  (if SBI_HART_PRIV_VER_1_11 <=? f.(priv_version) then csr_write CSR_MCOUNTINHIBIT 0xfffffff8 else mret tt);;
  mhpmevent_init 29 0 f.(mhpm_mask);;
  (if sbi_hart_has_extension f SBI_HART_EXT_SMSTATEEN then
     v ← csr_read CSR_MSTATEEN0; csr_write CSR_MSTATEEN0 (mstateen0_value f v)
   else mret tt);;
  (if SBI_HART_PRIV_VER_1_12 <=? f.(priv_version) then
     v ← csr_read CSR_MENVCFG;
     csr_write CSR_MENVCFG (menvcfg_value f v);;
     if sbi_hart_has_extension f SBI_HART_EXT_ZKR
     then csr_set CSR_MSECCFG MSECCFG_SSEED;; csr_clear CSR_MSECCFG MSECCFG_USEED
     else mret tt
   else mret tt);;
  csr_write CSR_MIE 0;;
  s ← misa_extension platform letter_S;
  if s : bool then csr_write CSR_SATP 0 else mret tt.

(** The floating-point registers that are cleared are not part of the model. *)
Definition fp_init : csrM Z :=
  d ← misa_extension platform letter_D;
  fp ← (if d : bool then mret true else misa_extension platform letter_F);
  if negb fp then mret 0
  else
    v ← csr_read CSR_MSTATUS;
    if negb (has v MSTATUS_FS) then mret SBI_EINVAL
    else csr_write CSR_FCSR 0;; mret 0.

Definition MIP_SSIP : Z := 2 ^ 1.
Definition MIP_STIP : Z := 2 ^ 5.
Definition MIP_SEIP : Z := 2 ^ 9.

Definition cause_bits (l : list Z) : Z := orl (map (fun c => Z.shiftl 1 c) l).

(** The exceptions that are handled in S mode. *)
Definition delegated_exceptions (mfaults hyp : bool) : Z :=
  orl [cause_bits [0x0; 0x3; 0x8] (* misaligned fetch, breakpoint, user ecall *);
       bit_if mfaults (cause_bits [0xc; 0xd; 0xf; 0x12]) (* page faults, software check *);
       bit_if hyp (cause_bits [0xa; 0x14; 0x15; 0x16; 0x17]) (* VS ecall, guest page faults, virtual instruction *)].

Definition delegate_traps (mfaults_delegation : bool) (pmu_irq_mask : Z) : csrM Z :=
  s ← misa_extension platform letter_S;
  if negb s then mret 0
  else
    hyp ← misa_extension platform letter_H;
    csr_write CSR_MIDELEG (orl [MIP_SSIP; MIP_STIP; MIP_SEIP; pmu_irq_mask]);;
    csr_write CSR_MEDELEG (delegated_exceptions mfaults_delegation hyp);;
    mret 0.

Definition sbi_hart_reinit (mfaults : bool) (pmu_irq_mask : Z) (f : sbi_hart_features) : csrM Z :=
  mstatus_init f;;
  rc ← fp_init;
  if negb (rc =? 0) then mret rc else delegate_traps mfaults pmu_irq_mask.

(** [offset_ok]: the allocation of the features in the scratch space, done on the
    cold boot, succeeded.  The choice of the expected-trap handler on the cold
    boot is part of [csr_read_allowed]. *)
Definition sbi_hart_init (extensions_init : sbi_hart_features -> Z * sbi_hart_features) (mfaults : bool)
    (pmu_irq_mask : Z) (cold_boot offset_ok : bool) (f : sbi_hart_features) : csrM (Z * sbi_hart_features) :=
  csr_write CSR_MIP 0;;
  if cold_boot && negb offset_ok then mret (SBI_ENOMEM, f)
  else
    '(rc, f) ← hart_detect_features extensions_init f;
    if negb (rc =? 0) then mret (rc, f)
    else rc ← sbi_hart_reinit mfaults pmu_irq_mask f; mret (rc, f).

(** ** Leaving M mode *)

(** [INSERT_FIELD] of sbi_bitops.h. *)
Definition INSERT_FIELD (val which fieldval : Z) : Z :=
  Z.lor (Z.land val (u64 (Z.lnot which))) (u64 (fieldval * Z.land which (u64 (Z.lnot (which - 1))))).

(** [Hang] is [sbi_hart_hang]; [Mret] the return to the next stage with its two
    arguments. *)
Inductive switch_result := Hang | Mret (a0 a1 : Z).

Definition mode_supported (next_mode : Z) : csrM bool :=
  if next_mode =? PRV_M then mret true
  else if next_mode =? PRV_S then misa_extension platform letter_S
  else if next_mode =? PRV_U then misa_extension platform letter_U
  else mret false.

Definition sbi_hart_switch_mode (arg0 arg1 next_addr next_mode : Z) (next_virt : bool) : csrM switch_result :=
  ok ← mode_supported next_mode;
  if negb ok then mret Hang
  else
    val ← csr_read CSR_MSTATUS;
    let val := INSERT_FIELD val MSTATUS_MPP next_mode in
    let val := INSERT_FIELD val MSTATUS_MPIE 0 in
    hyp ← misa_extension platform letter_H;
    let val := if hyp : bool then INSERT_FIELD val MSTATUS_MPV (Z.b2z next_virt) else val in
    csr_write CSR_MSTATUS val;;
    csr_write CSR_MEPC next_addr;;
    (if next_mode =? PRV_S then
       if next_virt then
         csr_write CSR_VSTVEC next_addr;; csr_write CSR_VSSCRATCH 0;; csr_write CSR_VSIE 0;; csr_write CSR_VSATP 0
       else
         csr_write CSR_STVEC next_addr;; csr_write CSR_SSCRATCH 0;; csr_write CSR_SIE 0;; csr_write CSR_SATP 0
     else if next_mode =? PRV_U then
       n ← misa_extension platform letter_N;
       if n : bool then csr_write CSR_UTVEC next_addr;; csr_write CSR_USCRATCH 0;; csr_write CSR_UIE 0 else mret tt
     else mret tt);;
    mret (Mret arg0 arg1).
End Hart.

(** ** What the detection of the PMP finds *)

Section DetectPmp.
Context {hw : Hw} (Hhw : hw_ok).

Local Set Default Proof Using "Type".

(** The address register of an entry that is off reads back these bits of all
    ones. *)
Definition addr_ones : Z := 2 ^ hw_addr_bits - 2 ^ hw_grain.

Lemma addr_ones_testbit i : 0 <= i -> Z.testbit addr_ones i = bool_decide (hw_grain <= i < hw_addr_bits).
Proof using Hhw.
  intros Hi. destruct Hhw as (_ & Hg & Hab). unfold addr_ones.
  replace (2 ^ hw_addr_bits - 2 ^ hw_grain) with (Z.shiftl (Z.ones (hw_addr_bits - hw_grain)) hw_grain).
  - rewrite Z.shiftl_spec by lia. destruct (decide (hw_grain <= i)).
    + destruct (decide (i < hw_addr_bits)).
      * by rewrite Z.ones_spec_low, bool_decide_eq_true_2 by lia.
      * by rewrite Z.ones_spec_high, bool_decide_eq_false_2 by lia.
    + by rewrite Z.testbit_neg_r, bool_decide_eq_false_2 by lia.
  - rewrite Z.shiftl_mul_pow2, Z.ones_equiv by lia. replace hw_addr_bits with (hw_addr_bits - hw_grain + hw_grain) at 2 by lia.
    rewrite Z.pow_add_r by lia. lia.
Qed.

Lemma addr_ones_bounds : 0 < addr_ones < 2 ^ hw_addr_bits.
Proof using Hhw.
  destruct Hhw as (_ & Hg & Hab). unfold addr_ones. pose proof (pow2_pos hw_grain).
  assert (2 ^ hw_grain < 2 ^ hw_addr_bits) by (apply Z.pow_lt_mono_r; lia). lia.
Qed.

Lemma addr_ones_ffs : sbi_ffs addr_ones = hw_grain.
Proof using Hhw.
  pose proof Hhw as (_ & Hg & Hab). apply sbi_ffs_lsb; [|lia]. unfold lsb. split_and!; try lia.
  - rewrite addr_ones_testbit by lia. apply bool_decide_eq_true_2. lia.
  - intros m Hm. rewrite addr_ones_testbit by lia. apply bool_decide_eq_false_2. lia.
Qed.

Lemma addr_ones_fls : sbi_fls addr_ones = hw_addr_bits - 1.
Proof using Hhw.
  pose proof Hhw as (_ & Hg & Hab). apply sbi_fls_msb. unfold msb. split_and!; try lia.
  - rewrite addr_ones_testbit by lia. apply bool_decide_eq_true_2. lia.
  - intros m Hm. rewrite addr_ones_testbit by lia. apply bool_decide_eq_false_2. lia.
Qed.

Definition reset_pmp (h : hart) : Prop := hart_ok h /\ Forall fresh h.(pmpcfgs).

Lemma fresh_cfg_of h i : Forall fresh h.(pmpcfgs) -> fresh (cfg_of h i).
Proof.
  intros H. unfold cfg_of. destruct (h.(pmpcfgs) !! i) eqn:E; [|done]. rewrite Forall_lookup in H. by eapply H.
Qed.

Lemma reset_unlocked h i : Forall fresh h.(pmpcfgs) -> locked h i = false /\ addr_locked h i = false.
Proof.
  intros H. unfold addr_locked, locked. rewrite !fresh_unlocked by (by apply fresh_cfg_of). done.
Qed.

Lemma fresh_view cfg v : fresh cfg -> addr_view cfg v = Z.land v (Z.lnot (2 ^ hw_grain - 1)).
Proof.
  intros H%fresh_off. unfold addr_view. replace (has cfg 0x10) with false; [done|].
  unfold has. replace (Z.land cfg 0x10) with (Z.land (Z.land cfg PMP_A) 0x10) by (by rewrite <- Z.land_assoc).
  by rewrite H.
Qed.

Lemma addr_ones_view : Z.land addr_ones (Z.lnot (2 ^ hw_grain - 1)) = addr_ones.
Proof using Hhw.
  pose proof Hhw as (_ & Hg & Hab). rewrite land_lnot_ones by lia. unfold addr_ones.
  replace (2 ^ hw_addr_bits) with (2 ^ (hw_addr_bits - hw_grain) * 2 ^ hw_grain)
    by (rewrite <- Z.pow_add_r by lia; f_equal; lia).
  replace (_ * _ - 2 ^ hw_grain) with ((2 ^ (hw_addr_bits - hw_grain) - 1) * 2 ^ hw_grain) by lia.
  rewrite Z.mod_mul by (pose proof (pow2_pos hw_grain); lia). lia.
Qed.

Lemma reset_set_addr h i v : reset_pmp h -> reset_pmp (set_addr h i v).
Proof. intros ((? & ? & ?) & ?). split; [|done]. split_and!; cbn; [done|by rewrite length_insert|done]. Qed.

(** Accesses to the address register of an entry. *)
Lemma addr_csr_reset h i : reset_pmp h -> 0 <= i < Z.of_nat hw_pmps ->
  hw_read h (CSR_PMPADDR0 + i) = Some (Z.land (addr_of h (Z.to_nat i)) (Z.lnot (2 ^ hw_grain - 1))) /\
  forall v, hw_write h (CSR_PMPADDR0 + i) v = Some (set_addr h (Z.to_nat i) (Z.land v (2 ^ hw_addr_bits - 1))).
Proof using Hhw.
  intros [Hh Hf] Hi. destruct (addr_csr_access i Hhw Hi) as (E1 & E2 & E3 & E4 & E5 & E6).
  unfold hw_read, hw_write, write_addr. rewrite E1, E2, E4, E5, E6.
  destruct (reset_unlocked h (Z.to_nat i) Hf) as [_ ->]. split; [|done]. by rewrite fresh_view by (by apply fresh_cfg_of).
Qed.

Lemma addr_of_set h i v : reset_pmp h -> (i < hw_pmps)%nat -> addr_of (set_addr h i v) i = v.
Proof. intros ((_ & Hl & _) & _) Hi. unfold addr_of, set_addr. cbn. by rewrite list_lookup_insert_eq by lia. Qed.

(** A register of the hardware that is not an entry reads as zero, or is absent. *)
Lemma addr_csr_absent h i : Z.of_nat hw_pmps <= i < 64 ->
  (hw_read h (CSR_PMPADDR0 + i) = None) \/
  (hw_read h (CSR_PMPADDR0 + i) = Some 0 /\ forall v, hw_write h (CSR_PMPADDR0 + i) v = Some h).
Proof.
  intros Hi. unfold hw_read, hw_write.
  replace (is_pmpcfg (CSR_PMPADDR0 + i)) with false by (unfold is_pmpcfg, CSR_PMPCFG0, CSR_PMPADDR0; lia).
  replace (is_pmpaddr (CSR_PMPADDR0 + i)) with true by (unfold is_pmpaddr, CSR_PMPADDR0; lia).
  replace (CSR_PMPADDR0 + i - CSR_PMPADDR0) with i by lia.
  destruct (hw_pmp_csrs <=? Z.to_nat i)%nat; [by left|]. destruct (Nat.ltb_spec (Z.to_nat i) hw_pmps); [lia|]. by right.
Qed.

Lemma check_csrs_count n : forall i c h, Z.of_nat n + i = 64 -> 0 <= i <= Z.of_nat hw_pmps -> reset_pmp h ->
  exists h', check_csrs n (CSR_PMPADDR0 + i) addr_ones c h = Some (c + (Z.of_nat hw_pmps - i), h') /\ reset_pmp h'.
Proof using Hhw.
  induction n as [|n IH]; intros i c h Hn Hi Hh.
  - exists h. split; [|done]. pose proof Hhw as (? & _). cbn. unfold mret, csrM_ret. do 2 f_equal. lia.
  - cbn [check_csrs]. unfold mbind, csrM_bind, csr_read_allowed, csr_write_allowed.
    pose proof addr_ones_bounds as Hones. destruct (decide (i < Z.of_nat hw_pmps)) as [Hlt|Hge].
    + destruct (addr_csr_reset h i Hh) as [-> Hw]; [lia|]. rewrite Hw. cbn [negb].
      replace (Z.land addr_ones (2 ^ hw_addr_bits - 1)) with addr_ones.
      2: { pose proof Hhw as (_ & ? & ?). rewrite land_low by lia. symmetry. apply Z.mod_small. lia. }
      set (h1 := set_addr h _ _). assert (reset_pmp h1) as Hh1 by (by apply reset_set_addr).
      unfold csr_swap, csr_read, csr_write, mbind, csrM_bind. destruct (addr_csr_reset h1 i Hh1) as [-> Hw1]; [lia|].
      replace (addr_of h1 (Z.to_nat i)) with addr_ones by (symmetry; apply addr_of_set; [done|lia]).
      rewrite addr_ones_view, Hw1. cbn [mret csrM_ret].
      rewrite Z.land_diag, Z.eqb_refl. rewrite <- Z.add_assoc.
      edestruct (IH (i + 1) (c + 1)) as (h' & -> & Hh'); [lia|lia|by apply reset_set_addr|].
      exists h'. split; [do 2 f_equal; lia|done].
    + assert (i = Z.of_nat hw_pmps) as -> by lia. rewrite Z.sub_diag, Z.add_0_r. exists h. split; [|done].
      destruct (addr_csr_absent h (Z.of_nat hw_pmps)) as [->|[E Hw]]; [lia|done|]. rewrite E, Hw. cbn [negb].
      unfold csr_swap, csr_read, csr_write, mbind, csrM_bind. rewrite E, Hw. cbn [mret csrM_ret]. rewrite Z.land_0_l.
      destruct (Z.eqb_spec 0 addr_ones); [lia|done].
Qed.

Lemma clear_cfg0 h : reset_pmp h -> reset_pmp (write_cfg h 0 0).
Proof.
  intros ((Hl1 & Hl2 & Hok) & Hf). unfold reset_pmp, hart_ok, write_cfg. cbn [pmpcfgs pmpaddrs]. rewrite length_imap.
  split_and!; [done|done| |]; apply Forall_lookup; intros i b; rewrite list_lookup_imap;
    destruct (h.(pmpcfgs) !! i) as [c|] eqn:E; cbn [fmap option_fmap option_map]; intros H; simplify_eq;
    rewrite Forall_lookup in Hok, Hf; destruct (_ && _ && _);
    [apply cfg_ok_land|by eapply Hok|unfold byte_of; by rewrite Z.shiftr_0_l|by eapply Hf].
Qed.

Lemma get_allowed_addr h : reset_pmp h -> (0 < hw_pmps)%nat ->
  exists h', hart_pmp_get_allowed_addr h = Some (addr_ones, h') /\ reset_pmp h'.
Proof using Hhw.
  intros Hh Hpos. pose proof Hhw as (Hn & Hg & Hab). unfold hart_pmp_get_allowed_addr, mbind, csrM_bind, csr_write_allowed.
  unfold hw_write at 1. change (is_pmpcfg CSR_PMPCFG0) with true. change (Z.odd CSR_PMPCFG0) with false.
  change (cfg_base CSR_PMPCFG0) with 0%nat. destruct (Nat.leb_spec hw_pmp_csrs 0); [lia|]. cbn [orb negb].
  set (h1 := write_cfg h 0 0). assert (reset_pmp h1) as Hh1 by (by apply clear_cfg0).
  change CSR_PMPADDR0 with (CSR_PMPADDR0 + 0). destruct (addr_csr_reset h1 0 Hh1) as [_ ->]; [lia|]. cbn [negb].
  set (h2 := set_addr h1 _ _). assert (reset_pmp h2) as Hh2 by (by apply reset_set_addr).
  unfold csr_read_allowed. destruct (addr_csr_reset h2 0 Hh2) as [-> _]; [lia|]. exists h2. split; [|done].
  unfold h2. rewrite addr_of_set by (done || lia). cbn [default mret csrM_ret]. unfold id, mret, csrM_ret. do 2 f_equal.
  unfold PMP_ADDR_MASK. rewrite (Z.land_comm (2 ^ 54 - 1)), land_low, Z.mod_small.
  - rewrite land_lnot_ones by lia. unfold addr_ones. replace ((2 ^ hw_addr_bits - 1) `mod` 2 ^ hw_grain) with (2 ^ hw_grain - 1); [lia|].
    apply Z.mod_unique_pos with (2 ^ (hw_addr_bits - hw_grain) - 1); [pose proof (pow2_pos hw_grain); lia|].
    replace (2 ^ hw_addr_bits) with (2 ^ hw_grain * 2 ^ (hw_addr_bits - hw_grain)) by (rewrite <- Z.pow_add_r by lia; f_equal; lia). lia.
  - pose proof (pow2_pos hw_addr_bits). assert (2 ^ hw_addr_bits <= 2 ^ 54) by (apply Z.pow_le_mono_r; lia). lia.
  - lia.
Qed.

Lemma detect_pmp_effect f h : reset_pmp h -> (0 < hw_pmps)%nat -> f.(pmp_count) = 0 ->
  exists h', detect_pmp f h = Some (set_pmp f (Z.of_nat hw_pmps) hw_addr_bits (hw_grain + 2), h') /\ reset_pmp h'.
Proof using Hhw.
  intros Hh Hpos Hf0. destruct (get_allowed_addr h Hh Hpos) as (h1 & E1 & Hh1). unfold detect_pmp.
  rewrite (csr_bind _ _ _ _ _ E1). pose proof addr_ones_bounds. destruct (Z.eqb_spec addr_ones 0); [lia|]. cbn [negb].
  destruct (check_csrs_count 64 0 f.(pmp_count) h1 ltac:(lia) ltac:(lia) Hh1) as (h2 & E2 & Hh2).
  rewrite Z.add_0_r in E2. rewrite (csr_bind _ _ _ _ _ E2). exists h2. split; [|done].
  rewrite addr_ones_ffs, addr_ones_fls, Hf0. unfold mret, csrM_ret. do 3 f_equal; lia.
Qed.
End DetectPmp.

(** ** The rest of the detection

    [ensures m P]: [m] runs to its end from every state, leaves the PMP as it is,
    and its result satisfies [P]. *)

Section Detect.
Context {hw : Hw}.

Local Set Default Proof Using "Type".

Definition ensures {A} (m : csrM A) (P : A -> Prop) : Prop :=
  forall h, exists x h', m h = Some (x, h') /\ h'.(pmpcfgs) = h.(pmpcfgs) /\ h'.(pmpaddrs) = h.(pmpaddrs) /\ P x.

Lemma ensures_ret {A} (x : A) (P : A -> Prop) : P x -> ensures (mret x) P.
Proof. intros Hx h. by exists x, h. Qed.

Lemma ensures_bind {A B} (m : csrM A) (k : A -> csrM B) P Q :
  ensures m P -> (forall x, P x -> ensures (k x) Q) -> ensures (m ≫= k) Q.
Proof.
  intros Hm Hk h. destruct (Hm h) as (x & h1 & E1 & C1 & A1 & Hx). destruct (Hk x Hx h1) as (y & h2 & E2 & C2 & A2 & Hy).
  exists y, h2. rewrite (csr_bind _ _ _ _ _ E1). split_and!; [done|congruence|congruence|done].
Qed.

Lemma ensures_weaken {A} (m : csrM A) (P Q : A -> Prop) : ensures m P -> (forall x, P x -> Q x) -> ensures m Q.
Proof. intros Hm HPQ h. destruct (Hm h) as (x & h' & ? & ? & ? & ?). exists x, h'. eauto. Qed.

(** A register that is not one of the PMP's. *)
Definition plain_csr (c : Z) : Prop := is_pmpcfg c = false /\ is_pmpaddr c = false.

Definition present (c : Z) : bool := match hw_mask c with Some _ => true | None => false end.

Lemma ensures_read_allowed c : plain_csr c -> ensures (csr_read_allowed c) (fun v => present c = bool_decide (is_Some v)).
Proof.
  intros [E1 E2] h. eexists _, h. split; [done|]. do 2 (split; [done|]). unfold hw_read, present. rewrite E1, E2.
  by destruct (hw_mask c).
Qed.

Lemma ensures_read c : plain_csr c -> present c = true -> ensures (csr_read c) (fun _ => True).
Proof.
  intros [E1 E2] Hc h. unfold csr_read, hw_read. rewrite E1, E2. unfold present in Hc. destruct (hw_mask c); [|done].
  by eexists _, h.
Qed.

Lemma ensures_write c v : plain_csr c -> present c = true -> ensures (csr_write c v) (fun _ => True).
Proof.
  intros [E1 E2] Hc h. unfold csr_write, hw_write. rewrite E1, E2. unfold present in Hc. destruct (hw_mask c); [|done].
  by eexists tt, _.
Qed.

Lemma ensures_write_allowed c v : plain_csr c -> ensures (csr_write_allowed c v) (fun ok => ok = present c).
Proof.
  intros [E1 E2] h. unfold csr_write_allowed, hw_write, present. rewrite E1, E2. destruct (hw_mask c); by eexists _, _.
Qed.

Lemma ensures_swap c v : plain_csr c -> present c = true -> ensures (csr_swap c v) (fun _ => True).
Proof.
  intros Hp Hc. eapply ensures_bind; [by apply ensures_read|]. intros old _.
  eapply ensures_bind; [by apply ensures_write|]. intros _ _. by apply ensures_ret.
Qed.

Lemma check_hpm_ensures c mask : plain_csr c -> ensures (check_hpm_csr c mask) (fun _ => True).
Proof.
  intros Hp. eapply ensures_bind; [by apply ensures_read_allowed|]. intros [old|] Hc; [|by apply ensures_ret].
  eapply ensures_bind; [by apply ensures_write_allowed|]. intros ok ->. destruct (present c) eqn:E; [|by apply ensures_ret].
  eapply ensures_bind; [by apply ensures_swap|]. intros. by apply ensures_ret.
Qed.

Lemma check_hpms_ensures n : forall c mask, CSR_PMPADDR0 + 64 <= c -> ensures (check_hpm_csrs n c mask) (fun _ => True).
Proof.
  induction n as [|n IH]; intros c mask Hc; [by apply ensures_ret|].
  eapply ensures_bind; [apply check_hpm_ensures|intros; apply IH; lia].
  unfold plain_csr, is_pmpcfg, is_pmpaddr, CSR_PMPCFG0, CSR_PMPADDR0 in *. lia.
Qed.

(** The fields that the detection of the PMP has set, and a bitmap with room for
    the extensions. *)
Definition keeps (f f' : sbi_hart_features) : Prop :=
  f'.(pmp_count) = f.(pmp_count) /\ f'.(pmp_addr_bits) = f.(pmp_addr_bits) /\ f'.(pmp_log2gran) = f.(pmp_log2gran) /\
  length f'.(extensions) = length f.(extensions).

Lemma detect_mhpm_ensures f : ensures (detect_mhpm f) (fun f' => keeps f f' /\ f'.(priv_version) = f.(priv_version)).
Proof.
  eapply ensures_bind; [by apply check_hpm_ensures|]. intros mask _.
  eapply ensures_bind with (P := fun _ => True).
  - eapply ensures_bind; [by apply ensures_write_allowed|]. intros ok _. destruct ok; [|by apply ensures_ret].
    eapply ensures_bind; [by apply ensures_read_allowed|]. intros [v|] _; by apply ensures_ret.
  - intros bits _. eapply ensures_bind; [apply check_hpms_ensures; done|]. intros. by apply ensures_ret.
Qed.

Definition priv_after (v csr base_priv priv : Z) : Z := if present csr && (base_priv <=? v) then priv else v.

Lemma check_priv_ensures f csr b p : plain_csr csr ->
  ensures (check_priv f csr b p) (fun f' => keeps f f' /\ f'.(priv_version) = priv_after f.(priv_version) csr b p).
Proof.
  intros Hp. eapply ensures_bind; [by apply ensures_read_allowed|]. intros v Hv. apply ensures_ret. unfold priv_after. rewrite Hv.
  destruct v; cbn; [|done]. by destruct (b <=? _).
Qed.

(** The version of the privileged specification that the registers show. *)
Definition priv_found : Z :=
  if present CSR_MCOUNTEREN then
    if present CSR_MCOUNTINHIBIT then if present CSR_MENVCFG then SBI_HART_PRIV_VER_1_12 else SBI_HART_PRIV_VER_1_11
    else SBI_HART_PRIV_VER_1_10
  else SBI_HART_PRIV_VER_UNKNOWN.

Lemma keeps_trans f1 f2 f3 : keeps f1 f2 -> keeps f2 f3 -> keeps f1 f3.
Proof. unfold keeps. intros (?&?&?&?) (?&?&?&?). split_and!; congruence. Qed.

Lemma detect_priv_ensures f : f.(priv_version) = SBI_HART_PRIV_VER_UNKNOWN ->
  ensures (detect_priv f) (fun f' => keeps f f' /\ f'.(priv_version) = priv_found).
Proof.
  intros E0. eapply ensures_bind; [by apply check_priv_ensures|]. intros f1 [K1 E1].
  eapply ensures_bind; [by apply check_priv_ensures|]. intros f2 [K2 E2].
  eapply ensures_weaken; [by apply check_priv_ensures|]. intros f3 [K3 E3]. split; [by eauto using keeps_trans|].
  rewrite E3, E2, E1, E0. unfold priv_after, priv_found.
  by destruct (present CSR_MCOUNTEREN), (present CSR_MCOUNTINHIBIT), (present CSR_MENVCFG).
Qed.

Lemma update_ensures f ext en : 0 <= ext < 64 -> length f.(extensions) = 1%nat ->
  ensures (sbi_hart_update_extension f ext en) (fun f' => keeps f f' /\ f'.(priv_version) = f.(priv_version)).
Proof.
  intros He Hl. unfold sbi_hart_update_extension, __set_bit, __clear_bit, upd_word, BIT_WORD, BITS_PER_LONG.
  rewrite Z.div_small by lia. destruct f as [? ? [|w [|]] ? ? ? ? ?]; try done. cbn.
  destruct en; by apply ensures_ret.
Qed.

Definition kept (f f' : sbi_hart_features) : Prop := keeps f f' /\ f'.(priv_version) = f.(priv_version).

Lemma check_ext_ensures f0 f b csr ext : kept f0 f -> length f0.(extensions) = 1%nat -> plain_csr csr -> 0 <= ext < 64 ->
  ensures (check_ext_csr f b csr ext) (kept f0).
Proof.
  intros [K E] Hl Hp He. unfold check_ext_csr. destruct (b <=? _); [|by apply ensures_ret].
  eapply ensures_bind; [by apply ensures_read_allowed|]. intros [v|] _; [|by apply ensures_ret].
  eapply ensures_weaken; [apply update_ensures; [done|by destruct K as (_ & _ & _ & ->)]|].
  intros f' [K' E']. split; [by eapply keeps_trans|congruence].
Qed.

Lemma detect_ext_ensures f : length f.(extensions) = 1%nat -> ensures (detect_ext f) (kept f).
Proof.
  intros Hl. assert (kept f f) as H0 by (by split). unfold detect_ext.
  do 6 (eapply ensures_bind; [apply (check_ext_ensures f); (assumption || done || (unfold plain_csr; done) || lia)|intros ? ?]).
  apply (check_ext_ensures f); (assumption || done || lia).
Qed.

Lemma ensures_and {A} (m : csrM A) (P Q : A -> Prop) : ensures m P -> ensures m Q -> ensures m (fun x => P x /\ Q x).
Proof.
  intros HP HQ h. destruct (HP h) as (x & h' & E & ? & ? & ?). destruct (HQ h) as (y & h2 & E' & _ & _ & ?).
  rewrite E in E'. simplify_eq. eexists _, _. eauto.
Qed.

Lemma has_smepmp f w : f.(extensions) = [w] -> sbi_hart_has_extension f SBI_HART_EXT_SMEPMP = Z.testbit w 1.
Proof.
  intros E. unfold sbi_hart_has_extension, __test_bit. rewrite E.
  change (Z.to_nat (BIT_WORD SBI_HART_EXT_SMEPMP)) with 0%nat. change (Z.land SBI_HART_EXT_SMEPMP (BITS_PER_LONG - 1)) with 1.
  change ([w] !! 0%nat) with (Some w). cbn [mbind option_bind]. rewrite Z.land_comm. change 1 with (2 ^ 1 - 1) at 2.
  rewrite land_low by lia. change (2 ^ 1) with 2. rewrite <- Z.bit0_mod, Z.shiftr_spec by lia. by destruct (Z.testbit w _).
Qed.

(** Updating another extension leaves Smepmp as it is. *)
Lemma update_smepmp f ext en : 2 <= ext < 64 -> length f.(extensions) = 1%nat ->
  ensures (sbi_hart_update_extension f ext en)
    (fun f' => sbi_hart_has_extension f' SBI_HART_EXT_SMEPMP = sbi_hart_has_extension f SBI_HART_EXT_SMEPMP).
Proof.
  intros He Hl. unfold sbi_hart_update_extension, __set_bit, __clear_bit, upd_word, BIT_WORD, BITS_PER_LONG.
  rewrite Z.div_small by lia. destruct f as [? ? [|w [|]] ? ? ? ? ?]; try done. cbn [extensions].
  assert (Z.testbit (BIT_MASK ext) 1 = false) as Hm.
  { unfold BIT_MASK, BITS_PER_LONG. rewrite Z.mod_small, shl1 by lia. apply Z.pow2_bits_false. lia. }
  destruct en; apply ensures_ret.
  - rewrite (has_smepmp _ (Z.lor w (BIT_MASK ext))), (has_smepmp _ w) by done. by rewrite Z.lor_spec, Hm, orb_false_r.
  - rewrite (has_smepmp _ (Z.land w (not64 (BIT_MASK ext)))), (has_smepmp _ w) by done.
    unfold not64. rewrite Z.land_spec, wrap_testbit, Z.lnot_spec, Hm by lia. by rewrite andb_true_r.
Qed.

(** [hart_detect_features] on a hart out of reset finds what the hardware
    has: the number of PMP entries that hold a value, the granularity and the
    width of their addresses, and the version of the privileged specification
    that the registers show; it leaves every PMP entry off and refuses a hart that
    was entered with Smepmp's MML set. *)
Theorem detect_features_exact extensions_init f h :
  hw_ok -> (0 < hw_pmps)%nat -> reset_pmp h -> f.(detected) = false -> length f.(extensions) = 1%nat ->
  (forall f, (extensions_init f).1 = 0 /\ kept f (extensions_init f).2) ->
  (forall f, sbi_hart_has_extension (extensions_init f).2 SBI_HART_EXT_SMEPMP = true -> present CSR_MSECCFG = true) ->
  exists rc f' h', hart_detect_features extensions_init f h = Some ((rc, f'), h') /\
    features_match f' /\ f'.(detected) = true /\ f'.(priv_version) = priv_found /\ reset_pmp h' /\
    rc = if sbi_hart_has_extension f' SBI_HART_EXT_SMEPMP && mml h' then SBI_EILL else 0.
Proof.
  intros Hhw Hpos Hh Hdet Hlen Hinit Hme. unfold hart_detect_features. rewrite Hdet. cbv zeta.
  set (f0 := Features _ _ _ _ _ _ _ _).
  destruct (detect_pmp_effect Hhw f0 h Hh Hpos eq_refl) as (h1 & E1 & Hh1). rewrite (csr_bind _ _ _ _ _ E1). clear E1 Hh h.
  set (f1 := set_pmp f0 _ _ _). assert (length f1.(extensions) = 1%nat) as Hl1 by (cbn; by rewrite length_map).
  assert (f1.(priv_version) = SBI_HART_PRIV_VER_UNKNOWN) as Hv1 by done.
  assert (features_match f1) as Hf1 by done. clearbody f1. clear f0.
  destruct (detect_mhpm_ensures f1 h1) as (f2 & h2 & E2 & C2 & A2 & K2 & V2). rewrite (csr_bind _ _ _ _ _ E2).
  destruct (detect_priv_ensures f2 ltac:(congruence) h2) as (f3 & h3 & E3 & C3 & A3 & K3 & V3).
  rewrite (csr_bind _ _ _ _ _ E3).
  assert (length f3.(extensions) = 1%nat) as Hl3
    by (destruct K2 as (_ & _ & _ & K2), K3 as (_ & _ & _ & K3); by rewrite K3, K2).
  destruct (detect_ext_ensures f3 Hl3 h3) as (f4 & h4 & E4 & C4 & A4 & K4 & V4). rewrite (csr_bind _ _ _ _ _ E4).
  destruct (Hinit f4) as [Hrc [K5 V5]]. specialize (Hme f4). destruct (extensions_init f4) as [rc f5]. cbn in Hrc, K5, V5, Hme.
  subst rc. cbn [Z.eqb negb].
  assert (length f5.(extensions) = 1%nat) as Hl5
    by (destruct K4 as (_ & _ & _ & K4), K5 as (_ & _ & _ & K5); by rewrite K5, K4).
  set (z := sbi_hart_has_extension f4 SBI_HART_EXT_ZICNTR).
  destruct (ensures_and _ _ _ (update_ensures f5 SBI_HART_EXT_ZICNTR z ltac:(done) Hl5)
    (update_smepmp f5 SBI_HART_EXT_ZICNTR z ltac:(done) Hl5) h4) as (f6 & h5 & E6 & C6 & A6 & [K6 V6] & S6).
  rewrite (csr_bind _ _ _ _ _ E6).
  assert (length f6.(extensions) = 1%nat) as Hl6 by (destruct K6 as (_ & _ & _ & K6); by rewrite K6).
  assert (ensures (if negb (f6.(mhpm_mask) =? 0) then sbi_hart_update_extension f6 SBI_HART_EXT_ZIHPM true else mret f6)
    (fun f' => (keeps f6 f' /\ f'.(priv_version) = f6.(priv_version)) /\
               sbi_hart_has_extension f' SBI_HART_EXT_SMEPMP = sbi_hart_has_extension f6 SBI_HART_EXT_SMEPMP)) as H7.
  { destruct (negb _); [|by apply ensures_ret]. apply ensures_and; [by apply update_ensures|by apply update_smepmp]. }
  destruct (H7 h5) as (f7 & h6 & E7 & C7 & A7 & [K7 V7] & S7). rewrite (csr_bind _ _ _ _ _ E7).
  assert (features_match f7) as Hf7.
  { pose proof (keeps_trans _ _ _ K2 (keeps_trans _ _ _ K3 (keeps_trans _ _ _ K4 (keeps_trans _ _ _ K5
      (keeps_trans _ _ _ K6 K7))))) as (Ka & Kb & Kc & _).
    unfold features_match in *. rewrite Ka, Kb, Kc. done. }
  assert (f7.(priv_version) = priv_found) as Hv7 by congruence.
  assert (reset_pmp h6) as Hh6.
  { destruct Hh1 as (Hok & Hfr). unfold reset_pmp, hart_ok in *. rewrite C7, C6, C4, C3, C2, A7, A6, A4, A3, A2. done. }
  change (sbi_hart_has_extension (set_detected f7) SBI_HART_EXT_SMEPMP) with (sbi_hart_has_extension f7 SBI_HART_EXT_SMEPMP).
  destruct (sbi_hart_has_extension f7 SBI_HART_EXT_SMEPMP) eqn:Esm.
  - assert (csr_read CSR_MSECCFG h6 = Some (csr_val h6 CSR_MSECCFG, h6)) as Er.
    { unfold csr_read, hw_read. change (is_pmpcfg CSR_MSECCFG) with false. change (is_pmpaddr CSR_MSECCFG) with false.
      cbv iota. assert (present CSR_MSECCFG = true) as Hp by (apply Hme; congruence). unfold present in Hp.
      by destruct (hw_mask CSR_MSECCFG). }
    rewrite (csr_bind _ _ _ _ _ Er). eexists _, (set_detected f7), h6. split; [done|]. split_and!; try done.
    cbn [set_detected]. change (sbi_hart_has_extension (set_detected f7) SBI_HART_EXT_SMEPMP) with (sbi_hart_has_extension f7 SBI_HART_EXT_SMEPMP).
    by rewrite Esm.
  - exists 0, (set_detected f7), h6. split; [done|]. split_and!; try done.
    change (sbi_hart_has_extension (set_detected f7) SBI_HART_EXT_SMEPMP) with (sbi_hart_has_extension f7 SBI_HART_EXT_SMEPMP).
    by rewrite Esm.
Qed.
End Detect.

Lemma detect_features_exact_witness :
  exists rc f' h', @hart_detect_features (hw16 10) (fun f => (0, f)) (Features false 0 [0] 0 0 0 0 0) hart16 = Some ((rc, f'), h') /\
    f'.(pmp_count) = 16 /\ f'.(pmp_log2gran) = 12 /\ f'.(priv_version) = SBI_HART_PRIV_VER_1_12.
Proof.
  destruct (@detect_features_exact (hw16 10) (fun f => (0, f)) (Features false 0 [0] 0 0 0 0 0) hart16)
    as (rc & f' & h' & E & (Hc & Hg & _) & _ & Hv & _).
  - apply hw16_ok; lia.
  - cbn; lia.
  - split; [apply hart16_ok|repeat constructor].
  - reflexivity.
  - reflexivity.
  - intros f. split; [reflexivity|]. split; [split_and!; reflexivity|reflexivity].
  - reflexivity.
  - exists rc, f', h'. split; [exact E|]. split_and!; [exact Hc|exact Hg|exact Hv].
Defined.
