(* ===== verification/Trap.v ===== *)
(** * Trap redirection and dispatch (lib/sbi/sbi_trap.c, include/sbi/sbi_trap.h,
    lib/sbi/sbi_double_trap.c, 64-bit).

    A trap that M mode does not handle is redirected: the registers are changed so
    that the [mret] at the end of the handler continues in S mode (or in VS mode)
    as if the trap had been taken there.  The theorem compares the result with the
    trap entry of the privileged specification.

    The general registers are a list of 32 words, the members [zero] to [t6] of
    [struct sbi_trap_regs] in their order. *)

From S2P Require Import Prelude SbiTypes Bitops Domain Csr Pmp PmpProps HartFeat.

Local Open Scope Z_scope.

Definition CSR_STVAL : Z := 0x143.
Definition CSR_SEPC : Z := 0x141.
Definition CSR_SCAUSE : Z := 0x142.
Definition CSR_VSSTATUS : Z := 0x200.
Definition CSR_VSEPC : Z := 0x241.
Definition CSR_VSCAUSE : Z := 0x242.
Definition CSR_VSTVAL : Z := 0x243.
Definition CSR_HSTATUS : Z := 0x600.
Definition CSR_HEDELEG : Z := 0x602.
Definition CSR_HTVAL : Z := 0x643.
Definition CSR_HTINST : Z := 0x64a.

Definition MSTATUS_SIE : Z := 2 ^ 1.
Definition MSTATUS_SPIE : Z := 2 ^ 5.
Definition MSTATUS_SPP : Z := 2 ^ 8.
Definition MSTATUS_MPP_SHIFT : Z := 11.
Definition MSTATUS_SPELP : Z := 2 ^ 23.
Definition MSTATUS_GVA : Z := 2 ^ 38.
Definition MSTATUS_MPELP : Z := 2 ^ 41.
Definition HSTATUS_SPVP : Z := 2 ^ 8.
Definition HSTATUS_SPV : Z := 2 ^ 7.
Definition HSTATUS_GVA : Z := 2 ^ 6.
Definition SBI_HART_EXT_ZICFILP : Z := 21.

Record sbi_trap_regs := Regs { gprs : list Z; mepc : Z; mstatus : Z }.
Record sbi_trap_info := TrapInfo { cause : Z; tval : Z; tval2 : Z; tinst : Z; gva : Z }.

Definition sbi_regs_gva (regs : sbi_trap_regs) : Z := Z.b2z (has regs.(mstatus) MSTATUS_GVA).
Definition sbi_regs_from_virt (regs : sbi_trap_regs) : bool := has regs.(mstatus) MSTATUS_MPV.
Definition sbi_mstatus_prev_mode (mstatus : Z) : Z := Z.shiftr (Z.land mstatus MSTATUS_MPP) MSTATUS_MPP_SHIFT.

Definition set_mepc (regs : sbi_trap_regs) (v : Z) : sbi_trap_regs := Regs regs.(gprs) v regs.(mstatus).
Definition set_mstatus (regs : sbi_trap_regs) (v : Z) : sbi_trap_regs := Regs regs.(gprs) regs.(mepc) v.

(** The two C idioms on a word of flags. *)
Definition clr (v m : Z) : Z := Z.land v (u64 (Z.lnot m)).
Definition set_if (b : bool) (v m : Z) : Z := if b then Z.lor v m else v.

Section Redirect.
Context {hw : Hw} (platform : Z -> bool) (f : sbi_hart_features).

(** The updates of the hypervisor registers when going to HS mode. *)
Definition redirect_hs (prev_mode : Z) (prev_virt : bool) (trap : sbi_trap_info) : csrM unit :=
  hstatus ← csr_read CSR_HSTATUS;
  let hstatus := if prev_virt then set_if (prev_mode =? PRV_S) (clr hstatus HSTATUS_SPVP) HSTATUS_SPVP else hstatus in
  let hstatus := set_if prev_virt (clr hstatus HSTATUS_SPV) HSTATUS_SPV in
  let hstatus := set_if (negb (trap.(gva) =? 0)) (clr hstatus HSTATUS_GVA) HSTATUS_GVA in
  csr_write CSR_HSTATUS hstatus;;
  csr_write CSR_HTVAL trap.(tval2);;
  csr_write CSR_HTINST trap.(tinst).

(** SPP, SPIE and SIE of a status word on a trap into supervisor mode. *)
Definition status_enter (prev_mode v : Z) : Z :=
  let v := set_if (prev_mode =? PRV_S) (clr v MSTATUS_SPP) MSTATUS_SPP in
  let v := clr v MSTATUS_SPIE in
  let v := set_if (has v MSTATUS_SIE) v MSTATUS_SPIE in
  clr v MSTATUS_SIE.

Definition mpp_s (mstatus : Z) : Z := Z.lor (clr mstatus MSTATUS_MPP) (Z.shiftl PRV_S MSTATUS_MPP_SHIFT).

Definition redirect_vs (prev_mode : Z) (elp : bool) (regs : sbi_trap_regs) (trap : sbi_trap_info) : csrM sbi_trap_regs :=
  csr_write CSR_VSTVAL trap.(tval);;
  csr_write CSR_VSEPC regs.(mepc);;
  csr_write CSR_VSCAUSE trap.(cause);;
  vec ← csr_read CSR_VSTVEC;
  vsstatus ← csr_read CSR_VSSTATUS;
  csr_write CSR_VSSTATUS (status_enter prev_mode (set_if elp vsstatus MSTATUS_SPELP));;
  mret (Regs regs.(gprs) vec (mpp_s regs.(mstatus))).

Definition redirect_s (prev_mode : Z) (elp : bool) (regs : sbi_trap_regs) (trap : sbi_trap_info) : csrM sbi_trap_regs :=
  csr_write CSR_STVAL trap.(tval);;
  csr_write CSR_SEPC regs.(mepc);;
  csr_write CSR_SCAUSE trap.(cause);;
  vec ← csr_read CSR_STVEC;
  mret (Regs regs.(gprs) vec (set_if elp (status_enter prev_mode (mpp_s regs.(mstatus))) MSTATUS_SPELP)).

Definition sbi_trap_redirect (regs : sbi_trap_regs) (trap : sbi_trap_info) : csrM (Z * sbi_trap_regs) :=
  let prev_virt := sbi_regs_from_virt regs in
  let prev_mode := sbi_mstatus_prev_mode regs.(mstatus) in
  if negb (prev_mode =? PRV_S) && negb (prev_mode =? PRV_U) then mret (SBI_ENOTSUPP, regs)
  else
    let zicfilp := sbi_hart_has_extension f SBI_HART_EXT_ZICFILP in
    let elp := zicfilp && has regs.(mstatus) MSTATUS_MPELP in
    let regs := if zicfilp then set_mstatus regs (clr regs.(mstatus) MSTATUS_MPELP) else regs in
    hyp ← misa_extension platform letter_H;
    next_virt ← (if hyp && prev_virt then
                   if trap.(cause) <? riscv_xlen then
                     v ← csr_read CSR_HEDELEG; mret (has v (Z.shiftl 1 trap.(cause)))
                   else mret false
                 else mret false);
    let regs := set_mstatus regs (set_if next_virt (clr regs.(mstatus) MSTATUS_MPV) MSTATUS_MPV) in
    hyp ← misa_extension platform letter_H;
    (if hyp && negb next_virt then redirect_hs prev_mode prev_virt trap else mret tt);;
    regs ← (if next_virt : bool then redirect_vs prev_mode elp regs trap else redirect_s prev_mode elp regs trap);
    mret (0, regs).
End Redirect.

(** ** Registers that hold what is written *)

Section Full.
Context {hw : Hw} (platform : Z -> bool).

Local Set Default Proof Using "Type".

(** Every bit of the register can be written. *)
Definition full (c : Z) : Prop := plain_csr c /\ c <> CSR_MSECCFG /\ hw_mask c = Some (-1).

Definition set_csr (h : hart) (c v : Z) : hart := Hart h.(pmpcfgs) h.(pmpaddrs) (<[c := v]> h.(csrs)).

Lemma csr_read_full c h : full c -> csr_read c h = Some (csr_val h c, h).
Proof. intros ([E1 E2] & _ & Em). unfold csr_read, hw_read. by rewrite E1, E2, Em. Qed.

Lemma csr_write_full c v h : full c -> csr_write c v h = Some (tt, set_csr h c v).
Proof.
  intros ([E1 E2] & Hne & Em). unfold csr_write, hw_write. rewrite E1, E2, Em.
  apply Z.eqb_neq in Hne. rewrite Hne. change (Z.lnot (-1)) with 0. rewrite Z.land_0_r. change (-1) with (Z.opp 1). by rewrite Z.land_m1_r.
Qed.

Lemma csr_val_eq h c v : csr_val (set_csr h c v) c = v.
Proof. unfold csr_val, set_csr. cbn. by rewrite lookup_insert_eq. Qed.

Lemma csr_val_ne h c c' v : c <> c' -> csr_val (set_csr h c v) c' = csr_val h c'.
Proof. intros. unfold csr_val, set_csr. cbn. by rewrite lookup_insert_ne. Qed.

(** What [misa_extension] answers. *)
Definition misa_has (h : hart) (ext : Z) : bool :=
  let misa := csr_val h CSR_MISA in
  if negb (misa =? 0) then
    if (65 <=? ext) && (ext <=? 90) then has misa (Z.shiftl 1 (ext - 65))
    else if (97 <=? ext) && (ext <=? 122) then has misa (Z.shiftl 1 (ext - 97)) else false
  else platform ext.

Lemma misa_extension_full ext h : full CSR_MISA -> misa_extension platform ext h = Some (misa_has h ext, h).
Proof.
  intros Hm. unfold misa_extension, misa_extension_imp. rewrite (csr_bind _ _ _ _ _ (csr_read_full _ _ Hm)).
  unfold misa_has. repeat case_match; done.
Qed.

Lemma misa_has_set h c v ext : c <> CSR_MISA -> misa_has (set_csr h c v) ext = misa_has h ext.
Proof. intros. unfold misa_has. by rewrite csr_val_ne. Qed.
End Full.

(** ** Bits of the status words *)

Lemma clr_testbit v k i : 0 <= k -> 0 <= i < 64 -> Z.testbit (clr v (2 ^ k)) i = Z.testbit v i && negb (k =? i).
Proof.
  intros Hk Hi. unfold clr. rewrite Z.land_spec, wrap_testbit, Z.lnot_spec, Z.pow2_bits_eqb by lia.
  by rewrite bool_decide_eq_true_2 by lia.
Qed.

Lemma set_if_testbit b v k i : 0 <= k -> 0 <= i -> Z.testbit (set_if b v (2 ^ k)) i = Z.testbit v i || (b && (k =? i)).
Proof.
  intros Hk Hi. unfold set_if. destruct b; cbn [andb]; [|by rewrite orb_false_r].
  by rewrite Z.lor_spec, Z.pow2_bits_eqb by lia.
Qed.

Lemma testbit_mpp i : 0 <= i -> Z.testbit MSTATUS_MPP i = (11 =? i) || (12 =? i).
Proof.
  intros Hi. change MSTATUS_MPP with (Z.lor (2 ^ 11) (2 ^ 12)). by rewrite Z.lor_spec, !Z.pow2_bits_eqb by lia.
Qed.

Lemma mpp_s_testbit v i : 0 <= i < 64 ->
  Z.testbit (mpp_s v) i = (Z.testbit v i && negb (12 =? i)) || (11 =? i).
Proof.
  intros Hi. unfold mpp_s, clr. rewrite Z.lor_spec, Z.land_spec, wrap_testbit, Z.lnot_spec, testbit_mpp by lia.
  change (Z.shiftl PRV_S MSTATUS_MPP_SHIFT) with (2 ^ 11). rewrite Z.pow2_bits_eqb, bool_decide_eq_true_2 by lia.
  destruct (Z.eqb_spec 11 i) as [<-|]; [by rewrite !orb_true_r|]. cbn [orb andb]. by rewrite orb_false_r.
Qed.

Lemma status_enter_testbit prev v i : 0 <= i < 64 ->
  Z.testbit (status_enter prev v) i =
  if i =? 1 then false else if i =? 5 then Z.testbit v 1 else if i =? 8 then prev =? PRV_S else Z.testbit v i.
Proof.
  intros Hi. unfold status_enter, MSTATUS_SIE, MSTATUS_SPIE, MSTATUS_SPP.
  rewrite has_pow2 by lia. rewrite clr_testbit, set_if_testbit, !clr_testbit, !set_if_testbit, !clr_testbit by lia.
  rewrite (Z.eqb_sym 1 i), (Z.eqb_sym 5 i), (Z.eqb_sym 8 i).
  destruct (Z.eqb_spec i 1) as [->|]; [by rewrite andb_false_r|].
  destruct (Z.eqb_spec i 5) as [->|]; cbn [negb andb]; rewrite ?andb_true_r, ?andb_false_r, ?orb_false_r; [done|].
  destruct (Z.eqb_spec i 8) as [->|]; cbn [negb andb]; by rewrite ?andb_true_r, ?andb_false_r, ?orb_false_r.
Qed.

Lemma prev_mode_s v : Z.testbit v 11 = true -> Z.testbit v 12 = false -> sbi_mstatus_prev_mode v = PRV_S.
Proof.
  intros H11 H12. unfold sbi_mstatus_prev_mode, MSTATUS_MPP_SHIFT. apply Z.bits_inj'. intros i Hi.
  rewrite Z.shiftr_spec, Z.land_spec, testbit_mpp by lia. change PRV_S with (2 ^ 0). rewrite Z.pow2_bits_eqb by lia.
  destruct (Z.eqb_spec 0 i) as [<-|]; [change (0 + 11) with 11; by rewrite H11|]. destruct (Z.eqb_spec 12 (i + 11)) as [E|].
  - replace (i + 11) with 12 by lia. by rewrite H12.
  - destruct (Z.eqb_spec 11 (i + 11)); [lia|]. apply andb_false_r.
Qed.

(** ** Redirection is a trap into supervisor mode *)

Section Enter.
Context {hw : Hw} (platform : Z -> bool) (f : sbi_hart_features).

Local Set Default Proof Using "Type".

Definition redirect_csrs : list Z :=
  [CSR_MISA; CSR_HEDELEG; CSR_HSTATUS; CSR_HTVAL; CSR_HTINST; CSR_VSTVAL; CSR_VSEPC; CSR_VSCAUSE; CSR_VSTVEC;
   CSR_VSSTATUS; CSR_STVAL; CSR_SEPC; CSR_SCAUSE; CSR_STVEC].

(** A trap from a guest goes to VS mode when the hypervisor delegates it. *)
Definition to_guest (regs : sbi_trap_regs) (trap : sbi_trap_info) (h : hart) : bool :=
  misa_has platform h letter_H && sbi_regs_from_virt regs && (trap.(cause) <? riscv_xlen)
  && has (csr_val h CSR_HEDELEG) (Z.shiftl 1 trap.(cause)).

(** The hypervisor registers after a trap into HS mode. *)
Definition hs_entered (regs : sbi_trap_regs) (trap : sbi_trap_info) (h h' : hart) : Prop :=
  let virt := sbi_regs_from_virt regs in
  let hst := csr_val h' CSR_HSTATUS in
  has hst HSTATUS_SPV = virt /\ has hst HSTATUS_GVA = negb (trap.(gva) =? 0) /\
  has hst HSTATUS_SPVP =
    (if virt then sbi_mstatus_prev_mode regs.(mstatus) =? PRV_S else has (csr_val h CSR_HSTATUS) HSTATUS_SPVP) /\
  (forall i, 0 <= i < 64 -> ~ In i [6; 7; 8] -> Z.testbit hst i = Z.testbit (csr_val h CSR_HSTATUS) i) /\
  csr_val h' CSR_HTVAL = trap.(tval2) /\ csr_val h' CSR_HTINST = trap.(tinst).

Lemma redirect_hs_effect regs trap h : Forall full redirect_csrs ->
  exists h', redirect_hs (sbi_mstatus_prev_mode regs.(mstatus)) (sbi_regs_from_virt regs) trap h = Some (tt, h') /\
    hs_entered regs trap h h' /\
    forall c, c <> CSR_HSTATUS -> c <> CSR_HTVAL -> c <> CSR_HTINST -> csr_val h' c = csr_val h c.
Proof.
  intros Hf. unfold redirect_csrs in Hf. rewrite !Forall_cons in Hf. destruct Hf as (_ & _ & F1 & F2 & F3 & _).
  unfold redirect_hs. rewrite (csr_bind _ _ _ _ _ (csr_read_full _ _ F1)). set (v := csr_val h CSR_HSTATUS).
  set (virt := sbi_regs_from_virt regs). set (pm := sbi_mstatus_prev_mode (mstatus regs)). cbv zeta. set (w := set_if _ _ HSTATUS_GVA).
  rewrite (csr_bind _ _ _ _ _ (csr_write_full _ _ _ F1)), (csr_bind _ _ _ _ _ (csr_write_full _ _ _ F2)).
  rewrite (csr_write_full _ _ _ F3). eexists. split; [done|]. split.
  - unfold hs_entered. fold virt pm v. rewrite csr_val_eq, !(csr_val_ne _ CSR_HTINST), csr_val_eq,
      !(csr_val_ne _ CSR_HTVAL), csr_val_eq by done.
    unfold HSTATUS_SPV, HSTATUS_GVA, HSTATUS_SPVP. rewrite !has_pow2 by lia.
    assert (forall i, 0 <= i < 64 -> Z.testbit w i =
      if i =? 6 then negb (gva trap =? 0) else if i =? 7 then virt
      else if i =? 8 then (if virt then pm =? PRV_S else Z.testbit v 8) else Z.testbit v i) as Hw.
    { intros i Hi. unfold w, HSTATUS_SPV, HSTATUS_GVA, HSTATUS_SPVP.
      rewrite set_if_testbit, clr_testbit, set_if_testbit, clr_testbit by lia.
      assert (Z.testbit (if virt then set_if (pm =? PRV_S) (clr v (2 ^ 8)) (2 ^ 8) else v) i =
        if i =? 8 then (if virt then pm =? PRV_S else Z.testbit v 8) else Z.testbit v i) as ->.
      { destruct virt; [rewrite set_if_testbit, clr_testbit by lia|by destruct (Z.eqb_spec i 8) as [->|]].
        rewrite (Z.eqb_sym 8 i). destruct (i =? 8); by rewrite ?andb_false_r, ?andb_true_r, ?orb_false_r. }
      rewrite (Z.eqb_sym 6 i), (Z.eqb_sym 7 i). destruct (Z.eqb_spec i 6) as [->|]; [by rewrite andb_false_r, andb_true_r|].
      destruct (Z.eqb_spec i 7) as [->|]; cbn [negb]; by rewrite ?andb_false_r, ?andb_true_r, ?orb_false_r. }
    rewrite !Hw by lia. split_and!; try done. intros i Hi Hn. cbn [In] in Hn. rewrite Hw by done.
    by destruct (Z.eqb_spec i 6), (Z.eqb_spec i 7), (Z.eqb_spec i 8); try lia.
  - intros c H1 H2 H3. by rewrite !csr_val_ne by congruence.
Qed.

(** The bits of the status word that a trap does not touch: the machine status has
    the fields of M mode, besides those of S mode that the guest's word has too. *)
Definition kept_bits (guest : bool) (i : Z) : Prop :=
  0 <= i < 64 /\ ~ In i (if guest then [1; 5; 8; 23] else [1; 5; 8; 11; 12; 23; 39; 41]).

(** Landing pads: without the extension the bits SPELP and MPELP are left alone.
    With it the expectation in MPELP moves to SPELP of the mode that takes the trap;
    a bit SPELP that was still set from an earlier trap is not claimed to be cleared. *)
Definition pad_moved (regs regs' : sbi_trap_regs) (st st' : Z) : Prop :=
  if sbi_hart_has_extension f SBI_HART_EXT_ZICFILP then
    has regs'.(mstatus) MSTATUS_MPELP = false /\
    (has regs.(mstatus) MSTATUS_MPELP = true \/ has st MSTATUS_SPELP = false ->
     has st' MSTATUS_SPELP = has regs.(mstatus) MSTATUS_MPELP)
  else has regs'.(mstatus) MSTATUS_MPELP = has regs.(mstatus) MSTATUS_MPELP /\ has st' MSTATUS_SPELP = has st MSTATUS_SPELP.

(** The supervisor's registers after the trap, and the return with [mret]. *)
Definition entered (regs regs' : sbi_trap_regs) (trap : sbi_trap_info) (h h' : hart) (guest : bool) : Prop :=
  let prev_mode := sbi_mstatus_prev_mode regs.(mstatus) in
  let st := if guest then csr_val h CSR_VSSTATUS else regs.(mstatus) in
  let st' := if guest then csr_val h' CSR_VSSTATUS else regs'.(mstatus) in
  regs'.(gprs) = regs.(gprs) /\
  regs'.(mepc) = csr_val h (if guest then CSR_VSTVEC else CSR_STVEC) /\
  sbi_mstatus_prev_mode regs'.(mstatus) = PRV_S /\ sbi_regs_from_virt regs' = guest /\
  csr_val h' (if guest then CSR_VSCAUSE else CSR_SCAUSE) = trap.(cause) /\
  csr_val h' (if guest then CSR_VSEPC else CSR_SEPC) = regs.(mepc) /\
  csr_val h' (if guest then CSR_VSTVAL else CSR_STVAL) = trap.(tval) /\
  has st' MSTATUS_SPP = (prev_mode =? PRV_S) /\ has st' MSTATUS_SPIE = has st MSTATUS_SIE /\
  has st' MSTATUS_SIE = false /\
  (forall i, kept_bits guest i -> Z.testbit st' i = Z.testbit st i) /\
  (guest = true -> forall i, 0 <= i < 64 -> ~ In i [11; 12; 39; 41] -> Z.testbit regs'.(mstatus) i = Z.testbit regs.(mstatus) i) /\
  pad_moved regs regs' st st'.

(** The status word at the point where the two cases part. *)
Definition redirect_mstatus (regs : sbi_trap_regs) (guest : bool) : Z :=
  let m := if sbi_hart_has_extension f SBI_HART_EXT_ZICFILP then clr regs.(mstatus) MSTATUS_MPELP else regs.(mstatus) in
  set_if guest (clr m MSTATUS_MPV) MSTATUS_MPV.

Lemma redirect_mstatus_testbit regs guest i : 0 <= i < 64 -> i <> 41 ->
  Z.testbit (redirect_mstatus regs guest) i = if i =? 39 then guest else Z.testbit regs.(mstatus) i.
Proof.
  intros Hi Hne. unfold redirect_mstatus, MSTATUS_MPELP, MSTATUS_MPV. rewrite set_if_testbit, clr_testbit by lia.
  assert (Z.testbit (if sbi_hart_has_extension f SBI_HART_EXT_ZICFILP then clr (mstatus regs) (2 ^ 41) else mstatus regs) i =
    Z.testbit (mstatus regs) i) as ->.
  { destruct (sbi_hart_has_extension f _); [|done]. rewrite clr_testbit by lia. destruct (Z.eqb_spec 41 i); [lia|]. apply andb_true_r. }
  rewrite (Z.eqb_sym 39 i). destruct (i =? 39); by rewrite ?andb_false_r, ?andb_true_r, ?orb_false_r.
Qed.

(** The expectation of a landing pad that the trap found. *)
Definition redirect_elp (regs : sbi_trap_regs) : bool :=
  sbi_hart_has_extension f SBI_HART_EXT_ZICFILP && has regs.(mstatus) MSTATUS_MPELP.

Lemma redirect_mstatus_mpelp regs guest : Z.testbit (redirect_mstatus regs guest) 41 =
  negb (sbi_hart_has_extension f SBI_HART_EXT_ZICFILP) && Z.testbit regs.(mstatus) 41.
Proof.
  unfold redirect_mstatus, MSTATUS_MPELP, MSTATUS_MPV. rewrite set_if_testbit, clr_testbit by lia. cbn [Z.eqb Pos.eqb negb].
  rewrite andb_true_r, andb_false_r, orb_false_r. destruct (sbi_hart_has_extension f _); [|done].
  rewrite clr_testbit by lia. apply andb_false_r.
Qed.

(** The bit SPELP is only ever set. *)
Lemma pad_moved_set regs regs' st st' :
  has regs'.(mstatus) MSTATUS_MPELP = negb (sbi_hart_has_extension f SBI_HART_EXT_ZICFILP) && has regs.(mstatus) MSTATUS_MPELP ->
  has st' MSTATUS_SPELP = has st MSTATUS_SPELP || redirect_elp regs -> pad_moved regs regs' st st'.
Proof.
  unfold pad_moved, redirect_elp. intros E1 E2. destruct (sbi_hart_has_extension f _).
  - split; [exact E1|]. rewrite E2. intros [-> | ->]; [apply orb_true_r|done].
  - split; [exact E1|]. by rewrite E2, orb_false_r.
Qed.

Lemma redirect_vs_effect regs trap h : Forall full redirect_csrs ->
  exists regs' h', redirect_vs (sbi_mstatus_prev_mode regs.(mstatus)) (redirect_elp regs)
      (Regs regs.(gprs) regs.(mepc) (redirect_mstatus regs true)) trap h = Some (regs', h') /\
    entered regs regs' trap h h' true.
Proof.
  intros Hf. unfold redirect_csrs in Hf. rewrite !Forall_cons in Hf. destruct Hf as (_&_&_&_&_&F1&F2&F3&F4&F5&_).
  unfold redirect_vs. rewrite (csr_bind _ _ _ _ _ (csr_write_full _ _ _ F1)), (csr_bind _ _ _ _ _ (csr_write_full _ _ _ F2)),
    (csr_bind _ _ _ _ _ (csr_write_full _ _ _ F3)), (csr_bind _ _ _ _ _ (csr_read_full _ _ F4)),
    (csr_bind _ _ _ _ _ (csr_read_full _ _ F5)), (csr_bind _ _ _ _ _ (csr_write_full _ _ _ F5)).
  cbn [gprs mepc mstatus]. rewrite !csr_val_ne by done. eexists _, _. split; [done|]. unfold entered. cbn [gprs mepc mstatus].
  rewrite csr_val_eq, !(csr_val_ne _ CSR_VSSTATUS), csr_val_eq, !(csr_val_ne _ CSR_VSCAUSE), csr_val_eq,
    !(csr_val_ne _ CSR_VSEPC), csr_val_eq by done.
  unfold sbi_regs_from_virt, MSTATUS_SPP, MSTATUS_SPIE, MSTATUS_SIE, MSTATUS_MPV. cbn [mstatus]. rewrite !has_pow2 by lia.
  set (v := csr_val h CSR_VSSTATUS). set (elp := redirect_elp regs). unfold MSTATUS_SPELP.
  split_and!; try done.
  - apply prev_mode_s; by rewrite mpp_s_testbit, redirect_mstatus_testbit, ?andb_false_r, ?orb_true_r by lia.
  - by rewrite mpp_s_testbit, redirect_mstatus_testbit by lia.
  - by rewrite status_enter_testbit by lia.
  - rewrite status_enter_testbit, set_if_testbit by lia. cbn. by rewrite andb_false_r, orb_false_r.
  - by rewrite status_enter_testbit by lia.
  - intros i [Hi Hin]. rewrite status_enter_testbit by lia. cbn [In] in Hin.
    destruct (Z.eqb_spec i 1), (Z.eqb_spec i 5), (Z.eqb_spec i 8); try lia. rewrite set_if_testbit by lia.
    destruct (Z.eqb_spec 23 i); [lia|]. by rewrite andb_false_r, orb_false_r.
  - intros _ i Hi Hin. cbn [In] in Hin. rewrite mpp_s_testbit, redirect_mstatus_testbit by lia.
    destruct (Z.eqb_spec 11 i), (Z.eqb_spec 12 i), (Z.eqb_spec i 39); try lia. by rewrite andb_true_r, orb_false_r.
  - apply pad_moved_set; cbn [mstatus]; unfold MSTATUS_MPELP, MSTATUS_SPELP; rewrite !has_pow2 by lia.
    + rewrite mpp_s_testbit, redirect_mstatus_mpelp by lia. by rewrite andb_true_r, orb_false_r.
    + rewrite status_enter_testbit by lia. cbn [Z.eqb Pos.eqb]. rewrite set_if_testbit by lia. by rewrite andb_true_r.
Qed.

Lemma redirect_s_effect regs trap h : Forall full redirect_csrs ->
  exists regs' h', redirect_s (sbi_mstatus_prev_mode regs.(mstatus)) (redirect_elp regs)
      (Regs regs.(gprs) regs.(mepc) (redirect_mstatus regs false)) trap h = Some (regs', h') /\
    entered regs regs' trap h h' false /\
    (forall c, ~ In c [CSR_STVAL; CSR_SEPC; CSR_SCAUSE] -> csr_val h' c = csr_val h c).
Proof.
  intros Hf. unfold redirect_csrs in Hf. rewrite !Forall_cons in Hf. destruct Hf as (_&_&_&_&_&_&_&_&_&_&F1&F2&F3&F4&_).
  unfold redirect_s. rewrite (csr_bind _ _ _ _ _ (csr_write_full _ _ _ F1)), (csr_bind _ _ _ _ _ (csr_write_full _ _ _ F2)),
    (csr_bind _ _ _ _ _ (csr_write_full _ _ _ F3)), (csr_bind _ _ _ _ _ (csr_read_full _ _ F4)).
  cbn [gprs mepc mstatus]. rewrite !csr_val_ne by done. eexists _, _. split; [done|]. split.
  2: { intros c Hc. cbn [In] in Hc. by rewrite !csr_val_ne by (intros <-; tauto). }
  unfold entered. cbn [gprs mepc mstatus].
  rewrite csr_val_eq, !(csr_val_ne _ CSR_SCAUSE), csr_val_eq, !(csr_val_ne _ CSR_SEPC), csr_val_eq by done.
  unfold sbi_regs_from_virt, MSTATUS_SPP, MSTATUS_SPIE, MSTATUS_SIE, MSTATUS_MPV, MSTATUS_SPELP. cbn [mstatus].
  rewrite !has_pow2 by lia. set (elp := redirect_elp regs).
  assert (forall i, 0 <= i < 64 -> i <> 41 -> i <> 23 ->
    Z.testbit (set_if elp (status_enter (sbi_mstatus_prev_mode (mstatus regs)) (mpp_s (redirect_mstatus regs false))) (2 ^ 23)) i =
    if i =? 1 then false else if i =? 5 then Z.testbit regs.(mstatus) 1
    else if i =? 8 then sbi_mstatus_prev_mode regs.(mstatus) =? PRV_S
    else if i =? 11 then true else if i =? 12 then false else if i =? 39 then false else Z.testbit regs.(mstatus) i) as Hb.
  { intros i Hi H41 H23. rewrite set_if_testbit by lia. destruct (Z.eqb_spec 23 i); [lia|]. rewrite andb_false_r, orb_false_r.
    rewrite status_enter_testbit by lia. destruct (i =? 1); [done|].
    destruct (i =? 5); [by rewrite mpp_s_testbit, redirect_mstatus_testbit, andb_true_r, orb_false_r by lia|].
    destruct (i =? 8); [done|]. rewrite mpp_s_testbit, redirect_mstatus_testbit, (Z.eqb_sym 11 i), (Z.eqb_sym 12 i) by lia.
    destruct (i =? 11); [by rewrite orb_true_r|]. rewrite orb_false_r. destruct (i =? 12); [by rewrite andb_false_r|]. by rewrite andb_true_r. }
  split_and!; try done; [apply prev_mode_s; by rewrite Hb by lia|by rewrite Hb by lia..| |].
  - intros i [Hi Hin]. cbn [In] in Hin. rewrite Hb by lia.
    destruct (Z.eqb_spec i 1), (Z.eqb_spec i 5), (Z.eqb_spec i 8), (Z.eqb_spec i 11), (Z.eqb_spec i 12), (Z.eqb_spec i 39); try lia. done.
  - clear Hb. apply pad_moved_set; cbn [mstatus]; unfold MSTATUS_MPELP, MSTATUS_SPELP; rewrite !has_pow2 by lia;
      rewrite set_if_testbit, status_enter_testbit by lia; cbn [Z.eqb Pos.eqb negb]; rewrite mpp_s_testbit by lia; cbn [Z.eqb Pos.eqb negb].
    + rewrite redirect_mstatus_mpelp. by rewrite !andb_false_r, !orb_false_r, andb_true_r.
    + rewrite redirect_mstatus_testbit by lia. cbn. by rewrite !andb_true_r, orb_false_r.
Qed.

(** The effect of a redirection from S or U mode. *)
Lemma redirect_effect regs trap h :
  Forall full redirect_csrs ->
  sbi_mstatus_prev_mode regs.(mstatus) = PRV_S \/ sbi_mstatus_prev_mode regs.(mstatus) = PRV_U ->
  exists regs' h', sbi_trap_redirect platform f regs trap h = Some ((0, regs'), h') /\
    entered regs regs' trap h h' (to_guest regs trap h) /\
    (misa_has platform h letter_H = true -> to_guest regs trap h = false -> hs_entered regs trap h h').
Proof.
  intros Hf Hpm. pose proof Hf as Hf'. unfold redirect_csrs in Hf'. rewrite !Forall_cons in Hf'. destruct Hf' as (Fm & Fd & _).
  unfold sbi_trap_redirect.
  assert (negb (sbi_mstatus_prev_mode (mstatus regs) =? PRV_S) && negb (sbi_mstatus_prev_mode (mstatus regs) =? PRV_U) = false)
    as -> by (destruct Hpm as [->| ->]; done).
  cbv zeta. fold (redirect_elp regs).
  set (regs1 := if sbi_hart_has_extension f SBI_HART_EXT_ZICFILP then set_mstatus regs (clr (mstatus regs) MSTATUS_MPELP) else regs).
  rewrite (csr_bind _ _ _ _ _ (misa_extension_full platform letter_H h Fm)).
  assert ((if misa_has platform h letter_H && sbi_regs_from_virt regs then
             if cause trap <? riscv_xlen then v ← csr_read CSR_HEDELEG; mret (has v (Z.shiftl 1 (cause trap))) else mret false
           else mret false) h = Some (to_guest regs trap h, h)) as Eg.
  { unfold to_guest. destruct (misa_has platform h letter_H && sbi_regs_from_virt regs); [|done].
    destruct (cause trap <? riscv_xlen); [|done]. by rewrite (csr_bind _ _ _ _ _ (csr_read_full _ _ Fd)). }
  rewrite (csr_bind _ _ _ _ _ Eg), (csr_bind _ _ _ _ _ (misa_extension_full platform letter_H h Fm)).
  assert (forall g, set_mstatus regs1 (set_if g (clr (mstatus regs1) MSTATUS_MPV) MSTATUS_MPV) =
    Regs regs.(gprs) regs.(mepc) (redirect_mstatus regs g)) as Er.
  { intros g. unfold regs1, redirect_mstatus, set_mstatus. by destruct (sbi_hart_has_extension f SBI_HART_EXT_ZICFILP). }
  rewrite Er. destruct (to_guest regs trap h) eqn:Etg.
  - rewrite andb_false_r. destruct (redirect_vs_effect regs trap h Hf) as (regs' & h' & E & Hen).
    exists regs', h'. split; [|done]. unfold mbind, csrM_bind in *. cbn [mret csrM_ret]. unfold mret at 1, csrM_ret at 1. by rewrite E.
  - rewrite andb_true_r.
    assert (exists h1, (if misa_has platform h letter_H then redirect_hs (sbi_mstatus_prev_mode (mstatus regs)) (sbi_regs_from_virt regs) trap
        else mret tt) h = Some (tt, h1) /\ (misa_has platform h letter_H = true -> hs_entered regs trap h h1) /\
        forall c, c <> CSR_HSTATUS -> c <> CSR_HTVAL -> c <> CSR_HTINST -> csr_val h1 c = csr_val h c) as (h1 & E1 & Hhs & Hk1).
    { destruct (misa_has platform h letter_H); [|by exists h].
      destruct (redirect_hs_effect regs trap h Hf) as (h1 & E1 & Hhs & Hk). by exists h1. }
    rewrite (csr_bind _ _ _ _ _ E1). destruct (redirect_s_effect regs trap h1 Hf) as (regs' & h' & E & Hen & Hk).
    exists regs', h'. rewrite (csr_bind _ _ _ _ _ E). split; [done|]. split.
    + unfold entered in Hen |- *. rewrite (Hk1 CSR_STVEC) in Hen by done. exact Hen.
    + intros Hh _. specialize (Hhs Hh). unfold hs_entered in *. rewrite !Hk by (cbn; unfold CSR_STVAL, CSR_SEPC, CSR_SCAUSE,
        CSR_HSTATUS, CSR_HTVAL, CSR_HTINST; lia). exact Hhs.
Qed.

(** C23: [sbi_trap_redirect] makes the hart take the trap in supervisor mode: the
    return with [mret] goes to the vector of S mode, or of VS mode when the trap
    came from a guest and the hypervisor delegates its cause, with cause, program
    counter and trap value in that mode's registers, the previous mode and the
    interrupt enable stacked, interrupts off, the guest state recorded for the
    hypervisor, and every other bit of the status and every general register kept.
    With landing pads (Zicfilp) the expectation in MPELP moves to SPELP of the mode
    that takes the trap and MPELP is cleared, provided that SPELP was clear or a pad
    is expected: otherwise the code leaves the SPELP of an earlier trap in place,
    where the specification clears it ([redirect_keeps_stale_spelp]).  The hart came
    from S or U mode, and has the registers that redirection uses. *)
Theorem redirect_enters_supervisor regs trap h :
  Forall full redirect_csrs ->
  sbi_mstatus_prev_mode regs.(mstatus) = PRV_S \/ sbi_mstatus_prev_mode regs.(mstatus) = PRV_U ->
  exists regs' h', sbi_trap_redirect platform f regs trap h = Some ((0, regs'), h') /\
    entered regs regs' trap h h' (to_guest regs trap h) /\
    (misa_has platform h letter_H = true -> to_guest regs trap h = false -> hs_entered regs trap h h').
Proof. exact (redirect_effect regs trap h). Qed.
End Enter.

(** ** Concrete traps *)

(** A hart on which every register exists and every bit can be written. *)
Definition hw_full : Hw := {| hw_pmp_csrs := 0; hw_pmps := 0; hw_grain := 0; hw_addr_bits := 54; hw_mask := fun _ => Some (-1) |}.

Definition no_features : sbi_hart_features := Features true 0 [0] 0 0 0 0 0.
Definition zicfilp_features : sbi_hart_features := Features true 0 [2 ^ SBI_HART_EXT_ZICFILP] 0 0 0 0 0.

(** A guest hypervisor: misa has H, the vectors are set, exceptions 13 are
    delegated to guests. *)
Definition hyp_hart : hart := Hart [] [] (list_to_map
  [(CSR_MISA, 2 ^ 7); (CSR_HEDELEG, 2 ^ 13); (CSR_STVEC, 0x80200000); (CSR_VSTVEC, 0x90200000); (CSR_VSSTATUS, MSTATUS_SIE)]).

(** A load page fault in VU mode. *)
Definition guest_regs : sbi_trap_regs := Regs (replicate 32 7) 0x1000 MSTATUS_MPV.
Definition guest_fault : sbi_trap_info := TrapInfo 13 0xdead0 0 0 1.

Lemma redirect_enters_supervisor_witness : exists regs' h',
  @sbi_trap_redirect hw_full (fun _ => false) no_features guest_regs guest_fault hyp_hart = Some ((0, regs'), h') /\
  regs'.(mepc) = 0x90200000 /\ csr_val h' CSR_VSCAUSE = 13 /\ sbi_regs_from_virt regs' = true /\
  has (csr_val h' CSR_VSSTATUS) MSTATUS_SPIE = true.
Proof.
  destruct (@redirect_enters_supervisor hw_full (fun _ => false) no_features guest_regs guest_fault hyp_hart)
    as (regs' & h' & E & (_ & Hpc & _ & Hv & Hc & _ & _ & _ & Hspie & _) & _).
  - repeat constructor; discriminate.
  - right. reflexivity.
  - exists regs', h'. split; [exact E|]. split; [exact Hpc|]. split; [exact Hc|]. split; [exact Hv|exact Hspie].
Defined.

(** The previous landing-pad state is only ever set: a trap taken when no landing
    pad is expected leaves the SPELP bit of an earlier trap in place. *)
Example redirect_keeps_stale_spelp : exists regs' h',
  @sbi_trap_redirect hw_full (fun _ => false) zicfilp_features (Regs (replicate 32 0) 0x1000 MSTATUS_SPELP)
    (TrapInfo 13 0xdead0 0 0 0) (Hart [] [] ∅) = Some ((0, regs'), h') /\ has regs'.(mstatus) MSTATUS_SPELP = true.
Proof. eexists _, _. split; [vm_compute; reflexivity|reflexivity]. Qed.
