(* ===== verification/TrapLdst.v ===== *)
(** * Emulation of misaligned and faulting loads and stores
    (lib/sbi/sbi_trap_ldst.c, lib/sbi/sbi_unpriv.c, the instruction macros of
    include/sbi/riscv_encoding.h and include/sbi/riscv_fp.h; 64-bit, with
    floating point).

    Memory as the trapped context sees it is hardware: [lbu], [lhu] and [sb] stand
    for the accesses made with [mstatus.MPRV] set and an expected trap; [inr] is
    the trap they take.  [emulate_load] and [emulate_store] stand for the hooks of
    the platform, [v_ld] and [v_st] for the vector emulators of
    sbi_trap_v_ldst.c. *)

From S2P Require Import Prelude SbiTypes Bitops Domain Csr Pmp PmpProps HartFeat Trap.

Local Open Scope Z_scope.

(** ** Instruction fields *)

Definition INSN_16BIT_MASK : Z := 0x3.
Definition INSN_LEN (insn : Z) : Z := if negb (Z.land insn INSN_16BIT_MASK =? INSN_16BIT_MASK) then 2 else 4.
Definition SH_RD : Z := 7.
Definition SH_RS1 : Z := 15.
Definition SH_RS2 : Z := 20.
Definition SH_RS2C : Z := 2.
Definition RV_X (x s n : Z) : Z := Z.land (Z.shiftr x s) (Z.shiftl 1 n - 1).
Definition RVC_RS2S (insn : Z) : Z := 8 + RV_X insn SH_RS2C 3.
Definition SHIFT_RIGHT (x y : Z) : Z := if y <? 0 then u64 (Z.shiftl x (- y)) else Z.shiftr x y.
Definition LOG_REGBYTES : Z := 3.
Definition REG_MASK : Z := Z.shiftl 1 (5 + LOG_REGBYTES) - Z.shiftl 1 LOG_REGBYTES.
Definition REG_OFFSET (insn pos : Z) : Z := Z.land (SHIFT_RIGHT insn (pos - LOG_REGBYTES)) REG_MASK.

(** The word of [struct sbi_trap_regs] at that offset. *)
Definition REG_PTR (insn pos : Z) : nat := Z.to_nat (REG_OFFSET insn pos / 8).
Definition get_reg (regs : sbi_trap_regs) (i : nat) : Z := default 0 (regs.(gprs) !! i).
Definition GET_RS2 (insn : Z) (regs : sbi_trap_regs) : Z := get_reg regs (REG_PTR insn SH_RS2).
Definition GET_RS2S (insn : Z) (regs : sbi_trap_regs) : Z := get_reg regs (REG_PTR (RVC_RS2S insn) 0).
Definition GET_RS2C (insn : Z) (regs : sbi_trap_regs) : Z := get_reg regs (REG_PTR insn SH_RS2C).
Definition SET_RD (insn : Z) (regs : sbi_trap_regs) (val : Z) : sbi_trap_regs :=
  Regs (<[REG_PTR insn SH_RD := val]> regs.(gprs)) regs.(mepc) regs.(mstatus).

(** Floating-point registers hold 64 bits; a 32-bit value is boxed in ones. *)
Definition GET_F64_REG (insn pos : Z) (fregs : list Z) : Z := default 0 (fregs !! REG_PTR insn pos).
Definition GET_F32_REG (insn pos : Z) (fregs : list Z) : Z := u64 (s32 (GET_F64_REG insn pos fregs)).
Definition nan_box (v : Z) : Z := Z.lor (u32 v) (Z.shiftl (2 ^ 32 - 1) 32).

(** The context of the trapped instruction. *)
Record context := Ctx { cregs : sbi_trap_regs; fregs : list Z }.

Definition SET_FS_DIRTY (regs : sbi_trap_regs) : sbi_trap_regs := set_mstatus regs (Z.lor regs.(mstatus) MSTATUS_FS).
Definition SET_F64_RD (insn : Z) (c : context) (val : Z) : context :=
  Ctx (SET_FS_DIRTY c.(cregs)) (<[REG_PTR insn SH_RD := val]> c.(fregs)).
Definition SET_F32_RD (insn : Z) (c : context) (val : Z) : context :=
  Ctx (SET_FS_DIRTY c.(cregs)) (<[REG_PTR insn SH_RD := nan_box val]> c.(fregs)).

Definition INSN_PSEUDO_VS_LOAD : Z := 0x3000.
Definition INSN_PSEUDO_VS_STORE : Z := 0x3020.

Definition matches (insn mask match_ : Z) : bool := Z.land insn mask =? match_.

Definition IS_VECTOR_LOAD_STORE (insn : Z) : bool := matches insn 0x7f 0x07 || matches insn 0x7f 0x27.

(** ** Decoding *)

(** How a load is carried out: bytes, the shifts that extend the sign, whether the
    destination is a floating-point register, whether it is a vector load, and
    the instruction that names the destination. *)
Record ld_kind := LdKind { k_len : Z; k_shift : Z; k_fp : bool; k_vector : bool; k_insn : Z }.

Definition shift_of (len : Z) : Z := 8 * (8 - len).

Definition ld_decode (insn : Z) : option ld_kind :=
  let c_insn := Z.shiftl (RVC_RS2S insn) SH_RD in
  let rd_nz := negb (Z.land (Z.shiftr insn SH_RD) 0x1f =? 0) in
  if matches insn 0x707f 0x3 then Some (LdKind 1 (shift_of 1) false false insn) (* LB *)
  else if matches insn 0x707f 0x4003 then Some (LdKind 1 0 false false insn) (* LBU *)
  else if matches insn 0x707f 0x2003 then Some (LdKind 4 (shift_of 4) false false insn) (* LW *)
  else if matches insn 0x707f 0x3003 then Some (LdKind 8 (shift_of 8) false false insn) (* LD *)
  else if matches insn 0x707f 0x6003 then Some (LdKind 4 0 false false insn) (* LWU *)
  else if matches insn 0x707f 0x3007 then Some (LdKind 8 0 true false insn) (* FLD *)
  else if matches insn 0x707f 0x2007 then Some (LdKind 4 0 true false insn) (* FLW *)
  else if matches insn 0x707f 0x1003 then Some (LdKind 2 (shift_of 2) false false insn) (* LH *)
  else if matches insn 0x707f 0x5003 then Some (LdKind 2 0 false false insn) (* LHU *)
  else if matches insn 0xe003 0x6000 then Some (LdKind 8 (shift_of 8) false false c_insn) (* C.LD *)
  else if matches insn 0xe003 0x6002 && rd_nz then Some (LdKind 8 (shift_of 8) false false insn) (* C.LDSP *)
  else if matches insn 0xe003 0x4000 then Some (LdKind 4 (shift_of 4) false false c_insn) (* C.LW *)
  else if matches insn 0xe003 0x4002 && rd_nz then Some (LdKind 4 (shift_of 4) false false insn) (* C.LWSP *)
  else if matches insn 0xe003 0x2000 then Some (LdKind 8 0 true false c_insn) (* C.FLD *)
  else if matches insn 0xe003 0x2002 then Some (LdKind 8 0 true false insn) (* C.FLDSP *)
  else if matches insn 0xfc43 0x8400 then Some (LdKind 2 0 false false c_insn) (* C.LHU *)
  else if matches insn 0xfc43 0x8440 then Some (LdKind 2 (shift_of 2) false false c_insn) (* C.LH *)
  else if IS_VECTOR_LOAD_STORE insn then Some (LdKind 0 0 false true insn)
  else None.

(** Where a store takes its value from: the field [rs2] of a 32-bit instruction or
    the two of a compressed one, as an integer or a floating-point register. *)
Inductive st_src := SrcRS2 | SrcRS2S | SrcRS2C | SrcF64 | SrcF32 | SrcF64S | SrcF64C | SrcVector.
#[global] Instance st_src_eq_dec : EqDecision st_src.
Proof. solve_decision. Defined.

Definition st_select (insn : Z) : option (Z * st_src) :=
  if matches insn 0x707f 0x23 then Some (1, SrcRS2) (* SB *)
  else if matches insn 0x707f 0x2023 then Some (4, SrcRS2) (* SW *)
  else if matches insn 0x707f 0x3023 then Some (8, SrcRS2) (* SD *)
  else if matches insn 0x707f 0x3027 then Some (8, SrcF64) (* FSD *)
  else if matches insn 0x707f 0x2027 then Some (4, SrcF32) (* FSW *)
  else if matches insn 0x707f 0x1023 then Some (2, SrcRS2) (* SH *)
  else if matches insn 0xe003 0xe000 then Some (8, SrcRS2S) (* C.SD *)
  else if matches insn 0xe003 0xe002 then Some (8, SrcRS2C) (* C.SDSP *)
  else if matches insn 0xe003 0xc000 then Some (4, SrcRS2S) (* C.SW *)
  else if matches insn 0xe003 0xc002 then Some (4, SrcRS2C) (* C.SWSP *)
  else if matches insn 0xe003 0xa000 then Some (8, SrcF64S) (* C.FSD *)
  else if matches insn 0xe003 0xa002 then Some (8, SrcF64C) (* C.FSDSP *)
  else if matches insn 0xfc43 0x8c00 then Some (2, SrcRS2S) (* C.SH *)
  else if IS_VECTOR_LOAD_STORE insn then Some (0, SrcVector)
  else None.

Definition st_value (insn : Z) (c : context) (s : st_src) : option Z :=
  match s with
  | SrcRS2 => Some (GET_RS2 insn c.(cregs))
  | SrcRS2S => Some (GET_RS2S insn c.(cregs))
  | SrcRS2C => Some (GET_RS2C insn c.(cregs))
  | SrcF64 => Some (GET_F64_REG insn SH_RS2 c.(fregs))
  | SrcF32 => Some (GET_F32_REG insn SH_RS2 c.(fregs))
  | SrcF64S => Some (GET_F64_REG (RVC_RS2S insn) 0 c.(fregs))
  | SrcF64C => Some (GET_F64_REG insn SH_RS2C c.(fregs))
  | SrcVector => None
  end.

(** How a store is carried out: bytes and the value; [None] in the value is a
    vector store. *)
Definition st_decode (insn : Z) (c : context) : option (Z * option Z) :=
  option_map (fun '(len, s) => (len, st_value insn c s)) (st_select insn).

Definition sbi_misaligned_tinst_fixup (orig_tinst new_tinst addr_offset : Z) : Z :=
  if (new_tinst =? INSN_PSEUDO_VS_LOAD) || (new_tinst =? INSN_PSEUDO_VS_STORE) then new_tinst
  else if orig_tinst =? 0 then 0
  else Z.lor orig_tinst (u64 (Z.shiftl addr_offset SH_RS1)).

Definition with_tinst (t : sbi_trap_info) (v : Z) : sbi_trap_info := TrapInfo t.(cause) t.(tval) t.(tval2) v t.(gva).
Definition with_cause (t : sbi_trap_info) (c v : Z) : sbi_trap_info := TrapInfo c t.(tval) t.(tval2) v t.(gva).

Definition CAUSE_FETCH_ACCESS : Z := 0x1.
Definition CAUSE_LOAD_ACCESS : Z := 0x5.
Definition CAUSE_FETCH_PAGE_FAULT : Z := 0xc.
Definition CAUSE_LOAD_PAGE_FAULT : Z := 0xd.
Definition CAUSE_FETCH_GUEST_PAGE_FAULT : Z := 0x14.
Definition CAUSE_LOAD_GUEST_PAGE_FAULT : Z := 0x15.

(** A fault of the loads that fetch an instruction, as a fault of the fetch. *)
Definition fetch_fault (t : sbi_trap_info) : sbi_trap_info :=
  if t.(cause) =? CAUSE_LOAD_ACCESS then with_cause t CAUSE_FETCH_ACCESS 0
  else if t.(cause) =? CAUSE_LOAD_PAGE_FAULT then with_cause t CAUSE_FETCH_PAGE_FAULT 0
  else if t.(cause) =? CAUSE_LOAD_GUEST_PAGE_FAULT then
    with_cause t CAUSE_FETCH_GUEST_PAGE_FAULT
      (if negb (t.(tinst) =? INSN_PSEUDO_VS_LOAD) && negb (t.(tinst) =? INSN_PSEUDO_VS_STORE) then 0 else t.(tinst))
  else t.

(** The bytes of a value in memory order, and back. *)
Fixpoint le_bytes (n : nat) (v : Z) : list Z :=
  match n with O => [] | S n => u8 v :: le_bytes n (Z.shiftr v 8) end.
Definition le_value (bs : list Z) : Z := word_of bs.

(** [((long)(val << shift)) >> shift] as a word. *)
Definition sext (val shift : Z) : Z := u64 (Z.shiftr (signed 64 (Z.shiftl val shift)) shift).

(** ** Emulation *)

Section Emulate.
Context {hw : Hw} (platform : Z -> bool) (f : sbi_hart_features).
Context {mem : Type} (lbu lhu : mem -> Z -> Z + sbi_trap_info) (sb : mem -> Z -> Z -> mem + sbi_trap_info).

(** Halfword by halfword.  After a fault of the first one the assembly goes on to
    test a register that the load did not write; the model keeps the first fault. *)
Definition sbi_get_insn (m : mem) (mepc : Z) : Z + sbi_trap_info :=
  match lhu m mepc with
  | inr t => inr (fetch_fault t)
  | inl lo =>
      if Z.land lo 3 =? 3 then
        match lhu m (u64 (mepc + 2)) with
        | inr t => inr (fetch_fault t)
        | inl hi => inl (lo + Z.shiftl hi 16)
        end
      else inl lo
  end.

(** The trapped instruction and its length: from [mtinst] when that holds a
    transformed instruction, else from memory. *)
Definition trapped_insn (m : mem) (regs : sbi_trap_regs) (trap : sbi_trap_info) : (Z * Z) + sbi_trap_info :=
  if negb (Z.land trap.(tinst) 1 =? 0) then
    let insn := Z.lor trap.(tinst) INSN_16BIT_MASK in
    inl (insn, if negb (Z.land trap.(tinst) 2 =? 0) then INSN_LEN insn else 2)
  else
    match sbi_get_insn m regs.(mepc) with
    | inr t => inr t
    | inl insn => inl (insn, INSN_LEN insn)
    end.

Definition redirect (c : context) (t : sbi_trap_info) : csrM (Z * context) :=
  '(rc, regs) ← sbi_trap_redirect platform f c.(cregs) t; mret (rc, Ctx regs c.(fregs)).

Definition advance (c : context) (len : Z) : context :=
  Ctx (set_mepc c.(cregs) (u64 (c.(cregs).(mepc) + len))) c.(fregs).

(** An emulator returns a length, zero or an error, the value it read, and the
    context; [v_ld] works on the context itself. *)
Definition sbi_trap_emulate_load (v_ld : context -> sbi_trap_info -> csrM (Z * context))
    (emu : Z -> context -> sbi_trap_info -> csrM (Z * Z * context)) (m : mem) (c : context) (trap : sbi_trap_info)
    : csrM (Z * context) :=
  match trapped_insn m c.(cregs) trap with
  | inr t => redirect c t
  | inl (insn, insn_len) =>
      match ld_decode insn with
      | None => redirect c trap
      | Some k =>
          if k.(k_vector) then
            '(rc, c) ← v_ld c trap;
            if rc <=? 0 then mret (rc, c) else mret (0, advance c insn_len)
          else
            '(rc, val, c) ← emu k.(k_len) c trap;
            if rc <=? 0 then mret (rc, c)
            else
              let c := if negb k.(k_fp) then Ctx (SET_RD k.(k_insn) c.(cregs) (sext val k.(k_shift))) c.(fregs)
                       else if k.(k_len) =? 8 then SET_F64_RD k.(k_insn) c val else SET_F32_RD k.(k_insn) c val in
              mret (0, advance c insn_len)
      end
  end.

(** [for (i = 0; i < rlen; i++)]: the bytes read, or the trap of byte [i]. *)
Fixpoint ld_bytes (n : nat) (i : Z) (m : mem) (addr : Z) : list Z + (Z * sbi_trap_info) :=
  match n with
  | O => inl []
  | S n =>
      match lbu m (u64 (addr + i)) with
      | inr t => inr (i, t)
      | inl b => match ld_bytes n (i + 1) m addr with inl bs => inl (b :: bs) | inr e => inr e end
      end
  end.

Definition sbi_misaligned_ld_emulator (m : mem) (rlen : Z) (c : context) (trap : sbi_trap_info)
    : csrM (Z * Z * context) :=
  match ld_bytes (Z.to_nat rlen) 0 m trap.(tval) with
  | inl bs => mret (rlen, le_value bs, c)
  | inr (i, t) =>
      '(rc, c) ← redirect c (with_tinst t (sbi_misaligned_tinst_fixup trap.(tinst) t.(tinst) i)); mret (rc, 0, c)
  end.

Definition sbi_misaligned_load_handler (v_ld : context -> sbi_trap_info -> csrM (Z * context)) (m : mem) (c : context)
    (trap : sbi_trap_info) : csrM (Z * context) :=
  sbi_trap_emulate_load v_ld (sbi_misaligned_ld_emulator m) m c trap.

(** Stores also change the memory. *)
Definition sbi_trap_emulate_store (v_st : mem -> context -> sbi_trap_info -> csrM (Z * context * mem))
    (emu : mem -> Z -> Z -> context -> sbi_trap_info -> csrM (Z * context * mem)) (m : mem) (c : context)
    (trap : sbi_trap_info) : csrM (Z * context * mem) :=
  let redirected t := '(rc, c) ← redirect c t; mret (rc, c, m) in
  match trapped_insn m c.(cregs) trap with
  | inr t => redirected t
  | inl (insn, insn_len) =>
      match st_decode insn c with
      | None => redirected trap
      | Some (len, val) =>
          '(rc, c, m) ← match val with None => v_st m c trap | Some val => emu m len val c trap end;
          if rc <=? 0 then mret (rc, c, m) else mret (0, advance c insn_len, m)
      end
  end.

(** [for (i = 0; i < wlen; i++)]: the memory, and the trap of the byte that took
    one. *)
Fixpoint st_bytes (bs : list Z) (i : Z) (m : mem) (addr : Z) : mem * option (Z * sbi_trap_info) :=
  match bs with
  | [] => (m, None)
  | b :: bs =>
      match sb m (u64 (addr + i)) b with
      | inr t => (m, Some (i, t))
      | inl m => st_bytes bs (i + 1) m addr
      end
  end.

Definition sbi_misaligned_st_emulator (m : mem) (wlen val : Z) (c : context) (trap : sbi_trap_info)
    : csrM (Z * context * mem) :=
  match st_bytes (le_bytes (Z.to_nat wlen) val) 0 m trap.(tval) with
  | (m, None) => mret (wlen, c, m)
  | (m, Some (i, t)) =>
      '(rc, c) ← redirect c (with_tinst t (sbi_misaligned_tinst_fixup trap.(tinst) t.(tinst) i)); mret (rc, c, m)
  end.

Definition sbi_misaligned_store_handler (v_st : mem -> context -> sbi_trap_info -> csrM (Z * context * mem)) (m : mem)
    (c : context) (trap : sbi_trap_info) : csrM (Z * context * mem) :=
  sbi_trap_emulate_store v_st sbi_misaligned_st_emulator m c trap.

(** Access faults: the platform may emulate the access. *)
Definition sbi_ld_access_emulator (emulate_load : Z -> Z -> option Z) (rlen : Z) (c : context) (trap : sbi_trap_info)
    : csrM (Z * Z * context) :=
  if sbi_mstatus_prev_mode c.(cregs).(mstatus) =? PRV_M then mret (SBI_EINVAL, 0, c)
  else match emulate_load rlen trap.(tval) with
       | None => '(rc, c) ← redirect c trap; mret (rc, 0, c)
       | Some v => mret (rlen, v, c)
       end.

Definition sbi_load_access_handler (v_ld : context -> sbi_trap_info -> csrM (Z * context))
    (emulate_load : Z -> Z -> option Z) (m : mem) (c : context) (trap : sbi_trap_info) : csrM (Z * context) :=
  sbi_trap_emulate_load v_ld (sbi_ld_access_emulator emulate_load) m c trap.

Definition sbi_st_access_emulator (emulate_store : mem -> Z -> Z -> Z -> option mem) (m : mem) (wlen val : Z) (c : context)
    (trap : sbi_trap_info) : csrM (Z * context * mem) :=
  if sbi_mstatus_prev_mode c.(cregs).(mstatus) =? PRV_M then mret (SBI_EINVAL, c, m)
  else match emulate_store m wlen trap.(tval) val with
       | None => '(rc, c) ← redirect c trap; mret (rc, c, m)
       | Some m => mret (wlen, c, m)
       end.

Definition sbi_store_access_handler (v_st : mem -> context -> sbi_trap_info -> csrM (Z * context * mem))
    (emulate_store : mem -> Z -> Z -> Z -> option mem) (m : mem) (c : context) (trap : sbi_trap_info)
    : csrM (Z * context * mem) :=
  sbi_trap_emulate_store v_st (sbi_st_access_emulator emulate_store) m c trap.
End Emulate.

(** ** The instructions, as the instruction set describes them *)

Inductive width := B1 | B2 | B4 | B8.
#[global] Instance width_eq_dec : EqDecision width.
Proof. solve_decision. Defined.
Definition bytes_of (w : width) : nat := match w with B1 => 1 | B2 => 2 | B4 => 4 | B8 => 8 end.

(** Loads with their destination: 32-bit loads (width, zero extension), compressed
    loads from a pointer and from the stack, and floating-point loads. *)
Inductive load :=
| Load (w : width) (uns : bool) (rd rs1 imm : Z)
| FLoad (w : width) (rd rs1 imm : Z)
| CLoad (w : width) (rd' rs1' hi lo : Z)
| CLoadSp (w : width) (rd hi lo : Z)
| CFLoad (rd' rs1' hi lo : Z)
| CFLoadSp (rd hi lo : Z)
| CLoadHalf (uns : bool) (rd' rs1' lo : Z).

Definition log_width (w : width) : Z := match w with B1 => 0 | B2 => 1 | B4 => 2 | B8 => 3 end.

Definition load_ok (l : load) : Prop :=
  match l with
  | Load w uns rd rs1 imm => in_range 5 rd /\ in_range 5 rs1 /\ in_range 12 imm /\ ~ (w = B8 /\ uns = true)
  | FLoad w rd rs1 imm => in_range 5 rd /\ in_range 5 rs1 /\ in_range 12 imm /\ (w = B4 \/ w = B8)
  | CLoad w rd rs1 hi lo => in_range 3 rd /\ in_range 3 rs1 /\ in_range 3 hi /\ in_range 2 lo /\ (w = B4 \/ w = B8)
  | CLoadSp w rd hi lo => in_range 5 rd /\ rd <> 0 /\ in_range 1 hi /\ in_range 5 lo /\ (w = B4 \/ w = B8)
  | CFLoad rd rs1 hi lo => in_range 3 rd /\ in_range 3 rs1 /\ in_range 3 hi /\ in_range 2 lo
  | CFLoadSp rd hi lo => in_range 5 rd /\ in_range 1 hi /\ in_range 5 lo
  | CLoadHalf _ rd rs1 lo => in_range 3 rd /\ in_range 3 rs1 /\ in_range 1 lo
  end.

(** The encodings of the instruction set manual. *)
Definition load_encode (l : load) : Z :=
  match l with
  | Load w uns rd rs1 imm => 0x03 + 2 ^ 7 * (rd + 2 ^ 5 * ((log_width w + 4 * Z.b2z uns) + 2 ^ 3 * (rs1 + 2 ^ 5 * imm)))
  | FLoad w rd rs1 imm => 0x07 + 2 ^ 7 * (rd + 2 ^ 5 * (log_width w + 2 ^ 3 * (rs1 + 2 ^ 5 * imm)))
  | CLoad w rd rs1 hi lo => 4 * (rd + 2 ^ 3 * (lo + 4 * (rs1 + 2 ^ 3 * (hi + 2 ^ 3 * (log_width w)))))
  | CLoadSp w rd hi lo => 2 + 4 * (lo + 2 ^ 5 * (rd + 2 ^ 5 * (hi + 2 * log_width w)))
  | CFLoad rd rs1 hi lo => 4 * (rd + 2 ^ 3 * (lo + 4 * (rs1 + 2 ^ 3 * (hi + 2 ^ 3 * 1))))
  | CFLoadSp rd hi lo => 2 + 4 * (lo + 2 ^ 5 * (rd + 2 ^ 5 * (hi + 2 * 1)))
  | CLoadHalf uns rd rs1 lo => 4 * (rd + 2 ^ 3 * (lo + 2 * (Z.b2z (negb uns) + 2 * (rs1 + 2 ^ 3 * 0x21))))
  end.

Definition load_width (l : load) : width :=
  match l with
  | Load w _ _ _ _ | FLoad w _ _ _ | CLoad w _ _ _ _ | CLoadSp w _ _ _ => w
  | CFLoad _ _ _ _ | CFLoadSp _ _ _ => B8
  | CLoadHalf _ _ _ _ => B2
  end.

Definition load_unsigned (l : load) : bool :=
  match l with Load _ uns _ _ _ | CLoadHalf uns _ _ _ => uns | _ => false end.

Definition load_fp (l : load) : bool :=
  match l with FLoad _ _ _ _ | CFLoad _ _ _ _ | CFLoadSp _ _ _ => true | _ => false end.

(** The compressed forms name the registers from 8 on. *)
Definition load_rd (l : load) : nat :=
  Z.to_nat (match l with
  | Load _ _ rd _ _ | FLoad _ rd _ _ | CLoadSp _ rd _ _ | CFLoadSp rd _ _ => rd
  | CLoad _ rd _ _ _ | CFLoad rd _ _ _ | CLoadHalf _ rd _ _ => 8 + rd
  end).

Definition load_len (l : load) : Z := match l with Load _ _ _ _ _ | FLoad _ _ _ _ => 4 | _ => 2 end.

(** The value of the bytes read, extended to 64 bits. *)
Definition load_value (l : load) (bs : list Z) : Z :=
  let v := le_value bs in
  if load_unsigned l then v else u64 (signed (8 * Z.of_nat (bytes_of (load_width l))) v).

(** What the instruction does to the context, given the bytes in memory. *)
Definition load_effect (l : load) (len : Z) (bs : list Z) (c : context) : context :=
  let c := if load_fp l then
             match load_width l with
             | B8 => Ctx (SET_FS_DIRTY c.(cregs)) (<[load_rd l := le_value bs]> c.(fregs))
             | _ => Ctx (SET_FS_DIRTY c.(cregs)) (<[load_rd l := nan_box (le_value bs)]> c.(fregs))
             end
           else Ctx (Regs (<[load_rd l := load_value l bs]> c.(cregs).(gprs)) c.(cregs).(mepc) c.(cregs).(mstatus)) c.(fregs) in
  advance c len.

(** ** Decoding is right *)

(** What the rest of the handler uses of a decoded load. *)
Definition ld_view (k : ld_kind) : Z * Z * bool * bool * nat :=
  (k.(k_len), k.(k_shift), k.(k_fp), k.(k_vector), REG_PTR k.(k_insn) SH_RD).

Definition load_view (l : load) : Z * Z * bool * bool * nat :=
  let n := Z.of_nat (bytes_of (load_width l)) in
  (n, if load_unsigned l || load_fp l then 0 else 8 * (8 - n), load_fp l, false, load_rd l).

Lemma land_low16 x c : 0 <= c < 2 ^ 16 -> Z.land (x `mod` 2 ^ 16) c = Z.land x c.
Proof.
  intros Hc. rewrite <- land_low by lia. rewrite <- Z.land_assoc. f_equal.
  rewrite Z.land_comm, land_low by lia. apply Z.mod_small. lia.
Qed.

Lemma matches_low16 x mask v : 0 <= mask < 2 ^ 16 -> matches (x `mod` 2 ^ 16) mask v = matches x mask v.
Proof. intros. unfold matches. by rewrite land_low16. Qed.

Lemma shiftr_land x s c : 0 <= s -> Z.land (Z.shiftr x s) c = Z.shiftr (Z.land x (Z.shiftl c s)) s.
Proof.
  intros Hs. rewrite Z.shiftr_land, Z.shiftr_shiftl_l, Z.sub_diag by lia. by rewrite Z.shiftl_0_r.
Qed.

Lemma field_low16 x s c : 0 <= s -> 0 <= Z.shiftl c s < 2 ^ 16 ->
  Z.land (Z.shiftr (x `mod` 2 ^ 16) s) c = Z.land (Z.shiftr x s) c.
Proof. intros. by rewrite !shiftr_land, land_low16. Qed.

Lemma rd_low16 x : REG_PTR (x `mod` 2 ^ 16) SH_RD = REG_PTR x SH_RD.
Proof.
  unfold REG_PTR, REG_OFFSET, SHIFT_RIGHT. change (SH_RD - LOG_REGBYTES <? 0) with false. cbv iota.
  change REG_MASK with 0xf8. change (SH_RD - LOG_REGBYTES) with 4. by rewrite field_low16.
Qed.

Lemma rs2s_low16 x : RVC_RS2S (x `mod` 2 ^ 16) = RVC_RS2S x.
Proof. unfold RVC_RS2S, RV_X, SH_RS2C. change (Z.shiftl 1 3 - 1) with 7. by rewrite field_low16. Qed.

Lemma ld_decode_low16 x : option_map ld_view (ld_decode (x `mod` 2 ^ 16)) = option_map ld_view (ld_decode x).
Proof.
  unfold ld_decode, IS_VECTOR_LOAD_STORE. rewrite !matches_low16 by lia. rewrite rs2s_low16.
  change (Z.land (Z.shiftr (x `mod` 2 ^ 16) SH_RD) 31) with (Z.land (Z.shiftr (x `mod` 2 ^ 16) 7) 31).
  rewrite (field_low16 x 7 31) by done. change (Z.shiftr x 7) with (Z.shiftr x SH_RD).
  repeat (case_match; [cbn [option_map]; unfold ld_view; cbn [k_len k_shift k_fp k_vector k_insn]; by rewrite ?rd_low16|]).
  done.
Qed.

(** Checks over all values of the fields of a compressed instruction. *)
Definition all (k : nat) (P : Z -> bool) : bool := forallb P (map Z.of_nat (seq 0 (Nat.pow 2 k))).

Lemma all_spec k P x : all k P = true -> in_range (Z.of_nat k) x -> P x = true.
Proof.
  unfold all. rewrite forallb_forall. intros H [Hx Hlt]. apply H, in_map_iff. exists (Z.to_nat x). split; [lia|].
  apply in_seq. split; [lia|]. rewrite <- (Nat2Z.id (2 ^ k)), Nat2Z.inj_pow. cbn [Z.of_nat Pos.of_succ_nat] in *. lia.
Qed.

Definition load_check (l : load) : bool := bool_decide (option_map ld_view (ld_decode (load_encode l)) = Some (load_view l)).

Definition int_loads : list (width * bool) :=
  [(B1, false); (B2, false); (B4, false); (B8, false); (B1, true); (B2, true); (B4, true)].

Lemma load_check_all :
  forallb (fun wu => all 5 (fun rd => all 1 (fun b => load_check (Load wu.1 wu.2 rd b 0)))) int_loads = true /\
  forallb (fun w => all 5 (fun rd => all 1 (fun b => load_check (FLoad w rd b 0)))) [B4; B8] = true /\
  forallb (fun w => all 3 (fun rd => all 3 (fun rs => all 3 (fun hi => all 2 (fun lo => load_check (CLoad w rd rs hi lo))))))
    [B4; B8] = true /\
  forallb (fun w => all 5 (fun rd => (rd =? 0) || all 1 (fun hi => all 5 (fun lo => load_check (CLoadSp w rd hi lo))))) [B4; B8] = true /\
  all 3 (fun rd => all 3 (fun rs => all 3 (fun hi => all 2 (fun lo => load_check (CFLoad rd rs hi lo))))) = true /\
  all 5 (fun rd => all 1 (fun hi => all 5 (fun lo => load_check (CFLoadSp rd hi lo)))) = true /\
  forallb (fun u => all 3 (fun rd => all 3 (fun rs => all 1 (fun lo => load_check (CLoadHalf u rd rs lo))))) [true; false] = true.
Proof. vm_compute. repeat split. Qed.

Lemma load_check_true l : load_check l = true -> option_map ld_view (ld_decode (load_encode l)) = Some (load_view l).
Proof. unfold load_check. by rewrite bool_decide_eq_true. Qed.

(** Only the lowest bit of the source register is in the low half. *)
Lemma half_of_fields a rd f3 rs1 imm : 
  (a + 2 ^ 7 * (rd + 2 ^ 5 * (f3 + 2 ^ 3 * (rs1 + 2 ^ 5 * imm)))) `mod` 2 ^ 16 =
  (a + 2 ^ 7 * (rd + 2 ^ 5 * (f3 + 2 ^ 3 * (rs1 `mod` 2 + 2 ^ 5 * 0)))) `mod` 2 ^ 16.
Proof.
  pose proof (Z.div_mod rs1 2 ltac:(lia)) as E.
  replace (a + 2 ^ 7 * (rd + 2 ^ 5 * (f3 + 2 ^ 3 * (rs1 + 2 ^ 5 * imm))))
    with (a + 2 ^ 7 * (rd + 2 ^ 5 * (f3 + 2 ^ 3 * (rs1 `mod` 2 + 2 ^ 5 * 0))) + (rs1 / 2 + 2 ^ 4 * imm) * 2 ^ 16).
  - by rewrite Z.mod_add by lia.
  - rewrite E at 3. lia.
Qed.

Lemma ld_decode_half x y : x `mod` 2 ^ 16 = y `mod` 2 ^ 16 -> option_map ld_view (ld_decode x) = option_map ld_view (ld_decode y).
Proof. intros E. rewrite <- (ld_decode_low16 x), <- (ld_decode_low16 y). by rewrite E. Qed.

Lemma in_int_loads w u : ~ (w = B8 /\ u = true) -> In (w, u) int_loads.
Proof. intros H. destruct w, u; cbn; auto 10. Qed.

Lemma in_bools u : In u [true; false].
Proof. destruct u; cbn; auto. Qed.

Lemma in_words w : w = B4 \/ w = B8 -> In w [B4; B8].
Proof. intros [->| ->]; cbn; auto. Qed.

(** Every load is decoded as what it is. *)
Lemma ld_decode_load l : load_ok l -> option_map ld_view (ld_decode (load_encode l)) = Some (load_view l).
Proof.
  destruct load_check_all as (H1 & H2 & H3 & H4 & H5 & H6 & H7).
  assert (forall rs, in_range 1 (rs `mod` 2)) as Hmod by (intros; apply Z.mod_pos_bound; lia).
  destruct l as [w u rd rs imm|w rd rs imm|w rd rs hi lo|w rd hi lo|rd rs hi lo|rd hi lo|u rd rs lo]; cbn [load_ok].
  - intros (Hrd & _ & _ & Hw). etransitivity; [apply ld_decode_half, half_of_fields|].
    apply (load_check_true (Load w u rd (rs `mod` 2) 0)). rewrite forallb_forall in H1.
    specialize (H1 (w, u) (in_int_loads w u Hw)).
    exact (all_spec 1 _ _ (all_spec 5 _ rd H1 Hrd) (Hmod rs)).
  - intros (Hrd & _ & _ & Hw). etransitivity; [apply ld_decode_half, half_of_fields|].
    apply (load_check_true (FLoad w rd (rs `mod` 2) 0)). rewrite forallb_forall in H2.
    specialize (H2 w (in_words w Hw)). exact (all_spec 1 _ _ (all_spec 5 _ rd H2 Hrd) (Hmod rs)).
  - intros (Hrd & Hrs & Hhi & Hlo & Hw). apply load_check_true. rewrite forallb_forall in H3.
    specialize (H3 w (in_words w Hw)).
    exact (all_spec 2 _ _ (all_spec 3 _ _ (all_spec 3 _ _ (all_spec 3 _ _ H3 Hrd) Hrs) Hhi) Hlo).
  - intros (Hrd & Hnz & Hhi & Hlo & Hw). apply load_check_true. rewrite forallb_forall in H4.
    specialize (H4 w (in_words w Hw)). pose proof (all_spec 5 _ _ H4 Hrd) as H. cbv beta in H.
    apply Z.eqb_neq in Hnz. rewrite Hnz in H. exact (all_spec 5 _ _ (all_spec 1 _ _ H Hhi) Hlo).
  - intros (Hrd & Hrs & Hhi & Hlo). apply load_check_true.
    exact (all_spec 2 _ _ (all_spec 3 _ _ (all_spec 3 _ _ (all_spec 3 _ _ H5 Hrd) Hrs) Hhi) Hlo).
  - intros (Hrd & Hhi & Hlo). apply load_check_true. exact (all_spec 5 _ _ (all_spec 1 _ _ (all_spec 5 _ _ H6 Hrd) Hhi) Hlo).
  - intros (Hrd & Hrs & Hlo). apply load_check_true. rewrite forallb_forall in H7.
    specialize (H7 u (in_bools u)). exact (all_spec 1 _ _ (all_spec 3 _ _ (all_spec 3 _ _ H7 Hrd) Hrs) Hlo).
Qed.

(** ** Values *)

Lemma word_of_range bs : Forall (in_range 8) bs -> in_range (8 * Z.of_nat (length bs)) (word_of bs).
Proof.
  induction 1 as [|b bs Hb _ IH]; cbn [word_of length]; [done|]. unfold in_range in *.
  replace (8 * Z.of_nat (S (length bs))) with (8 + 8 * Z.of_nat (length bs)) by lia. rewrite Z.pow_add_r by lia. nia.
Qed.

Lemma sext_spec w v : 0 < w <= 64 -> in_range w v -> sext v (64 - w) = u64 (signed w v).
Proof.
  intros Hw Hv. unfold sext. f_equal. rewrite Z.shiftl_mul_pow2, Z.shiftr_div_pow2 by lia.
  pose proof (pow2_pos (64 - w) ltac:(lia)) as Hp. unfold in_range in Hv.
  assert (2 ^ 64 = 2 ^ w * 2 ^ (64 - w)) as E64 by (rewrite <- Z.pow_add_r by lia; f_equal; lia).
  assert (2 ^ (64 - 1) = 2 ^ (w - 1) * 2 ^ (64 - w)) as E63 by (rewrite <- Z.pow_add_r by lia; f_equal; lia).
  assert (signed 64 (v * 2 ^ (64 - w)) = signed w v * 2 ^ (64 - w)) as ->; [|by rewrite Z.div_mul by lia].
  unfold signed. rewrite !wrap_small by (unfold in_range; nia). rewrite E63.
  destruct (Z.ltb_spec v (2 ^ (w - 1))), (Z.ltb_spec (v * 2 ^ (64 - w)) (2 ^ (w - 1) * 2 ^ (64 - w))); nia.
Qed.

Lemma sext_zero v : in_range 64 v -> sext v 0 = v.
Proof.
  intros Hv. change 0 with (64 - 64). rewrite sext_spec by (done || lia). rewrite wrap_signed by lia. by apply wrap_small.
Qed.

Lemma load_value_spec l bs : length bs = bytes_of (load_width l) -> Forall (in_range 8) bs ->
  load_fp l = false -> sext (le_value bs) (load_view l).1.1.1.2 = load_value l bs.
Proof.
  intros Hl Hbs Hfp. pose proof (word_of_range bs Hbs) as Hr. rewrite Hl in Hr. unfold load_view, load_value, le_value. cbn.
  rewrite Hfp, orb_false_r. assert (1 <= Z.of_nat (bytes_of (load_width l)) <= 8) as Hn by (destruct (load_width l); cbn; lia).
  destruct (load_unsigned l).
  - apply sext_zero. eapply in_range_mono; [done|lia].
  - replace (8 * (8 - Z.of_nat (bytes_of (load_width l)))) with (64 - 8 * Z.of_nat (bytes_of (load_width l))) by lia.
    apply sext_spec; [lia|done].
Qed.

(** ** Fetching *)

Lemma load_low2 l : load_ok l -> exists k, load_encode l = (if load_len l =? 4 then 3 else load_encode l `mod` 4) + 4 * k /\
  (load_len l = 2 -> load_encode l `mod` 4 <> 3 /\ in_range 16 (load_encode l)) /\ (load_len l = 2 \/ load_len l = 4) /\ 0 <= k.
Proof.
  destruct l as [w u rd rs imm|w rd rs imm|w rd rs hi lo|w rd hi lo|rd rs hi lo|rd hi lo|u rd rs lo]; cbn [load_ok load_len];
    unfold in_range; intros H; cbn [Z.eqb Pos.eqb].
  - exists (2 ^ 5 * (rd + 2 ^ 5 * ((log_width w + 4 * Z.b2z u) + 2 ^ 3 * (rs + 2 ^ 5 * imm)))). cbn [load_encode].
    split_and!; [lia|done|by right|]. destruct w, u; cbn [log_width Z.b2z]; lia.
  - exists (1 + 2 ^ 5 * (rd + 2 ^ 5 * (log_width w + 2 ^ 3 * (rs + 2 ^ 5 * imm)))). cbn [load_encode].
    split_and!; [lia|done|by right|]. destruct w; cbn [log_width]; lia.
  - exists (load_encode (CLoad w rd rs hi lo) / 4). pose proof (Z.div_mod (load_encode (CLoad w rd rs hi lo)) 4 ltac:(lia)).
    destruct H as (? & ? & ? & ? & Hw). assert (2 <= log_width w <= 3) by (destruct Hw as [->| ->]; cbn; lia).
    assert (load_encode (CLoad w rd rs hi lo) `mod` 4 = 0) as Em by (cbn [load_encode]; rewrite Z.mul_comm; apply Z.mod_mul; lia).
    cbn [load_encode] in *. split_and!; [lia|lia|by left|apply Z.div_pos; lia].
  - exists (load_encode (CLoadSp w rd hi lo) / 4). pose proof (Z.div_mod (load_encode (CLoadSp w rd hi lo)) 4 ltac:(lia)).
    destruct H as (? & ? & ? & ? & Hw). assert (2 <= log_width w <= 3) by (destruct Hw as [->| ->]; cbn; lia).
    assert (load_encode (CLoadSp w rd hi lo) `mod` 4 = 2) as Em by (cbn [load_encode]; rewrite Z.mul_comm; apply Z.mod_add; lia).
    cbn [load_encode] in *. split_and!; [lia|lia|by left|apply Z.div_pos; lia].
  - exists (load_encode (CFLoad rd rs hi lo) / 4). pose proof (Z.div_mod (load_encode (CFLoad rd rs hi lo)) 4 ltac:(lia)).
    assert (load_encode (CFLoad rd rs hi lo) `mod` 4 = 0) as Em by (cbn [load_encode]; rewrite Z.mul_comm; apply Z.mod_mul; lia).
    cbn [load_encode] in *. split_and!; [lia|lia|by left|apply Z.div_pos; lia].
  - exists (load_encode (CFLoadSp rd hi lo) / 4). pose proof (Z.div_mod (load_encode (CFLoadSp rd hi lo)) 4 ltac:(lia)).
    assert (load_encode (CFLoadSp rd hi lo) `mod` 4 = 2) as Em by (cbn [load_encode]; rewrite Z.mul_comm; apply Z.mod_add; lia).
    cbn [load_encode] in *. split_and!; [lia|lia|by left|apply Z.div_pos; lia].
  - exists (load_encode (CLoadHalf u rd rs lo) / 4). pose proof (Z.div_mod (load_encode (CLoadHalf u rd rs lo)) 4 ltac:(lia)).
    assert (load_encode (CLoadHalf u rd rs lo) `mod` 4 = 0) as Em by (cbn [load_encode]; rewrite Z.mul_comm; apply Z.mod_mul; lia).
    cbn [load_encode] in *. destruct u; cbn [negb Z.b2z] in *; (split_and!; [lia|lia|by left|apply Z.div_pos; lia]).
Qed.

Lemma land3_mod x : Z.land x 3 = x `mod` 4.
Proof. exact (Z.land_ones x 2 ltac:(lia)). Qed.

Lemma mod4_minus2 e : e `mod` 4 = 3 -> (e - 2) `mod` 4 = 1.
Proof. intros E. rewrite Zminus_mod, E. done. Qed.

(** The two lowest bits decide the tests on them. *)
Lemma land_low2 x c : 0 <= c < 4 -> Z.land x c = Z.land (x `mod` 4) c.
Proof.
  intros Hc. rewrite <- land3_mod, <- Z.land_assoc. f_equal. rewrite Z.land_comm, land3_mod. symmetry. by apply Z.mod_small.
Qed.

Lemma lor3 r k : 0 <= r <= 3 -> Z.lor (r + 4 * k) 3 = 3 + 4 * k.
Proof.
  intros Hr. pose proof (Z.add_lor_land (r + 4 * k) 3) as E. rewrite land3_mod in E.
  assert ((r + 4 * k) `mod` 4 = r) as Em by (rewrite (Z.mul_comm 4 k), Z.mod_add by lia; apply Z.mod_small; lia).
  rewrite Em in E. lia.
Qed.

Lemma INSN_LEN_mod x : INSN_LEN x = if x `mod` 4 =? 3 then 4 else 2.
Proof. unfold INSN_LEN, INSN_16BIT_MASK. rewrite land3_mod. by destruct (x `mod` 4 =? 3). Qed.

(** ** Emulation is right *)

Section LoadCorrect.
Context {hw : Hw} (platform : Z -> bool) (f : sbi_hart_features).
Context {mem : Type} (lbu lhu : mem -> Z -> Z + sbi_trap_info).
Context (v_ld : context -> sbi_trap_info -> csrM (Z * context)).

Local Set Default Proof Using "Type".

(** How the handler learns which instruction trapped: it is in memory at the
    program counter, or [mtinst] holds it in its transformed form, which is the
    32-bit form of the instruction with bit 1 cleared when a compressed
    instruction trapped. *)
Inductive insn_at (m : mem) (mepc : Z) (tinst : Z) (e len : Z) : Z -> Prop :=
| at_memory : Z.land tinst 1 = 0 -> lhu m mepc = inl (e `mod` 2 ^ 16) ->
    (len = 4 -> lhu m (u64 (mepc + 2)) = inl (e / 2 ^ 16)) -> insn_at m mepc tinst e len len
| at_tinst : len = 4 -> tinst = e -> insn_at m mepc tinst e len 4
| at_tinst_compressed : len = 4 -> tinst = e - 2 -> insn_at m mepc tinst e len 2.

Definition low2 (e len : Z) : Prop :=
  (len = 4 /\ e `mod` 4 = 3 /\ 0 <= e) \/ (len = 2 /\ e `mod` 4 <> 3 /\ in_range 16 e).

Lemma load_encode_low2 l : load_ok l -> low2 (load_encode l) (load_len l).
Proof.
  intros Hl. destruct (load_low2 l Hl) as (k & E & H2 & [El|El] & Hk).
  - right. by destruct (H2 El).
  - left. rewrite El in E. cbn in E. rewrite E, (Z.mul_comm 4 k), Z.mod_add by lia. split; [done|]. split; [done|]. lia.
Qed.

Lemma trapped_insn_at m regs trap e len len' : low2 e len ->
  insn_at m regs.(mepc) trap.(tinst) e len len' -> trapped_insn lhu m regs trap = inl (e, len').
Proof.
  intros Hlow Hat. unfold trapped_insn. destruct Hat as [Hb Hlo Hhi|Hl E|Hl E].
  - rewrite Hb. cbn [Z.eqb negb]. unfold sbi_get_insn. rewrite Hlo, land3_mod.
    assert ((e `mod` 2 ^ 16) `mod` 4 = e `mod` 4) as -> by (apply Z.mod_mod_divide; by exists (2 ^ 14)).
    destruct Hlow as [(-> & E3 & Hpos)|(-> & E3 & Hr)].
    + rewrite E3. cbn [Z.eqb Pos.eqb]. rewrite (Hhi eq_refl), Z.shiftl_mul_pow2 by lia.
      replace (e `mod` 2 ^ 16 + e / 2 ^ 16 * 2 ^ 16) with e by (pose proof (Z.div_mod e (2 ^ 16)); lia).
      by rewrite INSN_LEN_mod, E3.
    + rewrite (Z.mod_small e (2 ^ 16)) by exact Hr.
      assert ((e `mod` 4 =? 3) = false) as En by (by apply Z.eqb_neq). by rewrite En, INSN_LEN_mod, En.
  - destruct Hlow as [(_ & E3 & _)|(-> & _)]; [|done]. pose proof (Z.div_mod e 4 ltac:(lia)) as Ed. rewrite E3 in Ed.
    rewrite E, (land_low2 e 1), (land_low2 e 2), E3 by lia. cbn [Z.land Pos.land Z.of_N Pos.Ndouble N.double Z.eqb negb].
    assert (Z.lor e INSN_16BIT_MASK = e) as -> by (rewrite Ed, (Z.add_comm _ 3); apply lor3; lia). by rewrite INSN_LEN_mod, E3.
  - destruct Hlow as [(_ & E3 & _)|(-> & _)]; [|done]. pose proof (Z.div_mod e 4 ltac:(lia)) as Ed. rewrite E3 in Ed.
    pose proof (mod4_minus2 e E3) as E1.
    rewrite E, (land_low2 (e - 2) 1), (land_low2 (e - 2) 2), E1 by lia. cbn [Z.land Pos.land Z.of_N Pos.Ndouble N.double Z.eqb negb].
    replace (Z.lor (e - 2) INSN_16BIT_MASK) with e; [done|].
    replace (e - 2) with (1 + 4 * (e / 4)) by lia. unfold INSN_16BIT_MASK. rewrite lor3 by lia. lia.
Qed.

(** The bytes of the access, as the hardware gives them one at a time. *)
Definition reads (m : mem) (addr i : Z) (bs : list Z) : Prop :=
  forall j b, bs !! j = Some b -> lbu m (u64 (addr + (i + Z.of_nat j))) = inl b.

Lemma reads_cons m addr i b bs : reads m addr i (b :: bs) -> lbu m (u64 (addr + i)) = inl b /\ reads m addr (i + 1) bs.
Proof.
  intros H. split; [specialize (H 0%nat b eq_refl); by rewrite Z.add_0_r in H|].
  intros j b' Hj. specialize (H (S j) b' Hj). rewrite <- H. do 2 f_equal. lia.
Qed.

Lemma ld_bytes_reads bs m addr i : reads m addr i bs -> ld_bytes lbu (length bs) i m addr = inl bs.
Proof.
  revert i. induction bs as [|b bs IH]; intros i H; [done|]. apply reads_cons in H as [Hb H].
  cbn [length ld_bytes]. by rewrite Hb, (IH _ H).
Qed.

Lemma ld_bytes_fault bs n m addr i t : reads m addr i bs -> (length bs < n)%nat ->
  lbu m (u64 (addr + (i + Z.of_nat (length bs)))) = inr t ->
  ld_bytes lbu n i m addr = inr (i + Z.of_nat (length bs), t).
Proof.
  revert n i. induction bs as [|b bs IH]; intros [|n] i H Hn Ht; cbn [length] in *; try lia; cbn [ld_bytes].
  - rewrite Z.add_0_r in Ht |- *. by rewrite Ht.
  - apply reads_cons in H as [Hb H]. rewrite Hb, (IH n _ H); [do 2 f_equal; lia|lia|].
    rewrite <- Ht. do 2 f_equal. lia.
Qed.

(** The handler once the instruction is known to be [l]. *)
Lemma emulate_load_decoded emu m c trap l len : load_ok l ->
  insn_at m c.(cregs).(mepc) trap.(tinst) (load_encode l) (load_len l) len ->
  exists k, ld_view k = load_view l /\
    sbi_trap_emulate_load platform f lhu v_ld emu m c trap =
    ('(rc, val, c) ← emu k.(k_len) c trap;
     if rc <=? 0 then mret (rc, c)
     else
       let c := if negb k.(k_fp) then Ctx (SET_RD k.(k_insn) c.(cregs) (sext val k.(k_shift))) c.(fregs)
                else if k.(k_len) =? 8 then SET_F64_RD k.(k_insn) c val else SET_F32_RD k.(k_insn) c val in
       mret (0, advance c len)).
Proof.
  intros Hl Hat. pose proof (ld_decode_load l Hl) as Hd. destruct (ld_decode (load_encode l)) as [k|] eqn:Ek; [|done].
  cbn [option_map] in Hd. apply (inj Some) in Hd as Hv. exists k. split; [exact Hv|]. unfold sbi_trap_emulate_load.
  rewrite (trapped_insn_at _ _ _ _ _ _ (load_encode_low2 l Hl) Hat), Ek.
  unfold ld_view, load_view in Hv. injection Hv as _ _ _ Evec _. by rewrite Evec.
Qed.

Lemma load_effect_view l bs c k len : length bs = bytes_of (load_width l) -> Forall (in_range 8) bs -> load_ok l ->
  ld_view k = load_view l ->
  advance (if negb k.(k_fp) then Ctx (SET_RD k.(k_insn) c.(cregs) (sext (le_value bs) k.(k_shift))) c.(fregs)
           else if k.(k_len) =? 8 then SET_F64_RD k.(k_insn) c (le_value bs) else SET_F32_RD k.(k_insn) c (le_value bs)) len
  = load_effect l len bs c.
Proof.
  intros Hlen Hbs Hl Hv. pose proof (load_value_spec l bs Hlen Hbs) as Hval. unfold ld_view in Hv.
  rewrite <- Hv in Hval. cbn [fst snd] in Hval. unfold load_view in Hv. unfold load_effect, SET_RD, SET_F64_RD, SET_F32_RD.
  injection Hv as Ek Es Ef _ Er. rewrite Er, Ef, Ek. destruct (load_fp l); cbn [negb].
  - f_equal. destruct (load_width l); done.
  - by rewrite (Hval eq_refl).
Qed.

(** C10: the handler of misaligned loads does what the instruction says.  For
    every load of the instruction set with a 32-bit or compressed encoding,
    whether it is in memory at the program counter or given by [mtinst], when
    every byte at the faulting address can be read the handler returns 0, the
    destination register has the value of those bytes extended as the instruction
    says (boxed when it is a single-precision load), the program counter is past
    the instruction, and nothing else of the context or of the registers of the
    hart has changed.  (Entry 0 of the saved registers is never restored, so a
    load into [x0] has no effect.)  When byte [length bs] is the first that
    traps, that trap is redirected with the offset of the byte in its [tinst],
    and the destination is not written. *)
Theorem misaligned_load_correct l len bs m c trap h : load_ok l ->
  insn_at m c.(cregs).(mepc) trap.(tinst) (load_encode l) (load_len l) len ->
  Forall (in_range 8) bs -> reads m trap.(tval) 0 bs -> (length bs <= bytes_of (load_width l))%nat ->
  (length bs = bytes_of (load_width l) ->
     sbi_misaligned_load_handler platform f lbu lhu v_ld m c trap h = Some ((0, load_effect l len bs c), h)) /\
  (forall t c' h', lbu m (u64 (trap.(tval) + Z.of_nat (length bs))) = inr t ->
     (length bs < bytes_of (load_width l))%nat ->
     redirect platform f c (with_tinst t (sbi_misaligned_tinst_fixup trap.(tinst) t.(tinst) (Z.of_nat (length bs)))) h
       = Some ((0, c'), h') ->
     sbi_misaligned_load_handler platform f lbu lhu v_ld m c trap h = Some ((0, c'), h')).
Proof.
  intros Hl Hat Hbs Hr Hle. destruct (emulate_load_decoded (sbi_misaligned_ld_emulator platform f lbu m) m c trap l len Hl Hat)
    as (k & Hv & E). unfold sbi_misaligned_load_handler. rewrite E.
  assert (k.(k_len) = Z.of_nat (bytes_of (load_width l))) as Ek by (unfold ld_view, load_view in Hv; by injection Hv).
  split.
  - intros Hlen. assert (sbi_misaligned_ld_emulator platform f lbu m (k_len k) c trap h = Some ((k_len k, le_value bs, c), h)) as Eemu.
    { unfold sbi_misaligned_ld_emulator. by rewrite Ek, <- Hlen, Nat2Z.id, (ld_bytes_reads bs m _ 0 Hr). }
    rewrite (csr_bind _ _ _ _ _ Eemu).
    assert ((k_len k <=? 0) = false) as -> by (apply Z.leb_gt; rewrite Ek; destruct (load_width l); cbn; lia).
    by rewrite <- (load_effect_view l bs c k len Hlen Hbs Hl Hv).
  - intros t c' h' Ht Hlt Hred.
    assert (sbi_misaligned_ld_emulator platform f lbu m (k_len k) c trap h = Some ((0, 0, c'), h')) as Eemu.
    { unfold sbi_misaligned_ld_emulator. rewrite Ek, Nat2Z.id, (ld_bytes_fault bs _ m _ 0 t Hr Hlt Ht).
      by rewrite (csr_bind _ _ _ _ _ Hred). }
    by rewrite (csr_bind _ _ _ _ _ Eemu).
Qed.
End LoadCorrect.
