(* ===== verification/TrapStore.v ===== *)
(** * Emulation of misaligned stores is right (lib/sbi/sbi_trap_ldst.c)

    The stores of the instruction set with their encodings, and the theorem that
    the handler of misaligned stores does what they say; also the witnesses of the
    two emulation theorems, on a memory of bytes. *)

From S2P Require Import Prelude SbiTypes Bitops Domain Csr Pmp PmpProps HartFeat Trap TrapLdst.

Local Open Scope Z_scope.

(** ** The instructions *)

Inductive store :=
| Store (w : width) (rs2 rs1 lo hi : Z)
| FStore (w : width) (rs2 rs1 lo hi : Z)
| CStore (w : width) (rs2' rs1' hi lo : Z)
| CStoreSp (w : width) (rs2 imm : Z)
| CFStore (rs2' rs1' hi lo : Z)
| CFStoreSp (rs2 imm : Z)
| CStoreHalf (rs2' rs1' lo : Z).

Definition store_ok (s : store) : Prop :=
  match s with
  | Store w rs2 rs1 lo hi => in_range 5 rs2 /\ in_range 5 rs1 /\ in_range 5 lo /\ in_range 7 hi
  | FStore w rs2 rs1 lo hi => in_range 5 rs2 /\ in_range 5 rs1 /\ in_range 5 lo /\ in_range 7 hi /\ (w = B4 \/ w = B8)
  | CStore w rs2 rs1 hi lo => in_range 3 rs2 /\ in_range 3 rs1 /\ in_range 3 hi /\ in_range 2 lo /\ (w = B4 \/ w = B8)
  | CStoreSp w rs2 imm => in_range 5 rs2 /\ in_range 6 imm /\ (w = B4 \/ w = B8)
  | CFStore rs2 rs1 hi lo => in_range 3 rs2 /\ in_range 3 rs1 /\ in_range 3 hi /\ in_range 2 lo
  | CFStoreSp rs2 imm => in_range 5 rs2 /\ in_range 6 imm
  | CStoreHalf rs2 rs1 lo => in_range 3 rs2 /\ in_range 3 rs1 /\ in_range 1 lo
  end.

(** The encodings of the instruction set manual. *)
Definition store_encode (s : store) : Z :=
  match s with
  | Store w rs2 rs1 lo hi => 0x23 + 2 ^ 7 * (lo + 2 ^ 5 * (log_width w + 2 ^ 3 * (rs1 + 2 ^ 5 * (rs2 + 2 ^ 5 * hi))))
  | FStore w rs2 rs1 lo hi => 0x27 + 2 ^ 7 * (lo + 2 ^ 5 * (log_width w + 2 ^ 3 * (rs1 + 2 ^ 5 * (rs2 + 2 ^ 5 * hi))))
  | CStore w rs2 rs1 hi lo => 4 * (rs2 + 2 ^ 3 * (lo + 4 * (rs1 + 2 ^ 3 * (hi + 2 ^ 3 * (4 + log_width w)))))
  | CStoreSp w rs2 imm => 2 + 4 * (rs2 + 2 ^ 5 * (imm + 2 ^ 6 * (4 + log_width w)))
  | CFStore rs2 rs1 hi lo => 4 * (rs2 + 2 ^ 3 * (lo + 4 * (rs1 + 2 ^ 3 * (hi + 2 ^ 3 * 5))))
  | CFStoreSp rs2 imm => 2 + 4 * (rs2 + 2 ^ 5 * (imm + 2 ^ 6 * 5))
  | CStoreHalf rs2 rs1 lo => 4 * (rs2 + 2 ^ 3 * (lo + 2 * (2 * (rs1 + 2 ^ 3 * 0x23))))
  end.

Definition store_width (s : store) : width :=
  match s with
  | Store w _ _ _ _ | FStore w _ _ _ _ | CStore w _ _ _ _ | CStoreSp w _ _ => w
  | CFStore _ _ _ _ | CFStoreSp _ _ => B8
  | CStoreHalf _ _ _ => B2
  end.

Definition store_fp (s : store) : bool :=
  match s with FStore _ _ _ _ _ | CFStore _ _ _ _ | CFStoreSp _ _ => true | _ => false end.

Definition store_rs2 (s : store) : nat :=
  Z.to_nat (match s with
  | Store _ rs2 _ _ _ | FStore _ rs2 _ _ _ | CStoreSp _ rs2 _ | CFStoreSp rs2 _ => rs2
  | CStore _ rs2 _ _ _ | CFStore rs2 _ _ _ | CStoreHalf rs2 _ _ => 8 + rs2
  end).

Definition store_len (s : store) : Z := match s with Store _ _ _ _ _ | FStore _ _ _ _ _ => 4 | _ => 2 end.

(** The register a store writes to memory. *)
Definition store_value (s : store) (c : context) : Z :=
  default 0 ((if store_fp s then c.(fregs) else c.(cregs).(gprs)) !! store_rs2 s).

(** The bytes it writes: the low bytes of the register, the lowest first. *)
Definition store_bytes (s : store) (c : context) (bs : list Z) : Prop :=
  length bs = bytes_of (store_width s) /\ Forall (in_range 8) bs /\
  word_of bs = store_value s c `mod` 2 ^ (8 * Z.of_nat (bytes_of (store_width s))).

(** ** Decoding is right *)

Lemma matches_half x y mask v : 0 <= mask < 2 ^ 16 -> x `mod` 2 ^ 16 = y `mod` 2 ^ 16 -> matches x mask v = matches y mask v.
Proof. intros Hm E. by rewrite <- (matches_low16 x), <- (matches_low16 y), E. Qed.

Lemma st_select_half x y : x `mod` 2 ^ 16 = y `mod` 2 ^ 16 -> st_select x = st_select y.
Proof.
  intros E. unfold st_select, IS_VECTOR_LOAD_STORE. by rewrite !(fun mask v H => matches_half x y mask v H E) by lia.
Qed.

(** Where [REG_PTR] points. *)
Lemma REG_PTR_field x pos : 3 <= pos -> REG_PTR x pos = Z.to_nat ((x / 2 ^ pos) `mod` 2 ^ 5).
Proof.
  intros Hp. unfold REG_PTR, REG_OFFSET, SHIFT_RIGHT, LOG_REGBYTES. f_equal.
  destruct (Z.ltb_spec (pos - 3) 0); [lia|]. change REG_MASK with (Z.shiftl (Z.ones 5) 3).
  change 8 with (2 ^ 3). rewrite <- Z.shiftr_div_pow2, <- Z.shiftr_div_pow2, <- Z.land_ones by lia.
  rewrite Z.shiftr_land, Z.shiftr_shiftl_l, Z.sub_diag, Z.shiftl_0_r, Z.shiftr_shiftr by lia. do 2 f_equal. lia.
Qed.

Definition src_reg (insn : Z) (s : st_src) : nat :=
  match s with
  | SrcRS2 | SrcF64 | SrcF32 => REG_PTR insn SH_RS2
  | SrcRS2S | SrcF64S => REG_PTR (RVC_RS2S insn) 0
  | SrcRS2C | SrcF64C => REG_PTR insn SH_RS2C
  | SrcVector => 0%nat
  end.

(** Integer, double, single. *)
Definition src_class (s : st_src) : option (bool * bool) :=
  match s with
  | SrcRS2 | SrcRS2S | SrcRS2C => Some (false, false)
  | SrcF64 | SrcF64S | SrcF64C => Some (true, false)
  | SrcF32 => Some (true, true)
  | SrcVector => None
  end.

Definition st_view (insn : Z) : option (Z * option (bool * bool) * nat) :=
  option_map (fun '(len, s) => (len, src_class s, src_reg insn s)) (st_select insn).

Definition store_view (s : store) : Z * option (bool * bool) * nat :=
  (Z.of_nat (bytes_of (store_width s)), Some (store_fp s, store_fp s && bool_decide (store_width s = B4)), store_rs2 s).

Definition st_check (s : store) : bool := bool_decide (st_view (store_encode s) = Some (store_view s)).

(** What the opcode of a 32-bit store selects. *)
Definition wide_src (w : width) (fp : bool) : st_src :=
  if fp then (if bool_decide (w = B4) then SrcF32 else SrcF64) else SrcRS2.

Definition st_wide_check (s : store) : bool :=
  bool_decide (st_select (store_encode s) = Some (Z.of_nat (bytes_of (store_width s)), wide_src (store_width s) (store_fp s))).

(** The 32-bit forms for every value of what is in the low half of the
    instruction, the compressed ones for every value of their fields. *)
Lemma st_check_all :
  forallb (fun w => all 5 (fun lo => all 1 (fun b => st_wide_check (Store w 0 b lo 0)))) [B1; B2; B4; B8] = true /\
  forallb (fun w => all 5 (fun lo => all 1 (fun b => st_wide_check (FStore w 0 b lo 0)))) [B4; B8] = true /\
  forallb (fun w => all 3 (fun rs2 => all 3 (fun rs1 => all 3 (fun hi => all 2 (fun lo => st_check (CStore w rs2 rs1 hi lo))))))
    [B4; B8] = true /\
  forallb (fun w => all 5 (fun rs2 => all 6 (fun imm => st_check (CStoreSp w rs2 imm)))) [B4; B8] = true /\
  all 3 (fun rs2 => all 3 (fun rs1 => all 3 (fun hi => all 2 (fun lo => st_check (CFStore rs2 rs1 hi lo))))) = true /\
  all 5 (fun rs2 => all 6 (fun imm => st_check (CFStoreSp rs2 imm))) = true /\
  all 3 (fun rs2 => all 3 (fun rs1 => all 1 (fun lo => st_check (CStoreHalf rs2 rs1 lo)))) = true.
Proof. vm_compute. repeat split. Qed.

Lemma st_check_true s : st_check s = true -> st_view (store_encode s) = Some (store_view s).
Proof. unfold st_check. by rewrite bool_decide_eq_true. Qed.

Lemma in_widths w : In w [B1; B2; B4; B8].
Proof. destruct w; cbn; auto 10. Qed.

(** The register of a 32-bit store. *)
Lemma wide_rs2 a lo f3 rs1 rs2 hi : in_range 7 a -> in_range 5 lo -> in_range 3 f3 -> in_range 5 rs1 -> in_range 5 rs2 ->
  REG_PTR (a + 2 ^ 7 * (lo + 2 ^ 5 * (f3 + 2 ^ 3 * (rs1 + 2 ^ 5 * (rs2 + 2 ^ 5 * hi))))) SH_RS2 = Z.to_nat rs2.
Proof.
  unfold in_range. intros Ha Hlo Hf Hrs1 Hrs2. unfold SH_RS2. rewrite REG_PTR_field by lia. f_equal.
  replace (a + 2 ^ 7 * (lo + 2 ^ 5 * (f3 + 2 ^ 3 * (rs1 + 2 ^ 5 * (rs2 + 2 ^ 5 * hi)))))
    with ((a + 2 ^ 7 * (lo + 2 ^ 5 * (f3 + 2 ^ 3 * rs1))) + (rs2 + hi * 2 ^ 5) * 2 ^ 20) by lia.
  rewrite Z.div_add, Z.div_small by lia. rewrite Z.add_0_l, Z.mod_add by lia. apply Z.mod_small. lia.
Qed.

Lemma log_width_range w : in_range 3 (log_width w).
Proof. destruct w; split; cbn; lia. Qed.

Lemma wide_src_spec w fp insn : fp = false \/ w = B4 \/ w = B8 ->
  src_class (wide_src w fp) = Some (fp, fp && bool_decide (w = B4)) /\ src_reg insn (wide_src w fp) = REG_PTR insn SH_RS2.
Proof. destruct fp, w; done. Qed.

Lemma st_view_wide s x : st_wide_check s = true -> x `mod` 2 ^ 16 = store_encode s `mod` 2 ^ 16 ->
  store_fp s = false \/ store_width s = B4 \/ store_width s = B8 ->
  st_view x = Some (Z.of_nat (bytes_of (store_width s)), Some (store_fp s, store_fp s && bool_decide (store_width s = B4)), REG_PTR x SH_RS2).
Proof.
  intros Hc E Hw. unfold st_view. rewrite (st_select_half _ _ E). unfold st_wide_check in Hc. rewrite bool_decide_eq_true in Hc.
  rewrite Hc. cbn [option_map]. destruct (wide_src_spec (store_width s) (store_fp s) x Hw) as [-> ->]. done.
Qed.

Lemma st_view_store s : store_ok s -> st_view (store_encode s) = Some (store_view s).
Proof.
  destruct st_check_all as (H1 & H2 & H3 & H4 & H5 & H6 & H7).
  assert (forall rs, in_range 1 (rs `mod` 2)) as Hmod by (intros; apply Z.mod_pos_bound; lia).
  destruct s as [w rs2 rs1 lo hi|w rs2 rs1 lo hi|w rs2 rs1 hi lo|w rs2 imm|rs2 rs1 hi lo|rs2 imm|rs2 rs1 lo]; cbn [store_ok].
  - intros (Hrs2 & Hrs1 & Hlo & Hhi). rewrite forallb_forall in H1.
    rewrite (st_view_wide (Store w 0 (rs1 `mod` 2) lo 0)); [|exact (all_spec 1 _ _ (all_spec 5 _ _ (H1 w (in_widths w)) Hlo) (Hmod rs1))|
      apply half_of_fields|left; reflexivity].
    clear H1 H2 H3 H4 H5 H6 H7. cbn [store_encode]. by rewrite wide_rs2 by (done || apply log_width_range).
  - intros (Hrs2 & Hrs1 & Hlo & Hhi & Hw). rewrite forallb_forall in H2.
    rewrite (st_view_wide (FStore w 0 (rs1 `mod` 2) lo 0)); [|exact (all_spec 1 _ _ (all_spec 5 _ _ (H2 w (in_words w Hw)) Hlo) (Hmod rs1))|
      apply half_of_fields|right; exact Hw].
    clear H1 H2 H3 H4 H5 H6 H7. cbn [store_encode]. by rewrite wide_rs2 by (done || apply log_width_range).
  - intros (Hrs2 & Hrs1 & Hhi & Hlo & Hw). apply st_check_true. rewrite forallb_forall in H3.
    exact (all_spec 2 _ _ (all_spec 3 _ _ (all_spec 3 _ _ (all_spec 3 _ _ (H3 w (in_words w Hw)) Hrs2) Hrs1) Hhi) Hlo).
  - intros (Hrs2 & Himm & Hw). apply st_check_true. rewrite forallb_forall in H4.
    exact (all_spec 6 _ _ (all_spec 5 _ _ (H4 w (in_words w Hw)) Hrs2) Himm).
  - intros (Hrs2 & Hrs1 & Hhi & Hlo). apply st_check_true.
    exact (all_spec 2 _ _ (all_spec 3 _ _ (all_spec 3 _ _ (all_spec 3 _ _ H5 Hrs2) Hrs1) Hhi) Hlo).
  - intros (Hrs2 & Himm). apply st_check_true. exact (all_spec 6 _ _ (all_spec 5 _ _ H6 Hrs2) Himm).
  - intros (Hrs2 & Hrs1 & Hlo). apply st_check_true. exact (all_spec 1 _ _ (all_spec 3 _ _ (all_spec 3 _ _ H7 Hrs2) Hrs1) Hlo).
Qed.

(** ** Bytes *)

Lemma le_bytes_unique bs v : Forall (in_range 8) bs -> word_of bs = v `mod` 2 ^ (8 * Z.of_nat (length bs)) ->
  le_bytes (length bs) v = bs.
Proof.
  intros Hbs. revert v. induction Hbs as [|b bs Hb Hbs IH]; intros v E; [done|]. cbn [length le_bytes word_of] in *.
  replace (8 * Z.of_nat (S (length bs))) with (8 + 8 * Z.of_nat (length bs)) in E by lia.
  rewrite Z.pow_add_r, Z.rem_mul_r in E by lia. unfold in_range in Hb.
  pose proof (Z.mod_pos_bound v (2 ^ 8) ltac:(lia)). change (2 ^ 8) with 256 in *.
  assert (b = v `mod` 256 /\ word_of bs = (v / 256) `mod` 2 ^ (8 * Z.of_nat (length bs))) as [Eb Ew] by lia.
  rewrite Eb. unfold u8, wrap. change (2 ^ 8) with 256. f_equal.
  apply IH. rewrite Z.shiftr_div_pow2 by lia. exact Ew.
Qed.

Lemma mod_pow2_mod v a b : 0 <= a <= b -> (v `mod` 2 ^ b) `mod` 2 ^ a = v `mod` 2 ^ a.
Proof.
  intros H. apply Z.mod_mod_divide. exists (2 ^ (b - a)). rewrite <- Z.pow_add_r by lia. f_equal. lia.
Qed.

Lemma f32_low v : u64 (s32 v) `mod` 2 ^ 32 = v `mod` 2 ^ 32.
Proof. unfold u64, wrap. rewrite mod_pow2_mod by lia. exact (wrap_signed 32 v ltac:(lia)). Qed.

(** What is handed to the emulator has the bytes of the store. *)
Lemma st_decode_store s c : store_ok s -> exists v, st_decode (store_encode s) c = Some (Z.of_nat (bytes_of (store_width s)), Some v) /\
  forall bs, store_bytes s c bs -> le_bytes (bytes_of (store_width s)) v = bs.
Proof.
  intros Hs. pose proof (st_view_store s Hs) as Hv. unfold st_view, store_view in Hv. unfold st_decode.
  destruct (st_select (store_encode s)) as [[len src]|]; [|done]. cbn [option_map] in *. apply (inj Some) in Hv.
  apply pair_equal_spec in Hv as [Hv Hr]. apply pair_equal_spec in Hv as [-> Hc].
  assert (exists v, st_value (store_encode s) c src = Some v /\
    v `mod` 2 ^ (8 * Z.of_nat (bytes_of (store_width s))) = store_value s c `mod` 2 ^ (8 * Z.of_nat (bytes_of (store_width s))))
    as (v & -> & Emod).
  { unfold store_value. rewrite <- Hr. destruct src; cbn [src_class] in Hc; simplify_eq; try (eexists; split; [reflexivity|]; 
      match goal with H : _ = store_fp s |- _ => rewrite <- H end; reflexivity).
    match goal with H : true = store_fp s |- _ => rewrite <- H in * end.
    eexists; split; [reflexivity|]. destruct (store_width s); try done. exact (f32_low _). }
  exists v. split; [done|]. intros bs (Hlen & Hbs & Ew). rewrite <- Hlen. apply le_bytes_unique; [done|].
  by rewrite Ew, <- Emod, Hlen.
Qed.

(** ** Emulation is right *)

Lemma low2_wide a x : a `mod` 4 = 3 -> 0 <= a -> 0 <= x -> low2 (a + 2 ^ 7 * x) 4.
Proof.
  intros Ha Hp Hx. left. split; [done|]. split; [|lia]. replace (a + 2 ^ 7 * x) with (a + (2 ^ 5 * x) * 4) by lia.
  by rewrite Z.mod_add by lia.
Qed.

Lemma low2_compressed r x : r = 0 \/ r = 2 -> in_range 14 x -> low2 (r + 4 * x) 2.
Proof.
  unfold in_range. intros Hr Hx. right. split; [done|]. rewrite (Z.mul_comm 4 x), Z.mod_add, Z.mod_small by lia. unfold in_range. lia.
Qed.

Lemma store_encode_low2 s : store_ok s -> low2 (store_encode s) (store_len s).
Proof.
  assert (forall x, 4 * x = 0 + 4 * x) as E0 by lia.
  destruct s as [w rs2 rs1 lo hi|w rs2 rs1 lo hi|w rs2 rs1 hi lo|w rs2 imm|rs2 rs1 hi lo|rs2 imm|rs2 rs1 lo];
    cbn [store_ok store_encode store_len]; unfold in_range; intros H; pose proof (log_width_range) as Hw;
    try specialize (Hw w); unfold in_range in Hw;
    first [apply low2_wide; [done|lia|lia]|rewrite E0; apply low2_compressed; [auto|]|apply low2_compressed; [auto|]];
    unfold in_range;
    try (assert (log_width w <= 3) by (destruct w; cbn; lia)); lia.
Qed.

Section StoreCorrect.
Context {hw : Hw} (platform : Z -> bool) (f : sbi_hart_features).
Context {mem : Type} (lhu : mem -> Z -> Z + sbi_trap_info) (sb : mem -> Z -> Z -> mem + sbi_trap_info).
Context (v_st : mem -> context -> sbi_trap_info -> csrM (Z * context * mem)).

Local Set Default Proof Using "Type".

(** The bytes are written one after the other from the address up. *)
Fixpoint writes (m : mem) (addr i : Z) (bs : list Z) (m' : mem) : Prop :=
  match bs with
  | [] => m' = m
  | b :: bs => exists m1, sb m (u64 (addr + i)) b = inl m1 /\ writes m1 addr (i + 1) bs m'
  end.

Lemma st_bytes_writes bs m addr i m' : writes m addr i bs m' -> st_bytes sb bs i m addr = (m', None).
Proof.
  revert m i. induction bs as [|b bs IH]; intros m i H; cbn [writes st_bytes] in *; [by subst|].
  destruct H as (m1 & -> & H). by apply IH.
Qed.

Lemma st_bytes_fault bs b bs' m addr i m' t : writes m addr i bs m' ->
  sb m' (u64 (addr + (i + Z.of_nat (length bs)))) b = inr t ->
  st_bytes sb (bs ++ b :: bs') i m addr = (m', Some (i + Z.of_nat (length bs), t)).
Proof.
  revert m i. induction bs as [|b0 bs IH]; intros m i H Ht; cbn [writes st_bytes app length] in *.
  - subst. rewrite Z.add_0_r in Ht |- *. by rewrite Ht.
  - destruct H as (m1 & -> & H). rewrite (IH m1 (i + 1) H); [do 3 f_equal; lia|].
    rewrite <- Ht. do 2 f_equal. lia.
Qed.

Lemma emulate_store_decoded emu m c trap s len : store_ok s ->
  insn_at lhu m c.(cregs).(mepc) trap.(tinst) (store_encode s) (store_len s) len ->
  exists v, (forall bs, store_bytes s c bs -> le_bytes (bytes_of (store_width s)) v = bs) /\
    sbi_trap_emulate_store platform f lhu v_st emu m c trap =
    ('(rc, c, m) ← emu m (Z.of_nat (bytes_of (store_width s))) v c trap;
     if rc <=? 0 then mret (rc, c, m) else mret (0, advance c len, m)).
Proof.
  intros Hs Hat. destruct (st_decode_store s c Hs) as (v & Ed & Hv). exists v. split; [done|].
  unfold sbi_trap_emulate_store. by rewrite (trapped_insn_at lhu _ _ _ _ _ _ (store_encode_low2 s Hs) Hat), Ed.
Qed.

(** C17: the handler of misaligned stores does what the instruction says.  For
    every store of the instruction set with a 32-bit or compressed encoding, in
    memory or given by [mtinst], the low bytes of the source register are written
    from the faulting address up, the lowest first; when all can be written the
    handler returns 0 with the program counter past the instruction and nothing
    else changed, and when one traps that trap is redirected with the offset of
    the byte, the bytes before it written and the ones after it not. *)
Theorem misaligned_store_correct s len bs m c trap h : store_ok s ->
  insn_at lhu m c.(cregs).(mepc) trap.(tinst) (store_encode s) (store_len s) len ->
  store_bytes s c bs ->
  (forall m', writes m trap.(tval) 0 bs m' ->
     sbi_misaligned_store_handler platform f lhu sb v_st m c trap h = Some ((0, advance c len, m'), h)) /\
  (forall pre b post m' t c' h', bs = pre ++ b :: post -> writes m trap.(tval) 0 pre m' ->
     sb m' (u64 (trap.(tval) + Z.of_nat (length pre))) b = inr t ->
     redirect platform f c (with_tinst t (sbi_misaligned_tinst_fixup trap.(tinst) t.(tinst) (Z.of_nat (length pre)))) h
       = Some ((0, c'), h') ->
     sbi_misaligned_store_handler platform f lhu sb v_st m c trap h = Some ((0, c', m'), h')).
Proof.
  intros Hs Hat Hb. destruct (emulate_store_decoded (sbi_misaligned_st_emulator platform f sb) m c trap s len Hs Hat)
    as (v & Hv & E). unfold sbi_misaligned_store_handler. rewrite E. specialize (Hv bs Hb). clear E. split.
  - intros m' Hw. set (n := Z.of_nat (bytes_of (store_width s))).
    assert (sbi_misaligned_st_emulator platform f sb m n v c trap h = Some ((n, c, m'), h)) as Eemu.
    { unfold sbi_misaligned_st_emulator. subst n. by rewrite Nat2Z.id, Hv, (st_bytes_writes _ _ _ _ _ Hw). }
    rewrite (csr_bind _ _ _ _ _ Eemu).
    assert ((n <=? 0) = false) as -> by (apply Z.leb_gt; subst n; destruct (store_width s); cbn; lia). done.
  - intros pre b post m' t c' h' -> Hw Ht Hred.
    assert (sbi_misaligned_st_emulator platform f sb m (Z.of_nat (bytes_of (store_width s))) v c trap h = Some ((0, c', m'), h')) as Eemu.
    { unfold sbi_misaligned_st_emulator. rewrite Nat2Z.id, Hv, (st_bytes_fault _ _ _ _ _ _ _ _ Hw Ht).
      by rewrite (csr_bind _ _ _ _ _ Hred). }
    by rewrite (csr_bind _ _ _ _ _ Eemu).
Qed.
End StoreCorrect.

(** ** A memory of bytes *)

Definition byte_mem := gmap Z Z.
Definition mem_lbu (m : byte_mem) (a : Z) : Z + sbi_trap_info :=
  match m !! a with Some b => inl b | None => inr (TrapInfo CAUSE_LOAD_PAGE_FAULT a 0 0 0) end.
Definition mem_lhu (m : byte_mem) (a : Z) : Z + sbi_trap_info :=
  match m !! a, m !! (a + 1) with
  | Some lo, Some hi => inl (lo + 2 ^ 8 * hi)
  | _, _ => inr (TrapInfo CAUSE_LOAD_PAGE_FAULT a 0 0 0)
  end.
Definition mem_sb (m : byte_mem) (a b : Z) : byte_mem + sbi_trap_info :=
  match m !! a with Some _ => inl (<[a := b]> m) | None => inr (TrapInfo 15 a 0 0 0) end.

(** [lw t0, 0(a0)] at 0x1000, [sw t0, 0(a0)] at 0x1004; data from 0x2001 on, the
    page ends after 0x2006. *)
Definition lw_t0_a0 : load := Load B4 false 5 10 0.
Definition sw_t0_a0 : store := Store B4 5 10 0 0.
Definition demo_mem : byte_mem := list_to_map
  [(0x1000, 0x83); (0x1001, 0x22); (0x1002, 0x05); (0x1003, 0x00);
   (0x1004, 0x23); (0x1005, 0x20); (0x1006, 0x55); (0x1007, 0x00);
   (0x2001, 0xfe); (0x2002, 0xff); (0x2003, 0xff); (0x2004, 0xff); (0x2005, 1); (0x2006, 2)].
Definition demo_ctx (pc : Z) : context := Ctx (Regs (map Z.of_nat (seq 0 32)) pc 0) (replicate 32 0).
Definition demo_trap (cause addr : Z) : sbi_trap_info := TrapInfo cause addr 0 0 0.
Definition no_v_ld : context -> sbi_trap_info -> csrM (Z * context) := fun _ _ => sbi_panic.
Definition no_v_st : byte_mem -> context -> sbi_trap_info -> csrM (Z * context * byte_mem) := fun _ _ _ => sbi_panic.

Lemma misaligned_load_correct_witness :
  @sbi_misaligned_load_handler hw_full (fun _ => false) no_features byte_mem mem_lbu mem_lhu no_v_ld demo_mem (demo_ctx 0x1000)
    (demo_trap 4 0x2001) hyp_hart = Some ((0, load_effect lw_t0_a0 4 [0xfe; 0xff; 0xff; 0xff] (demo_ctx 0x1000)), hyp_hart) /\
  get_reg (load_effect lw_t0_a0 4 [0xfe; 0xff; 0xff; 0xff] (demo_ctx 0x1000)).(cregs) 5 = 2 ^ 64 - 2.
Proof.
  split; [|vm_compute; reflexivity].
  apply (@misaligned_load_correct hw_full (fun _ => false) no_features byte_mem mem_lbu mem_lhu no_v_ld lw_t0_a0 4
    [0xfe; 0xff; 0xff; 0xff] demo_mem (demo_ctx 0x1000) (demo_trap 4 0x2001) hyp_hart).
  - cbn. unfold in_range. split_and!; lia || (intros [[=] _]).
  - apply at_memory; intros; reflexivity.
  - repeat (apply Forall_cons; split; [split; [discriminate|reflexivity]|]). apply Forall_nil. exact I.
  - intros j b Hj. do 4 (destruct j as [|j]; [cbn in Hj; injection Hj as <-; vm_compute; reflexivity|]). cbn in Hj. discriminate.
  - apply le_n.
  - reflexivity.
Defined.

Lemma misaligned_store_correct_witness : exists m',
  @sbi_misaligned_store_handler hw_full (fun _ => false) no_features byte_mem mem_lhu mem_sb no_v_st demo_mem (demo_ctx 0x1004)
    (demo_trap 6 0x2003) hyp_hart = Some ((0, advance (demo_ctx 0x1004) 4, m'), hyp_hart) /\
  m' !! 0x2003 = Some 5 /\ m' !! 0x2004 = Some 0 /\ m' !! 0x2002 = Some 0xff.
Proof.
  eexists (<[0x2006 := 0]> (<[0x2005 := 0]> (<[0x2004 := 0]> (<[0x2003 := 5]> demo_mem)))).
  split; [|split_and!; vm_compute; reflexivity].
  apply (@misaligned_store_correct hw_full (fun _ => false) no_features byte_mem mem_lhu mem_sb no_v_st sw_t0_a0 4
    [5; 0; 0; 0] demo_mem (demo_ctx 0x1004) (demo_trap 6 0x2003) hyp_hart).
  - cbn. unfold in_range. lia.
  - apply at_memory; intros; reflexivity.
  - split; [reflexivity|]. split; [|reflexivity].
    repeat (apply Forall_cons; split; [split; [discriminate|reflexivity]|]). apply Forall_nil. exact I.
  - cbn [writes]. do 4 (eexists; split; [vm_compute; reflexivity|]). vm_compute. reflexivity.
Defined.
