(* ===== verification/Timer.v ===== *)
(** * Timer (lib/sbi/sbi_timer.c, lib/sbi/sbi_ecall_time.c, 64-bit)

    The timer device and its operations belong to a driver: [sbi_timer_device] is
    a record of them over the state [D] of the device.  The clock is a sequence of
    readings: [clock src i] is what the [i]-th call of [get_time_val] returns when
    that pointer is [src].  The words of the scratch spaces that hold the time
    deltas are [deltas], by hart.  The performance counter that
    [sbi_timer_event_start] increments is not part of this state. *)

From S2P Require Import Prelude SbiTypes Bitops Domain Csr Pmp PmpProps HartFeat Trap.

Local Open Scope Z_scope.

Definition MIP_MTIP : Z := 2 ^ 7.
Definition SBI_EXT_TIME_SET_TIMER : Z := 0x0.

Record sbi_timer_device (D : Type) := TimerDev {
  timer_freq : Z;
  timer_value : bool; (* whether the device can be read *)
  timer_event_start : option (Z -> D -> D);
  timer_event_stop : option (D -> D);
  warm_init : option (D -> Z * D);
}.
Arguments TimerDev {D}. Arguments timer_freq {D}. Arguments timer_value {D}.
Arguments timer_event_start {D}. Arguments timer_event_stop {D}. Arguments warm_init {D}.

(** What [get_time_val] can point to: [get_ticks] or [timer_dev->timer_value]. *)
Inductive time_source := get_ticks | device_value.

Record timer_state (D : Type) := Timer {
  time_delta_off : Z;
  get_time_val : option time_source;
  timer_dev : option (sbi_timer_device D);
  deltas : gmap Z Z;
}.
Arguments Timer {D}. Arguments time_delta_off {D}. Arguments get_time_val {D}.
Arguments timer_dev {D}. Arguments deltas {D}.

Section Model.
Context {hw : Hw} {D : Type} (clock : time_source -> nat -> Z).

Implicit Types (s : timer_state D) (f : sbi_hart_features).

(** ** Reading the time *)

Definition sbi_timer_value s (i : nat) : Z := match s.(get_time_val) with Some src => clock src i | None => 0 end.

Definition sbi_timer_get_delta s (hart : Z) : Z := default 0 (s.(deltas) !! hart).

Definition sbi_timer_virt_value s (hart : Z) (i : nat) : Z := u64 (sbi_timer_value s i + sbi_timer_get_delta s hart).

Definition sbi_timer_set_delta s (hart delta : Z) : timer_state D :=
  Timer s.(time_delta_off) s.(get_time_val) s.(timer_dev) (<[hart := delta]> s.(deltas)).

(** ** Waiting *)

(** [while ((get_time_val() - start_val) < delta) delay_fn(opaque);] from reading
    [i] on: the number of the reading that ends the loop. *)
Fixpoint delay_poll (fuel : nat) (src : time_source) (i : nat) (start delta : Z) : option nat :=
  match fuel with
  | O => None
  | S fuel => if u64 (clock src i - start) <? delta then delay_poll fuel src (S i) start delta else Some i
  end.

(** The delay in ticks: the product wraps at 64 bits. *)
Definition delay_ticks (freq units unit_freq : Z) : Z := u64 (freq * units) / unit_freq.

(** [Some i]: it returned after reading [i]; reading 0 is the start. *)
Definition sbi_timer_delay_loop (fuel : nat) s (units unit_freq : Z) : option nat :=
  match s.(timer_dev), s.(get_time_val) with
  | Some dev, Some src => delay_poll fuel src 1 (clock src 0) (delay_ticks dev.(timer_freq) units unit_freq)
  | _, _ => Some 0%nat
  end.

(** Poll [i] of the predicate comes before reading [S i]. *)
Fixpoint wait_poll (fuel : nat) s (predicate : nat -> bool) (i : nat) (start ticks : Z) : option (bool * nat) :=
  match fuel with
  | O => None
  | S fuel =>
      if predicate i then Some (true, i)
      else if ticks <=? u64 (sbi_timer_value s (S i) - start) then Some (false, i)
      else wait_poll fuel s predicate (S i) start ticks
  end.

(** The device is dereferenced without a test. *)
Definition sbi_timer_waitms_until (fuel : nat) s (predicate : nat -> bool) (timeout_ms : Z) : option (bool * nat) :=
  match s.(timer_dev) with
  | None => None
  | Some dev => wait_poll fuel s predicate 0 (sbi_timer_value s 0) (u64 (dev.(timer_freq) / 1000 * timeout_ms))
  end.

(** ** Timer events *)

Definition sbi_timer_event_start f s (next_event : Z) (d : D) : csrM D :=
  d ← (if sbi_hart_has_extension f SBI_HART_EXT_SSTC then csr_write CSR_STIMECMP next_event;; mret d
       else match s.(timer_dev) with
            | Some dev => match dev.(timer_event_start) with
                          | Some start => let d := start next_event d in csr_clear CSR_MIP MIP_STIP;; mret d
                          | None => mret d
                          end
            | None => mret d
            end);
  csr_set CSR_MIE MIP_MTIP;;
  mret d.

Definition sbi_timer_process f : csrM unit :=
  csr_clear CSR_MIE MIP_MTIP;;
  if negb (sbi_hart_has_extension f SBI_HART_EXT_SSTC) then csr_set CSR_MIP MIP_STIP else mret tt.

Definition sbi_timer_set_device s (dev : option (sbi_timer_device D)) : timer_state D :=
  match dev, s.(timer_dev) with
  | Some d, None =>
      Timer s.(time_delta_off)
        (match s.(get_time_val) with None => if d.(timer_value) then Some device_value else None | src => src end)
        (Some d) s.(deltas)
  | _, _ => s
  end.

(** [off] is what [sbi_scratch_alloc_offset] returns; [plat_init] is
    [sbi_platform_timer_init], which may set the device. *)
Definition sbi_timer_init f (plat_init : timer_state D -> Z * timer_state D) (off : Z) (cold_boot : bool) (hart : Z) s (d : D)
    : Z * timer_state D * D :=
  let warm s :=
    let s := sbi_timer_set_delta s hart 0 in
    match s.(timer_dev) with
    | Some dev => match dev.(warm_init) with Some init => let '(rc, d) := init d in (rc, s, d) | None => (0, s, d) end
    | None => (0, s, d)
    end in
  if cold_boot then
    let s := Timer off s.(get_time_val) s.(timer_dev) s.(deltas) in
    if off =? 0 then (SBI_ENOMEM, s, d)
    else
      let s := if sbi_hart_has_extension f SBI_HART_EXT_ZICNTR
               then Timer s.(time_delta_off) (Some get_ticks) s.(timer_dev) s.(deltas) else s in
      let '(ret, s) := plat_init s in
      if negb (ret =? 0) then (ret, s, d) else warm s
  else if s.(time_delta_off) =? 0 then (SBI_ENOMEM, s, d) else warm s.

Definition sbi_timer_exit s (d : D) : csrM D :=
  let d := match s.(timer_dev) with
           | Some dev => match dev.(timer_event_stop) with Some stop => stop d | None => d end
           | None => d
           end in
  csr_clear CSR_MIP MIP_STIP;; csr_clear CSR_MIE MIP_MTIP;; mret d.

(** The handler of the timer extension; [a0] is the first argument. *)
Definition sbi_ecall_time_handler f s (funcid a0 : Z) (d : D) : csrM (Z * D) :=
  if funcid =? SBI_EXT_TIME_SET_TIMER then d ← sbi_timer_event_start f s a0 d; mret (0, d)
  else mret (SBI_ENOTSUPP, d).
End Model.

(** ** Waiting is right *)

Section Wait.
Context {D : Type} (clock : time_source -> nat -> Z).

Local Set Default Proof Using "Type".

(** A clock that counts up and wraps at 64 bits; [elapsed i] ticks have passed at
    reading [i]. *)
Definition counts (src : time_source) (elapsed : nat -> Z) : Prop :=
  elapsed 0%nat = 0 /\ (forall i, elapsed i <= elapsed (S i)) /\ forall i, clock src i = u64 (clock src 0 + elapsed i).

Lemma elapsed_mono elapsed i j : (forall i, elapsed i <= elapsed (S i)) -> (i <= j)%nat -> elapsed i <= elapsed j.
Proof. intros H. induction 1 as [|j _ IH]; [lia|]. specialize (H j). lia. Qed.

(** The subtraction of two readings is right as long as less than [2 ^ 64] ticks
    have passed, whether or not the counter has wrapped. *)
Lemma elapsed_since src elapsed i : counts src elapsed -> elapsed i < 2 ^ 64 -> u64 (clock src i - clock src 0) = elapsed i.
Proof.
  intros (E0 & Hm & Hc) Hi. rewrite (Hc i). pose proof (elapsed_mono elapsed 0 i Hm ltac:(lia)). unfold u64, wrap.
  rewrite Zminus_mod_idemp_l. rewrite <- (Z.mod_small (elapsed i) (2 ^ 64)) at 2 by lia. f_equal. lia.
Qed.

(** Reading [n] is the first at which [delta] ticks have passed. *)
Definition first_after (elapsed : nat -> Z) (delta : Z) (n : nat) : Prop :=
  (1 <= n)%nat /\ delta <= elapsed n /\ forall i, (1 <= i < n)%nat -> elapsed i < delta.

Lemma delay_poll_first src elapsed delta n fuel i : counts src elapsed -> first_after elapsed delta n -> elapsed n < 2 ^ 64 ->
  (1 <= i <= n)%nat -> (n - i < fuel)%nat -> delay_poll clock fuel src i (clock src 0) delta = Some n.
Proof.
  intros Hc (H1 & Hn & Hlt) Hw. revert i. induction fuel as [|fuel IH]; intros i Hi Hf; [lia|]. cbn [delay_poll].
  pose proof Hc as (_ & Hm & _). pose proof (elapsed_mono elapsed i n Hm ltac:(lia)) as Hle.
  rewrite (elapsed_since src elapsed i Hc) by lia. destruct (decide (i = n)) as [->|Hne].
  - destruct (Z.ltb_spec (elapsed n) delta); [lia|done].
  - specialize (Hlt i ltac:(lia)). destruct (Z.ltb_spec (elapsed i) delta); [|lia]. apply IH; lia.
Qed.

(** C37: [sbi_timer_delay_loop] returns, and at the first reading of the clock
    after the delay: with a clock that counts up at the frequency of the device
    and may wrap at 64 bits, the loop ends at the first reading at which the
    delay in ticks has passed, and these ticks are [units / unit_freq] seconds
    rounded down to a tick, when [timer_freq * units] fits in 64 bits. *)
Theorem delay_loop_waits (s : timer_state D) dev src elapsed units unit_freq n fuel :
  s.(timer_dev) = Some dev -> s.(get_time_val) = Some src -> counts src elapsed ->
  0 < unit_freq -> 0 <= dev.(timer_freq) * units < 2 ^ 64 ->
  first_after elapsed (dev.(timer_freq) * units / unit_freq) n -> elapsed n < 2 ^ 64 -> (n <= fuel)%nat ->
  sbi_timer_delay_loop clock fuel s units unit_freq = Some n /\
  dev.(timer_freq) * units < (elapsed n + 1) * unit_freq.
Proof.
  intros Hd Hs Hc Hu Hfit Hfirst Hw Hfuel. unfold sbi_timer_delay_loop, delay_ticks. rewrite Hd, Hs.
  rewrite (wrap_small 64 (timer_freq dev * units)) by exact Hfit. pose proof Hfirst as (H1 & Hn & _). split.
  - apply (delay_poll_first src elapsed); [done..|lia|lia].
  - pose proof (Z.div_mod (timer_freq dev * units) unit_freq ltac:(lia)).
    pose proof (Z.mod_pos_bound (timer_freq dev * units) unit_freq Hu). nia.
Qed.

(** [sbi_timer_waitms_until] with a clock that counts up: it returns true
    exactly when the predicate holds at some poll before which the time-out had
    never been observed, at the first such poll; else it returns false after the
    first failed poll at which the time-out has passed. *)
Theorem waitms_until_exact (s : timer_state D) dev src elapsed predicate timeout_ms n fuel :
  s.(timer_dev) = Some dev -> s.(get_time_val) = Some src -> counts src elapsed ->
  let ticks := u64 (dev.(timer_freq) / 1000 * timeout_ms) in
  (forall i, (i < n)%nat -> predicate i = false /\ elapsed (S i) < ticks) ->
  (n < fuel)%nat ->
  (predicate n = true -> sbi_timer_waitms_until clock fuel s predicate timeout_ms = Some (true, n)) /\
  (predicate n = false -> ticks <= elapsed (S n) < 2 ^ 64 ->
     sbi_timer_waitms_until clock fuel s predicate timeout_ms = Some (false, n)).
Proof.
  intros Hd Hs Hc ticks Hbefore Hfuel. unfold sbi_timer_waitms_until. rewrite Hd.
  assert (forall i, sbi_timer_value clock s i = clock src i) as Hv by (intros; unfold sbi_timer_value; by rewrite Hs).
  rewrite (Hv 0%nat). assert (ticks < 2 ^ 64) as Ht by (apply Z.mod_pos_bound; lia).
  assert (forall r, (predicate n = true /\ r = true \/ predicate n = false /\ r = false /\ ticks <= elapsed (S n) < 2 ^ 64) ->
    forall fuel i, (i <= n)%nat -> (n - i < fuel)%nat ->
    wait_poll clock fuel s predicate i (clock src 0) ticks = Some (r, n)) as Hpoll.
  { intros r Hr fuel'. induction fuel' as [|fuel' IH]; intros i Hi Hf; [lia|]. cbn [wait_poll].
    rewrite (Hv (S i)). destruct (decide (i = n)) as [->|Hne].
    - destruct Hr as [[-> ->]|(-> & -> & Hr)]; [done|]. rewrite (elapsed_since src elapsed (S n) Hc) by lia.
      destruct (Z.leb_spec ticks (elapsed (S n))); [done|lia].
    - destruct (Hbefore i ltac:(lia)) as [-> Hlt]. rewrite (elapsed_since src elapsed (S i) Hc) by lia.
      destruct (Z.leb_spec ticks (elapsed (S i))); [lia|]. apply IH; lia. }
  split; [intros Hp; apply (Hpoll true); [by left|lia|lia]|intros Hp Hr; apply (Hpoll false); [by right|lia|lia]].
Qed.
End Wait.

(** ** Timer events reach the supervisor, and only when due *)

Section Bits.
Context {hw : Hw}.

Local Set Default Proof Using "Type".

(** Bit [k] of the register can be written. *)
Definition bit_writable (c k : Z) : Prop :=
  plain_csr c /\ c <> CSR_MSECCFG /\ exists m, hw_mask c = Some m /\ Z.testbit m k = true.

Lemma csr_update_bit c k (g : Z -> Z) b h : 0 <= k -> bit_writable c k ->
  (forall old j, 0 <= j -> Z.testbit (g old) j = if j =? k then b else Z.testbit old j) ->
  exists h', (old ← csr_read c; csr_write c (g old)) h = Some (tt, h') /\ Z.testbit (csr_val h' c) k = b /\
    (forall j, 0 <= j -> j <> k -> Z.testbit (csr_val h' c) j = Z.testbit (csr_val h c) j) /\
    forall c', c' <> c -> csr_val h' c' = csr_val h c'.
Proof.
  intros Hk ([E1 E2] & Hne & m & Em & Hm) Hg.
  assert (csr_read c h = Some (csr_val h c, h)) as Er by (unfold csr_read, hw_read; by rewrite E1, E2, Em).
  rewrite (csr_bind _ _ _ _ _ Er). unfold csr_write, hw_write. rewrite E1, E2, Em. apply Z.eqb_neq in Hne. rewrite Hne.
  exists (set_csr h c (Z.lor (Z.land (csr_val h c) (Z.lnot m)) (Z.land (g (csr_val h c)) m))). split; [done|]. rewrite csr_val_eq.
  split_and!.
  - by rewrite Z.lor_spec, !Z.land_spec, Z.lnot_spec, Hm, Hg, Z.eqb_refl, andb_false_r, andb_true_r by lia.
  - intros j Hj Hjk. rewrite Z.lor_spec, !Z.land_spec, Z.lnot_spec, Hg by lia. apply Z.eqb_neq in Hjk. rewrite Hjk.
    by destruct (Z.testbit m j), (Z.testbit (csr_val h c) j).
  - intros c' Hc. by apply csr_val_ne.
Qed.

Lemma csr_set_bit c k h : 0 <= k -> bit_writable c k ->
  exists h', csr_set c (2 ^ k) h = Some (tt, h') /\ Z.testbit (csr_val h' c) k = true /\
    (forall j, 0 <= j -> j <> k -> Z.testbit (csr_val h' c) j = Z.testbit (csr_val h c) j) /\
    forall c', c' <> c -> csr_val h' c' = csr_val h c'.
Proof.
  intros Hk Hw. apply (csr_update_bit c k (fun old => Z.lor old (2 ^ k))); [done..|]. intros old j Hj.
  rewrite Z.lor_spec, Z.pow2_bits_eqb, Z.eqb_sym by lia. by destruct (j =? k); rewrite ?orb_true_r, ?orb_false_r.
Qed.

Lemma csr_clear_bit c k h : 0 <= k -> bit_writable c k ->
  exists h', csr_clear c (2 ^ k) h = Some (tt, h') /\ Z.testbit (csr_val h' c) k = false /\
    (forall j, 0 <= j -> j <> k -> Z.testbit (csr_val h' c) j = Z.testbit (csr_val h c) j) /\
    forall c', c' <> c -> csr_val h' c' = csr_val h c'.
Proof.
  intros Hk Hw. apply (csr_update_bit c k (fun old => Z.land old (Z.lnot (2 ^ k)))); [done..|]. intros old j Hj.
  rewrite Z.land_spec, Z.lnot_spec, Z.pow2_bits_eqb, Z.eqb_sym by lia. by destruct (j =? k); rewrite ?andb_true_r, ?andb_false_r.
Qed.
End Bits.

Section Events.
Context {hw : Hw} {D : Type} (f : sbi_hart_features) (s : timer_state D) (dev : sbi_timer_device D).
Context (start : Z -> D -> D) (cmp : D -> Z).

(** A hart without the Sstc extension, whose interrupt bits can be written, and a
    device that interrupts when the clock has reached the programmed value. *)
Class TimerPlatform := {
  no_sstc : sbi_hart_has_extension f SBI_HART_EXT_SSTC = false;
  mtie_writable : bit_writable CSR_MIE 7;
  stip_writable : bit_writable CSR_MIP 5;
  dev_is : s.(timer_dev) = Some dev;
  dev_starts : dev.(timer_event_start) = Some start;
  dev_compares : forall v d, cmp (start v d) = v;
}.

(** The device, the hart, the time, and the last value the supervisor set. *)
Record world := World { wdev : D; whart : hart; now : Z; deadline : option Z }.

Definition mtie (w : world) : bool := has (csr_val w.(whart) CSR_MIE) MIP_MTIP.
Definition stip (w : world) : bool := has (csr_val w.(whart) CSR_MIP) MIP_STIP.

(** The supervisor calls; time passes; the machine timer interrupt is taken when
    it is enabled and the device asserts it. *)
Inductive wstep : world -> world -> Prop :=
| step_set_timer w v d h : sbi_ecall_time_handler f s SBI_EXT_TIME_SET_TIMER v w.(wdev) w.(whart) = Some ((0, d), h) ->
    wstep w (World d h w.(now) (Some v))
| step_tick w t : w.(now) <= t -> wstep w (World w.(wdev) w.(whart) t w.(deadline))
| step_irq w h : mtie w = true -> cmp w.(wdev) <= w.(now) -> sbi_timer_process f w.(whart) = Some (tt, h) ->
    wstep w (World w.(wdev) h w.(now) w.(deadline)).

Definition wstart (w : world) : Prop := mtie w = false /\ stip w = false /\ w.(deadline) = None.

(** The timer is armed or has fired, never both, and fired only when due. *)
Definition winv (w : world) : Prop :=
  match w.(deadline) with
  | None => mtie w = false /\ stip w = false
  | Some v => cmp w.(wdev) = v /\ mtie w = negb (stip w) /\ (stip w = true -> v <= w.(now))
  end.

Local Set Default Proof Using "Type".

Context {plat : TimerPlatform}.

Lemma set_timer_effect v d h : exists h',
  sbi_ecall_time_handler f s SBI_EXT_TIME_SET_TIMER v d h = Some ((0, start v d), h') /\
  has (csr_val h' CSR_MIE) MIP_MTIP = true /\ has (csr_val h' CSR_MIP) MIP_STIP = false.
Proof using plat.
  unfold sbi_ecall_time_handler, sbi_timer_event_start. cbn [Z.eqb]. rewrite no_sstc, dev_is, dev_starts.
  destruct (csr_clear_bit CSR_MIP 5 h ltac:(lia) stip_writable) as (h1 & E1 & H1 & _ & _).
  destruct (csr_set_bit CSR_MIE 7 h1 ltac:(lia) mtie_writable) as (h2 & E2 & H2 & _ & H2').
  exists h2. unfold MIP_MTIP, MIP_STIP in *. rewrite !has_pow2 by lia. rewrite H2, H2' by done. split; [|done].
  unfold mbind, csrM_bind, mret, csrM_ret in *. change (SBI_EXT_TIME_SET_TIMER =? SBI_EXT_TIME_SET_TIMER) with true. cbv beta iota.
  by rewrite E1, E2.
Qed.

Lemma timer_process_effect h : exists h', sbi_timer_process f h = Some (tt, h') /\
  has (csr_val h' CSR_MIE) MIP_MTIP = false /\ has (csr_val h' CSR_MIP) MIP_STIP = true.
Proof using plat.
  unfold sbi_timer_process. rewrite no_sstc. cbn [negb].
  destruct (csr_clear_bit CSR_MIE 7 h ltac:(lia) mtie_writable) as (h1 & E1 & H1 & _ & _).
  destruct (csr_set_bit CSR_MIP 5 h1 ltac:(lia) stip_writable) as (h2 & E2 & H2 & _ & H2').
  exists h2. unfold MIP_MTIP, MIP_STIP in *. rewrite !has_pow2 by lia. rewrite H2, H2' by done. split; [|done].
  by rewrite (csr_bind _ _ _ _ _ E1).
Qed.

Lemma winv_step w w' : winv w -> wstep w w' -> winv w'.
Proof using plat.
  intros Hi Hst. revert Hi. destruct Hst as [w0 v d h E|w0 t Ht|w0 h Hm Hd E]; intros Hi; unfold winv in *; cbn [deadline wdev now] in *.
  - destruct (set_timer_effect v (wdev w0) (whart w0)) as (h' & E' & H1 & H2). rewrite E in E'. simplify_eq.
    unfold mtie, stip. cbn [whart]. rewrite H1, H2. split; [apply dev_compares|]. split; [reflexivity|discriminate].
  - unfold mtie, stip in *. cbn [whart]. destruct (deadline w0) eqn:Ed; [|exact Hi]. destruct Hi as (H1 & H2 & H3).
    split_and!; [done..|]. intros H. specialize (H3 H). lia.
  - destruct (timer_process_effect (whart w0)) as (h' & E' & H1 & H2). rewrite E in E'. simplify_eq.
    destruct (deadline w0) as [v|]; [|destruct Hi as [Hi _]; congruence]. destruct Hi as (Hc & _ & _).
    unfold mtie, stip. cbn [whart]. rewrite H1, H2. split_and!; [done..|lia].
Qed.

(** C25: the timer service, as the supervisor sees it, over every interleaving of
    calls, the passing of time and machine timer interrupts: its timer interrupt
    is pending only when the value it last set has been reached (never a
    spurious or stale one), and whenever that value has been reached and the
    interrupt is not pending, the machine interrupt that makes it pending is
    enabled and makes it pending. *)
Theorem timer_interrupt_exact w w' v : wstart w -> rtc wstep w w' ->
  (stip w' = true -> exists v, w'.(deadline) = Some v /\ v <= w'.(now)) /\
  (w'.(deadline) = Some v -> v <= w'.(now) -> stip w' = false ->
     exists w'', wstep w' w'' /\ stip w'' = true /\ w''.(deadline) = Some v).
Proof using plat.
  intros (H1 & H2 & H3) Hr. assert (winv w) as Hi by (unfold winv; by rewrite H3).
  assert (winv w') as Hi' by (clear H1 H2 H3; induction Hr; [done|]; eauto using winv_step).
  clear Hi Hr H1 H2 H3. unfold winv in Hi'. split.
  - intros Hs. destruct (deadline w') as [v'|]; [|destruct Hi'; congruence]. exists v'. split; [done|]. by apply Hi'.
  - intros Hd Hv Hs. rewrite Hd in Hi'. destruct Hi' as (Hc & Hm & _). rewrite Hs in Hm.
    destruct (timer_process_effect (whart w')) as (h' & E & _ & Hs').
    exists (World (wdev w') h' (now w') (deadline w')). split; [by apply step_irq; [|lia|]|]. done.
Qed.
End Events.

(** ** A device with a compare register *)

Definition clint : sbi_timer_device Z := TimerDev 10000000 true (Some (fun v _ => v)) None None.
Definition clint_state : timer_state Z := Timer 8 (Some device_value) (Some clint) ∅.

Lemma clint_platform : @TimerPlatform hw_full Z no_features clint_state clint (fun v _ => v) id.
Proof.
  constructor; try reflexivity.
  - split; [split; reflexivity|]. split; [discriminate|]. exists (-1). split; reflexivity.
  - split; [split; reflexivity|]. split; [discriminate|]. exists (-1). split; reflexivity.
Qed.

(** The supervisor sets 50, the clock reaches 60, the interrupt is taken. *)
Lemma timer_interrupt_exact_witness : exists w,
  rtc (@wstep hw_full Z no_features clint_state id) (World 0 hyp_hart 10 None) w /\ w.(now) = 60 /\
  exists w'', @wstep hw_full Z no_features clint_state id w w'' /\ stip w'' = true.
Proof.
  pose proof clint_platform as P.
  destruct (@set_timer_effect hw_full Z no_features clint_state clint (fun v _ => v) id P 50 0 hyp_hart) as (h' & E & Hm & Hs).
  exists (World 50 h' 60 (Some 50)).
  assert (rtc (@wstep hw_full Z no_features clint_state id) (World 0 hyp_hart 10 None) (World 50 h' 60 (Some 50))) as Hr.
  { eapply rtc_l; [apply (step_set_timer no_features clint_state id (World 0 hyp_hart 10 None) 50 _ _ E)|].
    eapply rtc_l; [apply (step_tick no_features clint_state id (World 50 h' 10 (Some 50)) 60); cbn; lia|]. apply rtc_refl. }
  split; [exact Hr|]. split; [reflexivity|].
  destruct (@timer_interrupt_exact hw_full Z no_features clint_state clint (fun v _ => v) id P (World 0 hyp_hart 10 None)
    (World 50 h' 60 (Some 50)) 50) as [_ Hp].
  - split; [reflexivity|split; reflexivity].
  - exact Hr.
  - destruct Hp as (w'' & Hst & Hstip & _); [reflexivity|cbn; lia|exact Hs|]. exists w''. split; [exact Hst|exact Hstip].
Defined.

(** A counter about to wrap that gains 300 ticks between readings. *)
Definition wrapping_clock (src : time_source) (i : nat) : Z := u64 (2 ^ 64 - 500 + 300 * Z.of_nat i).

Lemma wrapping_counts : counts wrapping_clock device_value (fun i => 300 * Z.of_nat i).
Proof.
  split; [reflexivity|]. split; [intros i; lia|]. intros i. unfold wrapping_clock, u64, wrap. rewrite Zplus_mod_idemp_l. done.
Qed.

Lemma delay_loop_waits_witness :
  sbi_timer_delay_loop wrapping_clock 10 clint_state 100 1000000 = Some 4%nat.
Proof.
  apply (delay_loop_waits wrapping_clock clint_state clint device_value (fun i => 300 * Z.of_nat i) 100 1000000 4 10);
    [reflexivity|reflexivity|exact wrapping_counts|lia|cbn; lia| |lia|lia].
  split; [lia|]. split; [vm_compute; discriminate|]. intros i Hi. change (timer_freq clint * 100 / 1000000) with 1000. lia.
Defined.

Lemma waitms_until_exact_witness :
  sbi_timer_waitms_until wrapping_clock 100 clint_state (fun i => (20 <=? i)%nat) 1 = Some (true, 20%nat) /\
  sbi_timer_waitms_until wrapping_clock 100 clint_state (fun _ => false) 1 = Some (false, 33%nat).
Proof.
  split.
  - apply (waitms_until_exact wrapping_clock clint_state clint device_value (fun i => 300 * Z.of_nat i) (fun i => (20 <=? i)%nat) 1 20 100);
      [reflexivity|reflexivity|exact wrapping_counts| |lia|reflexivity].
    change (u64 (timer_freq clint / 1000 * 1)) with 10000. intros i Hi. split; [apply Nat.leb_gt; lia|lia].
  - apply (waitms_until_exact wrapping_clock clint_state clint device_value (fun i => 300 * Z.of_nat i) (fun _ => false) 1 33 100);
      [reflexivity|reflexivity|exact wrapping_counts| |lia|reflexivity|].
    + change (u64 (timer_freq clint / 1000 * 1)) with 10000. intros i Hi. split; [reflexivity|lia].
    + change (u64 (timer_freq clint / 1000 * 1)) with 10000. lia.
Defined.
