(* ===== verification/IllegalInsn.v ===== *)
(** * Illegal instructions and emulated registers (lib/sbi/sbi_illegal_insn.c,
    lib/sbi/sbi_emulate_csr.c, 64-bit).

    Counters and the time delta that the hart does not give to S and U mode are
    emulated when their use traps.  The theorem compares the handler with the CSR
    instructions of the instruction set and with the rules of the privileged
    specification for access to counters.  Messages and the performance counter
    of illegal instructions are not part of the state. *)

From S2P Require Import Prelude SbiTypes Bitops Domain Csr Pmp PmpProps HartFeat Trap TrapLdst TrapStore Timer.

Local Open Scope Z_scope.

Definition CSR_HTIMEDELTA : Z := 0x605.
Definition CSR_HCOUNTEREN : Z := 0x606.
Definition CSR_CYCLE : Z := 0xc00.
Definition CSR_INSTRET : Z := 0xc02.
Definition CSR_HPMCOUNTER3 : Z := 0xc03.
Definition CSR_HPMCOUNTER31 : Z := 0xc1f.
Definition CAUSE_ILLEGAL_INSTRUCTION : Z := 0x2.
Definition INSN_MATCH_FENCE_TSO : Z := 0x8330000f.

Definition GET_RM (insn : Z) : Z := Z.shiftr (Z.land insn 0x7000) 12.
Definition GET_RS1_NUM (insn : Z) : Z := Z.shiftr (Z.land insn 0xf8000) 15.
Definition GET_CSR_NUM (insn : Z) : Z := Z.shiftr (Z.land insn 0xfff00000) 20.
Definition GET_RS1 (insn : Z) (regs : sbi_trap_regs) : Z := get_reg regs (REG_PTR insn SH_RS1).

Definition CSRRW : Z := 1.
Definition CSRRS : Z := 2.
Definition CSRRC : Z := 3.
Definition CSRRWI : Z := 5.
Definition CSRRSI : Z := 6.
Definition CSRRCI : Z := 7.

Section Model.
Context {hw : Hw} (platform : Z -> bool) (f : sbi_hart_features).
Context {D : Type} (clock : time_source -> nat -> Z) (me : Z).
Context {mem : Type} (lhu : mem -> Z -> Z + sbi_trap_info).

Implicit Types (regs : sbi_trap_regs) (s : timer_state D).

(** ** Emulated registers *)

Definition hpm_allowed (hpm_num prev_mode : Z) (virt : bool) : csrM bool :=
  cen ← (if prev_mode <=? PRV_S then
           if SBI_HART_PRIV_VER_1_10 <=? f.(priv_version) then
             m ← csr_read CSR_MCOUNTEREN;
             if virt then v ← csr_read CSR_HCOUNTEREN; mret (Z.land (Z.land (2 ^ 64 - 1) m) v)
             else mret (Z.land (2 ^ 64 - 1) m)
           else mret 0
         else mret (2 ^ 64 - 1));
  cen ← (if prev_mode =? PRV_U then
           if SBI_HART_PRIV_VER_1_10 <=? f.(priv_version) then v ← csr_read CSR_SCOUNTEREN; mret (Z.land cen v)
           else mret 0
         else mret cen);
  mret (negb (Z.land (Z.shiftr cen hpm_num) 1 =? 0)).

(** [None] is [SBI_ENOTSUPP]; [i] is the number of the reading of the clock. *)
Definition sbi_emulate_csr_read (csr_num : Z) regs s (i : nat) : csrM (option Z) :=
  let prev_mode := sbi_mstatus_prev_mode regs.(mstatus) in
  let virt := sbi_regs_from_virt regs in
  if csr_num =? CSR_HTIMEDELTA then
    mret (if (prev_mode =? PRV_S) && negb virt then Some (sbi_timer_get_delta s me) else None)
  else if csr_num =? CSR_CYCLE then
    ok ← hpm_allowed (csr_num - CSR_CYCLE) prev_mode virt;
    if (ok : bool) then v ← csr_read CSR_MCYCLE; mret (Some v) else mret None
  else if csr_num =? CSR_TIME then
    ok ← hpm_allowed (csr_num - CSR_CYCLE) prev_mode virt;
    mret (if (ok : bool) then Some (if virt then sbi_timer_virt_value clock s me i else sbi_timer_value clock s i) else None)
  else if csr_num =? CSR_INSTRET then
    ok ← hpm_allowed (csr_num - CSR_CYCLE) prev_mode virt;
    if (ok : bool) then v ← csr_read CSR_MINSTRET; mret (Some v) else mret None
  else if (CSR_HPMCOUNTER3 <=? csr_num) && (csr_num <=? CSR_HPMCOUNTER31) then
    if has f.(mhpm_mask) (Z.shiftl 1 (csr_num - CSR_CYCLE)) then mret None
    else
      ok ← hpm_allowed (csr_num - CSR_CYCLE) prev_mode virt;
      if (ok : bool) then v ← csr_read (CSR_MCYCLE + csr_num - CSR_CYCLE); mret (Some v) else mret None
  else mret None.

(** [None] is [SBI_ENOTSUPP]. *)
Definition sbi_emulate_csr_write (csr_num : Z) regs s (csr_val : Z) : option (timer_state D) :=
  let prev_mode := sbi_mstatus_prev_mode regs.(mstatus) in
  let virt := sbi_regs_from_virt regs in
  if csr_num =? CSR_HTIMEDELTA then
    if (prev_mode =? PRV_S) && negb virt then Some (sbi_timer_set_delta s me csr_val) else None
  else None.

(** ** Instructions *)

Definition truly_illegal_insn (insn : Z) regs s : csrM (Z * sbi_trap_regs * timer_state D) :=
  '(rc, regs) ← sbi_trap_redirect platform f regs (TrapInfo CAUSE_ILLEGAL_INSTRUCTION insn 0 0 0); mret (rc, regs, s).

Definition misc_mem_opcode_insn (insn : Z) regs s : csrM (Z * sbi_trap_regs * timer_state D) :=
  if matches insn 0xffffffff INSN_MATCH_FENCE_TSO then mret (0, set_mepc regs (u64 (regs.(mepc) + 4)), s)
  else truly_illegal_insn insn regs s.

(** The value to write and whether to write it; [None] for other values of
    [funct3]. *)
Definition csr_update (funct3 csr_val rs1_val rs1_num : Z) : option (Z * bool) :=
  if funct3 =? CSRRW then Some (rs1_val, true)
  else if funct3 =? CSRRS then Some (Z.lor csr_val rs1_val, negb (rs1_num =? 0))
  else if funct3 =? CSRRC then Some (Z.land csr_val (u64 (Z.lnot rs1_val)), negb (rs1_num =? 0))
  else if funct3 =? CSRRWI then Some (rs1_num, true)
  else if funct3 =? CSRRSI then Some (Z.lor csr_val rs1_num, negb (rs1_num =? 0))
  else if funct3 =? CSRRCI then Some (Z.land csr_val (u64 (Z.lnot rs1_num)), negb (rs1_num =? 0))
  else None.

Definition system_opcode_insn (insn : Z) regs s (i : nat) : csrM (Z * sbi_trap_regs * timer_state D) :=
  let rs1_num := GET_RS1_NUM insn in
  let rs1_val := GET_RS1 insn regs in
  let csr_num := GET_CSR_NUM (u32 insn) in
  let prev_mode := sbi_mstatus_prev_mode regs.(mstatus) in
  if prev_mode =? PRV_M then mret (SBI_EFAIL, regs, s)
  else
    let funct3 := GET_RM insn in
    if (funct3 =? 0) || (funct3 =? 4) then truly_illegal_insn insn regs s
    else
      r ← sbi_emulate_csr_read csr_num regs s i;
      match r with
      | None => truly_illegal_insn insn regs s
      | Some csr_val =>
          match csr_update funct3 csr_val rs1_val rs1_num with
          | None => truly_illegal_insn insn regs s
          | Some (new_csr_val, do_write) =>
              match (if do_write : bool then sbi_emulate_csr_write csr_num regs s new_csr_val else Some s) with
              | None => truly_illegal_insn insn regs s
              | Some s =>
                  let regs := SET_RD insn regs csr_val in
                  mret (0, set_mepc regs (u64 (regs.(mepc) + 4)), s)
              end
          end
      end.

(** The entry of [illegal_insn_table] for the opcode. *)
Definition illegal_insn_table (op insn : Z) regs s (i : nat) : csrM (Z * sbi_trap_regs * timer_state D) :=
  if op =? 3 then misc_mem_opcode_insn insn regs s
  else if op =? 28 then system_opcode_insn insn regs s i
  else truly_illegal_insn insn regs s.

Definition sbi_illegal_insn_handler (m : mem) regs (trap : sbi_trap_info) s (i : nat)
    : csrM (Z * sbi_trap_regs * timer_state D) :=
  let dispatch insn := illegal_insn_table (Z.shiftr (Z.land insn 0x7c) 2) insn regs s i in
  let insn := trap.(tval) in
  if negb (Z.land insn 3 =? 3) then
    match sbi_get_insn lhu m regs.(mepc) with
    | inr t => '(rc, regs) ← sbi_trap_redirect platform f regs t; mret (rc, regs, s)
    | inl insn => if negb (Z.land insn 3 =? 3) then truly_illegal_insn insn regs s else dispatch insn
    end
  else dispatch insn.
End Model.

(** ** The CSR instructions, as the instruction set describes them *)

Inductive csr_op := OpRW | OpRS | OpRC.

(** [c_imm]: the source is the number [c_rs1] itself. *)
Record csr_insn := CsrInsn { c_op : csr_op; c_imm : bool; c_rd : Z; c_rs1 : Z; c_csr : Z }.

Definition csr_insn_ok (c : csr_insn) : Prop := in_range 5 c.(c_rd) /\ in_range 5 c.(c_rs1) /\ in_range 12 c.(c_csr).

Definition csr_funct3 (c : csr_insn) : Z :=
  (match c.(c_op) with OpRW => 1 | OpRS => 2 | OpRC => 3 end) + (if c.(c_imm) then 4 else 0).

Definition csr_encode (c : csr_insn) : Z :=
  0x73 + 2 ^ 7 * (c.(c_rd) + 2 ^ 5 * (csr_funct3 c + 2 ^ 3 * (c.(c_rs1) + 2 ^ 5 * c.(c_csr)))).

Definition csr_operand (c : csr_insn) (regs : sbi_trap_regs) : Z :=
  if c.(c_imm) then c.(c_rs1) else get_reg regs (Z.to_nat c.(c_rs1)).

(** Setting and clearing with register or number 0 does not write. *)
Definition csr_writes (c : csr_insn) : bool := match c.(c_op) with OpRW => true | _ => negb (c.(c_rs1) =? 0) end.

Definition csr_new (c : csr_insn) (old a : Z) : Z :=
  match c.(c_op) with OpRW => a | OpRS => Z.lor old a | OpRC => Z.ldiff old a end.

Section Spec.
Context {hw : Hw} (f : sbi_hart_features) {D : Type} (clock : time_source -> nat -> Z) (me : Z).

(** Counter [n] is enabled for a mode below M. *)
Definition counter_enabled (h : hart) (mode : Z) (virt : bool) (n : Z) : bool :=
  (SBI_HART_PRIV_VER_1_10 <=? f.(priv_version)) && Z.testbit (csr_val h CSR_MCOUNTEREN) n
  && (negb virt || Z.testbit (csr_val h CSR_HCOUNTEREN) n)
  && (negb (mode =? PRV_U) || Z.testbit (csr_val h CSR_SCOUNTEREN) n).

(** The registers that are emulated: the time delta for a hypervisor, and the
    enabled counters other than those of the hart's own that can be programmed. *)
Definition emulated_value (h : hart) (s : timer_state D) (i : nat) (mode : Z) (virt : bool) (csr : Z) : option Z :=
  let n := csr - CSR_CYCLE in
  if csr =? CSR_HTIMEDELTA then if (mode =? PRV_S) && negb virt then Some (sbi_timer_get_delta s me) else None
  else if (0 <=? n) && (n <? 32) then
    if (3 <=? n) && Z.testbit f.(mhpm_mask) n then None
    else if counter_enabled h mode virt n then
      Some (if n =? 1 then (if virt then sbi_timer_virt_value clock s me i else sbi_timer_value clock s i)
            else csr_val h (CSR_MCYCLE + n))
    else None
  else None.
End Spec.

(** ** Fields *)

Lemma field_spec x s k : 0 <= s -> 0 <= k -> Z.shiftr (Z.land x (Z.shiftl (Z.ones k) s)) s = (x / 2 ^ s) `mod` 2 ^ k.
Proof.
  intros Hs Hk. rewrite Z.shiftr_land, Z.shiftr_shiftl_l, Z.sub_diag, Z.shiftl_0_r, Z.land_ones, Z.shiftr_div_pow2 by lia. done.
Qed.

(** A field of a number written as low part, field and rest. *)
Lemma field_mid lo x rest s k : 0 <= s -> 0 <= k -> 0 <= lo < 2 ^ s -> 0 <= x < 2 ^ k ->
  ((lo + 2 ^ s * (x + 2 ^ k * rest)) / 2 ^ s) `mod` 2 ^ k = x.
Proof.
  intros Hs Hk Hlo Hx. pose proof (pow2_pos s Hs). rewrite (Z.mul_comm (2 ^ s)), Z.div_add, Z.div_small, Z.add_0_l by lia.
  rewrite (Z.mul_comm (2 ^ k)), Z.mod_add by (pose proof (pow2_pos k Hk); lia). by apply Z.mod_small.
Qed.

Lemma csr_funct3_range c : 1 <= csr_funct3 c <= 7 /\ csr_funct3 c <> 4.
Proof. unfold csr_funct3. destruct (c_op c), (c_imm c); lia. Qed.

(** The fields of a CSR instruction. *)
Lemma csr_fields c : csr_insn_ok c ->
  let e := csr_encode c in
  GET_RM e = csr_funct3 c /\ GET_RS1_NUM e = c.(c_rs1) /\ GET_CSR_NUM (u32 e) = c.(c_csr) /\
  REG_PTR e SH_RS1 = Z.to_nat c.(c_rs1) /\ REG_PTR e SH_RD = Z.to_nat c.(c_rd) /\
  e `mod` 4 = 3 /\ Z.shiftr (Z.land e 0x7c) 2 = 28.
Proof.
  intros (Hrd & Hrs & Hcsr) e. pose proof (csr_funct3_range c) as [Hf _]. unfold in_range in *. change (2 ^ 5) with 32 in *.
  assert (0 <= e < 2 ^ 32) as He by (unfold e, csr_encode; lia).
  assert ((e / 2 ^ 15) `mod` 2 ^ 5 = c_rs1 c) as E15.
  { replace e with ((0x73 + 2 ^ 7 * (c_rd c + 2 ^ 5 * csr_funct3 c)) + 2 ^ 15 * (c_rs1 c + 2 ^ 5 * c_csr c)) by (unfold e, csr_encode; lia).
    apply field_mid; lia. }
  split_and!.
  - unfold GET_RM. change 0x7000 with (Z.shiftl (Z.ones 3) 12). rewrite field_spec by lia.
    replace e with ((0x73 + 2 ^ 7 * c_rd c) + 2 ^ 12 * (csr_funct3 c + 2 ^ 3 * (c_rs1 c + 2 ^ 5 * c_csr c))) by (unfold e, csr_encode; lia).
    apply field_mid; lia.
  - unfold GET_RS1_NUM. change 0xf8000 with (Z.shiftl (Z.ones 5) 15). by rewrite field_spec by lia.
  - unfold GET_CSR_NUM. rewrite (wrap_small 32 e) by exact He. change 0xfff00000 with (Z.shiftl (Z.ones 12) 20). rewrite field_spec by lia.
    replace e with ((0x73 + 2 ^ 7 * (c_rd c + 2 ^ 5 * (csr_funct3 c + 2 ^ 3 * c_rs1 c))) + 2 ^ 20 * (c_csr c + 2 ^ 12 * 0)) by (unfold e, csr_encode; lia).
    apply field_mid; lia.
  - unfold SH_RS1. rewrite REG_PTR_field by lia. by rewrite E15.
  - unfold SH_RD. rewrite REG_PTR_field by lia. f_equal. unfold e, csr_encode. apply field_mid; lia.
  - unfold e, csr_encode. set (x := c_rd c + _). replace (0x73 + 2 ^ 7 * x) with (3 + (28 + 2 ^ 5 * x) * 4) by lia.
    by rewrite Z.mod_add by lia.
  - change 0x7c with (Z.shiftl (Z.ones 5) 2). rewrite field_spec by lia. unfold e, csr_encode. set (x := c_rd c + _).
    replace (0x73 + 2 ^ 7 * x) with (3 + 2 ^ 2 * (28 + 2 ^ 5 * x)) by lia. apply field_mid; lia.
Qed.

Lemma csr_update_spec c old regs : in_range 64 old -> in_range 5 c.(c_rs1) ->
  csr_update (csr_funct3 c) old (get_reg regs (Z.to_nat c.(c_rs1))) c.(c_rs1) =
  Some (csr_new c old (csr_operand c regs), csr_writes c).
Proof.
  intros Ho Hr. assert (forall a, Z.land old (u64 (Z.lnot a)) = Z.ldiff old a) as Hd.
  { intros a. apply Z.bits_inj'. intros j Hj. rewrite Z.land_spec, Z.ldiff_spec, wrap_testbit, Z.lnot_spec by lia.
    case_bool_decide; [done|]. assert (Z.testbit old j = false) as -> by (apply (testbit_above 64); [done|lia]). done. }
  unfold csr_update, csr_new, csr_operand, csr_writes, csr_funct3. destruct (c_op c), (c_imm c); cbn; by rewrite ?Hd.
Qed.

(** ** Emulation is right *)

Section Correct.
Context {hw : Hw} (platform : Z -> bool) (f : sbi_hart_features).
Context {D : Type} (clock : time_source -> nat -> Z) (me : Z).
Context {mem : Type} (lhu : mem -> Z -> Z + sbi_trap_info).

Local Set Default Proof Using "Type".

Definition counter_csrs : list Z :=
  [CSR_MCOUNTEREN; CSR_HCOUNTEREN; CSR_SCOUNTEREN] ++ map (fun n => CSR_MCYCLE + Z.of_nat n) (0 :: seq 2 30)%nat.

Lemma counter_csrs_full n : Forall full counter_csrs -> 0 <= n < 32 -> n <> 1 -> full (CSR_MCYCLE + n).
Proof.
  intros Hf Hn H1. rewrite Forall_forall in Hf. apply Hf. unfold counter_csrs. apply elem_of_app. right. apply list_elem_of_In, in_map_iff.
  exists (Z.to_nat n). split; [by rewrite Z2Nat.id by lia|]. cbn [In]. destruct (decide (n = 0)) as [->|]; [by left|]. right. apply in_seq. lia.
Qed.

Lemma testbit_odd cen n : 0 <= n -> negb (Z.land (Z.shiftr cen n) 1 =? 0) = Z.testbit cen n.
Proof.
  intros Hn. change 1 with (2 ^ 0). change (negb (Z.land ?a ?b =? 0)) with (has a b). rewrite has_pow2, Z.shiftr_spec by lia.
  by rewrite Z.add_0_l.
Qed.

Lemma hpm_allowed_spec n mode virt h : Forall full counter_csrs -> mode = PRV_S \/ mode = PRV_U -> 0 <= n < 64 ->
  hpm_allowed f n mode virt h = Some (counter_enabled f h mode virt n, h).
Proof.
  intros Hf Hmode Hn. unfold counter_csrs in Hf. cbn [app] in Hf. rewrite !Forall_cons in Hf. destruct Hf as (F1 & F2 & F3 & _).
  unfold hpm_allowed, counter_enabled. assert ((mode <=? PRV_S) = true) as -> by (by destruct Hmode as [->| ->]).
  destruct (SBI_HART_PRIV_VER_1_10 <=? priv_version f); cbn [andb].
  2: { unfold mbind, csrM_bind, mret, csrM_ret. cbv beta iota. rewrite Tauto.if_same. by rewrite Z.shiftr_0_l. }
  set (cen := if virt then Z.land (Z.land (2 ^ 64 - 1) (csr_val h CSR_MCOUNTEREN)) (csr_val h CSR_HCOUNTEREN)
              else Z.land (2 ^ 64 - 1) (csr_val h CSR_MCOUNTEREN)).
  assert ((m ← csr_read CSR_MCOUNTEREN;
    if virt then v ← csr_read CSR_HCOUNTEREN; mret (Z.land (Z.land (2 ^ 64 - 1) m) v) else mret (Z.land (2 ^ 64 - 1) m)) h = Some (cen, h)) as E1.
  { rewrite (csr_bind _ _ _ _ _ (csr_read_full _ _ F1)). unfold cen. destruct virt; [|done].
    by rewrite (csr_bind _ _ _ _ _ (csr_read_full _ _ F2)). }
  rewrite (csr_bind _ _ _ _ _ E1).
  assert (Z.testbit (2 ^ 64 - 1) n = true) as H64 by (change (2 ^ 64 - 1) with (Z.ones 64); apply Z.ones_spec_low; lia).
  assert (Z.testbit cen n = Z.testbit (csr_val h CSR_MCOUNTEREN) n && (negb virt || Z.testbit (csr_val h CSR_HCOUNTEREN) n)) as Hcen
    by (unfold cen; destruct virt; rewrite !Z.land_spec, H64; cbn; by rewrite ?andb_true_r).
  destruct (mode =? PRV_U).
  - assert ((v ← csr_read CSR_SCOUNTEREN; mret (Z.land cen v)) h = Some (Z.land cen (csr_val h CSR_SCOUNTEREN), h)) as E2
      by (by rewrite (csr_bind _ _ _ _ _ (csr_read_full _ _ F3))).
    rewrite (csr_bind _ _ _ _ _ E2). unfold mret, csrM_ret. rewrite testbit_odd, Z.land_spec, Hcen by lia. done.
  - unfold mbind, csrM_bind, mret, csrM_ret. cbv beta iota. rewrite testbit_odd, Hcen by lia. cbn [negb orb]. by rewrite andb_true_r.
Qed.

Lemma has_bit v n : 0 <= n -> has v (Z.shiftl 1 n) = Z.testbit v n.
Proof. intros Hn. rewrite Z.shiftl_1_l. by apply has_pow2. Qed.

(** Reading a counter once access is allowed. *)
Lemma counter_read n mode virt h (g : bool -> csrM (option Z)) v : Forall full counter_csrs -> mode = PRV_S \/ mode = PRV_U -> 0 <= n < 64 ->
  g true h = Some (Some v, h) -> g false h = Some (None, h) ->
  (ok ← hpm_allowed f n mode virt; g ok) h = Some (if counter_enabled f h mode virt n then Some v else None, h).
Proof.
  intros Hf Hm Hn Ht Hff. rewrite (csr_bind _ _ _ _ _ (hpm_allowed_spec n mode virt h Hf Hm Hn)).
  by destruct (counter_enabled f h mode virt n).
Qed.

Lemma emulate_csr_read_spec csr regs (s : timer_state D) i h : Forall full counter_csrs -> in_range 12 csr ->
  let mode := sbi_mstatus_prev_mode regs.(mstatus) in
  mode = PRV_S \/ mode = PRV_U ->
  sbi_emulate_csr_read f clock me csr regs s i h = Some (emulated_value f clock me h s i mode (sbi_regs_from_virt regs) csr, h).
Proof.
  intros Hf Hr mode Hm. unfold sbi_emulate_csr_read. fold mode. set (virt := sbi_regs_from_virt regs). unfold emulated_value.
  destruct (csr =? CSR_HTIMEDELTA); [done|]. unfold in_range in Hr.
  assert (forall n, 0 <= n < 32 -> n <> 1 -> csr_read (CSR_MCYCLE + n) h = Some (csr_val h (CSR_MCYCLE + n), h)) as Hread
    by (intros n Hn H1; by apply csr_read_full, counter_csrs_full).
  unfold CSR_CYCLE, CSR_TIME, CSR_INSTRET, CSR_HPMCOUNTER3, CSR_HPMCOUNTER31.
  destruct (Z.eqb_spec csr 0xc00) as [->|N0]; [|destruct (Z.eqb_spec csr 0xc01) as [->|N1]; [|destruct (Z.eqb_spec csr 0xc02) as [->|N2]]].
  - change (0xc00 - 0xc00) with 0. cbn [Z.leb Z.ltb Z.compare andb Pos.compare Pos.compare_cont].
    apply counter_read; [done|done|lia| |done]. change CSR_MCYCLE with (CSR_MCYCLE + 0). by rewrite (csr_bind _ _ _ _ _ (Hread 0 ltac:(lia) ltac:(lia))).
  - change (0xc01 - 0xc00) with 1. cbn [Z.leb Z.ltb Z.compare andb Pos.compare Pos.compare_cont].
    apply (counter_read 1 mode virt h (fun ok => mret (if ok then Some _ else None))); [done|done|lia|done|done].
  - change (0xc02 - 0xc00) with 2. cbn [Z.leb Z.ltb Z.compare andb Pos.compare Pos.compare_cont].
    apply counter_read; [done|done|lia| |done]. change CSR_MINSTRET with (CSR_MCYCLE + 2). by rewrite (csr_bind _ _ _ _ _ (Hread 2 ltac:(lia) ltac:(lia))).
  - destruct (Z.leb_spec 0xc03 csr) as [H3|H3]; cbn [andb].
    + destruct (Z.leb_spec 0 (csr - 0xc00)); [|lia].
      destruct (Z.leb_spec csr 0xc1f) as [H31|H31], (Z.ltb_spec (csr - 0xc00) 32); try lia; cbn [andb]; [|done].
      destruct (Z.leb_spec 3 (csr - 0xc00)); [|lia]. cbn [andb]. rewrite has_bit by lia.
      destruct (Z.testbit (mhpm_mask f) (csr - 0xc00)); [done|].
      destruct (Z.eqb_spec (csr - 0xc00) 1); [lia|]. apply counter_read; [done|done|lia| |done].
      replace (CSR_MCYCLE + csr - 0xc00) with (CSR_MCYCLE + (csr - 0xc00)) by lia. by rewrite (csr_bind _ _ _ _ _ (Hread (csr - 0xc00) ltac:(lia) ltac:(lia))).
    + destruct (Z.leb_spec 0 (csr - 0xc00)); [lia|done].
Qed.

(** What a CSR instruction that trapped should do: [None] is an illegal
    instruction. *)
Definition csr_insn_effect (c : csr_insn) (h : hart) (regs : sbi_trap_regs) (s : timer_state D) (i : nat)
    : option (sbi_trap_regs * timer_state D) :=
  let mode := sbi_mstatus_prev_mode regs.(mstatus) in
  match emulated_value f clock me h s i mode (sbi_regs_from_virt regs) c.(c_csr) with
  | None => None
  | Some old =>
      let done s := Some (Regs (<[Z.to_nat c.(c_rd) := old]> regs.(gprs)) (u64 (regs.(mepc) + 4)) regs.(mstatus), s) in
      if csr_writes c then
        if c.(c_csr) =? CSR_HTIMEDELTA then done (sbi_timer_set_delta s me (csr_new c old (csr_operand c regs))) else None
      else done s
  end.

(** C15: the handler of illegal instructions carries out the CSR instructions on
    the registers it emulates as the instruction set says, from S and U mode and
    from guests: for every CSR instruction, given in [mtval] or fetched from
    memory, an access to an emulated register that the counter-enable registers
    of the modes above allow writes the old value to the destination, updates the
    register with the operation on the operand (only the time delta can be
    written, and only by the hypervisor), and steps past the instruction; every
    other access is handed to the supervisor as an illegal instruction, with
    nothing changed. *)
Theorem csr_emulation_correct c m regs trap (s : timer_state D) i h :
  csr_insn_ok c -> Forall full counter_csrs ->
  sbi_mstatus_prev_mode regs.(mstatus) = PRV_S \/ sbi_mstatus_prev_mode regs.(mstatus) = PRV_U ->
  (forall old, emulated_value f clock me h s i (sbi_mstatus_prev_mode regs.(mstatus)) (sbi_regs_from_virt regs) c.(c_csr) = Some old ->
     in_range 64 old) ->
  trap.(tval) = csr_encode c \/ (trap.(tval) `mod` 4 <> 3 /\ sbi_get_insn lhu m regs.(mepc) = inl (csr_encode c)) ->
  sbi_illegal_insn_handler platform f clock me lhu m regs trap s i h =
  match csr_insn_effect c h regs s i with
  | Some (regs', s') => Some ((0, regs', s'), h)
  | None => truly_illegal_insn platform f (csr_encode c) regs s h
  end.
Proof.
  intros Hc Hf Hm Hold Hwhere. destruct (csr_fields c Hc) as (E3 & En & Ec & E1 & Ed & Em & Eop).
  assert (sbi_illegal_insn_handler platform f clock me lhu m regs trap s i = system_opcode_insn platform f clock me (csr_encode c) regs s i) as ->.
  { unfold sbi_illegal_insn_handler. destruct Hwhere as [->|[Hne ->]]; rewrite !land3_mod, Em.
    - cbn [Z.eqb Pos.eqb negb]. rewrite Eop. done.
    - apply Z.eqb_neq in Hne. rewrite Hne. cbn [Z.eqb Pos.eqb negb]. rewrite Eop. done. }
  unfold system_opcode_insn. rewrite E3, En, Ec. unfold GET_RS1. rewrite E1.
  assert ((sbi_mstatus_prev_mode (mstatus regs) =? PRV_M) = false) as -> by (destruct Hm as [->| ->]; done).
  destruct (csr_funct3_range c) as [Hf1 Hf2].
  assert ((csr_funct3 c =? 0) || (csr_funct3 c =? 4) = false) as -> by (apply orb_false_iff; split; apply Z.eqb_neq; lia).
  destruct Hc as (Hrd & Hrs & Hcsr).
  rewrite (csr_bind _ _ _ _ _ (emulate_csr_read_spec (c_csr c) regs s i h Hf Hcsr Hm)). unfold csr_insn_effect.
  destruct (emulated_value f clock me h s i _ _ (c_csr c)) as [old|] eqn:Ev; [|done].
  rewrite (csr_update_spec c old regs (Hold old eq_refl) Hrs). destruct (csr_writes c); [|unfold SET_RD; by rewrite Ed].
  unfold sbi_emulate_csr_write. destruct (c_csr c =? CSR_HTIMEDELTA) eqn:Et; [|done].
  unfold emulated_value in Ev. rewrite Et in Ev. destruct ((_ =? PRV_S) && negb (sbi_regs_from_virt regs)); [|done].
  unfold SET_RD. by rewrite Ed.
Qed.
End Correct.

(** A guest supervisor reads the time with [rdtime t0] when the hypervisor has
    enabled the counter. *)
Definition rdtime_t0 : csr_insn := CsrInsn OpRS false 5 0 CSR_TIME.
Definition counters_hart : hart := Hart [] [] (list_to_map [(CSR_MCOUNTEREN, 7); (CSR_HCOUNTEREN, 2)]).
Definition counters_features : sbi_hart_features := Features true SBI_HART_PRIV_VER_1_12 [0] 0 0 0 0 0.
Definition guest_timer : timer_state Z := Timer 8 (Some device_value) (Some clint) {[ 0 := 2 ^ 64 - 400 ]}.

Lemma csr_emulation_correct_witness : exists regs',
  @sbi_illegal_insn_handler hw_full (fun _ => false) counters_features Z (fun _ _ => 1000) 0 unit (fun _ _ => inl 0) tt
    (Regs (replicate 32 7) 0x1000 (Z.lor MSTATUS_MPV (2 ^ 11))) (TrapInfo 2 (csr_encode rdtime_t0) 0 0 0) guest_timer 0 counters_hart
  = Some ((0, regs', guest_timer), counters_hart) /\ get_reg regs' 5 = 600 /\ regs'.(mepc) = 0x1004.
Proof.
  eexists. split.
  - etransitivity.
    + apply (@csr_emulation_correct hw_full (fun _ => false) counters_features Z (fun _ _ => 1000) 0 unit (fun _ _ => inl 0) rdtime_t0).
      * repeat split; discriminate.
      * repeat (apply Forall_cons; split; [split; [split; reflexivity|split; [discriminate|reflexivity]]|]). apply Forall_nil. exact I.
      * left. reflexivity.
      * intros old E. vm_compute in E. injection E as <-. split; [discriminate|reflexivity].
      * left. reflexivity.
    + vm_compute. reflexivity.
  - vm_compute. split; reflexivity.
Defined.
