(* ===== verification/VecLdst.v ===== *)
(** * Emulation of misaligned vector loads and stores (lib/sbi/sbi_trap_v_ldst.c,
    the vector macros of include/sbi/riscv_encoding.h; 64-bit, with vector
    support).

    The vector unit is hardware: [vunit] has its registers and the CSRs that the
    emulators read and write, [vsetvl], [vle8] and [vse8] are the instructions
    they run in machine mode, as the vector specification has them.  [VHw] is
    what that specification leaves to the hart: the vector length chosen when
    more elements are asked for than fit, and the types that are supported.
    [None] is an access outside of the buffers of the emulator, or a trap of the
    fetch, after which the emulators go on with an instruction they do not have.

    [VecProps] has the effect of the loops, [VecCorrect] the instructions of the
    vector specification and the proof that the emulators do what they say. *)

From S2P Require Import Prelude SbiTypes Bitops Domain Csr Pmp PmpProps HartFeat Trap TrapLdst TrapStore Timer IllegalInsn.

Local Open Scope Z_scope.

(** ** Instruction fields *)

Definition VLEN_MAX : Z := 65536.

Definition VM_MASK : Z := 0x1.
Definition VIEW_MASK : Z := 0x3.
Definition VSEW_MASK : Z := 0x3.
Definition VLMUL_MASK : Z := 0x7.
Definition VD_MASK : Z := 0x1f.
Definition VS2_MASK : Z := 0x1f.
Definition SH_VSEW : Z := 3.
Definition SH_VIEW : Z := 12.
Definition SH_VD : Z := 7.
Definition SH_VS2 : Z := 20.
Definition SH_VM : Z := 25.
Definition SH_MEW : Z := 28.

Definition GET_RS1 (insn : Z) (regs : sbi_trap_regs) : Z := get_reg regs (REG_PTR insn SH_RS1).
Definition IS_MASKED (insn : Z) : bool := Z.land (Z.shiftr insn SH_VM) VM_MASK =? 0.
Definition GET_VD (insn : Z) : Z := Z.land (Z.shiftr insn SH_VD) VD_MASK.
Definition GET_VS2 (insn : Z) : Z := Z.land (Z.shiftr insn SH_VS2) VS2_MASK.
Definition GET_VIEW (insn : Z) : Z := Z.land (Z.shiftr insn SH_VIEW) VIEW_MASK.
Definition GET_MEW (insn : Z) : Z := Z.land (Z.shiftr insn SH_MEW) 1.
Definition GET_VSEW (vtype : Z) : Z := Z.land (Z.shiftr vtype SH_VSEW) VSEW_MASK.
Definition GET_VLMUL (vtype : Z) : Z := Z.land vtype VLMUL_MASK.
Definition GET_LEN (view : Z) : Z := Z.shiftl 1 view.
Definition GET_NF (insn : Z) : Z := 1 + Z.land (Z.shiftr insn 29) 7.
Definition GET_VEMUL (vlmul view vsew : Z) : Z := Z.land (vlmul + view - vsew) 7.
Definition GET_EMUL (vemul : Z) : Z := Z.shiftl 1 (if 4 <=? vemul then 0 else vemul).

(** ** Which instruction it is *)

Definition INSN_MASK_VECTOR_UNIT_STRIDE : Z := 0xfdf0707f.
Definition INSN_MASK_VECTOR_FAULT_ONLY_FIRST : Z := 0xfdf0707f.
Definition INSN_MASK_VECTOR_STRIDE : Z := 0xfc00707f.
Definition INSN_MASK_VECTOR_WHOLE_REG : Z := 0xfff0707f.
Definition INSN_MASK_VECTOR_INDEXED : Z := 0xfc00707f.

(** The segment forms differ in the bits that name the kind of access. *)
Definition insn_match_seg (base n bits : Z) : Z :=
  Z.lor (Z.lor (Z.shiftl (n - 1) 29) base) (Z.shiftl (if bits =? 16 then 5 else if bits =? 32 then 6 else 7) 12).
Definition INSN_MATCH_VLUXSEG : Z -> Z -> Z := insn_match_seg 0x04000007.
Definition INSN_MATCH_VSUXSEG : Z -> Z -> Z := insn_match_seg 0x04000027.
Definition INSN_MATCH_VLOXSEG : Z -> Z -> Z := insn_match_seg 0x0c000007.
Definition INSN_MATCH_VSOXSEG : Z -> Z -> Z := insn_match_seg 0x0c000027.
Definition INSN_MATCH_VLSSEG : Z -> Z -> Z := insn_match_seg 0x08000007.
Definition INSN_MATCH_VSSSEG : Z -> Z -> Z := insn_match_seg 0x08000027.
Definition INSN_MATCH_VSSEG : Z -> Z -> Z := insn_match_seg 0x00004027.
Definition INSN_MATCH_VLSEG : Z -> Z -> Z := insn_match_seg 0x00004007.
Definition INSN_MATCH_VLSEGFF : Z -> Z -> Z := insn_match_seg 0x1000007.

Definition IS_VECTOR_INSN_MATCH (insn match_ mask : Z) : bool := Z.land insn mask =? Z.land match_ mask.
Definition IS_UNIT_STRIDE_MATCH (insn match_ : Z) : bool := IS_VECTOR_INSN_MATCH insn match_ INSN_MASK_VECTOR_UNIT_STRIDE.
Definition IS_STRIDE_MATCH (insn match_ : Z) : bool := IS_VECTOR_INSN_MATCH insn match_ INSN_MASK_VECTOR_STRIDE.
Definition IS_INDEXED_MATCH (insn match_ : Z) : bool := IS_VECTOR_INSN_MATCH insn match_ INSN_MASK_VECTOR_INDEXED.
Definition IS_FAULT_ONLY_FIRST_MATCH (insn match_ : Z) : bool := IS_VECTOR_INSN_MATCH insn match_ INSN_MASK_VECTOR_FAULT_ONLY_FIRST.
Definition IS_WHOLE_REG_MATCH (insn match_ : Z) : bool := IS_VECTOR_INSN_MATCH insn match_ INSN_MASK_VECTOR_WHOLE_REG.

(** The segment forms of two to eight fields, of 16, 32 and 64 bits. *)
Definition segs (m : Z -> Z -> Z) : list Z := flat_map (fun bits => map (fun n => m n bits) [2; 3; 4; 5; 6; 7; 8]) [16; 32; 64].

Definition IS_UNIT_STRIDE_LOAD (insn : Z) : bool :=
  existsb (IS_UNIT_STRIDE_MATCH insn) ([0x00005007; 0x00006007; 0x00007007] ++ segs INSN_MATCH_VLSEG).
Definition IS_UNIT_STRIDE_STORE (insn : Z) : bool :=
  existsb (IS_UNIT_STRIDE_MATCH insn) ([0x00005027; 0x00006027; 0x00007027] ++ segs INSN_MATCH_VSSEG).
Definition IS_STRIDE_LOAD (insn : Z) : bool :=
  existsb (IS_STRIDE_MATCH insn) ([0x08005007; 0x08006007; 0x08007007] ++ segs INSN_MATCH_VLSSEG).
Definition IS_STRIDE_STORE (insn : Z) : bool :=
  existsb (IS_STRIDE_MATCH insn) ([0x08005027; 0x08006027; 0x08007027] ++ segs INSN_MATCH_VSSSEG).
Definition IS_INDEXED_LOAD (insn : Z) : bool :=
  existsb (IS_INDEXED_MATCH insn) ([0x0c005007; 0x0c006007; 0x0c007007; 0x04005007; 0x04006007; 0x04007007]
    ++ segs INSN_MATCH_VLUXSEG ++ segs INSN_MATCH_VLOXSEG).
Definition IS_INDEXED_STORE (insn : Z) : bool :=
  existsb (IS_INDEXED_MATCH insn) ([0x04005027; 0x04006027; 0x04007027; 0x0c005027; 0x0c006027; 0x0c007027]
    ++ segs INSN_MATCH_VSUXSEG ++ segs INSN_MATCH_VSOXSEG).
Definition IS_FAULT_ONLY_FIRST_LOAD (insn : Z) : bool :=
  existsb (IS_FAULT_ONLY_FIRST_MATCH insn) ([0x01005007; 0x01006007; 0x01007007] ++ segs INSN_MATCH_VLSEGFF).
Definition IS_WHOLE_REG_LOAD (insn : Z) : bool :=
  existsb (IS_WHOLE_REG_MATCH insn)
    [0x02800007; 0x02805007; 0x02806007; 0x02807007; 0x22800007; 0x22805007; 0x22806007; 0x22807007;
     0x62800007; 0x62805007; 0x62806007; 0x62807007; 0xe2800007; 0xe2805007; 0xe2806007; 0xe2807007].
Definition IS_WHOLE_REG_STORE (insn : Z) : bool :=
  existsb (IS_WHOLE_REG_MATCH insn) [0x02800027; 0x22800027; 0x62800027; 0xe2800027].

(** ** The vector unit *)

(** The 32 registers one after the other, [v_lenb] bytes each. *)
Record vunit := VUnit { v_lenb : Z; v_vl : Z; v_type : Z; v_start : Z; v_regs : list Z }.

Class VHw := { v_set : Z -> Z -> Z; v_supported : Z -> bool }.

(** The vector length is the one asked for when that fits. *)
Definition v_set_fits (vh : VHw) : Prop := forall avl vlmax, 0 <= avl <= vlmax -> v_set avl vlmax = avl.

Definition VLMAX (vlenb vtype : Z) : Z :=
  let vlmul := GET_VLMUL vtype in
  let vsew := GET_VSEW vtype in
  if vlmul <? 4 then Z.shiftr (Z.shiftl vlenb vlmul) vsew else Z.shiftr vlenb (8 - vlmul + vsew).

(** [e8, m8, tu, ma] *)
Definition VTYPE_E8M8 : Z := 0x83.
Definition VTYPE_VILL : Z := 2 ^ 63.

Section VectorUnit.
Context {vh : VHw}.

(** Every configuration instruction sets [vstart] to zero. *)
Definition vsetvl (avl vtype : Z) (u : vunit) : vunit :=
  if v_supported vtype then VUnit u.(v_lenb) (v_set avl (VLMAX u.(v_lenb) vtype)) vtype 0 u.(v_regs)
  else VUnit u.(v_lenb) 0 VTYPE_VILL 0 u.(v_regs).

Definition vsetvli_e8m8 (avl : Z) (u : vunit) : vunit :=
  VUnit u.(v_lenb) (v_set avl (8 * u.(v_lenb))) VTYPE_E8M8 0 u.(v_regs).

(** [vstart] has the bits of an element index. *)
Definition write_vstart (v : Z) (u : vunit) : vunit :=
  VUnit u.(v_lenb) u.(v_vl) u.(v_type) (v `mod` (8 * u.(v_lenb))) u.(v_regs).

Definition with_regs (u : vunit) (regs : list Z) : vunit := VUnit u.(v_lenb) u.(v_vl) u.(v_type) 0 regs.

(** [vle8.v v(8 g), (src - off)]: the elements from [vstart] up to [vl]. *)
Definition vle8 (g : Z) (src : list Z) (off : Z) (u : vunit) : option vunit :=
  let n := u.(v_vl) - u.(v_start) in
  if n <=? 0 then Some (with_regs u u.(v_regs))
  else if (u.(v_start) <? off) || (Z.of_nat (length src) <? u.(v_vl) - off) then None
  else Some (with_regs u (list_inserts (Z.to_nat (g * (8 * u.(v_lenb)) + u.(v_start)))
                            (take (Z.to_nat n) (drop (Z.to_nat (u.(v_start) - off)) src)) u.(v_regs))).

Definition vse8 (g : Z) (dst : list Z) (off : Z) (u : vunit) : option (list Z * vunit) :=
  let n := u.(v_vl) - u.(v_start) in
  if n <=? 0 then Some (dst, with_regs u u.(v_regs))
  else if (u.(v_start) <? off) || (Z.of_nat (length dst) <? u.(v_vl) - off) then None
  else Some (list_inserts (Z.to_nat (u.(v_start) - off))
               (take (Z.to_nat n) (drop (Z.to_nat (g * (8 * u.(v_lenb)) + u.(v_start))) u.(v_regs))) dst,
             with_regs u u.(v_regs)).

(** ** Access to the registers *)

Definition set_vreg (vlenb which pos size : Z) (bytes : list Z) (u : vunit) : option vunit :=
  let pos := u64 (pos + (which `mod` 8) * vlenb) in
  let u := write_vstart pos (vsetvli_e8m8 (u64 (pos + size)) u) in
  let g := which / 8 in
  if g <? 4 then vle8 g bytes pos u else Some u.

Definition get_vreg (vlenb which pos size : Z) (bytes : list Z) (u : vunit) : option (list Z * vunit) :=
  let pos := u64 (pos + (which `mod` 8) * vlenb) in
  let u := write_vstart pos (vsetvli_e8m8 (u64 (pos + size)) u) in
  let g := which / 8 in
  if g <? 4 then vse8 g bytes pos u else Some (bytes, u).
End VectorUnit.

(** ** The emulators *)

(** What an emulator computes from the instruction before its loop. *)
Record vop := VOp {
  o_vlenb : Z; o_base : Z; o_stride : Z; o_vd : Z; o_vs2 : Z; o_view : Z;
  o_len : Z; o_nf : Z; o_emul : Z;
  o_masked : bool; o_indexed : bool; o_ff : bool;
}.

(** The choice among the kinds of access: [vl], [nf], [emul], [len], [stride]. *)
Definition v_select (unit_ whole indexed : bool) (vl vlenb nf view vsew vlmul rs2 : Z) : Z * Z * Z * Z * Z :=
  let len := GET_LEN view in
  let emul := GET_EMUL (GET_VEMUL vlmul view vsew) in
  if unit_ then (vl, nf, emul, len, u64 (nf * len))
  else if whole then (Z.shiftr (u64 (nf * vlenb)) view, 1, 1, len, len)
  else if indexed then
    let len := Z.shiftl 1 vsew in
    let vemul := Z.land (vlmul + vsew - vsew) 7 in
    (vl, nf, Z.shiftl 1 (if negb (Z.land vemul 4 =? 0) then 0 else vemul), len, u64 (nf * len))
  else (vl, nf, emul, len, rs2).

Definition v_prepare (unit_ whole indexed ff : bool) (insn : Z) (regs : sbi_trap_regs) (u : vunit) : Z * vop :=
  let view := GET_VIEW insn in
  let '(vl, nf, emul, len, stride) :=
    v_select unit_ whole indexed u.(v_vl) u.(v_lenb) (GET_NF insn) view (GET_VSEW u.(v_type)) (GET_VLMUL u.(v_type))
      (GET_RS2 insn regs) in
  (vl, VOp u.(v_lenb) (GET_RS1 insn regs) stride (GET_VD insn) (GET_VS2 insn) view len nf emul (IS_MASKED insn) indexed ff).

(** [bytes[8 * sizeof(uint64_t)]] *)
Definition BYTES : Z := 64.

Section Emulators.
Context {hw : Hw} (platform : Z -> bool) (f : sbi_hart_features) {vh : VHw}.
Context {mem : Type} (lbu lhu : mem -> Z -> Z + sbi_trap_info) (sb : mem -> Z -> Z -> mem + sbi_trap_info).

(** What the destination of a load that trapped holds. *)
Context (junk : Z -> Z).

Definition v_active (o : vop) (mask : list Z) (vstart : Z) : option bool :=
  if negb o.(o_masked) then Some true
  else b ← mask !! Z.to_nat (vstart / 8); Some (negb (Z.land (Z.shiftr b (vstart `mod` 8)) 1 =? 0)).

(** The address of an element; an index is read from the registers. *)
Definition v_addr (o : vop) (vstart : Z) (u : vunit) : option (Z * vunit) :=
  if o.(o_indexed) then
    '(offset, u) ← get_vreg o.(o_vlenb) o.(o_vs2) (u64 (Z.shiftl vstart o.(o_view))) (Z.shiftl 1 o.(o_view)) (replicate 8 0) u;
    Some (u64 (o.(o_base) + le_value offset), u)
  else Some (u64 (o.(o_base) + vstart * o.(o_stride)), u).

(** [for (i = 0; i < len; i++)]: the buffer and [vl], or the trap of byte [i]. *)
Fixpoint v_ld_bytes (n : nat) (i : Z) (o : vop) (m : mem) (addr seg vstart : Z) (bytes : list Z) (vl : Z)
    : (list Z * Z) + (Z * sbi_trap_info) :=
  match n with
  | O => inl (bytes, vl)
  | S n =>
      let k := Z.to_nat (seg * o.(o_len) + i) in
      let a := u64 (addr + seg * o.(o_len) + i) in
      match lbu m a with
      | inl b => v_ld_bytes n (i + 1) o m addr seg vstart (<[k := b]> bytes) vl
      | inr t => if o.(o_ff) && negb (vstart =? 0) then inl (<[k := junk a]> bytes, vstart) else inr (i, t)
      end
  end.

Fixpoint v_ld_segs (n : nat) (seg : Z) (o : vop) (m : mem) (addr vstart : Z) (bytes : list Z) (vl : Z)
    : (list Z * Z) + (Z * sbi_trap_info) :=
  match n with
  | O => inl (bytes, vl)
  | S n =>
      match v_ld_bytes (Z.to_nat o.(o_len)) 0 o m addr seg vstart bytes vl with
      | inr e => inr e
      | inl (bytes, vl) => v_ld_segs n (seg + 1) o m addr vstart bytes vl
      end
  end.

Fixpoint v_set_segs (n : nat) (seg : Z) (o : vop) (vstart : Z) (bytes : list Z) (u : vunit) : option vunit :=
  match n with
  | O => Some u
  | S n =>
      u ← set_vreg o.(o_vlenb) (o.(o_vd) + seg * o.(o_emul)) (u64 (vstart * o.(o_len))) o.(o_len)
            (drop (Z.to_nat (seg * o.(o_len))) bytes) u;
      v_set_segs n (seg + 1) o vstart bytes u
  end.

(** One round of the loop. *)
Definition v_ld_elem (o : vop) (mask : list Z) (m : mem) (vstart vl : Z) (bytes : list Z) (u : vunit)
    : option ((list Z * Z) + (Z * sbi_trap_info)) * vunit :=
  match v_active o mask vstart with
  | None => (None, u)
  | Some false => (Some (inl (bytes, vl)), u)
  | Some true =>
      match v_addr o vstart u with
      | None => (None, u)
      | Some (addr, u) =>
          let u := write_vstart vstart u in
          match v_ld_segs (Z.to_nat o.(o_nf)) 0 o m addr vstart bytes vl with
          | inr e => (Some (inr e), u)
          | inl (bytes, vl) =>
              match v_set_segs (Z.to_nat o.(o_nf)) 0 o vstart bytes u with
              | None => (None, u)
              | Some u => (Some (inl (bytes, vl)), u)
              end
          end
      end
  end.

(** [do ... while (++vstart < vl)]: [vl] at the end, or the trap; [vl] only
    decreases, so that as many rounds as [vl] says are enough. *)
Fixpoint v_ld_loop (fuel : nat) (o : vop) (mask : list Z) (m : mem) (vstart vl : Z) (bytes : list Z) (u : vunit)
    : option (Z * option (Z * sbi_trap_info) * vunit) :=
  match v_ld_elem o mask m vstart vl bytes u with
  | (None, _) => None
  | (Some (inr e), u) => Some (vl, Some e, u)
  | (Some (inl (bytes, vl)), u) =>
      if vstart + 1 <? vl then
        match fuel with O => None | S fuel => v_ld_loop fuel o mask m (vstart + 1) vl bytes u end
      else Some (vl, None, u)
  end.

Definition v_mask (o : vop) (mask : list Z) (u : vunit) : option (list Z * vunit) :=
  if o.(o_masked) then get_vreg o.(o_vlenb) 0 0 o.(o_vlenb) mask u else Some (mask, u).

(** The end of both emulators: [vl] and [vtype] are written back, and a trap goes
    to the supervisor. *)
Definition v_finish (c : context) (orig : sbi_trap_info) (vtype vl : Z) (e : option (Z * sbi_trap_info)) (u : vunit)
    : csrM (Z * context * vunit) :=
  let u := vsetvl vl vtype u in
  match e with
  | None => mret (s32 vl, c, u)
  | Some (i, t) =>
      '(rc, c) ← redirect platform f c (with_tinst t (sbi_misaligned_tinst_fixup orig.(tinst) t.(tinst) i)); mret (rc, c, u)
  end.

Definition v_illegal (insn : Z) (c : context) (u : vunit) : csrM (Z * context * vunit) :=
  '(rc, c) ← redirect platform f c (TrapInfo CAUSE_ILLEGAL_INSTRUCTION insn 0 0 0); mret (rc, c, u).

(** The buffers [mask] and [bytes] are on the stack: what they hold at first is
    an argument. *)
Definition sbi_misaligned_v_ld_emulator (mask bytes : list Z) (m : mem) (c : context) (trap : sbi_trap_info) (u : vunit)
    : csrM (Z * context * vunit) :=
  match sbi_get_insn lhu m c.(cregs).(mepc) with
  | inr _ => sbi_panic
  | inl insn =>
      let '(vl, o) := v_prepare (IS_UNIT_STRIDE_LOAD insn || IS_FAULT_ONLY_FIRST_LOAD insn) (IS_WHOLE_REG_LOAD insn)
                        (IS_INDEXED_LOAD insn) (IS_FAULT_ONLY_FIRST_LOAD insn) insn c.(cregs) u in
      if negb (GET_MEW insn =? 0) || (VLEN_MAX / 8 <? u.(v_lenb)) then v_illegal insn c u
      else
        match v_mask o mask u with
        | None => sbi_panic
        | Some (mask, u') =>
            match v_ld_loop (Z.to_nat vl) o mask m u.(v_start) vl bytes u' with
            | None => sbi_panic
            | Some (vl, e, u') => v_finish c trap u.(v_type) vl e u'
            end
        end
  end.

(** Stores. *)
Fixpoint v_get_segs (n : nat) (seg : Z) (o : vop) (vstart : Z) (bytes : list Z) (u : vunit) : option (list Z * vunit) :=
  match n with
  | O => Some (bytes, u)
  | S n =>
      let k := Z.to_nat (seg * o.(o_len)) in
      '(bs, u) ← get_vreg o.(o_vlenb) (o.(o_vd) + seg * o.(o_emul)) (u64 (vstart * o.(o_len))) o.(o_len) (drop k bytes) u;
      v_get_segs n (seg + 1) o vstart (take k bytes ++ bs) u
  end.

Fixpoint v_st_bytes (n : nat) (i : Z) (o : vop) (addr seg : Z) (bytes : list Z) (m : mem) : mem * option (Z * sbi_trap_info) :=
  match n with
  | O => (m, None)
  | S n =>
      match sb m (u64 (addr + seg * o.(o_len) + i)) (default 0 (bytes !! Z.to_nat (seg * o.(o_len) + i))) with
      | inr t => (m, Some (i, t))
      | inl m => v_st_bytes n (i + 1) o addr seg bytes m
      end
  end.

Fixpoint v_st_segs (n : nat) (seg : Z) (o : vop) (addr : Z) (bytes : list Z) (m : mem) : mem * option (Z * sbi_trap_info) :=
  match n with
  | O => (m, None)
  | S n =>
      match v_st_bytes (Z.to_nat o.(o_len)) 0 o addr seg bytes m with
      | (m, Some e) => (m, Some e)
      | (m, None) => v_st_segs n (seg + 1) o addr bytes m
      end
  end.

Definition v_st_elem (o : vop) (mask : list Z) (vstart : Z) (bytes : list Z) (u : vunit) (m : mem)
    : option (list Z * vunit * mem * option (Z * sbi_trap_info)) :=
  match v_active o mask vstart with
  | None => None
  | Some false => Some (bytes, u, m, None)
  | Some true =>
      '(addr, u) ← v_addr o vstart u;
      '(bytes, u) ← v_get_segs (Z.to_nat o.(o_nf)) 0 o vstart bytes u;
      let u := write_vstart vstart u in
      let '(m, e) := v_st_segs (Z.to_nat o.(o_nf)) 0 o addr bytes m in
      Some (bytes, u, m, e)
  end.

Fixpoint v_st_loop (fuel : nat) (o : vop) (mask : list Z) (vstart vl : Z) (bytes : list Z) (u : vunit) (m : mem)
    : option (option (Z * sbi_trap_info) * vunit * mem) :=
  match v_st_elem o mask vstart bytes u m with
  | None => None
  | Some (_, u, m, Some e) => Some (Some e, u, m)
  | Some (bytes, u, m, None) =>
      if vstart + 1 <? vl then
        match fuel with O => None | S fuel => v_st_loop fuel o mask (vstart + 1) vl bytes u m end
      else Some (None, u, m)
  end.

Definition sbi_misaligned_v_st_emulator (mask bytes : list Z) (m : mem) (c : context) (trap : sbi_trap_info) (u : vunit)
    : csrM (Z * context * vunit * mem) :=
  match sbi_get_insn lhu m c.(cregs).(mepc) with
  | inr _ => sbi_panic
  | inl insn =>
      let '(vl, o) := v_prepare (IS_UNIT_STRIDE_STORE insn) (IS_WHOLE_REG_STORE insn) (IS_INDEXED_STORE insn) false
                        insn c.(cregs) u in
      if negb (GET_MEW insn =? 0) || (VLEN_MAX / 8 <? u.(v_lenb)) then '(r, u) ← v_illegal insn c u; mret (r, u, m)
      else
        match v_mask o mask u with
        | None => sbi_panic
        | Some (mask, u') =>
            match v_st_loop (Z.to_nat vl) o mask u.(v_start) vl bytes u' m with
            | None => sbi_panic
            | Some (e, u', m) => '(r, u) ← v_finish c trap u.(v_type) vl e u'; mret (r, u, m)
            end
        end
  end.
End Emulators.
