(* ===== verification/VecProps.v ===== *)
(** * Correctness of the emulation of misaligned vector loads and stores
    (lib/sbi/sbi_trap_v_ldst.c).

    For the operation of one instruction ([vop]): [loaded] is what a load leaves in
    the vector registers, byte by byte, [store_writes] the bytes a store writes in
    their order, and the loops of the emulators are shown to do that, up to the
    first access that traps. *)

From S2P Require Import Prelude SbiTypes Bitops Domain Csr Pmp PmpProps HartFeat Trap TrapLdst TrapStore Timer IllegalInsn VecLdst.

Local Open Scope Z_scope.

(** ** Access to the registers *)

Section Access.
Context {vh : VHw} (Hfits : v_set_fits vh).
Context (L : Z) (HL : 0 < L <= 8192).
Local Set Default Proof Using "Type".

(** The bytes of register [w] from [pos] on, in a group of eight. *)
Definition fits (w pos size : Z) : Prop := 0 <= w < 32 /\ 0 <= pos /\ 0 < size /\ (w `mod` 8) * L + pos + size <= 8 * L.

Definition at_ (w pos : Z) : nat := Z.to_nat (w * L + pos).

Lemma fits_pos w pos size : fits w pos size -> u64 (pos + (w `mod` 8) * L) = pos + (w `mod` 8) * L /\
  0 <= pos + (w `mod` 8) * L < 8 * L /\ u64 (pos + (w `mod` 8) * L + size) = pos + (w `mod` 8) * L + size /\
  w / 8 < 4 /\ w / 8 * (8 * L) + (pos + (w `mod` 8) * L) = w * L + pos.
Proof using HL.
  intros (Hw & Hp & Hs & Hf). pose proof (Z.mod_pos_bound w 8 ltac:(lia)) as Hm. pose proof (Z.div_mod w 8 ltac:(lia)) as Ed.
  assert (0 <= (w `mod` 8) * L) by nia. split_and!; try lia; try (apply wrap_small; unfold in_range; lia).
Qed.

Lemma fits_end w pos size : fits w pos size -> w * L + pos + size <= 32 * L.
Proof using HL.
  intros (Hw & _ & _ & Hle). pose proof (Z.div_mod w 8 ltac:(lia)). pose proof (Z.mod_pos_bound w 8 ltac:(lia)). assert (w / 8 <= 3) by lia. nia.
Qed.

Lemma set_vreg_effect w pos size bytes u : fits w pos size -> u.(v_lenb) = L -> size <= Z.of_nat (length bytes) ->
  exists u', set_vreg L w pos size bytes u = Some u' /\ u'.(v_lenb) = L /\
    u'.(v_regs) = list_inserts (at_ w pos) (take (Z.to_nat size) bytes) u.(v_regs).
Proof using Hfits HL.
  intros Hf Hu Hb. destruct (fits_pos w pos size Hf) as (Ep & Hp & Es & Hg & Ea). destruct Hf as (_ & H0 & Hs & Hle).
  eexists. unfold set_vreg. rewrite Ep, Es. apply Z.ltb_lt in Hg as ->. unfold vle8, write_vstart, vsetvli_e8m8.
  cbn [v_vl v_start v_lenb v_regs]. set (p := pos + (w `mod` 8) * L) in *. rewrite Hu, Hfits, (Z.mod_small p) by lia.
  assert ((p + size - p <=? 0) = false) as -> by (apply Z.leb_gt; lia). rewrite Z.ltb_irrefl. cbn [orb].
  assert ((Z.of_nat (length bytes) <? p + size - p) = false) as -> by (apply Z.ltb_ge; lia).
  split; [reflexivity|]. split; [reflexivity|]. cbn [with_regs v_regs]. unfold at_. fold p.
  rewrite Ea, Z.sub_diag. f_equal. replace (p + size - p) with size by lia. reflexivity.
Qed.

Lemma get_vreg_effect w pos size bytes u : fits w pos size -> u.(v_lenb) = L -> size <= Z.of_nat (length bytes) ->
  length u.(v_regs) = Z.to_nat (32 * L) ->
  exists u', get_vreg L w pos size bytes u =
      Some (take (Z.to_nat size) (drop (at_ w pos) u.(v_regs)) ++ drop (Z.to_nat size) bytes, u') /\
    u'.(v_lenb) = L /\ u'.(v_regs) = u.(v_regs).
Proof using Hfits HL.
  intros Hf Hu Hb Hl. destruct (fits_pos w pos size Hf) as (Ep & Hp & Es & Hg & Ea).
  pose proof (fits_end _ _ _ Hf) as Hin.
  destruct Hf as (Hw & H0 & Hs & Hle).
  eexists. unfold get_vreg. rewrite Ep, Es. apply Z.ltb_lt in Hg as ->. unfold vse8, write_vstart, vsetvli_e8m8.
  cbn [v_vl v_start v_lenb v_regs]. set (p := pos + (w `mod` 8) * L) in *. rewrite Hu, Hfits, (Z.mod_small p) by lia.
  assert ((p + size - p <=? 0) = false) as -> by (apply Z.leb_gt; lia). rewrite Z.ltb_irrefl. cbn [orb].
  assert ((Z.of_nat (length bytes) <? p + size - p) = false) as -> by (apply Z.ltb_ge; lia).
  rewrite Ea, Z.sub_diag. replace (p + size - p) with size by lia. fold (at_ w pos).
  set (bs := take _ _). assert (length bs = Z.to_nat size) as Ebs. { unfold bs, at_. rewrite length_take, length_drop. nia. }
  enough (list_inserts (Z.to_nat 0) bs bytes = bs ++ drop (Z.to_nat size) bytes) as -> by (split; [reflexivity|split; reflexivity]).
  rewrite <- Ebs. apply list_eq. intros i. destruct (decide (i < length bs)%nat) as [Hi|Hi].
  - rewrite lookup_app_l by done. change (Z.to_nat 0) with 0%nat.
    rewrite list_lookup_inserts by lia. by rewrite Nat.sub_0_r.
  - rewrite lookup_app_r, lookup_drop by lia. change (Z.to_nat 0) with 0%nat. rewrite list_lookup_inserts_ge by lia. f_equal. lia.
Qed.
End Access.

(** ** What a load leaves in the registers *)

Section Merge.
Context (L vd span len : Z) (HL : 0 < L) (Hvd : 0 <= vd) (Hspan : 0 < span) (Hlen : 0 < len).
Context (B : Z -> Z -> Z -> Z).
Local Set Default Proof Using "Type".

(** The field, the element and the byte of it that byte [k] of the registers
    belongs to: field [s] is in the [span] registers from [vd + s * span] on. *)
Definition field_of (k : Z) : Z := (k - vd * L) / (span * L).
Definition elem_of (k : Z) : Z := (k - vd * L) `mod` (span * L) / len.
Definition byte_in (k : Z) : Z := (k - vd * L) `mod` (span * L) `mod` len.

(** The registers [R] with the bytes [B] of the elements in [D]. *)
Definition merge (D : Z -> Z -> bool) (R : list Z) : list Z :=
  imap (fun i b => let k := Z.of_nat i in
          if (vd * L <=? k) && D (field_of k) (elem_of k) then B (field_of k) (elem_of k) (byte_in k) else b) R.

Lemma merge_length D R : length (merge D R) = length R.
Proof. apply length_imap. Qed.

Lemma merge_ext D D' R : (forall s e, 0 <= s -> 0 <= e -> D s e = D' s e) -> merge D R = merge D' R.
Proof using HL Hspan Hlen.
  intros H. unfold merge. apply imap_ext. intros i b Hi. destruct (Z.leb_spec (vd * L) (Z.of_nat i)) as [Hk|Hk]; [|done].
  rewrite H; [done|unfold field_of; apply Z.div_pos; nia|].
  unfold elem_of. apply Z.div_pos; [|lia]. apply Z.mod_pos_bound. nia.
Qed.

Lemma merge_none D R : (forall s e, 0 <= s -> 0 <= e -> D s e = false) -> merge D R = R.
Proof using HL Hspan Hlen.
  intros H. rewrite (merge_ext D (fun _ _ => false)) by done. unfold merge. apply list_eq. intros i. rewrite list_lookup_imap.
  destruct (R !! i); cbn; [|done]. by rewrite andb_false_r.
Qed.

Lemma place k s e i : 0 <= s -> 0 <= e -> e * len + len <= span * L -> 0 <= i < len ->
  k = (vd + s * span) * L + e * len + i -> field_of k = s /\ elem_of k = e /\ byte_in k = i.
Proof using HL Hspan Hlen.
  intros Hs He Hf Hi ->. unfold field_of, elem_of, byte_in.
  replace ((vd + s * span) * L + e * len + i - vd * L) with ((e * len + i) + s * (span * L)) by ring.
  assert (0 <= e * len + i < span * L) by nia. rewrite Z.div_add, Z.mod_add, (Z.div_small (e * len + i)), (Z.mod_small (e * len + i) (span * L)) by nia.
  split; [done|]. rewrite (Z.add_comm (e * len)), Z.div_add, Z.mod_add, Z.div_small, Z.mod_small by lia. done.
Qed.

Lemma placed k : vd * L <= k -> k = (vd + field_of k * span) * L + elem_of k * len + byte_in k /\ 0 <= byte_in k < len.
Proof using HL Hspan Hlen.
  intros Hk. unfold field_of, elem_of, byte_in. pose proof (Z.div_mod (k - vd * L) (span * L) ltac:(nia)) as E1.
  pose proof (Z.div_mod ((k - vd * L) `mod` (span * L)) len ltac:(lia)) as E2.
  split; [|apply Z.mod_pos_bound; lia]. set (q := (k - vd * L) `mod` (span * L)) in *. nia.
Qed.

Lemma merge_insert D R s e bs : 0 <= s -> 0 <= e -> e * len + len <= span * L -> Z.of_nat (length bs) = len ->
  (forall i b, bs !! i = Some b -> b = B s e (Z.of_nat i)) ->
  list_inserts (Z.to_nat ((vd + s * span) * L + e * len)) bs (merge D R) =
  merge (fun s' e' => D s' e' || ((s' =? s) && (e' =? e))) R.
Proof using HL Hspan Hlen Hvd.
  intros Hs He Hf Hb Hbs. apply list_eq. intros j. set (idx := (vd + s * span) * L + e * len).
  assert (0 <= idx) by (unfold idx; nia). destruct (decide (length R <= j)%nat) as [Hj|Hj].
  { rewrite !lookup_ge_None_2; [done|by rewrite merge_length|by rewrite length_inserts, merge_length]. }
  destruct (R !! j) as [b|] eqn:Ej; [|apply lookup_ge_None_1 in Ej; lia].
  destruct (decide (Z.to_nat idx <= j < Z.to_nat idx + length bs)%nat) as [Hin|Hout].
  - rewrite list_lookup_inserts by (rewrite ?merge_length; lia). unfold merge. rewrite list_lookup_imap, Ej. cbn [fmap option_fmap option_map].
    destruct (place (Z.of_nat j) s e (Z.of_nat j - idx)) as (-> & -> & ->); [done|done|done|lia|unfold idx; lia|].
    rewrite !Z.eqb_refl, orb_true_r. assert ((vd * L <=? Z.of_nat j) = true) as -> by (apply Z.leb_le; unfold idx in *; nia). cbn [andb].
    destruct (bs !! (j - Z.to_nat idx)%nat) as [b'|] eqn:Eb; [|apply lookup_ge_None_1 in Eb; lia].
    rewrite (Hbs _ _ Eb). do 2 f_equal. lia.
  - assert (list_inserts (Z.to_nat idx) bs (merge D R) !! j = merge D R !! j) as ->.
    { destruct (decide (j < Z.to_nat idx)%nat); [by apply list_lookup_inserts_lt|apply list_lookup_inserts_ge; lia]. }
    unfold merge. rewrite !list_lookup_imap, Ej. cbn [fmap option_fmap option_map].
    destruct (Z.leb_spec (vd * L) (Z.of_nat j)) as [Hk|Hk]; [|done]. cbn [andb].
    assert ((field_of (Z.of_nat j) =? s) && (elem_of (Z.of_nat j) =? e) = false) as ->; [|by rewrite orb_false_r].
    apply andb_false_iff. rewrite !Z.eqb_neq. destruct (placed (Z.of_nat j) Hk) as (Ek & Hi).
    destruct (Z.eq_dec (field_of (Z.of_nat j)) s) as [E1|]; [|by left]. right. intros E2. rewrite E1, E2 in Ek. unfold idx in *. lia.
Qed.
End Merge.

(** ** The operation of one instruction *)

(** An access of [count] elements whose fields are in [span] registers each. *)
Record vop_ok (o : vop) (span count : Z) : Prop := {
  ok_L : 0 < o.(o_vlenb) <= 8192;
  ok_len : 0 < o.(o_len) <= 8;
  ok_nf : 1 <= o.(o_nf) <= 8;
  ok_span : 0 < span;
  ok_emul : o.(o_nf) = 1 \/ o.(o_emul) = span;
  ok_vd : 0 <= o.(o_vd);
  ok_group s : 0 <= s < o.(o_nf) -> o.(o_vd) + s * span < 32 /\ (o.(o_vd) + s * span) `mod` 8 + span <= 8;
  ok_count : 0 < count /\ count * o.(o_len) <= span * o.(o_vlenb);
  ok_view : 0 <= o.(o_view) <= 3;
  ok_index e : o.(o_indexed) = true -> 0 <= e < count ->
    fits o.(o_vlenb) o.(o_vs2) (e * 2 ^ o.(o_view)) (2 ^ o.(o_view));
}.

(** No byte of the index of an element is overwritten by an element before it. *)
Definition index_apart (o : vop) (span count : Z) : Prop :=
  o.(o_indexed) = true -> forall e k, 0 <= e < count ->
  o.(o_vs2) * o.(o_vlenb) + e * 2 ^ o.(o_view) <= k < o.(o_vs2) * o.(o_vlenb) + (e + 1) * 2 ^ o.(o_view) ->
  o.(o_vd) * o.(o_vlenb) <= k -> field_of o.(o_vlenb) o.(o_vd) span k < o.(o_nf) ->
  e <= elem_of o.(o_vlenb) o.(o_vd) span o.(o_len) k.

(** The address of element [e], with the registers [R]. *)
Definition elem_addr (o : vop) (R : list Z) (e : Z) : Z :=
  if o.(o_indexed) then
    u64 (o.(o_base) + word_of (take (Z.to_nat (2 ^ o.(o_view))) (drop (Z.to_nat (o.(o_vs2) * o.(o_vlenb) + e * 2 ^ o.(o_view))) R)))
  else u64 (o.(o_base) + e * o.(o_stride)).

Definition byte_addr (o : vop) (R : list Z) (s e i : Z) : Z := u64 (elem_addr o R e + s * o.(o_len) + i).

(** Whether element [e] is active: register 0 is the mask. *)
Definition mask_bit (R : list Z) (e : Z) : bool := Z.testbit (default 0 (R !! Z.to_nat (e / 8))) (e `mod` 8).
Definition active (o : vop) (R : list Z) (e : Z) : bool := negb o.(o_masked) || mask_bit R e.

Lemma word_of_zeros bs n : word_of (bs ++ replicate n 0) = word_of bs.
Proof.
  induction bs as [|b bs IH]; cbn [app word_of]; [|by rewrite IH]. induction n as [|n IH]; cbn [replicate word_of]; [done|]. by rewrite IH.
Qed.

Lemma land1_testbit x n : 0 <= n -> negb (Z.land (Z.shiftr x n) 1 =? 0) = Z.testbit x n.
Proof.
  intros Hn. rewrite (Z.land_ones _ 1) by lia. pose proof (Z.shiftr_spec x n 0 ltac:(lia)) as E. rewrite Z.add_0_l in E. rewrite <- E.
  rewrite Z.bit0_odd, Zmod_odd. by destruct (Z.odd _).
Qed.

Section Operation.
Context {vh : VHw} (Hfits : v_set_fits vh).
Context {mem : Type} (lbu : mem -> Z -> Z + sbi_trap_info) (sb : mem -> Z -> Z -> mem + sbi_trap_info) (junk : Z -> Z).
Context (o : vop) (span count : Z) (Hok : vop_ok o span count).
Local Set Default Proof Using "Type".
Abbreviation L := o.(o_vlenb).
Abbreviation len := o.(o_len).

Lemma field_fits s e : 0 <= s < o.(o_nf) -> 0 <= e < count ->
  fits L (o.(o_vd) + s * o.(o_emul)) (e * len) len /\ o.(o_vd) + s * o.(o_emul) = o.(o_vd) + s * span /\ e * len + len <= span * L /\
  u64 (e * len) = e * len.
Proof using Hok.
  intros Hs He. destruct (ok_group o span count Hok s Hs) as [Hw Hg]. destruct (ok_count o span count Hok) as [_ Hc].
  pose proof (ok_L o span count Hok). pose proof (ok_len o span count Hok). pose proof (ok_span o span count Hok). pose proof (ok_vd o span count Hok).
  assert (o.(o_vd) + s * o.(o_emul) = o.(o_vd) + s * span) as ->.
  { destruct (ok_emul o span count Hok) as [E| ->]; [|done]. assert (s = 0) as -> by lia. lia. }
  assert (e * len + len <= span * L) by nia. pose proof (Z.mod_pos_bound (o.(o_vd) + s * span) 8 ltac:(lia)).
  split; [|split_and!; [done|done|apply wrap_small; unfold in_range; nia]]. unfold fits. split_and!; nia.
Qed.

(** *** Loading an element *)

Lemma ld_bytes_ok n i m addr seg vs bytes vl (Bf : Z -> Z) : 0 <= i -> 0 <= seg ->
  (forall j, i <= j < i + Z.of_nat n -> lbu m (u64 (addr + seg * len + j)) = inl (Bf j)) ->
  seg * len + i + Z.of_nat n <= Z.of_nat (length bytes) -> 0 < len ->
  exists bytes', v_ld_bytes lbu junk n i o m addr seg vs bytes vl = inl (bytes', vl) /\ length bytes' = length bytes /\
    forall j, bytes' !! j = if decide (seg * len + i <= Z.of_nat j < seg * len + i + Z.of_nat n)
                            then Some (Bf (Z.of_nat j - seg * len)) else bytes !! j.
Proof.
  intros Hi Hs Hr Hl Hlen. revert i bytes Hi Hr Hl. induction n as [|n IH]; intros i bytes Hi Hr Hl; cbn [v_ld_bytes].
  - exists bytes. split_and!; [done|done|]. intros j. rewrite decide_False by lia. done.
  - rewrite (Hr i) by lia. destruct (IH (i + 1) (<[Z.to_nat (seg * len + i) := Bf i]> bytes)) as (bytes' & E & El & Eb);
      [lia|intros j Hj; apply Hr; lia|rewrite length_insert; lia|].
    exists bytes'. rewrite El, length_insert. split_and!; [done|done|]. intros j. rewrite Eb.
    destruct (decide (Z.of_nat j = seg * len + i)) as [Ej|Ej].
    + rewrite decide_False, decide_True by lia. replace (Z.to_nat (seg * len + i)) with j by lia.
      rewrite list_lookup_insert_eq by lia. f_equal. f_equal. lia.
    + rewrite list_lookup_insert_ne by lia. destruct (decide (seg * len + (i + 1) <= Z.of_nat j < _)).
      * rewrite decide_True by lia. done.
      * rewrite decide_False by lia. done.
Qed.

Lemma ld_segs_ok n seg m addr vs bytes vl (Bs : Z -> Z -> Z) : 0 <= seg -> 0 < len ->
  (forall s j, seg <= s < seg + Z.of_nat n -> 0 <= j < len -> lbu m (u64 (addr + s * len + j)) = inl (Bs s j)) ->
  (seg + Z.of_nat n) * len <= Z.of_nat (length bytes) ->
  exists bytes', v_ld_segs lbu junk n seg o m addr vs bytes vl = inl (bytes', vl) /\ length bytes' = length bytes /\
    (forall s j, seg <= s < seg + Z.of_nat n -> 0 <= j < len -> bytes' !! Z.to_nat (s * len + j) = Some (Bs s j)) /\
    (forall j, Z.of_nat j < seg * len -> bytes' !! j = bytes !! j).
Proof.
  intros Hs Hlen. revert seg bytes Hs. induction n as [|n IH]; intros seg bytes Hs Hr Hl; cbn [v_ld_segs].
  - exists bytes. split_and!; [done|done|lia|done].
  - destruct (ld_bytes_ok (Z.to_nat len) 0 m addr seg vs bytes vl (Bs seg)) as (b1 & E1 & L1 & P1); [lia|lia|intros; apply Hr; lia|nia|done|].
    rewrite E1. destruct (IH (seg + 1) b1) as (b2 & E2 & L2 & P2 & Q2); [lia|intros; apply Hr; lia|rewrite L1; lia|].
    exists b2. split_and!; [done|by rewrite L2| |].
    + intros s j Hsn Hj. destruct (Z.eq_dec s seg) as [->|Hne]; [|apply P2; lia].
      rewrite Q2 by nia. rewrite P1. rewrite decide_True by nia. f_equal. f_equal. nia.
    + intros j Hj. rewrite Q2 by nia. rewrite P1. rewrite decide_False by lia. done.
Qed.

(** The first byte that traps. *)
Lemma ld_bytes_trap n i k m addr seg vs bytes vl t : 0 <= i <= k -> k < i + Z.of_nat n ->
  (forall j, i <= j < k -> exists b, lbu m (u64 (addr + seg * len + j)) = inl b) -> lbu m (u64 (addr + seg * len + k)) = inr t ->
  if o.(o_ff) && negb (vs =? 0)
  then exists bytes', v_ld_bytes lbu junk n i o m addr seg vs bytes vl = inl (bytes', vs) /\ length bytes' = length bytes
  else v_ld_bytes lbu junk n i o m addr seg vs bytes vl = inr (k, t).
Proof.
  revert i bytes. induction n as [|n IH]; intros i bytes Hi Hn Hr Ht; [lia|]. cbn [v_ld_bytes].
  destruct (Z.eq_dec i k) as [->|Hne].
  - rewrite Ht. destruct (o_ff o && negb (vs =? 0)); [|done]. eexists. split; [done|]. apply length_insert.
  - destruct (Hr i ltac:(lia)) as (b & Eb). rewrite Eb.
    specialize (IH (i + 1) (<[Z.to_nat (seg * len + i) := b]> bytes) ltac:(lia) ltac:(lia)).
    rewrite length_insert in IH. apply IH; [|done]. intros j Hj. apply Hr. lia.
Qed.

(** A fault-only-first load goes on with the next field. *)
Lemma ld_bytes_ff n i m addr seg vs bytes vl : o.(o_ff) && negb (vs =? 0) = true ->
  exists bytes' vl', v_ld_bytes lbu junk n i o m addr seg vs bytes vl = inl (bytes', vl') /\ length bytes' = length bytes /\ (vl' = vl \/ vl' = vs).
Proof.
  intros Hff. revert i bytes. induction n as [|n IH]; intros i bytes; cbn [v_ld_bytes]; [exists bytes, vl; auto|].
  destruct (lbu m _) as [b|t]; [|rewrite Hff; do 2 eexists; split_and!; [done|apply length_insert|by right]].
  destruct (IH (i + 1) (<[Z.to_nat (seg * len + i) := b]> bytes)) as (b' & vl' & E & El & Ev). exists b', vl'. by rewrite E, El, length_insert.
Qed.

Lemma ld_segs_ff n seg m addr vs bytes vl : o.(o_ff) && negb (vs =? 0) = true ->
  exists bytes' vl', v_ld_segs lbu junk n seg o m addr vs bytes vl = inl (bytes', vl') /\ length bytes' = length bytes /\ (vl' = vl \/ vl' = vs).
Proof.
  intros Hff. revert seg bytes vl. induction n as [|n IH]; intros seg bytes vl; cbn [v_ld_segs]; [exists bytes, vl; auto|].
  destruct (ld_bytes_ff (Z.to_nat len) 0 m addr seg vs bytes vl Hff) as (b1 & v1 & -> & L1 & H1).
  destruct (IH (seg + 1) b1 v1) as (b2 & v2 & E & L2 & H2). exists b2, v2. rewrite E, L2, L1. split_and!; [done|done|].
  destruct H2 as [-> | ->]; [done|by right].
Qed.

Lemma ld_segs_trap n seg s k m addr vs bytes vl t : 0 <= seg <= s -> s < seg + Z.of_nat n -> 0 <= k < len ->
  (forall s' j, seg <= s' < s -> 0 <= j < len -> exists b, lbu m (u64 (addr + s' * len + j)) = inl b) ->
  (forall j, 0 <= j < k -> exists b, lbu m (u64 (addr + s * len + j)) = inl b) -> lbu m (u64 (addr + s * len + k)) = inr t ->
  (seg + Z.of_nat n) * len <= Z.of_nat (length bytes) ->
  if o.(o_ff) && negb (vs =? 0)
  then exists bytes', v_ld_segs lbu junk n seg o m addr vs bytes vl = inl (bytes', vs) /\ length bytes' = length bytes
  else v_ld_segs lbu junk n seg o m addr vs bytes vl = inr (k, t).
Proof.
  intros Hseg Hn Hk Hr1 Hr2 Ht. revert seg bytes Hseg Hn Hr1. induction n as [|n IH]; intros seg bytes Hseg Hn Hr1 Hl; [lia|]. cbn [v_ld_segs].
  destruct (Z.eq_dec seg s) as [->|Hne].
  - pose proof (ld_bytes_trap (Z.to_nat len) 0 k m addr s vs bytes vl t ltac:(lia) ltac:(lia) Hr2 Ht) as H.
    destruct (o_ff o && negb (vs =? 0)) eqn:Eff; [|by rewrite H]. destruct H as (b1 & -> & L1).
    destruct (ld_segs_ff n (s + 1) m addr vs b1 vs Eff) as (b2 & v2 & -> & L2 & H2). exists b2. rewrite L2, L1. by destruct H2 as [-> | ->].
  - set (val := fun j => match lbu m (u64 (addr + seg * len + j)) with inl b => b | inr _ => 0 end).
    destruct (ld_bytes_ok (Z.to_nat len) 0 m addr seg vs bytes vl val) as (b1 & E1 & L1 & _); [lia|lia| |nia|lia|].
    { intros j Hj. destruct (Hr1 seg j ltac:(lia) ltac:(lia)) as (b & Eb). unfold val. by rewrite Eb. }
    rewrite E1. specialize (IH (seg + 1) b1 ltac:(lia) ltac:(lia)). rewrite L1 in IH. apply IH; [|lia]. intros s' j Hs' Hj. apply Hr1; lia.
Qed.

Context (R : list Z) (HR : length R = Z.to_nat (32 * o.(o_vlenb))).

Lemma active_ok mask e : (o.(o_masked) = true -> mask = take (Z.to_nat L) R ++ drop (Z.to_nat L) mask) -> 0 <= e < count ->
  v_active o mask e = Some (active o R e).
Proof using Hok HR.
  intros Hm He. unfold v_active, active, mask_bit. destruct (o_masked o); cbn [negb orb]; [|done].
  destruct (ok_count o span count Hok) as [_ Hc]. pose proof (ok_L o span count Hok). pose proof (ok_len o span count Hok).
  destruct (ok_group o span count Hok 0) as [_ Hg]; [pose proof (ok_nf o span count Hok); lia|].
  pose proof (Z.mod_pos_bound (o.(o_vd) + 0 * span) 8 ltac:(lia)). assert (e < 8 * L) by nia. pose proof (Z.div_pos e 8 ltac:(lia) ltac:(lia)).
  assert (e / 8 < L) by (apply Z.div_lt_upper_bound; lia). rewrite Hm by done.
  rewrite lookup_app_l, lookup_take_lt by (rewrite ?length_take; lia).
  destruct (R !! Z.to_nat (e / 8)) as [b|] eqn:E; [|apply lookup_ge_None_1 in E; lia]. cbn [mbind option_bind default].
  rewrite land1_testbit; [done|]. apply Z.mod_pos_bound. lia.
Qed.

(** The address, read from registers in which the index registers are as in [R]. *)
Lemma addr_ok e u : 0 <= e < count -> u.(v_lenb) = L -> length u.(v_regs) = Z.to_nat (32 * L) ->
  (o.(o_indexed) = true -> take (Z.to_nat (2 ^ o.(o_view))) (drop (Z.to_nat (o.(o_vs2) * L + e * 2 ^ o.(o_view))) u.(v_regs)) =
     take (Z.to_nat (2 ^ o.(o_view))) (drop (Z.to_nat (o.(o_vs2) * L + e * 2 ^ o.(o_view))) R)) ->
  exists u', v_addr o e u = Some (elem_addr o R e, u') /\ u'.(v_lenb) = L /\ u'.(v_regs) = u.(v_regs).
Proof using Hfits Hok HR.
  intros He Hu Hl Hi. unfold v_addr, elem_addr. destruct (o_indexed o) eqn:Ei; [|by exists u].
  pose proof (ok_index o span count Hok e Ei He) as Hf. pose proof (ok_view o span count Hok) as Hv.
  rewrite !Z.shiftl_mul_pow2, Z.mul_1_l by lia. assert (0 < 2 ^ o.(o_view) <= 2 ^ 3) by (split; [lia|apply Z.pow_le_mono_r; lia]).
  pose proof (ok_L o span count Hok). destruct Hf as (Hw & Hp & Hs & Hle) eqn:Ef. pose proof (Z.mod_pos_bound o.(o_vs2) 8 ltac:(lia)).
  unfold u64 at 1. rewrite wrap_small by (unfold in_range; nia).
  destruct (get_vreg_effect Hfits L (ok_L o span count Hok) o.(o_vs2) (e * 2 ^ o.(o_view)) (2 ^ o.(o_view)) (replicate 8 0) u) as (u' & E & Hu' & Hr');
    [unfold fits; lia|done|rewrite length_replicate; lia|done|].
  exists u'. rewrite E. cbn [mbind option_bind]. unfold at_. rewrite Hi by done. split; [|by rewrite Hr'].
  rewrite drop_replicate. unfold le_value. by rewrite word_of_zeros.
Qed.

(** The bytes of the elements that were loaded are in the registers. *)
Lemma set_segs_ok n seg e bytes u (B : Z -> Z -> Z -> Z) D : 0 <= seg -> seg + Z.of_nat n <= o.(o_nf) -> 0 <= e < count ->
  o.(o_nf) * len <= Z.of_nat (length bytes) -> u.(v_lenb) = L ->
  (forall s j, seg <= s < seg + Z.of_nat n -> 0 <= j < len -> bytes !! Z.to_nat (s * len + j) = Some (B s e j)) ->
  u.(v_regs) = merge L o.(o_vd) span len B D R ->
  exists u', v_set_segs n seg o e bytes u = Some u' /\ u'.(v_lenb) = L /\
    u'.(v_regs) = merge L o.(o_vd) span len B (fun s' e' => D s' e' || ((seg <=? s') && (s' <? seg + Z.of_nat n) && (e' =? e))) R.
Proof using Hfits Hok HR.
  pose proof (ok_L o span count Hok) as HL. pose proof (ok_len o span count Hok) as Hlen. pose proof (ok_span o span count Hok) as Hsp.
  pose proof (ok_vd o span count Hok) as Hvd.
  revert seg u D. induction n as [|n IH]; intros seg u D Hs Hn He Hb Hu HB Hm; cbn [v_set_segs].
  - exists u. split_and!; [done|done|]. rewrite Hm. apply merge_ext; [lia|done|lia|]. intros s' e' _ _.
    assert ((seg <=? s') && (s' <? seg + Z.of_nat 0) = false) as -> by (apply andb_false_iff; rewrite Z.leb_gt, Z.ltb_ge; lia). by rewrite orb_false_r.
  - destruct (field_fits seg e ltac:(lia) He) as (Hf & Ew & Hfit & Ep). rewrite Ep.
    destruct (set_vreg_effect Hfits L HL _ _ _ (drop (Z.to_nat (seg * len)) bytes) u Hf Hu) as (u1 & E1 & Hu1 & Hr1); [rewrite length_drop; nia|].
    rewrite E1. cbn [mbind option_bind].
    assert (u1.(v_regs) = merge L o.(o_vd) span len B (fun s' e' => D s' e' || ((s' =? seg) && (e' =? e))) R) as Hm1.
    { rewrite Hr1, Hm, Ew. unfold at_. apply merge_insert; try lia; [rewrite length_take, length_drop; nia|].
      intros i b Hi. apply lookup_take_Some in Hi as [Hi Hlt]. rewrite lookup_drop in Hi.
      specialize (HB seg (Z.of_nat i) ltac:(lia) ltac:(lia)). replace (Z.to_nat (seg * len + Z.of_nat i)) with (Z.to_nat (seg * len) + i)%nat in HB by nia.
      congruence. }
    destruct (IH (seg + 1) u1 _ ltac:(lia) ltac:(lia) He Hb Hu1 (fun s j Hs' => HB s j ltac:(lia)) Hm1) as (u2 & E2 & Hu2 & Hr2).
    exists u2. split_and!; [done|done|]. rewrite Hr2. apply merge_ext; [lia|done|lia|]. intros s' e' _ _.
    rewrite <- orb_assoc. f_equal. rewrite <- andb_orb_distrib_l. f_equal.
    destruct (Z.eqb_spec s' seg), (Z.leb_spec seg s'), (Z.leb_spec (seg + 1) s'), (Z.ltb_spec s' (seg + 1 + Z.of_nat n)), (Z.ltb_spec s' (seg + Z.of_nat (S n))); (reflexivity || lia).
Qed.

(** The registers once the active elements from [from] up to [to] are loaded from
    a memory with the bytes [bt]. *)
Definition loaded (bt : Z -> Z) (from to : Z) : list Z :=
  merge L o.(o_vd) span len (fun s e i => bt (byte_addr o R s e i))
    (fun s e => (s <? o.(o_nf)) && (from <=? e) && (e <? to) && active o R e) R.

Definition readable (bt : Z -> Z) (m : mem) (e : Z) : Prop := forall s i, 0 <= s < o.(o_nf) -> 0 <= i < len ->
  lbu m (byte_addr o R s e i) = inl (bt (byte_addr o R s e i)).

Lemma loaded_length bt from to : length (loaded bt from to) = Z.to_nat (32 * L).
Proof using HR. unfold loaded. by rewrite merge_length. Qed.

Lemma loaded_none bt from : loaded bt from from = R.
Proof using Hok HR.
  pose proof (ok_L o span count Hok). pose proof (ok_len o span count Hok). pose proof (ok_span o span count Hok).
  unfold loaded. apply merge_none; [lia|lia|lia|]. intros s e _ _.
  destruct (Z.leb_spec from e), (Z.ltb_spec e from); rewrite ?andb_false_r; cbn; rewrite ?andb_false_r; (done || lia).
Qed.

(** A byte of element [e] or a later one, or outside of the destination, is kept. *)
Lemma loaded_kept bt from e k :
  (o.(o_vd) * L <= Z.of_nat k -> field_of L o.(o_vd) span (Z.of_nat k) < o.(o_nf) -> e <= elem_of L o.(o_vd) span len (Z.of_nat k)) ->
  loaded bt from e !! k = R !! k.
Proof using Hok HR.
  intros Hk. unfold loaded, merge. rewrite list_lookup_imap. destruct (R !! k) as [b|]; cbn [fmap option_fmap option_map]; [|done].
  destruct (Z.leb_spec (o.(o_vd) * L) (Z.of_nat k)) as [Hle|]; [|done]. cbn [andb].
  destruct (Z.ltb_spec (field_of L o.(o_vd) span (Z.of_nat k)) o.(o_nf)) as [Hf|]; [|done]. cbn [andb].
  specialize (Hk Hle Hf). rewrite (proj2 (Z.ltb_ge _ e)) by lia. by rewrite andb_false_r.
Qed.

Lemma loaded_index bt from e : index_apart o span count -> o.(o_indexed) = true -> 0 <= e < count ->
  take (Z.to_nat (2 ^ o.(o_view))) (drop (Z.to_nat (o.(o_vs2) * L + e * 2 ^ o.(o_view))) (loaded bt from e)) =
  take (Z.to_nat (2 ^ o.(o_view))) (drop (Z.to_nat (o.(o_vs2) * L + e * 2 ^ o.(o_view))) R).
Proof using Hok HR.
  intros Hap Hi He. specialize (Hap Hi e). pose proof (ok_index o span count Hok e Hi He) as (Hw & Hp & Hs & _). pose proof (ok_L o span count Hok).
  apply list_eq. intros i. destruct (decide (i < Z.to_nat (2 ^ o.(o_view)))%nat) as [Hlt|Hge].
  - rewrite !lookup_take_lt, !lookup_drop by done. apply loaded_kept. apply Hap; [done|]. assert (0 <= o.(o_vs2) * L + e * 2 ^ o.(o_view)) by nia. lia.
  - by rewrite !lookup_take_ge by lia.
Qed.

Lemma loaded_next bt from e : from <= e ->
  (if active o R e then merge L o.(o_vd) span len (fun s e i => bt (byte_addr o R s e i))
     (fun s' e' => ((s' <? o.(o_nf)) && (from <=? e') && (e' <? e) && active o R e')
        || ((0 <=? s') && (s' <? 0 + Z.of_nat (Z.to_nat o.(o_nf))) && (e' =? e))) R
   else loaded bt from e) = loaded bt from (e + 1).
Proof using Hok HR.
  pose proof (ok_L o span count Hok). pose proof (ok_len o span count Hok). pose proof (ok_span o span count Hok). pose proof (ok_nf o span count Hok).
  intros Hf. destruct (active o R e) eqn:Ea; (apply merge_ext; [lia|lia|lia|]); intros s' e' Hs He.
  - replace (0 + Z.of_nat (Z.to_nat o.(o_nf))) with o.(o_nf) by lia. rewrite (proj2 (Z.leb_le 0 s')) by done. cbn [andb].
    destruct (Z.eqb_spec e' e) as [->|Hne].
    + rewrite Ea, Z.ltb_irrefl, (proj2 (Z.leb_le from e)), (proj2 (Z.ltb_lt e (e + 1))) by lia.
      by rewrite !andb_true_r, !andb_false_r.
    + rewrite andb_false_r, orb_false_r. do 2 f_equal. destruct (Z.ltb_spec e' e), (Z.ltb_spec e' (e + 1)); (done || lia).
  - destruct (Z.eq_dec e' e) as [->|Hne]; [by rewrite Ea, !andb_false_r|].
    do 2 f_equal. destruct (Z.ltb_spec e' e), (Z.ltb_spec e' (e + 1)); (done || lia).
Qed.

(** One round. *)
Lemma ld_elem_ok bt from e mask m vl bytes u : (o.(o_masked) = true -> mask = take (Z.to_nat L) R ++ drop (Z.to_nat L) mask) ->
  index_apart o span count -> 0 <= from <= e -> e < count -> u.(v_lenb) = L -> u.(v_regs) = loaded bt from e ->
  Z.of_nat (length bytes) = BYTES -> (active o R e = true -> readable bt m e) ->
  exists bytes' u', v_ld_elem lbu junk o mask m e vl bytes u = (Some (inl (bytes', vl)), u') /\
    Z.of_nat (length bytes') = BYTES /\ u'.(v_lenb) = L /\ u'.(v_regs) = loaded bt from (e + 1).
Proof using Hfits Hok HR.
  intros Hm Hap Hfe He Hu Hr Hb Hread. pose proof (loaded_next bt from e ltac:(lia)) as Hnext.
  pose proof (ok_len o span count Hok). pose proof (ok_nf o span count Hok).
  unfold v_ld_elem. rewrite (active_ok mask e Hm ltac:(lia)). destruct (active o R e) eqn:Ea.
  2:{ exists bytes, u. by rewrite Hr. }
  destruct (addr_ok e u ltac:(lia) Hu) as (u1 & E1 & Hu1 & Hr1);
    [by rewrite Hr, loaded_length|intros Hi; rewrite Hr; apply loaded_index; (done || lia)|]. rewrite E1.
  destruct (ld_segs_ok (Z.to_nat o.(o_nf)) 0 m (elem_addr o R e) e bytes vl (fun s i => bt (byte_addr o R s e i))) as (b2 & E2 & L2 & P2 & _);
    [lia|lia|intros s j Hs Hj; apply Hread; (done || lia)|unfold BYTES in Hb; nia|]. rewrite E2.
  destruct (set_segs_ok (Z.to_nat o.(o_nf)) 0 e b2 (write_vstart e u1) (fun s e i => bt (byte_addr o R s e i))
    (fun s' e' => (s' <? o.(o_nf)) && (from <=? e') && (e' <? e) && active o R e')) as (u3 & E3 & Hu3 & Hr3);
    [lia|lia|lia|rewrite L2; unfold BYTES in Hb; nia|done|intros; by apply P2|cbn [v_regs write_vstart]; by rewrite Hr1, Hr|].
  exists b2, u3. rewrite E3, L2. split_and!; [done|done|done|]. by rewrite Hr3.
Qed.

(** [j] rounds of the loop. *)
Lemma ld_loop_rounds j fuel bt from e mask m vl bytes u : (o.(o_masked) = true -> mask = take (Z.to_nat L) R ++ drop (Z.to_nat L) mask) ->
  index_apart o span count -> 0 <= from <= e -> e + Z.of_nat j < vl -> vl <= count -> u.(v_lenb) = L -> u.(v_regs) = loaded bt from e ->
  Z.of_nat (length bytes) = BYTES -> (forall e', e <= e' < e + Z.of_nat j -> active o R e' = true -> readable bt m e') ->
  exists bytes' u', v_ld_loop lbu junk (j + fuel) o mask m e vl bytes u = v_ld_loop lbu junk fuel o mask m (e + Z.of_nat j) vl bytes' u' /\
    Z.of_nat (length bytes') = BYTES /\ u'.(v_lenb) = L /\ u'.(v_regs) = loaded bt from (e + Z.of_nat j).
Proof using Hfits Hok HR.
  intros Hm Hap. revert e bytes u. induction j as [|j IH]; intros e bytes u Hf Hj Hvl Hu Hr Hb Hread.
  - exists bytes, u. rewrite Z.add_0_r. done.
  - destruct (ld_elem_ok bt from e mask m vl bytes u Hm Hap Hf ltac:(lia) Hu Hr Hb (Hread e ltac:(lia))) as (b1 & u1 & E1 & Hb1 & Hu1 & Hr1).
    destruct (IH (e + 1) b1 u1 ltac:(lia) ltac:(lia) Hvl Hu1 Hr1 Hb1) as (b2 & u2 & E2 & H2); [intros e' He'; apply Hread; lia|].
    exists b2, u2. replace (e + Z.of_nat (S j)) with (e + 1 + Z.of_nat j) by lia. split; [|exact H2].
    cbn [Nat.add v_ld_loop]. rewrite E1. assert ((e + 1 <? vl) = true) as -> by (apply Z.ltb_lt; lia). exact E2.
Qed.

(** The loop, when every active element can be read. *)
Lemma ld_loop_ok bt from mask m bytes u : (o.(o_masked) = true -> mask = take (Z.to_nat L) R ++ drop (Z.to_nat L) mask) ->
  index_apart o span count -> 0 <= from < count -> u.(v_lenb) = L -> u.(v_regs) = R -> Z.of_nat (length bytes) = BYTES ->
  (forall e, from <= e < count -> active o R e = true -> readable bt m e) ->
  exists u', v_ld_loop lbu junk (Z.to_nat count) o mask m from count bytes u = Some (count, None, u') /\
    u'.(v_lenb) = L /\ u'.(v_regs) = loaded bt from count.
Proof using Hfits Hok HR.
  intros Hm Hap Hf Hu Hr Hb Hread.
  destruct (ld_loop_rounds (Z.to_nat (count - 1 - from)) (Z.to_nat (from + 1)) bt from from mask m count bytes u Hm Hap ltac:(lia) ltac:(lia) ltac:(lia) Hu)
    as (b1 & u1 & E1 & Hb1 & Hu1 & Hr1); [by rewrite loaded_none|done|intros e He; apply Hread; lia|].
  replace (Z.to_nat (count - 1 - from) + Z.to_nat (from + 1))%nat with (Z.to_nat count) in E1 by lia. rewrite E1.
  replace (from + Z.of_nat (Z.to_nat (count - 1 - from))) with (count - 1) in * by lia.
  destruct (ld_elem_ok bt from (count - 1) mask m count b1 u1 Hm Hap ltac:(lia) ltac:(lia) Hu1 Hr1 Hb1 (Hread (count - 1) ltac:(lia))) as (b2 & u2 & E2 & _ & Hu2 & Hr2).
  exists u2. replace (count - 1 + 1) with count in * by lia. split_and!; [|done|done].
  destruct (Z.to_nat (from + 1)); cbn [v_ld_loop]; rewrite E2; replace (count - 1 + 1) with count by lia; by rewrite Z.ltb_irrefl.
Qed.

(** *** Loads that trap *)

(** The active elements from [from] up to [e] can be read, and byte [k] of field
    [s] of element [e] is the first that cannot. *)
Definition first_fault (bt : Z -> Z) (m : mem) (from e s k : Z) (t : sbi_trap_info) : Prop :=
  (forall e', from <= e' < e -> active o R e' = true -> readable bt m e') /\ active o R e = true /\
  0 <= s < o.(o_nf) /\ 0 <= k < len /\
  (forall s' j, 0 <= s' < s -> 0 <= j < len -> exists b, lbu m (byte_addr o R s' e j) = inl b) /\
  (forall j, 0 <= j < k -> exists b, lbu m (byte_addr o R s e j) = inl b) /\ lbu m (byte_addr o R s e k) = inr t.

(** Byte [k] of the registers is one of element [e]. *)
Definition in_elem (e k : Z) : Prop :=
  o.(o_vd) * L <= k /\ field_of L o.(o_vd) span k < o.(o_nf) /\ elem_of L o.(o_vd) span len k = e.

Lemma ld_elem_trap bt from e s k t mask m vl bytes u :
  (o.(o_masked) = true -> mask = take (Z.to_nat L) R ++ drop (Z.to_nat L) mask) ->
  index_apart o span count -> 0 <= from <= e -> e < count -> u.(v_lenb) = L -> u.(v_regs) = loaded bt from e ->
  Z.of_nat (length bytes) = BYTES -> first_fault bt m from e s k t ->
  if o.(o_ff) && negb (e =? 0)
  then exists bytes' u', v_ld_elem lbu junk o mask m e vl bytes u = (Some (inl (bytes', e)), u') /\ u'.(v_lenb) = L /\
         forall j, ~ in_elem e (Z.of_nat j) -> u'.(v_regs) !! j = loaded bt from e !! j
  else exists u', v_ld_elem lbu junk o mask m e vl bytes u = (Some (inr (k, t)), u') /\ u'.(v_lenb) = L /\ u'.(v_regs) = loaded bt from e.
Proof using Hfits Hok HR.
  intros Hm Hap Hfe He Hu Hr Hb (_ & Ha & Hs & Hk & Hr1 & Hr2 & Ht).
  pose proof (ok_len o span count Hok). pose proof (ok_nf o span count Hok).
  unfold v_ld_elem. rewrite (active_ok mask e Hm ltac:(lia)), Ha.
  destruct (addr_ok e u ltac:(lia) Hu) as (u1 & E1 & Hu1 & Hr1');
    [by rewrite Hr, loaded_length|intros Hi; rewrite Hr; apply loaded_index; (done || lia)|]. rewrite E1.
  pose proof (ld_segs_trap (Z.to_nat o.(o_nf)) 0 s k m (elem_addr o R e) e bytes vl t ltac:(lia) ltac:(lia) Hk Hr1 Hr2 Ht) as Hseg.
  assert ((0 + Z.of_nat (Z.to_nat o.(o_nf))) * len <= Z.of_nat (length bytes)) as Hsz by (unfold BYTES in Hb; nia). specialize (Hseg Hsz).
  destruct (o_ff o && negb (e =? 0)).
  - destruct Hseg as (b2 & E2 & L2). rewrite E2.
    set (B' := fun s' e' i => if e' =? e then default 0 (b2 !! Z.to_nat (s' * len + i)) else bt (byte_addr o R s' e' i)).
    set (D := fun s' e' => (s' <? o.(o_nf)) && (from <=? e') && (e' <? e) && active o R e').
    assert (loaded bt from e = merge L o.(o_vd) span len B' D R) as EB.
    { unfold loaded, merge. apply imap_ext. intros i b Hi. unfold B', D.
      destruct (Z.eqb_spec (elem_of L o.(o_vd) span len (Z.of_nat i)) e) as [->|]; [|done]. by rewrite Z.ltb_irrefl, andb_false_r, andb_false_l, andb_false_r. }
    destruct (set_segs_ok (Z.to_nat o.(o_nf)) 0 e b2 (write_vstart e u1) B' D) as (u3 & E3 & Hu3 & Hr3);
      [lia|lia|lia|rewrite L2; lia|done| |cbn [v_regs write_vstart]; by rewrite Hr1', Hr|].
    { intros s' j Hs' Hj. unfold B'. rewrite Z.eqb_refl. destruct (b2 !! _) eqn:Eb; [done|]. apply lookup_ge_None_1 in Eb. nia. }
    exists b2, u3. rewrite E3. split_and!; [done|done|]. intros j Hj. rewrite Hr3, EB. unfold merge. rewrite !list_lookup_imap.
    destruct (R !! j); cbn [fmap option_fmap option_map]; [|done].
    destruct (Z.leb_spec (o.(o_vd) * L) (Z.of_nat j)) as [Hle|]; [|done]. cbn [andb].
    replace (0 + Z.of_nat (Z.to_nat o.(o_nf))) with o.(o_nf) by lia.
    destruct (Z.ltb_spec (field_of L o.(o_vd) span (Z.of_nat j)) o.(o_nf)), (Z.eqb_spec (elem_of L o.(o_vd) span len (Z.of_nat j)) e);
      rewrite ?andb_false_r, ?orb_false_r; try done. by destruct Hj.
  - rewrite Hseg. exists (write_vstart e u1). split_and!; [done|done|]. cbn [write_vstart v_regs]. by rewrite Hr1', Hr.
Qed.

Lemma ld_loop_trap bt from e s k t mask m bytes u :
  (o.(o_masked) = true -> mask = take (Z.to_nat L) R ++ drop (Z.to_nat L) mask) ->
  index_apart o span count -> 0 <= from <= e -> e < count -> u.(v_lenb) = L -> u.(v_regs) = R ->
  Z.of_nat (length bytes) = BYTES -> first_fault bt m from e s k t ->
  if o.(o_ff) && negb (e =? 0)
  then exists u', v_ld_loop lbu junk (Z.to_nat count) o mask m from count bytes u = Some (e, None, u') /\ u'.(v_lenb) = L /\
         forall j, ~ in_elem e (Z.of_nat j) -> u'.(v_regs) !! j = loaded bt from e !! j
  else exists u', v_ld_loop lbu junk (Z.to_nat count) o mask m from count bytes u = Some (count, Some (k, t), u') /\
         u'.(v_lenb) = L /\ u'.(v_regs) = loaded bt from e.
Proof using Hfits Hok HR.
  intros Hm Hap Hf He Hu Hr Hb Hfault. pose proof Hfault as (Hread & _).
  destruct (ld_loop_rounds (Z.to_nat (e - from)) (Z.to_nat (count - e + from)) bt from from mask m count bytes u Hm Hap ltac:(lia) ltac:(lia) ltac:(lia) Hu)
    as (b1 & u1 & E1 & Hb1 & Hu1 & Hr1); [by rewrite loaded_none|done|intros e' He'; apply Hread; lia|].
  replace (Z.to_nat (e - from) + Z.to_nat (count - e + from))%nat with (Z.to_nat count) in E1 by lia. rewrite E1.
  replace (from + Z.of_nat (Z.to_nat (e - from))) with e in * by lia.
  pose proof (ld_elem_trap bt from e s k t mask m count b1 u1 Hm Hap Hf He Hu1 Hr1 Hb1 Hfault) as H.
  destruct (o_ff o && negb (e =? 0)).
  - destruct H as (b2 & u2 & E2 & Hu2 & Hr2). exists u2. split_and!; [|done|done].
    destruct (Z.to_nat (count - e + from)); cbn [v_ld_loop]; rewrite E2; by rewrite (proj2 (Z.ltb_ge (e + 1) e)) by lia.
  - destruct H as (u2 & E2 & Hu2 & Hr2). exists u2. split_and!; [|done|done].
    destruct (Z.to_nat (count - e + from)); cbn [v_ld_loop]; by rewrite E2.
Qed.

(** *** Stores *)

(** Byte [i] of field [s] of element [e] in the registers. *)
Definition reg_byte (s e i : Z) : Z := default 0 (R !! Z.to_nat ((o.(o_vd) + s * span) * L + e * len + i)).

(** The bytes that a store writes, with their place in the element, in order. *)
Definition field_writes (s e : Z) : list (Z * Z * Z) := map (fun i => (i, byte_addr o R s e i, reg_byte s e i)) (seqZ 0 len).
Definition elem_writes (e : Z) : list (Z * Z * Z) :=
  if active o R e then concat (map (fun s => field_writes s e) (seqZ 0 o.(o_nf))) else [].
Definition store_writes (from to : Z) : list (Z * Z * Z) := concat (map elem_writes (seqZ from (to - from))).

(** Up to the first that traps. *)
Fixpoint store_all (m : mem) (ws : list (Z * Z * Z)) : mem * option (Z * sbi_trap_info) :=
  match ws with
  | [] => (m, None)
  | (i, a, b) :: ws => match sb m a b with inr t => (m, Some (i, t)) | inl m => store_all m ws end
  end.

Lemma store_all_app m ws ws' : store_all m (ws ++ ws') = match store_all m ws with (m, None) => store_all m ws' | r => r end.
Proof. revert m. induction ws as [|[[i a] b] ws IH]; intros m; cbn [app store_all]; [done|]. by destruct (sb m a b). Qed.

Lemma get_segs_ok n seg e bytes u : 0 <= seg -> seg + Z.of_nat n <= o.(o_nf) -> 0 <= e < count ->
  o.(o_nf) * len <= Z.of_nat (length bytes) -> u.(v_lenb) = L -> u.(v_regs) = R ->
  exists bytes' u', v_get_segs n seg o e bytes u = Some (bytes', u') /\ length bytes' = length bytes /\ u'.(v_lenb) = L /\ u'.(v_regs) = R /\
    (forall s j, seg <= s < seg + Z.of_nat n -> 0 <= j < len -> bytes' !! Z.to_nat (s * len + j) = Some (reg_byte s e j)) /\
    (forall j, Z.of_nat j < seg * len -> bytes' !! j = bytes !! j).
Proof using Hfits Hok HR.
  pose proof (ok_L o span count Hok) as HL. pose proof (ok_len o span count Hok) as Hlen. pose proof (ok_vd o span count Hok) as Hvd.
  revert seg bytes u. induction n as [|n IH]; intros seg bytes u Hs Hn He Hb Hu Hr; cbn [v_get_segs].
  - exists bytes, u. split_and!; (done || lia).
  - destruct (field_fits seg e ltac:(lia) He) as (Hf & Ew & Hfit & Ep). rewrite Ep.
    destruct (get_vreg_effect Hfits L HL _ _ _ (drop (Z.to_nat (seg * len)) bytes) u Hf Hu) as (u1 & E1 & Hu1 & Hr1);
      [rewrite length_drop; nia|by rewrite Hr|]. rewrite E1. cbn [mbind option_bind]. rewrite Hr, Ew.
    set (bs := take (Z.to_nat len) (drop (at_ L (o.(o_vd) + seg * span) (e * len)) R)).
    set (b1 := take (Z.to_nat (seg * len)) bytes ++ bs ++ drop (Z.to_nat len) (drop (Z.to_nat (seg * len)) bytes)).
    pose proof (fits_end L HL _ _ _ Hf) as Hin. destruct Hf as (Hw & Hpos & _ & Hle). rewrite Ew in Hw, Hle, Hin.
    assert (length bs = Z.to_nat len) as Lbs by (unfold bs, at_; rewrite length_take, length_drop; nia).
    assert (length b1 = length bytes) as L1 by (unfold b1; rewrite !length_app, length_take, !length_drop, Lbs; nia).
    destruct (IH (seg + 1) b1 u1) as (b2 & u2 & E2 & L2 & Hu2 & Hr2 & P2 & Q2); [lia|lia|done|by rewrite L1|done|by rewrite Hr1|].
    exists b2, u2. split_and!; [done|by rewrite L2|done|done| |].
    + intros s j Hsn Hj. destruct (Z.eq_dec s seg) as [->|Hne]; [|apply P2; lia]. rewrite Q2 by nia. unfold b1.
      rewrite lookup_app_r, lookup_app_l by (rewrite length_take; nia). rewrite length_take.
      replace (Z.to_nat (seg * len + j) - Z.to_nat (seg * len) `min` length bytes)%nat with (Z.to_nat j) by nia.
      unfold bs. rewrite lookup_take_lt, lookup_drop by lia. unfold reg_byte, at_.
      replace (Z.to_nat ((o.(o_vd) + seg * span) * L + e * len) + Z.to_nat j)%nat with (Z.to_nat ((o.(o_vd) + seg * span) * L + e * len + j)) by nia.
      destruct (R !! _) eqn:ER; [done|]. apply lookup_ge_None_1 in ER. nia.
    + intros j Hj. rewrite Q2 by nia. unfold b1. rewrite lookup_app_l, lookup_take_lt by (rewrite ?length_take; nia). done.
Qed.

Lemma st_bytes_ok n i e seg bytes m : 0 <= i -> 0 <= seg -> i + Z.of_nat n <= len ->
  (forall j, 0 <= j < len -> bytes !! Z.to_nat (seg * len + j) = Some (reg_byte seg e j)) ->
  v_st_bytes sb n i o (elem_addr o R e) seg bytes m =
  store_all m (map (fun i => (i, byte_addr o R seg e i, reg_byte seg e i)) (seqZ i (Z.of_nat n))).
Proof using HR.
  intros Hi Hs Hn Hb. revert i m Hi Hn. induction n as [|n IH]; intros i m Hi Hn; cbn [v_st_bytes]; [done|].
  rewrite seqZ_cons by lia. cbn [map store_all]. rewrite Hb by lia. cbn [default]. fold (byte_addr o R seg e i).
  replace (Z.pred (Z.of_nat (S n))) with (Z.of_nat n) by lia. rewrite <- Z.add_1_r. destruct (sb m _ _); [apply IH; lia|done].
Qed.

Lemma st_segs_ok n seg e bytes m : 0 <= seg -> 0 < len ->
  (forall s j, seg <= s < seg + Z.of_nat n -> 0 <= j < len -> bytes !! Z.to_nat (s * len + j) = Some (reg_byte s e j)) ->
  v_st_segs sb n seg o (elem_addr o R e) bytes m = store_all m (concat (map (fun s => field_writes s e) (seqZ seg (Z.of_nat n)))).
Proof using HR.
  intros Hs Hlen Hb. revert seg m Hs Hb. induction n as [|n IH]; intros seg m Hs Hb; cbn [v_st_segs]; [done|].
  rewrite seqZ_cons by lia. cbn [map concat]. rewrite store_all_app. replace (Z.pred (Z.of_nat (S n))) with (Z.of_nat n) by lia.
  rewrite (st_bytes_ok (Z.to_nat len) 0 e seg bytes m) by (try lia; intros; apply Hb; lia). rewrite Z2Nat.id by lia. fold (field_writes seg e).
  destruct (store_all m (field_writes seg e)) as [m1 [e1|]]; [done|]. rewrite <- Z.add_1_r. apply IH; [lia|]. intros s j Hsj. apply Hb. lia.
Qed.

Lemma st_elem_ok e mask bytes u m : (o.(o_masked) = true -> mask = take (Z.to_nat L) R ++ drop (Z.to_nat L) mask) ->
  0 <= e < count -> u.(v_lenb) = L -> u.(v_regs) = R -> Z.of_nat (length bytes) = BYTES ->
  exists bytes' u', v_st_elem sb o mask e bytes u m = Some (bytes', u', (store_all m (elem_writes e)).1, (store_all m (elem_writes e)).2) /\
    Z.of_nat (length bytes') = BYTES /\ u'.(v_lenb) = L /\ u'.(v_regs) = R.
Proof using Hfits Hok HR.
  intros Hm He Hu Hr Hb. pose proof (ok_len o span count Hok). pose proof (ok_nf o span count Hok).
  unfold v_st_elem, elem_writes. rewrite (active_ok mask e Hm He). destruct (active o R e); [|by exists bytes, u].
  destruct (addr_ok e u He Hu) as (u1 & E1 & Hu1 & Hr1); [by rewrite Hr|by rewrite Hr|]. rewrite E1. cbn [mbind option_bind].
  destruct (get_segs_ok (Z.to_nat o.(o_nf)) 0 e bytes u1) as (b2 & u2 & E2 & L2 & Hu2 & Hr2 & P2 & _); [lia|lia|done|unfold BYTES in Hb; nia|done|by rewrite Hr1|].
  rewrite E2. cbn [mbind option_bind]. rewrite (st_segs_ok (Z.to_nat o.(o_nf)) 0 e b2 m) by (try lia; exact P2). rewrite Z2Nat.id by lia.
  exists b2, (write_vstart e u2). rewrite L2. by destruct (store_all m _).
Qed.

Lemma st_loop_ok j fuel e mask bytes u m : (o.(o_masked) = true -> mask = take (Z.to_nat L) R ++ drop (Z.to_nat L) mask) ->
  0 <= e -> e + Z.of_nat (S j) = count -> u.(v_lenb) = L -> u.(v_regs) = R -> Z.of_nat (length bytes) = BYTES ->
  exists u', v_st_loop sb (j + fuel) o mask e count bytes u m = Some ((store_all m (store_writes e count)).2, u', (store_all m (store_writes e count)).1) /\
    u'.(v_lenb) = L /\ u'.(v_regs) = R.
Proof using Hfits Hok HR.
  intros Hm. revert e bytes u m. induction j as [|j IH]; intros e bytes u m He Hj Hu Hr Hb;
    destruct (st_elem_ok e mask bytes u m Hm ltac:(lia) Hu Hr Hb) as (b1 & u1 & E1 & Hb1 & Hu1 & Hr1);
    (assert (store_writes e count = elem_writes e ++ store_writes (e + 1) count) as Ew;
      [unfold store_writes; rewrite (seqZ_cons e) by lia; cbn [map concat]; do 4 f_equal; lia|]); rewrite Ew, store_all_app.
  - unfold store_writes. replace (count - (e + 1)) with 0 by lia. cbn [seqZ map concat store_all].
    exists u1. split_and!; [|done|done]. destruct (store_all m (elem_writes e)) as [m1 [t1|]];
      (destruct fuel; cbn [Nat.add v_st_loop]; rewrite E1; cbn [fst snd]; [|]; by rewrite ?(proj2 (Z.ltb_ge (e + 1) count)) by lia).
  - cbn [Nat.add v_st_loop]. rewrite E1. destruct (store_all m (elem_writes e)) as [m1 [t1|]]; cbn [fst snd]; [by exists u1|].
    rewrite (proj2 (Z.ltb_lt (e + 1) count)) by lia. apply IH; (done || lia).
Qed.
End Operation.
