(* ===== verification/VecCorrect.v ===== *)
(** * The vector emulators against the instruction set (lib/sbi/sbi_trap_v_ldst.c).

    [vinsn] are the vector loads and stores of the vector specification with
    their encodings; [vinsn_ok] those that the emulators tell apart: all but unit
    strides of bytes, which are never misaligned, and indices of bytes.
    - [vector_load_correct], [vector_store_correct]: each of those is emulated as
      the specification says, with every kind of addressing, masks, segments,
      faults and fault-only-first trimming.
    - [byte_index_is_strided], [whole_load_changes_vl], [trap_forgets_vstart]:
      where the code departs from it, which the theorems leave out. *)

From S2P Require Import Prelude SbiTypes Bitops Domain Csr Pmp PmpProps HartFeat Trap TrapLdst TrapStore Timer IllegalInsn VecLdst VecProps.

Local Open Scope Z_scope.

(** ** The instructions *)

Inductive vmode :=
| VUnitStride | VFaultFirst | VStrided (rs2 : Z) | VIndexed (ordered : bool) (vs2 : Z) | VWhole.

Record vinsn := VInsn { i_mode : vmode; i_nf : Z; i_width : width; i_masked : bool; i_rs1 : Z; i_vd : Z }.

Definition width_code (w : width) : Z := match w with B1 => 0 | B2 => 5 | B4 => 6 | B8 => 7 end.
Definition mode_rs2 (m : vmode) : Z :=
  match m with VUnitStride => 0 | VFaultFirst => 16 | VStrided rs2 => rs2 | VIndexed _ vs2 => vs2 | VWhole => 8 end.
Definition mode_mop (m : vmode) : Z :=
  match m with VStrided _ => 2 | VIndexed ordered _ => if ordered then 3 else 1 | _ => 0 end.

(** The upper twelve bits: [nf], [mew], [mop], [vm] and the field [rs2]. *)
Definition vhigh (v : vinsn) : Z :=
  mode_rs2 v.(i_mode) + 2 ^ 5 * (Z.b2z (negb v.(i_masked)) + 2 ^ 1 * (mode_mop v.(i_mode) + 2 ^ 2 * (2 * (v.(i_nf) - 1)))).

Definition vencode (st : bool) (v : vinsn) : Z :=
  (if st then 0x27 else 0x07) + 2 ^ 7 * (v.(i_vd) + 2 ^ 5 * (width_code v.(i_width) + 2 ^ 3 * (v.(i_rs1) + 2 ^ 5 * vhigh v))).

(** Elements of one byte are never misaligned, so that the emulators do not look for
    the unit-stride forms of bytes.  Indexed accesses with indices of one byte are
    left out too, though their elements can be wider: the emulators take them for
    strided ones, [byte_index_is_strided]. *)
Definition vinsn_ok (st : bool) (v : vinsn) : Prop :=
  in_range 5 v.(i_vd) /\ in_range 5 v.(i_rs1) /\ in_range 5 (mode_rs2 v.(i_mode)) /\ 1 <= v.(i_nf) <= 8 /\
  match v.(i_mode) with
  | VUnitStride | VIndexed _ _ => v.(i_width) <> B1
  | VFaultFirst => v.(i_width) <> B1 /\ st = false
  | VStrided _ => True
  | VWhole => v.(i_masked) = false /\ In v.(i_nf) [1; 2; 4; 8] /\ (st = true -> v.(i_width) = B1)
  end.

Definition is_unit (m : vmode) : bool := match m with VUnitStride | VFaultFirst => true | _ => false end.
Definition is_ff (m : vmode) : bool := match m with VFaultFirst => true | _ => false end.
Definition is_whole (m : vmode) : bool := match m with VWhole => true | _ => false end.
Definition is_indexed (m : vmode) : bool := match m with VIndexed _ _ => true | _ => false end.

(** ** Decoding *)

(** Which kind of access the emulators see. *)
Definition vkind (st : bool) (insn : Z) : bool * bool * bool * bool :=
  ((if st then IS_UNIT_STRIDE_STORE insn else IS_UNIT_STRIDE_LOAD insn || IS_FAULT_ONLY_FIRST_LOAD insn),
   (if st then IS_WHOLE_REG_STORE insn else IS_WHOLE_REG_LOAD insn),
   (if st then IS_INDEXED_STORE insn else IS_INDEXED_LOAD insn),
   (if st then false else IS_FAULT_ONLY_FIRST_LOAD insn)).

Definition mode_kind (m : vmode) : bool * bool * bool * bool := (is_unit m, is_whole m, is_indexed m, is_ff m).

Lemma testbit_fields n a b i : 0 <= n -> in_range n a -> 0 <= i ->
  Z.testbit (a + 2 ^ n * b) i = if i <? n then Z.testbit a i else Z.testbit b (i - n).
Proof.
  intros Hn Ha Hi. destruct (Z.ltb_spec i n) as [Hlt|Hge].
  - rewrite <- (Z.mod_pow2_bits_low (a + 2 ^ n * b) n) by lia. rewrite Z.mul_comm, Z.mod_add by lia. by rewrite Z.mod_small.
  - replace i with ((i - n) + n) at 1 by lia. rewrite <- Z.div_pow2_bits by lia. rewrite Z.mul_comm, Z.div_add, Z.div_small by (done || lia). done.
Qed.

Lemma land_fields n a b ma mb : 0 <= n -> in_range n a -> in_range n ma ->
  Z.land (a + 2 ^ n * b) (ma + 2 ^ n * mb) = Z.land a ma + 2 ^ n * Z.land b mb.
Proof.
  intros Hn Ha Hm. assert (in_range n (Z.land a ma)) by (apply in_range_land_l; [done|done|by apply in_range_nonneg in Hm]).
  apply Z.bits_inj'. intros i Hi. rewrite Z.land_spec, !testbit_fields by done. by destruct (i <? n); rewrite Z.land_spec.
Qed.

Lemma vencode_land st v h : in_range 5 v.(i_vd) -> in_range 5 v.(i_rs1) ->
  Z.land (vencode st v) (0x7f + 2 ^ 7 * (0 + 2 ^ 5 * (7 + 2 ^ 3 * (0 + 2 ^ 5 * h)))) =
  (if st then 0x27 else 0x07) + 2 ^ 7 * (2 ^ 5 * (width_code v.(i_width) + 2 ^ 3 * (2 ^ 5 * Z.land (vhigh v) h))).
Proof.
  intros Hd Hs. unfold vencode. assert (in_range 3 (width_code v.(i_width))) by (destruct v.(i_width); done).
  rewrite !land_fields by (lia || done || by destruct st). rewrite !Z.land_0_r, !Z.add_0_l.
  f_equal; [by destruct st|]. do 3 f_equal. by destruct v.(i_width).
Qed.

(** [c] holds for a list of matches: the bits [b] of each are clear. *)
Lemma no_match insn mask b ms : Z.land mask b = b -> forallb (fun m => Z.land (Z.land m mask) b =? 0) ms = true ->
  Z.land insn b <> 0 -> existsb (fun m => IS_VECTOR_INSN_MATCH insn m mask) ms = false.
Proof.
  intros Hb Hms Hi. apply not_true_iff_false. rewrite existsb_exists. intros (m & Hm & E). apply Z.eqb_eq in E.
  rewrite forallb_forall in Hms. specialize (Hms m Hm). apply Z.eqb_eq in Hms. rewrite <- E, <- Z.land_assoc, Hb in Hms. done.
Qed.

Lemma same_match insn insn' mask ms : Z.land insn mask = Z.land insn' mask ->
  existsb (fun m => IS_VECTOR_INSN_MATCH insn m mask) ms = existsb (fun m => IS_VECTOR_INSN_MATCH insn' m mask) ms.
Proof. intros E. induction ms as [|m ms IH]; cbn [existsb]; [done|]. rewrite IH. unfold IS_VECTOR_INSN_MATCH. by rewrite E. Qed.

Lemma vkind_same st insn insn' : Z.land insn INSN_MASK_VECTOR_WHOLE_REG = Z.land insn' INSN_MASK_VECTOR_WHOLE_REG -> vkind st insn = vkind st insn'.
Proof.
  intros E. assert (forall c, Z.land INSN_MASK_VECTOR_WHOLE_REG c = c -> Z.land insn c = Z.land insn' c) as Ec.
  { intros c Hc. rewrite <- Hc, !Z.land_assoc. by rewrite E. }
  unfold vkind. f_equal; [f_equal; [f_equal|]|]; destruct st; try done; try (apply same_match, Ec; reflexivity).
  f_equal; apply same_match, Ec; reflexivity.
Qed.

Definition MOP_BITS : Z := 0x0c000000.

Definition no_rs2 (m : vmode) : vmode := match m with VStrided _ => VStrided 0 | VIndexed b _ => VIndexed b 0 | m => m end.

Definition vcheck (st : bool) (v : vinsn) : bool := bool_decide (vkind st (vencode st v) = mode_kind v.(i_mode)).

Definition vinsn_okb (st : bool) (v : vinsn) : bool :=
  match v.(i_mode) with
  | VUnitStride | VIndexed _ _ => negb (bool_decide (v.(i_width) = B1))
  | VFaultFirst => negb (bool_decide (v.(i_width) = B1)) && negb st
  | VStrided _ => true
  | VWhole => negb v.(i_masked) && existsb (Z.eqb v.(i_nf)) [1; 2; 4; 8] && (negb st || bool_decide (v.(i_width) = B1))
  end.

Definition vcases (st : bool) : list vinsn :=
  filter (fun v => vinsn_okb st v = true)
    (flat_map (fun m => flat_map (fun nf => flat_map (fun w => map (fun k => VInsn m nf w k 0 0) [true; false]) [B1; B2; B4; B8]) (seqZ 1 8))
      [VUnitStride; VFaultFirst; VWhole; VStrided 0; VIndexed false 0; VIndexed true 0]).

Lemma vcheck_all : forallb (vcheck false) (vcases false) && forallb (vcheck true) (vcases true) = true.
Proof. vm_compute. reflexivity. Qed.

Lemma vhigh_land v c : in_range 5 (mode_rs2 v.(i_mode)) -> Z.land (vhigh v) (0 + 2 ^ 5 * c) =
  2 ^ 5 * Z.land (Z.b2z (negb v.(i_masked)) + 2 ^ 1 * (mode_mop v.(i_mode) + 2 ^ 2 * (2 * (v.(i_nf) - 1)))) c.
Proof. intros H. unfold vhigh. rewrite land_fields by (lia || done). by rewrite Z.land_0_r, Z.add_0_l. Qed.

Lemma in_cases st v : vinsn_ok st v -> no_rs2 v.(i_mode) = v.(i_mode) -> In (VInsn v.(i_mode) v.(i_nf) v.(i_width) v.(i_masked) 0 0) (vcases st).
Proof.
  intros (_ & _ & _ & Hnf & Hm) Hrs. apply list_elem_of_In. unfold vcases. apply list_elem_of_filter. split.
  - unfold vinsn_okb. cbn [i_mode i_width i_masked i_nf]. destruct v.(i_mode); cbn.
    + by rewrite bool_decide_false.
    + destruct Hm as [Hm ->]. by rewrite bool_decide_false.
    + done.
    + by rewrite bool_decide_false.
    + destruct Hm as (-> & Hin & Hst). cbn [negb andb]. apply andb_true_iff. split.
      * change (existsb (Z.eqb v.(i_nf)) [1; 2; 4; 8] = true). apply existsb_exists. exists v.(i_nf). split; [exact Hin|apply Z.eqb_refl].
      * destruct st; cbn; [|done]. by rewrite bool_decide_true by auto.
  - apply list_elem_of_In, in_flat_map. exists v.(i_mode). split.
    { destruct v.(i_mode) as [| |r|b r|]; cbn in Hrs |- *; try injection Hrs as <-; auto 10. destruct b; auto 10. }
    apply in_flat_map. exists v.(i_nf). split; [apply list_elem_of_In, elem_of_seqZ; lia|]. apply in_flat_map. exists v.(i_width).
    split; [destruct v.(i_width); cbn; auto 10|]. apply in_map_iff. exists v.(i_masked). split; [done|destruct v.(i_masked); cbn; auto].
Qed.

Lemma vcase_kind st v : vinsn_ok st v -> no_rs2 v.(i_mode) = v.(i_mode) -> vkind st (vencode st v) = mode_kind v.(i_mode).
Proof.
  intros Hv Hrs. pose proof vcheck_all as H. apply andb_true_iff in H as [H0 H1]. rewrite forallb_forall in H0, H1.
  etransitivity; [apply (vkind_same st _ (vencode st (VInsn v.(i_mode) v.(i_nf) v.(i_width) v.(i_masked) 0 0)))|].
  - destruct Hv as (Hd & Hs & _). change INSN_MASK_VECTOR_WHOLE_REG with (0x7f + 2 ^ 7 * (0 + 2 ^ 5 * (7 + 2 ^ 3 * (0 + 2 ^ 5 * 0xfff)))).
    rewrite !vencode_land by done. reflexivity.
  - pose proof (in_cases st v Hv Hrs) as Hin. destruct st; [specialize (H1 _ Hin)|specialize (H0 _ Hin)];
      [exact (bool_decide_eq_true_1 _ H1)|exact (bool_decide_eq_true_1 _ H0)].
Qed.

(** The kind of a strided or indexed access does not depend on its last operand. *)
Lemma vkind_mop st v : in_range 5 v.(i_vd) -> in_range 5 v.(i_rs1) -> in_range 5 (mode_rs2 v.(i_mode)) -> mode_mop v.(i_mode) <> 0 ->
  vkind st (vencode st v) = (false, false, (vkind st (vencode st (VInsn (no_rs2 v.(i_mode)) v.(i_nf) v.(i_width) v.(i_masked) v.(i_rs1) v.(i_vd)))).1.2, false).
Proof.
  intros Hd Hs Hr Hmop.
  assert (Z.land (vencode st v) MOP_BITS <> 0) as Hb.
  { change MOP_BITS with (0 + 2 ^ 7 * (0 + 2 ^ 5 * (0 + 2 ^ 3 * (0 + 2 ^ 5 * (0 + 2 ^ 5 * (0 + 2 ^ 1 * (3 + 2 ^ 2 * 0))))))).
    assert (in_range 3 (width_code v.(i_width))) by (destruct v.(i_width); done). assert (in_range 1 (Z.b2z (negb v.(i_masked)))) by (destruct v.(i_masked); done).
    assert (in_range 2 (mode_mop v.(i_mode))) as Hm by (destruct v.(i_mode) as [| | |[]|]; done).
    unfold vencode. rewrite !land_fields by (lia || done || by destruct st). rewrite vhigh_land by done. rewrite !Z.land_0_r.
    rewrite !land_fields by (lia || done). rewrite !Z.land_0_r, (Z.land_ones _ 2), Z.mod_small by (done || lia). lia. }
  assert (Z.land (vencode st v) INSN_MASK_VECTOR_INDEXED =
    Z.land (vencode st (VInsn (no_rs2 v.(i_mode)) v.(i_nf) v.(i_width) v.(i_masked) v.(i_rs1) v.(i_vd))) INSN_MASK_VECTOR_INDEXED) as E.
  { change INSN_MASK_VECTOR_INDEXED with (0x7f + 2 ^ 7 * (0 + 2 ^ 5 * (7 + 2 ^ 3 * (0 + 2 ^ 5 * (0 + 2 ^ 5 * 0x7e))))).
    rewrite !vencode_land by done. rewrite !vhigh_land by (done || by destruct v.(i_mode)). cbn [i_mode i_nf i_masked i_width]. by destruct v.(i_mode). }
  unfold vkind. cbn [fst snd]. f_equal; [f_equal; [f_equal|]|].
  - destruct st; [by apply (no_match _ _ MOP_BITS)|]. apply orb_false_iff. split; by apply (no_match _ _ MOP_BITS).
  - destruct st; by apply (no_match _ _ MOP_BITS).
  - destruct st; by apply same_match.
  - destruct st; [done|]. by apply (no_match _ _ MOP_BITS).
Qed.

(** Every instruction is recognised as what it is. *)
Lemma vkind_ok st v : vinsn_ok st v -> vkind st (vencode st v) = mode_kind v.(i_mode).
Proof.
  intros Hv. destruct (Z.eq_dec (mode_mop v.(i_mode)) 0) as [E0|E0].
  - apply vcase_kind; [done|]. destruct v.(i_mode) as [| | |[]|]; done.
  - pose proof Hv as (Hd' & Hs' & Hr' & _). rewrite (vkind_mop st v Hd' Hs' Hr' E0). rewrite vcase_kind; cbn [i_mode]; [by destruct v.(i_mode)| |by destruct v.(i_mode)].
    destruct Hv as (Hd & Hs & Hr & Hnf & Hm). unfold vinsn_ok. cbn [i_mode i_nf i_width i_masked i_rs1 i_vd]. split_and!; try done; try lia.
    + by destruct v.(i_mode).
    + by destruct v.(i_mode).
Qed.

Definition byte_indexed : list vinsn :=
  flat_map (fun b : bool => flat_map (fun nf => map (fun k => VInsn (VIndexed b 0) nf B1 k 0 0) [true; false]) (seqZ 1 8)) [true; false].

Lemma byte_indexed_kinds :
  forallb (fun v => negb (vkind false (vencode false v)).1.2 && negb (vkind true (vencode true v)).1.2) byte_indexed = true.
Proof. vm_compute. reflexivity. Qed.

(** An indexed access whose indices are bytes is not recognised: it is taken for a
    strided access of bytes, although its elements have the width of [vtype] and
    can be misaligned. *)
Lemma byte_index_is_strided st b vs2 nf masked rs1 vd : in_range 5 vs2 -> 1 <= nf <= 8 -> in_range 5 rs1 -> in_range 5 vd ->
  vkind st (vencode st (VInsn (VIndexed b vs2) nf B1 masked rs1 vd)) = mode_kind (VStrided vs2).
Proof.
  intros Hr Hnf Hs Hd. rewrite vkind_mop by (done || by destruct b). unfold mode_kind, is_unit, is_whole, is_indexed, is_ff. do 2 f_equal.
  pose proof byte_indexed_kinds as H. rewrite forallb_forall in H. specialize (H (VInsn (VIndexed b 0) nf B1 masked 0 0)).
  cbn [i_mode no_rs2 i_nf i_width i_masked i_rs1 i_vd].
  rewrite (vkind_same st _ (vencode st (VInsn (VIndexed b 0) nf B1 masked 0 0))).
  - apply andb_true_iff in H as [H0 H1]; [destruct st; [by apply negb_true_iff in H1 as ->|by apply negb_true_iff in H0 as ->]|].
    apply in_flat_map. exists b. split; [destruct b; cbn; auto|]. apply in_flat_map. exists nf. split; [apply list_elem_of_In, elem_of_seqZ; lia|].
    apply in_map_iff. exists masked. split; [done|destruct masked; cbn; auto].
  - change INSN_MASK_VECTOR_WHOLE_REG with (0x7f + 2 ^ 7 * (0 + 2 ^ 5 * (7 + 2 ^ 3 * (0 + 2 ^ 5 * 0xfff)))). by rewrite !vencode_land.
Qed.

Lemma field_get x s k : 0 <= s -> 0 <= k -> Z.land (Z.shiftr x s) (Z.ones k) = (x / 2 ^ s) `mod` 2 ^ k.
Proof. intros. by rewrite Z.land_ones, Z.shiftr_div_pow2. Qed.

Lemma reg_ptr_field x pos : 3 <= pos -> REG_PTR x pos = Z.to_nat ((x / 2 ^ pos) `mod` 2 ^ 5).
Proof.
  intros Hp. unfold REG_PTR, REG_OFFSET, SHIFT_RIGHT, LOG_REGBYTES. rewrite (proj2 (Z.ltb_ge (pos - 3) 0)) by lia.
  rewrite <- field_get by lia. f_equal. change REG_MASK with 0xf8. change 8 with (2 ^ 3). rewrite <- Z.shiftr_div_pow2, Z.shiftr_land, Z.shiftr_shiftr by lia.
  replace (pos - 3 + 3) with pos by lia. reflexivity.
Qed.

Lemma field_at s k insn lo x hi : 0 <= s -> 0 <= k -> insn = lo + 2 ^ s * (x + 2 ^ k * hi) -> 0 <= lo < 2 ^ s -> 0 <= x < 2 ^ k ->
  (insn / 2 ^ s) `mod` 2 ^ k = x.
Proof.
  intros Hs Hk -> Hlo Hx. rewrite (Z.mul_comm (2 ^ s)), Z.div_add, (Z.div_small lo) by lia.
  rewrite Z.add_0_l, (Z.mul_comm (2 ^ k)), Z.mod_add, Z.mod_small by lia. done.
Qed.

Lemma vfields st v : vinsn_ok st v -> let insn := vencode st v in
  GET_VIEW insn = log_width v.(i_width) /\ GET_NF insn = v.(i_nf) /\ IS_MASKED insn = v.(i_masked) /\ GET_MEW insn = 0 /\
  GET_VS2 insn = mode_rs2 v.(i_mode) /\ GET_VD insn = v.(i_vd) /\
  REG_PTR insn SH_RS1 = Z.to_nat v.(i_rs1) /\ REG_PTR insn SH_RS2 = Z.to_nat (mode_rs2 v.(i_mode)).
Proof.
  intros (Hd & Hs & Hr & Hnf & _) insn. unfold in_range in *.
  assert (exists op w mop vm, insn = op + 2 ^ 7 * v.(i_vd) + 2 ^ 12 * w + 2 ^ 15 * v.(i_rs1) + 2 ^ 20 * mode_rs2 v.(i_mode) + 2 ^ 25 * vm + 2 ^ 26 * mop + 2 ^ 29 * (v.(i_nf) - 1) /\
    0 <= op < 2 ^ 7 /\ w = width_code v.(i_width) /\ 0 <= w < 8 /\ w `mod` 4 = log_width v.(i_width) /\ 0 <= mop < 4 /\ vm = Z.b2z (negb v.(i_masked)) /\ 0 <= vm < 2)
    as (op & w & mop & vm & E & Hop & _ & Hw & Hlw & Hmop & Evm & Hvm).
  { unfold insn, vencode, vhigh. exists (if st then 0x27 else 0x07), (width_code v.(i_width)), (mode_mop v.(i_mode)), (Z.b2z (negb v.(i_masked))).
    split; [lia|]. split_and!; try done; destruct st, v.(i_width), v.(i_masked), v.(i_mode) as [| | |[]|]; done. }
  clearbody insn. unfold GET_VIEW, GET_NF, IS_MASKED, GET_MEW, GET_VS2, GET_VD, SH_RS1, SH_RS2. rewrite !reg_ptr_field by lia.
  change VIEW_MASK with (Z.ones 2). change VM_MASK with (Z.ones 1). change VS2_MASK with (Z.ones 5). change VD_MASK with (Z.ones 5). change 7 with (Z.ones 3).
  change (Z.land (Z.shiftr insn SH_MEW) 1) with (Z.land (Z.shiftr insn SH_MEW) (Z.ones 1)).
  rewrite !field_get by (lia || done). unfold SH_VIEW, SH_VM, SH_MEW, SH_VS2, SH_VD.
  set (d := v.(i_vd)) in *. set (r1 := v.(i_rs1)) in *. set (r2 := mode_rs2 v.(i_mode)) in *. set (n := v.(i_nf)) in *.
  pose proof (Z.div_mod w 4 ltac:(lia)) as Ew. pose proof (Z.mod_pos_bound w 4 ltac:(lia)) as Hw4. rewrite Hlw in Ew, Hw4.
  rewrite (field_at 7 5 insn op d (w + 2 ^ 3 * r1 + 2 ^ 8 * r2 + 2 ^ 13 * vm + 2 ^ 14 * mop + 2 ^ 17 * (n - 1))) by lia.
  rewrite (field_at 12 2 insn (op + 2 ^ 7 * d) (log_width v.(i_width)) (w / 4 + 2 * r1 + 2 ^ 6 * r2 + 2 ^ 11 * vm + 2 ^ 12 * mop + 2 ^ 15 * (n - 1))) by lia.
  rewrite (field_at 15 5 insn (op + 2 ^ 7 * d + 2 ^ 12 * w) r1 (r2 + 2 ^ 5 * vm + 2 ^ 6 * mop + 2 ^ 9 * (n - 1))) by lia.
  rewrite (field_at 20 5 insn (op + 2 ^ 7 * d + 2 ^ 12 * w + 2 ^ 15 * r1) r2 (vm + 2 * mop + 2 ^ 4 * (n - 1))) by lia.
  rewrite (field_at 25 1 insn (op + 2 ^ 7 * d + 2 ^ 12 * w + 2 ^ 15 * r1 + 2 ^ 20 * r2) vm (mop + 2 ^ 3 * (n - 1))) by lia.
  rewrite (field_at 28 1 insn (op + 2 ^ 7 * d + 2 ^ 12 * w + 2 ^ 15 * r1 + 2 ^ 20 * r2 + 2 ^ 25 * vm + 2 ^ 26 * mop) 0 (n - 1)) by lia.
  rewrite (field_at 29 3 insn (op + 2 ^ 7 * d + 2 ^ 12 * w + 2 ^ 15 * r1 + 2 ^ 20 * r2 + 2 ^ 25 * vm + 2 ^ 26 * mop) (n - 1) 0) by lia.
  split_and!; try done; [lia|]. rewrite Evm. by destruct v.(i_masked).
Qed.

(** ** What an instruction does *)

(** The logarithms of the element width and of the length of a group. *)
Definition log_sew (vtype : Z) : Z := GET_VSEW vtype.
Definition log_lmul (vtype : Z) : Z := let k := GET_VLMUL vtype in if k <? 4 then k else k - 8.

(** The registers that a group takes; a fraction of a register takes one. *)
Definition group (k : Z) : Z := 2 ^ Z.max 0 k.

Section Instruction.
Context {vh : VHw} (v : vinsn) (u : vunit) (regs : sbi_trap_regs).

Definition i_view : Z := log_width v.(i_width).

(** The encoded width is the one of the elements, or of the indices. *)
Definition log_emul : Z := log_lmul u.(v_type) + i_view - log_sew u.(v_type).
Definition i_len : Z := if is_indexed v.(i_mode) then 2 ^ log_sew u.(v_type) else 2 ^ i_view.
Definition i_fields : Z := if is_whole v.(i_mode) then 1 else v.(i_nf).
Definition i_span : Z :=
  if is_whole v.(i_mode) then v.(i_nf) else group (if is_indexed v.(i_mode) then log_lmul u.(v_type) else log_emul).
Definition i_count : Z := if is_whole v.(i_mode) then v.(i_nf) * u.(v_lenb) / 2 ^ i_view else u.(v_vl).
Definition i_stride : Z := match v.(i_mode) with VStrided rs2 => get_reg regs (Z.to_nat rs2) | _ => i_fields * i_len end.

Definition vop_of : vop :=
  VOp u.(v_lenb) (get_reg regs (Z.to_nat v.(i_rs1))) i_stride v.(i_vd) (mode_rs2 v.(i_mode)) i_view i_len i_fields
    (if is_whole v.(i_mode) then 1 else i_span) v.(i_masked) (is_indexed v.(i_mode)) (is_ff v.(i_mode)).

(** The instruction is not reserved in this state of the unit, and has elements
    left: the groups of registers are aligned and exist, and there are as many
    elements as fit at most. *)
Record vlegal : Prop := {
  lg_lenb : 0 < u.(v_lenb) <= VLEN_MAX / 8;
  lg_regs : length u.(v_regs) = Z.to_nat (32 * u.(v_lenb));
  lg_start : 0 <= u.(v_start) < i_count;
  lg_type : v_supported u.(v_type) = true;
  lg_vl : is_whole v.(i_mode) = false -> u.(v_vl) <= VLMAX u.(v_lenb) u.(v_type) /\ -3 <= log_lmul u.(v_type) <= 3 /\ -3 <= log_emul <= 3;
  lg_vd : v.(i_vd) `mod` i_span = 0 /\ v.(i_vd) + i_fields * i_span <= 32;
  lg_vs2 : is_indexed v.(i_mode) = true -> mode_rs2 v.(i_mode) `mod` group log_emul = 0 /\ mode_rs2 v.(i_mode) + group log_emul <= 32;
}.
End Instruction.

Definition in3 (k : Z) : bool := (-3 <=? k) && (k <=? 3).

Lemma emul_check : all 3 (fun m => all 2 (fun w => all 2 (fun s =>
    let lm := if m <? 4 then m else m - 8 in
    (negb (in3 lm && in3 (lm + w - s)) || (GET_EMUL (GET_VEMUL m w s) =? group (lm + w - s))) &&
    (negb (in3 lm) || (Z.shiftl 1 (if negb (Z.land (Z.land (m + s - s) 7) 4 =? 0) then 0 else Z.land (m + s - s) 7) =? group lm))))) = true.
Proof. vm_compute. reflexivity. Qed.

Lemma emul_ok m w s : in_range 3 m -> in_range 2 w -> in_range 2 s -> let lm := if m <? 4 then m else m - 8 in
  -3 <= lm <= 3 -> (-3 <= lm + w - s <= 3 -> GET_EMUL (GET_VEMUL m w s) = group (lm + w - s)) /\
  Z.shiftl 1 (if negb (Z.land (Z.land (m + s - s) 7) 4 =? 0) then 0 else Z.land (m + s - s) 7) = group lm.
Proof.
  intros Hm Hw Hs lm Hlm. pose proof (all_spec 2 _ _ (all_spec 2 _ _ (all_spec 3 _ _ emul_check Hm) Hw) Hs) as H. cbv beta zeta in H.
  fold lm in H. apply andb_true_iff in H as [H1 H2].
  assert (in3 lm = true) as E by (unfold in3; apply andb_true_iff; split; apply Z.leb_le; lia). rewrite E in H1, H2. cbn [negb orb andb] in H1, H2.
  split; [|by apply Z.eqb_eq]. intros He. assert (in3 (lm + w - s) = true) as E2 by (unfold in3; apply andb_true_iff; split; apply Z.leb_le; lia).
  rewrite E2 in H1. by apply Z.eqb_eq.
Qed.

Lemma vtype_fields t : in_range 2 (GET_VSEW t) /\ in_range 3 (GET_VLMUL t).
Proof.
  unfold GET_VSEW, GET_VLMUL. change VSEW_MASK with (Z.ones 2). change VLMUL_MASK with (Z.ones 3). rewrite !Z.land_ones by lia.
  split; apply Z.mod_pos_bound; lia.
Qed.

Lemma log_width_small w : in_range 2 (log_width w).
Proof. by destruct w. Qed.

(** The elements that fit in a group take no more than its registers. *)
Lemma vlmax_bytes L vtype vl w : 0 < L -> -3 <= log_lmul vtype <= 3 -> in_range 2 w -> vl <= VLMAX L vtype ->
  vl * 2 ^ w <= group (log_lmul vtype + w - log_sew vtype) * L.
Proof.
  intros HL. unfold log_lmul, log_sew, VLMAX, group. destruct (vtype_fields vtype) as [Hs Hm]. generalize dependent (GET_VSEW vtype). generalize dependent (GET_VLMUL vtype).
  intros m Hm s Hs Hlm Hw. unfold in_range in *.
  assert (m = 0 \/ m = 1 \/ m = 2 \/ m = 3 \/ m = 5 \/ m = 6 \/ m = 7) as Em by (destruct (Z.ltb_spec m 4); lia). clear Hlm Hm.
  assert (s = 0 \/ s = 1 \/ s = 2 \/ s = 3) as Es by lia. assert (w = 0 \/ w = 1 \/ w = 2 \/ w = 3) as Ew by lia. clear Hs Hw.
  destruct Em as [->|[->|[->|[->|[->|[->| ->]]]]]], Es as [->|[->|[->| ->]]], Ew as [->|[->|[->| ->]]];
    cbn -[Z.mul Z.shiftr Z.shiftl]; rewrite ?Z.shiftl_mul_pow2, ?Z.shiftr_div_pow2 by lia;
    repeat match goal with |- context [2 ^ ?e] => let x := eval vm_compute in (2 ^ e) in progress change (2 ^ e) with x end; intros Hv; Z.to_euclidean_division_equations; lia.
Qed.

Section Correct.
Context {hw : Hw} (platform : Z -> bool) (f : sbi_hart_features) {vh : VHw} (Hfits : v_set_fits vh).
Context {mem : Type} (lbu lhu : mem -> Z -> Z + sbi_trap_info) (sb : mem -> Z -> Z -> mem + sbi_trap_info) (junk : Z -> Z).
Local Set Default Proof Using "Type".

Lemma group_range k : -3 <= k <= 3 -> In (group k) [1; 2; 4; 8].
Proof.
  intros Hk. assert (k = -3 \/ k = -2 \/ k = -1 \/ k = 0 \/ k = 1 \/ k = 2 \/ k = 3) as E by lia.
  destruct E as [->|[->|[->|[->|[->|[->| ->]]]]]]; vm_compute; auto 10.
Qed.

Lemma span_range st v u : vinsn_ok st v -> vlegal v u -> In (i_span v u) [1; 2; 4; 8].
Proof.
  intros Hv Hl. unfold i_span. destruct (is_whole (i_mode v)) eqn:Ew.
  - destruct Hv as (_ & _ & _ & _ & Hm). destruct (i_mode v); try done. by destruct Hm as (_ & H & _).
  - destruct (lg_vl v u Hl Ew) as (_ & H1 & H2). destruct (is_indexed (i_mode v)); by apply group_range.
Qed.

Lemma prepare_ok st v u regs : vinsn_ok st v -> vlegal v u ->
  v_prepare (is_unit v.(i_mode)) (is_whole v.(i_mode)) (is_indexed v.(i_mode)) (is_ff v.(i_mode)) (vencode st v) regs u =
  (i_count v u, vop_of v u regs).
Proof.
  intros Hv Hl. destruct (vfields st v Hv) as (Fw & Fn & Fm & _ & Fs2 & Fd & F1 & F2).
  unfold v_prepare, v_select, GET_RS1, GET_RS2. rewrite Fw, Fn, Fm, Fs2, Fd, F1, F2.
  destruct (vtype_fields u.(v_type)) as [Hs Hm]. pose proof (log_width_small v.(i_width)) as Hw.
  pose proof (lg_lenb v u Hl) as HL. change (VLEN_MAX / 8) with 8192 in HL. pose proof (lg_vl v u Hl) as Hvl.
  destruct Hv as (_ & _ & _ & Hnf & Hmode). unfold in_range in Hs, Hm, Hw.
  assert (forall k, 0 <= k < 4 -> 1 <= 2 ^ k <= 8) as Hp by (intros k Hk; split; [lia|change 8 with (2 ^ 3); apply Z.pow_le_mono_r; lia]).
  assert (GET_LEN (log_width v.(i_width)) = 2 ^ i_view v) as El by (unfold GET_LEN; rewrite Z.shiftl_mul_pow2 by lia; apply Z.mul_1_l).
  pose proof (Hp (log_width v.(i_width)) ltac:(lia)) as Hlen. fold (i_view v) in Hlen.
  destruct (is_whole (i_mode v)) eqn:Ew.
  - assert (i_mode v = VWhole) as Em by (by destruct (i_mode v)).
    unfold i_count, vop_of, i_span, i_stride, i_len, i_fields. rewrite Em. cbn [is_unit is_whole is_indexed is_ff].
    rewrite El, Z.shiftr_div_pow2, (wrap_small 64) by (unfold in_range; lia || nia). fold (i_view v). by rewrite Z.mul_1_l.
  - destruct (Hvl eq_refl) as (_ & Hlm & Hem).
    destruct (emul_ok (GET_VLMUL u.(v_type)) (i_view v) (GET_VSEW u.(v_type)) Hm Hw Hs Hlm) as [E1 E2]. specialize (E1 Hem). fold (i_view v).
    assert (1 <= Z.shiftl 1 (GET_VSEW u.(v_type)) <= 8) as Hsl by (rewrite Z.shiftl_mul_pow2, Z.mul_1_l by lia; by apply Hp).
    unfold i_count, vop_of, i_span, i_stride, i_len, i_fields. fold (i_view v) in El. rewrite Ew, El, E1, E2. unfold log_sew.
    destruct (i_mode v); try done; cbn [is_unit is_indexed is_ff]; rewrite ?Z.shiftl_mul_pow2, ?Z.mul_1_l in * by lia;
      rewrite ?(wrap_small 64) by (unfold in_range; nia); reflexivity.
Qed.

Lemma group_place g w : In g [1; 2; 4; 8] -> w `mod` g = 0 -> w `mod` 8 + g <= 8.
Proof.
  intros Hg Hw. assert (exists q, 8 = g * q /\ 0 < g) as (q & Eq & Hg0) by (cbn in Hg; destruct Hg as [<-|[<-|[<-|[<-|[]]]]]; [exists 8|exists 4|exists 2|exists 1]; lia).
  pose proof (Z.mod_pos_bound w 8 ltac:(lia)) as Hb. apply Z.mod_divide in Hw as [k Ek]; [|lia].
  assert (exists j, w `mod` 8 = j * g) as (j & Ej); [|assert (j < q) by nia; nia].
  exists (k - q * (w / 8)). pose proof (Z.div_mod w 8 ltac:(lia)) as Ed. replace ((k - q * (w / 8)) * g) with (k * g - (g * q) * (w / 8)) by ring. rewrite <- Ek, <- Eq. lia.
Qed.

(** A legal instruction stays within the registers. *)
Lemma legal_ok st v u regs : vinsn_ok st v -> vlegal v u -> vop_ok (vop_of v u regs) (i_span v u) (i_count v u).
Proof.
  intros Hv Hl. pose proof (span_range st v u Hv Hl) as Hspan. destruct (lg_vd v u Hl) as [Hal Hend].
  pose proof (lg_lenb v u Hl) as HL. change (VLEN_MAX / 8) with 8192 in HL. pose proof (log_width_small v.(i_width)) as Hw. unfold in_range in Hw.
  assert (0 < i_span v u <= 8) as Hsp by (cbn in Hspan; destruct Hspan as [<-|[<-|[<-|[<-|[]]]]]; lia).
  destruct (vtype_fields u.(v_type)) as [Hs _]. unfold in_range in Hs. pose proof (lg_start v u Hl) as Hst.
  destruct Hv as (Hd & _ & Hr & Hnf & Hmode). unfold in_range in Hd, Hr.
  assert (forall k, 0 <= k < 4 -> 1 <= 2 ^ k <= 8) as Hp by (intros k Hk; split; [lia|change 8 with (2 ^ 3); apply Z.pow_le_mono_r; lia]).
  constructor; cbn [vop_of o_vlenb o_base o_stride o_vd o_vs2 o_view o_len o_nf o_emul o_masked o_indexed o_ff].
  - exact HL.
  - unfold i_len. destruct (is_indexed _); [unfold log_sew; pose proof (Hp _ Hs)|unfold i_view; pose proof (Hp _ Hw)]; lia.
  - unfold i_fields. destruct (is_whole _); lia.
  - lia.
  - unfold i_fields. destruct (is_whole _); [by left|by right].
  - lia.
  - intros s Hsn. split; [nia|]. apply group_place; [done|]. by rewrite Z.mod_add by lia.
  - split; [lia|]. unfold i_count, i_len, i_span. destruct (is_whole (i_mode v)) eqn:Ew.
    + assert (is_indexed (i_mode v) = false) as -> by (by destruct (i_mode v)). pose proof (Hp _ Hw). fold (i_view v) in *.
      rewrite Z.mul_comm. apply Z.mul_div_le. lia.
    + destruct (lg_vl v u Hl Ew) as (H1 & H2 & H3). destruct (is_indexed (i_mode v)).
      * pose proof (vlmax_bytes u.(v_lenb) u.(v_type) u.(v_vl) (log_sew u.(v_type)) ltac:(lia) H2 Hs H1) as H.
        by replace (log_lmul u.(v_type) + log_sew u.(v_type) - log_sew u.(v_type)) with (log_lmul u.(v_type)) in H by lia.
      * unfold log_emul. apply vlmax_bytes; (lia || exact Hw || done).
  - unfold i_view. lia.
  - intros e Hi He. assert (is_whole (i_mode v) = false) as Ew by (by destruct (i_mode v)). destruct (lg_vl v u Hl Ew) as (H1 & H2 & H3).
    destruct (lg_vs2 v u Hl Hi) as [Ha He2]. pose proof (group_place (group (log_emul v u)) _ (group_range _ H3) Ha) as Hg.
    pose proof (vlmax_bytes u.(v_lenb) u.(v_type) u.(v_vl) (i_view v) ltac:(lia) H2 Hw H1) as Hb. fold (log_emul v u) in Hb.
    unfold i_count in He. rewrite Ew in He. pose proof (Hp _ Hw) as Hpw. fold (i_view v) in Hpw.
    pose proof (group_range _ H3) as Hgr. assert (1 <= group (log_emul v u)) by (cbn in Hgr; destruct Hgr as [<-|[<-|[<-|[<-|[]]]]]; lia).
    pose proof (Z.mod_pos_bound (mode_rs2 (i_mode v)) 8 ltac:(lia)). unfold fits. split_and!; nia.
Qed.

(** The rule of the specification for the index registers: they are apart from the
    destination, or there is one field and either the destination elements are no
    wider and the groups begin together, or they are wider, the indices fill whole
    registers and the groups end together. *)
Definition index_clear (v : vinsn) (u : vunit) : Prop := is_indexed v.(i_mode) = true ->
  let vs2 := mode_rs2 v.(i_mode) in
  vs2 + group (log_emul v u) <= v.(i_vd) \/ v.(i_vd) + i_fields v * i_span v u <= vs2 \/
  i_fields v = 1 /\ (v.(i_vd) = vs2 /\ log_sew u.(v_type) <= i_view v \/
                     i_view v < log_sew u.(v_type) /\ 0 <= log_emul v u /\ vs2 + group (log_emul v u) = v.(i_vd) + i_span v u).

(** The place of a byte within the destination, when there is one field. *)
Lemma elem_of_ge L vd span len k e : 0 < L -> 0 < span -> 0 < len -> vd * L <= k -> field_of L vd span k < 1 ->
  e * len <= k - vd * L -> e <= elem_of L vd span len k.
Proof.
  intros HL Hs Hl Hk Hf He. unfold field_of, elem_of in *. assert (0 <= k - vd * L < span * L) as Hq.
  { split; [lia|]. pose proof (Z.div_mod (k - vd * L) (span * L) ltac:(nia)). pose proof (Z.mod_pos_bound (k - vd * L) (span * L) ltac:(nia)).
    assert ((k - vd * L) / (span * L) <= 0) by lia. nia. }
  rewrite Z.mod_small by done. apply Z.div_le_lower_bound; lia.
Qed.

Lemma clear_apart st v u regs : vinsn_ok st v -> vlegal v u -> index_clear v u -> index_apart (vop_of v u regs) (i_span v u) (i_count v u).
Proof.
  intros Hv Hl Hc Hi e k He Hk Hvd Hf. pose proof (legal_ok st v u regs Hv Hl) as Hok. destruct (ok_count _ _ _ Hok) as [_ Hcnt].
  pose proof (ok_span _ _ _ Hok) as Hsp. pose proof (ok_len _ _ _ Hok) as Hlen. cbn [vop_of o_indexed o_vs2 o_vlenb o_view o_vd o_nf o_len] in *.
  assert (is_whole (i_mode v) = false) as Ew by (by destruct (i_mode v)). destruct (lg_vl v u Hl Ew) as (H1 & H2 & H3).
  pose proof (lg_lenb v u Hl) as HL. pose proof (log_width_small v.(i_width)) as Hw. fold (i_view v) in Hw.
  pose proof (vlmax_bytes u.(v_lenb) u.(v_type) u.(v_vl) (i_view v) ltac:(lia) H2 Hw H1) as Hb. fold (log_emul v u) in Hb.
  assert (i_count v u = u.(v_vl)) as Ecnt by (unfold i_count; by rewrite Ew). rewrite Ecnt in *.
  destruct (vtype_fields u.(v_type)) as [Hs _]. fold (log_sew u.(v_type)) in Hs. unfold in_range in Hs, Hw.
  assert (i_len v u = 2 ^ log_sew u.(v_type)) as El by (unfold i_len; by rewrite Hi).
  pose proof (pow2_pos (i_view v) ltac:(lia)) as Hp. set (b := 2 ^ i_view v) in *.
  destruct (Hc Hi) as [H|[H|(Hnf & [[E Hle]|(Hlt & H0 & E)])]].
  - exfalso. assert ((e + 1) * b <= group (log_emul v u) * v_lenb u) by nia. nia.
  - exfalso. assert (i_fields v <= field_of (v_lenb u) (i_vd v) (i_span v u) k); [|lia]. unfold field_of. apply Z.div_le_lower_bound; nia.
  - rewrite Hnf in Hf. apply elem_of_ge; [lia..|]. assert (i_len v u <= b) by (rewrite El; apply Z.pow_le_mono_r; lia). rewrite E in *. nia.
  - rewrite Hnf in Hf. apply elem_of_ge; [lia..|]. assert (0 <= log_lmul u.(v_type)) by (unfold log_emul in *; lia).
    assert (i_span v u * b = group (log_emul v u) * i_len v u) as Eq.
    { rewrite El. unfold i_span, group, b. rewrite Ew, Hi, !Z.max_r, <- !Z.pow_add_r by lia. f_equal. unfold log_emul. lia. }
    set (a := i_len v u) in *. set (g := group (log_emul v u)) in *. set (L := v_lenb u) in *.
    assert (a * (e * (a - b)) <= a * (L * (i_span v u - g))) as Hm.
    { assert (b <= a) by (rewrite El; apply Z.pow_le_mono_r; lia). assert (0 <= (a - b) * (i_span v u * L - e * a)) by (apply Z.mul_nonneg_nonneg; nia). nia. }
    apply Z.mul_le_mono_pos_l in Hm; [|lia]. nia.
Qed.

Lemma count_small st v u : vinsn_ok st v -> vlegal v u -> 0 < i_count v u <= 65536.
Proof.
  intros Hv Hl. pose proof (legal_ok st v u (Regs [] 0 0) Hv Hl) as Hok. destruct (ok_count _ _ _ Hok) as [H0 Hc]. pose proof (ok_len _ _ _ Hok) as H1.
  pose proof (ok_L _ _ _ Hok) as H2. pose proof (span_range st v u Hv Hl) as Hs. cbn [vop_of o_len o_vlenb] in *.
  assert (1 <= i_span v u <= 8) by (cbn in Hs; destruct Hs as [<-|[<-|[<-|[<-|[]]]]]; lia). nia.
Qed.

(** What the emulation leaves in the vector unit: the registers [regs], the type of
    the program, and the vector length [n].  The length after an access to whole
    registers is not part of it, and nor is [vstart]. *)
Definition vdone (v : vinsn) (u : vunit) (n : Z) (regs : list Z) (u' : vunit) : Prop :=
  u'.(v_lenb) = u.(v_lenb) /\ u'.(v_type) = u.(v_type) /\ u'.(v_regs) = regs /\ (is_whole v.(i_mode) = false -> u'.(v_vl) = n).

Lemma restore v u n u' : vlegal v u -> 0 <= n <= i_count v u -> u'.(v_lenb) = u.(v_lenb) ->
  vdone v u n u'.(v_regs) (vsetvl n u.(v_type) u') /\ v_start (vsetvl n u.(v_type) u') = 0.
Proof using Hfits.
  intros Hl Hn Hu. unfold vsetvl. rewrite (lg_type v u Hl), Hu. split; [|done]. do 3 (split; [done|]). cbn [v_vl]. intros Ew.
  rewrite Hfits; [done|]. destruct (lg_vl v u Hl Ew) as (H1 & _). unfold i_count in Hn. rewrite Ew in Hn. lia.
Qed.

Lemma s32_of_count n : 0 <= n <= 65536 -> s32 n = n.
Proof. intros Hn. unfold s32, signed. rewrite wrap_small by (unfold in_range; lia). by rewrite (proj2 (Z.ltb_lt n (2 ^ (32 - 1)))) by lia. Qed.

(** The mask is register 0. *)
Lemma mask_ok st v u regs mask : vinsn_ok st v -> vlegal v u -> Z.of_nat (length mask) = VLEN_MAX / 8 ->
  exists mask' u', v_mask (vop_of v u regs) mask u = Some (mask', u') /\ u'.(v_lenb) = u.(v_lenb) /\ u'.(v_regs) = u.(v_regs) /\
    (v.(i_masked) = true -> mask' = take (Z.to_nat u.(v_lenb)) u.(v_regs) ++ drop (Z.to_nat u.(v_lenb)) mask').
Proof using Hfits.
  intros Hv Hl Hm. unfold v_mask. cbn [vop_of o_masked o_vlenb]. destruct (i_masked v); [|by exists mask, u].
  pose proof (lg_lenb v u Hl) as HL. pose proof (lg_regs v u Hl) as Hr. change (VLEN_MAX / 8) with 8192 in *.
  destruct (get_vreg_effect Hfits u.(v_lenb) HL 0 0 u.(v_lenb) mask u) as (u' & E & Hu & Hr'); [unfold fits; rewrite Z.mod_0_l by lia; lia|done|lia|done|].
  rewrite E. do 2 eexists. split; [done|]. split_and!; [done|done|]. intros _. unfold at_. cbn [Z.mul Z.add Z.to_nat]. rewrite drop_0.
  assert (length (take (Z.to_nat u.(v_lenb)) u.(v_regs)) = Z.to_nat u.(v_lenb)) as Et by (rewrite length_take; lia).
  f_equal. rewrite drop_app_length'; [done|]. by rewrite Et.
Qed.

Definition load_kinds : bool * bool * bool * bool -> Z -> sbi_trap_regs -> vunit -> Z * vop :=
  fun '(a, b, i, ff) => v_prepare a b i ff.

Lemma prepared v u regs : vinsn_ok false v -> vlegal v u ->
  let insn := vencode false v in
  v_prepare (IS_UNIT_STRIDE_LOAD insn || IS_FAULT_ONLY_FIRST_LOAD insn) (IS_WHOLE_REG_LOAD insn) (IS_INDEXED_LOAD insn)
    (IS_FAULT_ONLY_FIRST_LOAD insn) insn regs u = (i_count v u, vop_of v u regs).
Proof.
  intros Hv Hl insn. change (load_kinds (vkind false insn) insn regs u = (i_count v u, vop_of v u regs)).
  unfold insn. rewrite (vkind_ok false v Hv). by apply prepare_ok.
Qed.

Lemma prepared_st v u regs : vinsn_ok true v -> vlegal v u ->
  let insn := vencode true v in
  v_prepare (IS_UNIT_STRIDE_STORE insn) (IS_WHOLE_REG_STORE insn) (IS_INDEXED_STORE insn) false insn regs u = (i_count v u, vop_of v u regs).
Proof.
  intros Hv Hl insn. change (load_kinds (vkind true insn) insn regs u = (i_count v u, vop_of v u regs)).
  unfold insn. rewrite (vkind_ok true v Hv). by apply prepare_ok.
Qed.

Lemma not_illegal st v u : vinsn_ok st v -> vlegal v u -> negb (GET_MEW (vencode st v) =? 0) || (VLEN_MAX / 8 <? u.(v_lenb)) = false.
Proof.
  intros Hv Hl. destruct (vfields st v Hv) as (_ & _ & _ & -> & _). pose proof (lg_lenb v u Hl). apply Z.ltb_ge. lia.
Qed.

(** The buffers of the emulators have their declared sizes. *)
Definition buffers (mask bytes : list Z) : Prop := Z.of_nat (length mask) = VLEN_MAX / 8 /\ Z.of_nat (length bytes) = BYTES.

(** The emulator once the instruction is known to be [v]. *)
Lemma ld_emulated v u m c trap mask bytes : vinsn_ok false v -> vlegal v u ->
  sbi_get_insn lhu m c.(cregs).(mepc) = inl (vencode false v) -> buffers mask bytes ->
  exists mask' u', u'.(v_lenb) = u.(v_lenb) /\ u'.(v_regs) = u.(v_regs) /\
    (v.(i_masked) = true -> mask' = take (Z.to_nat u.(v_lenb)) u.(v_regs) ++ drop (Z.to_nat u.(v_lenb)) mask') /\
    sbi_misaligned_v_ld_emulator platform f lbu lhu junk mask bytes m c trap u =
    match v_ld_loop lbu junk (Z.to_nat (i_count v u)) (vop_of v u c.(cregs)) mask' m u.(v_start) (i_count v u) bytes u' with
    | None => sbi_panic
    | Some (vl, e, u') => v_finish platform f c trap u.(v_type) vl e u'
    end.
Proof using Hfits.
  intros Hv Hl Hi [Hm Hb]. destruct (mask_ok false v u c.(cregs) mask Hv Hl Hm) as (mask' & u' & E & Hu & Hr & Hmask).
  exists mask', u'. split_and!; [done|done|done|]. unfold sbi_misaligned_v_ld_emulator.
  rewrite Hi, (prepared v u c.(cregs) Hv Hl), (not_illegal false v u Hv Hl), E. reflexivity.
Qed.

(** C18: the emulator of misaligned vector loads does what the instruction says,
    for the vector loads of the specification whose encoded width is not a byte
    (strided ones and whole registers also of bytes): unit stride, strided,
    indexed, fault-only-first and whole registers, with one to eight fields, masked
    or not, for every vector type and from any [vstart].
    When the active elements can be read it returns their number without a trap;
    byte [i] of field [s] of an active element [e] is in the registers at its
    place, with the value of the memory at the address of the element plus that
    of the byte in it, every other byte of every register is as it was, [vstart] is
    0 and [vtype] and [vl] have the values of the program.
    When an element is the first with a byte that traps, the elements before it
    are loaded; the trap is redirected with the offset of the byte, except that a
    fault-only-first load whose element is not element 0 sets [vl] to that
    element and goes on, and of the registers changes bytes of that element only.
    Not covered: indexed loads with indices of bytes, which the code takes for
    strided ones ([byte_index_is_strided]).  Not claimed: [vl] after a load of whole
    registers ([whole_load_changes_vl]) and [vstart] after a trap, where the
    specification has the element that trapped ([trap_forgets_vstart]).  The
    instruction is not reserved ([vlegal], [index_clear]), and a vector length that
    fits is granted by the hardware. *)
Theorem vector_load_correct v u m c trap mask bytes h bt : vinsn_ok false v -> vlegal v u -> index_clear v u ->
  sbi_get_insn lhu m c.(cregs).(mepc) = inl (vencode false v) -> buffers mask bytes ->
  let o := vop_of v u c.(cregs) in
  let run := sbi_misaligned_v_ld_emulator platform f lbu lhu junk mask bytes m c trap u h in
  let regs_to e := loaded o (i_span v u) u.(v_regs) bt u.(v_start) e in
  ((forall e, u.(v_start) <= e < i_count v u -> active o u.(v_regs) e = true -> readable lbu o u.(v_regs) bt m e) ->
     exists u', run = Some ((i_count v u, c, u'), h) /\ vdone v u (i_count v u) (regs_to (i_count v u)) u' /\ u'.(v_start) = 0) /\
  (forall e s k t, u.(v_start) <= e < i_count v u -> first_fault lbu o u.(v_regs) bt m u.(v_start) e s k t ->
     if is_ff v.(i_mode) && negb (e =? 0)
     then exists u', run = Some ((e, c, u'), h) /\ vdone v u e u'.(v_regs) u' /\ u'.(v_start) = 0 /\
            forall j, ~ in_elem o (i_span v u) e (Z.of_nat j) -> u'.(v_regs) !! j = regs_to e !! j
     else forall rc c' h',
            redirect platform f c (with_tinst t (sbi_misaligned_tinst_fixup trap.(tinst) t.(tinst) k)) h = Some ((rc, c'), h') ->
            exists u', run = Some ((rc, c', u'), h') /\ vdone v u (i_count v u) (regs_to e) u').
Proof using Hfits.
  intros Hv Hl Hc Hi Hbuf o run regs_to. destruct (ld_emulated v u m c trap mask bytes Hv Hl Hi Hbuf) as (mask' & u' & Hu & Hr & Hm & E).
  pose proof (legal_ok false v u c.(cregs) Hv Hl) as Hok. pose proof (lg_regs v u Hl) as HR. pose proof (clear_apart false v u c.(cregs) Hv Hl Hc) as Hap.
  pose proof (lg_start v u Hl) as Hst. pose proof (count_small false v u Hv Hl) as Hcnt. destruct Hbuf as [_ Hb]. unfold run. rewrite E. split.
  - intros Hread.
    destruct (ld_loop_ok Hfits lbu junk o (i_span v u) (i_count v u) Hok u.(v_regs) HR bt u.(v_start) mask' m bytes u' Hm Hap Hst Hu Hr Hb Hread) as (u2 & E2 & Hu2 & Hr2).
    fold o. rewrite E2. unfold v_finish. rewrite s32_of_count by lia. eexists. split; [reflexivity|]. unfold regs_to. rewrite <- Hr2. apply restore; (done || lia).
  - intros e s k t He Hf.
    pose proof (ld_loop_trap Hfits lbu junk o (i_span v u) (i_count v u) Hok u.(v_regs) HR bt u.(v_start) e s k t mask' m bytes u' Hm Hap ltac:(lia) ltac:(lia) Hu Hr Hb Hf) as Hloop.
    change (o_ff o) with (is_ff v.(i_mode)) in Hloop. fold o. destruct (is_ff (i_mode v) && negb (e =? 0)).
    + destruct Hloop as (u2 & E2 & Hu2 & Hr2). rewrite E2. unfold v_finish. rewrite s32_of_count by lia. eexists. split; [reflexivity|].
      destruct (restore v u e u2 Hl ltac:(lia) Hu2) as [Hd Hs0]. rewrite (proj1 (proj2 (proj2 Hd))). split; [exact Hd|]. split; [exact Hs0|exact Hr2].
    + destruct Hloop as (u2 & E2 & Hu2 & Hr2). intros rc c' h' Hred. rewrite E2. unfold v_finish. rewrite (csr_bind _ _ _ _ _ Hred).
      eexists. split; [reflexivity|]. unfold regs_to. rewrite <- Hr2. apply restore; (done || lia).
Qed.

(** C19: the emulator of misaligned vector stores does what the instruction says,
    for the vector stores of the specification whose encoded width is not a byte
    (strided ones and whole registers also of bytes).
    It writes the bytes of the fields of the active elements, in the order of the
    elements, of the fields and of the bytes, to their addresses, and no other;
    it stops at the first write that traps, which is redirected with the offset
    of the byte.  The vector registers and [vtype] are as they were, and so is [vl].
    Not covered: indexed stores with indices of bytes, which the code takes for
    strided ones ([byte_index_is_strided]).  Not claimed: [vl] after a store of whole
    registers and [vstart] after a trap ([trap_forgets_vstart]).  The instruction is
    not reserved ([vlegal]), and a vector length that fits is granted. *)
Theorem vector_store_correct v u m c trap mask bytes h : vinsn_ok true v -> vlegal v u ->
  sbi_get_insn lhu m c.(cregs).(mepc) = inl (vencode true v) -> buffers mask bytes ->
  let o := vop_of v u c.(cregs) in
  let run := sbi_misaligned_v_st_emulator platform f lhu sb mask bytes m c trap u h in
  let '(m', e) := store_all sb m (store_writes o (i_span v u) u.(v_regs) u.(v_start) (i_count v u)) in
  match e with
  | None => exists u', run = Some ((i_count v u, c, u', m'), h) /\ vdone v u (i_count v u) u.(v_regs) u' /\ u'.(v_start) = 0
  | Some (k, t) => forall rc c' h',
      redirect platform f c (with_tinst t (sbi_misaligned_tinst_fixup trap.(tinst) t.(tinst) k)) h = Some ((rc, c'), h') ->
      exists u', run = Some ((rc, c', u', m'), h') /\ vdone v u (i_count v u) u.(v_regs) u'
  end.
Proof using Hfits.
  intros Hv Hl Hi [Hm Hb] o run. destruct (mask_ok true v u c.(cregs) mask Hv Hl Hm) as (mask' & u1 & E1 & Hu1 & Hr1 & Hmask).
  pose proof (legal_ok true v u c.(cregs) Hv Hl) as Hok. pose proof (lg_regs v u Hl) as HR.
  pose proof (lg_start v u Hl) as Hst. pose proof (count_small true v u Hv Hl) as Hcnt.
  destruct (st_loop_ok Hfits sb o (i_span v u) (i_count v u) Hok u.(v_regs) HR (Z.to_nat (i_count v u - 1 - u.(v_start))) (Z.to_nat (u.(v_start) + 1))
    u.(v_start) mask' bytes u1 m Hmask ltac:(lia) ltac:(lia) Hu1 Hr1 Hb) as (u2 & E2 & Hu2 & Hr2).
  replace (Z.to_nat (i_count v u - 1 - u.(v_start)) + Z.to_nat (u.(v_start) + 1))%nat with (Z.to_nat (i_count v u)) in E2 by lia.
  unfold run, sbi_misaligned_v_st_emulator. rewrite Hi, (prepared_st v u c.(cregs) Hv Hl), (not_illegal true v u Hv Hl), E1. fold o. rewrite E2.
  pose proof (restore v u (i_count v u) u2 Hl ltac:(lia) Hu2) as [Hd Hs0]. rewrite Hr2 in Hd.
  destruct (store_all sb m _) as [m' [[k t]|]]; cbn [fst snd]; unfold v_finish.
  - intros rc c' h' Hred. erewrite csr_bind; [|by rewrite (csr_bind _ _ _ _ _ Hred)]. eexists. split; [reflexivity|exact Hd].
  - rewrite s32_of_count by lia. eexists. split; [reflexivity|]. split; [exact Hd|exact Hs0].
Qed.
End Correct.

(** A trap of an element leaves [vstart] at zero, whatever element it was: writing
    [vl] back resets it after it was set to the element. *)
Lemma trap_forgets_vstart {hw : Hw} platform f {vh : VHw} c trap vtype vl e u r h :
  v_finish platform f c trap vtype vl e u h = Some r -> r.1.2.(v_start) = 0.
Proof.
  unfold v_finish. assert ((vsetvl vl vtype u).(v_start) = 0) as E by (unfold vsetvl; by destruct (v_supported vtype)).
  destruct e as [[i t]|]; [|intros [= <-]; exact E]. unfold mbind, csrM_bind. destruct (redirect _ _ _ _ h) as [[[rc c'] h']|]; [|done].
  intros [= <-]. exact E.
Qed.

(** ** The handlers *)

Lemma vector_low16 :
  forallb (fun op => forallb (fun w => all 5 (fun vd => all 1 (fun b =>
    match ld_decode (op + 2 ^ 7 * (vd + 2 ^ 5 * (width_code w + 2 ^ 3 * (b + 2 ^ 5 * 0)))) with Some k => k.(k_vector) | None => false end)))
    [B1; B2; B4; B8]) [0x07; 0x27] = true.
Proof. vm_compute. reflexivity. Qed.

(** The handlers take every vector instruction for one. *)
Lemma vector_decode st v : vinsn_ok st v -> option_map k_vector (ld_decode (vencode st v)) = Some true.
Proof.
  intros (Hd & _). assert (option_map k_vector (ld_decode (vencode st v)) = option_map (fun x => x.1.2) (option_map ld_view (ld_decode (vencode st v)))) as ->
    by (by destruct (ld_decode _)).
  rewrite (ld_decode_half (vencode st v) _ (half_of_fields _ _ _ _ _)). pose proof vector_low16 as H. rewrite forallb_forall in H.
  specialize (H (if st then 0x27 else 0x07) ltac:(destruct st; cbn; auto)). rewrite forallb_forall in H.
  specialize (H v.(i_width) ltac:(destruct v.(i_width); cbn; auto)).
  pose proof (all_spec 1 _ (v.(i_rs1) `mod` 2) (all_spec 5 _ v.(i_vd) H Hd) ltac:(apply Z.mod_pos_bound; lia)) as H'. cbv beta in H'.
  destruct (ld_decode _) as [k|]; [|done]. cbn. by rewrite H'.
Qed.

Lemma vencode_low2 st v : vencode st v `mod` 4 = 3.
Proof.
  unfold vencode. set (r := v.(i_vd) + _). replace ((if st then 0x27 else 0x07) + 2 ^ 7 * r) with (3 + ((if st then 9 else 1) + 2 ^ 5 * r) * 4) by (destruct st; lia).
  by rewrite Z.mod_add by lia.
Qed.

(** The handler of misaligned loads with the emulator: when that has loaded
    elements, the program goes on after the instruction. *)
Lemma vector_load_handled {hw : Hw} platform f {vh : VHw} {mem} lbu lhu junk mask bytes (m : mem) c trap u v n u' h h' :
  vinsn_ok false v -> Z.land trap.(tinst) 1 = 0 -> sbi_get_insn lhu m c.(cregs).(mepc) = inl (vencode false v) ->
  sbi_misaligned_v_ld_emulator platform f lbu lhu junk mask bytes m c trap u h = Some ((n, c, u'), h') -> 0 < n ->
  sbi_misaligned_load_handler platform f lbu lhu
    (fun c trap => '(rc, c, _) ← sbi_misaligned_v_ld_emulator platform f lbu lhu junk mask bytes m c trap u; mret (rc, c)) m c trap h
  = Some ((0, advance c 4), h').
Proof.
  intros Hv Ht Hi E Hn. unfold sbi_misaligned_load_handler, sbi_trap_emulate_load, trapped_insn. rewrite Ht, Hi. cbn [Z.eqb negb].
  rewrite INSN_LEN_mod, vencode_low2. cbn [Z.eqb Pos.eqb]. pose proof (vector_decode false v Hv) as Hd.
  destruct (ld_decode (vencode false v)) as [k|]; [|done]. cbn [option_map] in Hd. apply (inj Some) in Hd as ->.
  erewrite csr_bind; [|by rewrite (csr_bind _ _ _ _ _ E)]. cbn. by rewrite (proj2 (Z.leb_gt n 0)) by lia.
Qed.

(** ** Examples *)

Definition v_hw : VHw := {| v_set := Z.min; v_supported := fun t => (0 <=? t) && (t <? 256) |}.

Lemma v_hw_fits : v_set_fits v_hw.
Proof. intros avl vlmax H. apply Z.min_l. lia. Qed.

(** Registers of 16 bytes, two elements of 32 bits; [a0] is 0x2001. *)
Definition demo_unit : vunit := VUnit 16 2 0x10 0 (replicate 512 0xee).
Definition demo_vctx : context := Ctx (Regs (<[10%nat := 0x2001]> (replicate 32 0)) 0x1000 0) (replicate 32 0).
Definition demo_vmem (insn : Z) : byte_mem := list_to_map
  (imap (fun i b => (0x1000 + Z.of_nat i, b)) (le_bytes 4 insn) ++ imap (fun i b => (0x2001 + Z.of_nat i, b)) [1; 2; 3; 4; 5; 6; 7; 8]).
Definition demo_mask : list Z := replicate (Z.to_nat 8192) 0.
Definition demo_bytes : list Z := replicate 64 0.

(** [vle32.v v8, (a0)], [vse32.v v8, (a0)], [vl1re32.v v8, (a0)] *)
Definition vle32 : vinsn := VInsn VUnitStride 1 B4 false 10 8.
Definition vl1re32 : vinsn := VInsn VWhole 1 B4 false 10 8.

Lemma demo_legal v : In v [vle32; vl1re32] -> @vlegal v_hw v demo_unit.
Proof.
  intros Hv. assert (v = vle32 \/ v = vl1re32) as [->| ->] by (destruct Hv as [<-|[<-|[]]]; auto);
    (constructor; try (vm_compute; intuition (discriminate || reflexivity)); try (intros; vm_compute; intuition (discriminate || reflexivity))).
Defined.

Lemma demo_buffers : buffers demo_mask demo_bytes.
Proof. split; vm_compute; reflexivity. Defined.

Lemma vector_load_correct_witness : exists u',
  @sbi_misaligned_v_ld_emulator hw_full (fun _ => false) no_features v_hw byte_mem mem_lbu mem_lhu (fun _ => 0) demo_mask demo_bytes
    (demo_vmem (vencode false vle32)) demo_vctx (demo_trap 4 0x2001) demo_unit hyp_hart = Some ((2, demo_vctx, u'), hyp_hart) /\
  take 16 (drop 128 u'.(v_regs)) = [1; 2; 3; 4; 5; 6; 7; 8; 0xee; 0xee; 0xee; 0xee; 0xee; 0xee; 0xee; 0xee] /\ u'.(v_vl) = 2.
Proof.
  destruct (@vector_load_correct hw_full (fun _ => false) no_features v_hw v_hw_fits byte_mem mem_lbu mem_lhu (fun _ => 0) vle32 demo_unit
      (demo_vmem (vencode false vle32)) demo_vctx (demo_trap 4 0x2001) demo_mask demo_bytes hyp_hart
      (fun a => default 0 (demo_vmem (vencode false vle32) !! a))) as [H _].
  - vm_compute. intuition (discriminate || reflexivity).
  - apply demo_legal. left. reflexivity.
  - intros Hi. discriminate Hi.
  - vm_compute. reflexivity.
  - apply demo_buffers.
  - destruct H as (u' & E & (_ & _ & Er & Hvl) & _).
    + intros e He _ s i Hs Hi. change (i_count vle32 demo_unit) with 2 in He. change (v_start demo_unit) with 0 in He.
      change (o_nf _) with 1 in Hs. change (o_len _) with 4 in Hi.
      assert (s = 0) as -> by lia. assert (e = 0 \/ e = 1) as [->| ->] by lia;
        (assert (i = 0 \/ i = 1 \/ i = 2 \/ i = 3) as [->|[->|[->| ->]]] by lia; vm_compute; reflexivity).
    + exists u'. split; [exact E|]. rewrite Er. split; [vm_compute; reflexivity|]. by apply Hvl.
Defined.

Lemma vector_store_correct_witness : exists u' m',
  @sbi_misaligned_v_st_emulator hw_full (fun _ => false) no_features v_hw byte_mem mem_lhu mem_sb demo_mask demo_bytes
    (demo_vmem (vencode true vle32)) demo_vctx (demo_trap 6 0x2001) demo_unit hyp_hart
    = Some ((2, demo_vctx, u', m'), hyp_hart) /\ vdone vle32 demo_unit 2 demo_unit.(v_regs) u' /\ m' !! 0x2008 = Some 0xee.
Proof.
  pose proof (@vector_store_correct hw_full (fun _ => false) no_features v_hw v_hw_fits byte_mem mem_lhu mem_sb vle32 demo_unit
    (demo_vmem (vencode true vle32)) demo_vctx (demo_trap 6 0x2001) demo_mask demo_bytes hyp_hart) as H.
  assert (vinsn_ok true vle32) as Hv by (vm_compute; intuition (discriminate || reflexivity)).
  specialize (H Hv (demo_legal vle32 (or_introl eq_refl)) ltac:(vm_compute; reflexivity) demo_buffers). cbv zeta in H.
  change (i_span vle32 demo_unit) with 1 in H. change (i_count vle32 demo_unit) with 2 in H. change (v_start demo_unit) with 0 in H.
  destruct (store_all mem_sb _ _) as [m' e] eqn:E. assert (e = None) as -> by (change e with (m', e).2; rewrite <- E; vm_compute; reflexivity).
  destruct H as (u' & H & Hd & _). exists u', m'. split; [exact H|]. split; [exact Hd|].
  change m' with (m', @None (Z * sbi_trap_info)).1. rewrite <- E. vm_compute. reflexivity.
Defined.

(** A load of one whole register while the vector length is 2: afterwards it is 4. *)
Lemma whole_load_changes_vl : exists u',
  @sbi_misaligned_v_ld_emulator hw_full (fun _ => false) no_features v_hw byte_mem (fun _ _ => inl 0) mem_lhu (fun _ => 0) demo_mask demo_bytes
    (demo_vmem (vencode false vl1re32)) demo_vctx (demo_trap 4 0x2001) demo_unit hyp_hart = Some ((4, demo_vctx, u'), hyp_hart) /\
  demo_unit.(v_vl) = 2 /\ u'.(v_vl) = 4.
Proof. eexists. split; [vm_compute; reflexivity|]. vm_compute. split; reflexivity. Qed.
