(* ===== verification/TrapDispatch.v ===== *)
(** * Trap dispatch (lib/sbi/sbi_trap.c, sbi_double_trap.c, sbi_irqchip.c)

    [sbi_trap_handler] gives a trap to its handler: those of files Trap, TrapLdst
    and IllegalInsn over the registers of the hart.  What the other subsystems keep
    is a state [W], on which their entry points are parameters: the calls of the
    supervisor, counting of firmware events, the timer, inter-processor interrupts,
    the counter overflow, the interrupt controller, software events.  [None] is a
    hart that hangs.  [exceptions_below_m_survive] assumes nothing of those
    parameters; [double_trap_from_user_hangs] is the cause it leaves out. *)

From S2P Require Import Prelude SbiTypes Bitops Domain Csr Pmp PmpProps HartFeat Trap TrapLdst TrapStore Timer IllegalInsn.

Local Open Scope Z_scope.

Definition MCAUSE_IRQ_MASK : Z := Z.shiftl 1 63.
Definition IRQ_M_SOFT : Z := 3.
Definition IRQ_M_TIMER : Z := 7.
Definition IRQ_M_EXT : Z := 11.
Definition TOPI_IID_SHIFT : Z := 16.
Definition CAUSE_MISALIGNED_LOAD : Z := 0x4.
Definition CAUSE_MISALIGNED_STORE : Z := 0x6.
Definition CAUSE_STORE_ACCESS : Z := 0x7.
Definition CAUSE_SUPERVISOR_ECALL : Z := 0x9.
Definition CAUSE_MACHINE_ECALL : Z := 0xb.
Definition CAUSE_DOUBLE_TRAP : Z := 0x10.
Definition SBI_PMU_FW_MISALIGNED_LOAD : Z := 0.
Definition SBI_PMU_FW_MISALIGNED_STORE : Z := 1.
Definition SBI_PMU_FW_ACCESS_LOAD : Z := 2.
Definition SBI_PMU_FW_ACCESS_STORE : Z := 3.

(** ** The interrupt controllers *)

(** [irq_handle] of the last device that has one; [None] is [default_irqfn]. *)
Record sbi_irqchip_device (W : Type) := IrqchipDevice { warm_init : option (W -> Z * W); irq_handle : option (W -> Z * W) }.
Arguments IrqchipDevice {W} _ _.
Arguments warm_init {W} _.
Arguments irq_handle {W} _.

Record irqchips (W : Type) := Irqchips { irqchip_list : list (sbi_irqchip_device W); ext_irqfn : option (W -> Z * W) }.
Arguments Irqchips {W} _ _.
Arguments irqchip_list {W} _.
Arguments ext_irqfn {W} _.

Definition sbi_irqchip_process {W} (chips : irqchips W) (w : W) : Z * W :=
  match chips.(ext_irqfn) with Some fn => fn w | None => (SBI_ENODEV, w) end.

Definition sbi_irqchip_add_device {W} (dev : sbi_irqchip_device W) (chips : irqchips W) : irqchips W :=
  Irqchips (chips.(irqchip_list) ++ [dev]) (match dev.(irq_handle) with Some fn => Some fn | None => chips.(ext_irqfn) end).

Fixpoint warm_inits {W} (devs : list (sbi_irqchip_device W)) (w : W) : Z * W :=
  match devs with
  | [] => (0, w)
  | dev :: devs =>
      match dev.(warm_init) with
      | None => warm_inits devs w
      | Some fn => let '(rc, w) := fn w in if negb (rc =? 0) then (rc, w) else warm_inits devs w
      end
  end.

(** [platform_init] is the function of the platform. *)
Definition sbi_irqchip_init {W} `{Hw} (platform_init : irqchips W -> W -> Z * (irqchips W * W)) (cold_boot : bool) (chips : irqchips W) (w : W)
    : csrM (Z * irqchips W * W) :=
  let '(rc, (chips, w)) := if cold_boot then platform_init chips w else (0, (chips, w)) in
  if negb (rc =? 0) then mret (rc, chips, w)
  else
    let '(rc, w) := warm_inits chips.(irqchip_list) w in
    if negb (rc =? 0) then mret (rc, chips, w)
    else
      (match chips.(ext_irqfn) with Some _ => csr_set CSR_MIE (2 ^ 11) | None => mret tt end);;
      mret (0, chips, w).

Definition sbi_irqchip_exit {W} `{Hw} (chips : irqchips W) : csrM unit :=
  match chips.(ext_irqfn) with Some _ => csr_clear CSR_MIE (2 ^ 11) | None => mret tt end.

(** ** Dispatch *)

Section Dispatch.
Context {hw : Hw} (platform : Z -> bool) (f : sbi_hart_features).
Context {D : Type} (clock : time_source -> nat -> Z) (me : Z).
Context {mem : Type} (lbu lhu : mem -> Z -> Z + sbi_trap_info) (sb : mem -> Z -> Z -> mem + sbi_trap_info).
Context (v_ld : context -> sbi_trap_info -> csrM (Z * context)) (v_st : mem -> context -> sbi_trap_info -> csrM (Z * context * mem)).
Context (emulate_load : Z -> Z -> option Z) (emulate_store : mem -> Z -> Z -> Z -> option mem).
Context {W : Type} (ecall : context -> W -> csrM (Z * context * W)) (pmu_ctr_incr_fw : Z -> W -> W).
Context (timer_process ipi_process pmu_ovf_irq : W -> csrM W) (pmu_irq_bit : Z) (chips : irqchips W) (mtopi : W -> Z).
Context (sse_inject_double_trap : W -> Z * W) (sse_process_pending_events : sbi_trap_regs -> W -> csrM (sbi_trap_regs * W)).

(** What the handlers change: memory, the timer, the rest, and the pointer to the
    trap context in the scratch space. *)
Record trap_state := TrapState { tmem : mem; ttimer : timer_state D; tw : W; tctx : option nat }.

Definition set_tw (w : W) (s : trap_state) : trap_state := TrapState s.(tmem) s.(ttimer) w s.(tctx).
Definition set_tmem (m : mem) (s : trap_state) : trap_state := TrapState m s.(ttimer) s.(tw) s.(tctx).
Definition set_ttimer (t : timer_state D) (s : trap_state) : trap_state := TrapState s.(tmem) t s.(tw) s.(tctx).
Definition set_tctx (p : option nat) (s : trap_state) : trap_state := TrapState s.(tmem) s.(ttimer) s.(tw) p.

Definition sbi_trap_nonaia_irq (irq : Z) (w : W) : csrM (Z * W) :=
  if irq =? IRQ_M_TIMER then w ← timer_process w; mret (0, w)
  else if irq =? IRQ_M_SOFT then w ← ipi_process w; mret (0, w)
  else if irq =? IRQ_M_EXT then mret (sbi_irqchip_process chips w)
  else if irq =? pmu_irq_bit then w ← pmu_ovf_irq w; mret (0, w)
  else mret (SBI_ENOENT, w).

(** [while ((mtopi = csr_read(CSR_MTOPI)))]; the register follows the state of the devices. *)
Fixpoint sbi_trap_aia_irq (fuel : nat) (w : W) : csrM (Z * W) :=
  match fuel with
  | O => sbi_panic
  | S fuel =>
      if mtopi w =? 0 then mret (0, w)
      else
        '(rc, w) ← sbi_trap_nonaia_irq (Z.shiftr (mtopi w) TOPI_IID_SHIFT) w;
        if negb (rc =? 0) then mret (rc, w) else sbi_trap_aia_irq fuel w
  end.

Definition sbi_double_trap_handler (regs : sbi_trap_regs) (trap : sbi_trap_info) (w : W) : csrM (Z * sbi_trap_regs * W) :=
  if negb (sbi_mstatus_prev_mode regs.(mstatus) =? PRV_S) then mret (SBI_EINVAL, regs, w)
  else if sbi_regs_from_virt regs then '(rc, regs) ← sbi_trap_redirect platform f regs trap; mret (rc, regs, w)
  else let '(rc, w) := sse_inject_double_trap w in mret (rc, regs, w).

(** The switch over the cause; [i] is the number of the reading of the clock. *)
Definition trap_exception (i : nat) (c : context) (trap : sbi_trap_info) (s : trap_state) : csrM (Z * context * trap_state) :=
  let counted ev := set_tw (pmu_ctr_incr_fw ev s.(tw)) s in
  let cause := trap.(cause) in
  if cause =? CAUSE_ILLEGAL_INSTRUCTION then
    '(rc, regs, t) ← sbi_illegal_insn_handler platform f clock me lhu s.(tmem) c.(cregs) trap s.(ttimer) i;
    mret (rc, Ctx regs c.(fregs), set_ttimer t s)
  else if cause =? CAUSE_MISALIGNED_LOAD then
    let s := counted SBI_PMU_FW_MISALIGNED_LOAD in
    '(rc, c) ← sbi_misaligned_load_handler platform f lbu lhu v_ld s.(tmem) c trap; mret (rc, c, s)
  else if cause =? CAUSE_MISALIGNED_STORE then
    let s := counted SBI_PMU_FW_MISALIGNED_STORE in
    '(rc, c, m) ← sbi_misaligned_store_handler platform f lhu sb v_st s.(tmem) c trap; mret (rc, c, set_tmem m s)
  else if (cause =? CAUSE_SUPERVISOR_ECALL) || (cause =? CAUSE_MACHINE_ECALL) then
    '(rc, c, w) ← ecall c s.(tw); mret (rc, c, set_tw w s)
  else if cause =? CAUSE_LOAD_ACCESS then
    let s := counted SBI_PMU_FW_ACCESS_LOAD in
    '(rc, c) ← sbi_load_access_handler platform f lhu v_ld emulate_load s.(tmem) c trap; mret (rc, c, s)
  else if cause =? CAUSE_STORE_ACCESS then
    let s := counted SBI_PMU_FW_ACCESS_STORE in
    '(rc, c, m) ← sbi_store_access_handler platform f lhu v_st emulate_store s.(tmem) c trap; mret (rc, c, set_tmem m s)
  else if cause =? CAUSE_DOUBLE_TRAP then
    '(rc, regs, w) ← sbi_double_trap_handler c.(cregs) trap s.(tw); mret (rc, Ctx regs c.(fregs), set_tw w s)
  else '(rc, c) ← redirect platform f c trap; mret (rc, c, s).

(** [tcntx] is the number of the trap context.  [sbi_trap_error] prints it and hangs. *)
Definition sbi_trap_handler (fuel i tcntx : nat) (c : context) (trap : sbi_trap_info) (s : trap_state) : csrM (context * trap_state) :=
  let prev_context := s.(tctx) in
  let s := set_tctx (Some tcntx) s in
  '(rc, c, s) ←
    (if has trap.(cause) MCAUSE_IRQ_MASK then
       '(rc, w) ← (if sbi_hart_has_extension f SBI_HART_EXT_SMAIA then sbi_trap_aia_irq fuel s.(tw)
                   else sbi_trap_nonaia_irq (clr trap.(cause) MCAUSE_IRQ_MASK) s.(tw));
       mret (rc, c, set_tw w s)
     else trap_exception i c trap s);
  if negb (rc =? 0) then sbi_panic
  else
    '(c, s) ← (if negb (sbi_mstatus_prev_mode c.(cregs).(mstatus) =? PRV_M)
               then '(regs, w) ← sse_process_pending_events c.(cregs) s.(tw); mret (Ctx regs c.(fregs), set_tw w s)
               else mret (c, s));
    mret (c, set_tctx prev_context s).
End Dispatch.
Arguments TrapState {D mem W} _ _ _ _.
Arguments tmem {D mem W} _.
Arguments ttimer {D mem W} _.
Arguments tw {D mem W} _.
Arguments tctx {D mem W} _.

(** ** Exceptions from below machine mode *)

(** The emulators of a build without vector support: they return 0. *)
Definition v_ld_unsupported (c : context) (_ : sbi_trap_info) : csrM (Z * context) := mret (0, c).
Definition v_st_unsupported {mem} (m : mem) (c : context) (_ : sbi_trap_info) : csrM (Z * context * mem) := mret (0, c, m).

(** The hart came from S or U mode. *)
Definition below_m (regs : sbi_trap_regs) : Prop := sbi_mstatus_prev_mode regs.(mstatus) = PRV_S \/ sbi_mstatus_prev_mode regs.(mstatus) = PRV_U.

Section Survive.
Context {hw : Hw} (platform : Z -> bool) (f : sbi_hart_features).
Context {D : Type} (clock : time_source -> nat -> Z) (me : Z).
Context {mem : Type} (lbu lhu : mem -> Z -> Z + sbi_trap_info) (sb : mem -> Z -> Z -> mem + sbi_trap_info).
Context (v_ld : context -> sbi_trap_info -> csrM (Z * context)) (v_st : mem -> context -> sbi_trap_info -> csrM (Z * context * mem)).
Context (emulate_load : Z -> Z -> option Z) (emulate_store : mem -> Z -> Z -> Z -> option mem).

(** The registers that redirection and the counters use exist. *)
Context (Hred : Forall full redirect_csrs) (Hcnt : Forall full counter_csrs).

(** A result of a handler that does not make the hart hang and returns below M mode. *)
Definition survives (p : csrM (Z * context)) : Prop := forall h, exists c h', p h = Some ((0, c), h') /\ below_m c.(cregs).

Local Set Default Proof Using "Type".

Lemma regs_redirect_survives regs t : below_m regs ->
  forall h, exists regs' h', sbi_trap_redirect platform f regs t h = Some ((0, regs'), h') /\ below_m regs'.
Proof using Hred.
  intros Hb h. destruct (redirect_effect platform f regs t h Hred Hb) as (regs' & h' & E & (_ & _ & Hs & _) & _).
  exists regs', h'. split; [done|by left].
Qed.

Lemma redirect_survives c t : below_m c.(cregs) -> survives (redirect platform f c t).
Proof using Hred.
  intros Hb h. destruct (regs_redirect_survives c.(cregs) t Hb h) as (regs' & h' & E & Hb'). exists (Ctx regs' (fregs c)), h'.
  split; [|done]. unfold redirect. by rewrite (csr_bind _ _ _ _ _ E).
Qed.

(** An emulator gives a length or, after a redirection, 0. *)
Definition ld_emu_ok (emu : Z -> context -> sbi_trap_info -> csrM (Z * Z * context)) : Prop :=
  forall n c t h, 0 <= n -> below_m c.(cregs) -> exists rc v c' h', emu n c t h = Some ((rc, v, c'), h') /\ 0 <= rc /\ below_m c'.(cregs).
Definition st_emu_ok (emu : mem -> Z -> Z -> context -> sbi_trap_info -> csrM (Z * context * mem)) : Prop :=
  forall m n v c t h, 0 <= n -> below_m c.(cregs) -> exists rc c' m' h', emu m n v c t h = Some ((rc, c', m'), h') /\ 0 <= rc /\ below_m c'.(cregs).

(** The instruction that trapped is no vector load, or no vector store. *)
Definition scalar_load (insn : Z) : bool := match ld_decode insn with Some k => negb k.(k_vector) | None => true end.
Definition scalar_store (insn : Z) : bool := match st_select insn with Some (_, SrcVector) => false | _ => true end.
Definition scalar_access (m : mem) (c : context) (t : sbi_trap_info) : bool :=
  match trapped_insn lhu m c.(cregs) t with
  | inl (insn, _) =>
      if (t.(cause) =? CAUSE_MISALIGNED_STORE) || (t.(cause) =? CAUSE_STORE_ACCESS) then scalar_store insn else scalar_load insn
  | inr _ => true
  end.

(** The firmware was built without vector support. *)
Definition built_scalar : Prop :=
  (forall c t, v_ld c t = v_ld_unsupported c t) /\ forall m c t, v_st m c t = v_st_unsupported m c t.

Lemma ld_decode_len insn k : ld_decode insn = Some k -> 0 <= k.(k_len).
Proof. unfold ld_decode. intros H. repeat case_match; simplify_eq; cbn; lia. Qed.

Lemma st_decode_len insn c len v : st_decode insn c = Some (len, v) -> 0 <= len.
Proof. unfold st_decode, st_select. intros H. repeat case_match; simplify_eq; cbn in *; simplify_eq; lia. Qed.

Lemma set_fs_dirty_below regs : below_m regs -> below_m (SET_FS_DIRTY regs).
Proof.
  unfold below_m. assert (sbi_mstatus_prev_mode (mstatus (SET_FS_DIRTY regs)) = sbi_mstatus_prev_mode (mstatus regs)) as ->; [|done].
  unfold SET_FS_DIRTY, sbi_mstatus_prev_mode. cbn [mstatus set_mstatus]. rewrite Z.land_lor_distr_l.
  change (Z.land MSTATUS_FS MSTATUS_MPP) with 0. by rewrite Z.lor_0_r.
Qed.

Lemma below_advance c n : below_m c.(cregs) -> below_m (advance c n).(cregs).
Proof. done. Qed.

Lemma emulate_load_survives emu m c t : ld_emu_ok emu -> built_scalar \/ scalar_access m c t = true ->
  (t.(cause) =? CAUSE_MISALIGNED_STORE) || (t.(cause) =? CAUSE_STORE_ACCESS) = false ->
  below_m c.(cregs) -> survives (sbi_trap_emulate_load platform f lhu v_ld emu m c t).
Proof using Hred.
  intros Hemu Hv Hc Hb h. unfold sbi_trap_emulate_load. unfold scalar_access in Hv.
  destruct (trapped_insn lhu m (cregs c) t) as [[insn len]|t']; [|by apply redirect_survives]. rewrite Hc in Hv.
  unfold scalar_load in Hv. destruct (ld_decode insn) as [k|] eqn:Ek; [|by apply redirect_survives].
  destruct (k_vector k).
  - destruct Hv as [[Hv _]|Hv]; [|done]. rewrite Hv. cbn. by eexists _, _.
  - destruct (Hemu (k_len k) c t h (ld_decode_len _ _ Ek) Hb) as (rc & v & c' & h' & E & Hrc & Hb'). rewrite (csr_bind _ _ _ _ _ E).
    destruct (Z.leb_spec rc 0); [assert (rc = 0) as -> by lia; by eexists _, _|]. eexists _, _. split; [done|]. apply below_advance.
    repeat case_match; [exact Hb'|by apply set_fs_dirty_below..].
Qed.

Lemma emulate_store_survives emu m c t : st_emu_ok emu -> built_scalar \/ scalar_access m c t = true ->
  (t.(cause) =? CAUSE_MISALIGNED_STORE) || (t.(cause) =? CAUSE_STORE_ACCESS) = true -> below_m c.(cregs) ->
  forall h, exists c' m' h', sbi_trap_emulate_store platform f lhu v_st emu m c t h = Some ((0, c', m'), h') /\ below_m c'.(cregs).
Proof using Hred.
  intros Hemu Hv Hc Hb h. unfold sbi_trap_emulate_store. unfold scalar_access in Hv.
  assert (forall t, exists c' m' h', ('(rc, c) ← redirect platform f c t; mret (rc, c, m)) h = Some ((0, c', m'), h') /\ below_m c'.(cregs)) as Hr.
  { intros t'. destruct (redirect_survives c t' Hb h) as (c' & h' & E & Hb'). rewrite (csr_bind _ _ _ _ _ E). by eexists _, _, _. }
  destruct (trapped_insn lhu m (cregs c) t) as [[insn len]|t']; [|apply Hr]. rewrite Hc in Hv.
  destruct (st_decode insn c) as [[n v]|] eqn:Ek; [|apply Hr].
  assert (exists rc c' m' h', match v with Some v => emu m n v c t | None => v_st m c t end h = Some ((rc, c', m'), h') /\ 0 <= rc /\ below_m c'.(cregs))
    as (rc & c' & m' & h' & E & Hrc & Hb').
  { destruct v as [v|]; [apply Hemu; [by apply (st_decode_len insn c n (Some v))|done]|].
    destruct Hv as [[_ Hv]|Hv]; [rewrite Hv; eexists _, _, _, _; split; [done|]; split; [lia|done]|].
    exfalso. unfold scalar_store in Hv. unfold st_decode in Ek. destruct (st_select insn) as [[k src]|]; [|done].
    destruct src; done. }
  rewrite (csr_bind _ _ _ _ _ E). destruct (Z.leb_spec rc 0); [assert (rc = 0) as -> by lia|]; by eexists _, _, _.
Qed.

Lemma misaligned_ld_ok m : ld_emu_ok (sbi_misaligned_ld_emulator platform f lbu m).
Proof using Hred.
  intros n c t h Hn Hb. unfold sbi_misaligned_ld_emulator. destruct (ld_bytes _ _ _ _ _) as [bs|[i t']]; [by eexists _, _, _, _|].
  destruct (redirect_survives c (with_tinst t' (sbi_misaligned_tinst_fixup (tinst t) (tinst t') i)) Hb h) as (c' & h' & E & Hb'). rewrite (csr_bind _ _ _ _ _ E). by eexists _, _, _, _.
Qed.

Lemma misaligned_st_ok : st_emu_ok (sbi_misaligned_st_emulator platform f sb).
Proof using Hred.
  intros m n v c t h Hn Hb. unfold sbi_misaligned_st_emulator. destruct (st_bytes _ _ _ _ _) as [m' [[i t']|]]; [|by eexists _, _, _, _].
  destruct (redirect_survives c (with_tinst t' (sbi_misaligned_tinst_fixup (tinst t) (tinst t') i)) Hb h) as (c' & h' & E & Hb'). rewrite (csr_bind _ _ _ _ _ E). by eexists _, _, _, _.
Qed.

Lemma not_m c : below_m c.(cregs) -> (sbi_mstatus_prev_mode c.(cregs).(mstatus) =? PRV_M) = false.
Proof. intros [->| ->]; done. Qed.

Lemma access_ld_ok : ld_emu_ok (sbi_ld_access_emulator platform f emulate_load).
Proof using Hred.
  intros n c t h Hn Hb. unfold sbi_ld_access_emulator. rewrite not_m by done. destruct (emulate_load n (tval t)); [by eexists _, _, _, _|].
  destruct (redirect_survives c t Hb h) as (c' & h' & E & Hb'). rewrite (csr_bind _ _ _ _ _ E). by eexists _, _, _, _.
Qed.

Lemma access_st_ok : st_emu_ok (sbi_st_access_emulator platform f emulate_store).
Proof using Hred.
  intros m n v c t h Hn Hb. unfold sbi_st_access_emulator. rewrite not_m by done. destruct (emulate_store m n (tval t) v); [by eexists _, _, _, _|].
  destruct (redirect_survives c t Hb h) as (c' & h' & E & Hb'). rewrite (csr_bind _ _ _ _ _ E). by eexists _, _, _, _.
Qed.

Lemma csr_num_range insn : in_range 12 (GET_CSR_NUM (u32 insn)).
Proof.
  unfold GET_CSR_NUM. pose proof (in_range_land_l 32 (u32 insn) 0xfff00000 ltac:(lia) (wrap_range 32 insn ltac:(lia)) ltac:(lia)) as Hr. unfold in_range in *.
  split; [apply Z.shiftr_nonneg; lia|]. rewrite Z.shiftr_div_pow2 by lia. apply Z.div_lt_upper_bound; [lia|]. change (2 ^ 20 * 2 ^ 12) with (2 ^ 32). lia.
Qed.

Lemma illegal_survives m regs t (s : timer_state D) i : below_m regs -> forall h, exists regs' s' h', sbi_illegal_insn_handler platform f clock me lhu m regs t s i h = Some ((0, regs', s'), h') /\ below_m regs'.
Proof using Hred Hcnt.
  intros Hb h. assert (forall t', exists regs' s' h', ('(rc, regs) ← sbi_trap_redirect platform f regs t'; mret (rc, regs, s)) h = Some ((0, regs', s'), h') /\ below_m regs') as Hr.
  { intros t'. destruct (regs_redirect_survives regs t' Hb h) as (r' & h' & E & Hb'). rewrite (csr_bind _ _ _ _ _ E). by eexists _, _, _. }
  assert (forall insn, exists regs' s' h', truly_illegal_insn platform f insn regs s h = Some ((0, regs', s'), h') /\ below_m regs') as Hill by (intros insn; apply Hr).
  assert (forall insn, exists regs' s' h', system_opcode_insn platform f clock me insn regs s i h = Some ((0, regs', s'), h') /\ below_m regs') as Hsys.
  { intros insn. unfold system_opcode_insn. assert ((sbi_mstatus_prev_mode (mstatus regs) =? PRV_M) = false) as -> by (by destruct Hb as [->| ->]). destruct (_ || _); [apply Hill|].
    rewrite (csr_bind _ _ _ _ _ (emulate_csr_read_spec f clock me (GET_CSR_NUM (u32 insn)) regs s i h Hcnt (csr_num_range insn) Hb)). destruct (emulated_value _ _ _ _ _ _ _ _ _) as [v|]; [|apply Hill].
    destruct (csr_update _ _ _ _) as [[nv w]|]; [|apply Hill]. destruct (if w : bool then _ else _); [|apply Hill]. by eexists _, _, _. }
  assert (forall insn, exists regs' s' h', illegal_insn_table platform f clock me (Z.shiftr (Z.land insn 0x7c) 2) insn regs s i h = Some ((0, regs', s'), h') /\ below_m regs') as Htab.
  { intros insn. unfold illegal_insn_table. destruct (_ =? 3); [unfold misc_mem_opcode_insn; destruct (matches _ _ _); [by eexists _, _, _|apply Hill]|]. destruct (_ =? 28); [apply Hsys|apply Hill]. }
  unfold sbi_illegal_insn_handler. destruct (negb (Z.land (tval t) 3 =? 3)); [|apply Htab]. destruct (sbi_get_insn lhu m (mepc regs)) as [insn|t']; [|apply Hr]. destruct (negb _); [apply Hill|apply Htab].
Qed.
End Survive.

(** The causes with a handler of their own. *)
Definition handled_causes : list Z :=
  [CAUSE_ILLEGAL_INSTRUCTION; CAUSE_MISALIGNED_LOAD; CAUSE_MISALIGNED_STORE; CAUSE_SUPERVISOR_ECALL; CAUSE_MACHINE_ECALL; CAUSE_LOAD_ACCESS; CAUSE_STORE_ACCESS; CAUSE_DOUBLE_TRAP].

Ltac handled E := let Hn := fresh in intros Hn; exfalso; apply Hn; rewrite E; unfold handled_causes; rewrite !elem_of_cons; tauto.

(** The causes that are not covered: calls of the supervisor, and double traps. *)
Definition excluded_causes : list Z := [CAUSE_SUPERVISOR_ECALL; CAUSE_MACHINE_ECALL; CAUSE_DOUBLE_TRAP].

Lemma trap_exception_survives {hw : Hw} platform f {D} clock me {mem} lbu lhu sb v_ld v_st emulate_load emulate_store {W}
    (ecall : context -> W -> csrM (Z * context * W)) pmu_incr sse_inject i c trap (s : @trap_state D mem W) h :
  Forall full redirect_csrs -> Forall full counter_csrs -> built_scalar v_ld v_st \/ scalar_access lhu s.(tmem) c trap = true ->
  below_m c.(cregs) -> trap.(cause) ∉ excluded_causes ->
  exists c1 s1 h1, trap_exception platform f clock me lbu lhu sb v_ld v_st emulate_load emulate_store ecall pmu_incr sse_inject i c trap s h = Some ((0, c1, s1), h1) /\
    below_m c1.(cregs) /\ s1.(tctx) = s.(tctx) /\
    (trap.(cause) ∉ handled_causes -> s1 = s /\ fregs c1 = fregs c /\ entered f c.(cregs) c1.(cregs) trap h h1 (to_guest platform c.(cregs) trap h)).
Proof.
  intros Hred Hcnt Hv Hb Hex. unfold excluded_causes in Hex. rewrite !not_elem_of_cons in Hex. destruct Hex as (Hs & Hm & Hdt & _).
  unfold trap_exception. cbv zeta.
  destruct (Z.eqb_spec (cause trap) CAUSE_ILLEGAL_INSTRUCTION) as [E0|_].
  { destruct (illegal_survives platform f clock me lhu Hred Hcnt (tmem s) (cregs c) trap (ttimer s) i Hb h) as (r' & t' & h' & E & Hb'). rewrite (csr_bind _ _ _ _ _ E). eexists _, _, _. split; [done|]. split; [done|]. split; [done|handled E0]. }
  destruct (Z.eqb_spec (cause trap) CAUSE_MISALIGNED_LOAD) as [E0|_].
  { match goal with |- context [sbi_misaligned_load_handler _ _ _ _ _ ?m _ _] => destruct (emulate_load_survives platform f lhu v_ld v_st Hred _ m c trap (misaligned_ld_ok platform f lbu Hred m) Hv ltac:(by rewrite E0) Hb h) as (c' & h' & E & Hb') end.
    rewrite (csr_bind _ _ _ _ _ E). eexists _, _, _. split; [done|]. split; [done|]. split; [done|handled E0]. }
  destruct (Z.eqb_spec (cause trap) CAUSE_MISALIGNED_STORE) as [E0|_].
  { match goal with |- context [sbi_misaligned_store_handler _ _ _ _ _ ?m _ _] => destruct (emulate_store_survives platform f lhu v_ld v_st Hred _ m c trap (misaligned_st_ok platform f sb Hred) Hv ltac:(by rewrite E0) Hb h) as (c' & m' & h' & E & Hb') end.
    rewrite (csr_bind _ _ _ _ _ E). eexists _, _, _. split; [done|]. split; [done|]. split; [done|handled E0]. }
  rewrite (proj2 (Z.eqb_neq _ _) Hs), (proj2 (Z.eqb_neq _ _) Hm). cbn [orb].
  destruct (Z.eqb_spec (cause trap) CAUSE_LOAD_ACCESS) as [E0|_].
  { match goal with |- context [sbi_load_access_handler _ _ _ _ _ ?m _ _] => destruct (emulate_load_survives platform f lhu v_ld v_st Hred _ m c trap (access_ld_ok platform f emulate_load Hred) Hv ltac:(by rewrite E0) Hb h) as (c' & h' & E & Hb') end.
    rewrite (csr_bind _ _ _ _ _ E). eexists _, _, _. split; [done|]. split; [done|]. split; [done|handled E0]. }
  destruct (Z.eqb_spec (cause trap) CAUSE_STORE_ACCESS) as [E0|_].
  { match goal with |- context [sbi_store_access_handler _ _ _ _ _ ?m _ _] => destruct (emulate_store_survives platform f lhu v_ld v_st Hred _ m c trap (access_st_ok platform f emulate_store Hred) Hv ltac:(by rewrite E0; apply orb_true_r) Hb h) as (c' & m' & h' & E & Hb') end.
    rewrite (csr_bind _ _ _ _ _ E). eexists _, _, _. split; [done|]. split; [done|]. split; [done|handled E0]. }
  rewrite (proj2 (Z.eqb_neq (cause trap) CAUSE_DOUBLE_TRAP)) by done.
  destruct (redirect_effect platform f (cregs c) trap h Hred Hb) as (regs' & h' & E & Hen & _).
  assert (redirect platform f c trap h = Some ((0, Ctx regs' (fregs c)), h')) as E' by (unfold redirect; by rewrite (csr_bind _ _ _ _ _ E)).
  rewrite (csr_bind _ _ _ _ _ E'). eexists _, _, _. split; [done|]. split; [left; apply Hen|]. split; [done|]. intros _. done.
Qed.

(** C6: An exception from S or U mode that is neither a call nor a double trap never
    makes the firmware fail.  Whatever its cause, the memory, the instruction that
    trapped and the addresses it uses, [sbi_trap_handler] gets past the handlers
    without an error and without hanging: an access that faults while it is
    emulated, an instruction that cannot be emulated or fetched and a device the
    platform does not emulate are traps of the supervisor.  What is left is to look
    at the pending software events, for a hart that returns below M mode, and to
    restore the pointer to the trap context.  A cause without a handler of its own
    enters the supervisor as the specification of [sbi_trap_redirect] says.
    Not covered: calls of the supervisor, whose handler is that of file Ecall;
    double traps (from U mode the handler returns an error and the hart hangs,
    [double_trap_from_user_hangs]); and, in a build with vector support, vector
    loads and stores, for which VecCorrect has its own theorems.  The hart has the
    registers of redirection and the counters. *)
Theorem exceptions_below_m_survive {hw : Hw} platform f {D} clock me {mem} lbu lhu sb v_ld v_st emulate_load emulate_store {W}
    (ecall : context -> W -> csrM (Z * context * W)) pmu_incr timer_process ipi_process pmu_ovf_irq pmu_irq_bit chips mtopi sse_inject sse_pending
    fuel i tcntx c trap (s : @trap_state D mem W) h :
  Forall full redirect_csrs -> Forall full counter_csrs -> built_scalar v_ld v_st \/ scalar_access lhu s.(tmem) c trap = true ->
  below_m c.(cregs) -> has trap.(cause) MCAUSE_IRQ_MASK = false -> trap.(cause) ∉ excluded_causes ->
  exists c1 s1 h1,
    sbi_trap_handler platform f clock me lbu lhu sb v_ld v_st emulate_load emulate_store ecall pmu_incr timer_process ipi_process pmu_ovf_irq pmu_irq_bit chips mtopi sse_inject sse_pending
      fuel i tcntx c trap s h =
    match sse_pending c1.(cregs) s1.(tw) h1 with
    | Some ((regs, w), h2) => Some ((Ctx regs c1.(fregs), set_tctx s.(tctx) (set_tw w s1)), h2)
    | None => None
    end /\
    below_m c1.(cregs) /\
    (trap.(cause) ∉ handled_causes ->
       s1 = set_tctx (Some tcntx) s /\ c1.(fregs) = c.(fregs) /\
       entered f c.(cregs) c1.(cregs) trap h h1 (to_guest platform c.(cregs) trap h)).
Proof.
  intros Hred Hcnt Hv Hb Hirq Hex. unfold sbi_trap_handler. rewrite Hirq. set (s0 := set_tctx (Some tcntx) s).
  destruct (trap_exception_survives platform f clock me lbu lhu sb v_ld v_st emulate_load emulate_store ecall pmu_incr sse_inject i c trap s0 h Hred Hcnt Hv Hb Hex)
    as (c1 & s1 & h1 & E1 & Hb1 & Ht & Hun).
  exists c1, s1, h1. split; [|split; [done|exact Hun]]. rewrite (csr_bind _ _ _ _ _ E1). cbn [negb Z.eqb].
  assert ((sbi_mstatus_prev_mode c1.(cregs).(mstatus) =? PRV_M) = false) as -> by (by apply not_m). cbn [negb].
  unfold mbind, csrM_bind. by destruct (sse_pending (cregs c1) (tw s1) h1) as [[[regs w] h2]|].
Qed.

(** Services that leave everything as it is. *)
Definition idle_ecall : context -> unit -> csrM (Z * context * unit) := fun c w => mret (0, c, w).
Definition idle_irq : unit -> csrM unit := fun w => mret w.
Definition idle_sse : sbi_trap_regs -> unit -> csrM (sbi_trap_regs * unit) := fun regs w => mret (regs, w).

(** A page fault in user mode on a hart with every register. *)
Lemma exceptions_below_m_survive_witness :
  exists c' s' h',
    @sbi_trap_handler hw_full (fun _ => false) no_features Z (fun _ _ => 0) 0 byte_mem mem_lbu mem_lhu mem_sb v_ld_unsupported v_st_unsupported (fun _ _ => None) (fun _ _ _ _ => None)
      unit idle_ecall (fun _ w => w) idle_irq idle_irq idle_irq 0 (Irqchips [] None) (fun _ => 0) (fun w => (0, w)) idle_sse
      1 0 5 (demo_ctx 0x1000) (TrapInfo 12 0x1000 0 0 0) (TrapState demo_mem guest_timer tt None) hyp_hart = Some ((c', s'), h') /\
    s'.(tctx) = None /\ csr_val h' CSR_SCAUSE = 12 /\ c'.(cregs).(mepc) = csr_val hyp_hart CSR_STVEC.
Proof.
  destruct (@exceptions_below_m_survive hw_full (fun _ => false) no_features Z (fun _ _ => 0) 0 byte_mem mem_lbu mem_lhu mem_sb v_ld_unsupported v_st_unsupported (fun _ _ => None) (fun _ _ _ _ => None)
      unit idle_ecall (fun _ w => w) idle_irq idle_irq idle_irq 0 (Irqchips [] None) (fun _ => 0) (fun w => (0, w)) idle_sse
      1 0 5 (demo_ctx 0x1000) (TrapInfo 12 0x1000 0 0 0) (TrapState demo_mem guest_timer tt None) hyp_hart) as (c1 & s1 & h1 & E & _ & H).
  - repeat constructor; intros; vm_compute; congruence.
  - repeat constructor; intros; vm_compute; congruence.
  - left. split; reflexivity.
  - right. reflexivity.
  - reflexivity.
  - apply (bool_decide_unpack _). reflexivity.
  - eexists _, _, _. split; [exact E|]. split; [reflexivity|]. destruct H as (_ & _ & Hen); [apply (bool_decide_unpack _); reflexivity|].
    assert (to_guest (fun _ => false) (cregs (demo_ctx 0x1000)) (TrapInfo 12 0x1000 0 0 0) hyp_hart = false) as Eg by (vm_compute; reflexivity).
    rewrite Eg in Hen. destruct Hen as (_ & Hpc & _ & _ & Hc & _). split; [exact Hc|exact Hpc].
Defined.

(** A double trap from U mode is an error of the handler, and the hart hangs. *)
Example double_trap_from_user_hangs :
  @sbi_trap_handler hw_full (fun _ => false) no_features Z (fun _ _ => 0) 0 byte_mem mem_lbu mem_lhu mem_sb v_ld_unsupported v_st_unsupported (fun _ _ => None) (fun _ _ _ _ => None)
      unit idle_ecall (fun _ w => w) idle_irq idle_irq idle_irq 0 (Irqchips [] None) (fun _ => 0) (fun w => (0, w)) idle_sse
      1 0 5 (demo_ctx 0x1000) (TrapInfo CAUSE_DOUBLE_TRAP 0 0 0 0) (TrapState demo_mem guest_timer tt None) hyp_hart = None.
Proof. vm_compute. reflexivity. Qed.

(** ** The interrupt loop *)

(** With the advanced interrupt architecture, pending interrupts are served until
    none is left, provided each one that is served goes away. *)
Lemma aia_irq_drains {hw : Hw} {W} (timer_process ipi_process pmu_ovf_irq : W -> csrM W) pmu_irq_bit chips mtopi (left_ : W -> nat) :
  (forall w h, mtopi w <> 0 -> exists w' h', sbi_trap_nonaia_irq timer_process ipi_process pmu_ovf_irq pmu_irq_bit chips (Z.shiftr (mtopi w) TOPI_IID_SHIFT) w h = Some ((0, w'), h') /\ (left_ w' < left_ w)%nat) ->
  forall fuel w h, (left_ w < fuel)%nat -> exists w' h', sbi_trap_aia_irq timer_process ipi_process pmu_ovf_irq pmu_irq_bit chips mtopi fuel w h = Some ((0, w'), h') /\ mtopi w' = 0.
Proof.
  intros Hs. induction fuel as [|fuel IH]; intros w h Hf; [lia|]. cbn [sbi_trap_aia_irq]. destruct (Z.eqb_spec (mtopi w) 0) as [E|E]; [by eexists _, _|].
  destruct (Hs w h E) as (w1 & h1 & E1 & Hlt). rewrite (csr_bind _ _ _ _ _ E1). cbn [negb Z.eqb]. destruct (IH w1 h1 ltac:(lia)) as (w' & h' & E' & H'). by exists w', h'.
Qed.

(** The handler of the last controller that has one is called for external interrupts. *)
Lemma last_handler_wins {W} (chips : irqchips W) dev fn w : dev.(irq_handle) = Some fn -> sbi_irqchip_process (sbi_irqchip_add_device dev chips) w = fn w.
Proof. intros E. unfold sbi_irqchip_process, sbi_irqchip_add_device. cbn. by rewrite E. Qed.
