(* ===== verification/Pmu.v ===== *)
(** * Performance monitoring (lib/sbi/sbi_pmu.c, lib/sbi/sbi_ecall_pmu.c, 64-bit).

    Counters below [num_hw_ctrs] are those of the hart, the next 16 count events of
    the firmware.  [sbi_pmu_hart_state] binds counters to events.  The PMU device
    of a platform is a record of its operations, those of the hart the code runs
    on, over a state [Dev]; [xlate] is [sbi_platform_pmu_xlate_to_mhpmevent].

    The functions run in a monad over the state of the hart: [None] is a trap that
    is not expected, [sbi_panic], or an access outside the arrays of
    [struct sbi_pmu_hart_state].  That state has been allocated: without it the
    calls return [SBI_EINVAL] at once.  The call that describes events writes to
    shared memory, a map from addresses to [struct sbi_pmu_event_info]. *)

From S2P Require Import Prelude SbiTypes Bitops Domain Csr Pmp PmpProps HartFeat Trap.

Local Open Scope Z_scope.

(** ** Constants *)

Definition SBI_PMU_HW_EVENT_MAX : Z := 256.
Definition SBI_PMU_FW_CTR_MAX : Z := 16.
Definition SBI_PMU_HW_CTR_MAX : Z := 32.
Definition SBI_PMU_FIXED_CTR_MASK : Z := 0x07.
Definition SBI_PMU_CY_IR_MASK : Z := 0x05.

Definition SBI_PMU_HW_CPU_CYCLES : Z := 1.
Definition SBI_PMU_HW_INSTRUCTIONS : Z := 2.
Definition SBI_PMU_HW_GENERAL_MAX : Z := 11.
Definition SBI_PMU_HW_CACHE_MAX : Z := 7.
Definition SBI_PMU_HW_CACHE_OP_MAX : Z := 3.
Definition SBI_PMU_HW_CACHE_RESULT_MAX : Z := 2.
Definition SBI_PMU_FW_MAX : Z := 22.
Definition SBI_PMU_FW_RESERVED_MAX : Z := 0xFFFE.
Definition SBI_PMU_FW_PLATFORM : Z := 0xFFFF.
Definition SBI_PMU_EVENT_TYPE_HW : Z := 0x0.
Definition SBI_PMU_EVENT_TYPE_HW_CACHE : Z := 0x1.
Definition SBI_PMU_EVENT_TYPE_HW_RAW : Z := 0x2.
Definition SBI_PMU_EVENT_TYPE_HW_RAW_V2 : Z := 0x3.
Definition SBI_PMU_EVENT_TYPE_FW : Z := 0xf.
Definition SBI_PMU_EVENT_TYPE_MAX : Z := 0x10.
Definition SBI_PMU_CTR_TYPE_HW : Z := 0.
Definition SBI_PMU_CTR_TYPE_FW : Z := 1.
Definition SBI_PMU_EVENT_IDX_TYPE_OFFSET : Z := 16.
Definition SBI_PMU_EVENT_IDX_TYPE_MASK : Z := Z.shiftl 0xF SBI_PMU_EVENT_IDX_TYPE_OFFSET.
Definition SBI_PMU_EVENT_IDX_CODE_MASK : Z := 0xFFFF.
Definition SBI_PMU_EVENT_RAW_IDX : Z := 0x20000.
Definition SBI_PMU_EVENT_RAW_V2_IDX : Z := 0x30000.
Definition SBI_PMU_EVENT_IDX_INVALID : Z := 0xFFFFFFFF.
Definition SBI_PMU_EVENT_HW_CACHE_OPS_RESULT : Z := 0x1.
Definition SBI_PMU_EVENT_HW_CACHE_OPS_ID_MASK : Z := 0x6.
Definition SBI_PMU_EVENT_HW_CACHE_OPS_ID_OFFSET : Z := 1.
Definition SBI_PMU_EVENT_HW_CACHE_ID_MASK : Z := 0xfff8.
Definition SBI_PMU_EVENT_HW_CACHE_ID_OFFSET : Z := 3.
Definition SBI_PMU_CFG_FLAG_SKIP_MATCH : Z := 2 ^ 0.
Definition SBI_PMU_CFG_FLAG_CLEAR_VALUE : Z := 2 ^ 1.
Definition SBI_PMU_CFG_FLAG_AUTO_START : Z := 2 ^ 2.
Definition SBI_PMU_CFG_FLAG_SET_VUINH : Z := 2 ^ 3.
Definition SBI_PMU_CFG_FLAG_SET_VSINH : Z := 2 ^ 4.
Definition SBI_PMU_CFG_FLAG_SET_UINH : Z := 2 ^ 5.
Definition SBI_PMU_CFG_FLAG_SET_SINH : Z := 2 ^ 6.
Definition SBI_PMU_START_FLAG_SET_INIT_VALUE : Z := 2 ^ 0.
Definition SBI_PMU_STOP_FLAG_RESET : Z := 2 ^ 0.
Definition SBI_PMU_STOP_FLAG_TAKE_SNAPSHOT : Z := 2 ^ 1.
Definition MHPMEVENT_SINH : Z := 2 ^ 61.
Definition MHPMEVENT_UINH : Z := 2 ^ 60.
Definition MHPMEVENT_VSINH : Z := 2 ^ 59.
Definition MHPMEVENT_VUINH : Z := 2 ^ 58.
Definition MHPMEVENT_SSCOF_MASK : Z := 0xFF00000000000000.
Definition IRQ_PMU_OVF : Z := 13.
Definition SBI_ENO_SHMEM : Z := -9.
Definition PMU_CSR_CYCLE : Z := 0xc00.

(** ** Data *)

Record sbi_pmu_hw_event := HwEvent { counters : Z; start_idx : Z; end_idx : Z; select : Z; select_mask : Z }.

Record sbi_pmu_hart_state := Phs {
  active_events : list Z; (* SBI_PMU_HW_CTR_MAX + SBI_PMU_FW_CTR_MAX entries *)
  fw_counters_started : Z;
  sse_enabled : bool;
  fw_counters_data : list Z; (* SBI_PMU_FW_CTR_MAX entries *)
}.

(** The variables of the file; [num_hw_events] is the length of the map. *)
Record pmu := Pmu { hw_event_map : list sbi_pmu_hw_event; num_hw_ctrs : Z; total_ctrs : Z }.
Definition num_hw_events (p : pmu) : Z := Z.of_nat (length p.(hw_event_map)).

Record sbi_pmu_device (Dev : Type) := PmuDev {
  fw_event_validate_encoding : option (Z -> Z);
  fw_counter_match_encoding : option (Z -> Z -> bool);
  fw_counter_width : option Z;
  fw_counter_read_value : option (Z -> Dev -> Z);
  fw_counter_write_value : option (Z -> Z -> Dev -> Dev);
  fw_counter_start : option (Z -> Z -> Dev -> Z * Dev);
  fw_counter_stop : option (Z -> Dev -> Z * Dev);
  hw_counter_enable_irq : option (Z -> Dev -> Dev);
  hw_counter_disable_irq : option (Z -> Dev -> Dev);
  hw_counter_irq_bit : option Z;
  hw_counter_filter_mode : option (Z -> Z -> Dev -> Dev);
}.
Arguments PmuDev {Dev}. Arguments fw_event_validate_encoding {Dev}. Arguments fw_counter_match_encoding {Dev}.
Arguments fw_counter_width {Dev}. Arguments fw_counter_read_value {Dev}. Arguments fw_counter_write_value {Dev}.
Arguments fw_counter_start {Dev}. Arguments fw_counter_stop {Dev}. Arguments hw_counter_enable_irq {Dev}.
Arguments hw_counter_disable_irq {Dev}. Arguments hw_counter_irq_bit {Dev}. Arguments hw_counter_filter_mode {Dev}.

Definition get_cidx_type (x : Z) : Z := Z.shiftr (Z.land x SBI_PMU_EVENT_IDX_TYPE_MASK) SBI_PMU_EVENT_IDX_TYPE_OFFSET.
Definition get_cidx_code (x : Z) : Z := Z.land x SBI_PMU_EVENT_IDX_CODE_MASK.

(** The positions that [for_each_set_bit] visits in one word, in order. *)
Definition set_bits (mask : Z) (size : nat) : list Z := filter (fun i => Z.testbit mask i = true) (map Z.of_nat (seq 0 size)).

(** ** The table of hardware events *)

Definition pmu_event_range_overlap (evtA evtB : sbi_pmu_hw_event) : bool :=
  negb (((evtA.(end_idx) <? evtB.(start_idx)) && (evtA.(end_idx) <? evtB.(end_idx)))
        || ((evtB.(start_idx) <? evtA.(start_idx)) && (evtB.(end_idx) <? evtA.(start_idx)))).

Definition pmu_event_select_overlap (evt : sbi_pmu_hw_event) (select_val mask : Z) : bool :=
  (evt.(select) =? select_val) && (evt.(select_mask) =? mask).

Definition pmu_add_hw_event_map (f : sbi_hart_features) (p : pmu) (eidx_start eidx_end cmap select_ mask : Z) : Z * pmu :=
  let ctr_avail_mask := Z.lor f.(mhpm_mask) 0x7 in
  if (SBI_PMU_HW_INSTRUCTIONS <? eidx_start) && has cmap SBI_PMU_FIXED_CTR_MASK then (SBI_EDENIED, p)
  else if SBI_PMU_HW_EVENT_MAX - 1 <=? num_hw_events p then (SBI_EFAIL, p)
  else
    let event := HwEvent (Z.land cmap ctr_avail_mask) eidx_start eidx_end select_ mask in
    let is_overlap e :=
      if (eidx_start =? SBI_PMU_EVENT_RAW_IDX) || (eidx_start =? SBI_PMU_EVENT_RAW_V2_IDX)
      then pmu_event_select_overlap e select_ mask else pmu_event_range_overlap e event in
    if existsb is_overlap p.(hw_event_map) then (SBI_EINVAL, p)
    else (0, Pmu (p.(hw_event_map) ++ [event]) p.(num_hw_ctrs) p.(total_ctrs)).

Definition sbi_pmu_add_hw_event_counter_map (f : sbi_hart_features) (p : pmu) (eidx_start eidx_end cmap : Z) : Z * pmu :=
  if (eidx_end <? eidx_start) || (SBI_PMU_EVENT_RAW_IDX <=? eidx_start) || (SBI_PMU_EVENT_RAW_IDX <=? eidx_end)
  then (SBI_EINVAL, p) else pmu_add_hw_event_map f p eidx_start eidx_end cmap 0 0.

Definition sbi_pmu_add_raw_event_counter_map (f : sbi_hart_features) (p : pmu) (select_ mask cmap : Z) : Z * pmu :=
  pmu_add_hw_event_map f p SBI_PMU_EVENT_RAW_IDX SBI_PMU_EVENT_RAW_V2_IDX cmap select_ mask.

(** ** The monad *)

Record pw (Dev : Type) := PW { phs : sbi_pmu_hart_state; dv : Dev; hrt : hart }.
Arguments PW {Dev}. Arguments phs {Dev}. Arguments dv {Dev}. Arguments hrt {Dev}.

Definition pM (Dev A : Type) : Type := pw Dev -> option (A * pw Dev).
#[global] Instance pM_ret Dev : MRet (pM Dev) := fun A x w => Some (x, w).
#[global] Instance pM_bind Dev : MBind (pM Dev) := fun A B g m w => match m w with None => None | Some (x, w) => g x w end.

Lemma pM_step Dev A B (m : pM Dev A) (g : A -> pM Dev B) w x w' : m w = Some (x, w') -> (m ≫= g) w = g x w'.
Proof. intros E. unfold mbind, pM_bind. by rewrite E. Qed.

(** Element [i] of an array. *)
Definition arr_get (l : list Z) (i : Z) : option Z :=
  if (0 <=? i) && (i <? Z.of_nat (length l)) then l !! Z.to_nat i else None.

Lemma arr_get_in l i : 0 <= i < Z.of_nat (length l) -> arr_get l i = l !! Z.to_nat i.
Proof.
  intros Hi. unfold arr_get. assert ((0 <=? i) && (i <? Z.of_nat (length l)) = true) as ->; [|done].
  apply andb_true_iff. split; [apply Z.leb_le|apply Z.ltb_lt]; lia.
Qed.

Section Model.
Context {hw : Hw} {Dev : Type} (f : sbi_hart_features) (xlate : Z -> Z -> Z).
Context (pmu_dev : option (sbi_pmu_device Dev)) (p : pmu).

Local Abbreviation M := (pM Dev).

Definition on_hart {A} (m : csrM A) : M A := fun w =>
  match m w.(hrt) with None => None | Some (x, h) => Some (x, PW w.(phs) w.(dv) h) end.
Definition on_dev {A} (g : Dev -> A * Dev) : M A := fun w => let '(x, d) := g w.(dv) in Some (x, PW w.(phs) d w.(hrt)).
Definition get_phs : M sbi_pmu_hart_state := fun w => Some (w.(phs), w).
Definition set_phs (s : sbi_pmu_hart_state) : M unit := fun w => Some (tt, PW s w.(dv) w.(hrt)).

(** Elements of the arrays; an index out of range is an access outside them. *)
Definition get_active (i : Z) : M Z := fun w =>
  match arr_get w.(phs).(active_events) i with Some v => Some (v, w) | None => None end.
Definition set_active (i v : Z) : M unit := fun w =>
  let s := w.(phs) in
  if (0 <=? i) && (i <? Z.of_nat (length s.(active_events))) then
    Some (tt, PW (Phs (<[Z.to_nat i := u32 v]> s.(active_events)) s.(fw_counters_started) s.(sse_enabled) s.(fw_counters_data)) w.(dv) w.(hrt))
  else None.
Definition get_data (i : Z) : M Z := fun w =>
  match arr_get w.(phs).(fw_counters_data) i with Some v => Some (v, w) | None => None end.
Definition set_data (i v : Z) : M unit := fun w =>
  let s := w.(phs) in
  if (0 <=? i) && (i <? Z.of_nat (length s.(fw_counters_data))) then
    Some (tt, PW (Phs s.(active_events) s.(fw_counters_started) s.(sse_enabled) (<[Z.to_nat i := v]> s.(fw_counters_data))) w.(dv) w.(hrt))
  else None.
Definition set_started (v : Z) : M unit :=
  s ← get_phs; set_phs (Phs s.(active_events) v s.(sse_enabled) s.(fw_counters_data)).
Definition set_sse_enabled (b : bool) : M unit :=
  s ← get_phs; set_phs (Phs s.(active_events) s.(fw_counters_started) b s.(fw_counters_data)).

(** [cidx - num_hw_ctrs] in 32 bits, and [BIT] of it: a shift by a register. *)
Definition fw_index (cidx : Z) : Z := u32 (cidx - p.(num_hw_ctrs)).
Definition fw_bit (cidx : Z) : Z := Z.shiftl 1 (fw_index cidx `mod` 64).

Definition dev_op {A} (field : sbi_pmu_device Dev -> option A) : option A :=
  match pmu_dev with Some d => field d | None => None end.

(** ** Events and counters *)

Definition fw_code_bad (code : Z) : bool :=
  ((SBI_PMU_FW_MAX <=? code) && (code <=? SBI_PMU_FW_RESERVED_MAX)) || (SBI_PMU_FW_PLATFORM <? code).

Definition pmu_event_validate (event_idx edata : Z) : Z :=
  let type := get_cidx_type event_idx in
  let code := get_cidx_code event_idx in
  let below max := if code <? max then type else SBI_EINVAL in
  if type =? SBI_PMU_EVENT_TYPE_HW then below SBI_PMU_HW_GENERAL_MAX
  else if type =? SBI_PMU_EVENT_TYPE_FW then
    if fw_code_bad code then SBI_EINVAL
    else match (if code =? SBI_PMU_FW_PLATFORM then dev_op fw_event_validate_encoding else None) with
         | Some validate => validate edata
         | None => below SBI_PMU_FW_MAX
         end
  else if type =? SBI_PMU_EVENT_TYPE_HW_CACHE then
    let cache_ops_result := Z.land code SBI_PMU_EVENT_HW_CACHE_OPS_RESULT in
    let cache_ops_id := Z.shiftr (Z.land code SBI_PMU_EVENT_HW_CACHE_OPS_ID_MASK) SBI_PMU_EVENT_HW_CACHE_OPS_ID_OFFSET in
    let cache_id := Z.shiftr (Z.land code SBI_PMU_EVENT_HW_CACHE_ID_MASK) SBI_PMU_EVENT_HW_CACHE_ID_OFFSET in
    if (cache_ops_result <? SBI_PMU_HW_CACHE_RESULT_MAX) && (cache_ops_id <? SBI_PMU_HW_CACHE_OP_MAX)
       && (cache_id <? SBI_PMU_HW_CACHE_MAX) then type else SBI_EINVAL
  else if (type =? SBI_PMU_EVENT_TYPE_HW_RAW) || (type =? SBI_PMU_EVENT_TYPE_HW_RAW_V2) then below 1
  else SBI_EINVAL.

(** The type and the code of the event bound to a counter; [None] is
    [SBI_EINVAL]. *)
Definition pmu_ctr_validate (cidx : Z) : M (option (Z * Z)) :=
  let cidx := u32 cidx in
  if p.(total_ctrs) <=? cidx then mret None
  else
    v ← get_active cidx;
    let type := get_cidx_type v in
    if (v =? SBI_PMU_EVENT_IDX_INVALID) || (SBI_PMU_EVENT_TYPE_MAX <=? type) then mret None
    else mret (Some (type, get_cidx_code v)).

(** [inl] is the error code, [inr] the value. *)
Definition sbi_pmu_ctr_fw_read (cidx : Z) : M (Z + Z) :=
  r ← pmu_ctr_validate cidx;
  match r with
  | Some (type, code) =>
      if negb (type =? SBI_PMU_EVENT_TYPE_FW) then mret (inl SBI_EINVAL)
      else if fw_code_bad code then mret (inl SBI_EINVAL)
      else if code =? SBI_PMU_FW_PLATFORM then
        match dev_op fw_counter_read_value with
        | Some read => v ← on_dev (fun d => (read (fw_index cidx) d, d)); mret (inr v)
        | None => mret (inr 0)
        end
      else v ← get_data (fw_index cidx); mret (inr v)
  | None => mret (inl SBI_EINVAL)
  end.

(** ** Overflow interrupts *)

Definition sbi_pmu_irq_bit : Z :=
  if sbi_hart_has_extension f SBI_HART_EXT_SSCOFPMF then IRQ_PMU_OVF
  else match dev_op hw_counter_irq_bit with Some b => b | None => -1 end.

Definition sbi_pmu_irq_mask : Z := if sbi_pmu_irq_bit <? 0 then 0 else Z.shiftl 1 sbi_pmu_irq_bit.

(** [inject] is [sbi_sse_inject_event(SBI_SSE_EVENT_LOCAL_PMU)]. *)
Definition sbi_pmu_ovf_irq (inject : M unit) : M unit := on_hart (csr_clear CSR_MIE sbi_pmu_irq_mask);; inject.

Definition pmu_ctr_enable_irq_hw (ctr_idx : Z) : M Z :=
  if (ctr_idx <? 3) || (SBI_PMU_HW_CTR_MAX <=? ctr_idx) then mret SBI_EFAIL
  else
    let csr := CSR_MHPMEVENT3 + ctr_idx - 3 in
    cur ← on_hart (csr_read_num csr);
    mip ← on_hart (csr_read CSR_MIP);
    (if negb (has mip sbi_pmu_irq_mask) then on_hart (csr_write_num csr (clr cur MHPMEVENT_OF)) else mret tt);;
    mret 0.

Definition pmu_sse_enable : M unit :=
  set_sse_enabled true;;
  on_hart (csr_clear CSR_MIDELEG sbi_pmu_irq_mask);;
  on_hart (csr_clear CSR_MIP sbi_pmu_irq_mask);;
  on_hart (csr_set CSR_MIE sbi_pmu_irq_mask).

Definition pmu_sse_disable : M unit :=
  on_hart (csr_clear CSR_MIE sbi_pmu_irq_mask);;
  on_hart (csr_clear CSR_MIP sbi_pmu_irq_mask);;
  on_hart (csr_set CSR_MIDELEG sbi_pmu_irq_mask);;
  set_sse_enabled false.

Definition pmu_sse_complete : M unit := on_hart (csr_set CSR_MIE sbi_pmu_irq_mask).

(** ** Starting and stopping *)

Definition pmu_ctr_write_hw (cidx ival : Z) : M unit := on_hart (csr_write_num (CSR_MCYCLE + cidx) ival).

(** Bit [nr] of a local word, set or cleared. *)
Definition word_set (nr w : Z) : Z := Z.lor w (Z.shiftl 1 (nr `mod` 64)).
Definition word_clear (nr w : Z) : Z := Z.land w (Z.lnot (Z.shiftl 1 (nr `mod` 64))).

Definition dev_call (op : option (Dev -> Dev)) : M unit := match op with Some g => on_dev (fun d => (tt, g d)) | None => mret tt end.

Definition pmu_ctr_start_hw (cidx ival : Z) (ival_update : bool) : M Z :=
  if (p.(num_hw_ctrs) <=? cidx) || (cidx =? 1) then mret SBI_EINVAL
  else if f.(priv_version) <? SBI_HART_PRIV_VER_1_11 then
    (if ival_update then pmu_ctr_write_hw cidx ival else mret tt);; mret 0
  else
    mctr_inhbt ← on_hart (csr_read CSR_MCOUNTINHIBIT);
    if negb (Z.testbit mctr_inhbt cidx) then mret SBI_EALREADY_STARTED
    else
      (if sbi_hart_has_extension f SBI_HART_EXT_SSCOFPMF then pmu_ctr_enable_irq_hw cidx;; mret tt else mret tt);;
      (if ival_update then pmu_ctr_write_hw cidx ival else mret tt);;
      dev_call (option_map (fun g => g cidx) (dev_op hw_counter_enable_irq));;
      on_hart (csr_write CSR_MCOUNTINHIBIT (word_clear cidx mctr_inhbt));;
      mret 0.

Definition pmu_ctr_start_fw (cidx event_code event_data ival : Z) (ival_update : bool) : M Z :=
  if fw_code_bad event_code then mret SBI_EINVAL
  else if event_code =? SBI_PMU_FW_PLATFORM then
    match dev_op fw_counter_write_value, dev_op fw_counter_start with
    | Some write, Some start =>
        (if ival_update then on_dev (fun d => (tt, write (fw_index cidx) ival d)) else mret tt);;
        on_dev (start (fw_index cidx) event_data)
    | _, _ => mret SBI_EINVAL
    end
  else
    (if ival_update then set_data (fw_index cidx) ival else mret tt);;
    s ← get_phs;
    set_started (Z.lor s.(fw_counters_started) (fw_bit cidx));;
    mret 0.

(** The body of the loop of [sbi_pmu_ctr_start]; [ret] is the result so far. *)
Definition start_one (cbase ival : Z) (update : bool) (ret i : Z) : M Z :=
  let cidx := s32 (i + cbase) in
  r ← pmu_ctr_validate cidx;
  match r with
  | None => mret ret
  | Some (type, code) =>
      if type =? SBI_PMU_EVENT_TYPE_FW then
        edata ← (if code =? SBI_PMU_FW_PLATFORM then get_data (fw_index cidx) else mret 0);
        pmu_ctr_start_fw cidx code edata ival update
      else pmu_ctr_start_hw cidx ival update
  end.

Fixpoint for_each (body : Z -> Z -> M Z) (ret : Z) (is_ : list Z) : M Z :=
  match is_ with [] => mret ret | i :: is_ => ret ← body ret i; for_each body ret is_ end.

Definition sbi_pmu_ctr_start (cbase cmask flags ival : Z) : M Z :=
  if p.(total_ctrs) <=? u64 (cbase + sbi_fls cmask) then mret SBI_EINVAL
  else if has flags SBI_PMU_STOP_FLAG_TAKE_SNAPSHOT then mret SBI_ENO_SHMEM
  else for_each (start_one cbase ival (has flags SBI_PMU_START_FLAG_SET_INIT_VALUE)) SBI_EINVAL (set_bits cmask 64).

Definition pmu_ctr_stop_hw (cidx : Z) : M Z :=
  if f.(priv_version) <? SBI_HART_PRIV_VER_1_11 then mret 0
  else
    mctr_inhbt ← on_hart (csr_read CSR_MCOUNTINHIBIT);
    if (p.(num_hw_ctrs) <=? cidx) || (cidx =? 1) then mret SBI_EINVAL
    else if negb (Z.testbit mctr_inhbt cidx) then
      on_hart (csr_write CSR_MCOUNTINHIBIT (word_set cidx mctr_inhbt));;
      dev_call (option_map (fun g => g cidx) (dev_op hw_counter_disable_irq));;
      mret 0
    else mret SBI_EALREADY_STOPPED.

Definition pmu_ctr_stop_fw (cidx event_code : Z) : M Z :=
  if fw_code_bad event_code then mret SBI_EINVAL
  else
    ret ← match (if event_code =? SBI_PMU_FW_PLATFORM then dev_op fw_counter_stop else None) with
          | Some stop => on_dev (stop (fw_index cidx))
          | None => mret 0
          end;
    if negb (ret =? 0) then mret ret
    else
      s ← get_phs;
      set_started (clr s.(fw_counters_started) (fw_bit cidx));;
      mret 0.

Definition pmu_reset_hw_mhpmevent (ctr_idx : Z) : M Z :=
  if (ctr_idx <? 3) || (SBI_PMU_HW_CTR_MAX <=? ctr_idx) then mret SBI_EFAIL
  else on_hart (csr_write_num (CSR_MHPMEVENT3 + ctr_idx - 3) 0);; mret 0.

Definition stop_one (cbase flag : Z) (ret i : Z) : M Z :=
  let cidx := s32 (i + cbase) in
  r ← pmu_ctr_validate cidx;
  match r with
  | None => mret ret
  | Some (type, code) =>
      ret ← (if type =? SBI_PMU_EVENT_TYPE_FW then pmu_ctr_stop_fw cidx code else pmu_ctr_stop_hw cidx);
      (if (2 <? cidx) && has flag SBI_PMU_STOP_FLAG_RESET then
         set_active cidx SBI_PMU_EVENT_IDX_INVALID;; pmu_reset_hw_mhpmevent cidx;; mret tt
       else mret tt);;
      mret ret
  end.

Definition sbi_pmu_ctr_stop (cbase cmask flag : Z) : M Z :=
  if p.(total_ctrs) <=? u64 (cbase + sbi_fls cmask) then mret SBI_EINVAL
  else if has flag SBI_PMU_STOP_FLAG_TAKE_SNAPSHOT then mret SBI_ENO_SHMEM
  else
    ret ← for_each (stop_one cbase flag) SBI_EINVAL (set_bits cmask 64);
    s ← get_phs;
    (if s.(sse_enabled) then on_hart (csr_clear CSR_MIP sbi_pmu_irq_mask) else mret tt);;
    mret ret.

(** ** Configuring *)

Definition pmu_update_inhibit_flags (flags v : Z) : Z :=
  let v := set_if (has flags SBI_PMU_CFG_FLAG_SET_VUINH) v MHPMEVENT_VUINH in
  let v := set_if (has flags SBI_PMU_CFG_FLAG_SET_VSINH) v MHPMEVENT_VSINH in
  let v := set_if (has flags SBI_PMU_CFG_FLAG_SET_UINH) v MHPMEVENT_UINH in
  set_if (has flags SBI_PMU_CFG_FLAG_SET_SINH) v MHPMEVENT_SINH.

Definition pmu_update_hw_mhpmevent (ctr_idx flags eindex data : Z) : M Z :=
  let v := xlate eindex data in
  if (v =? 0) || (ctr_idx <? 3) || (SBI_PMU_HW_CTR_MAX <=? ctr_idx) then mret SBI_EFAIL
  else
    let sscof := sbi_hart_has_extension f SBI_HART_EXT_SSCOFPMF in
    let v := if sscof then Z.lor (Z.lor (clr v MHPMEVENT_SSCOF_MASK) MHPMEVENT_MINH) MHPMEVENT_OF else v in
    dev_call (option_map (fun g => g ctr_idx) (dev_op hw_counter_disable_irq));;
    let v := if sscof then pmu_update_inhibit_flags flags v else v in
    dev_call (option_map (fun g => g flags ctr_idx) (dev_op hw_counter_filter_mode));;
    on_hart (csr_write_num (CSR_MHPMEVENT3 + ctr_idx - 3) v);;
    mret 0.

Definition pmu_fixed_ctr_update_inhibit_bits (fixed_ctr flags : Z) : M Z :=
  let smcntrpmf := sbi_hart_has_extension f SBI_HART_EXT_SMCNTRPMF in
  if negb smcntrpmf && negb (bool_decide (is_Some (dev_op hw_counter_filter_mode))) then mret fixed_ctr
  else
    match (if fixed_ctr =? 0 then Some CSR_MCYCLECFG else if fixed_ctr =? 2 then Some CSR_MINSTRETCFG else None) with
    | None => mret SBI_EFAIL
    | Some csr =>
        (if smcntrpmf then on_hart (csr_write_num csr (pmu_update_inhibit_flags flags MHPMEVENT_MINH)) else mret tt);;
        dev_call (option_map (fun g => g flags fixed_ctr) (dev_op hw_counter_filter_mode));;
        mret fixed_ctr
    end.

Definition pmu_ctr_find_fixed_hw (evt_idx_code : Z) : Z :=
  if evt_idx_code =? SBI_PMU_HW_CPU_CYCLES then 0
  else if evt_idx_code =? SBI_PMU_HW_INSTRUCTIONS then 2
  else SBI_EINVAL.

(** Whether an entry of the table is for the event. *)
Definition hw_event_matches (e : sbi_pmu_hw_event) (event_idx data : Z) : bool :=
  negb (((event_idx <? e.(start_idx)) && (event_idx <? e.(end_idx)))
        || ((e.(start_idx) <? event_idx) && (e.(end_idx) <? event_idx)))
  && (if (event_idx =? SBI_PMU_EVENT_RAW_IDX) || (event_idx =? SBI_PMU_EVENT_RAW_V2_IDX)
      then e.(select) =? Z.land data e.(select_mask) else true).

(** The inner loop, [for_each_set_bit_from(cbase, ...)]: the last free counter. *)
Fixpoint find_free (active : list Z) (mctr_inhbt ctr_idx : Z) (cs : list Z) : Z :=
  match cs with
  | [] => ctr_idx
  | c :: cs =>
      let free := (default 0 (active !! Z.to_nat c) =? SBI_PMU_EVENT_IDX_INVALID)
                  && negb ((SBI_HART_PRIV_VER_1_11 <=? f.(priv_version)) && negb (Z.testbit mctr_inhbt c)) in
      find_free active mctr_inhbt (if free then c else ctr_idx) cs
  end.

(** The outer loop: [cbase] is the variable of the inner one, so it is left at the
    end of the word after the first entry that matches. *)
Fixpoint find_entries (active : list Z) (mctr_inhbt event_idx data cmask cbase ctr_idx : Z) (es : list sbi_pmu_hw_event) : Z :=
  match es with
  | [] => ctr_idx
  | e :: es =>
      if hw_event_matches e event_idx data then
        let ctr_mask := Z.land (Z.land e.(counters) (u64 (Z.shiftl cmask cbase))) (u64 (Z.lnot SBI_PMU_FIXED_CTR_MASK)) in
        let cs := filter (fun c => cbase <= c) (set_bits ctr_mask 32) in
        find_entries active mctr_inhbt event_idx data cmask (Z.max cbase SBI_PMU_HW_CTR_MAX) (find_free active mctr_inhbt ctr_idx cs) es
      else find_entries active mctr_inhbt event_idx data cmask cbase ctr_idx es
  end.

Definition pmu_ctr_find_hw (cbase cmask flags event_idx data : Z) : M Z :=
  if p.(num_hw_ctrs) <=? cbase then mret SBI_EINVAL
  else
    let fixed_ctr := pmu_ctr_find_fixed_hw event_idx in
    if (0 <=? fixed_ctr) && negb (sbi_hart_has_extension f SBI_HART_EXT_SSCOFPMF)
    then pmu_fixed_ctr_update_inhibit_bits fixed_ctr flags
    else
      mctr_inhbt ← (if SBI_HART_PRIV_VER_1_11 <=? f.(priv_version) then on_hart (csr_read CSR_MCOUNTINHIBIT) else mret 0);
      s ← get_phs;
      let ctr_idx := find_entries s.(active_events) mctr_inhbt event_idx data cmask cbase SBI_ENOTSUPP p.(hw_event_map) in
      if ctr_idx =? SBI_ENOTSUPP then
        if 0 <=? fixed_ctr then pmu_fixed_ctr_update_inhibit_bits fixed_ctr flags else mret SBI_EFAIL
      else
        ret ← pmu_update_hw_mhpmevent ctr_idx flags event_idx data;
        mret (if ret =? 0 then ctr_idx else ret).

(** The loop tests entry [i], not entry [cidx], and returns [i]. *)
Fixpoint pmu_ctr_find_fw (cbase event_code edata : Z) (is_ : list Z) : M Z :=
  match is_ with
  | [] => mret SBI_ENOTSUPP
  | i :: is_ =>
      let cidx := s32 (i + cbase) in
      if (u32 cidx <? p.(num_hw_ctrs)) || (p.(total_ctrs) <=? u32 cidx) then pmu_ctr_find_fw cbase event_code edata is_
      else
        v ← get_active i;
        if negb (v =? SBI_PMU_EVENT_IDX_INVALID) then pmu_ctr_find_fw cbase event_code edata is_
        else match (if event_code =? SBI_PMU_FW_PLATFORM then dev_op fw_counter_match_encoding else None) with
             | Some match_ => if match_ (fw_index cidx) edata then mret i else pmu_ctr_find_fw cbase event_code edata is_
             | None => mret i
             end
  end.

(** After [skip_match]. *)
Definition cfg_finish (event_type event_code flags event_data ctr_idx : Z) : M Z :=
  if event_type =? SBI_PMU_EVENT_TYPE_HW then
    (if has flags SBI_PMU_CFG_FLAG_CLEAR_VALUE then pmu_ctr_write_hw ctr_idx 0 else mret tt);;
    (if has flags SBI_PMU_CFG_FLAG_AUTO_START then pmu_ctr_start_hw ctr_idx 0 false;; mret tt else mret tt);;
    mret ctr_idx
  else if event_type =? SBI_PMU_EVENT_TYPE_FW then
    (if has flags SBI_PMU_CFG_FLAG_CLEAR_VALUE then set_data (fw_index ctr_idx) 0 else mret tt);;
    (if has flags SBI_PMU_CFG_FLAG_AUTO_START then
       ret ← match (if event_code =? SBI_PMU_FW_PLATFORM then dev_op fw_counter_start else None) with
             | Some start => on_dev (start (fw_index ctr_idx) event_data)
             | None => mret 0
             end;
       if negb (ret =? 0) then mret ret
       else
         s ← get_phs;
         set_started (Z.lor s.(fw_counters_started) (fw_bit ctr_idx));;
         mret ctr_idx
     else mret ctr_idx)
  else mret ctr_idx.

Definition sbi_pmu_ctr_cfg_match (cidx_base cidx_mask flags event_idx event_data : Z) : M Z :=
  if p.(total_ctrs) <=? u64 (cidx_base + sbi_fls cidx_mask) then mret SBI_EINVAL
  else
    let event_type := pmu_event_validate event_idx event_data in
    if event_type <? 0 then mret SBI_EINVAL
    else
      let event_code := get_cidx_code event_idx in
      if has flags SBI_PMU_CFG_FLAG_SKIP_MATCH then
        let cidx_first := u64 (cidx_base + sbi_ffs cidx_mask) in
        v ← get_active cidx_first;
        if v =? SBI_PMU_EVENT_IDX_INVALID then mret SBI_EINVAL
        else cfg_finish event_type event_code flags event_data (s32 cidx_first)
      else
        ctr_idx ← (if event_type =? SBI_PMU_EVENT_TYPE_FW then
                     c ← pmu_ctr_find_fw cidx_base event_code event_data (set_bits cidx_mask 64);
                     (if event_code =? SBI_PMU_FW_PLATFORM then set_data (fw_index c) event_data else mret tt);;
                     mret c
                   else pmu_ctr_find_hw cidx_base cidx_mask flags event_idx event_data);
        if ctr_idx <? 0 then mret SBI_ENOTSUPP
        else
          set_active ctr_idx event_idx;;
          cfg_finish event_type event_code flags event_data ctr_idx.

(** ** Firmware events *)

(** The loop of [sbi_pmu_ctr_incr_fw] over the counters from [cidx] on: the first
    that counts the event. *)
Fixpoint incr_find (active : list Z) (started fw_id : Z) (n : nat) (cidx : Z) : option Z :=
  match n with
  | O => None
  | S n =>
      if (get_cidx_code (default 0 (active !! Z.to_nat cidx)) =? fw_id) && has started (fw_bit cidx) then Some (fw_index cidx)
      else incr_find active started fw_id n (cidx + 1)
  end.

Definition sbi_pmu_ctr_incr_fw (fw_id : Z) : M Z :=
  s ← get_phs;
  if s.(fw_counters_started) =? 0 then mret 0
  else if SBI_PMU_FW_MAX <=? fw_id then mret SBI_EINVAL
  else
    match incr_find s.(active_events) s.(fw_counters_started) fw_id (Z.to_nat (p.(total_ctrs) - p.(num_hw_ctrs))) p.(num_hw_ctrs) with
    | Some i => v ← get_data i; set_data i (u64 (v + 1));; mret 0
    | None => mret 0
    end.

Definition sbi_pmu_num_ctr : Z := p.(num_hw_ctrs) + SBI_PMU_FW_CTR_MAX.

(** The fields [csr], [width] and [type] of [union sbi_pmu_ctr_info]. *)
Definition ctr_info (csr width type : Z) : Z := csr `mod` 2 ^ 12 + 2 ^ 12 * (width `mod` 2 ^ 6) + 2 ^ 63 * (type `mod` 2).

Definition sbi_pmu_ctr_get_info (cidx : Z) : option Z :=
  let cidx := u32 cidx in
  let counter_mask := Z.lor f.(mhpm_mask) SBI_PMU_CY_IR_MASK in
  if p.(total_ctrs) <=? cidx then None
  else if cidx <? p.(num_hw_ctrs) then
    if negb (Z.testbit counter_mask cidx) then None
    else Some (ctr_info (PMU_CSR_CYCLE + cidx) (if (cidx =? 0) || (cidx =? 2) then 63 else f.(mhpm_bits) - 1) SBI_PMU_CTR_TYPE_HW)
  else Some (ctr_info 0 (match dev_op fw_counter_width with Some w => if w =? 0 then 63 else w - 1 | None => 63 end) SBI_PMU_CTR_TYPE_FW).

(** ** Initialisation *)

Definition pmu_reset_event_map (s : sbi_pmu_hart_state) : sbi_pmu_hart_state :=
  Phs (imap (fun j v => if (3 <=? j)%nat && (Z.of_nat j <? p.(total_ctrs)) then SBI_PMU_EVENT_IDX_INVALID else v) s.(active_events))
      0 false (map (fun _ => 0) s.(fw_counters_data)).

Definition sbi_pmu_exit : M unit :=
  (if SBI_HART_PRIV_VER_1_11 <=? f.(priv_version) then on_hart (csr_write CSR_MCOUNTINHIBIT 0xFFFFFFF8) else mret tt);;
  (if SBI_HART_PRIV_VER_1_10 <=? f.(priv_version) then on_hart (csr_write CSR_MCOUNTEREN (u64 (-1))) else mret tt);;
  s ← get_phs; set_phs (pmu_reset_event_map s).

(** The part of [sbi_pmu_init] on the state of a hart. *)
Definition pmu_init_hart : M unit :=
  s ← get_phs;
  set_phs (pmu_reset_event_map s);;
  set_active 0 (Z.lor (Z.shiftl SBI_PMU_EVENT_TYPE_HW SBI_PMU_EVENT_IDX_TYPE_OFFSET) SBI_PMU_HW_CPU_CYCLES);;
  set_active 1 SBI_PMU_EVENT_IDX_INVALID;;
  set_active 2 (Z.lor (Z.shiftl SBI_PMU_EVENT_TYPE_HW SBI_PMU_EVENT_IDX_TYPE_OFFSET) SBI_PMU_HW_INSTRUCTIONS).
End Model.

(** The number of counters, from the mask of the programmable ones; [None] is
    [SBI_EINVAL]. *)
Definition pmu_init_counts (f : sbi_hart_features) (p : pmu) : option pmu :=
  let hpm_count := sbi_fls f.(mhpm_mask) in
  let n := if hpm_count =? 0 then 3 else hpm_count + 1 in
  if SBI_PMU_HW_CTR_MAX <? n then None else Some (Pmu p.(hw_event_map) n (n + SBI_PMU_FW_CTR_MAX)).

(** The state [sbi_zalloc] gives. *)
Definition zero_phs : sbi_pmu_hart_state := Phs (replicate 48 0) 0 false (replicate 16 0).

(** ** Description of events *)

Record sbi_pmu_event_info := EventInfo { event_idx : Z; output : Z; event_data : Z }.

Definition event_info_found (p : pmu) (idx data : Z) : bool :=
  existsb (fun e => if (idx =? SBI_PMU_EVENT_RAW_IDX) || (idx =? SBI_PMU_EVENT_RAW_V2_IDX)
                    then e.(select) =? Z.land data e.(select_mask)
                    else (e.(start_idx) <=? idx) && (idx <=? e.(end_idx))) p.(hw_event_map).

Definition event_info_one {Dev} (pmu_dev : option (sbi_pmu_device Dev)) (p : pmu) (e : sbi_pmu_event_info) : sbi_pmu_event_info :=
  EventInfo e.(event_idx)
    (if pmu_event_validate pmu_dev e.(event_idx) e.(event_data) <? 0 then 0
     else if event_info_found p e.(event_idx) e.(event_data) then 1 else 0)
    e.(event_data).

(** The loop over the entries from address [a] on. *)
Fixpoint event_info_loop {Dev} (pmu_dev : option (sbi_pmu_device Dev)) (p : pmu) (n : nat) (a : Z)
    (m : gmap Z sbi_pmu_event_info) : gmap Z sbi_pmu_event_info :=
  match n with
  | O => m
  | S n =>
      let e := default (EventInfo 0 0 0) (m !! u64 a) in
      event_info_loop pmu_dev p n (a + 16) (<[u64 a := event_info_one pmu_dev p e]> m)
  end.

Section Ecall.
Context {hw : Hw} {Dev : Type} (f : sbi_hart_features) (xlate : Z -> Z -> Z).
Context (pmu_dev : option (sbi_pmu_device Dev)) (p : pmu).
(** [check] is [sbi_domain_check_addr_range] for reading and writing in S mode in
    the domain of the hart. *)
Context (check : Z -> Z -> bool).

Definition sbi_pmu_event_get_info (shmem_phys_lo shmem_phys_hi num_events flags : Z) (m : gmap Z sbi_pmu_event_info)
    : pM Dev (Z * gmap Z sbi_pmu_event_info) :=
  let shmem_size := u64 (num_events * 16) in
  if negb (flags =? 0) then mret (SBI_EINVAL, m)
  else if (num_events =? 0) || has shmem_phys_lo 0xF then mret (SBI_EINVAL, m)
  else if negb (shmem_phys_hi =? 0) then mret (SBI_EINVALID_ADDR, m)
  else if negb (check shmem_phys_lo shmem_size) then mret (SBI_EINVALID_ADDR, m)
  else
    on_hart (sbi_hart_map_saddr f shmem_phys_lo shmem_size);;
    let m := event_info_loop pmu_dev p (Z.to_nat num_events) shmem_phys_lo m in
    on_hart (sbi_hart_unmap_saddr f);;
    mret (0, m).

Definition SBI_EXT_PMU_NUM_COUNTERS : Z := 0x0.
Definition SBI_EXT_PMU_COUNTER_GET_INFO : Z := 0x1.
Definition SBI_EXT_PMU_COUNTER_CFG_MATCH : Z := 0x2.
Definition SBI_EXT_PMU_COUNTER_START : Z := 0x3.
Definition SBI_EXT_PMU_COUNTER_STOP : Z := 0x4.
Definition SBI_EXT_PMU_COUNTER_FW_READ : Z := 0x5.
Definition SBI_EXT_PMU_COUNTER_FW_READ_HI : Z := 0x6.
Definition SBI_EXT_PMU_EVENT_GET_INFO : Z := 0x8.

(** The result, the value returned ([out0] is the one before the call, which stays
    when the call does not set it; a read that fails returns a value that was
    never set, [garbage]), and the shared memory. *)
Definition sbi_ecall_pmu_handler (funcid a0 a1 a2 a3 a4 out0 garbage : Z) (m : gmap Z sbi_pmu_event_info)
    : pM Dev (Z * Z * gmap Z sbi_pmu_event_info) :=
  let value_or_error ret := mret (if 0 <=? ret then (0, ret, m) else (ret, out0, m)) in
  if funcid =? SBI_EXT_PMU_NUM_COUNTERS then value_or_error (sbi_pmu_num_ctr p)
  else if funcid =? SBI_EXT_PMU_COUNTER_GET_INFO then
    mret (match sbi_pmu_ctr_get_info f pmu_dev p a0 with Some v => (0, v, m) | None => (SBI_EINVAL, out0, m) end)
  else if funcid =? SBI_EXT_PMU_COUNTER_CFG_MATCH then
    ret ← sbi_pmu_ctr_cfg_match f xlate pmu_dev p a0 a1 a2 a3 a4; value_or_error ret
  else if funcid =? SBI_EXT_PMU_COUNTER_FW_READ then
    r ← sbi_pmu_ctr_fw_read pmu_dev p a0;
    mret (match r with inr v => (0, v, m) | inl e => (e, garbage, m) end)
  else if funcid =? SBI_EXT_PMU_COUNTER_FW_READ_HI then mret (0, 0, m)
  else if funcid =? SBI_EXT_PMU_COUNTER_START then
    ret ← sbi_pmu_ctr_start f pmu_dev p a0 a1 a2 a3; mret (ret, out0, m)
  else if funcid =? SBI_EXT_PMU_COUNTER_STOP then
    ret ← sbi_pmu_ctr_stop f pmu_dev p a0 a1 a2; mret (ret, out0, m)
  else if funcid =? SBI_EXT_PMU_EVENT_GET_INFO then
    '(ret, m) ← sbi_pmu_event_get_info a0 a1 a2 a3 m; mret (ret, out0, m)
  else mret (SBI_ENOTSUPP, out0, m).
End Ecall.
