(* ===== verification/PmuProps.v ===== *)
(** * Properties of performance monitoring (lib/sbi/sbi_pmu.c)

    The calls keep the bindings of counters to events well typed and never leave
    the arrays of the hart's state; firmware counters count their event; the table
    of hardware events answers for each event at most once. *)

From S2P Require Import Prelude SbiTypes Bitops Domain Csr Pmp PmpProps HartFeat Trap Pmu.

Local Open Scope Z_scope.

(** ** Well-formed states *)

Definition is_fw (v : Z) : bool := get_cidx_type v =? SBI_PMU_EVENT_TYPE_FW.

(** What counter [i] may be bound to. *)
Definition binding_ok (n i v : Z) : Prop :=
  v = SBI_PMU_EVENT_IDX_INVALID \/
  (if i <? n then is_fw v = false else is_fw v = true /\ get_cidx_code v < SBI_PMU_FW_MAX).

Definition phs_ok (n : Z) (s : sbi_pmu_hart_state) : Prop :=
  length s.(active_events) = 48%nat /\ length s.(fw_counters_data) = 16%nat /\
  s.(active_events) !! 0%nat = Some SBI_PMU_HW_CPU_CYCLES /\
  s.(active_events) !! 1%nat = Some SBI_PMU_EVENT_IDX_INVALID /\
  s.(active_events) !! 2%nat = Some SBI_PMU_HW_INSTRUCTIONS /\
  forall i v, s.(active_events) !! i = Some v -> Z.of_nat i < n + SBI_PMU_FW_CTR_MAX -> binding_ok n (Z.of_nat i) v.

Definition pmu_ok (p : pmu) : Prop :=
  3 <= p.(num_hw_ctrs) <= SBI_PMU_HW_CTR_MAX /\ p.(total_ctrs) = p.(num_hw_ctrs) + SBI_PMU_FW_CTR_MAX /\
  Forall (fun e => in_range p.(num_hw_ctrs) e.(counters)) p.(hw_event_map).

(** The registers the functions use. *)
Definition pmu_csrs : list Z :=
  [CSR_MIP; CSR_MCOUNTINHIBIT; CSR_MCYCLE; CSR_MINSTRET; CSR_MCYCLECFG; CSR_MINSTRETCFG]
  ++ map (fun i => CSR_MHPMCOUNTER3 + Z.of_nat i) (seq 0 29) ++ map (fun i => CSR_MHPMEVENT3 + Z.of_nat i) (seq 0 29).

Lemma mip_in : In CSR_MIP pmu_csrs.
Proof. by left. Qed.

Lemma inhibit_in : In CSR_MCOUNTINHIBIT pmu_csrs.
Proof. by right; left. Qed.

(** ** Functions that keep the invariant *)

Section Safe.
Context {hw : Hw} {Dev : Type} (f : sbi_hart_features) (xlate : Z -> Z -> Z) (p : pmu).
Context (Hp : pmu_ok p) (Hcsr : Forall full pmu_csrs).

Local Set Default Proof Using "Type".

Local Abbreviation M := (pM Dev).
Local Abbreviation nhw := (num_hw_ctrs p).

(** It returns, keeps the invariant, and its result satisfies [Q]. *)
Definition safe {A} (m : M A) (Q : A -> Prop) : Prop :=
  forall w, phs_ok nhw w.(phs) -> exists x w', m w = Some (x, w') /\ phs_ok nhw w'.(phs) /\ Q x.

Lemma safe_ret {A} (x : A) (Q : A -> Prop) : Q x -> safe (mret x) Q.
Proof. intros HQ w Hw. by exists x, w. Qed.

Lemma psafe_bind {A B} (m : M A) (g : A -> M B) Q R : safe m Q -> (forall x, Q x -> safe (g x) R) -> safe (m ≫= g) R.
Proof.
  intros Hm Hg w Hw. destruct (Hm w Hw) as (x & w1 & E & Hw1 & HQ). rewrite (pM_step _ _ _ _ _ _ _ _ E). by apply Hg.
Qed.

Lemma safe_weaken {A} (m : M A) (Q R : A -> Prop) : safe m Q -> (forall x, Q x -> R x) -> safe m R.
Proof. intros Hm HQ w Hw. destruct (Hm w Hw) as (x & w1 & E & Hw1 & Hx). exists x, w1. auto. Qed.

Lemma safe_seq {A B} (m : M A) (k : M B) R : safe m (fun _ => True) -> safe k R -> safe (m;; k) R.
Proof. intros Hm Hk. by apply (psafe_bind m _ (fun _ => True)). Qed.

Lemma safe_if {A} (b : bool) (m m' : M A) Q : (b = true -> safe m Q) -> (b = false -> safe m' Q) -> safe (if b then m else m') Q.
Proof. destruct b; auto. Qed.

Lemma safe_unit_if (b : bool) (m : M unit) : (b = true -> safe m (fun _ => True)) -> safe (if b then m else mret tt) (fun _ => True).
Proof. intros H. apply safe_if; [done|]. intros _. by apply safe_ret. Qed.

Lemma psafe_on_hart {A} (m : csrM A) : (forall h, exists x h', m h = Some (x, h')) -> safe (on_hart m) (fun _ => True).
Proof. intros H w Hw. unfold on_hart. destruct (H (hrt w)) as (x & h' & ->). by eexists _, _. Qed.

Lemma full_in c : In c pmu_csrs -> full c.
Proof using Hcsr. intros H. rewrite Forall_forall in Hcsr. apply Hcsr. by apply list_elem_of_In. Qed.

Lemma safe_csr_read c : In c pmu_csrs -> safe (on_hart (csr_read c)) (fun _ => True).
Proof using Hcsr. intros H. apply psafe_on_hart. intros h. eexists _, _. by apply csr_read_full, full_in. Qed.

Lemma safe_csr_write c v : In c pmu_csrs -> safe (on_hart (csr_write c v)) (fun _ => True).
Proof using Hcsr. intros H. apply psafe_on_hart. intros h. eexists _, _. by apply csr_write_full, full_in. Qed.

Lemma safe_csr_clear c v : In c pmu_csrs -> safe (on_hart (csr_clear c v)) (fun _ => True).
Proof using Hcsr.
  intros H. apply psafe_on_hart. intros h. eexists _, _. unfold csr_clear.
  rewrite (csr_bind _ _ _ _ _ (csr_read_full _ _ (full_in _ H))). by apply csr_write_full, full_in.
Qed.

Lemma safe_csr_read_num c : In c pmu_csrs -> csr_num_known c = true -> safe (on_hart (csr_read_num c)) (fun _ => True).
Proof using Hcsr. intros H E. unfold csr_read_num. rewrite E. by apply safe_csr_read. Qed.

Lemma safe_csr_write_num c v : In c pmu_csrs -> csr_num_known c = true -> safe (on_hart (csr_write_num c v)) (fun _ => True).
Proof using Hcsr. intros H E. unfold csr_write_num. rewrite E. by apply safe_csr_write. Qed.

(** The registers of a counter. *)
Definition hw_counter (c : Z) : Prop := 0 <= c < SBI_PMU_HW_CTR_MAX /\ c <> 1.

Lemma counter_csr c : hw_counter c -> In (CSR_MCYCLE + c) pmu_csrs /\ csr_num_known (CSR_MCYCLE + c) = true.
Proof.
  intros [Hc H1]. unfold SBI_PMU_HW_CTR_MAX in Hc.
  assert (c = 0 \/ c = 2 \/ 3 <= c) as [->|[->|H3]] by lia; [split; [cbn; tauto|reflexivity]..|]. split.
  - unfold pmu_csrs. apply in_or_app. right. apply in_or_app. left. apply in_map_iff. exists (Z.to_nat (c - 3)).
    split; [unfold CSR_MHPMCOUNTER3, CSR_MCYCLE; lia|apply in_seq; lia].
  - unfold csr_num_known. replace ((CSR_MHPMCOUNTER3 <=? CSR_MCYCLE + c) && (CSR_MCYCLE + c <? CSR_MHPMCOUNTER3 + 29)) with true.
    + by rewrite orb_true_r.
    + symmetry. unfold CSR_MHPMCOUNTER3, CSR_MCYCLE. apply andb_true_iff. split; [apply Z.leb_le|apply Z.ltb_lt]; lia.
Qed.

Lemma event_csr c : 3 <= c < SBI_PMU_HW_CTR_MAX -> In (CSR_MHPMEVENT3 + c - 3) pmu_csrs /\ csr_num_known (CSR_MHPMEVENT3 + c - 3) = true.
Proof.
  unfold SBI_PMU_HW_CTR_MAX. intros Hc. split.
  - unfold pmu_csrs. apply in_or_app. right. apply in_or_app. right. apply in_map_iff. exists (Z.to_nat (c - 3)).
    split; [unfold CSR_MHPMEVENT3; lia|apply in_seq; lia].
  - unfold csr_num_known. replace ((CSR_MHPMEVENT3 <=? CSR_MHPMEVENT3 + c - 3) && (CSR_MHPMEVENT3 + c - 3 <? CSR_MHPMEVENT3 + 29)) with true.
    + by rewrite orb_true_r.
    + symmetry. apply andb_true_iff. split; [apply Z.leb_le|apply Z.ltb_lt]; lia.
Qed.

(** ** The arrays *)

Lemma safe_get_active i : 0 <= i < 48 ->
  safe (get_active i) (fun v => i < nhw + SBI_PMU_FW_CTR_MAX -> binding_ok nhw i v).
Proof.
  intros Hi w Hw. pose proof Hw as (H48 & _ & _ & _ & _ & Hb). unfold get_active. rewrite arr_get_in by lia.
  destruct (lookup_lt_is_Some_2 (active_events (phs w)) (Z.to_nat i)) as [v Ev]; [lia|]. rewrite Ev.
  exists v, w. split; [done|]. split; [done|]. intros Hlt. specialize (Hb _ _ Ev). rewrite Z2Nat.id in Hb by lia. auto.
Qed.

Lemma safe_set_active i v : 3 <= i < nhw + SBI_PMU_FW_CTR_MAX -> nhw <= SBI_PMU_HW_CTR_MAX -> binding_ok nhw i (u32 v) ->
  safe (set_active i v) (fun _ => True).
Proof.
  unfold SBI_PMU_FW_CTR_MAX, SBI_PMU_HW_CTR_MAX. intros Hi Hn Hv w Hw. pose proof Hw as (H48 & Hd & H0 & H1 & H2 & Hb). unfold set_active.
  rewrite H48. change (Z.of_nat 48) with 48. assert ((0 <=? i) && (i <? 48) = true) as ->
    by (apply andb_true_iff; split; [apply Z.leb_le|apply Z.ltb_lt]; lia).
  eexists _, _. split; [done|]. split; [|done]. cbn [phs active_events fw_counters_data]. unfold phs_ok. cbn [active_events fw_counters_data].
  rewrite length_insert, !list_lookup_insert_ne by lia. split_and!; [done..|].
  intros j u Hj Hlt. destruct (decide (j = Z.to_nat i)) as [->|Hne].
  - rewrite list_lookup_insert_eq in Hj by lia. simplify_eq. by rewrite Z2Nat.id by lia.
  - rewrite list_lookup_insert_ne in Hj by done. by apply (Hb j).
Qed.

Lemma safe_data_get i : 0 <= i < 16 -> safe (get_data i) (fun _ => True).
Proof.
  intros Hi w Hw. pose proof Hw as (_ & Hd & _). unfold get_data. rewrite arr_get_in by lia.
  destruct (lookup_lt_is_Some_2 (fw_counters_data (phs w)) (Z.to_nat i)) as [v Ev]; [lia|]. rewrite Ev. by exists v, w.
Qed.

Lemma safe_data_set i v : 0 <= i < 16 -> safe (set_data i v) (fun _ => True).
Proof.
  intros Hi w Hw. pose proof Hw as (H48 & Hd & Hrest). unfold set_data. rewrite Hd. change (Z.of_nat 16) with 16.
  assert ((0 <=? i) && (i <? 16) = true) as -> by (apply andb_true_iff; split; [apply Z.leb_le|apply Z.ltb_lt]; lia).
  eexists _, _. split; [done|]. split; [|done]. split; [done|]. cbn. rewrite length_insert. split; [exact Hd|exact Hrest].
Qed.

Lemma safe_get_phs : safe get_phs (fun s => phs_ok nhw s).
Proof. intros w Hw. by exists (phs w), w. Qed.

Lemma safe_set_started v : safe (set_started v) (fun _ => True).
Proof. intros w Hw. eexists _, _. split; [done|]. split; [exact Hw|done]. Qed.

Lemma fw_index_range c : nhw <= c < nhw + SBI_PMU_FW_CTR_MAX -> 0 <= nhw <= SBI_PMU_HW_CTR_MAX -> fw_index p c = c - nhw /\ 0 <= c - nhw < 16.
Proof.
  unfold SBI_PMU_FW_CTR_MAX, SBI_PMU_HW_CTR_MAX. intros Hc Hn. split; [|lia]. unfold fw_index. apply wrap_small. unfold in_range. lia.
Qed.

(** ** The operations *)

Lemma pmu_bounds : 3 <= nhw <= 32 /\ p.(total_ctrs) = nhw + 16.
Proof using Hp. destruct Hp as (H1 & H2 & _). unfold SBI_PMU_HW_CTR_MAX, SBI_PMU_FW_CTR_MAX in *. lia. Qed.

(** A counter that is bound: of the hart, or of the firmware with a valid code. *)
Definition bound (c : Z) (r : option (Z * Z)) : Prop :=
  match r with
  | None => True
  | Some (type, code) => 0 <= u32 c < p.(total_ctrs) /\
      (if type =? SBI_PMU_EVENT_TYPE_FW then nhw <= u32 c /\ 0 <= code < SBI_PMU_FW_MAX else u32 c < nhw)
  end.

Lemma code_nonneg v : 0 <= get_cidx_code v.
Proof. unfold get_cidx_code, SBI_PMU_EVENT_IDX_CODE_MASK. apply Z.land_nonneg. lia. Qed.

Lemma safe_ctr_validate c : safe (pmu_ctr_validate p c) (bound c).
Proof using Hp.
  pose proof pmu_bounds as [Hn Ht]. unfold pmu_ctr_validate. pose proof (Z.mod_pos_bound c (2 ^ 32) ltac:(lia)) as Hc.
  change (c `mod` 2 ^ 32) with (u32 c) in Hc. destruct (Z.leb_spec (total_ctrs p) (u32 c)); [by apply safe_ret|].
  eapply psafe_bind; [apply safe_get_active; lia|]. intros v Hv. unfold SBI_PMU_FW_CTR_MAX in Hv. specialize (Hv ltac:(lia)).
  destruct (Z.eqb_spec v SBI_PMU_EVENT_IDX_INVALID); cbn [orb]; [by apply safe_ret|].
  destruct (SBI_PMU_EVENT_TYPE_MAX <=? get_cidx_type v); apply safe_ret; [done|].
  destruct Hv as [|Hv]; [done|]. cbn [bound]. split; [lia|]. fold (is_fw v). pose proof (code_nonneg v).
  destruct (Z.ltb_spec (u32 c) nhw); [by rewrite Hv|]. destruct Hv as [-> Hv]. lia.
Qed.

Lemma fw_code_good code : 0 <= code < SBI_PMU_FW_MAX -> fw_code_bad code = false /\ (code =? SBI_PMU_FW_PLATFORM) = false.
Proof.
  unfold SBI_PMU_FW_MAX, fw_code_bad, SBI_PMU_FW_PLATFORM, SBI_PMU_FW_MAX, SBI_PMU_FW_RESERVED_MAX. intros H.
  split; [|apply Z.eqb_neq; lia]. apply orb_false_iff. split; [apply andb_false_iff; left; apply Z.leb_gt; lia|apply Z.ltb_ge; lia].
Qed.

Lemma u32_s32 z : u32 (s32 z) = u32 z.
Proof. apply wrap_signed. lia. Qed.

Lemma s32_small z c : u32 z = c -> 0 <= c < 100 -> s32 z = c.
Proof.
  intros E Hc. unfold signed. rewrite E. change (2 ^ (32 - 1)) with 2147483648. destruct (Z.ltb_spec c 2147483648); lia.
Qed.

(** The index a valid counter has after the conversions. *)
Lemma bound_index z type code : bound (s32 z) (Some (type, code)) -> s32 z = u32 (s32 z) /\ 0 <= s32 z < nhw + 16 /\
  (if type =? SBI_PMU_EVENT_TYPE_FW then nhw <= s32 z /\ 0 <= code < SBI_PMU_FW_MAX else s32 z < nhw).
Proof using Hp.
  pose proof pmu_bounds as [Hn Ht]. intros [Hr Hc]. rewrite u32_s32 in *. assert (s32 z = u32 z) as E by (apply s32_small; lia).
  rewrite E. split; [done|]. split; [lia|done].
Qed.

Lemma safe_enable_irq c : safe (pmu_ctr_enable_irq_hw (Dev := Dev) f None c) (fun _ => True).
Proof using Hcsr.
  unfold pmu_ctr_enable_irq_hw. destruct (Z.ltb_spec c 3); cbn [orb]; [by apply safe_ret|].
  destruct (Z.leb_spec SBI_PMU_HW_CTR_MAX c); [by apply safe_ret|]. destruct (event_csr c ltac:(lia)) as [Hin Hk].
  eapply psafe_bind; [by apply safe_csr_read_num|]. intros cur _. eapply psafe_bind; [apply safe_csr_read, mip_in|]. intros mip _.
  apply safe_seq; [|by apply safe_ret]. apply safe_unit_if. intros _. by apply safe_csr_write_num.
Qed.

Lemma safe_write_hw c v : hw_counter c -> safe (pmu_ctr_write_hw c v) (fun _ => True).
Proof using Hcsr. intros Hc. destruct (counter_csr c Hc). by apply safe_csr_write_num. Qed.

Lemma safe_start_hw c v u : 0 <= c -> safe (pmu_ctr_start_hw (Dev := Dev) f None p c v u) (fun _ => True).
Proof using Hp Hcsr.
  pose proof pmu_bounds as [Hn _]. intros Hc. unfold pmu_ctr_start_hw. destruct (Z.leb_spec nhw c); cbn [orb]; [by apply safe_ret|].
  destruct (Z.eqb_spec c 1); [by apply safe_ret|]. assert (hw_counter c) as Hhc by (split; [unfold SBI_PMU_HW_CTR_MAX; lia|done]).
  destruct (priv_version f <? SBI_HART_PRIV_VER_1_11).
  - apply safe_seq; [|by apply safe_ret]. apply safe_unit_if. intros _. by apply safe_write_hw.
  - eapply psafe_bind; [apply safe_csr_read, inhibit_in|]. intros m _. apply safe_if; intros _; [by apply safe_ret|].
    apply safe_seq; [apply safe_unit_if; intros _; apply safe_seq; [apply safe_enable_irq|by apply safe_ret]|].
    apply safe_seq; [apply safe_unit_if; intros _; by apply safe_write_hw|].
    apply safe_seq; [by apply safe_ret|]. apply safe_seq; [apply safe_csr_write, inhibit_in|by apply safe_ret].
Qed.

Lemma safe_start_fw c code v u : nhw <= c < nhw + 16 -> 0 <= code < SBI_PMU_FW_MAX ->
  safe (pmu_ctr_start_fw (Dev := Dev) None p c code 0 v u) (fun _ => True).
Proof using Hp.
  pose proof pmu_bounds as [Hn _]. intros Hc Hcode. unfold pmu_ctr_start_fw. destruct (fw_code_good code Hcode) as [-> ->].
  destruct (fw_index_range c) as [E Hr]; [unfold SBI_PMU_FW_CTR_MAX; lia|unfold SBI_PMU_HW_CTR_MAX; lia|]. rewrite E.
  apply safe_seq; [apply safe_unit_if; intros _; by apply safe_data_set|]. eapply psafe_bind; [apply safe_get_phs|]. intros s _.
  apply safe_seq; [apply safe_set_started|by apply safe_ret].
Qed.

Lemma safe_for_each body ret is_ : (forall r i, safe (body r i) (fun _ => True)) -> safe (for_each (Dev := Dev) body ret is_) (fun _ => True).
Proof.
  intros H. revert ret. induction is_ as [|i is_ IH]; intros ret; cbn [for_each]; [by apply safe_ret|].
  eapply psafe_bind; [apply H|]. intros r _. apply IH.
Qed.

Lemma safe_ctr_start cbase cmask flags v : safe (sbi_pmu_ctr_start (Dev := Dev) f None p cbase cmask flags v) (fun _ => True).
Proof using Hp Hcsr.
  unfold sbi_pmu_ctr_start. apply safe_if; intros _; [by apply safe_ret|]. apply safe_if; intros _; [by apply safe_ret|].
  apply safe_for_each. intros r i. unfold start_one. eapply psafe_bind; [apply safe_ctr_validate|]. intros [[type code]|] Hb; [|by apply safe_ret].
  apply bound_index in Hb as (E & Hr & Hk). destruct (type =? SBI_PMU_EVENT_TYPE_FW).
  - destruct Hk as [Hge Hcode]. destruct (fw_code_good code Hcode) as [_ ->]. unfold mbind at 1, pM_bind at 1.
    intros w Hw. cbv beta. unfold mret at 1, pM_ret at 1. apply safe_start_fw; [lia|done|done].
  - apply safe_start_hw. lia.
Qed.

Lemma safe_stop_hw c : 0 <= c -> safe (pmu_ctr_stop_hw (Dev := Dev) f None p c) (fun _ => True).
Proof using Hcsr.
  intros Hc. unfold pmu_ctr_stop_hw. apply safe_if; intros _; [by apply safe_ret|].
  eapply psafe_bind; [apply safe_csr_read, inhibit_in|]. intros m _. apply safe_if; intros _; [by apply safe_ret|].
  apply safe_if; intros _; [|by apply safe_ret].
  apply safe_seq; [apply safe_csr_write, inhibit_in|]. apply safe_seq; by apply safe_ret.
Qed.

Lemma safe_stop_fw c code : 0 <= code < SBI_PMU_FW_MAX -> safe (pmu_ctr_stop_fw (Dev := Dev) None p c code) (fun _ => True).
Proof.
  intros Hcode. unfold pmu_ctr_stop_fw. destruct (fw_code_good code Hcode) as [-> ->].
  eapply psafe_bind; [by apply (safe_ret 0 (fun x => x = 0))|]. intros ? ->. cbn [Z.eqb negb].
  eapply psafe_bind; [apply safe_get_phs|]. intros s _. apply safe_seq; [apply safe_set_started|by apply safe_ret].
Qed.

Lemma safe_reset_event c : safe (pmu_reset_hw_mhpmevent (Dev := Dev) c) (fun _ => True).
Proof using Hcsr.
  unfold pmu_reset_hw_mhpmevent. destruct (Z.ltb_spec c 3); cbn [orb]; [by apply safe_ret|].
  destruct (Z.leb_spec SBI_PMU_HW_CTR_MAX c); [by apply safe_ret|]. destruct (event_csr c ltac:(lia)) as [Hin Hk].
  apply safe_seq; [by apply safe_csr_write_num|by apply safe_ret].
Qed.

Lemma safe_ctr_stop cbase cmask flag : safe (sbi_pmu_ctr_stop (Dev := Dev) f None p cbase cmask flag) (fun _ => True).
Proof using Hp Hcsr.
  pose proof pmu_bounds as [Hn _]. unfold sbi_pmu_ctr_stop. apply safe_if; intros _; [by apply safe_ret|]. apply safe_if; intros _; [by apply safe_ret|].
  eapply psafe_bind; [apply safe_for_each; intros r i|].
  - unfold stop_one. eapply psafe_bind; [apply safe_ctr_validate|]. intros [[type code]|] Hb; [|by apply safe_ret].
    apply bound_index in Hb as (E & Hr & Hk).
    eapply psafe_bind; [apply safe_if; intros Et; rewrite Et in Hk; [apply safe_stop_fw; by apply Hk|apply safe_stop_hw; lia]|]. intros ret _.
    apply safe_seq; [|by apply safe_ret]. apply safe_unit_if. intros [H3 _]%andb_true_iff. apply Z.ltb_lt in H3.
    apply safe_seq; [apply safe_set_active; [unfold SBI_PMU_FW_CTR_MAX; lia|unfold SBI_PMU_HW_CTR_MAX; lia|by left]|].
    apply safe_seq; [apply safe_reset_event|by apply safe_ret].
  - intros ret _. eapply psafe_bind; [apply safe_get_phs|]. intros s _. apply safe_seq; [|by apply safe_ret].
    apply safe_unit_if. intros _. apply safe_csr_clear, mip_in.
Qed.

(** *** Configuring *)

Lemma in_set_bits mask k i : In i (set_bits mask k) -> Z.testbit mask i = true /\ 0 <= i < Z.of_nat k.
Proof.
  unfold set_bits. rewrite <- list_elem_of_In, list_elem_of_filter, list_elem_of_In, in_map_iff. intros (Hb & j & <- & Hj).
  apply in_seq in Hj. split; [done|lia].
Qed.

Lemma validate_type idx data t : pmu_event_validate (Dev := Dev) None idx data = t -> 0 <= t ->
  t = get_cidx_type idx /\ (t = SBI_PMU_EVENT_TYPE_FW -> get_cidx_code idx < SBI_PMU_FW_MAX).
Proof.
  unfold pmu_event_validate, dev_op, SBI_EINVAL. intros <- Ht. set (type := get_cidx_type idx) in *. set (code := get_cidx_code idx) in *.
  assert (forall mx, 0 <= (if code <? mx then type else -3) -> (if code <? mx then type else -3) = type /\ code < mx) as Hbelow
    by (intros mx; destruct (Z.ltb_spec code mx); lia).
  destruct (Z.eqb_spec type SBI_PMU_EVENT_TYPE_HW) as [E|_].
  { destruct (Hbelow _ Ht) as [-> _]. split; [done|]. rewrite E. discriminate. }
  destruct (Z.eqb_spec type SBI_PMU_EVENT_TYPE_FW) as [E|Hne].
  { destruct (fw_code_bad code); [lia|]. rewrite Tauto.if_same in *. destruct (Hbelow _ Ht) as [-> Hlt]. done. }
  destruct (type =? SBI_PMU_EVENT_TYPE_HW_CACHE).
  { case_match; [|lia]. done. }
  destruct (_ || _); [|lia]. destruct (Hbelow _ Ht) as [-> _]. done.
Qed.

Lemma safe_find_fw code data is_ : 0 <= code < SBI_PMU_FW_MAX -> (forall i, In i is_ -> 0 <= i < 64) ->
  safe (pmu_ctr_find_fw (Dev := Dev) None p 0 code data is_) (fun c => c < 0 \/ nhw <= c < nhw + 16).
Proof using Hp.
  pose proof pmu_bounds as [Hn Ht]. intros Hcode. destruct (fw_code_good code Hcode) as [_ Hplat].
  induction is_ as [|i is_ IH]; intros His; cbn [pmu_ctr_find_fw]; [apply safe_ret; left; done|].
  pose proof (His i (or_introl eq_refl)) as Hi. assert (forall j, In j is_ -> 0 <= j < 64) as His' by (intros j Hj; apply His; by right).
  rewrite u32_s32, Z.add_0_r, (wrap_small 32 i) by (unfold in_range; lia).
  destruct (Z.ltb_spec i nhw); cbn [orb]; [by apply IH|]. destruct (Z.leb_spec (total_ctrs p) i); [by apply IH|].
  eapply psafe_bind; [apply safe_get_active; lia|]. intros v _. apply safe_if; intros _; [by apply IH|].
  rewrite Hplat. apply safe_ret. right. lia.
Qed.

Lemma find_free_in active inh c0 cs c : find_free f active inh c0 cs = c -> c = c0 \/ In c cs.
Proof.
  revert c0. induction cs as [|x cs IH]; intros c0 E; cbn [find_free] in E; [by left|].
  destruct (IH _ E) as [Hc|Hc]; [|right; by right]. subst c. case_match; [right; by left|by left].
Qed.

Lemma find_entries_in active inh idx data cmask cbase c0 es c : Forall (fun e => in_range nhw e.(counters)) es ->
  find_entries f active inh idx data cmask cbase c0 es = c -> c = c0 \/ 3 <= c < nhw.
Proof using Hp.
  pose proof pmu_bounds as [Hn _]. intros Hes. revert cbase c0. induction Hes as [|e es He _ IH]; intros cbase c0 E; cbn [find_entries] in E; [by left|].
  destruct (hw_event_matches e idx data); [|by apply IH in E]. apply IH in E as [E|E]; [|by right]. symmetry in E.
  apply find_free_in in E as [E|E]; [by left|right]. rewrite <- list_elem_of_In, list_elem_of_filter, list_elem_of_In in E. destruct E as [_ E].
  apply in_set_bits in E as [Hb Hc]. rewrite !Z.land_spec in Hb. apply andb_true_iff in Hb as [[Hb _]%andb_true_iff Hfix].
  rewrite wrap_testbit, Z.lnot_spec in Hfix by lia. apply andb_true_iff in Hfix as [_ Hfix]. apply negb_true_iff in Hfix. split.
  - destruct (decide (3 <= c)) as [|Hlt]; [done|]. assert (c = 0 \/ c = 1 \/ c = 2) as [->|[->| ->]] by lia; done.
  - destruct (decide (c < nhw)) as [|Hge]; [done|]. rewrite (testbit_above nhw) in Hb by (done || lia). done.
Qed.

Lemma safe_fixed c flags : c = 0 \/ c = 2 -> safe (pmu_fixed_ctr_update_inhibit_bits (Dev := Dev) f None c flags) (fun x => x = c).
Proof using Hcsr.
  intros Hc. unfold pmu_fixed_ctr_update_inhibit_bits, dev_op. apply safe_if; intros _; [by apply safe_ret|].
  assert (forall csr, In csr pmu_csrs -> csr_num_known csr = true ->
    safe ((if sbi_hart_has_extension f SBI_HART_EXT_SMCNTRPMF then on_hart (csr_write_num csr (pmu_update_inhibit_flags flags MHPMEVENT_MINH)) else mret tt);;
      dev_call (option_map (fun g => g flags c) None);; mret c) (fun x => x = c)) as H.
  { intros csr Hin Hk. apply safe_seq; [apply safe_unit_if; intros _; by apply safe_csr_write_num|].
    apply safe_seq; [by apply safe_ret|by apply safe_ret]. }
  destruct Hc as [->| ->]; cbn [Z.eqb Pos.eqb]; apply H; try reflexivity; unfold pmu_csrs; cbn [app In]; auto 10.
Qed.

Lemma safe_update_event c flags idx data : safe (pmu_update_hw_mhpmevent (Dev := Dev) f xlate None c flags idx data) (fun r => r <= 0).
Proof using Hcsr.
  unfold pmu_update_hw_mhpmevent, dev_op. cbv zeta. destruct (Z.eqb_spec (xlate idx data) 0); cbn [orb]; [by apply safe_ret|].
  destruct (Z.ltb_spec c 3); cbn [orb]; [by apply safe_ret|]. destruct (Z.leb_spec SBI_PMU_HW_CTR_MAX c); [by apply safe_ret|].
  destruct (event_csr c ltac:(lia)) as [Hin Hk]. apply safe_seq; [by apply safe_ret|]. apply safe_seq; [by apply safe_ret|].
  apply safe_seq; [by apply safe_csr_write_num|by apply safe_ret].
Qed.

(** What the search for a hardware counter can return. *)
Definition hw_choice (idx c : Z) : Prop :=
  c < 0 \/ 3 <= c < nhw \/ (c = 0 /\ idx = SBI_PMU_HW_CPU_CYCLES) \/ (c = 2 /\ idx = SBI_PMU_HW_INSTRUCTIONS).

Lemma find_fixed_cases idx : pmu_ctr_find_fixed_hw idx = SBI_EINVAL \/
  (pmu_ctr_find_fixed_hw idx = 0 /\ idx = SBI_PMU_HW_CPU_CYCLES) \/ (pmu_ctr_find_fixed_hw idx = 2 /\ idx = SBI_PMU_HW_INSTRUCTIONS).
Proof.
  unfold pmu_ctr_find_fixed_hw. destruct (Z.eqb_spec idx SBI_PMU_HW_CPU_CYCLES); [auto|].
  destruct (Z.eqb_spec idx SBI_PMU_HW_INSTRUCTIONS); auto.
Qed.

Lemma safe_find_hw cbase cmask flags idx data : safe (pmu_ctr_find_hw (Dev := Dev) f xlate None p cbase cmask flags idx data) (hw_choice idx).
Proof using Hp Hcsr.
  pose proof pmu_bounds as [Hn _]. unfold pmu_ctr_find_hw. apply safe_if; intros _; [by apply safe_ret; left|]. cbv zeta.
  assert (0 <= pmu_ctr_find_fixed_hw idx ->
    safe (pmu_fixed_ctr_update_inhibit_bits (Dev := Dev) f None (pmu_ctr_find_fixed_hw idx) flags) (hw_choice idx)) as Hfix.
  { intros H0. destruct (find_fixed_cases idx) as [E|[[-> E]|[-> E]]]; [by rewrite E in H0|..];
      (eapply safe_weaken; [apply safe_fixed; auto|]; intros x ->; unfold hw_choice; auto). }
  apply safe_if; [intros [H0%Z.leb_le _]%andb_true_iff; by apply Hfix|]. intros _.
  eapply psafe_bind; [apply (safe_if _ _ _ (fun _ => True)); intros _; [apply safe_csr_read, inhibit_in|by apply safe_ret]|]. intros inh _.
  eapply psafe_bind; [apply safe_get_phs|]. intros s _. set (c := find_entries _ _ _ _ _ _ _ _ _).
  destruct (Z.eqb_spec c SBI_ENOTSUPP) as [_|Hne].
  - apply safe_if; [intros H0%Z.leb_le; by apply Hfix|]. intros _. apply safe_ret. by left.
  - assert (3 <= c < nhw) as Hc by (destruct (find_entries_in _ _ _ _ _ _ _ _ c (proj2 (proj2 Hp)) eq_refl); [done|lia]).
    eapply psafe_bind; [apply safe_update_event|]. intros r Hr. cbv beta in Hr. apply safe_ret. destruct (Z.eqb_spec r 0); [right; by left|left; lia].
Qed.

Lemma safe_cfg_finish type code flags data c : 0 <= c ->
  (type = SBI_PMU_EVENT_TYPE_HW -> hw_counter c) -> (type = SBI_PMU_EVENT_TYPE_FW -> nhw <= c < nhw + 16 /\ 0 <= code < SBI_PMU_FW_MAX) ->
  safe (cfg_finish (Dev := Dev) f None p type code flags data c) (fun _ => True).
Proof using Hp Hcsr.
  pose proof pmu_bounds as [Hn _]. intros Hc Hhw Hfw. unfold cfg_finish, dev_op.
  destruct (Z.eqb_spec type SBI_PMU_EVENT_TYPE_HW) as [E|_]; [|destruct (Z.eqb_spec type SBI_PMU_EVENT_TYPE_FW) as [E|_]; [|by apply safe_ret]].
  - apply safe_seq; [apply safe_unit_if; intros _; apply safe_write_hw; auto|].
    apply safe_seq; [apply safe_unit_if; intros _; apply safe_seq; [by apply safe_start_hw|by apply safe_ret]|by apply safe_ret].
  - destruct (Hfw E) as [Hr Hcode]. destruct (fw_code_good code Hcode) as [_ ->].
    destruct (fw_index_range c) as [Ei Hi]; [unfold SBI_PMU_FW_CTR_MAX; lia|unfold SBI_PMU_HW_CTR_MAX; lia|]. rewrite Ei.
    apply safe_seq; [apply safe_unit_if; intros _; by apply safe_data_set|]. apply safe_if; intros _; [|by apply safe_ret].
    eapply psafe_bind; [by apply (safe_ret 0 (fun x => x = 0))|]. intros ? ->. cbn [Z.eqb negb].
    eapply psafe_bind; [apply safe_get_phs|]. intros s _. apply safe_seq; [apply safe_set_started|by apply safe_ret].
Qed.

(** The fixed counters are bound to their own event again. *)
Lemma safe_set_fixed i v : (i = 0 /\ v = SBI_PMU_HW_CPU_CYCLES) \/ (i = 2 /\ v = SBI_PMU_HW_INSTRUCTIONS) ->
  safe (set_active i v) (fun _ => True).
Proof.
  intros Hiv w Hw. pose proof Hw as (H48 & Hd & H0 & H1 & H2 & Hb). unfold set_active. rewrite H48.
  assert ((0 <=? i) && (i <? Z.of_nat 48) = true) as -> by (by destruct Hiv as [[-> _]|[-> _]]).
  assert (<[Z.to_nat i := u32 v]> (active_events (phs w)) = active_events (phs w)) as ->
    by (apply list_insert_id; by destruct Hiv as [[-> ->]|[-> ->]]).
  eexists _, _. split; [done|]. split; [exact Hw|done].
Qed.

Lemma type_low x : get_cidx_type (u32 x) = get_cidx_type x /\ get_cidx_code (u32 x) = get_cidx_code x.
Proof.
  unfold get_cidx_type, get_cidx_code, SBI_PMU_EVENT_IDX_TYPE_MASK, SBI_PMU_EVENT_IDX_CODE_MASK, wrap.
  change (Z.shiftl 15 SBI_PMU_EVENT_IDX_TYPE_OFFSET) with 0xf0000.
  assert (forall m, 0 <= m < 2 ^ 32 -> Z.land (x `mod` 2 ^ 32) m = Z.land x m) as H; [|by rewrite !H by lia].
  intros m Hm. rewrite <- Z.land_ones, <- Z.land_assoc by lia. f_equal. rewrite Z.land_comm, Z.land_ones by lia. by apply Z.mod_small.
Qed.

Lemma safe_cfg_match cbase cmask flags idx data : has flags SBI_PMU_CFG_FLAG_SKIP_MATCH = false ->
  (get_cidx_type idx = SBI_PMU_EVENT_TYPE_FW -> cbase = 0) ->
  safe (sbi_pmu_ctr_cfg_match (Dev := Dev) f xlate None p cbase cmask flags idx data) (fun _ => True).
Proof using Hp Hcsr.
  pose proof pmu_bounds as [Hn _]. intros Hskip Hbase. unfold sbi_pmu_ctr_cfg_match. rewrite Hskip. apply safe_if; intros _; [by apply safe_ret|].
  cbv zeta. set (t := pmu_event_validate None idx data). destruct (Z.ltb_spec t 0); [by apply safe_ret|].
  destruct (validate_type idx data t eq_refl H) as [Et Hcode]. pose proof (code_nonneg idx) as Hc0. destruct (type_low idx) as [El1 El2].
  destruct (Z.eqb_spec t SBI_PMU_EVENT_TYPE_FW) as [Efw|Hnfw].
  - rewrite (Hbase ltac:(congruence)). specialize (Hcode Efw). destruct (fw_code_good (get_cidx_code idx) ltac:(lia)) as [_ Hplat]. rewrite Hplat.
    eapply (psafe_bind _ _ (fun c => c < 0 \/ nhw <= c < nhw + 16)).
    + eapply psafe_bind; [apply safe_find_fw; [lia|]; intros i Hi; by apply in_set_bits in Hi as [_ Hi]|]. intros c Hc.
      apply safe_seq; [by apply safe_ret|by apply safe_ret].
    + intros c Hc. destruct (Z.ltb_spec c 0); [by apply safe_ret|]. destruct Hc as [|Hc]; [lia|].
      apply safe_seq; [apply safe_set_active; [unfold SBI_PMU_FW_CTR_MAX; lia|unfold SBI_PMU_HW_CTR_MAX; lia|]|
        apply safe_cfg_finish; [lia|rewrite Efw; discriminate|intros _; lia]].
      right. destruct (Z.ltb_spec c nhw); [lia|]. unfold is_fw. rewrite El1, El2, <- Et, Efw. split; [done|lia].
  - eapply psafe_bind; [apply safe_find_hw|]. intros c Hc. destruct (Z.ltb_spec c 0); [by apply safe_ret|].
    apply safe_seq.
    + destruct Hc as [Hc|[Hc|Hc]]; [lia| |by apply safe_set_fixed].
      apply safe_set_active; [unfold SBI_PMU_FW_CTR_MAX; lia|unfold SBI_PMU_HW_CTR_MAX; lia|]. right.
      destruct (Z.ltb_spec c nhw); [|lia]. unfold is_fw. rewrite El1, <- Et. by apply Z.eqb_neq.
    + apply safe_cfg_finish; [lia| |done]. intros _. unfold hw_counter, SBI_PMU_HW_CTR_MAX.
      destruct Hc as [Hc|[Hc|[[-> _]|[-> _]]]]; lia.
Qed.

Lemma safe_fw_read c : safe (sbi_pmu_ctr_fw_read (Dev := Dev) None p c) (fun _ => True).
Proof using Hp.
  pose proof pmu_bounds as [Hn Ht]. unfold sbi_pmu_ctr_fw_read. eapply psafe_bind; [apply safe_ctr_validate|].
  intros [[type code]|] Hb; [|by apply safe_ret]. destruct Hb as [Hr Hb]. destruct (type =? SBI_PMU_EVENT_TYPE_FW); cbn [negb]; [|by apply safe_ret].
  destruct Hb as [Hge Hcode]. destruct (fw_code_good code Hcode) as [-> ->]. eapply psafe_bind; [apply safe_data_get|intros v _; by apply safe_ret].
  assert (fw_index p c = u32 c - nhw) as ->; [|lia]. unfold fw_index. rewrite <- (wrap_small 32 (u32 c - nhw)) by (unfold in_range; lia).
  unfold wrap. by rewrite Zminus_mod_idemp_l.
Qed.

Lemma incr_find_range active started id k c i : nhw <= c -> c + Z.of_nat k <= nhw + 16 ->
  incr_find p active started id k c = Some i -> 0 <= i < 16.
Proof using Hp.
  pose proof pmu_bounds as [Hn _]. revert c. induction k as [|k IH]; intros c Hc Hk E; cbn [incr_find] in E; [done|]. case_match.
  - simplify_eq. destruct (fw_index_range c) as [-> ?]; [unfold SBI_PMU_FW_CTR_MAX; lia|unfold SBI_PMU_HW_CTR_MAX; lia|done].
  - apply IH in E; [done|lia|lia].
Qed.

Lemma safe_incr_fw id : safe (sbi_pmu_ctr_incr_fw (Dev := Dev) p id) (fun _ => True).
Proof using Hp.
  pose proof pmu_bounds as [Hn Ht]. unfold sbi_pmu_ctr_incr_fw. eapply psafe_bind; [apply safe_get_phs|]. intros s _.
  apply safe_if; intros _; [by apply safe_ret|]. apply safe_if; intros _; [by apply safe_ret|].
  destruct (incr_find _ _ _ _ _ _) as [i|] eqn:E; [|by apply safe_ret]. apply incr_find_range in E; [|lia|lia].
  eapply psafe_bind; [by apply safe_data_get|]. intros v _. apply safe_seq; [by apply safe_data_set|by apply safe_ret].
Qed.
End Safe.

(** ** Sequences of calls *)

Section Calls.
Context {hw : Hw} {Dev : Type} (f : sbi_hart_features) (xlate : Z -> Z -> Z) (p : pmu).

Local Set Default Proof Using "Type".

Local Abbreviation M := (pM Dev).

(** The calls of the supervisor, and the events the firmware reports. *)
Inductive pmu_call :=
| CtrStart (cbase cmask flags ival : Z)
| CtrStop (cbase cmask flags : Z)
| CfgMatch (cbase cmask flags idx data : Z)
| FwRead (c : Z)
| IncrFw (id : Z).

(** [dev] is the device of the platform for counters, if it has one. *)
Definition run_call (dev : option (sbi_pmu_device Dev)) (c : pmu_call) : M unit :=
  match c with
  | CtrStart cbase cmask flags ival => sbi_pmu_ctr_start f dev p cbase cmask flags ival;; mret tt
  | CtrStop cbase cmask flags => sbi_pmu_ctr_stop f dev p cbase cmask flags;; mret tt
  | CfgMatch cbase cmask flags idx data => sbi_pmu_ctr_cfg_match f xlate dev p cbase cmask flags idx data;; mret tt
  | FwRead c => sbi_pmu_ctr_fw_read dev p c;; mret tt
  | IncrFw id => sbi_pmu_ctr_incr_fw p id;; mret tt
  end.

Fixpoint run_calls (dev : option (sbi_pmu_device Dev)) (cs : list pmu_call) : M unit :=
  match cs with [] => mret tt | c :: cs => run_call dev c;; run_calls dev cs end.

(** A configuration that searches for a counter, from base 0 if it is for an event
    of the firmware. *)
Definition call_ok (c : pmu_call) : Prop :=
  match c with
  | CfgMatch cbase cmask flags idx data =>
      has flags SBI_PMU_CFG_FLAG_SKIP_MATCH = false /\ (get_cidx_type idx = SBI_PMU_EVENT_TYPE_FW -> cbase = 0)
  | _ => True
  end.

Lemma safe_run_call c : pmu_ok p -> Forall full pmu_csrs -> call_ok c -> safe p (run_call None c) (fun _ => True).
Proof.
  intros Hp Hf Hc. destruct c; cbn [run_call call_ok] in *; (apply safe_seq; [|by apply safe_ret]).
  - by apply safe_ctr_start.
  - by apply safe_ctr_stop.
  - destruct Hc. by apply safe_cfg_match.
  - by apply safe_fw_read.
  - by apply safe_incr_fw.
Qed.

Lemma safe_run_calls cs : pmu_ok p -> Forall full pmu_csrs -> Forall call_ok cs -> safe p (run_calls None cs) (fun _ => True).
Proof.
  intros Hp Hf. induction 1 as [|c cs Hc _ IH]; cbn [run_calls]; [by apply safe_ret|]. apply safe_seq; [by apply safe_run_call|done].
Qed.

(** The state [sbi_pmu_init] leaves. *)
Lemma pmu_init_ok (d : Dev) h : pmu_ok p -> exists w, pmu_init_hart p (PW zero_phs d h) = Some (tt, w) /\ phs_ok p.(num_hw_ctrs) w.(phs).
Proof.
  intros (Hn & Ht & _). unfold SBI_PMU_HW_CTR_MAX, SBI_PMU_FW_CTR_MAX in *.
  eexists. split; [reflexivity|]. cbn [phs]. unfold phs_ok. cbn [active_events fw_counters_data].
  assert (forall i, (i < 48)%nat -> active_events (pmu_reset_event_map p zero_phs) !! i =
    Some (if (3 <=? i)%nat && (Z.of_nat i <? total_ctrs p) then SBI_PMU_EVENT_IDX_INVALID else 0)) as Hl.
  { intros i Hi. cbn [pmu_reset_event_map active_events zero_phs]. rewrite list_lookup_imap, lookup_replicate_2 by done. done. }
  assert (length (active_events (pmu_reset_event_map p zero_phs)) = 48%nat) as Hlen by (cbn [pmu_reset_event_map active_events]; by rewrite length_imap).
  set (a := active_events (pmu_reset_event_map p zero_phs)) in *.
  rewrite !length_insert. split_and!; [done|done|by rewrite !list_lookup_insert_ne, list_lookup_insert_eq by (rewrite ?length_insert; lia)|
    by rewrite list_lookup_insert_ne, list_lookup_insert_eq by (rewrite ?length_insert; lia)|
    by rewrite list_lookup_insert_eq by (rewrite !length_insert; lia)|].
  intros i v Hi Hlt. unfold SBI_PMU_FW_CTR_MAX in Hlt. destruct (decide (i = 2%nat)) as [->|H2]; [rewrite list_lookup_insert_eq in Hi by (rewrite !length_insert; lia)|
    rewrite list_lookup_insert_ne in Hi by done; destruct (decide (i = 1%nat)) as [->|H1]; [rewrite list_lookup_insert_eq in Hi by (rewrite length_insert; lia)|
    rewrite list_lookup_insert_ne in Hi by done; destruct (decide (i = 0%nat)) as [->|H0]; [rewrite list_lookup_insert_eq in Hi by lia|
    rewrite list_lookup_insert_ne in Hi by done]]].
  - simplify_eq. right. destruct (Z.ltb_spec (Z.of_nat 2) (num_hw_ctrs p)); [done|lia].
  - simplify_eq. by left.
  - simplify_eq. right. destruct (Z.ltb_spec (Z.of_nat 0) (num_hw_ctrs p)); [done|lia].
  - left. rewrite Hl in Hi by (apply lookup_lt_Some in Hi; lia). simplify_eq.
    assert ((3 <=? i)%nat && (Z.of_nat i <? total_ctrs p) = true) as ->; [|done].
    apply andb_true_iff. split; [apply Nat.leb_le|apply Z.ltb_lt]; lia.
Qed.

(** C24: on a platform without a PMU device of its own ([run_calls None]), from the
    state that initialisation leaves, every sequence of calls that start, stop, read
    and configure counters and of firmware events runs to its end: no unexpected
    trap, no panic, no access outside the arrays of the hart's state.  After it the
    cycle and instruction counters still have their events, counters of the hart are
    never bound to firmware events, and those of the firmware only to valid firmware
    events.  Conditions ([call_ok]): a configuration searches for a counter (it does
    not skip the matching), from base 0 if it is for a firmware event; the other
    arguments are arbitrary.  With a device the property fails: a platform event for
    which no counter is free is stored outside of the array
    ([platform_event_without_counter]). *)
Theorem pmu_calls_safe (d : Dev) h cs : pmu_ok p -> Forall full pmu_csrs -> Forall call_ok cs ->
  exists w, (pmu_init_hart p;; run_calls None cs) (PW zero_phs d h) = Some (tt, w) /\ phs_ok p.(num_hw_ctrs) w.(phs).
Proof.
  intros Hp Hf Hcs. destruct (pmu_init_ok d h Hp) as (w0 & E0 & H0).
  destruct (safe_run_calls cs Hp Hf Hcs w0 H0) as ([] & w & E & Hw & _). exists w. by rewrite (pM_step _ _ _ _ _ _ _ _ E0).
Qed.
End Calls.

(** ** Firmware counters count *)

Section Counting.
Context {hw : Hw} {Dev : Type} (f : sbi_hart_features) (xlate : Z -> Z -> Z) (p : pmu) (Hp : pmu_ok p).

Local Set Default Proof Using "Type".

Local Abbreviation M := (pM Dev).

(** Counter [c] counts event [id]. *)
Definition counts_event (s : sbi_pmu_hart_state) (id c : Z) : bool :=
  (get_cidx_code (default 0 (s.(active_events) !! Z.to_nat c)) =? id) && has s.(fw_counters_started) (fw_bit p c).

Fixpoint run_incr (ids : list Z) : M unit :=
  match ids with [] => mret tt | id :: ids => sbi_pmu_ctr_incr_fw p id;; run_incr ids end.

Definition count (e : Z) (ids : list Z) : nat := length (filter (fun id => id = e) ids).

Lemma incr_find_spec s id k c0 i : incr_find p s.(active_events) s.(fw_counters_started) id k c0 = Some i ->
  exists c, c0 <= c < c0 + Z.of_nat k /\ i = fw_index p c /\ counts_event s id c = true.
Proof.
  revert c0. induction k as [|k IH]; intros c0 E; cbn [incr_find] in E; [done|]. fold (counts_event s id c0) in E.
  destruct (counts_event s id c0) eqn:Ec; [simplify_eq; exists c0; split; [lia|done]|]. destruct (IH _ E) as (c & Hc & ?). exists c. split; [lia|done].
Qed.

Lemma incr_find_unique s id k c0 c : c0 <= c < c0 + Z.of_nat k -> counts_event s id c = true ->
  (forall c', c0 <= c' < c0 + Z.of_nat k -> counts_event s id c' = true -> c' = c) ->
  incr_find p s.(active_events) s.(fw_counters_started) id k c0 = Some (fw_index p c).
Proof.
  revert c0. induction k as [|k IH]; intros c0 Hc Hcnt Hu; [lia|]. cbn [incr_find]. fold (counts_event s id c0).
  destruct (counts_event s id c0) eqn:E0; [by rewrite (Hu c0 ltac:(lia) E0)|]. destruct (decide (c = c0)) as [->|]; [congruence|].
  apply IH; [lia|done|]. intros c' Hc'. apply Hu. lia.
Qed.

(** Counter [c] is the only one that counts [e], and its value is [k]. *)
Definition counting (s : sbi_pmu_hart_state) (c e k : Z) : Prop :=
  length s.(fw_counters_data) = 16%nat /\ s.(fw_counters_started) <> 0 /\ counts_event s e c = true /\
  (forall c', p.(num_hw_ctrs) <= c' < p.(total_ctrs) -> counts_event s e c' = true -> c' = c) /\
  s.(fw_counters_data) !! Z.to_nat (c - p.(num_hw_ctrs)) = Some (u64 k).

Lemma fw_index_of c : p.(num_hw_ctrs) <= c < p.(total_ctrs) -> fw_index p c = c - p.(num_hw_ctrs) /\ 0 <= c - p.(num_hw_ctrs) < 16.
Proof using Hp.
  pose proof (pmu_bounds p Hp) as [Hn Ht]. intros Hc. apply fw_index_range; unfold SBI_PMU_FW_CTR_MAX, SBI_PMU_HW_CTR_MAX; lia.
Qed.

Lemma counting_update s c e k i v : counting s c e k -> 0 <= i < 16 -> 0 <= c - p.(num_hw_ctrs) ->
  counting (Phs s.(active_events) s.(fw_counters_started) s.(sse_enabled) (<[Z.to_nat i := v]> s.(fw_counters_data))) c e
    (if decide (i = c - p.(num_hw_ctrs)) then v else k) \/ ~ in_range 64 v.
Proof.
  intros (Hlen & Hst & Hcnt & Hu & Hv) Hi Hc. destruct (decide (in_range 64 v)) as [Hr|]; [left|by right].
  unfold counting. cbn [fw_counters_data active_events fw_counters_started]. rewrite length_insert. split_and!; [done..|].
  destruct (decide (i = c - num_hw_ctrs p)) as [->|Hne].
  - rewrite list_lookup_insert_eq by lia. f_equal. symmetry. by apply wrap_small.
  - by rewrite list_lookup_insert_ne by lia.
Qed.

(** The firmware reports an event. *)
Lemma incr_counts c e k id (w : pw Dev) : p.(num_hw_ctrs) <= c < p.(total_ctrs) -> 0 <= e < SBI_PMU_FW_MAX -> counting w.(phs) c e k ->
  exists r w', sbi_pmu_ctr_incr_fw p id w = Some (r, w') /\ counting w'.(phs) c e (k + Z.b2z (bool_decide (id = e))) /\
    active_events w'.(phs) = active_events w.(phs).
Proof using Hp.
  pose proof (pmu_bounds p Hp) as [Hn Ht]. intros Hc He Hcing. pose proof Hcing as (Hlen & Hst & Hcnt & Hu & Hv). unfold sbi_pmu_ctr_incr_fw.
  unfold mbind at 1, pM_bind at 1, get_phs at 1. destruct (Z.eqb_spec (fw_counters_started (phs w)) 0); [done|].
  destruct (Z.leb_spec SBI_PMU_FW_MAX id).
  { eexists _, w. split; [reflexivity|]. rewrite bool_decide_eq_false_2 by lia. cbn [Z.b2z]. by rewrite Z.add_0_r. }
  assert (Z.of_nat (Z.to_nat (total_ctrs p - num_hw_ctrs p)) = total_ctrs p - num_hw_ctrs p) as Ek by lia.
  destruct (incr_find p _ _ id _ _) as [i|] eqn:Ei.
  - destruct (incr_find_spec _ _ _ _ _ Ei) as (x & Hx & Exi & Hxc). rewrite Ek in Hx. destruct (fw_index_of x ltac:(lia)) as [Ex Hxr]. rewrite Ex in Exi.
    destruct (fw_index_of c Hc) as [_ Hcr].
    destruct (lookup_lt_is_Some_2 (fw_counters_data (phs w)) (Z.to_nat i)) as [v Ev]; [lia|].
    unfold mbind, pM_bind, get_data, set_data. rewrite arr_get_in, Ev, Hlen by lia.
    assert ((0 <=? i) && (i <? Z.of_nat 16) = true) as -> by (apply andb_true_iff; split; [apply Z.leb_le|apply Z.ltb_lt]; lia).
    eexists _, _. split; [reflexivity|]. cbn [phs]. split; [|done].
    destruct (counting_update (phs w) c e k i (u64 (v + 1)) Hcing ltac:(lia) ltac:(lia)) as [Hcu|Hn']; [|destruct Hn'; apply Z.mod_pos_bound; lia].
    case_bool_decide as Hid; [subst id|].
    + rewrite (Hu x ltac:(lia) Hxc) in Exi. subst i. rewrite decide_True in Hcu by done. rewrite Hv in Ev. injection Ev as <-. 
      destruct Hcu as (? & ? & ? & ? & Hval). split_and!; [done..|]. rewrite Hval. f_equal. cbn [Z.b2z]. unfold wrap.
      rewrite Zplus_mod_idemp_l. by rewrite Z.mod_mod by lia.
    + rewrite decide_False in Hcu; [cbn [Z.b2z]; by rewrite Z.add_0_r|]. intros ->. assert (x = c) as -> by lia.
      unfold counts_event in Hxc, Hcnt. apply andb_true_iff in Hxc as [Hxc _]. apply andb_true_iff in Hcnt as [Hcnt _].
      apply Z.eqb_eq in Hxc, Hcnt. congruence.
  - eexists _, w. split; [reflexivity|]. split; [|done]. rewrite bool_decide_eq_false_2; [cbn [Z.b2z]; by rewrite Z.add_0_r|]. intros ->.
    rewrite (incr_find_unique (phs w) e _ _ c) in Ei; [done|lia|done|]. intros c' Hc'. apply Hu. lia.
Qed.

Lemma run_incr_counts c e ids : p.(num_hw_ctrs) <= c < p.(total_ctrs) -> 0 <= e < SBI_PMU_FW_MAX -> forall k (w : pw Dev),
  counting w.(phs) c e k -> exists w', run_incr ids w = Some (tt, w') /\ counting w'.(phs) c e (k + Z.of_nat (count e ids)) /\
    active_events w'.(phs) = active_events w.(phs).
Proof using Hp.
  intros Hc He. induction ids as [|id ids IH]; intros k w Hw; cbn [run_incr].
  - exists w. split; [done|]. cbn. by rewrite Z.add_0_r.
  - destruct (incr_counts c e k id w Hc He Hw) as (r & w1 & E1 & H1 & Ha1). destruct (IH _ w1 H1) as (w2 & E2 & H2 & Ha2).
    exists w2. rewrite (pM_step _ _ _ _ _ _ _ _ E1). split; [done|]. split; [|congruence].
    replace (k + Z.of_nat (count e (id :: ids))) with (k + Z.b2z (bool_decide (id = e)) + Z.of_nat (count e ids)); [done|].
    unfold count. rewrite filter_cons. case_bool_decide; [rewrite decide_True by done|rewrite decide_False by done]; cbn [length Z.b2z]; lia.
Qed.

Lemma fw_bit_of c : p.(num_hw_ctrs) <= c < p.(total_ctrs) -> fw_bit p c = 2 ^ (c - p.(num_hw_ctrs)).
Proof using Hp.
  intros Hc. destruct (fw_index_of c Hc) as [E Hr]. unfold fw_bit. rewrite E, Z.mod_small by lia. by rewrite Z.shiftl_1_l.
Qed.

Definition range64 : list Z := map Z.of_nat (seq 0 64).

Lemma in_range64 c : 0 <= c < 64 -> In c range64.
Proof. intros Hc. apply in_map_iff. exists (Z.to_nat c). split; [lia|]. apply in_seq. lia. Qed.

Lemma single_bits_all : forallb (fun c => bool_decide (set_bits (2 ^ c) 64 = [c]) && (sbi_fls (2 ^ c) =? c)) range64 = true.
Proof. vm_compute. reflexivity. Qed.

Lemma single_bit c : 0 <= c < 64 -> set_bits (2 ^ c) 64 = [c] /\ sbi_fls (2 ^ c) = c.
Proof.
  intros Hc. pose proof single_bits_all as H. rewrite forallb_forall in H. specialize (H c (in_range64 c Hc)).
  apply andb_true_iff in H as [H1%bool_decide_eq_true H2%Z.eqb_eq]. done.
Qed.

(** The event index of a firmware event. *)
Definition fw_event (e : Z) : Z := 0xf0000 + e.

Lemma fw_events_all : forallb (fun e => (get_cidx_type (fw_event e) =? 15) && (get_cidx_code (fw_event e) =? e) && (u32 (fw_event e) =? fw_event e)
    && (pmu_event_validate (Dev := Dev) None (fw_event e) 0 =? 15)) (map Z.of_nat (seq 0 22)) = true.
Proof. vm_compute. reflexivity. Qed.

Lemma fw_event_fields e : 0 <= e < SBI_PMU_FW_MAX -> get_cidx_type (fw_event e) = 15 /\ get_cidx_code (fw_event e) = e /\
  u32 (fw_event e) = fw_event e /\ pmu_event_validate (Dev := Dev) None (fw_event e) 0 = 15.
Proof.
  unfold SBI_PMU_FW_MAX. intros He. pose proof fw_events_all as H. rewrite forallb_forall in H.
  specialize (H e). rewrite !andb_true_iff, !Z.eqb_eq in H. destruct H as (((-> & ->) & ->) & ->); [|done].
  apply in_map_iff. exists (Z.to_nat e). split; [lia|]. apply in_seq. lia.
Qed.

(** The state of the hart after the configuration. *)
Definition configured (s : sbi_pmu_hart_state) (c e : Z) : sbi_pmu_hart_state :=
  Phs (<[Z.to_nat c := fw_event e]> s.(active_events)) (Z.lor s.(fw_counters_started) (2 ^ (c - p.(num_hw_ctrs)))) s.(sse_enabled)
      (<[Z.to_nat (c - p.(num_hw_ctrs)) := 0]> s.(fw_counters_data)).

Definition CLEAR_AND_START : Z := 6.

Lemma cfg_match_fw c e (w : pw Dev) : phs_ok p.(num_hw_ctrs) w.(phs) -> p.(num_hw_ctrs) <= c < p.(total_ctrs) -> 0 <= e < SBI_PMU_FW_MAX ->
  w.(phs).(active_events) !! Z.to_nat c = Some SBI_PMU_EVENT_IDX_INVALID ->
  sbi_pmu_ctr_cfg_match f xlate None p 0 (2 ^ c) CLEAR_AND_START (fw_event e) 0 w = Some (c, PW (configured w.(phs) c e) w.(dv) w.(hrt)).
Proof using Hp.
  pose proof (pmu_bounds p Hp) as [Hn Ht]. intros (H48 & H16 & _) Hc He Hinv. destruct (fw_event_fields e He) as (Et & Ec & Eu & Ev).
  destruct (single_bit c ltac:(lia)) as [Eb Ef]. destruct (fw_index_of c Hc) as [Ei Hi].
  destruct (fw_code_good e He) as [_ Hplat]. unfold sbi_pmu_ctr_cfg_match. rewrite Ef, Ev, Ec, Eb, Hplat, Z.add_0_l, (wrap_small 64 c) by (unfold in_range; lia).
  destruct (Z.leb_spec (total_ctrs p) c); [lia|]. cbn [Z.ltb Z.compare Z.eqb Pos.eqb]. change (has CLEAR_AND_START SBI_PMU_CFG_FLAG_SKIP_MATCH) with false.
  change (15 =? SBI_PMU_EVENT_TYPE_FW) with true. cbv iota zeta.
  assert (pmu_ctr_find_fw (Dev := Dev) None p 0 e 0 [c] w = Some (c, w)) as Efind.
  { cbn [pmu_ctr_find_fw]. rewrite u32_s32, Z.add_0_r, (wrap_small 32 c) by (unfold in_range; lia).
    destruct (Z.ltb_spec c (num_hw_ctrs p)); [lia|]. destruct (Z.leb_spec (total_ctrs p) c); [lia|]. cbn [orb].
    unfold mbind, pM_bind, get_active. rewrite arr_get_in, Hinv by lia. cbn [Z.eqb]. by rewrite Z.eqb_refl, Hplat. }
  assert ((c0 ← pmu_ctr_find_fw None p 0 e 0 [c]; mret tt;; mret c0) w = Some (c, w)) as Ef2 by (by rewrite (pM_step _ _ _ _ _ _ _ _ Efind)).
  rewrite (pM_step _ _ _ _ _ _ _ _ Ef2). destruct (Z.ltb_spec c 0); [lia|].
  set (s1 := Phs (<[Z.to_nat c := fw_event e]> (active_events (phs w))) (fw_counters_started (phs w)) (sse_enabled (phs w)) (fw_counters_data (phs w))).
  assert (set_active c (fw_event e) w = Some (tt, PW s1 (dv w) (hrt w))) as Es.
  { unfold set_active. rewrite H48, Eu. change (Z.of_nat 48) with 48.
    assert ((0 <=? c) && (c <? 48) = true) as -> by (apply andb_true_iff; split; [apply Z.leb_le|apply Z.ltb_lt]; lia). done. }
  rewrite (pM_step _ _ _ _ _ _ _ _ Es). unfold cfg_finish. rewrite Ei, Hplat, fw_bit_of by done.
  change (15 =? SBI_PMU_EVENT_TYPE_HW) with false. change (15 =? SBI_PMU_EVENT_TYPE_FW) with true.
  change (has CLEAR_AND_START SBI_PMU_CFG_FLAG_CLEAR_VALUE) with true. change (has CLEAR_AND_START SBI_PMU_CFG_FLAG_AUTO_START) with true. cbv iota.
  unfold mbind, pM_bind, set_data, get_phs, set_started, set_phs, mret, pM_ret. unfold s1. cbn [phs fw_counters_data]. rewrite H16. change (Z.of_nat 16) with 16.
  assert ((0 <=? c - num_hw_ctrs p) && (c - num_hw_ctrs p <? 16) = true) as -> by (apply andb_true_iff; split; [apply Z.leb_le|apply Z.ltb_lt]; lia).
  reflexivity.
Qed.

Lemma configured_counting s c e : phs_ok p.(num_hw_ctrs) s -> p.(num_hw_ctrs) <= c < p.(total_ctrs) -> 0 <= e < SBI_PMU_FW_MAX ->
  (forall c', p.(num_hw_ctrs) <= c' < p.(total_ctrs) -> counts_event s e c' = false) -> counting (configured s c e) c e 0.
Proof using Dev Hp.
  pose proof (pmu_bounds p Hp) as [Hn Ht]. intros (H48 & H16 & _) Hc He Hnone. destruct (fw_event_fields e He) as (_ & Ec & _ & _).
  destruct (fw_index_of c Hc) as [_ Hi]. unfold counting, configured. cbn [fw_counters_data fw_counters_started active_events].
  rewrite length_insert. split; [done|]. split; [|split; [|split]].
  - intros E. assert (Z.testbit (Z.lor (fw_counters_started s) (2 ^ (c - num_hw_ctrs p))) (c - num_hw_ctrs p) = true) as Hb
      by (rewrite Z.lor_spec, Z.pow2_bits_true, orb_true_r by lia; done). by rewrite E, Z.bits_0 in Hb.
  - unfold counts_event. cbn [active_events fw_counters_started]. rewrite list_lookup_insert_eq by lia. cbn [default from_option id].
    rewrite Ec, Z.eqb_refl, fw_bit_of, has_pow2, Z.lor_spec, Z.pow2_bits_true, orb_true_r by lia. done.
  - intros c' Hc' Hcnt. destruct (decide (c' = c)) as [|Hne]; [done|]. specialize (Hnone c' Hc'). unfold counts_event in *. cbn [active_events fw_counters_started] in Hcnt.
    destruct (fw_index_of c' Hc') as [_ Hi']. rewrite list_lookup_insert_ne in Hcnt by lia. rewrite fw_bit_of, has_pow2 in * by lia.
    rewrite Z.lor_spec, Z.pow2_bits_false, orb_false_r in Hcnt by lia. congruence.
  - by rewrite list_lookup_insert_eq by lia.
Qed.

(** Firmware counters count.  After a configuration that binds a free firmware
    counter to a firmware event, clears and starts it, the value read from it is
    the number of times the firmware reported that event since, modulo [2 ^ 64],
    whatever other events are reported, provided no other running counter is
    bound to the same event. *)
Theorem fw_counter_counts c e ids (w : pw Dev) : phs_ok p.(num_hw_ctrs) w.(phs) -> p.(num_hw_ctrs) <= c < p.(total_ctrs) ->
  0 <= e < SBI_PMU_FW_MAX -> w.(phs).(active_events) !! Z.to_nat c = Some SBI_PMU_EVENT_IDX_INVALID ->
  (forall c', p.(num_hw_ctrs) <= c' < p.(total_ctrs) -> counts_event w.(phs) e c' = false) ->
  exists w', (r ← sbi_pmu_ctr_cfg_match f xlate None p 0 (2 ^ c) CLEAR_AND_START (fw_event e) 0;
              run_incr ids;;
              v ← sbi_pmu_ctr_fw_read None p c;
              mret (r, v)) w = Some ((c, inr (u64 (Z.of_nat (count e ids)))), w').
Proof using Hp.
  pose proof (pmu_bounds p Hp) as [Hn Ht]. intros Hok Hc He Hinv Hnone.
  pose proof (configured_counting (phs w) c e Hok Hc He Hnone) as Hcing.
  rewrite (pM_step _ _ _ _ _ _ _ _ (cfg_match_fw c e w Hok Hc He Hinv)).
  destruct (run_incr_counts c e ids Hc He 0 (PW (configured (phs w) c e) (dv w) (hrt w)) Hcing) as (w1 & E1 & (Hlen & _ & _ & _ & Hv) & Ha).
  exists w1. rewrite (pM_step _ _ _ _ _ _ _ _ E1). destruct (fw_event_fields e He) as (Et & Ec & _ & _). destruct (fw_index_of c Hc) as [Ei Hi].
  assert (pmu_ctr_validate p c w1 = Some (Some (15, e), w1)) as Ev.
  { unfold pmu_ctr_validate. rewrite (wrap_small 32 c) by (unfold in_range; lia). destruct (Z.leb_spec (total_ctrs p) c); [lia|].
    unfold mbind, pM_bind, get_active. rewrite Ha. cbn [phs configured active_events].
    destruct Hok as (H48 & _). rewrite arr_get_in, list_lookup_insert_eq by (rewrite ?length_insert; lia). rewrite Et, Ec.
    destruct (Z.eqb_spec (fw_event e) SBI_PMU_EVENT_IDX_INVALID) as [E|_]; [|done]. unfold fw_event, SBI_PMU_FW_MAX, SBI_PMU_EVENT_IDX_INVALID in *. lia. }
  unfold sbi_pmu_ctr_fw_read, mbind, pM_bind. rewrite Ev. change (15 =? SBI_PMU_EVENT_TYPE_FW) with true. cbn [negb]. destruct (fw_code_good e He) as [-> ->].
  unfold get_data. rewrite Ei, arr_get_in, Hv by lia. by rewrite Z.add_0_l.
Qed.
End Counting.

(** ** The table of hardware events *)

(** What a platform adds to the table. *)
Inductive map_entry := AddRange (eidx_start eidx_end cmap : Z) | AddRaw (select_ mask cmap : Z).

Definition add_entry (f : sbi_hart_features) (p : pmu) (e : map_entry) : pmu :=
  match e with
  | AddRange s t cmap => (sbi_pmu_add_hw_event_counter_map f p s t cmap).2
  | AddRaw sel mask cmap => (sbi_pmu_add_raw_event_counter_map f p sel mask cmap).2
  end.

Definition covers (e : sbi_pmu_hw_event) (idx : Z) : Prop := e.(start_idx) <= idx <= e.(end_idx).

(** Entries for ranges below the raw events, and entries for raw events; no event
    below those is in two entries; counters are those of the hart. *)
Definition map_ok (avail : Z) (l : list sbi_pmu_hw_event) : Prop :=
  Forall (fun e => e.(start_idx) <= e.(end_idx) /\ (e.(end_idx) < SBI_PMU_EVENT_RAW_IDX \/ e.(start_idx) = SBI_PMU_EVENT_RAW_IDX) /\
                   exists cmap, 0 <= cmap /\ e.(counters) = Z.land cmap avail) l /\
  forall idx, idx < SBI_PMU_EVENT_RAW_IDX -> forall i j a b, l !! i = Some a -> l !! j = Some b -> covers a idx -> covers b idx -> i = j.

Lemma range_overlap_exact a b : a.(start_idx) <= a.(end_idx) -> b.(start_idx) <= b.(end_idx) ->
  pmu_event_range_overlap a b = false <-> forall idx, ~ (covers a idx /\ covers b idx).
Proof.
  intros Ha Hb. unfold pmu_event_range_overlap, covers. rewrite negb_false_iff, orb_true_iff, !andb_true_iff, !Z.ltb_lt. split; [lia|].
  intros H. destruct (decide (end_idx a < start_idx b)); [left; lia|]. destruct (decide (end_idx b < start_idx a)); [right; lia|].
  destruct (H (Z.max (start_idx a) (start_idx b))). lia.
Qed.

Lemma map_ok_snoc avail l e : map_ok avail l -> e.(start_idx) <= e.(end_idx) ->
  (e.(end_idx) < SBI_PMU_EVENT_RAW_IDX \/ e.(start_idx) = SBI_PMU_EVENT_RAW_IDX) ->
  (exists cmap, 0 <= cmap /\ e.(counters) = Z.land cmap avail) ->
  (e.(end_idx) < SBI_PMU_EVENT_RAW_IDX -> Forall (fun a => pmu_event_range_overlap a e = false) l) -> map_ok avail (l ++ [e]).
Proof.
  intros [Hl Hu] He Hk Hc Hov. split; [apply Forall_app_2; [exact Hl|]; apply Forall_singleton; done|].
  assert (forall idx i a, idx < SBI_PMU_EVENT_RAW_IDX -> l !! i = Some a -> covers a idx -> covers e idx -> False) as Hno.
  { intros idx i a Hidx Hi Ha Hei. destruct Hk as [Hk|Hk]; [|unfold covers in Hei; lia]. specialize (Hov Hk). rewrite Forall_forall in Hov, Hl.
    pose proof (list_elem_of_lookup_2 _ _ _ Hi) as Hin. destruct (Hl a Hin) as (Hse & _ & _).
    apply (proj1 (range_overlap_exact a e Hse He) (Hov a Hin) idx). done. }
  intros idx Hidx i j a b Hi Hj Ha Hb. apply lookup_app_Some in Hi as [Hi|[Hi1 Hi]], Hj as [Hj|[Hj1 Hj]].
  - by apply (Hu idx Hidx i j a b).
  - apply list_lookup_singleton_Some in Hj as [_ <-]. destruct (Hno idx i a); done.
  - apply list_lookup_singleton_Some in Hi as [_ <-]. destruct (Hno idx j b); done.
  - apply list_lookup_singleton_Some in Hi as [Hi _], Hj as [Hj _]. lia.
Qed.

Definition entry_ok (e : map_entry) : Prop := match e with AddRange _ _ cmap | AddRaw _ _ cmap => 0 <= cmap end.

Lemma add_entry_ok f p e : entry_ok e -> map_ok (Z.lor f.(mhpm_mask) 7) p.(hw_event_map) ->
  map_ok (Z.lor f.(mhpm_mask) 7) (add_entry f p e).(hw_event_map).
Proof.
  intros He Hok. destruct e as [s t cmap|sel mask cmap]; cbn [add_entry entry_ok] in *.
  - unfold sbi_pmu_add_hw_event_counter_map. destruct (Z.ltb_spec t s); cbn [orb]; [done|]. destruct (Z.leb_spec SBI_PMU_EVENT_RAW_IDX s); cbn [orb]; [done|].
    destruct (Z.leb_spec SBI_PMU_EVENT_RAW_IDX t); [done|]. unfold pmu_add_hw_event_map. case_match; [done|]. case_match; [done|]. cbv zeta.
    destruct (Z.eqb_spec s SBI_PMU_EVENT_RAW_IDX); [lia|]. destruct (Z.eqb_spec s SBI_PMU_EVENT_RAW_V2_IDX) as [->|]; [done|]. cbn [orb].
    destruct (existsb _ _) eqn:Eov; [done|]. cbn [snd hw_event_map]. apply map_ok_snoc; cbn [start_idx end_idx counters]; [done|lia|by left|by exists cmap|].
    intros _. apply Forall_forall. intros a Ha. destruct (pmu_event_range_overlap a _) eqn:E; [|done].
    enough (existsb (fun e => pmu_event_range_overlap e (HwEvent (Z.land cmap (Z.lor (mhpm_mask f) 7)) s t 0 0)) (hw_event_map p) = true) by congruence.
    apply existsb_exists. exists a. split; [by apply list_elem_of_In|done].
  - unfold sbi_pmu_add_raw_event_counter_map, pmu_add_hw_event_map. case_match; [done|]. case_match; [done|]. cbv zeta. case_match; [done|].
    cbn [snd hw_event_map]. apply map_ok_snoc; cbn [start_idx end_idx counters]; [done|done|by right|by exists cmap|done].
Qed.

Lemma land_in_range n a b : 0 <= n -> in_range n b -> in_range n (Z.land a b).
Proof.
  intros Hn Hb. assert (Z.land a b = Z.land a b `mod` 2 ^ n) as ->; [|by apply Z.mod_pos_bound, pow2_pos].
  rewrite <- Z.land_ones, <- Z.land_assoc, Z.land_ones, Z.mod_small by (done || lia). done.
Qed.

Lemma fls_counts mask : in_range 32 mask -> Z.land mask 7 = 0 ->
  let n := if sbi_fls mask =? 0 then 3 else sbi_fls mask + 1 in 3 <= n <= 32 /\ in_range n (Z.lor mask 7).
Proof.
  intros Hm H7 n. destruct (decide (mask = 0)) as [->|Hnz]; [subst n; change (sbi_fls 0) with 0; split; [cbn; lia|split; [discriminate|reflexivity]]|].
  destruct (msb_exists mask) as [k Hk]; [eapply in_range_mono; [done|lia]|done|]. pose proof (sbi_fls_msb mask k Hk) as Ef.
  destruct Hk as (Hk0 & Hkb & Hkh). unfold in_range in Hm.
  assert (3 <= k) as H3.
  { destruct (decide (3 <= k)) as [|Hlt]; [done|]. assert (Z.testbit (Z.land mask 7) k = true) as Hb; [|by rewrite H7, Z.bits_0 in Hb].
    rewrite Z.land_spec, Hkb. assert (k = 0 \/ k = 1 \/ k = 2) as [->|[->| ->]] by lia; done. }
  assert (k < 32) as H32.
  { destruct (decide (k < 32)) as [|Hge]; [done|]. rewrite (testbit_above 32) in Hkb by (done || lia). done. }
  subst n. rewrite Ef. destruct (Z.eqb_spec k 0); [lia|]. split; [lia|].
  assert (forall i, k + 1 <= i -> Z.testbit (Z.lor mask 7) i = false) as Hhigh.
  { intros i Hi. rewrite Z.lor_spec. change 7 with (Z.ones 3). rewrite Z.ones_spec_high, orb_false_r by lia.
    destruct (decide (i < 64)); [apply Hkh; lia|]. apply (testbit_above 32); [exact Hm|lia]. }
  assert (Z.lor mask 7 = Z.lor mask 7 `mod` 2 ^ (k + 1)) as ->; [|apply Z.mod_pos_bound, pow2_pos; lia].
  apply Z.bits_inj'. intros i Hi. destruct (decide (i < k + 1)); [by rewrite Z.mod_pow2_bits_low by lia|].
  by rewrite Z.mod_pow2_bits_high, Hhigh by lia.
Qed.

(** Whatever a platform adds to the table of hardware events, in any order and
    also when some of it is refused, the PMU is set up well: every event below the
    raw ones is in at most one entry, which is what lets the searches stop at the
    first that matches; the call that describes events answers yes exactly when
    an entry that was accepted covers the event; and the entries only name
    counters that the hart has, which is what the other calls rely on. *)
Theorem pmu_setup_ok f es p : Forall entry_ok es -> in_range 32 f.(mhpm_mask) -> Z.land f.(mhpm_mask) 7 = 0 ->
  pmu_init_counts f (foldl (add_entry f) (Pmu [] 0 0) es) = Some p ->
  pmu_ok p /\
  (forall idx i j a b, idx < SBI_PMU_EVENT_RAW_IDX -> p.(hw_event_map) !! i = Some a -> p.(hw_event_map) !! j = Some b ->
     covers a idx -> covers b idx -> i = j) /\
  (forall idx data, idx < SBI_PMU_EVENT_RAW_IDX -> event_info_found p idx data = true <-> exists e, In e p.(hw_event_map) /\ covers e idx).
Proof.
  intros Hes Hm H7 E. assert (map_ok (Z.lor f.(mhpm_mask) 7) (foldl (add_entry f) (Pmu [] 0 0) es).(hw_event_map)) as [Hall Hu].
  { assert (map_ok (Z.lor f.(mhpm_mask) 7) (Pmu [] 0 0).(hw_event_map)) as H0 by (split; [constructor|done]). clear E. revert H0 Hes. generalize (Pmu [] 0 0).
    induction es as [|e es IH]; intros p0 H0 Hes; [done|]. inversion Hes; subst. cbn [foldl]. apply IH; [by apply add_entry_ok|done]. }
  unfold pmu_init_counts in E. destruct (fls_counts _ Hm H7) as [Hn Hr]. set (n := if _ =? 0 then 3 else _) in *.
  destruct (SBI_PMU_HW_CTR_MAX <? n); [done|]. injection E as <-. cbn [hw_event_map num_hw_ctrs total_ctrs]. split_and!.
  - split; [exact Hn|]. split; [done|]. cbn [hw_event_map num_hw_ctrs]. eapply Forall_impl; [exact Hall|].
    intros e (_ & _ & cmap & Hc & Ec). rewrite Ec. apply land_in_range; [lia|done].
  - intros idx i j a b Hidx. by apply Hu.
  - intros idx data Hidx. unfold event_info_found, covers. cbn [hw_event_map]. rewrite existsb_exists.
    destruct (Z.eqb_spec idx SBI_PMU_EVENT_RAW_IDX); [lia|]. destruct (Z.eqb_spec idx SBI_PMU_EVENT_RAW_V2_IDX) as [->|]; [done|]. cbn [orb].
    split; intros (e & Hin & He); exists e; (split; [done|]); rewrite andb_true_iff, !Z.leb_le in *; lia.
Qed.

(** ** A hart with two programmable counters *)

Definition demo_features : sbi_hart_features := Features true SBI_HART_PRIV_VER_1_12 [0] 0 0 0 0x18 64.
Definition demo_entries : list map_entry := [AddRange 1 2 0x5; AddRange 3 4 0x18; AddRange 4 6 0x18; AddRaw 0 1 0x18].
Definition demo_pmu : pmu :=
  Pmu [HwEvent 0x5 1 2 0 0; HwEvent 0x18 3 4 0 0; HwEvent 0x18 SBI_PMU_EVENT_RAW_IDX SBI_PMU_EVENT_RAW_V2_IDX 0 1] 5 21.

Lemma pmu_setup_ok_witness : pmu_ok demo_pmu /\ length demo_pmu.(hw_event_map) = 3%nat.
Proof.
  split; [|reflexivity]. apply (pmu_setup_ok demo_features demo_entries demo_pmu).
  - repeat (apply Forall_cons; split; [discriminate|]). apply Forall_nil. exact I.
  - split; [discriminate|reflexivity].
  - reflexivity.
  - vm_compute. reflexivity.
Defined.

Lemma demo_pmu_ok : pmu_ok demo_pmu.
Proof.
  split; [split; discriminate|]. split; [reflexivity|].
  repeat (apply Forall_cons; split; [split; [discriminate|reflexivity]|]). by apply Forall_nil.
Qed.

Lemma demo_csrs_full : Forall (@full hw_full) pmu_csrs.
Proof.
  repeat (apply Forall_cons; split; [split; [split; reflexivity|split; [discriminate|reflexivity]]|]). by apply Forall_nil.
Qed.

Lemma pmu_calls_safe_witness : exists w, @phs_ok 5 (phs w) /\
  (pmu_init_hart demo_pmu;; @run_calls hw_full unit demo_features (fun idx _ => idx) demo_pmu None
     [CfgMatch 0 0x18 4 3 0; CfgMatch 0 (2 ^ 20 - 1) 6 (fw_event 5) 0; IncrFw 5; CtrStart 3 3 1 100; FwRead 5; CtrStop 0 (2 ^ 20 - 1) 1])
    (PW zero_phs tt (Hart [] [] {[ CSR_MCOUNTINHIBIT := 0xfffffff8 ]})) = Some (tt, w).
Proof.
  destruct (@pmu_calls_safe hw_full unit demo_features (fun idx _ => idx) demo_pmu tt (Hart [] [] {[ CSR_MCOUNTINHIBIT := 0xfffffff8 ]})
    [CfgMatch 0 0x18 4 3 0; CfgMatch 0 (2 ^ 20 - 1) 6 (fw_event 5) 0; IncrFw 5; CtrStart 3 3 1 100; FwRead 5; CtrStop 0 (2 ^ 20 - 1) 1])
    as (w & E & Hw).
  - exact demo_pmu_ok.
  - exact demo_csrs_full.
  - repeat (apply Forall_cons; split; [first [exact I|split; [reflexivity|intros _; reflexivity]]|]). apply Forall_nil. exact I.
  - exists w. split; [exact Hw|exact E].
Defined.

(** The state after initialisation. *)
Definition demo_phs : sbi_pmu_hart_state :=
  Phs ([1; SBI_PMU_EVENT_IDX_INVALID; 2] ++ replicate 18 SBI_PMU_EVENT_IDX_INVALID ++ replicate 27 0) 0 false (replicate 16 0).
Definition demo_world : pw unit := PW demo_phs tt (Hart [] [] {[ CSR_MCOUNTINHIBIT := 0xfffffff8 ]}).

Lemma demo_phs_init : pmu_init_hart demo_pmu (PW zero_phs tt (Hart [] [] {[ CSR_MCOUNTINHIBIT := 0xfffffff8 ]})) = Some (tt, demo_world).
Proof. vm_compute. reflexivity. Qed.

Lemma demo_phs_ok : phs_ok 5 demo_phs.
Proof.
  destruct (pmu_init_ok demo_pmu tt (Hart [] [] {[ CSR_MCOUNTINHIBIT := 0xfffffff8 ]}) demo_pmu_ok) as (w & E & Hw).
  rewrite demo_phs_init in E. injection E as <-. exact Hw.
Qed.

Lemma fw_counter_counts_witness : exists w',
  (r ← @sbi_pmu_ctr_cfg_match hw_full unit demo_features (fun idx _ => idx) None demo_pmu 0 (2 ^ 7) CLEAR_AND_START (fw_event 5) 0;
   run_incr demo_pmu [5; 4; 5; 0; 5];;
   v ← sbi_pmu_ctr_fw_read None demo_pmu 7;
   mret (r, v)) demo_world = Some ((7, inr 3), w').
Proof.
  destruct (@fw_counter_counts hw_full unit demo_features (fun idx _ => idx) demo_pmu demo_pmu_ok 7 5 [5; 4; 5; 0; 5] demo_world) as (w' & E).
  - exact demo_phs_ok.
  - split; [discriminate|reflexivity].
  - split; [discriminate|reflexivity].
  - reflexivity.
  - intros c' _. unfold counts_event. apply andb_false_intro2. reflexivity.
  - exists w'. exact E.
Defined.

(** ** Where the preconditions fail *)

(** A device of the platform that has events and a counter for none of them. *)
Definition demo_pmu_dev : sbi_pmu_device unit :=
  PmuDev (Some (fun _ => SBI_PMU_EVENT_TYPE_FW)) (Some (fun _ _ => false)) None None None None None None None None None.

(** The data of a platform event is stored before the counter is tested: when none
    was found, outside of the array. *)
Example platform_event_without_counter :
  @run_call hw_full unit demo_features (fun idx _ => idx) demo_pmu (Some demo_pmu_dev) (CfgMatch 0 (2 ^ 20 - 1) 0 (fw_event SBI_PMU_FW_PLATFORM) 7)
    (PW demo_phs tt (Hart [] [] ∅)) = None.
Proof. vm_compute. reflexivity. Qed.

(** A search from base 1 for a firmware counter returns the position in the mask:
    a counter of the hart is bound to the firmware event. *)
Example cfg_match_fw_base : exists w,
  @sbi_pmu_ctr_cfg_match hw_full unit demo_features (fun idx _ => idx) None demo_pmu 1 (2 ^ 4) 0 (fw_event 5) 0 demo_world = Some (4, w) /\
  w.(phs).(active_events) !! 4%nat = Some (fw_event 5).
Proof. eexists. split; [vm_compute; reflexivity|reflexivity]. Qed.

(** Clearing its value then writes outside the array of firmware counters. *)
Example cfg_match_fw_base_clear :
  @sbi_pmu_ctr_cfg_match hw_full unit demo_features (fun idx _ => idx) None demo_pmu 1 (2 ^ 4) 2 (fw_event 5) 0 demo_world = None.
Proof. vm_compute. reflexivity. Qed.

(** Without a search the base can wrap around: the entry before the array is read. *)
Example cfg_skip_match_wraps :
  @sbi_pmu_ctr_cfg_match hw_full unit demo_features (fun idx _ => idx) None demo_pmu (2 ^ 64 - 5) (2 ^ 10 + 2 ^ 2) 1 1 0 demo_world = None.
Proof. vm_compute. reflexivity. Qed.

(** With an empty mask entry 63 of an array of 48 is read. *)
Example cfg_skip_match_empty :
  @sbi_pmu_ctr_cfg_match hw_full unit demo_features (fun idx _ => idx) None demo_pmu 0 0 1 1 0 demo_world = None.
Proof. vm_compute. reflexivity. Qed.

(** A firmware counter that is in use, named in a configuration for a hardware
    event that skips the search and clears the value: the number of the counter is
    not that of a register, and the firmware panics. *)
Example cfg_skip_match_panics : exists w,
  @sbi_pmu_ctr_cfg_match hw_full unit demo_features (fun idx _ => idx) None (Pmu [] 32 48) 0 (2 ^ 40) 0 (fw_event 5) 0
    (PW (Phs (replicate 48 SBI_PMU_EVENT_IDX_INVALID) 0 false (replicate 16 0)) tt (Hart [] [] ∅)) = Some (40, w) /\
  @sbi_pmu_ctr_cfg_match hw_full unit demo_features (fun idx _ => idx) None (Pmu [] 32 48) 0 (2 ^ 40) 3 1 0 w = None.
Proof. eexists. split; vm_compute; reflexivity. Qed.

(** Two counters of the same event: only the first is incremented. *)
Example incr_fw_first_only : exists w,
  (sbi_pmu_ctr_cfg_match (hw := hw_full) demo_features (fun idx _ => idx) None demo_pmu 0 (2 ^ 5) 6 (fw_event 5) 0;;
   sbi_pmu_ctr_cfg_match (hw := hw_full) demo_features (fun idx _ => idx) None demo_pmu 0 (2 ^ 6) 6 (fw_event 5) 0;;
   run_incr demo_pmu [5; 5; 5];;
   a ← sbi_pmu_ctr_fw_read None demo_pmu 5; b ← sbi_pmu_ctr_fw_read None demo_pmu 6; mret (a, b)) demo_world = Some ((inr 3, inr 0), w).
Proof. eexists. vm_compute. reflexivity. Qed.

(** Clearing and starting are left out for cache and raw events. *)
Example cfg_match_raw_not_started : exists w,
  @sbi_pmu_ctr_cfg_match hw_full unit demo_features (fun idx _ => 9) None demo_pmu 0 (2 ^ 4) 4 SBI_PMU_EVENT_RAW_IDX 0 demo_world = Some (4, w) /\
  Z.testbit (csr_val w.(hrt) CSR_MCOUNTINHIBIT) 4 = true.
Proof. eexists. split; [vm_compute; reflexivity|vm_compute; reflexivity]. Qed.

(** A read that fails returns a value that was never set. *)
Example fw_read_unset (garbage : Z) : exists w,
  @sbi_ecall_pmu_handler hw_full unit demo_features (fun idx _ => idx) None demo_pmu (fun _ _ => true) SBI_EXT_PMU_COUNTER_FW_READ 99 0 0 0 0 0 garbage ∅
    demo_world = Some ((SBI_EINVAL, garbage, ∅), w).
Proof. eexists. reflexivity. Qed.

(** *** Shared memory *)

Lemma event_info_loop_touches {Dev} (d : option (sbi_pmu_device Dev)) (p : pmu) n a m i : (i < n)%nat ->
  is_Some (event_info_loop d p n a m !! u64 (a + 16 * Z.of_nat i)).
Proof.
  assert (forall n a m b, is_Some (m !! b) -> is_Some (event_info_loop d p n a m !! b)) as Hkeep.
  { clear. induction n as [|n IH]; intros a m b Hb; [done|]. cbn [event_info_loop]. apply IH. destruct (decide (u64 a = b)) as [->|].
    - by rewrite lookup_insert_eq.
    - by rewrite lookup_insert_ne. }
  revert a m i. induction n as [|n IH]; intros a m i Hi; [lia|]. cbn [event_info_loop]. destruct i as [|i].
  - apply Hkeep. change (Z.of_nat 0) with 0. rewrite Z.mul_0_r, Z.add_0_r. by rewrite lookup_insert_eq.
  - replace (a + 16 * Z.of_nat (S i)) with (a + 16 + 16 * Z.of_nat i) by lia. apply IH. lia.
Qed.

Lemma event_get_info_runs check lo num : num <> 0 -> has lo 0xF = false -> check lo (u64 (num * 16)) = true ->
  @sbi_pmu_event_get_info hw_full unit demo_features None demo_pmu check lo 0 num 0 ∅ demo_world =
  Some ((0, event_info_loop (Dev := unit) None demo_pmu (Z.to_nat num) lo ∅), demo_world).
Proof.
  intros H0 Hlo Hc. unfold sbi_pmu_event_get_info. apply Z.eqb_neq in H0. rewrite H0, Hlo, Hc. reflexivity.
Qed.

(** The size of the shared memory wraps around: the supervisor is checked for
    access to 16 bytes, and memory beyond them is written. *)
Definition only_one (lo size : Z) : bool := (lo =? 0x80000000) && (size <=? 16).

Example event_get_info_overflow : exists m w,
  @sbi_pmu_event_get_info hw_full unit demo_features None demo_pmu only_one 0x80000000 0 (2 ^ 60 + 1) 0 ∅ demo_world = Some ((0, m), w) /\
  is_Some (m !! (0x80000000 + 16 * 1000)).
Proof.
  eexists _, _. split; [apply event_get_info_runs; [discriminate|reflexivity|reflexivity]|].
  change (0x80000000 + 16 * 1000) with (u64 (0x80000000 + 16 * Z.of_nat 1000)). apply event_info_loop_touches. lia.
Qed.
