(* ===== verification/Console.v ===== *)
(** * Console (lib/sbi/sbi_console.c)

    Characters are their codes, strings are lists without the final zero.  A
    console device is hardware behind a driver: [console_puts] accepts some number
    of the characters it is given, [console_putc] one; [sent] is what has reached
    it.  Before there is a device characters go to a FIFO (Fifo.v).  The arguments
    of the formatted output are words and strings.

    [print] is written over an operation [printc] that takes one character, as the
    source passes [out] and [out_len] through: [printc] of the source is
    [printc_mem] when the output is memory and [printc_tbuf] when it is the
    console, where it fills the temporary buffer and flushes it when it is full.

    The calls are modelled one at a time: [console_out_lock], which keeps those of
    two harts apart, is left out, and so are the null pointers for which
    [sbi_sprintf] and [sbi_snprintf] panic. *)

From S2P Require Import Prelude SbiTypes Locks Fifo.

Local Open Scope Z_scope.

Definition CONSOLE_TBUF_MAX : Z := 256.
Definition CONSOLE_EARLY_BUFFER_SIZE : Z := 256.
Definition PRINT_BUF_LEN : Z := 64.

(** ** The console *)

Record sbi_console_device := ConsoleDev { console_putc : bool; console_puts : option (list Z -> Z) }.

Record console := Console { console_dev : option sbi_console_device; sent : list Z; console_early_fifo : sbi_fifo; input : list Z }.

Definition sbi_isprintable (c : Z) : bool :=
  ((31 <? c) && (c <? 127)) || (c =? 12) || (c =? 13) || (c =? 10) || (c =? 9).

(** [input] holds the characters that wait in the device (none when it has no
    [console_getc]); [-1] is none. *)
Definition sbi_getc (con : console) : Z * console :=
  match con.(console_dev), con.(input) with
  | Some _, ch :: rest => (ch, Console con.(console_dev) con.(sent) con.(console_early_fifo) rest)
  | _, _ => (-1, con)
  end.

Definition send (con : console) (str : list Z) : console :=
  Console con.(console_dev) (con.(sent) ++ str) con.(console_early_fifo) con.(input).

(** A device without [console_puts] gets a carriage return before a line feed. *)
Definition crlf (str : list Z) : list Z := flat_map (fun c => if c =? 10 then [13; 10] else [c]) str.

Fixpoint early_put (f : sbi_fifo) (str : list Z) : option sbi_fifo :=
  match str with
  | [] => Some f
  | ch :: str =>
      match sbi_fifo_enqueue (Some f) (Some [ch]) true with
      | Some (_, Some f) => early_put f str
      | _ => None
      end
  end.

Definition nputs (con : console) (str : list Z) : option (Z * console) :=
  let len := Z.of_nat (length str) in
  match con.(console_dev) with
  | Some dev =>
      match dev.(console_puts) with
      | Some puts => let n := puts str in Some (n, send con (take (Z.to_nat n) str))
      | None => Some (len, if dev.(console_putc) then send con (crlf str) else con)
      end
  | None =>
      match early_put con.(console_early_fifo) str with
      | Some f => Some (len, Console None con.(sent) f con.(input))
      | None => None
      end
  end.

(** [None] after [fuel] calls that have not taken everything. *)
Fixpoint nputs_loop (fuel : nat) (con : console) (str : list Z) : option console :=
  match str with
  | [] => Some con
  | _ =>
      match fuel with
      | O => None
      | S fuel => match nputs con str with None => None | Some (n, con) => nputs_loop fuel con (drop (Z.to_nat n) str) end
      end
  end.

Definition nputs_all (con : console) (str : list Z) : option console := nputs_loop (length str) con str.

Definition sbi_putc (con : console) (ch : Z) : option console := nputs_all con [ch].
Definition sbi_puts (con : console) (str : list Z) : option console := nputs_all con str.
Definition sbi_nputs (con : console) (str : list Z) : option (Z * console) := nputs con str.

(** The characters read and the console; the loop ends by the width. *)
Fixpoint gets_loop (fuel : nat) (con : console) (maxwidth endchar : Z) : list Z * console :=
  match fuel with
  | O => ([], con)
  | S fuel =>
      let '(ch, con) := sbi_getc con in
      if negb (ch =? endchar) && (0 <=? ch) && (1 <? maxwidth) then
        let '(s, con) := gets_loop fuel con (maxwidth - 1) endchar in (ch :: s, con)
      else ([], con)
  end.

Definition sbi_gets (con : console) (maxwidth endchar : Z) : list Z * console :=
  let '(s, con) := gets_loop (S (Z.to_nat maxwidth)) con maxwidth endchar in (s ++ [0], con).

Fixpoint sbi_ngets (con : console) (len : nat) : list Z * console :=
  match len with
  | O => ([], con)
  | S len =>
      let '(ch, con) := sbi_getc con in
      if ch <? 0 then ([], con) else let '(s, con) := sbi_ngets con len in (ch :: s, con)
  end.

(** The loop that empties the FIFO of early output. *)
Fixpoint flush_early (fuel : nat) (con : console) : option console :=
  match fuel with
  | O => None
  | S fuel =>
      match sbi_fifo_dequeue (Some con.(console_early_fifo)) true with
      | Some (0, Some [ch], Some f) =>
          match sbi_putc (Console con.(console_dev) con.(sent) f con.(input)) ch with Some con => flush_early fuel con | None => None end
      | Some (_, _, Some f) => Some (Console con.(console_dev) con.(sent) f con.(input))
      | _ => None
      end
  end.

Definition sbi_console_set_device (con : console) (dev : option sbi_console_device) : option console :=
  match dev with
  | None => Some con
  | Some d =>
      let con' := Console (Some d) con.(sent) con.(console_early_fifo) con.(input) in
      match con.(console_dev) with
      | None => flush_early (S (Z.to_nat CONSOLE_EARLY_BUFFER_SIZE)) con'
      | Some _ => Some con'
      end
  end.

(** ** Formatted output *)

Record pflags := Flags { pad_right : bool; pad_zero : bool; pad_alternate : bool; pad_sign : bool }.
Definition no_flags : pflags := Flags false false false false.

(** An argument: the word passed, or a string ([None] is a null pointer). *)
Inductive varg := VWord (w : Z) | VStr (s : option (list Z)).

Section Print.
Context {S : Type} (printc : S -> Z -> option S).

Fixpoint emit (out : S) (str : list Z) : option S :=
  match str with [] => Some out | c :: str => match printc out c with Some out => emit out str | None => None end end.

(** The number of characters and the output. *)
Definition prints (out : S) (string : list Z) (width : Z) (flags : pflags) : option (Z * S) :=
  let width := s32 (width - Z.of_nat (length string)) in
  let before := if flags.(pad_right) then 0%nat else Z.to_nat width in
  let after := if flags.(pad_right) then Z.to_nat width else 0%nat in
  match emit out (replicate before (if flags.(pad_zero) then 48 else 32)) with
  | None => None
  | Some out =>
      match emit out string with
      | None => None
      | Some out =>
          match emit out (replicate after 32) with
          | None => None
          | Some out => Some (Z.of_nat before + Z.of_nat (length string) + Z.of_nat after, out)
          end
      end
  end.

(** The digits, written backwards below [s] in [print_buf]; [None] when they do
    not fit. *)
Fixpoint digits_loop (fuel : nat) (letbase b u : Z) (s : list Z) : option (list Z) :=
  if u =? 0 then Some s
  else
    match fuel with
    | O => None
    | Datatypes.S fuel =>
        let t := u `mod` b in
        let t := if 10 <=? t then t + letbase - 48 - 10 else t in
        digits_loop fuel letbase b (u / b) (t + 48 :: s)
    end.

Definition is_type (type : Z) (cs : list Z) : bool := existsb (Z.eqb type) cs.

(** 100 and 105 are d and i; 111 o; 120, 88, 112 and 80 are x, X, p and P. *)
Definition printi_base (type : Z) : Z := if type =? 111 then 8 else if is_type type [120; 88; 112; 80] then 16 else 10.
Definition printi_letbase (type : Z) : Z :=
  if negb (type =? 111) && is_type type [120; 88; 112; 80] then Z.lor (Z.land 97 (Z.lnot 0x20)) (Z.land type 0x20) else 97.

Definition printi (out : S) (i width : Z) (flags : pflags) (type : Z) : option (Z * S) :=
  let b := printi_base type in
  let letbase := printi_letbase type in
  let signed_ := is_type type [105; 100] in
  let sign := if signed_ then (if i <? 0 then [45] else if flags.(pad_sign) && (0 <? i) then [43] else []) else [] in
  let u := if signed_ && (i <? 0) then u64 (- i) else u64 i in
  match (if u =? 0 then Some [48] else digits_loop (Z.to_nat PRINT_BUF_LEN - 1) letbase b u []) with
  | None => None
  | Some s =>
      let alternate := negb (i =? 0) && flags.(pad_alternate) in
      let zero := if alternate && ((b =? 16) || (b =? 8)) then [48] else [] in
      let x := if alternate && (b =? 16) then [120 - 97 + letbase] else [] in
      if flags.(pad_zero) then
        let prefix := sign ++ zero ++ x in
        match emit out prefix with
        | None => None
        | Some out =>
            let n := Z.of_nat (length prefix) in
            match prints out s (width - n) flags with None => None | Some (pc, out) => Some (n + pc, out) end
        end
      else if PRINT_BUF_LEN - 1 <? Z.of_nat (length (sign ++ zero ++ x ++ s)) then None
      else prints out (sign ++ zero ++ x ++ s) width flags
  end.

(** [while (!flags_done)] *)
Fixpoint get_flags (flags : pflags) (format : list Z) : pflags * list Z :=
  match format with
  | c :: rest =>
      if c =? 45 then get_flags (Flags true flags.(pad_zero) flags.(pad_alternate) flags.(pad_sign)) rest
      else if c =? 43 then get_flags (Flags flags.(pad_right) flags.(pad_zero) flags.(pad_alternate) true) rest
      else if c =? 35 then get_flags (Flags flags.(pad_right) flags.(pad_zero) true flags.(pad_sign)) rest
      else if c =? 48 then get_flags (Flags flags.(pad_right) true flags.(pad_alternate) flags.(pad_sign)) rest
      else if (c =? 32) || (c =? 39) then get_flags flags rest
      else (flags, format)
  | [] => (flags, [])
  end.

Fixpoint get_width (width : Z) (format : list Z) : Z * list Z :=
  match format with
  | c :: rest => if (48 <=? c) && (c <=? 57) then get_width (s32 (s32 (width * 10) + (c - 48))) rest else (width, format)
  | [] => (width, [])
  end.

Definition next_word (args : list varg) : option (Z * list varg) :=
  match args with VWord w :: args => Some (w, args) | _ => None end.

Definition int_types : list Z := [117; 111; 100; 105; 120; 88]. (* u o d i x X *)

(** One conversion, from the flags on: the characters printed, the output, the
    rest of the format and of the arguments.  The caller steps over the last
    character of the conversion, so a format that ends in its flags or its width
    is read past its end: [None]. *)
Definition conversion (out : S) (format : list Z) (args : list varg) : option (Z * S * list Z * list varg) :=
  let '(flags, format) := get_flags no_flags format in
  let flags := if flags.(pad_right) then Flags true false flags.(pad_alternate) flags.(pad_sign) else flags in
  let '(width, format) := get_width 0 format in
  let num i type rest args := match printi out i width flags type with None => None | Some (pc, out) => Some (pc, out, rest, args) end in
  match format with
  | [] => None
  | c :: rest =>
      if c =? 115 then (* s *)
        match args with
        | VStr s :: args =>
            match prints out (match s with Some s => s | None => [40; 110; 117; 108; 108; 41] end) width flags with
            | None => None | Some (pc, out) => Some (pc, out, rest, args) end
        | _ => None
        end
      else if is_type c [100; 105] then match next_word args with None => None | Some (w, args) => num (s32 w) c rest args end
      else if is_type c [117; 111; 120; 88] then match next_word args with None => None | Some (w, args) => num (u32 w) c rest args end
      else if is_type c [112; 80] then match next_word args with None => None | Some (w, args) => num (signed 64 w) c rest args end
      else if c =? 108 then (* l *)
        let rest := match rest with d :: rest' => if d =? 108 then rest' else rest | [] => [] end in
        let '(type, rest) := match rest with t :: rest' => if is_type t int_types then (t, rest') else (105, rest) | [] => (105, []) end in
        match next_word args with None => None | Some (w, args) => num (signed 64 w) type rest args end
      else if c =? 99 then (* c *)
        match next_word args with
        | None => None
        | Some (w, args) =>
            let ch := u8 w in
            match prints out (if ch =? 0 then [] else [ch]) width flags with
            | None => None | Some (pc, out) => Some (pc, out, rest, args) end
        end
      else Some (0, out, rest, args)
  end.

(** The loop over the format; every round takes at least one character of it. *)
Fixpoint print_loop (fuel : nat) (pc : Z) (out : S) (format : list Z) (args : list varg) : option (Z * S) :=
  match fuel with
  | O => None
  | Datatypes.S fuel =>
      match format with
      | [] => Some (pc, out)
      | c :: rest =>
          let literal rest := match printc out c with None => None | Some out => print_loop fuel (pc + 1) out rest args end in
          if c =? 37 then
            match rest with
            | [] => Some (pc, out)
            | d :: rest' =>
                if d =? 37 then literal rest'
                else match conversion out rest args with
                     | None => None
                     | Some (n, out, rest, args) => print_loop fuel (pc + n) out rest args
                     end
            end
          else literal rest
      end
  end.

Definition print_format (out : S) (format : list Z) (args : list varg) : option (Z * S) :=
  print_loop (Datatypes.S (length format)) 0 out format args.
End Print.

(** ** The outputs *)

(** Output to memory: the bytes there, the position, and the room left ([None]
    when there is no limit).  [None] is a write outside the memory. *)
Record mem_out := MemOut { bytes : list Z; pos : nat; out_len : option Z }.

Definition put_byte (m : list Z) (i : nat) (c : Z) : option (list Z) := if (i <? length m)%nat then Some (<[i := c]> m) else None.

Definition printc_mem (o : mem_out) (ch : Z) : option mem_out :=
  if match o.(out_len) with None => true | Some n => 1 <? n end then
    match put_byte o.(bytes) o.(pos) ch with
    | None => None
    | Some m =>
        match put_byte m (S o.(pos)) 0 with
        | None => None
        | Some m => Some (MemOut m (S o.(pos)) (option_map (fun n => n - 1) o.(out_len)))
        end
    end
  else Some o.

(** Output to the console: the characters in the buffer, [console_tbuf_len], and
    the console. *)
Record tbuf_out := TbufOut { tbuf : list Z; console_tbuf_len : Z; con : console }.

Definition printc_tbuf (o : tbuf_out) (ch : Z) : option tbuf_out :=
  if 1 <? o.(console_tbuf_len) then
    let buf := o.(tbuf) ++ [ch] in
    let len := o.(console_tbuf_len) - 1 in
    if len =? 1 then
      match nputs_all o.(con) (take (Z.to_nat (CONSOLE_TBUF_MAX - len)) buf) with
      | None => None
      | Some con => Some (TbufOut [] CONSOLE_TBUF_MAX con)
      end
    else Some (TbufOut buf len o.(con))
  else Some o.

(** [print] with an output in memory: a zero is written first when there is room. *)
Definition print_mem (o : mem_out) (format : list Z) (args : list varg) : option (Z * mem_out) :=
  match (if match o.(out_len) with None => true | Some n => negb (n =? 0) end then put_byte o.(bytes) o.(pos) 0 else Some o.(bytes)) with
  | None => None
  | Some m => print_format printc_mem (MemOut m o.(pos) o.(out_len)) format args
  end.

(** [print] to the console: what is left in the buffer is written at the end. *)
Definition print_con (c : console) (format : list Z) (args : list varg) : option (Z * console) :=
  match print_format printc_tbuf (TbufOut [] CONSOLE_TBUF_MAX c) format args with
  | None => None
  | Some (pc, o) =>
      if o.(console_tbuf_len) <? CONSOLE_TBUF_MAX then
        match nputs_all o.(con) (take (Z.to_nat (CONSOLE_TBUF_MAX - o.(console_tbuf_len))) o.(tbuf)) with
        | None => None | Some con => Some (pc, con) end
      else Some (pc, o.(con))
  end.

Definition sbi_sprintf (mem : list Z) (format : list Z) (args : list varg) : option (Z * list Z) :=
  match print_mem (MemOut mem 0 None) format args with None => None | Some (pc, o) => Some (pc, o.(bytes)) end.

Definition sbi_snprintf (mem : list Z) (out_sz : Z) (format : list Z) (args : list varg) : option (Z * list Z) :=
  match print_mem (MemOut mem 0 (Some out_sz)) format args with None => None | Some (pc, o) => Some (pc, o.(bytes)) end.

Definition sbi_printf (c : console) (format : list Z) (args : list varg) : option (Z * console) := print_con c format args.

Definition sbi_dprintf (debug_prints : bool) (c : console) (format : list Z) (args : list varg) : option (Z * console) :=
  if debug_prints then print_con c format args else Some (0, c).
