(* ===== verification/ConsoleProps.v ===== *)
(** * Properties of the console (lib/sbi/sbi_console.c)

    What is printed does not depend on the buffers: the console gets every
    character of the formatted text in order, memory gets as many as fit and a
    zero; and the formatted text is what the conversions mean. *)

From S2P Require Import Prelude SbiTypes Locks Fifo Console.

Local Open Scope Z_scope.

(** ** Outputs that agree *)

(** The reference: every character is appended to a list. *)
Definition printc_list (l : list Z) (ch : Z) : option (list Z) := Some (l ++ [ch]).
Definition format_text (format : list Z) (args : list varg) : option (Z * list Z) := print_format printc_list [] format args.

Section Sim.
Context {S1 S2 : Type} (p1 : S1 -> Z -> option S1) (p2 : S2 -> Z -> option S2) (R : S1 -> S2 -> Prop).
Context (step : forall a b c b', R a b -> p2 b c = Some b' -> exists a', p1 a c = Some a' /\ R a' b').

Local Set Default Proof Using "Type".

Lemma emit_sim str a b b' : R a b -> emit p2 b str = Some b' -> exists a', emit p1 a str = Some a' /\ R a' b'.
Proof using step.
  revert a b. induction str as [|c str IH]; intros a b HR E; cbn [emit] in *; [simplify_eq; by exists a|].
  destruct (p2 b c) as [b1|] eqn:E1; [|done]. destruct (step _ _ _ _ HR E1) as (a1 & -> & HR1). by apply (IH a1 b1).
Qed.

Lemma prints_sim a b s w fl n b' : R a b -> prints p2 b s w fl = Some (n, b') -> exists a', prints p1 a s w fl = Some (n, a') /\ R a' b'.
Proof using step.
  intros HR. unfold prints. cbv zeta. set (x := replicate _ _). set (y := replicate _ _). intros E.
  destruct (emit p2 b x) as [b1|] eqn:E1; [|done]. destruct (emit_sim _ _ _ _ HR E1) as (a1 & -> & HR1).
  destruct (emit p2 b1 s) as [b2|] eqn:E2; [|done]. destruct (emit_sim _ _ _ _ HR1 E2) as (a2 & -> & HR2).
  destruct (emit p2 b2 y) as [b3|] eqn:E3; [|done]. destruct (emit_sim _ _ _ _ HR2 E3) as (a3 & -> & HR3).
  simplify_eq. by exists a3.
Qed.

Lemma printi_sim a b i w fl t n b' : R a b -> printi p2 b i w fl t = Some (n, b') -> exists a', printi p1 a i w fl t = Some (n, a') /\ R a' b'.
Proof using step.
  intros HR. unfold printi. cbv zeta. destruct (if _ =? 0 then _ else _) as [s|]; [|done]. destruct (pad_zero fl).
  - set (pre := _ ++ _ ++ _). intros E. destruct (emit p2 b pre) as [b1|] eqn:E1; [|done].
    destruct (emit_sim _ _ _ _ HR E1) as (a1 & -> & HR1). destruct (prints p2 b1 s _ fl) as [[m b2]|] eqn:E2; [|done].
    destruct (prints_sim _ _ _ _ _ _ _ HR1 E2) as (a2 & -> & HR2). simplify_eq. by exists a2.
  - case_match; [done|]. by apply prints_sim.
Qed.

Lemma conversion_sim a b fmt args n b' fmt' args' : R a b -> conversion p2 b fmt args = Some (n, b', fmt', args') ->
  exists a', conversion p1 a fmt args = Some (n, a', fmt', args') /\ R a' b'.
Proof using step.
  intros HR. unfold conversion. destruct (get_flags no_flags fmt) as [fl0 f1]. set (fl := if pad_right fl0 then _ else _).
  destruct (get_width 0 f1) as [w f2]. cbv zeta. destruct f2 as [|c rest]; [done|].
  assert (forall i t r ar, match printi p2 b i w fl t with None => None | Some (pc, out) => Some (pc, out, r, ar) end = Some (n, b', fmt', args') ->
    exists a', match printi p1 a i w fl t with None => None | Some (pc, out) => Some (pc, out, r, ar) end = Some (n, a', fmt', args') /\ R a' b') as Hnum.
  { intros i t r ar E. destruct (printi p2 b i w fl t) as [[m b1]|] eqn:Ei; [|done].
    destruct (printi_sim _ _ _ _ _ _ _ _ HR Ei) as (a1 & -> & HR1). simplify_eq. by exists a1. }
  assert (forall s r ar, match prints p2 b s w fl with None => None | Some (pc, out) => Some (pc, out, r, ar) end = Some (n, b', fmt', args') ->
    exists a', match prints p1 a s w fl with None => None | Some (pc, out) => Some (pc, out, r, ar) end = Some (n, a', fmt', args') /\ R a' b') as Hstr.
  { intros s r ar E. destruct (prints p2 b s w fl) as [[m b1]|] eqn:Ei; [|done].
    destruct (prints_sim _ _ _ _ _ _ _ HR Ei) as (a1 & -> & HR1). simplify_eq. by exists a1. }
  destruct (c =? 115); [destruct args as [|[|]]; [done|done|apply Hstr]|].
  destruct (is_type c [100; 105]); [destruct (next_word args) as [[]|]; [apply Hnum|done]|].
  destruct (is_type c [117; 111; 120; 88]); [destruct (next_word args) as [[]|]; [apply Hnum|done]|].
  destruct (is_type c [112; 80]); [destruct (next_word args) as [[]|]; [apply Hnum|done]|].
  destruct (c =? 108); [|destruct (c =? 99)].
  - set (r1 := match rest with d :: rest' => if d =? 108 then rest' else rest | [] => [] end). clearbody r1.
    destruct (match r1 with t :: rest' => if is_type t int_types then (t, rest') else (105, r1) | [] => (105, []) end) as [t r2].
    destruct (next_word args) as [[]|]; [apply Hnum|done].
  - destruct (next_word args) as [[]|]; [apply Hstr|done].
  - intros E. simplify_eq. by exists a.
Qed.

Lemma print_loop_sim fuel pc a b fmt args n b' : R a b -> print_loop p2 fuel pc b fmt args = Some (n, b') ->
  exists a', print_loop p1 fuel pc a fmt args = Some (n, a') /\ R a' b'.
Proof using step.
  revert pc a b fmt args. induction fuel as [|fuel IH]; intros pc a b fmt args HR E; [done|].
  assert (forall c rest, match p2 b c with None => None | Some out => print_loop p2 fuel (pc + 1) out rest args end = Some (n, b') ->
    exists a', match p1 a c with None => None | Some out => print_loop p1 fuel (pc + 1) out rest args end = Some (n, a') /\ R a' b') as Hlit.
  { intros c rest E1. destruct (p2 b c) as [b1|] eqn:Ep; [|done]. destruct (step _ _ _ _ HR Ep) as (a1 & -> & HR1). by apply (IH _ a1 b1). }
  assert (forall rest, match conversion p2 b rest args with None => None | Some (m, out, r, ar) => print_loop p2 fuel (pc + m) out r ar end = Some (n, b') ->
    exists a', match conversion p1 a rest args with None => None | Some (m, out, r, ar) => print_loop p1 fuel (pc + m) out r ar end = Some (n, a') /\ R a' b') as Hconv.
  { intros rest E1. destruct (conversion p2 b rest args) as [[[[m b1] r] ar]|] eqn:Ec; [|done].
    destruct (conversion_sim _ _ _ _ _ _ _ _ HR Ec) as (a1 & -> & HR1). by apply (IH _ a1 b1). }
  cbn [print_loop] in E |- *. destruct fmt as [|c rest]; [simplify_eq; by exists a|]. destruct (c =? 37); [|by apply Hlit].
  destruct rest as [|d rest]; [simplify_eq; by exists a|]. destruct (d =? 37); [by apply Hlit|by apply Hconv].
Qed.

Lemma print_format_sim a b fmt args n b' : R a b -> print_format p2 b fmt args = Some (n, b') ->
  exists a', print_format p1 a fmt args = Some (n, a') /\ R a' b'.
Proof using step. apply print_loop_sim. Qed.
End Sim.

(** ** The console gets every character *)

(** A device that takes at least one character of what it is given. *)
Definition dev_ok (d : sbi_console_device) : Prop :=
  match d.(console_puts) with
  | Some puts => forall str, str <> [] -> 1 <= puts str <= Z.of_nat (length str)
  | None => d.(console_putc) = true
  end.

Definition con_ok (c : console) : Prop := match c.(console_dev) with Some d => dev_ok d | None => False end.

(** The console after a text. *)
Definition after (c : console) (str : list Z) : console :=
  send c (match c.(console_dev) with
          | Some d => match d.(console_puts) with Some _ => str | None => crlf str end
          | None => [] end).

Lemma crlf_app a b : crlf (a ++ b) = crlf a ++ crlf b.
Proof. apply flat_map_app. Qed.

Lemma after_app c a b : after (after c a) b = after c (a ++ b).
Proof.
  unfold after, send. cbn [console_dev sent console_early_fifo input]. destruct (console_dev c) as [d|]; [|by rewrite !app_nil_r].
  destruct (console_puts d); [by rewrite app_assoc|]. by rewrite crlf_app, app_assoc.
Qed.

Lemma after_nil c : con_ok c -> after c [] = c.
Proof.
  unfold con_ok, after, send. destruct c as [[d|] s f i]; [|done]. cbn. intros _. destruct (console_puts d); by rewrite app_nil_r.
Qed.

Lemma con_ok_after c s : con_ok c -> con_ok (after c s).
Proof. done. Qed.

Lemma nputs_ok c str : con_ok c -> str <> [] -> exists n, nputs c str = Some (n, after c (take (Z.to_nat n) str)) /\ 1 <= n <= Z.of_nat (length str).
Proof.
  unfold con_ok, nputs, after, dev_ok. destruct (console_dev c) as [d|]; [|done]. intros Hd Hs. destruct (console_puts d) as [puts|].
  - exists (puts str). split; [done|]. by apply Hd.
  - rewrite Hd. exists (Z.of_nat (length str)). rewrite Nat2Z.id, take_ge by done. split; [done|]. destruct str; [done|]. cbn. lia.
Qed.

Lemma nputs_loop_ok fuel c str : con_ok c -> (length str <= fuel)%nat -> nputs_loop fuel c str = Some (after c str).
Proof.
  revert c str. induction fuel as [|fuel IH]; intros c str Hc Hl.
  - destruct str; [|cbn in Hl; lia]. cbn [nputs_loop]. by rewrite after_nil.
  - destruct str as [|ch str]; [cbn [nputs_loop]; by rewrite after_nil|]. cbn [nputs_loop].
    destruct (nputs_ok c (ch :: str) Hc ltac:(done)) as (n & -> & Hn). rewrite IH.
    + by rewrite after_app, take_drop.
    + done.
    + rewrite length_drop. lia.
Qed.

Lemma nputs_all_ok c str : con_ok c -> nputs_all c str = Some (after c str).
Proof. intros Hc. by apply nputs_loop_ok. Qed.

(** The text so far is what has been flushed and what is in the buffer. *)
Definition tbuf_text (c : console) (o : tbuf_out) (l : list Z) : Prop :=
  exists done_, l = done_ ++ o.(tbuf) /\ o.(con) = after c done_ /\ Z.of_nat (length o.(tbuf)) = CONSOLE_TBUF_MAX - o.(console_tbuf_len) /\
    1 < o.(console_tbuf_len).

Lemma tbuf_step c a b ch b' : con_ok c -> tbuf_text c a b -> printc_list b ch = Some b' ->
  exists a', printc_tbuf a ch = Some a' /\ tbuf_text c a' b'.
Proof.
  intros Hc (d & Eb & Ec & El & Hl) [= <-]. unfold CONSOLE_TBUF_MAX in *. unfold printc_tbuf, CONSOLE_TBUF_MAX. destruct (Z.ltb_spec 1 (console_tbuf_len a)); [|lia].
  destruct (Z.eqb_spec (console_tbuf_len a - 1) 1) as [E1|E1].
  - rewrite Ec, take_ge by (rewrite length_app; cbn; lia). rewrite nputs_all_ok by done. eexists. split; [done|].
    exists (d ++ tbuf a ++ [ch]). unfold CONSOLE_TBUF_MAX. cbn. rewrite after_app, Eb, app_nil_r, app_assoc. split_and!; [done|done|done|lia].
  - eexists. split; [done|]. exists d. unfold CONSOLE_TBUF_MAX. cbn [tbuf con console_tbuf_len]. rewrite Eb, app_assoc, length_app. cbn [length]. split_and!; [done|done|lia|lia].
Qed.

(** C27: [sbi_printf] sends the formatted text to the console, all of it, in order
    and once, whatever its length and wherever the temporary buffer of 256
    characters fills up, also when the device takes only part of what it is
    given at a time, and returns the number of characters. *)
Theorem printf_exact c format args n text : con_ok c -> format_text format args = Some (n, text) ->
  sbi_printf c format args = Some (n, after c text).
Proof.
  intros Hc E. unfold sbi_printf, print_con. assert (tbuf_text c (TbufOut [] CONSOLE_TBUF_MAX c) []) as H0
    by (exists []; cbn; by rewrite after_nil).
  destruct (print_format_sim printc_tbuf printc_list (tbuf_text c) (fun a b ch b' => tbuf_step c a b ch b' Hc) _ _ format args n text H0 E)
    as (o & -> & d & Et & Ec & El & Hl).
  destruct (Z.ltb_spec (console_tbuf_len o) CONSOLE_TBUF_MAX).
  - rewrite Ec, take_ge by lia. rewrite nputs_all_ok by done. by rewrite after_app, Et.
  - assert (tbuf o = []) as E0 by (destruct (tbuf o); [done|cbn in El; lia]). by rewrite Ec, Et, E0, app_nil_r.
Qed.

(** ** Memory gets what fits *)

(** The first [sz - 1] characters, a zero, and the memory after that as it was. *)
Definition mem_text (mem : list Z) (sz : Z) (o : mem_out) (l : list Z) : Prop :=
  let k := Nat.min (length l) (Z.to_nat sz - 1) in
  o.(bytes) = take k l ++ 0 :: drop (S k) mem /\ o.(pos) = k /\ o.(out_len) = Some (sz - Z.of_nat k).

Lemma mem_step mem sz a b ch b' : 1 <= sz <= Z.of_nat (length mem) -> mem_text mem sz a b -> printc_list b ch = Some b' ->
  exists a', printc_mem a ch = Some a' /\ mem_text mem sz a' b'.
Proof.
  intros Hsz (Eb & Ep & El) [= <-]. set (k := Nat.min (length b) (Z.to_nat sz - 1)) in *. unfold printc_mem. rewrite El.
  assert (length (bytes a) = length mem) as Hlen by (rewrite Eb, length_app, length_take; cbn [length]; rewrite length_drop; lia).
  destruct (Z.ltb_spec 1 (sz - Z.of_nat k)) as [Hr|Hr].
  - assert (k = length b) as Ek by lia. rewrite Ep. unfold put_byte. destruct (Nat.ltb_spec k (length (bytes a))); [|lia].
    rewrite length_insert. destruct (Nat.ltb_spec (S k) (length (bytes a))); [|lia]. eexists. split; [done|].
    unfold mem_text. rewrite length_app. cbn [length bytes pos out_len option_map]. replace (Nat.min (length b + 1) (Z.to_nat sz - 1)) with (S k) by lia.
    split_and!; [|done|f_equal; lia]. rewrite Eb, Ek, !take_ge by (rewrite ?length_app; cbn [length]; lia).
    rewrite insert_app_r_alt, Nat.sub_diag by lia. cbn [list_insert]. rewrite insert_app_r_alt by lia. replace (S (length b) - length b)%nat with 1%nat by lia.
    rewrite <- app_assoc. cbn. f_equal. f_equal.
    destruct (lookup_lt_is_Some_2 mem (S (length b))) as [x Ex]; [lia|]. by rewrite (drop_S mem x (S (length b)) Ex).
  - exists a. split; [done|]. assert (k = (Z.to_nat sz - 1)%nat) as Ek by lia. unfold mem_text. rewrite length_app. cbn [length].
    replace (Nat.min (length b + 1) (Z.to_nat sz - 1)) with k by lia. split_and!; [|done|done]. rewrite Eb. f_equal. symmetry. rewrite take_app_le; [done|lia].
Qed.


(** ** What the conversions mean *)

(** *** Numerals *)

Definition value_of (b : Z) (vs : list Z) : Z := fold_left (fun acc v => acc * b + v) vs 0.

(** The character of a digit. *)
Definition digit_char (upper : bool) (v : Z) : Z := if v <? 10 then 48 + v else (if upper then 65 else 97) + (v - 10).

(** [ds] is the numeral of [u] in base [b], without leading zeros. *)
Definition numeral (b : Z) (upper : bool) (u : Z) (ds : list Z) : Prop :=
  exists vs, ds = map (digit_char upper) vs /\ Forall (fun v => 0 <= v < b) vs /\ value_of b vs = u /\
    vs <> [] /\ (hd 0 vs = 0 -> vs = [0]).

Lemma value_of_snoc b vs v : value_of b (vs ++ [v]) = value_of b vs * b + v.
Proof. unfold value_of. by rewrite fold_left_app. Qed.

Lemma value_of_lower b vs : 2 <= b -> Forall (fun v => 0 <= v < b) vs -> hd 0 vs <> 0 -> b ^ (Z.of_nat (length vs) - 1) <= value_of b vs.
Proof.
  intros Hb. induction vs as [|v vs IH] using rev_ind; intros Hvs Hh; [done|]. apply Forall_app in Hvs as [Hvs Hv].
  apply Forall_inv in Hv. rewrite value_of_snoc, length_app. cbn [length]. destruct vs as [|x vs].
  - change (Z.of_nat (length [] + 1) - 1) with 0. rewrite Z.pow_0_r.
    unfold value_of. cbn [fold_left]. cbn [hd app] in Hh.
    lia.
  - specialize (IH Hvs Hh). replace (Z.of_nat (length (x :: vs) + 1) - 1) with (1 + (Z.of_nat (length (x :: vs)) - 1)) by lia.
    rewrite Z.pow_add_r, Z.pow_1_r by (cbn [length]; lia). nia.
Qed.

Definition letter_base (upper : bool) : Z := if upper then 65 else 97.

Lemma digits_loop_spec fuel upper b u s : 2 <= b -> 0 <= u < b ^ Z.of_nat fuel ->
  exists vs, digits_loop fuel (letter_base upper) b u s = Some (map (digit_char upper) vs ++ s) /\ Forall (fun v => 0 <= v < b) vs /\
    value_of b vs = u /\ (vs = [] <-> u = 0) /\ (u <> 0 -> hd 0 vs <> 0).
Proof.
  intros Hb. revert u s. induction fuel as [|fuel IH]; intros u s Hu; cbn [digits_loop].
  - change (Z.of_nat 0) with 0 in Hu. rewrite Z.pow_0_r in Hu. assert (u = 0) as -> by lia. exists []. cbn. done.
  - destruct (Z.eqb_spec u 0) as [->|Hnz]; [exists []; cbn; done|].
    pose proof (Z.mod_pos_bound u b ltac:(lia)) as Ht. pose proof (Z.div_mod u b ltac:(lia)) as Ed.
    replace (Z.of_nat (S fuel)) with (1 + Z.of_nat fuel) in Hu by lia. rewrite Z.pow_add_r, Z.pow_1_r in Hu by lia.
    destruct (IH (u / b) ((if 10 <=? u `mod` b then u `mod` b + letter_base upper - 48 - 10 else u `mod` b) + 48 :: s)) as (vs & E & Hvs & Hval & Hnil & Hhd).
    { split; [apply Z.div_pos; lia|]. apply Z.div_lt_upper_bound; lia. }
    exists (vs ++ [u `mod` b]). rewrite E. split_and!.
    + rewrite map_app, <- app_assoc. cbn [map app]. do 3 f_equal. unfold digit_char, letter_base.
      destruct (Z.leb_spec 10 (u `mod` b)), (Z.ltb_spec (u `mod` b) 10); destruct upper; lia.
    + apply Forall_app. split; [done|]. by apply Forall_singleton.
    + rewrite value_of_snoc, Hval. lia.
    + split; [by destruct vs|done].
    + intros _. destruct vs as [|v vs]; [|apply Hhd; intros H0; apply Hnil in H0; done]. cbn. assert (u / b = 0) as E0 by (by apply Hnil). lia.
Qed.

(** The digits of [printi], which always fit. *)
Lemma printi_digits upper b u : b = 8 \/ b = 10 \/ b = 16 -> in_range 64 u ->
  exists ds, (if u =? 0 then Some [48] else digits_loop (Z.to_nat PRINT_BUF_LEN - 1) (letter_base upper) b u []) = Some ds /\
    numeral b upper u ds /\ (length ds <= 22)%nat.
Proof.
  intros Hb Hu. unfold in_range in Hu. destruct (Z.eqb_spec u 0) as [->|Hnz].
  - exists [48]. split; [done|]. split; [|cbn; lia]. exists [0]. split; [done|]. split; [apply Forall_singleton; lia|]. done.
  - destruct (digits_loop_spec 63 upper b u [] ltac:(lia)) as (vs & E & Hvs & Hval & Hnil & Hhd).
    { split; [lia|]. assert (2 ^ 64 < b ^ Z.of_nat 63) by (destruct Hb as [->|[->| ->]]; reflexivity). lia. }
    rewrite app_nil_r in E. exists (map (digit_char upper) vs). split; [exact E|]. specialize (Hhd Hnz).
    split; [exists vs; split_and!; [done|done|done|by rewrite Hnil|done]|].
    rewrite length_map. destruct (decide (length vs <= 22)%nat) as [|Hgt]; [done|].
    pose proof (value_of_lower b vs ltac:(lia) Hvs Hhd) as Hlow. assert (8 ^ 22 <= b ^ (Z.of_nat (length vs) - 1)) as Hp.
    { transitivity (b ^ 22); [apply Z.pow_le_mono_l; lia|apply Z.pow_le_mono_r; lia]. }
    assert (2 ^ 64 < 8 ^ 22) by reflexivity. lia.
Qed.

(** *** Layout *)

(** A body in a field of [width] characters. *)
Definition field (left zero : bool) (width : Z) (body : list Z) : list Z :=
  let pad c := replicate (Z.to_nat (width - Z.of_nat (length body))) c in
  if left then body ++ pad 32 else pad (if zero then 48 else 32) ++ body.

Definition small (x : Z) : Prop := 0 <= x < 2 ^ 30.

Lemma s32_id x : - 2 ^ 31 <= x < 2 ^ 31 -> s32 x = x.
Proof.
  intros H. unfold signed, wrap. change (2 ^ (32 - 1)) with (2 ^ 31). destruct (decide (0 <= x)).
  - rewrite Z.mod_small by lia. destruct (Z.ltb_spec x (2 ^ 31)); lia.
  - assert (x `mod` 2 ^ 32 = x + 2 ^ 32) as -> by (symmetry; apply (Z.mod_unique_pos _ _ (-1)); lia). destruct (Z.ltb_spec (x + 2 ^ 32) (2 ^ 31)); lia.
Qed.

Lemma emit_list l s : emit printc_list l s = Some (l ++ s).
Proof.
  revert l. induction s as [|c s IH]; intros l; cbn [emit]; [by rewrite app_nil_r|]. unfold printc_list at 1. by rewrite IH, <- app_assoc.
Qed.

Lemma prints_list l s w fl : - 2 ^ 30 <= w < 2 ^ 30 -> small (Z.of_nat (length s)) -> (pad_right fl = true -> pad_zero fl = false) ->
  prints printc_list l s w fl = Some (Z.of_nat (length (field fl.(pad_right) fl.(pad_zero) w s)), l ++ field fl.(pad_right) fl.(pad_zero) w s).
Proof.
  unfold small. intros Hw Hs Hz. unfold prints, field. rewrite s32_id by lia. rewrite !emit_list. destruct (pad_right fl).
  - rewrite Hz by done. rewrite !length_app, length_replicate. cbn [replicate]. rewrite app_nil_r, app_assoc. do 2 f_equal. lia.
  - rewrite !length_app, length_replicate. cbn [replicate]. rewrite app_nil_r, app_assoc. do 2 f_equal. lia.
Qed.

(** The flags of a directive: left justified, zero padded, alternate form, sign. *)
Definition with_zero (fl : pflags) : bool := fl.(pad_zero) && negb fl.(pad_right).

(** The text of the number [v] in a field of [w] characters: the sign, the prefix
    of the alternate form and the numeral, with the padding outside, or with
    zeros between the prefix and the numeral. *)
Definition number_prefix (fl : pflags) (type v : Z) : list Z :=
  (if v <? 0 then [45] else if fl.(pad_sign) && is_type type [105; 100] && (0 <? v) then [43] else []) ++
  (if fl.(pad_alternate) && negb (v =? 0) then
     if type =? 111 then [48] else if is_type type [120; 112] then [48; 120] else if is_type type [88; 80] then [48; 88] else []
   else []).

Definition number_text (fl : pflags) (w type v : Z) (text : list Z) : Prop :=
  exists ds, numeral (printi_base type) (is_type type [88; 80]) (Z.abs v) ds /\
    text = let pre := number_prefix fl type v in
           if with_zero fl then pre ++ field false true (w - Z.of_nat (length pre)) ds
           else field fl.(pad_right) false w (pre ++ ds).

Definition number_types : list Z := int_types ++ [112; 80].

(** The number an argument of [printi] stands for. *)
Definition number_of (type i : Z) : Z := if is_type type [105; 100] then i else u64 i.

Lemma number_types_cases type : type ∈ number_types ->
  (type = 105 \/ type = 100) \/ type = 117 \/ type = 111 \/ (type = 120 \/ type = 112) \/ (type = 88 \/ type = 80).
Proof. unfold number_types, int_types. cbn [app]. set_solver. Qed.

Lemma printi_prefix fl type i : type ∈ number_types -> - 2 ^ 63 <= i < 2 ^ 64 ->
  (if is_type type [105; 100] then (if i <? 0 then [45] else if fl.(pad_sign) && (0 <? i) then [43] else []) else []) ++
  (if negb (i =? 0) && fl.(pad_alternate) && ((printi_base type =? 16) || (printi_base type =? 8)) then [48] else []) ++
  (if negb (i =? 0) && fl.(pad_alternate) && (printi_base type =? 16) then [120 - 97 + printi_letbase type] else []) =
  number_prefix fl type (number_of type i).
Proof.
  intros Ht Hi. unfold number_prefix, number_of. assert (forall j, u64 j <? 0 = false) as Hu.
  { intros j. pose proof (wrap_range 64 j ltac:(lia)) as H. unfold in_range in H. apply Z.ltb_ge. lia. }
  assert ((u64 i =? 0) = (i =? 0)) as Hz.
  { unfold wrap. destruct (Z.eqb_spec i 0) as [->|Hnz]; [done|]. apply Z.eqb_neq. destruct (decide (0 <= i)).
    - rewrite Z.mod_small; lia.
    - assert (i `mod` 2 ^ 64 = i + 2 ^ 64) as -> by (symmetry; apply (Z.mod_unique_pos _ _ (-1)); lia). lia. }
  clear Hi. destruct (is_type type [105; 100]) eqn:Es; rewrite ?Hu, ?Hz; generalize (i =? 0), (i <? 0), (0 <? i); intros z neg pos;
    destruct (number_types_cases type Ht) as [[-> | ->]|[->|[->|[[->| ->]|[->| ->]]]]]; vm_compute in Es; try discriminate Es; clear Hu Hz Ht Es;
    destruct fl as [? ? [] []], z, neg, pos; reflexivity.
Qed.

Lemma printi_letbase_spec type : type ∈ number_types -> printi_letbase type = letter_base (is_type type [88; 80]).
Proof. intros Ht. by destruct (number_types_cases type Ht) as [[-> | ->]|[->|[->|[[->| ->]|[->| ->]]]]]. Qed.

Lemma number_prefix_short fl type v : (length (number_prefix fl type v) <= 3)%nat.
Proof. unfold number_prefix. rewrite length_app. repeat case_match; cbn; lia. Qed.

Lemma magnitude type i : type ∈ number_types -> - 2 ^ 63 <= i < 2 ^ 63 \/ is_type type [105; 100] = false ->
  (if is_type type [105; 100] && (i <? 0) then u64 (- i) else u64 i) = Z.abs (number_of type i).
Proof.
  intros Ht Hi. unfold number_of. destruct (is_type type [105; 100]); cbn [andb].
  - destruct Hi as [Hi|]; [|done]. destruct (Z.ltb_spec i 0); rewrite wrap_small by (unfold in_range; lia); lia.
  - pose proof (wrap_range 64 i ltac:(lia)) as H. unfold in_range in H. lia.
Qed.

Lemma printi_list l i w fl type : type ∈ number_types -> - 2 ^ 63 <= i < 2 ^ 64 -> (i < 2 ^ 63 \/ is_type type [105; 100] = false) -> small w ->
  (pad_right fl = true -> pad_zero fl = false) ->
  exists text, printi printc_list l i w fl type = Some (Z.of_nat (length text), l ++ text) /\ number_text fl w type (number_of type i) text.
Proof.
  unfold small. intros Ht Hi Hi2 Hw Hz. unfold printi. cbv zeta.
  rewrite magnitude by (done || (destruct Hi2; [left; lia|by right])). rewrite printi_letbase_spec by done.
  assert (printi_base type = 8 \/ printi_base type = 10 \/ printi_base type = 16) as Hb.
  { destruct (number_types_cases type Ht) as [[-> | ->]|[->|[->|[[->| ->]|[->| ->]]]]]; vm_compute; tauto. }
  assert (in_range 64 (Z.abs (number_of type i))) as Hr.
  { unfold number_of. pose proof (wrap_range 64 i ltac:(lia)) as H. unfold in_range in *. destruct (is_type type [105; 100]); [|lia]. destruct Hi2; [lia|done]. }
  destruct (printi_digits (is_type type [88; 80]) (printi_base type) (Z.abs (number_of type i)) Hb Hr) as (ds & -> & Hn & Hl).
  rewrite <- printi_letbase_spec by done. pose proof (number_prefix_short fl type (number_of type i)) as Hp.
  pose proof (printi_prefix fl type i Ht Hi) as Epre. unfold number_text, with_zero. destruct (pad_zero fl) eqn:Ez.
  - rewrite Epre, emit_list. assert (pad_right fl = false) as Er by (destruct (pad_right fl); [by specialize (Hz eq_refl)|done]).
    rewrite prints_list by (rewrite ?Er; try done; unfold small; lia). rewrite Er, Ez. cbn [andb negb]. eexists. split; [|by exists ds].
    cbv zeta. rewrite (length_app (number_prefix _ _ _)), Nat2Z.inj_add, app_assoc. done.
  - rewrite !app_assoc, <- (app_assoc (if is_type type [105; 100] then _ else _)), Epre. unfold PRINT_BUF_LEN.
    destruct (Z.ltb_spec (64 - 1) (Z.of_nat (length (number_prefix fl type (number_of type i) ++ ds)))) as [Hlt|_]; [rewrite length_app in Hlt; lia|].
    rewrite prints_list by (try done; unfold small; rewrite ?length_app; lia). rewrite Ez. cbn [andb]. eexists. split; [done|]. by exists ds.
Qed.

(** *** Formats *)

(** A format is a sequence of characters, percent signs and directives. *)
Inductive conv := CStr | CChr | CInt (long : nat) (type : Z) | CPtr (upper : bool).
Inductive item := Lit (c : Z) | Percent | Dir (fs ws : list Z) (k : conv).

Definition conv_chars (k : conv) : list Z :=
  match k with CStr => [115] | CChr => [99] | CInt long type => replicate long 108 ++ [type] | CPtr upper => [if upper then 80 else 112] end.

Definition encode_item (it : item) : list Z :=
  match it with Lit c => [c] | Percent => [37; 37] | Dir fs ws k => 37 :: fs ++ ws ++ conv_chars k end.

Definition encode (its : list item) : list Z := concat (map encode_item its).

Definition is_flag (c : Z) : bool := is_type c [45; 43; 35; 48; 32; 39].
Definition is_dec_digit (c : Z) : bool := (48 <=? c) && (c <=? 57).
Definition width_from (acc : Z) (ws : list Z) : Z := fold_left (fun acc c => acc * 10 + (c - 48)) ws acc.
Definition flags_of (fs : list Z) : pflags := Flags (is_type 45 fs) (is_type 48 fs) (is_type 35 fs) (is_type 43 fs).

(** Directives that are written as they are read: the width does not begin with
    the flag 0, and the field is not absurd. *)
Definition item_ok (it : item) : Prop :=
  match it with
  | Lit c => c <> 37
  | Percent => True
  | Dir fs ws k =>
      Forall (fun c => is_flag c = true) fs /\ Forall (fun c => is_dec_digit c = true) ws /\ hd 49 ws <> 48 /\ small (width_from 0 ws) /\
      match k with CInt long type => (long <= 2)%nat /\ type ∈ int_types | _ => True end
  end.

(** The number an argument of a conversion is: 32 bits, or 64 with l and ll. *)
Definition int_value (long : nat) (type w : Z) : Z :=
  let bits := if (long =? 0)%nat then 32 else 64 in if is_type type [105; 100] then signed bits w else wrap bits w.

(** The text of an item, with the arguments it takes. *)
Inductive renders : item -> list varg -> list Z -> list varg -> Prop :=
| renders_lit c args : renders (Lit c) args [c] args
| renders_percent args : renders Percent args [37] args
| renders_str fs ws s args : small (Z.of_nat (length s)) ->
    renders (Dir fs ws CStr) (VStr (Some s) :: args) (field (is_type 45 fs) (is_type 48 fs) (width_from 0 ws) s) args
| renders_null fs ws args :
    renders (Dir fs ws CStr) (VStr None :: args) (field (is_type 45 fs) (is_type 48 fs) (width_from 0 ws) [40; 110; 117; 108; 108; 41]) args
| renders_chr fs ws ch args : 0 < ch < 256 ->
    renders (Dir fs ws CChr) (VWord ch :: args) (field (is_type 45 fs) (is_type 48 fs) (width_from 0 ws) [ch]) args
| renders_int fs ws long type w args text : number_text (flags_of fs) (width_from 0 ws) type (int_value long type w) text ->
    renders (Dir fs ws (CInt long type)) (VWord w :: args) text args
| renders_ptr fs ws (upper : bool) w args text : number_text (flags_of fs) (width_from 0 ws) (if upper then 80 else 112) (u64 w) text ->
    renders (Dir fs ws (CPtr upper)) (VWord w :: args) text args.

Inductive renders_all : list item -> list varg -> list Z -> Prop :=
| renders_all_nil args : renders_all [] args []
| renders_all_cons it its args args' text texts : renders it args text args' -> renders_all its args' texts -> renders_all (it :: its) args (text ++ texts).

Definition arg_fits (it : item) (args : list varg) : option (list varg) :=
  match it, args with
  | Lit _, _ => Some args
  | Percent, _ => Some args
  | Dir _ _ CStr, VStr None :: args => Some args
  | Dir _ _ CStr, VStr (Some s) :: args => if Z.of_nat (length s) <? 2 ^ 30 then Some args else None
  | Dir _ _ CChr, VWord ch :: args => if (0 <? ch) && (ch <? 256) then Some args else None
  | Dir _ _ (CInt _ _), VWord _ :: args => Some args
  | Dir _ _ (CPtr _), VWord _ :: args => Some args
  | _, _ => None
  end.

(** The arguments are of the types the directives ask for. *)
Fixpoint args_fit (its : list item) (args : list varg) : bool :=
  match its with [] => true | it :: its => match arg_fits it args with Some args' => args_fit its args' | None => false end end.

Lemma get_flags_app fs rest fl : Forall (fun c => is_flag c = true) fs -> is_flag (hd 0 rest) = false ->
  get_flags fl (fs ++ rest) = (Flags (pad_right fl || is_type 45 fs) (pad_zero fl || is_type 48 fs) (pad_alternate fl || is_type 35 fs) (pad_sign fl || is_type 43 fs), rest).
Proof.
  intros Hfs Hr. revert fl. induction Hfs as [|c fs Hc _ IH]; intros fl; cbn [app].
  - cbn [is_type existsb]. rewrite !orb_false_r. destruct fl. destruct rest as [|c rest]; [done|]. cbn in Hr. cbn [get_flags].
    destruct (c =? 45); [done|]. destruct (c =? 43); [done|]. destruct (c =? 35); [done|]. destruct (c =? 48); [done|].
    destruct (c =? 32); [done|]. by destruct (c =? 39).
  - unfold is_flag, is_type in Hc. cbn [existsb] in Hc. cbn [get_flags]. unfold is_type in *. cbn [existsb].
    rewrite (Z.eqb_sym 45 c), (Z.eqb_sym 48 c), (Z.eqb_sym 35 c), (Z.eqb_sym 43 c).
    destruct (Z.eqb_spec c 45) as [->|]; [rewrite IH; cbn; by rewrite orb_true_r|]. destruct (Z.eqb_spec c 43) as [->|]; [rewrite IH; cbn; by rewrite orb_true_r|].
    destruct (Z.eqb_spec c 35) as [->|]; [rewrite IH; cbn; by rewrite orb_true_r|]. destruct (Z.eqb_spec c 48) as [->|]; [rewrite IH; cbn; by rewrite orb_true_r|].
    destruct (Z.eqb_spec c 32) as [->|]; [by rewrite IH|]. destruct (Z.eqb_spec c 39) as [->|]; [by rewrite IH|done].
Qed.

Lemma width_from_ge ws acc : Forall (fun c => is_dec_digit c = true) ws -> 0 <= acc -> acc <= width_from acc ws.
Proof.
  intros Hws. revert acc. induction Hws as [|c ws Hc _ IH]; intros acc Ha; [done|]. unfold is_dec_digit in Hc. apply andb_true_iff in Hc as [?%Z.leb_le ?%Z.leb_le].
  unfold width_from in *. cbn [fold_left]. etransitivity; [|apply IH; lia]. lia.
Qed.

Lemma get_width_app ws rest acc : Forall (fun c => is_dec_digit c = true) ws -> is_dec_digit (hd 0 rest) = false -> 0 <= acc -> small (width_from acc ws) ->
  get_width acc (ws ++ rest) = (width_from acc ws, rest).
Proof.
  intros Hws Hr. revert acc. induction Hws as [|c ws Hc Hws IH]; intros acc Ha Hs; cbn [app].
  - destruct rest as [|c rest]; [done|]. cbn in Hr. unfold is_dec_digit in Hr. cbn [get_width]. by rewrite Hr.
  - cbn [get_width]. unfold is_dec_digit in Hc. rewrite Hc. apply andb_true_iff in Hc as [?%Z.leb_le ?%Z.leb_le].
    assert (acc * 10 + (c - 48) <= width_from acc (c :: ws)) as Hge by (apply (width_from_ge ws (acc * 10 + (c - 48))); [done|lia]).
    unfold small in Hs. rewrite (s32_id (acc * 10)), s32_id by lia. apply (IH (acc * 10 + (c - 48))); [lia|done].
Qed.

(** The flags the conversions see: a left justified field has no zeros. *)
Definition seen (fs : list Z) : pflags := let fl := flags_of fs in if fl.(pad_right) then Flags true false fl.(pad_alternate) fl.(pad_sign) else fl.

Lemma seen_zero fs : pad_right (seen fs) = true -> pad_zero (seen fs) = false.
Proof. unfold seen, flags_of. cbn. destruct (is_type 45 fs); cbn; [done|done]. Qed.

Lemma seen_field fs w s : field (pad_right (seen fs)) (pad_zero (seen fs)) w s = field (is_type 45 fs) (is_type 48 fs) w s.
Proof. unfold seen, flags_of. cbn. by destruct (is_type 45 fs). Qed.

Lemma seen_number fs w type v text : number_text (seen fs) w type v text -> number_text (flags_of fs) w type v text.
Proof.
  intros (ds & Hn & ->). exists ds. split; [done|]. unfold seen, flags_of, with_zero, number_prefix. cbn. destruct (is_type 45 fs); [|done]. cbn.
  by rewrite andb_false_r.
Qed.

Lemma prints_seen l s fs w : small w -> small (Z.of_nat (length s)) ->
  prints printc_list l s w (seen fs) = Some (Z.of_nat (length (field (is_type 45 fs) (is_type 48 fs) w s)), l ++ field (is_type 45 fs) (is_type 48 fs) w s).
Proof. intros Hw Hs. unfold small in Hw. rewrite prints_list; [by rewrite seen_field|lia|done|apply seen_zero]. Qed.

Lemma conv_chars_hd k rest : match k with CInt long type => (long <= 2)%nat /\ type ∈ int_types | _ => True end ->
  is_flag (hd 0 (conv_chars k ++ rest)) = false /\ is_dec_digit (hd 0 (conv_chars k ++ rest)) = false.
Proof.
  destruct k as [| |long type|[]]; cbn -[int_types]; try done. intros [_ Ht]. destruct long as [|long]; [|done].
  unfold int_types in Ht. cbn. set_unfold in Ht. by destruct_or! Ht; subst.
Qed.

Lemma dir_hd fs ws k rest : item_ok (Dir fs ws k) -> is_flag (hd 0 (ws ++ conv_chars k ++ rest)) = false.
Proof.
  intros (_ & Hws & Hh & _ & Hk). destruct ws as [|c ws]; cbn [app hd]; [by apply conv_chars_hd|]. cbn in Hh. apply Forall_inv in Hws.
  unfold is_dec_digit in Hws. apply andb_true_iff in Hws as [?%Z.leb_le ?%Z.leb_le]. unfold is_flag, is_type. cbn [existsb].
  repeat (rewrite (proj2 (Z.eqb_neq c _)); [|lia]). done.
Qed.

Lemma conversion_int l w fl long type wd : type ∈ int_types -> (long <= 2)%nat -> small wd -> (pad_right fl = true -> pad_zero fl = false) ->
  exists text, (printi printc_list l (if (long =? 0)%nat then (if is_type type [100; 105] then s32 w else u32 w) else signed 64 w) wd fl type = Some (Z.of_nat (length text), l ++ text)) /\
    number_text fl wd type (int_value long type w) text.
Proof.
  intros Ht Hl Hw Hz. pose proof (signed_range 64 w ltac:(lia)) as Hs. pose proof (signed_range 32 w ltac:(lia)) as Hs32.
  pose proof (wrap_range 32 w ltac:(lia)) as Hu. unfold in_range in Hu.
  assert (is_type type [100; 105] = is_type type [105; 100]) as E by (unfold is_type; cbn; by destruct (type =? 100), (type =? 105)).
  change (2 ^ (64 - 1)) with (2 ^ 63) in Hs. change (2 ^ (32 - 1)) with (2 ^ 31) in Hs32.
  set (i := if (long =? 0)%nat then _ else _). assert (- 2 ^ 63 <= i < 2 ^ 64) as Hi by (subst i; repeat case_match; lia).
  destruct (printi_list l i wd fl type) as (text & Ep & Hn); [unfold number_types; set_solver|exact Hi| |done|done|].
  { subst i. rewrite E. destruct (is_type type [105; 100]); [left|by right]. case_match; lia. }
  exists text. split; [done|]. assert (number_of type i = int_value long type w) as <-; [|done].
  subst i. unfold number_of, int_value. rewrite E. destruct (is_type type [105; 100]), (long =? 0)%nat; try done.
  - apply wrap_small. unfold in_range. lia.
  - apply wrap_signed; lia.
Qed.

Lemma conversion_renders l fs ws k rest args args' : item_ok (Dir fs ws k) -> arg_fits (Dir fs ws k) args = Some args' ->
  exists text, conversion printc_list l (fs ++ ws ++ conv_chars k ++ rest) args = Some (Z.of_nat (length text), l ++ text, rest, args') /\
    renders (Dir fs ws k) args text args'.
Proof.
  intros Hok Ha. pose proof (dir_hd fs ws k rest Hok) as Hf. destruct Hok as (Hfs & Hws & Hh & Hw & Hk).
  destruct (conv_chars_hd k rest Hk) as [_ Hd]. unfold conversion. rewrite get_flags_app by done. cbn [no_flags pad_right pad_zero pad_alternate pad_sign orb].
  rewrite get_width_app by (done || lia). change (if is_type 45 fs then _ else _) with (seen fs). set (w := width_from 0 ws) in *.
  destruct k as [| |long type|upper]; cbn [conv_chars app].
  - destruct args as [|[|[s|]] args]; cbn in Ha; try done.
    + case_match eqn:El; [|done]. apply Z.ltb_lt in El. simplify_eq. change (115 =? 115) with true. cbv iota.
      assert (small (Z.of_nat (length s))) as Hs by (unfold small; lia). rewrite prints_seen by done. eexists. split; [done|]. by constructor.
    + simplify_eq. change (115 =? 115) with true. cbv iota. rewrite prints_seen by (done || (unfold small; cbn; lia)). eexists. split; [done|]. by constructor.
  - destruct args as [|[ch|] args]; cbn in Ha; try done. destruct ((0 <? ch) && (ch <? 256)) eqn:Ec; [|done]. simplify_eq.
    apply andb_true_iff in Ec as [?%Z.ltb_lt ?%Z.ltb_lt]. cbn -[wrap seen prints]. rewrite (wrap_small 8 ch) by (unfold in_range; lia).
    destruct (Z.eqb_spec ch 0); [lia|]. rewrite prints_seen by (done || (unfold small; cbn; lia)). eexists. split; [done|]. by constructor.
  - destruct args as [|[wd|] args]; cbn in Ha; try done. simplify_eq. destruct Hk as [Hl Ht].
    destruct (conversion_int l wd (seen fs) long type w Ht Hl Hw (seen_zero fs)) as (text & Ep & Hn). exists text.
    split; [|constructor; by apply seen_number]. assert (is_type type int_types = true) as Hty by (unfold int_types in *; set_unfold in Ht; by destruct_or! Ht; subst).
    destruct long as [|[|[|]]]; [| | |lia].
    + cbn [Nat.eqb] in Ep. cbn [replicate app]. unfold int_types in Ht. set_unfold in Ht.
      destruct_or! Ht; subst type; cbn -[wrap signed printi seen] in Ep |- *; by rewrite Ep.
    + cbn [Nat.eqb] in Ep. cbn [replicate app]. cbn -[wrap signed printi seen is_type]. destruct (Z.eqb_spec type 108) as [->|_]; [done|].
      rewrite Hty. by rewrite Ep.
    + cbn [Nat.eqb] in Ep. cbn [replicate app]. cbn -[wrap signed printi seen is_type]. rewrite Hty. by rewrite Ep.
  - destruct args as [|[wd|] args]; cbn in Ha; try done. simplify_eq. pose proof (signed_range 64 wd ltac:(lia)) as Hs.
    change (2 ^ (64 - 1)) with (2 ^ 63) in Hs.
    destruct (printi_list l (signed 64 wd) w (seen fs) (if upper then 80 else 112)) as (text & Ep & Hn);
      [destruct upper; unfold number_types, int_types; cbn [app]; set_solver|lia|left; lia|done|apply seen_zero|].
    exists text. split; [destruct upper; cbn -[wrap signed printi seen]; by rewrite Ep|].
    constructor. apply seen_number. revert Hn. unfold number_of. replace (is_type (if upper then 80 else 112) [105; 100]) with false by (by destruct upper).
    by rewrite wrap_signed.
Qed.

Lemma dir_cons fs ws k rest : item_ok (Dir fs ws k) -> exists d tl, fs ++ ws ++ conv_chars k ++ rest = d :: tl /\ d <> 37.
Proof.
  intros (Hfs & Hws & _ & _ & Hk). destruct fs as [|c fs]; cbn [app].
  - destruct ws as [|c ws]; cbn [app].
    + destruct k as [| |long type|[]]; cbn; try (by eexists _, _). destruct long; cbn; [|by eexists _, _]. destruct Hk as [_ Ht].
      eexists _, _. split; [done|]. intros ->. unfold int_types in Ht. set_solver.
    + eexists _, _. split; [done|]. apply Forall_inv in Hws. intros ->. done.
  - eexists _, _. split; [done|]. apply Forall_inv in Hfs. intros ->. done.
Qed.

Lemma print_loop_renders its : Forall item_ok its -> forall fuel pc l args, args_fit its args = true -> (length (encode its) < fuel)%nat ->
  exists text, print_loop printc_list fuel pc l (encode its) args = Some (pc + Z.of_nat (length text), l ++ text) /\ renders_all its args text.
Proof.
  induction 1 as [|it its Hok _ IH]; intros fuel pc l args Ha Hf; (destruct fuel as [|fuel]; [cbn in Hf; lia|]).
  - exists []. cbn. rewrite app_nil_r, Z.add_0_r. split; [done|constructor].
  - cbn [args_fit] in Ha. destruct (arg_fits it args) as [args'|] eqn:Ef; [|done].
    change (encode (it :: its)) with (encode_item it ++ encode its) in *. rewrite length_app in Hf.
    assert (forall t, (0 < length (encode_item it))%nat -> renders it args t args' ->
      exists text, print_loop printc_list fuel (pc + Z.of_nat (length t)) (l ++ t) (encode its) args' = Some (pc + Z.of_nat (length text), l ++ text) /\ renders_all (it :: its) args text) as Hrest.
    { intros t Hpos Hr. destruct (IH fuel (pc + Z.of_nat (length t)) (l ++ t) args' Ha ltac:(lia)) as (text & -> & Hall). exists (t ++ text).
      rewrite length_app, <- app_assoc. split; [do 2 f_equal; lia|]. by econstructor. }
    destruct it as [c| |fs ws k]; cbn [encode_item app print_loop].
    + cbn in Ef, Hok. simplify_eq. destruct (Z.eqb_spec c 37); [done|]. apply (Hrest [c]); [cbn; lia|constructor].
    + cbn in Ef. simplify_eq. apply (Hrest [37]); [cbn; lia|constructor].
    + change (37 =? 37) with true. cbv iota. rewrite <- !app_assoc. destruct (dir_cons fs ws k (encode its) Hok) as (d & tl & E & Hd).
      destruct (conversion_renders l fs ws k (encode its) args args' Hok Ef) as (t & Ec & Hr).
      rewrite E in Ec |- *. destruct (Z.eqb_spec d 37); [done|]. rewrite Ec. apply Hrest; [cbn; lia|done].
Qed.

(** A format of characters, percent signs and directives prints what it
    says: strings and characters in their field, numbers of the width the length
    modifiers give as their numeral in base 8, 10 or 16 without leading zeros,
    with sign, prefix of the alternate form and padding where the flags put them;
    the result is the number of characters, and it is never cut short by the
    buffer the digits are written to. *)
Theorem format_renders its args : Forall item_ok its -> args_fit its args = true ->
  exists text, format_text (encode its) args = Some (Z.of_nat (length text), text) /\ renders_all its args text.
Proof. intros Hok Ha. destruct (print_loop_renders its Hok (S (length (encode its))) 0 [] args Ha) as (text & E & Hr); [lia|]. by exists text. Qed.

(** Octal, upper case, field and alternate form: [%-6s|%#08lx|%+d%%]. *)
Definition example_items : list item :=
  [Dir [45] [54] CStr; Lit 124; Dir [35; 48] [56] (CInt 1 120); Lit 124; Dir [43] [] (CInt 0 100); Percent].
Definition example_args : list varg := [VStr (Some [104; 105]); VWord 0xbeef; VWord 7].

Lemma format_renders_witness :
  exists text, format_text (encode example_items) example_args = Some (Z.of_nat (length text), text) /\ renders_all example_items example_args text.
Proof.
  apply (format_renders example_items example_args); [|reflexivity].
  assert (forall c l, existsb (Z.eqb c) l = true -> c ∈ l) as Hin.
  { intros c l H. apply existsb_exists in H as (x & Hx & ->%Z.eqb_eq). by apply list_elem_of_In. }
  unfold example_items, item_ok, small. repeat constructor; try done; by apply Hin.
Defined.

Example format_example : format_text (encode example_items) example_args =
  Some (19, [104; 105; 32; 32; 32; 32; 124; 48; 120; 48; 48; 98; 101; 101; 102; 124; 43; 55; 37]).
Proof. vm_compute. reflexivity. Qed.

(** A format that ends in the flags or the width of a directive is read past its
    end: the loop steps over the final zero. *)
Example format_read_past_end : format_text [37; 53] [] = None.
Proof. reflexivity. Qed.

(** ** Early output *)

(** The last [n] elements. *)
Definition last_n (n : nat) (l : list Z) : list Z := drop (length l - n) l.

(** The console before it has a device; [q] waits in the FIFO. *)
Definition early (c : console) (q : list Z) : Prop :=
  c.(console_dev) = None /\ fifo_wf c.(console_early_fifo) /\ c.(console_early_fifo).(num_entries) = CONSOLE_EARLY_BUFFER_SIZE /\
  c.(console_early_fifo).(entry_size) = 1 /\ contents c.(console_early_fifo) = map (fun ch => [ch]) q.

Lemma enqueue_early f q ch : fifo_wf f -> f.(num_entries) = CONSOLE_EARLY_BUFFER_SIZE -> f.(entry_size) = 1 -> contents f = map (fun ch => [ch]) q -> (length q <= 256)%nat ->
  exists r f', sbi_fifo_enqueue (Some f) (Some [ch]) true = Some (r, Some f') /\ fifo_wf f' /\ f'.(num_entries) = CONSOLE_EARLY_BUFFER_SIZE /\
    f'.(entry_size) = 1 /\ contents f' = map (fun ch => [ch]) (last_n 256 (q ++ [ch])).
Proof.
  intros Hwf Hn He Hc Hq. destruct (fifo_exec_refines (Enqueue [ch] true) f Hwf) as (r & f' & Ex & Es & Hwf' & Hn' & He'); [by cbn; rewrite He|].
  cbn [fifo_exec mbind option_bind] in Ex. destruct (sbi_fifo_enqueue (Some f) (Some [ch]) true) as [[r0 fo]|]; [|done]. simplify_eq/=.
  exists r0, f'. split; [done|]. rewrite Hn', He'. split_and!; try done. revert Es. rewrite Hn, Hc, length_map. change (Z.to_nat CONSOLE_EARLY_BUFFER_SIZE) with 256%nat.
  unfold last_n. rewrite length_app. cbn [length]. case_bool_decide as Hfull; intros [= _ <-].
  - rewrite Hfull. change (256 + 1 - 256)%nat with 1%nat. destruct q as [|x q]; [done|]. cbn [List.tl map app drop]. by rewrite drop_0, map_app.
  - replace (length q + 1 - 256)%nat with 0%nat by lia. by rewrite drop_0, map_app.
Qed.

Lemma last_n_app a b : last_n 256 (last_n 256 a ++ b) = last_n 256 (a ++ b).
Proof.
  unfold last_n at 2. destruct (decide (length a <= 256)%nat).
  - by replace (length a - 256)%nat with 0%nat by lia.
  - unfold last_n. rewrite !length_app, length_drop.
    rewrite <- (drop_app_le a b) by lia. rewrite drop_drop. f_equal. lia.
Qed.

Lemma last_n_length l : (length (last_n 256 l) <= 256)%nat.
Proof. unfold last_n. rewrite length_drop. lia. Qed.

Lemma last_n_small q : (length q <= 256)%nat -> last_n 256 q = q.
Proof. intros Hq. unfold last_n. by replace (length q - 256)%nat with 0%nat by lia. Qed.

Lemma puts_early c q str : early c q -> (length q <= 256)%nat -> exists c', sbi_puts c str = Some c' /\ early c' (last_n 256 (q ++ str)) /\ c'.(sent) = c.(sent).
Proof.
  intros (Hd & Hwf & Hn & He & Hc) Hq. assert (exists f', early_put c.(console_early_fifo) str = Some f' /\ fifo_wf f' /\
    f'.(num_entries) = CONSOLE_EARLY_BUFFER_SIZE /\ f'.(entry_size) = 1 /\ contents f' = map (fun ch => [ch]) (last_n 256 (q ++ str))) as (f' & Ep & Hf').
  { clear Hd. revert q Hwf Hn He Hc Hq. generalize c.(console_early_fifo). induction str as [|ch str IH]; intros f q Hwf Hn He Hc Hq; cbn [early_put].
    - rewrite app_nil_r, last_n_small by done. by exists f.
    - destruct (enqueue_early f q ch Hwf Hn He Hc Hq) as (r & f1 & -> & Hwf1 & Hn1 & He1 & Hc1). replace (q ++ ch :: str) with ((q ++ [ch]) ++ str) by (by rewrite <- app_assoc). rewrite <- last_n_app.
      apply IH; try done. apply last_n_length. }
  unfold sbi_puts, nputs_all. destruct str as [|ch str].
  - cbn [length nputs_loop]. exists c. rewrite app_nil_r, last_n_small by done. done.
  - cbn [length nputs_loop]. unfold nputs. rewrite Hd, Ep. rewrite Nat2Z.id, drop_all. eexists. split; [by destruct (length str)|]. done.
Qed.

Lemma dequeue_early f q : fifo_wf f -> f.(entry_size) = 1 -> contents f = map (fun ch => [ch]) q ->
  exists r out f', sbi_fifo_dequeue (Some f) true = Some (r, out, Some f') /\ fifo_wf f' /\ f'.(entry_size) = 1 /\
    match q with [] => r = SBI_ENOENT /\ contents f' = [] | ch :: q => r = 0 /\ out = Some [ch] /\ contents f' = map (fun ch => [ch]) q end.
Proof.
  intros Hwf He Hc. destruct (fifo_exec_refines Dequeue f Hwf I) as (r & f' & Ex & Es & Hwf' & Hn' & He').
  cbn [fifo_exec mbind option_bind] in Ex. destruct (sbi_fifo_dequeue (Some f) true) as [[[r0 out] fo]|]; [|done]. simplify_eq/=.
  exists r0, out, f'. split; [done|]. rewrite He'. split_and!; try done. rewrite Hc in Es. destruct q; cbn in Es; by simplify_eq.
Qed.

Lemma flush_early_ok fuel c q : con_ok c -> fifo_wf c.(console_early_fifo) -> c.(console_early_fifo).(entry_size) = 1 ->
  contents c.(console_early_fifo) = map (fun ch => [ch]) q -> (length q < fuel)%nat ->
  exists c', flush_early fuel c = Some c' /\ c'.(sent) = (after c q).(sent) /\ c'.(console_dev) = c.(console_dev) /\ contents c'.(console_early_fifo) = [].
Proof.
  revert c q. induction fuel as [|fuel IH]; intros c q Hok Hwf He Hc Hf; [lia|]. cbn [flush_early].
  destruct (dequeue_early _ q Hwf He Hc) as (r & out & f' & -> & Hwf' & He' & Hq). destruct q as [|ch q].
  - destruct Hq as [-> Hc']. unfold SBI_ENOENT. eexists. split; [done|]. split_and!; [by rewrite after_nil|done|done].
  - destruct Hq as (-> & -> & Hc'). set (c1 := Console _ _ f' _). assert (con_ok c1) as Hok1 by exact Hok. unfold sbi_putc. rewrite nputs_all_ok by done.
    destruct (IH (after c1 [ch]) q) as (c' & -> & Es & Ed & Hc''); [done|done|done|done|cbn in Hf; lia|]. exists c'. split_and!; [done| |done|done].
    rewrite Es, after_app. cbn [app]. done.
Qed.

Fixpoint puts_all (c : console) (strs : list (list Z)) : option console :=
  match strs with [] => Some c | s :: strs => match sbi_puts c s with Some c => puts_all c strs | None => None end end.

(** C36: Nothing printed before there is a console is lost but what does not fit:
    whatever strings are printed, when a device is set it gets the last 256
    characters of them, in order, and the FIFO is empty after that. *)
Theorem early_output_delivered c strs d : early c [] -> dev_ok d ->
  exists c1 c2, puts_all c strs = Some c1 /\ c1.(sent) = c.(sent) /\ sbi_console_set_device c1 (Some d) = Some c2 /\
    c2.(console_dev) = Some d /\ contents c2.(console_early_fifo) = [] /\
    let text := last_n 256 (concat strs) in c2.(sent) = c.(sent) ++ (match d.(console_puts) with Some _ => text | None => crlf text end).
Proof.
  intros Hc Hd. assert (forall strs c q, early c q -> (length q <= 256)%nat -> exists c1, puts_all c strs = Some c1 /\ early c1 (last_n 256 (q ++ concat strs)) /\ c1.(sent) = c.(sent)) as Hp.
  { clear. intros strs. induction strs as [|s strs IH]; intros c q Hc Hq; cbn [puts_all concat].
    - exists c. rewrite app_nil_r, last_n_small by done. done.
    - destruct (puts_early c q s Hc Hq) as (c1 & -> & Hc1 & E1). destruct (IH c1 _ Hc1 (last_n_length _)) as (c2 & -> & Hc2 & E2). exists c2.
      split; [done|]. rewrite E2, E1. split; [|done]. revert Hc2. rewrite app_assoc, last_n_app. done. }
  destruct (Hp strs c [] Hc ltac:(cbn; lia)) as (c1 & E1 & (Hn & Hwf & _ & He & Hq) & Es). cbn [app] in Hq.
  set (cd := Console (Some d) c1.(sent) c1.(console_early_fifo) c1.(input)).
  destruct (flush_early_ok (S (Z.to_nat CONSOLE_EARLY_BUFFER_SIZE)) cd (last_n 256 (concat strs)) Hd Hwf He Hq) as (c2 & E2 & Es2 & Ed2 & Hq2).
  { pose proof (last_n_length (concat strs)). change (Z.to_nat CONSOLE_EARLY_BUFFER_SIZE) with 256%nat. lia. }
  exists c1, c2. unfold sbi_console_set_device. rewrite Hn. split_and!; try done. cbv zeta. rewrite Es2. cbn. rewrite Es. by destruct (console_puts d).
Qed.

(** A device that takes one character at a time, and one that takes them all. *)
Definition slow_dev : sbi_console_device := ConsoleDev true (Some (fun _ => 1)).
Definition putc_dev : sbi_console_device := ConsoleDev true None.
Definition boot_console (d : option sbi_console_device) : console :=
  Console d [] (sbi_fifo_init (replicate 256 0) CONSOLE_EARLY_BUFFER_SIZE 1) [].

Lemma slow_dev_ok : dev_ok slow_dev.
Proof. intros [|c s] Hs; [done|]. cbn [length]. lia. Qed.

Lemma printf_exact_witness :
  sbi_printf (boot_console (Some slow_dev)) (encode example_items) example_args =
  Some (19, after (boot_console (Some slow_dev)) [104; 105; 32; 32; 32; 32; 124; 48; 120; 48; 48; 98; 101; 101; 102; 124; 43; 55; 37]).
Proof. apply (printf_exact (boot_console (Some slow_dev))); [exact slow_dev_ok|vm_compute; reflexivity]. Defined.


Lemma early_output_delivered_witness :
  exists c1 c2, puts_all (boot_console None) [[79; 83; 10]; [10]] = Some c1 /\ c1.(sent) = [] /\ sbi_console_set_device c1 (Some putc_dev) = Some c2 /\
    c2.(console_dev) = Some putc_dev /\ contents c2.(console_early_fifo) = [] /\ c2.(sent) = [79; 83; 13; 10; 13; 10].
Proof.
  apply (early_output_delivered (boot_console None) [[79; 83; 10]; [10]] putc_dev); [|reflexivity].
  split; [reflexivity|]. assert (fifo_wf (sbi_fifo_init (replicate 256 0) CONSOLE_EARLY_BUFFER_SIZE 1)) as Hwf.
  { split; [done|]. constructor; vm_compute; done. }
  split; [exact Hwf|]. done.
Defined.
