(* ===== verification/Dbcn.v ===== *)
(** * The debug console calls (lib/sbi/sbi_ecall_dbcn.c)

    A call of the supervisor names memory by physical address; the firmware reads
    or writes it in M mode.  The domain (Domain.v), the physical memory protection
    (Pmp.v) and the console (Console.v) take part.  An access of the firmware that
    the memory protection refuses is a fault of the firmware: [None]. *)

From S2P Require Import Prelude SbiTypes Bitops Locks Fifo Domain Csr Pmp PmpProps Console ConsoleProps.

Local Open Scope Z_scope.

Definition SBI_EXT_DBCN_CONSOLE_WRITE : Z := 0.
Definition SBI_EXT_DBCN_CONSOLE_READ : Z := 1.
Definition SBI_EXT_DBCN_CONSOLE_WRITE_BYTE : Z := 2.
Definition DBCN_MSTATUS_MPP : Z := 0x1800.
Definition DBCN_MSTATUS_MPP_SHIFT : Z := 11.

(** The hart, the console and memory, by bytes. *)
Record world := World { w_hart : hart; w_con : console; w_mem : Z -> Z }.

Section Dbcn.
Context {hw : Hw} (shl64 : Z).

(** Loads and stores of the firmware, byte by byte. *)
Fixpoint m_load (h : hart) (m : Z -> Z) (a : Z) (n : nat) : option (list Z) :=
  match n with
  | O => Some []
  | S n => if pmp_check h PRV_M a 1 AccR then l ← m_load h m (a + 1) n; Some (m a :: l) else None
  end.

Fixpoint m_store (h : hart) (m : Z -> Z) (a : Z) (s : list Z) : option (Z -> Z) :=
  match s with
  | [] => Some m
  | c :: s => if pmp_check h PRV_M a 1 AccW then m_store h (<[a := c]> m) (a + 1) s else None
  end.

(** The return code, the value where one is set, and what is left.  [fuel] bounds
    the loop of the check of the range. *)
Definition sbi_ecall_dbcn_handler (f : sbi_hart_features) (fuel : nat) (dom : option sbi_domain) (funcid a0 a1 a2 : Z) (w : world)
    : option (Z * option Z * world) :=
  '(status, h) ← csr_read CSR_MSTATUS w.(w_hart);
  let smode := Z.shiftr (Z.land status DBCN_MSTATUS_MPP) DBCN_MSTATUS_MPP_SHIFT in
  if (funcid =? SBI_EXT_DBCN_CONSOLE_WRITE) || (funcid =? SBI_EXT_DBCN_CONSOLE_READ) then
    if negb (a2 =? 0) then Some (SBI_EFAIL, None, w)
    else
      ok ← sbi_domain_check_addr_range shl64 fuel dom a1 a0 smode (Z.lor SBI_DOMAIN_READ SBI_DOMAIN_WRITE);
      if negb ok then Some (SBI_EINVAL, None, w)
      else
        '(_, h) ← sbi_hart_map_saddr f a1 a0 h;
        '(v, c, m) ← (if funcid =? SBI_EXT_DBCN_CONSOLE_WRITE then
                        str ← m_load h w.(w_mem) a1 (Z.to_nat a0);
                        '(n, c) ← sbi_nputs w.(w_con) str; Some (n, c, w.(w_mem))
                      else
                        let '(s, c) := sbi_ngets w.(w_con) (Z.to_nat a0) in
                        m ← m_store h w.(w_mem) a1 s; Some (Z.of_nat (length s), c, m));
        '(_, h) ← sbi_hart_unmap_saddr f h;
        Some (0, Some v, World h c m)
  else if funcid =? SBI_EXT_DBCN_CONSOLE_WRITE_BYTE then
    c ← sbi_putc w.(w_con) (u8 a0); Some (0, None, World h c w.(w_mem))
  else Some (SBI_ENOTSUPP, None, w).

(** ** Properties *)

(** The bytes of a range, and a range with new bytes. *)
Fixpoint bytes_at (m : Z -> Z) (a : Z) (n : nat) : list Z := match n with O => [] | S n => m a :: bytes_at m (a + 1) n end.
Fixpoint put_at (m : Z -> Z) (a : Z) (s : list Z) : Z -> Z := match s with [] => m | c :: s => put_at (<[a := c]> m) (a + 1) s end.

Lemma bytes_at_length m a n : length (bytes_at m a n) = n.
Proof. revert a. induction n as [|n IH]; intros a; [done|]. cbn. by rewrite IH. Qed.

Lemma m_load_ok h m a n : (forall x, a <= x < a + Z.of_nat n -> pmp_check h PRV_M x 1 AccR = true) -> m_load h m a n = Some (bytes_at m a n).
Proof.
  revert a. induction n as [|n IH]; intros a H; [done|]. cbn [m_load bytes_at]. rewrite H by lia. rewrite IH by (intros x Hx; apply H; lia). done.
Qed.

Lemma m_store_ok h m a s : (forall x, a <= x < a + Z.of_nat (length s) -> pmp_check h PRV_M x 1 AccW = true) -> m_store h m a s = Some (put_at m a s).
Proof.
  revert m a. induction s as [|c s IH]; intros m a H; [done|]. cbn [m_store put_at length] in *. rewrite H by lia. apply IH. intros x Hx. apply H. lia.
Qed.

Lemma ngets_length n : forall c, (length (sbi_ngets c n).1 <= n)%nat.
Proof.
  induction n as [|n IH]; intros c; [done|]. cbn [sbi_ngets]. destruct (sbi_getc c) as [ch c1]. case_match; [cbn; lia|]. specialize (IH c1).
  destruct (sbi_ngets c1 n). cbn in *. lia.
Qed.

Context (Hhw : hw_ok).

(** The mode the call came from. *)
Definition from_mode (h : hart) : Z := Z.shiftr (Z.land (csr_val h CSR_MSTATUS) DBCN_MSTATUS_MPP) DBCN_MSTATUS_MPP_SHIFT.

(** How the firmware gets at the memory of the supervisor: with Smepmp, whose
    window (entry 0) is free, rule locking bypassed and machine-mode lockdown on;
    or without Smepmp, where the protection lets machine mode read and write the
    range anyway. *)
Definition window_free (f : sbi_hart_features) (h : hart) : Prop :=
  sbi_hart_has_extension f SBI_HART_EXT_SMEPMP = true /\ f.(pmp_log2gran) = hw_grain + 2 /\
  hart_ok h /\ rlb h = true /\ mml h = true /\ off (cfg_of h 0) /\ Z.land (cfg_of h 1) PMP_A <> PMP_A_TOR /\ (0 < hw_pmps)%nat.
Definition open_to_m (f : sbi_hart_features) (h : hart) (a1 a0 : Z) : Prop :=
  sbi_hart_has_extension f SBI_HART_EXT_SMEPMP = false /\
  forall x, a1 <= x < a1 + a0 -> pmp_check h PRV_M x 1 AccR = true /\ pmp_check h PRV_M x 1 AccW = true.

Lemma saddr_access f h a1 a0 : window_free f h \/ open_to_m f h a1 a0 -> 0 <= a1 -> 1 <= a0 -> a1 + a0 <= 2 ^ (hw_addr_bits + 2) ->
  exists h1, sbi_hart_map_saddr f a1 a0 h = Some (SBI_OK, h1) /\
    (forall x, a1 <= x < a1 + a0 -> pmp_check h1 PRV_M x 1 AccR = true /\ pmp_check h1 PRV_M x 1 AccW = true) /\
    exists h2, sbi_hart_unmap_saddr f h1 = Some (SBI_OK, h2) /\ forall mode a wd acc, pmp_check h2 mode a wd acc = pmp_check h mode a wd acc.
Proof using Hhw.
  intros [(Hext & Hgran & Hh & Hrlb & Hmml & Hoff & Htor & Hpos)|[Hext Hx]] Ha1 Ha0 Hend.
  - destruct (saddr_window Hhw f h a1 a0 Hext Hgran Hh Hrlb Hmml Hoff Htor Hpos Ha1 Ha0 Hend) as (h1 & E & Hchk & _ & h2 & Eun & Hsame).
    exists h1. split; [done|]. split; [intros x H; by rewrite !Hchk by lia|]. by exists h2.
  - exists h. unfold sbi_hart_map_saddr, sbi_hart_unmap_saddr. rewrite Hext. split; [done|]. split; [done|]. by exists h.
Qed.

(** C5: The debug console calls give the supervisor exactly what its domain allows,
    for a range inside the physical address space, with or without Smepmp, and
    where the range check of the domain is exact: the regions are as
    [sanitize_domain] leaves them, none ends at the top of the address space, and
    none is all of memory unless [1UL << 64] is 0.  (With the region of all memory
    and the shift of RISC-V the check overlooks the firmware in the middle of a
    range, see [dbcn_reads_firmware].)  When a byte of the range may not be read
    and written by the caller the call is refused and nothing has changed; when
    all may, the firmware takes no access fault, the console gets the bytes of the
    range (as many as the device takes, which is the value returned) or the range
    gets the characters waiting and nothing else changes in memory, and afterwards
    every access is decided as before the call. *)
Theorem dbcn_respects_domain f dom w a0 a1 m : hw_mask CSR_MSTATUS = Some m ->
  window_free f w.(w_hart) \/ open_to_m f w.(w_hart) a1 a0 ->
  0 <= a1 -> 1 <= a0 -> a1 + a0 <= 2 ^ (hw_addr_bits + 2) ->
  bit64_ok shl64 (memregions dom) -> regions_wf (memregions dom) -> con_ok w.(w_con) ->
  let call fn := sbi_ecall_dbcn_handler f (S (Z.to_nat a0)) (Some dom) fn a0 a1 0 w in
  let mine := forall a, a1 <= a < a1 + a0 -> granted dom (from_mode w.(w_hart)) (Z.lor SBI_DOMAIN_READ SBI_DOMAIN_WRITE) a in
  (mine /\ exists h', (forall mode a wd acc, pmp_check h' mode a wd acc = pmp_check w.(w_hart) mode a wd acc) /\
     (exists n, 1 <= n <= a0 /\ call SBI_EXT_DBCN_CONSOLE_WRITE =
        Some (0, Some n, World h' (after w.(w_con) (take (Z.to_nat n) (bytes_at w.(w_mem) a1 (Z.to_nat a0)))) w.(w_mem))) /\
     (let '(s, c) := sbi_ngets w.(w_con) (Z.to_nat a0) in
      call SBI_EXT_DBCN_CONSOLE_READ = Some (0, Some (Z.of_nat (length s)), World h' c (put_at w.(w_mem) a1 s)))) \/
  (~ mine /\ call SBI_EXT_DBCN_CONSOLE_WRITE = Some (SBI_EINVAL, None, w) /\ call SBI_EXT_DBCN_CONSOLE_READ = Some (SBI_EINVAL, None, w)).
Proof using Hhw.
  intros Hm Hacc Ha1 Ha0 Hend H64 Hwf Hcon. cbv zeta. unfold sbi_ecall_dbcn_handler.
  assert (csr_read CSR_MSTATUS w.(w_hart) = Some (csr_val w.(w_hart) CSR_MSTATUS, w.(w_hart))) as -> by (unfold csr_read, hw_read; cbn -[csr_val]; by rewrite Hm).
  cbn [mbind option_bind]. fold (from_mode w.(w_hart)). set (fl := Z.lor SBI_DOMAIN_READ SBI_DOMAIN_WRITE).
  pose proof Hhw as (_ & Hg & Hab). assert (2 ^ (hw_addr_bits + 2) <= 2 ^ 56) by (apply Z.pow_le_mono_r; lia).
  destruct (range_loop shl64 dom (a1 + a0) (from_mode w.(w_hart)) fl H64 Hwf ltac:(lia) (S (Z.to_nat a0)) a1 ltac:(lia)) as (b & Eb & Hb).
  unfold sbi_domain_check_addr_range. rewrite wrap_small by (unfold in_range; lia). rewrite Eb. cbn [Z.eqb SBI_EXT_DBCN_CONSOLE_WRITE SBI_EXT_DBCN_CONSOLE_READ orb negb mbind option_bind].
  destruct b; cbn [negb]; [left|right; split; [intros H1; apply Hb in H1; done|done]]. split; [by apply Hb|].
  destruct (saddr_access f w.(w_hart) a1 a0 Hacc Ha1 Ha0 Hend) as (h1 & -> & Hchk & h2 & Eun & Hsame).
  cbn [mbind option_bind]. exists h2. split; [done|]. split.
  - rewrite m_load_ok by (intros x Hx; apply Hchk; lia). cbn [mbind option_bind]. unfold sbi_nputs.
    destruct (nputs_ok w.(w_con) (bytes_at w.(w_mem) a1 (Z.to_nat a0)) Hcon) as (n & -> & Hn); [intros E; apply (f_equal length) in E; rewrite bytes_at_length in E; cbn in E; lia|].
    rewrite bytes_at_length in Hn. cbn [mbind option_bind]. rewrite Eun. cbn [mbind option_bind]. exists n. split; [lia|done].
  - pose proof (ngets_length (Z.to_nat a0) w.(w_con)) as Hl. destruct (sbi_ngets w.(w_con) (Z.to_nat a0)) as [s c]. cbn in Hl.
    rewrite m_store_ok by (intros x Hx; apply Hchk; lia). cbn [mbind option_bind]. rewrite Eun. done.
Qed.
End Dbcn.

(** ** An example *)

(** The supervisor's buffer holds OK; the device takes one character at a time. *)
Definition demo_world : world := World mml_hart (boot_console (Some slow_dev)) (fun a => if a =? 0x80401000 then 79 else 75).

(** Two GiB for the mode the call came from (here U, the field is zero). *)
Definition demo_domain : sbi_domain := Dom [1] (Some [1]) (Some [Region 31 0x80000000 0x3f]) 0 0x80200000 PRV_S true.

Lemma dbcn_respects_domain_witness :
  exists h' n, 1 <= n <= 2 /\
    @sbi_ecall_dbcn_handler (hw16 10) 1 (features16 10 2) 3 (Some demo_domain) SBI_EXT_DBCN_CONSOLE_WRITE 2 0x80401000 0 demo_world =
    Some (0, Some n, World h' (after demo_world.(w_con) (take (Z.to_nat n) [79; 75])) demo_world.(w_mem)).
Proof.
  destruct (@dbcn_respects_domain (hw16 10) 1 (hw16_ok 10 ltac:(lia)) (features16 10 2) demo_domain demo_world 2 0x80401000 (2 ^ 64 - 1)) as [(_ & h' & _ & (n & Hn & E) & _)|(Hno & _)].
  - reflexivity.
  - left. split; [reflexivity|]. split; [reflexivity|]. split; [apply (hart16_ok 10)|]. split_and!; try reflexivity; [discriminate|cbn; lia].
  - lia.
  - lia.
  - vm_compute; discriminate.
  - right. repeat constructor.
  - repeat constructor; vm_compute; congruence.
  - exact slow_dev_ok.
  - exists h', n. split; [exact Hn|exact E].
  - destruct Hno. intros a Ha. assert (a = 0x80401000 \/ a = 0x80401001) as [->| ->] by lia; (split; [vm_compute; by eexists|vm_compute; reflexivity]).
Defined.

(** With [1UL << 64] equal to 1, as on RISC-V, and a region of all memory, a call
    on a range with the firmware in its middle is carried out: without Smepmp the
    console gets the byte of the firmware at 0x80000000. *)
Definition whole_dev : sbi_console_device := ConsoleDev true (Some (fun s => Z.of_nat (length s))).
Definition firmware_world : world := World hart16 (boot_console (Some whole_dev)) (fun a => if a =? 0x80000000 then 42 else 0).

Example dbcn_reads_firmware :
  sbi_domain_check_addr (Some fw_domain) 0x80000000 PRV_U (Z.lor SBI_DOMAIN_READ SBI_DOMAIN_WRITE) = false /\
  match @sbi_ecall_dbcn_handler (hw16 10) 1 (features16 10 3) 10 (Some fw_domain) SBI_EXT_DBCN_CONSOLE_WRITE 2 0x7fffffff 0 firmware_world with
  | Some (rc, n, w) => rc = 0 /\ n = Some 2 /\ w.(w_con).(sent) = [0; 42]
  | None => False
  end.
Proof. vm_compute. repeat split. Qed.
