(* ===== verification/Hsm.v ===== *)
(** * Hart state management of OpenSBI (sbi_hsm.c, sbi_hsm.h), 64-bit.

    Every hart runs the firmware at the same time as the others.  A function of
    the source is a program [prog]: a sequence of atomic accesses to the shared
    memory (one per load, store, compare-and-exchange or CSR access) that ends by
    returning to its caller ([Ret]) or by leaving the firmware ([Exit]).  The
    same programs are run to completion ([run]) for their sequential behaviour
    and interleaved ([step]) for the behaviour of the whole system.

    The platform's device and its IPI controller, the initialisation of the other
    subsystems on the warm boot path and the hart numbering are parameters. *)

From S2P Require Import Prelude SbiTypes Hartmask Bitops Domain.

Local Open Scope Z_scope.

(** ** State *)

Definition SBI_HSM_STATE_STARTED : Z := 0.
Definition SBI_HSM_STATE_STOPPED : Z := 1.
Definition SBI_HSM_STATE_START_PENDING : Z := 2.
Definition SBI_HSM_STATE_STOP_PENDING : Z := 3.
Definition SBI_HSM_STATE_SUSPENDED : Z := 4.
Definition SBI_HSM_STATE_RESUME_PENDING : Z := 6.

Definition SBI_HSM_SUSP_NON_RET_BIT : Z := 0x80000000.
Definition SBI_HSM_SUSPEND_RET_DEFAULT : Z := 0.
Definition SBI_HSM_SUSPEND_RET_PLATFORM : Z := 0x10000000.
Definition SBI_HSM_SUSPEND_NON_RET_DEFAULT : Z := 0x80000000.
Definition SBI_HSM_SUSPEND_NON_RET_PLATFORM : Z := 0x90000000.

Definition MIP_SSIP : Z := 0x2.
Definition MIP_MSIP : Z := 0x8.
Definition MIP_STIP : Z := 0x20.
Definition MIP_MEIP : Z := 0x800.
Definition SBI_HART_PRIV_VER_1_12 : Z := 3.

(** [struct sbi_hsm_data] of a hart, *)
Record sbi_hsm_data := HsmData {
  state : Z; suspend_type : Z; saved_mie : Z; saved_mip : Z; saved_medeleg : Z; saved_menvcfg : Z; start_ticket : Z;
}.

(** the fields of its [struct sbi_scratch] these functions use with the boot
    counters that live there, and its CSRs. *)
Record scratch := Scratch { nx_arg1 : Z; nx_addr : Z; nx_mode : Z; entry_count : Z; init_count : Z; priv_version : Z }.
Record csrs := Csrs { mie : Z; mip : Z; medeleg : Z; menvcfg : Z }.
Record hart := Hart { hd : sbi_hsm_data; sc : scratch; cs : csrs }.

(** By hart index; a hart with no scratch space is absent. *)
Abbreviation sys := (gmap Z hart).

Definition set_state v h :=
  Hart (HsmData v h.(hd).(suspend_type) h.(hd).(saved_mie) h.(hd).(saved_mip) h.(hd).(saved_medeleg)
          h.(hd).(saved_menvcfg) h.(hd).(start_ticket)) h.(sc) h.(cs).
Definition set_ticket v h :=
  Hart (HsmData h.(hd).(state) h.(hd).(suspend_type) h.(hd).(saved_mie) h.(hd).(saved_mip) h.(hd).(saved_medeleg)
          h.(hd).(saved_menvcfg) v) h.(sc) h.(cs).
Definition set_suspend_type v h :=
  Hart (HsmData h.(hd).(state) v h.(hd).(saved_mie) h.(hd).(saved_mip) h.(hd).(saved_medeleg)
          h.(hd).(saved_menvcfg) h.(hd).(start_ticket)) h.(sc) h.(cs).
Definition set_saved_mie v h :=
  Hart (HsmData h.(hd).(state) h.(hd).(suspend_type) v h.(hd).(saved_mip) h.(hd).(saved_medeleg)
          h.(hd).(saved_menvcfg) h.(hd).(start_ticket)) h.(sc) h.(cs).
Definition set_saved_mip v h :=
  Hart (HsmData h.(hd).(state) h.(hd).(suspend_type) h.(hd).(saved_mie) v h.(hd).(saved_medeleg)
          h.(hd).(saved_menvcfg) h.(hd).(start_ticket)) h.(sc) h.(cs).
Definition set_saved_medeleg v h :=
  Hart (HsmData h.(hd).(state) h.(hd).(suspend_type) h.(hd).(saved_mie) h.(hd).(saved_mip) v
          h.(hd).(saved_menvcfg) h.(hd).(start_ticket)) h.(sc) h.(cs).
Definition set_saved_menvcfg v h :=
  Hart (HsmData h.(hd).(state) h.(hd).(suspend_type) h.(hd).(saved_mie) h.(hd).(saved_mip) h.(hd).(saved_medeleg)
          v h.(hd).(start_ticket)) h.(sc) h.(cs).
Definition set_arg1 v h :=
  Hart h.(hd) (Scratch v h.(sc).(nx_addr) h.(sc).(nx_mode) h.(sc).(entry_count) h.(sc).(init_count) h.(sc).(priv_version)) h.(cs).
Definition set_addr v h :=
  Hart h.(hd) (Scratch h.(sc).(nx_arg1) v h.(sc).(nx_mode) h.(sc).(entry_count) h.(sc).(init_count) h.(sc).(priv_version)) h.(cs).
Definition set_mode v h :=
  Hart h.(hd) (Scratch h.(sc).(nx_arg1) h.(sc).(nx_addr) v h.(sc).(entry_count) h.(sc).(init_count) h.(sc).(priv_version)) h.(cs).
Definition inc_entry_count h :=
  Hart h.(hd) (Scratch h.(sc).(nx_arg1) h.(sc).(nx_addr) h.(sc).(nx_mode) (u64 (h.(sc).(entry_count) + 1)) h.(sc).(init_count) h.(sc).(priv_version)) h.(cs).
Definition inc_init_count h :=
  Hart h.(hd) (Scratch h.(sc).(nx_arg1) h.(sc).(nx_addr) h.(sc).(nx_mode) h.(sc).(entry_count) (u64 (h.(sc).(init_count) + 1)) h.(sc).(priv_version)) h.(cs).
Definition set_mie v h := Hart h.(hd) h.(sc) (Csrs v h.(cs).(mip) h.(cs).(medeleg) h.(cs).(menvcfg)).
Definition set_mip v h := Hart h.(hd) h.(sc) (Csrs h.(cs).(mie) v h.(cs).(medeleg) h.(cs).(menvcfg)).
Definition set_medeleg v h := Hart h.(hd) h.(sc) (Csrs h.(cs).(mie) h.(cs).(mip) v h.(cs).(menvcfg)).
Definition set_menvcfg v h := Hart h.(hd) h.(sc) (Csrs h.(cs).(mie) h.(cs).(mip) h.(cs).(medeleg) v).

(** ** Programs *)

(** Why a hart enters the next stage. *)
Inductive origin := FromStart | FromResume.

(** How a hart leaves the firmware other than by returning. *)
Inductive exit :=
| Switch (o : origin) (arg1 addr mode : Z)    (* sbi_hart_switch_mode *)
| WarmBoot                                    (* jump_warmboot *)
| PowerOff                                    (* a hart_stop of the device that does not return *)
| Hang.                                       (* sbi_hart_hang *)

Definition action : Type := sys -> Z * sys.

Inductive prog (A : Type) :=
| Ret (a : A)
| Exit (e : exit)
| Do (a : action) (k : Z -> prog A)
| Wait (c : sys -> bool) (k : prog A).        (* while (!c) wfi(); *)
Arguments Ret {A} _.
Arguments Exit {A} _.
Arguments Do {A} _ _.
Arguments Wait {A} _ _.

Fixpoint pbind {A B} (p : prog A) (f : A -> prog B) : prog B :=
  match p with
  | Ret a => f a
  | Exit e => Exit e
  | Do a k => Do a (fun z => pbind (k z) f)
  | Wait c k => Wait c (pbind k f)
  end.

Declare Scope hsm_scope.
Notation "'do' x <- a 'in' k" := (Do a (fun x => k)) (at level 10, x name, a at level 100, k at level 200) : hsm_scope.
Notation "'do_' a 'in' k" := (Do a (fun _ => k)) (at level 10, a at level 100, k at level 200) : hsm_scope.
Notation "'call' x <- p 'in' k" := (pbind p (fun x => k)) (at level 10, x name, p at level 100, k at level 200) : hsm_scope.
Local Open Scope hsm_scope.

(** Runs a program alone; [None] when it waits for ever. *)
Fixpoint run {A} (p : prog A) (s : sys) : option ((A + exit) * sys) :=
  match p with
  | Ret a => Some (inl a, s)
  | Exit e => Some (inr e, s)
  | Do a k => let '(z, s) := a s in run (k z) s
  | Wait c k => if c s then run k s else None
  end.

(** Atomic accesses. *)
Definition rd (f : hart -> Z) (i : Z) : action := fun s => (default 0 (f <$> s !! i), s).
Definition wr (f : hart -> hart) (i : Z) : action := fun s => (0, alter f i s).
Definition has_scratch (i : Z) : action := fun s => (Z.b2z (bool_decide (is_Some (s !! i))), s).

(** [atomic_cmpxchg] on the state and on the ticket: the old value is returned. *)
Definition cas_state (i old new : Z) : action := fun s =>
  match s !! i with
  | None => (-1, s)
  | Some h => (h.(hd).(state), if h.(hd).(state) =? old then <[i := set_state new h]> s else s)
  end.

Definition cas_ticket (i old new : Z) : action := fun s =>
  match s !! i with
  | None => (-1, s)
  | Some h => (h.(hd).(start_ticket), if h.(hd).(start_ticket) =? old then <[i := set_ticket new h]> s else s)
  end.

(** ** The functions of the source *)

(** [sbi_hsm_hart_change_state]: whether the state was [oldstate]. *)
Definition sbi_hsm_hart_change_state (i oldstate newstate : Z) : prog bool :=
  do st <- cas_state i oldstate newstate in Ret (st =? oldstate).

Definition __sbi_hsm_hart_get_state (hartindex : Z) : prog Z :=
  do e <- has_scratch hartindex in
  if e =? 0 then Ret SBI_EINVAL
  else do st <- rd (fun h => h.(hd).(state)) hartindex in Ret st.

Definition sbi_domain_is_assigned_hart (dom : option sbi_domain) (hartindex : Z) : bool :=
  match dom with
  | None => false
  | Some d => match sbi_hartmask_test_hartindex hartindex d.(assigned_harts) with
              | Some r => negb (r =? 0)
              | None => false
              end
  end.

Definition hsm_start_ticket_release (i : Z) : action := wr (set_ticket 0) i.

(** The loop of [sbi_hsm_hart_interruptible_mask] from hart index [i]. *)
Fixpoint interruptible_loop (fuel : nat) (mask : sbi_hartmask) (i : Z) : prog (option sbi_hartmask) :=
  match fuel with
  | O => Ret None
  | S fuel =>
      if i <? SBI_HARTMASK_MAX_BITS then
        call hstate <- __sbi_hsm_hart_get_state i in
        let mask' :=
          if negb (hstate =? SBI_HSM_STATE_STARTED) && negb (hstate =? SBI_HSM_STATE_SUSPENDED)
             && negb (hstate =? SBI_HSM_STATE_RESUME_PENDING)
          then sbi_hartmask_clear_hartindex i mask else Some mask in
        match mask' with
        | None => Ret None
        | Some mask =>
            match find_next_bit mask SBI_HARTMASK_MAX_BITS (i + 1) with
            | None => Ret None
            | Some n => interruptible_loop fuel mask n
            end
        end
      else Ret (Some mask)
  end.

Definition sbi_hsm_hart_interruptible_mask (dom : option sbi_domain) (mask : sbi_hartmask) : prog (option sbi_hartmask) :=
  let mask := match dom with
              | None => sbi_hartmask_clear_all mask
              | Some d => sbi_hartmask_copy mask d.(assigned_harts)
              end in
  match find_first_bit mask SBI_HARTMASK_MAX_BITS with
  | None => Ret None
  | Some i => interruptible_loop 129 mask i
  end.

Definition sbi_hsm_hart_start_finish {A} (me : Z) : prog A :=
  call ok <- sbi_hsm_hart_change_state me SBI_HSM_STATE_START_PENDING SBI_HSM_STATE_STARTED in
  if negb ok then Exit Hang
  else
    do next_arg1 <- rd (fun h => h.(sc).(nx_arg1)) me in
    do next_addr <- rd (fun h => h.(sc).(nx_addr)) me in
    do next_mode <- rd (fun h => h.(sc).(nx_mode)) me in
    do_ hsm_start_ticket_release me in
    Exit (Switch FromStart next_arg1 next_addr next_mode).

Definition sbi_hsm_hart_wait (me : Z) : prog unit :=
  do saved <- rd (fun h => h.(cs).(mie)) me in
  do_ wr (fun h => set_mie (Z.lor h.(cs).(mie) (Z.lor MIP_MSIP MIP_MEIP)) h) me in
  Wait (fun s => default 0 ((fun h => h.(hd).(state)) <$> s !! me) =? SBI_HSM_STATE_START_PENDING)
    (do_ wr (set_mie saved) me in Ret tt).

(** [struct sbi_hsm_device]; a null function pointer is [None].  [hart_stop] and
    [hart_suspend] may not return, which is [None] of their result. *)
Record sbi_hsm_device := HsmDevice {
  hart_start : option (Z -> Z -> Z);
  hart_stop : option (option Z);
  hart_suspend : option (Z -> Z -> option Z);
}.

Section Hsm.
Context (hsm_dev : option sbi_hsm_device) (warmboot_addr : Z).
Context (hartid_to_hartindex : Z -> Z) (thishart_dom : Z -> option sbi_domain).
Context (ipi_raw_send : Z -> Z).
(** What the other subsystems answer on the warm boot path of a hart. *)
Context (warm_startup_rc warm_resume_rc : Z -> Z).

Definition sbi_hsm_hart_get_state (dom : option sbi_domain) (hartid : Z) : prog Z :=
  let hartindex := hartid_to_hartindex hartid in
  if negb (sbi_domain_is_assigned_hart dom hartindex) then Ret SBI_EINVAL
  else __sbi_hsm_hart_get_state hartindex.

Definition hsm_device_has_hart_hotplug : bool :=
  match hsm_dev with Some d => bool_decide (is_Some d.(hart_start)) && bool_decide (is_Some d.(hart_stop)) | None => false end.

Definition hsm_device_has_hart_secondary_boot : bool :=
  match hsm_dev with Some d => bool_decide (is_Some d.(hart_start)) && negb (bool_decide (is_Some d.(hart_stop))) | None => false end.

Definition hsm_device_hart_start (hartid saddr : Z) : Z :=
  match hsm_dev with
  | Some d => match d.(hart_start) with Some f => f hartid saddr | None => SBI_ENOTSUPP end
  | None => SBI_ENOTSUPP
  end.

Definition hsm_device_hart_stop : option Z :=
  match hsm_dev with
  | Some d => match d.(hart_stop) with Some r => r | None => Some SBI_ENOTSUPP end
  | None => Some SBI_ENOTSUPP
  end.

Definition hsm_device_hart_suspend (suspend_type mmode_resume_addr : Z) : option Z :=
  match hsm_dev with
  | Some d => match d.(hart_suspend) with Some f => f suspend_type mmode_resume_addr | None => Some SBI_ENOTSUPP end
  | None => Some SBI_ENOTSUPP
  end.

(** [sbi_hsm_init] on the cold boot hart [me], once the scratch space of the
    data is allocated: the harts [is_] up to the last index. *)
Fixpoint hsm_init_harts (me : Z) (is_ : list Z) : prog Z :=
  match is_ with
  | [] => Ret 0
  | i :: is_ =>
      do e <- has_scratch i in
      if e =? 0 then hsm_init_harts me is_
      else
        do_ wr (set_state (if i =? me then SBI_HSM_STATE_START_PENDING else SBI_HSM_STATE_STOPPED)) i in
        do_ wr (set_ticket 0) i in
        hsm_init_harts me is_
  end.

Definition sbi_hsm_init (hart_data_offset last_hartindex me : Z) (cold_boot : bool) : prog Z :=
  if cold_boot then
    if hart_data_offset =? 0 then Ret SBI_ENOMEM
    else hsm_init_harts me (seqZ 0 (last_hartindex + 1))
  else call _ <- sbi_hsm_hart_wait me in Ret 0.

Definition sbi_hsm_exit {A} (me : Z) : prog A :=
  call ok <- sbi_hsm_hart_change_state me SBI_HSM_STATE_STOP_PENDING SBI_HSM_STATE_STOPPED in
  if negb ok then Exit Hang
  else if hsm_device_has_hart_hotplug then
    match hsm_device_hart_stop with
    | None => Exit PowerOff
    | Some r => if negb (r =? SBI_ENOTSUPP) then Exit Hang else Exit WarmBoot
    end
  else Exit WarmBoot.

(** The end of [sbi_hsm_hart_start], once the state of the target was read as
    [hstate] by the exchange. *)
Definition start_exchanged (hartid hartindex entry_count init_count hstate : Z) : prog Z :=
  if hstate =? SBI_HSM_STATE_STARTED then do_ hsm_start_ticket_release hartindex in Ret SBI_EALREADY
  else if negb (hstate =? SBI_HSM_STATE_STOPPED) then do_ hsm_start_ticket_release hartindex in Ret SBI_EINVAL
  else
    let rc := if (hsm_device_has_hart_hotplug && (entry_count =? init_count))
                 || (hsm_device_has_hart_secondary_boot && (init_count =? 0))
              then hsm_device_hart_start hartid warmboot_addr else ipi_raw_send hartindex in
    if rc =? 0 then Ret 0
    else
      do_ cas_state hartindex SBI_HSM_STATE_START_PENDING SBI_HSM_STATE_STOPPED in
      do_ hsm_start_ticket_release hartindex in
      Ret rc.

(** What follows the acquisition of the ticket. *)
Definition start_locked (hartid hartindex saddr smode arg1 : Z) : prog Z :=
  do initc <- rd (fun h => h.(sc).(init_count)) hartindex in
  do entryc <- rd (fun h => h.(sc).(entry_count)) hartindex in
  do_ wr (set_arg1 arg1) hartindex in
  do_ wr (set_addr saddr) hartindex in
  do_ wr (set_mode smode) hartindex in
  do hstate <- cas_state hartindex SBI_HSM_STATE_STOPPED SBI_HSM_STATE_START_PENDING in
  start_exchanged hartid hartindex entryc initc hstate.

Definition start_denied (dom : option sbi_domain) (hartindex saddr smode : Z) : option Z :=
  if negb (smode =? PRV_S) && negb (smode =? PRV_U) then Some SBI_EINVAL
  else match dom with
       | None => None
       | Some _ =>
           if negb (sbi_domain_is_assigned_hart dom hartindex) then Some SBI_EINVAL
           else if negb (sbi_domain_check_addr dom saddr smode SBI_DOMAIN_EXECUTE) then Some SBI_EINVALID_ADDR
           else None
       end.

Definition sbi_hsm_hart_start (dom : option sbi_domain) (hartid saddr smode arg1 : Z) : prog Z :=
  let hartindex := hartid_to_hartindex hartid in
  match start_denied dom hartindex saddr smode with
  | Some rc => Ret rc
  | None =>
      do e <- has_scratch hartindex in
      if e =? 0 then Ret SBI_EINVAL
      else
        do t <- cas_ticket hartindex 0 1 in
        if negb (t =? 0) then Ret SBI_EINVAL
        else start_locked hartid hartindex saddr smode arg1
  end.

(** [sbi_exit] reaches [sbi_hsm_exit] after the exit hooks of the other
    subsystems, which leave this state alone. *)
Definition sbi_hsm_hart_stop (me : Z) (exitnow : bool) : prog Z :=
  match thishart_dom me with
  | None => Ret SBI_EFAIL
  | Some _ =>
      call ok <- sbi_hsm_hart_change_state me SBI_HSM_STATE_STARTED SBI_HSM_STATE_STOP_PENDING in
      if negb ok then Ret SBI_EFAIL
      else if exitnow then sbi_hsm_exit me
      else Ret 0
  end.

Definition __sbi_hsm_suspend_non_ret_save (me : Z) : prog unit :=
  do v <- rd (fun h => h.(cs).(mie)) me in
  do_ wr (set_saved_mie v) me in
  do v <- rd (fun h => h.(cs).(mip)) me in
  do_ wr (set_saved_mip (Z.land v (Z.lor MIP_SSIP MIP_STIP))) me in
  do v <- rd (fun h => h.(cs).(medeleg)) me in
  do_ wr (set_saved_medeleg v) me in
  do pv <- rd (fun h => h.(sc).(priv_version)) me in
  if SBI_HART_PRIV_VER_1_12 <=? pv then
    do v <- rd (fun h => h.(cs).(menvcfg)) me in
    do_ wr (set_saved_menvcfg v) me in Ret tt
  else Ret tt.

Definition restore_rest (me : Z) : prog unit :=
  do v <- rd (fun h => h.(hd).(saved_medeleg)) me in
  do_ wr (set_medeleg v) me in
  do v <- rd (fun h => h.(hd).(saved_mie)) me in
  do_ wr (set_mie v) me in
  do v <- rd (fun h => h.(hd).(saved_mip)) me in
  do_ wr (fun h => set_mip (Z.lor h.(cs).(mip) (Z.land v (Z.lor MIP_SSIP MIP_STIP))) h) me in
  Ret tt.

Definition __sbi_hsm_suspend_non_ret_restore (me : Z) : prog unit :=
  do pv <- rd (fun h => h.(sc).(priv_version)) me in
  if SBI_HART_PRIV_VER_1_12 <=? pv then
    do v <- rd (fun h => h.(hd).(saved_menvcfg)) me in
    do_ wr (set_menvcfg v) me in
    restore_rest me
  else restore_rest me.

(** The device's resume hook has no effect on this state. *)
Definition sbi_hsm_hart_resume_start (me : Z) : prog unit :=
  call ok <- sbi_hsm_hart_change_state me SBI_HSM_STATE_SUSPENDED SBI_HSM_STATE_RESUME_PENDING in
  if negb ok then Exit Hang else Ret tt.

Definition sbi_hsm_hart_resume_finish {A} (me : Z) : prog A :=
  call ok <- sbi_hsm_hart_change_state me SBI_HSM_STATE_RESUME_PENDING SBI_HSM_STATE_STARTED in
  if negb ok then Exit Hang
  else
    call _ <- __sbi_hsm_suspend_non_ret_restore me in
    do next_arg1 <- rd (fun h => h.(sc).(nx_arg1)) me in
    do next_addr <- rd (fun h => h.(sc).(nx_addr)) me in
    do next_mode <- rd (fun h => h.(sc).(nx_mode)) me in
    Exit (Switch FromResume next_arg1 next_addr next_mode).

Definition suspend_denied (dom : option sbi_domain) (suspend_type raddr rmode : Z) : option Z :=
  match dom with
  | None => Some SBI_EFAIL
  | Some _ =>
      if (SBI_HSM_SUSPEND_RET_DEFAULT <? suspend_type) && (suspend_type <? SBI_HSM_SUSPEND_RET_PLATFORM) then Some SBI_EINVAL
      else if (SBI_HSM_SUSPEND_NON_RET_DEFAULT <? suspend_type) && (suspend_type <? SBI_HSM_SUSPEND_NON_RET_PLATFORM)
      then Some SBI_EINVAL
      else if negb (Z.land suspend_type SBI_HSM_SUSP_NON_RET_BIT =? 0) then
        if negb (rmode =? PRV_S) && negb (rmode =? PRV_U) then Some SBI_EFAIL
        else if negb (sbi_domain_check_addr dom raddr rmode SBI_DOMAIN_EXECUTE) then Some SBI_EINVALID_ADDR
        else None
      else None
  end.

(** The platform's suspend, or [wfi], which returns 0. *)
Definition suspend_platform (ty : Z) : option Z :=
  match hsm_device_hart_suspend ty warmboot_addr with
  | None => None
  | Some ret =>
      Some (if (ret =? SBI_ENOTSUPP) && ((ty =? SBI_HSM_SUSPEND_RET_DEFAULT) || (ty =? SBI_HSM_SUSPEND_NON_RET_DEFAULT))
            then 0 else ret)
  end.

(** What follows the entry into the suspended state. *)
Definition suspended (me ty : Z) : prog Z :=
  do_ wr (set_suspend_type ty) me in
  call _ <- (if negb (Z.land ty SBI_HSM_SUSP_NON_RET_BIT =? 0) then __sbi_hsm_suspend_non_ret_save me else Ret tt) in
  match suspend_platform ty with
  | None => Exit WarmBoot
  | Some ret =>
      if (ret =? 0) && negb (Z.land ty SBI_HSM_SUSP_NON_RET_BIT =? 0) then Exit WarmBoot
      else
        call ok <- sbi_hsm_hart_change_state me SBI_HSM_STATE_SUSPENDED SBI_HSM_STATE_STARTED in
        if negb ok then Exit Hang else Ret ret
  end.

Definition sbi_hsm_hart_suspend (me ty raddr rmode arg1 : Z) : prog Z :=
  match suspend_denied (thishart_dom me) ty raddr rmode with
  | Some rc => Ret rc
  | None =>
      do_ wr (set_arg1 arg1) me in
      do_ wr (set_addr raddr) me in
      do_ wr (set_mode rmode) me in
      call ok <- sbi_hsm_hart_change_state me SBI_HSM_STATE_STARTED SBI_HSM_STATE_SUSPENDED in
      if negb ok then Ret SBI_EFAIL else suspended me ty
  end.
End Hsm.
