(* ===== verification/HsmConc.v ===== *)
(** * The hart state machine under concurrency.

    The harts of [Hsm] run at the same time: a step of the system is one atomic
    access of one hart, an SBI call of a running hart, or a power-up.  An
    invariant with a ghost phase per hart (who holds its start ticket, or which
    arguments were handed to it) gives the safety theorems: the only state
    changes are those of the HSM state diagram, no hart ever hangs on an
    unexpected state, and a hart starts with the arguments of one start call. *)

From S2P Require Import Prelude SbiTypes Hartmask Bitops Domain Hsm.

Local Open Scope Z_scope.
Local Open Scope hsm_scope.

(** The calls of the HSM extension that change state. *)
Inductive ecall :=
| CStart (hartid saddr smode arg1 : Z)
| CStop
| CSuspend (ty raddr rmode arg1 : Z).

(** What a hart does: supervisor code, nothing (powered off), an endless loop, or
    the firmware. *)
Inductive control := Running | Off | Hung | In (p : prog Z).

Record conf := Conf { mem : sys; ctl : gmap Z control }.

Section Conc.
Context (hsm_dev : option sbi_hsm_device) (warmboot_addr : Z).
Context (hartid_to_hartindex hartid_of : Z -> Z) (thishart_dom : Z -> option sbi_domain).
Context (ipi_raw_send : Z -> Z) (warm_startup_rc warm_resume_rc : Z -> Z).
(** The calls the supervisors may make. *)
Context (allowed : Z -> ecall -> Prop).

(** The warm boot path of sbi_init.c, after the cold boot is done; [warm_startup_rc]
    and [warm_resume_rc] are the first error of the other subsystems, or 0. *)
Definition init_warm_startup (me : Z) : prog Z :=
  do_ wr inc_entry_count me in
  call rc <- sbi_hsm_init 1 0 me false in
  if negb (rc =? 0) then Exit Hang
  else if negb (warm_startup_rc me =? 0) then Exit Hang
  else do_ wr inc_init_count me in sbi_hsm_hart_start_finish me.

Definition init_warm_resume (me : Z) : prog Z :=
  call _ <- sbi_hsm_hart_resume_start me in
  if negb (warm_resume_rc me =? 0) then Exit Hang
  else sbi_hsm_hart_resume_finish me.

Definition init_warmboot (me : Z) : prog Z :=
  call hstate <- sbi_hsm_hart_get_state hartid_to_hartindex (thishart_dom me) (hartid_of me) in
  if hstate <? 0 then Exit Hang
  else if hstate =? SBI_HSM_STATE_SUSPENDED then init_warm_resume me
  else init_warm_startup me.

(** [sbi_ecall_hsm_handler] without the status call. *)
Definition ecall_prog (me : Z) (e : ecall) : prog Z :=
  match e with
  | CStart hartid saddr smode arg1 =>
      sbi_hsm_hart_start hsm_dev warmboot_addr hartid_to_hartindex ipi_raw_send (thishart_dom me) hartid saddr smode arg1
  | CStop => sbi_hsm_hart_stop hsm_dev thishart_dom me true
  | CSuspend ty raddr rmode arg1 => sbi_hsm_hart_suspend hsm_dev warmboot_addr thishart_dom me ty raddr rmode arg1
  end.

(** Where a hart goes at the end of a program. *)
Definition after (me : Z) (r : Z + exit) : control :=
  match r with
  | inl _ => Running
  | inr (Switch _ _ _ _) => Running
  | inr WarmBoot => In (init_warmboot me)
  | inr PowerOff => Off
  | inr Hang => Hung
  end.

(** One atomic access of hart [i]. *)
Definition advance (i : Z) (c : conf) : option conf :=
  match c.(ctl) !! i with
  | Some (In p) =>
      match p with
      | Ret r => Some (Conf c.(mem) (<[i := after i (inl r)]> c.(ctl)))
      | Exit e => Some (Conf c.(mem) (<[i := after i (inr e)]> c.(ctl)))
      | Do a k => Some (Conf (a c.(mem)).2 (<[i := In (k (a c.(mem)).1)]> c.(ctl)))
      | Wait cnd k => if cnd c.(mem) then Some (Conf c.(mem) (<[i := In k]> c.(ctl))) else None
      end
  | _ => None
  end.

Inductive step : conf -> conf -> Prop :=
| step_advance i c c' : advance i c = Some c' -> step c c'
| step_ecall i c e :
    c.(ctl) !! i = Some Running -> allowed i e ->
    step c (Conf c.(mem) (<[i := In (ecall_prog i e)]> c.(ctl)))
| step_power i c :
    c.(ctl) !! i = Some Off -> step c (Conf c.(mem) (<[i := In (init_warmboot i)]> c.(ctl))).

(** After the boot: hart [b] runs, the others wait on the warm boot path. *)
Definition initial (b : Z) (c : conf) : Prop :=
  (forall i, is_Some (c.(ctl) !! i) -> is_Some (c.(mem) !! i) /\ 0 <= i < SBI_HARTMASK_MAX_BITS) /\
  forall i h, c.(mem) !! i = Some h ->
    h.(hd).(start_ticket) = 0 /\
    h.(hd).(state) = (if i =? b then SBI_HSM_STATE_STARTED else SBI_HSM_STATE_STOPPED) /\
    c.(ctl) !! i = Some (if i =? b then Running else In (init_warmboot i)).

(** ** Ghost phases, views and the invariant *)

Definition args : Type := Z * Z * Z.
Definition next_of (h : hart) : args := (h.(sc).(nx_arg1), h.(sc).(nx_addr), h.(sc).(nx_mode)).

(** A start call for hart index [t] that was made and passed its checks. *)
Definition accepted (t : Z) (a : args) : Prop :=
  exists me hartid, allowed me (CStart hartid a.1.2 a.2 a.1.1) /\ hartid_to_hartindex hartid = t /\
    start_denied (thishart_dom me) t a.1.2 a.2 = None.

(** Hart [i] never makes the suspend call. *)
Definition no_suspend (i : Z) : Prop := forall ty raddr rmode arg1, ~ allowed i (CSuspend ty raddr rmode arg1).

(** Who has the start ticket of a hart: nobody, a caller of [sbi_hsm_hart_start],
    or the hart itself, with the arguments handed over. *)
Inductive phase := Free | Held (c : Z) | Handed (a : args).

Abbreviation st h := (h.(hd).(state)).
Abbreviation tk h := (h.(hd).(start_ticket)).

Definition hart_inv (t : Z) (h : hart) (ph : phase) : Prop :=
  match ph with
  | Free => tk h = 0 /\ st h <> SBI_HSM_STATE_START_PENDING
  | Held _ => tk h = 1 /\ st h <> SBI_HSM_STATE_START_PENDING
  | Handed a => tk h = 1 /\ (st h = SBI_HSM_STATE_START_PENDING \/ st h = SBI_HSM_STATE_STARTED) /\
                (no_suspend t -> next_of h = a /\ accepted t a)
  end.

(** What a hart knows of itself. *)
Inductive mine := Live | Stopping | Down | Pend | Starting (a : args) | Susp | Res.

Definition handed (ph : phase) : Prop := match ph with Handed _ => True | _ => False end.

Definition mine_ok (m : mine) (h : hart) (ph : phase) : Prop :=
  match m with
  | Live => st h = SBI_HSM_STATE_STARTED /\ ~ handed ph
  | Stopping => st h = SBI_HSM_STATE_STOP_PENDING
  | Down => st h = SBI_HSM_STATE_STOPPED \/ st h = SBI_HSM_STATE_START_PENDING
  | Pend => st h = SBI_HSM_STATE_START_PENDING
  | Starting a => st h = SBI_HSM_STATE_STARTED /\ ph = Handed a
  | Susp => st h = SBI_HSM_STATE_SUSPENDED
  | Res => st h = SBI_HSM_STATE_RESUME_PENDING
  end.

(** What the holder of a ticket knows of the arguments it wrote. *)
Definition known : Type := option Z * option Z * option Z.
Definition known_ok (t : Z) (k : known) (h : hart) : Prop :=
  no_suspend t ->
  (forall x, k.1.1 = Some x -> h.(sc).(nx_arg1) = x) /\ (forall x, k.1.2 = Some x -> h.(sc).(nx_addr) = x) /\
  (forall x, k.2 = Some x -> h.(sc).(nx_mode) = x).

Definition view : Type := mine * option (Z * known).

Definition view_ok (j : Z) (v : view) (s : sys) (g : Z -> phase) : Prop :=
  (exists h, s !! j = Some h /\ mine_ok v.1 h (g j)) /\
  match v.2 with
  | None => True
  | Some (t, k) => exists h, s !! t = Some h /\ g t = Held j /\ known_ok t k h
  end.

Definition Inv (s : sys) (g : Z -> phase) : Prop := forall t h, s !! t = Some h -> hart_inv t h (g t).

(** A step of hart [i] keeps what the others know. *)
Definition frame (i : Z) (s : sys) (g : Z -> phase) (s' : sys) (g' : Z -> phase) : Prop :=
  forall j v, j <> i -> view_ok j v s g -> view_ok j v s' g'.

(** The state diagram of the HSM extension. *)
Definition legal (x y : Z) : Prop :=
  x = y \/
  (x, y) ∈ [(SBI_HSM_STATE_STOPPED, SBI_HSM_STATE_START_PENDING);
            (SBI_HSM_STATE_START_PENDING, SBI_HSM_STATE_STARTED);
            (SBI_HSM_STATE_STARTED, SBI_HSM_STATE_STOP_PENDING);
            (SBI_HSM_STATE_STOP_PENDING, SBI_HSM_STATE_STOPPED);
            (SBI_HSM_STATE_STARTED, SBI_HSM_STATE_SUSPENDED);
            (SBI_HSM_STATE_SUSPENDED, SBI_HSM_STATE_RESUME_PENDING);
            (SBI_HSM_STATE_RESUME_PENDING, SBI_HSM_STATE_STARTED);
            (SBI_HSM_STATE_SUSPENDED, SBI_HSM_STATE_STARTED)].

Definition legal_step (s s' : sys) : Prop :=
  forall t h h', s !! t = Some h -> s' !! t = Some h' -> legal (st h) (st h').

Definition exit_ok (i : Z) (v : view) (e : exit) : Prop :=
  match e with
  | Switch FromStart a1 a m => v = (Live, None) /\ (no_suspend i -> accepted i (a1, a, m))
  | Switch FromResume _ _ _ => v = (Live, None)
  | WarmBoot => v = (Down, None) \/ v = (Susp, None)
  | PowerOff => v = (Down, None)
  | Hang => False
  end.

(** Hart [i] with view [v] can run [p]: every access keeps the invariant and the
    views of the others, and its exits are good. *)
Fixpoint safe {A} (i : Z) (Q : view -> A -> Prop) (v : view) (p : prog A) : Prop :=
  match p with
  | Ret a => Q v a
  | Exit e => exit_ok i v e
  | Do a k =>
      forall s g, Inv s g -> view_ok i v s g ->
        exists g' v', (Inv (a s).2 g' /\ frame i s g (a s).2 g' /\ legal_step s (a s).2) /\
                      view_ok i v' (a s).2 g' /\ safe i Q v' (k (a s).1)
  | Wait c k => forall s g, Inv s g -> view_ok i v s g -> c s = true -> exists v', view_ok i v' s g /\ safe i Q v' k
  end.

Lemma hsm_safe_bind {A B} i (Q : view -> A -> Prop) (R : view -> B -> Prop) p f :
  forall v, safe i Q v p -> (forall v a, Q v a -> safe i R v (f a)) -> safe i R v (pbind p f).
Proof.
  induction p as [a|e|a k IH|c k IH]; intros v Hp Hf; cbn [safe pbind] in *; [by apply Hf|done|..].
  - intros s g Hs Hv. destruct (Hp s g Hs Hv) as (g' & v' & H1 & H2 & H3). exists g', v'. eauto.
  - intros s g Hs Hv Hc. destruct (Hp s g Hs Hv Hc) as (v' & H2 & H3). eauto.
Qed.

(** ** Updates of one hart *)

Lemma legal_refl x : legal x x.
Proof. by left. Qed.

Lemma step_refl i s g : Inv s g -> Inv s g /\ frame i s g s g /\ legal_step s s.
Proof. intros Hs. split; [done|]. split; [by intros j v _|]. intros t h h' H1 H2. simplify_eq. apply legal_refl. Qed.

(** Hart [i] changes hart [t] from [h] in phase [g t] to [h'] in phase [ph']. *)
Lemma step_update i t s g h h' ph' :
  Inv s g -> s !! t = Some h -> hart_inv t h' ph' -> legal (st h) (st h') ->
  (t <> i -> forall m, mine_ok m h (g t) -> mine_ok m h' ph') ->
  (forall j, j <> i -> g t = Held j -> ph' = Held j /\ forall k, known_ok t k h -> known_ok t k h') ->
  Inv (<[t := h']> s) (<[t := ph']> g) /\ frame i s g (<[t := h']> s) (<[t := ph']> g) /\ legal_step s (<[t := h']> s).
Proof.
  intros Hs Ht Hi Hl Hm Hh. split; [|split].
  - intros t' k. destruct (decide (t' = t)) as [->|Hne].
    + rewrite lookup_insert_eq, fn_lookup_insert. by intros [= <-].
    + rewrite lookup_insert_ne, fn_lookup_insert_ne by done. apply Hs.
  - intros j [m hold] Hj [(h0 & H0 & Hm0) Hhold]. cbn [fst snd] in *. split; cbn [fst snd].
    + destruct (decide (j = t)) as [->|Hne].
      * simplify_eq. exists h'. rewrite lookup_insert_eq, fn_lookup_insert. split; [done|]. by apply Hm.
      * exists h0. by rewrite lookup_insert_ne, fn_lookup_insert_ne.
    + destruct hold as [[t' k]|]; [|done]. destruct Hhold as (h1 & H1 & Hg & Hk).
      destruct (decide (t' = t)) as [->|Hne].
      * simplify_eq. exists h'. rewrite lookup_insert_eq, fn_lookup_insert.
        destruct (Hh j Hj Hg) as [-> Hkk]. split_and!; [done..|by apply Hkk].
      * exists h1. by rewrite lookup_insert_ne, fn_lookup_insert_ne.
  - intros t' k k' H1 H2. destruct (decide (t' = t)) as [->|Hne].
    + rewrite lookup_insert_eq in H2. by simplify_eq.
    + rewrite lookup_insert_ne in H2 by done. simplify_eq. apply legal_refl.
Qed.

(** The view of the hart that makes the update. *)
Lemma view_update i t s g h' ph' m m' hold hold' :
  view_ok i (m, hold) s g ->
  (if decide (t = i) then mine_ok m' h' ph' else m' = m) ->
  match hold' with
  | None => True
  | Some (t', k') => if decide (t' = t) then ph' = Held i /\ known_ok t k' h' else hold = hold'
  end ->
  view_ok i (m', hold') (<[t := h']> s) (<[t := ph']> g).
Proof.
  intros [(h0 & H0 & Hm0) Hhold] Hm Hh. cbn [fst snd] in *. split; cbn [fst snd].
  - destruct (decide (t = i)) as [->|Hne].
    + exists h'. by rewrite lookup_insert_eq, fn_lookup_insert.
    + subst m'. exists h0. by rewrite lookup_insert_ne, fn_lookup_insert_ne.
  - destruct hold' as [[t' k']|]; [|done]. destruct (decide (t' = t)) as [->|Hne].
    + destruct Hh. exists h'. by rewrite lookup_insert_eq, fn_lookup_insert.
    + subst hold. destruct Hhold as (h1 & H1 & Hg & Hk). exists h1. by rewrite lookup_insert_ne, fn_lookup_insert_ne.
Qed.

(** What a hart knows of itself does not depend on who else holds its ticket. *)
Lemma mine_ok_nh m h h' ph ph' :
  st h' = st h -> ~ handed ph -> ~ handed ph' -> mine_ok m h ph -> mine_ok m h' ph'.
Proof.
  intros E H1 H2. destruct m; cbn [mine_ok]; rewrite E; try done; [by intros []|].
  intros [_ ->]. by destruct H1.
Qed.

Lemma view_mine i m hold s g h : view_ok i (m, hold) s g -> s !! i = Some h -> mine_ok m h (g i).
Proof. intros [(h0 & H0 & Hm0) _] H. by simplify_eq/=. Qed.

Lemma view_hart i v s g : view_ok i v s g -> exists h, s !! i = Some h.
Proof. intros [(h0 & H0 & _) _]. eauto. Qed.

Lemma wr_lookup f t s h : s !! t = Some h -> (wr f t s).2 = <[t := f h]> s.
Proof.
  intros H. unfold wr. cbn [snd]. apply map_eq. intros j. destruct (decide (j = t)) as [->|].
  - by rewrite lookup_alter_eq, lookup_insert_eq, H.
  - by rewrite lookup_alter_ne, lookup_insert_ne.
Qed.

Lemma wr_none f t (s : sys) : s !! t = None -> (wr f t s).2 = s.
Proof. intros H. unfold wr. cbn [snd]. apply alter_id. intros x Hx. by rewrite H in Hx. Qed.

(** ** Rules for the atomic accesses *)

Section Rules.
Context {A : Type} (i : Z) (Q : view -> A -> Prop).

Lemma safe_rd v f t k :
  (forall s g, Inv s g -> view_ok i v s g -> safe i Q v (k (default 0 (f <$> s !! t)))) -> safe i Q v (Do (rd f t) k).
Proof. intros Hk. cbn [safe]. intros s g Hs Hv. exists g, v. unfold rd. cbn [fst snd]. split; [by apply step_refl|]. eauto. Qed.

Lemma safe_rd_any v f t k : (forall z, safe i Q v (k z)) -> safe i Q v (Do (rd f t) k).
Proof. intros Hk. apply safe_rd. auto. Qed.

Lemma safe_has_scratch v t k : (forall z, safe i Q v (k z)) -> safe i Q v (Do (has_scratch t) k).
Proof. intros Hk. cbn [safe]. intros s g Hs Hv. exists g, v. unfold has_scratch. cbn [fst snd]. split; [by apply step_refl|]. eauto. Qed.

(** A write to [t] that leaves its phase alone. *)
Lemma safe_wr_same v m' hold' f t k :
  (forall s g h, Inv s g -> view_ok i v s g -> s !! t = Some h ->
     hart_inv t (f h) (g t) /\ st (f h) = st h /\
     (forall j, j <> i -> g t = Held j -> forall kn, known_ok t kn h -> known_ok t kn (f h)) /\
     view_ok i (m', hold') (<[t := f h]> s) (<[t := g t]> g)) ->
  (forall s g, view_ok i v s g -> s !! t = None -> v = (m', hold')) ->
  safe i Q (m', hold') (k 0) -> safe i Q v (Do (wr f t) k).
Proof.
  intros Hok Hnone Hk. cbn [safe]. intros s g Hs Hv. destruct (s !! t) as [h|] eqn:Ht.
  - destruct (Hok s g h Hs Hv Ht) as (H1 & H2 & H3 & H4).
    exists (<[t := g t]> g), (m', hold'). rewrite (wr_lookup f t s h Ht). split_and!; [..|done|exact Hk];
      apply (step_update i t s g h (f h) (g t) Hs Ht H1).
    all: try (rewrite H2; apply legal_refl).
    all: try (intros j Hj Hg; split; [done|by apply (H3 j)]).
    all: intros _ m Hm; destruct m; cbn [mine_ok] in *; rewrite H2; done.
  - exists g, v. rewrite (wr_none f t s Ht). split; [by apply step_refl|]. split; [done|].
    by rewrite (Hnone s g Hv Ht).
Qed.

(** A write to fields the protocol does not look at. *)
Lemma safe_wr_other v f t k :
  (forall h, st (f h) = st h /\ tk (f h) = tk h /\ next_of (f h) = next_of h) ->
  safe i Q v (k 0) -> safe i Q v (Do (wr f t) k).
Proof.
  intros Hf Hk. destruct v as [m hold].
  assert (forall kn h, known_ok t kn h -> known_ok t kn (f h)) as Hkn.
  { intros kn h Hkn Hns. destruct (Hf h) as (_ & _ & E). unfold next_of in E. injection E as E1 E2 E3.
    rewrite E1, E2, E3. by apply Hkn. }
  apply (safe_wr_same _ m hold); [|done|done]. intros s g h Hs Hv Ht. destruct (Hf h) as (E1 & E2 & E3).
  split_and!; [|done|by intros; apply Hkn|].
  - pose proof (Hs t h Ht) as Hi. unfold hart_inv in *. by rewrite E1, E2, E3.
  - apply (view_update i t s g (f h) (g t) m m hold hold Hv).
    + destruct (decide (t = i)) as [->|]; [|done]. pose proof (view_mine _ _ _ _ _ _ Hv Ht) as Hm.
      destruct m; cbn [mine_ok] in *; by rewrite E1.
    + destruct hold as [[t' kn]|]; [|done]. destruct (decide (t' = t)) as [->|]; [|done].
      destruct Hv as [_ (h1 & H1 & Hg & Hk1)]. simplify_eq/=. auto.
Qed.

(** The holder of a ticket writes an argument of the next stage. *)
Lemma safe_wr_arg m t kn kn' f k :
  (forall h, st (f h) = st h /\ tk (f h) = tk h) ->
  (forall h, known_ok t kn h -> known_ok t kn' (f h)) ->
  safe i Q (m, Some (t, kn')) (k 0) -> safe i Q (m, Some (t, kn)) (Do (wr f t) k).
Proof.
  intros Hf Hkn Hk. apply (safe_wr_same _ m (Some (t, kn'))).
  - intros s g h Hs Hv Ht. destruct (Hf h) as (E1 & E2). pose proof Hv as [_ (h1 & H1 & Hg & Hk1)]. simplify_eq/=.
    pose proof (Hs t h Ht) as Hi. rewrite Hg in Hi. split_and!; [|done|intros j Hj Hg'; congruence|].
    + rewrite Hg. unfold hart_inv in *. by rewrite E1, E2.
    + apply (view_update i t s g (f h) (g t) m m (Some (t, kn)) (Some (t, kn')) Hv).
      * destruct (decide (t = i)) as [->|]; [|done]. pose proof (view_mine _ _ _ _ _ _ Hv Ht) as Hm.
        destruct m; cbn [mine_ok] in *; by rewrite E1.
      * rewrite decide_True by done. auto.
  - intros s g [_ (h & Hh & _)] Hn. by rewrite Hn in Hh.
  - done.
Qed.

(** A running hart writes its own, to suspend. *)
Lemma safe_wr_own f k :
  ~ no_suspend i -> (forall h, st (f h) = st h /\ tk (f h) = tk h) ->
  safe i Q (Live, None) (k 0) -> safe i Q (Live, None) (Do (wr f i) k).
Proof.
  intros Hns Hf Hk. apply (safe_wr_same _ Live None); [|done|done].
  intros s g h Hs Hv Ht. destruct (Hf h) as (E1 & E2). pose proof (Hs i h Ht) as Hi.
  pose proof (view_mine _ _ _ _ _ _ Hv Ht) as [Hst Hph]. split_and!; [|done|by intros j _ _ kn _ H|].
  - unfold hart_inv in *. destruct (g i); [by rewrite E1, E2..|by destruct Hph].
  - apply (view_update i i s g (f h) (g i) Live Live None None Hv); [|done].
    rewrite decide_True by done. by rewrite <- E1 in Hst.
Qed.

Lemma cas_ticket_lookup t old new s h :
  s !! t = Some h -> cas_ticket t old new s = (tk h, if tk h =? old then <[t := set_ticket new h]> s else s).
Proof. intros H. unfold cas_ticket. by rewrite H. Qed.

Lemma cas_state_lookup t old new s h :
  s !! t = Some h -> cas_state t old new s = (st h, if st h =? old then <[t := set_state new h]> s else s).
Proof. intros H. unfold cas_state. by rewrite H. Qed.

(** [hsm_start_ticket_acquire] *)
Lemma safe_acquire m t k :
  safe i Q (m, Some (t, (None, None, None))) (k 0) -> (forall z, z <> 0 -> safe i Q (m, None) (k z)) ->
  safe i Q (m, None) (Do (cas_ticket t 0 1) k).
Proof.
  intros Hk Hn. cbn [safe]. intros s g Hs Hv. destruct (s !! t) as [h|] eqn:Ht; cycle 1.
  { unfold cas_ticket. rewrite Ht. exists g, (m, None). cbn [fst snd]. split; [by apply step_refl|split; [done|by apply Hn]]. }
  rewrite (cas_ticket_lookup t 0 1 s h Ht). cbn [fst snd]. destruct (Z.eqb_spec (tk h) 0) as [E|E]; cycle 1.
  { exists g, (m, None). split; [by apply step_refl|split; [done|by apply Hn]]. }
  rewrite E. pose proof (Hs t h Ht) as Hi.
  assert (g t = Free /\ st h <> SBI_HSM_STATE_START_PENDING) as [Hg Hst]
    by (unfold hart_inv in Hi; destruct (g t), Hi as [Hi ?]; [done|exfalso; lia..]).
  exists (<[t := Held i]> g), (m, Some (t, (None, None, None))). split; [|split; [|done]].
  - apply (step_update i t s g h); [done..|apply legal_refl| |].
    + intros _ m'. rewrite Hg. apply mine_ok_nh; [done|by intros []..].
    + rewrite Hg. done.
  - apply (view_update i t s g _ _ m m None _ Hv); [|rewrite decide_True by done; by split].
    destruct (decide (t = i)) as [->|]; [|done]. pose proof (view_mine _ _ _ _ _ _ Hv Ht) as Hm.
    rewrite Hg in Hm. revert Hm. apply mine_ok_nh; [done|by intros []..].
Qed.

(** Release by the caller that holds the ticket. *)
Lemma safe_release m t kn k :
  safe i Q (m, None) (k 0) -> safe i Q (m, Some (t, kn)) (Do (hsm_start_ticket_release t) k).
Proof.
  intros Hk. cbn [safe]. intros s g Hs Hv. pose proof Hv as [_ (h & Ht & Hg & _)]. cbn [fst snd] in *.
  unfold hsm_start_ticket_release. rewrite (wr_lookup _ t s h Ht). pose proof (Hs t h Ht) as Hi. rewrite Hg in Hi.
  exists (<[t := Free]> g), (m, None). split; [|split; [|done]].
  - apply (step_update i t s g h); [done..|by destruct Hi|apply legal_refl| |].
    + intros _ m'. rewrite Hg. apply mine_ok_nh; [done|by intros []..].
    + intros j Hj Hg'. congruence.
  - apply (view_update i t s g _ _ m m _ None Hv); [|done].
    destruct (decide (t = i)) as [->|]; [|done]. pose proof (view_mine _ _ _ _ _ _ Hv Ht) as Hm.
    rewrite Hg in Hm. revert Hm. apply mine_ok_nh; [done|by intros []..].
Qed.

(** Release by the hart that starts. *)
Lemma safe_release_start a k :
  safe i Q (Live, None) (k 0) -> safe i Q (Starting a, None) (Do (hsm_start_ticket_release i) k).
Proof.
  intros Hk. cbn [safe]. intros s g Hs Hv. destruct (view_hart _ _ _ _ Hv) as [h Ht].
  pose proof (view_mine _ _ _ _ _ _ Hv Ht) as [Hst Hg].
  unfold hsm_start_ticket_release. rewrite (wr_lookup _ i s h Ht).
  exists (<[i := Free]> g), (Live, None). split; [|split; [|done]].
  - apply (step_update i i s g h); [done..| |apply legal_refl|done|intros j Hj Hg'; congruence].
    split; [done|]. cbn. by rewrite Hst.
  - apply (view_update i i s g _ _ (Starting a) Live None None Hv); [|done].
    rewrite decide_True by done. split; [done|]. by intros [].
Qed.

(** A hart changes its own state; what it becomes may depend on its phase. *)
Lemma safe_cas_own m (m' : phase -> mine) (P : phase -> Prop) hold old new k :
  legal old new ->
  (forall h ph, hart_inv i h ph -> mine_ok m h ph ->
     st h = old /\ hart_inv i (set_state new h) ph /\ mine_ok (m' ph) (set_state new h) ph /\ P ph) ->
  (forall ph, P ph -> safe i Q (m' ph, hold) (k old)) ->
  safe i Q (m, hold) (Do (cas_state i old new) k).
Proof.
  intros Hl Hm Hk. cbn [safe]. intros s g Hs Hv. destruct (view_hart _ _ _ _ Hv) as [h Ht].
  pose proof (view_mine _ _ _ _ _ _ Hv Ht) as Hmi. destruct (Hm h (g i) (Hs i h Ht) Hmi) as (E & H1 & H2 & H3).
  rewrite (cas_state_lookup i old new s h Ht). cbn [fst snd]. rewrite E, Z.eqb_refl.
  exists (<[i := g i]> g), (m' (g i), hold). split; [|split; [|by apply Hk]].
  - apply (step_update i i s g h); [done..|by rewrite E|done|by intros j Hj Hg'].
  - apply (view_update i i s g _ _ m _ hold hold Hv); [by rewrite decide_True|].
    destruct hold as [[t' kn]|]; [|done]. destruct (decide (t' = i)) as [->|]; [|done].
    destruct Hv as [_ (h1 & Hh1 & Hg & Hkn)]. by simplify_eq/=.
Qed.

(** The exchange that hands the hart over. *)
Lemma safe_handover t a1 a md k :
  accepted t (a1, a, md) ->
  safe i Q (Live, None) (k SBI_HSM_STATE_STOPPED) ->
  (forall z, z <> SBI_HSM_STATE_STOPPED -> safe i Q (Live, Some (t, (Some a1, Some a, Some md))) (k z)) ->
  safe i Q (Live, Some (t, (Some a1, Some a, Some md)))
       (Do (cas_state t SBI_HSM_STATE_STOPPED SBI_HSM_STATE_START_PENDING) k).
Proof.
  intros Hacc Hk Hn. cbn [safe]. intros s g Hs Hv. pose proof Hv as [_ (h & Ht & Hg & Hkn)]. cbn [fst snd] in *.
  rewrite (cas_state_lookup t _ _ s h Ht). cbn [fst snd].
  destruct (Z.eqb_spec (st h) SBI_HSM_STATE_STOPPED) as [E|E]; cycle 1.
  { exists g, (Live, Some (t, (Some a1, Some a, Some md))). split; [by apply step_refl|split; [done|by apply Hn]]. }
  pose proof (Hs t h Ht) as Hi. rewrite Hg in Hi. rewrite E.
  assert (t <> i) as Hti.
  { intros ->. pose proof (view_mine _ _ _ _ _ _ Hv Ht) as [Hst _]. by rewrite E in Hst. }
  exists (<[t := Handed (a1, a, md)]> g), (Live, None). split; [|split; [|done]].
  - apply (step_update i t s g h); [done..| |rewrite E; by right; constructor| |intros j Hj Hg'; congruence].
    + split; [by destruct Hi|]. split; [by left|]. intros Hns. split; [|done].
      destruct (Hkn Hns) as (K1 & K2 & K3). unfold next_of. cbn [set_state sc].
      by rewrite (K1 _ eq_refl), (K2 _ eq_refl), (K3 _ eq_refl).
    + intros _ m'. destruct m'; cbn [mine_ok set_state hd state]; rewrite E; try done; intros; try by destruct_and?.
      by right.
  - apply (view_update i t s g _ _ Live Live _ None Hv); [by rewrite decide_False|done].
Qed.
End Rules.

(** ** The functions are safe *)

(** The platform starts the harts it is asked to start, and its [hart_stop] does
    not return unless it has no support for stopping. *)
Hypothesis ipi_sent : forall t, ipi_raw_send t = 0.
Hypothesis device_starts : forall d f, hsm_dev = Some d -> d.(hart_start) = Some f -> forall h a, f h a = 0.
Hypothesis device_stops : forall d r, hsm_dev = Some d -> d.(hart_stop) = Some (Some r) -> r = SBI_ENOTSUPP.
(** The other subsystems come up on the warm boot path. *)
Hypothesis warm_startup_ok : forall i, warm_startup_rc i = 0.
Hypothesis warm_resume_ok : forall i, warm_resume_rc i = 0.
(** Every hart is assigned to its domain, and the numbering is consistent. *)
Hypothesis dom_assigned : forall i, 0 <= i < SBI_HARTMASK_MAX_BITS -> sbi_domain_is_assigned_hart (thishart_dom i) i = true.
Hypothesis hart_numbering : forall i, hartid_to_hartindex (hartid_of i) = i.

Definition running {A} (v : view) (_ : A) : Prop := v = (Live, None).

Lemma start_rc_zero hartid hartindex ec ic :
  (if (hsm_device_has_hart_hotplug hsm_dev && (ec =? ic)) || (hsm_device_has_hart_secondary_boot hsm_dev && (ic =? 0))
   then hsm_device_hart_start hsm_dev hartid warmboot_addr else ipi_raw_send hartindex) = 0.
Proof.
  unfold hsm_device_has_hart_hotplug, hsm_device_has_hart_secondary_boot, hsm_device_hart_start.
  destruct hsm_dev as [d|] eqn:Ed; [|apply ipi_sent]. destruct (hart_start d) as [f|] eqn:Ef; cbn; [|apply ipi_sent].
  case_match; [by eapply device_starts|apply ipi_sent].
Qed.

Lemma safe_start i dom hartid saddr smode arg1 :
  dom = thishart_dom i -> allowed i (CStart hartid saddr smode arg1) ->
  safe i running (Live, None)
    (sbi_hsm_hart_start hsm_dev warmboot_addr hartid_to_hartindex ipi_raw_send dom hartid saddr smode arg1).
Proof.
  intros Hd Ha. unfold sbi_hsm_hart_start. destruct (start_denied _ _ _ _) as [rc|] eqn:Ed; [done|].
  apply safe_has_scratch. intros e. destruct (e =? 0); [done|].
  apply safe_acquire; [|by intros z Hz; destruct (Z.eqb_spec z 0)].
  cbn [Z.eqb negb]. unfold start_locked. apply safe_rd_any. intros ic. apply safe_rd_any. intros ec.
  apply (safe_wr_arg _ _ _ _ _ (Some arg1, None, None)); [done|by intros h _ Hns; split_and!; cbn; intros; simplify_eq|].
  apply (safe_wr_arg _ _ _ _ _ (Some arg1, Some saddr, None));
    [done|by intros h Hk Hns; destruct (Hk Hns) as (K1 & _ & _); split_and!; cbn; intros; simplify_eq; try apply K1|].
  apply (safe_wr_arg _ _ _ _ _ (Some arg1, Some saddr, Some smode));
    [done|by intros h Hk Hns; destruct (Hk Hns) as (K1 & K2 & _); split_and!; cbn; intros; simplify_eq; try apply K1; try apply K2|].
  apply safe_handover.
  - exists i, hartid. cbn [fst snd]. subst dom. by split_and!.
  - unfold start_exchanged. cbn [Z.eqb Pos.eqb negb SBI_HSM_STATE_STOPPED SBI_HSM_STATE_STARTED].
    cbv zeta. by rewrite start_rc_zero.
  - intros z Hz. unfold start_exchanged. destruct (z =? SBI_HSM_STATE_STARTED); [by apply safe_release|].
    destruct (Z.eqb_spec z SBI_HSM_STATE_STOPPED); [done|]. by apply safe_release.
Qed.

(** A change of its own state by a hart whose ticket was not handed to it. *)
Lemma safe_change {A} i (Q : view -> A -> Prop) m m' hold old new k :
  legal old new -> new <> SBI_HSM_STATE_START_PENDING ->
  (forall h ph, hart_inv i h ph -> mine_ok m h ph -> st h = old /\ ~ handed ph) ->
  (forall h ph, st h = new -> ~ handed ph -> mine_ok m' h ph) ->
  safe i Q (m', hold) (k true) ->
  safe i Q (m, hold) (pbind (sbi_hsm_hart_change_state i old new) k).
Proof.
  intros Hl Hnew Hm Hm' Hk. unfold sbi_hsm_hart_change_state. cbn [pbind].
  apply (safe_cas_own _ _ _ (fun _ => m') (fun _ => True)); [done| |by rewrite Z.eqb_refl].
  intros h ph Hi Hmi. destruct (Hm h ph Hi Hmi) as [E Hph]. split_and!; [done| |by apply Hm'|done].
  destruct ph; [by destruct Hi..|by destruct Hph].
Qed.

(** A hart in a state that no start leads to was not handed its ticket. *)
Lemma not_handed i h ph :
  hart_inv i h ph -> st h <> SBI_HSM_STATE_START_PENDING -> st h <> SBI_HSM_STATE_STARTED -> ~ handed ph.
Proof. destruct ph; [by intros _ _ _ []..|]. intros (_ & [H|H] & _) H1 H2 _; congruence. Qed.

Ltac change_state m' :=
  apply (safe_change _ _ _ m');
  [right; set_solver|done|intros h ph Hi Hm; cbn [mine_ok] in Hm; first [exact Hm|by split; [|eapply not_handed; [done|by rewrite Hm..]]]
  |by intros h ph E ?; cbn [mine_ok]; rewrite E; auto|cbn [negb]].

Lemma safe_exit {A} i (Q : view -> A -> Prop) : safe i Q (Stopping, None) (sbi_hsm_exit hsm_dev i).
Proof.
  unfold sbi_hsm_exit. change_state Down.
  unfold hsm_device_has_hart_hotplug, hsm_device_hart_stop.
  destruct hsm_dev as [d|] eqn:Ed; [|by left]. destruct (hart_stop d) as [[r|]|] eqn:Es; case_match; try by left.
  - rewrite (device_stops d r) by done. by left.
  - done.
Qed.

Lemma safe_stop i : safe i running (Live, None) (sbi_hsm_hart_stop hsm_dev thishart_dom i true).
Proof. unfold sbi_hsm_hart_stop. destruct (thishart_dom i); [|done]. change_state Stopping. apply safe_exit. Qed.

Ltac skip_csrs := repeat first [apply safe_rd_any; intros ?|apply safe_wr_other; [done|]].

Lemma safe_save i (v : view) : safe i (fun v' _ => v' = v) v (__sbi_hsm_suspend_non_ret_save i).
Proof. unfold __sbi_hsm_suspend_non_ret_save. skip_csrs. case_match; skip_csrs; done. Qed.

Lemma safe_restore i (v : view) : safe i (fun v' _ => v' = v) v (__sbi_hsm_suspend_non_ret_restore i).
Proof. unfold __sbi_hsm_suspend_non_ret_restore, restore_rest. skip_csrs. case_match; skip_csrs; done. Qed.

Lemma safe_suspended i ty : safe i running (Susp, None) (suspended hsm_dev warmboot_addr i ty).
Proof.
  unfold suspended. apply safe_wr_other; [done|].
  apply (hsm_safe_bind i (fun v' _ => v' = (Susp, None))); [case_match; [apply safe_save|done]|].
  intros v _ ->. destruct (suspend_platform _ _ ty) as [ret|]; [|by right].
  case_match; [by right|]. by change_state Live.
Qed.

Lemma safe_suspend i ty raddr rmode arg1 : ~ no_suspend i ->
  safe i running (Live, None) (sbi_hsm_hart_suspend hsm_dev warmboot_addr thishart_dom i ty raddr rmode arg1).
Proof.
  intros Hns. unfold sbi_hsm_hart_suspend. destruct (suspend_denied _ _ _ _); [done|].
  do 3 (apply safe_wr_own; [done|done|]). change_state Susp. apply safe_suspended.
Qed.

Lemma safe_resume i : safe i running (Susp, None) (init_warm_resume i).
Proof.
  unfold init_warm_resume, sbi_hsm_hart_resume_start. apply (hsm_safe_bind i (fun v' _ => v' = (Res, None))).
  { by change_state Res. }
  intros v _ ->. rewrite warm_resume_ok. cbn [Z.eqb negb]. unfold sbi_hsm_hart_resume_finish. change_state Live.
  apply (hsm_safe_bind i (fun v' _ => v' = (Live, None))); [apply safe_restore|]. intros v _ ->. by skip_csrs.
Qed.

Lemma safe_start_finish {A} i (Q : view -> A -> Prop) : safe i Q (Pend, None) (sbi_hsm_hart_start_finish i).
Proof.
  unfold sbi_hsm_hart_start_finish, sbi_hsm_hart_change_state. cbn [pbind].
  apply (safe_cas_own _ _ _ (fun ph => match ph with Handed a => Starting a | _ => Live end) handed).
  - right. set_solver.
  - intros h ph Hi Hm. cbn [mine_ok] in Hm. destruct ph as [| |a]; [by destruct Hi..|].
    destruct Hi as (H1 & _ & H3). split_and!; [done| |done|done]. split_and!; [done|by right|done].
  - intros [| |a]; [by intros []..|]. intros _. rewrite Z.eqb_refl. cbn [negb].
    assert (forall f x, (forall h, next_of h = a -> f h = x) -> forall s g, Inv s g -> view_ok i (Starting a, None) s g ->
              no_suspend i -> default 0 (f <$> s !! i) = x /\ accepted i a) as Hread.
    { intros f x Hf s g Hs Hv Hns. destruct (view_hart _ _ _ _ Hv) as [h Hh].
      pose proof (view_mine _ _ _ _ _ _ Hv Hh) as [_ Hg]. pose proof (Hs i h Hh) as Hi. rewrite Hg in Hi.
      destruct Hi as (_ & _ & Hn). destruct (Hn Hns) as [Hx Hacc]. rewrite Hh. cbn. by rewrite (Hf h Hx). }
    destruct a as [[a1 a2] a3].
    apply safe_rd. intros s1 g1 Hs1 Hv1. pose proof (Hread (fun h => nx_arg1 (sc h)) a1 ltac:(by intros h [=]) s1 g1 Hs1 Hv1) as E1.
    apply safe_rd. intros s2 g2 Hs2 Hv2. pose proof (Hread (fun h => nx_addr (sc h)) a2 ltac:(by intros h [=]) s2 g2 Hs2 Hv2) as E2.
    apply safe_rd. intros s3 g3 Hs3 Hv3. pose proof (Hread (fun h => nx_mode (sc h)) a3 ltac:(by intros h [=]) s3 g3 Hs3 Hv3) as E3.
    apply safe_release_start. split; [done|]. intros Hns.
    destruct (E1 Hns) as [-> ?], (E2 Hns) as [-> ?], (E3 Hns) as [-> ?]. done.
Qed.

Lemma safe_warm_startup i : safe i running (Down, None) (init_warm_startup i).
Proof.
  unfold init_warm_startup, sbi_hsm_init, sbi_hsm_hart_wait. skip_csrs. cbn [pbind]. skip_csrs.
  intros s g Hs Hv Hc. exists (Pend, None). split.
  - destruct (view_hart _ _ _ _ Hv) as [h Hh]. split; [|done]. exists h. split; [done|]. rewrite Hh in Hc.
    by apply Z.eqb_eq in Hc.
  - apply safe_wr_other; [done|]. cbn [Z.eqb negb]. rewrite warm_startup_ok. cbn [Z.eqb negb].
    apply safe_wr_other; [done|]. apply safe_start_finish.
Qed.

Lemma safe_warmboot i m : 0 <= i < SBI_HARTMASK_MAX_BITS -> m = Down \/ m = Susp -> safe i running (m, None) (init_warmboot i).
Proof.
  intros Hb Hm. unfold init_warmboot, sbi_hsm_hart_get_state. rewrite hart_numbering, dom_assigned by done. cbn [negb].
  unfold __sbi_hsm_hart_get_state. cbn [pbind safe]. intros s g Hs Hv.
  destruct (view_hart _ _ _ _ Hv) as [h Hh]. unfold has_scratch. cbn [fst snd].
  rewrite bool_decide_eq_true_2 by (by rewrite Hh). exists g, (m, None). split; [by apply step_refl|]. split; [done|].
  cbn [Z.b2z Z.eqb]. apply safe_rd. clear s g Hs Hv h Hh. intros s g Hs Hv.
  destruct (view_hart _ _ _ _ Hv) as [h Hh]. pose proof (view_mine _ _ _ _ _ _ Hv Hh) as Hmi. rewrite Hh. cbn [fmap option_fmap option_map default].
  destruct Hm as [-> | ->]; cbn [mine_ok] in Hmi.
  - destruct Hmi as [-> | ->]; cbn; apply safe_warm_startup.
  - rewrite Hmi. cbn. apply safe_resume.
Qed.

(** ** The whole system *)

Definition ctl_ok (i : Z) (ct : control) (s : sys) (g : Z -> phase) : Prop :=
  match ct with
  | Running => view_ok i (Live, None) s g
  | Off => view_ok i (Down, None) s g
  | Hung => False
  | In p => exists v, view_ok i v s g /\ safe i running v p
  end.

Record conf_inv (c : conf) (g : Z -> phase) : Prop := ConfInv {
  ci_mem : Inv c.(mem) g;
  ci_ctl : forall i ct, c.(ctl) !! i = Some ct -> 0 <= i < SBI_HARTMASK_MAX_BITS /\ ctl_ok i ct c.(mem) g;
}.

Lemma ctl_ok_frame i j ct s g s' g' : j <> i -> frame i s g s' g' -> ctl_ok j ct s g -> ctl_ok j ct s' g'.
Proof. intros Hj Hf. destruct ct; cbn [ctl_ok]; [by apply Hf..|done|]. intros (v & Hv & Hp). exists v. split; [by apply Hf|done]. Qed.

(** Hart [i] moves to control [ct]. *)
Lemma conf_inv_update c g s' g' i ct :
  conf_inv c g -> Inv s' g' -> frame i c.(mem) g s' g' -> is_Some (c.(ctl) !! i) -> ctl_ok i ct s' g' ->
  conf_inv (Conf s' (<[i := ct]> c.(ctl))) g'.
Proof.
  intros [Hm Hc] Hs Hf [ct0 Hi] Hok. split; [done|]. cbn [mem ctl]. intros j ctj.
  destruct (decide (j = i)) as [->|Hne].
  - rewrite lookup_insert_eq. intros [= <-]. split; [by eapply Hc|done].
  - rewrite lookup_insert_ne by done. intros Hj. destruct (Hc j ctj Hj) as [Hb Hokj].
    split; [done|]. by eapply ctl_ok_frame.
Qed.

Lemma after_ok i r v s g :
  0 <= i < SBI_HARTMASK_MAX_BITS -> view_ok i v s g ->
  match r with inl z => @running Z v z | inr e => exit_ok i v e end -> ctl_ok i (after i r) s g.
Proof.
  intros Hb Hv Hr. destruct r as [z|[[] a1 a m| | |]]; cbn [after ctl_ok exit_ok] in *; [by rewrite Hr in Hv|by destruct Hr; subst|by subst| |by subst|done].
  exists v. split; [done|]. destruct Hr; subst; apply safe_warmboot; auto.
Qed.

Lemma step_inv c c' g : conf_inv c g -> step c c' -> legal_step c.(mem) c'.(mem) /\ exists g', conf_inv c' g'.
Proof.
  intros Hinv Hst. pose proof Hinv as [Hm Hc].
  assert (forall i ct, is_Some (c.(ctl) !! i) -> ctl_ok i ct c.(mem) g ->
            legal_step c.(mem) c.(mem) /\ exists g', conf_inv (Conf c.(mem) (<[i := ct]> c.(ctl))) g') as Hstay.
  { intros i ct Hi Hok. destruct (step_refl i _ _ Hm) as (H1 & H2 & H3). split; [done|]. exists g. by eapply conf_inv_update. }
  inversion Hst as [i ? ? Hadv|i ? e Hi Ha|i ? Hi]; subst; cbn [mem].
  - unfold advance in Hadv. destruct (ctl c !! i) as [[| | |p]|] eqn:Hi; [done..| |done].
    destruct (Hc i _ Hi) as [Hb (v & Hv & Hp)]. assert (is_Some (ctl c !! i)) as His by by rewrite Hi.
    destruct p as [r|e|a k|cnd k]; cbn [safe] in Hp.
    + injection Hadv as <-. apply Hstay; [done|]. by apply (after_ok i (inl r) v).
    + injection Hadv as <-. apply Hstay; [done|]. by apply (after_ok i (inr e) v).
    + injection Hadv as <-. destruct (Hp _ _ Hm Hv) as (g' & v' & (H1 & H2 & H3) & H4 & H5). split; [done|].
      exists g'. apply (conf_inv_update c g); [done..|]. by exists v'.
    + destruct (cnd (mem c)) eqn:Ec; [|done]. injection Hadv as <-.
      destruct (Hp _ _ Hm Hv Ec) as (v' & H4 & H5). apply Hstay; [done|]. by exists v'.
  - apply Hstay; [by rewrite Hi|]. exists (Live, None). destruct (Hc i _ Hi) as [_ Hv]. split; [exact Hv|].
    destruct e as [hartid saddr smode arg1| |ty raddr rmode arg1]; cbn [ecall_prog].
    + by apply safe_start.
    + apply safe_stop.
    + apply safe_suspend. intros Hns. by apply (Hns ty raddr rmode arg1).
  - apply Hstay; [by rewrite Hi|]. exists (Down, None). destruct (Hc i _ Hi) as [Hb Hv]. split; [exact Hv|].
    apply safe_warmboot; auto.
Qed.

Lemma initial_inv b c : initial b c -> conf_inv c (fun _ => Free).
Proof.
  intros [Hd Hi]. split.
  - intros t h Ht. destruct (Hi t h Ht) as (H1 & H2 & _). split; [done|]. rewrite H2. by case_match.
  - intros i ct Hct. destruct (Hd i) as [[h Hh] Hb]; [by rewrite Hct|]. split; [done|].
    destruct (Hi i h Hh) as (H1 & H2 & H3). rewrite H3 in Hct. injection Hct as <-. destruct (i =? b).
    + split; [|done]. exists h. split; [done|]. split; [done|]. by intros [].
    + exists (Down, None). split; [|by apply safe_warmboot; auto]. split; [|done]. exists h. split; [done|]. by left.
Qed.

Lemma reachable_inv b c0 c : initial b c0 -> steps step c0 c -> exists g, conf_inv c g.
Proof.
  intros Hi. apply (steps_invariant step (fun c => exists g, conf_inv c g)); [|by eexists; eapply initial_inv].
  intros s t [g Hg] Hst. by destruct (step_inv s t g Hg Hst).
Qed.

(** Every step of the system moves every hart along the state diagram of the
    HSM extension or leaves its state alone. *)
Theorem hsm_legal_transitions b c0 c c' :
  initial b c0 -> steps step c0 c -> step c c' -> legal_step c.(mem) c'.(mem).
Proof.
  intros Hi Hs Hst. destruct (reachable_inv b c0 c Hi Hs) as [g Hg]. by destruct (step_inv c c' g Hg Hst).
Qed.

End Conc.

(** ** Runs *)

(** Hart [i] of the list makes its next access, one after the other. *)
Fixpoint sched (adv : Z -> conf -> option conf) (l : list Z) (c : conf) : option conf :=
  match l with
  | [] => Some c
  | i :: l => match adv i c with Some c => sched adv l c | None => None end
  end.

Lemma sched_steps dev wa toidx idof dom ipi su re al l : forall c c',
  sched (advance toidx idof dom su re) l c = Some c' -> steps (step dev wa toidx idof dom ipi su re al) c c'.
Proof.
  induction l as [|i l IH]; cbn [sched]; intros c c' E; [simplify_eq; constructor|].
  destruct (advance _ _ _ _ _ i c) as [c1|] eqn:E1; [|done].
  eapply steps_cons; [by eapply step_advance|by apply IH].
Qed.

(** A platform with two harts in one domain that may use all of memory. *)
Definition demo_dom (_ : Z) : option sbi_domain :=
  Some (Dom [ones64; ones64] (Some [3; 0]) (Some [Region 64 0 0x3f]) 0 0x80200000 PRV_S true).

Lemma demo_assigned i : 0 <= i < SBI_HARTMASK_MAX_BITS -> sbi_domain_is_assigned_hart (demo_dom i) i = true.
Proof.
  intros Hi. assert (forallb (fun i => sbi_domain_is_assigned_hart (demo_dom i) i) (seqZ 0 128) = true) as H
    by (vm_compute; reflexivity).
  rewrite forallb_Forall, Forall_forall in H. apply H, elem_of_seqZ. exact Hi.
Qed.

Definition demo_hart (st : Z) : hart := Hart (HsmData st 0 0 0 0 0 0) (Scratch 0 0 0 0 0 3) (Csrs 0 0 0 0).

Definition demo_conf : conf :=
  Conf (<[0 := demo_hart SBI_HSM_STATE_STARTED]> {[1 := demo_hart SBI_HSM_STATE_STOPPED]})
       (<[0 := Running]> {[1 := In (init_warmboot id id demo_dom (fun _ => 0) (fun _ => 0) 1)]}).

Definition demo_step := step None 0x80000000 id id demo_dom (fun _ => 0) (fun _ => 0) (fun _ => 0).

Lemma demo_initial : initial id id demo_dom (fun _ => 0) (fun _ => 0) 0 demo_conf.
Proof.
  split.
  - intros i. unfold demo_conf. cbn [ctl mem]. rewrite !lookup_insert_is_Some', !lookup_singleton_is_Some.
    unfold SBI_HARTMASK_MAX_BITS. intros H. split; [done|]. lia.
  - intros i h. unfold demo_conf. cbn [ctl mem]. rewrite !lookup_insert, !lookup_singleton.
    repeat case_decide; subst; try done; by intros [= <-].
Defined.

(** Hart 0 starts hart 1: the accesses of hart 0 interleave with those of hart 1, which
    reaches its wait loop and then goes through the start path. *)
Definition demo_calls (me : Z) (e : ecall) : Prop := me = 0 /\ e = CStart 1 0x80400000 PRV_S 7.
Definition demo_sched : list Z := [0; 0; 1; 1; 0; 0; 1; 1; 0; 0; 0; 1; 0; 1; 1; 1; 1; 1; 1; 1; 1; 0].

Definition demo_called : conf :=
  Conf demo_conf.(mem)
    (<[0 := In (ecall_prog None 0x80000000 id demo_dom (fun _ => 0) 0 (CStart 1 0x80400000 PRV_S 7))]> demo_conf.(ctl)).

Definition demo_end : conf :=
  default demo_called (sched (advance id id demo_dom (fun _ => 0) (fun _ => 0)) demo_sched demo_called).

Lemma demo_run : steps (demo_step demo_calls) demo_conf demo_end.
Proof.
  apply (steps_cons _ _ demo_called); [by apply step_ecall|]. apply sched_steps with (l := demo_sched).
  vm_compute. reflexivity.
Qed.



Lemma hsm_legal_transitions_witness : legal_step demo_conf.(mem) demo_called.(mem).
Proof.
  refine (hsm_legal_transitions None 0x80000000 id id demo_dom (fun _ => 0) (fun _ => 0) (fun _ => 0) demo_calls
    _ _ _ _ _ demo_assigned _ 0 demo_conf demo_conf demo_called demo_initial (steps_nil _ _) _);
    first [reflexivity|discriminate|by apply step_ecall].
Defined.

(** ** Sequential behaviour *)

Section Run.
Context {A : Type} (t : Z) (h : hart) (s : sys).

Lemma run_rd (k : Z -> prog A) f : run (Do (rd f t) k) (<[t := h]> s) = run (k (f h)) (<[t := h]> s).
Proof. cbn [run]. unfold rd. by rewrite lookup_insert_eq. Qed.

Lemma run_wr (k : Z -> prog A) f : run (Do (wr f t) k) (<[t := h]> s) = run (k 0) (<[t := f h]> s).
Proof.
  cbn [run]. pose proof (wr_lookup f t (<[t := h]> s) h (lookup_insert_eq _ _ _)) as E.
  rewrite insert_insert_eq in E. unfold wr in *. cbn [snd] in E. by rewrite E.
Qed.

Lemma run_has_scratch (k : Z -> prog A) : run (Do (has_scratch t) k) (<[t := h]> s) = run (k 1) (<[t := h]> s).
Proof. cbn [run]. unfold has_scratch. rewrite bool_decide_eq_true_2 by (by rewrite lookup_insert_eq). done. Qed.

Lemma run_cas_state (k : Z -> prog A) old new :
  run (Do (cas_state t old new) k) (<[t := h]> s) =
  run (k (h.(hd).(state))) (<[t := if h.(hd).(state) =? old then set_state new h else h]> s).
Proof. cbn [run]. unfold cas_state. rewrite lookup_insert_eq. case_match; [by rewrite insert_insert_eq|done]. Qed.

Lemma run_cas_ticket (k : Z -> prog A) old new :
  run (Do (cas_ticket t old new) k) (<[t := h]> s) =
  run (k (h.(hd).(start_ticket))) (<[t := if h.(hd).(start_ticket) =? old then set_ticket new h else h]> s).
Proof. cbn [run]. unfold cas_ticket. rewrite lookup_insert_eq. case_match; [by rewrite insert_insert_eq|done]. Qed.
End Run.

Create Rewrite HintDb run.
#[export] Hint Rewrite @run_rd @run_wr @run_has_scratch @run_cas_state @run_cas_ticket : run.

(** The start of a hart, or the wake-up of one that waits. *)
Definition start_rc (dev : option sbi_hsm_device) (wa : Z) (ipi : Z -> Z) (hartid t : Z) (h : hart) : Z :=
  if (hsm_device_has_hart_hotplug dev && (h.(sc).(entry_count) =? h.(sc).(init_count)))
     || (hsm_device_has_hart_secondary_boot dev && (h.(sc).(init_count) =? 0))
  then hsm_device_hart_start dev hartid wa else ipi t.

Definition with_next (arg1 saddr smode : Z) (h : hart) : hart := set_mode smode (set_addr saddr (set_arg1 arg1 h)).

(** What a start call does to its target [h], alone. *)
Definition start_effect (rc arg1 saddr smode : Z) (h : hart) : Z * hart :=
  if negb (h.(hd).(start_ticket) =? 0) then (SBI_EINVAL, h)
  else if h.(hd).(state) =? SBI_HSM_STATE_STARTED then (SBI_EALREADY, with_next arg1 saddr smode h)
  else if negb (h.(hd).(state) =? SBI_HSM_STATE_STOPPED) then (SBI_EINVAL, with_next arg1 saddr smode h)
  else if rc =? 0 then (0, with_next arg1 saddr smode (set_state SBI_HSM_STATE_START_PENDING (set_ticket 1 h)))
  else (rc, with_next arg1 saddr smode h).


(** The CSRs of hart [i] on its way back from a suspended state. *)
Definition power_cycled (i : Z) (c : csrs) (s : sys) : sys := alter (fun h => Hart h.(hd) h.(sc) c) i s.

Definition saved (h : hart) : hart :=
  Hart (HsmData h.(hd).(state) h.(hd).(suspend_type) h.(cs).(mie) (Z.land h.(cs).(mip) (Z.lor MIP_SSIP MIP_STIP)) h.(cs).(medeleg)
          (if SBI_HART_PRIV_VER_1_12 <=? h.(sc).(priv_version) then h.(cs).(menvcfg) else h.(hd).(saved_menvcfg))
          h.(hd).(start_ticket)) h.(sc) h.(cs).

Definition restored (h : hart) : hart :=
  Hart h.(hd) h.(sc)
       (Csrs h.(hd).(saved_mie) (Z.lor h.(cs).(mip) (Z.land h.(hd).(saved_mip) (Z.lor MIP_SSIP MIP_STIP))) h.(hd).(saved_medeleg)
          (if SBI_HART_PRIV_VER_1_12 <=? h.(sc).(priv_version) then h.(hd).(saved_menvcfg) else h.(cs).(menvcfg))).

Lemma run_save {A} me h s (k : unit -> prog A) :
  run (pbind (__sbi_hsm_suspend_non_ret_save me) k) (<[me := h]> s) = run (k tt) (<[me := saved h]> s).
Proof.
  unfold __sbi_hsm_suspend_non_ret_save. cbn [pbind]. autorewrite with run.
  unfold saved. destruct h as [? [n1 n2 n3 ec ic pv] ?]. cbn. by destruct (SBI_HART_PRIV_VER_1_12 <=? pv); cbn [pbind]; autorewrite with run.
Qed.

Lemma run_restore {A} me h s (k : unit -> prog A) :
  run (pbind (__sbi_hsm_suspend_non_ret_restore me) k) (<[me := h]> s) = run (k tt) (<[me := restored h]> s).
Proof.
  unfold __sbi_hsm_suspend_non_ret_restore, restore_rest. cbn [pbind]. autorewrite with run.
  unfold restored. destruct h as [? [n1 n2 n3 ec ic pv] ?]. cbn. by destruct (SBI_HART_PRIV_VER_1_12 <=? pv); cbn [pbind]; autorewrite with run.
Qed.

Lemma run_assoc {A B C} (p : prog A) (f : A -> prog B) (g : B -> prog C) : forall s,
  run (pbind (pbind p f) g) s = run (pbind p (fun x => pbind (f x) g)) s.
Proof.
  induction p as [a|e|a k IH|cnd k IH]; intros s; cbn [pbind run]; [done..| |].
  - destruct (a s). apply IH.
  - case_match; [apply IH|done].
Qed.

Lemma run_change_state {A} me h s old new (k : bool -> prog A) :
  h.(hd).(state) = old ->
  run (pbind (sbi_hsm_hart_change_state me old new) k) (<[me := h]> s) = run (k true) (<[me := set_state new h]> s).
Proof. intros E. unfold sbi_hsm_hart_change_state. cbn [pbind]. by rewrite run_cas_state, E, Z.eqb_refl. Qed.

Lemma alter_insert_cycled me c h (s : sys) : power_cycled me c (<[me := h]> s) = <[me := Hart h.(hd) h.(sc) c]> s.
Proof.
  unfold power_cycled. apply map_eq. intros j. destruct (decide (j = me)) as [->|]; [by rewrite lookup_alter_eq, !lookup_insert_eq|by rewrite lookup_alter_ne, !lookup_insert_ne].
Qed.

(** A suspended hart on the warm boot path. *)
Lemma warmboot_resumes toidx idof dom su re me h s :
  h.(hd).(state) = SBI_HSM_STATE_SUSPENDED -> toidx (idof me) = me -> sbi_domain_is_assigned_hart (dom me) me = true -> re me = 0 ->
  run (init_warmboot toidx idof dom su re me) (<[me := h]> s) =
    Some (inr (Switch FromResume h.(sc).(nx_arg1) h.(sc).(nx_addr) h.(sc).(nx_mode)),
          <[me := restored (set_state SBI_HSM_STATE_STARTED (set_state SBI_HSM_STATE_RESUME_PENDING h))]> s).
Proof.
  intros Hst Hid Has Hre. unfold init_warmboot, sbi_hsm_hart_get_state. rewrite Hid, Has. cbn [negb]. unfold __sbi_hsm_hart_get_state. cbn [pbind].
  rewrite run_has_scratch. cbn [Z.eqb pbind]. rewrite run_rd. unfold init_warm_resume, sbi_hsm_hart_resume_start. rewrite Hst.
  cbn [Z.ltb Z.compare Z.eqb Pos.eqb SBI_HSM_STATE_SUSPENDED]. rewrite run_assoc, run_change_state by done. cbn [negb pbind]. rewrite Hre. cbn [Z.eqb negb].
  unfold sbi_hsm_hart_resume_finish. rewrite run_change_state by done. cbn [negb]. rewrite run_restore. autorewrite with run. done.
Qed.

(** Non-retentive suspend and resume.  A running hart whose default
    non-retentive suspend passes its checks leaves for the warm boot path, and
    whatever its interrupt and delegation CSRs are when it comes back, it enters
    the supervisor with the address, mode and argument it asked for, in the state
    [STARTED], with its interrupt enables, its exception delegation and (from
    privileged version 1.12) its environment configuration restored and its
    pending supervisor software and timer interrupts set again. *)
Theorem suspend_resume_roundtrip wa toidx idof dom su re me raddr rmode arg1 h s c :
  let ty := SBI_HSM_SUSPEND_NON_RET_DEFAULT in
  s !! me = Some h -> h.(hd).(state) = SBI_HSM_STATE_STARTED -> suspend_denied (dom me) ty raddr rmode = None ->
  toidx (idof me) = me -> sbi_domain_is_assigned_hart (dom me) me = true -> re me = 0 ->
  exists s1 h2,
    run (sbi_hsm_hart_suspend None wa dom me ty raddr rmode arg1) s = Some (inr WarmBoot, s1) /\
    run (init_warmboot toidx idof dom su re me) (power_cycled me c s1) =
      Some (inr (Switch FromResume arg1 raddr rmode), <[me := h2]> s) /\
    h2.(hd).(state) = SBI_HSM_STATE_STARTED /\ h2.(hd).(start_ticket) = h.(hd).(start_ticket) /\
    h2.(cs).(mie) = h.(cs).(mie) /\ h2.(cs).(medeleg) = h.(cs).(medeleg) /\
    h2.(cs).(menvcfg) = (if SBI_HART_PRIV_VER_1_12 <=? h.(sc).(priv_version) then h.(cs).(menvcfg) else c.(menvcfg)) /\
    h2.(cs).(mip) = Z.lor c.(mip) (Z.land h.(cs).(mip) (Z.lor MIP_SSIP MIP_STIP)).
Proof.
  cbv zeta. intros Hh Hst Hd Hid Has Hre.
  set (h1 := saved (set_suspend_type SBI_HSM_SUSPEND_NON_RET_DEFAULT (set_state SBI_HSM_STATE_SUSPENDED (with_next arg1 raddr rmode h)))).
  exists (<[me := h1]> s), (restored (set_state SBI_HSM_STATE_STARTED (set_state SBI_HSM_STATE_RESUME_PENDING (Hart h1.(hd) h1.(sc) c)))).
  rewrite alter_insert_cycled. split; [|split].
  - unfold sbi_hsm_hart_suspend. rewrite Hd. rewrite <- (insert_id s me _ Hh) at 1. autorewrite with run.
    rewrite run_change_state by done. cbn [negb]. unfold suspended. rewrite run_wr.
    change (negb (Z.land SBI_HSM_SUSPEND_NON_RET_DEFAULT SBI_HSM_SUSP_NON_RET_BIT =? 0)) with true. cbv match. by rewrite run_save.
  - by rewrite warmboot_resumes.
  - unfold restored, h1, saved. cbn. split_and!; try done; [by case_match|].
    by rewrite <- Z.land_assoc, Z.land_diag.
Qed.

Lemma suspend_resume_roundtrip_witness :
  exists s1 h2,
    run (sbi_hsm_hart_suspend None 0x80000000 demo_dom 0 SBI_HSM_SUSPEND_NON_RET_DEFAULT 0x80400000 PRV_S 5) demo_conf.(mem)
      = Some (inr WarmBoot, s1) /\
    run (init_warmboot id id demo_dom (fun _ => 0) (fun _ => 0) 0) (power_cycled 0 (Csrs 1 2 3 4) s1) =
      Some (inr (Switch FromResume 5 0x80400000 PRV_S), <[0 := h2]> demo_conf.(mem)) /\ h2.(cs).(mie) = 0.
Proof.
  destruct (suspend_resume_roundtrip 0x80000000 id id demo_dom (fun _ => 0) (fun _ => 0) 0 0x80400000 PRV_S 5
    (demo_hart SBI_HSM_STATE_STARTED) demo_conf.(mem) (Csrs 1 2 3 4)) as (s1 & h2 & H1 & H2 & _ & _ & H3 & _);
    [reflexivity|reflexivity|reflexivity|reflexivity|vm_compute; reflexivity|reflexivity|].
  exists s1, h2. split; [exact H1|]. split; [exact H2|exact H3].
Defined.

(** A start call for a suspended hart fails, but it has already replaced the
    address the hart will resume at. *)
Example start_overwrites_resume_address :
  let suspend := sbi_hsm_hart_suspend None 0x80000000 demo_dom 1 SBI_HSM_SUSPEND_NON_RET_DEFAULT 0x80400000 PRV_S 5 in
  let start := sbi_hsm_hart_start None 0x80000000 id (fun _ => 0) (demo_dom 0) 1 0x80600000 PRV_S 9 in
  let resume := init_warmboot id id demo_dom (fun _ => 0) (fun _ => 0) 1 in
  let s0 := {[1 := demo_hart SBI_HSM_STATE_STARTED]} in
  exists s1 s2 s3,
    run suspend s0 = Some (inr WarmBoot, s1) /\ run start s1 = Some (inl SBI_EINVAL, s2) /\
    run resume s2 = Some (inr (Switch FromResume 9 0x80600000 PRV_S), s3).
Proof. do 3 eexists. split; [vm_compute; reflexivity|]. split; [vm_compute; reflexivity|]. vm_compute. reflexivity. Qed.

(** A hart that suspends and then stops while another one prepares its start
    replaces the arguments of the start call, here with an address no check saw. *)
Example suspend_replaces_start_arguments :
  let adv := advance id id demo_dom (fun _ => 0) (fun _ => 0) in
  let c0 := Conf (<[0 := demo_hart SBI_HSM_STATE_STARTED]> {[1 := demo_hart SBI_HSM_STATE_STARTED]})
      (<[0 := In (sbi_hsm_hart_start None 0x80000000 id (fun _ => 0) (demo_dom 0) 1 0x80400000 PRV_S 7)]>
       {[1 := In (pbind (sbi_hsm_hart_suspend None 0x80000000 demo_dom 1 SBI_HSM_SUSPEND_RET_DEFAULT 0xdead PRV_S 0)
                    (fun _ => sbi_hsm_hart_stop None demo_dom 1 true))]}) in
  exists c, sched adv (replicate 7 0 ++ replicate 14 1 ++ [0] ++ replicate 8 1) c0 = Some c /\
            c.(ctl) !! 1 = Some (In (Exit (Switch FromStart 0 0xdead PRV_S))).
Proof. eexists. split; [vm_compute; reflexivity|]. vm_compute. reflexivity. Qed.

(** ** The harts that can be interrupted *)

Definition interruptible (s : sys) (j : Z) : bool :=
  match s !! j with
  | None => false
  | Some h => (h.(hd).(state) =? SBI_HSM_STATE_STARTED) || (h.(hd).(state) =? SBI_HSM_STATE_SUSPENDED)
              || (h.(hd).(state) =? SBI_HSM_STATE_RESUME_PENDING)
  end.

Lemma run_get_state {A} i s (k : Z -> prog A) :
  run (pbind (__sbi_hsm_hart_get_state i) k) s =
  run (k (match s !! i with Some h => h.(hd).(state) | None => SBI_EINVAL end)) s.
Proof.
  unfold __sbi_hsm_hart_get_state. cbn [pbind run]. unfold has_scratch. destruct (s !! i) as [h|] eqn:E.
  - rewrite bool_decide_eq_true_2 by done. cbn [Z.b2z Z.eqb pbind run]. unfold rd. by rewrite E.
  - rewrite bool_decide_eq_false_2 by (by intros []). done.
Qed.

Lemma interruptible_loop_spec s fuel : forall m i,
  mask_wf m -> 0 <= i <= 128 -> (Z.to_nat (128 - i) < fuel)%nat ->
  exists m', run (interruptible_loop fuel m i) s = Some (inl (Some m'), s) /\ mask_wf m' /\
    forall j, 0 <= j < 128 -> hart_in j m' = if j <? i then hart_in j m else hart_in j m && interruptible s j.
Proof.
  induction fuel as [|fuel IH]; intros m i Hm Hi Hf; [lia|]. cbn [interruptible_loop].
  unfold SBI_HARTMASK_MAX_BITS. destruct (Z.ltb_spec i 128) as [Hlt|]; cycle 1.
  { exists m. split; [done|]. split; [done|]. intros j Hj. destruct (Z.ltb_spec j i); [done|lia]. }
  rewrite run_get_state. set (hs := match s !! i with Some h => state (hd h) | None => SBI_EINVAL end).
  assert (negb (hs =? SBI_HSM_STATE_STARTED) && negb (hs =? SBI_HSM_STATE_SUSPENDED) && negb (hs =? SBI_HSM_STATE_RESUME_PENDING)
          = negb (interruptible s i)) as ->
    by (unfold interruptible, hs; destruct (s !! i); [by rewrite !negb_orb|done]).
  assert (exists m1, (if negb (interruptible s i) then sbi_hartmask_clear_hartindex i m else Some m) = Some m1 /\ mask_wf m1 /\
            forall j, 0 <= j < 128 -> hart_in j m1 = if j =? i then hart_in j m && interruptible s j else hart_in j m)
    as (m1 & -> & Hm1 & Hj1).
  { destruct (interruptible s i) eqn:Ei; cbn [negb].
    - exists m. split; [done|]. split; [done|]. intros j Hj. destruct (Z.eqb_spec j i) as [->|]; [by rewrite Ei, andb_true_r|done].
    - destruct (clear_hartindex_spec m i Hm ltac:(lia)) as (m1 & E & H1 & H2). exists m1. split; [done|]. split; [done|].
      intros j Hj. rewrite H2 by done. destruct (Z.eqb_spec j i) as [->|]; [by rewrite Ei, andb_false_r|done]. }
  destruct (find_next_bit_spec m1 128 (i + 1)) as (n & -> & Hn); [apply Hm1|lia|rewrite (mw_len m1 Hm1); lia|].
  assert (i + 1 <= n <= 128 /\ forall j, i + 1 <= j < n -> hart_in j m1 = false) as [Hnr Hgap].
  { destruct (Z.leb_spec 128 (i + 1)); [split; [lia|intros; lia]|]. destruct Hn as (H1 & H2 & _). split; [done|].
    intros j Hj. unfold hart_in. rewrite H2 by done. apply andb_false_r. }
  destruct (IH m1 n Hm1 ltac:(lia) ltac:(lia)) as (m' & E & Hm' & Hj'). exists m'. split; [exact E|]. split; [done|].
  intros j Hj. rewrite Hj', Hj1 by done. destruct (Z.ltb_spec j n), (Z.ltb_spec j i), (Z.eqb_spec j i); try lia; try done.
  pose proof (Hgap j ltac:(lia)) as Hz. rewrite Hj1 in Hz by done.
  destruct (Z.eqb_spec j i); [lia|]. by rewrite Hz.
Qed.

(** [sbi_hsm_hart_interruptible_mask] computes exactly the harts assigned to
    the domain that are started, suspended or resuming, although it clears bits
    of the mask it iterates over. *)
Theorem interruptible_mask_exact d mask s :
  mask_wf d.(assigned_harts) -> mask_wf mask ->
  exists m', run (sbi_hsm_hart_interruptible_mask (Some d) mask) s = Some (inl (Some m'), s) /\ mask_wf m' /\
    forall j, 0 <= j < 128 -> hart_in j m' = hart_in j d.(assigned_harts) && interruptible s j.
Proof.
  intros Hd Hm. unfold sbi_hsm_hart_interruptible_mask.
  assert (sbi_hartmask_copy mask (assigned_harts d) = assigned_harts d) as ->.
  { destruct (two_words _ Hd) as (v0 & v1 & -> & _). by destruct (two_words _ Hm) as (w0 & w1 & -> & _). }
  set (a := assigned_harts d) in *. unfold find_first_bit, SBI_HARTMASK_MAX_BITS.
  destruct (first_bit_from_spec a 0 128) as (r & -> & Hr & Hlow & _); [apply Hd|rewrite (mw_len a Hd); lia|].
  destruct (interruptible_loop_spec s 129 a (0 + r) Hd ltac:(lia) ltac:(lia)) as (m' & E & Hm' & Hj).
  exists m'. split; [exact E|]. split; [done|]. intros j Hj0. rewrite Hj by done.
  destruct (Z.ltb_spec j (0 + r)); [|done]. unfold hart_in. rewrite Hlow by lia. by rewrite andb_false_r.
Qed.

Lemma interruptible_mask_exact_witness :
  exists m', run (sbi_hsm_hart_interruptible_mask (demo_dom 0) [0; 0]) demo_conf.(mem) = Some (inl (Some m'), demo_conf.(mem)) /\
             hart_in 0 m' = true /\ hart_in 1 m' = false.
Proof.
  destruct (interruptible_mask_exact (Dom [ones64; ones64] (Some [3; 0]) (Some [Region 64 0 0x3f]) 0 0x80200000 PRV_S true)
              [0; 0] demo_conf.(mem)) as (m' & E & _ & Hj).
  - split; [reflexivity|]. repeat constructor; unfold ones64, in_range; lia.
  - split; [reflexivity|]. repeat constructor; unfold in_range; lia.
  - exists m'. split; [exact E|]. rewrite !Hj by lia. split; vm_compute; reflexivity.
Defined.
