(* ===== verification/System.v ===== *)
(** * System reset and suspend (lib/sbi/sbi_system.c, sbi_ecall_srst.c, sbi_ecall_susp.c)

    The calls run over the hart states of file Hsm.  A device is given by its
    functions; one that does not return is [None].  [reset_allowed] and
    [suspend_allowed] are fields of the domain of the hart [me], [prev_mode] is the
    previous mode in its mstatus.  Sending the halt interrupts leaves the hart
    states alone. *)

From S2P Require Import Prelude SbiTypes Bitops Hartmask Domain Hsm HsmConc.

Local Open Scope Z_scope.
Local Open Scope hsm_scope.

Definition SBI_EXT_SRST_RESET : Z := 0.
Definition SBI_SRST_RESET_TYPE_SHUTDOWN : Z := 0.
Definition SBI_SRST_RESET_TYPE_COLD_REBOOT : Z := 1.
Definition SBI_SRST_RESET_TYPE_WARM_REBOOT : Z := 2.
Definition SBI_SRST_RESET_TYPE_LAST : Z := SBI_SRST_RESET_TYPE_WARM_REBOOT.
Definition SBI_SRST_RESET_REASON_NONE : Z := 0.
Definition SBI_SRST_RESET_REASON_SYSFAIL : Z := 1.
Definition SBI_EXT_SUSP_SUSPEND : Z := 0.
Definition SBI_SUSP_SLEEP_TYPE_SUSPEND : Z := 0.
Definition SBI_SUSP_SLEEP_TYPE_LAST : Z := SBI_SUSP_SLEEP_TYPE_SUSPEND.

(** ** Reset *)

(** [system_reset] says whether the function returns. *)
Record sbi_system_reset_device := ResetDevice { system_reset_check : option (Z -> Z -> Z); system_reset : Z -> Z -> bool }.

Definition reset_candidate (reset_type reset_reason : Z) (best : option sbi_system_reset_device * Z) (dev : sbi_system_reset_device) : option sbi_system_reset_device * Z :=
  match dev.(system_reset_check) with
  | None => best
  | Some check =>
      let status := check reset_type reset_reason in
      if status =? 0 then best else if best.2 <? status then (Some dev, status) else best
  end.

Definition sbi_system_reset_get_device (devs : list sbi_system_reset_device) (reset_type reset_reason : Z) : option sbi_system_reset_device :=
  (fold_left (reset_candidate reset_type reset_reason) devs (None, 0)).1.

Definition sbi_system_reset_add_device (dev : option sbi_system_reset_device) (devs : list sbi_system_reset_device) : list sbi_system_reset_device :=
  match dev with
  | Some d => match d.(system_reset_check) with Some _ => d :: devs | None => devs end
  | None => devs
  end.

Definition sbi_system_reset_supported (devs : list sbi_system_reset_device) (reset_type reset_reason : Z) : bool :=
  match sbi_system_reset_get_device devs reset_type reset_reason with Some _ => true | None => false end.

(** ** Suspend *)

Record sbi_system_suspend_device := SuspendDevice { system_suspend_check : option (Z -> Z); system_suspend : option (Z -> Z -> option Z) }.

Definition sbi_system_suspend_set_device (dev suspend_dev : option sbi_system_suspend_device) : option sbi_system_suspend_device :=
  match dev, suspend_dev with Some d, None => Some d | _, _ => suspend_dev end.

Definition sbi_system_suspend_test_check (sleep_type : Z) : Z := if sleep_type =? SBI_SUSP_SLEEP_TYPE_SUSPEND then 0 else SBI_EINVAL.

(** It waits for five seconds and for an interrupt. *)
Definition sbi_system_suspend_test_suspend (sleep_type mmode_resume_addr : Z) : option Z :=
  if negb (sleep_type =? SBI_SUSP_SLEEP_TYPE_SUSPEND) then Some SBI_EINVAL else Some SBI_OK.

Definition sbi_system_suspend_test : sbi_system_suspend_device :=
  SuspendDevice (Some sbi_system_suspend_test_check) (Some sbi_system_suspend_test_suspend).

Definition sbi_system_suspend_test_enable (suspend_dev : option sbi_system_suspend_device) : option sbi_system_suspend_device :=
  sbi_system_suspend_set_device (Some sbi_system_suspend_test) suspend_dev.

Definition sbi_system_suspend_supported (suspend_dev : option sbi_system_suspend_device) (sleep_type : Z) : bool :=
  match suspend_dev with
  | Some d => match d.(system_suspend_check) with Some check => check sleep_type =? 0 | None => false end
  | None => false
  end.

Section System.
Context (hsm_dev : option sbi_hsm_device) (warmboot_addr : Z) (thishart_dom : Z -> option sbi_domain).
Context (reset_allowed suspend_allowed : bool) (prev_mode : Z) (me : Z).

Definition sbi_system_reset (devs : list sbi_system_reset_device) (reset_type reset_reason : Z) : prog Z :=
  call _ <- sbi_hsm_hart_stop hsm_dev thishart_dom me false in
  match (if reset_allowed then sbi_system_reset_get_device devs reset_type reset_reason else None) with
  | Some dev => if dev.(system_reset) reset_type reset_reason then sbi_hsm_exit hsm_dev me else Exit PowerOff
  | None => sbi_hsm_exit hsm_dev me
  end.

(** The loop over the assigned harts: whether all others are stopped. *)
Fixpoint others_stopped (is_ : list Z) : prog bool :=
  match is_ with
  | [] => Ret true
  | i :: is_ =>
      if i =? me then others_stopped is_
      else call st <- __sbi_hsm_hart_get_state i in if negb (st =? SBI_HSM_STATE_STOPPED) then Ret false else others_stopped is_
  end.

(** What follows the checks. *)
Definition suspend_system (suspend : Z -> Z -> option Z) (sleep_type resume_addr opaque : Z) : prog Z :=
  call ok <- sbi_hsm_hart_change_state me SBI_HSM_STATE_STARTED SBI_HSM_STATE_SUSPENDED in
  if negb ok then Ret SBI_EFAIL
  else
    do_ wr (set_mode prev_mode) me in
    do_ wr (set_addr resume_addr) me in
    do_ wr (set_arg1 opaque) me in
    call _ <- __sbi_hsm_suspend_non_ret_save me in
    match suspend sleep_type warmboot_addr with
    | None => Exit WarmBoot
    | Some ret =>
        if negb (ret =? SBI_OK) then
          call ok <- sbi_hsm_hart_change_state me SBI_HSM_STATE_SUSPENDED SBI_HSM_STATE_STARTED in
          if negb ok then Exit Hang else Ret ret
        else Exit WarmBoot
    end.

Definition sbi_system_suspend (suspend_dev : option sbi_system_suspend_device) (sleep_type resume_addr opaque : Z) : prog Z :=
  match thishart_dom me, suspend_dev with
  | Some dom, Some dev =>
      if negb suspend_allowed then Ret SBI_EFAIL
      else
        match dev.(system_suspend), dev.(system_suspend_check) with
        | Some suspend, Some check =>
            let ret := check sleep_type in
            if negb (ret =? SBI_OK) then Ret ret
            else if negb (prev_mode =? PRV_S) && negb (prev_mode =? PRV_U) then Ret SBI_EFAIL
            else
              match sbi_hartmask_for_each_hartindex dom.(assigned_harts) with
              | None => Ret SBI_EFAIL
              | Some is_ =>
                  call stopped <- others_stopped is_ in
                  if negb stopped then Ret SBI_EDENIED
                  else if negb (sbi_domain_check_addr (Some dom) resume_addr prev_mode SBI_DOMAIN_EXECUTE) then Ret SBI_EINVALID_ADDR
                  else suspend_system suspend sleep_type resume_addr opaque
              end
        | _, _ => Ret SBI_EFAIL
        end
  | _, _ => Ret SBI_EFAIL
  end.

(** ** The calls *)

(** The handlers take the low 32 bits of the arguments of type u32. *)
Definition sbi_ecall_srst_handler (devs : list sbi_system_reset_device) (funcid a0 a1 : Z) : prog Z :=
  if funcid =? SBI_EXT_SRST_RESET then
    if (u32 (-1) <=? a0) || (u32 (-1) <=? a1) then Ret SBI_EINVAL
    else if negb ((a0 =? SBI_SRST_RESET_TYPE_SHUTDOWN) || (a0 =? SBI_SRST_RESET_TYPE_COLD_REBOOT) || (a0 =? SBI_SRST_RESET_TYPE_WARM_REBOOT)) then Ret SBI_EINVAL
    else if negb ((a1 =? SBI_SRST_RESET_REASON_NONE) || (a1 =? SBI_SRST_RESET_REASON_SYSFAIL)) then Ret SBI_EINVAL
    else if sbi_system_reset_supported devs a0 a1 then sbi_system_reset devs a0 a1
    else Ret SBI_ENOTSUPP
  else Ret SBI_ENOTSUPP.

Definition srst_available (devs : list sbi_system_reset_device) : bool :=
  existsb (fun type => sbi_system_reset_supported devs type SBI_SRST_RESET_REASON_NONE) (seqZ 0 (SBI_SRST_RESET_TYPE_LAST + 1)).

(** The result and [out->value]. *)
Definition sbi_ecall_susp_handler (suspend_dev : option sbi_system_suspend_device) (funcid a0 a1 a2 value : Z) : prog (Z * Z) :=
  call ret <- (if funcid =? SBI_EXT_SUSP_SUSPEND then sbi_system_suspend suspend_dev (u32 a0) a1 a2 else Ret SBI_ENOTSUPP) in
  Ret (if 0 <=? ret then (0, ret) else (ret, value)).

Definition susp_available (suspend_dev : option sbi_system_suspend_device) : bool :=
  existsb (sbi_system_suspend_supported suspend_dev) (seqZ 0 (SBI_SUSP_SLEEP_TYPE_LAST + 1)).
End System.

(** ** The reset device *)

(** The status a device gives the request; 0 when it does not support it. *)
Definition reset_status (reset_type reset_reason : Z) (dev : sbi_system_reset_device) : Z :=
  match dev.(system_reset_check) with Some check => check reset_type reset_reason | None => 0 end.

Lemma reset_fold_spec ty re devs : forall best, 0 <= best.2 -> (forall d, best.1 = Some d -> reset_status ty re d = best.2 /\ 0 < best.2) -> (best.1 = None -> best.2 = 0) ->
  let r := fold_left (reset_candidate ty re) devs best in
  best.2 <= r.2 /\ (forall d, r.1 = Some d -> (d ∈ devs \/ best.1 = Some d) /\ reset_status ty re d = r.2 /\ 0 < r.2) /\ (r.1 = None -> r.2 = 0) /\ Forall (fun d => reset_status ty re d <= r.2) devs.
Proof.
  induction devs as [|d devs IH]; intros best H0 H1 H2; cbn [fold_left]; [by split_and!; eauto|].
  assert (let b := reset_candidate ty re best d in best.2 <= b.2 /\ reset_status ty re d <= b.2 /\ (b = best \/ b = (Some d, reset_status ty re d) /\ 0 < reset_status ty re d)) as (B1 & B2 & B3).
  { unfold reset_candidate, reset_status. destruct (system_reset_check d) as [check|]; [|split_and!; [lia|lia|by left]]. cbv zeta. destruct (Z.eqb_spec (check ty re) 0); [split_and!; [lia|lia|by left]|].
    destruct (Z.ltb_spec best.2 (check ty re)); cbn; [split_and!; [lia|lia|right; split; [done|lia]]|split_and!; [lia|lia|by left]]. }
  destruct (IH (reset_candidate ty re best d)) as (R1 & R2 & R3 & R4); [lia| | |].
  - intros x Hx. destruct B3 as [E|[E Hp]]; rewrite E in *; [by apply H1|]. cbn in *. injection Hx as <-. done.
  - intros Hx. destruct B3 as [E|[E Hp]]; rewrite E in *; [by apply H2|done].
  - split_and!; [lia| |done|constructor; [lia|done]]. intros x Hx. destruct (R2 x Hx) as ([Hin|Hin] & Hs & Hp); (split; [|done]); [left; by right|].
    destruct B3 as [E|[E _]]; rewrite E in Hin; [by right|]. cbn in Hin. injection Hin as <-. left. left.
Qed.

(** The device is one with the highest status, if any supports the request. *)
Lemma reset_get_device_best devs ty re :
  match sbi_system_reset_get_device devs ty re with
  | Some d => d ∈ devs /\ 0 < reset_status ty re d /\ Forall (fun d' => reset_status ty re d' <= reset_status ty re d) devs
  | None => Forall (fun d => reset_status ty re d <= 0) devs
  end.
Proof.
  unfold sbi_system_reset_get_device. destruct (reset_fold_spec ty re devs (None, 0)) as (_ & H1 & H2 & H3); [done..|]. destruct (fold_left _ devs _) as [[d|] n]; cbn in *.
  - destruct (H1 d eq_refl) as ([?|?] & Hs & Hp); [|done]. rewrite Hs. done.
  - by rewrite (H2 eq_refl) in H3.
Qed.

(** A reset does not return to the caller. *)
Lemma system_reset_never_returns hsm_dev dom allowed me devs ty re s :
  exists e s', run (sbi_system_reset hsm_dev dom allowed me devs ty re) s = Some (inr e, s').
Proof.
  assert (forall s, exists e s', run (sbi_hsm_exit hsm_dev me : prog Z) s = Some (inr e, s')) as Hexit.
  { intros s0. unfold sbi_hsm_exit, sbi_hsm_hart_change_state. cbn [pbind run]. destruct (cas_state _ _ _ _) as [z s1]. destruct (z =? SBI_HSM_STATE_STOP_PENDING); cbn [negb]; [|by eexists _, _].
    destruct (hsm_device_has_hart_hotplug hsm_dev); [|by eexists _, _]. destruct (hsm_device_hart_stop hsm_dev); [|by eexists _, _]. destruct (negb _); by eexists _, _. }
  assert (forall s, exists e s', run (match (if allowed then sbi_system_reset_get_device devs ty re else None) with
    | Some dev => if dev.(system_reset) ty re then sbi_hsm_exit hsm_dev me else Exit PowerOff | None => sbi_hsm_exit hsm_dev me end : prog Z) s = Some (inr e, s')) as Hrest.
  { intros s0. destruct (if allowed then _ else None) as [dev|]; [|apply Hexit]. destruct (system_reset dev ty re); [apply Hexit|by eexists _, _]. }
  unfold sbi_system_reset, sbi_hsm_hart_stop. destruct (dom me); cbn [pbind]; [|apply Hrest]. unfold sbi_hsm_hart_change_state. cbn [pbind run]. destruct (cas_state _ _ _ _) as [z s1]. destruct (z =? SBI_HSM_STATE_STARTED); cbn [negb pbind]; apply Hrest.
Qed.

(** ** Suspending the system *)

(** The state of a hart as [__sbi_hsm_hart_get_state] reports it. *)
Definition state_of (s : sys) (i : Z) : Z := match s !! i with Some h => h.(hd).(state) | None => SBI_EINVAL end.

Lemma run_hart_state {A} i s (k : Z -> prog A) : run (pbind (__sbi_hsm_hart_get_state i) k) s = run (k (state_of s i)) s.
Proof.
  unfold __sbi_hsm_hart_get_state, state_of, has_scratch, rd. cbn [pbind run]. destruct (s !! i) as [h|] eqn:E.
  - rewrite bool_decide_true by (by eexists). cbn. by rewrite E.
  - rewrite bool_decide_false by (by intros [? ?]). done.
Qed.

Definition stopped_but (me : Z) (s : sys) (is_ : list Z) : bool := forallb (fun i => (i =? me) || (state_of s i =? SBI_HSM_STATE_STOPPED)) is_.

Lemma run_others_stopped {A} me is_ s (k : bool -> prog A) : run (pbind (others_stopped me is_) k) s = run (k (stopped_but me s is_)) s.
Proof.
  induction is_ as [|i is_ IH]; [done|]. cbn [others_stopped stopped_but forallb]. destruct (i =? me); cbn [orb]; [exact IH|]. rewrite run_assoc, run_hart_state.
  destruct (state_of s i =? SBI_HSM_STATE_STOPPED); cbn [negb andb]; [exact IH|done].
Qed.

(** The conditions for a suspend. *)
Record may_suspend (dom : sbi_domain) (check : Z -> Z) (allowed : bool) (prev_mode me sleep_type resume_addr : Z) (s : sys) : Prop := MaySuspend {
  ms_allowed : allowed = true; ms_check : check sleep_type = SBI_OK; ms_mode : prev_mode = PRV_S \/ prev_mode = PRV_U;
  ms_others : forall i, hart_in i dom.(assigned_harts) = true -> i <> me -> state_of s i = SBI_HSM_STATE_STOPPED;
  ms_addr : sbi_domain_check_addr (Some dom) resume_addr prev_mode SBI_DOMAIN_EXECUTE = true;
}.

Lemma stopped_but_spec me s m : stopped_but me s (harts_from m 0) = true <-> forall i, hart_in i m = true -> i <> me -> state_of s i = SBI_HSM_STATE_STOPPED.
Proof.
  unfold stopped_but. rewrite forallb_forall. setoid_rewrite orb_true_iff. setoid_rewrite Z.eqb_eq. split.
  - intros H i Hi Hne. destruct (H i); [|done|done]. apply list_elem_of_In. unfold harts_from. apply list_elem_of_filter. split; [done|]. apply elem_of_seqZ. pose proof (hart_in_range _ _ Hi). lia.
  - intros H i Hi. apply list_elem_of_In in Hi. unfold harts_from in Hi. apply list_elem_of_filter in Hi as [Hi _]. destruct (decide (i = me)); [by left|right; by apply H].
Qed.

(** What the hart [me] is once it is suspended. *)
Definition suspended_hart (prev_mode resume_addr opaque : Z) (h : hart) : hart :=
  saved (set_arg1 opaque (set_addr resume_addr (set_mode prev_mode (set_state SBI_HSM_STATE_SUSPENDED h)))).

Lemma suspend_system_run wa prev_mode me suspend sleep_type resume_addr opaque h s :
  h.(hd).(state) = SBI_HSM_STATE_STARTED ->
  run (suspend_system wa prev_mode me suspend sleep_type resume_addr opaque) (<[me := h]> s) = Some
    (let h1 := suspended_hart prev_mode resume_addr opaque h in
     match suspend sleep_type wa with
     | Some ret => if ret =? 0 then (inr WarmBoot, <[me := h1]> s) else (inl ret, <[me := set_state SBI_HSM_STATE_STARTED h1]> s)
     | None => (inr WarmBoot, <[me := h1]> s)
     end).
Proof.
  intros Hst. unfold suspend_system. rewrite run_change_state by done. cbn [negb]. rewrite !run_wr, run_save. fold (suspended_hart prev_mode resume_addr opaque h). destruct (suspend sleep_type wa) as [ret|]; [|done]. unfold SBI_OK.
  destruct (ret =? 0); cbn [negb]; [done|]. rewrite run_change_state by done. done.
Qed.

(** The hart is back where the caller asked for, with the registers it had. *)
Definition resumed (prev_mode resume_addr opaque : Z) (h : hart) (c : csrs) (h2 : hart) : Prop :=
  h2.(hd).(state) = SBI_HSM_STATE_STARTED /\ h2.(cs).(mie) = h.(cs).(mie) /\ h2.(cs).(medeleg) = h.(cs).(medeleg) /\
  h2.(cs).(menvcfg) = (if SBI_HART_PRIV_VER_1_12 <=? h.(sc).(priv_version) then h.(cs).(menvcfg) else c.(menvcfg)) /\
  h2.(cs).(mip) = Z.lor c.(mip) (Z.land h.(cs).(mip) (Z.lor MIP_SSIP MIP_STIP)).

(** C30: System suspend is refused or it comes back.  The call of a running hart
    suspends exactly if the domain allows it, the device accepts the sleep type,
    the caller is in S or U mode, every other hart of the domain is stopped and
    the resume address is executable; otherwise an error is returned and nothing
    has changed.  If the device fails, its error is returned with the hart
    running again and no other hart touched.  If the system sleeps and the hart
    wakes up with any values in its interrupt and delegation registers, the warm
    boot path enters the supervisor at the resume address, in the mode of the
    call, with its argument and with the registers the hart had. *)
Theorem system_suspend_roundtrip wa dom allowed prev_mode me check suspend sleep_type resume_addr opaque d h s toidx idof su re c :
  dom me = Some d -> mask_wf d.(assigned_harts) -> s !! me = Some h -> h.(hd).(state) = SBI_HSM_STATE_STARTED ->
  toidx (idof me) = me -> sbi_domain_is_assigned_hart (dom me) me = true -> re me = 0 ->
  let res := run (sbi_system_suspend wa dom allowed prev_mode me (Some (SuspendDevice (Some check) (Some suspend))) sleep_type resume_addr opaque) s in
  let ok := may_suspend d check allowed prev_mode me sleep_type resume_addr s in
  (~ ok -> exists rc, res = Some (inl rc, s) /\ rc <> 0) /\
  (ok -> forall ret, suspend sleep_type wa = Some ret -> ret <> 0 -> exists h1, res = Some (inl ret, <[me := h1]> s) /\ h1.(hd).(state) = SBI_HSM_STATE_STARTED) /\
  (ok -> suspend sleep_type wa = None \/ suspend sleep_type wa = Some 0 ->
     exists s1 h2, res = Some (inr WarmBoot, s1) /\
       run (init_warmboot toidx idof dom su re me) (power_cycled me c s1) = Some (inr (Switch FromResume opaque resume_addr prev_mode), <[me := h2]> s) /\
       resumed prev_mode resume_addr opaque h c h2).
Proof.
  intros Hd Hm Hh Hst Hid Has Hre. cbv zeta. unfold sbi_system_suspend. rewrite Hd. cbn [system_suspend system_suspend_check]. rewrite (for_each_spec _ Hm).
  set (body := suspend_system wa prev_mode me suspend sleep_type resume_addr opaque).
  assert (may_suspend d check allowed prev_mode me sleep_type resume_addr s -> allowed = true /\ check sleep_type = 0 /\ (prev_mode =? PRV_S) || (prev_mode =? PRV_U) = true /\
    stopped_but me s (harts_from (assigned_harts d) 0) = true /\ sbi_domain_check_addr (Some d) resume_addr prev_mode SBI_DOMAIN_EXECUTE = true) as Hok1.
  { intros [H1 H2 H3 H4 H5]. split_and!; [done|done|destruct H3 as [->| ->]; done|by apply stopped_but_spec|done]. }
  match goal with |- (_ -> exists rc, ?l = _ /\ _) /\ _ => assert (may_suspend d check allowed prev_mode me sleep_type resume_addr s -> l = run body s) as Hrun end.
  { intros (-> & -> & Hmode & Hstop & Ha)%Hok1. cbn [negb]. assert (negb (prev_mode =? PRV_S) && negb (prev_mode =? PRV_U) = false) as -> by (by rewrite <- negb_orb, Hmode).
    change (0 =? SBI_OK) with true. cbn [negb]. rewrite run_others_stopped, Hstop, Ha. done. }
  pose proof (suspend_system_run wa prev_mode me suspend sleep_type resume_addr opaque h s Hst) as Hbody. rewrite (insert_id s me h Hh) in Hbody. fold body in Hbody. split; [|split].
  - intros Hn. destruct allowed eqn:Ea; cbn [negb]; [|exists SBI_EFAIL; done]. destruct (Z.eqb_spec (check sleep_type) SBI_OK) as [Ec|Ec]; cbn [negb]; [|exists (check sleep_type); done].
    destruct (negb (prev_mode =? PRV_S) && negb (prev_mode =? PRV_U)) eqn:Emode; [exists SBI_EFAIL; done|]. rewrite run_others_stopped. destruct (stopped_but _ _ _) eqn:Estop; cbn [negb]; [|exists SBI_EDENIED; done].
    destruct (sbi_domain_check_addr _ _ _ _) eqn:Ead; cbn [negb]; [|exists SBI_EINVALID_ADDR; done]. exfalso. apply Hn. split; [done|done|lia|by apply stopped_but_spec|done].
  - intros Hok ret Er Hne. rewrite Hrun, Hbody by done. rewrite Er, (proj2 (Z.eqb_neq ret 0)) by done. eexists. split; [done|]. done.
  - intros Hok Hsl. rewrite Hrun, Hbody by done. set (h1 := suspended_hart prev_mode resume_addr opaque h). exists (<[me := h1]> s), (restored (set_state SBI_HSM_STATE_STARTED (set_state SBI_HSM_STATE_RESUME_PENDING (Hart h1.(hd) h1.(sc) c)))).
    split; [destruct Hsl as [-> | ->]; done|]. rewrite alter_insert_cycled. split; [by rewrite warmboot_resumes|].
    unfold resumed, restored, h1, suspended_hart, saved. cbn. split_and!; try done; [|by rewrite <- Z.land_assoc, Z.land_diag].
    by destruct (SBI_HART_PRIV_VER_1_12 <=? priv_version (sc h)).
Qed.

(** A domain of harts 0 and 1, of which hart 1 is stopped. *)
Definition pair_dom (_ : Z) : option sbi_domain := Some (Dom [3; 0] (Some [3; 0]) (Some [Region 64 0 0x3f]) 0 0x80200000 PRV_S true).

Lemma system_suspend_roundtrip_witness :
  exists s1 h2, run (sbi_system_suspend 0x80000000 pair_dom true PRV_S 0 (Some sbi_system_suspend_test) 0 0x80400000 5) demo_conf.(mem) = Some (inr WarmBoot, s1) /\
    run (init_warmboot id id pair_dom (fun _ => 0) (fun _ => 0) 0) (power_cycled 0 (Csrs 1 2 3 4) s1) = Some (inr (Switch FromResume 5 0x80400000 PRV_S), <[0 := h2]> demo_conf.(mem)) /\
    h2.(cs).(mie) = 0.
Proof.
  destruct (system_suspend_roundtrip 0x80000000 pair_dom true PRV_S 0 sbi_system_suspend_test_check sbi_system_suspend_test_suspend 0 0x80400000 5 (default fw_domain (pair_dom 0)) (demo_hart SBI_HSM_STATE_STARTED) demo_conf.(mem) id id (fun _ => 0) (fun _ => 0) (Csrs 1 2 3 4)) as (_ & _ & H);
    [reflexivity|split; [reflexivity|]; repeat constructor; unfold in_range; cbn; lia|reflexivity|reflexivity|reflexivity|vm_compute; reflexivity|reflexivity|].
  destruct H as (s1 & h2 & H1 & H2 & H3); [|by right|].
  - split; [reflexivity|reflexivity|by left| |vm_compute; reflexivity]. apply stopped_but_spec. vm_compute. reflexivity.
  - exists s1, h2. split; [exact H1|]. split; [exact H2|]. exact (proj1 (proj2 H3)).
Defined.

(** A second hart that runs keeps the system from sleeping. *)
Example running_hart_denies_suspend :
  run (sbi_system_suspend 0x80000000 pair_dom true PRV_S 0 (Some sbi_system_suspend_test) 0 0x80400000 5) (<[0 := demo_hart SBI_HSM_STATE_STARTED]> {[1 := demo_hart SBI_HSM_STATE_STARTED]})
  = Some (inl SBI_EDENIED, <[0 := demo_hart SBI_HSM_STATE_STARTED]> {[1 := demo_hart SBI_HSM_STATE_STARTED]}).
Proof. vm_compute. reflexivity. Qed.
