(* ===== verification/Cppc.v ===== *)
(** * Performance control (lib/sbi/sbi_cppc.c, sbi_ecall_cppc.c), 64-bit

    The device is a parameter: [cppc_probe] gives the width of a register, a read
    gives a result and the value it stored, if any, a write gives a result.  The
    calls of the device that read or write are recorded. *)

From S2P Require Import Prelude SbiTypes.

Local Open Scope Z_scope.

Definition SBI_CPPC_HIGHEST_PERF : Z := 0.
Definition SBI_CPPC_NOMINAL_PERF : Z := 1.
Definition SBI_CPPC_LOW_NON_LINEAR_PERF : Z := 2.
Definition SBI_CPPC_LOWEST_PERF : Z := 3.
Definition SBI_CPPC_GUARANTEED_PERF : Z := 4.
Definition SBI_CPPC_CTR_WRAP_TIME : Z := 0xa.
Definition SBI_CPPC_REFERENCE_CTR : Z := 0xb.
Definition SBI_CPPC_DELIVERED_CTR : Z := 0xc.
Definition SBI_CPPC_REFERENCE_PERF : Z := 0x12.
Definition SBI_CPPC_LOWEST_FREQ : Z := 0x13.
Definition SBI_CPPC_NOMINAL_FREQ : Z := 0x14.
Definition SBI_CPPC_ACPI_LAST : Z := SBI_CPPC_NOMINAL_FREQ.
Definition SBI_CPPC_TRANSITION_LATENCY : Z := 0x80000000.
Definition SBI_CPPC_NON_ACPI_LAST : Z := SBI_CPPC_TRANSITION_LATENCY.

Definition SBI_EXT_CPPC_PROBE : Z := 0.
Definition SBI_EXT_CPPC_READ : Z := 1.
Definition SBI_EXT_CPPC_READ_HI : Z := 2.
Definition SBI_EXT_CPPC_WRITE : Z := 3.

(** A null function pointer is [None]. *)
Record sbi_cppc_device := CppcDevice { cppc_probe : option (Z -> Z); cppc_read : option (Z -> Z * option Z); cppc_write : option (Z -> Z -> Z) }.

(** What the device was asked to do, the last first. *)
Inductive cppc_access := DevRead (reg : Z) | DevWrite (reg val : Z).

Definition sbi_cppc_set_device (dev cppc_dev : option sbi_cppc_device) : option sbi_cppc_device :=
  match dev, cppc_dev with Some d, None => Some d | _, _ => cppc_dev end.

Definition sbi_cppc_is_reserved (reg : Z) : bool :=
  ((SBI_CPPC_ACPI_LAST <? reg) && (reg <? SBI_CPPC_TRANSITION_LATENCY)) || (SBI_CPPC_NON_ACPI_LAST <? reg).

Definition sbi_cppc_readable (reg : Z) : bool := true.

Definition sbi_cppc_writable (reg : Z) : bool :=
  negb (existsb (Z.eqb reg) [SBI_CPPC_HIGHEST_PERF; SBI_CPPC_NOMINAL_PERF; SBI_CPPC_LOW_NON_LINEAR_PERF; SBI_CPPC_LOWEST_PERF; SBI_CPPC_GUARANTEED_PERF;
    SBI_CPPC_CTR_WRAP_TIME; SBI_CPPC_REFERENCE_CTR; SBI_CPPC_DELIVERED_CTR; SBI_CPPC_REFERENCE_PERF; SBI_CPPC_LOWEST_FREQ; SBI_CPPC_NOMINAL_FREQ; SBI_CPPC_TRANSITION_LATENCY]).

Section Cppc.
Context (cppc_dev : option sbi_cppc_device).

Definition sbi_cppc_probe (reg : Z) : Z :=
  match cppc_dev with
  | Some d => match d.(cppc_probe) with Some probe => if sbi_cppc_is_reserved reg then SBI_EINVAL else probe reg | None => SBI_EFAIL end
  | None => SBI_EFAIL
  end.

(** The result and [*val], which starts as [temp]. *)
Definition sbi_cppc_read (reg temp : Z) (t : list cppc_access) : Z * Z * list cppc_access :=
  match cppc_dev with
  | Some d =>
      match d.(cppc_read) with
      | Some read =>
          if sbi_cppc_probe reg <=? 0 then (SBI_ENOTSUPP, temp, t)
          else if negb (sbi_cppc_readable reg) then (SBI_EDENIED, temp, t)
          else let '(ret, v) := read reg in (ret, default temp v, DevRead reg :: t)
      | None => (SBI_EFAIL, temp, t)
      end
  | None => (SBI_EFAIL, temp, t)
  end.

Definition sbi_cppc_write (reg val : Z) (t : list cppc_access) : Z * list cppc_access :=
  match cppc_dev with
  | Some d =>
      match d.(cppc_write) with
      | Some write =>
          if sbi_cppc_probe reg <=? 0 then (SBI_ENOTSUPP, t)
          else if negb (sbi_cppc_writable reg) then (SBI_EDENIED, t)
          else (write reg val, DevWrite reg val :: t)
      | None => (SBI_EFAIL, t)
      end
  | None => (SBI_EFAIL, t)
  end.

(** [temp] is the content of the local variable, which is not initialised. *)
Definition sbi_ecall_cppc_handler (funcid a0 a1 temp value : Z) (t : list cppc_access) : Z * Z * list cppc_access :=
  if funcid =? SBI_EXT_CPPC_READ then sbi_cppc_read a0 temp t
  else if funcid =? SBI_EXT_CPPC_READ_HI then (0, 0, t)
  else if funcid =? SBI_EXT_CPPC_WRITE then let '(ret, t) := sbi_cppc_write a0 a1 t in (ret, value, t)
  else if funcid =? SBI_EXT_CPPC_PROBE then
    let ret := sbi_cppc_probe a0 in if 0 <=? ret then (0, ret, t) else (ret, value, t)
  else (SBI_ENOTSUPP, value, t).

(** ** The device is asked for registers it has *)

Definition access_ok (a : cppc_access) : Prop :=
  match a with
  | DevRead reg => 0 < sbi_cppc_probe reg /\ sbi_cppc_is_reserved reg = false
  | DevWrite reg _ => 0 < sbi_cppc_probe reg /\ sbi_cppc_is_reserved reg = false /\ sbi_cppc_writable reg = true
  end.

Lemma probe_positive reg : 0 < sbi_cppc_probe reg -> sbi_cppc_is_reserved reg = false.
Proof.
  unfold sbi_cppc_probe, SBI_EFAIL, SBI_EINVAL. destruct cppc_dev as [d|]; [|lia]. destruct (cppc_probe d); [|lia]. by destruct (sbi_cppc_is_reserved reg).
Qed.

(** No call reads or writes a reserved or missing register of the device, or writes
    one that is read-only; a write reaches the device unchanged. *)
Theorem cppc_calls_guarded funcid a0 a1 temp value t : Forall access_ok t ->
  Forall access_ok (sbi_ecall_cppc_handler funcid a0 a1 temp value t).2.
Proof.
  intros Ht. unfold sbi_ecall_cppc_handler. destruct (funcid =? SBI_EXT_CPPC_READ).
  { unfold sbi_cppc_read. destruct cppc_dev as [d|] eqn:E; [|done]. destruct (cppc_read d) as [read|]; [|done]. destruct (Z.leb_spec (sbi_cppc_probe a0) 0) as [|Hp]; [done|]. cbn [sbi_cppc_readable negb].
    destruct (read a0). constructor; [|done]. split; [done|]. by apply probe_positive. }
  destruct (funcid =? SBI_EXT_CPPC_READ_HI); [done|]. destruct (funcid =? SBI_EXT_CPPC_WRITE).
  { unfold sbi_cppc_write. destruct cppc_dev as [d|] eqn:E; [|done]. destruct (cppc_write d) as [write|]; [|done]. destruct (Z.leb_spec (sbi_cppc_probe a0) 0) as [|Hp]; [done|].
    destruct (sbi_cppc_writable a0) eqn:Ew; cbn [negb]; [|done]. constructor; [|done]. split; [done|]. split; [by apply probe_positive|done]. }
  destruct (funcid =? SBI_EXT_CPPC_PROBE); [|done]. cbv zeta. by case_match.
Qed.
End Cppc.

(** A read that fails returns what was on the stack of the firmware. *)
Example failed_read_leaks temp : sbi_ecall_cppc_handler None SBI_EXT_CPPC_READ 0 0 temp 0 [] = (SBI_EFAIL, temp, []).
Proof. reflexivity. Qed.
