(* ===== verification/Dbtr.v ===== *)
(** * Debug triggers (lib/sbi/sbi_dbtr.c, lib/sbi/sbi_ecall_dbtr.c)

    The state of one hart: the logical triggers of the firmware, the trigger
    registers of the hardware behind [tselect], and memory.  A result of [None] is
    an access through a null pointer or outside the array of triggers.

    Memory is words of eight bytes by address (the build modelled is little
    endian, so [lle_to_cpu] and [cpu_to_lle] change nothing).  The window that
    [sbi_hart_map_saddr] opens around the accesses to the shared memory and
    [sbi_hart_unmap_saddr] closes again is in Pmp.v; it is left out here. *)

From S2P Require Import Prelude SbiTypes Bitops Domain Hsm.

Local Open Scope Z_scope.

Definition RV_MAX_TRIGGERS : Z := 32.
Definition RISCV_DBTR_TRIG_MCONTROL : Z := 2.
Definition RISCV_DBTR_TRIG_MCONTROL6 : Z := 6.
Definition RV_DBTR_TDATA1_TYPE_BIT_MASK : Z := Z.shiftl 0xf 60.
Definition RV_DBTR_MC_U_BIT : Z := 3.
Definition RV_DBTR_MC_S_BIT : Z := 4.
Definition RV_DBTR_MC_M_BIT : Z := 6.
Definition RV_DBTR_MC_DMODE_BIT : Z := 59.
Definition RV_DBTR_MC6_U_BIT : Z := 3.
Definition RV_DBTR_MC6_S_BIT : Z := 4.
Definition RV_DBTR_MC6_M_BIT : Z := 6.
Definition RV_DBTR_MC6_VU_BIT : Z := 23.
Definition RV_DBTR_MC6_VS_BIT : Z := 24.
Definition RV_DBTR_MC6_DMODE_BIT : Z := 59.
Definition RV_DBTR_TS_MAPPED_BIT : Z := 0.
Definition RV_DBTR_TS_U_BIT : Z := 1.
Definition RV_DBTR_TS_S_BIT : Z := 2.
Definition RV_DBTR_TS_VU_BIT : Z := 3.
Definition RV_DBTR_TS_VS_BIT : Z := 4.
Definition RV_DBTR_TS_HW_IDX_BIT : Z := 8.
Definition RV_DBTR_TS_HW_IDX_BIT_MASK : Z := Z.shiftl (2 ^ 55 - 1) RV_DBTR_TS_HW_IDX_BIT.
Definition SBI_DBTR_SHMEM_INVALID_ADDR : Z := 0xFFFFFFFFFFFFFFFF.
Definition SBI_DBTR_SHMEM_ALIGN_MASK : Z := riscv_xlen / 8 - 1.
Definition SBI_ERR_NO_SHMEM : Z := -9.

(** [__set_bit], [__clear_bit] and [__test_bit] on one word. *)
Definition set_bit (nr w : Z) : Z := Z.lor w (BIT_MASK nr).
Definition clear_bit (nr w : Z) : Z := Z.land w (not64 (BIT_MASK nr)).
Definition test_bit (nr w : Z) : bool := Z.testbit w nr.

(** [w & RV_DBTR_BIT_MASK(...)] for a mask of one bit. *)
Definition has_bit (nr w : Z) : bool := negb (Z.land w (Z.shiftl 1 nr) =? 0).

Definition EXTRACT_FIELD (val which : Z) : Z := Z.land val which / Z.land which (not64 (which - 1)).
Definition TDATA1_GET_TYPE (t1 : Z) : Z := EXTRACT_FIELD t1 RV_DBTR_TDATA1_TYPE_BIT_MASK.
Definition SET_TRIG_HW_INDEX (state idx : Z) : Z :=
  Z.lor (Z.land state (not64 RV_DBTR_TS_HW_IDX_BIT_MASK))
        (Z.land (u64 (Z.shiftl idx RV_DBTR_TS_HW_IDX_BIT)) RV_DBTR_TS_HW_IDX_BIT_MASK).

(** ** The hardware *)

(** [hw_trigs] triggers; trigger [i] supports the types whose bits are set in
    [hw_types i], with the bits [hw_bits i t] of [tdata1] writable for type [t]
    ([dmode] is writable in debug mode only).  [hw_tinfo] says whether there is a
    [tinfo] register. *)
Class TrigHw := { hw_trigs : nat; hw_tinfo : bool; hw_types : nat -> Z; hw_bits : nat -> Z -> Z }.

Record trig_unit := TrigUnit { tselect : Z; t1s : list Z; t2s : list Z }.

Section Dbtr.
Context {thw : TrigHw}.

(** A type that is not supported disables the trigger, which then reads as type 15. *)
Definition legal1 (i : nat) (v : Z) : Z :=
  let t := Z.shiftr v 60 in
  if Z.testbit (hw_types i) t then Z.lor (Z.shiftl t 60) (Z.land (Z.land v (2 ^ 59 - 1)) (hw_bits i t)) else Z.shiftl 15 60.

Definition write_tselect (u : trig_unit) (v : Z) : trig_unit :=
  if v <? Z.of_nat hw_trigs then TrigUnit v u.(t1s) u.(t2s) else u.
Definition write_tdata1 (u : trig_unit) (v : Z) : trig_unit :=
  let i := Z.to_nat u.(tselect) in TrigUnit u.(tselect) (<[i := legal1 i v]> u.(t1s)) u.(t2s).
Definition write_tdata2 (u : trig_unit) (v : Z) : trig_unit :=
  TrigUnit u.(tselect) u.(t1s) (<[Z.to_nat u.(tselect) := v]> u.(t2s)).

(** ** The state *)

Record sbi_dbtr_trigger := Trig { index : Z; type_mask : Z; state : Z; tdata1 : Z; tdata2 : Z; tdata3 : Z }.

Record sbi_dbtr_hart_triggers_state := TrigState {
  triggers : list sbi_dbtr_trigger; phys_lo : Z; phys_hi : Z; total_trigs : Z; available_trigs : Z; probed : bool }.

(** [hs] is the pointer in the scratch space of the hart. *)
Record dbtr := Dbtr { hs : option sbi_dbtr_hart_triggers_state; unit_ : trig_unit; mem : Z -> Z }.

Definition set_triggers (ts : list sbi_dbtr_trigger) (h : sbi_dbtr_hart_triggers_state) : sbi_dbtr_hart_triggers_state :=
  TrigState ts h.(phys_lo) h.(phys_hi) h.(total_trigs) h.(available_trigs) h.(probed).
Definition set_available (n : Z) (h : sbi_dbtr_hart_triggers_state) : sbi_dbtr_hart_triggers_state :=
  TrigState h.(triggers) h.(phys_lo) h.(phys_hi) h.(total_trigs) n h.(probed).
Definition set_shmem (lo hi : Z) (h : sbi_dbtr_hart_triggers_state) : sbi_dbtr_hart_triggers_state :=
  TrigState h.(triggers) lo hi h.(total_trigs) h.(available_trigs) h.(probed).
Definition set_state (s : Z) (t : sbi_dbtr_trigger) : sbi_dbtr_trigger :=
  Trig t.(index) t.(type_mask) s t.(tdata1) t.(tdata2) t.(tdata3).
Definition set_tdata1 (v : Z) (t : sbi_dbtr_trigger) : sbi_dbtr_trigger :=
  Trig t.(index) t.(type_mask) t.(state) v t.(tdata2) t.(tdata3).
Definition set_tdata2 (v : Z) (t : sbi_dbtr_trigger) : sbi_dbtr_trigger :=
  Trig t.(index) t.(type_mask) t.(state) t.(tdata1) v t.(tdata3).
Definition put (h : sbi_dbtr_hart_triggers_state) (d : dbtr) : dbtr := Dbtr (Some h) d.(unit_) d.(mem).
Definition put_trigger (i : nat) (t : sbi_dbtr_trigger) (h : sbi_dbtr_hart_triggers_state) : sbi_dbtr_hart_triggers_state :=
  set_triggers (<[i := t]> h.(triggers)) h.

Definition sbi_dbtr_shmem_disabled (h : sbi_dbtr_hart_triggers_state) : bool :=
  (h.(phys_lo) =? SBI_DBTR_SHMEM_INVALID_ADDR) && (h.(phys_hi) =? SBI_DBTR_SHMEM_INVALID_ADDR).
Definition sbi_dbtr_disable_shmem (h : sbi_dbtr_hart_triggers_state) : sbi_dbtr_hart_triggers_state :=
  set_shmem SBI_DBTR_SHMEM_INVALID_ADDR SBI_DBTR_SHMEM_INVALID_ADDR h.
Definition hart_shmem_base (h : sbi_dbtr_hart_triggers_state) : Z := h.(phys_lo).

Definition sbi_trigger_init (tmask idx : Z) : sbi_dbtr_trigger := Trig idx tmask 0 0 0 0.

Definition mapped (t : sbi_dbtr_trigger) : bool := has_bit RV_DBTR_TS_MAPPED_BIT t.(state).

(** The loop of [sbi_alloc_trigger] from [i]; [Some None] is the end of the array
    in use. *)
Fixpoint alloc_loop (fuel : nat) (h : sbi_dbtr_hart_triggers_state) (i : Z) : option (option nat) :=
  match fuel with
  | O => Some None
  | S fuel =>
      if i <? h.(total_trigs) then
        t ← h.(triggers) !! Z.to_nat i;
        if mapped t then alloc_loop fuel h (i + 1) else Some (Some (Z.to_nat i))
      else Some None
  end.

(** The trigger found ([None] is a null pointer) and the state. *)
Definition sbi_alloc_trigger (h : sbi_dbtr_hart_triggers_state) : option (option nat * sbi_dbtr_hart_triggers_state) :=
  if h.(available_trigs) <=? 0 then Some (None, h)
  else
    r ← alloc_loop (Z.to_nat h.(total_trigs)) h 0;
    match r with
    | None => Some (None, h)
    | Some i =>
        t ← h.(triggers) !! i;
        Some (Some i, put_trigger i (set_state (set_bit RV_DBTR_TS_MAPPED_BIT t.(state)) t) (set_available (u32 (h.(available_trigs) - 1)) h))
    end.

Definition sbi_free_trigger (i : nat) (h : sbi_dbtr_hart_triggers_state) : option sbi_dbtr_hart_triggers_state :=
  t ← h.(triggers) !! i;
  Some (set_available (u32 (h.(available_trigs) + 1)) (put_trigger i (Trig t.(index) t.(type_mask) 0 0 0 0) h)).

(** ** Initialisation *)

(** One round of the probing loop: the type mask of trigger [i], if there is one. *)
Definition probe (u : trig_unit) (i : Z) : trig_unit * option Z :=
  if (hw_trigs =? 0)%nat then (u, None)
  else
    let u := write_tselect u i in
    if negb (u.(tselect) =? i) then (u, None)
    else if hw_tinfo then
      let val := hw_types (Z.to_nat i) in (u, if val =? 1 then None else Some val)
    else
      let t1 := default 0 (u.(t1s) !! Z.to_nat i) in
      (u, if TDATA1_GET_TYPE t1 =? 0 then None else Some (Z.shiftl 1 (TDATA1_GET_TYPE t1))).

Fixpoint probe_loop (fuel : nat) (i : Z) (h : sbi_dbtr_hart_triggers_state) (u : trig_unit) : option (sbi_dbtr_hart_triggers_state * trig_unit) :=
  match fuel with
  | O => Some (h, u)
  | S fuel =>
      match probe u i with
      | (u, None) => Some (h, u)
      | (u, Some tm) =>
          _ ← h.(triggers) !! Z.to_nat i;
          let h := put_trigger (Z.to_nat i) (sbi_trigger_init tm i) h in
          probe_loop fuel (i + 1) (TrigState h.(triggers) h.(phys_lo) h.(phys_hi) (u32 (h.(total_trigs) + 1)) h.(available_trigs) h.(probed)) u
      end
  end.

(** What [sbi_zalloc] returns. *)
Definition zero_state : sbi_dbtr_hart_triggers_state := TrigState (replicate (Z.to_nat RV_MAX_TRIGGERS) (Trig 0 0 0 0 0 0)) 0 0 0 0 false.

(** [alloc_ok] says whether the allocation of the state succeeds; that of the
    offset in the scratch space at cold boot is taken to. *)
Definition sbi_dbtr_init (has_sdtrig alloc_ok : bool) (d : dbtr) : option (Z * dbtr) :=
  if negb has_sdtrig then Some (0, d)
  else
    match (match d.(hs) with Some h => Some h | None => if alloc_ok then Some zero_state else None end) with
    | None => Some (SBI_ENOMEM, d)
    | Some h =>
        let h := sbi_dbtr_disable_shmem h in
        '(h, u) ← (if h.(probed) then Some (h, d.(unit_))
                   else '(h, u) ← probe_loop (Z.to_nat RV_MAX_TRIGGERS) 0 h d.(unit_);
                        Some (TrigState h.(triggers) h.(phys_lo) h.(phys_hi) h.(total_trigs) h.(available_trigs) true, u));
        Some (0, Dbtr (Some (set_available h.(total_trigs) h)) u d.(mem))
    end.

Definition sbi_dbtr_get_total_triggers (has_sdtrig : bool) (d : dbtr) : Z :=
  if negb has_sdtrig then 0 else match d.(hs) with None => 0 | Some h => h.(total_trigs) end.

(** [dom] is not a null pointer. *)
Definition given (dom : option sbi_domain) : bool := match dom with Some _ => true | None => false end.

Definition sbi_dbtr_setup_shmem (dom : option sbi_domain) (hartindex smode shmem_phys_lo shmem_phys_hi : Z) (d : dbtr) : Z * dbtr :=
  if given dom && negb (sbi_domain_is_assigned_hart dom hartindex) then (SBI_EDENIED, d)
  else
    match d.(hs) with
    | None => (SBI_EFAIL, d)
    | Some h =>
        if (shmem_phys_lo =? SBI_DBTR_SHMEM_INVALID_ADDR) && (shmem_phys_hi =? SBI_DBTR_SHMEM_INVALID_ADDR)
        then (0, put (sbi_dbtr_disable_shmem h) d)
        else if negb (sbi_dbtr_shmem_disabled h) then (SBI_EALREADY, d)
        else if negb (Z.land shmem_phys_lo SBI_DBTR_SHMEM_ALIGN_MASK =? 0) then (SBI_EINVAL, d)
        else if negb (shmem_phys_hi =? 0) then (SBI_EINVALID_ADDR, d)
        else if given dom && negb (sbi_domain_check_addr dom shmem_phys_lo smode (Z.lor SBI_DOMAIN_READ SBI_DOMAIN_WRITE))
        then (SBI_EINVALID_ADDR, d)
        else (0, put (set_shmem shmem_phys_lo shmem_phys_hi h) d)
    end.

(** ** Triggers *)

(** The address of word [w] of entry [idx] of the shared memory: four words of
    data and one of the identifier. *)
Definition entry_word (base idx w : Z) : Z := u64 (base + 40 * idx + 8 * w).

Definition dbtr_trigger_setup (trig : sbi_dbtr_trigger) (t1 t2 t3 : Z) : sbi_dbtr_trigger :=
  let st := set_bit RV_DBTR_TS_MAPPED_BIT 0 in
  let st := SET_TRIG_HW_INDEX st trig.(index) in
  let copy from to st := if test_bit from t1 then set_bit to st else st in
  let type := TDATA1_GET_TYPE t1 in
  let st :=
    if type =? RISCV_DBTR_TRIG_MCONTROL then
      copy RV_DBTR_MC_S_BIT RV_DBTR_TS_S_BIT (copy RV_DBTR_MC_U_BIT RV_DBTR_TS_U_BIT st)
    else if type =? RISCV_DBTR_TRIG_MCONTROL6 then
      copy RV_DBTR_MC6_VS_BIT RV_DBTR_TS_VS_BIT (copy RV_DBTR_MC6_VU_BIT RV_DBTR_TS_VU_BIT
        (copy RV_DBTR_MC6_S_BIT RV_DBTR_TS_S_BIT (copy RV_DBTR_MC6_U_BIT RV_DBTR_TS_U_BIT st)))
    else st in
  Trig trig.(index) trig.(type_mask) st t1 t2 t3.

Definition update_bit (new : bool) (nr w : Z) : Z := if new then set_bit nr w else clear_bit nr w.

(** [tdata1] with the modes of the state. *)
Definition enabled_tdata1 (trig : sbi_dbtr_trigger) : Z :=
  let st := trig.(state) in
  let type := TDATA1_GET_TYPE trig.(tdata1) in
  if type =? RISCV_DBTR_TRIG_MCONTROL then
    update_bit (has_bit RV_DBTR_TS_S_BIT st) RV_DBTR_MC_S_BIT (update_bit (has_bit RV_DBTR_TS_U_BIT st) RV_DBTR_MC_U_BIT trig.(tdata1))
  else if type =? RISCV_DBTR_TRIG_MCONTROL6 then
    update_bit (has_bit RV_DBTR_TS_S_BIT st) RV_DBTR_MC6_S_BIT (update_bit (has_bit RV_DBTR_TS_U_BIT st) RV_DBTR_MC6_U_BIT
      (update_bit (has_bit RV_DBTR_TS_VS_BIT st) RV_DBTR_MC6_VS_BIT (update_bit (has_bit RV_DBTR_TS_VU_BIT st) RV_DBTR_MC6_VU_BIT trig.(tdata1))))
  else trig.(tdata1).

Definition disabled_tdata1 (trig : sbi_dbtr_trigger) : Z :=
  let type := TDATA1_GET_TYPE trig.(tdata1) in
  if type =? RISCV_DBTR_TRIG_MCONTROL then clear_bit RV_DBTR_MC_S_BIT (clear_bit RV_DBTR_MC_U_BIT trig.(tdata1))
  else if type =? RISCV_DBTR_TRIG_MCONTROL6 then
    clear_bit RV_DBTR_MC6_S_BIT (clear_bit RV_DBTR_MC6_U_BIT (clear_bit RV_DBTR_MC6_VS_BIT (clear_bit RV_DBTR_MC6_VU_BIT trig.(tdata1))))
  else trig.(tdata1).

Definition dbtr_trigger_enable (trig : sbi_dbtr_trigger) (u : trig_unit) : sbi_dbtr_trigger * trig_unit :=
  if negb (mapped trig) then (trig, u)
  else
    let trig := set_tdata1 (enabled_tdata1 trig) trig in
    let u := write_tselect u trig.(index) in
    let u := write_tdata1 u 0 in
    let u := write_tdata2 u trig.(tdata2) in
    (trig, write_tdata1 u trig.(tdata1)).

Definition dbtr_trigger_disable (trig : sbi_dbtr_trigger) (u : trig_unit) : sbi_dbtr_trigger * trig_unit :=
  if negb (mapped trig) then (trig, u)
  else
    let trig := set_tdata1 (disabled_tdata1 trig) trig in
    let u := write_tselect u trig.(index) in
    (trig, write_tdata1 u trig.(tdata1)).

Definition dbtr_trigger_clear (trig : sbi_dbtr_trigger) (u : trig_unit) : trig_unit :=
  if negb (mapped trig) then u
  else
    let u := write_tselect u trig.(index) in
    let u := write_tdata1 u 0 in
    write_tdata2 u 0.

Definition dbtr_trigger_supported (type : Z) : bool := (type =? RISCV_DBTR_TRIG_MCONTROL) || (type =? RISCV_DBTR_TRIG_MCONTROL6).

Definition dbtr_trigger_valid (type tdata : Z) : bool :=
  if type =? RISCV_DBTR_TRIG_MCONTROL then negb (has_bit RV_DBTR_MC_DMODE_BIT tdata) && negb (has_bit RV_DBTR_MC_M_BIT tdata)
  else if type =? RISCV_DBTR_TRIG_MCONTROL6 then negb (has_bit RV_DBTR_MC6_DMODE_BIT tdata) && negb (has_bit RV_DBTR_MC6_M_BIT tdata)
  else false.

Fixpoint count_type (fuel : nat) (h : sbi_dbtr_hart_triggers_state) (type i total : Z) : option Z :=
  match fuel with
  | O => Some total
  | S fuel =>
      if i <? h.(total_trigs) then
        t ← h.(triggers) !! Z.to_nat i;
        count_type fuel h type (i + 1) (if test_bit type t.(type_mask) then total + 1 else total)
      else Some total
  end.

(** The result and, when it was set, the value. *)
Definition sbi_dbtr_num_trig (data : Z) (d : dbtr) : option (Z * option Z) :=
  match d.(hs) with
  | None => Some (SBI_EFAIL, None)
  | Some h =>
      if data =? 0 then Some (0, Some h.(total_trigs))
      else total ← count_type (Z.to_nat h.(total_trigs)) h (TDATA1_GET_TYPE data) 0 0; Some (0, Some total)
  end.

(** Every round reads a trigger of the array, so it ends after [RV_MAX_TRIGGERS]
    of them, by the count or outside the array. *)
Fixpoint read_loop (fuel : nat) (h : sbi_dbtr_hart_triggers_state) (trig_idx_base trig_count idx : Z) (m : Z -> Z) : option (Z -> Z) :=
  if idx <? trig_count then
    match fuel with
    | O => None
    | S fuel =>
        t ← h.(triggers) !! Z.to_nat (u64 (idx + trig_idx_base));
        let b := hart_shmem_base h in
        let m := <[entry_word b idx 0 := t.(state)]> m in
        let m := <[entry_word b idx 1 := t.(tdata1)]> m in
        let m := <[entry_word b idx 2 := t.(tdata2)]> m in
        let m := <[entry_word b idx 3 := t.(tdata3)]> m in
        read_loop fuel h trig_idx_base trig_count (idx + 1) m
    end
  else Some m.

Definition sbi_dbtr_read_trig (trig_idx_base trig_count : Z) (d : dbtr) : option (Z * dbtr) :=
  match d.(hs) with
  | None => Some (SBI_EFAIL, d)
  | Some h =>
      if (h.(total_trigs) <=? trig_idx_base) || (h.(total_trigs) <=? u64 (trig_idx_base + trig_count)) then Some (SBI_EINVAL, d)
      else if sbi_dbtr_shmem_disabled h then Some (SBI_ERR_NO_SHMEM, d)
      else m ← read_loop (S (Z.to_nat RV_MAX_TRIGGERS)) h trig_idx_base trig_count 0 d.(mem); Some (0, Dbtr d.(hs) d.(unit_) m)
  end.

(** The first of the entries from [idx] on that is not supported or not valid. *)
Fixpoint check_loop (n : nat) (b idx : Z) (m : Z -> Z) : option Z :=
  match n with
  | O => None
  | S n =>
      let ctrl := m (entry_word b idx 1) in
      if negb (dbtr_trigger_supported (TDATA1_GET_TYPE ctrl)) then Some idx
      else if negb (dbtr_trigger_valid (TDATA1_GET_TYPE ctrl) ctrl) then Some idx
      else check_loop n b (idx + 1) m
  end.

Fixpoint install_loop (n : nat) (b idx : Z) (h : sbi_dbtr_hart_triggers_state) (u : trig_unit) (m : Z -> Z)
    : option (sbi_dbtr_hart_triggers_state * trig_unit * (Z -> Z)) :=
  match n with
  | O => Some (h, u, m)
  | S n =>
      '(p, h) ← sbi_alloc_trigger h;
      i ← p;
      t ← h.(triggers) !! i;
      let t := dbtr_trigger_setup t (m (entry_word b idx 1)) (m (entry_word b idx 2)) (m (entry_word b idx 3)) in
      let '(t, u) := dbtr_trigger_enable t u in
      install_loop n b (idx + 1) (put_trigger i t h) u (<[entry_word b idx 4 := t.(index)]> m)
  end.

Definition sbi_dbtr_install_trig (trig_count : Z) (d : dbtr) : option (Z * option Z * dbtr) :=
  match d.(hs) with
  | None => Some (SBI_EFAIL, None, d)
  | Some h =>
      if sbi_dbtr_shmem_disabled h then Some (SBI_ERR_NO_SHMEM, None, d)
      else
        match check_loop (Z.to_nat trig_count) (hart_shmem_base h) 0 d.(mem) with
        | Some idx => Some (SBI_EFAIL, Some idx, d)
        | None =>
            if h.(available_trigs) <? trig_count then Some (SBI_EFAIL, Some h.(available_trigs), d)
            else
              '(h, u, m) ← install_loop (Z.to_nat trig_count) (hart_shmem_base h) 0 h d.(unit_) d.(mem);
              Some (0, None, Dbtr (Some h) u m)
        end
  end.

(** The triggers that [for_each_set_bit_from] visits: the bits of the shifted mask
    from the base on, below the number of triggers. *)
Definition selected (total trig_idx_base trig_idx_mask : Z) : list nat :=
  let trig_mask := u64 (Z.shiftl trig_idx_mask trig_idx_base) in
  filter (fun i => trig_idx_base <= Z.of_nat i /\ Z.testbit trig_mask (Z.of_nat i) = true) (seq 0 (Z.to_nat total)).

Fixpoint uninstall_loop (js : list nat) (h : sbi_dbtr_hart_triggers_state) (u : trig_unit) : option (Z * sbi_dbtr_hart_triggers_state * trig_unit) :=
  match js with
  | [] => Some (0, h, u)
  | i :: js =>
      t ← h.(triggers) !! i;
      if negb (mapped t) then Some (SBI_EINVAL, h, u)
      else h' ← sbi_free_trigger i h; uninstall_loop js h' (dbtr_trigger_clear t u)
  end.

Definition sbi_dbtr_uninstall_trig (trig_idx_base trig_idx_mask : Z) (d : dbtr) : option (Z * dbtr) :=
  match d.(hs) with
  | None => Some (SBI_EFAIL, d)
  | Some h =>
      '(r, h, u) ← uninstall_loop (selected h.(total_trigs) trig_idx_base trig_idx_mask) h d.(unit_); Some (r, Dbtr (Some h) u d.(mem))
  end.

(** The loops of the two calls that only switch triggers. *)
Fixpoint each_trigger (f : sbi_dbtr_trigger -> trig_unit -> sbi_dbtr_trigger * trig_unit) (js : list nat) (h : sbi_dbtr_hart_triggers_state) (u : trig_unit)
    : option (sbi_dbtr_hart_triggers_state * trig_unit) :=
  match js with
  | [] => Some (h, u)
  | i :: js => t ← h.(triggers) !! i; let '(t, u) := f t u in each_trigger f js (put_trigger i t h) u
  end.

Definition sbi_dbtr_enable_trig (trig_idx_base trig_idx_mask : Z) (d : dbtr) : option (Z * dbtr) :=
  match d.(hs) with
  | None => Some (SBI_EFAIL, d)
  | Some h =>
      '(h, u) ← each_trigger dbtr_trigger_enable (selected h.(total_trigs) trig_idx_base trig_idx_mask) h d.(unit_); Some (0, Dbtr (Some h) u d.(mem))
  end.

Definition sbi_dbtr_disable_trig (trig_idx_base trig_idx_mask : Z) (d : dbtr) : option (Z * dbtr) :=
  match d.(hs) with
  | None => Some (SBI_EFAIL, d)
  | Some h =>
      '(h, u) ← each_trigger dbtr_trigger_disable (selected h.(total_trigs) trig_idx_base trig_idx_mask) h d.(unit_); Some (0, Dbtr (Some h) u d.(mem))
  end.

Fixpoint update_loop (js : list nat) (b uidx : Z) (m : Z -> Z) (h : sbi_dbtr_hart_triggers_state) (u : trig_unit)
    : option (Z * sbi_dbtr_hart_triggers_state * trig_unit) :=
  match js with
  | [] => Some (0, h, u)
  | i :: js =>
      t ← h.(triggers) !! i;
      if negb (mapped t) then Some (SBI_EINVAL, h, u)
      else
        let '(t, u) := dbtr_trigger_enable (set_tdata2 (m (entry_word b uidx 2)) t) u in
        update_loop js b (uidx + 1) m (put_trigger i t h) u
  end.

Definition sbi_dbtr_update_trig (trig_idx_base trig_idx_mask : Z) (d : dbtr) : option (Z * dbtr) :=
  match d.(hs) with
  | None => Some (SBI_EFAIL, d)
  | Some h =>
      if sbi_dbtr_shmem_disabled h then Some (SBI_ERR_NO_SHMEM, d)
      else
        '(r, h, u) ← update_loop (selected h.(total_trigs) trig_idx_base trig_idx_mask) (hart_shmem_base h) 0 d.(mem) h d.(unit_);
        Some (r, Dbtr (Some h) u d.(mem))
  end.

(** ** The calls *)

Definition SBI_EXT_DBTR_NUM_TRIGGERS : Z := 0x0.
Definition SBI_EXT_DBTR_SETUP_SHMEM : Z := 0x1.
Definition SBI_EXT_DBTR_TRIGGER_READ : Z := 0x2.
Definition SBI_EXT_DBTR_TRIGGER_INSTALL : Z := 0x3.
Definition SBI_EXT_DBTR_TRIGGER_UPDATE : Z := 0x4.
Definition SBI_EXT_DBTR_TRIGGER_UNINSTALL : Z := 0x5.
Definition SBI_EXT_DBTR_TRIGGER_ENABLE : Z := 0x6.
Definition SBI_EXT_DBTR_TRIGGER_DISABLE : Z := 0x7.

(** The return code, the value where one is set, and the state; [smode] is the
    mode the call came from. *)
Definition sbi_ecall_dbtr_handler (dom : option sbi_domain) (hartindex smode funcid a0 a1 : Z) (d : dbtr) : option (Z * option Z * dbtr) :=
  let no_value r := '(rc, d) ← r; Some (rc, None, d) in
  if funcid =? SBI_EXT_DBTR_NUM_TRIGGERS then '(rc, v) ← sbi_dbtr_num_trig a0 d; Some (rc, v, d)
  else if funcid =? SBI_EXT_DBTR_SETUP_SHMEM then no_value (Some (sbi_dbtr_setup_shmem dom hartindex smode a0 a1 d))
  else if funcid =? SBI_EXT_DBTR_TRIGGER_READ then no_value (sbi_dbtr_read_trig a0 a1 d)
  else if funcid =? SBI_EXT_DBTR_TRIGGER_INSTALL then sbi_dbtr_install_trig a0 d
  else if funcid =? SBI_EXT_DBTR_TRIGGER_UNINSTALL then no_value (sbi_dbtr_uninstall_trig a0 a1 d)
  else if funcid =? SBI_EXT_DBTR_TRIGGER_ENABLE then no_value (sbi_dbtr_enable_trig a0 a1 d)
  else if funcid =? SBI_EXT_DBTR_TRIGGER_UPDATE then no_value (sbi_dbtr_update_trig a0 a1 d)
  else if funcid =? SBI_EXT_DBTR_TRIGGER_DISABLE then no_value (sbi_dbtr_disable_trig a0 a1 d)
  else Some (SBI_ENOTSUPP, None, d).
End Dbtr.
