(* ===== verification/DbtrProps.v ===== *)
(** * Properties of the debug triggers (lib/sbi/sbi_dbtr.c)

    The logical triggers and the trigger registers refine a table of slots, each
    free or holding an installed trigger that is on or off; and no trigger of the
    supervisor is ever armed in M mode. *)

From S2P Require Import Prelude SbiTypes Bitops Domain Hsm Dbtr.

Local Open Scope Z_scope.

(** ** Bits *)

Lemma BIT_MASK_small k : 0 <= k < 64 -> BIT_MASK k = 2 ^ k.
Proof. intros H. unfold BIT_MASK, BITS_PER_LONG. rewrite Z.mod_small by lia. apply Z.shiftl_1_l. Qed.

Lemma pow2_range k : 0 <= k < 64 -> in_range 64 (2 ^ k).
Proof. intros H. unfold in_range. split; [lia|]. apply Z.pow_lt_mono_r; lia. Qed.

Lemma testbit_set_bit k w j : 0 <= k < 64 -> 0 <= j -> Z.testbit (set_bit k w) j = Z.testbit w j || (j =? k).
Proof. intros Hk Hj. unfold set_bit. rewrite BIT_MASK_small, Z.lor_spec, Z.pow2_bits_eqb, (Z.eqb_sym j) by lia. done. Qed.

Lemma testbit_clear_bit k w j : 0 <= k < 64 -> 0 <= j < 64 -> Z.testbit (clear_bit k w) j = Z.testbit w j && negb (j =? k).
Proof. intros Hk Hj. unfold clear_bit. rewrite BIT_MASK_small, Z.land_spec, testbit_not64, Z.pow2_bits_eqb, (Z.eqb_sym j) by lia. done. Qed.

Lemma testbit_update_bit b k w j : 0 <= k < 64 -> 0 <= j < 64 -> Z.testbit (update_bit b k w) j = if j =? k then b else Z.testbit w j.
Proof.
  intros Hk Hj. unfold update_bit. destruct b; [rewrite testbit_set_bit by lia|rewrite testbit_clear_bit by lia];
    destruct (Z.eqb_spec j k); cbn; by rewrite ?orb_true_r, ?orb_false_r, ?andb_true_r, ?andb_false_r.
Qed.

Lemma set_bit_range k w : 0 <= k < 64 -> in_range 64 w -> in_range 64 (set_bit k w).
Proof. intros Hk Hw. unfold set_bit. rewrite BIT_MASK_small by done. apply in_range_lor; [lia|done|by apply pow2_range]. Qed.

Lemma clear_bit_range k w : in_range 64 w -> in_range 64 (clear_bit k w).
Proof. intros Hw. apply land_range64, Hw. Qed.

Lemma update_bit_range b k w : 0 <= k < 64 -> in_range 64 w -> in_range 64 (update_bit b k w).
Proof. intros Hk Hw. destruct b; [by apply set_bit_range|by apply clear_bit_range]. Qed.

Lemma has_bit_testbit k w : 0 <= k -> has_bit k w = Z.testbit w k.
Proof.
  intros Hk. unfold has_bit. rewrite Z.shiftl_1_l. destruct (Z.testbit w k) eqn:E.
  - apply negb_true_iff, Z.eqb_neq. intros H. assert (Z.testbit (Z.land w (2 ^ k)) k = true) as H1 by (by rewrite Z.land_spec, E, Z.pow2_bits_true).
    rewrite H, Z.bits_0 in H1. done.
  - apply negb_false_iff, Z.eqb_eq, Z.bits_inj'. intros j Hj. rewrite Z.land_spec, Z.bits_0, Z.pow2_bits_eqb by done.
    destruct (Z.eqb_spec k j) as [<-|]; [by rewrite E|apply andb_false_r].
Qed.

(** The type of a word is its upper four bits. *)
Lemma type_shiftr v : in_range 64 v -> TDATA1_GET_TYPE v = Z.shiftr v 60.
Proof.
  intros Hv. unfold TDATA1_GET_TYPE, EXTRACT_FIELD. assert (Z.land v RV_DBTR_TDATA1_TYPE_BIT_MASK = Z.shiftl (Z.shiftr v 60) 60) as ->.
  { apply ext64.
    - apply in_range_land_l; [lia|exact Hv|done].
    - unfold in_range in *. rewrite Z.shiftl_mul_pow2, Z.shiftr_div_pow2 by lia. pose proof (Z.div_mod v (2 ^ 60) ltac:(lia)).
      pose proof (Z.mod_pos_bound v (2 ^ 60) ltac:(lia)). pose proof (Z.div_pos v (2 ^ 60) ltac:(lia) ltac:(lia)). lia.
    - intros i Hi. rewrite Z.land_spec, Z.shiftl_spec by lia. unfold RV_DBTR_TDATA1_TYPE_BIT_MASK. rewrite Z.shiftl_spec by lia.
      destruct (decide (60 <= i)).
      + rewrite Z.shiftr_spec by lia. replace (i - 60 + 60) with i by lia.
        assert (i - 60 = 0 \/ i - 60 = 1 \/ i - 60 = 2 \/ i - 60 = 3) as [->|[->|[->| ->]]] by lia; apply andb_true_r.
      + rewrite !(Z.testbit_neg_r _ (i - 60)) by lia. apply andb_false_r. }
  change (Z.land RV_DBTR_TDATA1_TYPE_BIT_MASK (not64 (RV_DBTR_TDATA1_TYPE_BIT_MASK - 1))) with (2 ^ 60).
  rewrite Z.shiftl_mul_pow2 by lia. by rewrite Z.div_mul.
Qed.

Lemma type_ext v w : in_range 64 v -> in_range 64 w -> (forall i, 60 <= i < 64 -> Z.testbit v i = Z.testbit w i) -> TDATA1_GET_TYPE v = TDATA1_GET_TYPE w.
Proof.
  intros Hv Hw H. rewrite !type_shiftr by done. apply Z.bits_inj'. intros i Hi. rewrite !Z.shiftr_spec by lia. destruct (decide (i + 60 < 64)); [apply H; lia|].
  by rewrite !(testbit_above 64) by (done || lia).
Qed.

(** ** Installed triggers *)

(** What a slot holds: the words the supervisor gave, and whether the trigger is
    switched on. *)
Record inst := Inst { i_t1 : Z; i_t2 : Z; i_t3 : Z; i_on : bool }.

(** A match trigger of type 6; the others that may be installed are of type 2. *)
Definition is_mc6 (t1 : Z) : bool := Z.shiftr t1 60 =? 6.

(** The word that describes an installed trigger: mapped, the modes it is for, and
    its number. *)
Definition state_word (i t1 : Z) : Z :=
  1 + 2 * Z.b2z (Z.testbit t1 3) + 4 * Z.b2z (Z.testbit t1 4) + 8 * Z.b2z (is_mc6 t1 && Z.testbit t1 23) + 16 * Z.b2z (is_mc6 t1 && Z.testbit t1 24) + 256 * i.

(** [tdata1] of a trigger that is switched off: in no mode. *)
Definition off_word (t1 : Z) : Z :=
  let w := clear_bit 4 (clear_bit 3 t1) in if is_mc6 t1 then clear_bit 24 (clear_bit 23 w) else w.

Definition view (a : inst) : Z := if a.(i_on) then a.(i_t1) else off_word a.(i_t1).

(** What may be installed: a match trigger (type 2 or 6) that is not for M mode
    (bit 6) or debug mode (bit 59). *)
Definition allowed (t1 : Z) : bool :=
  ((Z.shiftr t1 60 =? 2) || (Z.shiftr t1 60 =? 6)) && negb (Z.testbit t1 6) && negb (Z.testbit t1 59).

Definition inst_ok (a : inst) : Prop := in_range 64 a.(i_t1) /\ allowed a.(i_t1) = true.

Definition held (i : nat) (tm : Z) (a : inst) : sbi_dbtr_trigger := Trig (Z.of_nat i) tm (state_word (Z.of_nat i) a.(i_t1)) (view a) a.(i_t2) a.(i_t3).

Lemma allowed_type t1 : in_range 64 t1 -> allowed t1 = true ->
  TDATA1_GET_TYPE t1 = if is_mc6 t1 then RISCV_DBTR_TRIG_MCONTROL6 else RISCV_DBTR_TRIG_MCONTROL.
Proof.
  intros Hr. rewrite type_shiftr by done. unfold allowed, is_mc6. intros [[H _]%andb_true_iff _]%andb_true_iff.
  apply orb_true_iff in H as [->%Z.eqb_eq| ->%Z.eqb_eq]; done.
Qed.

Lemma allowed_bits t1 : allowed t1 = true -> Z.testbit t1 6 = false /\ Z.testbit t1 59 = false.
Proof. unfold allowed. intros [[_ H1%negb_true_iff]%andb_true_iff H2%negb_true_iff]%andb_true_iff. done. Qed.

(** The two checks of the code let exactly these through. *)
Lemma allowed_code t1 : in_range 64 t1 ->
  dbtr_trigger_supported (TDATA1_GET_TYPE t1) && dbtr_trigger_valid (TDATA1_GET_TYPE t1) t1 = allowed t1.
Proof.
  intros Hr. rewrite type_shiftr by done. unfold allowed, dbtr_trigger_supported, dbtr_trigger_valid, RISCV_DBTR_TRIG_MCONTROL, RISCV_DBTR_TRIG_MCONTROL6,
    RV_DBTR_MC_DMODE_BIT, RV_DBTR_MC_M_BIT, RV_DBTR_MC6_DMODE_BIT, RV_DBTR_MC6_M_BIT. rewrite !has_bit_testbit by lia.
  destruct (Z.shiftr t1 60 =? 2), (Z.shiftr t1 60 =? 6); cbn [orb andb]; try done; apply andb_comm.
Qed.

(** The state is built from at most four copied bits and the number. *)
Definition state_bits (i : Z) (u s vu vs : bool) : Z :=
  let c b k w := if b : bool then set_bit k w else w in
  c vs 4 (c vu 3 (c s 2 (c u 1 (SET_TRIG_HW_INDEX (set_bit RV_DBTR_TS_MAPPED_BIT 0) i)))).

Definition bool_all (P : bool -> bool) : bool := P true && P false.

Lemma bool_all_spec P b : bool_all P = true -> P b = true.
Proof. intros [??]%andb_true_iff. by destruct b. Qed.

Definition state_bits_good (i : nat) (u s vu vs : bool) : bool :=
  let i := Z.of_nat i in let w := state_bits i u s vu vs in
  (w =? 1 + 2 * Z.b2z u + 4 * Z.b2z s + 8 * Z.b2z vu + 16 * Z.b2z vs + 256 * i) && has_bit 0 w &&
  Bool.eqb (has_bit 1 w) u && Bool.eqb (has_bit 2 w) s && Bool.eqb (has_bit 3 w) vu && Bool.eqb (has_bit 4 w) vs.

Lemma state_bits_spec i u s vu vs : (i < 32)%nat -> state_bits_good i u s vu vs = true.
Proof.
  intros Hi. assert (forallb (fun i => bool_all (fun u => bool_all (fun s => bool_all (fun vu => bool_all (fun vs => state_bits_good i u s vu vs))))) (seq 0 32) = true) as H
    by (vm_compute; reflexivity).
  rewrite forallb_forall in H. specialize (H i ltac:(apply in_seq; lia)).
  apply (bool_all_spec _ u) in H. apply (bool_all_spec _ s) in H. apply (bool_all_spec _ vu) in H. by apply (bool_all_spec _ vs) in H.
Qed.

Lemma state_word_bits i t1 : (i < 32)%nat ->
  state_word (Z.of_nat i) t1 = state_bits (Z.of_nat i) (Z.testbit t1 3) (Z.testbit t1 4) (is_mc6 t1 && Z.testbit t1 23) (is_mc6 t1 && Z.testbit t1 24) /\
  has_bit 0 (state_word (Z.of_nat i) t1) = true /\ has_bit 1 (state_word (Z.of_nat i) t1) = Z.testbit t1 3 /\ has_bit 2 (state_word (Z.of_nat i) t1) = Z.testbit t1 4 /\
  has_bit 3 (state_word (Z.of_nat i) t1) = is_mc6 t1 && Z.testbit t1 23 /\ has_bit 4 (state_word (Z.of_nat i) t1) = is_mc6 t1 && Z.testbit t1 24.
Proof.
  intros Hi. pose proof (state_bits_spec i (Z.testbit t1 3) (Z.testbit t1 4) (is_mc6 t1 && Z.testbit t1 23) (is_mc6 t1 && Z.testbit t1 24) Hi) as H.
  unfold state_bits_good in H. cbv zeta in H. rewrite !andb_true_iff in H. destruct H as [[[[[H0%Z.eqb_eq H1] H2] H3] H4] H5].
  apply eqb_prop in H2, H3, H4, H5. fold (state_word (Z.of_nat i) t1) in H0. rewrite <- H0. done.
Qed.

Lemma setup_held trig i t1 t2 t3 : trig.(index) = Z.of_nat i -> (i < 32)%nat -> in_range 64 t1 -> allowed t1 = true ->
  dbtr_trigger_setup trig t1 t2 t3 = held i trig.(type_mask) (Inst t1 t2 t3 true).
Proof.
  intros Hx Hi Hr Ha. unfold dbtr_trigger_setup, held, view. cbn [i_t1 i_t2 i_t3 i_on]. destruct (state_word_bits i t1 Hi) as [-> _]. rewrite Hx. f_equal.
  rewrite (allowed_type t1 Hr Ha). unfold state_bits, test_bit. destruct (is_mc6 t1); reflexivity.
Qed.

Lemma off_word_range t1 : in_range 64 t1 -> in_range 64 (off_word t1).
Proof. intros H. unfold off_word. case_match; by repeat apply clear_bit_range. Qed.

Lemma off_word_bits t1 j : 0 <= j < 64 ->
  Z.testbit (off_word t1) j = Z.testbit t1 j && negb ((j =? 3) || (j =? 4) || is_mc6 t1 && ((j =? 23) || (j =? 24))).
Proof.
  intros Hj. unfold off_word. destruct (is_mc6 t1); rewrite !testbit_clear_bit by lia; destruct (Z.testbit t1 j), (j =? 3), (j =? 4), (j =? 23), (j =? 24); reflexivity.
Qed.

Lemma view_range a : inst_ok a -> in_range 64 (view a).
Proof. intros [H _]. unfold view. case_match; [done|by apply off_word_range]. Qed.

Lemma view_type a : inst_ok a -> TDATA1_GET_TYPE (view a) = TDATA1_GET_TYPE a.(i_t1).
Proof.
  intros [H _]. unfold view. case_match; [done|]. apply type_ext; [by apply off_word_range|done|]. intros i Hi. rewrite off_word_bits by lia.
  destruct (Z.eqb_spec i 3), (Z.eqb_spec i 4), (Z.eqb_spec i 23), (Z.eqb_spec i 24); try lia. cbn [orb]. rewrite andb_false_r. apply andb_true_r.
Qed.

Lemma view_bits a j : 0 <= j < 64 -> (j <> 3 -> j <> 4 -> (is_mc6 a.(i_t1) = true -> j <> 23 /\ j <> 24) -> Z.testbit (view a) j = Z.testbit a.(i_t1) j).
Proof.
  intros Hj H3 H4 H6. unfold view. case_match; [done|]. rewrite off_word_bits by lia. destruct (Z.eqb_spec j 3), (Z.eqb_spec j 4); try lia. cbn [orb].
  destruct (is_mc6 (i_t1 a)); [|by rewrite andb_true_r]. destruct (H6 eq_refl). destruct (Z.eqb_spec j 23), (Z.eqb_spec j 24); try lia. apply andb_true_r.
Qed.

(** Switching on restores the word installed. *)
Lemma enabled_held i tm a : (i < 32)%nat -> inst_ok a -> enabled_tdata1 (held i tm a) = a.(i_t1).
Proof.
  intros Hi Ha. pose proof (view_type a Ha) as Ht. pose proof (view_range a Ha) as Hr. destruct Ha as [Hr1 Ha].
  destruct (state_word_bits i a.(i_t1) Hi) as (_ & _ & H1 & H2 & H3 & H4). unfold enabled_tdata1. cbn [held state tdata1]. rewrite Ht, (allowed_type _ Hr1 Ha).
  unfold RV_DBTR_TS_S_BIT, RV_DBTR_TS_U_BIT, RV_DBTR_TS_VU_BIT, RV_DBTR_TS_VS_BIT, RV_DBTR_MC_S_BIT, RV_DBTR_MC_U_BIT, RV_DBTR_MC6_S_BIT, RV_DBTR_MC6_U_BIT, RV_DBTR_MC6_VS_BIT, RV_DBTR_MC6_VU_BIT.
  rewrite H1, H2, H3, H4. pose proof (view_bits a) as Hv. destruct (is_mc6 (i_t1 a)); cbn [Z.eqb Pos.eqb RISCV_DBTR_TRIG_MCONTROL RISCV_DBTR_TRIG_MCONTROL6 andb].
  - apply ext64; [by repeat (apply update_bit_range; [lia|])|done|]. intros j Hj. rewrite !testbit_update_bit by lia.
    destruct (Z.eqb_spec j 4) as [->|]; [done|]. destruct (Z.eqb_spec j 3) as [->|]; [done|]. destruct (Z.eqb_spec j 24) as [->|]; [done|].
    destruct (Z.eqb_spec j 23) as [->|]; [done|]. by apply Hv.
  - apply ext64; [by repeat (apply update_bit_range; [lia|])|done|]. intros j Hj. rewrite !testbit_update_bit by lia.
    destruct (Z.eqb_spec j 4) as [->|]; [done|]. destruct (Z.eqb_spec j 3) as [->|]; [done|]. by apply Hv.
Qed.

Lemma disabled_held i tm a : inst_ok a -> disabled_tdata1 (held i tm a) = off_word a.(i_t1).
Proof.
  intros Ha. pose proof (view_type a Ha) as Ht. pose proof (view_range a Ha) as Hr. destruct Ha as [Hr1 Ha]. unfold disabled_tdata1. cbn [held tdata1].
  rewrite Ht, (allowed_type _ Hr1 Ha). pose proof (view_bits a) as Hv. pose proof (off_word_bits a.(i_t1)) as Ho.
  destruct (is_mc6 (i_t1 a)); cbn [Z.eqb Pos.eqb RISCV_DBTR_TRIG_MCONTROL RISCV_DBTR_TRIG_MCONTROL6];
    (apply ext64; [by repeat apply clear_bit_range|by apply off_word_range|]); intros j Hj; rewrite Ho, !testbit_clear_bit by done;
    unfold RV_DBTR_MC_S_BIT, RV_DBTR_MC_U_BIT, RV_DBTR_MC6_S_BIT, RV_DBTR_MC6_U_BIT, RV_DBTR_MC6_VS_BIT, RV_DBTR_MC6_VU_BIT;
    destruct (Z.eqb_spec j 3), (Z.eqb_spec j 4), (Z.eqb_spec j 23), (Z.eqb_spec j 24); subst; cbn [orb andb negb]; rewrite ?andb_false_r, ?andb_true_r; try done; by apply Hv.
Qed.

(** ** The hardware *)

(** A trigger that fires in M mode: bit 6 of the match triggers, bit 9 of the
    others. *)
Definition fires_in_m (t1 : Z) : bool :=
  let t := Z.shiftr t1 60 in
  if (t =? 2) || (t =? 6) then Z.testbit t1 6 else if (t =? 3) || (t =? 4) || (t =? 5) then Z.testbit t1 9 else false.

(** Neither for M mode nor for debug mode. *)
Definition quiet (t1 : Z) : Prop := fires_in_m t1 = false /\ Z.testbit t1 59 = false.

(** The bits of [tdata1] that say in which modes a trigger of each type fires: M,
    S, U, VS and VU mode. *)
Definition mode_bits (type : Z) : list Z :=
  if type =? 2 then [6; 4; 3] else if type =? 6 then [6; 4; 3; 24; 23] else if type =? 3 then [9; 7; 6; 26; 25]
  else if (type =? 4) || (type =? 5) then [9; 7; 6; 12; 11] else [].

(** A trigger that fires in no mode; external triggers (type 7) have no such bits. *)
Definition disarmed (t1 : Z) : Prop :=
  Z.shiftr t1 60 <> 7 /\ Forall (fun k => Z.testbit t1 k = false) (mode_bits (Z.shiftr t1 60)).

Section Refine.
Context {thw : TrigHw}.

Definition unit_ok (u : trig_unit) : Prop :=
  0 <= u.(tselect) /\ (u.(tselect) < Z.of_nat hw_trigs \/ hw_trigs = 0%nat) /\ length u.(t1s) = hw_trigs /\ length u.(t2s) = hw_trigs /\ Forall quiet u.(t1s).

Lemma legal1_bit i v j : 0 <= j < 60 -> Z.testbit (legal1 i v) j = true -> Z.testbit v j = true /\ j < 59.
Proof.
  intros Hj. unfold legal1. case_match.
  - rewrite Z.lor_spec, Z.shiftl_spec_low, !Z.land_spec by lia. cbn [orb]. intros H1. apply andb_true_iff in H1 as [[H1 H2]%andb_true_iff _]. split; [done|].
    change (2 ^ 59 - 1) with (Z.ones 59) in H2. destruct (decide (j < 59)); [done|]. rewrite Z.ones_spec_high in H2 by lia. done.
  - by rewrite Z.shiftl_spec_low by lia.
Qed.

Lemma legal1_type i v : in_range 64 v -> Z.shiftr (legal1 i v) 60 = Z.shiftr v 60 \/ Z.shiftr (legal1 i v) 60 = 15.
Proof.
  intros Hv. unfold legal1. case_match; [left|by right]. rewrite Z.shiftr_lor, Z.shiftr_shiftl_l, Z.shiftl_0_r by lia.
  assert (Z.shiftr (Z.land (Z.land v (2 ^ 59 - 1)) (hw_bits i (Z.shiftr v 60))) 60 = 0) as ->; [|apply Z.lor_0_r].
  apply Z.bits_inj'. intros j Hj. rewrite Z.bits_0, Z.shiftr_spec, !Z.land_spec by lia. change (2 ^ 59 - 1) with (Z.ones 59).
  rewrite Z.ones_spec_high by lia. by rewrite andb_false_r.
Qed.

Lemma legal1_quiet i v : in_range 64 v -> Z.testbit v 6 = false -> (Z.shiftr v 60 = 2 \/ Z.shiftr v 60 = 6 \/ Z.shiftr v 60 = 0) -> quiet (legal1 i v).
Proof.
  intros Hv H6 Ht. assert (forall j, 0 <= j < 60 -> Z.testbit v j = false \/ j = 59 -> Z.testbit (legal1 i v) j = false) as Hb.
  { intros j Hj Hc. destruct (Z.testbit (legal1 i v) j) eqn:E; [|done]. apply legal1_bit in E as [E1 E2]; [|done]. destruct Hc as [Hc| ->]; [congruence|lia]. }
  split; [|apply Hb; [lia|by right]]. unfold fires_in_m. destruct (legal1_type i v Hv) as [E|E]; rewrite E; [|done].
  destruct Ht as [->|[->| ->]]; cbn [Z.eqb Pos.eqb orb]; [apply Hb; [lia|by left]|apply Hb; [lia|by left]|done].
Qed.

Lemma view_quiet i a : inst_ok a -> quiet (legal1 i (view a)).
Proof.
  intros Ha. pose proof (view_range a Ha) as Hr. pose proof (view_type a Ha) as Ht. destruct (allowed_bits a.(i_t1) (proj2 Ha)) as [H6 _].
  apply legal1_quiet; [done| |].
  - rewrite view_bits by lia. done.
  - rewrite <- type_shiftr by done. rewrite Ht, (allowed_type _ (proj1 Ha) (proj2 Ha)). destruct (is_mc6 _); [right; by left|by left].
Qed.

Lemma zero_quiet i : quiet (legal1 i 0).
Proof. apply legal1_quiet; [unfold in_range; lia|done|by right; right]. Qed.

Lemma zero_disarmed i : disarmed (legal1 i 0).
Proof.
  unfold disarmed. destruct (legal1_type i 0 ltac:(unfold in_range; lia)) as [E|E]; rewrite E; split; (done || constructor).
Qed.

(** A trigger programmed as a whole. *)
Definition program (i : nat) (v1 v2 : Z) (u : trig_unit) : trig_unit := TrigUnit (Z.of_nat i) (<[i := legal1 i v1]> u.(t1s)) (<[i := v2]> u.(t2s)).

Lemma select_ok u i : (i < hw_trigs)%nat -> write_tselect u (Z.of_nat i) = TrigUnit (Z.of_nat i) u.(t1s) u.(t2s).
Proof. intros Hi. unfold write_tselect. destruct (Z.ltb_spec (Z.of_nat i) (Z.of_nat hw_trigs)); [done|lia]. Qed.

Lemma program_ok i v1 v2 u : (i < hw_trigs)%nat -> unit_ok u -> quiet (legal1 i v1) -> unit_ok (program i v1 v2 u).
Proof.
  intros Hi (H0 & H1 & H2 & H3 & H4) Hq. unfold unit_ok, program. cbn [tselect t1s t2s]. rewrite !length_insert. split_and!; [lia|left; lia|done|done|].
  by apply Forall_insert.
Qed.

Lemma enable_held i tm a u : (i < hw_trigs)%nat -> (i < 32)%nat -> inst_ok a ->
  dbtr_trigger_enable (held i tm a) u = (held i tm (Inst a.(i_t1) a.(i_t2) a.(i_t3) true), program i a.(i_t1) a.(i_t2) u).
Proof.
  intros Hi H32 Ha. unfold dbtr_trigger_enable. assert (mapped (held i tm a) = true) as ->.
  { unfold mapped. cbn [held state]. by destruct (state_word_bits i a.(i_t1) H32) as (_ & H & _). }
  cbn [negb]. rewrite enabled_held by done. cbn [set_tdata1 held index tdata1 tdata2 tdata3 type_mask state]. rewrite select_ok by done.
  unfold write_tdata1, write_tdata2, program. cbn [tselect t1s t2s]. rewrite Nat2Z.id, list_insert_insert. by destruct (decide (i = i)).
Qed.

Lemma disable_held i tm a u : (i < hw_trigs)%nat -> (i < 32)%nat -> inst_ok a -> u.(t2s) !! i = Some a.(i_t2) ->
  dbtr_trigger_disable (held i tm a) u = (held i tm (Inst a.(i_t1) a.(i_t2) a.(i_t3) false), program i (off_word a.(i_t1)) a.(i_t2) u).
Proof.
  intros Hi H32 Ha H2. unfold dbtr_trigger_disable. assert (mapped (held i tm a) = true) as ->.
  { unfold mapped. cbn [held state]. by destruct (state_word_bits i a.(i_t1) H32) as (_ & H & _). }
  cbn [negb]. rewrite disabled_held by done. cbn [set_tdata1 held index tdata1 tdata2 tdata3 type_mask state]. rewrite select_ok by done.
  unfold write_tdata1, program. cbn [tselect t1s t2s]. by rewrite Nat2Z.id, (list_insert_id u.(t2s)).
Qed.

Lemma clear_held i tm a u : (i < hw_trigs)%nat -> (i < 32)%nat -> dbtr_trigger_clear (held i tm a) u = program i 0 0 u.
Proof.
  intros Hi H32. unfold dbtr_trigger_clear. assert (mapped (held i tm a) = true) as ->.
  { unfold mapped. cbn [held state]. by destruct (state_word_bits i a.(i_t1) H32) as (_ & H & _). }
  cbn [negb held index]. rewrite select_ok by done. unfold write_tdata1, write_tdata2, program. cbn [tselect t1s t2s]. by rewrite Nat2Z.id.
Qed.

(** ** The table of slots *)

Definition free (A : list (option inst)) : nat := length (filter (fun a => a = None) A).

(** The trigger of slot [i] in the firmware and its registers [v1] and [v2]: those
    of a free slot are off, those of an installed trigger hold it. *)
Definition slot_ok (i : nat) (t : sbi_dbtr_trigger) (v1 v2 : Z) (a : option inst) : Prop :=
  match a with
  | None => t = Trig (Z.of_nat i) t.(type_mask) 0 0 0 0 /\ disarmed v1
  | Some a => t = held i t.(type_mask) a /\ inst_ok a /\ v1 = legal1 i (view a) /\ v2 = a.(i_t2)
  end.

(** The state of the firmware and the registers of the hardware for a table. *)
Record rep (h : sbi_dbtr_hart_triggers_state) (u : trig_unit) (A : list (option inst)) : Prop := Rep {
  rp_len : length h.(triggers) = 32%nat;
  rp_total : h.(total_trigs) = Z.of_nat (length A);
  rp_max : (length A <= 32)%nat;
  rp_hw : (length A <= hw_trigs)%nat;
  rp_free : h.(available_trigs) = Z.of_nat (free A);
  rp_unit : unit_ok u;
  rp_kind : hw_tinfo = true -> forall i t, (i < length A)%nat -> h.(triggers) !! i = Some t -> t.(type_mask) = hw_types i;
  rp_slot : forall i a, A !! i = Some a -> exists t v1 v2, h.(triggers) !! i = Some t /\ u.(t1s) !! i = Some v1 /\ u.(t2s) !! i = Some v2 /\ slot_ok i t v1 v2 a;
}.

Lemma free_insert A i a b : A !! i = Some a ->
  Z.of_nat (free (<[i := b]> A)) = Z.of_nat (free A) - (if decide (a = None) then 1 else 0) + (if decide (b = None) then 1 else 0).
Proof.
  revert i. induction A as [|x A IH]; intros [|i] E; cbn in E; simplify_eq.
  - cbn [insert list_insert]. unfold free. rewrite !filter_cons. repeat case_decide; cbn [length]; try done; lia.
  - change (<[S i := b]> (x :: A)) with (x :: <[i := b]> A). specialize (IH i E). revert IH. unfold free. rewrite !filter_cons. generalize (<[i := b]> A). intros A'.
    repeat case_decide; cbn [length]; try done; lia.
Qed.

Lemma free_le A : (free A <= length A)%nat.
Proof. apply length_filter. Qed.

(** One slot changes, with its trigger and its registers. *)
Lemma rep_put h u A i a t t' v1 v2 a' n : rep h u A -> A !! i = Some a -> h.(triggers) !! i = Some t -> t'.(type_mask) = t.(type_mask) ->
  slot_ok i t' (legal1 i v1) v2 a' -> quiet (legal1 i v1) ->
  n = Z.of_nat (free (<[i := a']> A)) -> rep (set_available n (put_trigger i t' h)) (program i v1 v2 u) (<[i := a']> A).
Proof.
  intros [Hl Ht Hm Hw Hf Hu Hk Hs] Ha Het Htm Hok Hq ->. pose proof (lookup_lt_Some _ _ _ Ha) as Hi. split; cbn [set_available put_trigger set_triggers triggers total_trigs available_trigs].
  - by rewrite length_insert.
  - by rewrite length_insert.
  - by rewrite length_insert.
  - by rewrite length_insert.
  - done.
  - apply program_ok; [lia|done|done].
  - rewrite length_insert. intros Hti j t0 Hj. destruct (decide (i = j)) as [<-|Hij].
    + rewrite list_lookup_insert_eq by lia. intros [= <-]. rewrite Htm. by apply (Hk Hti i).
    + rewrite list_lookup_insert_ne by done. by apply Hk.
  - intros j b Hb. pose proof Hu as (_ & _ & H1 & H2 & _). cbn [program t1s t2s]. destruct (decide (i = j)) as [<-|Hij].
    + rewrite list_lookup_insert_eq in Hb by done. simplify_eq. exists t', (legal1 i v1), v2. rewrite !list_lookup_insert_eq by lia. done.
    + rewrite list_lookup_insert_ne in Hb by done. rewrite !list_lookup_insert_ne by done. by apply Hs.
Qed.

(** The same with the number of free slots as it is. *)
Lemma rep_switch h u A i a t t' v1 v2 a' : rep h u A -> A !! i = Some (Some a) ->
  h.(triggers) !! i = Some t -> t'.(type_mask) = t.(type_mask) -> slot_ok i t' (legal1 i v1) v2 (Some a') -> quiet (legal1 i v1) ->
  rep (put_trigger i t' h) (program i v1 v2 u) (<[i := Some a']> A).
Proof.
  intros Hrep Ha Het Htm Hok Hq. assert (put_trigger i t' h = set_available h.(available_trigs) (put_trigger i t' h)) as -> by (by destruct h).
  apply (rep_put h u A i (Some a) t); try done. rewrite (free_insert A i (Some a)) by done. rewrite (rp_free _ _ _ Hrep).
  destruct (decide (Some a = None)), (decide (Some a' = None)); try done. lia.
Qed.

Lemma rep_lookup h u A i a : rep h u A -> A !! i = Some a -> (i < 32)%nat /\ (i < hw_trigs)%nat /\
  exists t v1 v2, h.(triggers) !! i = Some t /\ u.(t1s) !! i = Some v1 /\ u.(t2s) !! i = Some v2 /\ slot_ok i t v1 v2 a.
Proof. intros Hrep Ha. pose proof (lookup_lt_Some _ _ _ Ha). pose proof (rp_max _ _ _ Hrep). pose proof (rp_hw _ _ _ Hrep). split; [lia|]. split; [lia|]. by apply (rp_slot _ _ _ Hrep). Qed.

Lemma slot_mapped i t v1 v2 a : (i < 32)%nat -> slot_ok i t v1 v2 a -> mapped t = match a with Some _ => true | None => false end.
Proof.
  intros Hi. destruct a as [a|]; cbn; [intros (-> & _)|by intros [-> _]]. unfold mapped. cbn [held state]. by destruct (state_word_bits i a.(i_t1) Hi) as (_ & H & _).
Qed.

(** ** What the calls do to the table *)

Definition switch (on : bool) (a : option inst) : option inst := option_map (fun a => Inst a.(i_t1) a.(i_t2) a.(i_t3) on) a.

Definition spec_switch (on : bool) (js : list nat) (A : list (option inst)) : list (option inst) := foldl (fun A i => alter (switch on) i A) A js.

Fixpoint spec_uninstall (js : list nat) (A : list (option inst)) : Z * list (option inst) :=
  match js with
  | [] => (0, A)
  | i :: js => match A !! i with Some (Some _) => spec_uninstall js (<[i := None]> A) | _ => (SBI_EINVAL, A) end
  end.

(** [w uidx] is the second word of entry [uidx]. *)
Fixpoint spec_update (w : Z -> Z) (js : list nat) (uidx : Z) (A : list (option inst)) : Z * list (option inst) :=
  match js with
  | [] => (0, A)
  | i :: js =>
      match A !! i with
      | Some (Some a) => spec_update w js (uidx + 1) (<[i := Some (Inst a.(i_t1) (w uidx) a.(i_t3) true)]> A)
      | _ => (SBI_EINVAL, A)
      end
  end.

Definition first_free (A : list (option inst)) : option nat := fst <$> list_find (fun a => a = None) A.

Definition in_table (js : list nat) (A : list (option inst)) : Prop := Forall (fun i => (i < length A)%nat) js.

Lemma selected_in h u A b m : rep h u A -> in_table (selected h.(total_trigs) b m) A.
Proof.
  intros Hrep. apply Forall_forall. intros i Hi. unfold selected in Hi. apply list_elem_of_filter in Hi as [_ Hi]. apply elem_of_seq in Hi.
  rewrite (rp_total _ _ _ Hrep) in Hi. lia.
Qed.

Lemma alter_at {X} (f : X -> X) (l : list X) (i : nat) x : l !! i = Some x -> alter f i l = <[i := f x]> l.
Proof. revert i. induction l as [|y l IH]; intros [|i] E; cbn in E; simplify_eq; [done|]. cbn. f_equal. by apply IH. Qed.

(** A switch of one trigger, whatever its slot. *)
Definition switches (on : bool) (f : sbi_dbtr_trigger -> trig_unit -> sbi_dbtr_trigger * trig_unit) : Prop :=
  forall i t u v1 a, (i < 32)%nat -> (i < hw_trigs)%nat -> u.(t1s) !! i = Some v1 ->
    match a with
    | None => t = Trig (Z.of_nat i) t.(type_mask) 0 0 0 0 -> f t u = (t, u)
    | Some a => t = held i t.(type_mask) a -> inst_ok a -> u.(t2s) !! i = Some a.(i_t2) ->
        f t u = (held i t.(type_mask) (Inst a.(i_t1) a.(i_t2) a.(i_t3) on), program i (view (Inst a.(i_t1) a.(i_t2) a.(i_t3) on)) a.(i_t2) u)
    end.

Lemma switches_enable : switches true dbtr_trigger_enable.
Proof. intros i t u v1 [a|] H32 Hhw _; [intros -> Ha _; by apply enable_held|by intros ->]. Qed.

Lemma switches_disable : switches false dbtr_trigger_disable.
Proof. intros i t u v1 [a|] H32 Hhw _; [intros -> Ha H2; by apply disable_held|by intros ->]. Qed.

Lemma each_switch on f js : switches on f -> forall h u A, rep h u A -> in_table js A ->
  exists h' u', each_trigger f js h u = Some (h', u') /\ rep h' u' (spec_switch on js A) /\ h'.(phys_lo) = h.(phys_lo) /\ h'.(phys_hi) = h.(phys_hi).
Proof.
  intros Hf. induction js as [|i js IH]; intros h u A Hrep Hin; cbn [each_trigger]; [by exists h, u|]. apply Forall_cons in Hin as [Hi Hin].
  destruct (lookup_lt_is_Some_2 A i Hi) as [a Ha]. destruct (rep_lookup _ _ _ _ _ Hrep Ha) as (H32 & Hhw & t & v1 & v2 & Et & E1 & E2 & Hok).
  rewrite Et. cbn [mbind option_bind]. pose proof (Hf i t u v1 a H32 Hhw E1) as Hfi.
  assert (in_table js (alter (switch on) i A)) as Hin' by (eapply Forall_impl; [exact Hin|]; intros j Hj; by rewrite length_alter).
  change (spec_switch on (i :: js) A) with (spec_switch on js (alter (switch on) i A)). destruct a as [a|].
  - destruct Hok as (Eh & Ha1 & -> & ->). rewrite (Hfi Eh Ha1 E2). set (a' := Inst a.(i_t1) a.(i_t2) a.(i_t3) on).
    assert (alter (switch on) i A = <[i := Some a']> A) as Ealt by (by rewrite (alter_at _ _ _ _ Ha)).
    rewrite Ealt in Hin' |- *. assert (inst_ok a') as Ha' by exact Ha1.
    apply (IH (put_trigger i (held i (type_mask t) a') h)); [|done]. apply (rep_switch h u A i a t); [done|done|done|done|done|by apply view_quiet].
  - rewrite (Hfi (proj1 Hok)). assert (alter (switch on) i A = A) as Ealt by (rewrite (alter_at _ _ _ _ Ha); by apply list_insert_id).
    rewrite Ealt in *. replace (put_trigger i t h) with h; [by apply IH|]. unfold put_trigger, set_triggers. rewrite list_insert_id by done. by destruct h.
Qed.

Lemma in_table_insert js (A : list (option inst)) i a : in_table js A -> in_table js (<[i := a]> A).
Proof. intros H. eapply Forall_impl; [exact H|]. intros j Hj. by rewrite length_insert. Qed.

Lemma uninstall_refines js : forall h u A, rep h u A -> in_table js A ->
  exists h' u', uninstall_loop js h u = Some ((spec_uninstall js A).1, h', u') /\ rep h' u' (spec_uninstall js A).2 /\ h'.(phys_lo) = h.(phys_lo) /\ h'.(phys_hi) = h.(phys_hi).
Proof.
  induction js as [|i js IH]; intros h u A Hrep Hin; cbn [uninstall_loop spec_uninstall]; [by exists h, u|]. apply Forall_cons in Hin as [Hi Hin].
  destruct (lookup_lt_is_Some_2 A i Hi) as [a Ha]. destruct (rep_lookup _ _ _ _ _ Hrep Ha) as (H32 & Hhw & t & v1 & v2 & Et & E1 & E2 & Hok).
  rewrite Et, Ha. cbn [mbind option_bind]. rewrite (slot_mapped i t v1 v2 a H32 Hok). destruct a as [a|]; cbn [negb]; [|by exists h, u].
  destruct Hok as (Eh & Ha1 & -> & ->). unfold sbi_free_trigger. rewrite Et. cbn [mbind option_bind]. assert (dbtr_trigger_clear t u = program i 0 0 u) as -> by (rewrite Eh; by apply clear_held).
  set (h1 := set_available _ _). apply (IH h1 (program i 0 0 u) (<[i := None]> A)); [|by apply in_table_insert].
  apply (rep_put h u A i (Some a) t); [done|done|done|done| |apply zero_quiet|].
  - cbn. split; [by rewrite Eh|apply zero_disarmed].
  - cbn [put_trigger set_triggers available_trigs]. rewrite (free_insert A i (Some a)) by done. rewrite (rp_free _ _ _ Hrep). pose proof (free_le A). pose proof (rp_max _ _ _ Hrep).
    rewrite wrap_small by (unfold in_range; lia). destruct (decide (Some a = None)), (decide (None = None :> option inst)); try done. lia.
Qed.

Lemma update_refines b m js : forall uidx h u A, rep h u A -> in_table js A ->
  let spec := spec_update (fun k => m (entry_word b k 2)) js uidx A in
  exists h' u', update_loop js b uidx m h u = Some (spec.1, h', u') /\ rep h' u' spec.2 /\ h'.(phys_lo) = h.(phys_lo) /\ h'.(phys_hi) = h.(phys_hi).
Proof.
  induction js as [|i js IH]; intros uidx h u A Hrep Hin; cbn [update_loop spec_update]; [by exists h, u|]. apply Forall_cons in Hin as [Hi Hin].
  destruct (lookup_lt_is_Some_2 A i Hi) as [a Ha]. destruct (rep_lookup _ _ _ _ _ Hrep Ha) as (H32 & Hhw & t & v1 & v2 & Et & E1 & E2 & Hok).
  rewrite Et, Ha. cbn [mbind option_bind]. rewrite (slot_mapped i t v1 v2 a H32 Hok). destruct a as [a|]; cbn [negb]; [|by exists h, u].
  destruct Hok as (Eh & Ha1 & -> & ->). set (w := m (entry_word b uidx 2)). set (a1 := Inst a.(i_t1) w a.(i_t3) a.(i_on)).
  assert (set_tdata2 w t = held i t.(type_mask) a1) as -> by (by rewrite Eh). assert (inst_ok a1) as Ha2 by exact Ha1. rewrite enable_held by done.
  cbn [held type_mask]. apply (IH (uidx + 1) (put_trigger i (held i t.(type_mask) (Inst a.(i_t1) w a.(i_t3) true)) h) (program i a1.(i_t1) a1.(i_t2) u) (<[i := Some (Inst a.(i_t1) w a.(i_t3) true)]> A)); [|by apply in_table_insert].
  apply (rep_switch h u A i a t); [done|done|done|done|done|]. by apply (view_quiet i (Inst a.(i_t1) w a.(i_t3) true)).
Qed.

(** *** Installing *)

Lemma first_free_some A i : first_free A = Some i -> A !! i = Some None /\ forall j, (j < i)%nat -> exists a, A !! j = Some (Some a).
Proof.
  unfold first_free. destruct (list_find _ A) as [[k x]|] eqn:E; [|done]. intros [= <-]. apply list_find_Some in E as (E & -> & H). cbn. split; [done|].
  intros j Hj. destruct (lookup_lt_is_Some_2 A j) as [[a|] Ej]; [apply lookup_lt_Some in E; lia|by exists a|]. by destruct (H j None Ej Hj).
Qed.

Lemma first_free_exists A : (0 < free A)%nat -> is_Some (first_free A).
Proof.
  unfold first_free, free. intros H. destruct (list_find (fun a => a = None) A) as [[k x]|] eqn:E; [by eexists|]. apply list_find_None in E.
  rewrite Forall_forall in E. destruct (filter (fun a => a = None) A) as [|x l] eqn:El; [cbn in H; lia|]. assert (x ∈ filter (fun a => a = None) A) as Hx by (rewrite El; left).
  apply list_elem_of_filter in Hx as [-> Hx]. by destruct (E None Hx).
Qed.

Lemma alloc_loop_spec h u A k : rep h u A -> A !! k = Some None -> (forall j, (j < k)%nat -> exists a, A !! j = Some (Some a)) ->
  forall n i, (i <= k)%nat -> (k < i + n)%nat -> alloc_loop n h (Z.of_nat i) = Some (Some k).
Proof.
  intros Hrep Hk Hj. induction n as [|n IH]; intros i Hi Hn; [lia|]. cbn [alloc_loop]. pose proof (lookup_lt_Some _ _ _ Hk). rewrite (rp_total _ _ _ Hrep).
  destruct (Z.ltb_spec (Z.of_nat i) (Z.of_nat (length A))); [|lia]. rewrite Nat2Z.id. destruct (decide (i = k)) as [->|Hne].
  - destruct (rep_lookup _ _ _ _ _ Hrep Hk) as (H32 & _ & t & v1 & v2 & -> & _ & _ & Hok). cbn [mbind option_bind]. by rewrite (slot_mapped k t v1 v2 None H32 Hok).
  - destruct (Hj i ltac:(lia)) as [a Ha]. destruct (rep_lookup _ _ _ _ _ Hrep Ha) as (H32 & _ & t & v1 & v2 & -> & _ & _ & Hok). cbn [mbind option_bind].
    rewrite (slot_mapped i t v1 v2 (Some a) H32 Hok). replace (Z.of_nat i + 1) with (Z.of_nat (S i)) by lia. apply IH; lia.
Qed.

Lemma alloc_spec h u A : rep h u A -> (0 < free A)%nat -> exists k t, first_free A = Some k /\ h.(triggers) !! k = Some t /\
  sbi_alloc_trigger h = Some (Some k, put_trigger k (set_state (set_bit RV_DBTR_TS_MAPPED_BIT t.(state)) t) (set_available (Z.of_nat (free A) - 1) h)).
Proof.
  intros Hrep Hf. destruct (first_free_exists A Hf) as [k Hk]. destruct (first_free_some A k Hk) as [Ek Hj].
  destruct (rep_lookup _ _ _ _ _ Hrep Ek) as (H32 & _ & t & v1 & v2 & Et & _ & _ & Hok). exists k, t. split; [done|]. split; [done|].
  unfold sbi_alloc_trigger. rewrite (rp_free _ _ _ Hrep). destruct (Z.leb_spec (Z.of_nat (free A)) 0); [lia|].
  rewrite (alloc_loop_spec h u A k Hrep Ek Hj _ 0) by (rewrite ?(rp_total _ _ _ Hrep), ?Nat2Z.id; pose proof (lookup_lt_Some _ _ _ Ek); lia).
  cbn [mbind option_bind]. rewrite Et. cbn [mbind option_bind]. pose proof (free_le A). pose proof (rp_max _ _ _ Hrep). by rewrite wrap_small by (unfold in_range; lia).
Qed.

(** The new triggers go to the free slots, the lowest first; the numbers of the
    slots are the identifiers. *)
Fixpoint place (new : list inst) (A : list (option inst)) : option (list nat * list (option inst)) :=
  match new with
  | [] => Some ([], A)
  | a :: new => k ← first_free A; '(ks, A') ← place new (<[k := Some a]> A); Some (k :: ks, A')
  end.

(** The triggers that [n] entries from [idx] on ask for. *)
Definition entry_inst (m : Z -> Z) (b idx : Z) : inst := Inst (m (entry_word b idx 1)) (m (entry_word b idx 2)) (m (entry_word b idx 3)) true.
Fixpoint entries (m : Z -> Z) (b idx : Z) (n : nat) : list inst :=
  match n with O => [] | S n => entry_inst m b idx :: entries m b (idx + 1) n end.

Fixpoint write_ids (b idx : Z) (ks : list nat) (m : Z -> Z) : Z -> Z :=
  match ks with [] => m | k :: ks => write_ids b (idx + 1) ks (<[entry_word b idx 4 := Z.of_nat k]> m) end.

Lemma entry_word_id b j w idx : 0 <= j < 2 ^ 32 -> 0 <= idx < 2 ^ 32 -> 1 <= w <= 3 -> entry_word b j w <> entry_word b idx 4.
Proof.
  intros Hj Hi Hw. unfold entry_word, wrap. intros E. apply Z.cong_iff_ex in E as [q E]. lia.
Qed.

Lemma install_refines b n : forall idx h u A m m0, rep h u A -> (n <= free A)%nat -> 0 <= idx -> idx + Z.of_nat n < 2 ^ 32 ->
  (forall j w, idx <= j < 2 ^ 32 -> 1 <= w <= 3 -> m (entry_word b j w) = m0 (entry_word b j w)) -> Forall inst_ok (entries m0 b idx n) ->
  exists h' u' ks A', install_loop n b idx h u m = Some (h', u', write_ids b idx ks m) /\ place (entries m0 b idx n) A = Some (ks, A') /\ rep h' u' A' /\
    h'.(phys_lo) = h.(phys_lo) /\ h'.(phys_hi) = h.(phys_hi).
Proof.
  induction n as [|n IH]; intros idx h u A m m0 Hrep Hn Hi Hmax Hm Hok; [by exists h, u, [], A|]. cbn [install_loop entries place].
  destruct (alloc_spec h u A Hrep ltac:(lia)) as (k & t & Hk & Et & ->). rewrite Hk. cbn [mbind option_bind].
  destruct (first_free_some A k Hk) as [Ek _]. destruct (rep_lookup _ _ _ _ _ Hrep Ek) as (H32 & Hhw & t' & v1 & v2 & Et' & _ & _ & Hslot). simplify_eq.
  pose proof (rp_len _ _ _ Hrep) as Hlen. cbn [put_trigger set_triggers triggers set_available]. rewrite list_lookup_insert_eq by lia. cbn [mbind option_bind].
  rewrite !Hm by lia. cbn [entries] in Hok. apply Forall_cons in Hok as [Ha Hok]. set (a := entry_inst m0 b idx) in *. pose proof Ha as [_ Hal].
  rewrite (setup_held _ k) by first [done|by rewrite (proj1 Hslot)|apply Ha]. fold a. cbn [set_state type_mask]. change (Inst _ _ _ true) with a. rewrite enable_held by done.
  change (Inst (i_t1 a) (i_t2 a) (i_t3 a) true) with a.
  set (h1 := put_trigger k (held k (type_mask t) a) _).
  assert (h1 = set_available (Z.of_nat (free A) - 1) (put_trigger k (held k t.(type_mask) a) h)) as Eh1.
  { unfold h1, put_trigger, set_triggers, set_available. cbn. rewrite list_insert_insert. by destruct (decide (k = k)). }
  assert (Z.of_nat (free (<[k := Some a]> A)) = Z.of_nat (free A) - 1) as Hfree.
  { rewrite (free_insert A k None) by done. destruct (decide (None = None :> option inst)), (decide (Some a = None)); try done. lia. }
  destruct (IH (idx + 1) h1 (program k a.(i_t1) a.(i_t2) u) (<[k := Some a]> A) (<[entry_word b idx 4 := Z.of_nat k]> m) m0) as (h' & u' & ks & A' & E & Ep & Hrep' & Hlo & Hhi).
  - rewrite Eh1. apply (rep_put h u A k None t); [done|done|done|done|done|by apply (view_quiet k a)|done].
  - lia.
  - lia.
  - lia.
  - intros j w Hj Hw. rewrite fn_lookup_insert_ne by (apply not_eq_sym, entry_word_id; lia). apply Hm; lia.
  - done.
  - cbn [held index]. rewrite E, Ep. cbn [mbind option_bind]. exists h', u', (k :: ks), A'. split_and!; done.
Qed.

Lemma check_loop_spec b m n : forall idx, (forall a, in_range 64 (m a)) ->
  match check_loop n b idx m with
  | None => Forall inst_ok (entries m b idx n)
  | Some j => idx <= j < idx + Z.of_nat n /\ allowed (m (entry_word b j 1)) = false /\ forall i, idx <= i < j -> allowed (m (entry_word b i 1)) = true
  end.
Proof.
  intros idx Hm. revert idx. induction n as [|n IH]; intros idx; cbn [check_loop entries]; [constructor|]. set (v := m (entry_word b idx 1)).
  pose proof (allowed_code v (Hm _)) as Hv.
  destruct (dbtr_trigger_supported (TDATA1_GET_TYPE v)) eqn:E1; cbn [negb]; [|split_and!; [lia|lia|by fold v; rewrite <- Hv|intros i Hi; lia]].
  destruct (dbtr_trigger_valid (TDATA1_GET_TYPE v) v) eqn:E2; cbn [negb]; [|split_and!; [lia|lia|by fold v; rewrite <- Hv|intros i Hi; lia]].
  cbn [andb] in Hv. symmetry in Hv. specialize (IH (idx + 1)). destruct (check_loop n b (idx + 1) m) as [j|].
  - destruct IH as (Hj & Hb & Hall). split_and!; [lia|lia|done|]. intros i Hi. destruct (decide (i = idx)) as [->|]; [done|]. apply Hall. lia.
  - constructor; [|done]. split; [apply Hm|done].
Qed.

(** *** Reading *)

(** The four words that describe a slot. *)
Definition slot_words (i : nat) (a : option inst) : Z * Z * Z * Z :=
  match a with None => (0, 0, 0, 0) | Some a => (state_word (Z.of_nat i) a.(i_t1), view a, a.(i_t2), a.(i_t3)) end.

(** [n] slots from [i] on, written to the entries from [idx] on. *)
Fixpoint spec_read (A : list (option inst)) (b : Z) (i n : nat) (idx : Z) (m : Z -> Z) : Z -> Z :=
  match n with
  | O => m
  | S n =>
      let '(w0, w1, w2, w3) := slot_words i (default None (A !! i)) in
      spec_read A b (S i) n (idx + 1)
        (<[entry_word b idx 3 := w3]> (<[entry_word b idx 2 := w2]> (<[entry_word b idx 1 := w1]> (<[entry_word b idx 0 := w0]> m))))
  end.

Lemma read_refines h u A base n : rep h u A -> (base + n <= length A)%nat -> forall k fuel m, (k <= n)%nat -> (n - k < fuel)%nat ->
  read_loop fuel h (Z.of_nat base) (Z.of_nat n) (Z.of_nat k) m = Some (spec_read A (hart_shmem_base h) (base + k) (n - k) (Z.of_nat k) m).
Proof.
  intros Hrep Hlen k fuel m Hk Hf. pose proof (rp_max _ _ _ Hrep) as Hmax. remember (n - k)%nat as r eqn:Er. revert k fuel m Hk Hf Er. induction r as [|r IH]; intros k fuel m Hk Hf Er.
  - destruct fuel; cbn [read_loop spec_read]; destruct (Z.ltb_spec (Z.of_nat k) (Z.of_nat n)); try lia; done.
  - destruct fuel as [|fuel]; [lia|]. cbn [read_loop spec_read]. destruct (Z.ltb_spec (Z.of_nat k) (Z.of_nat n)); [|lia].
    rewrite wrap_small by (unfold in_range; lia). replace (Z.to_nat (Z.of_nat k + Z.of_nat base)) with (base + k)%nat by lia.
    destruct (lookup_lt_is_Some_2 A (base + k) ltac:(lia)) as [a Ha]. destruct (rep_lookup _ _ _ _ _ Hrep Ha) as (H32 & _ & t & v1 & v2 & -> & _ & _ & Hok).
    cbn [mbind option_bind]. rewrite Ha. cbn [default from_option]. replace (Z.of_nat k + 1) with (Z.of_nat (S k)) by lia. rewrite IH by lia.
    replace (base + S k)%nat with (S (base + k)) by lia. destruct a as [a|]; cbn [slot_words].
    + destruct Hok as (-> & _). done.
    + by rewrite (proj1 Hok).
Qed.

Lemma count_type_range h u A type : rep h u A -> forall n i total, 0 <= i -> 0 <= total ->
  exists r, count_type n h type i total = Some r /\ total <= r <= total + Z.of_nat n.
Proof.
  intros Hrep. induction n as [|n IH]; intros i total Hi Ht; cbn [count_type]; [exists total; split; [done|lia]|]. rewrite (rp_total _ _ _ Hrep).
  destruct (Z.ltb_spec i (Z.of_nat (length A))); [|exists total; split; [done|lia]].
  destruct (lookup_lt_is_Some_2 h.(triggers) (Z.to_nat i)) as [t ->]; [pose proof (rp_len _ _ _ Hrep); pose proof (rp_max _ _ _ Hrep); lia|]. cbn [mbind option_bind].
  destruct (IH (i + 1) (if test_bit type (type_mask t) then total + 1 else total)) as (r & -> & Hr); [lia|case_match; lia|]. exists r. split; [done|]. revert Hr. case_match; lia.
Qed.

(** The triggers from [i] on that support a type. *)
Definition supporting (type : Z) (i n : nat) : list nat := filter (fun j => Z.testbit (hw_types j) type = true) (seq i n).

Lemma count_type_exact h u A type : rep h u A -> hw_tinfo = true -> forall n i total, (i + n = length A)%nat ->
  count_type n h type (Z.of_nat i) total = Some (total + Z.of_nat (length (supporting type i n))).
Proof.
  intros Hrep Hti. induction n as [|n IH]; intros i total Hi; cbn [count_type]; [f_equal; cbn; lia|]. rewrite (rp_total _ _ _ Hrep).
  destruct (Z.ltb_spec (Z.of_nat i) (Z.of_nat (length A))); [|lia]. rewrite Nat2Z.id.
  destruct (lookup_lt_is_Some_2 h.(triggers) i) as [t Et]; [pose proof (rp_len _ _ _ Hrep); pose proof (rp_max _ _ _ Hrep); lia|]. rewrite Et. cbn [mbind option_bind].
  rewrite (rp_kind _ _ _ Hrep Hti i t) by (done || lia). replace (Z.of_nat i + 1) with (Z.of_nat (S i)) by lia. rewrite IH by lia.
  unfold supporting. cbn [seq]. rewrite filter_cons. unfold test_bit. f_equal. case_decide as E; [rewrite E; cbn [length]; lia|]. by rewrite (not_true_is_false _ E).
Qed.

(** The slots a call names: those from [b] on whose bit is set in the mask, which
    counts from [b]. *)
Definition chosen (n b mask : Z) : list nat :=
  filter (fun i => b <= Z.of_nat i /\ Z.testbit mask (Z.of_nat i - b) = true) (seq 0 (Z.to_nat n)).

Lemma selected_chosen n b mask : 0 <= b -> n <= 64 -> selected n b mask = chosen n b mask.
Proof.
  intros Hb Hn. unfold selected, chosen. apply list_filter_agree. intros i Hi%elem_of_seq.
  by rewrite wrap_testbit, Z.shiftl_spec, bool_decide_eq_true_2 by lia.
Qed.

(** ** The calls *)

(** The abstract state: the slots and the address of the shared memory. *)
Record table := Table { slots : list (option inst); shmem : option Z }.

Inductive dcall :=
| NumTriggers (data : Z) | SetupShmem (lo hi : Z) | ReadTriggers (base count : Z) | Install (count : Z)
| Uninstall (base mask : Z) | Enable (base mask : Z) | Update (base mask : Z) | Disable (base mask : Z).

Definition call_regs (c : dcall) : Z * Z * Z :=
  match c with
  | NumTriggers d => (SBI_EXT_DBTR_NUM_TRIGGERS, d, 0)
  | SetupShmem lo hi => (SBI_EXT_DBTR_SETUP_SHMEM, lo, hi)
  | ReadTriggers b n => (SBI_EXT_DBTR_TRIGGER_READ, b, n)
  | Install n => (SBI_EXT_DBTR_TRIGGER_INSTALL, n, 0)
  | Uninstall b k => (SBI_EXT_DBTR_TRIGGER_UNINSTALL, b, k)
  | Enable b k => (SBI_EXT_DBTR_TRIGGER_ENABLE, b, k)
  | Update b k => (SBI_EXT_DBTR_TRIGGER_UPDATE, b, k)
  | Disable b k => (SBI_EXT_DBTR_TRIGGER_DISABLE, b, k)
  end.

(** Register values; the first trigger and the number of triggers to read do not
    wrap around. *)
Definition call_ok (c : dcall) : Prop :=
  match c with
  | NumTriggers data => in_range 64 data
  | ReadTriggers b n => 0 <= b /\ 0 <= n /\ b + n < 2 ^ 64
  | Install n => 0 <= n
  | SetupShmem lo hi => in_range 64 lo /\ in_range 64 hi
  | Uninstall b k | Enable b k | Update b k | Disable b k => in_range 64 b /\ in_range 64 k
  end.

Definition run_call (dom : option sbi_domain) (hartindex smode : Z) (c : dcall) (d : dbtr) : option (Z * option Z * dbtr) :=
  let '(f, a0, a1) := call_regs c in sbi_ecall_dbtr_handler dom hartindex smode f a0 a1 d.

(** The specification: result, value, table and memory after a call. *)
Definition call_spec (dom : option sbi_domain) (hartindex smode : Z) (c : dcall) (T : table) (m : Z -> Z) (rc : Z) (v : option Z) (T' : table) (m' : Z -> Z) : Prop :=
  let A := T.(slots) in
  let n := Z.of_nat (length A) in
  let on_slots r := rc = r.1 /\ v = None /\ T' = Table r.2 T.(shmem) /\ m' = m in
  let fails code := rc = code /\ v = None /\ T' = T /\ m' = m in
  match c with
  | NumTriggers data => rc = 0 /\ T' = T /\ m' = m /\ exists k, v = Some k /\ 0 <= k <= n /\ (data = 0 -> k = n) /\
      (data <> 0 -> hw_tinfo = true -> k = Z.of_nat (length (supporting (Z.shiftr data 60) 0 (length A))))
  | SetupShmem lo hi =>
      if given dom && negb (sbi_domain_is_assigned_hart dom hartindex) then fails SBI_EDENIED
      else if decide (lo = SBI_DBTR_SHMEM_INVALID_ADDR /\ hi = SBI_DBTR_SHMEM_INVALID_ADDR) then rc = 0 /\ v = None /\ T' = Table A None /\ m' = m
      else if decide (T.(shmem) <> None) then fails SBI_EALREADY
      else if decide (lo `mod` 8 <> 0) then fails SBI_EINVAL
      else if decide (hi <> 0) then fails SBI_EINVALID_ADDR
      else if given dom && negb (sbi_domain_check_addr dom lo smode (Z.lor SBI_DOMAIN_READ SBI_DOMAIN_WRITE)) then fails SBI_EINVALID_ADDR
      else rc = 0 /\ v = None /\ T' = Table A (Some lo) /\ m' = m
  | ReadTriggers b k =>
      if decide (n <= b + k) then fails SBI_EINVAL
      else match T.(shmem) with
           | None => fails SBI_ERR_NO_SHMEM
           | Some base => rc = 0 /\ v = None /\ T' = T /\ m' = spec_read A base (Z.to_nat b) (Z.to_nat k) 0 m
           end
  | Install k =>
      match T.(shmem) with
      | None => fails SBI_ERR_NO_SHMEM
      | Some base =>
          let new := entries m base 0 (Z.to_nat k) in
          (rc = SBI_EFAIL /\ T' = T /\ m' = m /\ exists j, v = Some j /\ 0 <= j < k /\ allowed (m (entry_word base j 1)) = false /\
             forall i, 0 <= i < j -> allowed (m (entry_word base i 1)) = true) \/
          (rc = SBI_EFAIL /\ T' = T /\ m' = m /\ v = Some (Z.of_nat (free A)) /\ Forall inst_ok new /\ Z.of_nat (free A) < k) \/
          (rc = 0 /\ v = None /\ Forall inst_ok new /\ exists ks A', place new A = Some (ks, A') /\ T' = Table A' T.(shmem) /\ m' = write_ids base 0 ks m)
      end
  | Uninstall b k => on_slots (spec_uninstall (chosen n b k) A)
  | Enable b k => on_slots (0, spec_switch true (chosen n b k) A)
  | Disable b k => on_slots (0, spec_switch false (chosen n b k) A)
  | Update b k =>
      match T.(shmem) with
      | None => fails SBI_ERR_NO_SHMEM
      | Some base => on_slots (spec_update (fun i => m (entry_word base i 2)) (chosen n b k) 0 A)
      end
  end.

Definition shmem_rep (h : sbi_dbtr_hart_triggers_state) (s : option Z) : Prop :=
  match s with
  | None => h.(phys_lo) = SBI_DBTR_SHMEM_INVALID_ADDR /\ h.(phys_hi) = SBI_DBTR_SHMEM_INVALID_ADDR
  | Some b => h.(phys_lo) = b /\ h.(phys_hi) = 0
  end.

Definition table_rep (d : dbtr) (T : table) : Prop := exists h, d.(hs) = Some h /\ rep h d.(unit_) T.(slots) /\ shmem_rep h T.(shmem).

Lemma shmem_disabled_spec h s : shmem_rep h s -> sbi_dbtr_shmem_disabled h = match s with None => true | Some _ => false end.
Proof.
  unfold sbi_dbtr_shmem_disabled. destruct s as [b|]; intros [-> ->]; [|done]. by rewrite andb_comm.
Qed.

Lemma align_mask x : 0 <= x -> (Z.land x SBI_DBTR_SHMEM_ALIGN_MASK =? 0) = bool_decide (x `mod` 8 = 0).
Proof.
  intros Hx. change SBI_DBTR_SHMEM_ALIGN_MASK with (Z.ones 3). rewrite Z.land_ones by lia. change (2 ^ 3) with 8.
  case_bool_decide as E; [by apply Z.eqb_eq|by apply Z.eqb_neq].
Qed.

Lemma rep_shmem h u A lo hi : rep h u A -> rep (set_shmem lo hi h) u A.
Proof. by intros []. Qed.

Lemma setup_refines dom hartindex smode lo hi d T : table_rep d T -> call_ok (SetupShmem lo hi) ->
  exists rc d' T', sbi_dbtr_setup_shmem dom hartindex smode lo hi d = (rc, d') /\ table_rep d' T' /\
    call_spec dom hartindex smode (SetupShmem lo hi) T d.(mem) rc None T' d'.(mem).
Proof.
  intros (h & Eh & Hrep & Hs) [Hlo Hhi]. unfold sbi_dbtr_setup_shmem, call_spec. assert (table_rep d T) as Hsame by (by exists h).
  destruct (given dom && negb _); [exists SBI_EDENIED, d, T; split_and!; done|]. rewrite Eh.
  destruct (Z.eqb_spec lo SBI_DBTR_SHMEM_INVALID_ADDR) as [E1|E1]; [destruct (Z.eqb_spec hi SBI_DBTR_SHMEM_INVALID_ADDR) as [E2|E2]|]; cbn [andb].
  1: { eexists _, _, (Table T.(slots) None). split; [done|]. rewrite decide_True by done. split; [|done]. eexists. split; [done|]. split; [by apply rep_shmem|done]. }
  all: assert (~ (lo = SBI_DBTR_SHMEM_INVALID_ADDR /\ hi = SBI_DBTR_SHMEM_INVALID_ADDR)) as Hdis by (intros [? ?]; done).
  all: rewrite (shmem_disabled_spec h _ Hs); destruct T as [A [b|]]; cbn [shmem slots] in *; cbn [negb];
    [exists SBI_EALREADY, d, (Table A (Some b)); rewrite (decide_False _ _ Hdis), decide_True by done; done|].
  all: rewrite align_mask by (unfold in_range in Hlo; lia); case_bool_decide as Ea; cbn [negb];
    [|exists SBI_EINVAL, d, (Table A None); rewrite (decide_False _ _ Hdis), decide_False, decide_True by (done || by intros ?); done].
  all: destruct (Z.eqb_spec hi 0) as [->|Hz]; cbn [negb];
    [|exists SBI_EINVALID_ADDR, d, (Table A None); rewrite (decide_False _ _ Hdis), !decide_False, decide_True by (done || by intros ?); done].
  all: destruct (given dom && negb _) eqn:Ec;
    [exists SBI_EINVALID_ADDR, d, (Table A None); rewrite (decide_False _ _ Hdis), !decide_False by (by intros ?); done|].
  all: eexists _, _, (Table A (Some lo)); split; [done|]; rewrite (decide_False _ _ Hdis), !decide_False by (by intros ?); split; [|done]; eexists; split; [done|]; split; [by apply rep_shmem|done].
Qed.

Lemma spec_switch_length on js A : length (spec_switch on js A) = length A.
Proof. revert A. induction js as [|i js IH]; intros A; [done|]. change (spec_switch on (i :: js) A) with (spec_switch on js (alter (switch on) i A)). by rewrite IH, length_alter. Qed.

Lemma install_call n d T : table_rep d T -> 0 <= n -> (forall a, in_range 64 (d.(mem) a)) ->
  exists rc v d' T', sbi_dbtr_install_trig n d = Some (rc, v, d') /\ table_rep d' T' /\ forall dom hartindex smode, call_spec dom hartindex smode (Install n) T d.(mem) rc v T' d'.(mem).
Proof.
  intros (h & Eh & Hrep & Hs) Hn Hm. assert (table_rep d T) as Hsame by (by exists h). unfold sbi_dbtr_install_trig. rewrite Eh, (shmem_disabled_spec h _ Hs).
  destruct T as [A [b|]]; cbn [shmem slots] in *; [|exists SBI_ERR_NO_SHMEM, None, d, (Table A None); done].
  destruct Hs as [Hlo Hhi]. unfold hart_shmem_base. rewrite Hlo. pose proof (check_loop_spec b d.(mem) (Z.to_nat n) 0 Hm) as Hc.
  destruct (check_loop (Z.to_nat n) b 0 (mem d)) as [j|].
  - exists SBI_EFAIL, (Some j), d, (Table A (Some b)). split; [done|]. split; [done|]. intros dom hx sm. left. destruct Hc as (Hj & Hb & Hall). split_and!; try done.
    exists j. split_and!; try done; lia.
  - rewrite (rp_free _ _ _ Hrep). destruct (Z.ltb_spec (Z.of_nat (free A)) n) as [Hf|Hf].
    + exists SBI_EFAIL, (Some (Z.of_nat (free A))), d, (Table A (Some b)). split; [done|]. split; [done|]. intros dom hx sm. right. left. done.
    + pose proof (free_le A) as Hfl. pose proof (rp_max _ _ _ Hrep) as Hmax.
      destruct (install_refines b (Z.to_nat n) 0 h d.(unit_) A d.(mem) d.(mem) Hrep) as (h' & u' & ks & A' & -> & Ep & Hrep' & El & Ehi); [lia|lia|lia|done|done|].
      cbn [mbind option_bind]. eexists 0, None, _, (Table A' (Some b)). split; [done|]. split.
      * exists h'. split; [done|]. split; [done|]. split; [by rewrite El|by rewrite Ehi].
      * intros dom hx sm. right. right. split_and!; try done. by exists ks, A'.
Qed.

(** A call over some slots that keeps the rest of the state. *)
Lemma slots_call d T h A' u' h' : table_rep d T -> d.(hs) = Some h -> rep h' u' A' -> h'.(phys_lo) = h.(phys_lo) -> h'.(phys_hi) = h.(phys_hi) ->
  table_rep (Dbtr (Some h') u' d.(mem)) (Table A' T.(shmem)).
Proof.
  intros (h0 & Eh & _ & Hs) Eh0 Hrep El Eh'. simplify_eq. exists h'. split; [done|]. split; [done|]. cbn [shmem]. unfold shmem_rep in *. rewrite El, Eh'. done.
Qed.

Lemma call_refines dom hartindex smode c d T : table_rep d T -> call_ok c -> (forall a, in_range 64 (d.(mem) a)) ->
  exists rc v d' T', run_call dom hartindex smode c d = Some (rc, v, d') /\ table_rep d' T' /\
    call_spec dom hartindex smode c T d.(mem) rc v T' d'.(mem).
Proof.
  intros Hd Hc Hm. pose proof Hd as (h & Eh & Hrep & Hs). pose proof (rp_total _ _ _ Hrep) as Htot. pose proof (rp_max _ _ _ Hrep). unfold run_call.
  destruct c as [data|lo hi|b n|n|b k|b k|b k|b k]; cbn [call_regs]; cbn -[call_spec sbi_dbtr_setup_shmem sbi_dbtr_read_trig sbi_dbtr_install_trig sbi_dbtr_num_trig Z.of_nat].
  - unfold sbi_dbtr_num_trig. rewrite Eh. destruct (Z.eqb_spec data 0) as [->|Hz].
    + cbn [mbind option_bind]. eexists _, _, _, _. split; [done|]. split; [done|]. split_and!; try done. eexists. split; [done|]. rewrite Htot. split; [lia|]. split; done.
    + destruct (count_type_range h d.(unit_) T.(slots) (TDATA1_GET_TYPE data) Hrep (Z.to_nat h.(total_trigs)) 0 0) as (r & Er & Hr); [lia|lia|]. rewrite Er. cbn [mbind option_bind].
      eexists _, _, _, _. split; [done|]. split; [done|]. split_and!; try done. exists r. split; [done|]. rewrite Htot in Hr. split; [lia|]. split; [done|]. intros _ Hti.
      pose proof (count_type_exact h d.(unit_) T.(slots) (TDATA1_GET_TYPE data) Hrep Hti (length T.(slots)) 0 0 ltac:(lia)) as Ee.
      rewrite Htot, Nat2Z.id in Er. change (Z.of_nat 0) with 0 in Ee. rewrite Er, type_shiftr in Ee by done. injection Ee as ->. lia.
  - destruct (setup_refines dom hartindex smode lo hi d T Hd Hc) as (rc & d' & T' & -> & Hd' & Hsp). by exists rc, None, d', T'.
  - destruct Hc as (Hb & Hn & Hbn). unfold sbi_dbtr_read_trig. rewrite Eh, Htot. rewrite wrap_small by (unfold in_range; lia). unfold call_spec.
    destruct (Z.leb_spec (Z.of_nat (length T.(slots))) (b + n)) as [Hl|Hl].
    + rewrite orb_true_r. cbn [mbind option_bind]. exists SBI_EINVAL, None, d, T. rewrite decide_True by done. done.
    + destruct (Z.leb_spec (Z.of_nat (length T.(slots))) b); [lia|]. cbn [orb]. rewrite (shmem_disabled_spec h _ Hs). destruct T as [A [base|]]; cbn [shmem slots] in *.
      * pose proof (read_refines h d.(unit_) A (Z.to_nat b) (Z.to_nat n) Hrep ltac:(lia) 0 (S (Z.to_nat RV_MAX_TRIGGERS)) d.(mem) ltac:(lia)) as Er.
        rewrite !Z2Nat.id in Er by lia. change (Z.of_nat 0) with 0 in Er. rewrite Er by (pose proof (rp_max _ _ _ Hrep); unfold RV_MAX_TRIGGERS; lia). cbn [mbind option_bind].
        eexists 0, None, _, (Table A (Some base)). split; [done|]. split; [by exists h|]. rewrite decide_False by lia. cbn [mem]. rewrite Nat.add_0_r, Nat.sub_0_r.
        unfold hart_shmem_base. destruct Hs as [-> _]. done.
      * cbn [mbind option_bind]. exists SBI_ERR_NO_SHMEM, None, d, (Table A None). rewrite decide_False by lia. done.
  - destruct (install_call n d T Hd Hc Hm) as (rc & v & d' & T' & -> & Hd' & Hsp). by exists rc, v, d', T'.
  - unfold sbi_dbtr_uninstall_trig. rewrite Eh. destruct (uninstall_refines (selected h.(total_trigs) b k) h d.(unit_) T.(slots) Hrep (selected_in h _ _ b k Hrep)) as (h' & u' & -> & Hrep' & El & Ehi).
    cbn [mbind option_bind]. eexists _, None, _, (Table _ T.(shmem)). split; [done|]. split; [by eapply slots_call|]. unfold call_spec. rewrite <- selected_chosen, Htot by (lia || exact (proj1 (proj1 Hc))). done.
  - unfold sbi_dbtr_enable_trig. rewrite Eh. destruct (each_switch true _ (selected h.(total_trigs) b k) switches_enable h d.(unit_) T.(slots) Hrep (selected_in h _ _ b k Hrep)) as (h' & u' & -> & Hrep' & El & Ehi).
    cbn [mbind option_bind]. eexists _, None, _, (Table _ T.(shmem)). split; [done|]. split; [by eapply slots_call|]. unfold call_spec. rewrite <- selected_chosen, Htot by (lia || exact (proj1 (proj1 Hc))). done.
  - unfold sbi_dbtr_update_trig. rewrite Eh, (shmem_disabled_spec h _ Hs). destruct T as [A [base|]]; cbn [shmem slots] in *.
    + destruct (update_refines (hart_shmem_base h) d.(mem) (selected h.(total_trigs) b k) 0 h d.(unit_) A Hrep (selected_in h _ _ b k Hrep)) as (h' & u' & -> & Hrep' & El & Ehi).
      cbn [mbind option_bind]. eexists _, None, _, (Table _ (Some base)). split; [done|]. split; [by apply (slots_call d (Table A (Some base)) h)|]. unfold call_spec. cbn [shmem slots]. rewrite <- selected_chosen, Htot by (lia || exact (proj1 (proj1 Hc))).
      unfold hart_shmem_base. destruct Hs as [-> _]. done.
    + cbn [mbind option_bind]. by exists SBI_ERR_NO_SHMEM, None, d, (Table A None).
  - unfold sbi_dbtr_disable_trig. rewrite Eh. destruct (each_switch false _ (selected h.(total_trigs) b k) switches_disable h d.(unit_) T.(slots) Hrep (selected_in h _ _ b k Hrep)) as (h' & u' & -> & Hrep' & El & Ehi).
    cbn [mbind option_bind]. eexists _, None, _, (Table _ T.(shmem)). split; [done|]. split; [by eapply slots_call|]. unfold call_spec. rewrite <- selected_chosen, Htot by (lia || exact (proj1 (proj1 Hc))). done.
Qed.

(** C9: The debug trigger calls refine a table of slots.  Each of the eight calls
    returns the code and value, and leaves the table and the memory, that the
    specification gives: installing puts the triggers of the shared memory into
    the lowest free slots and nothing changes when one of them is for M mode or
    does not fit; switching a trigger off and on again restores it; a trigger read
    back is the one installed; uninstalling frees the slot.  The hardware registers
    always hold what the slots say: those of an installed trigger hold it, and those
    of a free slot hold a trigger that fires in no mode.
    Conditions: the arguments are register values, and the first trigger and the
    number of triggers of a read call do not wrap around ([call_ok]; [read_wraps]
    shows the access outside the array when they do).  The table is the one since the
    initialisation of the hart: a second initialisation breaks it
    ([warm_boot_null]). *)
Theorem dbtr_refines_table dom hartindex smode c d T : table_rep d T -> call_ok c -> (forall a, in_range 64 (d.(mem) a)) ->
  exists rc v d' T', run_call dom hartindex smode c d = Some (rc, v, d') /\ table_rep d' T' /\
    call_spec dom hartindex smode c T d.(mem) rc v T' d'.(mem).
Proof. apply call_refines. Qed.

(** ** From the initialisation on *)

(** A trigger that was probed and not installed. *)
Definition probed_ok (h : sbi_dbtr_hart_triggers_state) (j : nat) : Prop :=
  exists t, h.(triggers) !! j = Some t /\ t = Trig (Z.of_nat j) t.(type_mask) 0 0 0 0 /\ (hw_tinfo = true -> t.(type_mask) = hw_types j).

Lemma probe_spec u i : unit_ok u -> exists u' r, probe u (Z.of_nat i) = (u', r) /\ unit_ok u' /\ u'.(t1s) = u.(t1s) /\
  forall tm, r = Some tm -> (i < hw_trigs)%nat /\ (hw_tinfo = true -> tm = hw_types i).
Proof.
  intros Hu. unfold probe. destruct (Nat.eqb_spec hw_trigs 0) as [E0|E0]; [by exists u, None|]. pose proof Hu as (H0 & H1 & H2 & H3 & H4).
  assert (unit_ok (write_tselect u (Z.of_nat i)) /\ t1s (write_tselect u (Z.of_nat i)) = t1s u) as [Hw Et]
    by (unfold write_tselect; case_match eqn:Elt; [apply Z.ltb_lt in Elt; split; [split_and!; cbn; try done; lia|done]|done]).
  destruct (Z.eqb_spec (tselect (write_tselect u (Z.of_nat i))) (Z.of_nat i)) as [E|E]; cbn [negb]; [|by eexists _, None].
  assert (i < hw_trigs)%nat as Hlt by (destruct Hw as (_ & [?|?] & _); [lia|done]).
  destruct hw_tinfo; eexists _, _; (split; [done|]); split_and!; try done; intros tm; case_match; try done; rewrite ?Nat2Z.id; intros [= <-]; done.
Qed.

Lemma probe_loop_spec n : forall i h u, length h.(triggers) = 32%nat -> h.(total_trigs) = Z.of_nat i -> (i + n <= 32)%nat -> unit_ok u ->
  (i <= hw_trigs)%nat -> (forall j, (j < i)%nat -> probed_ok h j) ->
  exists h' u' k, probe_loop n (Z.of_nat i) h u = Some (h', u') /\ length h'.(triggers) = 32%nat /\ h'.(total_trigs) = Z.of_nat k /\ (k <= 32)%nat /\ (k <= hw_trigs)%nat /\
    unit_ok u' /\ u'.(t1s) = u.(t1s) /\ (forall j, (j < k)%nat -> probed_ok h' j) /\ h'.(phys_lo) = h.(phys_lo) /\ h'.(phys_hi) = h.(phys_hi).
Proof.
  induction n as [|n IH]; intros i h u Hl Ht Hn Hu Hhw Hj; cbn [probe_loop]; [exists h, u, i; split_and!; (done || lia)|].
  destruct (probe_spec u i Hu) as (u' & r & -> & Hu' & Et1 & Hr).
  destruct r as [tm|]; [|exists h, u', i; split_and!; (done || lia)]. destruct (Hr tm eq_refl) as [Hlt Htm]. rewrite Nat2Z.id.
  destruct (lookup_lt_is_Some_2 h.(triggers) i ltac:(lia)) as [t0 ->]. cbn [mbind option_bind put_trigger set_triggers triggers phys_lo phys_hi total_trigs available_trigs probed].
  rewrite Ht, wrap_small by (unfold in_range; lia). replace (Z.of_nat i + 1) with (Z.of_nat (S i)) by lia. rewrite <- Et1.
  apply (IH (S i) (TrigState _ _ _ _ _ _) u'); cbn [triggers total_trigs]; [by rewrite length_insert|done|lia|done|lia|].
  intros j Hji. unfold probed_ok. cbn [triggers]. destruct (decide (j = i)) as [->|]; [rewrite list_lookup_insert_eq by lia; by eexists|].
  rewrite list_lookup_insert_ne by done. apply Hj. lia.
Qed.

Lemma free_replicate k : free (replicate k None) = k.
Proof. unfold free. induction k as [|k IH]; [done|]. cbn [replicate]. rewrite filter_cons_True by done. cbn [length]. by rewrite IH. Qed.

Lemma init_rep d0 : d0.(hs) = None -> unit_ok d0.(unit_) -> Forall disarmed d0.(unit_).(t1s) -> exists d1 k, sbi_dbtr_init true true d0 = Some (0, d1) /\ table_rep d1 (Table (replicate k None) None) /\ d1.(mem) = d0.(mem).
Proof.
  intros E0 Hu Hoff. unfold sbi_dbtr_init. cbn [negb]. rewrite E0. set (h := sbi_dbtr_disable_shmem zero_state). change (probed h) with false. cbv iota. destruct (probe_loop_spec (Z.to_nat RV_MAX_TRIGGERS) 0 h d0.(unit_)) as (h' & u' & k & E & Hl & Ht & Hk & Hkh & Hu' & Et1 & Hj & Elo & Ehi);
    [done|done|unfold RV_MAX_TRIGGERS; lia|done|lia|intros j Hj; lia|].
  change (Z.of_nat 0) with 0 in E. rewrite E. cbn [mbind option_bind]. eexists _, k. split; [done|]. split; [|done]. eexists. split; [done|]. cbn [shmem slots unit_]. split.
  - pose proof Hu' as (_ & _ & H1 & H2 & _). split; cbn [set_available triggers total_trigs available_trigs]; rewrite ?length_replicate, ?free_replicate; try done.
    + intros Hti i t Hi Et. destruct (Hj i Hi) as (t' & Et' & _ & Hk'). simplify_eq. by apply Hk'.
    + intros i a Ha. apply lookup_replicate in Ha as [-> Hi]. destruct (Hj i Hi) as (t & Et & Hok & _).
      destruct (lookup_lt_is_Some_2 u'.(t1s) i ltac:(lia)) as [v1 Ev1]. destruct (lookup_lt_is_Some_2 u'.(t2s) i ltac:(lia)) as [v2 Ev2].
      exists t, v1, v2. do 4 (split; [done|]). rewrite Et1 in Ev1. exact (Forall_lookup_1 _ _ _ _ Hoff Ev1).
  - split; cbn; [by rewrite Elo|by rewrite Ehi].
Qed.

(** Before each call the supervisor may write the memory. *)
Fixpoint run_calls (dom : option sbi_domain) (hartindex smode : Z) (cs : list ((Z -> Z) * dcall)) (d : dbtr) : option dbtr :=
  match cs with
  | [] => Some d
  | (m, c) :: cs => '(_, _, d) ← run_call dom hartindex smode c (Dbtr d.(hs) d.(unit_) m); run_calls dom hartindex smode cs d
  end.

Lemma run_calls_rep dom hartindex smode cs : Forall (fun mc => (forall a, in_range 64 (mc.1 a)) /\ call_ok mc.2) cs -> forall d T, table_rep d T ->
  exists d' T', run_calls dom hartindex smode cs d = Some d' /\ table_rep d' T'.
Proof.
  induction 1 as [|[m c] cs [Hm Hc] _ IH]; intros d T Hd; cbn [run_calls]; [by exists d, T|].
  destruct (call_refines dom hartindex smode c (Dbtr d.(hs) d.(unit_) m) T Hd Hc Hm) as (rc & v & d' & T' & -> & Hd' & _). by apply (IH d' T').
Qed.

(** The supervisor cannot use the debug triggers against the firmware.  After
    the initialisation, whatever sequence of calls a supervisor makes, with
    whatever contents of the shared memory, every call runs without an access
    outside the triggers, and no trigger register is left holding a trigger that
    fires in M mode or belongs to debug mode. *)
Theorem dbtr_never_in_m_mode d0 dom hartindex smode : d0.(hs) = None -> unit_ok d0.(unit_) -> Forall disarmed d0.(unit_).(t1s) ->
  exists d1, sbi_dbtr_init true true d0 = Some (0, d1) /\
    forall cs, Forall (fun mc => (forall a, in_range 64 (mc.1 a)) /\ call_ok mc.2) cs ->
      exists d', run_calls dom hartindex smode cs d1 = Some d' /\ Forall quiet d'.(unit_).(t1s).
Proof.
  intros E0 Hu Hoff. destruct (init_rep d0 E0 Hu Hoff) as (d1 & k & E & Hd1 & _). exists d1. split; [done|]. intros cs Hcs.
  destruct (run_calls_rep dom hartindex smode cs Hcs d1 _ Hd1) as (d' & T' & Er & h & _ & Hrep & _). exists d'. split; [done|].
  by destruct (rp_unit _ _ _ Hrep) as (_ & _ & _ & _ & Hq).
Qed.
End Refine.

(** ** Examples *)

(** Two match triggers of type 6. *)
#[local] Instance demo_hw : TrigHw := {| hw_trigs := 2; hw_tinfo := true; hw_types := fun _ => 0x8040; hw_bits := fun _ _ => 2 ^ 59 - 1 |}.

Definition demo_unit : trig_unit := TrigUnit 0 [Z.shiftl 15 60; Z.shiftl 15 60] [0; 0].
Definition demo_boot : dbtr := Dbtr None demo_unit (fun _ => 0).

(** A trigger for loads and stores of S mode, in each entry at [b]. *)
Definition demo_tdata1 : Z := Z.lor (Z.shiftl 6 60) 0x13.
Definition demo_mem (b a : Z) : Z :=
  if existsb (fun k => a =? entry_word b k 1) [0; 1] then demo_tdata1 else if existsb (fun k => a =? entry_word b k 2) [0; 1] then 0x1000 else 0.

Lemma demo_unit_ok : unit_ok demo_unit.
Proof. unfold unit_ok. split; [cbn; lia|]. split; [left; cbn; lia|]. split; [done|]. split; [done|]. repeat constructor. Qed.

Lemma demo_unit_off : Forall disarmed demo_unit.(t1s).
Proof. repeat constructor; vm_compute; congruence. Qed.

Lemma demo_mem_range b a : in_range 64 (demo_mem b a).
Proof. unfold demo_mem. repeat case_match; unfold in_range; vm_compute; split; congruence. Qed.

(** The state after the initialisation with the shared memory at 0x1000. *)
Definition demo_state : dbtr :=
  Dbtr (Some (TrigState (Trig 0 0x8040 0 0 0 0 :: Trig 1 0x8040 0 0 0 0 :: replicate 30 (Trig 0 0 0 0 0 0)) 0x1000 0 2 2 true)) demo_unit (demo_mem 0x1000).

Lemma demo_state_rep : table_rep demo_state (Table [None; None] (Some 0x1000)).
Proof.
  eexists. split; [reflexivity|]. split; [|done]. split; try done; [cbn; lia|apply demo_unit_ok| |].
  - intros _ [|[|i]] t Hi; cbn; [by intros [= <-]..|cbn in Hi; lia].
  - intros [|[|i]] a Ha; cbn in Ha; simplify_eq; eexists _, _, _; (split; [done|]; split; [done|]; split; [done|]);
      (split; [done|]); (split; [vm_compute; congruence|constructor]).
Qed.

Lemma dbtr_refines_table_witness :
  exists rc v d' T', run_call None 0 PRV_S (Install 2) demo_state = Some (rc, v, d') /\ table_rep d' T' /\
    call_spec None 0 PRV_S (Install 2) (Table [None; None] (Some 0x1000)) demo_state.(mem) rc v T' d'.(mem).
Proof. apply (dbtr_refines_table None 0 PRV_S (Install 2) demo_state _ demo_state_rep); [cbn; lia|apply demo_mem_range]. Defined.

Lemma dbtr_never_in_m_mode_witness :
  exists d1, sbi_dbtr_init true true demo_boot = Some (0, d1) /\
    forall cs, Forall (fun mc => (forall a, in_range 64 (mc.1 a)) /\ call_ok mc.2) cs ->
      exists d', run_calls None 0 PRV_S cs d1 = Some d' /\ Forall quiet d'.(unit_).(t1s).
Proof. apply (dbtr_never_in_m_mode demo_boot None 0 PRV_S); [reflexivity|exact demo_unit_ok|exact demo_unit_off]. Defined.

(** The triggers installed and read back by number. *)
Example install_two :
  match run_call None 0 PRV_S (Install 2) demo_state with
  | Some (rc, None, d) => rc = 0 /\ d.(unit_).(t1s) = [demo_tdata1; demo_tdata1] /\ d.(unit_).(t2s) = [0x1000; 0x1000] /\ d.(mem) (entry_word 0x1000 1 4) = 1
  | _ => False
  end.
Proof. vm_compute. repeat split. Qed.

(** A hart that is stopped and started again runs [sbi_dbtr_init] again, which
    counts every trigger as available though the installed ones stay mapped: the
    next installation takes the null pointer for a trigger. *)
Example warm_boot_null :
  match run_call None 0 PRV_S (Install 2) demo_state with
  | Some (_, _, d) =>
      match sbi_dbtr_init true true d with
      | Some (0, d) =>
          match run_call None 0 PRV_S (SetupShmem 0x1000 0) d with
          | Some (0, _, d) => run_call None 0 PRV_S (Install 1) d = None
          | _ => False
          end
      | _ => False
      end
  | _ => False
  end.
Proof. vm_compute. reflexivity. Qed.

(** The number of triggers to read can wrap around: the loop leaves the array. *)
Example read_wraps : run_call None 0 PRV_S (ReadTriggers 1 (2 ^ 64 - 1)) demo_state = None.
Proof. vm_compute. reflexivity. Qed.

(** The last trigger cannot be read. *)
Example read_not_last : run_call None 0 PRV_S (ReadTriggers 0 2) demo_state = Some (SBI_EINVAL, None, demo_state).
Proof. reflexivity. Qed.

(** Only the first byte of the shared memory is checked: reading a trigger writes
    to memory of another domain. *)
Definition demo_dom : sbi_domain := Dom [1; 0] None (Some [Region 12 0x80000000 0x18]) 0 0 PRV_S true.

Example shmem_not_checked :
  sbi_domain_check_addr (Some demo_dom) 0x80001000 PRV_S (Z.lor SBI_DOMAIN_READ SBI_DOMAIN_WRITE) = false /\
  match run_call (Some demo_dom) 0 PRV_S (SetupShmem SBI_DBTR_SHMEM_INVALID_ADDR SBI_DBTR_SHMEM_INVALID_ADDR) (Dbtr demo_state.(hs) demo_unit (fun _ => 7)) with
  | Some (0, _, d) =>
      match run_call (Some demo_dom) 0 PRV_S (SetupShmem 0x80000ff8 0) d with
      | Some (0, _, d) => match run_call (Some demo_dom) 0 PRV_S (ReadTriggers 0 1) d with Some (0, _, d) => d.(mem) 0x80001000 = 0 | _ => False end
      | _ => False
      end
  | _ => False
  end.
Proof. vm_compute. split; reflexivity. Qed.
