(* ===== verification/Fwft.v ===== *)
(** * Firmware features (lib/sbi/sbi_fwft.c, lib/sbi/sbi_ecall_fwft.c)

    The features a supervisor can switch on its hart: delegation of misaligned
    accesses, landing pads, shadow stacks, double traps, hardware updating of page
    tables and pointer masking.  Their values are bits of [medeleg] and [menvcfg]
    (Csr.v); the state of the firmware is a lock for each. *)

From S2P Require Import Prelude SbiTypes Bitops Csr Pmp PmpProps HartFeat Trap Timer.

Local Open Scope Z_scope.

Definition SBI_FWFT_MISALIGNED_EXC_DELEG : Z := 0x0.
Definition SBI_FWFT_LANDING_PAD : Z := 0x1.
Definition SBI_FWFT_SHADOW_STACK : Z := 0x2.
Definition SBI_FWFT_DOUBLE_TRAP : Z := 0x3.
Definition SBI_FWFT_PTE_AD_HW_UPDATING : Z := 0x4.
Definition SBI_FWFT_POINTER_MASKING_PMLEN : Z := 0x5.
Definition SBI_FWFT_GLOBAL_FEATURE_BIT : Z := 2 ^ 31.
Definition SBI_FWFT_SET_FLAG_LOCK : Z := 1.
Definition SBI_EXT_FWFT_SET : Z := 0x0.
Definition SBI_EXT_FWFT_GET : Z := 0x1.
Definition SBI_EDENIED_LOCKED : Z := -14.
Definition FWFT_CAUSE_MISALIGNED_LOAD : Z := 0x4.
Definition FWFT_CAUSE_MISALIGNED_STORE : Z := 0x6.
Definition MIS_DELEG : Z := Z.lor (Z.shiftl 1 FWFT_CAUSE_MISALIGNED_LOAD) (Z.shiftl 1 FWFT_CAUSE_MISALIGNED_STORE).
Definition ENVCFG_ADUE_SHIFT : Z := 61.
Definition ENVCFG_DTE_SHIFT : Z := 59.
Definition FWFT_ENVCFG_SSE_SHIFT : Z := 3.
Definition FWFT_ENVCFG_LPE_SHIFT : Z := 2.
Definition ENVCFG_PMM : Z := Z.shiftl 0x3 32.
Definition ENVCFG_PMM_PMLEN_0 : Z := Z.shiftl 0x0 32.
Definition ENVCFG_PMM_PMLEN_7 : Z := Z.shiftl 0x2 32.
Definition ENVCFG_PMM_PMLEN_16 : Z := Z.shiftl 0x3 32.
Definition SBI_HART_EXT_SMNPM : Z := 20.
Definition SBI_HART_EXT_ZICFISS : Z := 22.
Definition SBI_HART_EXT_SSDBLTRP : Z := 23.

Definition fwft_defined_features : list Z :=
  [SBI_FWFT_MISALIGNED_EXC_DELEG; SBI_FWFT_LANDING_PAD; SBI_FWFT_SHADOW_STACK; SBI_FWFT_DOUBLE_TRAP; SBI_FWFT_PTE_AD_HW_UPDATING; SBI_FWFT_POINTER_MASKING_PMLEN].

Definition fwft_is_defined_feature (feature : Z) : bool := existsb (fun d => d =? feature) fwft_defined_features.

Section Fwft.
Context {hw : Hw} (platform : Z -> bool) (f : sbi_hart_features).

(** A feature is its number and three functions. *)
Record fwft_feature := Feature { f_id : Z; f_supported : csrM Z; f_set : Z -> csrM Z; f_get : csrM (Z * option Z) }.

Record fwft_config := Config { feature_ : fwft_feature; flags_ : Z }.

Definition fwft_menvcfg_set_bit (value bit : Z) : csrM Z :=
  if value =? 1 then csr_set CSR_MENVCFG (Z.shiftl 1 bit);; mret SBI_OK
  else if value =? 0 then csr_clear CSR_MENVCFG (Z.shiftl 1 bit);; mret SBI_OK
  else mret SBI_EINVAL.

Definition fwft_menvcfg_read_bit (bit : Z) : csrM (Z * option Z) :=
  cfg ← csr_read CSR_MENVCFG;
  mret (SBI_OK, Some (Z.b2z (negb (Z.land cfg (Z.shiftl 1 bit) =? 0)))).

Definition fwft_misaligned_delegation_supported : csrM Z :=
  s ← misa_extension platform 83; mret (if negb s then SBI_ENOTSUPP else SBI_OK).

Definition fwft_set_misaligned_delegation (value : Z) : csrM Z :=
  if value =? 1 then csr_set CSR_MEDELEG MIS_DELEG;; mret SBI_OK
  else if value =? 0 then csr_clear CSR_MEDELEG MIS_DELEG;; mret SBI_OK
  else mret SBI_EINVAL.

Definition fwft_get_misaligned_delegation : csrM (Z * option Z) :=
  v ← csr_read CSR_MEDELEG; mret (SBI_OK, Some (Z.b2z (negb (Z.land v MIS_DELEG =? 0)))).

(** The other features are supported when the hart has an extension. *)
Definition needs_extension (ext : Z) : csrM Z := mret (if negb (sbi_hart_has_extension f ext) then SBI_ENOTSUPP else SBI_OK).

Definition fwft_double_trap_supported : csrM Z := needs_extension SBI_HART_EXT_SSDBLTRP.
Definition fwft_set_double_trap (value : Z) : csrM Z := fwft_menvcfg_set_bit value ENVCFG_DTE_SHIFT.
Definition fwft_get_double_trap : csrM (Z * option Z) := fwft_menvcfg_read_bit ENVCFG_DTE_SHIFT.

Definition fwft_adue_supported : csrM Z := needs_extension SBI_HART_EXT_SVADU.
Definition fwft_set_adue (value : Z) : csrM Z := fwft_menvcfg_set_bit value ENVCFG_ADUE_SHIFT.
Definition fwft_get_adue : csrM (Z * option Z) := fwft_menvcfg_read_bit ENVCFG_ADUE_SHIFT.

Definition fwft_lpad_supported : csrM Z := needs_extension SBI_HART_EXT_ZICFILP.
Definition fwft_enable_lpad (value : Z) : csrM Z := fwft_menvcfg_set_bit value FWFT_ENVCFG_LPE_SHIFT.
Definition fwft_get_lpad : csrM (Z * option Z) := fwft_menvcfg_read_bit FWFT_ENVCFG_LPE_SHIFT.

Definition fwft_sstack_supported : csrM Z := needs_extension SBI_HART_EXT_ZICFISS.
Definition fwft_enable_sstack (value : Z) : csrM Z := fwft_menvcfg_set_bit value FWFT_ENVCFG_SSE_SHIFT.
Definition fwft_get_sstack : csrM (Z * option Z) := fwft_menvcfg_read_bit FWFT_ENVCFG_SSE_SHIFT.

Definition fwft_pmlen_supported : csrM Z := needs_extension SBI_HART_EXT_SMNPM.

Definition fwft_try_to_set_pmm (pmm : Z) : csrM bool :=
  csr_set CSR_MENVCFG pmm;; v ← csr_read CSR_MENVCFG; mret (Z.land v ENVCFG_PMM =? pmm).

Definition fwft_set_pmlen (value : Z) : csrM Z :=
  if 16 <? value then mret SBI_EINVAL
  else
    prev ← csr_read CSR_MENVCFG;
    csr_write CSR_MENVCFG (Z.land prev (Z.lnot ENVCFG_PMM));;
    if value =? 0 then mret SBI_OK
    else
      ok7 ← (if value <=? 7 then
               ok ← fwft_try_to_set_pmm ENVCFG_PMM_PMLEN_7;
               if ok : bool then mret true else csr_clear CSR_MENVCFG ENVCFG_PMM;; mret false
             else mret false);
      if ok7 : bool then mret SBI_OK
      else
        ok16 ← fwft_try_to_set_pmm ENVCFG_PMM_PMLEN_16;
        if ok16 : bool then mret SBI_OK else csr_write CSR_MENVCFG prev;; mret SBI_EINVAL.

Definition fwft_get_pmlen : csrM (Z * option Z) :=
  v ← csr_read CSR_MENVCFG;
  let pmm := Z.land v ENVCFG_PMM in
  mret (if pmm =? ENVCFG_PMM_PMLEN_0 then (SBI_OK, Some 0)
        else if pmm =? ENVCFG_PMM_PMLEN_7 then (SBI_OK, Some 7)
        else if pmm =? ENVCFG_PMM_PMLEN_16 then (SBI_OK, Some 16)
        else (SBI_EFAIL, None)).

Definition fwft_features : list fwft_feature :=
  [Feature SBI_FWFT_MISALIGNED_EXC_DELEG fwft_misaligned_delegation_supported fwft_set_misaligned_delegation fwft_get_misaligned_delegation;
   Feature SBI_FWFT_LANDING_PAD fwft_lpad_supported fwft_enable_lpad fwft_get_lpad;
   Feature SBI_FWFT_SHADOW_STACK fwft_sstack_supported fwft_enable_sstack fwft_get_sstack;
   Feature SBI_FWFT_DOUBLE_TRAP fwft_double_trap_supported fwft_set_double_trap fwft_get_double_trap;
   Feature SBI_FWFT_PTE_AD_HW_UPDATING fwft_adue_supported fwft_set_adue fwft_get_adue;
   Feature SBI_FWFT_POINTER_MASKING_PMLEN fwft_pmlen_supported fwft_set_pmlen fwft_get_pmlen].

(** The position of the configuration of a feature. *)
Definition get_feature_config (configs : list fwft_config) (feature : Z) : option (nat * fwft_config) :=
  if negb (Z.land feature SBI_FWFT_GLOBAL_FEATURE_BIT =? 0) then None
  else list_find (fun c => feature = c.(feature_).(f_id)) configs.

Definition fwft_get_feature (configs : list fwft_config) (feature : Z) : csrM (Z * option (nat * fwft_config)) :=
  match get_feature_config configs feature with
  | None => mret (if fwft_is_defined_feature feature then SBI_ENOTSUPP else SBI_EDENIED, None)
  | Some (i, conf) =>
      ret ← conf.(feature_).(f_supported);
      if negb (ret =? 0) then mret (ret, None) else mret (0, Some (i, conf))
  end.

Definition fwft_clear_config_lock (configs : list fwft_config) (feature : Z) : csrM (list fwft_config) :=
  '(ret, conf) ← fwft_get_feature configs feature;
  mret (match conf with
        | Some (i, c) => if ret =? 0 then <[i := Config c.(feature_) (Z.land c.(flags_) (Z.lnot SBI_FWFT_SET_FLAG_LOCK))]> configs else configs
        | None => configs
        end).

Definition sbi_fwft_set (configs : list fwft_config) (feature value flags : Z) : csrM (Z * list fwft_config) :=
  '(ret, conf) ← fwft_get_feature configs feature;
  match conf with
  | None => mret (ret, configs)
  | Some (i, c) =>
      if negb (Z.land flags (Z.lnot SBI_FWFT_SET_FLAG_LOCK) =? 0) then mret (SBI_EINVAL, configs)
      else if has c.(flags_) SBI_FWFT_SET_FLAG_LOCK then mret (SBI_EDENIED_LOCKED, configs)
      else
        ret ← c.(feature_).(f_set) value;
        if negb (ret =? 0) then mret (ret, configs)
        else mret (SBI_OK, <[i := Config c.(feature_) flags]> configs)
  end.

Definition sbi_fwft_get (configs : list fwft_config) (feature : Z) : csrM (Z * option Z) :=
  '(ret, conf) ← fwft_get_feature configs feature;
  match conf with None => mret (ret, None) | Some (i, c) => c.(feature_).(f_get) end.

(** The loop of [sbi_fwft_init] over the features. *)
Fixpoint clear_config_locks (fs : list fwft_feature) (configs : list fwft_config) : csrM (list fwft_config) :=
  match fs with
  | [] => mret configs
  | x :: fs => configs ← fwft_clear_config_lock configs x.(f_id); clear_config_locks fs configs
  end.

(** [fhs] is the pointer in the scratch space of the hart, [alloc_ok] whether the
    allocation of the state succeeds. *)
Definition sbi_fwft_init (alloc_ok : bool) (fhs : option (list fwft_config)) : csrM (Z * option (list fwft_config)) :=
  match (match fhs with Some c => Some c | None => if alloc_ok then Some (map (fun x => Config x 0) fwft_features) else None end) with
  | None => mret (SBI_ENOMEM, fhs)
  | Some configs => configs ← clear_config_locks fwft_features configs; mret (0, Some configs)
  end.

(** The number of the feature is an [enum], so a register is cut to 32 bits. *)
Definition sbi_ecall_fwft_handler (configs : list fwft_config) (funcid a0 a1 a2 : Z) : csrM (Z * option Z * list fwft_config) :=
  if funcid =? SBI_EXT_FWFT_SET then '(rc, configs) ← sbi_fwft_set configs (u32 a0) a1 a2; mret (rc, None, configs)
  else if funcid =? SBI_EXT_FWFT_GET then '(rc, v) ← sbi_fwft_get configs (u32 a0); mret (rc, v, configs)
  else mret (SBI_ENOTSUPP, None, configs).
End Fwft.
