(* ===== verification/FwftProps.v ===== *)
(** * Properties of the firmware features (lib/sbi/sbi_fwft.c)

    The six features refine a table of values and locks: what is set is what is
    read, a call that fails changes nothing, features do not disturb each other,
    and a locked feature keeps its value. *)

From S2P Require Import Prelude SbiTypes Bitops Csr Pmp PmpProps HartFeat Trap Timer Fwft.

Local Open Scope Z_scope.

(** A write with mask [m]. *)
Definition merge (m old v : Z) : Z := Z.lor (Z.land old (Z.lnot m)) (Z.land v m).

Lemma merge_bit m old v j : 0 <= j -> Z.testbit (merge m old v) j = if Z.testbit m j then Z.testbit v j else Z.testbit old j.
Proof.
  intros Hj. unfold merge. rewrite Z.lor_spec, !Z.land_spec, Z.lnot_spec by done. destruct (Z.testbit m j), (Z.testbit old j), (Z.testbit v j); done.
Qed.

Lemma testbit_mask v k : 0 <= k -> negb (Z.land v (Z.shiftl 1 k) =? 0) = Z.testbit v k.
Proof.
  intros Hk. rewrite Z.shiftl_1_l. destruct (Z.testbit v k) eqn:E.
  - apply negb_true_iff, Z.eqb_neq. intros H. assert (Z.testbit (Z.land v (2 ^ k)) k = true) as H1 by (by rewrite Z.land_spec, E, Z.pow2_bits_true).
    rewrite H, Z.bits_0 in H1. done.
  - apply negb_false_iff, Z.eqb_eq, Z.bits_inj'. intros j Hj. rewrite Z.land_spec, Z.bits_0, Z.pow2_bits_eqb by done.
    destruct (Z.eqb_spec k j) as [<-|]; [by rewrite E|apply andb_false_r].
Qed.

(** The two bits of the mask length as a number. *)
Definition field (e : Z) : Z := Z.b2z (Z.testbit e 32) + 2 * Z.b2z (Z.testbit e 33).

Lemma pmm_field e : Z.land e ENVCFG_PMM = Z.shiftl (field e) 32.
Proof.
  apply Z.bits_inj'. intros j Hj. rewrite Z.land_spec, Z.shiftl_spec by done. unfold ENVCFG_PMM, field. rewrite Z.shiftl_spec by done.
  destruct (decide (j = 32)) as [->|]; [|destruct (decide (j = 33)) as [->|]].
  - destruct (Z.testbit e 32), (Z.testbit e 33); reflexivity.
  - destruct (Z.testbit e 32), (Z.testbit e 33); reflexivity.
  - destruct (decide (j < 32)).
    + rewrite !(Z.testbit_neg_r _ (j - 32)) by lia. apply andb_false_r.
    + rewrite !(testbit_above 2 _ (j - 32)); [apply andb_false_r|..]; try lia; unfold in_range; destruct (Z.testbit e 32), (Z.testbit e 33); cbn; lia.
Qed.

(** Six features. *)
Definition fwft_bit (i : nat) : Z := match i with 1%nat => 2 | 2%nat => 3 | 3%nat => 59 | _ => 61 end.
Definition fwft_ext (i : nat) : Z :=
  match i with 1%nat => SBI_HART_EXT_ZICFILP | 2%nat => SBI_HART_EXT_ZICFISS | 3%nat => SBI_HART_EXT_SSDBLTRP | 4%nat => SBI_HART_EXT_SVADU | _ => SBI_HART_EXT_SMNPM end.

(** The values of the features in the registers of a hart. *)
Definition mask_length (e : Z) : Z := let k := field e in if k =? 0 then 0 else if k =? 2 then 7 else 16.

Definition value (h : hart) (i : nat) : Z :=
  match i with
  | 0%nat => Z.b2z (has (csr_val h CSR_MEDELEG) MIS_DELEG)
  | 5%nat => mask_length (csr_val h CSR_MENVCFG)
  | _ => Z.b2z (Z.testbit (csr_val h CSR_MENVCFG) (fwft_bit i))
  end.

Section Refine.
Context {hw : Hw} (platform : Z -> bool) (f : sbi_hart_features) (me md : Z).

(** The registers of the features a hart has: the bits can be written. *)
Class FwftPlatform := {
  env_mask : hw_mask CSR_MENVCFG = Some me;
  deleg_mask : hw_mask CSR_MEDELEG = Some md;
  misa_there : is_Some (hw_mask CSR_MISA);
  deleg_bits : Z.testbit md 4 = true /\ Z.testbit md 6 = true;
  env_bits : forall i, (1 <= i <= 4)%nat -> sbi_hart_has_extension f (fwft_ext i) = true -> Z.testbit me (fwft_bit i) = true;
}.
Context {Hfp : FwftPlatform}.

Local Set Default Proof Using "Type".

Definition supports (h : hart) (i : nat) : bool :=
  match i with
  | 0%nat => let misa := csr_val h CSR_MISA in if misa =? 0 then platform 83 else has misa (2 ^ 18)
  | _ => sbi_hart_has_extension f (fwft_ext i)
  end.

(** The field of the mask length holds one of its three values, and bits that
    cannot be written are zero. *)
Definition env_ok (e : Z) : Prop := field e <> 1 /\ forall j, j = 32 \/ j = 33 -> Z.testbit me j = false -> Z.testbit e j = false.

(** [h] is [h0] but for [menvcfg]. *)
Definition env_at (h0 h : hart) (e : Z) : Prop := csr_val h CSR_MENVCFG = e /\ forall c, c <> CSR_MENVCFG -> csr_val h c = csr_val h0 c.

Lemma env_read h : csr_read CSR_MENVCFG h = Some (csr_val h CSR_MENVCFG, h).
Proof using Hfp. unfold csr_read, hw_read. cbn -[csr_val]. by rewrite env_mask. Qed.

Lemma env_write h0 h e v : env_at h0 h e -> exists h', csr_write CSR_MENVCFG v h = Some (tt, h') /\ env_at h0 h' (merge me e v).
Proof using Hfp.
  intros [<- He]. exists (set_csr h CSR_MENVCFG (merge me (csr_val h CSR_MENVCFG) v)). split; [unfold csr_write, hw_write; cbn -[csr_val]; by rewrite env_mask|].
  split; [apply csr_val_eq|]. intros c Hc. rewrite csr_val_ne by done. by apply He.
Qed.

Lemma env_set h0 h e v : env_at h0 h e -> exists h', csr_set CSR_MENVCFG v h = Some (tt, h') /\ env_at h0 h' (merge me e (Z.lor e v)).
Proof using Hfp. intros He. unfold csr_set. rewrite (csr_bind _ _ _ _ _ (env_read h)). destruct He as [E He]. rewrite E. by apply env_write. Qed.

Lemma env_clear h0 h e v : env_at h0 h e -> exists h', csr_clear CSR_MENVCFG v h = Some (tt, h') /\ env_at h0 h' (merge me e (Z.land e (Z.lnot v))).
Proof using Hfp. intros He. unfold csr_clear. rewrite (csr_bind _ _ _ _ _ (env_read h)). destruct He as [E He]. rewrite E. by apply env_write. Qed.

(** [e'] differs from [e] in the field only, and there in bits that can be written. *)
Definition pm_same (e e' : Z) : Prop :=
  (forall j, 0 <= j -> j <> 32 -> j <> 33 -> Z.testbit e' j = Z.testbit e j) /\ forall j, 0 <= j -> Z.testbit me j = false -> Z.testbit e' j = Z.testbit e j.

Lemma pm_clear e e' : env_ok e -> pm_same e e' -> let e2 := merge me e' (Z.land e' (Z.lnot ENVCFG_PMM)) in pm_same e e2 /\ field e2 = 0.
Proof.
  intros [_ Hz] [H1 H2]. cbv zeta. split; [split|].
  - intros j Hj H32 H33. rewrite merge_bit, Z.land_spec, Z.lnot_spec by done. rewrite <- (H1 j Hj H32 H33).
    assert (Z.testbit ENVCFG_PMM j = false) as ->; [|by rewrite andb_true_r; case_match]. pose proof (f_equal (fun x => Z.testbit x j) (pmm_field (-1))) as E. cbv beta in E.
    rewrite Z.land_spec, Z.bits_m1 in E by done. cbn [andb] in E. rewrite E. change (field (-1)) with 3. rewrite Z.shiftl_spec by done.
    destruct (decide (j < 32)); [by rewrite Z.testbit_neg_r by lia|]. apply Z.bits_above_log2; [lia|]. change (Z.log2 3) with 1. lia.
  - intros j Hj Hm. rewrite merge_bit, Hm by done. by apply H2.
  - unfold field. assert (forall j, j = 32 \/ j = 33 -> Z.testbit (merge me e' (Z.land e' (Z.lnot ENVCFG_PMM))) j = false) as Hb.
    { intros j Hj. rewrite merge_bit by lia. destruct (Z.testbit me j) eqn:Em.
      - rewrite Z.land_spec, Z.lnot_spec by lia. assert (Z.testbit ENVCFG_PMM j = true) as -> by (by destruct Hj as [->| ->]). by rewrite andb_false_r.
      - rewrite H2 by (done || lia). by apply Hz. }
    by rewrite !Hb by auto.
Qed.

Lemma pmm_bit j : 0 <= j -> Z.testbit ENVCFG_PMM j = (j =? 32) || (j =? 33).
Proof.
  intros Hj. change ENVCFG_PMM with (Z.lor (2 ^ 32) (2 ^ 33)). by rewrite Z.lor_spec, !Z.pow2_bits_eqb, !(Z.eqb_sym j) by lia.
Qed.

(** A trial of the value [k] from a field that is zero. *)
Lemma pm_try e e' k : k = 2 \/ k = 3 -> pm_same e e' -> let e2 := merge me e' (Z.lor e' (Z.shiftl k 32)) in pm_same e e2 /\ (Z.land e2 ENVCFG_PMM =? Z.shiftl k 32) = (field e2 =? k).
Proof.
  intros Hk [H1 H2]. cbv zeta. split; [split|].
  - intros j Hj H32 H33. rewrite merge_bit, Z.lor_spec by done. rewrite <- (H1 j Hj H32 H33).
    assert (Z.testbit (Z.shiftl k 32) j = false) as ->; [|by rewrite orb_false_r; case_match].
    rewrite Z.shiftl_spec by done. destruct (decide (j < 32)); [by rewrite Z.testbit_neg_r by lia|]. apply (testbit_above 2); unfold in_range; lia.
  - intros j Hj Hm. rewrite merge_bit, Hm by done. by apply H2.
  - rewrite pmm_field, !Z.shiftl_mul_pow2 by lia. destruct (Z.eqb_spec (field (merge me e' (Z.lor e' (k * 2 ^ 32)))) k) as [->|Hne]; [apply Z.eqb_refl|]. apply Z.eqb_neq. lia.
Qed.

Lemma pm_env_ok e e' : env_ok e -> pm_same e e' -> field e' <> 1 -> env_ok e'.
Proof. intros [_ Hz] [_ H2] Hf. split; [done|]. intros j Hj Hm. rewrite H2 by (done || lia). by apply Hz. Qed.

Lemma pm_restore e e' : pm_same e e' -> merge me e' e = e.
Proof. intros [_ H2]. apply Z.bits_inj'. intros j Hj. rewrite merge_bit by done. destruct (Z.testbit me j) eqn:Em; [done|]. by apply H2. Qed.

(** What a new value does: [h'] is like [h] but for [menvcfg], where only the
    field has changed. *)
Lemma set_pmlen_effect v h : env_ok (csr_val h CSR_MENVCFG) -> 0 <= v ->
  exists rc h' e', fwft_set_pmlen v h = Some (rc, h') /\ env_at h h' e' /\ pm_same (csr_val h CSR_MENVCFG) e' /\ env_ok e' /\
    (rc = 0 /\ v <= mask_length e' /\ (v = 0 -> mask_length e' = 0) \/ rc = SBI_EINVAL /\ e' = csr_val h CSR_MENVCFG).
Proof using Hfp.
  intros Hok Hv. set (e := csr_val h CSR_MENVCFG) in *. assert (env_at h h e) as H0 by (by split). assert (pm_same e e) as S0 by (by split).
  unfold fwft_set_pmlen. destruct (Z.ltb_spec 16 v) as [|H16]; [exists SBI_EINVAL, h, e; split_and!; (done || by right)|].
  rewrite (csr_bind _ _ _ _ _ (env_read h)). fold e. destruct (env_write h h e (Z.land e (Z.lnot ENVCFG_PMM)) H0) as (h1 & E1 & H1). rewrite (csr_bind _ _ _ _ _ E1).
  destruct (pm_clear e e Hok S0) as [S1 F1]. set (e1 := merge me e (Z.land e (Z.lnot ENVCFG_PMM))) in *.
  destruct (Z.eqb_spec v 0) as [->|Hnz].
  { exists 0, h1, e1. split; [done|]. split; [done|]. split; [done|]. split; [apply (pm_env_ok e); (done || lia)|]. left. unfold mask_length. rewrite F1. done. }
  assert (forall k h2 e2, k = 2 \/ k = 3 -> env_at h h2 e2 -> pm_same e e2 -> exists h3 e3, fwft_try_to_set_pmm (Z.shiftl k 32) h2 = Some (field e3 =? k, h3) /\ env_at h h3 e3 /\ pm_same e e3) as Htry.
  { intros k h2 e2 Hk H2 S2. unfold fwft_try_to_set_pmm. destruct (env_set h h2 e2 (Z.shiftl k 32) H2) as (h3 & E3 & H3). rewrite (csr_bind _ _ _ _ _ E3), (csr_bind _ _ _ _ _ (env_read h3)).
    destruct (pm_try e e2 k Hk S2) as [S3 F3]. pose proof H3 as [E _]. rewrite E, F3. eexists h3, _. split; [done|]. split; [exact H3|exact S3]. }
  assert (forall k h3 e3, (k = 2 \/ k = 3) -> v <= (if k =? 2 then 7 else 16) -> env_at h h3 e3 -> pm_same e e3 -> field e3 = k -> exists rc h' e', (mret SBI_OK : csrM Z) h3 = Some (rc, h') /\
    env_at h h' e' /\ pm_same e e' /\ env_ok e' /\ (rc = 0 /\ v <= mask_length e' /\ (v = 0 -> mask_length e' = 0) \/ rc = SBI_EINVAL /\ e' = e)) as Hdone.
  { intros k h3 e3 Hk Hvk H3 S3 F3. exists 0, h3, e3. split_and!; [done|done|done|apply (pm_env_ok e); (done || lia)|]. left. unfold mask_length. rewrite F3. split; [done|].
    destruct Hk as [->| ->]; cbn in *; done. }
  assert (forall h2 e2, env_at h h2 e2 -> pm_same e e2 -> exists rc h' e', (ok16 ← fwft_try_to_set_pmm ENVCFG_PMM_PMLEN_16; if ok16 : bool then mret SBI_OK else csr_write CSR_MENVCFG e;; mret SBI_EINVAL) h2 = Some (rc, h') /\
    env_at h h' e' /\ pm_same e e' /\ env_ok e' /\ (rc = 0 /\ v <= mask_length e' /\ (v = 0 -> mask_length e' = 0) \/ rc = SBI_EINVAL /\ e' = e)) as Hlast.
  { intros h2 e2 H2 S2. destruct (Htry 3 h2 e2 ltac:(lia) H2 S2) as (h3 & e3 & E3 & H3 & S3). rewrite (csr_bind _ _ _ _ _ E3). destruct (Z.eqb_spec (field e3) 3) as [F3|F3].
    - apply (Hdone 3 h3 e3); (done || lia || by right).
    - destruct (env_write h h3 e3 e H3) as (h4 & E4 & H4). rewrite (csr_bind _ _ _ _ _ E4). rewrite (pm_restore e e3 S3) in H4. exists SBI_EINVAL, h4, e. split_and!; (done || by right). }
  destruct (Z.leb_spec v 7) as [H7|H7]; [|rewrite (csr_bind _ _ h1 false h1) by done; by apply (Hlast h1 e1)].
  destruct (Htry 2 h1 e1 ltac:(lia) H1 S1) as (h2 & e2 & E2 & H2 & S2). destruct (Z.eqb_spec (field e2) 2) as [F2|F2].
  - rewrite (csr_bind _ _ h1 true h2); [apply (Hdone 2 h2 e2); (done || lia || by left)|]. by rewrite (csr_bind _ _ _ _ _ E2).
  - destruct (env_clear h h2 e2 ENVCFG_PMM H2) as (h3 & E3 & H3). rewrite (csr_bind _ _ h1 false h3); [apply (Hlast h3 _ H3); by apply pm_clear|].
    rewrite (csr_bind _ _ _ _ _ E2). by rewrite (csr_bind _ _ _ _ _ E3).
Qed.

Definition feature (i : nat) : fwft_feature := nth i (fwft_features platform f) (Feature 0 (mret 0) (fun _ => mret 0) (mret (0, None))).

(** The value asked for, or the shortest length that is at least it. *)
Definition accepts (i : nat) (v w : Z) : Prop := if (i =? 5)%nat then v <= w /\ (v = 0 -> w = 0) else w = v.

Definition changes_only (i : nat) (h h' : hart) : Prop := forall j, (j < 6)%nat -> j <> i -> value h' j = value h j.

(** The outcome of a function that sets feature [i]. *)
Definition set_outcome (i : nat) (v : Z) (h : hart) (rc : Z) (h' : hart) : Prop :=
  env_ok (csr_val h' CSR_MENVCFG) /\ (forall c, c <> CSR_MENVCFG -> c <> CSR_MEDELEG -> csr_val h' c = csr_val h c) /\
  (rc = 0 /\ changes_only i h h' /\ accepts i v (value h' i) \/ rc = SBI_EINVAL /\ (forall c, csr_val h' c = csr_val h c) /\ (v <> 0 /\ v <> 1 \/ i = 5%nat)).

Lemma value_env_eq h h' j : (1 <= j <= 4)%nat -> Z.testbit (csr_val h' CSR_MENVCFG) (fwft_bit j) = Z.testbit (csr_val h CSR_MENVCFG) (fwft_bit j) -> value h' j = value h j.
Proof. intros Hj E. destruct j as [|[|[|[|[|j]]]]]; try lia; cbn [value]; by rewrite E. Qed.

Lemma field_eq e e' : Z.testbit e' 32 = Z.testbit e 32 -> Z.testbit e' 33 = Z.testbit e 33 -> field e' = field e.
Proof. unfold field. by intros -> ->. Qed.

(** One bit of [menvcfg] is written. *)
Lemma env_bit_outcome i v h h' b : (1 <= i <= 4)%nat -> env_ok (csr_val h CSR_MENVCFG) -> v = Z.b2z b ->
  Z.testbit (csr_val h' CSR_MENVCFG) (fwft_bit i) = b ->
  (forall j, 0 <= j -> j <> fwft_bit i -> Z.testbit (csr_val h' CSR_MENVCFG) j = Z.testbit (csr_val h CSR_MENVCFG) j) ->
  (forall c, c <> CSR_MENVCFG -> csr_val h' c = csr_val h c) -> set_outcome i v h 0 h'.
Proof.
  intros Hi [Hf Hz] -> Hb Ho Hc. assert (fwft_bit i <> 32 /\ fwft_bit i <> 33) as [N32 N33] by (destruct i as [|[|[|[|[|i]]]]]; cbn; lia).
  assert (forall j, j = 32 \/ j = 33 -> Z.testbit (csr_val h' CSR_MENVCFG) j = Z.testbit (csr_val h CSR_MENVCFG) j) as H3 by (intros j Hj; apply Ho; lia).
  assert (field (csr_val h' CSR_MENVCFG) = field (csr_val h CSR_MENVCFG)) as Hfe by (apply field_eq; apply H3; lia).
  split; [split; [by rewrite Hfe|intros j Hj Hm; rewrite H3 by done; by apply Hz]|]. split; [by intros c ? _; apply Hc|]. left. split; [done|]. split.
  - intros j Hj Hji. destruct (decide (1 <= j <= 4)%nat) as [Hr|Hr].
    + apply value_env_eq; [done|]. apply Ho; destruct i as [|[|[|[|[|i]]]]], j as [|[|[|[|[|j]]]]]; cbn; lia.
    + assert (j = 0%nat \/ j = 5%nat) as [->| ->] by lia; cbn [value]; [by rewrite Hc|]. unfold mask_length. by rewrite Hfe.
  - unfold accepts. destruct (Nat.eqb_spec i 5); [lia|]. destruct i as [|[|[|[|[|i]]]]]; try lia; cbn [value]; by rewrite Hb.
Qed.

Lemma bit_effect i v h : (1 <= i <= 4)%nat -> env_ok (csr_val h CSR_MENVCFG) -> sbi_hart_has_extension f (fwft_ext i) = true ->
  exists rc h', fwft_menvcfg_set_bit v (fwft_bit i) h = Some (rc, h') /\ set_outcome i v h rc h'.
Proof using Hfp.
  intros Hi Hok Hext. assert (bit_writable CSR_MENVCFG (fwft_bit i)) as Hw by (split; [done|]; split; [done|]; exists me; split; [exact env_mask|by apply env_bits]).
  assert (0 <= fwft_bit i) as Hpos by (destruct i as [|[|[|[|[|i]]]]]; cbn; lia). unfold fwft_menvcfg_set_bit. rewrite Z.shiftl_1_l.
  destruct (Z.eqb_spec v 1) as [->|N1]; [|destruct (Z.eqb_spec v 0) as [->|N0]].
  - destruct (csr_set_bit CSR_MENVCFG (fwft_bit i) h Hpos Hw) as (h' & E & Hb & Ho & Hc). rewrite (csr_bind _ _ _ _ _ E). exists 0, h'. split; [done|]. by apply (env_bit_outcome i 1 h h' true).
  - destruct (csr_clear_bit CSR_MENVCFG (fwft_bit i) h Hpos Hw) as (h' & E & Hb & Ho & Hc). rewrite (csr_bind _ _ _ _ _ E). exists 0, h'. split; [done|]. by apply (env_bit_outcome i 0 h h' false).
  - exists SBI_EINVAL, h. split; [done|]. split; [done|]. split; [done|]. right. split_and!; (done || by left).
Qed.

Lemma deleg_rmw g h : exists h', (old ← csr_read CSR_MEDELEG; csr_write CSR_MEDELEG (g old)) h = Some (tt, h') /\
  csr_val h' CSR_MEDELEG = merge md (csr_val h CSR_MEDELEG) (g (csr_val h CSR_MEDELEG)) /\ forall c, c <> CSR_MEDELEG -> csr_val h' c = csr_val h c.
Proof using Hfp.
  assert (csr_read CSR_MEDELEG h = Some (csr_val h CSR_MEDELEG, h)) as Er by (unfold csr_read, hw_read; cbn -[csr_val]; by rewrite deleg_mask).
  exists (set_csr h CSR_MEDELEG (merge md (csr_val h CSR_MEDELEG) (g (csr_val h CSR_MEDELEG)))). split; [|split; [apply csr_val_eq|intros c Hc; by rewrite csr_val_ne]].
  rewrite (csr_bind _ _ _ _ _ Er). unfold csr_write, hw_write. cbn -[csr_val]. by rewrite deleg_mask.
Qed.

Lemma mis_deleg_bits v : has v MIS_DELEG = Z.testbit v 4 || Z.testbit v 6.
Proof.
  unfold has. destruct (Z.testbit v 4 || Z.testbit v 6) eqn:E.
  - apply negb_true_iff, Z.eqb_neq. intros H. apply orb_true_iff in E as [E|E].
    + pose proof (f_equal (fun x => Z.testbit x 4) H) as H4. cbv beta in H4. rewrite Z.land_spec, E in H4. done.
    + pose proof (f_equal (fun x => Z.testbit x 6) H) as H6. cbv beta in H6. rewrite Z.land_spec, E in H6. done.
  - apply orb_false_iff in E as [E4 E6]. apply negb_false_iff, Z.eqb_eq, Z.bits_inj'. intros j Hj. change MIS_DELEG with (Z.lor (2 ^ 4) (2 ^ 6)).
    rewrite Z.land_spec, Z.lor_spec, !Z.pow2_bits_eqb, Z.bits_0 by lia. destruct (decide (j = 4)) as [->|]; [by rewrite E4|]. destruct (decide (j = 6)) as [->|]; [by rewrite E6|].
    rewrite (proj2 (Z.eqb_neq 4 j)), (proj2 (Z.eqb_neq 6 j)) by lia. apply andb_false_r.
Qed.

Lemma deleg_outcome b h h' : env_ok (csr_val h CSR_MENVCFG) -> has (csr_val h' CSR_MEDELEG) MIS_DELEG = b -> (forall c, c <> CSR_MEDELEG -> csr_val h' c = csr_val h c) -> set_outcome 0 (Z.b2z b) h 0 h'.
Proof.
  intros Hok Hb Hc. assert (csr_val h' CSR_MENVCFG = csr_val h CSR_MENVCFG) as He by (by apply Hc). split; [by rewrite He|]. split; [by intros c _ ?; apply Hc|]. left. split; [done|]. split.
  - intros j Hj Hj0. destruct j as [|[|[|[|[|[|j]]]]]]; try lia; cbn [value]; by rewrite He.
  - cbn. by rewrite Hb.
Qed.

Lemma deleg_effect v h : env_ok (csr_val h CSR_MENVCFG) -> exists rc h', fwft_set_misaligned_delegation v h = Some (rc, h') /\ set_outcome 0 v h rc h'.
Proof using Hfp.
  intros Hok. destruct deleg_bits as [D4 D6]. unfold fwft_set_misaligned_delegation. destruct (Z.eqb_spec v 1) as [->|N1]; [|destruct (Z.eqb_spec v 0) as [->|N0]].
  - destruct (deleg_rmw (fun old => Z.lor old MIS_DELEG) h) as (h' & E & Hv & Hc). unfold csr_set. rewrite (csr_bind _ _ _ _ _ E). exists 0, h'. split; [done|].
    apply (deleg_outcome true); [done| |done]. rewrite Hv, mis_deleg_bits, !merge_bit, D4, D6, !Z.lor_spec by lia. change (Z.testbit MIS_DELEG 4) with true. by rewrite orb_true_r.
  - destruct (deleg_rmw (fun old => Z.land old (Z.lnot MIS_DELEG)) h) as (h' & E & Hv & Hc). unfold csr_clear. rewrite (csr_bind _ _ _ _ _ E). exists 0, h'. split; [done|].
    apply (deleg_outcome false); [done| |done]. rewrite Hv, mis_deleg_bits, !merge_bit, D4, D6, !Z.land_spec, !Z.lnot_spec by lia. change (Z.testbit MIS_DELEG 4) with true. change (Z.testbit MIS_DELEG 6) with true.
    by rewrite !andb_false_r.
  - exists SBI_EINVAL, h. split; [done|]. split; [done|]. split; [done|]. right. split_and!; (done || by left).
Qed.

Lemma pmlen_outcome v h : env_ok (csr_val h CSR_MENVCFG) -> 0 <= v -> exists rc h', fwft_set_pmlen v h = Some (rc, h') /\ set_outcome 5 v h rc h'.
Proof using Hfp.
  intros Hok Hv. destruct (set_pmlen_effect v h Hok Hv) as (rc & h' & e' & E & [He Hc] & [Hs _] & Hok' & Hr). exists rc, h'. split; [done|]. unfold set_outcome. rewrite He.
  split; [done|]. split; [by intros c ? _; apply Hc|]. destruct Hr as [(-> & H1 & H2)|(-> & He')].
  - left. split; [done|]. split; [|cbn [value]; unfold accepts; cbn [Nat.eqb]; by rewrite He]. intros j Hj Hj5. destruct (decide (1 <= j <= 4)%nat) as [Hr|Hr].
    + apply value_env_eq; [done|]. rewrite He. apply Hs; destruct j as [|[|[|[|[|j]]]]]; cbn; lia.
    + assert (j = 0%nat) as -> by lia. cbn [value]. by rewrite Hc.
  - right. split; [done|]. split; [|by right]. intros c. destruct (decide (c = CSR_MENVCFG)) as [->|]; [by rewrite He, He'|by apply Hc].
Qed.

Lemma set_effect i v h : (i < 6)%nat -> supports h i = true -> env_ok (csr_val h CSR_MENVCFG) -> 0 <= v ->
  exists rc h', (feature i).(f_set) v h = Some (rc, h') /\ set_outcome i v h rc h'.
Proof using Hfp.
  intros Hi Hs Hok Hv. destruct i as [|[|[|[|[|[|i]]]]]]; try lia; cbn [supports] in Hs.
  - by apply deleg_effect.
  - by apply (bit_effect 1); [lia|..].
  - by apply (bit_effect 2); [lia|..].
  - by apply (bit_effect 3); [lia|..].
  - by apply (bit_effect 4); [lia|..].
  - by apply pmlen_outcome.
Qed.

(** ** Configurations *)

(** The configurations with the given flags. *)
Definition configs_of (fl : list Z) : list fwft_config := zip_with Config (fwft_features platform f) fl.

Definition flags_ok (fl : list Z) : Prop := length fl = 6%nat /\ Forall (fun x => x = 0 \/ x = 1) fl.

Lemma config_lookup fl i x : fl !! i = Some x -> (i < 6)%nat -> configs_of fl !! i = Some (Config (feature i) x).
Proof.
  intros Hx Hi. unfold configs_of. rewrite lookup_zip_with. unfold feature. destruct i as [|[|[|[|[|[|i]]]]]]; try lia; cbn [lookup list_lookup fwft_features mbind option_bind nth]; by rewrite Hx.
Qed.

Lemma configs_insert fl i x : length fl = 6%nat -> (i < 6)%nat -> <[i := Config (feature i) x]> (configs_of fl) = configs_of (<[i := x]> fl).
Proof.
  intros Hl Hi. destruct fl as [|a [|b [|c [|d [|e [|g [|]]]]]]]; cbn in Hl; try lia. destruct i as [|[|[|[|[|[|i]]]]]]; try lia; reflexivity.
Qed.

Lemma configs_inj fl fl' : length fl = 6%nat -> length fl' = 6%nat -> configs_of fl = configs_of fl' -> fl = fl'.
Proof.
  intros Hl Hl' E%(f_equal (map flags_)). unfold configs_of in E. assert (forall l, length l = 6%nat -> map flags_ (zip_with Config (fwft_features platform f) l) = l) as Hm.
  { intros l Hle. destruct l as [|x0 [|x1 [|x2 [|x3 [|x4 [|x5 [|]]]]]]]; done. }
  by rewrite !Hm in E.
Qed.

Lemma config_ids fl i c : configs_of fl !! i = Some c -> c.(feature_).(f_id) = Z.of_nat i.
Proof.
  unfold configs_of. rewrite lookup_zip_with. destruct i as [|[|[|[|[|[|i]]]]]]; cbn [lookup list_lookup fwft_features mbind option_bind];
    try (destruct (fl !! _); cbn; intros [= <-]; done).
Qed.

Lemma get_config fl fid : flags_ok fl -> in_range 32 fid ->
  get_feature_config (configs_of fl) fid = if fid <? 6 then (fun x => (Z.to_nat fid, Config (feature (Z.to_nat fid)) x)) <$> fl !! Z.to_nat fid else None.
Proof.
  intros [Hl _] [Hlo Hhi]. unfold get_feature_config. change SBI_FWFT_GLOBAL_FEATURE_BIT with (Z.shiftl 1 31). rewrite testbit_mask by lia. destruct (Z.ltb_spec fid 6) as [H6|H6].
  - assert (Z.testbit fid 31 = false) as -> by (apply (testbit_above 31); unfold in_range; lia).
    destruct (lookup_lt_is_Some_2 fl (Z.to_nat fid) ltac:(lia)) as [x Hx]. rewrite Hx. cbn [fmap option_fmap option_map]. apply list_find_Some.
    pose proof (config_lookup fl (Z.to_nat fid) x Hx ltac:(lia)) as E. split; [done|]. rewrite (config_ids _ _ _ E). split; [lia|].
    intros j c Hc Hj. rewrite (config_ids _ _ _ Hc). lia.
  - case_match; [done|]. apply list_find_None, Forall_lookup. intros j c Hc. rewrite (config_ids _ _ _ Hc). apply lookup_lt_Some in Hc.
    unfold configs_of in Hc. rewrite length_zip_with in Hc. change (length (fwft_features platform f)) with 6%nat in Hc. lia.
Qed.

Lemma supported_effect i h : (i < 6)%nat -> (feature i).(f_supported) h = Some (if supports h i then 0 else SBI_ENOTSUPP, h).
Proof using Hfp.
  intros Hi. assert (forall e, needs_extension f e h = Some (if sbi_hart_has_extension f e then 0 else SBI_ENOTSUPP, h)) as Hneed
    by (intros e; unfold needs_extension; by destruct (sbi_hart_has_extension f e)).
  destruct i as [|[|[|[|[|[|i]]]]]]; try lia; cbn [supports]; [|exact (Hneed (fwft_ext 1))|exact (Hneed (fwft_ext 2))|exact (Hneed (fwft_ext 3))|exact (Hneed (fwft_ext 4))|exact (Hneed (fwft_ext 5))].
  cbn [feature nth fwft_features f_supported]. unfold fwft_misaligned_delegation_supported, misa_extension, misa_extension_imp. destruct misa_there as [m Hm].
  assert (csr_read CSR_MISA h = Some (csr_val h CSR_MISA, h)) as Er by (unfold csr_read, hw_read; cbn -[csr_val]; by rewrite Hm).
  set (r := if csr_val h CSR_MISA =? 0 then _ else _). rewrite (csr_bind _ _ h r h); [by destruct r|]. rewrite (csr_bind _ _ _ _ _ Er). unfold r. destruct (csr_val h CSR_MISA =? 0); done.
Qed.

Lemma get_effect i h : (i < 6)%nat -> env_ok (csr_val h CSR_MENVCFG) -> (feature i).(f_get) h = Some ((0, Some (value h i)), h).
Proof using Hfp.
  intros Hi [Hf _]. destruct i as [|[|[|[|[|[|i]]]]]]; try lia; cbn [feature nth fwft_features f_get value].
  - unfold fwft_get_misaligned_delegation. assert (csr_read CSR_MEDELEG h = Some (csr_val h CSR_MEDELEG, h)) as Er by (unfold csr_read, hw_read; cbn -[csr_val]; by rewrite deleg_mask).
    by rewrite (csr_bind _ _ _ _ _ Er).
  - unfold fwft_get_lpad, fwft_menvcfg_read_bit. rewrite (csr_bind _ _ _ _ _ (env_read h)). by rewrite testbit_mask.
  - unfold fwft_get_sstack, fwft_menvcfg_read_bit. rewrite (csr_bind _ _ _ _ _ (env_read h)). by rewrite testbit_mask.
  - unfold fwft_get_double_trap, fwft_menvcfg_read_bit. rewrite (csr_bind _ _ _ _ _ (env_read h)). by rewrite testbit_mask.
  - unfold fwft_get_adue, fwft_menvcfg_read_bit. rewrite (csr_bind _ _ _ _ _ (env_read h)). by rewrite testbit_mask.
  - unfold fwft_get_pmlen. rewrite (csr_bind _ _ _ _ _ (env_read h)). rewrite pmm_field. unfold mask_length.
    assert (field (csr_val h CSR_MENVCFG) = 0 \/ field (csr_val h CSR_MENVCFG) = 2 \/ field (csr_val h CSR_MENVCFG) = 3) as [->|[->| ->]]; [|done..].
    unfold field in *. destruct (Z.testbit (csr_val h CSR_MENVCFG) 32), (Z.testbit (csr_val h CSR_MENVCFG) 33); cbn in *; lia.
Qed.

(** Looking a feature up. *)
Lemma get_feature_effect fl fid h : flags_ok fl -> in_range 32 fid ->
  fwft_get_feature (configs_of fl) fid h =
  Some (if fid <? 6 then (if supports h (Z.to_nat fid) then (0, (fun x => (Z.to_nat fid, Config (feature (Z.to_nat fid)) x)) <$> fl !! Z.to_nat fid) else (SBI_ENOTSUPP, None))
        else (SBI_EDENIED, None), h).
Proof using Hfp.
  intros Hfl Hid. unfold fwft_get_feature. rewrite get_config by done. destruct (Z.ltb_spec fid 6) as [H6|H6].
  - unfold in_range in Hid. destruct Hfl as [Hl _]. destruct (lookup_lt_is_Some_2 fl (Z.to_nat fid) ltac:(lia)) as [x Hx]. rewrite Hx. cbn [fmap option_fmap option_map].
    rewrite (csr_bind _ _ _ _ _ (supported_effect (Z.to_nat fid) h ltac:(lia))). by destruct (supports h (Z.to_nat fid)).
  - assert (fwft_is_defined_feature fid = false) as ->; [|done]. apply not_true_is_false. intros (x & Hx & ->%Z.eqb_eq)%existsb_exists.
    assert (Forall (fun d => d < 6) fwft_defined_features) as Hd by (repeat constructor). rewrite Forall_forall in Hd. specialize (Hd fid). rewrite list_elem_of_In in Hd. specialize (Hd Hx). lia.
Qed.

(** ** The calls *)

Definition fwft_inv (fl : list Z) (h : hart) : Prop := flags_ok fl /\ env_ok (csr_val h CSR_MENVCFG).

(** What setting feature number [a0] to [v] does to the locks and the hart. *)
Definition set_spec (fl : list Z) (h : hart) (a0 v flags rc : Z) (fl' : list Z) (h' : hart) : Prop :=
  let i := Z.to_nat (u32 a0) in
  let refused := fl' = fl /\ forall c, csr_val h' c = csr_val h c in
  if decide (6 <= i)%nat then rc = SBI_EDENIED /\ refused
  else if negb (supports h i) then rc = SBI_ENOTSUPP /\ refused
  else if decide (flags <> 0 /\ flags <> 1) then rc = SBI_EINVAL /\ refused
  else if decide (fl !! i = Some 1) then rc = SBI_EDENIED_LOCKED /\ refused
  else rc = 0 /\ changes_only i h h' /\ accepts i v (value h' i) /\ fl' = <[i := flags]> fl \/ rc = SBI_EINVAL /\ refused /\ (v <> 0 /\ v <> 1 \/ i = 5%nat).

Lemma flag_bits x : 0 <= x -> (Z.land x (Z.lnot SBI_FWFT_SET_FLAG_LOCK) =? 0) = bool_decide (x = 0 \/ x = 1).
Proof.
  intros Hx. change (Z.lnot SBI_FWFT_SET_FLAG_LOCK) with (Z.lnot (Z.ones 1)). rewrite <- Z.ldiff_land, Z.ldiff_ones_r by lia. rewrite Z.shiftl_mul_pow2, Z.shiftr_div_pow2 by lia. change (2 ^ 1) with 2.
  pose proof (Z.div_mod x 2 ltac:(lia)). pose proof (Z.mod_pos_bound x 2 ltac:(lia)). case_bool_decide as E; [apply Z.eqb_eq|apply Z.eqb_neq]; lia.
Qed.

Lemma set_refines fl h a0 v flags : fwft_inv fl h -> 0 <= v -> 0 <= flags ->
  exists rc fl' h', sbi_fwft_set (configs_of fl) (u32 a0) v flags h = Some ((rc, configs_of fl'), h') /\ fwft_inv fl' h' /\
    set_spec fl h a0 v flags rc fl' h' /\ forall c, c <> CSR_MENVCFG -> c <> CSR_MEDELEG -> csr_val h' c = csr_val h c.
Proof using Hfp.
  intros [Hfl Hok] Hv Hflags. pose proof (wrap_range 32 a0 ltac:(lia)) as Hid. set (fid := u32 a0) in *. unfold sbi_fwft_set. rewrite (csr_bind _ _ _ _ _ (get_feature_effect fl fid h Hfl Hid)).
  unfold set_spec. fold fid. unfold in_range in Hid. destruct (Z.ltb_spec fid 6) as [H6|H6]; [|exists SBI_EDENIED, fl, h; rewrite decide_True by lia; done].
  destruct (supports h (Z.to_nat fid)) eqn:Hs; [|exists SBI_ENOTSUPP, fl, h; rewrite decide_False by lia; done]. pose proof Hfl as [Hl Hall].
  destruct (lookup_lt_is_Some_2 fl (Z.to_nat fid) ltac:(lia)) as [x Hx]. rewrite Hx. cbn [fmap option_fmap option_map]. rewrite flag_bits by done.
  case_bool_decide as Hfg; cbn [negb]; [|exists SBI_EINVAL, fl, h; rewrite decide_False by lia; rewrite decide_True by lia; done]. cbn [flags_ feature_].
  assert (x = 0 \/ x = 1) as Hx01 by (by apply (Forall_lookup_1 _ _ _ _ Hall Hx)). destruct (decide (x = 1)) as [->|Hx1].
  { exists SBI_EDENIED_LOCKED, fl, h. rewrite decide_False by lia. rewrite decide_False by lia. rewrite decide_True by done. done. }
  assert (x = 0) as -> by (destruct Hx01; done). change (has 0 SBI_FWFT_SET_FLAG_LOCK) with false. cbv iota.
  destruct (set_effect (Z.to_nat fid) v h ltac:(lia) Hs Hok Hv) as (rc & h' & E & Hok' & Hc & Hr). rewrite (csr_bind _ _ _ _ _ E).
  destruct Hr as [(-> & Hch & Hacc)|(-> & Hsame & Hbad)].
  - cbn [Z.eqb negb]. rewrite configs_insert by (done || lia). exists 0, (<[Z.to_nat fid := flags]> fl), h'. split; [done|]. split.
    + split; [split; [by rewrite length_insert|by apply Forall_insert]|done].
    + split; [|done]. rewrite decide_False by lia. rewrite decide_False by lia. rewrite decide_False by done. by left.
  - exists SBI_EINVAL, fl, h'. split; [done|]. split; [by split; [|]|]. split; [|done]. rewrite decide_False by lia. rewrite decide_False by lia. rewrite decide_False by done. by right.
Qed.

(** A call of the extension. *)
Inductive fwft_call := SetFeature (a0 v flags : Z) | GetFeature (a0 : Z).

Definition run_fwft (c : fwft_call) (configs : list fwft_config) : csrM (Z * option Z * list fwft_config) :=
  match c with
  | SetFeature a0 v flags => sbi_ecall_fwft_handler configs SBI_EXT_FWFT_SET a0 v flags
  | GetFeature a0 => sbi_ecall_fwft_handler configs SBI_EXT_FWFT_GET a0 0 0
  end.

Definition fwft_call_ok (c : fwft_call) : Prop := match c with SetFeature _ v flags => 0 <= v /\ 0 <= flags | GetFeature _ => True end.

Definition fwft_spec (c : fwft_call) (fl : list Z) (h : hart) (rc : Z) (v : option Z) (fl' : list Z) (h' : hart) : Prop :=
  match c with
  | SetFeature a0 w flags => v = None /\ set_spec fl h a0 w flags rc fl' h'
  | GetFeature a0 =>
      let i := Z.to_nat (u32 a0) in
      fl' = fl /\ h' = h /\
      (if decide (6 <= i)%nat then rc = SBI_EDENIED /\ v = None else if supports h i then rc = 0 /\ v = Some (value h i) else rc = SBI_ENOTSUPP /\ v = None)
  end.

Lemma fwft_call_refines c fl h : fwft_inv fl h -> fwft_call_ok c ->
  exists rc v fl' h', run_fwft c (configs_of fl) h = Some (rc, v, configs_of fl', h') /\ fwft_inv fl' h' /\ fwft_spec c fl h rc v fl' h' /\
    forall c, c <> CSR_MENVCFG -> c <> CSR_MEDELEG -> csr_val h' c = csr_val h c.
Proof using Hfp.
  intros Hinv Hc. destruct c as [a0 v flags|a0]; cbn [run_fwft fwft_spec]; unfold sbi_ecall_fwft_handler; rewrite Z.eqb_refl.
  - destruct Hc as [Hv Hf]. destruct (set_refines fl h a0 v flags Hinv Hv Hf) as (rc & fl' & h' & E & Hinv' & Hsp & Hsame). rewrite (csr_bind _ _ _ _ _ E). by exists rc, None, fl', h'.
  - destruct Hinv as [Hfl Hok]. pose proof (wrap_range 32 a0 ltac:(lia)) as Hid. set (fid := u32 a0) in *.
    assert (exists rc v, sbi_fwft_get (configs_of fl) fid h = Some ((rc, v), h) /\
      (if decide (6 <= Z.to_nat fid)%nat then rc = SBI_EDENIED /\ v = None else if supports h (Z.to_nat fid) then rc = 0 /\ v = Some (value h (Z.to_nat fid)) else rc = SBI_ENOTSUPP /\ v = None)) as (rc & v & E & Hsp).
    { unfold sbi_fwft_get. rewrite (csr_bind _ _ _ _ _ (get_feature_effect fl fid h Hfl Hid)). unfold in_range in Hid. destruct (Z.ltb_spec fid 6) as [H6|H6].
      - destruct (supports h (Z.to_nat fid)) eqn:Hs; [|eexists _, _; split; [done|]; rewrite decide_False by lia; done]. destruct Hfl as [Hl _].
        destruct (lookup_lt_is_Some_2 fl (Z.to_nat fid) ltac:(lia)) as [x ->]. cbn [fmap option_fmap option_map feature_]. rewrite get_effect by (done || lia).
        eexists _, _. split; [done|]. rewrite decide_False by lia. done.
      - eexists _, _. split; [done|]. rewrite decide_True by lia. done. }
    change (SBI_EXT_FWFT_GET =? SBI_EXT_FWFT_SET) with false. cbv iota. rewrite (csr_bind _ _ _ _ _ E). by exists rc, v, fl, h.
Qed.

(** Calls made one after the other. *)
Fixpoint run_fwfts (cs : list fwft_call) (configs : list fwft_config) : csrM (list fwft_config) :=
  match cs with [] => mret configs | c :: cs => '(_, configs) ← run_fwft c configs; run_fwfts cs configs end.

(** A call does not touch a locked feature. *)
Lemma locked_step c fl h rc v fl' h' i : fwft_spec c fl h rc v fl' h' -> length fl = 6%nat -> fl !! i = Some 1 -> fl' !! i = Some 1 /\ value h' i = value h i.
Proof.
  intros Hs Hlen Hl. assert (i < 6)%nat as Hi by (apply lookup_lt_Some in Hl; lia).
  assert (fl' = fl -> (forall c, csr_val h' c = csr_val h c) -> fl' !! i = Some 1 /\ value h' i = value h i) as Hsame.
  { intros -> E. split; [done|]. unfold value. by rewrite !E. }
  destruct c as [a0 w flags|a0]; cbn [fwft_spec] in Hs; [|destruct Hs as (-> & -> & _); done]. destruct Hs as [_ Hs]. unfold set_spec in Hs. cbv zeta in Hs.
  destruct (decide (6 <= _)%nat); [destruct Hs as (_ & ? & ?); auto|]. destruct (supports h _); cbn [negb] in Hs; [|destruct Hs as (_ & ? & ?); auto].
  destruct (decide (flags <> 0 /\ flags <> 1)); [destruct Hs as (_ & ? & ?); auto|]. destruct (decide (fl !! _ = Some 1)); [destruct Hs as (_ & ? & ?); auto|].
  destruct Hs as [(_ & Hch & _ & ->)|(_ & [? ?] & _)]; [|auto]. assert (Z.to_nat (u32 a0) <> i) by congruence. rewrite list_lookup_insert_ne by done. auto.
Qed.

Lemma locks_kept cs fl h i : fwft_inv fl h -> Forall fwft_call_ok cs -> fl !! i = Some 1 ->
  exists fl' h', run_fwfts cs (configs_of fl) h = Some (configs_of fl', h') /\ fwft_inv fl' h' /\ fl' !! i = Some 1 /\ value h' i = value h i.
Proof using Hfp.
  intros Hinv Hcs. revert fl h Hinv. induction Hcs as [|c cs Hc _ IH]; intros fl h Hinv Hl; [by exists fl, h|]. cbn [run_fwfts].
  destruct (fwft_call_refines c fl h Hinv Hc) as (rc & v & fl1 & h1 & E & Hinv1 & Hs & _). rewrite (csr_bind _ _ _ _ _ E).
  destruct (locked_step c fl h rc v fl1 h1 i Hs (proj1 (proj1 Hinv)) Hl) as [Hl1 Hv1]. destruct (IH fl1 h1 Hinv1 Hl1) as (fl' & h' & E' & Hinv' & Hl' & Hv').
  exists fl', h'. by rewrite Hv', Hv1.
Qed.

(** What the initialisation of a hart leaves, when it is the first and when
    configurations are left of an earlier one. *)
Lemma clear_lock_effect fl i h : flags_ok fl -> (i < 6)%nat ->
  fwft_clear_config_lock (configs_of fl) (Z.of_nat i) h = Some (configs_of (if supports h i then <[i := 0]> fl else fl), h).
Proof using Hfp.
  intros Hfl Hi. unfold fwft_clear_config_lock. assert (in_range 32 (Z.of_nat i)) as Hr by (unfold in_range; lia).
  rewrite (csr_bind _ _ _ _ _ (get_feature_effect fl (Z.of_nat i) h Hfl Hr)). rewrite (proj2 (Z.ltb_lt _ _)) by lia. rewrite Nat2Z.id.
  destruct (supports h i); [|done]. destruct (lookup_lt_is_Some_2 fl i) as [x Hx]; [destruct Hfl; lia|]. rewrite Hx. cbn [fmap option_fmap option_map Z.eqb feature_ flags_].
  rewrite configs_insert by (done || by destruct Hfl). assert (x = 0 \/ x = 1) as [-> | ->]; [|done..]. destruct Hfl as [_ Hall]. by apply (Forall_lookup_1 _ _ _ _ Hall Hx).
Qed.

(** The locks after the initialisation: those of supported features are open. *)
Definition unlocked (h : hart) (fl : list Z) : list Z := foldl (fun fl i => if supports h i then <[i := 0]> fl else fl) fl (seq 0 6).

Lemma clear_locks_effect ns fl h : flags_ok fl -> Forall (fun i => (i < 6)%nat) ns ->
  clear_config_locks (map feature ns) (configs_of fl) h = Some (configs_of (foldl (fun fl i => if supports h i then <[i := 0]> fl else fl) fl ns), h) /\
  flags_ok (foldl (fun fl i => if supports h i then <[i := 0]> fl else fl) fl ns).
Proof using Hfp.
  intros Hfl Hns. revert fl Hfl. induction Hns as [|i ns Hi _ IH]; intros fl Hfl; [done|]. cbn [map clear_config_locks foldl].
  assert (f_id (feature i) = Z.of_nat i) as -> by (destruct i as [|[|[|[|[|[|]]]]]]; done || lia). rewrite (csr_bind _ _ _ _ _ (clear_lock_effect fl i h Hfl Hi)).
  apply IH. destruct (supports h i); [|done]. destruct Hfl as [Hl Hf]. split; [by rewrite length_insert|apply Forall_insert; auto].
Qed.

Lemma init_effect fhs h : fwft_inv (default (replicate 6 0) fhs) h ->
  let fl := unlocked h (default (replicate 6 0) fhs) in sbi_fwft_init platform f true (configs_of <$> fhs) h = Some ((0, Some (configs_of fl)), h) /\ fwft_inv fl h.
Proof using Hfp.
  intros [Hfl Hok]. destruct (clear_locks_effect (seq 0 6) _ h Hfl ltac:(apply Forall_seq; lia)) as [E Hfl']. unfold sbi_fwft_init.
  destruct fhs; change (fwft_features platform f) with (map feature (seq 0 6)); cbn [fmap option_fmap option_map]; by rewrite (csr_bind _ _ _ _ _ E).
Qed.

(** Every feature a hart supports is open after the initialisation. *)
Lemma unlocked_lookup h fl i : length fl = 6%nat -> (i < 6)%nat -> unlocked h fl !! i = if supports h i then Some 0 else fl !! i.
Proof.
  intros Hl Hi. unfold unlocked. cbn [seq foldl]. destruct fl as [|x0 [|x1 [|x2 [|x3 [|x4 [|x5 [|]]]]]]]; try done.
  destruct i as [|[|[|[|[|[|]]]]]]; try lia; destruct (supports h 0), (supports h 1), (supports h 2), (supports h 3), (supports h 4), (supports h 5); reflexivity.
Qed.

(** C26: The firmware features refine a table of six values and six locks.  The
    initialisation opens the lock of every feature the hart supports.  Every call
    ends and keeps the invariant; a getter answers the value of the feature in the
    registers, unsupported and unknown features are refused, and a setter either
    is refused and leaves every register and lock as it was, or gives the feature
    an accepted value (the value itself; for pointer masking a length that is at
    least the one asked for), leaves the other five features alone and stores the
    lock bit.  No other register changes. *)
Theorem fwft_refines fhs h c fl h1 : fwft_inv (default (replicate 6 0) fhs) h -> fwft_inv fl h1 -> fwft_call_ok c ->
  (exists fl0, sbi_fwft_init platform f true (configs_of <$> fhs) h = Some ((0, Some (configs_of fl0)), h) /\ fwft_inv fl0 h /\
     forall i, (i < 6)%nat -> supports h i = true -> fl0 !! i = Some 0) /\
  exists rc v fl' h', run_fwft c (configs_of fl) h1 = Some (rc, v, configs_of fl', h') /\ fwft_inv fl' h' /\ fwft_spec c fl h1 rc v fl' h' /\
    forall c, c <> CSR_MENVCFG -> c <> CSR_MEDELEG -> csr_val h' c = csr_val h1 c.
Proof using Hfp.
  intros Hinit Hinv Hc. split; [|by apply fwft_call_refines]. destruct (init_effect fhs h Hinit) as [E Hinv0]. eexists. split; [exact E|]. split; [exact Hinv0|].
  intros i Hi Hs. rewrite unlocked_lookup, Hs; [done|apply Hinit|done].
Qed.

(** A feature that was set with the lock flag keeps its value and its lock over
    every later sequence of calls, whatever they ask for. *)
Theorem fwft_lock_permanent a0 v fl h cs : fwft_inv fl h -> 0 <= v -> Forall fwft_call_ok cs ->
  forall fl1 h1, run_fwft (SetFeature a0 v SBI_FWFT_SET_FLAG_LOCK) (configs_of fl) h = Some (0, None, configs_of fl1, h1) -> length fl1 = 6%nat ->
  exists fl' h', run_fwfts cs (configs_of fl1) h1 = Some (configs_of fl', h') /\
    accepts (Z.to_nat (u32 a0)) v (value h' (Z.to_nat (u32 a0))) /\ fl' !! Z.to_nat (u32 a0) = Some 1.
Proof using Hfp.
  intros Hinv Hv Hcs fl1 h1 E Hl1. destruct (fwft_call_refines (SetFeature a0 v SBI_FWFT_SET_FLAG_LOCK) fl h Hinv) as (rc & o & fl2 & h2 & E2 & Hinv2 & [_ Hs] & _); [split; [done|done]|].
  rewrite E in E2. injection E2 as <- <- Hcfg <-. assert (fl1 = fl2) as <- by (by apply configs_inj; [|apply Hinv2|]).
  set (i := Z.to_nat (u32 a0)) in *. assert (accepts i v (value h1 i) /\ fl1 !! i = Some 1) as [Hacc Hlock].
  { unfold set_spec in Hs. fold i in Hs. cbv zeta in Hs. destruct (decide (6 <= i)%nat); [by destruct Hs|]. destruct (supports h i); [|by destruct Hs]. cbn [negb] in Hs.
    rewrite decide_False in Hs by (intros [_ []]; done). destruct (decide (fl !! i = Some 1)); [by destruct Hs|]. destruct Hs as [(_ & _ & Hacc & ->)|[]]; [|done].
    split; [done|]. rewrite list_lookup_insert_eq; [done|]. destruct Hinv as [[Hl _] _]. lia. }
  destruct (locks_kept cs fl1 h1 i Hinv2 Hcs Hlock) as (fl' & h' & E' & _ & Hl' & Hv'). exists fl', h'. by rewrite Hv'.
Qed.
End Refine.

(** A hart with every extension, all of whose registers can be written. *)
Definition fwft_hart_features : sbi_hart_features := Features true 3 [2 ^ 64 - 1] 0 0 0 0 0.

Lemma full_platform : @FwftPlatform hw_full fwft_hart_features (-1) (-1).
Proof. constructor; try reflexivity; [by eexists|done|]. intros i Hi _. by destruct i as [|[|[|[|[|]]]]]; try lia. Qed.

Lemma full_inv : fwft_inv (-1) (replicate 6 0) (Hart [] [] ∅).
Proof. split; [split; [done|repeat constructor; by left]|]. split; [done|]. by intros j [-> | ->]. Qed.

Lemma fwft_refines_witness : exists v fl' h',
  run_fwft (SetFeature SBI_FWFT_LANDING_PAD 1 0) (@configs_of hw_full (fun _ => true) fwft_hart_features (replicate 6 0)) (Hart [] [] ∅) =
    Some (0, v, @configs_of hw_full (fun _ => true) fwft_hart_features fl', h') /\ value h' 1 = 1.
Proof.
  destruct (@fwft_refines hw_full (fun _ => true) fwft_hart_features (-1) (-1) full_platform None (Hart [] [] ∅) (SetFeature SBI_FWFT_LANDING_PAD 1 0) (replicate 6 0) (Hart [] [] ∅)
    full_inv full_inv ltac:(split; done)) as [_ (rc & v & fl' & h' & E & _ & [_ Hs] & _)].
  assert (rc = 0 /\ value h' 1 = 1) as [-> Hv]; [|by exists v, fl', h'].
  unfold set_spec in Hs. change (Z.to_nat (u32 SBI_FWFT_LANDING_PAD)) with 1%nat in Hs. cbv zeta in Hs.
  rewrite decide_False in Hs by lia. change (supports (fun _ => true) fwft_hart_features (Hart [] [] ∅) 1) with true in Hs. cbn [negb] in Hs.
  rewrite decide_False in Hs by lia. rewrite decide_False in Hs by done. destruct Hs as [(-> & _ & Hacc & _)|(_ & _ & [[_ []]|])]; done.
Defined.

Lemma fwft_lock_permanent_witness : exists fl' h',
  run_fwfts [SetFeature SBI_FWFT_LANDING_PAD 0 0; GetFeature SBI_FWFT_LANDING_PAD]
    (@configs_of hw_full (fun _ => true) fwft_hart_features [0; 1; 0; 0; 0; 0]) (Hart [] [] {[CSR_MENVCFG := 4]}) = Some (@configs_of hw_full (fun _ => true) fwft_hart_features fl', h') /\
  value h' 1 = 1.
Proof.
  destruct (@fwft_lock_permanent hw_full (fun _ => true) fwft_hart_features (-1) (-1) full_platform SBI_FWFT_LANDING_PAD 1 (replicate 6 0) (Hart [] [] ∅)
    [SetFeature SBI_FWFT_LANDING_PAD 0 0; GetFeature SBI_FWFT_LANDING_PAD] full_inv ltac:(lia) ltac:(repeat constructor; lia)
    [0; 1; 0; 0; 0; 0] (Hart [] [] {[CSR_MENVCFG := 4]}) eq_refl eq_refl) as (fl' & h' & E & Hv & _).
  exists fl', h'. split; [exact E|exact Hv].
Defined.
