(* ===== verification/Mpxy.v ===== *)
(** * The message proxy (lib/sbi/sbi_mpxy.c, lib/sbi/sbi_ecall_mpxy.c)

    A supervisor exchanges messages with drivers through a page of its own memory.
    The state is the list of channels, the size of the shared memory, which is one
    for all harts, and the place of the shared memory of each hart.  The drivers
    are parameters: callbacks of a channel over a state of type [D].

    Memory is words of four bytes by address (the build modelled is little endian,
    so the conversions of byte order change nothing).  The firmware can use memory
    of the supervisor only inside the window that [sbi_hart_map_saddr] opens
    (Pmp.v shows that it does); an access outside of it is a fault: [None]. *)

From S2P Require Import Prelude SbiTypes Bitops Domain.

Local Open Scope Z_scope.

Definition MPXY_PAGE_SIZE : Z := Z.shiftl 1 12.
Definition MPXY_PAGE_MASK : Z := not64 (MPXY_PAGE_SIZE - 1).
Definition MPXY_ERR_NO_SHMEM : Z := -9.
Definition SBI_ERR_TIMEOUT : Z := -12.
Definition SBI_ERR_IO : Z := -13.
Definition INVALID_ADDR : Z := 0xffffffff.
Definition ATTR_SIZE : Z := 4.
Definition CAP_MSI_MASK : Z := Z.shiftl 1 0.
Definition CAP_SSE_MASK : Z := Z.shiftl 1 1.
Definition CAP_EVENTSSTATE_MASK : Z := Z.shiftl 1 2.
Definition CAP_SEND_MSG_WITH_RESP_MASK : Z := Z.shiftl 1 3.
Definition CAP_SEND_MSG_WITHOUT_RESP_MASK : Z := Z.shiftl 1 4.
Definition CAP_GET_NOTIFICATIONS_MASK : Z := Z.shiftl 1 5.
Definition CAP_ENABLE (c m : Z) : Z := Z.lor (Z.land c (Z.lnot m)) (1 * Z.land m (Z.lnot (m - 1))).
Definition SHMEM_PHYS_ADDR (hi lo : Z) : Z := lo.

Definition SBI_MPXY_ATTR_MSI_CONTROL : Z := 7.
Definition SBI_MPXY_ATTR_MSI_ADDR_LO : Z := 8.
Definition SBI_MPXY_ATTR_MSI_ADDR_HI : Z := 9.
Definition SBI_MPXY_ATTR_MSI_DATA : Z := 10.
Definition SBI_MPXY_ATTR_EVENTS_STATE_CONTROL : Z := 11.
Definition SBI_MPXY_ATTR_STD_ATTR_MAX_IDX : Z := 12.
Definition SBI_MPXY_ATTR_MSGPROTO_ATTR_START : Z := 0x80000000.
Definition SBI_MPXY_ATTR_MSGPROTO_ATTR_END : Z := 0xffffffff.
Definition SBI_EXT_MPXY_SHMEM_FLAG_OVERWRITE : Z := 0.
Definition SBI_EXT_MPXY_SHMEM_FLAG_OVERWRITE_RETURN : Z := 1.
Definition SBI_EXT_MPXY_SHMEM_FLAG_MAX_IDX : Z := 2.
Definition SBI_EXT_MPXY_GET_SHMEM_SIZE : Z := 0.
Definition SBI_EXT_MPXY_SET_SHMEM : Z := 1.
Definition SBI_EXT_MPXY_GET_CHANNEL_IDS : Z := 2.
Definition SBI_EXT_MPXY_READ_ATTRS : Z := 3.
Definition SBI_EXT_MPXY_WRITE_ATTRS : Z := 4.
Definition SBI_EXT_MPXY_SEND_MSG_WITH_RESP : Z := 5.
Definition SBI_EXT_MPXY_SEND_MSG_WITHOUT_RESP : Z := 6.
Definition SBI_EXT_MPXY_GET_NOTIFICATION_EVENTS : Z := 7.

(** ** The data *)

Record mpxy_shmem := Shmem { shmem_addr_lo : Z; shmem_addr_hi : Z }.

Record mpxy_state := MpxyState { msi_avail : bool; sse_avail : bool; shmem : mpxy_shmem }.

Record sbi_mpxy_msi_info := MsiInfo { msi_addr_lo : Z; msi_addr_hi : Z; msi_data : Z }.

Record sbi_mpxy_channel_attrs := Attrs {
  msg_proto_id : Z; msg_proto_version : Z; msg_data_maxlen : Z; msg_send_timeout : Z; msg_completion_timeout : Z;
  capability : Z; sse_event_id : Z; msi_control : Z; msi_info : sbi_mpxy_msi_info; eventsstate_ctrl : Z }.

(** The attributes as the array of words that [(u32 * )&channel->attrs] is. *)
Definition attr_words (a : sbi_mpxy_channel_attrs) : list Z :=
  [a.(msg_proto_id); a.(msg_proto_version); a.(msg_data_maxlen); a.(msg_send_timeout); a.(msg_completion_timeout); a.(capability);
   a.(sse_event_id); a.(msi_control); a.(msi_info).(msi_addr_lo); a.(msi_info).(msi_addr_hi); a.(msi_info).(msi_data); a.(eventsstate_ctrl)].

Definition set_capability (v : Z) (a : sbi_mpxy_channel_attrs) : sbi_mpxy_channel_attrs :=
  Attrs a.(msg_proto_id) a.(msg_proto_version) a.(msg_data_maxlen) a.(msg_send_timeout) a.(msg_completion_timeout) v a.(sse_event_id) a.(msi_control) a.(msi_info) a.(eventsstate_ctrl).
Definition set_msi_control (v : Z) (a : sbi_mpxy_channel_attrs) : sbi_mpxy_channel_attrs :=
  Attrs a.(msg_proto_id) a.(msg_proto_version) a.(msg_data_maxlen) a.(msg_send_timeout) a.(msg_completion_timeout) a.(capability) a.(sse_event_id) v a.(msi_info) a.(eventsstate_ctrl).
Definition set_msi_info (v : sbi_mpxy_msi_info) (a : sbi_mpxy_channel_attrs) : sbi_mpxy_channel_attrs :=
  Attrs a.(msg_proto_id) a.(msg_proto_version) a.(msg_data_maxlen) a.(msg_send_timeout) a.(msg_completion_timeout) a.(capability) a.(sse_event_id) a.(msi_control) v a.(eventsstate_ctrl).
Definition set_eventsstate (v : Z) (a : sbi_mpxy_channel_attrs) : sbi_mpxy_channel_attrs :=
  Attrs a.(msg_proto_id) a.(msg_proto_version) a.(msg_data_maxlen) a.(msg_send_timeout) a.(msg_completion_timeout) a.(capability) a.(sse_event_id) a.(msi_control) a.(msi_info) v.

Section Mpxy.
Context {D : Type}.

(** A callback gets the state of the drivers and memory.  The buffers it is given
    are addresses; the length of a response is returned beside the code. *)
Record sbi_mpxy_channel := Channel {
  channel_id : Z;
  attrs : sbi_mpxy_channel_attrs;
  read_attributes : option (Z -> Z -> Z -> D -> (Z -> Z) -> Z * D * (Z -> Z));
  write_attributes : option (Z -> Z -> Z -> D -> (Z -> Z) -> Z * D);
  send_message_with_response : option (Z -> Z -> Z -> Z -> Z -> D -> (Z -> Z) -> Z * Z * D * (Z -> Z));
  send_message_without_response : option (Z -> Z -> Z -> D -> (Z -> Z) -> Z * D);
  get_notification_events : option (Z -> Z -> D -> (Z -> Z) -> Z * Z * D * (Z -> Z));
  switch_eventsstate : option (Z -> D -> D) }.

Definition with_attrs (a : sbi_mpxy_channel_attrs) (c : sbi_mpxy_channel) : sbi_mpxy_channel :=
  Channel c.(channel_id) a c.(read_attributes) c.(write_attributes) c.(send_message_with_response) c.(send_message_without_response)
    c.(get_notification_events) c.(switch_eventsstate).

(** [states] is the state of each hart in its scratch space, [window] what
    [sbi_hart_map_saddr] made accessible: an address and a size. *)
Record mpxy := Mpxy {
  channels : list sbi_mpxy_channel; mpxy_shmem_size : Z; states : nat -> mpxy_state;
  drv : D; mem : Z -> Z; window : option (Z * Z) }.

Definition set_channels (l : list sbi_mpxy_channel) (s : mpxy) : mpxy := Mpxy l s.(mpxy_shmem_size) s.(states) s.(drv) s.(mem) s.(window).
Definition set_size (z : Z) (s : mpxy) : mpxy := Mpxy s.(channels) z s.(states) s.(drv) s.(mem) s.(window).
Definition set_state_of (me : nat) (t : mpxy_state) (s : mpxy) : mpxy := Mpxy s.(channels) s.(mpxy_shmem_size) (<[me := t]> s.(states)) s.(drv) s.(mem) s.(window).
Definition set_drv (d : D) (s : mpxy) : mpxy := Mpxy s.(channels) s.(mpxy_shmem_size) s.(states) d s.(mem) s.(window).
Definition set_mem (m : Z -> Z) (s : mpxy) : mpxy := Mpxy s.(channels) s.(mpxy_shmem_size) s.(states) s.(drv) m s.(window).
Definition set_window (w : option (Z * Z)) (s : mpxy) : mpxy := Mpxy s.(channels) s.(mpxy_shmem_size) s.(states) s.(drv) s.(mem) w.

(** [sbi_hart_map_saddr] and [sbi_hart_unmap_saddr] as they are seen here. *)
Definition map_window (a size : Z) (s : mpxy) : mpxy := set_window (Some (a, size)) s.
Definition unmap_window (s : mpxy) : mpxy := set_window None s.

(** A word of the supervisor's memory. *)
Definition accessible (s : mpxy) (a : Z) : bool :=
  match s.(window) with Some (b, n) => (b <=? a) && (a + 4 <=? b + n) | None => false end.
Definition load32 (s : mpxy) (a : Z) : option Z := if accessible s a then Some (s.(mem) a) else None.
Definition store32 (s : mpxy) (a v : Z) : option mpxy := if accessible s a then Some (set_mem (<[a := v]> s.(mem)) s) else None.

Definition sbi_mpxy_shmem_disable (t : mpxy_state) : mpxy_state := MpxyState t.(msi_avail) t.(sse_avail) (Shmem INVALID_ADDR INVALID_ADDR).
Definition mpxy_shmem_enabled (t : mpxy_state) : bool :=
  negb ((t.(shmem).(shmem_addr_lo) =? INVALID_ADDR) && (t.(shmem).(shmem_addr_hi) =? INVALID_ADDR)).
Definition hart_shmem_base (t : mpxy_state) : Z := SHMEM_PHYS_ADDR t.(shmem).(shmem_addr_hi) t.(shmem).(shmem_addr_lo).

Definition mpxy_is_std_attr (attr_id : Z) : bool := Z.shiftr attr_id 31 =? 0.

(** The channel and its place in the list. *)
Definition mpxy_find_channel (l : list sbi_mpxy_channel) (id : Z) : option (nat * sbi_mpxy_channel) := list_find (fun c => c.(channel_id) = id) l.

(** The loop of [mpxy_copy_std_attrs]; [inmem] is read from [idx] on. *)
Fixpoint mpxy_copy_std_attrs (fuel : nat) (outmem : Z) (inmem : list Z) (idx count : Z) (s : mpxy) : option mpxy :=
  match fuel with
  | O => Some s
  | S fuel =>
      if idx <? count then
        v ← inmem !! Z.to_nat idx;
        s ← store32 s (outmem + 4 * idx) v;
        mpxy_copy_std_attrs fuel outmem inmem (idx + 1) count s
      else Some s
  end.

Definition sbi_mpxy_channel_available (s : mpxy) : bool := match s.(channels) with [] => false | _ => true end.

Definition mpxy_std_attrs_init (t : mpxy_state) (c : sbi_mpxy_channel) : sbi_mpxy_channel :=
  let a := set_eventsstate 0 (set_capability 0 (set_msi_info (MsiInfo 0 0 0) (set_msi_control 0 c.(attrs)))) in
  let cap := 0 in
  let cap := match c.(send_message_with_response) with Some _ => CAP_ENABLE cap CAP_SEND_MSG_WITH_RESP_MASK | None => cap end in
  let cap := match c.(send_message_without_response) with Some _ => CAP_ENABLE cap CAP_SEND_MSG_WITHOUT_RESP_MASK | None => cap end in
  let cap :=
    match c.(get_notification_events) with
    | Some _ =>
        let cap := CAP_ENABLE cap CAP_GET_NOTIFICATIONS_MASK in
        let cap := if t.(msi_avail) then CAP_ENABLE cap CAP_MSI_MASK else if t.(sse_avail) then CAP_ENABLE cap CAP_SSE_MASK else cap in
        match c.(switch_eventsstate) with Some _ => CAP_ENABLE cap CAP_EVENTSSTATE_MASK | None => cap end
    | None => cap
    end in
  with_attrs (set_capability cap a) c.

Definition sbi_mpxy_register_channel (me : nat) (channel : option sbi_mpxy_channel) (s : mpxy) : Z * mpxy :=
  match channel with
  | None => (SBI_EINVAL, s)
  | Some c =>
      match mpxy_find_channel s.(channels) c.(channel_id) with
      | Some _ => (SBI_EALREADY, s)
      | None =>
          let c := mpxy_std_attrs_init (s.(states) me) c in
          let s :=
            if s.(mpxy_shmem_size) <? c.(attrs).(msg_data_maxlen) then
              let size := c.(attrs).(msg_data_maxlen) in set_size ((size + (MPXY_PAGE_SIZE - 1)) / MPXY_PAGE_SIZE) s
            else s in
          (SBI_OK, set_channels (s.(channels) ++ [c]) s)
      end
  end.

(** [platform_init] is the hook of the platform, [alloc_ok] whether the scratch
    space has room.  The space of every hart is zero when it is given out. *)
Definition sbi_mpxy_init (me : nat) (alloc_ok : bool) (platform_init : mpxy -> Z * mpxy) (s : mpxy) : Z * mpxy :=
  if negb alloc_ok then (SBI_ENOMEM, s)
  else
    let s := Mpxy s.(channels) s.(mpxy_shmem_size) (fun _ => MpxyState false false (Shmem 0 0)) s.(drv) s.(mem) s.(window) in
    platform_init (set_state_of me (sbi_mpxy_shmem_disable (MpxyState false false (s.(states) me).(shmem))) s).

Definition sbi_mpxy_get_shmem_size (s : mpxy) : Z := s.(mpxy_shmem_size).

(** A word of eight bytes. *)
Definition store64 (s : mpxy) (a v : Z) : option mpxy := s ← store32 s a (u32 v); store32 s (a + 4) (Z.shiftr v 32).

(** [fuel] bounds the loop of the check of the range, [shl64] is the value of
    [1UL << 64] in it. *)
Definition sbi_mpxy_set_shmem (shl64 : Z) (fuel : nat) (dom : option sbi_domain) (me : nat) (lo hi flags : Z) (s : mpxy) : option (Z * mpxy) :=
  let ms := s.(states) me in
  if (lo =? INVALID_ADDR) && (hi =? INVALID_ADDR) then Some (0, set_state_of me (sbi_mpxy_shmem_disable ms) s)
  else if SBI_EXT_MPXY_SHMEM_FLAG_MAX_IDX <=? flags then Some (SBI_EINVAL, s)
  else if negb (Z.land lo (not64 MPXY_PAGE_MASK) =? 0) then Some (SBI_EINVAL, s)
  else
    ok ← sbi_domain_check_addr_range shl64 fuel dom (SHMEM_PHYS_ADDR hi lo) s.(mpxy_shmem_size) PRV_S (Z.lor SBI_DOMAIN_READ SBI_DOMAIN_WRITE);
    if negb ok then Some (SBI_EINVALID_ADDR, s)
    else
      s ← (if flags =? SBI_EXT_MPXY_SHMEM_FLAG_OVERWRITE_RETURN then
             let ret_buf := SHMEM_PHYS_ADDR hi lo in
             let s := map_window ret_buf s.(mpxy_shmem_size) s in
             s ← store64 s ret_buf ms.(shmem).(shmem_addr_lo);
             s ← store64 s (ret_buf + 8) ms.(shmem).(shmem_addr_hi);
             Some (unmap_window s)
           else Some s);
      Some (0, set_state_of me (MpxyState ms.(msi_avail) ms.(sse_avail) (Shmem lo hi)) s).

(** The loop over the list: the number of the channel and of the next word. *)
Fixpoint ids_loop (l : list sbi_mpxy_channel) (shmem_base start_index returned node_index node_ret : Z) (s : mpxy) : option mpxy :=
  match l with
  | [] => Some s
  | c :: l =>
      '(s, node_ret) ← (if (start_index <=? node_index) && (node_index <? u32 (start_index + returned)) then
                          s ← store32 s (shmem_base + 4 * u32 (2 + node_ret)) c.(channel_id); Some (s, u32 (node_ret + 1))
                        else Some (s, node_ret));
      ids_loop l shmem_base start_index returned (u32 (node_index + 1)) node_ret s
  end.

Definition sbi_mpxy_get_channel_ids (me : nat) (start_index : Z) (s : mpxy) : option (Z * mpxy) :=
  let ms := s.(states) me in
  if negb (mpxy_shmem_enabled ms) then Some (MPXY_ERR_NO_SHMEM, s)
  else
    let channels_count := u32 (Z.of_nat (length s.(channels))) in
    if channels_count <? start_index then Some (SBI_EINVAL, s)
    else
      let shmem_base := hart_shmem_base ms in
      let s := map_window (hart_shmem_base ms) s.(mpxy_shmem_size) s in
      let max_channelids := u32 (s.(mpxy_shmem_size) / 4 - 2) in
      let remaining := u32 (channels_count - start_index) in
      let returned := if max_channelids <? remaining then max_channelids else remaining in
      s ← ids_loop s.(channels) shmem_base start_index returned 0 0 s;
      let remaining := u32 (channels_count - u32 (start_index + returned)) in
      s ← store32 s shmem_base remaining;
      s ← store32 s (shmem_base + 4) returned;
      Some (0, unmap_window s).

(** The tests at the start of [sbi_mpxy_read_attrs] and [sbi_mpxy_write_attrs]. *)
Definition attrs_range_bad (s : mpxy) (base_attr_id attr_count : Z) : bool :=
  (SBI_MPXY_ATTR_STD_ATTR_MAX_IDX <=? base_attr_id) && (base_attr_id <? SBI_MPXY_ATTR_MSGPROTO_ATTR_START) ||
  (attr_count =? 0) || (s.(mpxy_shmem_size) / ATTR_SIZE <? attr_count).

Definition sbi_mpxy_read_attrs (me : nat) (id base_attr_id attr_count : Z) (s : mpxy) : option (Z * mpxy) :=
  let ms := s.(states) me in
  if negb (mpxy_shmem_enabled ms) then Some (MPXY_ERR_NO_SHMEM, s)
  else
    match mpxy_find_channel s.(channels) id with
    | None => Some (SBI_ENOTSUPP, s)
    | Some (_, c) =>
        if attrs_range_bad s base_attr_id attr_count then Some (SBI_EINVAL, s)
        else
          let shmem_base := hart_shmem_base ms in
          let end_id := u32 (base_attr_id + attr_count - 1) in
          let s := map_window (hart_shmem_base ms) s.(mpxy_shmem_size) s in
          '(ret, s) ←
            (if mpxy_is_std_attr base_attr_id then
               if SBI_MPXY_ATTR_STD_ATTR_MAX_IDX <=? end_id then Some (SBI_EBAD_RANGE, s)
               else
                 s ← mpxy_copy_std_attrs (Z.to_nat attr_count) shmem_base (drop (Z.to_nat base_attr_id) (attr_words c.(attrs))) 0 attr_count s; Some (0, s)
             else
               match c.(read_attributes) with
               | None => Some (SBI_EBAD_RANGE, s)
               | Some read =>
                   if SBI_MPXY_ATTR_MSGPROTO_ATTR_END <? end_id then Some (SBI_EBAD_RANGE, s)
                   else let '(ret, d, m) := read shmem_base base_attr_id attr_count s.(drv) s.(mem) in Some (ret, set_mem m (set_drv d s))
               end);
          Some (ret, unmap_window s)
    end.

Definition mpxy_check_write_std_attr (a : sbi_mpxy_channel_attrs) (attr_id attr_val : Z) : Z :=
  if attr_id =? SBI_MPXY_ATTR_MSI_CONTROL then
    let ret := if 1 <? attr_val then SBI_EINVAL else 0 in
    if (attr_val =? 1) && (a.(msi_info).(msi_addr_lo) =? INVALID_ADDR) && (a.(msi_info).(msi_addr_hi) =? INVALID_ADDR) then SBI_EDENIED else ret
  else if (attr_id =? SBI_MPXY_ATTR_MSI_ADDR_LO) || (attr_id =? SBI_MPXY_ATTR_MSI_ADDR_HI) || (attr_id =? SBI_MPXY_ATTR_MSI_DATA) then 0
  else if attr_id =? SBI_MPXY_ATTR_EVENTS_STATE_CONTROL then (if 1 <? attr_val then SBI_EINVAL else 0)
  else SBI_EBAD_RANGE.

(** The channel and the state of the drivers afterwards. *)
Definition mpxy_write_std_attr (ms : mpxy_state) (c : sbi_mpxy_channel) (attr_id attr_val : Z) (d : D) : sbi_mpxy_channel * D :=
  let a := c.(attrs) in
  let i := a.(msi_info) in
  if attr_id =? SBI_MPXY_ATTR_MSI_CONTROL then
    (if ms.(msi_avail) && (attr_val <=? 1) then with_attrs (set_msi_control attr_val a) c else c, d)
  else if attr_id =? SBI_MPXY_ATTR_MSI_ADDR_LO then
    (if ms.(msi_avail) then with_attrs (set_msi_info (MsiInfo attr_val i.(msi_addr_hi) i.(msi_data)) a) c else c, d)
  else if attr_id =? SBI_MPXY_ATTR_MSI_ADDR_HI then
    (if ms.(msi_avail) then with_attrs (set_msi_info (MsiInfo i.(msi_addr_lo) attr_val i.(msi_data)) a) c else c, d)
  else if attr_id =? SBI_MPXY_ATTR_MSI_DATA then
    (if ms.(msi_avail) then with_attrs (set_msi_info (MsiInfo i.(msi_addr_lo) i.(msi_addr_hi) attr_val) a) c else c, d)
  else if attr_id =? SBI_MPXY_ATTR_EVENTS_STATE_CONTROL then
    match c.(switch_eventsstate) with
    | Some switch => if attr_val <=? 1 then (with_attrs (set_eventsstate attr_val a) c, switch attr_val d) else (c, d)
    | None => (c, d)
    end
  else (c, d).

(** The two loops of [sbi_mpxy_write_attrs]; the word read is at [mem_ptr]. *)
Fixpoint check_attrs (fuel : nat) (a : sbi_mpxy_channel_attrs) (mem_ptr attr_id end_id : Z) (s : mpxy) : option Z :=
  match fuel with
  | O => Some 0
  | S fuel =>
      if attr_id <=? end_id then
        v ← load32 s mem_ptr;
        let ret := mpxy_check_write_std_attr a attr_id v in
        if negb (ret =? 0) then Some ret else check_attrs fuel a (mem_ptr + 4) (u32 (attr_id + 1)) end_id s
      else Some 0
  end.

Fixpoint write_attrs (fuel : nat) (ms : mpxy_state) (c : sbi_mpxy_channel) (d : D) (mem_ptr attr_id end_id : Z) (s : mpxy) : option (sbi_mpxy_channel * D) :=
  match fuel with
  | O => Some (c, d)
  | S fuel =>
      if attr_id <=? end_id then
        v ← load32 s mem_ptr;
        let '(c, d) := mpxy_write_std_attr ms c attr_id v d in
        write_attrs fuel ms c d (mem_ptr + 4) (u32 (attr_id + 1)) end_id s
      else Some (c, d)
  end.

Definition sbi_mpxy_write_attrs (me : nat) (id base_attr_id attr_count : Z) (s : mpxy) : option (Z * mpxy) :=
  let ms := s.(states) me in
  if negb (mpxy_shmem_enabled ms) then Some (MPXY_ERR_NO_SHMEM, s)
  else
    match mpxy_find_channel s.(channels) id with
    | None => Some (SBI_ENOTSUPP, s)
    | Some (i, c) =>
        if attrs_range_bad s base_attr_id attr_count then Some (SBI_EINVAL, s)
        else
          let shmem_base := hart_shmem_base ms in
          let end_id := u32 (base_attr_id + attr_count - 1) in
          let s := map_window shmem_base s.(mpxy_shmem_size) s in
          '(ret, s) ←
            (if mpxy_is_std_attr base_attr_id then
               if SBI_MPXY_ATTR_STD_ATTR_MAX_IDX <=? end_id then Some (SBI_EBAD_RANGE, s)
               else
                 ret ← check_attrs (Z.to_nat attr_count) c.(attrs) shmem_base base_attr_id end_id s;
                 if negb (ret =? 0) then Some (ret, s)
                 else
                   '(c, d) ← write_attrs (Z.to_nat attr_count) ms c s.(drv) shmem_base base_attr_id end_id s;
                   Some (0, set_drv d (set_channels (<[i := c]> s.(channels)) s))
             else
               match c.(write_attributes) with
               | None => Some (SBI_EBAD_RANGE, s)
               | Some write =>
                   if SBI_MPXY_ATTR_MSGPROTO_ATTR_END <? end_id then Some (SBI_EBAD_RANGE, s)
                   else let '(ret, d) := write shmem_base base_attr_id attr_count s.(drv) s.(mem) in Some (ret, set_drv d s)
               end);
          Some (ret, unmap_window s)
    end.

(** [resp]: is a response expected ([resp_data_len] is not null).  The length of
    the response is [None] where it was not set. *)
Definition sbi_mpxy_send_message (me : nat) (id msg_id msg_data_len : Z) (resp : bool) (s : mpxy) : Z * option Z * mpxy :=
  let ms := s.(states) me in
  if negb (mpxy_shmem_enabled ms) then (MPXY_ERR_NO_SHMEM, None, s)
  else
    match mpxy_find_channel s.(channels) id with
    | None => (SBI_ENOTSUPP, None, s)
    | Some (_, c) =>
        let too_long := (s.(mpxy_shmem_size) <? msg_data_len) || (c.(attrs).(msg_data_maxlen) <? msg_data_len) in
        let shmem_base := hart_shmem_base ms in
        let code ret := if (ret =? SBI_ERR_TIMEOUT) || (ret =? SBI_ERR_IO) then ret else if negb (ret =? 0) then SBI_EFAIL else 0 in
        if resp then
          match c.(send_message_with_response) with
          | None => (SBI_ENOTSUPP, None, s)
          | Some send =>
              if too_long then (SBI_EINVAL, None, s)
              else
                let s := map_window shmem_base s.(mpxy_shmem_size) s in
                let '(ret, len, d, m) := send msg_id shmem_base (u32 msg_data_len) shmem_base (u32 s.(mpxy_shmem_size)) s.(drv) s.(mem) in
                let s := unmap_window (set_mem m (set_drv d s)) in
                if negb (ret =? 0) then (code ret, Some len, s)
                else if (s.(mpxy_shmem_size) <? len) || (c.(attrs).(msg_data_maxlen) <? len) then (SBI_EFAIL, Some len, s)
                else (0, Some len, s)
          end
        else
          match c.(send_message_without_response) with
          | None => (SBI_ENOTSUPP, None, s)
          | Some send =>
              if too_long then (SBI_EINVAL, None, s)
              else
                let s := map_window shmem_base s.(mpxy_shmem_size) s in
                let '(ret, d) := send msg_id shmem_base (u32 msg_data_len) s.(drv) s.(mem) in
                (code ret, None, unmap_window (set_drv d s))
          end
    end.

Definition sbi_mpxy_get_notification_events (me : nat) (id : Z) (s : mpxy) : Z * option Z * mpxy :=
  let ms := s.(states) me in
  if negb (mpxy_shmem_enabled ms) then (MPXY_ERR_NO_SHMEM, None, s)
  else
    match mpxy_find_channel s.(channels) id with
    | None => (SBI_ENOTSUPP, None, s)
    | Some (_, c) =>
        match c.(get_notification_events) with
        | None => (SBI_ENOTSUPP, None, s)
        | Some get =>
            let shmem_base := hart_shmem_base ms in
            let s := map_window shmem_base s.(mpxy_shmem_size) s in
            let '(ret, len, d, m) := get shmem_base (u32 s.(mpxy_shmem_size)) s.(drv) s.(mem) in
            let s := unmap_window (set_mem m (set_drv d s)) in
            if negb (ret =? 0) then (ret, Some len, s)
            else if u64 (s.(mpxy_shmem_size) - 16) <? len then (SBI_EFAIL, Some len, s)
            else (0, Some len, s)
        end
    end.

(** The return code, the value where one is set, and the state. *)
Definition sbi_ecall_mpxy_handler (shl64 : Z) (fuel : nat) (dom : option sbi_domain) (me : nat) (funcid a0 a1 a2 : Z) (s : mpxy) : option (Z * option Z * mpxy) :=
  let no_value r := '(ret, s) ← r; Some (ret, None, s) in
  if funcid =? SBI_EXT_MPXY_GET_SHMEM_SIZE then Some (0, Some (sbi_mpxy_get_shmem_size s), s)
  else if funcid =? SBI_EXT_MPXY_SET_SHMEM then no_value (sbi_mpxy_set_shmem shl64 fuel dom me a0 a1 a2 s)
  else if funcid =? SBI_EXT_MPXY_GET_CHANNEL_IDS then no_value (sbi_mpxy_get_channel_ids me (u32 a0) s)
  else if funcid =? SBI_EXT_MPXY_READ_ATTRS then no_value (sbi_mpxy_read_attrs me (u32 a0) (u32 a1) (u32 a2) s)
  else if funcid =? SBI_EXT_MPXY_WRITE_ATTRS then no_value (sbi_mpxy_write_attrs me (u32 a0) (u32 a1) (u32 a2) s)
  else if funcid =? SBI_EXT_MPXY_SEND_MSG_WITH_RESP then Some (sbi_mpxy_send_message me (u32 a0) (u8 a1) a2 true s)
  else if funcid =? SBI_EXT_MPXY_SEND_MSG_WITHOUT_RESP then Some (sbi_mpxy_send_message me (u32 a0) (u8 a1) a2 false s)
  else if funcid =? SBI_EXT_MPXY_GET_NOTIFICATION_EVENTS then Some (sbi_mpxy_get_notification_events me (u32 a0) s)
  else Some (SBI_ENOTSUPP, None, s).
End Mpxy.
