(* ===== verification/MpxyProps.v ===== *)
(** * Properties of the message proxy (lib/sbi/sbi_mpxy.c)

    The calls touch only memory that the domain of the caller grants it, the list
    of channels is reported exactly, and attributes are written as a whole or not
    at all. *)

From S2P Require Import Prelude SbiTypes Bitops Domain Mpxy.

Local Open Scope Z_scope.

Definition page : Z := 4096.

Lemma page_eq : MPXY_PAGE_SIZE = page.
Proof. reflexivity. Qed.

(** ** Words in memory *)

Fixpoint put32 (m : Z -> Z) (a : Z) (l : list Z) : Z -> Z := match l with [] => m | v :: l => put32 (<[a := v]> m) (a + 4) l end.

Lemma put32_outside l : forall m a x, (forall i, 0 <= i < Z.of_nat (length l) -> x <> a + 4 * i) -> put32 m a l x = m x.
Proof.
  induction l as [|v l IH]; intros m a x H; [done|]. cbn [put32 length] in *. rewrite IH.
  - rewrite fn_lookup_insert_ne; [done|]. specialize (H 0 ltac:(lia)). lia.
  - intros i Hi. specialize (H (i + 1) ltac:(lia)). lia.
Qed.

Lemma put32_lookup l : forall m a i v, l !! i = Some v -> put32 m a l (a + 4 * Z.of_nat i) = v.
Proof.
  induction l as [|w l IH]; intros m a i v H; [done|]. cbn [put32]. destruct i as [|i]; cbn in H.
  - injection H as ->. rewrite put32_outside by lia. replace (a + 4 * Z.of_nat 0) with a by lia. apply fn_lookup_insert.
  - rewrite <- (IH (<[a := w]> m) (a + 4) i v H). f_equal. lia.
Qed.

Section Props.
Context {D : Type}.
Implicit Types (s : @mpxy D) (c : @sbi_mpxy_channel D).

(** A word of memory in the range of [n] bytes at [b]. *)
Definition inside (b n a : Z) : Prop := b <= a /\ a + 4 <= b + n.

Lemma store32_ok s b n a v : s.(window) = Some (b, n) -> inside b n a -> store32 s a v = Some (set_mem (<[a := v]> s.(mem)) s).
Proof.
  intros Hw [H1 H2]. unfold store32, accessible. rewrite Hw. by rewrite (proj2 (Z.leb_le _ _) H1), (proj2 (Z.leb_le _ _) H2).
Qed.

Lemma load32_ok s b n a : s.(window) = Some (b, n) -> inside b n a -> load32 s a = Some (s.(mem) a).
Proof.
  intros Hw [H1 H2]. unfold load32, accessible. rewrite Hw. by rewrite (proj2 (Z.leb_le _ _) H1), (proj2 (Z.leb_le _ _) H2).
Qed.

(** ** Copying attributes *)
Lemma copy_ok n : forall s out inmem idx count b size, s.(window) = Some (b, size) -> 0 <= idx -> count = idx + Z.of_nat n -> count <= Z.of_nat (length inmem) ->
  b <= out -> out + 4 * count <= b + size ->
  mpxy_copy_std_attrs n out inmem idx count s = Some (set_mem (put32 s.(mem) (out + 4 * idx) (take n (drop (Z.to_nat idx) inmem))) s).
Proof.
  induction n as [|n IH]; intros s out inmem idx count b size Hw Hi Hc Hl Hb He; [by destruct s|]. cbn [mpxy_copy_std_attrs].
  rewrite (proj2 (Z.ltb_lt _ _)) by lia. destruct (lookup_lt_is_Some_2 inmem (Z.to_nat idx) ltac:(lia)) as [v Hv]. rewrite Hv. cbn [mbind option_bind].
  rewrite (store32_ok _ b size) by (done || split; lia). cbn [mbind option_bind]. rewrite (IH _ _ _ _ _ b size) by (done || lia).
  rewrite (drop_S _ _ _ Hv). cbn [take put32 mem set_mem]. replace (Z.to_nat (idx + 1)) with (S (Z.to_nat idx)) by lia. by replace (out + 4 * (idx + 1)) with (out + 4 * idx + 4) by lia.
Qed.

(** ** Channel numbers *)

(** The words that [ids_loop] writes: the numbers of the channels from [start] on. *)
Lemma ids_loop_ok l : forall s b size start ret ni nr, s.(window) = Some (b, size) -> 0 <= start -> 0 <= ret -> 0 <= ni -> 0 <= nr ->
  ni + Z.of_nat (length l) < 2 ^ 32 -> start + ret < 2 ^ 32 -> 12 + 8 * ret < 2 ^ 32 ->
  nr = Z.max 0 (Z.min ret (ni - start)) -> 8 + 4 * ret <= size ->
  ids_loop l b start ret ni nr s =
  Some (set_mem (put32 s.(mem) (b + 8 + 4 * nr) (take (Z.to_nat (start + ret - Z.max start ni)) (drop (Z.to_nat (start - ni)) (map channel_id l)))) s).
Proof.
  induction l as [|c l IH]; intros s b size start ret ni nr Hw Hs Hr Hni Hnr Hl Hsum Hbig Enr Hsz.
  { cbn [ids_loop map]. rewrite drop_nil, take_nil. by destruct s. }
  cbn [ids_loop length] in *. rewrite (wrap_small 32 (start + ret)) by (unfold in_range; lia).
  destruct (Z.leb_spec start ni) as [H1|H1]; cbn [andb].
  - destruct (Z.ltb_spec ni (start + ret)) as [H2|H2].
    + rewrite (wrap_small 32 (2 + nr)) by (unfold in_range; lia). rewrite (store32_ok _ b size) by (done || split; lia). cbn [mbind option_bind].
      rewrite (wrap_small 32 (nr + 1)), (wrap_small 32 (ni + 1)) by (unfold in_range; lia). rewrite (IH _ b size) by (done || lia).
      replace (Z.to_nat (start - ni)) with 0%nat by lia. replace (Z.to_nat (start - (ni + 1))) with 0%nat by lia.
      replace (Z.to_nat (start + ret - Z.max start ni)) with (S (Z.to_nat (start + ret - Z.max start (ni + 1)))) by lia.
      cbn [drop take map put32 set_mem mem]. replace (b + 8 + 4 * (nr + 1)) with (b + 8 + 4 * nr + 4) by lia. by replace (b + 4 * (2 + nr)) with (b + 8 + 4 * nr) by lia.
    + cbn [mbind option_bind]. rewrite (wrap_small 32 (ni + 1)) by (unfold in_range; lia). rewrite (IH _ b size) by (done || lia).
      replace (Z.to_nat (start + ret - Z.max start ni)) with 0%nat by lia. by replace (Z.to_nat (start + ret - Z.max start (ni + 1))) with 0%nat by lia.
  - cbn [mbind option_bind]. rewrite (wrap_small 32 (ni + 1)) by (unfold in_range; lia). rewrite (IH _ b size) by (done || lia).
    replace (Z.to_nat (start - ni)) with (S (Z.to_nat (start - (ni + 1)))) by lia. cbn [drop map].
    replace (start + ret - Z.max start (ni + 1)) with (start + ret - Z.max start ni) by lia. done.
Qed.

(** ** Attributes *)

(** Does a channel take values for attribute [i] on a hart in state [ms]? *)
Definition takes (ms : mpxy_state) c (i : Z) : bool :=
  if i =? 11 then bool_decide (is_Some c.(switch_eventsstate)) else (7 <=? i) && (i <=? 10) && ms.(msi_avail).

Lemma check_attrs_ok n : forall a b size ptr i e s, s.(window) = Some (b, size) -> b <= ptr -> ptr + 4 * Z.of_nat n <= b + size ->
  0 <= i -> e = i + Z.of_nat n - 1 -> e < 12 ->
  exists rc, check_attrs n a ptr i e s = Some rc /\
    (rc = 0 /\ (forall k, 0 <= k < Z.of_nat n -> mpxy_check_write_std_attr a (i + k) (s.(mem) (ptr + 4 * k)) = 0) \/
     rc <> 0 /\ exists k, 0 <= k < Z.of_nat n /\ mpxy_check_write_std_attr a (i + k) (s.(mem) (ptr + 4 * k)) = rc).
Proof.
  induction n as [|n IH]; intros a b size ptr i e s Hw Hb He Hi Ee H12; cbn [check_attrs]; [exists 0; split; [done|]; left; split; [done|lia]|].
  rewrite (proj2 (Z.leb_le _ _)) by lia. rewrite (load32_ok _ b size) by (done || split; lia). cbn [mbind option_bind].
  destruct (Z.eqb_spec (mpxy_check_write_std_attr a i (mem s ptr)) 0) as [E0|E0]; cbn [negb].
  - rewrite wrap_small by (unfold in_range; lia). destruct (IH a b size (ptr + 4) (i + 1) e s) as (rc & E & [[-> H]|(Hne & k & Hk & H)]); [done|lia..| |]; exists rc || exists 0; (split; [exact E|]).
    + left. split; [done|]. intros k Hk. destruct (decide (k = 0)) as [->|]; [by rewrite Z.mul_0_r, !Z.add_0_r|].
      specialize (H (k - 1) ltac:(lia)). by replace (i + 1 + (k - 1)) with (i + k) in H by lia; replace (ptr + 4 + 4 * (k - 1)) with (ptr + 4 * k) in H by lia.
    + right. split; [done|]. exists (k + 1). split; [lia|]. rewrite <- H. f_equal; [lia|]. f_equal. lia.
  - eexists. split; [reflexivity|]. right. split; [done|]. exists 0. split; [lia|]. by rewrite Z.mul_0_r, !Z.add_0_r.
Qed.

(** One attribute that may be written. *)
Lemma write_one ms c i v d a : 0 <= i < 12 -> mpxy_check_write_std_attr a i v = 0 ->
  exists a' d', mpxy_write_std_attr ms c i v d = (with_attrs a' c, d') /\
    attr_words a' = if takes ms c i then <[Z.to_nat i := v]> (attr_words c.(attrs)) else attr_words c.(attrs).
Proof.
  intros Hi Hc. assert (with_attrs c.(attrs) c = c) as Eid by (by destruct c). unfold takes. unfold mpxy_check_write_std_attr in Hc. unfold mpxy_write_std_attr.
  assert (i = 7 \/ i = 8 \/ i = 9 \/ i = 10 \/ i = 11) as Hcase.
  { destruct (decide (i < 7)); [|lia]. exfalso. revert Hc.
    rewrite !(proj2 (Z.eqb_neq _ _)) by (unfold SBI_MPXY_ATTR_MSI_CONTROL, SBI_MPXY_ATTR_MSI_ADDR_LO, SBI_MPXY_ATTR_MSI_ADDR_HI, SBI_MPXY_ATTR_MSI_DATA, SBI_MPXY_ATTR_EVENTS_STATE_CONTROL; lia). done. }
  destruct Hcase as [->|[->|[->|[->| ->]]]]; cbn -[Z.leb Z.ltb] in Hc |- *.
  - assert ((v <=? 1) = true) as ->. { apply Z.leb_le. destruct (Z.ltb_spec 1 v); [|lia]. exfalso. revert Hc. case_match; done. }
    rewrite andb_true_r. destruct (msi_avail ms); [by eexists _, _|exists c.(attrs), d; by rewrite Eid].
  - destruct (msi_avail ms); [by eexists _, _|exists c.(attrs), d; by rewrite Eid].
  - destruct (msi_avail ms); [by eexists _, _|exists c.(attrs), d; by rewrite Eid].
  - destruct (msi_avail ms); [by eexists _, _|exists c.(attrs), d; by rewrite Eid].
  - assert ((v <=? 1) = true) as ->. { apply Z.leb_le. destruct (Z.ltb_spec 1 v); [done|lia]. }
    destruct (switch_eventsstate c) as [sw|]; [by eexists _, _|exists c.(attrs), d; by rewrite Eid].
Qed.

Lemma attr_writes_ok n : forall ms c d a b size ptr i e s, s.(window) = Some (b, size) -> b <= ptr -> ptr + 4 * Z.of_nat n <= b + size ->
  0 <= i -> e = i + Z.of_nat n - 1 -> e < 12 -> (forall k, 0 <= k < Z.of_nat n -> mpxy_check_write_std_attr a (i + k) (s.(mem) (ptr + 4 * k)) = 0) ->
  exists a' d', write_attrs n ms c d ptr i e s = Some (with_attrs a' c, d') /\
    forall j, 0 <= j < 12 -> attr_words a' !! Z.to_nat j =
      if (i <=? j) && (j <=? e) && takes ms c j then Some (s.(mem) (ptr + 4 * (j - i))) else attr_words c.(attrs) !! Z.to_nat j.
Proof.
  induction n as [|n IH]; intros ms c d a b size ptr i e s Hw Hb He Hi Ee H12 Hchk; cbn [write_attrs].
  { exists c.(attrs), d. split; [by destruct c|]. intros j Hj. destruct (Z.leb_spec i j); [|done]. destruct (Z.leb_spec j e); [lia|done]. }
  rewrite (proj2 (Z.leb_le _ _)) by lia. rewrite (load32_ok _ b size) by (done || split; lia). cbn [mbind option_bind].
  destruct (write_one ms c i (s.(mem) ptr) d a ltac:(lia)) as (a1 & d1 & -> & Ha1).
  { specialize (Hchk 0 ltac:(lia)). by rewrite Z.mul_0_r, !Z.add_0_r in Hchk. }
  rewrite wrap_small by (unfold in_range; lia). destruct (IH ms (with_attrs a1 c) d1 a b size (ptr + 4) (i + 1) e s) as (a' & d' & E & Hw'); try (done || lia).
  { intros k Hk. specialize (Hchk (k + 1) ltac:(lia)). by replace (i + (k + 1)) with (i + 1 + k) in Hchk by lia; replace (ptr + 4 * (k + 1)) with (ptr + 4 + 4 * k) in Hchk by lia. }
  exists a', d'. split; [exact E|]. intros j Hj. rewrite (Hw' j Hj). change (takes ms (with_attrs a1 c) j) with (takes ms c j). cbn [attrs with_attrs]. rewrite Ha1.
  destruct (decide (j = i)) as [->|Hne].
  - rewrite (proj2 (Z.leb_gt _ _)), (proj2 (Z.leb_le i i)), (proj2 (Z.leb_le i e)) by lia. cbn [andb]. replace (ptr + 4 * (i - i)) with ptr by lia.
    destruct (takes ms c i); [|done]. rewrite list_lookup_insert_eq; [done|]. cbn [attr_words length]. lia.
  - assert (forall l : list Z, (if takes ms c i then <[Z.to_nat i := mem s ptr]> l else l) !! Z.to_nat j = l !! Z.to_nat j) as Hne'.
    { intros l. destruct (takes ms c i); [|done]. apply list_lookup_insert_ne. lia. }
    rewrite Hne'. replace (i + 1 <=? j) with (i <=? j) by (destruct (Z.leb_spec i j), (Z.leb_spec (i + 1) j); lia || done).
    by replace (ptr + 4 + 4 * (j - (i + 1))) with (ptr + 4 * (j - i)) by lia.
Qed.

(** ** The invariant *)

(** What the drivers promise: a callback writes to the buffer it was given. *)
Definition channel_ok c : Prop :=
  (forall f, c.(read_attributes) = Some f -> forall b i n d m a, ~ inside b (4 * n) a -> (f b i n d m).2 a = m a) /\
  (forall f, c.(send_message_with_response) = Some f -> forall id b n rb rn d m a, ~ inside rb rn a -> (f id b n rb rn d m).2 a = m a) /\
  (forall f, c.(get_notification_events) = Some f -> forall b n d m a, ~ inside b n a -> (f b n d m).2 a = m a).

(** The domain of each hart, and the harts that use the proxy. *)
Context (dom_of : nat -> sbi_domain) (harts : list nat).

Definition may_use (dom : sbi_domain) (a : Z) : Prop := granted dom PRV_S (Z.lor SBI_DOMAIN_READ SBI_DOMAIN_WRITE) a.

(** The shared memory of a hart, if it is enabled, belongs to its domain. *)
Definition shmem_ok (dom : sbi_domain) (t : mpxy_state) : Prop :=
  mpxy_shmem_enabled t = true -> forall a, hart_shmem_base t <= a < hart_shmem_base t + page -> may_use dom a.

Definition mpxy_inv s : Prop :=
  s.(mpxy_shmem_size) = page /\ s.(window) = None /\ Z.of_nat (length s.(channels)) < 2 ^ 32 /\ Forall channel_ok s.(channels) /\
  forall me, me ∈ harts -> shmem_ok (dom_of me) (s.(states) me).

(** What a call of hart [me] may do. *)
Definition confined (me : nat) s s' : Prop :=
  mpxy_inv s' /\ map channel_id s'.(channels) = map channel_id s.(channels) /\
  forall a, s'.(mem) a <> s.(mem) a -> forall b, a <= b < a + 4 -> may_use (dom_of me) b.

Lemma confined_refl me s : mpxy_inv s -> confined me s s.
Proof. done. Qed.

Lemma inside_dec b n a : Decision (inside b n a).
Proof. unfold inside. apply _. Qed.

(** Memory that differs inside the shared memory of the hart only. *)
Lemma confined_mem me s d m : mpxy_inv s -> me ∈ harts -> mpxy_shmem_enabled (s.(states) me) = true ->
  (forall a, ~ inside (hart_shmem_base (s.(states) me)) page a -> m a = s.(mem) a) ->
  confined me s (unmap_window (set_mem m (set_drv d (map_window (hart_shmem_base (s.(states) me)) page s)))).
Proof.
  intros Hinv Hme Hen Hm. pose proof Hinv as (Hsz & Hw & Hn & Hch & Hs). split; [done|]. split; [done|]. intros a Ha b Hb. cbn in Ha.
  destruct (inside_dec (hart_shmem_base (s.(states) me)) page a) as [Hin|Hin]; [|by rewrite Hm in Ha].
  apply (Hs me Hme Hen). unfold inside in Hin. lia.
Qed.

(** ** The calls, one by one *)

Context (shl64 : Z) (H64 : forall me, bit64_ok shl64 (memregions (dom_of me))) (Hwf : forall me, regions_wf (memregions (dom_of me))).
Local Set Default Proof Using "Type".

Lemma page_mask lo : in_range 64 lo -> Z.land lo (not64 MPXY_PAGE_MASK) = lo mod page.
Proof.
  intros Hlo. change (not64 MPXY_PAGE_MASK) with (Z.ones 12). rewrite Z.land_ones by lia. done.
Qed.

Lemma set_shmem_confined fuel me lo hi flags s : mpxy_inv s -> me ∈ harts -> in_range 64 lo -> lo <> 2 ^ 64 - page -> (Z.to_nat page < fuel)%nat ->
  exists rc s', sbi_mpxy_set_shmem shl64 fuel (Some (dom_of me)) me lo hi flags s = Some (rc, s') /\ confined me s s'.
Proof using Hwf H64.
  intros Hinv Hme Hlo Htop Hf. unfold sbi_mpxy_set_shmem. pose proof Hinv as (Hsz & Hw & Hn & Hch & Hs).
  assert (forall t s', mpxy_inv s' -> shmem_ok (dom_of me) t -> mpxy_inv (set_state_of me t s')) as Hset.
  { intros t s' (Hsz' & Hw' & Hn' & Hch' & Hs') Ht. do 4 (split; [done|]). intros me' Hme'. cbn. destruct (decide (me' = me)) as [->|]; [by rewrite fn_lookup_insert|rewrite fn_lookup_insert_ne by done; by apply Hs']. }
  case_match; [eexists _, _; split; [done|]; split; [apply Hset; done|done]|].
  case_match; [by eexists _, _|]. rewrite page_mask by done. case_match eqn:Hal; [by eexists _, _|]. rewrite negb_false_iff, Z.eqb_eq in Hal.
  assert (lo + page < 2 ^ 64) as Hend. { pose proof (Z.div_mod lo page ltac:(done)) as Ed. unfold in_range, page in *. change (2 ^ 64) with (4096 * 4503599627370496) in *. lia. }
  destruct (range_loop shl64 (dom_of me) (lo + page) PRV_S (Z.lor SBI_DOMAIN_READ SBI_DOMAIN_WRITE) (H64 me) (Hwf me) Hend fuel lo ltac:(unfold page in *; lia)) as (ok & Eok & Hok).
  unfold sbi_domain_check_addr_range, SHMEM_PHYS_ADDR. rewrite Hsz, wrap_small by (unfold in_range, page in *; lia). rewrite Eok. cbn [mbind option_bind].
  destruct ok; cbn [negb]; [|by eexists _, _]. assert (shmem_ok (dom_of me) (MpxyState (msi_avail (states s me)) (sse_avail (states s me)) (Shmem lo hi))) as Hnew.
  { intros _ a Ha. by apply Hok. }
  case_match; cycle 1; cbn [mbind option_bind]; [eexists _, _; split; [done|]; by split; [apply Hset|]|]. unfold store64.
  do 4 (rewrite (store32_ok _ lo page) by (try done; split; unfold page; lia); cbn [mbind option_bind]). eexists _, _. split; [done|]. split; [by apply Hset|]. split; [done|].
  intros a Ha b Hb. apply Hok; [done|]. cbn in Ha.
  destruct (decide (a = lo)); [unfold page; lia|]. destruct (decide (a = lo + 4)); [unfold page; lia|]. destruct (decide (a = lo + 8)); [unfold page; lia|]. destruct (decide (a = lo + 8 + 4)); [unfold page; lia|].
  by rewrite !fn_lookup_insert_ne in Ha by done.
Qed.

(** The words that report the channels from number [start] on. *)
Definition ids_report s (start : Z) : list Z :=
  let n := Z.of_nat (length s.(channels)) in
  let ret := Z.min 1022 (n - start) in
  [n - start - ret; ret] ++ take (Z.to_nat ret) (drop (Z.to_nat start) (map channel_id s.(channels))).

Lemma ids_report_length s start : 0 <= start <= Z.of_nat (length s.(channels)) -> Z.of_nat (length (ids_report s start)) = 2 + Z.min 1022 (Z.of_nat (length s.(channels)) - start).
Proof. intros H. unfold ids_report. rewrite length_app, length_take, length_drop, length_map. cbn [length]. lia. Qed.

(** Memory that holds the words [l] at [b], and is as it was elsewhere. *)
Definition holds (b : Z) (l : list Z) (m0 m : Z -> Z) : Prop :=
  (forall i v, l !! i = Some v -> m (b + 4 * Z.of_nat i) = v) /\ forall a, (forall i, 0 <= i < Z.of_nat (length l) -> a <> b + 4 * i) -> m a = m0 a.

Lemma holds_put32 m b l : holds b l m (put32 m b l).
Proof. split; [intros i v; apply put32_lookup|intros a; apply put32_outside]. Qed.

Lemma holds_inside b l m0 m n a : holds b l m0 m -> 4 * Z.of_nat (length l) <= n -> ~ inside b n a -> m a = m0 a.
Proof. intros [_ H] Hn Ha. apply H. intros i Hi ->. apply Ha. unfold inside. lia. Qed.

Lemma channel_ids_effect me start s : mpxy_inv s -> mpxy_shmem_enabled (s.(states) me) = true -> 0 <= start <= Z.of_nat (length s.(channels)) ->
  exists m, sbi_mpxy_get_channel_ids me start s = Some (0, set_mem m s) /\ holds (hart_shmem_base (s.(states) me)) (ids_report s start) s.(mem) m.
Proof.
  intros (Hsz & Hw & Hn & Hch & _) Hen Hst. unfold sbi_mpxy_get_channel_ids. rewrite Hen. cbn [negb]. rewrite (wrap_small 32 (Z.of_nat _)) by (unfold in_range; lia).
  rewrite (proj2 (Z.ltb_ge _ _)) by lia. cbn [mpxy_shmem_size map_window set_window]. rewrite Hsz. change (u32 (page / 4 - 2)) with 1022.
  rewrite (wrap_small 32 (_ - start)) by (unfold in_range; lia). set (n := Z.of_nat (length (channels s))) in *.
  assert ((if 1022 <? n - start then 1022 else n - start) = Z.min 1022 (n - start)) as -> by (destruct (Z.ltb_spec 1022 (n - start)); lia). set (ret := Z.min 1022 (n - start)) in *.
  assert (0 <= ret <= 1022 /\ start + ret <= n) as Hret by (unfold ret; lia). unfold page in *.
  set (b := hart_shmem_base (states s me)). rewrite (ids_loop_ok _ _ b 4096) by (done || lia). cbn [mbind option_bind mem set_window channels].
  rewrite !(store32_ok _ b 4096) by (done || split; lia). cbn [mbind option_bind]. rewrite (store32_ok _ b 4096) by (done || split; lia). cbn [mbind option_bind].
  replace (Z.to_nat (start + ret - Z.max start 0)) with (Z.to_nat ret) by lia. replace (Z.to_nat (start - 0)) with (Z.to_nat start) by lia. replace (b + 8 + 4 * 0) with (b + 8) by lia.
  rewrite (wrap_small 32 (start + ret)), (wrap_small 32 (n - (start + ret))) by (unfold in_range; lia). rewrite Z.sub_add_distr.
  set (l := take (Z.to_nat ret) _). eexists. split; [unfold unmap_window, set_window, set_mem; cbn; rewrite <- Hw; done|]. change (ids_report s start) with ([n - start - ret; ret] ++ l). split.
  - intros [|[|i]] v Hv; cbn in Hv.
    + injection Hv as <-. rewrite fn_lookup_insert_ne by lia. replace (b + 4 * Z.of_nat 0) with b by lia. apply fn_lookup_insert.
    + injection Hv as <-. replace (b + 4 * Z.of_nat 1) with (b + 4) by lia. apply fn_lookup_insert.
    + rewrite !fn_lookup_insert_ne by lia. rewrite <- (put32_lookup l (mem s) (b + 8) i v Hv). f_equal. lia.
  - intros a Ha. cbn [length app] in Ha. pose proof (Ha 0 ltac:(lia)). pose proof (Ha 1 ltac:(lia)). rewrite !fn_lookup_insert_ne by lia. apply put32_outside.
    intros i Hi. specialize (Ha (i + 2) ltac:(lia)). lia.
Qed.

Lemma channel_ids_confined me start s : mpxy_inv s -> me ∈ harts -> 0 <= start -> exists rc s', sbi_mpxy_get_channel_ids me start s = Some (rc, s') /\ confined me s s'.
Proof.
  intros Hinv Hme Hst. pose proof Hinv as (Hsz & Hw & Hn & _ & _). destruct (mpxy_shmem_enabled (states s me)) eqn:Hen; cycle 1.
  { unfold sbi_mpxy_get_channel_ids. rewrite Hen. by eexists _, _. }
  destruct (decide (start <= Z.of_nat (length s.(channels)))) as [Hle|Hle]; cycle 1.
  { unfold sbi_mpxy_get_channel_ids. rewrite Hen. cbn [negb]. rewrite (wrap_small 32) by (unfold in_range; lia). rewrite (proj2 (Z.ltb_lt _ _)) by lia. by eexists _, _. }
  destruct (channel_ids_effect me start s Hinv Hen ltac:(lia)) as (m & E & Hm). eexists _, _. split; [exact E|].
  pose proof (confined_mem me s s.(drv) m Hinv Hme Hen) as Hc. unfold unmap_window, map_window, set_window, set_mem, set_drv in Hc. cbn in Hc.
  unfold set_mem. rewrite Hw. apply Hc. intros a Ha. apply (holds_inside _ _ _ _ page a Hm); [|done]. rewrite ids_report_length by lia. unfold page. lia.
Qed.

Lemma attrs_range s base count : s.(mpxy_shmem_size) = page -> attrs_range_bad s base count = false -> in_range 32 base -> 0 <= count ->
  1 <= count <= 1024 /\ (mpxy_is_std_attr base = true -> base < 12).
Proof.
  intros Hsz Hr Hb Hc. unfold attrs_range_bad in Hr. rewrite Hsz in Hr. change (page / ATTR_SIZE) with 1024 in Hr.
  apply orb_false_iff in Hr as [Hr H3%Z.ltb_ge]. apply orb_false_iff in Hr as [H1 H2%Z.eqb_neq]. split; [lia|]. unfold mpxy_is_std_attr.
  intros Hs%Z.eqb_eq. rewrite Z.shiftr_div_pow2 in Hs by lia. change (2 ^ 31) with 2147483648 in Hs. pose proof (Z.div_mod base 2147483648 ltac:(done)). pose proof (Z.mod_pos_bound base 2147483648 ltac:(done)).
  apply andb_false_iff in H1 as [H1%Z.leb_gt|H1%Z.ltb_ge]; [done|]. unfold SBI_MPXY_ATTR_MSGPROTO_ATTR_START in H1. lia.
Qed.

(** Reading standard attributes. *)
Lemma read_std_effect me id base count s k c : mpxy_inv s -> mpxy_shmem_enabled (s.(states) me) = true -> mpxy_find_channel s.(channels) id = Some (k, c) ->
  0 <= base -> 1 <= count -> base + count <= 12 ->
  exists m, sbi_mpxy_read_attrs me id base count s = Some (0, set_mem m s) /\
    holds (hart_shmem_base (s.(states) me)) (take (Z.to_nat count) (drop (Z.to_nat base) (attr_words c.(attrs)))) s.(mem) m.
Proof.
  intros (Hsz & Hw & Hn & Hch & _) Hen Hf Hb Hc Hbc. unfold sbi_mpxy_read_attrs. rewrite Hen, Hf. cbn [negb]. unfold attrs_range_bad. rewrite Hsz. change (page / ATTR_SIZE) with 1024.
  unfold SBI_MPXY_ATTR_STD_ATTR_MAX_IDX. rewrite (proj2 (Z.leb_gt 12 base)), (proj2 (Z.eqb_neq count 0)), (proj2 (Z.ltb_ge 1024 count)) by lia. cbn [andb orb].
  assert (mpxy_is_std_attr base = true) as ->. { unfold mpxy_is_std_attr. rewrite Z.shiftr_div_pow2, Z.div_small by lia. done. }
  rewrite (wrap_small 32) by (unfold in_range; lia). rewrite (proj2 (Z.leb_gt 12 _)) by lia.
  set (b := hart_shmem_base (states s me)). rewrite (copy_ok (Z.to_nat count) _ _ _ _ _ b page); [|done|lia|lia| |lia|unfold page; lia].
  2: { rewrite length_drop. cbn [attr_words length]. lia. }
  cbn [mbind option_bind]. eexists. split; [unfold unmap_window, map_window, set_window, set_mem; cbn; rewrite <- Hw; reflexivity|].
  rewrite Z.mul_0_r, Z.add_0_r. apply holds_put32.
Qed.

Lemma find_ok s id k c : mpxy_inv s -> mpxy_find_channel s.(channels) id = Some (k, c) -> s.(channels) !! k = Some c /\ channel_ok c.
Proof.
  intros (_ & _ & _ & Hch & _) Hf. apply list_find_Some in Hf as (Hk & _ & _). split; [done|]. by apply (Forall_lookup_1 _ _ _ _ Hch Hk).
Qed.

Lemma confined_map me s b n : mpxy_inv s -> confined me s (unmap_window (map_window b n s)).
Proof. intros Hinv. pose proof Hinv as (? & ? & ? & ? & ?). split; done. Qed.

Lemma read_attrs_confined me id base count s : mpxy_inv s -> me ∈ harts -> in_range 32 base -> in_range 32 count ->
  exists rc s', sbi_mpxy_read_attrs me id base count s = Some (rc, s') /\ confined me s s'.
Proof.
  intros Hinv Hme Hb Hc. pose proof Hinv as (Hsz & Hw & _). destruct (mpxy_shmem_enabled (states s me)) eqn:Hen; [|unfold sbi_mpxy_read_attrs; rewrite Hen; by eexists _, _].
  destruct (mpxy_find_channel s.(channels) id) as [[k c]|] eqn:Hf; [|unfold sbi_mpxy_read_attrs; rewrite Hen, Hf; by eexists _, _].
  destruct (attrs_range_bad s base count) eqn:Hr; [unfold sbi_mpxy_read_attrs; rewrite Hen, Hf, Hr; by eexists _, _|].
  destruct (attrs_range s base count Hsz Hr Hb ltac:(unfold in_range in Hc; lia)) as [Hcnt Hstd]. unfold in_range in Hb, Hc.
  destruct (mpxy_is_std_attr base) eqn:Hs.
  - destruct (decide (base + count <= 12)) as [Hle|Hle].
    + destruct (read_std_effect me id base count s k c Hinv Hen Hf ltac:(lia) ltac:(lia) Hle) as (m & E & Hm). eexists _, _. split; [exact E|].
      pose proof (confined_mem me s s.(drv) m Hinv Hme Hen) as Hcm. unfold unmap_window, map_window, set_window, set_mem, set_drv in Hcm. cbn in Hcm.
      unfold set_mem. rewrite Hw. apply Hcm. intros a Ha. apply (holds_inside _ _ _ _ page a Hm); [|done]. rewrite length_take. unfold page. lia.
    + unfold sbi_mpxy_read_attrs. rewrite Hen, Hf, Hr, Hs. cbn [negb]. specialize (Hstd eq_refl). rewrite (wrap_small 32) by (unfold in_range; lia). unfold SBI_MPXY_ATTR_STD_ATTR_MAX_IDX.
      rewrite (proj2 (Z.leb_le 12 _)) by lia. eexists _, _. split; [done|]. by apply confined_map.
  - unfold sbi_mpxy_read_attrs. rewrite Hen, Hf, Hr, Hs. cbn [negb]. destruct (find_ok s id k c Hinv Hf) as [_ (Hread & _)].
    destruct (read_attributes c) as [rd|] eqn:Erd; [|eexists _, _; split; [done|]; by apply confined_map]. case_match; [eexists _, _; split; [done|]; by apply confined_map|].
    destruct (rd _ _ _ _ _) as [[ret d] m] eqn:E. eexists _, _. split; [done|]. rewrite Hsz. apply confined_mem; [done..|]. intros a Ha.
    pose proof (Hread rd eq_refl (hart_shmem_base (states s me)) base count s.(drv) s.(mem) a) as H1. cbn in E. rewrite E in H1. apply H1. unfold inside, page in *. lia.
Qed.

(** Writing standard attributes: the first value that is refused stops the call
    before anything is written. *)
Lemma write_std_effect me id base count s k c : mpxy_inv s -> mpxy_shmem_enabled (s.(states) me) = true -> mpxy_find_channel s.(channels) id = Some (k, c) ->
  0 <= base -> 1 <= count -> base + count <= 12 ->
  let v i := s.(mem) (hart_shmem_base (s.(states) me) + 4 * (i - base)) in
  (exists i, base <= i < base + count /\ mpxy_check_write_std_attr c.(attrs) i (v i) <> 0 /\
     sbi_mpxy_write_attrs me id base count s = Some (mpxy_check_write_std_attr c.(attrs) i (v i), s)) \/
  (forall i, base <= i < base + count -> mpxy_check_write_std_attr c.(attrs) i (v i) = 0) /\
  exists a d, sbi_mpxy_write_attrs me id base count s = Some (0, set_drv d (set_channels (<[k := with_attrs a c]> s.(channels)) s)) /\
    forall j, 0 <= j < 12 -> attr_words a !! Z.to_nat j =
      if (base <=? j) && (j <? base + count) && takes (s.(states) me) c j then Some (v j) else attr_words c.(attrs) !! Z.to_nat j.
Proof.
  intros (Hsz & Hw & Hn & Hch & _) Hen Hf Hb Hc Hbc. cbv zeta. unfold sbi_mpxy_write_attrs. rewrite Hen, Hf. cbn [negb]. unfold attrs_range_bad. rewrite Hsz. change (page / ATTR_SIZE) with 1024.
  unfold SBI_MPXY_ATTR_STD_ATTR_MAX_IDX. rewrite (proj2 (Z.leb_gt 12 base)), (proj2 (Z.eqb_neq count 0)), (proj2 (Z.ltb_ge 1024 count)) by lia. cbn [andb orb].
  assert (mpxy_is_std_attr base = true) as ->. { unfold mpxy_is_std_attr. rewrite Z.shiftr_div_pow2, Z.div_small by lia. done. }
  rewrite (wrap_small 32) by (unfold in_range; lia). rewrite (proj2 (Z.leb_gt 12 _)) by lia. set (b := hart_shmem_base (states s me)).
  set (s1 := map_window b page s). assert (unmap_window s1 = s) as Eun by (unfold s1; destruct s; cbn in *; by subst).
  destruct (check_attrs_ok (Z.to_nat count) c.(attrs) b page b base (base + count - 1) s1) as (rc & E & Hrc); [done|lia|unfold page; lia|lia|lia|lia|]. rewrite E. cbn [mbind option_bind].
  assert (forall i, base + (i - base) = i) as Hi by (intros; lia). destruct Hrc as [(-> & Hall)|(Hne & i & Hir & <-)].
  - right. cbn [Z.eqb negb]. assert (forall i, base <= i < base + count -> mpxy_check_write_std_attr (attrs c) i (mem s (b + 4 * (i - base))) = 0) as Hall'.
    { intros i Hir. rewrite <- (Hall (i - base)) by lia. by rewrite Hi. }
    split; [done|]. change (drv s1) with (drv s). destruct (attr_writes_ok (Z.to_nat count) (states s me) c s.(drv) c.(attrs) b page b base (base + count - 1) s1) as (a & d & -> & Ha); try (done || lia || unfold page; lia).
    cbn [mbind option_bind]. exists a, d. split; [unfold s1; destruct s; cbn in *; by subst|]. intros j Hj. rewrite (Ha j Hj). replace (j <=? base + count - 1) with (j <? base + count); [done|].
    destruct (Z.leb_spec j (base + count - 1)), (Z.ltb_spec j (base + count)); lia || done.
  - left. exists (base + i). replace (base + i - base) with i by lia. split; [lia|]. split; [done|]. rewrite (proj2 (Z.eqb_neq _ _) Hne). cbn [negb].
    cbn [mbind option_bind]. by rewrite Eun.
Qed.

Lemma write_attrs_confined me id base count s : mpxy_inv s -> me ∈ harts -> in_range 32 base -> in_range 32 count ->
  exists rc s', sbi_mpxy_write_attrs me id base count s = Some (rc, s') /\ confined me s s'.
Proof.
  intros Hinv Hme Hb Hc. pose proof Hinv as (Hsz & Hw & Hn & Hch & Hs). destruct (mpxy_shmem_enabled (states s me)) eqn:Hen; [|unfold sbi_mpxy_write_attrs; rewrite Hen; by eexists _, _].
  destruct (mpxy_find_channel s.(channels) id) as [[k c]|] eqn:Hf; [|unfold sbi_mpxy_write_attrs; rewrite Hen, Hf; by eexists _, _].
  destruct (attrs_range_bad s base count) eqn:Hr; [unfold sbi_mpxy_write_attrs; rewrite Hen, Hf, Hr; by eexists _, _|].
  destruct (attrs_range s base count Hsz Hr Hb ltac:(unfold in_range in Hc; lia)) as [Hcnt Hstd]. unfold in_range in Hb, Hc. destruct (find_ok s id k c Hinv Hf) as [Hk Hcok].
  destruct (mpxy_is_std_attr base) eqn:Est.
  - destruct (decide (base + count <= 12)) as [Hle|Hle].
    + destruct (write_std_effect me id base count s k c Hinv Hen Hf ltac:(lia) ltac:(lia) Hle) as [(i & _ & _ & E)|(_ & a & d & E & _)]; (eexists _, _; split; [exact E|]); [done|].
      split; [|split; [|done]].
      * split; [done|]. split; [done|]. split; [cbn; by rewrite length_insert|]. split; [|done]. cbn. by apply Forall_insert.
      * cbn. rewrite list_fmap_insert. apply list_insert_id. by rewrite list_lookup_fmap, Hk.
    + unfold sbi_mpxy_write_attrs. rewrite Hen, Hf, Hr, Est. cbn [negb]. specialize (Hstd eq_refl). rewrite (wrap_small 32) by (unfold in_range; lia). unfold SBI_MPXY_ATTR_STD_ATTR_MAX_IDX.
      rewrite (proj2 (Z.leb_le 12 _)) by lia. eexists _, _. split; [done|]. by apply confined_map.
  - unfold sbi_mpxy_write_attrs. rewrite Hen, Hf, Hr, Est. cbn [negb].
    destruct (write_attributes c) as [wr|] eqn:Ewr; [|eexists _, _; split; [done|]; by apply confined_map]. case_match; [eexists _, _; split; [done|]; by apply confined_map|].
    destruct (wr _ _ _ _ _) as [ret d] eqn:E. eexists _, _. split; [done|]. split; done.
Qed.

Lemma send_confined me id msg n resp s : mpxy_inv s -> me ∈ harts -> confined me s (sbi_mpxy_send_message me id msg n resp s).2.
Proof.
  intros Hinv Hme. pose proof Hinv as (Hsz & Hw & Hn & Hch & Hs). unfold sbi_mpxy_send_message. destruct (mpxy_shmem_enabled (states s me)) eqn:Hen; [|done]. cbn [negb].
  destruct (mpxy_find_channel s.(channels) id) as [[k c]|] eqn:Hf; [|done]. destruct (find_ok s id k c Hinv Hf) as [Hk (_ & Hsend & _)]. destruct resp.
  - destruct (send_message_with_response c) as [send|] eqn:Es; [|done]. case_match; [done|]. cbn [mpxy_shmem_size map_window set_window drv mem]. rewrite Hsz. change (u32 page) with page.
    set (b := hart_shmem_base (states s me)). pose proof (Hsend send eq_refl msg b (u32 n) b page s.(drv) s.(mem)) as Hm. destruct (send msg b (u32 n) b page (drv s) (mem s)) as [[[ret len] d] m].
    assert (confined me s (unmap_window (set_mem m (set_drv d (map_window b page s))))) as Hcm by (by apply confined_mem). cbv zeta. repeat case_match; exact Hcm.
  - destruct (send_message_without_response c) as [send|] eqn:Es; [|done]. case_match; [done|]. destruct (send _ _ _ _ _) as [ret d]. split; done.
Qed.

Lemma events_confined me id s : mpxy_inv s -> me ∈ harts -> confined me s (sbi_mpxy_get_notification_events me id s).2.
Proof.
  intros Hinv Hme. pose proof Hinv as (Hsz & Hw & Hn & Hch & Hs). unfold sbi_mpxy_get_notification_events. destruct (mpxy_shmem_enabled (states s me)) eqn:Hen; [|done]. cbn [negb].
  destruct (mpxy_find_channel s.(channels) id) as [[k c]|] eqn:Hf; [|done]. destruct (find_ok s id k c Hinv Hf) as [Hk (_ & _ & Hget)].
  destruct (get_notification_events c) as [get|] eqn:Es; [|done]. cbn [mpxy_shmem_size map_window set_window drv mem]. rewrite Hsz. change (u32 page) with page.
  set (b := hart_shmem_base (states s me)). pose proof (Hget get eq_refl b page s.(drv) s.(mem)) as Hm. destruct (get b page (drv s) (mem s)) as [[[ret len] d] m].
  assert (confined me s (unmap_window (set_mem m (set_drv d (map_window b page s))))) as Hcm by (by apply confined_mem). cbv zeta. repeat case_match; exact Hcm.
Qed.

(** ** Sequences of calls *)

Record mpxy_call := Call { hart_of : nat; fn : Z; arg0 : Z; arg1 : Z; arg2 : Z }.

(** Calls of the harts that use the proxy.  The last page of the address space is
    left out: see [last_page_not_checked]. *)
Definition call_ok (c : mpxy_call) : Prop := c.(hart_of) ∈ harts /\ in_range 64 c.(arg0) /\ c.(arg0) <> 2 ^ 64 - page.

Fixpoint run_mpxy (fuel : nat) (cs : list mpxy_call) s : option (@mpxy D) :=
  match cs with
  | [] => Some s
  | c :: cs => '(_, s) ← sbi_ecall_mpxy_handler shl64 fuel (Some (dom_of c.(hart_of))) c.(hart_of) c.(fn) c.(arg0) c.(arg1) c.(arg2) s; run_mpxy fuel cs s
  end.

Lemma call_confined fuel (c : mpxy_call) s : mpxy_inv s -> call_ok c -> (Z.to_nat page < fuel)%nat ->
  exists rc v s', sbi_ecall_mpxy_handler shl64 fuel (Some (dom_of c.(hart_of))) c.(hart_of) c.(fn) c.(arg0) c.(arg1) c.(arg2) s = Some (rc, v, s') /\ confined c.(hart_of) s s'.
Proof using Hwf H64.
  intros Hinv (Hme & H0 & Htop) Hf. unfold sbi_ecall_mpxy_handler. assert (forall x, in_range 32 (u32 x)) as H32 by (intros; apply wrap_range; lia).
  case_match; [by eexists _, _, _|].
  case_match; [destruct (set_shmem_confined fuel c.(hart_of) c.(arg0) c.(arg1) c.(arg2) s Hinv Hme H0 Htop Hf) as (rc & s' & -> & Hc); by eexists _, _, _|].
  case_match; [destruct (channel_ids_confined c.(hart_of) (u32 c.(arg0)) s Hinv Hme ltac:(by destruct (H32 c.(arg0)))) as (rc & s' & -> & Hc); by eexists _, _, _|].
  case_match; [destruct (read_attrs_confined c.(hart_of) (u32 c.(arg0)) (u32 c.(arg1)) (u32 c.(arg2)) s Hinv Hme (H32 _) (H32 _)) as (rc & s' & -> & Hc); by eexists _, _, _|].
  case_match; [destruct (write_attrs_confined c.(hart_of) (u32 c.(arg0)) (u32 c.(arg1)) (u32 c.(arg2)) s Hinv Hme (H32 _) (H32 _)) as (rc & s' & -> & Hc); by eexists _, _, _|].
  case_match; [pose proof (send_confined c.(hart_of) (u32 c.(arg0)) (u8 c.(arg1)) c.(arg2) true s Hinv Hme) as Hc; destruct (sbi_mpxy_send_message _ _ _ _ _ _) as [[rc v] s']; by eexists _, _, _|].
  case_match; [pose proof (send_confined c.(hart_of) (u32 c.(arg0)) (u8 c.(arg1)) c.(arg2) false s Hinv Hme) as Hc; destruct (sbi_mpxy_send_message _ _ _ _ _ _) as [[rc v] s']; by eexists _, _, _|].
  case_match; [pose proof (events_confined c.(hart_of) (u32 c.(arg0)) s Hinv Hme) as Hc; destruct (sbi_mpxy_get_notification_events _ _ _) as [[rc v] s']; by eexists _, _, _|].
  by eexists _, _, _.
Qed.

(** C8: The message proxy stays inside the memory of the domains that use it.
    Conditions: the shared memory is one page (as it is while no channel has longer
    messages, see [long_messages_shrink_shmem]); the shared memory of every hart
    that calls is disabled or in its domain at first (the initialisation sees to
    that for the boot hart only, see [other_harts_shmem_at_zero]); no call names the
    last page of the address space (see [last_page_not_checked]); the drivers write
    only to the buffers they are given; and the range check is exact for the
    domains: regions as [sanitize_domain] leaves them, none that ends at the top of
    the address space, none of all memory unless [1UL << 64] is 0.  Then no sequence
    of calls, on whatever harts and with whatever other arguments, makes the firmware
    fault; a word of memory that changed lies in memory that the domain of one of the
    calling harts may read and write in S mode; the same conditions hold afterwards,
    and the list of channels is as it was. *)
Theorem mpxy_confined fuel cs s : mpxy_inv s -> Forall call_ok cs -> (Z.to_nat page < fuel)%nat ->
  exists s', run_mpxy fuel cs s = Some s' /\ mpxy_inv s' /\ map channel_id s'.(channels) = map channel_id s.(channels) /\
    forall a, s'.(mem) a <> s.(mem) a -> exists c : mpxy_call, c ∈ cs /\ forall b, a <= b < a + 4 -> may_use (dom_of c.(hart_of)) b.
Proof using Hwf H64.
  intros Hinv Hcs Hf. revert s Hinv. induction Hcs as [|c cs Hc _ IH]; intros s Hinv; [by exists s|]. cbn [run_mpxy].
  destruct (call_confined fuel c s Hinv Hc Hf) as (rc & v & s1 & -> & Hinv1 & Hids & Hmem). cbn [mbind option_bind]. destruct (IH s1 Hinv1) as (s' & E & Hinv' & Hids' & Hmem').
  exists s'. split; [done|]. split; [done|]. split; [congruence|]. intros a Ha. destruct (decide (s1.(mem) a = s.(mem) a)) as [Es|Es].
  - rewrite <- Es in Ha. destruct (Hmem' a Ha) as (c' & Hc' & Hb). exists c'. split; [by right|done].
  - exists c. split; [left|]. by apply Hmem.
Qed.

(** What the message proxy reports and stores is exact.  The channels from a
    given number on are reported as the number left over, the number reported (at
    most 1022) and their identifiers in order.  Standard attributes are read as
    they are.  Writing a range of them is one transaction: if one value is refused
    the call returns the reason and nothing has changed, otherwise exactly the
    attributes of the range that the channel takes have the new values. *)
Theorem mpxy_exact me s id base count start k c : mpxy_inv s -> mpxy_shmem_enabled (s.(states) me) = true ->
  0 <= start <= Z.of_nat (length s.(channels)) -> mpxy_find_channel s.(channels) id = Some (k, c) -> 0 <= base -> 1 <= count -> base + count <= 12 ->
  let b := hart_shmem_base (s.(states) me) in
  let v i := s.(mem) (b + 4 * (i - base)) in
  (exists m, sbi_mpxy_get_channel_ids me start s = Some (0, set_mem m s) /\ holds b (ids_report s start) s.(mem) m) /\
  (exists m, sbi_mpxy_read_attrs me id base count s = Some (0, set_mem m s) /\
     holds b (take (Z.to_nat count) (drop (Z.to_nat base) (attr_words c.(attrs)))) s.(mem) m) /\
  ((exists i, base <= i < base + count /\ mpxy_check_write_std_attr c.(attrs) i (v i) <> 0 /\
      sbi_mpxy_write_attrs me id base count s = Some (mpxy_check_write_std_attr c.(attrs) i (v i), s)) \/
   (forall i, base <= i < base + count -> mpxy_check_write_std_attr c.(attrs) i (v i) = 0) /\
   exists a d, sbi_mpxy_write_attrs me id base count s = Some (0, set_drv d (set_channels (<[k := with_attrs a c]> s.(channels)) s)) /\
     forall j, 0 <= j < 12 -> attr_words a !! Z.to_nat j =
       if (base <=? j) && (j <? base + count) && takes (s.(states) me) c j then Some (v j) else attr_words c.(attrs) !! Z.to_nat j).
Proof.
  intros Hinv Hen Hst Hf Hb Hc Hbc. split; [by apply channel_ids_effect|]. split; [by apply (read_std_effect me id base count s k c)|].
  by apply (write_std_effect me id base count s k c).
Qed.
End Props.

(** ** An example *)

(** A channel that answers nothing and can report its events. *)
Definition demo_channel (id maxlen : Z) : @sbi_mpxy_channel unit :=
  Channel id (Attrs 0 1 maxlen 0 0 0 0 0 (MsiInfo 0 0 0) 0) None None (Some (fun _ _ _ _ _ d m => (0, 0, d, m))) None None (Some (fun _ d => d)).

(** The state before the initialisation. *)
Definition boot_mpxy : @mpxy unit := Mpxy [] MPXY_PAGE_SIZE (fun _ => MpxyState false false (Shmem 0 0)) tt (fun _ => 0) None.

Definition demo_mpxy (maxlen : Z) : @mpxy unit :=
  (sbi_mpxy_init 0 true (fun s => sbi_mpxy_register_channel 0 (Some (demo_channel 5 maxlen)) s) boot_mpxy).2.

(** Hart 0 uses a page at 0x80400000. *)
Definition shared_mpxy (maxlen : Z) : @mpxy unit := set_state_of 0 (MpxyState false false (Shmem 0x80400000 0)) (demo_mpxy maxlen).

Lemma demo_mpxy_inv : mpxy_inv (fun _ => ram_domain) [0%nat] (demo_mpxy 64).
Proof.
  split; [reflexivity|]. split; [reflexivity|]. split; [done|]. split.
  - constructor; [|constructor]. split; [done|]. split; [|done]. intros f [= <-] *. done.
  - intros me ->%list_elem_of_singleton. done.
Defined.

Lemma mpxy_confined_witness : exists s',
  run_mpxy (fun _ => ram_domain) 1 5000 [Call 0 SBI_EXT_MPXY_SET_SHMEM 0x80400000 0 0; Call 0 SBI_EXT_MPXY_GET_CHANNEL_IDS 0 0 0] (demo_mpxy 64) = Some s' /\
  s'.(mem) 0x80400008 = 5 /\ forall a, s'.(mem) a <> 0 -> may_use ram_domain a.
Proof.
  destruct (mpxy_confined (D:=unit) (fun _ => ram_domain) [0%nat] 1 (fun _ => ram_domain_bit64 1) (fun _ => ram_domain_wf) 5000
    [Call 0 SBI_EXT_MPXY_SET_SHMEM 0x80400000 0 0; Call 0 SBI_EXT_MPXY_GET_CHANNEL_IDS 0 0 0] (demo_mpxy 64) demo_mpxy_inv) as (s' & E & _ & _ & Hm).
  - repeat constructor; done.
  - unfold page. lia.
  - exists s'. split; [exact E|]. split.
    + assert (option_map (fun s => s.(mem) 0x80400008) (Some s') = Some 5) as [= ->]; [|done]. rewrite <- E. vm_compute. reflexivity.
    + intros a Ha. destruct (Hm a Ha) as (c & _ & Hb). apply Hb. lia.
Defined.

Lemma shared_inv : mpxy_inv (fun _ => ram_domain) [0%nat] (shared_mpxy 64).
Proof.
  split; [reflexivity|]. split; [reflexivity|]. split; [done|]. split.
  - constructor; [|constructor]. split; [done|]. split; [|done]. intros f [= <-] *. done.
  - intros me ->%list_elem_of_singleton _ a Ha. change (hart_shmem_base _) with 0x80400000 in Ha.
    destruct (range_loop 1 ram_domain 0x80401000 PRV_S (Z.lor SBI_DOMAIN_READ SBI_DOMAIN_WRITE) (ram_domain_bit64 1) ram_domain_wf ltac:(lia) 5000 0x80400000 ltac:(lia)) as (b & E & Hb).
    vm_compute in E. injection E as <-. apply Hb; [done|]. unfold page in Ha. lia.
Defined.

(** The reporting of events is switched on; an attribute that may only be read
    makes the call fail. *)
Lemma mpxy_exact_witness :
  (exists m, sbi_mpxy_get_channel_ids 0 0 (shared_mpxy 64) = Some (0, set_mem m (shared_mpxy 64)) /\ m 0x80400008 = 5) /\
  sbi_mpxy_write_attrs 0 5 5 2 (shared_mpxy 64) = Some (SBI_EBAD_RANGE, shared_mpxy 64).
Proof.
  assert (mpxy_find_channel (channels (shared_mpxy 64)) 5 = Some (0%nat, mpxy_std_attrs_init (states (demo_mpxy 64) 0) (demo_channel 5 64))) as Hf by reflexivity.
  destruct (mpxy_exact (fun _ => ram_domain) [0%nat] 0 (shared_mpxy 64) 5 5 2 0 0 _ shared_inv eq_refl ltac:(cbn; lia) Hf ltac:(lia) ltac:(lia) ltac:(lia))
    as ((m & E & [Hm _]) & _ & [(i & Hi & _ & Ew)|[Hno _]]).
  - split; [exists m; split; [exact E|exact (Hm 2%nat 5 eq_refl)]|]. rewrite Ew. assert (i = 5 \/ i = 6) as [-> | ->] by lia; reflexivity.
  - specialize (Hno 5 ltac:(lia)). discriminate Hno.
Defined.

(** ** Findings *)

(** A channel with messages longer than a page sets the size of the shared memory
    to its number of pages, and reporting the channels then writes beyond it. *)
Theorem long_messages_shrink_shmem :
  (demo_mpxy 8192).(mpxy_shmem_size) = 2 /\ sbi_mpxy_get_channel_ids 0 0 (shared_mpxy 8192) = None.
Proof. split; vm_compute; reflexivity. Qed.

(** Only the boot hart starts with its shared memory disabled: on another hart it
    is taken to be at address 0, which was never checked. *)
Theorem other_harts_shmem_at_zero : mpxy_shmem_enabled ((demo_mpxy 64).(states) 0) = false /\
  exists s', sbi_mpxy_get_channel_ids 1 0 (demo_mpxy 64) = Some (0, s') /\ s'.(mem) 8 = 5.
Proof. split; [reflexivity|]. eexists. split; vm_compute; reflexivity. Qed.

(** The request to disable the shared memory, all bits of both words set, is
    refused, since the pattern compared with has 32 bits. *)
Theorem disable_refused dom : exists s', sbi_mpxy_set_shmem 1 5000 (Some dom) 0 (2 ^ 64 - 1) (2 ^ 64 - 1) 0 (shared_mpxy 64) = Some (SBI_EINVAL, s').
Proof. eexists. reflexivity. Qed.

(** The end of the range wraps around for the last page of the address space,
    which every domain may then use. *)
Theorem last_page_not_checked dom : exists s', sbi_mpxy_set_shmem 1 5000 (Some dom) 0 (2 ^ 64 - page) 0 0 (shared_mpxy 64) = Some (0, s') /\
  hart_shmem_base (s'.(states) 0) = 2 ^ 64 - page.
Proof. eexists. split; reflexivity. Qed.

(** A range of protocol attributes past the last one is passed to the driver, since
    the number of its last attribute wraps around before it is compared. *)
Theorem protocol_range_wraps :
  let c := Channel 5 (Attrs 0 1 64 0 0 0 0 0 (MsiInfo 0 0 0) 0) (Some (fun _ _ n d m => (n, d, m))) None None None None None in
  exists s', sbi_mpxy_read_attrs 0 5 0xffffffff 2 (set_channels [c] (shared_mpxy 64)) = Some (2, s').
Proof. eexists. vm_compute. reflexivity. Qed.
