(* ===== verification/DomainCtx.v ===== *)
(** * Contexts of domains (lib/sbi/sbi_domain_context.c)

    A hart can leave its domain for another one and come back.  The state of the
    supervisor it leaves, registers and trap state, is kept in a context, one for
    each domain and hart; contexts are linked by pointers, so they are kept in a
    store by address.  The memory protection is that of Pmp.v.

    [me] is the index of the executing hart, [hartid] its number; [alloc n] says
    whether allocation number [n] succeeds.  [None] is an access through a null
    pointer or outside an array, or a trap of the firmware.  The locks around the
    masks of assigned harts are not modelled. *)

From S2P Require Import Prelude SbiTypes Bitops Hartmask Domain Csr Pmp PmpProps HartFeat Trap.

Local Open Scope Z_scope.

Definition CSR_SSTATUS : Z := 0x100.
Definition CSR_SENVCFG : Z := 0x10a.
Definition CSR_SIP : Z := 0x144.

(** [s_csr] are the saved registers, by the number of the register; [trap_ctx] are
    the words of the trap context; [dom] is the place of the domain in the list of
    domains. *)
Record hart_context := Ctx { trap_ctx : list Z; s_csr : Z -> Z; dom : nat; prev_ctx : option nat; initialized : bool }.

Definition set_trap_ctx (t : list Z) (c : hart_context) : hart_context := Ctx t c.(s_csr) c.(dom) c.(prev_ctx) c.(initialized).
Definition set_s_csr (r v : Z) (c : hart_context) : hart_context := Ctx c.(trap_ctx) (<[r := v]> c.(s_csr)) c.(dom) c.(prev_ctx) c.(initialized).
Definition set_prev (p : option nat) (c : hart_context) : hart_context := Ctx c.(trap_ctx) c.(s_csr) c.(dom) p c.(initialized).
Definition set_initialized (c : hart_context) : hart_context := Ctx c.(trap_ctx) c.(s_csr) c.(dom) c.(prev_ctx) true.

(** What [sbi_zalloc] returns, bound to a domain. *)
Definition zero_context (d : nat) : hart_context := Ctx (replicate 41 0) (fun _ => 0) d None false.

(** A domain with its [struct domain_context_priv]: the contexts of the harts. *)
Record ctx_domain := CtxDomain { sdom : sbi_domain; boot_hartid : Z; table : option (list (option nat)) }.

(** The domains in the order of their list (the root domain is the first one), the
    domain of each hart, the store of contexts, the next allocation, the registers
    of the executing hart and the trap context on its stack. *)
Record ctx_world := CtxWorld {
  domains : list ctx_domain; hartindex_to_domain : nat -> nat; store : nat -> hart_context; next_alloc : nat; regs_of : hart; trap_of : list Z }.

Definition set_domains (l : list ctx_domain) (w : ctx_world) : ctx_world := CtxWorld l w.(hartindex_to_domain) w.(store) w.(next_alloc) w.(regs_of) w.(trap_of).
Definition set_domain_of (h d : nat) (w : ctx_world) : ctx_world := CtxWorld w.(domains) (<[h := d]> w.(hartindex_to_domain)) w.(store) w.(next_alloc) w.(regs_of) w.(trap_of).
Definition upd_ctx (p : nat) (g : hart_context -> hart_context) (w : ctx_world) : ctx_world :=
  CtxWorld w.(domains) w.(hartindex_to_domain) (<[p := g (w.(store) p)]> w.(store)) w.(next_alloc) w.(regs_of) w.(trap_of).
Definition set_regs (h : hart) (w : ctx_world) : ctx_world := CtxWorld w.(domains) w.(hartindex_to_domain) w.(store) w.(next_alloc) h w.(trap_of).
Definition set_trap (t : list Z) (w : ctx_world) : ctx_world := CtxWorld w.(domains) w.(hartindex_to_domain) w.(store) w.(next_alloc) w.(regs_of) t.

(** ** The monad *)

Definition ctxM (A : Type) : Type := ctx_world -> option (A * ctx_world).

#[global] Instance ctxM_ret : MRet ctxM := fun A x w => Some (x, w).
#[global] Instance ctxM_bind : MBind ctxM := fun A B f m w => match m w with None => None | Some (x, w) => f x w end.

Definition get : ctxM ctx_world := fun w => Some (w, w).
Definition modify (g : ctx_world -> ctx_world) : ctxM unit := fun w => Some (tt, g w).
Definition need {A} (o : option A) : ctxM A := fun w => match o with Some x => Some (x, w) | None => None end.
Definition on_regs {A} (m : csrM A) : ctxM A := fun w => match m w.(regs_of) with Some (x, h) => Some (x, set_regs h w) | None => None end.

(** How the functions end: they return a code; or the hart goes to the next stage
    ([sbi_hart_switch_mode]); or it stops ([sbi_hsm_hart_stop], in Hsm.v). *)
Inductive ctx_outcome := Returns (rc : Z) | Starts (r : switch_result) | StopsHart.

Section Context_.
Context {hw : Hw} (platform : Z -> bool) (f : sbi_hart_features) (me : nat) (hartid : Z) (alloc : nat -> bool).

Definition hart_context_get (d : ctx_domain) (hartindex : nat) : option nat :=
  match d.(table) with
  | Some t => if Z.of_nat hartindex <? SBI_HARTMASK_MAX_BITS then default None (t !! hartindex) else None
  | None => None
  end.

Definition hart_context_set (d : ctx_domain) (hartindex : nat) (hc : option nat) : ctx_domain :=
  match d.(table) with
  | Some t => if Z.of_nat hartindex <? SBI_HARTMASK_MAX_BITS then CtxDomain d.(sdom) d.(boot_hartid) (Some (<[hartindex := hc]> t)) else d
  | None => d
  end.

Definition hart_context_thishart_get : ctxM (option nat) :=
  w ← get; d ← need (w.(domains) !! w.(hartindex_to_domain) me); mret (hart_context_get d me).

Definition set_assigned (m : sbi_hartmask) (d : ctx_domain) : ctx_domain :=
  let s := d.(sdom) in CtxDomain (Dom m s.(possible_harts) s.(regions) s.(next_arg1) s.(next_addr) s.(next_mode) s.(fw_region_inited)) d.(boot_hartid) d.(table).

Definition assign (g : sbi_hartmask -> option sbi_hartmask) (i : nat) : ctxM unit :=
  w ← get; d ← need (w.(domains) !! i); m ← need (g d.(sdom).(assigned_harts)); modify (set_domains (<[i := set_assigned m d]> w.(domains))).

(** [for (int i = 0; i < pmp_count; i++) pmp_disable(i);] *)
Fixpoint disable_all (n : nat) (i : Z) : csrM unit :=
  match n with O => mret tt | S n => pmp_disable i;; disable_all n (i + 1) end.

Definition saved_csrs : list Z :=
  [CSR_SSTATUS; CSR_SIE; CSR_STVEC; CSR_SSCRATCH; CSR_SEPC; CSR_SCAUSE; CSR_STVAL; CSR_SIP; CSR_SATP]
  ++ (if SBI_HART_PRIV_VER_1_10 <=? f.(priv_version) then [CSR_SCOUNTEREN] else [])
  ++ (if SBI_HART_PRIV_VER_1_12 <=? f.(priv_version) then [CSR_SENVCFG] else []).

(** [ctx->r = csr_swap(CSR_R, dom_ctx->r)] for each register in turn. *)
Fixpoint swap_csrs (l : list Z) (ctx dom_ctx : nat) : ctxM unit :=
  match l with
  | [] => mret tt
  | c :: l =>
      w ← get;
      old ← on_regs (csr_swap c ((w.(store) dom_ctx).(s_csr) c));
      modify (upd_ctx ctx (set_s_csr c old));;
      swap_csrs l ctx dom_ctx
  end.

Definition switch_to_next_domain_context (ctx dom_ctx : nat) : ctxM (option ctx_outcome) :=
  w ← get;
  let current_dom := (w.(store) ctx).(dom) in
  let target_dom := (w.(store) dom_ctx).(dom) in
  assign (sbi_hartmask_clear_hartindex (Z.of_nat me)) current_dom;;
  modify (set_domain_of me target_dom);;
  assign (sbi_hartmask_set_hartindex (Z.of_nat me)) target_dom;;
  on_regs (disable_all (Z.to_nat f.(pmp_count)) 0);;
  w ← get;
  here ← need (w.(domains) !! w.(hartindex_to_domain) me);
  on_regs (sbi_hart_pmp_configure platform f (memregions here.(sdom)));;
  swap_csrs saved_csrs ctx dom_ctx;;
  w ← get;
  modify (upd_ctx ctx (set_trap_ctx w.(trap_of)));;
  w ← get;
  modify (set_trap (w.(store) dom_ctx).(trap_ctx));;
  modify (upd_ctx ctx set_initialized);;
  w ← get;
  if (w.(store) dom_ctx).(initialized) then mret None
  else
    d ← need (w.(domains) !! target_dom);
    if hartid =? d.(boot_hartid)
    then r ← on_regs (sbi_hart_switch_mode platform d.(boot_hartid) d.(sdom).(next_arg1) d.(sdom).(next_addr) d.(sdom).(next_mode) false); mret (Some (Starts r))
    else mret (Some StopsHart).

Definition sbi_domain_context_enter (d : nat) : ctxM ctx_outcome :=
  ctx ← hart_context_thishart_get;
  w ← get;
  target ← need (w.(domains) !! d);
  match hart_context_get target me with
  | None => mret (Returns SBI_EINVAL)
  | Some dom_ctx =>
      modify (upd_ctx dom_ctx (set_prev ctx));;
      ctx ← need ctx;
      r ← switch_to_next_domain_context ctx dom_ctx;
      mret (default (Returns 0) r)
  end.

(** The loop that allocates a context in each domain from number [i] on; [false]
    is the return with [SBI_ENOMEM]. *)
Fixpoint alloc_contexts (n i : nat) : ctxM bool :=
  match n with
  | O => mret true
  | S n =>
      w ← get;
      d ← need (w.(domains) !! i);
      possible ← need d.(sdom).(possible_harts);
      t ← need (sbi_hartmask_test_hartindex (Z.of_nat me) possible);
      if t =? 0 then alloc_contexts n (S i)
      else
        let p := w.(next_alloc) in
        if negb (alloc p) then mret false
        else
          modify (fun w => CtxWorld (<[i := hart_context_set d me (Some p)]> w.(domains)) w.(hartindex_to_domain) (<[p := zero_context i]> w.(store)) (S p) w.(regs_of) w.(trap_of));;
          alloc_contexts n (S i)
  end.

(** The search for a domain, not the root and not the current one, whose context
    has not run. *)
Fixpoint find_unstarted (w : ctx_world) (l : list ctx_domain) (i : nat) : option nat :=
  match l with
  | [] => None
  | d :: l =>
      if bool_decide (i = 0%nat) || bool_decide (i = w.(hartindex_to_domain) me) then find_unstarted w l (S i)
      else
        match hart_context_get d me with
        | Some tmp => if negb (w.(store) tmp).(initialized) then Some tmp else find_unstarted w l (S i)
        | None => find_unstarted w l (S i)
        end
  end.

Definition sbi_domain_context_exit : ctxM ctx_outcome :=
  ctx ← hart_context_thishart_get;
  ok ← (match ctx with Some _ => mret true | None => w ← get; alloc_contexts (length w.(domains)) 0 end);
  if negb ok then mret (Returns SBI_ENOMEM)
  else
    ctx ← (match ctx with Some _ => mret ctx | None => hart_context_thishart_get end);
    ctx ← need ctx;
    w ← get;
    let dom_ctx := match (w.(store) ctx).(prev_ctx) with Some p => Some p | None => find_unstarted w w.(domains) 0 end in
    root ← need (w.(domains) !! 0%nat);
    let dom_ctx := match dom_ctx with Some p => Some p | None => hart_context_get root me end in
    dom_ctx ← need dom_ctx;
    r ← switch_to_next_domain_context ctx dom_ctx;
    mret (default (Returns 0) r).
End Context_.
