(* ===== verification/DomainCtxProps.v ===== *)
(** * Properties of the contexts of domains (lib/sbi/sbi_domain_context.c)

    A hart that enters another domain and leaves it again finds its own domain as
    it left it: memory protection, supervisor registers, trap state and the masks
    of assigned harts. *)

From S2P Require Import Prelude SbiTypes Bitops Hartmask Domain Csr Pmp PmpProps HartFeat Trap Timer Fwft FwftProps DomainCtx.

Local Open Scope Z_scope.

Lemma ctx_bind {A B} (m : ctxM A) (g : A -> ctxM B) w x w' : m w = Some (x, w') -> (m ≫= g) w = g x w'.
Proof. unfold mbind, ctxM_bind. by intros ->. Qed.

(** A step that computes. *)
Ltac ctx_step := erewrite ctx_bind; [|reflexivity].

Lemma decide_cons_ne {A} (x y : Z) l (a b : A) : x <> y -> (if decide (x ∈ y :: l) then a else b) = (if decide (x ∈ l) then a else b).
Proof. intros Hne. repeat case_decide; set_solver. Qed.

(** The registers a switch of the supervisor has to keep, by their numbers in the
    privileged specification: sstatus, sie, stvec, sscratch, sepc, scause, stval,
    sip and satp; scounteren, which version 1.10 added; senvcfg, from version 1.12. *)
Definition supervisor_csr (f : sbi_hart_features) (c : Z) : Prop :=
  c ∈ [0x100; 0x104; 0x105; 0x140; 0x141; 0x142; 0x143; 0x144; 0x180] \/
  c = 0x106 /\ SBI_HART_PRIV_VER_1_10 <= f.(priv_version) \/ c = 0x10a /\ SBI_HART_PRIV_VER_1_12 <= f.(priv_version).

(** The code exchanges exactly these. *)
Lemma saved_supervisor f c : c ∈ saved_csrs f <-> supervisor_csr f c.
Proof.
  unfold saved_csrs, supervisor_csr. rewrite !elem_of_app.
  change [0x100; 0x104; 0x105; 0x140; 0x141; 0x142; 0x143; 0x144; 0x180]
    with [CSR_SSTATUS; CSR_SIE; CSR_STVEC; CSR_SSCRATCH; CSR_SEPC; CSR_SCAUSE; CSR_STVAL; CSR_SIP; CSR_SATP].
  change 0x106 with CSR_SCOUNTEREN. change 0x10a with CSR_SENVCFG.
  destruct (Z.leb_spec SBI_HART_PRIV_VER_1_10 f.(priv_version)), (Z.leb_spec SBI_HART_PRIV_VER_1_12 f.(priv_version));
    rewrite ?list_elem_of_singleton, ?elem_of_nil; intuition lia.
Qed.

Section Props.
Context {hw : Hw} (Hhw : hw_ok) (platform : Z -> bool) (f : sbi_hart_features) (me : nat) (hartid : Z) (alloc : nat -> bool).

(** A hart with plain memory protection and the supervisor's registers. *)
Class CtxPlatform := {
  feats : features_match f;
  no_smepmp : sbi_hart_has_extension f SBI_HART_EXT_SMEPMP = false;
  has_misa : hw_mask CSR_MISA <> None;
  has_pmp : (0 < hw_pmps)%nat;
  has_csrs : forall c, supervisor_csr f c -> is_Some (hw_mask c);
  me_index : Z.of_nat me < 128;
}.
Context {Hcp : CtxPlatform}.
Local Set Default Proof Using "Type".

(** ** Memory protection *)

Definition unlocked_cfgs (h : hart) : Prop := Forall (fun b => has b PMP_L = false) h.(pmpcfgs).

Lemma unlocked_entry h i : unlocked_cfgs h -> locked h i = false.
Proof.
  intros Hu. unfold locked, cfg_of. destruct (pmpcfgs h !! i) as [b|] eqn:E; simpl; [|done]. by rewrite (Forall_lookup_1 _ _ _ _ Hu E).
Qed.

Lemma disable_all_effect n : forall i h, hart_ok h -> unlocked_cfgs h -> 0 <= i -> i + Z.of_nat n <= Z.of_nat hw_pmps ->
  exists cfgs, disable_all n i h = Some (tt, Hart cfgs h.(pmpaddrs) h.(csrs)) /\ length cfgs = hw_pmps /\
    forall j, (Z.to_nat i <= j < Z.to_nat i + n)%nat \/ h.(pmpcfgs) !! j = Some 0 -> cfgs !! j = Some 0.
Proof using Hhw.
  induction n as [|n IH]; intros i h Hh Hu Hi Hn; [exists h.(pmpcfgs); destruct h; split; [done|]; split; [apply Hh|]; intros j [?|?]; [lia|done]|]. cbn [disable_all].
  rewrite (csr_bind _ _ _ _ _ (pmp_disable_effect h i Hhw Hh ltac:(lia) (unlocked_entry _ _ Hu))).
  destruct (IH (i + 1) (set_cfg h (Z.to_nat i) 0)) as (cfgs & E & Hl & Hz); try lia.
  - destruct Hh as (? & ? & ?). split_and!; cbn; [by rewrite length_insert|done|by apply Forall_insert].
  - by apply Forall_insert.
  - exists cfgs. split; [exact E|]. split; [done|]. intros j Hj. apply Hz. destruct Hh as (Hlen & _). cbn.
    destruct (decide (j = Z.to_nat i)) as [->|]; [right; apply list_lookup_insert_eq; lia|]. destruct Hj as [Hj|Hj]; [left; lia|right; by rewrite list_lookup_insert_ne].
Qed.

Lemma old_entry_ok r : cfg_ok (old_entry r) /\ has (old_entry r) PMP_L = has r.(flags) SBI_DOMAIN_MEMREGION_ENF_PERMISSIONS.
Proof.
  split.
  - unfold old_entry, entry_cfg. apply cfg_ok_land.
  - unfold old_entry. rewrite has_entry_cfg by (simpl; auto). unfold oldpmp_flags, orl. cbn [foldr]. rewrite !has_lor_l, !has_bit_if. cbn. by rewrite !andb_false_r, andb_true_r, !orb_false_r.
Qed.

(** The regions of a domain: the hardware can express all of them, and no entry
    would stay locked. *)
Definition regions_ok (d : ctx_domain) : Prop :=
  Forall region_wf (memregions d.(sdom)) /\ Forall hw_fits (memregions d.(sdom)) /\
  (length (memregions d.(sdom)) <= hw_pmps)%nat /\
  Forall (fun r => has r.(flags) SBI_DOMAIN_MEMREGION_ENF_PERMISSIONS = false) (memregions d.(sdom)).

(** A hart ready for a switch. *)
Definition pmp_ready (h : hart) : Prop := hart_ok h /\ unlocked_cfgs h /\ mml h = false.

(** The memory protection is that of the domain. *)
Definition enforces (d : ctx_domain) (h : hart) : Prop :=
  forall mode a k acc, mode = PRV_S \/ mode = PRV_U -> aligned_access a k ->
    pmp_check h mode a (2 ^ k) acc = domain_grants (memregions d.(sdom)) a mode acc.

Lemma pmp_switch d h : pmp_ready h -> regions_ok d ->
  exists h0 h', disable_all (Z.to_nat f.(pmp_count)) 0 h = Some (tt, h0) /\ sbi_hart_pmp_configure platform f (memregions d.(sdom)) h0 = Some (0, h') /\
    h'.(csrs) = h.(csrs) /\ pmp_ready h' /\ enforces d h'.
Proof using Hhw Hcp.
  intros (Hh & Hu & Hmml) (Hwf & Hfit & Hlen & Henf). pose proof feats as (Hcnt & _). pose proof has_pmp. rewrite Hcnt, Nat2Z.id.
  destruct (disable_all_effect hw_pmps 0 h Hh Hu) as (cfgs & E & Hl & Hz); [lia|lia|]. eexists _, _. split; [exact E|].
  assert (Forall (fun b => b = 0) cfgs) as Hall.
  { apply Forall_lookup. intros j b Hb. pose proof (lookup_lt_Some _ _ _ Hb). rewrite Hz in Hb by (left; lia). congruence. }
  assert (Forall fresh cfgs) as Hfr by (eapply Forall_impl; [exact Hall|]; by intros b ->).
  destruct Hh as (_ & Hla & _). set (h0 := Hart cfgs (pmpaddrs h) (csrs h)).
  assert (hart_ok h0) as Hh0 by (split; [done|]; split; [done|]; eapply Forall_impl; [exact Hall|]; by intros b ->).
  split; [apply (pmp_configure_old Hhw); try done; [apply feats|apply no_smepmp|apply has_misa]|]. fold (old_configured (memregions (sdom d)) h0).
  pose proof (programmed_all _ Hfit Hlen) as Ep. split; [done|]. split; [split; [|split; [|done]]|].
  - split; [cbn; rewrite Ep, length_app, length_map, length_drop; lia|]. split; [cbn; rewrite Ep, length_app, length_map, length_drop; lia|].
    cbn. apply Forall_app. split; [apply Forall_map, Forall_true; intros r; apply old_entry_ok|apply Forall_drop, Hh0].
  - unfold unlocked_cfgs. cbn. apply Forall_app. split.
    + rewrite Ep. apply Forall_map, Forall_forall. intros r Hr. cbn. rewrite (proj2 (old_entry_ok r)). rewrite Forall_forall in Henf. by apply Henf.
    + apply Forall_drop. eapply Forall_impl; [exact Hall|]. by intros b ->.
  - intros mode a k acc Hm Ha. fold h0. pose proof (old_configured_checks Hhw (memregions (sdom d)) h0 Hfr Hmml has_pmp Hwf mode a k acc Hm Ha) as E'. by rewrite Ep in E'.
Qed.

(** ** Registers *)

Definition mask_of (c : Z) : Z := default 0 (hw_mask c).

Lemma saved_plain c : c ∈ saved_csrs f -> is_pmpcfg c = false /\ is_pmpaddr c = false /\ (c =? CSR_MSECCFG) = false /\ (c =? CSR_MSTATUS) = false.
Proof.
  intros Hc. assert (c ∈ [CSR_SSTATUS; CSR_SIE; CSR_STVEC; CSR_SSCRATCH; CSR_SEPC; CSR_SCAUSE; CSR_STVAL; CSR_SIP; CSR_SATP; CSR_SCOUNTEREN; CSR_SENVCFG]) as H.
  { clear -Hc. unfold saved_csrs in Hc. set_unfold in Hc. set_unfold. destruct (SBI_HART_PRIV_VER_1_10 <=? _), (SBI_HART_PRIV_VER_1_12 <=? _); set_unfold in Hc; tauto. }
  clear Hc. revert c H. apply Forall_forall. repeat (constructor; [split_and!; reflexivity|]). constructor.
Qed.

Lemma saved_NoDup : NoDup (saved_csrs f).
Proof. unfold saved_csrs. destruct (SBI_HART_PRIV_VER_1_10 <=? _), (SBI_HART_PRIV_VER_1_12 <=? _); apply (bool_decide_unpack _); vm_compute; done. Qed.

Lemma swap_effect c v h : c ∈ saved_csrs f -> csr_swap c v h = Some (csr_val h c, set_csr h c (merge (mask_of c) (csr_val h c) v)).
Proof using Hcp.
  intros Hc. destruct (saved_plain c Hc) as (H1 & H2 & H3 & _). destruct (has_csrs c (proj1 (saved_supervisor f c) Hc)) as [m Hm]. unfold csr_swap, csr_read, csr_write, hw_read, hw_write, mask_of, mbind, csrM_bind.
  rewrite H1, H2, H3, Hm. done.
Qed.

(** The context [ctx] takes the registers of [l], the hart takes those of [dom_ctx]. *)
Lemma swap_csrs_effect l ctx dc : ctx <> dc -> NoDup l -> (forall c, c ∈ l -> c ∈ saved_csrs f) -> forall w,
  exists w', swap_csrs l ctx dc w = Some (tt, w') /\ w'.(domains) = w.(domains) /\ w'.(hartindex_to_domain) = w.(hartindex_to_domain) /\ w'.(trap_of) = w.(trap_of) /\
    w'.(next_alloc) = w.(next_alloc) /\ w'.(regs_of).(pmpcfgs) = w.(regs_of).(pmpcfgs) /\ w'.(regs_of).(pmpaddrs) = w.(regs_of).(pmpaddrs) /\
    (forall p, p <> ctx -> w'.(store) p = w.(store) p) /\
    (forall c, csr_val w'.(regs_of) c = if decide (c ∈ l) then merge (mask_of c) (csr_val w.(regs_of) c) ((w.(store) dc).(s_csr) c) else csr_val w.(regs_of) c) /\
    (let x := w.(store) ctx in let y := w'.(store) ctx in
     y.(trap_ctx) = x.(trap_ctx) /\ y.(dom) = x.(dom) /\ y.(prev_ctx) = x.(prev_ctx) /\ y.(initialized) = x.(initialized) /\
     forall c, y.(s_csr) c = if decide (c ∈ l) then csr_val w.(regs_of) c else x.(s_csr) c).
Proof using Hcp.
  intros Hne Hnd. induction Hnd as [|c l Hc Hnd IH]; intros Hsub w; [exists w; by split_and!|]. cbn [swap_csrs].
  set (v := s_csr (store w dc) c). set (w1 := upd_ctx ctx (set_s_csr c (csr_val (regs_of w) c)) (set_regs (set_csr (regs_of w) c (merge (mask_of c) (csr_val (regs_of w) c) v)) w)).
  assert ((w0 ← get; old ← on_regs (csr_swap c (s_csr (store w0 dc) c)); modify (upd_ctx ctx (set_s_csr c old));; swap_csrs l ctx dc) w = swap_csrs l ctx dc w1) as ->.
  { unfold get, on_regs, modify, mbind, ctxM_bind. fold v. rewrite swap_effect by (apply Hsub; left). done. }
  destruct (IH ltac:(intros c' Hc'; apply Hsub; by right) w1) as (w' & E & H1 & H2 & H3 & H4 & H5 & H6 & Hst & Hcsr & Hx). exists w'. split; [exact E|]. do 6 (split; [done|]).
  assert (store w1 ctx = set_s_csr c (csr_val (regs_of w) c) (store w ctx)) as Ectx by (cbn; apply fn_lookup_insert).
  assert (forall p, p <> ctx -> store w1 p = store w p) as Eo by (intros p Hp; cbn; by rewrite fn_lookup_insert_ne). split; [intros p Hp; by rewrite Hst, Eo|]. split.
  - intros c'. rewrite Hcsr, (Eo dc) by done. destruct (decide (c' = c)) as [->|Hcc].
    + rewrite decide_False, decide_True by (done || left). cbn [w1 regs_of upd_ctx set_regs]. apply csr_val_eq.
    + cbn [w1 regs_of upd_ctx set_regs]. rewrite (csr_val_ne _ c c') by done. by rewrite decide_cons_ne by done.
  - cbv zeta in Hx |- *. rewrite Ectx in Hx. destruct Hx as (X1 & X2 & X3 & X4 & Xc). do 4 (split; [done|]). intros c'. rewrite Xc. destruct (decide (c' = c)) as [->|Hcc].
    + rewrite decide_False, decide_True by (done || left). cbn. apply fn_lookup_insert.
    + cbn [w1 regs_of upd_ctx set_regs s_csr set_s_csr]. rewrite (csr_val_ne _ c c') by done. rewrite fn_lookup_insert_ne by done. by rewrite decide_cons_ne by done.
Qed.

(** ** A switch *)

Lemma enforces_eq d h h' : h'.(pmpcfgs) = h.(pmpcfgs) -> h'.(pmpaddrs) = h.(pmpaddrs) -> csr_val h' CSR_MSECCFG = csr_val h CSR_MSECCFG -> enforces d h -> enforces d h'.
Proof.
  intros E1 E2 E3 H mode a k acc Hm Ha. rewrite <- (H mode a k acc Hm Ha). unfold pmp_check, check_default, mml, mmwp. by rewrite E1, E2, E3.
Qed.

Lemma pmp_ready_eq h h' : h'.(pmpcfgs) = h.(pmpcfgs) -> h'.(pmpaddrs) = h.(pmpaddrs) -> csr_val h' CSR_MSECCFG = csr_val h CSR_MSECCFG -> pmp_ready h -> pmp_ready h'.
Proof. intros E1 E2 E3 (Hh & Hu & Hm). unfold pmp_ready, hart_ok, unlocked_cfgs, mml. by rewrite E1, E2, E3. Qed.

Lemma on_regs_step {A B} (m : csrM A) (g : A -> ctxM B) w x h : m w.(regs_of) = Some (x, h) -> (on_regs m ≫= g) w = g x (set_regs h w).
Proof. intros E. apply ctx_bind. unfold on_regs. by rewrite E. Qed.

(** What a switch from context [p] to context [q] leaves. *)
Definition switched (p q : nat) (w w' : ctx_world) (di dj : ctx_domain) : Prop :=
  let i := (w.(store) p).(dom) in let j := (w.(store) q).(dom) in
  (exists mi mj, w'.(domains) = <[j := set_assigned mj dj]> (<[i := set_assigned mi di]> w.(domains)) /\ mask_wf mi /\ mask_wf mj /\
     forall x, 0 <= x < 128 -> hart_in x mi = negb (x =? Z.of_nat me) && hart_in x di.(sdom).(assigned_harts) /\
                               hart_in x mj = (x =? Z.of_nat me) || hart_in x dj.(sdom).(assigned_harts)) /\
  w'.(hartindex_to_domain) = <[me := j]> w.(hartindex_to_domain) /\ w'.(trap_of) = (w.(store) q).(trap_ctx) /\ w'.(next_alloc) = w.(next_alloc) /\
  pmp_ready w'.(regs_of) /\ enforces dj w'.(regs_of) /\
  (forall c, csr_val w'.(regs_of) c = if decide (c ∈ saved_csrs f) then merge (mask_of c) (csr_val w.(regs_of) c) ((w.(store) q).(s_csr) c) else csr_val w.(regs_of) c) /\
  (forall r, r <> p -> w'.(store) r = w.(store) r) /\
  let y := w'.(store) p in
  y.(trap_ctx) = w.(trap_of) /\ y.(dom) = i /\ y.(prev_ctx) = (w.(store) p).(prev_ctx) /\ y.(initialized) = true /\
  forall c, c ∈ saved_csrs f -> y.(s_csr) c = csr_val w.(regs_of) c.

Lemma assign_effect g i w d m : w.(domains) !! i = Some d -> g d.(sdom).(assigned_harts) = Some m ->
  assign g i w = Some (tt, set_domains (<[i := set_assigned m d]> w.(domains)) w).
Proof. intros Hd Hm. unfold assign, get, need, modify, mbind, ctxM_bind. by rewrite Hd, Hm. Qed.

Lemma switch_effect p q w di dj : p <> q -> (w.(store) p).(dom) <> (w.(store) q).(dom) ->
  w.(domains) !! (w.(store) p).(dom) = Some di -> w.(domains) !! (w.(store) q).(dom) = Some dj ->
  mask_wf di.(sdom).(assigned_harts) -> mask_wf dj.(sdom).(assigned_harts) -> regions_ok dj -> pmp_ready w.(regs_of) -> (w.(store) q).(initialized) = true ->
  exists w', switch_to_next_domain_context platform f me hartid p q w = Some (None, w') /\ switched p q w w' di dj.
Proof using Hhw Hcp.
  intros Hpq Hij Hdi Hdj Hmi Hmj Hreg Hpmp Hini. set (i := dom (store w p)) in *. set (j := dom (store w q)) in *. unfold switch_to_next_domain_context.
  ctx_step. cbv zeta. fold i j.
  destruct (clear_hartindex_spec (assigned_harts (sdom di)) (Z.of_nat me) Hmi ltac:(lia)) as (mi & Emi & Hwi & Hini').
  rewrite (ctx_bind _ _ _ _ _ (assign_effect _ i w di mi Hdi Emi)).
  ctx_step. destruct (set_hartindex_spec (assigned_harts (sdom dj)) (Z.of_nat me) Hmj ltac:(lia)) as (mj & Emj & Hwj & Hinj).
  assert (<[i := set_assigned mi di]> (domains w) !! j = Some dj) as Hdj' by (by rewrite list_lookup_insert_ne).
  erewrite (ctx_bind (assign _ j)); [|apply (assign_effect _ j _ dj mj); [exact Hdj'|exact Emj]]. cbn [domains set_domain_of set_domains].
  destruct (pmp_switch dj w.(regs_of) Hpmp Hreg) as (h0 & h1 & E0 & E1 & Hcs & Hrd & Henf).
  rewrite (on_regs_step _ _ _ tt h0) by exact E0. ctx_step.
  erewrite (ctx_bind (need _) _ _ (set_assigned mj dj)).
  2: { unfold need. cbn. rewrite fn_lookup_insert, list_lookup_insert_eq; [done|]. rewrite length_insert. by apply lookup_lt_Some in Hdj. }
  rewrite (on_regs_step _ _ _ 0 h1) by exact E1.
  match goal with |- context [(swap_csrs _ _ _ ≫= _) ?x] => set (w2 := x) end.
  destruct (swap_csrs_effect (saved_csrs f) p q Hpq saved_NoDup (fun _ H => H) w2) as (w3 & E3 & S1 & S2 & S3 & S4 & S5 & S6 & Sst & Scsr & (X1 & X2 & X3 & X4 & Xc)).
  rewrite (ctx_bind _ _ _ _ _ E3). do 6 ctx_step.
  assert (store w3 q = store w q) as Eq by (rewrite Sst by done; reflexivity).
  match goal with |- context [initialized ?x] => assert (x = store w q) as -> end.
  { cbn. rewrite !fn_lookup_insert_ne by done. exact Eq. }
  rewrite Hini. eexists. split; [reflexivity|].
  assert (forall c, csr_val h1 c = csr_val (regs_of w) c) as Hval by (intros c; unfold csr_val; by rewrite Hcs).
  assert (csr_val (regs_of w3) CSR_MSECCFG = csr_val h1 CSR_MSECCFG) as Hsec.
  { rewrite Scsr. case_decide as Hin; [|done]. destruct (saved_plain _ Hin) as (_ & _ & ? & _). done. }
  unfold switched. cbv zeta. split_and!.
  - exists mi, mj. split; [cbn; by rewrite S1|]. split; [done|]. split; [done|]. intros x Hx. by rewrite Hini', Hinj.
  - cbn. by rewrite S2.
  - cbn. rewrite fn_lookup_insert_ne by done. by rewrite Eq.
  - cbn. by rewrite S4.
  - by apply (pmp_ready_eq h1).
  - by apply (enforces_eq dj h1).
  - intros c. cbn. rewrite Scsr. cbn [w2 regs_of set_regs store set_domains set_domain_of]. by rewrite Hval.
  - intros r Hr. cbn. rewrite !fn_lookup_insert_ne by done. by rewrite Sst.
  - cbn. rewrite fn_lookup_insert. cbn. rewrite fn_lookup_insert. cbn. by rewrite S3.
  - cbn. rewrite fn_lookup_insert. cbn. rewrite fn_lookup_insert. cbn. by rewrite X2.
  - cbn. rewrite fn_lookup_insert. cbn. rewrite fn_lookup_insert. cbn. by rewrite X3.
  - cbn. by rewrite fn_lookup_insert.
  - intros c Hc. cbn. rewrite fn_lookup_insert. cbn. rewrite fn_lookup_insert. cbn. rewrite Xc, decide_True by done. apply Hval.
Qed.

(** ** There and back *)

(** The bits of register [c] that cannot be written are the same. *)
Definition same_fixed (c x y : Z) : Prop := forall n, 0 <= n -> Z.testbit (mask_of c) n = false -> Z.testbit x n = Z.testbit y n.

Lemma merge_same c x y : same_fixed c x y -> merge (mask_of c) x y = y.
Proof. intros H. apply Z.bits_inj'. intros n Hn. rewrite merge_bit by done. destruct (Z.testbit (mask_of c) n) eqn:E; [done|by apply H]. Qed.

Lemma merge_fixed c x y : same_fixed c (merge (mask_of c) x y) x.
Proof. intros n Hn E. by rewrite merge_bit, E by done. Qed.

(** The context of this hart in domain [i]. *)
Definition has_context (w : ctx_world) (i : nat) (d : ctx_domain) (p : nat) : Prop :=
  w.(domains) !! i = Some d /\ hart_context_get d me = Some p /\ (w.(store) p).(dom) = i /\ mask_wf d.(sdom).(assigned_harts) /\ regions_ok d.

(** The hart runs in domain [i]. *)
Definition runs_in (w : ctx_world) (i : nat) (d : ctx_domain) (p : nat) : Prop :=
  has_context w i d p /\ w.(hartindex_to_domain) me = i /\ hart_in (Z.of_nat me) d.(sdom).(assigned_harts) = true /\ pmp_ready w.(regs_of).

Lemma this_context w i d p : w.(domains) !! i = Some d -> hart_context_get d me = Some p -> w.(hartindex_to_domain) me = i ->
  hart_context_thishart_get me w = Some (Some p, w).
Proof. intros H1 H2 H3. unfold hart_context_thishart_get, get, need, mbind, ctxM_bind. by rewrite H3, H1, <- H2. Qed.

Lemma enter_effect w i j di dj p q : runs_in w i di p -> has_context w j dj q -> i <> j -> (w.(store) q).(initialized) = true ->
  exists w', sbi_domain_context_enter platform f me hartid j w = Some (Returns 0, w') /\ switched p q (upd_ctx q (set_prev (Some p)) w) w' di dj.
Proof using Hhw Hcp.
  intros ((Hdi & Hgi & Hpi & Hmi & Hri) & Hcur & Hin & Hpmp) (Hdj & Hgj & Hqj & Hmj & Hrj) Hij Hini. assert (p <> q) as Hpq by congruence. unfold sbi_domain_context_enter.
  rewrite (ctx_bind _ _ _ _ _ (this_context w i di p Hdi Hgi Hcur)). ctx_step. erewrite ctx_bind; [|unfold need; rewrite Hdj; reflexivity]. rewrite Hgj. do 2 ctx_step.
  set (w1 := upd_ctx q (set_prev (Some p)) w). assert (store w1 q = set_prev (Some p) (store w q)) as Eq by (cbn; apply fn_lookup_insert).
  assert (store w1 p = store w p) as Ep by (cbn; by rewrite fn_lookup_insert_ne).
  destruct (switch_effect p q w1 di dj Hpq) as (w' & E & Hsw); rewrite ?Eq, ?Ep; cbn [dom set_prev initialized]; rewrite ?Hpi, ?Hqj; try done.
  exists w'. split; [|exact Hsw]. rewrite (ctx_bind _ _ _ _ _ E). done.
Qed.

Lemma exit_effect w i j di dj p q d0 : runs_in w j dj q -> has_context w i di p -> i <> j -> (w.(store) q).(prev_ctx) = Some p -> (w.(store) p).(initialized) = true ->
  w.(domains) !! 0%nat = Some d0 -> exists w', sbi_domain_context_exit platform f me hartid alloc w = Some (Returns 0, w') /\ switched q p w w' dj di.
Proof using Hhw Hcp.
  intros ((Hdj & Hgj & Hqj & Hmj & Hrj) & Hcur & Hin & Hpmp) (Hdi & Hgi & Hpi & Hmi & Hri) Hij Hprev Hini H0. assert (q <> p) as Hpq by congruence. unfold sbi_domain_context_exit.
  rewrite (ctx_bind _ _ _ _ _ (this_context w j dj q Hdj Hgj Hcur)). ctx_step. cbn [negb]. do 3 ctx_step. rewrite Hprev. cbv zeta.
  erewrite ctx_bind; [|unfold need; rewrite H0; reflexivity]. ctx_step.
  destruct (switch_effect q p w dj di Hpq) as (w' & E & Hsw); rewrite ?Hpi, ?Hqj; try done. exists w'. split; [|exact Hsw]. rewrite (ctx_bind _ _ _ _ _ E). done.
Qed.

(** What the supervisor of the other domain can do before it leaves: change the
    bits of its registers that can be written, and make a trap. *)
Definition ran (w w' : ctx_world) : Prop :=
  exists h t, w' = set_trap t (set_regs h w) /\ h.(pmpcfgs) = w.(regs_of).(pmpcfgs) /\ h.(pmpaddrs) = w.(regs_of).(pmpaddrs) /\
    csr_val h CSR_MSECCFG = csr_val w.(regs_of) CSR_MSECCFG /\ forall c, supervisor_csr f c -> same_fixed c (csr_val h c) (csr_val w.(regs_of) c).

(** The same harts are assigned to each domain. *)
Definition same_assignment (w w' : ctx_world) : Prop :=
  (forall x, w'.(hartindex_to_domain) x = w.(hartindex_to_domain) x) /\
  forall k d, w.(domains) !! k = Some d -> exists d', w'.(domains) !! k = Some d' /\ d' = set_assigned d'.(sdom).(assigned_harts) d /\
    forall x, 0 <= x < 128 -> hart_in x d'.(sdom).(assigned_harts) = hart_in x d.(sdom).(assigned_harts).

Lemma set_assigned_twice m m' d : set_assigned m (set_assigned m' d) = set_assigned m d.
Proof. done. Qed.

Lemma set_assigned_self d : set_assigned d.(sdom).(assigned_harts) d = d.
Proof. by destruct d as [[] ? ?]. Qed.

(** After a switch the hart runs in the other domain, and its old context is ready
    to come back to. *)
Lemma switched_runs p q w w' i j di dj : switched p q w w' di dj -> (w.(store) p).(dom) = i -> (w.(store) q).(dom) = j -> i <> j ->
  has_context w i di p -> has_context w j dj q ->
  exists mi mj, w'.(domains) = <[j := set_assigned mj dj]> (<[i := set_assigned mi di]> w.(domains)) /\
    (forall x, 0 <= x < 128 -> hart_in x mi = negb (x =? Z.of_nat me) && hart_in x di.(sdom).(assigned_harts) /\ hart_in x mj = (x =? Z.of_nat me) || hart_in x dj.(sdom).(assigned_harts)) /\
    runs_in w' j (set_assigned mj dj) q /\ has_context w' i (set_assigned mi di) p.
Proof using Hcp.
  intros ((mi & mj & Hd & Hwi & Hwj & Hm) & Ht & _ & _ & Hrd & _ & _ & Hst & _ & Hpd & _) Hpi Hqj Hij (Hdi & Hgi & _ & _ & Hri) (Hdj & Hgj & _ & _ & Hrj). rewrite Hpi, Hqj in *.
  assert (p <> q) as Hpq by congruence. exists mi, mj. split; [done|]. split; [done|]. pose proof me_index.
  assert (domains w' !! j = Some (set_assigned mj dj)) as Ej by (rewrite Hd, list_lookup_insert_eq; [done|rewrite length_insert; by apply lookup_lt_Some in Hdj]).
  assert (domains w' !! i = Some (set_assigned mi di)) as Ei by (rewrite Hd, list_lookup_insert_ne, list_lookup_insert_eq by (done || by apply lookup_lt_Some in Hdi); done).
  split; [split; [split; [done|]; split; [done|]; split; [by rewrite Hst|done]|]|split; [done|]; split; [done|]; split; [done|done]].
  split; [rewrite Ht; apply fn_lookup_insert|]. split; [|done]. cbn. rewrite (proj2 (Hm (Z.of_nat me) ltac:(lia))). by rewrite Z.eqb_refl.
Qed.

(** C29: A hart that enters another domain and later leaves it finds its own domain
    as it left it.  Entering makes the memory protection that of the other domain
    and gives the hart the registers and the trap state saved there.  Whatever the
    other supervisor then does to its registers, leaving brings back the supervisor
    registers sstatus, sie, stvec, sscratch, sepc, scause, stval, sip and satp
    (and scounteren and senvcfg where the hart has them), the trap state, the memory
    protection of the first domain and the assignment of harts to domains, and keeps
    the state of the other supervisor in its context for the next time.
    Conditions: a hart without Smepmp whose entries can express the regions of both
    domains and with no locked entry ([CtxPlatform], [regions_ok]); both domains
    have a context for the hart, the other one has run before, and it is not the
    hart's own domain ([enter_own_domain_loads_stale_registers] shows what happens
    there).  Other registers (stimecmp, floating point, vector) are not exchanged by
    the code and are not claimed. *)
Theorem domain_enter_exit_roundtrip w i j di dj p q d0 : runs_in w i di p -> has_context w j dj q -> i <> j ->
  hart_in (Z.of_nat me) dj.(sdom).(assigned_harts) = false -> (w.(store) q).(initialized) = true -> w.(domains) !! 0%nat = Some d0 ->
  exists w1, sbi_domain_context_enter platform f me hartid j w = Some (Returns 0, w1) /\
    w1.(hartindex_to_domain) me = j /\ enforces dj w1.(regs_of) /\ w1.(trap_of) = (w.(store) q).(trap_ctx) /\
    (forall c, supervisor_csr f c -> csr_val w1.(regs_of) c = merge (mask_of c) (csr_val w.(regs_of) c) ((w.(store) q).(s_csr) c)) /\
    forall w1', ran w1 w1' -> exists w2, sbi_domain_context_exit platform f me hartid alloc w1' = Some (Returns 0, w2) /\
      (forall c, supervisor_csr f c -> csr_val w2.(regs_of) c = csr_val w.(regs_of) c) /\ w2.(trap_of) = w.(trap_of) /\ enforces di w2.(regs_of) /\ same_assignment w w2 /\
      (w2.(store) q).(trap_ctx) = w1'.(trap_of) /\ (w2.(store) q).(initialized) = true /\ forall c, supervisor_csr f c -> (w2.(store) q).(s_csr) c = csr_val w1'.(regs_of) c.
Proof using Hhw Hcp.
  intros Hrun Hq Hij Hnot Hini H0. setoid_rewrite <- (saved_supervisor f). destruct (enter_effect w i j di dj p q Hrun Hq Hij Hini) as (w1 & E1 & Hsw). pose proof Hrun as (Hp & Hcur & Hin & _). pose proof Hp as (Hdi & _ & Hpi & _). pose proof Hq as (Hdj & _ & Hqj & _).
  assert (p <> q) as Hpq by congruence. set (w0 := upd_ctx q (set_prev (Some p)) w) in *. assert (store w0 q = set_prev (Some p) (store w q)) as Eq by (cbn; apply fn_lookup_insert).
  assert (store w0 p = store w p) as Ep by (cbn; by rewrite fn_lookup_insert_ne). assert (has_context w0 i di p) as Hp0 by (unfold has_context; rewrite Ep; exact Hp).
  assert (has_context w0 j dj q) as Hq0 by (unfold has_context; rewrite Eq; exact Hq).
  destruct (switched_runs p q w0 w1 i j di dj Hsw) as (mi & mj & Hd1 & Hm & Hrun1 & Hp1); [by rewrite Ep|by rewrite Eq|done..|]. exists w1. split; [exact E1|].
  destruct Hsw as (_ & Hix & Htr & _ & _ & Henf & Hcsr & Hst & Hy1 & _ & _ & Hy4 & Hyc). rewrite Eq in Htr, Hcsr, Hix. cbn [trap_ctx set_prev s_csr dom] in Htr, Hcsr, Hix. split; [apply Hrun1|]. split; [done|]. split; [done|].
  split; [intros c Hc; by rewrite Hcsr, decide_True|]. intros w1' (h & t & -> & R1 & R2 & R3 & R4). set (w1' := set_trap t (set_regs h w1)).
  assert (runs_in w1' j (set_assigned mj dj) q) as Hrun1' by (destruct Hrun1 as (? & ? & ? & Hr); do 3 (split; [done|]); by apply (pmp_ready_eq (regs_of w1))).
  assert (is_Some (domains w1' !! 0%nat)) as [d0' H0'] by (cbn; rewrite Hd1; apply lookup_lt_is_Some; rewrite !length_insert; by apply lookup_lt_Some in H0).
  assert (prev_ctx (store w1' q) = Some p) as Hprev by (cbn; rewrite Hst by done; by rewrite Eq).
  destruct (exit_effect w1' i j (set_assigned mi di) (set_assigned mj dj) p q d0' Hrun1' Hp1 Hij Hprev Hy4 H0') as (w2 & E2 & Hsw2). exists w2. split; [exact E2|].
  destruct (switched_runs q p w1' w2 j i _ _ Hsw2) as (mj2 & mi2 & Hd2 & Hm2 & _ & _); [apply Hrun1'|apply Hp1|done|apply Hrun1'|exact Hp1|].
  destruct Hsw2 as (_ & Ht2 & Htr2 & _ & _ & Henf2 & Hcsr2 & Hst2 & Hz1 & _ & _ & Hz4 & Hzc). split_and!.
  - intros c Hc. rewrite Hcsr2, decide_True by done. cbn [w1' regs_of set_trap set_regs store]. rewrite Hyc by done. apply merge_same. intros n Hn Hb. rewrite (R4 c (proj1 (saved_supervisor f c) Hc) n Hn Hb).
    rewrite Hcsr, decide_True by done. by apply merge_fixed.
  - rewrite Htr2. exact Hy1.
  - exact Henf2.
  - split.
    + intros x. rewrite Ht2. destruct Hp1 as (_ & _ & Hpd & _). change (dom (store w1' p)) with (dom (store w1 p)). rewrite Hpd. destruct (decide (x = me)) as [->|]; [by rewrite fn_lookup_insert|].
      rewrite fn_lookup_insert_ne by done. cbn. rewrite Hix. by rewrite fn_lookup_insert_ne.
    + intros k d Hk. rewrite Hd2. cbn [w1' domains set_trap set_regs]. rewrite Hd1. cbn [w0 domains upd_ctx]. pose proof (lookup_lt_Some _ _ _ Hk). destruct (decide (k = i)) as [->|]; [|destruct (decide (k = j)) as [->|]].
      * assert (d = di) as -> by congruence. rewrite list_lookup_insert_eq by (rewrite !length_insert; done). eexists. split; [done|]. split; [done|]. intros x Hx.
        cbn. rewrite (proj2 (Hm2 x Hx)). cbn. rewrite (proj1 (Hm x Hx)). destruct (Z.eqb_spec x (Z.of_nat me)) as [->|]; [by rewrite Hin|done].
      * assert (d = dj) as -> by congruence. rewrite list_lookup_insert_ne, list_lookup_insert_eq by (done || rewrite !length_insert; done). eexists. split; [done|]. split; [done|]. intros x Hx.
        cbn. rewrite (proj1 (Hm2 x Hx)). cbn. rewrite (proj2 (Hm x Hx)). destruct (Z.eqb_spec x (Z.of_nat me)) as [->|]; [by rewrite Hnot|done].
      * rewrite !list_lookup_insert_ne by done. exists d. split; [done|]. split; [by rewrite set_assigned_self|done].
  - exact Hz1.
  - exact Hz4.
  - exact Hzc.
Qed.
End Props.

(** ** An example *)

Definition demo_root : ctx_domain := CtxDomain (Dom [1; 0] (Some [1; 0]) (Some regs16) 0 0x80200000 PRV_S true) 0 (Some (Some 0%nat :: replicate 127 None)).
Definition demo_other : ctx_domain := CtxDomain (Dom [0; 0] (Some [1; 0]) (Some [Region 64 0 0x38]) 0 0x80400000 PRV_S true) 1 (Some (Some 1%nat :: replicate 127 None)).

(** Hart 0 runs in the root domain; the other domain has run before. *)
Definition demo_ctx_world : ctx_world :=
  CtxWorld [demo_root; demo_other] (fun _ => 0%nat)
    (fun p => if decide (p = 0%nat) then Ctx [] (fun _ => 0) 0 None true else Ctx [5] (fun c => if c =? CSR_SSCRATCH then 9 else 0) 1 None true)
    2 (set_csr hart16 CSR_SSCRATCH 7) [3].

Lemma demo_ctx_platform : @CtxPlatform (hw16 10) (features16 10 0) 0.
Proof. constructor; [split_and!; reflexivity|reflexivity|discriminate|cbn; lia|intros c _; by eexists|lia]. Qed.

Lemma demo_context i d p : [(0%nat, demo_root, 0%nat); (1%nat, demo_other, 1%nat)] !! i = Some (i, d, p) -> @has_context (hw16 10) 0 demo_ctx_world i d p.
Proof.
  intros H. destruct i as [|[|]]; [| |done]; injection H as <- <-; (split; [done|]; split; [done|]; split; [done|]; split; [split; [done|repeat constructor; done]|]);
    (split; [repeat constructor; try done; vm_compute; congruence|]); (split; [repeat constructor; vm_compute; congruence|]);
    (split; [cbn; lia|]); repeat constructor; done.
Qed.

Lemma domain_enter_exit_roundtrip_witness : exists w1 w2,
  @sbi_domain_context_enter (hw16 10) (fun _ => true) (features16 10 0) 0 0 1 demo_ctx_world = Some (Returns 0, w1) /\ w1.(trap_of) = [5] /\
  @sbi_domain_context_exit (hw16 10) (fun _ => true) (features16 10 0) 0 0 (fun _ => true) (set_trap [8] w1) = Some (Returns 0, w2) /\
  csr_val w2.(regs_of) CSR_SSCRATCH = 7 /\ w2.(trap_of) = [3].
Proof.
  destruct (@domain_enter_exit_roundtrip (hw16 10) (hw16_ok 10 ltac:(lia)) (fun _ => true) (features16 10 0) 0 0 (fun _ => true) demo_ctx_platform
    demo_ctx_world 0 1 demo_root demo_other 0 1 demo_root) as (w1 & E1 & _ & _ & Ht & _ & Hback).
  - split; [by apply demo_context|]. split; [done|]. split; [done|]. split; [apply hart16_ok|]. split; [repeat constructor|done].
  - by apply demo_context.
  - done.
  - done.
  - done.
  - done.
  - destruct (Hback (set_trap [8] w1)) as (w2 & E2 & Hcsr & Ht2 & _); [exists w1.(regs_of), [8]; split; [reflexivity|]; do 3 (split; [reflexivity|]); intros c _ n _ _; reflexivity|].
    exists w1, w2. split; [exact E1|]. split; [exact Ht|]. split; [exact E2|]. split; [|exact Ht2].
    rewrite Hcsr; [apply csr_val_eq|]. left. right. right. right. left.
Defined.

(** Entering the domain the hart already runs in is not refused: the registers are
    exchanged with the ones saved when the domain was left the last time. *)
Theorem enter_own_domain_loads_stale_registers : exists w,
  @sbi_domain_context_enter (hw16 10) (fun _ => true) (features16 10 0) 0 0 0 demo_ctx_world = Some (Returns 0, w) /\
  csr_val demo_ctx_world.(regs_of) CSR_SSCRATCH = 7 /\ csr_val w.(regs_of) CSR_SSCRATCH = 0.
Proof.
  destruct (@sbi_domain_context_enter (hw16 10) (fun _ => true) (features16 10 0) 0 0 0 demo_ctx_world) as [[o w]|] eqn:E.
  - exists w. assert ((fun x : option (ctx_outcome * ctx_world) => (fun '(o, w) => (o, csr_val w.(regs_of) CSR_SSCRATCH)) <$> x) (Some (o, w)) = Some (Returns 0, 0)) as H by (rewrite <- E; vm_compute; reflexivity).
    injection H as -> Hw. split; [reflexivity|]. split; [apply csr_val_eq|exact Hw].
  - exfalso. assert ((fun x : option (ctx_outcome * ctx_world) => (fun '(o, w) => o) <$> x) None = Some (Returns 0)) as H by (rewrite <- E; vm_compute; reflexivity). discriminate H.
Qed.
