(* ===== verification/DomainData.v ===== *)
(** * Data of domains (lib/sbi/sbi_domain_data.c)

    A part of the firmware registers a kind of data; every domain then has a block
    of it, found through an index.  A kind of data is a number: its descriptor
    gives its size and its callbacks.  [alloc n] says whether allocation number [n]
    succeeds; a block is the number of its allocation.  [None] is an access outside
    an array, or a block that is freed twice. *)

From S2P Require Import Prelude SbiTypes Bitops.

Local Open Scope Z_scope.

Definition SBI_DOMAIN_MAX_DATA_PTRS : Z := 32.

(** [data_setup] is given the domain and the block and returns a code;
    [data_cleanup] says whether there is a callback. *)
Record sbi_domain_data := DomainData { data_size : Z; data_setup : option (nat -> nat -> Z); data_cleanup : bool }.

(** [dom_ptrs] is [idx_to_data_ptr] of each domain, in the order of the domains;
    [data_idx] is the field of each descriptor; [cleaned] are the calls of the
    cleanup callbacks, the last one first. *)
Record data_sys := DataSys {
  data_list : list nat; data_idx : nat -> Z; data_idx_bmap : Z; dom_ptrs : list (list (option nat));
  live : gset nat; attempts : nat; cleaned : list (nat * nat * nat) }.

Definition set_ptrs (l : list (list (option nat))) (s : data_sys) : data_sys :=
  DataSys s.(data_list) s.(data_idx) s.(data_idx_bmap) l s.(live) s.(attempts) s.(cleaned).
Definition set_live (l : gset nat) (s : data_sys) : data_sys :=
  DataSys s.(data_list) s.(data_idx) s.(data_idx_bmap) s.(dom_ptrs) l s.(attempts) s.(cleaned).

Definition bitmap_test (bmap i : Z) : bool := Z.testbit bmap i.
Definition bitmap_set (bmap i : Z) : Z := Z.lor bmap (Z.shiftl 1 i).
Definition bitmap_clear (bmap i : Z) : Z := Z.land bmap (not64 (Z.shiftl 1 i)).

Section Data.
Context (desc : nat -> sbi_domain_data) (alloc : nat -> bool).

Definition sbi_zalloc (s : data_sys) : option nat * data_sys :=
  let n := s.(attempts) in
  if alloc n then (Some n, DataSys s.(data_list) s.(data_idx) s.(data_idx_bmap) s.(dom_ptrs) ({[n]} ∪ s.(live)) (S n) s.(cleaned))
  else (None, DataSys s.(data_list) s.(data_idx) s.(data_idx_bmap) s.(dom_ptrs) s.(live) (S n) s.(cleaned)).

Definition sbi_free (p : nat) (s : data_sys) : option data_sys :=
  if decide (p ∈ s.(live)) then Some (set_live (s.(live) ∖ {[p]}) s) else None.

(** A place in [idx_to_data_ptr]. *)
Definition slot (d : nat) (i : Z) (s : data_sys) : option (option nat) := row ← s.(dom_ptrs) !! d; row !! Z.to_nat i.
Definition set_slot (d : nat) (i : Z) (v : option nat) (s : data_sys) : data_sys := set_ptrs (alter (insert (Z.to_nat i) v) d s.(dom_ptrs)) s.

Definition sbi_domain_data_ptr (d x : option nat) (s : data_sys) : option (option nat) :=
  match d, x with
  | Some d, Some x => if s.(data_idx) x <? SBI_DOMAIN_MAX_DATA_PTRS then slot d (s.(data_idx) x) s else Some None
  | _, _ => Some None
  end.

Definition domain_cleanup_data_one (d x : nat) (s : data_sys) : option data_sys :=
  v ← slot d (s.(data_idx) x) s;
  match v with
  | None => Some s
  | Some p =>
      let s := if (desc x).(data_cleanup) then DataSys s.(data_list) s.(data_idx) s.(data_idx_bmap) s.(dom_ptrs) s.(live) s.(attempts) ((d, x, p) :: s.(cleaned)) else s in
      s ← sbi_free p s;
      Some (set_slot d (s.(data_idx) x) None s)
  end.

Fixpoint cleanup_list (d : nat) (l : list nat) (s : data_sys) : option data_sys :=
  match l with [] => Some s | x :: l => s ← domain_cleanup_data_one d x s; cleanup_list d l s end.

Definition sbi_domain_cleanup_data (d : option nat) (s : data_sys) : option data_sys :=
  match d with None => Some s | Some d => cleanup_list d s.(data_list) s end.

Definition domain_setup_data_one (d x : nat) (s : data_sys) : option (Z * data_sys) :=
  v ← slot d (s.(data_idx) x) s;
  match v with
  | Some _ => Some (SBI_EALREADY, s)
  | None =>
      let '(p, s) := sbi_zalloc s in
      match p with
      | None => s ← sbi_domain_cleanup_data (Some d) s; Some (SBI_ENOMEM, s)
      | Some p =>
          let rc := match (desc x).(data_setup) with Some setup => setup d p | None => 0 end in
          if negb (rc =? 0) then s ← sbi_free p s; Some (rc, s)
          else Some (0, set_slot d (s.(data_idx) x) (Some p) s)
      end
  end.

Fixpoint setup_list (d : nat) (l : list nat) (s : data_sys) : option (Z * data_sys) :=
  match l with
  | [] => Some (0, s)
  | x :: l =>
      '(rc, s) ← domain_setup_data_one d x s;
      if negb (rc =? 0) then s ← sbi_domain_cleanup_data (Some d) s; Some (rc, s) else setup_list d l s
  end.

Definition sbi_domain_setup_data (d : option nat) (s : data_sys) : option (Z * data_sys) :=
  match d with None => Some (SBI_EINVAL, s) | Some d => setup_list d s.(data_list) s end.

Fixpoint cleanup_domains (ds : list nat) (x : nat) (s : data_sys) : option data_sys :=
  match ds with [] => Some s | d :: ds => s ← domain_cleanup_data_one d x s; cleanup_domains ds x s end.

(** [sbi_list_del] takes the entry out of the list it is in. *)
Definition sbi_domain_unregister_data (x : nat) (s : data_sys) : option data_sys :=
  s ← cleanup_domains (seq 0 (length s.(dom_ptrs))) x s;
  Some (DataSys (filter (fun y => y <> x) s.(data_list)) s.(data_idx) (bitmap_clear s.(data_idx_bmap) (s.(data_idx) x)) s.(dom_ptrs) s.(live) s.(attempts) s.(cleaned)).

(** [for (data_idx = 0; ...)]: the first index that is not in use, from [i] on. *)
Fixpoint free_idx (n : nat) (bmap i : Z) : Z :=
  match n with O => i | S n => if negb (bitmap_test bmap i) then i else free_idx n bmap (i + 1) end.

Fixpoint setup_domains (ds : list nat) (x : nat) (s : data_sys) : option (Z * data_sys) :=
  match ds with
  | [] => Some (0, s)
  | d :: ds =>
      '(rc, s) ← domain_setup_data_one d x s;
      if negb (rc =? 0) then s ← sbi_domain_unregister_data x s; Some (rc, s) else setup_domains ds x s
  end.

Definition sbi_domain_register_data (x : option nat) (s : data_sys) : option (Z * data_sys) :=
  match x with
  | None => Some (SBI_EINVAL, s)
  | Some x =>
      if (desc x).(data_size) =? 0 then Some (SBI_EINVAL, s)
      else
        let i := free_idx 32 s.(data_idx_bmap) 0 in
        if SBI_DOMAIN_MAX_DATA_PTRS <=? i then Some (SBI_ENOSPC, s)
        else
          setup_domains (seq 0 (length s.(dom_ptrs))) x
            (DataSys (s.(data_list) ++ [x]) (<[x := i]> s.(data_idx)) (bitmap_set s.(data_idx_bmap) i) s.(dom_ptrs) s.(live) s.(attempts) s.(cleaned))
  end.
End Data.

(** ** Properties *)

(** A place that exists. *)
Definition place (d : nat) (i : Z) (s : data_sys) : Prop := (d < length s.(dom_ptrs))%nat /\ 0 <= i < 32.

(** Blocks and places belong together one to one: nothing is leaked, nothing is
    used after it was freed. *)
Record blocks_ok (s : data_sys) : Prop := BlocksOk {
  rows_ok : Forall (fun row => length row = 32%nat) s.(dom_ptrs);
  held_live : forall d i p, 0 <= i -> slot d i s = Some (Some p) -> p ∈ s.(live);
  held_once : forall d i d' i' p, 0 <= i -> 0 <= i' -> slot d i s = Some (Some p) -> slot d' i' s = Some (Some p) -> d = d' /\ i = i';
  live_held : forall p, p ∈ s.(live) -> exists d i, place d i s /\ slot d i s = Some (Some p);
  live_old : forall p, p ∈ s.(live) -> (p < s.(attempts))%nat;
}.

(** The registered kinds of data have indices of their own, which the bitmap marks,
    and only they have blocks. *)
Record kinds_ok (s : data_sys) : Prop := KindsOk {
  kinds_nodup : NoDup s.(data_list);
  kinds_range : forall x, x ∈ s.(data_list) -> 0 <= s.(data_idx) x < 32;
  kinds_inj : forall x y, x ∈ s.(data_list) -> y ∈ s.(data_list) -> s.(data_idx) x = s.(data_idx) y -> x = y;
  kinds_bits : forall i, 0 <= i < 32 -> bitmap_test s.(data_idx_bmap) i = true <-> exists x, x ∈ s.(data_list) /\ s.(data_idx) x = i;
  kinds_held : forall d i p, 0 <= i -> slot d i s = Some (Some p) -> exists x, x ∈ s.(data_list) /\ s.(data_idx) x = i;
}.

Definition data_inv (s : data_sys) : Prop := blocks_ok s /\ kinds_ok s.

Lemma slot_place d i s : blocks_ok s -> place d i s -> is_Some (slot d i s).
Proof.
  intros [Hr _ _ _ _] [Hd Hi]. unfold slot. destruct (lookup_lt_is_Some_2 _ _ Hd) as [row Hrow]. rewrite Hrow. cbn. apply lookup_lt_is_Some.
  rewrite (Forall_lookup_1 _ _ _ _ Hr Hrow). lia.
Qed.

Lemma slot_set_eq d i v s : is_Some (slot d i s) -> slot d i (set_slot d i v s) = Some v.
Proof.
  unfold slot, set_slot. cbn. destruct (dom_ptrs s !! d) as [row|] eqn:E; cbn; [|by intros []]. intros Hs. rewrite list_lookup_alter_eq, E. cbn. apply list_lookup_insert_eq. by apply lookup_lt_is_Some.
Qed.

Lemma slot_set_ne d i d' i' v s : 0 <= i -> 0 <= i' -> (d, i) <> (d', i') -> slot d' i' (set_slot d i v s) = slot d' i' s.
Proof.
  intros Hi Hi' Hne. unfold slot, set_slot. cbn. destruct (decide (d = d')) as [->|].
  - rewrite list_lookup_alter_eq. destruct (dom_ptrs s !! d') as [row|]; [|done]. cbn. apply list_lookup_insert_ne. assert (i <> i') by congruence. lia.
  - by rewrite list_lookup_alter_ne.
Qed.

Lemma rows_set d i v s : Forall (fun row : list (option nat) => length row = 32%nat) s.(dom_ptrs) -> Forall (fun row : list (option nat) => length row = 32%nat) (set_slot d i v s).(dom_ptrs).
Proof. intros H. cbn. apply Forall_alter; [done|]. intros row Hrow Hl. by rewrite length_insert. Qed.

Lemma length_set d i v s : length (set_slot d i v s).(dom_ptrs) = length s.(dom_ptrs).
Proof. cbn. apply length_alter. Qed.

Lemma blocks_fill d i p s : blocks_ok s -> place d i s -> slot d i s = Some None -> (p < s.(attempts))%nat -> p ∉ s.(live) -> blocks_ok (set_slot d i (Some p) (set_live ({[p]} ∪ s.(live)) s)).
Proof.
  intros Hb Hpl Hs Hp Hn. pose proof Hb as [Hr H1 H2 H3 H4]. set (s1 := set_live _ s). assert (forall d i, slot d i s1 = slot d i s) as E by done.
  assert (slot d i (set_slot d i (Some p) s1) = Some (Some p)) as Heq by (apply slot_set_eq; rewrite E, Hs; by eexists).
  assert (forall d' i', 0 <= i' -> (d, i) <> (d', i') -> slot d' i' (set_slot d i (Some p) s1) = slot d' i' s) as Hne by (intros; rewrite slot_set_ne; [done|apply Hpl|done..]). split.
  - by apply rows_set.
  - intros d' i' p' Hi' H. destruct (decide ((d, i) = (d', i'))) as [[= <- <-]|N]; [rewrite Heq in H; injection H as <-; set_solver|].
    rewrite Hne in H by done. apply elem_of_union_r. by apply (H1 d' i').
  - intros d1 i1 d2 i2 q Hi1 Hi2 Hq1 Hq2. destruct (decide ((d, i) = (d1, i1))) as [[= <- <-]|N1], (decide ((d, i) = (d2, i2))) as [[= <- <-]|N2]; try done.
    + rewrite Heq in Hq1. injection Hq1 as <-. rewrite Hne in Hq2 by done. destruct Hn. by apply (H1 d2 i2).
    + rewrite Heq in Hq2. injection Hq2 as <-. rewrite Hne in Hq1 by done. destruct Hn. by apply (H1 d1 i1).
    + rewrite Hne in Hq1, Hq2 by done. by apply (H2 d1 i1 d2 i2 q).
  - intros q [->%elem_of_singleton|Hq]%elem_of_union.
    + exists d, i. split; [|done]. unfold place. rewrite length_set. exact Hpl.
    + destruct (H3 q Hq) as (d' & i' & Hp' & Hs'). exists d', i'. split; [unfold place; rewrite length_set; exact Hp'|]. rewrite Hne; [done|apply Hp'|]. intros [= <- <-]. congruence.
  - intros q [->%elem_of_singleton|Hq]%elem_of_union; [done|by apply H4].
Qed.

Lemma blocks_empty d i p s : blocks_ok s -> place d i s -> slot d i s = Some (Some p) -> blocks_ok (set_slot d i None (set_live (s.(live) ∖ {[p]}) s)).
Proof.
  intros Hb Hpl Hs. pose proof Hb as [Hr H1 H2 H3 H4]. set (s1 := set_live _ s). assert (forall d i, slot d i s1 = slot d i s) as E by done.
  assert (slot d i (set_slot d i None s1) = Some None) as Heq by (apply slot_set_eq; rewrite E, Hs; by eexists).
  assert (forall d' i', 0 <= i' -> (d, i) <> (d', i') -> slot d' i' (set_slot d i None s1) = slot d' i' s) as Hne by (intros; rewrite slot_set_ne; [done|apply Hpl|done..]). split.
  - by apply rows_set.
  - intros d' i' p' Hi' H. destruct (decide ((d, i) = (d', i'))) as [[= <- <-]|N]; [by rewrite Heq in H|]. rewrite Hne in H by done. apply elem_of_difference. split; [by apply (H1 d' i')|].
    intros ->%elem_of_singleton. destruct N. destruct (H2 d i d' i' p) as [-> ->]; [apply Hpl|done..].
  - intros d1 i1 d2 i2 q Hi1 Hi2 Hq1 Hq2. destruct (decide ((d, i) = (d1, i1))) as [[= <- <-]|N1]; [by rewrite Heq in Hq1|]. destruct (decide ((d, i) = (d2, i2))) as [[= <- <-]|N2]; [by rewrite Heq in Hq2|].
    rewrite Hne in Hq1, Hq2 by done. by apply (H2 d1 i1 d2 i2 q).
  - intros q [Hq Hqp]%elem_of_difference. destruct (H3 q Hq) as (d' & i' & Hp' & Hs'). exists d', i'. split; [unfold place; rewrite length_set; exact Hp'|]. rewrite Hne; [done|apply Hp'|].
    intros [= <- <-]. rewrite Hs in Hs'. injection Hs' as ->. set_solver.
  - intros q [Hq _]%elem_of_difference. by apply H4.
Qed.

(** The registration is as it was, and the blocks that are left were there. *)
Definition shrinks (s s' : data_sys) : Prop :=
  s'.(data_list) = s.(data_list) /\ s'.(data_idx) = s.(data_idx) /\ s'.(data_idx_bmap) = s.(data_idx_bmap) /\ length s'.(dom_ptrs) = length s.(dom_ptrs) /\
  forall d i p, 0 <= i -> slot d i s' = Some (Some p) -> slot d i s = Some (Some p).

Lemma shrinks_refl s : shrinks s s.
Proof. done. Qed.

Lemma shrinks_trans s1 s2 s3 : shrinks s1 s2 -> shrinks s2 s3 -> shrinks s1 s3.
Proof. intros (A1 & A2 & A3 & A4 & A5) (B1 & B2 & B3 & B4 & B5). split_and!; try congruence. intros d i p Hi Hs. by apply A5, B5. Qed.

Lemma shrinks_kinds s s' : kinds_ok s -> shrinks s s' -> kinds_ok s'.
Proof.
  intros [K1 K2 K3 K4 K5] (E1 & E2 & E3 & E4 & H). split; rewrite ?E1, ?E2, ?E3; try done. intros d i p Hi Hs. apply (K5 d i p Hi). by apply H.
Qed.

Section Effects.
Context (desc : nat -> sbi_domain_data) (alloc : nat -> bool).

(** The other blocks are where they were. *)
Definition others_kept (s s' : data_sys) (P : nat -> Z -> Prop) : Prop := forall d i, 0 <= i -> ~ P d i -> slot d i s' = slot d i s.

Lemma cleanup_one_effect d x s : blocks_ok s -> place d (s.(data_idx) x) s ->
  exists s', domain_cleanup_data_one desc d x s = Some s' /\ blocks_ok s' /\ shrinks s s' /\ slot d (s.(data_idx) x) s' = Some None /\
    others_kept s s' (fun d' i => d' = d /\ i = s.(data_idx) x).
Proof.
  intros Hb Hpl. unfold domain_cleanup_data_one. destruct (slot_place _ _ _ Hb Hpl) as [v Hv]. rewrite Hv. cbn [mbind option_bind]. destruct v as [p|]; [|by exists s].
  set (s1 := if data_cleanup (desc x) then _ else s). assert (slot d (data_idx s x) s1 = Some (Some p) /\ blocks_ok s1 /\ place d (data_idx s1 x) s1 /\ shrinks s s1 /\ s1.(data_idx) = s.(data_idx) /\ forall d i, slot d i s1 = slot d i s) as (Hv1 & Hb1 & Hp1 & Hsh & Ei & Esl).
  { unfold s1. destruct (data_cleanup (desc x)); split_and!; try done. by destruct Hb. }
  unfold sbi_free. rewrite decide_True by (apply (held_live _ Hb1 d (data_idx s x)); [apply Hpl|done]). cbn [mbind option_bind].
  set (s2 := set_slot d (data_idx (set_live _ s1) x) None _). assert (s2 = set_slot d (data_idx s x) None (set_live (live s1 ∖ {[p]}) s1)) as E2 by (unfold s2; by rewrite <- Ei). exists s2. split; [done|].
  rewrite <- Ei in Hv1. split; [rewrite E2, <- Ei; by apply blocks_empty|].
  assert (slot d (data_idx s x) s2 = Some None) as Heq by (rewrite E2; apply slot_set_eq; rewrite <- Ei; by eexists).
  assert (forall d' i', 0 <= i' -> (d, data_idx s x) <> (d', i') -> slot d' i' s2 = slot d' i' s) as Hne.
  { intros d' i' Hi' N. rewrite E2, slot_set_ne; [apply Esl|apply Hpl|done..]. }
  split; [|split; [done|]].
  - destruct Hsh as (F1 & F2 & F3 & F4 & _). split_and!; try (by rewrite E2). { rewrite E2, length_set. exact F4. }
    intros d' i' p' Hi' Hs'. destruct (decide ((d, data_idx s x) = (d', i'))) as [[= <- <-]|N]; [by rewrite Heq in Hs'|]. by rewrite Hne in Hs'.
  - intros d' i' Hi' N. apply Hne; [done|]. intros [= <- <-]. by apply N.
Qed.

Lemma cleanup_list_effect d l : forall s, blocks_ok s -> (d < length s.(dom_ptrs))%nat -> (forall x, x ∈ l -> 0 <= s.(data_idx) x < 32) ->
  exists s', cleanup_list desc d l s = Some s' /\ blocks_ok s' /\ shrinks s s'.
Proof.
  induction l as [|x l IH]; intros s Hb Hd Hl; [by exists s|]. cbn [cleanup_list].
  destruct (cleanup_one_effect d x s Hb) as (s1 & -> & Hb1 & Hs1 & _); [split; [done|apply Hl; left]|]. cbn [mbind option_bind]. pose proof Hs1 as (_ & E2 & _ & E4 & _).
  destruct (IH s1 Hb1) as (s' & E & Hb' & Hs'); [lia|rewrite E2; intros y Hy; apply Hl; by right|]. exists s'. split; [done|]. split; [done|]. by apply (shrinks_trans s s1).
Qed.

Lemma cleanup_domains_effect x ds : forall s, blocks_ok s -> 0 <= s.(data_idx) x < 32 -> Forall (fun d => (d < length s.(dom_ptrs))%nat) ds ->
  exists s', cleanup_domains desc ds x s = Some s' /\ blocks_ok s' /\ shrinks s s' /\ (forall d, d ∈ ds -> slot d (s.(data_idx) x) s' = Some None) /\
    others_kept s s' (fun _ i => i = s.(data_idx) x).
Proof.
  induction ds as [|d ds IH]; intros s Hb Hi Hds; [exists s; split_and!; try done; by intros d ?%not_elem_of_nil|]. cbn [cleanup_domains]. apply Forall_cons in Hds as [Hd Hds].
  destruct (cleanup_one_effect d x s Hb) as (s1 & -> & Hb1 & Hs1 & Hz & Ho); [done|]. cbn [mbind option_bind]. pose proof Hs1 as (_ & E2 & _ & E4 & _).
  destruct (IH s1 Hb1) as (s' & E & Hb' & Hs' & Hz' & Ho'); [by rewrite E2|by rewrite E4|]. rewrite E2 in Hz', Ho'. exists s'. split; [done|]. split; [done|]. split; [by apply (shrinks_trans s s1)|]. split.
  - intros d' [->|Hd']%elem_of_cons; [|by apply Hz']. destruct (decide (d ∈ ds)); [by apply Hz'|]. destruct (slot_place d (s.(data_idx) x) s' Hb') as [[p|] Hv].
    { destruct Hs' as (_ & _ & _ & El & _). split; [lia|done]. } { destruct Hs' as (_ & _ & _ & _ & H). apply H in Hv; [congruence|lia]. } done.
  - intros d' i' Hi' N. rewrite Ho' by done. apply Ho; [done|]. by intros [_ ?].
Qed.

Definition bump (s : data_sys) : data_sys := DataSys s.(data_list) s.(data_idx) s.(data_idx_bmap) s.(dom_ptrs) s.(live) (S s.(attempts)) s.(cleaned).

Lemma blocks_bump s : blocks_ok s -> blocks_ok (bump s).
Proof. intros [H0 H1 H2 H3 H4]. split; try done. intros p Hp. cbn. specialize (H4 p Hp). lia. Qed.

Definition same_kinds (s s' : data_sys) : Prop :=
  s'.(data_list) = s.(data_list) /\ s'.(data_idx) = s.(data_idx) /\ s'.(data_idx_bmap) = s.(data_idx_bmap) /\ length s'.(dom_ptrs) = length s.(dom_ptrs).

Lemma shrinks_same s s' : shrinks s s' -> same_kinds s s'.
Proof. by intros (? & ? & ? & ? & _). Qed.

Lemma setup_one_effect d x s : data_inv s -> x ∈ s.(data_list) -> (d < length s.(dom_ptrs))%nat ->
  exists rc s', domain_setup_data_one desc alloc d x s = Some (rc, s') /\ data_inv s' /\ same_kinds s s' /\
    (rc = 0 -> (exists p, slot d (s.(data_idx) x) s' = Some (Some p)) /\ others_kept s s' (fun d' i => d' = d /\ i = s.(data_idx) x)) /\
    (rc <> 0 -> shrinks s s').
Proof.
  intros [Hb Hk] Hx Hd. pose proof (kinds_range _ Hk x Hx) as Hi. assert (place d (s.(data_idx) x) s) as Hpl by done. unfold domain_setup_data_one. destruct (slot_place _ _ _ Hb Hpl) as [v Hv].
  rewrite Hv. cbn [mbind option_bind]. destruct v as [p|]; [by exists SBI_EALREADY, s|]. unfold sbi_zalloc. assert (s.(attempts) ∉ s.(live)) as Hfresh by (intros Hl%(live_old _ Hb); lia).
  assert (kinds_ok (bump s)) as Hkb by (apply (shrinks_kinds s); done). destruct (alloc (attempts s)).
  - case_match; [|].
    + unfold sbi_free. rewrite decide_True by (cbn; set_solver). cbn [mbind option_bind]. eexists _, _. split; [done|].
      assert (forall s1, s1 = bump s -> data_inv s1 /\ same_kinds s s1 /\ shrinks s s1) as Hbump by (intros s1 ->; split; [split; [by apply blocks_bump|done]|by split]).
      match goal with |- data_inv ?x /\ _ => destruct (Hbump x) as (B1 & B2 & B3) end. { unfold set_live, bump. cbn. f_equal. set_solver. }
      split; [done|]. split; [done|]. split; [|done]. intros E0. by rewrite E0 in *.
    + pose proof (blocks_fill d (s.(data_idx) x) s.(attempts) (bump s) (blocks_bump s Hb) Hpl Hv ltac:(cbn; lia) Hfresh) as Hfill.
      set (s2 := set_slot d _ (Some (attempts s)) _). change (blocks_ok s2) in Hfill. exists 0, s2. split; [done|].
      assert (slot d (data_idx s x) s2 = Some (Some (attempts s))) as Heq by (unfold s2; apply slot_set_eq; by eexists).
      assert (forall d' i', 0 <= i' -> (d, data_idx s x) <> (d', i') -> slot d' i' s2 = slot d' i' s) as Hne by (intros d' i' Hi' N; unfold s2; rewrite slot_set_ne by (done || exact (proj1 Hi)); done).
      split; [split; [done|]|].
      * destruct Hk as [K1 K2 K3 K4 K5]. split; try done. intros d' i' p' Hi' Hs'. destruct (decide ((d, data_idx s x) = (d', i'))) as [[= <- <-]|N]; [by exists x|]. rewrite Hne in Hs' by done. by apply (K5 d' i' p').
      * split; [split_and!; try done; etransitivity; [apply length_set|done]|]. split; [|done]. intros _. split; [by eexists|]. intros d' i' Hi' N. apply Hne; [done|]. intros [= <- <-]. by apply N.
  - cbn [sbi_domain_cleanup_data]. destruct (cleanup_list_effect d s.(data_list) (bump s) (blocks_bump s Hb)) as (s' & E & Hb' & Hs'); [done|apply (kinds_range _ Hk)|].
    change (data_list (DataSys _ _ _ _ _ _ _)) with (data_list s). fold (bump s). rewrite E. cbn [mbind option_bind]. assert (shrinks s s') as Hsh by (by apply (shrinks_trans s (bump s))).
    exists SBI_ENOMEM, s'. split; [done|]. split; [split; [done|by apply (shrinks_kinds s)]|]. split; [by apply shrinks_same|]. by split.
Qed.

Lemma unregister_effect x s : data_inv s -> x ∈ s.(data_list) ->
  exists s', sbi_domain_unregister_data desc x s = Some s' /\ data_inv s' /\ s'.(data_list) = filter (fun y => y <> x) s.(data_list) /\
    s'.(data_idx) = s.(data_idx) /\ length s'.(dom_ptrs) = length s.(dom_ptrs) /\
    (forall d, (d < length s.(dom_ptrs))%nat -> slot d (s.(data_idx) x) s' = Some None) /\ others_kept s s' (fun _ i => i = s.(data_idx) x).
Proof.
  intros [Hb Hk] Hx. pose proof (kinds_range _ Hk x Hx) as Hi. unfold sbi_domain_unregister_data.
  destruct (cleanup_domains_effect x (seq 0 (length s.(dom_ptrs))) s Hb Hi) as (s1 & -> & Hb1 & Hs1 & Hz & Ho); [apply Forall_seq; lia|]. cbn [mbind option_bind].
  pose proof Hs1 as (E1 & E2 & E3 & E4 & Hsub). set (s' := DataSys _ _ _ _ _ _ _). exists s'. split; [done|]. assert (forall d i, slot d i s' = slot d i s1) as Es by done.
  assert (forall d, (d < length s.(dom_ptrs))%nat -> slot d (s.(data_idx) x) s1 = Some None) as Hz' by (intros d Hd; apply Hz; apply elem_of_seq; lia).
  split; [split|split_and!; try done; cbn; by rewrite E1].
  - destruct Hb1 as [H0 H1 H2 H3 H4]. by split.
  - pose proof Hk as [K1 K2 K3 K4 K5]. split; cbn; rewrite ?E1, ?E2, ?E3.
    + by apply NoDup_filter.
    + intros y [_ Hy]%list_elem_of_filter. by apply K2.
    + intros y z [_ Hy]%list_elem_of_filter [_ Hz0]%list_elem_of_filter. by apply K3.
    + intros i Hir. unfold bitmap_test, bitmap_clear. rewrite Z.land_spec, testbit_not64 by lia. rewrite Z.shiftl_1_l, Z.pow2_bits_eqb by lia. split.
      * intros [Hb0 Hn]%andb_true_iff. apply K4 in Hb0 as (y & Hy & <-); [|done]. exists y. split; [|done]. apply list_elem_of_filter. split; [|done]. intros ->. by rewrite Z.eqb_refl in Hn.
      * intros (y & [Hyx Hy]%list_elem_of_filter & <-). apply andb_true_iff. split; [apply K4; [done|by exists y]|]. apply negb_true_iff, Z.eqb_neq. intros E. destruct Hyx. by apply K3.
    + intros d i p Hir Hs. rewrite Es in Hs. destruct (K5 d i p Hir (Hsub d i p Hir Hs)) as (y & Hy & <-). exists y. split; [|done]. apply list_elem_of_filter. split; [|done]. intros ->.
      rewrite Hz' in Hs; [done|]. unfold slot in Hs. destruct (dom_ptrs s1 !! d) eqn:E; [|done]. apply lookup_lt_Some in E. lia.
Qed.

Lemma setup_domains_effect x ds : forall s, data_inv s -> x ∈ s.(data_list) -> NoDup ds -> Forall (fun d => (d < length s.(dom_ptrs))%nat) ds ->
  exists rc s', setup_domains desc alloc ds x s = Some (rc, s') /\ data_inv s' /\ s'.(data_idx) = s.(data_idx) /\ length s'.(dom_ptrs) = length s.(dom_ptrs) /\
    (rc = 0 -> s'.(data_list) = s.(data_list) /\ (forall d, d ∈ ds -> exists p, slot d (s.(data_idx) x) s' = Some (Some p)) /\ others_kept s s' (fun d i => d ∈ ds /\ i = s.(data_idx) x)) /\
    (rc <> 0 -> s'.(data_list) = filter (fun y => y <> x) s.(data_list)).
Proof.
  induction ds as [|d ds IH]; intros s Hinv Hx Hnd Hds.
  { exists 0, s. split_and!; try done. intros _. split_and!; try done. by intros d ?%not_elem_of_nil. }
  cbn [setup_domains]. apply Forall_cons in Hds as [Hd Hds]. apply NoDup_cons in Hnd as [Hnd0 Hnd].
  destruct (setup_one_effect d x s Hinv Hx Hd) as (rc & s1 & -> & Hinv1 & (E1 & E2 & E3 & E4) & Hok & _). cbn [mbind option_bind]. assert (x ∈ s1.(data_list)) as Hx1 by (by rewrite E1).
  destruct (Z.eqb_spec rc 0) as [->|Hrc]; cbn [negb].
  - destruct (Hok eq_refl) as ((p & Hp) & Ho). destruct (IH s1 Hinv1 Hx1 Hnd) as (rc & s' & E & Hinv' & F2 & F4 & Hok' & Hbad'); [by rewrite E4|]. rewrite E2 in *. exists rc, s'. split; [done|]. split; [done|]. split; [done|]. split; [lia|]. split.
    + intros Hrc. destruct (Hok' Hrc) as (F1 & Hall & Ho'). split; [congruence|]. split.
      * intros d' [->|Hd']%elem_of_cons; [|by apply Hall]. exists p. rewrite Ho'; [done|by apply (kinds_range _ (proj2 Hinv) x Hx)|]. by intros [? _].
      * intros d' i' Hi' N. rewrite Ho'; [apply Ho|..]; try done; [intros [-> ->]; apply N; split; [left|done]|intros [? ->]; apply N; split; [by right|done]].
    + intros Hrc. rewrite (Hbad' Hrc). by rewrite E1.
  - destruct (unregister_effect x s1 Hinv1 Hx1) as (s' & -> & Hinv' & F1 & F2 & F4 & _). cbn [mbind option_bind]. exists rc, s'. split; [done|]. split; [done|]. split; [congruence|]. split; [lia|]. split; [done|]. intros _. congruence.
Qed.

Lemma setup_list_effect d l : forall s, data_inv s -> (forall x, x ∈ l -> x ∈ s.(data_list)) -> NoDup l -> (d < length s.(dom_ptrs))%nat ->
  exists rc s', setup_list desc alloc d l s = Some (rc, s') /\ data_inv s' /\ same_kinds s s' /\
    (rc = 0 -> (forall x, x ∈ l -> exists p, slot d (s.(data_idx) x) s' = Some (Some p)) /\ others_kept s s' (fun d' i => d' = d /\ exists x, x ∈ l /\ s.(data_idx) x = i)).
Proof.
  induction l as [|x l IH]; intros s Hinv Hl Hnd Hd.
  { exists 0, s. split_and!; try done. intros _. split; [by intros x ?%not_elem_of_nil|done]. }
  cbn [setup_list]. apply NoDup_cons in Hnd as [Hnd0 Hnd]. assert (x ∈ s.(data_list)) as Hx by (apply Hl; left).
  destruct (setup_one_effect d x s Hinv Hx Hd) as (rc & s1 & -> & Hinv1 & (E1 & E2 & E3 & E4) & Hok & _). cbn [mbind option_bind]. destruct (Z.eqb_spec rc 0) as [->|Hrc]; cbn [negb].
  - destruct (Hok eq_refl) as ((p & Hp) & Ho). destruct (IH s1 Hinv1) as (rc & s' & E & Hinv' & (F1 & F2 & F3 & F4) & Hok'); [rewrite E1; intros y Hy; apply Hl; by right|done|by rewrite E4|]. rewrite E2 in *.
    exists rc, s'. split; [done|]. split; [done|]. split; [split_and!; congruence|]. intros Hrc. destruct (Hok' Hrc) as (Hall & Ho'). split.
    + intros y [->|Hy]%elem_of_cons; [|by apply Hall]. exists p. rewrite Ho'; [done|by apply (kinds_range _ (proj2 Hinv) x Hx)|]. intros (_ & y & Hy & Ey).
      apply (kinds_inj _ (proj2 Hinv)) in Ey as ->; [done|apply Hl; by right|done].
    + intros d' i' Hi' N. rewrite Ho'; [apply Ho|..]; try done; [intros [-> ->]; apply N; split; [done|]; exists x; split; [left|done]|].
      intros [-> (y & Hy & <-)]. apply N. split; [done|]. exists y. split; [by right|done].
  - cbn [sbi_domain_cleanup_data]. destruct (cleanup_list_effect d s1.(data_list) s1 (proj1 Hinv1)) as (s' & -> & Hb' & Hs'); [by rewrite E4|apply (kinds_range _ (proj2 Hinv1))|]. cbn [mbind option_bind].
    exists rc, s'. split; [done|]. split; [split; [done|by apply (shrinks_kinds s1); [apply Hinv1|]]|]. destruct (shrinks_same _ _ Hs') as (F1 & F2 & F3 & F4). split; [split_and!; congruence|done].
Qed.

Lemma free_idx_spec n b : forall i, i <= free_idx n b i <= i + Z.of_nat n /\ (free_idx n b i < i + Z.of_nat n -> bitmap_test b (free_idx n b i) = false).
Proof.
  induction n as [|n IH]; intros i; cbn [free_idx]; [lia|]. destruct (bitmap_test b i) eqn:E; cbn [negb]; [|split; [lia|done]]. specialize (IH (i + 1)). split; [lia|]. intros H. apply IH. lia.
Qed.

(** The state in which [x] has been given index [i]. *)
Definition with_kind (x : nat) (i : Z) (s : data_sys) : data_sys :=
  DataSys (s.(data_list) ++ [x]) (<[x := i]> s.(data_idx)) (bitmap_set s.(data_idx_bmap) i) s.(dom_ptrs) s.(live) s.(attempts) s.(cleaned).

Lemma with_kind_inv x i s : data_inv s -> x ∉ s.(data_list) -> 0 <= i < 32 -> bitmap_test s.(data_idx_bmap) i = false -> data_inv (with_kind x i s).
Proof.
  intros [Hb [K1 K2 K3 K4 K5]] Hx Hi Hfree. assert (forall y, y ∈ s.(data_list) -> (<[x := i]> s.(data_idx)) y = s.(data_idx) y) as Hidx by (intros y Hy; rewrite fn_lookup_insert_ne; [done|]; intros ->; done).
  assert (forall y, y ∈ s.(data_list) -> s.(data_idx) y <> i) as Hnew. { intros y Hy E. assert (bitmap_test s.(data_idx_bmap) i = true) by (apply K4; [done|by exists y]). congruence. }
  split; [by destruct Hb|]. split; cbn.
  - apply NoDup_app. split; [done|]. split; [|apply NoDup_singleton]. intros y Hy ->%list_elem_of_singleton. done.
  - intros y [Hy| ->%list_elem_of_singleton]%elem_of_app; [rewrite Hidx by done; by apply K2|by rewrite fn_lookup_insert].
  - intros y z [Hy| ->%list_elem_of_singleton]%elem_of_app [Hz| ->%list_elem_of_singleton]%elem_of_app; rewrite ?fn_lookup_insert; try done.
    + rewrite !Hidx by done. by apply K3.
    + rewrite Hidx by done. intros E. by destruct (Hnew y Hy).
    + rewrite Hidx by done. intros E. by destruct (Hnew z Hz).
  - intros k Hk. unfold bitmap_test, bitmap_set. rewrite Z.lor_spec, Z.shiftl_1_l, Z.pow2_bits_eqb by lia. rewrite orb_true_iff. fold (bitmap_test s.(data_idx_bmap) k). rewrite (K4 k Hk), Z.eqb_eq. split.
    + intros [(y & Hy & <-)| <-]; [exists y; split; [apply elem_of_app; by left|by apply Hidx]|]. exists x. split; [apply elem_of_app; right; by apply list_elem_of_singleton|apply fn_lookup_insert].
    + intros (y & [Hy| ->%list_elem_of_singleton]%elem_of_app & <-); [left; exists y; split; [done|by rewrite Hidx]|right; by rewrite fn_lookup_insert].
  - intros d k p Hk Hs. destruct (K5 d k p Hk Hs) as (y & Hy & <-). exists y. split; [apply elem_of_app; by left|by apply Hidx].
Qed.
End Effects.

Lemma ptr_slot d x s : kinds_ok s -> x ∈ s.(data_list) -> sbi_domain_data_ptr (Some d) (Some x) s = slot d (s.(data_idx) x) s.
Proof. intros Hk Hx. cbn. pose proof (kinds_range _ Hk x Hx). unfold SBI_DOMAIN_MAX_DATA_PTRS. by rewrite (proj2 (Z.ltb_lt _ _)) by lia. Qed.

(** C32: Registering, unregistering and setting up data of domains never frees a
    block twice, never leaks one and never leaves the arrays, whichever
    allocations and callbacks fail.  A registration that succeeds gives every
    domain a block of the new kind and leaves the blocks of the other kinds where
    they are; one that fails leaves the list of kinds as it was.  Unregistering
    frees the blocks of the kind in all domains and no others.  Setting up a domain
    gives it a block of every kind. *)
Theorem domain_data_sound desc alloc s : data_inv s ->
  (forall x, x ∉ s.(data_list) -> exists rc s', sbi_domain_register_data desc alloc (Some x) s = Some (rc, s') /\ data_inv s' /\
     (rc = 0 -> s'.(data_list) = s.(data_list) ++ [x] /\ forall d, (d < length s.(dom_ptrs))%nat ->
        (exists p, sbi_domain_data_ptr (Some d) (Some x) s' = Some (Some p)) /\
        forall y, y ∈ s.(data_list) -> sbi_domain_data_ptr (Some d) (Some y) s' = sbi_domain_data_ptr (Some d) (Some y) s) /\
     (rc <> 0 -> s'.(data_list) = s.(data_list))) /\
  (forall x, x ∈ s.(data_list) -> exists s', sbi_domain_unregister_data desc x s = Some s' /\ data_inv s' /\
     s'.(data_list) = filter (fun y => y <> x) s.(data_list) /\ forall d, (d < length s.(dom_ptrs))%nat ->
        slot d (s.(data_idx) x) s' = Some None /\
        forall y, y ∈ s'.(data_list) -> sbi_domain_data_ptr (Some d) (Some y) s' = sbi_domain_data_ptr (Some d) (Some y) s) /\
  (forall d, (d < length s.(dom_ptrs))%nat -> exists rc s', sbi_domain_setup_data desc alloc (Some d) s = Some (rc, s') /\ data_inv s' /\ s'.(data_list) = s.(data_list) /\
     (rc = 0 -> forall x, x ∈ s.(data_list) -> exists p, sbi_domain_data_ptr (Some d) (Some x) s' = Some (Some p))).
Proof.
  intros Hinv. pose proof (proj2 Hinv) as Hk. split_and!.
  - intros x Hx. cbn [sbi_domain_register_data]. case_match; [by exists SBI_EINVAL, s|]. destruct (free_idx_spec 32 s.(data_idx_bmap) 0) as [Hr Hfree]. set (i := free_idx 32 _ 0) in *. clearbody i.
    unfold SBI_DOMAIN_MAX_DATA_PTRS. destruct (Z.leb_spec 32 i); [by exists SBI_ENOSPC, s|]. fold (with_kind x i s).
    pose proof (with_kind_inv x i s Hinv Hx ltac:(lia) (Hfree ltac:(lia))) as Hinv1. assert (x ∈ (with_kind x i s).(data_list)) as Hx1 by (cbn; set_solver).
    destruct (setup_domains_effect desc alloc x (seq 0 (length s.(dom_ptrs))) (with_kind x i s) Hinv1 Hx1 (NoDup_seq _ _)) as (rc & s' & E & Hinv' & E2 & E4 & Hok & Hbad); [apply Forall_seq; cbn; lia|].
    cbn in E2, Hok, Hbad. rewrite fn_lookup_insert in Hok. exists rc, s'. split; [exact E|]. split; [done|]. split.
    + intros Hrc. destruct (Hok Hrc) as (E1 & Hall & Ho). split; [done|]. intros d Hd. split.
      * rewrite ptr_slot; [|apply Hinv'|rewrite E1; set_solver]. rewrite E2, fn_lookup_insert. apply Hall, elem_of_seq. lia.
      * intros y Hy. assert ((<[x := i]> s.(data_idx)) y = s.(data_idx) y) as Ey by (rewrite fn_lookup_insert_ne; [done|]; by intros ->).
        rewrite (ptr_slot d y s Hk Hy), ptr_slot; [|apply Hinv'|rewrite E1; set_solver]. rewrite E2, Ey. apply Ho; [by apply (kinds_range _ Hk)|]. intros [_ Ei].
        apply (f_equal (bitmap_test s.(data_idx_bmap))) in Ei. rewrite Hfree in Ei by lia. rewrite (proj2 (kinds_bits _ Hk _ (kinds_range _ Hk y Hy))) in Ei; [done|by exists y].
    + intros Hrc. rewrite (Hbad Hrc), filter_app, filter_cons_False, filter_nil, app_nil_r by tauto. clear -Hx. induction (data_list s) as [|y l IH]; [done|].
      rewrite filter_cons_True by set_solver. f_equal. apply IH. set_solver.
  - intros x Hx. destruct (unregister_effect desc x s Hinv Hx) as (s' & E & Hinv' & E1 & E2 & E4 & Hz & Ho). exists s'. split; [done|]. split; [done|]. split; [done|]. intros d Hd. split; [by apply Hz|].
    intros y Hy. pose proof Hy as Hy'. rewrite E1 in Hy'. apply list_elem_of_filter in Hy' as [Hyx Hy']. rewrite !ptr_slot; try done; [|apply Hinv']. rewrite E2. apply Ho; [by apply (kinds_range _ Hk)|]. intros Ei. by apply (kinds_inj _ Hk) in Ei.
  - intros d Hd. cbn [sbi_domain_setup_data]. destruct (setup_list_effect desc alloc d s.(data_list) s Hinv (fun _ H => H) (kinds_nodup _ Hk) Hd) as (rc & s' & E & Hinv' & (E1 & E2 & _) & Hok). exists rc, s'.
    split; [done|]. split; [done|]. split; [done|]. intros Hrc x Hx. rewrite ptr_slot; [|apply Hinv'|by rewrite E1]. rewrite E2. by apply Hok.
Qed.

(** Two domains, before anything is registered. *)
Definition boot_data : data_sys := DataSys [] (fun _ => 0) 0 (replicate 2 (replicate 32 None)) ∅ 0 [].

Lemma boot_slot d i p : slot d i boot_data <> Some (Some p).
Proof. unfold slot. cbn [boot_data dom_ptrs]. destruct (replicate 2 _ !! d) as [row|] eqn:E; [|done]. apply lookup_replicate in E as [-> _]. cbn -[replicate]. intros [? _]%lookup_replicate. done. Qed.

Lemma boot_data_inv : data_inv boot_data.
Proof.
  split; split; cbn.
  - repeat constructor.
  - by intros d i p _ ?%boot_slot.
  - by intros d i d' i' p _ _ ?%boot_slot.
  - by intros p ?%elem_of_empty.
  - by intros p ?%elem_of_empty.
  - constructor.
  - by intros x ?%not_elem_of_nil.
  - by intros x y ?%not_elem_of_nil.
  - intros i Hi. unfold bitmap_test. rewrite Z.bits_0. split; [done|]. by intros (x & ?%not_elem_of_nil & _).
  - by intros d i p _ ?%boot_slot.
Qed.

Definition demo_desc (x : nat) : sbi_domain_data := DomainData 8 None true.

Lemma domain_data_sound_witness : exists s', sbi_domain_register_data demo_desc (fun _ => true) (Some 7%nat) boot_data = Some (0, s') /\
  sbi_domain_data_ptr (Some 0%nat) (Some 7%nat) s' = Some (Some 0%nat) /\ data_inv s'.
Proof.
  destruct (domain_data_sound demo_desc (fun _ => true) boot_data boot_data_inv) as (Hreg & _).
  destruct (Hreg 7%nat (not_elem_of_nil _)) as (rc & s' & E & Hinv & _).
  assert (rc = 0 /\ sbi_domain_data_ptr (Some 0%nat) (Some 7%nat) s' = Some (Some 0%nat)) as [-> Hp]; [|by exists s'].
  vm_compute in E. injection E as <- <-. split; reflexivity.
Defined.

(** When the registration of a second kind of data runs out of memory, the blocks
    of the first kind in that domain are freed as well. *)
Theorem failed_registration_frees_others : exists s1 s2,
  sbi_domain_register_data demo_desc (fun n => (n <? 2)%nat) (Some 7%nat) boot_data = Some (0, s1) /\ sbi_domain_data_ptr (Some 0%nat) (Some 7%nat) s1 = Some (Some 0%nat) /\
  sbi_domain_register_data demo_desc (fun n => (n <? 2)%nat) (Some 8%nat) s1 = Some (SBI_ENOMEM, s2) /\ s2.(data_list) = [7%nat] /\
  sbi_domain_data_ptr (Some 0%nat) (Some 7%nat) s2 = Some None.
Proof. eexists _, _. split; [vm_compute; reflexivity|]. split; [reflexivity|]. split; [vm_compute; reflexivity|]. split; reflexivity. Qed.
