(* ===== verification/DomainReg.v ===== *)
(** * Building domains (lib/sbi/sbi_domain.c)

    The regions of the root domain are extended while the platform is set up, and
    domains are registered and given harts.  [shl64] is the value of [1UL << 64],
    [hv] stands for [sbi_hartindex_valid]. *)

From S2P Require Import Prelude SbiTypes Bitops Hartmask Domain.

Local Open Scope Z_scope.

Definition ROOT_REGION_MAX : Z := 32.

(** The root domain, [root_memregs_count] and [domain_finalized].  The regions are
    those of the array before the first one of order 0. *)
Record root_state := RootState { rdom : sbi_domain; root_memregs_count : Z; domain_finalized : bool }.

Definition set_regions (regs : list sbi_domain_memregion) (d : sbi_domain) : sbi_domain :=
  Dom d.(assigned_harts) d.(possible_harts) (Some regs) d.(next_arg1) d.(next_addr) d.(next_mode) d.(fw_region_inited).

Section Root.
Context (shl64 : Z) (hv : Z -> bool).

Definition mergeable (r r1 : sbi_domain_memregion) : bool :=
  (Z.land r.(base) (u64 (BIT shl64 (r.(order) + 1) - 1)) =? 0) && (u64 (r.(base) + BIT shl64 r.(order)) =? r1.(base))
  && (r.(order) =? r1.(order)) && (r.(flags) =? r1.(flags)).

(** One pass of the loop over the regions: the list and the number of merges. *)
Fixpoint merge_pass (l : list sbi_domain_memregion) : list sbi_domain_memregion * Z :=
  match l with
  | r :: ((r1 :: rest) as l1) =>
      if mergeable r r1 then let '(l, n) := merge_pass rest in (Region (r.(order) + 1) r.(base) r.(flags) :: l, n + 1)
      else let '(l, n) := merge_pass l1 in (r :: l, n)
  | _ => (l, 0)
  end.

(** The [do ... while (reg_merged)] loop. *)
Fixpoint sort_merge (fuel : nat) (s : root_state) : option (Z * root_state) :=
  match fuel with
  | O => None
  | S fuel =>
      let '(rc, d) := sanitize_domain shl64 hv s.(rdom) in
      let s := RootState d s.(root_memregs_count) s.(domain_finalized) in
      if negb (rc =? 0) then Some (rc, s)
      else
        let '(regs, n) := merge_pass (memregions d) in
        let s := RootState (set_regions regs d) (u32 (s.(root_memregs_count) - n)) s.(domain_finalized) in
        if 0 <? n then sort_merge fuel s else Some (0, s)
  end.

(** The new region is written at place [root_memregs_count]; it is seen if that is
    where the list ends and its order is not 0. *)
Definition root_add_memregion (reg : option sbi_domain_memregion) (s : root_state) : option (Z * root_state) :=
  match reg, s.(rdom).(regions) with
  | Some reg, Some regs =>
      if s.(domain_finalized) || (ROOT_REGION_MAX <=? s.(root_memregs_count)) then Some (SBI_EINVAL, s)
      else if existsb (is_region_compatible shl64 reg) regs then Some (0, s)
      else
        let regs := if (s.(root_memregs_count) =? Z.of_nat (length regs)) && negb (reg.(order) =? 0) then regs ++ [reg] else regs in
        sort_merge (S (length regs)) (RootState (set_regions regs s.(rdom)) (s.(root_memregs_count) + 1) s.(domain_finalized))
  | _, _ => Some (SBI_EINVAL, s)
  end.

(** The loop of [sbi_domain_root_add_memrange] from [pos]. *)
Fixpoint add_loop (fuel : nat) (pos end_ align region_flags : Z) (s : root_state) : option (Z * root_state) :=
  match fuel with
  | O => None
  | S fuel =>
      if pos <? end_ then
        let rsize := Z.land pos (u64 (align - 1)) in
        let rsize := if negb (rsize =? 0) then Z.shiftl 1 (sbi_ffs pos) else if u64 (end_ - pos) <? align then u64 (end_ - pos) else align in
        '(rc, s) ← root_add_memregion (Some (sbi_domain_memregion_init pos rsize region_flags)) s;
        if negb (rc =? 0) then Some (rc, s) else add_loop fuel (u64 (pos + rsize)) end_ align region_flags s
      else Some (0, s)
  end.

Definition sbi_domain_root_add_memrange (fuel : nat) (addr size align region_flags : Z) (s : root_state) : option (Z * root_state) :=
  add_loop fuel addr (u64 (addr + size)) align region_flags s.
End Root.

(** ** Properties of the regions *)

(** Some region with flags [f] holds address [a]. *)
Definition covered (regs : list sbi_domain_memregion) (a f : Z) : Prop := exists r, r ∈ regs /\ in_region r a = true /\ r.(flags) = f.

Lemma covered_cons r regs a f : covered (r :: regs) a f <-> (in_region r a = true /\ r.(flags) = f) \/ covered regs a f.
Proof.
  split.
  - intros (r' & [->|H]%elem_of_cons & ? & ?); [by left|right; by exists r'].
  - intros [[? ?]|(r' & ? & ? & ?)]; [exists r; split; [left|done]|exists r'; split; [by right|done]].
Qed.

Lemma covered_perm l l' a f : l ≡ₚ l' -> covered l a f <-> covered l' a f.
Proof. intros H. unfold covered. by setoid_rewrite H. Qed.

(** Valid regions of memory below [2 ^ 62], and at most one of all of it. *)
Definition low (r : sbi_domain_memregion) : Prop := r.(base) + 2 ^ r.(order) <= 2 ^ 62.
Definition regions_low (regs : list sbi_domain_memregion) : Prop :=
  Forall (fun r => region_wf r /\ (r.(order) = 64 \/ low r)) regs /\ (length (filter (fun r => r.(order) = 64%Z) regs) <= 1)%nat.

Lemma regions_low_perm l l' : l ≡ₚ l' -> regions_low l -> regions_low l'.
Proof. intros H [H1 H2]. split; [by rewrite <- H|]. by rewrite <- H. Qed.

Lemma regions_low_tail r l : regions_low (r :: l) -> regions_low l.
Proof. intros [H1 H2]. apply Forall_cons in H1 as [_ H1]. split; [done|]. rewrite filter_cons in H2. case_decide; cbn in H2; lia. Qed.

(** Two halves of an aligned block. *)
Lemma mergeable_spec r r1 l : regions_low (r :: r1 :: l) -> mergeable 0 r r1 = true ->
  let m := Region (r.(order) + 1) r.(base) r.(flags) in
  region_wf m /\ low m /\ r1.(flags) = r.(flags) /\ forall a, in_region m a = true <-> in_region r a = true \/ in_region r1 a = true.
Proof.
  intros [Hall Hone] Hm. apply Forall_cons in Hall as [[Hr Hl] Hall]. apply Forall_cons in Hall as [[Hr1 Hl1] _]. unfold mergeable in Hm. rewrite !andb_true_iff, !Z.eqb_eq in Hm.
  destruct Hm as [[[Hal Hadj] Ho] Hf]. destruct (region_wf_spec r Hr) as (Hor & Hb & Hmod & Hend & _ & H8).
  assert (r.(order) <> 64) as Hne. { intros E. rewrite filter_cons_True, filter_cons_True in Hone by congruence. cbn in Hone. lia. }
  destruct Hl as [?|Hl]; [done|]. unfold low in Hl. assert (r.(order) < 62) as Hsmall.
  { destruct Hl1 as [?|Hl1]; [congruence|]. unfold low in Hl1. rewrite <- Hadj, <- Ho in Hl1. destruct (decide (r.(order) < 62)); [done|]. exfalso.
    assert (2 ^ 62 <= 2 ^ r.(order)) by (apply Z.pow_le_mono_r; lia). unfold BIT in Hadj, Hl1. rewrite (proj2 (Z.ltb_lt _ _)), shl1 in Hl1 by lia. rewrite wrap_small in Hl1 by (unfold in_range; lia). lia. }
  assert (2 ^ (r.(order) + 1) = 2 * 2 ^ r.(order)) as Ep by (rewrite Z.pow_add_r by lia; lia). assert (2 ^ (r.(order) + 1) <= 2 ^ 62) by (apply Z.pow_le_mono_r; lia).
  unfold BIT in Hal, Hadj. rewrite (proj2 (Z.ltb_lt _ _)), shl1 in Hal by lia. rewrite (proj2 (Z.ltb_lt _ _)), shl1, wrap_small in Hadj by (unfold in_range; lia).
  rewrite wrap_small in Hal by (unfold in_range; lia). rewrite land_low in Hal by lia. cbv zeta.
  assert (low r1) as Hlow1 by (destruct Hl1 as [?|?]; [congruence|done]). unfold low in Hlow1. rewrite <- Ho, <- Hadj in Hlow1.
  assert (region_wf (Region (order r + 1) (base r) (flags r))) as Hwf.
  { split; [|apply Hr]. unfold is_region_valid, riscv_xlen. cbn [order base]. rewrite (proj2 (Z.ltb_ge _ 3)), (proj2 (Z.ltb_ge 64 _)), (proj2 (Z.eqb_neq _ 64)), (proj2 (Z.ltb_lt _ 64)) by lia. cbn [orb andb].
    rewrite shl1, land_low, Hal by lia. done. }
  split; [done|]. split; [unfold low; cbn [order base]; lia|]. split; [done|]. intros a. rewrite !in_region_spec by done. cbn [order base]. rewrite <- Ho, <- Hadj. lia.
Qed.

Lemma merge_pass_cons r r1 rest : merge_pass 0 (r :: r1 :: rest) =
  if mergeable 0 r r1 then let '(l, n) := merge_pass 0 rest in (Region (r.(order) + 1) r.(base) r.(flags) :: l, n + 1)
  else let '(l, n) := merge_pass 0 (r1 :: rest) in (r :: l, n).
Proof. done. Qed.

Lemma merge_pass_spec : forall n l, (length l <= n)%nat -> regions_low l ->
  let '(l', k) := merge_pass 0 l in
  regions_low l' /\ Z.of_nat (length l') + k = Z.of_nat (length l) /\ 0 <= k /\ (forall a f, covered l' a f <-> covered l a f) /\
  (length (filter (fun r => r.(order) = 64%Z) l') <= length (filter (fun r => r.(order) = 64%Z) l))%nat.
Proof.
  induction n as [|n IH]; intros l Hn Hl; (destruct l as [|r [|r1 rest]]; [cbn; split_and!; done || lia|cbn in *; split_and!; done || lia|]); [cbn in Hn; lia|]. rewrite merge_pass_cons. pose proof (regions_low_tail _ _ Hl) as Hl1. cbn [length] in Hn.
  destruct (mergeable 0 r r1) eqn:Em.
  - destruct (mergeable_spec r r1 rest Hl Em) as (Hwf & Hlow & Hf & Hin). specialize (IH rest ltac:(lia) (regions_low_tail _ _ Hl1)). destruct (merge_pass 0 rest) as [l' k].
    destruct IH as (Hl' & Hlen & Hk & Hc & H64). assert (order r + 1 <> 64) as Hne by (destruct Hwf as [_ _]; unfold low in Hlow; cbn in Hlow; intros E; rewrite E in Hlow; destruct Hl as [Hl _]; apply Forall_cons in Hl as [[Hr _] _]; destruct (region_wf_spec r Hr) as (_ & ? & _); lia).
    split; [|split; [cbn [length]; lia|split; [lia|split]]].
    + destruct Hl' as [H1 H2]. split; [by constructor; [split; [|right]|]|]. rewrite filter_cons_False by done. done.
    + intros a f. rewrite !covered_cons, Hc, Hin. cbn [flags]. rewrite Hf. tauto.
    + rewrite filter_cons_False by done. rewrite !filter_cons. repeat case_decide; cbn; lia.
  - specialize (IH (r1 :: rest) ltac:(cbn; lia) Hl1). destruct (merge_pass 0 (r1 :: rest)) as [l' k]. destruct IH as (Hl' & Hlen & Hk & Hc & H64).
    split; [|split; [cbn [length] in *; lia|split; [done|split]]].
    + destruct Hl' as [H1 _], Hl as [H2 H3]. apply Forall_cons in H2 as [H2 _]. split; [by constructor|]. rewrite filter_cons in H3 |- *. case_decide; cbn in *; lia.
    + intros a f. rewrite (covered_cons r), Hc, (covered_cons r). done.
    + rewrite !(filter_cons _ r). case_decide; cbn in *; lia.
Qed.

(** ** Adding regions to the root domain *)

(** The array holds [root_memregs_count] regions. *)
Definition root_ok (s : root_state) : Prop :=
  regions_low (memregions s.(rdom)) /\ s.(root_memregs_count) = Z.of_nat (length (memregions s.(rdom))) /\
  s.(root_memregs_count) <= ROOT_REGION_MAX + 1 /\ (forall m, s.(rdom).(possible_harts) = Some m -> mask_wf m).

(** The same regions up to merging. *)
Definition same_cover (s s' : root_state) : Prop :=
  (forall a f, covered (memregions s'.(rdom)) a f <-> covered (memregions s.(rdom)) a f) /\
  s'.(domain_finalized) = s.(domain_finalized) /\ s'.(root_memregs_count) <= s.(root_memregs_count).

Lemma sort_merge_spec hv : forall fuel s, (length (memregions s.(rdom)) < fuel)%nat -> root_ok s ->
  exists rc s', sort_merge 0 hv fuel s = Some (rc, s') /\ root_ok s' /\ same_cover s s'.
Proof.
  induction fuel as [|fuel IH]; intros s Hf (Hl & Hc & Hmax & Hm); [lia|]. cbn [sort_merge].
  destruct (sanitize_domain 0 hv (rdom s)) as [rc d] eqn:Es. destruct (sanitize_domain_spec _ _ _ _ _ Hm Es) as (_ & _ & Hp & _ & Eph & _).
  assert (forall a f, covered (memregions d) a f <-> covered (memregions (rdom s)) a f) as Hcov by (intros; by apply covered_perm).
  pose proof (Permutation_length Hp) as Elen. destruct (rc =? 0); cbn [negb]; [|].
  - pose proof (merge_pass_spec _ (memregions d) (le_n _) (regions_low_perm _ _ (symmetry Hp) Hl)) as Hpass. destruct (merge_pass 0 (memregions d)) as [regs n].
    destruct Hpass as (Hl' & Hlen & Hn & Hc' & _). cbn [root_memregs_count domain_finalized rdom]. set (s1 := RootState _ _ _).
    assert (root_memregs_count s1 = Z.of_nat (length regs)) as Ecnt. { subst s1. cbn [root_memregs_count]. rewrite wrap_small by (unfold in_range, ROOT_REGION_MAX in *; lia). lia. }
    assert (root_ok s1) as Hok1 by (split_and!; [done|done|lia|cbn; by rewrite Eph]).
    assert (same_cover s s1) as Hs1 by (split_and!; [intros; cbn; by rewrite Hc', Hcov|done|lia]).
    destruct (Z.ltb_spec 0 n); [|by exists 0, s1].
    destruct (IH s1) as (rc' & s' & E & Hok' & Hc1 & Hf1 & Hle1); [cbn; lia|done|]. exists rc', s'. split_and!; [done|done|].
    destruct Hs1 as (Hc2 & Hf2 & Hle2). split_and!; [intros; by rewrite Hc1, Hc2|congruence|lia].
  - exists rc. eexists. split; [done|]. split; [split_and!; cbn; [by apply (regions_low_perm (memregions (rdom s)))|lia|done|by rewrite Eph]|split_and!; [done|done|cbn; lia]].
Qed.

(** What an attempt to add region [reg] does. *)
Definition adds (s : root_state) (rc : Z) (s' : root_state) (P : Z -> Z -> Prop) : Prop :=
  root_ok s' /\ (forall a f, covered (memregions s.(rdom)) a f -> covered (memregions s'.(rdom)) a f) /\
  (forall a f, covered (memregions s'.(rdom)) a f -> covered (memregions s.(rdom)) a f \/ P a f) /\
  (rc = 0 -> forall a f, P a f -> covered (memregions s'.(rdom)) a f).

Lemma adds_fail s rc P : root_ok s -> rc <> 0 -> adds s rc s P.
Proof. intros. split_and!; auto. done. Qed.

Lemma root_add_memregion_spec hv reg s : region_wf reg -> low reg -> root_ok s ->
  exists rc s', root_add_memregion 0 hv (Some reg) s = Some (rc, s') /\ adds s rc s' (fun a f => in_region reg a = true /\ f = reg.(flags)).
Proof.
  intros Hr Hlow Hok. pose proof Hok as (Hl & Hc & Hmax & Hm). unfold root_add_memregion. destruct (regions (rdom s)) as [regs|] eqn:Er.
  2:{ exists SBI_EINVAL, s. split; [done|]. by apply adds_fail. }
  assert (memregions (rdom s) = regs) as Em by (unfold memregions; by rewrite Er).
  destruct (domain_finalized s || (ROOT_REGION_MAX <=? root_memregs_count s)) eqn:Eg; [exists SBI_EINVAL, s; split; [done|by apply adds_fail]|].
  destruct (existsb _ regs) eqn:Ex.
  - exists 0, s. split; [done|]. split_and!; [done|done|tauto|]. intros _ a f [Hin ->]. apply existsb_exists in Ex as (r & Hin' & Hcomp). apply list_elem_of_In in Hin'.
    apply andb_true_iff in Hcomp as [Hsub Hf]. destruct Hl as [Hall _]. rewrite Em in *. rewrite Forall_forall in Hall. destruct (Hall r Hin') as [Hrw _]. apply is_region_subset_spec in Hsub; [|by left|done..].
    exists r. rewrite in_region_spec in Hin |- * by done. split_and!; [done|lia|lia|lia].
  - apply orb_false_iff in Eg as [Ef Ec]. destruct (region_wf_spec reg Hr) as (Ho & Hb & _). rewrite <- Em, Hc, Z.eqb_refl, (proj2 (Z.eqb_neq (order reg) 0)) by lia. cbn [andb negb]. set (s1 := RootState _ _ _).
    assert (order reg <> 64) as Hne. { intros E. unfold low in Hlow. rewrite E in Hlow. lia. }
    assert (memregions (rdom s1) = memregions (rdom s) ++ [reg]) as Em1 by done.
    assert (root_ok s1) as Hok1.
    { split_and!; [|rewrite Em1, length_app; cbn; lia|cbn; lia|done]. rewrite Em1. destruct Hl as [H1 H2]. split.
      - apply Forall_app. split; [done|]. constructor; [|done]. split; [done|]. by right.
      - rewrite filter_app, length_app, filter_cons_False by done. cbn. lia. }
    destruct (sort_merge_spec hv (S (length (memregions (rdom s1)))) s1 ltac:(lia) Hok1) as (rc & s' & E & Hok' & Hcov & _). rewrite Em1 in E. rewrite E. exists rc, s'. split; [done|].
    assert (forall a f, covered (memregions (rdom s1)) a f <-> covered (memregions (rdom s)) a f \/ in_region reg a = true /\ f = flags reg) as Happ.
    { intros a f. rewrite Em1, (covered_perm _ (reg :: memregions (rdom s))) by (symmetry; apply Permutation_cons_append). rewrite covered_cons. split; intros [?|?]; intuition congruence. }
    split_and!; [done|intros a f|intros a f|intros _ a f]; rewrite Hcov, Happ; tauto.
Qed.

(** The block of [2 ^ j] bytes at a multiple of [2 ^ j]. *)
Lemma memregion_init_block pos j fl : 3 <= j -> 0 <= pos -> pos `mod` 2 ^ j = 0 -> pos + 2 ^ j <= 2 ^ 62 ->
  sbi_domain_memregion_init pos (2 ^ j) fl = Region j pos fl /\ region_wf (Region j pos fl) /\ low (Region j pos fl).
Proof.
  intros Hj Hp Hmod He. pose proof (pow2_pos j ltac:(lia)) as Hpos. assert (j <= 62) as Hj2. { destruct (decide (j <= 62)); [done|]. pose proof (Z.pow_lt_mono_r 2 62 j). lia. }
  destruct (memregion_init_smallest pos (2 ^ j) fl) as (Ho & Hf & (Hb & Hbm & Hb1 & Hb2) & Hmin); [unfold in_range; lia|lia|lia|].
  specialize (Hmin j pos ltac:(lia) ltac:(split_and!; done || lia) ltac:(lia)). destruct (sbi_domain_memregion_init pos (2 ^ j) fl) as [o b f]. cbn [order base flags] in *.
  assert (o = j) as ->. { destruct (decide (o < j)); [|lia]. pose proof (Z.pow_lt_mono_r 2 o j). lia. }
  assert (b = pos) as -> by lia. subst f. split; [done|]. split; [|unfold low; cbn; lia]. split; [|unfold in_range; cbn; lia].
  unfold is_region_valid, riscv_xlen. cbn [order base]. rewrite (proj2 (Z.ltb_ge j 3)), (proj2 (Z.ltb_ge 64 j)), (proj2 (Z.eqb_neq j 64)), (proj2 (Z.ltb_lt j 64)) by lia. cbn [orb andb]. rewrite shl1, land_low, Hmod by lia. done.
Qed.

(** The next block: its size is a power of two that divides [pos], and it does not pass [end_]. *)
Lemma next_block pos end_ k : 3 <= k < 63 -> 0 <= pos < end_ -> end_ <= 2 ^ 62 -> pos `mod` 8 = 0 -> end_ `mod` 2 ^ k = 0 ->
  exists j, 3 <= j <= k /\ pos `mod` 2 ^ j = 0 /\ pos + 2 ^ j <= end_ /\
    (let rsize := Z.land pos (u64 (2 ^ k - 1)) in
     if negb (rsize =? 0) then Z.shiftl 1 (sbi_ffs pos) else if u64 (end_ - pos) <? 2 ^ k then u64 (end_ - pos) else 2 ^ k) = 2 ^ j.
Proof.
  intros Hk Hp He H8 Hend. assert (2 ^ k < 2 ^ 64) by (apply Z.pow_lt_mono_r; lia). pose proof (pow2_pos k ltac:(lia)). rewrite (wrap_small 64 (2 ^ k - 1)) by (unfold in_range; lia). rewrite land_low by lia. cbv zeta.
  assert (forall j, 0 <= j <= k -> pos `mod` 2 ^ j = 0 -> pos + 2 ^ j <= end_) as Hfit.
  { intros j Hj Hm. assert ((2 ^ j | pos)) as [x Hx] by (apply Z.mod_divide; [pose proof (pow2_pos j); lia|done]).
    assert ((2 ^ j | end_)) as [y Hy]. { transitivity (2 ^ k); [|apply Z.mod_divide; lia]. exists (2 ^ (k - j)). rewrite <- Z.pow_add_r by lia. f_equal. lia. }
    assert (0 < 2 ^ j) by (apply pow2_pos; lia). assert (x < y) by nia. nia. }
  destruct (Z.eqb_spec (pos `mod` 2 ^ k) 0) as [E|E]; cbn [negb].
  - exists k. pose proof (Hfit k ltac:(lia) E). rewrite wrap_small by (unfold in_range; lia). rewrite (proj2 (Z.ltb_ge _ _)) by lia. split_and!; done || lia.
  - destruct (lsb_exists pos) as (n & Hn & Hn64); [unfold in_range; lia|intros ->; by rewrite Z.mod_0_l in E by lia|]. rewrite (sbi_ffs_lsb pos n Hn Hn64). destruct Hn as (Hn0 & Hbit & Hlow).
    assert (forall j, 0 <= j <= n -> pos `mod` 2 ^ j = 0) as Hmod.
    { intros j Hj. apply Z.bits_inj'. intros i Hi. rewrite Z.bits_0. destruct (decide (i < j)); [rewrite Z.mod_pow2_bits_low by lia; apply Hlow; lia|apply Z.mod_pow2_bits_high; lia]. }
    assert (3 <= n). { destruct (decide (3 <= n)); [done|]. change 8 with (2 ^ 3) in H8. rewrite <- (Z.mod_pow2_bits_low pos 3 n), H8, Z.bits_0 in Hbit by lia. done. }
    assert (n < k). { destruct (decide (n < k)); [done|]. destruct E. apply Hmod. lia. }
    exists n. split_and!; [lia|lia|apply Hmod; lia|apply Hfit; [lia|apply Hmod; lia]|apply shl1; lia].
Qed.

(** The addresses from [pos] to [end_] with flags [fl]. *)
Definition in_span (pos end_ fl a f : Z) : Prop := pos <= a < end_ /\ f = fl.

Lemma add_loop_spec hv end_ k fl : 3 <= k < 63 -> end_ <= 2 ^ 62 -> end_ `mod` 2 ^ k = 0 ->
  forall fuel pos s, 0 <= pos <= end_ -> pos `mod` 8 = 0 -> (end_ - pos) / 8 < Z.of_nat fuel -> root_ok s ->
  exists rc s', add_loop 0 hv fuel pos end_ (2 ^ k) fl s = Some (rc, s') /\ adds s rc s' (in_span pos end_ fl).
Proof.
  intros Hk He Hend. induction fuel as [|fuel IH]; intros pos s Hp H8 Hf Hok; [pose proof (Z.div_pos (end_ - pos) 8); lia|]. cbn [add_loop].
  destruct (Z.ltb_spec pos end_) as [Hlt|]. 2:{ exists 0, s. split; [done|]. unfold in_span. split_and!; [done|done|tauto|]. intros _ a f [? _]. lia. }
  destruct (next_block pos end_ k Hk ltac:(lia) He H8 Hend) as (j & Hj & Hm & Hle & Ersize). cbv zeta in Ersize |- *. rewrite Ersize.
  destruct (memregion_init_block pos j fl ltac:(lia) ltac:(lia) Hm ltac:(lia)) as (-> & Hwf & Hlow).
  destruct (root_add_memregion_spec hv _ s Hwf Hlow Hok) as (rc & s1 & -> & Hok1 & Hkeep1 & Hnew1 & Hall1). cbn [mbind option_bind].
  setoid_rewrite (in_region_spec _ _ Hwf) in Hnew1. setoid_rewrite (in_region_spec _ _ Hwf) in Hall1. cbn [base order flags] in *.
  destruct (Z.eqb_spec rc 0) as [->|Hrc]; cbn [negb].
  2:{ exists rc, s1. split; [done|]. unfold in_span. split_and!; [done|done| |done]. intros a f [?|[? ?]]%Hnew1; [by left|right; lia]. }
  pose proof (pow2_le 3 j ltac:(lia)) as Hj8. change (2 ^ 3) with 8 in Hj8. rewrite wrap_small by (unfold in_range; lia).
  destruct (IH (pos + 2 ^ j) s1) as (rc & s' & E & Hok' & Hkeep & Hnew & Hall); [lia| | |done|].
  - assert (2 ^ j = 2 ^ (j - 3) * 8) as -> by (change 8 with (2 ^ 3); rewrite <- Z.pow_add_r by lia; f_equal; lia). by rewrite Z.mod_add.
  - assert ((end_ - (pos + 2 ^ j)) / 8 <= (end_ - pos - 1 * 8) / 8) by (apply Z.div_le_mono; lia). replace (end_ - pos - 1 * 8) with (end_ - pos + (-1) * 8) in * by lia. rewrite Z.div_add in * by lia. lia.
  - exists rc, s'. split; [done|]. unfold in_span in *. split_and!; [done|auto| |].
    + intros a f [[?|[? ?]]%Hnew1|?]%Hnew; [by left|right; lia|right; lia].
    + intros Hrc a f [? ->]. destruct (decide (a < pos + 2 ^ j)); [apply Hkeep, Hall1; [done|split; [lia|done]]|by apply Hall; [|split; [lia|]]].
Qed.

(** [sbi_domain_root_add_memrange] adds exactly the range.  For an alignment
    that is a power of two of at least 8 bytes, a start that is a multiple of 8
    and an end that is a multiple of the alignment, in the lower quarter of the
    address space, the loop returns; what the root domain covered with some
    flags it still covers with them, although regions are sorted and merged on
    the way; and nothing outside the range is added.  When the call returns 0, an
    address is covered with some flags exactly if it was before or lies in the
    range and the flags are those of the call. *)
Theorem root_add_memrange_exact hv fuel addr size k fl s :
  3 <= k < 63 -> 0 <= addr -> 0 <= size -> addr `mod` 8 = 0 -> (addr + size) `mod` 2 ^ k = 0 -> addr + size <= 2 ^ 62 ->
  size / 8 < Z.of_nat fuel -> root_ok s ->
  exists rc s', sbi_domain_root_add_memrange 0 hv fuel addr size (2 ^ k) fl s = Some (rc, s') /\ root_ok s' /\
    (forall a f, covered (memregions s.(rdom)) a f -> covered (memregions s'.(rdom)) a f) /\
    (forall a f, covered (memregions s'.(rdom)) a f -> covered (memregions s.(rdom)) a f \/ in_span addr (addr + size) fl a f) /\
    (rc = 0 -> forall a f, covered (memregions s'.(rdom)) a f <-> covered (memregions s.(rdom)) a f \/ in_span addr (addr + size) fl a f).
Proof.
  intros Hk Ha Hs H8 Hend He Hf Hok. unfold sbi_domain_root_add_memrange. rewrite wrap_small by (unfold in_range; lia).
  destruct (add_loop_spec hv (addr + size) k fl Hk He Hend fuel addr s) as (rc & s' & E & Hok' & Hkeep & Hnew & Hall); [lia|done|by replace (addr + size - addr) with size by lia|done|].
  exists rc, s'. split_and!; [done..|]. intros Hrc a f. split; [auto|]. intros [?|?]; auto.
Qed.

(** The regions [sbi_domain_init] makes, with room for a device. *)
Definition booted_root : root_state :=
  RootState (Dom [0; 0] (Some [1; 0]) (Some [Region 17 0x80000000 0x5; Region 17 0x80020000 0x3; Region 64 0 0x38]) 0 0x80200000 PRV_S true) 3 false.

Lemma booted_root_ok : root_ok booted_root.
Proof.
  split_and!; [|done|done|].
  - split; [|vm_compute; lia]. constructor; [|constructor; [|constructor; [|constructor]]]; (split; [split; [reflexivity|unfold in_range; cbn; lia]|]);
      [right; unfold low; cbn; lia|right; unfold low; cbn; lia|by left].
  - intros m [= <-]. split; [done|]. repeat constructor; unfold in_range; lia.
Qed.

(** A range of 24 KiB at 4 KiB granularity takes four regions. *)
Lemma root_add_memrange_exact_witness :
  exists s', sbi_domain_root_add_memrange 0 (fun _ => true) 3073 0x10001000 0x6000 0x1000 0x1b booted_root = Some (0, s') /\
    forall a f, covered (memregions s'.(rdom)) a f <-> covered (memregions booted_root.(rdom)) a f \/ in_span 0x10001000 0x10007000 0x1b a f.
Proof.
  destruct (root_add_memrange_exact (fun _ => true) 3073 0x10001000 0x6000 12 0x1b booted_root) as (rc & s' & E & _ & _ & _ & H); [lia|lia|lia|reflexivity|reflexivity|lia|vm_compute; reflexivity|exact booted_root_ok|].
  exists s'. change (2 ^ 12) with 0x1000 in E. assert (rc = 0) as Hrc. { vm_compute in E. congruence. }
  subst rc. split; [exact E|]. exact (H eq_refl).
Defined.

Example added_regions :
  option_map (fun r => (r.1, memregions (rdom r.2))) (sbi_domain_root_add_memrange 0 (fun _ => true) 10 0x10001000 0x6000 0x1000 0x1b booted_root)
  = Some (0, [Region 12 0x10001000 0x1b; Region 12 0x10006000 0x1b; Region 13 0x10002000 0x1b; Region 13 0x10004000 0x1b; Region 17 0x80000000 0x5; Region 17 0x80020000 0x3; Region 64 0 0x38]).
Proof. reflexivity. Qed.

(** A size that is not a power of two takes the next one: the block reaches
    beyond the range. *)
Example unaligned_range_grows :
  option_map (fun r => (r.1, memregions (rdom r.2))) (sbi_domain_root_add_memrange 0 (fun _ => true) 10 0x10000000 0x3000 0x10000 0x1b booted_root)
  = Some (0, [Region 14 0x10000000 0x1b; Region 17 0x80000000 0x5; Region 17 0x80020000 0x3; Region 64 0 0x38]).
Proof. reflexivity. Qed.
