(* ===== verification/DomainInit.v ===== *)
(** * Registering and starting domains (lib/sbi/sbi_domain.c)

    The domain objects are numbered; the root domain is number 0.  A hart points to
    its domain through its scratch space.  [hv] stands for [sbi_hartindex_valid],
    [scr] says which harts have a scratch space, [hartid] is
    [sbi_hartindex_to_hartid]; the data of domains are those of file DomainData.
    [None] is an access outside a mask or an array. *)

From S2P Require Import Prelude SbiTypes Bitops Hartmask Domain DomainData DomainReg Hsm.

Local Open Scope Z_scope.

(** The fields of [struct sbi_domain] that [sbi_domain] does not have. *)
Record domain_obj := DomObj { dom_ : sbi_domain; boot_hartid : Z; index_ : Z }.

Record domains := Domains {
  objs : gmap nat domain_obj; domain_list : list nat; hart_ptr : Z -> option nat; domain_count : Z; finalized : bool; ddata : data_sys }.

Definition set_obj (d : nat) (o : domain_obj) (s : domains) : domains :=
  Domains (<[d := o]> s.(objs)) s.(domain_list) s.(hart_ptr) s.(domain_count) s.(finalized) s.(ddata).
Definition set_list (l : list nat) (n : Z) (s : domains) : domains :=
  Domains s.(objs) l s.(hart_ptr) n s.(finalized) s.(ddata).
Definition set_hart_ptr (f : Z -> option nat) (s : domains) : domains :=
  Domains s.(objs) s.(domain_list) f s.(domain_count) s.(finalized) s.(ddata).
Definition set_ddata (x : data_sys) (s : domains) : domains :=
  Domains s.(objs) s.(domain_list) s.(hart_ptr) s.(domain_count) s.(finalized) x.
Definition set_finalized (s : domains) : domains :=
  Domains s.(objs) s.(domain_list) s.(hart_ptr) s.(domain_count) true s.(ddata).

Definition set_assigned (m : sbi_hartmask) (d : sbi_domain) : sbi_domain :=
  Dom m d.(possible_harts) d.(regions) d.(next_arg1) d.(next_addr) d.(next_mode) d.(fw_region_inited).
Definition set_dom (d : sbi_domain) (o : domain_obj) : domain_obj := DomObj d o.(boot_hartid) o.(index_).
Definition set_boot (h : Z) (o : domain_obj) : domain_obj := DomObj o.(dom_) h o.(index_).
Definition set_index (i : Z) (o : domain_obj) : domain_obj := DomObj o.(dom_) o.(boot_hartid) i.

Section Register.
Context (shl64 : Z) (hv scr : Z -> bool) (hartid : Z -> Z) (cold_hartid : Z).
Context (desc : nat -> sbi_domain_data) (alloc : nat -> bool).

(** [domain_hart_ptr_offset] is allocated when domains are registered. *)
Definition sbi_hartindex_to_domain (i : Z) (s : domains) : option nat := if scr i then s.(hart_ptr) i else None.

Definition sbi_update_hartindex_to_domain (i : Z) (d : nat) (s : domains) : domains :=
  if scr i then set_hart_ptr (fun j => if j =? i then Some d else s.(hart_ptr) j) s else s.

Definition sbi_domain_get_assigned_hartmask (dom : option sbi_domain) (mask : sbi_hartmask) : Z * sbi_hartmask :=
  match dom with
  | None => (0, sbi_hartmask_clear_all mask)
  | Some d => (0, sbi_hartmask_copy mask d.(assigned_harts))
  end.

(** The body of the loop over [assign_mask]. *)
Definition assign_hart (d : nat) (i : Z) (s : domains) : option domains :=
  o ← s.(objs) !! d;
  harts ← o.(dom_).(possible_harts);
  t ← sbi_hartmask_test_hartindex i harts;
  if t =? 0 then Some s
  else
    s ← match sbi_hartindex_to_domain i s with
        | None => Some s
        | Some td =>
            o ← s.(objs) !! td;
            m ← sbi_hartmask_clear_hartindex i o.(dom_).(assigned_harts);
            Some (set_obj td (set_dom (set_assigned m o.(dom_)) o) s)
        end;
    let s := sbi_update_hartindex_to_domain i d s in
    o ← s.(objs) !! d;
    m ← sbi_hartmask_set_hartindex i o.(dom_).(assigned_harts);
    let o := set_dom (set_assigned m o.(dom_)) o in
    let o := if (hartid i =? cold_hartid) && negb (o.(boot_hartid) =? cold_hartid) then set_boot cold_hartid o else o in
    Some (set_obj d o s).

Fixpoint assign_harts (d : nat) (is_ : list Z) (s : domains) : option domains :=
  match is_ with [] => Some s | i :: is_ => s ← assign_hart d i s; assign_harts d is_ s end.

Definition sbi_domain_register (dom : option nat) (assign_mask : option sbi_hartmask) (s : domains) : option (Z * domains) :=
  match dom, assign_mask with
  | Some d, Some mask =>
      if s.(finalized) then Some (SBI_EINVAL, s)
      else if bool_decide (d ∈ s.(domain_list)) then Some (SBI_EALREADY, s)
      else
        o ← s.(objs) !! d;
        let '(rc, dm) := sanitize_domain shl64 hv o.(dom_) in
        let s := set_obj d (set_dom dm o) s in
        if negb (rc =? 0) then Some (rc, s)
        else
          let o := set_index s.(domain_count) (set_dom (set_assigned (sbi_hartmask_clear_all dm.(assigned_harts)) dm) o) in
          let s := set_obj d o (set_list (s.(domain_list) ++ [d]) (u32 (s.(domain_count) + 1)) s) in
          is_ ← sbi_hartmask_for_each_hartindex mask;
          s ← assign_harts d is_ s;
          '(rc, x) ← sbi_domain_setup_data desc alloc (Some d) s.(ddata);
          let s := set_ddata x s in
          if negb (rc =? 0) then Some (rc, set_list (filter (fun e => e <> d) s.(domain_list)) s.(domain_count) s)
          else Some (0, s)
  | _, _ => Some (SBI_EINVAL, s)
  end.

(** [domains_init] is the function of the platform. *)
Definition sbi_domain_finalize (domains_init : domains -> Z * domains) (s : domains) : Z * domains :=
  if s.(finalized) then (SBI_EINVAL, s)
  else let '(rc, s) := domains_init s in if negb (rc =? 0) then (rc, s) else (0, set_finalized s).
End Register.

(** ** Every hart belongs to the domain it points to *)

Definition owns (s : domains) (d : nat) (i : Z) : Prop :=
  exists o, s.(objs) !! d = Some o /\ hart_in i o.(dom_).(assigned_harts) = true.

(** The assigned harts of the domains are disjoint, and the pointers of the harts
    say the same as the masks. *)
Record owners_ok (s : domains) : Prop := OwnersOk {
  masks_wf : forall d o, s.(objs) !! d = Some o -> mask_wf o.(dom_).(assigned_harts) /\ forall m, o.(dom_).(possible_harts) = Some m -> mask_wf m;
  owner_iff : forall d i, 0 <= i < 128 -> owns s d i <-> s.(hart_ptr) i = Some d;
}.

(** Only the assigned harts and the boot harts of domains may differ. *)
Definition frame (o : domain_obj) : domain_obj := set_boot 0 (set_dom (set_assigned [] o.(dom_)) o).
Definition same_frame (s s' : domains) : Prop :=
  frame <$> s'.(objs) = frame <$> s.(objs) /\ s'.(domain_list) = s.(domain_list) /\ s'.(domain_count) = s.(domain_count) /\
  s'.(finalized) = s.(finalized) /\ s'.(ddata) = s.(ddata).

Lemma same_frame_refl s : same_frame s s.
Proof. done. Qed.

Lemma same_frame_trans s1 s2 s3 : same_frame s1 s2 -> same_frame s2 s3 -> same_frame s1 s3.
Proof. intros (? & ? & ? & ? & ?) (? & ? & ? & ? & ?). split_and!; congruence. Qed.

Lemma same_frame_set d o o' s : s.(objs) !! d = Some o -> frame o' = frame o -> same_frame s (set_obj d o' s).
Proof. intros Hd Ho. split_and!; try done. cbn. rewrite fmap_insert, Ho. apply insert_id. by rewrite lookup_fmap, Hd. Qed.

Lemma same_frame_possible s s' d o : same_frame s s' -> s.(objs) !! d = Some o ->
  exists o', s'.(objs) !! d = Some o' /\ o'.(dom_).(possible_harts) = o.(dom_).(possible_harts) /\ frame o' = frame o.
Proof.
  intros (E & _) Ho. assert ((frame <$> s'.(objs)) !! d = Some (frame o)) as H by (rewrite E, lookup_fmap, Ho; done). rewrite lookup_fmap in H. apply fmap_Some in H as (o' & Ho' & Hf). exists o'.
  split; [done|]. split; [|done]. change (possible_harts (dom_ (frame o')) = possible_harts (dom_ (frame o))). congruence.
Qed.

Lemma owns_set_same d o s i : owns (set_obj d o s) d i <-> hart_in i o.(dom_).(assigned_harts) = true.
Proof. unfold owns. cbn. rewrite lookup_insert_eq. split; [intros (? & [= <-] & ?); done|intros ?; by exists o]. Qed.

Lemma owns_set_ne d d' o s i : d <> d' -> owns (set_obj d o s) d' i <-> owns s d' i.
Proof. intros Hne. unfold owns. cbn. by rewrite lookup_insert_ne. Qed.

Section RegisterProps.
Context (scr : Z -> bool) (hartid : Z -> Z) (cold_hartid : Z).

(** Taking hart [i] from the domain it points to. *)
Lemma release_hart i s : owners_ok s -> scr i = true -> 0 <= i < 128 ->
  exists s', match sbi_hartindex_to_domain scr i s with
        | None => Some s
        | Some td => o ← s.(objs) !! td; m ← sbi_hartmask_clear_hartindex i o.(dom_).(assigned_harts); Some (set_obj td (set_dom (set_assigned m o.(dom_)) o) s)
        end = Some s' /\ same_frame s s' /\ s'.(hart_ptr) = s.(hart_ptr) /\
    (forall d o, s'.(objs) !! d = Some o -> mask_wf o.(dom_).(assigned_harts)) /\
    (forall d j, 0 <= j < 128 -> owns s' d j <-> j <> i /\ s.(hart_ptr) j = Some d).
Proof.
  intros [Hm Hown] Hscr Hi. unfold sbi_hartindex_to_domain. rewrite Hscr. destruct (hart_ptr s i) as [td|] eqn:Ep.
  - destruct (proj2 (Hown td i Hi) Ep) as (o & Ho & Hin). rewrite Ho. cbn [mbind option_bind].
    destruct (clear_hartindex_spec _ i (proj1 (Hm td o Ho)) ltac:(lia)) as (m & -> & Hmw & Hmi). cbn [mbind option_bind]. eexists. split; [done|]. split; [by apply (same_frame_set _ o)|]. split; [done|]. split.
    + intros d o' Ho'. cbn in Ho'. destruct (decide (td = d)) as [->|N]; [rewrite lookup_insert_eq in Ho'; injection Ho' as <-; done|rewrite lookup_insert_ne in Ho' by done; by apply (Hm d)].
    + intros d j Hj. destruct (decide (td = d)) as [<-|N].
      * rewrite owns_set_same. cbn [dom_ set_dom assigned_harts set_assigned]. rewrite Hmi, andb_true_iff, negb_true_iff, Z.eqb_neq by done. rewrite <- Hown by done. split; [intros [? ?]; split; [done|by exists o]|].
        intros [? (o' & Ho' & ?)]. split; [done|]. congruence.
      * rewrite owns_set_ne, Hown by done. split; [|by intros [_ ?]]. intros E. split; [|done]. intros ->. congruence.
  - exists s. split; [done|]. split; [done|]. split; [done|]. split; [intros d o Ho; by apply (Hm d)|]. intros d j Hj. rewrite Hown by done. split; [|by intros [_ ?]]. intros E. split; [|done]. intros ->. congruence.
Qed.

Lemma assign_hart_effect d o harts i s : owners_ok s -> (hart_in i harts = true -> scr i = true) -> 0 <= i < 128 ->
  s.(objs) !! d = Some o -> o.(dom_).(possible_harts) = Some harts ->
  exists s', assign_hart scr hartid cold_hartid d i s = Some s' /\ owners_ok s' /\ same_frame s s' /\
    forall j, s'.(hart_ptr) j = if (j =? i) && hart_in i harts then Some d else s.(hart_ptr) j.
Proof.
  intros Hok Hscr Hi Ho Hh. pose proof Hok as [Hm Hown]. unfold assign_hart. rewrite Ho. cbn [mbind option_bind]. rewrite Hh. cbn [mbind option_bind].
  rewrite (test_hartindex_spec harts i) by (lia || by apply (Hm d o Ho)). cbn [mbind option_bind]. destruct (hart_in i harts) eqn:Ein; cbn [Z.b2z Z.eqb].
  2:{ exists s. split_and!; try done. intros j. by rewrite andb_false_r. }
  specialize (Hscr eq_refl).
  destruct (release_hart i s Hok Hscr Hi) as (s1 & -> & Hf1 & Hp1 & Hm1 & Hown1). cbn [mbind option_bind]. unfold sbi_update_hartindex_to_domain. rewrite Hscr. set (s2 := set_hart_ptr _ s1).
  destruct (same_frame_possible s s1 d o Hf1 Ho) as (o1 & Ho1 & Hpo & Hfo1). change (objs s2) with (objs s1). rewrite Ho1. cbn [mbind option_bind].
  destruct (set_hartindex_spec _ i (Hm1 d o1 Ho1) ltac:(lia)) as (m & -> & Hmw & Hmi). cbn [mbind option_bind]. set (o2 := if ((_ && _) : bool) then _ else _).
  assert (assigned_harts (dom_ o2) = m /\ frame o2 = frame o1 /\ possible_harts (dom_ o2) = possible_harts (dom_ o1)) as (Em & Ef & Eph) by (unfold o2; by destruct (_ && _)).
  exists (set_obj d o2 s2). split; [done|].
  assert (same_frame s (set_obj d o2 s2)) as Hf. { apply (same_frame_trans s s1); [done|]. apply (same_frame_trans s1 s2); [done|]. by apply (same_frame_set d o1). }
  assert (forall j, hart_ptr (set_obj d o2 s2) j = if j =? i then Some d else hart_ptr s j) as Hptr by (intros j; cbn; by rewrite Hp1).
  split; [split|split; [done|intros j; rewrite Hptr, andb_true_r; done]].
  - intros d' o' Ho'. split.
    + cbn in Ho'. destruct (decide (d = d')) as [<-|N]; [rewrite lookup_insert_eq in Ho'; injection Ho' as <-; by rewrite Em|rewrite lookup_insert_ne in Ho' by done; by apply (Hm1 d')].
    + destruct Hf as (Hf & _). assert ((frame <$> objs s) !! d' = Some (frame o')) as H by (rewrite <- Hf, lookup_fmap, Ho'; done). rewrite lookup_fmap in H. apply fmap_Some in H as (o0 & Ho0 & Hf0).
      change (forall m, possible_harts (dom_ (frame o')) = Some m -> mask_wf m). rewrite Hf0. exact (proj2 (Hm d' o0 Ho0)).
  - intros d' j Hj. rewrite Hptr. destruct (decide (d = d')) as [<-|N].
    + rewrite owns_set_same, Em, Hmi by done. destruct (Z.eqb_spec j i); [done|]. cbn [orb]. transitivity (owns s1 d j); [split; [by exists o1|intros (o' & ? & ?); congruence]|]. rewrite Hown1 by done. tauto.
    + rewrite owns_set_ne by done. change (owns s2 d' j) with (owns s1 d' j). rewrite Hown1 by done. destruct (Z.eqb_spec j i); [split; [tauto|congruence]|tauto].
Qed.

Lemma assign_harts_effect d harts : forall is_ s o, owners_ok s -> (forall i, i ∈ is_ -> 0 <= i < 128) -> (forall i, hart_in i harts = true -> scr i = true) ->
  s.(objs) !! d = Some o -> o.(dom_).(possible_harts) = Some harts ->
  exists s', assign_harts scr hartid cold_hartid d is_ s = Some s' /\ owners_ok s' /\ same_frame s s' /\
    forall j, s'.(hart_ptr) j = if bool_decide (j ∈ is_) && hart_in j harts then Some d else s.(hart_ptr) j.
Proof.
  induction is_ as [|i is_ IH]; intros s o Hok His Hscr Ho Hh; [by exists s|]. cbn [assign_harts]. pose proof (His i ltac:(left)) as Hi.
  destruct (assign_hart_effect d o harts i s Hok (Hscr i) Hi Ho Hh) as (s1 & -> & Hok1 & Hf1 & Hp1). cbn [mbind option_bind]. destruct (same_frame_possible s s1 d o Hf1 Ho) as (o1 & Ho1 & Hpo1 & _).
  destruct (IH s1 o1 Hok1) as (s' & E & Hok' & Hf' & Hp'); [intros j Hj; apply His; by right|done|done|congruence|]. exists s'. split; [done|]. split; [done|]. split; [by apply (same_frame_trans s s1)|].
  intros j. rewrite Hp', Hp1. destruct (bool_decide_reflect (j ∈ is_)), (bool_decide_reflect (j ∈ i :: is_)) as [Hin|Hin]; cbn [andb].
  - destruct (hart_in j harts) eqn:Ej; [done|]. destruct (Z.eqb_spec j i) as [->|]; [by rewrite Ej|done].
  - destruct Hin. by right.
  - apply elem_of_cons in Hin as [->|?]; [|done]. by rewrite Z.eqb_refl.
  - destruct (Z.eqb_spec j i) as [->|]; [destruct Hin; left|done].
Qed.
End RegisterProps.

(** A domain that is not in use: an object no hart points to. *)
Definition fresh_domain (d : nat) (s : domains) : Prop := (forall i, 0 <= i < 128 -> s.(hart_ptr) i <> Some d) /\ (d < length s.(ddata).(dom_ptrs))%nat.

Lemma owners_frame d o o' s : owners_ok s -> s.(objs) !! d = Some o -> (forall i, 0 <= i < 128 -> s.(hart_ptr) i <> Some d) ->
  mask_wf o'.(dom_).(assigned_harts) -> (forall i, hart_in i o'.(dom_).(assigned_harts) = false) -> o'.(dom_).(possible_harts) = o.(dom_).(possible_harts) ->
  owners_ok (set_obj d o' s).
Proof.
  intros [Hm Hown] Ho Hno Hwf He Hp. split.
  - intros d' o1 Ho1. cbn in Ho1. destruct (decide (d = d')) as [<-|N]; [rewrite lookup_insert_eq in Ho1; injection Ho1 as <-; split; [done|rewrite Hp; apply (Hm d o Ho)]|rewrite lookup_insert_ne in Ho1 by done; by apply (Hm d')].
  - intros d' i Hi. change (hart_ptr (set_obj d o' s)) with (hart_ptr s). destruct (decide (d = d')) as [<-|N]; [|rewrite owns_set_ne by done; by apply Hown].
    rewrite owns_set_same, He. split; [done|]. intros E. by destruct (Hno i Hi).
Qed.

Lemma fresh_mask d o s : owners_ok s -> s.(objs) !! d = Some o -> (forall i, 0 <= i < 128 -> s.(hart_ptr) i <> Some d) -> forall i, hart_in i o.(dom_).(assigned_harts) = false.
Proof.
  intros [_ Hown] Ho Hno i. destruct (hart_in i _) eqn:E; [|done]. pose proof (hart_in_range _ _ E) as Hi. destruct (Hno i Hi). apply Hown; [done|]. by exists o.
Qed.

Lemma clear_all_spec m : mask_wf m -> mask_wf (sbi_hartmask_clear_all m) /\ forall i, hart_in i (sbi_hartmask_clear_all m) = false.
Proof.
  intros Hm. destruct (two_words m Hm) as (w0 & w1 & -> & _). change (sbi_hartmask_clear_all [w0; w1]) with [0; 0].
  split; [split; [done|]; repeat constructor; unfold in_range; lia|]. intros i. unfold hart_in. change (bval [0; 0]) with 0. by rewrite Z.bits_0, andb_false_r.
Qed.

(** What a registration of domain [d] with the harts of [mask] may do. *)
Definition registered (s : domains) (d : nat) (mask : sbi_hartmask) (rc : Z) (s' : domains) : Prop :=
  owners_ok s' /\ data_inv s'.(ddata) /\
  (rc = 0 -> s.(finalized) = false /\ (d ∉ s.(domain_list)) /\ s'.(domain_list) = s.(domain_list) ++ [d] /\
     (forall x, x ∈ s.(ddata).(data_list) -> exists p, sbi_domain_data_ptr (Some d) (Some x) s'.(ddata) = Some (Some p)) /\
     exists o harts, s.(objs) !! d = Some o /\ o.(dom_).(possible_harts) = Some harts /\
       forall i, 0 <= i < 128 -> s'.(hart_ptr) i = if hart_in i mask && hart_in i harts then Some d else s.(hart_ptr) i) /\
  (rc <> 0 -> s'.(domain_list) = s.(domain_list)).

Lemma harts_from_in i m : i ∈ harts_from m 0 <-> hart_in i m = true.
Proof.
  unfold harts_from. rewrite list_elem_of_filter, elem_of_seqZ. split; [by intros [? _]|]. intros H. split; [done|]. pose proof (hart_in_range _ _ H). lia.
Qed.

Lemma register_tail scr hartid cold_hartid desc alloc d o harts mask s :
  owners_ok s -> data_inv s.(ddata) -> (d < length s.(ddata).(dom_ptrs))%nat -> mask_wf mask -> s.(objs) !! d = Some o -> o.(dom_).(possible_harts) = Some harts ->
  (forall i, hart_in i harts = true -> scr i = true) ->
  exists s1 rc x, assign_harts scr hartid cold_hartid d (harts_from mask 0) s = Some s1 /\ sbi_domain_setup_data desc alloc (Some d) s1.(ddata) = Some (rc, x) /\
    owners_ok s1 /\ same_frame s s1 /\ data_inv x /\
    (rc = 0 -> forall y, y ∈ s.(ddata).(data_list) -> exists p, sbi_domain_data_ptr (Some d) (Some y) x = Some (Some p)) /\
    forall i, s1.(hart_ptr) i = if hart_in i mask && hart_in i harts then Some d else s.(hart_ptr) i.
Proof.
  intros Hok Hinv Hd Hmw Ho Hh Hscr.
  destruct (assign_harts_effect scr hartid cold_hartid d harts (harts_from mask 0) s o Hok) as (s1 & E1 & Hok1 & Hfr & Hp); [intros i Hi%harts_from_in; by apply hart_in_range in Hi|done..|].
  cbn [sbi_domain_setup_data]. destruct (setup_list_effect desc alloc d s.(ddata).(data_list) s.(ddata) Hinv ltac:(done) (kinds_nodup _ (proj2 Hinv)) Hd) as (rc & x & E & Hinv' & (F1 & F2 & _) & Hall).
  pose proof Hfr as (_ & _ & _ & _ & Ed). exists s1, rc, x. rewrite Ed. split_and!; try done.
  - intros Hrc y Hy. rewrite ptr_slot, F2 by (apply Hinv' || by rewrite F1). by apply Hall.
  - intros i. rewrite Hp. destruct (bool_decide_reflect (i ∈ harts_from mask 0)) as [Hi|Hi]; rewrite harts_from_in in Hi; [by rewrite Hi|]. apply not_true_is_false in Hi. by rewrite Hi.
Qed.

Lemma not_in_filter (d : nat) l : d ∉ l -> filter (fun e => e <> d) (l ++ [d]) = l.
Proof.
  intros Hd. rewrite filter_app, filter_cons_False by (intros H; by apply H). cbn. rewrite app_nil_r. induction l as [|x l IH]; [done|]. apply not_elem_of_cons in Hd as [? ?].
  rewrite filter_cons_True by done. by rewrite IH.
Qed.

(** C28: Registering domains keeps the harts partitioned.  The harts of the
    domains' masks stay disjoint and every hart points to the domain whose mask
    it is in, whatever the registration returns.  When it succeeds, exactly the
    requested harts that are possible for the domain have moved to it, every
    other hart stays where it was, the domain is the last of the list and it has
    a block of every registered kind of data; otherwise the list is as before. *)
Theorem domain_register_partitions shl64 hv scr hartid cold_hartid desc alloc d o mask s :
  owners_ok s -> data_inv s.(ddata) -> s.(objs) !! d = Some o -> (d ∉ s.(domain_list) -> fresh_domain d s) -> mask_wf mask ->
  (forall i, 0 <= i < 128 -> hv i = true -> scr i = true) ->
  exists rc s', sbi_domain_register shl64 hv scr hartid cold_hartid desc alloc (Some d) (Some mask) s = Some (rc, s') /\ registered s d mask rc s'.
Proof.
  intros Hok Hinv Ho Hfresh Hmw Hhs. unfold sbi_domain_register. destruct (finalized s) eqn:Efin; [by exists SBI_EINVAL, s|].
  destruct (bool_decide_reflect (d ∈ domain_list s)) as [|Hnew]; [by exists SBI_EALREADY, s|]. destruct (Hfresh Hnew) as [Hno Hd].
  rewrite Ho. cbn [mbind option_bind]. destruct (sanitize_domain shl64 hv (dom_ o)) as [rc dm] eqn:Es.
  destruct (sanitize_domain_spec _ _ _ _ _ (proj2 (masks_wf s Hok d o Ho)) Es) as (Hsane & _ & _ & _ & Eph & Eas & _ & _).
  pose proof (proj1 (masks_wf s Hok d o Ho)) as Hmo. pose proof (fresh_mask d o s Hok Ho Hno) as He.
  assert (owners_ok (set_obj d (set_dom dm o) s)) as Hok1 by (apply (owners_frame d o); try done; cbn; by rewrite Eas).
  destruct (Z.eqb_spec rc 0) as [->|Hrc]; cbn [negb]; [|exists rc; eexists; split; [done|]; by split_and!].
  destruct (proj1 Hsane eq_refl) as ((harts & regs & Hh & _ & Hvalid & _) & _). destruct (clear_all_spec _ Hmo) as [Hcw Hce]. rewrite Eas. set (s2 := set_obj d _ (set_list _ _ _)). set (o2 := set_index _ _) in s2.
  assert (objs s2 !! d = Some o2) as Ho2 by apply lookup_insert_eq.
  assert (owners_ok s2) as Hok2.
  { assert (owners_ok (set_list (domain_list s ++ [d]) (u32 (domain_count s + 1)) (set_obj d (set_dom dm o) s))) as H by (split; apply Hok1). apply (owners_frame d (set_dom dm o)); try done. apply lookup_insert_eq. }
  rewrite (for_each_spec mask Hmw). cbn [mbind option_bind].
  destruct (register_tail scr hartid cold_hartid desc alloc d o2 harts mask s2 Hok2 Hinv Hd Hmw Ho2) as (s3 & rc & x & -> & E4 & Hok3 & (_ & El3 & _) & Hinvx & Hdata & Hptr); [cbn; congruence|intros i Hi; pose proof (hart_in_range _ _ Hi); auto|].
  cbn [mbind option_bind]. rewrite E4. cbn [mbind option_bind]. destruct (Z.eqb_spec rc 0) as [->|Hrc]; cbn [negb]; eexists _, _; (split; [done|]); (split; [split; apply Hok3|]); (split; [done|]).
  - split; [|done]. intros _. split_and!; try done; [by auto|]. exists o, harts. split_and!; try done. intros i Hi. apply Hptr.
  - split; [done|]. intros _. cbn [domain_list set_list set_ddata]. rewrite El3. by apply not_in_filter.
Qed.

(** The data of one domain before any kind is registered. *)
Definition empty_data : data_sys := DataSys [] (fun _ => 0) 0 [replicate 32 None] ∅ 0 [].

Lemma empty_slot d i p f b n l : slot d i (DataSys l f b [replicate 32 None] ∅ n []) <> Some (Some p).
Proof.
  unfold slot. cbn [dom_ptrs]. destruct d as [|d]; [|done]. cbn [mbind option_bind lookup list_lookup]. intros H. change (replicate 32 (@None nat) !! Z.to_nat i = Some (Some p)) in H. apply lookup_replicate in H as [? _]. done.
Qed.

Lemma empty_data_inv : data_inv empty_data.
Proof.
  split; split; cbn; try done.
  - repeat constructor.
  - intros d i p _ H. by apply empty_slot in H.
  - intros d i d' i' p _ _ H. by apply empty_slot in H.
  - apply NoDup_nil_2.
  - intros x y Hx. by apply not_elem_of_nil in Hx.
  - intros i Hi. unfold bitmap_test. rewrite Z.bits_0. split; [done|]. intros (x & ?%not_elem_of_nil & _). done.
  - intros d i p _ H. by apply empty_slot in H.
Qed.

(** A domain for harts 0 and 1, before it is registered. *)
Definition new_domain : domain_obj := DomObj (Dom [0; 0] (Some [3; 0]) (Some [Region 64 0 0x38; Region 18 0x80000000 0x7]) 0 0x80200000 PRV_S true) 0 0.
Definition unregistered : domains := Domains {[0%nat := new_domain]} [] (fun _ => None) 0 false empty_data.

Lemma unregistered_ok : owners_ok unregistered.
Proof.
  assert (forall d o, objs unregistered !! d = Some o -> o = new_domain) as Hone by (intros d o Ho; cbn in Ho; by apply lookup_singleton_Some in Ho as [_ <-]). split.
  - intros d o ->%Hone. split; [|intros m [= <-]]; (split; [reflexivity|]; repeat constructor; unfold in_range; lia).
  - intros d i Hi. split; [|done]. intros (o & ->%Hone & H). unfold hart_in in H. cbn [new_domain dom_ assigned_harts] in H. change (bval [0; 0]) with 0 in H. by rewrite Z.bits_0, andb_false_r in H.
Qed.

Lemma domain_register_partitions_witness :
  exists s', sbi_domain_register 0 (fun i => i <? 2) (fun i => i <? 2) (fun i => i) 1 (fun _ => DomainData 8 None false) (fun _ => true) (Some 0%nat) (Some [6; 0]) unregistered = Some (0, s') /\
    owners_ok s' /\ s'.(hart_ptr) 0 = None /\ s'.(hart_ptr) 1 = Some 0%nat.
Proof.
  destruct (domain_register_partitions 0 (fun i => i <? 2) (fun i => i <? 2) (fun i => i) 1 (fun _ => DomainData 8 None false) (fun _ => true) 0 new_domain [6; 0] unregistered unregistered_ok empty_data_inv) as (rc & s' & E & Hok & _ & H & _);
    [apply lookup_singleton_eq|intros _; split; [done|cbn; lia]|split; [reflexivity|]; repeat constructor; unfold in_range; lia|done|].
  assert (rc = 0) as Hrc by (vm_compute in E; congruence). subst rc. exists s'. split; [exact E|]. split; [exact Hok|]. destruct (H eq_refl) as (_ & _ & _ & _ & o & harts & Ho & Hh & Hp).
  assert (harts = [3; 0]) as -> by (change (objs unregistered !! 0%nat) with (Some new_domain) in Ho; injection Ho as <-; injection Hh as <-; reflexivity).
  rewrite !Hp by lia. split; reflexivity.
Defined.
