(* ===== verification/DomainBoot.v ===== *)
(** * The root domain and the start of the domains (lib/sbi/sbi_domain.c, sbi_domain_context.c)

    [sbi_domain_init] makes the root domain from what the scratch space of the cold
    boot hart says of the firmware; [sbi_domain_startup] starts the boot harts of
    the domains through the hart state management of file Hsm. *)

From stdpp Require Import sorting.
From S2P Require Import Prelude SbiTypes Bitops Hartmask Domain DomainData DomainReg DomainInit Hsm.

Local Open Scope Z_scope.

(** The fields of [struct sbi_scratch] that are read. *)
Record fw_scratch := FwScratch { fw_start : Z; fw_size : Z; fw_rw_offset : Z; scr_next_arg1 : Z; scr_next_addr : Z; scr_next_mode : Z }.

Definition dcpriv : sbi_domain_data := DomainData 1024 None false.

(** The array of regions, as far as its first region of order 0. *)
Fixpoint region_array (l : list sbi_domain_memregion) : list sbi_domain_memregion :=
  match l with [] => [] | r :: l => if r.(order) =? 0 then [] else r :: region_array l end.

Definition fw_rx (fw : fw_scratch) : sbi_domain_memregion :=
  sbi_domain_memregion_init fw.(fw_start) fw.(fw_rw_offset) (Z.lor SBI_DOMAIN_MEMREGION_M_READABLE SBI_DOMAIN_MEMREGION_M_EXECUTABLE).
Definition fw_rw (fw : fw_scratch) : sbi_domain_memregion :=
  sbi_domain_memregion_init (u64 (fw.(fw_start) + fw.(fw_rw_offset))) (u64 (fw.(fw_size) - fw.(fw_rw_offset)))
    (Z.lor SBI_DOMAIN_MEMREGION_M_READABLE SBI_DOMAIN_MEMREGION_M_WRITABLE).
Definition all_memory : sbi_domain_memregion :=
  sbi_domain_memregion_init 0 (u64 (-1)) (Z.lor (Z.lor SBI_DOMAIN_MEMREGION_SU_READABLE SBI_DOMAIN_MEMREGION_SU_WRITABLE) SBI_DOMAIN_MEMREGION_SU_EXECUTABLE).

Fixpoint set_harts (is_ : list Z) (m : sbi_hartmask) : option sbi_hartmask :=
  match is_ with [] => Some m | i :: is_ => m ← sbi_hartmask_set_hartindex i m; set_harts is_ m end.

Section Boot.
Context (shl64 : Z) (hv scr : Z -> bool) (hartid : Z -> Z) (cold_hartid : Z).
Context (desc : nat -> sbi_domain_data) (alloc : nat -> bool).

(** Kind of data 0 is [dcpriv].  The list of domains is empty in both calls, so
    the loops over the domains do nothing. *)
Definition sbi_domain_context_init (s : domains) : option (Z * domains) :=
  '(rc, x) ← sbi_domain_register_data desc alloc (Some 0%nat) (set_ptrs [] s.(ddata));
  Some (rc, set_ddata (set_ptrs s.(ddata).(dom_ptrs) x) s).

Definition sbi_domain_context_deinit (s : domains) : option domains :=
  x ← sbi_domain_unregister_data desc 0 (set_ptrs [] s.(ddata));
  Some (set_ddata (set_ptrs s.(ddata).(dom_ptrs) x) s).

(** [off] is the offset allocated in the scratch spaces, [calloc] and [zalloc] say
    whether the regions and the mask could be allocated.  The root domain is a
    static object, number 0. *)
Definition sbi_domain_init (off : Z) (calloc zalloc : bool) (hart_count : nat) (fw : fw_scratch) (s : domains) : option (Z * domains) :=
  let s := set_list [] s.(domain_count) s in
  if (fw.(fw_rw_offset) =? 0) || negb (Z.land fw.(fw_rw_offset) (u64 (fw.(fw_rw_offset) - 1)) =? 0) then Some (SBI_EINVAL, s)
  else if negb (Z.land fw.(fw_start) (u64 (fw.(fw_rw_offset) - 1)) =? 0) then Some (SBI_EINVAL, s)
  else if off =? 0 then Some (SBI_ENOMEM, s)
  else
    '(rc, s) ← sbi_domain_context_init s;
    if negb (rc =? 0) then Some (rc, s)
    else if negb calloc then s ← sbi_domain_context_deinit s; Some (SBI_ENOMEM, s)
    else
      root ← s.(objs) !! 0%nat;
      let root := set_dom (set_regions [] root.(dom_)) root in
      if negb zalloc then s ← sbi_domain_context_deinit (set_obj 0 root s); Some (SBI_ENOMEM, s)
      else
        root_hmask ← set_harts (seqZ 0 (Z.of_nat hart_count)) [0; 0];
        let root := DomObj (Dom root.(dom_).(assigned_harts) (Some root_hmask) (Some (region_array [fw_rx fw; fw_rw fw; all_memory]))
                                fw.(scr_next_arg1) fw.(scr_next_addr) fw.(scr_next_mode) true) cold_hartid root.(index_) in
        '(rc, s) ← sbi_domain_register shl64 hv scr hartid cold_hartid desc alloc (Some 0%nat) (Some root_hmask) (set_obj 0 root s);
        if negb (rc =? 0) then s ← sbi_domain_context_deinit s; Some (rc, s) else Some (0, s).

(** The loop of [sbi_domain_startup] on hart index [me]. *)
Context (hsm_dev : option sbi_hsm_device) (warmboot_addr : Z) (hartid_to_hartindex : Z -> Z) (ipi_raw_send : Z -> Z) (me : Z).

Fixpoint startup_loop (ds : list nat) (s : domains) : Hsm.prog Z :=
  match ds with
  | [] => Hsm.Ret 0
  | d :: ds =>
      match s.(objs) !! d with
      | None => Hsm.Ret SBI_EINVAL
      | Some o =>
          let dhart := hartid_to_hartindex o.(boot_hartid) in
          let possible := match o.(dom_).(possible_harts) ≫= sbi_hartmask_test_hartindex dhart with Some t => negb (t =? 0) | None => false end in
          if negb (hv dhart) then startup_loop ds s
          else if negb possible then startup_loop ds s
          else if negb (bool_decide (sbi_hartindex_to_domain scr dhart s = Some d)) then startup_loop ds s
          else if negb (sbi_domain_is_assigned_hart (Some o.(dom_)) dhart) then startup_loop ds s
          else if o.(boot_hartid) =? cold_hartid then
            Hsm.Do (wr (set_addr o.(dom_).(next_addr)) me) (fun _ =>
            Hsm.Do (wr (set_mode o.(dom_).(next_mode)) me) (fun _ =>
            Hsm.Do (wr (set_arg1 o.(dom_).(next_arg1)) me) (fun _ => startup_loop ds s)))
          else
            Hsm.pbind (sbi_hsm_hart_start hsm_dev warmboot_addr hartid_to_hartindex ipi_raw_send None o.(boot_hartid) o.(dom_).(next_addr) o.(dom_).(next_mode) o.(dom_).(next_arg1))
              (fun rc => if negb (rc =? 0) then Hsm.Ret rc else startup_loop ds s)
      end
  end.

Definition sbi_domain_startup (s : domains) : Hsm.prog Z :=
  if negb s.(finalized) then Hsm.Ret SBI_EINVAL else startup_loop s.(domain_list) s.
End Boot.

(** ** The root domain protects the firmware *)

(** The first region that holds the address decides; in a sorted list it is the smallest. *)
Lemma check_regions_first l a mode fl : StronglySorted region_le l -> (exists r, r ∈ l /\ in_region r a = true) ->
  exists r, r ∈ l /\ in_region r a = true /\ check_regions l a mode fl = region_allows r mode fl /\ forall r', r' ∈ l -> in_region r' a = true -> r' = r \/ region_le r r'.
Proof.
  induction l as [|r0 l IH]; intros Hs (r & Hr & Hin); [by apply not_elem_of_nil in Hr|]. apply StronglySorted_inv in Hs as [Hs Hle]. cbn [check_regions]. destruct (in_region r0 a) eqn:E.
  - exists r0. split_and!; [left|done|done|]. intros r' [->|Hr']%elem_of_cons _; [by left|right]. rewrite Forall_forall in Hle. by apply Hle.
  - apply elem_of_cons in Hr as [->|Hr]; [congruence|]. destruct IH as (r1 & H1 & H2 & H3 & H4); [done|by exists r|]. exists r1. split_and!; [by right|done|done|].
    intros r' [->|Hr']%elem_of_cons Hin'; [congruence|by apply H4].
Qed.

Definition m_only (r : sbi_domain_memregion) : Prop := r.(order) < 64 /\ Z.land r.(flags) SBI_DOMAIN_MEMREGION_SU_ACCESS_MASK = 0.

Lemma m_only_denies r mode fl : m_only r -> mode = PRV_S \/ mode = PRV_U -> Z.land fl 7 <> 0 -> region_allows r mode fl = false.
Proof.
  intros [_ Hf] Hm Hfl. unfold region_allows. destruct (negb _); [done|]. assert (region_rwx r mode = 0) as -> by (unfold region_rwx; rewrite Hf; destruct Hm as [->| ->]; done).
  rewrite Z.land_0_l. apply Z.eqb_neq. intros E. apply Hfl. unfold access_rwx in E. apply Z.bits_inj'. intros n Hn. rewrite Z.land_spec, Z.bits_0.
  assert (forall k, (k = 1 \/ k = 2 \/ k = 4) -> (if negb (Z.land fl k =? 0) then k else 0) = 0 -> Z.land fl k = 0) as Hz.
  { intros k Hk. destruct (Z.eqb_spec (Z.land fl k) 0); [done|]. cbn [negb]. lia. }
  unfold SBI_DOMAIN_READ, SBI_DOMAIN_WRITE, SBI_DOMAIN_EXECUTE, SBI_DOMAIN_MEMREGION_M_READABLE, SBI_DOMAIN_MEMREGION_M_WRITABLE, SBI_DOMAIN_MEMREGION_M_EXECUTABLE in E.
  symmetry in E. apply Z.lor_eq_0_iff in E as [[E1 E2]%Z.lor_eq_0_iff E3]. apply Hz in E1, E2, E3; [|lia..]. change 7 with (Z.lor (Z.lor 1 2) 4).
  rewrite <- Z.land_spec, !Z.land_lor_distr_r, E1, E2, E3. apply Z.bits_0.
Qed.

(** Machine-mode regions and all of memory: what S and U mode may access. *)
Lemma guarded_regions l r1 r2 all a mode fl : StronglySorted region_le l -> l ≡ₚ [r1; r2; all] -> m_only r1 -> m_only r2 ->
  all = Region 64 0 0x38 -> 0 <= a < 2 ^ 64 -> mode = PRV_S \/ mode = PRV_U ->
  (in_region r1 a = true \/ in_region r2 a = true -> Z.land fl 7 <> 0 -> check_regions l a mode fl = false) /\
  (in_region r1 a = false -> in_region r2 a = false -> Z.land fl 8 = 0 -> check_regions l a mode fl = true).
Proof.
  intros Hs Hp H1 H2 -> Ha Hm. assert (in_region (Region 64 0 0x38) a = true) as Hall by (rewrite in_region_spec by (split; [done|unfold in_range; cbn; lia]); cbn [base order]; lia). assert (forall r, r ∈ l <-> r = r1 \/ r = r2 \/ r = Region 64 0 0x38) as Hel.
  { intros r. rewrite Hp, !elem_of_cons, elem_of_nil. tauto. }
  destruct (check_regions_first l a mode fl Hs) as (r & Hr & Hin & -> & Hmin); [exists (Region 64 0 0x38); split; [apply Hel; tauto|done]|]. apply Hel in Hr. split.
  - intros Hi Hfl. destruct Hr as [->|[->| ->]]; [by apply m_only_denies..|]. exfalso.
    assert (forall r', m_only r' -> ~ region_le (Region 64 0 0x38) r' /\ r' <> Region 64 0 0x38) as Hno by (intros r' [Ho _]; rewrite region_le_spec; cbn; split; [lia|intros ->; cbn in Ho; lia]).
    destruct Hi as [Hi|Hi]; [destruct (Hmin r1)|destruct (Hmin r2)]; try done; try (apply Hel; tauto); by (destruct (Hno r1); destruct (Hno r2)).
  - intros E1 E2 Hmm. destruct Hr as [->|[->| ->]]; [congruence..|]. unfold region_allows. assert (Z.land fl SBI_DOMAIN_MMIO = 0) as -> by done. cbn [flags negb Z.eqb]. change (negb (Z.land 0x38 SBI_DOMAIN_MEMREGION_MMIO =? 0)) with false. cbn [Bool.eqb negb].
    apply Z.eqb_eq. assert (region_rwx (Region 64 0 0x38) mode = 7) as -> by (destruct Hm as [->| ->]; done). unfold access_rwx. by repeat case_match.
Qed.

Lemma init_block addr size fl : 0 <= addr -> 8 <= size -> addr + size <= 2 ^ 62 ->
  let r := sbi_domain_memregion_init addr size fl in
  region_wf r /\ 3 <= r.(order) < 64 /\ r.(flags) = fl /\ forall a, addr <= a < addr + size -> in_region r a = true.
Proof.
  intros Ha Hs He. destruct (memregion_init_smallest addr size fl) as (Ho & Hf & (Hb & Hmod & Hb1 & Hb2) & Hmin); [unfold in_range; lia|lia|lia|].
  destruct (sbi_domain_memregion_init addr size fl) as [o b f]. cbn [order base flags] in *. assert (o <= 62) as Ho2 by (apply (Hmin 62 0); [lia|split_and!; done || lia|lia]).
  assert (3 <= o) as Ho3. { destruct (decide (3 <= o)); [done|]. assert (2 ^ o <= 2 ^ 2) by (apply pow2_le; lia). lia. }
  assert (region_wf (Region o b f)) as Hwf.
  { split; [|unfold in_range; cbn; lia]. unfold is_region_valid, riscv_xlen. cbn [order base]. rewrite (proj2 (Z.ltb_ge o 3)), (proj2 (Z.ltb_ge 64 o)), (proj2 (Z.eqb_neq o 64)), (proj2 (Z.ltb_lt o 64)) by lia.
    cbn [orb andb]. rewrite shl1, land_low, Hmod by lia. done. }
  split_and!; [done|lia|lia|done|]. intros a Hia. rewrite in_region_spec by done. cbn [base order]. lia.
Qed.

Lemma set_harts_spec : forall is_ m, mask_wf m -> (forall i, i ∈ is_ -> 0 <= i) ->
  exists m', set_harts is_ m = Some m' /\ mask_wf m' /\ forall j, 0 <= j < 128 -> hart_in j m' = bool_decide (j ∈ is_) || hart_in j m.
Proof.
  induction is_ as [|i is_ IH]; intros m Hm His; [by exists m|]. cbn [set_harts]. destruct (set_hartindex_spec m i Hm) as (m1 & -> & Hm1 & H1); [apply His; left|]. cbn [mbind option_bind].
  destruct (IH m1 Hm1) as (m' & E & Hm' & H'); [intros j Hj; apply His; by right|]. exists m'. split_and!; [done..|]. intros j Hj. rewrite H', H1 by done.
  destruct (bool_decide_reflect (j ∈ is_)), (bool_decide_reflect (j ∈ i :: is_)) as [Hin|Hin]; cbn [orb]; [done|destruct Hin; by right| |].
  - apply elem_of_cons in Hin as [->|?]; [|done]. by rewrite Z.eqb_refl.
  - destruct (Z.eqb_spec j i) as [->|]; [destruct Hin; left|done].
Qed.

(** The conditions under which the sanity checks accept a domain, whose regions
    are then sorted. *)
Lemma sanitize_accepts shl64 hv dom harts regs : dom.(possible_harts) = Some harts -> mask_wf harts -> forallb hv (harts_from harts 0) = true ->
  dom.(regions) = Some regs -> forallb is_region_valid regs = true -> dom.(fw_region_inited) = true -> dom.(next_mode) = PRV_S \/ dom.(next_mode) = PRV_U ->
  (forall l, StronglySorted region_le l -> l ≡ₚ regs -> check_regions l dom.(next_addr) dom.(next_mode) SBI_DOMAIN_EXECUTE = true) ->
  exists l, sanitize_domain shl64 hv dom = (SBI_OK, set_regions l dom) /\ StronglySorted region_le l /\ l ≡ₚ regs.
Proof.
  intros Hh Hw Hv Hr Hreg Hfw Hmode Hc. destruct (sort_regions_spec (length regs) regs eq_refl) as [Hp Hs]. exists (sort_regions (length regs) regs). split; [|done]. unfold sanitize_domain.
  rewrite Hh, (for_each_spec harts Hw), Hv, Hr, Hreg, Hfw. cbn [negb]. rewrite remove_covered_end by (rewrite (Permutation_length Hp); lia). cbn [next_mode next_addr sbi_domain_check_addr]. unfold memregions. cbn [regions default].
  rewrite Hc by done. unfold set_regions. rewrite Hh, Hfw. destruct Hmode as [->| ->]; done.
Qed.

(** The static state before the call. *)
Definition domains_boot : domains := Domains {[0%nat := DomObj (Dom [0; 0] None None 0 0 0 false) 0 0]} [] (fun _ => None) 0 false empty_data.

(** The state of the data once [dcpriv] is registered. *)
Definition ctx_data : data_sys := DataSys [0%nat] (<[0%nat := 0]> (fun _ => 0)) 1 [replicate 32 None] ∅ 0 [].

Lemma ctx_data_inv : data_inv ctx_data.
Proof.
  split; split; cbn; try done.
  - repeat constructor.
  - intros d i p _ H. by apply empty_slot in H.
  - intros d i d' i' p _ _ H. by apply empty_slot in H.
  - apply NoDup_singleton.
  - intros x ->%list_elem_of_singleton. rewrite fn_lookup_insert. lia.
  - intros x y ->%list_elem_of_singleton ->%list_elem_of_singleton. done.
  - intros i Hi. unfold bitmap_test. change 1 with (2 ^ 0). rewrite Z.pow2_bits_eqb by lia. rewrite Z.eqb_eq. split; [intros <-; exists 0%nat; split; [by apply list_elem_of_singleton|apply fn_lookup_insert]|].
    intros (x & ->%list_elem_of_singleton & E). by rewrite fn_lookup_insert in E.
  - intros d i p _ H. by apply empty_slot in H.
Qed.

Lemma context_init_boot desc alloc : desc 0%nat = dcpriv -> sbi_domain_context_init desc alloc (set_list [] 0 domains_boot) = Some (0, set_ddata ctx_data (set_list [] 0 domains_boot)).
Proof. intros Hd. unfold sbi_domain_context_init, sbi_domain_register_data. rewrite Hd. done. Qed.

Lemma setup_ctx desc alloc : desc 0%nat = dcpriv -> alloc 0%nat = true -> exists x, sbi_domain_setup_data desc alloc (Some 0%nat) ctx_data = Some (0, x).
Proof.
  intros Hd Ha. cbn [sbi_domain_setup_data ctx_data data_list setup_list]. unfold domain_setup_data_one. change (slot 0 (data_idx ctx_data 0) ctx_data) with (Some (@None nat)). cbn [mbind option_bind].
  unfold sbi_zalloc. change (attempts ctx_data) with 0%nat. rewrite Ha, Hd. by eexists.
Qed.

(** A firmware image below [2 ^ 62] that is aligned to its read-only part, and a
    next stage outside the blocks around the two parts. *)
Record fw_ok (k : Z) (fw : fw_scratch) : Prop := FwOk {
  fw_k : 3 <= k; fw_off : fw.(fw_rw_offset) = 2 ^ k; fw_pos : 0 <= fw.(fw_start); fw_align : fw.(fw_start) `mod` 2 ^ k = 0;
  fw_data : 2 ^ k + 8 <= fw.(fw_size); fw_end : fw.(fw_start) + fw.(fw_size) <= 2 ^ 62;
  fw_mode : fw.(scr_next_mode) = PRV_S \/ fw.(scr_next_mode) = PRV_U; fw_next : in_range 64 fw.(scr_next_addr);
  fw_next_rx : in_region (fw_rx fw) fw.(scr_next_addr) = false; fw_next_rw : in_region (fw_rw fw) fw.(scr_next_addr) = false;
}.

Lemma fw_blocks k fw : fw_ok k fw ->
  region_wf (fw_rx fw) /\ region_wf (fw_rw fw) /\ m_only (fw_rx fw) /\ m_only (fw_rw fw) /\ region_array [fw_rx fw; fw_rw fw; all_memory] = [fw_rx fw; fw_rw fw; all_memory] /\
  forall a, fw.(fw_start) <= a < fw.(fw_start) + fw.(fw_size) -> in_region (fw_rx fw) a = true \/ in_region (fw_rw fw) a = true.
Proof.
  intros [Hk Eo Hp Hal Hd He _ _ _ _]. pose proof (pow2_le 3 k ltac:(lia)) as H8. change (2 ^ 3) with 8 in H8. unfold fw_rx, fw_rw. rewrite Eo, !wrap_small by (unfold in_range; lia).
  destruct (init_block (fw_start fw) (2 ^ k) (Z.lor SBI_DOMAIN_MEMREGION_M_READABLE SBI_DOMAIN_MEMREGION_M_EXECUTABLE)) as (W1 & O1 & F1 & I1); [lia..|].
  destruct (init_block (fw_start fw + 2 ^ k) (fw_size fw - 2 ^ k) (Z.lor SBI_DOMAIN_MEMREGION_M_READABLE SBI_DOMAIN_MEMREGION_M_WRITABLE)) as (W2 & O2 & F2 & I2); [lia..|].
  split; [done|]. split; [done|]. split; [split; [lia|by rewrite F1]|]. split; [split; [lia|by rewrite F2]|]. split.
  - cbn [region_array]. rewrite !(proj2 (Z.eqb_neq _ 0)) by lia. done.
  - intros a Ha. destruct (decide (a < fw_start fw + 2 ^ k)); [left; apply I1; lia|right; apply I2; lia].
Qed.

Lemma only_root (o1 o2 o3 o : domain_obj) d : <[0%nat := o1]> (<[0%nat := o2]> (<[0%nat := o3]> (objs domains_boot))) !! d = Some o -> d = 0%nat /\ o = o1.
Proof.
  destruct d as [|d]; [rewrite lookup_insert_eq; by intros [= <-]|]. rewrite !lookup_insert_ne by done. cbn [domains_boot objs]. rewrite lookup_singleton_ne; done.
Qed.

(** C7: [sbi_domain_init] protects the firmware.  For a firmware image aligned to
    the size of its read-only part, when the allocations succeed, it returns 0, and
    in the root domain it leaves no S or U mode access of any kind to an address of
    the image is allowed, although the blocks around the parts of the image and
    the region of all memory overlap; every other address outside those blocks is
    open to S and U mode for memory accesses.  All harts of the platform are in
    the root domain. *)
Theorem domain_init_protects_firmware shl64 hv scr hartid cold_hartid desc alloc off n k fw :
  fw_ok k fw -> (n <= 128)%nat -> (forall i, 0 <= i < Z.of_nat n -> hv i = true /\ scr i = true) -> off <> 0 -> desc 0%nat = dcpriv -> alloc 0%nat = true ->
  exists s' o, sbi_domain_init shl64 hv scr hartid cold_hartid desc alloc off true true n fw domains_boot = Some (0, s') /\ owners_ok s' /\ s'.(objs) !! 0%nat = Some o /\
    (forall i, 0 <= i < Z.of_nat n -> s'.(hart_ptr) i = Some 0%nat) /\
    forall a mode fl, in_range 64 a -> mode = PRV_S \/ mode = PRV_U ->
      (fw.(fw_start) <= a < fw.(fw_start) + fw.(fw_size) -> Z.land fl 7 <> 0 -> sbi_domain_check_addr (Some o.(dom_)) a mode fl = false) /\
      (in_region (fw_rx fw) a = false -> in_region (fw_rw fw) a = false -> Z.land fl SBI_DOMAIN_MMIO = 0 -> sbi_domain_check_addr (Some o.(dom_)) a mode fl = true).
Proof.
  intros Hfw Hn Hharts Hoff Hdesc Halloc. destruct (fw_blocks k fw Hfw) as (W1 & W2 & M1 & M2 & Earr & Hcov). pose proof Hfw as [Hk Eo Hp Hal Hd He Hmode Hnext Hnrx Hnrw].
  pose proof (pow2_le 3 k ltac:(lia)) as H8. change (2 ^ 3) with 8 in H8. unfold sbi_domain_init. rewrite Eo, (proj2 (Z.eqb_neq (2 ^ k) 0)), wrap_small by (unfold in_range; lia). rewrite !land_low, Z.mod_same, Hal by lia.
  cbn [orb negb Z.eqb]. rewrite (proj2 (Z.eqb_neq off 0)) by done. change (domain_count domains_boot) with 0. rewrite context_init_boot by done. cbn [mbind option_bind negb Z.eqb].
  assert (objs (set_ddata ctx_data (set_list [] 0 domains_boot)) !! 0%nat = Some (DomObj (Dom [0; 0] None None 0 0 0 false) 0 0)) as -> by apply lookup_singleton_eq. cbn [mbind option_bind].
  assert (mask_wf [0; 0]) as Hz by (split; [done|]; repeat constructor; unfold in_range; lia).
  destruct (set_harts_spec (seqZ 0 (Z.of_nat n)) [0; 0] Hz) as (hm & -> & Hmw & Hhm); [intros i [? _]%elem_of_seqZ; lia|]. cbn [mbind option_bind]. rewrite Earr.
  assert (forall j, hart_in j hm = true <-> 0 <= j < Z.of_nat n) as Hin.
  { intros j. split; [intros H; pose proof (hart_in_range _ _ H) as Hj; rewrite Hhm in H by done|intros Hj; rewrite Hhm by lia; by rewrite bool_decide_true by (apply elem_of_seqZ; lia)].
    unfold hart_in in H at 1. change (bval [0; 0]) with 0 in H. rewrite Z.bits_0, andb_false_r, orb_false_r in H. apply bool_decide_eq_true, elem_of_seqZ in H. lia. }
  unfold sbi_domain_register. set (root := DomObj (Dom _ (Some hm) _ _ _ _ _) _ _). set (s1 := set_obj 0 root _). change (finalized s1) with false. cbn iota. change (domain_list s1) with (@nil nat). rewrite bool_decide_false by apply not_elem_of_nil.
  assert (objs s1 !! 0%nat = Some root) as Hroot by apply lookup_insert_eq. rewrite Hroot. cbn [mbind option_bind].
  destruct (sanitize_accepts shl64 hv (dom_ root) hm [fw_rx fw; fw_rw fw; all_memory]) as (l & -> & Hs & Hperm);
    [reflexivity|exact Hmw|apply forallb_harts; intros i _ Hi%Hin; by apply Hharts|reflexivity|cbn [forallb]; rewrite (proj1 W1), (proj1 W2); reflexivity|reflexivity|exact Hmode| |].
  { intros l Hs Hperm. refine (proj2 (guarded_regions l (fw_rx fw) (fw_rw fw) all_memory _ _ _ Hs Hperm M1 M2 eq_refl Hnext Hmode) Hnrx Hnrw _). reflexivity. }
  cbn [negb Z.eqb]. change (0 =? 0) with true. cbn [negb].
  rewrite (for_each_spec hm Hmw). cbn [mbind option_bind]. set (s2 := set_obj 0 _ (set_list _ _ _)). set (o2 := set_index _ _) in s2. assert (objs s2 !! 0%nat = Some o2) as Ho2 by apply lookup_insert_eq.
  assert (owners_ok s2) as Hok2.
  { split.
    - intros d o [-> ->]%only_root. split; [done|by intros m [= <-]].
    - intros d i Hi. split; [|done]. intros (o & [-> ->]%only_root & Hio). unfold hart_in in Hio. change (bval _) with 0 in Hio. by rewrite Z.bits_0, andb_false_r in Hio. }
  destruct (register_tail scr hartid cold_hartid desc alloc 0 o2 hm hm s2 Hok2) as (s3 & rc & x & -> & E4 & Hok3 & Hfr & _ & _ & Hptr);
    [exact ctx_data_inv|apply Nat.lt_0_1|exact Hmw|exact Ho2|reflexivity|intros i Hi%Hin; by apply Hharts|].
  pose proof Hfr as (_ & _ & _ & _ & Edd). cbn [mbind option_bind]. rewrite Edd in E4 |- *. destruct (setup_ctx desc alloc Hdesc Halloc) as (x' & E5). change (ddata s2) with ctx_data in E4 |- *. rewrite E5. cbn [mbind option_bind negb Z.eqb].
  destruct (same_frame_possible s2 s3 0 o2 Hfr Ho2) as (o3 & Ho3 & _ & Hf3). exists (set_ddata x' s3), o3. split; [done|]. split; [split; apply Hok3|]. split; [done|]. split.
  - intros i Hi. cbn. rewrite Hptr. by rewrite (proj2 (Hin i) Hi).
  - intros a mode fl Ha Hm. assert (memregions (dom_ o3) = l) as El by (change (memregions (dom_ (frame o3)) = l); rewrite Hf3; done). cbn [sbi_domain_check_addr]. rewrite El.
    destruct (guarded_regions l (fw_rx fw) (fw_rw fw) all_memory a mode fl Hs Hperm M1 M2 eq_refl Ha Hm) as [G1 G2]. split; [intros Hia; apply G1; by apply Hcov|done].
Qed.

(** An image of 384 KiB whose first 256 KiB are read-only. *)
Definition demo_fw : fw_scratch := FwScratch 0x80000000 0x60000 0x40000 0 0x80200000 PRV_S.

Lemma domain_init_protects_firmware_witness :
  exists s' o, sbi_domain_init 0 (fun i => i <? 4) (fun i => i <? 4) (fun i => i) 2 (fun _ => dcpriv) (fun _ => true) 128 true true 4 demo_fw domains_boot = Some (0, s') /\
    s'.(objs) !! 0%nat = Some o /\ sbi_domain_check_addr (Some o.(dom_)) 0x8005fff8 PRV_S SBI_DOMAIN_READ = false.
Proof.
  assert (fw_ok 18 demo_fw) as Hfw by (split; cbn; try lia; try reflexivity; try (by left); unfold in_range; lia).
  destruct (domain_init_protects_firmware 0 (fun i => i <? 4) (fun i => i <? 4) (fun i => i) 2 (fun _ => dcpriv) (fun _ => true) 128 4 18 demo_fw Hfw) as (s' & o & E & _ & Ho & _ & H); [lia|cbn; lia|lia|reflexivity|reflexivity|].
  exists s', o. split; [exact E|]. split; [exact Ho|]. apply (proj1 (H 0x8005fff8 PRV_S SBI_DOMAIN_READ ltac:(unfold in_range; lia) ltac:(by left))); [cbn; lia|done].
Defined.

(** A second domain, for hart 1, beside the root domain. *)
Definition two_domains (alloc : nat -> bool) : option (Z * domains) :=
  '(_, s) ← sbi_domain_init 0 (fun i => i <? 4) (fun i => i <? 4) (fun i => i) 2 (fun _ => dcpriv) (fun _ => true) 128 true true 4 demo_fw domains_boot;
  let s := set_obj 1 (DomObj (Dom [0; 0] (Some [2; 0]) (Some [Region 20 0x80000000 0x7; Region 64 0 0x38]) 7 0x80400000 PRV_S true) 1 0)
             (set_ddata (set_ptrs (s.(ddata).(dom_ptrs) ++ [replicate 32 None]) s.(ddata)) s) in
  sbi_domain_register 0 (fun i => i <? 4) (fun i => i <? 4) (fun i => i) 2 (fun _ => dcpriv) alloc (Some 1%nat) (Some [15; 0]) s.

Example second_domain_takes_hart :
  option_map (fun r => (r.1, r.2.(domain_list), map r.2.(hart_ptr) [0; 1; 2; 3])) (two_domains (fun _ => true))
  = Some (0, [0; 1]%nat, [Some 0; Some 1; Some 0; Some 0]%nat).
Proof. vm_compute. reflexivity. Qed.

(** When the data of a domain cannot be set up, the domain is taken off the list
    but its harts stay with it and the number of domains stays raised. *)
Example failed_registration_keeps_harts :
  option_map (fun r => (r.1, r.2.(domain_list), map r.2.(hart_ptr) [0; 1; 2; 3], r.2.(domain_count))) (two_domains (fun _ => false))
  = Some (SBI_ENOMEM, [0%nat], [Some 0; Some 1; Some 0; Some 0]%nat, 2).
Proof. vm_compute. reflexivity. Qed.

(** The boot hart of the second domain is started at its next stage, the cold boot
    hart will enter the one of the root domain. *)
Example startup_starts_boot_harts :
  let h := Hart (HsmData SBI_HSM_STATE_STOPPED 0 0 0 0 0 0) (Scratch 0 0 0 0 0 0) (Csrs 0 0 0 0) in
  (r ← two_domains (fun _ => true);
   r ← run (sbi_domain_startup (fun i => i <? 4) (fun i => i <? 4) 2 None 0 (fun i => i) (fun _ => 0) 2 (set_finalized r.2)) {[1 := h; 2 := h]};
   h1 ← r.2 !! 1; h2 ← r.2 !! 2;
   Some (r.1, h1.(hd).(state), h1.(sc).(nx_addr), h1.(sc).(nx_arg1), h2.(hd).(state), h2.(sc).(nx_addr)))
  = Some (inl 0, SBI_HSM_STATE_START_PENDING, 0x80400000, 7, SBI_HSM_STATE_STOPPED, 0x80200000).
Proof. vm_compute. reflexivity. Qed.
