(* ===== verification/Tlb.v ===== *)
(** * Remote fences of OpenSBI: requests and local processing
    (lib/sbi/sbi_tlb.c, include/sbi/sbi_tlb.h), 64-bit.

    A request asks a hart to invalidate cached translations (or its instruction
    cache).  This file has the request, what a hart executes for one, and the
    callback that merges a request into one that is already queued.  The
    instructions a hart executes are recorded as a list of [event]s; what an
    instruction invalidates is [flushes], what a request asks for is [asked]. *)

From S2P Require Import Prelude SbiTypes Locks Bitops Hartmask Fifo.

Local Open Scope Z_scope.

(** ** The data *)

Definition SBI_TLB_FLUSH_ALL : Z := u64 (-1).
Definition PAGE_SIZE : Z := Z.shiftl 1 12.
Definition HGATP_VMID_SHIFT : Z := 44.
Definition HGATP_VMID_MASK : Z := 0x03FFF00000000000.

Definition SBI_TLB_FENCE_I : Z := 0.
Definition SBI_TLB_SFENCE_VMA : Z := 1.
Definition SBI_TLB_SFENCE_VMA_ASID : Z := 2.
Definition SBI_TLB_HFENCE_GVMA_VMID : Z := 3.
Definition SBI_TLB_HFENCE_GVMA : Z := 4.
Definition SBI_TLB_HFENCE_VVMA_ASID : Z := 5.
Definition SBI_TLB_HFENCE_VVMA : Z := 6.
Definition SBI_TLB_TYPE_MAX : Z := 7.

Definition SBI_PMU_FW_IPI_SENT : Z := 6.
Definition SBI_PMU_FW_IPI_RECVD : Z := 7.
Definition SBI_PMU_FW_FENCE_I_SENT : Z := 8.
Definition SBI_PMU_FW_FENCE_I_RECVD : Z := 9.
Definition SBI_PMU_FW_SFENCE_VMA_SENT : Z := 10.
Definition SBI_PMU_FW_SFENCE_VMA_RCVD : Z := 11.
Definition SBI_PMU_FW_SFENCE_VMA_ASID_SENT : Z := 12.
Definition SBI_PMU_FW_SFENCE_VMA_ASID_RCVD : Z := 13.
Definition SBI_PMU_FW_HFENCE_GVMA_SENT : Z := 14.
Definition SBI_PMU_FW_HFENCE_GVMA_RCVD : Z := 15.
Definition SBI_PMU_FW_HFENCE_GVMA_VMID_SENT : Z := 16.
Definition SBI_PMU_FW_HFENCE_GVMA_VMID_RCVD : Z := 17.
Definition SBI_PMU_FW_HFENCE_VVMA_SENT : Z := 18.
Definition SBI_PMU_FW_HFENCE_VVMA_RCVD : Z := 19.
Definition SBI_PMU_FW_HFENCE_VVMA_ASID_SENT : Z := 20.
Definition SBI_PMU_FW_HFENCE_VVMA_ASID_RCVD : Z := 21.

Record sbi_tlb_info := TlbInfo {
  start : Z; size : Z; asid : Z; vmid : Z; type : Z; smask : sbi_hartmask;
}.

(** What a hart executes: the fence instructions, with the [hgatp] in force for
    those that use it, and the increments of a firmware counter. *)
Inductive event :=
| PmuIncr (fw : Z)
| FenceI
| SfenceVma
| SfenceVmaVa (va : Z)
| SfenceVmaAsid (asid : Z)
| SfenceVmaVaAsid (va asid : Z)
| HfenceGvma
| HfenceGvmaGpa (gpa : Z)
| HfenceGvmaVmid (vmid : Z)
| HfenceGvmaVmidGpa (gpa vmid : Z)
| HfenceVvma (hgatp : Z)
| HfenceVvmaVa (hgatp va : Z)
| HfenceVvmaAsid (hgatp asid : Z)
| HfenceVvmaAsidVa (hgatp va asid : Z).

(** ** Local processing *)

(** [for (i = 0; i < size; i += PAGE_SIZE) f(i);] with a 64-bit [i], from [i];
    [None] when the loop does not end within the fuel. *)
Fixpoint page_loop (fuel : nat) (f : Z -> event) (size i : Z) : option (list event) :=
  if i <? size then
    match fuel with
    | O => None
    | S fuel => rest ← page_loop fuel f size (u64 (i + PAGE_SIZE)); Some (f i :: rest)
    end
  else Some [].

(** More turns than a loop that ends can make. *)
Definition page_fuel (size : Z) : nat := Z.to_nat (size / PAGE_SIZE + 1).

Definition flush_all (t : sbi_tlb_info) : bool :=
  ((t.(start) =? 0) && (t.(size) =? 0)) || (t.(size) =? SBI_TLB_FLUSH_ALL).

(** The shape the functions below share: one instruction for everything, or one
    per page. *)
Definition flush (t : sbi_tlb_info) (all : event) (page : Z -> event) : option (list event) :=
  if flush_all t then Some [all]
  else page_loop (page_fuel t.(size)) (fun i => page (u64 (t.(start) + i))) t.(size) 0.

(** A local function: the events and the value of [hgatp] it leaves. *)
Definition sbi_tlb_local_hfence_vvma (t : sbi_tlb_info) (hgatp0 : Z) : option (list event * Z) :=
  let hgatp := Z.land (u64 (Z.shiftl t.(vmid) HGATP_VMID_SHIFT)) HGATP_VMID_MASK in
  evs ← flush t (HfenceVvma hgatp) (HfenceVvmaVa hgatp);
  Some (PmuIncr SBI_PMU_FW_HFENCE_VVMA_RCVD :: evs, hgatp0).

Definition sbi_tlb_local_hfence_gvma (t : sbi_tlb_info) (hgatp0 : Z) : option (list event * Z) :=
  evs ← flush t HfenceGvma (fun a => HfenceGvmaGpa (Z.shiftr a 2));
  Some (PmuIncr SBI_PMU_FW_HFENCE_GVMA_RCVD :: evs, hgatp0).

Definition sbi_tlb_local_sfence_vma (t : sbi_tlb_info) (hgatp0 : Z) : option (list event * Z) :=
  evs ← flush t SfenceVma SfenceVmaVa;
  Some (PmuIncr SBI_PMU_FW_SFENCE_VMA_RCVD :: evs, hgatp0).

Definition sbi_tlb_local_hfence_vvma_asid (t : sbi_tlb_info) (hgatp0 : Z) : option (list event * Z) :=
  let hgatp := Z.land (u64 (Z.shiftl t.(vmid) HGATP_VMID_SHIFT)) HGATP_VMID_MASK in
  evs ← flush t (HfenceVvmaAsid hgatp t.(asid)) (fun a => HfenceVvmaAsidVa hgatp a t.(asid));
  Some (PmuIncr SBI_PMU_FW_HFENCE_VVMA_ASID_RCVD :: evs, hgatp0).

Definition sbi_tlb_local_hfence_gvma_vmid (t : sbi_tlb_info) (hgatp0 : Z) : option (list event * Z) :=
  evs ← flush t (HfenceGvmaVmid t.(vmid)) (fun a => HfenceGvmaVmidGpa (Z.shiftr a 2) t.(vmid));
  Some (PmuIncr SBI_PMU_FW_HFENCE_GVMA_VMID_RCVD :: evs, hgatp0).

Definition sbi_tlb_local_sfence_vma_asid (t : sbi_tlb_info) (hgatp0 : Z) : option (list event * Z) :=
  evs ← flush t (SfenceVmaAsid t.(asid)) (fun a => SfenceVmaVaAsid a t.(asid));
  Some (PmuIncr SBI_PMU_FW_SFENCE_VMA_ASID_RCVD :: evs, hgatp0).

Definition sbi_tlb_local_fence_i (t : sbi_tlb_info) (hgatp0 : Z) : option (list event * Z) :=
  Some ([PmuIncr SBI_PMU_FW_FENCE_I_RECVD; FenceI], hgatp0).

Definition tlb_entry_local_process (data : option sbi_tlb_info) (hgatp0 : Z) : option (list event * Z) :=
  match data with
  | None => Some ([], hgatp0)
  | Some t =>
      if t.(type) =? SBI_TLB_FENCE_I then sbi_tlb_local_fence_i t hgatp0
      else if t.(type) =? SBI_TLB_SFENCE_VMA then sbi_tlb_local_sfence_vma t hgatp0
      else if t.(type) =? SBI_TLB_SFENCE_VMA_ASID then sbi_tlb_local_sfence_vma_asid t hgatp0
      else if t.(type) =? SBI_TLB_HFENCE_GVMA_VMID then sbi_tlb_local_hfence_gvma_vmid t hgatp0
      else if t.(type) =? SBI_TLB_HFENCE_GVMA then sbi_tlb_local_hfence_gvma t hgatp0
      else if t.(type) =? SBI_TLB_HFENCE_VVMA_ASID then sbi_tlb_local_hfence_vvma_asid t hgatp0
      else if t.(type) =? SBI_TLB_HFENCE_VVMA then sbi_tlb_local_hfence_vvma t hgatp0
      else Some ([], hgatp0)
  end.

(** ** Merging *)

(** [sbi_hartmask_or(&curr->smask, &curr->smask, &next->smask)]; both masks have
    the size of their type, so that the operation stays within them. *)
Definition or_smask (curr next : sbi_tlb_info) : sbi_hartmask :=
  default curr.(smask) (sbi_hartmask_or curr.(smask) curr.(smask) next.(smask)).

(** The code and [*curr] as it is left. *)
Definition tlb_range_check (curr next : sbi_tlb_info) : Z * sbi_tlb_info :=
  let next_end := u64 (next.(start) + next.(size)) in
  let curr_end := u64 (curr.(start) + curr.(size)) in
  if (next.(start) <=? curr.(start)) && (curr_end <? next_end) then
    (SBI_FIFO_UPDATED,
     TlbInfo next.(start) next.(size) curr.(asid) curr.(vmid) curr.(type) (or_smask curr next))
  else if (curr.(start) <=? next.(start)) && (next_end <=? curr_end) then
    (SBI_FIFO_SKIP,
     TlbInfo curr.(start) curr.(size) curr.(asid) curr.(vmid) curr.(type) (or_smask curr next))
  else (SBI_FIFO_UNCHANGED, curr).

Definition tlb_update_cb (next curr : sbi_tlb_info) : Z * sbi_tlb_info :=
  if (next.(type) =? SBI_TLB_SFENCE_VMA_ASID) && (curr.(type) =? SBI_TLB_SFENCE_VMA_ASID) then
    if next.(asid) =? curr.(asid) then tlb_range_check curr next else (SBI_FIFO_UNCHANGED, curr)
  else if (next.(type) =? SBI_TLB_SFENCE_VMA) && (curr.(type) =? SBI_TLB_SFENCE_VMA) then
    tlb_range_check curr next
  else (SBI_FIFO_UNCHANGED, curr).

(** ** The request in memory

    [struct sbi_tlb_info] as the compiler lays it out: two 8-byte, two 2-byte and
    one 4-byte little-endian fields and the two words of the mask. *)

Definition SBI_TLB_INFO_SIZE : Z := 40.

Definition le (n z : Z) : list Z := Z_to_little_endian n 8 z.
Definition field (bs : list Z) (off n : Z) : Z :=
  wrap (n * 8) (little_endian_to_Z 8 (take (Z.to_nat n) (drop (Z.to_nat off) bs))).

Definition encode_tlb_info (t : sbi_tlb_info) : list Z :=
  le 8 t.(start) ++ le 8 t.(size) ++ le 2 t.(asid) ++ le 2 t.(vmid) ++ le 4 t.(type) ++
  le 8 (nth 0 t.(smask) 0) ++ le 8 (nth 1 t.(smask) 0).

Definition decode_tlb_info (bs : list Z) : sbi_tlb_info :=
  TlbInfo (field bs 0 8) (field bs 8 8) (field bs 16 2) (field bs 18 2) (field bs 20 4)
    [field bs 24 8; field bs 32 8].

(** Every field has a value of its C type. *)
Definition typed_tlb_info (t : sbi_tlb_info) : Prop :=
  in_range 64 t.(start) /\ in_range 64 t.(size) /\ in_range 16 t.(asid) /\ in_range 16 t.(vmid) /\
  in_range 32 t.(type) /\ mask_wf t.(smask).

Lemma le_length n z : 0 <= n -> length (le n z) = Z.to_nat n.
Proof. intros. apply Nat2Z.inj. unfold le. rewrite length_Z_to_little_endian by lia. lia. Qed.

Lemma field_skip n0 z bs off n : 0 <= n0 <= off -> field (le n0 z ++ bs) off n = field bs (off - n0) n.
Proof.
  intros. unfold field. rewrite drop_app_ge by (rewrite le_length; lia). rewrite le_length by lia.
  by replace (Z.to_nat off - Z.to_nat n0)%nat with (Z.to_nat (off - n0)) by lia.
Qed.

Lemma field_head n z bs off : off = 0 -> 0 <= n -> in_range (n * 8) z -> field (le n z ++ bs) off n = z.
Proof.
  intros -> Hn Hz. unfold field. rewrite drop_0, take_app_length' by (by rewrite le_length). unfold le.
  rewrite little_endian_to_Z_to_little_endian by lia. rewrite Z.mod_small by done. by apply wrap_small.
Qed.

#[export] Program Instance tlb_info_codec : EntryCodec sbi_tlb_info := {
  encode := encode_tlb_info;
  decode := decode_tlb_info;
  sizeof := SBI_TLB_INFO_SIZE;
  storable := typed_tlb_info;
}.
Next Obligation. intros t _. unfold encode_tlb_info. by rewrite !length_app, !le_length by lia. Qed.
Next Obligation.
  intros [s z a v y m] (Hs & Hz & Ha & Hv & Hy & Hm). cbn [start size asid vmid type smask] in *.
  destruct (two_words m Hm) as (w0 & w1 & -> & H0 & H1).
  unfold decode_tlb_info, encode_tlb_info. cbn [start size asid vmid type smask nth].
  rewrite <- (app_nil_r (le 8 w1)).
  repeat match goal with
  | |- context [field (le ?n0 ?z ++ ?bs) ?off ?n] => rewrite (field_skip n0 z bs off n) by lia
  | |- context [field (le ?n0 ?z ++ ?bs) ?off ?n0] => rewrite (field_head n0 z bs off) by (done || lia)
  end.
  done.
Qed.
Next Obligation.
  intros bs _. split_and!; try (by apply wrap_range). split; [done|]. repeat constructor; by apply wrap_range.
Qed.

(** ** What is invalidated *)

(** A cached item: an instruction, a first-stage translation of an address space,
    a guest-physical translation of a virtual machine, or a first-stage
    translation inside one. *)
Inductive cached :=
| Insn
| Va (asid va : Z)
| Gpa (vmid gpa : Z)
| GuestVa (vmid asid va : Z).

Definition same_page (a b : Z) : Prop := a / PAGE_SIZE = b / PAGE_SIZE.

Definition hgatp_vmid (hgatp : Z) : Z := Z.shiftr (Z.land hgatp HGATP_VMID_MASK) HGATP_VMID_SHIFT.

(** The instructions of the privileged architecture.  A guest-physical operand
    is shifted right by two. *)
Definition flushes (e : event) (c : cached) : Prop :=
  match e, c with
  | FenceI, Insn => True
  | SfenceVma, Va _ _ => True
  | SfenceVmaVa va, Va _ x => same_page x va
  | SfenceVmaAsid a, Va b _ => b = a
  | SfenceVmaVaAsid va a, Va b x => b = a /\ same_page x va
  | HfenceGvma, Gpa _ _ => True
  | HfenceGvmaGpa g, Gpa _ x => same_page x (Z.shiftl g 2)
  | HfenceGvmaVmid m, Gpa n _ => n = m
  | HfenceGvmaVmidGpa g m, Gpa n x => n = m /\ same_page x (Z.shiftl g 2)
  | HfenceVvma h, GuestVa n _ _ => n = hgatp_vmid h
  | HfenceVvmaVa h va, GuestVa n _ x => n = hgatp_vmid h /\ same_page x va
  | HfenceVvmaAsid h a, GuestVa n b _ => n = hgatp_vmid h /\ b = a
  | HfenceVvmaAsidVa h va a, GuestVa n b x => n = hgatp_vmid h /\ b = a /\ same_page x va
  | _, _ => False
  end.

Definition in_request (t : sbi_tlb_info) (x : Z) : Prop :=
  flush_all t = true \/ t.(start) <= x < t.(start) + t.(size).

(** The items a request asks to invalidate. *)
Definition asked (t : sbi_tlb_info) (c : cached) : Prop :=
  match c with
  | Insn => t.(type) = SBI_TLB_FENCE_I
  | Va a x =>
      (t.(type) = SBI_TLB_SFENCE_VMA \/ t.(type) = SBI_TLB_SFENCE_VMA_ASID /\ a = t.(asid)) /\ in_request t x
  | Gpa n x =>
      (t.(type) = SBI_TLB_HFENCE_GVMA \/ t.(type) = SBI_TLB_HFENCE_GVMA_VMID /\ n = t.(vmid)) /\ in_request t x
  | GuestVa n a x =>
      n = t.(vmid) /\
      (t.(type) = SBI_TLB_HFENCE_VVMA \/ t.(type) = SBI_TLB_HFENCE_VVMA_ASID /\ a = t.(asid)) /\ in_request t x
  end.

Definition covers (evs : list event) (t : sbi_tlb_info) : Prop :=
  forall c, asked t c -> exists e, e ∈ evs /\ flushes e c.

(** A request for everything, or for a range that starts at a page and ends at or
    below the last page of the address space. *)
Record request_ok (t : sbi_tlb_info) : Prop := {
  ro_start : 0 <= t.(start) < 2 ^ 64;
  ro_size : 0 <= t.(size) < 2 ^ 64;
  ro_aligned : (PAGE_SIZE | t.(start));
  ro_vmid : 0 <= t.(vmid) < 2 ^ 14;
  ro_range : (t.(start) = 0 /\ t.(size) = SBI_TLB_FLUSH_ALL) \/ t.(start) + t.(size) <= 2 ^ 64 - PAGE_SIZE;
}.

(** ** The page loop *)

Lemma PAGE_SIZE_eq : PAGE_SIZE = 4096.
Proof. reflexivity. Qed.

(** The loop ends when [size] leaves room for the last increment, and then runs
    its body at every multiple of the page size below [size]. *)
Lemma page_loop_spec f size : forall fuel i,
  0 <= i -> size <= 2 ^ 64 - PAGE_SIZE -> size <= i + PAGE_SIZE * Z.of_nat fuel ->
  exists evs, page_loop fuel f size i = Some evs /\
    forall e, e ∈ evs <-> exists k, 0 <= k /\ i + PAGE_SIZE * k < size /\ e = f (i + PAGE_SIZE * k).
Proof.
  rewrite PAGE_SIZE_eq. intros fuel. induction fuel as [|fuel IH]; intros i Hi Hs Hf; cbn [page_loop].
  - destruct (Z.ltb_spec i size); [lia|]. exists []. split; [done|]. intros e. split; [set_solver|].
    intros (k & ? & ? & _). lia.
  - destruct (Z.ltb_spec i size); [|exists []; split; [done|]; intros e; split; [set_solver|]; intros (k & ? & ? & _); lia].
    rewrite PAGE_SIZE_eq, wrap_small by (unfold in_range; lia).
    destruct (IH (i + 4096)) as (evs & -> & Hev); [lia..|]. cbn [mbind option_bind]. eexists. split; [reflexivity|].
    intros e. rewrite elem_of_cons, Hev. split.
    + intros [->|(k & ? & ? & ->)]; [exists 0|exists (k + 1)]; split_and!; try lia; f_equal; lia.
    + intros (k & ? & ? & ->). destruct (decide (k = 0)) as [->|]; [left; f_equal; lia|right].
      exists (k - 1). split_and!; [lia..|f_equal; lia].
Qed.

(** Every address of the request has the page of one of the loop's addresses. *)
Lemma page_of_request t x :
  request_ok t -> t.(start) <= x < t.(start) + t.(size) -> flush_all t = false ->
  exists k, 0 <= k /\ 0 + PAGE_SIZE * k < t.(size) /\ same_page x (u64 (t.(start) + (0 + PAGE_SIZE * k))) /\
    u64 (t.(start) + (0 + PAGE_SIZE * k)) = Z.shiftl (Z.shiftr (u64 (t.(start) + (0 + PAGE_SIZE * k))) 2) 2.
Proof.
  intros [Hs Hz [m Hm] _ Hr] Hx Hfa. unfold same_page. rewrite PAGE_SIZE_eq in *.
  exists ((x - t.(start)) / 4096). pose proof (Z.mul_div_le (x - t.(start)) 4096 ltac:(lia)).
  pose proof (Z.mul_succ_div_gt (x - t.(start)) 4096 ltac:(lia)).
  assert (0 <= (x - t.(start)) / 4096) by (apply Z.div_pos; lia).
  assert (t.(start) + t.(size) <= 2 ^ 64 - 4096) as Hr'.
  { destruct Hr as [[? E]|]; [|done]. unfold flush_all in Hfa. rewrite E, Z.eqb_refl, orb_true_r in Hfa. done. }
  rewrite wrap_small by (unfold in_range; lia).
  split_and!; [lia..| |].
  - replace (t.(start) + (0 + 4096 * ((x - t.(start)) / 4096))) with ((m + (x - t.(start)) / 4096) * 4096) by lia.
    rewrite Z.div_mul by lia. replace x with (x - t.(start) + m * 4096) at 1 by lia.
    rewrite Z.div_add by lia. lia.
  - rewrite Z.shiftr_div_pow2, Z.shiftl_mul_pow2 by lia. change (2 ^ 2) with 4.
    replace (t.(start) + (0 + 4096 * ((x - t.(start)) / 4096)))
      with ((m * 1024 + 1024 * ((x - t.(start)) / 4096)) * 4) by lia.
    by rewrite Z.div_mul by lia.
Qed.

Lemma flush_spec t all page :
  request_ok t ->
  exists evs, flush t all page = Some evs /\
    forall x, in_request t x ->
      all ∈ evs \/
      exists a, page a ∈ evs /\ same_page x a /\ Z.shiftl (Z.shiftr a 2) 2 = a.
Proof.
  intros Ht. unfold flush. destruct (flush_all t) eqn:Hfa.
  { eexists. split; [done|]. intros x _. left. by apply list_elem_of_singleton. }
  assert (t.(size) <= 2 ^ 64 - PAGE_SIZE) as Hs.
  { destruct Ht as [? ? ? ? [[? E]|]]; [|lia]. unfold flush_all in Hfa. by rewrite E, Z.eqb_refl, orb_true_r in Hfa. }
  destruct (page_loop_spec (fun i => page (u64 (t.(start) + i))) t.(size) (page_fuel t.(size)) 0)
    as (evs & -> & Hev); [lia|done| |].
  { unfold page_fuel. rewrite PAGE_SIZE_eq. pose proof (Z.mul_succ_div_gt t.(size) 4096 ltac:(lia)).
    assert (0 <= t.(size) / 4096) by (apply Z.div_pos; [apply Ht|lia]). lia. }
  eexists. split; [done|]. intros x [?|Hx]; [congruence|right].
  destruct (page_of_request t x Ht Hx Hfa) as (k & H1 & H2 & H3 & H4).
  eexists. split; [apply Hev; eauto|]. by split.
Qed.

Lemma hgatp_vmid_of v : 0 <= v < 2 ^ 14 ->
  hgatp_vmid (Z.land (u64 (Z.shiftl v HGATP_VMID_SHIFT)) HGATP_VMID_MASK) = v.
Proof.
  intros Hv. unfold hgatp_vmid, HGATP_VMID_SHIFT. change HGATP_VMID_MASK with (Z.shiftl (Z.ones 14) 44).
  rewrite wrap_small by (unfold in_range; rewrite Z.shiftl_mul_pow2 by lia; lia).
  rewrite <- Z.land_assoc, Z.land_diag, <- Z.shiftl_land, Z.shiftr_shiftl_l, Z.sub_diag, Z.shiftl_0_r by lia.
  rewrite Z.land_ones by lia. apply Z.mod_small. lia.
Qed.

(** A hart that processes a request returns, has executed fences that invalidate
    everything the request asks for, and has [hgatp] as it was. *)
Lemma local_process_covers t h : request_ok t ->
  exists evs, tlb_entry_local_process (Some t) h = Some (evs, h) /\ covers evs t.
Proof.
  intros Ht. pose proof (hgatp_vmid_of _ (ro_vmid t Ht)) as Hvm. unfold tlb_entry_local_process.
  repeat match goal with |- context [type t =? ?c] => destruct (Z.eqb_spec (type t) c) as [Ety|] end.
  1:{ eexists. split; [reflexivity|]. intros c Hc. exists FenceI. split; [set_solver|].
      destruct c; cbn [asked flushes] in *; rewrite Ety in Hc; unfold SBI_TLB_FENCE_I in Hc;
        destruct_and?; destruct_or?; try done; naive_solver. }
  7:{ eexists. split; [reflexivity|]. intros c Hc. exfalso. destruct c; cbn [asked] in Hc; naive_solver. }
  all: unfold sbi_tlb_local_sfence_vma, sbi_tlb_local_sfence_vma_asid, sbi_tlb_local_hfence_gvma_vmid,
    sbi_tlb_local_hfence_gvma, sbi_tlb_local_hfence_vvma_asid, sbi_tlb_local_hfence_vvma;
    match goal with |- context [flush _ ?a ?p] => destruct (flush_spec t a p Ht) as (evs & -> & Hev) end;
    cbn [mbind option_bind]; eexists; (split; [reflexivity|]); intros c Hc;
    destruct c; cbn [asked] in Hc; rewrite Ety in Hc; destruct_and?; destruct_or?; destruct_and?; try done;
    match goal with H : in_request _ ?x |- _ => destruct (Hev x H) as [?|(a & ? & ? & ?)] end;
    (eexists; split; [apply elem_of_cons; right; eassumption|]); cbn [flushes]; subst; rewrite ?Hvm;
    split_and?; try done; congruence.
Qed.

(** ** Merging *)

Definition entry_ok (t : sbi_tlb_info) : Prop :=
  request_ok t /\ typed_tlb_info t /\
  (t.(type) = SBI_TLB_SFENCE_VMA \/ t.(type) = SBI_TLB_SFENCE_VMA_ASID -> ~ (t.(start) = 0 /\ t.(size) = 0)).

Lemma entry_mask t : entry_ok t -> mask_wf t.(smask).
Proof. intros (_ & (_ & _ & _ & _ & _ & Hm) & _). exact Hm. Qed.

Lemma or_smask_spec curr next : mask_wf curr.(smask) -> mask_wf next.(smask) ->
  mask_wf (or_smask curr next) /\
  forall i, hart_in i (or_smask curr next) = hart_in i curr.(smask) || hart_in i next.(smask).
Proof.
  intros Hc Hn. unfold or_smask, sbi_hartmask_or.
  destruct (bitmap_op_spec Z.lor orb curr.(smask) curr.(smask) next.(smask)) as (m' & E & Hm & Hi);
    [intros; by apply in_range_lor|apply Z.lor_spec|done..|].
  unfold __bitmap_or. rewrite E. cbn [default]. split; [done|]. intros i.
  destruct (decide (0 <= i < 128)) as [|Hout]; [by apply Hi|].
  unfold hart_in, SBI_HARTMASK_MAX_BITS. destruct (Z.leb_spec 0 i), (Z.ltb_spec i 128); try done. lia.
Qed.

(** The end of a good range, which only the range of everything reaches. *)
Lemma range_end t : request_ok t ->
  u64 (t.(start) + t.(size)) = t.(start) + t.(size) /\
  ((t.(start) = 0 /\ t.(size) = 2 ^ 64 - 1) \/ t.(start) + t.(size) <= 2 ^ 64 - 4096).
Proof.
  intros [Hs Hz _ _ Hr]. rewrite PAGE_SIZE_eq in Hr. change SBI_TLB_FLUSH_ALL with (2 ^ 64 - 1) in Hr.
  split; [|done]. apply wrap_small. unfold in_range. lia.
Qed.

Lemma in_request_range t x : entry_ok t -> t.(type) = SBI_TLB_SFENCE_VMA \/ t.(type) = SBI_TLB_SFENCE_VMA_ASID ->
  in_request t x <-> (t.(start) = 0 /\ t.(size) = 2 ^ 64 - 1) \/ t.(start) <= x < t.(start) + t.(size).
Proof.
  intros (Ht & _ & Hz) Hty. specialize (Hz Hty). destruct (range_end t Ht) as [_ Hr]. pose proof (ro_start t Ht).
  unfold in_request, flush_all. change SBI_TLB_FLUSH_ALL with (2 ^ 64 - 1).
  rewrite orb_true_iff, andb_true_iff, !Z.eqb_eq. lia.
Qed.

Definition sfence_type (t : sbi_tlb_info) : Prop :=
  t.(type) = SBI_TLB_SFENCE_VMA \/ t.(type) = SBI_TLB_SFENCE_VMA_ASID.

(** What a merge achieves: the queued request asks for everything both requests
    asked for, on behalf of the harts of both. *)
Definition merged (curr next curr' : sbi_tlb_info) : Prop :=
  (forall c, asked curr c \/ asked next c -> asked curr' c) /\
  forall i, hart_in i curr'.(smask) = hart_in i curr.(smask) || hart_in i next.(smask).

(** A wider range with the same scope. *)
Lemma asked_wider t t' : entry_ok t -> entry_ok t' -> sfence_type t' -> t.(type) = t'.(type) ->
  (t'.(type) = SBI_TLB_SFENCE_VMA_ASID -> t.(asid) = t'.(asid)) ->
  t'.(start) <= t.(start) -> t.(start) + t.(size) <= t'.(start) + t'.(size) ->
  forall c, asked t c -> asked t' c.
Proof.
  intros Ht Ht' Hs Ety Ea Hlo Hhi c. pose proof Ht as (Hr & _). pose proof Ht' as (Hr' & _).
  destruct (range_end t Hr) as [_ He]. destruct (range_end t' Hr') as [_ He'].
  destruct (ro_start t' Hr'), (ro_size t' Hr').
  destruct c as [|a x|n x|n a x]; cbn [asked]; rewrite Ety; [done|..].
  2:{ intros [[E|[E _]] _]; destruct Hs as [E'|E']; rewrite E' in E; done. }
  2:{ intros (_ & [E|[E _]] & _); destruct Hs as [E'|E']; rewrite E' in E; done. }
  rewrite !in_request_range; [|done|done|done|unfold sfence_type in Hs; by rewrite Ety].
  intros [Hty Hx]. split; [|lia]. destruct Hty as [?|[E ->]]; [by left|right]. auto.
Qed.

Lemma range_check_covers curr next r curr' :
  entry_ok next -> entry_ok curr -> sfence_type curr -> next.(type) = curr.(type) ->
  (curr.(type) = SBI_TLB_SFENCE_VMA_ASID -> next.(asid) = curr.(asid)) ->
  tlb_range_check curr next = (r, curr') ->
  entry_ok curr' /\
  (r = SBI_FIFO_UNCHANGED /\ curr' = curr \/ (r = SBI_FIFO_SKIP \/ r = SBI_FIFO_UPDATED) /\ merged curr next curr').
Proof.
  intros Hn Hc Hs Ety Ea. unfold tlb_range_check.
  destruct (or_smask_spec curr next) as [Hm Hi]; [by apply entry_mask..|].
  pose proof Hc as (Hcr & Hct & Hcz). pose proof Hn as (Hnr & Hnt & Hnz). rewrite Ety in Hnz.
  destruct (range_end curr Hcr) as [-> Hce]. destruct (range_end next Hnr) as [-> Hne].
  destruct ((next.(start) <=? curr.(start)) && _) eqn:G1;
    [|destruct ((curr.(start) <=? next.(start)) && _) eqn:G2; [|intros [= <- <-]; by split; [|left]]];
    intros [= <- <-]; match goal with |- entry_ok ?X /\ _ => assert (entry_ok X) as HX end.
  1,3: split; [destruct Hcr, Hnr; by constructor|]; split; [|by cbn [start size type smask]];
    unfold typed_tlb_info in *; naive_solver.
  all: split; [done|right]; split; [auto|]; split; [|done];
    intros c [Hac|Hac]; (eapply asked_wider in Hac; [exact Hac|..]); cbn [start size type asid]; auto; lia.
Qed.

Lemma update_cb_covers next curr r curr' :
  entry_ok next -> entry_ok curr -> tlb_update_cb next curr = (r, curr') ->
  entry_ok curr' /\
  (r = SBI_FIFO_UNCHANGED /\ curr' = curr \/ (r = SBI_FIFO_SKIP \/ r = SBI_FIFO_UPDATED) /\ merged curr next curr').
Proof.
  intros Hn Hc. unfold tlb_update_cb.
  destruct ((type next =? SBI_TLB_SFENCE_VMA_ASID) && _) eqn:T1; [destruct (Z.eqb_spec next.(asid) curr.(asid)) as [Ea|]|
    destruct ((type next =? SBI_TLB_SFENCE_VMA) && _) eqn:T2].
  2,4: intros [= <- <-]; by split; [|left].
  all: intros E; eapply range_check_covers in E; [exact E|done|done|..]; unfold sfence_type; lia.
Qed.

(** The callback keeps the fields within their C types. *)
Lemma update_cb_typed next curr :
  typed_tlb_info next -> typed_tlb_info curr -> typed_tlb_info (tlb_update_cb next curr).2.
Proof.
  intros Hn Hc. assert (typed_tlb_info (tlb_range_check curr next).2) as Hrc.
  { unfold tlb_range_check. destruct (or_smask_spec curr next) as [Hm _]; [apply Hc|apply Hn|].
    unfold typed_tlb_info in *. repeat case_match; cbn [snd start size asid vmid type smask]; naive_solver. }
  unfold tlb_update_cb. repeat case_match; done.
Qed.

(** On a whole queue: nothing changes, or one queued request absorbs the new one. *)
Lemma update_queue_merged next q : forall r q',
  entry_ok next -> Forall entry_ok q ->
  update_spec (tlb_update_cb next) SBI_FIFO_UNCHANGED q = (r, q') ->
  Forall entry_ok q' /\
  (r = SBI_FIFO_UNCHANGED /\ q' = q \/
   (r = SBI_FIFO_SKIP \/ r = SBI_FIFO_UPDATED) /\
   exists q1 e e' q2, q = q1 ++ e :: q2 /\ q' = q1 ++ e' :: q2 /\ merged e next e').
Proof.
  induction q as [|e q IH]; intros r q' Hn Hq E; cbn [update_spec] in E; [simplify_eq; by split; [|left]|].
  apply Forall_cons in Hq as [He Hq]. destruct (tlb_update_cb next e) as [r1 e1] eqn:Ecb.
  destruct (update_cb_covers next e r1 e1 Hn He Ecb) as [He1 [[-> ->]|[Hr Hm]]].
  - change (_ || _) with false in E. destruct (update_spec _ _ q) as [r2 q2] eqn:E2. simplify_eq.
    destruct (IH r q2 Hn Hq eq_refl) as [Hq2 [[-> ->]|(Hr & q1 & e0 & e' & q3 & -> & -> & Hm)]].
    + split; [by constructor|by left].
    + split; [by constructor|right]. split; [done|]. exists (e :: q1), e0, e', q3. done.
  - assert ((r1 =? SBI_FIFO_SKIP) || (r1 =? SBI_FIFO_UPDATED) = true) as Hb by (destruct Hr as [-> | ->]; done).
    rewrite Hb in E. simplify_eq. split; [by constructor|right]. split; [done|]. exists [], e, e1, q. done.
Qed.

(** ** Properties *)

(** Merging a fence request into the queue of a hart loses nothing.  The
    in-place update of the byte FIFO with [tlb_update_cb] leaves the queue alone
    and answers UNCHANGED, or answers SKIP or UPDATED and the queue then holds an
    entry that asks for everything the new request asks for on behalf of its
    harts; either way every entry that was queued still has its place, asks for
    at least as much and acknowledges at least the same harts.  The requests are
    page aligned, do not wrap around and are not of the form (0, 0). *)
Theorem tlb_queue_merge next f q :
  fifo_holds f q -> Forall entry_ok q -> entry_ok next ->
  exists r f' q',
    sbi_fifo_inplace_update (Some f) (Some (on_bytes (tlb_update_cb next))) = Some (r, Some f') /\
    fifo_holds f' q' /\ Forall entry_ok q' /\ length q' = length q /\
    (forall k e, q !! k = Some e -> exists e', q' !! k = Some e' /\ (forall c, asked e c -> asked e' c) /\
       forall i, hart_in i e.(smask) = true -> hart_in i e'.(smask) = true) /\
    (r = SBI_FIFO_UNCHANGED /\ q' = q \/
     (r = SBI_FIFO_SKIP \/ r = SBI_FIFO_UPDATED) /\
     exists e', e' ∈ q' /\ (forall c, asked next c -> asked e' c) /\
       forall i, hart_in i next.(smask) = true -> hart_in i e'.(smask) = true).
Proof.
  intros Hf Hq Hn.
  destruct (holds_update (tlb_update_cb next) f q Hf) as (f' & E & Hf' & _);
    [intros e He; apply update_cb_typed; [apply Hn|done]|].
  destruct (update_spec (tlb_update_cb next) SBI_FIFO_UNCHANGED q) as [r q'] eqn:Eu. cbn [fst snd] in *.
  exists r, f', q'. split; [done|]. split; [done|].
  destruct (update_queue_merged next q r q' Hn Hq Eu) as [Hq' [[-> ->]|(Hr & q1 & e & e' & q2 & -> & -> & Hm & Hi)]].
  - split_and!; [done|done| |by left]. eauto.
  - split; [done|]. split; [by rewrite !length_app|]. split.
    + intros k x Hk. destruct (decide (k = length q1)) as [->|Hne].
      * rewrite list_lookup_middle in Hk by done. simplify_eq. exists e'. rewrite list_lookup_middle by done.
        split_and!; [done|by eauto|]. intros i Hx. by rewrite Hi, Hx.
      * exists x. split; [|done]. apply lookup_app_Some in Hk as [Hk|[Hge Hk]]; apply lookup_app_Some; [by left|right].
        split; [done|]. destruct (k - length q1)%nat eqn:Ek; [lia|done].
    + right. split; [done|]. exists e'. split; [apply elem_of_app; right; apply list_elem_of_here|].
      split; [by eauto|]. intros i Hx. by rewrite Hi, Hx, orb_true_r.
Qed.

(** A hart that processes a fence request returns, restores [hgatp], and has
    executed instructions that invalidate every cached item the request asks
    for: one instruction for the whole range, or one per page of the range. *)
Theorem tlb_local_process_complete t hgatp0 :
  request_ok t ->
  exists evs, tlb_entry_local_process (Some t) hgatp0 = Some (evs, hgatp0) /\
    forall c, asked t c -> exists e, e ∈ evs /\ flushes e c.
Proof. exact (local_process_covers t hgatp0). Qed.

(** A request for everything in the form (0, 0) that meets a queued request for
    the first page is skipped: the hart will not execute a fence for it. *)
Theorem flush_all_request_skipped :
  let curr := TlbInfo 0 4096 0 0 SBI_TLB_SFENCE_VMA [1; 0] in
  let next := TlbInfo 0 0 0 0 SBI_TLB_SFENCE_VMA [2; 0] in
  tlb_update_cb next curr = (SBI_FIFO_SKIP, TlbInfo 0 4096 0 0 SBI_TLB_SFENCE_VMA [3; 0]) /\
  tlb_entry_local_process (Some (tlb_update_cb next curr).2) 0 = Some ([PmuIncr SBI_PMU_FW_SFENCE_VMA_RCVD; SfenceVmaVa 0], 0) /\
  asked next (Va 0 4096) /\ ~ flushes (SfenceVmaVa 0) (Va 0 4096).
Proof. cbv zeta. split; [reflexivity|]. split; [reflexivity|]. split; [|done]. split; [by left|by left]. Qed.

(** The end of a range that reaches the top of the address space is 0, and the
    request is skipped in favour of an unrelated one. *)
Theorem last_page_request_skipped :
  let curr := TlbInfo 0 4096 0 0 SBI_TLB_SFENCE_VMA [1; 0] in
  let next := TlbInfo (2 ^ 64 - 4096) 4096 0 0 SBI_TLB_SFENCE_VMA [2; 0] in
  tlb_update_cb next curr = (SBI_FIFO_SKIP, TlbInfo 0 4096 0 0 SBI_TLB_SFENCE_VMA [3; 0]) /\
  asked next (Va 0 (2 ^ 64 - 1)) /\ ~ flushes (SfenceVmaVa 0) (Va 0 (2 ^ 64 - 1)).
Proof. cbv zeta. split; [reflexivity|]. split; [|done]. split; [by left|right]. cbn [start size]. lia. Qed.

(** ** Witnesses *)

Definition demo_curr : sbi_tlb_info := TlbInfo 0x4000 0x1000 0 0 SBI_TLB_SFENCE_VMA [1; 0].
Definition demo_next : sbi_tlb_info := TlbInfo 0x3000 0x3000 0 0 SBI_TLB_SFENCE_VMA [2; 0].

Lemma demo_entry_ok : entry_ok demo_curr /\ entry_ok demo_next.
Proof.
  assert (forall s z m, 0 <= s < 2 ^ 32 -> 0 < z < 2 ^ 32 -> (4096 | s) -> in_range 64 m ->
    entry_ok (TlbInfo s z 0 0 SBI_TLB_SFENCE_VMA [m; 0])) as H.
  { intros s z m Hs Hz Hd Hm. split; [constructor; cbn [start size vmid]; rewrite ?PAGE_SIZE_eq; try done; lia|].
    split; [|cbn [start size]; intros _ ?; lia].
    split_and!; cbn [start size asid vmid type smask]; unfold SBI_TLB_SFENCE_VMA, in_range; try lia.
    split; [done|]. apply Forall_cons. split; [done|]. apply Forall_singleton. unfold in_range; lia. }
  split; apply H; try (unfold in_range; lia); [by exists 4|by exists 3].
Qed.

Definition demo_tlb_fifo : option (Z * option sbi_fifo) :=
  sbi_fifo_enqueue (Some (sbi_fifo_init (replicate 120 0) 3 40)) (Some (encode demo_curr)) false.

Lemma tlb_local_process_complete_witness :
  exists evs, tlb_entry_local_process (Some demo_next) 7 = Some (evs, 7) /\
    exists e, e ∈ evs /\ flushes e (Va 9 0x5abc).
Proof.
  destruct (tlb_local_process_complete demo_next 7) as (evs & E & Hc); [apply demo_entry_ok|].
  exists evs. split; [exact E|]. apply Hc. split; [by left|right]. cbn. lia.
Defined.

Lemma tlb_queue_merge_witness :
  exists f f' q', demo_tlb_fifo = Some (0, Some f) /\
    sbi_fifo_inplace_update (Some f) (Some (on_bytes (tlb_update_cb demo_next))) = Some (SBI_FIFO_UPDATED, Some f') /\
    fifo_holds f' q' /\ length q' = 1%nat.
Proof.
  destruct demo_entry_ok as [Hc Hn].
  destruct (holds_enqueue (E := sbi_tlb_info) (sbi_fifo_init (replicate 120 0) 3 40) [] demo_curr)
    as (r & f & q & E & Hf & _ & Hq).
  - split_and!; [|reflexivity|reflexivity|by constructor].
    split; [apply unlocked_free|]. constructor; [cbn; lia..|reflexivity].
  - apply Hc.
  - change (bool_decide _) with false in Hq. cbn iota in Hq. destruct Hq as [-> ->].
    destruct (tlb_queue_merge demo_next f [demo_curr] Hf) as (r & f' & q' & Eu & Hf' & _ & Hl & _); [by apply Forall_singleton|exact Hn|].
    exists f, f', q'. split; [exact E|]. split; [|split; [exact Hf'|exact Hl]]. rewrite Eu.
    assert (E2 : demo_tlb_fifo = Some (0, Some f)) by exact E. vm_compute in E2. injection E2 as <-.
    vm_compute in Eu. injection Eu as <- _. reflexivity.
Defined.
