(* ===== verification/Ipi.v ===== *)
(** * Inter-processor interrupts and remote fences of OpenSBI
    (lib/sbi/sbi_ipi.c, the queueing half of lib/sbi/sbi_tlb.c and
    lib/sbi/sbi_ecall_rfence.c, sbi_ecall_ipi.c), 64-bit.

    The functions are programs of [Conc] over the state the harts share: what
    [Hsm] keeps, the interrupt hardware (of an abstract type [D]), and per hart
    its pending events, its fence queue, its acknowledgement counter and the
    instructions it executed.  An operation on a fence queue is one atomic step,
    since it runs under the lock of the queue, and acts on the queue of entries
    the byte FIFO represents ([Fifo.fifo_holds]). *)

From S2P Require Import Prelude SbiTypes Hartmask Bitops Domain Hsm Fifo Tlb Conc.

Local Open Scope Z_scope.
Local Open Scope conc_scope.

(** ** State *)

Definition SBI_IPI_EVENT_MAX : Z := 64.
Definition SBI_IPI_UPDATE_SUCCESS : Z := 0.
Definition SBI_IPI_UPDATE_BREAK : Z := 1.
Definition SBI_IPI_UPDATE_RETRY : Z := 2.

Record ipi_hart := IpiHart {
  ipi_type : Z;                     (* struct sbi_ipi_data *)
  sync_count : Z;                   (* the atomic_t at tlb_sync_off *)
  tlb_fifo : list sbi_tlb_info;     (* the struct sbi_fifo at tlb_fifo_off *)
  hgatp : Z;
  trace : list event;
}.

Record isys (D : Type) := Isys { hsm : Hsm.sys; hw : D; harts : gmap Z ipi_hart }.
Arguments Isys {D} _ _ _.
Arguments hsm {D} _.
Arguments hw {D} _.
Arguments harts {D} _.

Definition set_ipi_type (v : Z) (h : ipi_hart) : ipi_hart :=
  IpiHart v h.(sync_count) h.(tlb_fifo) h.(hgatp) h.(trace).
Definition set_sync (v : Z) (h : ipi_hart) : ipi_hart :=
  IpiHart h.(ipi_type) v h.(tlb_fifo) h.(hgatp) h.(trace).
Definition set_fifo (q : list sbi_tlb_info) (h : ipi_hart) : ipi_hart :=
  IpiHart h.(ipi_type) h.(sync_count) q h.(hgatp) h.(trace).
Definition executed (evs : list event) (hg : Z) (h : ipi_hart) : ipi_hart :=
  IpiHart h.(ipi_type) h.(sync_count) h.(tlb_fifo) hg (h.(trace) ++ evs).

(** [struct sbi_ipi_device]; a null function pointer is [None]. *)
Record sbi_ipi_device (D : Type) := IpiDevice { ipi_send : option (Z -> D -> D); ipi_clear : option (Z -> D -> D) }.
Arguments ipi_send {D} _.
Arguments ipi_clear {D} _.

(** The [struct sbi_ipi_event_ops] objects of the two files. *)
Inductive ops_id := ipi_smode_ops | ipi_halt_ops | tlb_ops.
#[export] Instance ops_id_eq_dec : EqDecision ops_id.
Proof. solve_decision. Defined.

Section Ipi.
Context {D : Type} (ipi_dev : option (sbi_ipi_device D)).
(** The table of events, which does not change after the cold boot; the capacity
    of the fence queues; the platform's limit on ranges. *)
Context (ipi_ops_array : list (option ops_id)) (tlb_num_entries : nat) (tlb_range_flush_limit : Z).
Context (ipi_smode_event ipi_halt_event tlb_event : Z).
(** The hart numbering and the domains; the device of [Hsm]. *)
Context (hartid_to_hartindex hartindex_to_hartid : Z -> Z) (thishart_dom : Z -> option sbi_domain).
Context (hsm_dev : option sbi_hsm_device).

Abbreviation St := (isys D).
Abbreviation prog := (prog St Hsm.exit).
Abbreviation action R := (St -> R * St).

(** ** Accesses *)

(** An access to the scratch space of hart [i]; nothing happens without one. *)
Definition on_hart {R} (i : Z) (d : R) (f : ipi_hart -> R * ipi_hart) : action R := fun s =>
  match s.(harts) !! i with
  | Some h => ((f h).1, Isys s.(hsm) s.(hw) (<[i := (f h).2]> s.(harts)))
  | None => (d, s)
  end.

Definition has_hart (i : Z) : action bool := fun s => (bool_decide (is_Some (s.(harts) !! i)), s).

(** riscv_atomic.c on [sync_count], a [long]. *)
Definition atomic_read (i : Z) : action Z := on_hart i 0 (fun h => (h.(sync_count), h)).
Definition atomic_add_return (i value : Z) : action Z :=
  on_hart i 0 (fun h => let v := signed 64 (h.(sync_count) + value) in (v, set_sync v h)).
Definition atomic_sub_return (i value : Z) : action Z := atomic_add_return i (- value).

Definition fetch_or_ipi_type (i bits : Z) : action Z :=
  on_hart i 0 (fun h => (h.(ipi_type), set_ipi_type (Z.lor h.(ipi_type) bits) h)).
Definition xchg_ipi_type (i v : Z) : action Z := on_hart i 0 (fun h => (h.(ipi_type), set_ipi_type v h)).

Definition sbi_pmu_ctr_incr_fw (i fw : Z) : action unit :=
  on_hart i tt (fun h => (tt, executed [PmuIncr fw] h.(hgatp) h)).

(** The operations of sbi_fifo.c on the queue of hart [i]; a null [data] is [None]. *)
Definition fifo_dequeue (i : Z) : action (option sbi_tlb_info) :=
  on_hart i None (fun h => match h.(tlb_fifo) with [] => (None, h) | e :: q => (Some e, set_fifo q h) end).
Definition fifo_inplace_update (i : Z) (data : option sbi_tlb_info) : action Z :=
  on_hart i SBI_FIFO_UNCHANGED (fun h =>
    match data with
    | None => (SBI_FIFO_UNCHANGED, h)
    | Some next => let '(r, q) := update_spec (tlb_update_cb next) SBI_FIFO_UNCHANGED h.(tlb_fifo) in (r, set_fifo q h)
    end).
Definition fifo_enqueue (i : Z) (data : option sbi_tlb_info) : action Z :=
  on_hart i SBI_EINVAL (fun h =>
    match data with
    | None => (SBI_EINVAL, h)
    | Some e => if bool_decide (length h.(tlb_fifo) = tlb_num_entries) then (SBI_ENOSPC, h)
                else (0, set_fifo (h.(tlb_fifo) ++ [e]) h)
    end).

(** A function of sbi_hsm.c. *)
Fixpoint lift_hsm {A} (p : Hsm.prog A) : prog A :=
  match p with
  | Hsm.Ret a => Ret a
  | Hsm.Exit e => Exit e
  | Hsm.Do a k => Do (fun s => ((a s.(hsm)).1, Isys (a s.(hsm)).2 s.(hw) s.(harts))) (fun z => lift_hsm (k z))
  | Hsm.Wait c k => Wait (fun s => c s.(hsm)) (lift_hsm k)
  end.

(** [csr_set] and [csr_clear] of the running hart. *)
Definition csr (f : Hsm.hart -> Hsm.hart) (me : Z) : action unit := fun s =>
  (tt, Isys (alter f me s.(hsm)) s.(hw) s.(harts)).

(** ** sbi_tlb.c: the queue *)

(** A loop that never ends. *)
Definition spin {A} : prog A := Iter (fun _ : unit => Ret (inl tt)) tt (fun a : A => Ret a).

Definition local_process (me : Z) (data : option sbi_tlb_info) : prog unit :=
  do hg <- on_hart me 0 (fun h => (h.(hgatp), h)) in
  match tlb_entry_local_process data hg with
  | None => spin
  | Some (evs, hg) => do_ on_hart me tt (fun h => (tt, executed evs hg h)) in Ret tt
  end.

(** The loop of [tlb_entry_process] over the harts of the mask. *)
Fixpoint acknowledge (rindexes : list Z) : prog unit :=
  match rindexes with
  | [] => Ret tt
  | r :: rindexes => do_ atomic_sub_return r 1 in acknowledge rindexes
  end.

Definition tlb_entry_process (me : Z) (tinfo : sbi_tlb_info) : prog unit :=
  call _ <- local_process me (Some tinfo) in
  acknowledge (default [] (sbi_hartmask_for_each_hartindex tinfo.(smask))).

Definition tlb_process_once (me : Z) : prog bool :=
  do e <- fifo_dequeue me in
  match e with
  | Some tinfo => call _ <- tlb_entry_process me tinfo in Ret true
  | None => Ret false
  end.

Definition tlb_process (me : Z) : prog unit :=
  Iter (fun _ : unit => call b <- tlb_process_once me in Ret (if b : bool then inl tt else inr tt)) tt
    (fun _ : unit => Ret tt).

Definition tlb_sync (me : Z) : prog unit :=
  Iter (fun _ : unit =>
          do n <- atomic_read me in
          if 0 <? n then call _ <- tlb_process_once me in Ret (inl tt) else Ret (inr tt)) tt
    (fun _ : unit => Ret tt).

Definition tlb_update (me remote_hartindex : Z) (data : option sbi_tlb_info) : prog Z :=
  if hartindex_to_hartid remote_hartindex =? hartindex_to_hartid me then
    call _ <- local_process me data in Ret SBI_IPI_UPDATE_BREAK
  else
    do ret <- fifo_inplace_update remote_hartindex data in
    if ret =? SBI_FIFO_UNCHANGED then
      do r <- fifo_enqueue remote_hartindex data in
      if r <? 0 then call _ <- tlb_process_once me in Ret SBI_IPI_UPDATE_RETRY
      else do_ atomic_add_return me 1 in Ret SBI_IPI_UPDATE_SUCCESS
    else do_ atomic_add_return me 1 in Ret SBI_IPI_UPDATE_SUCCESS.

(** ** sbi_ipi.c *)

Definition sbi_ipi_raw_send (hartindex : Z) : prog Z :=
  match ipi_dev with
  | Some d =>
      match d.(ipi_send) with
      | Some f => do_ (fun s => (tt, Isys s.(hsm) (f hartindex s.(hw)) s.(harts))) in Ret 0
      | None => Ret SBI_EINVAL
      end
  | None => Ret SBI_EINVAL
  end.

Definition sbi_ipi_raw_clear (me : Z) : prog unit :=
  match ipi_dev with
  | Some d =>
      match d.(ipi_clear) with
      | Some f => do_ (fun s => (tt, Isys s.(hsm) (f me s.(hw)) s.(harts))) in Ret tt
      | None => Ret tt
      end
  | None => Ret tt
  end.

Record sbi_ipi_event_ops := EventOps {
  update : option (Z -> Z -> option sbi_tlb_info -> prog Z);
  sync : option (Z -> prog unit);
  process : Z -> prog unit;
}.

(** The entry of the table for an event, which [sbi_ipi_send] and [sbi_ipi_sync]
    look up first. *)
Definition event_ops (event : Z) : option ops_id :=
  if SBI_IPI_EVENT_MAX <=? event then None else mjoin (ipi_ops_array !! Z.to_nat event).

Definition sbi_ipi_process_smode (me : Z) : prog unit :=
  do_ csr (fun h => Hsm.set_mip (Z.lor h.(Hsm.cs).(Hsm.mip) Hsm.MIP_SSIP) h) me in Ret tt.

Definition sbi_ipi_clear_smode (me : Z) : prog unit :=
  do_ csr (fun h => Hsm.set_mip (Z.land h.(Hsm.cs).(Hsm.mip) (Z.lnot Hsm.MIP_SSIP)) h) me in Ret tt.

Definition sbi_ipi_update_halt (me remote : Z) (data : option sbi_tlb_info) : prog Z :=
  Ret (if me =? remote then SBI_IPI_UPDATE_BREAK else SBI_IPI_UPDATE_SUCCESS).

(** The loop of [sbi_ipi_process] on the bits of [ipi_type]. *)
Fixpoint process_bits (fuel : nat) (run_ops : ops_id -> prog unit) (ipi_type ipi_event : Z) : prog unit :=
  match fuel with
  | O => Ret tt
  | S fuel =>
      if ipi_type =? 0 then Ret tt
      else
        let next := process_bits fuel run_ops (Z.shiftr ipi_type 1) (ipi_event + 1) in
        if negb (Z.land ipi_type 1 =? 0) then
          match event_ops ipi_event with
          | Some o => call _ <- run_ops o in next
          | None => next
          end
        else next
  end.

Definition ipi_process_with (run_ops : ops_id -> prog unit) (me : Z) : prog unit :=
  do_ sbi_pmu_ctr_incr_fw me SBI_PMU_FW_IPI_RECVD in
  call _ <- sbi_ipi_raw_clear me in
  do ipi_type <- xchg_ipi_type me 0 in
  process_bits 64 run_ops ipi_type 0.

(** [sbi_ipi_process_halt]: [sbi_hsm_hart_stop] followed by [sbi_exit], of which
    [sbi_ipi_exit] and [sbi_hsm_exit] matter here.  [sbi_ipi_exit] processes the
    pending events, a halt among them, but that one finds the hart stopping: two
    levels are enough. *)
Fixpoint sbi_ipi_process_halt (depth : nat) (me : Z) : prog unit :=
  match depth with
  | O => Ret tt
  | S depth =>
      call rc <- lift_hsm (sbi_hsm_hart_stop hsm_dev thishart_dom me false) in
      if negb (rc =? 0) then Ret tt
      else
        do_ csr (fun h => Hsm.set_mie (Z.land h.(Hsm.cs).(Hsm.mie) (Z.lnot Hsm.MIP_MSIP)) h) me in
        call _ <- ipi_process_with (fun o => match o with
                                             | ipi_smode_ops => sbi_ipi_process_smode me
                                             | ipi_halt_ops => sbi_ipi_process_halt depth me
                                             | tlb_ops => tlb_process me
                                             end) me in
        lift_hsm (sbi_hsm_exit hsm_dev me)
  end.

Definition ops_of (o : ops_id) : sbi_ipi_event_ops :=
  match o with
  | ipi_smode_ops => EventOps None None sbi_ipi_process_smode
  | ipi_halt_ops => EventOps (Some sbi_ipi_update_halt) None (sbi_ipi_process_halt 2)
  | tlb_ops => EventOps (Some tlb_update) (Some tlb_sync) tlb_process
  end.

Definition sbi_ipi_process (me : Z) : prog unit := ipi_process_with (fun o => (ops_of o).(process) me) me.

Definition sbi_ipi_exit (me : Z) : prog unit :=
  do_ csr (fun h => Hsm.set_mie (Z.land h.(Hsm.cs).(Hsm.mie) (Z.lnot Hsm.MIP_MSIP)) h) me in
  sbi_ipi_process me.

(** The end of [sbi_ipi_send]. *)
Definition ipi_trigger (me remote event : Z) : prog Z :=
  do old <- fetch_or_ipi_type remote (Z.shiftl 1 event) in
  call ret <- (if old =? 0 then sbi_ipi_raw_send remote else Ret 0) in
  do_ sbi_pmu_ctr_incr_fw me SBI_PMU_FW_IPI_SENT in
  Ret ret.

Definition sbi_ipi_send (me remote event : Z) (data : option sbi_tlb_info) : prog Z :=
  match event_ops event with
  | None => Ret SBI_EINVAL
  | Some o =>
      do e <- has_hart remote in
      if negb e then Ret SBI_EINVAL
      else
        match (ops_of o).(update) with
        | Some upd =>
            call ret <- upd me remote data in
            if negb (ret =? SBI_IPI_UPDATE_SUCCESS) then Ret ret else ipi_trigger me remote event
        | None =>
            if me =? remote then call _ <- (ops_of o).(process) me in Ret 0
            else ipi_trigger me remote event
        end
  end.

Definition sbi_ipi_sync (me event : Z) : prog Z :=
  match event_ops event with
  | None => Ret SBI_EINVAL
  | Some o =>
      match (ops_of o).(sync) with
      | Some f => call _ <- f me in Ret 0
      | None => Ret 0
      end
  end.

(** The loop of [sbi_ipi_send_many] over the bits of [hmask]. *)
Fixpoint hmask_loop (fuel : nat) (i hmask : Z) (tmp_mask : sbi_hartmask) : sbi_hartmask :=
  match fuel with
  | O => tmp_mask
  | S fuel =>
      if hmask =? 0 then tmp_mask
      else
        let tmp_mask := if negb (Z.land hmask 1 =? 0)
                        then default tmp_mask (sbi_hartmask_set_hartid hartid_to_hartindex (u32 i) tmp_mask)
                        else tmp_mask in
        hmask_loop fuel (u64 (i + 1)) (Z.shiftr hmask 1) tmp_mask
  end.

Definition select_targets (hmask hbase : Z) (target_mask : sbi_hartmask) : sbi_hartmask :=
  if negb (hbase =? u64 (-1))
  then default target_mask (sbi_hartmask_and target_mask target_mask (hmask_loop 64 hbase hmask [0; 0]))
  else target_mask.

(** One pass over [target_mask] from hart index [i]: the mask and whether a retry
    is needed, or the error that ends the loop. *)
Fixpoint send_pass (fuel : nat) (me event : Z) (data : option sbi_tlb_info) (target_mask : sbi_hartmask)
    (i : Z) (retry_needed : bool) : prog (sbi_hartmask * bool + Z) :=
  match fuel with
  | O => Ret (inl (target_mask, retry_needed))
  | S fuel =>
      if i <? SBI_HARTMASK_MAX_BITS then
        call rc <- sbi_ipi_send me i event data in
        if rc <? 0 then Ret (inr rc)
        else
          let retry_needed := if rc =? SBI_IPI_UPDATE_RETRY then true else retry_needed in
          let target_mask := if rc =? SBI_IPI_UPDATE_RETRY then target_mask
                             else default target_mask (sbi_hartmask_clear_hartindex i target_mask) in
          send_pass fuel me event data target_mask
            (default SBI_HARTMASK_MAX_BITS (find_next_bit target_mask SBI_HARTMASK_MAX_BITS (i + 1))) retry_needed
      else Ret (inl (target_mask, retry_needed))
  end.

Definition send_body (me event : Z) (data : option sbi_tlb_info) (target_mask : sbi_hartmask) : prog (sbi_hartmask + Z) :=
  call r <- send_pass 129 me event data target_mask
              (default SBI_HARTMASK_MAX_BITS (find_first_bit target_mask SBI_HARTMASK_MAX_BITS)) false in
  Ret (match r with
       | inr rc => inr rc
       | inl (target_mask, true) => inl target_mask
       | inl (_, false) => inr 0
       end).

Definition sbi_ipi_send_many (me hmask hbase event : Z) (data : option sbi_tlb_info) : prog Z :=
  call m <- lift_hsm (sbi_hsm_hart_interruptible_mask (thishart_dom me) [0; 0]) in
  Iter (send_body me event data) (select_targets hmask hbase (default [0; 0] m))
    (fun rc => call _ <- sbi_ipi_sync me event in Ret rc).

Definition sbi_ipi_send_smode (me hmask hbase : Z) : prog Z := sbi_ipi_send_many me hmask hbase ipi_smode_event None.
Definition sbi_ipi_send_halt (me hmask hbase : Z) : prog Z := sbi_ipi_send_many me hmask hbase ipi_halt_event None.

(** ** Requests *)

Definition tlb_type_to_pmu_fw_event : list Z :=
  [SBI_PMU_FW_FENCE_I_SENT; SBI_PMU_FW_SFENCE_VMA_SENT; SBI_PMU_FW_SFENCE_VMA_ASID_SENT;
   SBI_PMU_FW_HFENCE_GVMA_VMID_SENT; SBI_PMU_FW_HFENCE_GVMA_SENT; SBI_PMU_FW_HFENCE_VVMA_ASID_SENT;
   SBI_PMU_FW_HFENCE_VVMA_SENT].

(** The request as it is sent: a range that is too long becomes everything. *)
Definition limited (t : sbi_tlb_info) : sbi_tlb_info :=
  if tlb_range_flush_limit <? t.(size) then TlbInfo 0 SBI_TLB_FLUSH_ALL t.(asid) t.(vmid) t.(type) t.(smask) else t.

Definition sbi_tlb_request (me hmask hbase : Z) (t : sbi_tlb_info) : prog Z :=
  if (t.(type) <? 0) || (SBI_TLB_TYPE_MAX <=? t.(type)) then Ret SBI_EINVAL
  else
    let t := limited t in
    do_ sbi_pmu_ctr_incr_fw me (nth (Z.to_nat t.(type)) tlb_type_to_pmu_fw_event 0) in
    sbi_ipi_send_many me hmask hbase tlb_event (Some t).

(** [SBI_TLB_INFO_INIT]; the fields [asid] and [vmid] are 16 bits wide. *)
Definition SBI_TLB_INFO_INIT (start size asid vmid type src : Z) : sbi_tlb_info :=
  TlbInfo start size (u16 asid) (u16 vmid) type
    (default [0; 0] (SBI_HARTMASK_INIT_EXCEPT hartid_to_hartindex [0; 0] src)).

(** The registers the handlers read. *)
Record rfence_regs := RfenceRegs { ra0 : Z; ra1 : Z; ra2 : Z; ra3 : Z; ra4 : Z }.

Definition SBI_EXT_RFENCE_REMOTE_FENCE_I : Z := 0.
Definition SBI_EXT_RFENCE_REMOTE_SFENCE_VMA : Z := 1.
Definition SBI_EXT_RFENCE_REMOTE_SFENCE_VMA_ASID : Z := 2.
Definition SBI_EXT_RFENCE_REMOTE_HFENCE_GVMA_VMID : Z := 3.
Definition SBI_EXT_RFENCE_REMOTE_HFENCE_GVMA : Z := 4.
Definition SBI_EXT_RFENCE_REMOTE_HFENCE_VVMA_ASID : Z := 5.
Definition SBI_EXT_RFENCE_REMOTE_HFENCE_VVMA : Z := 6.

(** The request the handler of a fence call builds; [vm] is the virtual machine
    in [hgatp] of the caller. *)
Definition rfence_request (me funcid vm : Z) (r : rfence_regs) : option sbi_tlb_info :=
  let source_hart := hartindex_to_hartid me in
  if funcid =? SBI_EXT_RFENCE_REMOTE_FENCE_I then
    Some (SBI_TLB_INFO_INIT 0 0 0 0 SBI_TLB_FENCE_I source_hart)
  else if funcid =? SBI_EXT_RFENCE_REMOTE_HFENCE_GVMA then
    Some (SBI_TLB_INFO_INIT r.(ra2) r.(ra3) 0 0 SBI_TLB_HFENCE_GVMA source_hart)
  else if funcid =? SBI_EXT_RFENCE_REMOTE_HFENCE_GVMA_VMID then
    Some (SBI_TLB_INFO_INIT r.(ra2) r.(ra3) 0 r.(ra4) SBI_TLB_HFENCE_GVMA_VMID source_hart)
  else if funcid =? SBI_EXT_RFENCE_REMOTE_HFENCE_VVMA then
    Some (SBI_TLB_INFO_INIT r.(ra2) r.(ra3) 0 vm SBI_TLB_HFENCE_VVMA source_hart)
  else if funcid =? SBI_EXT_RFENCE_REMOTE_HFENCE_VVMA_ASID then
    Some (SBI_TLB_INFO_INIT r.(ra2) r.(ra3) r.(ra4) vm SBI_TLB_HFENCE_VVMA_ASID source_hart)
  else if funcid =? SBI_EXT_RFENCE_REMOTE_SFENCE_VMA then
    Some (SBI_TLB_INFO_INIT r.(ra2) r.(ra3) 0 0 SBI_TLB_SFENCE_VMA source_hart)
  else if funcid =? SBI_EXT_RFENCE_REMOTE_SFENCE_VMA_ASID then
    Some (SBI_TLB_INFO_INIT r.(ra2) r.(ra3) r.(ra4) 0 SBI_TLB_SFENCE_VMA_ASID source_hart)
  else None.

Definition sbi_ecall_rfence_handler (misa_h : bool) (me funcid : Z) (r : rfence_regs) : prog Z :=
  if (SBI_EXT_RFENCE_REMOTE_HFENCE_GVMA_VMID <=? funcid) && (funcid <=? SBI_EXT_RFENCE_REMOTE_HFENCE_VVMA)
     && negb misa_h
  then Ret SBI_ENOTSUPP
  else
    do hg <- on_hart me 0 (fun h => (h.(hgatp), h)) in
    match rfence_request me funcid (Z.shiftr (Z.land hg HGATP_VMID_MASK) HGATP_VMID_SHIFT) r with
    | Some t => sbi_tlb_request me r.(ra0) r.(ra1) t
    | None => Ret SBI_ENOTSUPP
    end.

Definition SBI_EXT_IPI_SEND_IPI : Z := 0.

Definition sbi_ecall_ipi_handler (me funcid : Z) (r : rfence_regs) : prog Z :=
  if funcid =? SBI_EXT_IPI_SEND_IPI then sbi_ipi_send_smode me r.(ra0) r.(ra1) else Ret SBI_ENOTSUPP.

(** The parts of [sbi_ipi_init] and [sbi_tlb_init] a hart runs on every boot, once
    the offsets and the events exist. *)
Definition sbi_ipi_init_hart (me : Z) : prog unit :=
  do_ on_hart me tt (fun h => (tt, set_ipi_type 0 h)) in
  call _ <- sbi_ipi_raw_clear me in
  do_ csr (fun h => Hsm.set_mie (Z.lor h.(Hsm.cs).(Hsm.mie) Hsm.MIP_MSIP) h) me in
  Ret tt.

Definition sbi_tlb_init_hart (me : Z) : prog unit :=
  do_ on_hart me tt (fun h => (tt, set_sync 0 h)) in
  do_ on_hart me tt (fun h => (tt, set_fifo [] h)) in
  Ret tt.

End Ipi.

Definition sbi_ipi_set_device {D} (ipi_dev dev : option (sbi_ipi_device D)) : option (sbi_ipi_device D) :=
  match dev, ipi_dev with
  | Some d, None => Some d
  | _, _ => ipi_dev
  end.

(** ** The table of events *)

Section Events.
Context (ipi_ops_array : list (option ops_id)).

(** The loop of [sbi_ipi_event_create] from index [i]. *)
Fixpoint event_create_loop (fuel : nat) (ops : ops_id) (i : nat) : Z * list (option ops_id) :=
  match fuel with
  | O => (SBI_ENOSPC, ipi_ops_array)
  | S fuel =>
      match mjoin (ipi_ops_array !! i) with
      | None => (Z.of_nat i, <[i := Some ops]> ipi_ops_array)
      | Some _ => event_create_loop fuel ops (S i)
      end
  end.

(** A null [ops] or a null [process] is [None]. *)
Definition sbi_ipi_event_create (ops : option ops_id) : Z * list (option ops_id) :=
  match ops with
  | None => (SBI_EINVAL, ipi_ops_array)
  | Some ops => event_create_loop (Z.to_nat SBI_IPI_EVENT_MAX) ops 0
  end.

Definition sbi_ipi_event_destroy (event : Z) : list (option ops_id) :=
  if SBI_IPI_EVENT_MAX <=? event then ipi_ops_array else <[Z.to_nat event := None]> ipi_ops_array.
End Events.

Lemma event_create_loop_spec tab ops fuel : forall i,
  let '(r, tab') := event_create_loop tab fuel ops i in
  (r = SBI_ENOSPC /\ tab' = tab /\ forall k, (i <= k < i + fuel)%nat -> is_Some (mjoin (tab !! k))) \/
  exists n, r = Z.of_nat n /\ (i <= n < i + fuel)%nat /\ tab' = <[n := Some ops]> tab /\
    mjoin (tab !! n) = None /\ forall k, (i <= k < n)%nat -> is_Some (mjoin (tab !! k)).
Proof.
  induction fuel as [|fuel IH]; intros i; cbn [event_create_loop].
  { left. split_and!; [done..|]. intros k Hk. lia. }
  destruct (mjoin (tab !! i)) as [o|] eqn:E.
  - specialize (IH (S i)). destruct (event_create_loop tab fuel ops (S i)) as [r tab'].
    assert (forall k, k = i -> is_Some (mjoin (tab !! k))) as Hi by (intros k ->; by exists o).
    destruct IH as [(-> & -> & Hall)|(n & -> & Hn & -> & Hfree & Hall)]; [left|right; exists n]; split_and!; try done; try lia;
      intros k Hk; (destruct (decide (k = i)); [by apply Hi|apply Hall; lia]).
  - right. exists i. split_and!; try done; lia.
Qed.

(** The table of IPI events.  Creating an event with operations returns the
    lowest free number below 64 and binds it to them, leaving the other events
    alone, or [SBI_ENOSPC] without any change when all 64 are taken; without
    operations it returns [SBI_EINVAL].  Destroying an event frees its number and
    no other. *)
Theorem ipi_event_table tab ops :
  length tab = 64%nat ->
  sbi_ipi_event_create tab None = (SBI_EINVAL, tab) /\
  (sbi_ipi_event_create tab (Some ops) = (SBI_ENOSPC, tab) /\ (forall k, (k < 64)%nat -> is_Some (mjoin (tab !! k))) \/
   exists n tab', sbi_ipi_event_create tab (Some ops) = (n, tab') /\ 0 <= n < SBI_IPI_EVENT_MAX /\
     event_ops tab n = None /\ (forall k, 0 <= k < n -> is_Some (event_ops tab k)) /\
     event_ops tab' n = Some ops /\ (forall k, 0 <= k -> k <> n -> event_ops tab' k = event_ops tab k) /\
     event_ops (sbi_ipi_event_destroy tab' n) n = None /\
     forall k, 0 <= k -> k <> n -> event_ops (sbi_ipi_event_destroy tab' n) k = event_ops tab k).
Proof.
  intros Hl. split; [done|]. cbn [sbi_ipi_event_create]. pose proof (event_create_loop_spec tab ops 64 0) as H.
  change (Z.to_nat SBI_IPI_EVENT_MAX) with 64%nat. destruct (event_create_loop tab 64 ops 0) as [r tab'].
  destruct H as [(-> & -> & Hall)|(n & -> & Hn & -> & Hfree & Hall)]; [left; split; [done|]; intros; apply Hall; lia|right].
  exists (Z.of_nat n), (<[n := Some ops]> tab). split; [done|]. unfold SBI_IPI_EVENT_MAX. split; [lia|].
  unfold event_ops, sbi_ipi_event_destroy, SBI_IPI_EVENT_MAX.
  replace (64 <=? Z.of_nat n) with false by lia. rewrite Nat2Z.id.
  rewrite !list_lookup_insert_eq by (rewrite ?length_insert; lia).
  split_and!; try done.
  - intros k Hk. replace (64 <=? k) with false by lia. apply Hall. lia.
  - intros k Hk Hne. destruct (64 <=? k); [done|]. by rewrite list_lookup_insert_ne by lia.
  - intros k Hk Hne. destruct (64 <=? k); [done|]. by rewrite !list_lookup_insert_ne by lia.
Qed.

Lemma ipi_event_table_witness :
  exists n tab', sbi_ipi_event_create (Some ipi_smode_ops :: Some ipi_halt_ops :: replicate 62 None) (Some tlb_ops) = (n, tab') /\
    event_ops tab' n = Some tlb_ops /\ event_ops tab' 0 = Some ipi_smode_ops.
Proof.
  destruct (ipi_event_table (Some ipi_smode_ops :: Some ipi_halt_ops :: replicate 62 None) tlb_ops eq_refl)
    as [_ [[H _]|(n & tab' & E & Hn & _ & _ & H1 & H2 & _)]]; [vm_compute in H; discriminate H|].
  exists n, tab'. split; [exact E|]. split; [exact H1|].
  assert (n = 2) as -> by (vm_compute in E; injection E as <- _; reflexivity).
  rewrite H2 by lia. reflexivity.
Defined.

(** ** The requests of the ecall handler *)

(** The mask of one hart. *)
Lemma init_except_spec h2i me h : h2i h = me -> 0 <= me < 128 ->
  mask_wf (default [0; 0] (SBI_HARTMASK_INIT_EXCEPT h2i [0; 0] h)) /\
  forall j, hart_in j (default [0; 0] (SBI_HARTMASK_INIT_EXCEPT h2i [0; 0] h)) = bool_decide (j = me).
Proof.
  intros E Hme. unfold SBI_HARTMASK_INIT_EXCEPT, bitmap_zero_except. rewrite E.
  change (bitmap_zero [0; 0] SBI_HARTMASK_MAX_BITS) with [0; 0].
  assert (mask_wf [0; 0]) as H0 by (split; [done|]; repeat constructor; unfold in_range; lia).
  destruct (set_hartindex_spec [0; 0] me H0 ltac:(lia)) as (m' & E' & Hm' & Hj).
  unfold sbi_hartmask_set_hartindex in E'. rewrite E'. cbn [default from_option id]. split; [done|]. intros j.
  destruct (decide (0 <= j < 128)) as [Hr|Hr].
  - rewrite Hj by done. change (hart_in j [0; 0]) with ((0 <=? j) && (j <? 128) && Z.testbit 0 j).
    rewrite Z.bits_0, andb_false_r, orb_false_r. apply Bool.eq_iff_eq_true. by rewrite Z.eqb_eq, bool_decide_eq_true.
  - rewrite bool_decide_eq_false_2 by lia. destruct (hart_in j m') eqn:Ej; [|done]. by apply hart_in_range in Ej.
Qed.

(** The requests the RFENCE handler builds meet what the fence machinery relies
    on: the type is one of the seven, every field fits its C type, the request is
    acknowledged to the caller and to no other hart, and after the limit on ranges
    was applied it is a page aligned range that does not wrap around or the whole
    address space.  The caller passes an aligned address and either a range above
    the limit or a non-empty one that ends below the last page. *)
Theorem rfence_request_wf h2i i2h limit me funcid vm r t :
  h2i (i2h me) = me -> 0 <= me < 128 -> 0 <= limit -> 0 <= vm < 2 ^ 14 -> 0 <= r.(ra4) < 2 ^ 14 ->
  in_range 64 r.(ra2) -> in_range 64 r.(ra3) -> (PAGE_SIZE | r.(ra2)) ->
  (limit < r.(ra3) \/ 0 < r.(ra3) /\ r.(ra2) + r.(ra3) <= 2 ^ 64 - PAGE_SIZE) ->
  rfence_request h2i i2h me funcid vm r = Some t ->
  entry_ok (limited limit t) /\ 0 <= t.(type) < SBI_TLB_TYPE_MAX /\
  forall j, hart_in j t.(smask) = bool_decide (j = me).
Proof.
  intros Ei Hme Hl Hvm H4 H2 H3 Hal Hrange Ht. destruct (init_except_spec h2i me (i2h me) Ei Hme) as [Hm Hj].
  assert (forall s z a v ty,
    in_range 64 s -> in_range 64 z -> 0 <= a < 2 ^ 14 -> 0 <= v < 2 ^ 14 -> (PAGE_SIZE | s) -> 0 <= ty < SBI_TLB_TYPE_MAX ->
    (limit < z \/ s + z <= 2 ^ 64 - PAGE_SIZE /\ (ty = 0 \/ 0 < z)) ->
    entry_ok (limited limit (SBI_TLB_INFO_INIT h2i s z a v ty (i2h me))) /\ 0 <= ty < SBI_TLB_TYPE_MAX /\
    forall j, hart_in j (SBI_TLB_INFO_INIT h2i s z a v ty (i2h me)).(smask) = bool_decide (j = me)) as Hinit.
  { intros s z a v ty Hs Hz Ha Hv Hd Hty Hr. split; [|split; [done|exact Hj]]. unfold SBI_TLB_INFO_INIT.
    rewrite !(wrap_small 16) by (unfold in_range; lia). unfold limited. cbn [size].
    unfold SBI_TLB_TYPE_MAX in Hty. unfold in_range in Hs, Hz. rewrite PAGE_SIZE_eq in *.
    change SBI_TLB_FLUSH_ALL with (2 ^ 64 - 1).
    destruct (Z.ltb_spec limit z) as [Hlt|Hge]; (split; [|split]).
    - constructor; cbn [start size vmid]; rewrite ?PAGE_SIZE_eq; try lia; [by exists 0|by left].
    - split_and!; cbn [start size asid vmid type smask]; try done; unfold in_range; lia.
    - cbn [start size]. lia.
    - constructor; cbn [start size vmid]; rewrite ?PAGE_SIZE_eq; try lia. done.
    - split_and!; cbn [start size asid vmid type smask]; try done; unfold in_range; lia.
    - cbn [start size type]. unfold SBI_TLB_SFENCE_VMA, SBI_TLB_SFENCE_VMA_ASID. lia. }
  unfold rfence_request in Ht. rewrite PAGE_SIZE_eq in *.
  cbv zeta in Ht.
  repeat (destruct (funcid =? _); [injection Ht as <-; apply Hinit;
    solve [done | apply Z.divide_0_r | unfold in_range in *; unfold SBI_TLB_FENCE_I; lia]|]).
  done.
Qed.

Lemma rfence_request_wf_witness :
  exists t, rfence_request Z.abs id 3 SBI_EXT_RFENCE_REMOTE_SFENCE_VMA_ASID 0 (RfenceRegs 1 0 0x4000 0x3000 9) = Some t /\
    entry_ok (limited 0x10000 t) /\ hart_in 3 t.(smask) = true.
Proof.
  eexists. split; [reflexivity|].
  destruct (rfence_request_wf Z.abs id 0x10000 3 SBI_EXT_RFENCE_REMOTE_SFENCE_VMA_ASID 0 (RfenceRegs 1 0 0x4000 0x3000 9)
              (TlbInfo 0x4000 0x3000 9 0 SBI_TLB_SFENCE_VMA_ASID [8; 0])) as (H1 & _ & H2);
    try (unfold in_range; cbn; lia); try reflexivity; [by exists 4|right; rewrite PAGE_SIZE_eq; cbn; lia|].
  split; [exact H1|]. rewrite H2. reflexivity.
Defined.
