(* ===== verification/IpiConc.v ===== *)
(** * Remote fences under concurrency.

    The harts run the programs of [Ipi] at the same time.  The invariant counts,
    for every requester, the acknowledgements the other harts still owe it: this
    is the value of its counter, so that the counter can only reach zero when
    every hart it queued a request for has executed the fences.  The theorem is
    the promise of the RFENCE extension: when the call returns without error,
    every selected hart that stayed up has executed fences that invalidate what
    was asked. *)

From S2P Require Import Prelude SbiTypes Hartmask Bitops Domain Hsm HsmConc Fifo Tlb Conc Ipi.

Local Open Scope Z_scope.
Local Open Scope conc_scope.

(** ** Ghost views and the invariant *)

(** What a hart is doing: the request it serves, with the length of every trace
    when it started; the harts it has handed the request to; whether it has not
    counted the last of them yet; whether it has seen its counter at zero; and as
    a server the entry it took from its queue, the harts it still has to
    acknowledge, and those whose entry it dropped when it was restarted. *)
Record view := View {
  vreq : option (sbi_tlb_info * (Z -> nat));
  vserved : Z -> bool;
  vuncounted : bool;
  vfin : bool;
  vent : option sbi_tlb_info;
  vsubs : list Z;
  vlost : Z -> bool;
}.

Definition nobody : Z -> bool := fun _ => false.
Abbreviation idle lost := (View None nobody false false None [] lost).

(** Case analysis on the hart whose view is updated. *)
Ltac gcase a i := destruct (decide (a = i)) as [->|]; [rewrite ?fn_lookup_insert|rewrite ?fn_lookup_insert_ne by done].

Section Inv.
(** The harts with a scratch space. *)
Context {D : Type} (HS : gset Z) (HH : forall i, i ∈ HS -> 0 <= i < 128).
Abbreviation St := (isys D).

Definition fifo_of (s : St) (i : Z) : list sbi_tlb_info := from_option tlb_fifo [] (s.(harts) !! i).
Definition trace_of (s : St) (i : Z) : list event := from_option trace [] (s.(harts) !! i).

Definition entries_for (a : Z) (q : list sbi_tlb_info) : Z :=
  Z.of_nat (length (filter (fun e => hart_in a e.(smask) = true) q)).

(** The acknowledgements hart [b] owes hart [a]. *)
Definition owed (a : Z) (s : St) (g : Z -> view) (b : Z) : Z :=
  entries_for a (fifo_of s b) + Z.b2z (from_option (fun e => hart_in a e.(smask)) false (g b).(vent))
  + Z.b2z (bool_decide (a ∈ (g b).(vsubs))) + Z.b2z ((g b).(vlost) a).

Definition sumZ (f : Z -> Z) (l : list Z) : Z := foldr (fun b acc => f b + acc) 0 l.
Definition total (a : Z) (s : St) (g : Z -> view) : Z := sumZ (owed a s g) (seqZ 0 128).

(** Hart [b] has not executed the request [r] of hart [a] yet. *)
Definition pending (a : Z) (r : sbi_tlb_info) (s : St) (g : Z -> view) (b : Z) : Prop :=
  (exists e, (e ∈ fifo_of s b \/ (g b).(vent) = Some e) /\ hart_in a e.(smask) = true /\ forall c, asked r c -> asked e c)
  \/ (g b).(vlost) a = true.

Definition done_since (m : nat) (r : sbi_tlb_info) (s : St) (b : Z) : Prop := covers (drop m (trace_of s b)) r.

Record Inv (s : St) (g : Z -> view) : Prop := {
  inv_dom i : is_Some (s.(harts) !! i) <-> i ∈ HS;
  inv_fifo b : Forall entry_ok (fifo_of s b);
  inv_ent b e : (g b).(vent) = Some e -> entry_ok e;
  inv_subs b : NoDup (g b).(vsubs);
  inv_sync a h : s.(harts) !! a = Some h -> h.(sync_count) = total a s g - Z.b2z (g a).(vuncounted);
  inv_owed a b : owed a s g b <= Z.b2z ((g a).(vserved) b);
  inv_idle a : (g a).(vreq) = None -> (forall b, (g a).(vserved) b = false) /\ (g a).(vuncounted) = false;
  inv_req a r m : (g a).(vreq) = Some (r, m) ->
    entry_ok r /\ (forall i, hart_in i r.(smask) = bool_decide (i = a)) /\ forall b, (m b <= length (trace_of s b))%nat;
  inv_served a r m b : (g a).(vreq) = Some (r, m) -> (g a).(vserved) b = true ->
    0 <= b < 128 /\ ((g a).(vfin) = false /\ pending a r s g b \/ done_since (m b) r s b);
  inv_fin a b : (g a).(vfin) = true -> owed a s g b = 0;
}.

Lemma b2z_range b : 0 <= Z.b2z b <= 1.
Proof. destruct b; simpl; lia. Qed.

Lemma signed_id z : - 2 ^ 63 <= z < 2 ^ 63 -> signed 64 z = z.
Proof. intros Hz. rewrite <- (signed_small 64 z) at 2 by lia. unfold signed. by rewrite wrap_wrap by lia. Qed.

Lemma sumZ_change f f' t l : NoDup l -> t ∈ l -> (forall b, b ∈ l -> b <> t -> f' b = f b) ->
  sumZ f' l = sumZ f l + (f' t - f t).
Proof.
  induction l as [|x l IH]; intros Hnd Hin Hf; [by apply elem_of_nil in Hin|].
  apply NoDup_cons in Hnd as [Hx Hnd]. cbn [sumZ foldr]. fold (sumZ f l) (sumZ f' l).
  destruct (decide (x = t)) as [->|Hne].
  - enough (sumZ f' l = sumZ f l) by lia. clear IH Hin. induction l as [|y l IH]; [done|]. cbn [sumZ foldr].
    fold (sumZ f l) (sumZ f' l). apply NoDup_cons in Hnd as [_ Hnd].
    rewrite Hf by set_solver. rewrite IH; [done|set_solver|done|set_solver].
  - rewrite Hf by set_solver. rewrite IH; [lia|done|set_solver|set_solver].
Qed.

Lemma total_change a s g s' g' t :
  0 <= t < 128 -> (forall b, b <> t -> owed a s' g' b = owed a s g b) ->
  total a s' g' = total a s g + (owed a s' g' t - owed a s g t).
Proof.
  intros Ht Hb. apply sumZ_change; [apply NoDup_seqZ|apply elem_of_seqZ; lia|auto].
Qed.

Lemma owed_nonneg a s g b : 0 <= owed a s g b.
Proof.
  unfold owed, entries_for.
  repeat match goal with |- context [Z.b2z ?x] => pose proof (b2z_range x); generalize dependent (Z.b2z x); intros end; lia.
Qed.

Lemma sumZ_bounds f l n : (forall b, 0 <= f b <= 1) -> n = Z.of_nat (length l) -> 0 <= sumZ f l <= n.
Proof.
  intros Hf ->. induction l as [|x l IH]; cbn [sumZ foldr length]; [lia|]. fold (sumZ f l). specialize (Hf x). lia.
Qed.

Lemma sumZ_zero f l b : (forall b, 0 <= f b) -> sumZ f l <= 0 -> b ∈ l -> f b = 0.
Proof.
  intros Hf. induction l as [|x l IH]; intros Hs Hb; [by apply elem_of_nil in Hb|]. cbn [sumZ foldr] in Hs.
  fold (sumZ f l) in Hs. assert (0 <= sumZ f l) by (clear -Hf; induction l as [|y l IH]; cbn [sumZ foldr]; [lia|];
    specialize (Hf y); fold (sumZ f l); lia). specialize (Hf x) as Hx.
  apply elem_of_cons in Hb as [->|Hb]; [lia|]. apply IH; [lia|done].
Qed.

Lemma total_bounds s g a : Inv s g -> 0 <= total a s g <= 128.
Proof.
  intros Hi. apply sumZ_bounds; [|done]. intros b. pose proof (inv_owed s g Hi a b). pose proof (owed_nonneg a s g b).
  pose proof (b2z_range (vserved (g a) b)). lia.
Qed.

Lemma covers_mono evs evs' r : (forall e, e ∈ evs -> e ∈ evs') -> covers evs r -> covers evs' r.
Proof. intros H Hc c Ha. destruct (Hc c Ha) as (e & He & Hf). eauto. Qed.

Lemma covers_wider evs r r' : (forall c, asked r c -> asked r' c) -> covers evs r' -> covers evs r.
Proof. intros H Hc c Ha. auto. Qed.

(** A trace that grows keeps what was done. *)
Lemma done_since_grow m r s s' b evs :
  trace_of s' b = trace_of s b ++ evs -> done_since m r s b -> done_since m r s' b.
Proof.
  intros E. unfold done_since. rewrite E. apply covers_mono. intros e He.
  destruct (decide (m <= length (trace_of s b))%nat) as [|].
  - rewrite drop_app_le by lia. set_solver.
  - rewrite drop_ge in He by lia. by apply elem_of_nil in He.
Qed.

(** Newly executed events count from any mark. *)
Lemma done_since_new m r s b evs pre :
  trace_of s b = pre ++ evs -> (m <= length pre)%nat -> covers evs r -> done_since m r s b.
Proof. intros E Hm. unfold done_since. rewrite E, drop_app_le by lia. apply covers_mono. set_solver. Qed.

(** ** Keeping the invariant *)

Definition same_server (v v' : view) : Prop := vent v' = vent v /\ vsubs v' = vsubs v /\ vlost v' = vlost v.
Definition same_client (v v' : view) : Prop :=
  vreq v' = vreq v /\ vserved v' = vserved v /\ vuncounted v' = vuncounted v /\ vfin v' = vfin v.

Lemma owed_same a s g s' g' b :
  fifo_of s' b = fifo_of s b -> same_server (g b) (g' b) -> owed a s' g' b = owed a s g b.
Proof. intros Hf (H1 & H2 & H3). unfold owed. by rewrite Hf, H1, H2, H3. Qed.

Lemma pending_same a r s g s' g' b :
  fifo_of s' b = fifo_of s b -> same_server (g b) (g' b) -> pending a r s g b -> pending a r s' g' b.
Proof. intros Hf (H1 & H2 & H3). unfold pending. by rewrite Hf, H1, H3. Qed.

(** A step that changes the queue or the server side of hart [t] only, hands a
    request to no other hart than [t], and lets the traces grow. *)
Record change (t : Z) (s : St) (g : Z -> view) (s' : St) (g' : Z -> view) : Prop := {
  ch_t : 0 <= t < 128;
  ch_dom i : is_Some (s'.(harts) !! i) <-> is_Some (s.(harts) !! i);
  ch_other b : b <> t -> fifo_of s' b = fifo_of s b /\ same_server (g b) (g' b);
  ch_fifo : Forall entry_ok (fifo_of s' t);
  ch_ent e : (g' t).(vent) = Some e -> entry_ok e;
  ch_subs : NoDup (g' t).(vsubs);
  ch_sync a h' : s'.(harts) !! a = Some h' -> exists h, s.(harts) !! a = Some h /\
    (h.(sync_count) = total a s g - Z.b2z (g a).(vuncounted) -> 0 <= total a s g <= 128 -> 
     h'.(sync_count) = h.(sync_count) + (owed a s' g' t - owed a s g t)
                       - Z.b2z (g' a).(vuncounted) + Z.b2z (g a).(vuncounted));
  ch_owed a : owed a s' g' t <= Z.b2z ((g' a).(vserved) t);
  ch_served a b : b <> t -> (g' a).(vserved) b = (g a).(vserved) b;
  ch_req a : (g' a).(vreq) = (g a).(vreq) /\ (g' a).(vfin) = (g a).(vfin);
  ch_idle a : (g a).(vreq) = None -> (g' a).(vserved) t = false /\ (g' a).(vuncounted) = false;
  ch_trace b : exists evs, trace_of s' b = trace_of s b ++ evs;
  ch_new a r m : (g a).(vreq) = Some (r, m) -> (g' a).(vserved) t = true ->
    (g' a).(vfin) = false /\ pending a r s' g' t \/ done_since (m t) r s' t;
  ch_fin a : (g a).(vfin) = true -> owed a s' g' t <= owed a s g t;
}.

Lemma inv_change t s g s' g' : Inv s g -> change t s g s' g' -> Inv s' g'.
Proof.
  intros Hi Hc.
  assert (forall a b, b <> t -> owed a s' g' b = owed a s g b) as Ho.
  { intros a b Hb. destruct (ch_other _ _ _ _ _ Hc b Hb). by apply owed_same. }
  constructor.
  - intros i. rewrite (ch_dom _ _ _ _ _ Hc). by eapply inv_dom.
  - intros b. destruct (decide (b = t)) as [->|Hne]; [by eapply ch_fifo|].
    destruct (ch_other _ _ _ _ _ Hc b Hne) as [-> _]. by eapply inv_fifo.
  - intros b e. destruct (decide (b = t)) as [->|Hne]; [by eapply ch_ent|].
    destruct (ch_other _ _ _ _ _ Hc b Hne) as [_ (-> & _)]. by eapply inv_ent.
  - intros b. destruct (decide (b = t)) as [->|Hne]; [by eapply ch_subs|].
    destruct (ch_other _ _ _ _ _ Hc b Hne) as [_ (_ & -> & _)]. by eapply inv_subs.
  - intros a h' Hh'. destruct (ch_sync _ _ _ _ _ Hc a h' Hh') as (h & Hh & E).
    pose proof (inv_sync _ _ Hi a h Hh) as Es. pose proof (total_bounds _ _ a Hi) as Hb. rewrite (E Es Hb).
    rewrite (total_change a s g s' g' t (ch_t _ _ _ _ _ Hc) (Ho a)). lia.
  - intros a b. destruct (decide (b = t)) as [->|Hne]; [by eapply ch_owed|].
    rewrite Ho, (ch_served _ _ _ _ _ Hc) by done. by apply inv_owed.
  - intros a. destruct (ch_req _ _ _ _ _ Hc a) as [-> _]. intros Hr. destruct (ch_idle _ _ _ _ _ Hc a Hr) as [H1 H2].
    split; [|done]. intros b. destruct (decide (b = t)) as [->|Hne]; [done|].
    rewrite (ch_served _ _ _ _ _ Hc) by done. by apply (inv_idle _ _ Hi a Hr).
  - intros a r m. destruct (ch_req _ _ _ _ _ Hc a) as [-> _]. intros Hr. destruct (inv_req _ _ Hi a r m Hr) as (H1 & H2 & H3).
    split_and!; [done..|]. intros b. destruct (ch_trace _ _ _ _ _ Hc b) as [evs ->]. rewrite length_app. specialize (H3 b). lia.
  - intros a r m b. destruct (ch_req _ _ _ _ _ Hc a) as [-> Hfin]. intros Hr Hs. destruct (decide (b = t)) as [->|Hne].
    + split; [by eapply ch_t|]. by eapply ch_new.
    + rewrite (ch_served _ _ _ _ _ Hc) in Hs by done. destruct (inv_served _ _ Hi a r m b Hr Hs) as [Hb Hd].
      split; [done|]. rewrite Hfin. destruct (ch_other _ _ _ _ _ Hc b Hne) as [Hf Hv].
      destruct Hd as [[? Hp]|Hd]; [left|right]; [split; [done|by eapply pending_same]|].
      destruct (ch_trace _ _ _ _ _ Hc b) as [evs E]. by eapply done_since_grow.
  - intros a b. destruct (ch_req _ _ _ _ _ Hc a) as [_ ->]. intros Hfin. pose proof (inv_fin _ _ Hi a b Hfin) as H0.
    destruct (decide (b = t)) as [->|Hne]; [|by rewrite Ho].
    pose proof (ch_fin _ _ _ _ _ Hc a Hfin). pose proof (owed_nonneg a s' g' t). lia.
Qed.

(** ** Updates of one hart *)

Definition upd (i : Z) (h : ipi_hart) (s : St) : St := Isys s.(hsm) s.(hw) (<[i := h]> s.(harts)).

Lemma fifo_upd_eq i h s : fifo_of (upd i h s) i = tlb_fifo h.
Proof. unfold fifo_of, upd. cbn [harts]. by rewrite lookup_insert_eq. Qed.
Lemma fifo_upd_ne i h s b : b <> i -> fifo_of (upd i h s) b = fifo_of s b.
Proof. intros. unfold fifo_of, upd. cbn [harts]. by rewrite lookup_insert_ne. Qed.
Lemma trace_upd_eq i h s : trace_of (upd i h s) i = trace h.
Proof. unfold trace_of, upd. cbn [harts]. by rewrite lookup_insert_eq. Qed.
Lemma trace_upd_ne i h s b : b <> i -> trace_of (upd i h s) b = trace_of s b.
Proof. intros. unfold trace_of, upd. cbn [harts]. by rewrite lookup_insert_ne. Qed.
Lemma fifo_of_eq i h s : s.(harts) !! i = Some h -> fifo_of s i = tlb_fifo h.
Proof. unfold fifo_of. by intros ->. Qed.
Lemma trace_of_eq i h s : s.(harts) !! i = Some h -> trace_of s i = trace h.
Proof. unfold trace_of. by intros ->. Qed.

Lemma upd_dom i h0 h s j : s.(harts) !! i = Some h0 -> is_Some ((upd i h s).(harts) !! j) <-> is_Some (s.(harts) !! j).
Proof.
  intros Hi. unfold upd. cbn [harts]. destruct (decide (j = i)) as [->|].
  - rewrite lookup_insert_eq, Hi. split; eauto.
  - by rewrite lookup_insert_ne.
Qed.

(** The trace after an update that appends [evs] to the trace of hart [i]. *)
Lemma upd_trace i h0 h s evs b : s.(harts) !! i = Some h0 -> trace h = trace h0 ++ evs ->
  exists evs', trace_of (upd i h s) b = trace_of s b ++ evs'.
Proof.
  intros Hi E. destruct (decide (b = i)) as [->|].
  - exists evs. by rewrite trace_upd_eq, (trace_of_eq i h0 s Hi).
  - exists []. by rewrite trace_upd_ne, app_nil_r.
Qed.

(** What the server side of [t] owes is unchanged, so are the counters. *)
Lemma change_intro t s g v' h h' i :
  Inv s g -> s.(harts) !! t = Some h -> h'.(sync_count) = h.(sync_count) ->
  (exists evs, h'.(trace) = h.(trace) ++ evs) -> (i <> t -> same_server (g i) v') ->
  let s' := upd t h' s in let g' := <[i := v']> g in
  Forall entry_ok h'.(tlb_fifo) -> (forall e, (g' t).(vent) = Some e -> entry_ok e) -> NoDup (g' t).(vsubs) ->
  (forall a, owed a s' g' t = owed a s g t + (Z.b2z ((g' a).(vuncounted)) - Z.b2z ((g a).(vuncounted)))) ->
  (forall a, owed a s' g' t <= Z.b2z ((g' a).(vserved) t)) ->
  (forall b, b <> t -> vserved v' b = vserved (g i) b) -> vreq v' = vreq (g i) -> vfin v' = vfin (g i) ->
  (vreq (g i) = None -> vserved v' t = false /\ vuncounted v' = false) ->
  (vfin (g i) = true -> vuncounted v' = vuncounted (g i)) ->
  (forall a r m, (g a).(vreq) = Some (r, m) -> (g' a).(vserved) t = true ->
    (g' a).(vfin) = false /\ pending a r s' g' t \/ done_since (m t) r s' t) ->
  Inv s' g'.
Proof.
  intros Hi Ht Esy [evs Etr] Hsrv s' g' Hf He Hs Ho Hb Hv Hr Hfin Hid Hun Hn.
  apply (inv_change t s g s' g' Hi). constructor; try done.
  - apply HH. by apply (inv_dom _ _ Hi), (mk_is_Some _ _ Ht).
  - intros j. by apply upd_dom with h.
  - intros b Hne. split; [by apply fifo_upd_ne|]. unfold g'. destruct (decide (b = i)) as [->|].
    + rewrite fn_lookup_insert. by apply Hsrv.
    + by rewrite fn_lookup_insert_ne.
  - unfold s'. by rewrite fifo_upd_eq.
  - intros a ha Ha. unfold s', upd in Ha. cbn [harts] in Ha. destruct (decide (a = t)) as [->|].
    + rewrite lookup_insert_eq in Ha. simplify_eq. exists h. split; [done|]. intros. rewrite Ho. lia.
    + rewrite lookup_insert_ne in Ha by done. exists ha. split; [done|]. intros. rewrite Ho. lia.
  - intros a b Hne. unfold g'. destruct (decide (a = i)) as [->|]; [rewrite fn_lookup_insert; by apply Hv|by rewrite fn_lookup_insert_ne].
  - intros a. unfold g'. destruct (decide (a = i)) as [->|]; [by rewrite fn_lookup_insert|by rewrite fn_lookup_insert_ne].
  - intros a. unfold g'. destruct (decide (a = i)) as [->|]; [rewrite fn_lookup_insert; by apply Hid|].
    rewrite fn_lookup_insert_ne by done. intros E. destruct (inv_idle _ _ Hi a E). auto.
  - intros b. by apply upd_trace with h evs.
  - intros a Ha. rewrite Ho. unfold g'. destruct (decide (a = i)) as [->|];
      [rewrite fn_lookup_insert, (Hun Ha); lia|rewrite fn_lookup_insert_ne by done; lia].
Qed.

(** ** Rules for the accesses *)

Definition exit_ok (i : Z) (v : view) (e : Hsm.exit) : Prop := exists lost, v = idle lost.

Abbreviation sf := (safe Inv exit_ok).

(** An access that leaves queues and counters alone and lets traces grow. *)
Definition neutral (s s' : St) : Prop :=
  forall i, match s.(harts) !! i, s'.(harts) !! i with
            | None, None => True
            | Some h, Some h' =>
                h'.(tlb_fifo) = h.(tlb_fifo) /\ h'.(sync_count) = h.(sync_count) /\
                exists evs, h'.(trace) = h.(trace) ++ evs
            | _, _ => False
            end.

Lemma inv_neutral s g s' : Inv s g -> neutral s s' -> Inv s' g.
Proof.
  intros Hi Hn.
  assert (forall b, fifo_of s' b = fifo_of s b) as Hf.
  { intros b. unfold fifo_of. specialize (Hn b). destruct (harts s !! b), (harts s' !! b); simpl; naive_solver. }
  assert (forall b, exists evs, trace_of s' b = trace_of s b ++ evs) as Ht.
  { intros b. unfold trace_of. specialize (Hn b). destruct (harts s !! b), (harts s' !! b); simpl;
      [by destruct Hn as (_ & _ & ?)|done|done|by exists []]. }
  assert (forall a b, owed a s' g b = owed a s g b) as Ho by (intros; by apply owed_same).
  apply (inv_change 0 s g s' g Hi). constructor; try done.
  - intros i. specialize (Hn i). destruct (harts s !! i), (harts s' !! i); try done; split; eauto.
  - rewrite Hf. by eapply inv_fifo.
  - by eapply inv_ent.
  - by eapply inv_subs.
  - intros a h' Ha. specialize (Hn a). rewrite Ha in Hn. destruct (harts s !! a) as [h|]; [|done].
    exists h. split; [done|]. intros. rewrite Ho. destruct Hn as (_ & -> & _). lia.
  - intros a. rewrite Ho. by eapply inv_owed.
  - intros a E. destruct (inv_idle _ _ Hi a E). auto.
  - intros a r m Hr Hs. destruct (inv_served _ _ Hi a r m 0 Hr Hs) as [_ [[? Hp]|Hd]]; [left|right].
    + split; [done|]. by apply (pending_same a r s g).
    + destruct (Ht 0) as [evs E]. by eapply done_since_grow.
  - intros a _. by rewrite Ho.
Qed.

(** A step of the ghost views only. *)
Lemma inv_views s g g' :
  Inv s g -> (forall b, same_server (g b) (g' b)) -> (forall a, vuncounted (g' a) = vuncounted (g a)) ->
  (forall a b, owed a s g b <= Z.b2z (vserved (g' a) b)) ->
  (forall a, vreq (g' a) = None -> (forall b, vserved (g' a) b = false) /\ vuncounted (g' a) = false) ->
  (forall a r m, vreq (g' a) = Some (r, m) ->
     entry_ok r /\ (forall i, hart_in i r.(smask) = bool_decide (i = a)) /\ forall b, (m b <= length (trace_of s b))%nat) ->
  (forall a r m b, vreq (g' a) = Some (r, m) -> vserved (g' a) b = true ->
     0 <= b < 128 /\ (vfin (g' a) = false /\ pending a r s g b \/ done_since (m b) r s b)) ->
  (forall a b, vfin (g' a) = true -> owed a s g b = 0) ->
  Inv s g'.
Proof.
  intros Hs Hv Hu Hb Hid Hrq Hsv Hfin.
  assert (forall a b, owed a s g' b = owed a s g b) as Ho by (intros; by apply owed_same).
  constructor; try done.
  - apply (inv_dom _ _ Hs).
  - apply (inv_fifo _ _ Hs).
  - intros b e. destruct (Hv b) as (-> & _). apply (inv_ent _ _ Hs).
  - intros b. destruct (Hv b) as (_ & -> & _). apply (inv_subs _ _ Hs).
  - intros a h Hh. rewrite Hu, (inv_sync _ _ Hs a h Hh). f_equal.
    unfold total, sumZ. induction (seqZ 0 128) as [|b l IH]; [done|]. cbn [foldr]. by rewrite Ho, IH.
  - intros a b. by rewrite Ho.
  - intros a r m b Hr Hs'. destruct (Hsv a r m b Hr Hs') as [? [[? Hp]|?]]; (split; [done|]); [left|by right].
    split; [done|]. by apply (pending_same a r s g).
  - intros a b. rewrite Ho. by apply Hfin.
Qed.

(** Only the values of the views matter. *)
Lemma inv_ext s g g' : (forall j, g' j = g j) -> Inv s g -> Inv s g'.
Proof.
  intros E Hs. apply (inv_views s g); try done; intros a; rewrite E; [done|done|..].
  - apply (inv_owed _ _ Hs).
  - apply (inv_idle _ _ Hs).
  - apply (inv_req _ _ Hs).
  - apply (inv_served _ _ Hs).
  - apply (inv_fin _ _ Hs).
Qed.

Section Rules.
Context {A : Type} (Asm : St -> Prop) (i : Z) (Q : view -> A -> Prop).

Lemma safe_neutral v {R} (a : St -> R * St) k :
  (forall s, neutral s (a s).2) -> (forall s g, Inv s g -> Asm s -> g i = v -> sf Asm i Q v (k (a s).1)) ->
  sf Asm i Q v (Do a k).
Proof.
  intros Hn Hk. cbn [safe]. intros s g Hs Ha Hg. exists g. split; [done|]. split; [by eapply inv_neutral|].
  rewrite Hg. eauto.
Qed.

Lemma neutral_refl s : neutral s s.
Proof. intros j. destruct (harts s !! j); [|done]. split_and!; [done..|]. exists []. by rewrite app_nil_r. Qed.

Lemma neutral_harts s s' : s'.(harts) = s.(harts) -> neutral s s'.
Proof. intros E j. rewrite E. apply neutral_refl. Qed.

Lemma neutral_on_hart {R} t (d : R) f s :
  (forall h, tlb_fifo (f h).2 = tlb_fifo h /\ sync_count (f h).2 = sync_count h /\ exists evs, trace (f h).2 = trace h ++ evs) ->
  neutral s (on_hart t d f s).2.
Proof.
  intros Hf. unfold on_hart. destruct (harts s !! t) as [h|] eqn:E; cbn [snd]; [|apply neutral_refl].
  intros j. cbn [harts]. destruct (decide (j = t)) as [->|].
  - rewrite lookup_insert_eq, E. apply Hf.
  - rewrite lookup_insert_ne by done. apply neutral_refl.
Qed.

Lemma safe_on_hart v t {R} (d : R) f k :
  t ∈ HS ->
  (forall s g h, Inv s g -> Asm s -> g i = v -> s.(harts) !! t = Some h ->
    exists v', Inv (upd t (f h).2 s) (<[i := v']> g) /\ sf Asm i Q v' (k (f h).1)) ->
  sf Asm i Q v (Do (on_hart t d f) k).
Proof.
  intros Ht Hk. cbn [safe]. intros s g Hs Ha Hg. apply (inv_dom _ _ Hs) in Ht as [h Hh].
  destruct (Hk s g h Hs Ha Hg Hh) as (v' & Hi & Hv). exists (<[i := v']> g). unfold on_hart. rewrite Hh. cbn [fst snd].
  rewrite fn_lookup_insert. split; [|done]. intros j Hj. by rewrite fn_lookup_insert_ne.
Qed.

Lemma inv_upd_same s g t h : Inv s g -> s.(harts) !! t = Some h -> Inv (upd t h s) (<[i := g i]> g).
Proof.
  intros Hs Hh. apply (inv_ext _ g); [intros j; by gcase j i|]. apply (inv_neutral s); [done|].
  intros j. unfold upd. cbn [harts]. destruct (decide (j = t)) as [->|]; [rewrite lookup_insert_eq, Hh|rewrite lookup_insert_ne by done; apply neutral_refl].
  split_and!; [done..|]. exists []. by rewrite app_nil_r.
Qed.

(** ** The server side *)

Lemma entries_for_cons a e q : entries_for a (e :: q) = Z.b2z (hart_in a e.(smask)) + entries_for a q.
Proof. unfold entries_for. rewrite filter_cons. destruct (hart_in a (smask e)); case_decide; try done. simpl. lia. Qed.

Lemma entries_for_app a q q' : entries_for a (q ++ q') = entries_for a q + entries_for a q'.
Proof. unfold entries_for. rewrite filter_app, length_app. lia. Qed.

Lemma harts_from_elem a m : a ∈ harts_from m 0 <-> hart_in a m = true.
Proof.
  unfold harts_from. rewrite list_elem_of_filter, elem_of_seqZ. split; [by intros []|]. intros Ha. split; [done|].
  unfold hart_in, SBI_HARTMASK_MAX_BITS in Ha. lia.
Qed.

(** Taking the oldest entry. *)
Lemma safe_dequeue rq sv u fin lost k :
  i ∈ HS ->
  sf Asm i Q (View rq sv u fin None [] lost) (k None) ->
  (forall e, entry_ok e -> sf Asm i Q (View rq sv u fin (Some e) [] lost) (k (Some e))) ->
  sf Asm i Q (View rq sv u fin None [] lost) (Do (fifo_dequeue i) k).
Proof.
  intros Hi Hnone Hsome. apply safe_on_hart; [done|]. intros s g h Hs Ha Hg Hh.
  pose proof (inv_fifo _ _ Hs i) as Hf. rewrite (fifo_of_eq i h s Hh) in Hf.
  destruct (tlb_fifo h) as [|e q] eqn:Eq; cbn [fst snd].
  - exists (g i). rewrite Hg at 2. split; [|done]. by apply inv_upd_same.
  - apply Forall_cons in Hf as [He Hf]. exists (View rq sv u fin (Some e) [] lost). split; [|by apply Hsome].
    assert (forall a, owed a (upd i (set_fifo q h) s) (<[i := View rq sv u fin (Some e) [] lost]> g) i = owed a s g i) as Ho.
    { intros a. unfold owed. rewrite fn_lookup_insert, fifo_upd_eq, (fifo_of_eq i h s Hh), Hg, Eq, entries_for_cons. simpl. lia. }
    apply (change_intro i s g _ h _ i Hs Hh); rewrite ?Hg, ?fn_lookup_insert; cbn [vent vsubs vserved vreq vfin vuncounted]; try done.
    + exists []. by rewrite app_nil_r.
    + by intros e' [= <-].
    + constructor.
    + intros a. rewrite Ho. gcase a i; [rewrite Hg|]; cbn [vuncounted]; lia.
    + intros a. rewrite Ho. gcase a i; [pose proof (inv_owed _ _ Hs i i) as H1; by rewrite Hg in H1|by apply (inv_owed _ _ Hs)].
    + intros ->. destruct (inv_idle _ _ Hs i) as [H1 H2]; [by rewrite Hg|]. rewrite Hg in H1, H2. auto.
    + intros a r m Hr Hsv.
      assert (vserved (g a) i = true) as Hsv' by (revert Hsv; gcase a i; [by rewrite Hg|done]).
      destruct (inv_served _ _ Hs a r m i Hr Hsv') as [_ [[Hfin Hp]|Hd]]; [left|right].
      * split; [revert Hfin; gcase a i; [by rewrite Hg|done]|].
        destruct Hp as [(e' & He' & Hin & Hc)|Hl]; [left|right; rewrite fn_lookup_insert; by rewrite Hg in Hl].
        exists e'. rewrite fn_lookup_insert, fifo_upd_eq. cbn [vent tlb_fifo set_fifo]. split; [|done].
        rewrite (fifo_of_eq i h s Hh), Eq, Hg, elem_of_cons in He'. naive_solver.
      * destruct (upd_trace i h (set_fifo q h) s [] i Hh) as [evs E]; [by rewrite app_nil_r|]. by eapply done_since_grow.
Qed.

(** Executing the fences of the entry. *)
Lemma safe_execute rq sv u fin lost e evs hg k :
  i ∈ HS -> entry_ok e -> covers evs e ->
  sf Asm i Q (View rq sv u fin None (harts_from e.(smask) 0) lost) (k tt) ->
  sf Asm i Q (View rq sv u fin (Some e) [] lost) (Do (on_hart i tt (fun h => (tt, executed evs hg h))) k).
Proof.
  intros Hi He Hev Hk. apply safe_on_hart; [done|]. intros s g h Hs Ha Hg Hh.
  pose proof (inv_fifo _ _ Hs i) as Hf. rewrite (fifo_of_eq i h s Hh) in Hf.
  exists (View rq sv u fin None (harts_from e.(smask) 0) lost). split; [|done]. cbn [fst snd].
  assert (forall a, owed a (upd i (executed evs hg h) s) (<[i := View rq sv u fin None (harts_from e.(smask) 0) lost]> g) i
                    = owed a s g i) as Ho.
  { intros a. unfold owed. rewrite fn_lookup_insert, fifo_upd_eq, (fifo_of_eq i h s Hh), Hg. cbn [vent vsubs vlost from_option tlb_fifo executed].
    rewrite (bool_decide_eq_false_2 (a ∈ [])) by apply not_elem_of_nil. simpl (Z.b2z false).
    destruct (hart_in a (smask e)) eqn:Eh; [rewrite bool_decide_eq_true_2 by (by apply harts_from_elem)|
      rewrite bool_decide_eq_false_2 by (rewrite harts_from_elem; congruence)]; simpl; lia. }
  apply (change_intro i s g _ h _ i Hs Hh); rewrite ?Hg, ?fn_lookup_insert; cbn [vent vsubs vserved vreq vfin vuncounted]; try done.
  - by exists evs.
  - apply NoDup_filter, NoDup_seqZ.
  - intros a. rewrite Ho. gcase a i; [rewrite Hg|]; cbn [vuncounted]; lia.
  - intros a. rewrite Ho. gcase a i; [pose proof (inv_owed _ _ Hs i i) as H1; by rewrite Hg in H1|by apply (inv_owed _ _ Hs)].
  - intros ->. destruct (inv_idle _ _ Hs i) as [H1 H2]; [by rewrite Hg|]. rewrite Hg in H1, H2. auto.
  - intros a r m Hr Hsv.
    assert (vserved (g a) i = true) as Hsv' by (revert Hsv; gcase a i; [by rewrite Hg|done]).
    assert (trace_of (upd i (executed evs hg h) s) i = trace_of s i ++ evs) as Etr
      by (by rewrite trace_upd_eq, (trace_of_eq i h s Hh)).
    destruct (inv_served _ _ Hs a r m i Hr Hsv') as [_ [[Hfin Hp]|Hd]]; [|right; by eapply done_since_grow].
    destruct Hp as [(e' & [He'|He'] & Hin & Hc)|Hl].
    + left. split; [revert Hfin; gcase a i; [by rewrite Hg|done]|]. left. exists e'. rewrite fifo_upd_eq.
      rewrite (fifo_of_eq i h s Hh) in He'. auto.
    + right. rewrite Hg in He'. cbn [vent] in He'. injection He' as <-.
      eapply done_since_new; [exact Etr|apply (inv_req _ _ Hs a r m Hr)|]. by eapply covers_wider.
    + left. split; [revert Hfin; gcase a i; [by rewrite Hg|done]|]. right. rewrite fn_lookup_insert. by rewrite Hg in Hl.
Qed.

(** Acknowledging one hart. *)
Lemma safe_acknowledge_one rq sv u fin lost x l k :
  i ∈ HS -> (forall z, sf Asm i Q (View rq sv u fin None l lost) (k z)) ->
  sf Asm i Q (View rq sv u fin None (x :: l) lost) (Do (atomic_sub_return x 1) k).
Proof.
  intros Hi Hk. cbn [safe]. intros s g Hs Ha Hg. set (v' := View rq sv u fin None l lost).
  exists (<[i := v']> g). split; [intros j Hj; by rewrite fn_lookup_insert_ne|].
  rewrite fn_lookup_insert. split; [|apply Hk].
  pose proof (inv_subs _ _ Hs i) as Hnd. rewrite Hg in Hnd. cbn [vsubs] in Hnd. apply NoDup_cons in Hnd as [Hx Hnd].
  set (s' := (atomic_sub_return x 1 s).2).
  assert (forall a, s'.(harts) !! a = (if decide (a = x) then (fun h => set_sync (signed 64 (h.(sync_count) + -1)) h) <$> s.(harts) !! a
                                       else s.(harts) !! a)) as Es.
  { intros a. unfold s', atomic_sub_return, atomic_add_return, on_hart. destruct (s.(harts) !! x) as [h|] eqn:Ex; cbn [snd harts].
    - case_decide; subst; [by rewrite lookup_insert_eq, Ex|by rewrite lookup_insert_ne].
    - case_decide; subst; [by rewrite Ex|done]. }
  assert (forall b, fifo_of s' b = fifo_of s b) as Hf.
  { intros b. unfold fifo_of. rewrite Es. case_decide; [|done]. by destruct (harts s !! b). }
  assert (forall b, trace_of s' b = trace_of s b) as Ht.
  { intros b. unfold trace_of. rewrite Es. case_decide; [|done]. by destruct (harts s !! b). }
  assert (forall a, owed a s' (<[i := v']> g) i = owed a s g i - Z.b2z (bool_decide (a = x))) as Ho.
  { intros a. unfold owed. rewrite fn_lookup_insert, Hf, Hg. unfold v'. cbn [vent vsubs vlost from_option].
    destruct (decide (a = x)) as [->|Hne].
    - rewrite (bool_decide_eq_false_2 (x ∈ l)), (bool_decide_eq_true_2 (x ∈ x :: l)), (bool_decide_eq_true_2 (x = x)) by (done || set_solver).
      simpl. lia.
    - rewrite (bool_decide_eq_false_2 (a = x)) by done.
      rewrite (bool_decide_ext (a ∈ x :: l) (a ∈ l)) by set_solver. simpl. lia. }
  apply (inv_change i s g _ _ Hs). constructor; rewrite ?fn_lookup_insert; try done.
  - by apply HH.
  - intros j. rewrite Es. case_decide; [|done]. destruct (harts s !! j); simpl; split; intros []; eauto.
  - intros b Hb. rewrite fn_lookup_insert_ne by done. by split.
  - rewrite Hf. apply (inv_fifo _ _ Hs).
  - intros a h' Ha'. rewrite Es in Ha'. rewrite Ho. case_decide as Hax.
    + subst a. destruct (harts s !! x) as [h|]; [|done]. simplify_eq/=. exists h. split; [done|]. intros Esy Hb.
      rewrite (bool_decide_eq_true_2 (x = x)) by done. pose proof (b2z_range (vuncounted (g x))).
      rewrite signed_id by lia. assert (vuncounted ((<[i := v']> g) x) = vuncounted (g x)) as -> by (gcase x i; [by rewrite Hg|done]).
      simpl. lia.
    + exists h'. split; [done|]. intros _ _. rewrite (bool_decide_eq_false_2 (a = x)) by done.
      assert (vuncounted ((<[i := v']> g) a) = vuncounted (g a)) as -> by (gcase a i; [by rewrite Hg|done]). simpl. lia.
  - intros a. rewrite Ho. pose proof (inv_owed _ _ Hs a i). pose proof (b2z_range (bool_decide (a = x))).
    assert (vserved ((<[i := v']> g) a) i = vserved (g a) i) as -> by (gcase a i; [by rewrite Hg|done]). lia.
  - intros a b _. gcase a i; [by rewrite Hg|done].
  - intros a. gcase a i; [by rewrite Hg|done].
  - intros a Hr. destruct (inv_idle _ _ Hs a Hr) as [H1 H2]. specialize (H1 i). revert H1 H2. gcase a i; [by rewrite Hg|done].
  - intros b. exists []. by rewrite Ht, app_nil_r.
  - intros a r m Hr Hsv.
    assert (vserved (g a) i = true) as Hsv' by (revert Hsv; gcase a i; [by rewrite Hg|done]).
    destruct (inv_served _ _ Hs a r m i Hr Hsv') as [_ [[Hfin Hp]|Hd]].
    + left. split; [revert Hfin; gcase a i; [by rewrite Hg|done]|]. revert Hp. unfold pending.
      by rewrite Hf, fn_lookup_insert, Hg.
    + right. unfold done_since. by rewrite Ht.
  - intros a _. rewrite Ho. pose proof (b2z_range (bool_decide (a = x))). lia.
Qed.

(** ** The client side *)

(** The requester executes its own request. *)
Lemma safe_execute_self r m sv lost evs hg k :
  i ∈ HS -> covers evs r ->
  sf Asm i Q (View (Some (r, m)) (<[i := true]> sv) false false None [] lost) (k tt) ->
  sf Asm i Q (View (Some (r, m)) sv false false None [] lost) (Do (on_hart i tt (fun h => (tt, executed evs hg h))) k).
Proof.
  intros Hi Hev Hk. apply safe_on_hart; [done|]. intros s g h Hs Ha Hg Hh.
  set (v' := View (Some (r, m)) (<[i := true]> sv) false false None [] lost). exists v'. split; [|done]. cbn [fst snd].
  assert (forall a, owed a (upd i (executed evs hg h) s) (<[i := v']> g) i = owed a s g i) as Ho.
  { intros a. apply owed_same; rewrite ?fifo_upd_eq, ?(fifo_of_eq i h s Hh), ?fn_lookup_insert, ?Hg; done. }
  apply (change_intro i s g _ h _ i Hs Hh); rewrite ?Hg, ?fn_lookup_insert; cbn [vent vsubs vserved vreq vfin vuncounted v']; try done.
  - by exists evs.
  - pose proof (inv_fifo _ _ Hs i) as Hf. by rewrite (fifo_of_eq i h s Hh) in Hf.
  - constructor.
  - intros a. rewrite Ho. gcase a i; [rewrite Hg|]; cbn [vuncounted v']; lia.
  - intros a. rewrite Ho. pose proof (inv_owed _ _ Hs a i). gcase a i; [|done]. unfold v'. cbn [vserved].
    rewrite fn_lookup_insert. pose proof (b2z_range (vserved (g i) i)). simpl. lia.
  - intros b Hb. by rewrite fn_lookup_insert_ne.
  - intros a r' m' Hr Hsv.
    assert (trace_of (upd i (executed evs hg h) s) i = trace_of s i ++ evs) as Etr
      by (by rewrite trace_upd_eq, (trace_of_eq i h s Hh)).
    destruct (decide (a = i)) as [->|Hne].
    + right. rewrite Hg in Hr. cbn [vreq] in Hr. injection Hr as <- <-.
      eapply done_since_new; [exact Etr|apply (inv_req _ _ Hs i r m); by rewrite Hg|done].
    + rewrite fn_lookup_insert_ne in Hsv |- * by done.
      destruct (inv_served _ _ Hs a r' m' i Hr Hsv) as [_ [[Hfin Hp]|Hd]]; [left|right; by eapply done_since_grow].
      split; [done|]. eapply pending_same; [..|exact Hp]; rewrite ?fifo_upd_eq, ?(fifo_of_eq i h s Hh), ?fn_lookup_insert, ?Hg; done.
Qed.

(** The queue of hart [t] takes in the request of hart [i]. *)
Record takes_in (r : sbi_tlb_info) (q q' : list sbi_tlb_info) : Prop := {
  ti_ok : Forall entry_ok q';
  ti_count a : entries_for a q' = entries_for a q + Z.b2z (bool_decide (a = i));
  ti_old e : e ∈ q -> exists e', e' ∈ q' /\ (forall c, asked e c -> asked e' c) /\
                                forall a, hart_in a e.(smask) = true -> hart_in a e'.(smask) = true;
  ti_new : exists e', e' ∈ q' /\ (forall c, asked r c -> asked e' c) /\ hart_in i e'.(smask) = true;
}.

Lemma inv_hand_over s g r m sv lost t h q' :
  Inv s g -> g i = View (Some (r, m)) sv false false None [] lost -> t <> i -> sv t = false ->
  s.(harts) !! t = Some h -> takes_in r h.(tlb_fifo) q' ->
  Inv (upd t (set_fifo q' h) s) (<[i := View (Some (r, m)) (<[t := true]> sv) true false None [] lost]> g).
Proof.
  intros Hs Hg Hti Hsv Hh [Hok Hcnt Hold Hnew]. set (v' := View _ (<[t := true]> sv) _ _ _ _ _).
  assert (forall a, owed a (upd t (set_fifo q' h) s) (<[i := v']> g) t = owed a s g t + Z.b2z (bool_decide (a = i))) as Ho.
  { intros a. unfold owed. rewrite fn_lookup_insert_ne, fifo_upd_eq, (fifo_of_eq t h s Hh) by done. cbn [tlb_fifo set_fifo].
    rewrite Hcnt. lia. }
  apply (change_intro t s g _ h _ i Hs Hh); rewrite ?Hg, ?fn_lookup_insert_ne by done; cbn [vent vsubs vserved vreq vfin vuncounted v']; try done.
  - exists []. by rewrite app_nil_r.
  - by apply (inv_ent _ _ Hs).
  - by apply (inv_subs _ _ Hs).
  - intros a. rewrite Ho. gcase a i; [rewrite Hg, bool_decide_eq_true_2 by done|rewrite bool_decide_eq_false_2 by done]; simpl; lia.
  - intros a. rewrite Ho. pose proof (inv_owed _ _ Hs a t) as H1. gcase a i.
    + rewrite Hg in H1. cbn [vserved v'] in *. rewrite Hsv in H1. rewrite fn_lookup_insert, bool_decide_eq_true_2 by done. simpl in *. lia.
    + rewrite bool_decide_eq_false_2 by done. simpl. lia.
  - intros b Hb. by rewrite fn_lookup_insert_ne.
  - intros a r' m' Hr Hsv'. destruct (decide (a = i)) as [->|Hne].
    + left. rewrite fn_lookup_insert. split; [done|]. left. rewrite Hg in Hr. cbn [vreq] in Hr. injection Hr as <- <-.
      destruct Hnew as (e' & He & Hc & Hin). exists e'. rewrite fifo_upd_eq. auto.
    + rewrite fn_lookup_insert_ne in Hsv' |- * by done.
      destruct (inv_served _ _ Hs a r' m' t Hr Hsv') as [_ [[Hfin Hp]|Hd]].
      * left. split; [done|]. unfold pending. rewrite fn_lookup_insert_ne by done. destruct Hp as [(e & [He|He] & Hin & Hc)|Hl]; [left..|by right].
        -- rewrite (fifo_of_eq t h s Hh) in He. destruct (Hold e He) as (e' & He' & Hc' & Hin'). exists e'. rewrite fifo_upd_eq. auto.
        -- exists e. auto.
      * right. destruct (upd_trace t h (set_fifo q' h) s [] t Hh) as [evs E]; [by rewrite app_nil_r|]. by eapply done_since_grow.
Qed.

Lemma hart_view_no_entry s g r m sv lost t h :
  Inv s g -> g i = View (Some (r, m)) sv false false None [] lost -> sv t = false -> s.(harts) !! t = Some h ->
  entries_for i h.(tlb_fifo) = 0.
Proof.
  intros Hs Hg Hsv Hh. pose proof (inv_owed _ _ Hs i t) as H1. rewrite Hg in H1. cbn [vserved] in H1. rewrite Hsv in H1.
  unfold owed in H1. rewrite (fifo_of_eq t h s Hh) in H1. simpl (Z.b2z false) in H1. unfold entries_for in *.
  repeat match type of H1 with context [Z.b2z ?x] => pose proof (b2z_range x); generalize dependent (Z.b2z x); intros end. lia.
Qed.

Lemma takes_in_app r q :
  entry_ok r -> (forall a, hart_in a r.(smask) = bool_decide (a = i)) -> Forall entry_ok q -> takes_in r q (q ++ [r]).
Proof.
  intros Hr Hm Hq. constructor.
  - apply Forall_app. split; [done|by apply Forall_singleton].
  - intros a. rewrite entries_for_app, entries_for_cons, Hm. unfold entries_for at 2. simpl. lia.
  - intros e He. exists e. split_and!; [apply elem_of_app; by left|done|done].
  - exists r. split_and!; [apply elem_of_app; right; by apply list_elem_of_singleton|done|].
    rewrite Hm. by apply bool_decide_eq_true_2.
Qed.

Lemma takes_in_merge r q1 e e' q2 :
  (forall a, hart_in a r.(smask) = bool_decide (a = i)) -> Forall entry_ok (q1 ++ e' :: q2) ->
  merged e r e' -> entries_for i (q1 ++ e :: q2) = 0 -> takes_in r (q1 ++ e :: q2) (q1 ++ e' :: q2).
Proof.
  intros Hm Hq [Hc Hh] H0. rewrite entries_for_app, entries_for_cons in H0.
  assert (hart_in i e.(smask) = false) as Hi.
  { unfold entries_for in H0. destruct (hart_in i (smask e)); [simpl in H0; lia|done]. }
  constructor; [done|..].
  - intros a. rewrite !entries_for_app, !entries_for_cons, Hh, Hm. destruct (decide (a = i)) as [->|Hne].
    + rewrite Hi, bool_decide_eq_true_2 by done. simpl. lia.
    + rewrite bool_decide_eq_false_2, orb_false_r by done. simpl. lia.
  - intros x Hx. apply elem_of_app in Hx as [Hx|Hx]; [exists x; split_and!; [apply elem_of_app; by left|done|done]|].
    apply elem_of_cons in Hx as [->|Hx].
    + exists e'. split_and!; [apply elem_of_app; right; apply list_elem_of_here|eauto|]. intros a Ha. by rewrite Hh, Ha.
    + exists x. split_and!; [apply elem_of_app; right; by apply elem_of_cons; right|done|done].
  - exists e'. split_and!; [apply elem_of_app; right; apply list_elem_of_here|eauto|].
    rewrite Hh, Hm, (bool_decide_eq_true_2 (i = i)), orb_true_r by done. done.
Qed.

Section Client.
Context (r : sbi_tlb_info) (m : Z -> nat) (lost : Z -> bool).
Abbreviation client sv u fin := (View (Some (r, m)) sv u fin None [] lost).

Lemma safe_inplace_update sv t k :
  t ∈ HS -> t <> i -> sv t = false ->
  sf Asm i Q (client sv false false) (k SBI_FIFO_UNCHANGED) ->
  (forall z, z <> SBI_FIFO_UNCHANGED -> sf Asm i Q (client (<[t := true]> sv) true false) (k z)) ->
  sf Asm i Q (client sv false false) (Do (fifo_inplace_update t (Some r)) k).
Proof.
  intros Ht Hti Hsv Hun Hmg. apply safe_on_hart; [done|]. intros s g h Hs Ha Hg Hh.
  destruct (inv_req _ _ Hs i r m) as (Hr & Hm & _); [by rewrite Hg|].
  pose proof (inv_fifo _ _ Hs t) as Hf. rewrite (fifo_of_eq t h s Hh) in Hf.
  destruct (update_spec (tlb_update_cb r) SBI_FIFO_UNCHANGED (tlb_fifo h)) as [z q'] eqn:Eu. cbn [fst snd].
  destruct (update_queue_merged r _ z q' Hr Hf Eu) as [Hq' [[-> ->]|(Hz & q1 & e & e' & q2 & Eq & -> & Hme)]].
  - exists (g i). rewrite Hg at 2. split; [|done].
    replace (set_fifo (tlb_fifo h) h) with h by (by destruct h). by apply inv_upd_same.
  - exists (client (<[t := true]> sv) true false). split; [|apply Hmg; destruct Hz as [-> | ->]; done].
    apply inv_hand_over with (h := h); try done. rewrite Eq. apply takes_in_merge; try done.
    rewrite <- Eq. by eapply hart_view_no_entry.
Qed.

Lemma safe_enqueue cap sv t k :
  t ∈ HS -> t <> i -> sv t = false ->
  (forall z, z < 0 -> sf Asm i Q (client sv false false) (k z)) ->
  sf Asm i Q (client (<[t := true]> sv) true false) (k 0) ->
  sf Asm i Q (client sv false false) (Do (fifo_enqueue cap t (Some r)) k).
Proof.
  intros Ht Hti Hsv Hfull Hok. apply safe_on_hart; [done|]. intros s g h Hs Ha Hg Hh.
  destruct (inv_req _ _ Hs i r m) as (Hr & Hm & _); [by rewrite Hg|].
  pose proof (inv_fifo _ _ Hs t) as Hf. rewrite (fifo_of_eq t h s Hh) in Hf.
  case_bool_decide; cbn [fst snd].
  - exists (g i). rewrite Hg at 2. split; [by apply inv_upd_same|]. apply Hfull. unfold SBI_ENOSPC. lia.
  - exists (client (<[t := true]> sv) true false). split; [|done].
    apply inv_hand_over with (h := h); try done. by apply takes_in_app.
Qed.

(** Counting the hart that took the request in. *)
Lemma safe_count sv k :
  i ∈ HS -> (forall z, sf Asm i Q (client sv false false) (k z)) ->
  sf Asm i Q (client sv true false) (Do (atomic_add_return i 1) k).
Proof.
  intros Hi Hk. apply safe_on_hart; [done|]. intros s g h Hs Ha Hg Hh. cbn zeta. cbn [fst snd].
  exists (client sv false false). split; [|done]. set (v' := client sv false false).
  set (s' := upd i _ s).
  assert (forall b, fifo_of s' b = fifo_of s b) as Hf.
  { intros b. unfold s'. destruct (decide (b = i)) as [->|]; [by rewrite fifo_upd_eq, (fifo_of_eq i h s Hh)|by rewrite fifo_upd_ne]. }
  assert (forall b, same_server (g b) ((<[i := v']> g) b)) as Hv by (intros b; gcase b i; [by rewrite Hg|done]).
  assert (forall a b, owed a s' (<[i := v']> g) b = owed a s g b) as Ho by (intros; by apply owed_same).
  apply (inv_change i s g _ _ Hs). constructor; rewrite ?fn_lookup_insert; try done.
  - by apply HH.
  - intros j. by eapply upd_dom.
  - rewrite Hf. by apply (inv_fifo _ _ Hs).
  - constructor.
  - intros a h' Ha'. rewrite Ho. unfold s', upd in Ha'. cbn [harts] in Ha'. destruct (decide (a = i)) as [->|].
    + rewrite lookup_insert_eq in Ha'. simplify_eq/=. exists h. split; [done|]. intros Esy Hb. rewrite fn_lookup_insert, Hg in *.
      cbn [vuncounted v'] in *. simpl in Esy |- *. rewrite signed_id by lia. lia.
    + rewrite lookup_insert_ne in Ha' by done. exists h'. split; [done|]. intros. rewrite fn_lookup_insert_ne by done. lia.
  - intros a. rewrite Ho. pose proof (inv_owed _ _ Hs a i) as H1. gcase a i; [|done]. by rewrite Hg in H1.
  - intros a b _. gcase a i; [by rewrite Hg|done].
  - intros a. gcase a i; [by rewrite Hg|done].
  - intros a Hr. destruct (inv_idle _ _ Hs a Hr) as [H1 H2]. specialize (H1 i). revert H1 H2 Hr. gcase a i; [by rewrite Hg|done].
  - intros b. by apply upd_trace with (h0 := h) (evs := []); [|rewrite app_nil_r].
  - intros a r' m' Hr Hsv.
    assert (vserved (g a) i = true) as Hsv' by (revert Hsv; gcase a i; [by rewrite Hg|done]).
    destruct (inv_served _ _ Hs a r' m' i Hr Hsv') as [_ [[Hfin Hp]|Hd]].
    + left. split; [revert Hfin; gcase a i; [by rewrite Hg|done]|]. by apply (pending_same a r' s g).
    + right. destruct (upd_trace i h (set_sync (signed 64 (sync_count h + 1)) h) s [] i Hh) as [evs E]; [by rewrite app_nil_r|].
      by eapply done_since_grow.
  - intros a _. by rewrite Ho.
Qed.

Lemma pending_owed s g b : Inv s g -> pending i r s g b -> 1 <= owed i s g b.
Proof.
  intros Hs Hp. unfold owed, entries_for. destruct Hp as [(e & [He|He] & Hin & _)|Hl].
  - assert (e ∈ filter (fun e => hart_in i (smask e) = true) (fifo_of s b)) as Hf by (by apply list_elem_of_filter).
    destruct (filter _ _); [by apply elem_of_nil in Hf|]. cbn [length].
    repeat match goal with |- context [Z.b2z ?x] => pose proof (b2z_range x); generalize dependent (Z.b2z x); intros end. lia.
  - rewrite He. cbn [from_option]. rewrite Hin.
    repeat match goal with |- context [Z.b2z ?x] => lazymatch x with true => fail | _ => pose proof (b2z_range x); generalize dependent (Z.b2z x); intros end end.
    simpl. lia.
  - rewrite Hl.
    repeat match goal with |- context [Z.b2z ?x] => lazymatch x with true => fail | _ => pose proof (b2z_range x); generalize dependent (Z.b2z x); intros end end.
    simpl. lia.
Qed.

(** A counter at zero: every hart that took the request in has executed it. *)
Lemma inv_finished s g sv :
  Inv s g -> g i = client sv false false -> total i s g <= 0 -> Inv s (<[i := client sv false true]> g).
Proof.
  intros Hs Hg Ht. set (g' := <[i := _]> g).
  assert (forall b, owed i s g b = 0) as H0.
  { intros b. destruct (decide (0 <= b < 128)).
    - apply (sumZ_zero _ (seqZ 0 128)); [apply owed_nonneg|exact Ht|apply elem_of_seqZ; lia].
    - pose proof (inv_owed _ _ Hs i b) as H1. pose proof (owed_nonneg i s g b).
      destruct (vserved (g i) b) eqn:Es; [|simpl in H1; lia].
      destruct (inv_served _ _ Hs i r m b) as [? _]; [by rewrite Hg|done|lia]. }
  assert (forall a, vreq (g' a) = vreq (g a) /\ vserved (g' a) = vserved (g a) /\ vuncounted (g' a) = vuncounted (g a)) as Hc.
  { intros a. unfold g'. gcase a i; [by rewrite Hg|done]. }
  apply (inv_views s g); [done|..]; intros a; try destruct (Hc a) as (Hc1 & Hc2 & Hc3); rewrite ?Hc1, ?Hc2, ?Hc3; try done.
  - unfold g'. gcase a i; [by rewrite Hg|done].
  - apply (inv_owed _ _ Hs).
  - apply (inv_idle _ _ Hs).
  - apply (inv_req _ _ Hs).
  - intros r' m' b Hr Hsv. destruct (inv_served _ _ Hs a r' m' b Hr Hsv) as [Hb [[Hfin Hp]|Hd]]; (split; [done|]); [|by right].
    unfold g'. gcase a i; [|by left].
    rewrite Hg in Hr. cbn [vreq] in Hr. injection Hr as <- <-. pose proof (pending_owed s g b Hs Hp). specialize (H0 b). lia.
  - unfold g'. gcase a i; [intros b _; apply H0|apply (inv_fin _ _ Hs)].
Qed.

Lemma safe_read_sync sv k :
  i ∈ HS -> (forall n, 0 < n -> sf Asm i Q (client sv false false) (k n)) ->
  (forall n, n <= 0 -> sf Asm i Q (client sv false true) (k n)) ->
  sf Asm i Q (client sv false false) (Do (atomic_read i) k).
Proof.
  intros Hi Hpos Hz. apply safe_on_hart; [done|]. intros s g h Hs Ha Hg Hh. cbn [fst snd].
  destruct (decide (0 < sync_count h)).
  - exists (g i). rewrite Hg at 2. split; [by apply inv_upd_same|by apply Hpos].
  - exists (client sv false true). split; [|apply Hz; lia].
    pose proof (inv_sync _ _ Hs i h Hh) as E. rewrite Hg in E. cbn [vuncounted] in E. simpl in E.
    assert (Inv (upd i h s) g) as Hs'.
    { apply (inv_ext _ (<[i := g i]> g)); [intros j; by gcase j i|]. by apply inv_upd_same. }
    apply inv_finished; [done|done|].
    enough (total i (upd i h s) g = total i s g) by lia.
    pose proof (inv_sync _ _ Hs' i h) as E'. unfold upd in E' at 1. cbn [harts] in E'. rewrite lookup_insert_eq in E'.
    specialize (E' eq_refl). rewrite Hg in E'. cbn [vuncounted] in E'. simpl in E'. lia.
Qed.
End Client.

(** A request starts, and ends once its counter was seen at zero. *)
Lemma inv_start s g r lost :
  Inv s g -> g i = idle lost -> entry_ok r -> (forall a, hart_in a r.(smask) = bool_decide (a = i)) ->
  Inv s (<[i := View (Some (r, fun b => length (trace_of s b))) nobody false false None [] lost]> g).
Proof.
  intros Hs Hg Hr Hm. set (g' := <[i := _]> g).
  apply (inv_views s g); [done|..]; intros a; unfold g'; gcase a i; try (by rewrite Hg); try done.
  - intros b. pose proof (inv_owed _ _ Hs i b) as H1. by rewrite Hg in H1.
  - apply (inv_owed _ _ Hs).
  - apply (inv_idle _ _ Hs).
  - cbn [vreq]. intros r' m' [= <- <-]. by split_and!.
  - apply (inv_req _ _ Hs).
  - apply (inv_served _ _ Hs).
  - apply (inv_fin _ _ Hs).
Qed.

Lemma inv_end s g r m sv lost :
  Inv s g -> g i = View (Some (r, m)) sv false true None [] lost -> Inv s (<[i := idle lost]> g).
Proof.
  intros Hs Hg. set (g' := <[i := _]> g).
  apply (inv_views s g); [done|..]; intros a; unfold g'; gcase a i; try (by rewrite Hg); try done.
  - intros b. rewrite (inv_fin _ _ Hs) by (by rewrite Hg). done.
  - apply (inv_owed _ _ Hs).
  - apply (inv_idle _ _ Hs).
  - apply (inv_req _ _ Hs).
  - apply (inv_served _ _ Hs).
  - apply (inv_fin _ _ Hs).
Qed.
End Rules.

Lemma safe_acknowledge Asm i rq sv u fin lost l :
  i ∈ HS ->
  sf Asm i (fun v' _ => v' = View rq sv u fin None [] lost) (View rq sv u fin None l lost) (acknowledge l).
Proof.
  intros Hi. induction l as [|x l IH]; cbn [acknowledge]; [done|]. apply safe_acknowledge_one; [done|]. by intros _.
Qed.
End Inv.
