(* ===== verification/Rfence.v ===== *)
(** * The promise of the RFENCE extension.

    The programs of [Ipi] are shown to keep the invariant of [IpiConc], function
    by function; then the system of all harts is put together and the theorem is
    proved that a fence call which returns without error has been executed by
    every hart it was meant for. *)

From S2P Require Import Prelude SbiTypes Hartmask Bitops Domain Hsm HsmConc Fifo Tlb Conc Ipi IpiConc.

Local Open Scope Z_scope.
Local Open Scope conc_scope.

(** ** The targets *)

Section Targets.
Context (hartid_to_hartindex : Z -> Z).

(** A hart that [hmask] and [hbase] select. *)
Definition selected (hmask hbase b : Z) : Prop :=
  hbase = 2 ^ 64 - 1 \/
  exists k, 0 <= k < 64 /\ Z.testbit hmask k = true /\ hartid_to_hartindex (u32 (hbase + k)) = b.

Context (Hindex : forall h, 0 <= hartid_to_hartindex h).

Lemma hmask_loop_spec fuel : forall base hmask mask,
  mask_wf mask -> 0 <= hmask < 2 ^ Z.of_nat fuel ->
  mask_wf (hmask_loop hartid_to_hartindex fuel base hmask mask) /\
  forall b, 0 <= b < 128 ->
    hart_in b (hmask_loop hartid_to_hartindex fuel base hmask mask) = true <->
    hart_in b mask = true \/
    exists k, 0 <= k < Z.of_nat fuel /\ Z.testbit hmask k = true /\ hartid_to_hartindex (u32 (base + k)) = b.
Proof using Hindex.
  induction fuel as [|fuel IH]; intros base hmask mask Hm Hh; cbn [hmask_loop].
  { split; [done|]. intros b _. split; [auto|]. intros [?|(k & ? & _)]; [done|lia]. }
  destruct (Z.eqb_spec hmask 0) as [->|Hnz].
  { split; [done|]. intros b _. split; [auto|]. intros [?|(k & _ & Hk & _)]; [done|]. by rewrite Z.bits_0 in Hk. }
  set (mask1 := if negb (Z.land hmask 1 =? 0) then _ else mask).
  assert (mask_wf mask1 /\ forall b, 0 <= b < 128 -> hart_in b mask1 = true <->
    hart_in b mask = true \/ Z.testbit hmask 0 = true /\ hartid_to_hartindex (u32 base) = b) as [Hm1 H1].
  { unfold mask1. assert ((Z.land hmask 1 =? 0) = negb (Z.testbit hmask 0)) as ->.
    { change 1 with (2 ^ 1 - 1). rewrite land_low by lia. change (2 ^ 1) with 2. rewrite <- Z.bit0_mod.
      by destruct (Z.testbit hmask 0). }
    rewrite negb_involutive. destruct (Z.testbit hmask 0).
    - destruct (set_hartindex_spec mask (hartid_to_hartindex (u32 base)) Hm (Hindex _)) as (m' & E & Hm' & Hj).
      unfold sbi_hartmask_set_hartid. rewrite E. cbn [default from_option id]. split; [done|]. intros b Hb. rewrite Hj by done.
      rewrite orb_true_iff, Z.eqb_eq. naive_solver.
    - split; [done|]. naive_solver. }
  destruct (IH (u64 (base + 1)) (Z.shiftr hmask 1) mask1 Hm1) as [Hw H2].
  { rewrite Z.shiftr_div_pow2 by lia. change (2 ^ 1) with 2. split; [apply Z.div_pos; lia|].
    apply Z.div_lt_upper_bound; [lia|]. rewrite Nat2Z.inj_succ, Z.pow_succ_r in Hh by lia. lia. }
  split; [done|]. intros b Hb. rewrite H2, H1 by done.
  assert (forall k, hartid_to_hartindex (u32 (u64 (base + 1) + k)) = hartid_to_hartindex (u32 (base + (k + 1)))) as E.
  { intros k. f_equal. rewrite <- wrap_add_l. replace (u32 (u64 (base + 1))) with (u32 (base + 1)).
    - rewrite wrap_add_l. f_equal. lia.
    - symmetry. apply Z.mod_mod_divide. by exists (2 ^ 32). }
  split.
  - intros [[?|[Hb0 E0]]|(k & Hk & Hbit & Ek)]; [by left|right; exists 0|right; exists (k + 1)].
    + split_and!; [lia..|done|]. by rewrite Z.add_0_r.
    + split_and!; [lia..| |by rewrite <- E]. by rewrite Z.shiftr_spec in Hbit by lia.
  - intros [?|(k & Hk & Hbit & Ek)]; [by left; left|]. destruct (decide (k = 0)) as [->|].
    + left; right. by rewrite Z.add_0_r in Ek.
    + right. exists (k - 1). split_and!; [lia..| |rewrite E; by replace (k - 1 + 1) with k by lia].
      rewrite Z.shiftr_spec by lia. by replace (k - 1 + 1) with k by lia.
Qed.

Lemma select_targets_spec hmask hbase mask :
  mask_wf mask -> 0 <= hmask < 2 ^ 64 -> 0 <= hbase < 2 ^ 64 ->
  mask_wf (select_targets hartid_to_hartindex hmask hbase mask) /\
  forall b, hart_in b (select_targets hartid_to_hartindex hmask hbase mask) = true <->
            hart_in b mask = true /\ selected hmask hbase b.
Proof using Hindex.
  intros Hm Hh Hb. unfold select_targets, selected. change (u64 (-1)) with (2 ^ 64 - 1).
  destruct (Z.eqb_spec hbase (2 ^ 64 - 1)) as [->|Hne]; cbn [negb]; [split; [done|]; intros b; split; [auto|by intros []]|].
  assert (mask_wf [0; 0]) as H0 by (split; [done|]; repeat constructor; unfold in_range; lia).
  destruct (hmask_loop_spec 64 hbase hmask [0; 0] H0 Hh) as [Hw Hj].
  unfold sbi_hartmask_and, __bitmap_and.
  destruct (bitmap_op_spec Z.land andb mask mask (hmask_loop hartid_to_hartindex 64 hbase hmask [0; 0])) as (m' & -> & Hm' & Hin);
    [intros; apply in_range_land_l; [lia|done|by eapply in_range_nonneg]|apply Z.land_spec|done..|].
  cbn [default from_option id]. split; [done|]. intros b. destruct (decide (0 <= b < 128)) as [Hb'|Hb'].
  - rewrite Hin, andb_true_iff, Hj by done. change (hart_in b [0; 0]) with ((0 <=? b) && (b <? 128) && Z.testbit 0 b).
    rewrite Z.bits_0, andb_false_r. split; intros [? [?|?]]; (split; [done|]); [done|by right|lia|by right].
  - split; [intros E|intros [E _]]; by apply hart_in_range in E.
Qed.
End Targets.

Section Programs.
Context {D : Type} (HS : gset Z) (HH : forall i, i ∈ HS -> 0 <= i < 128).
Context (ipi_dev : option (sbi_ipi_device D)).
Context (ipi_ops_array : list (option ops_id)) (tlb_num_entries : nat) (tlb_range_flush_limit : Z).
Context (ipi_smode_event ipi_halt_event tlb_event : Z).
Context (hartid_to_hartindex hartindex_to_hartid : Z -> Z) (thishart_dom : Z -> option sbi_domain).
Context (hsm_dev : option sbi_hsm_device).

Abbreviation St := (isys D).
Abbreviation prog := (Conc.prog St Hsm.exit).
Abbreviation sf := (safe (Inv HS) exit_ok).
Abbreviation event_ops := (event_ops ipi_ops_array).

(** ** Serving the queue *)

Section Serve.
Context (Asm : St -> Prop) (i : Z) (Hi : i ∈ HS).

(** A program that leaves the view of its hart as it was. *)
Abbreviation keeps v p := (sf Asm i (fun v' _ => v' = v) v p).

Lemma safe_read_hgatp {A} (Q : view -> A -> Prop) v k :
  (forall hg, sf Asm i Q v (k hg)) -> sf Asm i Q v (Do (on_hart i 0 (fun h => (h.(hgatp), h))) k).
Proof using HH Hi.
  intros Hk. apply safe_neutral; [done| |auto]. intros s. apply neutral_on_hart. intros h. split_and!; [done..|].
  exists []. by rewrite app_nil_r.
Qed.

Lemma safe_local_entry rq sv u fin lost e :
  entry_ok e ->
  sf Asm i (fun v' _ => v' = View rq sv u fin None (harts_from e.(smask) 0) lost)
    (View rq sv u fin (Some e) [] lost) (local_process i (Some e)).
Proof using HH Hi.
  intros He. apply safe_read_hgatp. intros hg. destruct (local_process_covers e hg (proj1 He)) as (evs & -> & Hc).
  by apply safe_execute.
Qed.

Lemma safe_process_once rq sv u fin lost :
  keeps (View rq sv u fin None [] lost) (tlb_process_once i).
Proof using HH Hi.
  apply safe_dequeue; [done..|done|]. intros e He. unfold tlb_entry_process.
  eapply safe_bind; [eapply safe_bind; [by apply safe_local_entry|]|].
  - intros v _ ->. rewrite (for_each_spec _ (entry_mask e He)). cbn [default from_option id].
    by apply safe_acknowledge.
  - done.
Qed.

Lemma safe_tlb_process rq sv u fin lost : keeps (View rq sv u fin None [] lost) (tlb_process i).
Proof using HH Hi.
  apply (safe_iter _ _ _ _ _ _ _ (fun _ v => v = View rq sv u fin None [] lost) (fun v _ => v = View rq sv u fin None [] lost));
    [done| |done]. intros _ v ->. eapply safe_bind; [apply safe_process_once|]. by intros v [] ->.
Qed.

(** Accesses that do not touch the protocol. *)
Lemma safe_pmu {A} (Q : view -> A -> Prop) v fw k : sf Asm i Q v (k tt) -> sf Asm i Q v (Do (sbi_pmu_ctr_incr_fw i fw) k).
Proof using HH.
  intros Hk. apply safe_neutral; [done| |].
  2:{ intros s g _ _ _. by destruct (sbi_pmu_ctr_incr_fw i fw s).1. }
  intros s. apply neutral_on_hart. intros h. split_and!; [done..|]. by eexists.
Qed.

Lemma safe_neutral_any {A R} (Q : view -> A -> Prop) v (a : St -> R * St) k :
  (forall s, (a s).2.(harts) = s.(harts)) -> (forall r, sf Asm i Q v (k r)) -> sf Asm i Q v (Do a k).
Proof using HH.
  intros Ha Hk. apply safe_neutral; [done| |auto]. intros s. apply neutral_harts, Ha.
Qed.

Lemma safe_ipi_type {A} (Q : view -> A -> Prop) v t d (f : ipi_hart -> Z) (w : ipi_hart -> Z) k :
  (forall z, sf Asm i Q v (k z)) -> sf Asm i Q v (Do (on_hart t d (fun h => (f h, set_ipi_type (w h) h))) k).
Proof using HH.
  intros Hk. apply safe_neutral; [done| |auto]. intros s. apply neutral_on_hart. intros h. split_and!; [done..|].
  exists []. by rewrite app_nil_r.
Qed.

Lemma safe_raw_send v t : sf Asm i (fun v' rc => v' = v /\ (rc = 0 \/ rc = SBI_EINVAL)) v (sbi_ipi_raw_send ipi_dev t).
Proof using HH.
  unfold sbi_ipi_raw_send. destruct ipi_dev as [[[f|] cl]|]; cbn [Ipi.ipi_send]; [|by cbn [safe]; auto..].
  apply safe_neutral_any; [done|]. intros []. cbn [safe]. auto.
Qed.

Lemma safe_raw_clear v : keeps v (sbi_ipi_raw_clear ipi_dev i).
Proof using HH.
  unfold sbi_ipi_raw_clear. destruct ipi_dev as [[sd [f|]]|]; cbn [Ipi.ipi_clear]; [|done..].
  by apply safe_neutral_any.
Qed.

Lemma safe_trigger v t event : sf Asm i (fun v' rc => v' = v /\ (rc = 0 \/ rc = SBI_EINVAL)) v (ipi_trigger ipi_dev i t event).
Proof using HH.
  unfold ipi_trigger, fetch_or_ipi_type. apply safe_ipi_type. intros old.
  eapply safe_bind with (Q := fun v' rc => v' = v /\ (rc = 0 \/ rc = SBI_EINVAL)).
  - destruct (old =? 0); [apply safe_raw_send|cbn [safe]; auto].
  - intros v' rc [-> Hrc]. by apply safe_pmu.
Qed.

(** ** The mask of interruptible harts *)

Section Mask.
Context (P : Z -> Prop) (HP : forall s, Asm s -> forall b, P b -> interruptible s.(hsm) b = true).
Context (HP0 : forall b, P b -> 0 <= b).

(** The mask read while the harts of [P] stay up: they are kept in it. *)
Definition mask_read (v : view) (mask : sbi_hartmask) (v' : view) (om : option sbi_hartmask) : Prop :=
  v' = v /\ exists m', om = Some m' /\ mask_wf m' /\
    (forall b, hart_in b m' = true -> hart_in b mask = true) /\
    forall b, P b -> hart_in b mask = true -> hart_in b m' = true.

Lemma mask_read_sub v mask m1 v' om :
  (forall b, hart_in b m1 = true -> hart_in b mask = true) -> (forall b, P b -> hart_in b mask = true -> hart_in b m1 = true) ->
  mask_read v m1 v' om -> mask_read v mask v' om.
Proof using. intros H1 H2 (-> & m' & -> & Hw & H3 & H4). split; [done|]. exists m'. split_and!; eauto. Qed.

Definition down (z : Z) : bool :=
  negb (z =? SBI_HSM_STATE_STARTED) && negb (z =? SBI_HSM_STATE_SUSPENDED) && negb (z =? SBI_HSM_STATE_RESUME_PENDING).

Lemma safe_interruptible_loop v fuel : forall mask t,
  mask_wf mask -> 0 <= t <= 128 -> (Z.to_nat (128 - t) < fuel)%nat ->
  sf Asm i (mask_read v mask) v (lift_hsm (interruptible_loop fuel mask t)).
Proof using HH HP.
  induction fuel as [|fuel IH]; intros mask t Hm Ht Hf; [lia|]. cbn [interruptible_loop]. unfold SBI_HARTMASK_MAX_BITS at 1.
  destruct (Z.ltb_spec t 128) as [Hlt|Hge]; [|cbn; split; [done|]; by exists mask].
  assert (forall z, (P t -> down z = false) ->
    sf Asm i (mask_read v mask) v
      (lift_hsm (match (if down z then sbi_hartmask_clear_hartindex t mask else Some mask) with
                 | None => Hsm.Ret None
                 | Some mask => match find_next_bit mask SBI_HARTMASK_MAX_BITS (t + 1) with
                                | None => Hsm.Ret None
                                | Some n => interruptible_loop fuel mask n
                                end
                 end))) as Hk.
  { intros z Hz. destruct (clear_hartindex_spec mask t Hm ltac:(lia)) as (m1 & E & Hm1 & Hj).
    assert (exists m2, (if down z then sbi_hartmask_clear_hartindex t mask else Some mask) = Some m2 /\ mask_wf m2 /\
      (forall b, hart_in b m2 = true -> hart_in b mask = true) /\ forall b, P b -> hart_in b mask = true -> hart_in b m2 = true)
      as (m2 & -> & Hm2 & H1 & H2).
    { destruct (down z); [|exists mask; by split_and!]. exists m1. split_and!; [done..| |].
      - intros b Hb. pose proof (hart_in_range _ _ Hb). rewrite Hj in Hb by done. by apply andb_true_iff in Hb as [].
      - intros b Hb Hin. rewrite Hj by (by eapply hart_in_range). rewrite Hin, andb_true_r.
        destruct (Z.eqb_spec b t) as [->|]; [by specialize (Hz Hb)|done]. }
    destruct (mask_next m2 t Hm2 ltac:(lia)) as (n & -> & Hn & _).
    eapply safe_mono; [done| |apply IH; [done|lia|lia]]. intros v' om. by apply mask_read_sub. }
  unfold __sbi_hsm_hart_get_state. cbn [Hsm.pbind lift_hsm].
  apply safe_neutral; [done|by intros s; apply neutral_harts|]. intros s g Hs Ha Hg. unfold has_scratch. cbn [fst].
  destruct (hsm s !! t) as [h|] eqn:Eh.
  - rewrite bool_decide_eq_true_2 by done. cbn [Z.b2z Z.eqb Hsm.pbind lift_hsm].
    apply safe_neutral; [done|by intros s'; apply neutral_harts|]. intros s' g' Hs' Ha' Hg'. unfold rd. cbn [fst].
    apply Hk. intros HPt. specialize (HP s' Ha' t HPt). unfold interruptible in HP. destruct (hsm s' !! t); [|done].
    cbn [fmap option_fmap option_map default from_option id]. unfold down.
    destruct (_ =? _); [done|]. destruct (_ =? _); [done|]. by destruct (_ =? _).
  - rewrite bool_decide_eq_false_2 by (by intros []). cbn [Z.b2z Z.eqb Hsm.pbind].
    apply Hk. intros HPt. specialize (HP s Ha t HPt). unfold interruptible in HP. by rewrite Eh in HP.
Qed.

(** [sbi_hsm_hart_interruptible_mask] of a domain with a well-formed mask. *)
Lemma safe_interruptible_mask v dom :
  (forall d, dom = Some d -> mask_wf d.(assigned_harts)) ->
  sf Asm i (fun v' om => v' = v /\ exists m', om = Some m' /\ mask_wf m' /\
              forall b, P b -> sbi_domain_is_assigned_hart dom b = true -> hart_in b m' = true)
    v (lift_hsm (sbi_hsm_hart_interruptible_mask dom [0; 0])).
Proof using HH HP HP0.
  intros Hd. unfold sbi_hsm_hart_interruptible_mask.
  set (mask := match dom with Some d => _ | None => _ end).
  assert (mask_wf mask /\ forall b, 0 <= b -> sbi_domain_is_assigned_hart dom b = true -> hart_in b mask = true) as [Hm Hb].
  { unfold mask, sbi_domain_is_assigned_hart. destruct dom as [d|].
    - specialize (Hd d eq_refl). destruct (two_words _ Hd) as (w0 & w1 & E & _).
      assert (sbi_hartmask_copy [0; 0] (assigned_harts d) = assigned_harts d) as -> by by rewrite E. split; [done|].
      intros b Hb. rewrite test_hartindex_spec by done. by destruct (hart_in b (assigned_harts d)).
    - split; [|done]. split; [done|]. repeat constructor; unfold in_range; lia. }
  destruct (mask_first mask Hm) as (t & -> & Ht & _).
  eapply safe_mono; [done| |apply (safe_interruptible_loop v 129 mask t); [done|lia|lia]].
  intros v' om (-> & m' & -> & Hw & _ & H2). split; [done|]. exists m'. split_and!; [done..|]. intros b HPb Hass.
  apply H2; [done|]. apply Hb; auto.
Qed.
End Mask.

(** ** Handing a request over *)

Context (Hid : forall a b, 0 <= a < 128 -> 0 <= b < 128 -> hartindex_to_hartid a = hartindex_to_hartid b -> a = b).
Context (r : sbi_tlb_info) (m : Z -> nat) (lost : Z -> bool) (Hr : entry_ok r).
Abbreviation client sv u fin := (View (Some (r, m)) sv u fin None [] lost).

Lemma safe_tlb_sync sv :
  sf Asm i (fun v' _ => v' = client sv false true) (client sv false false) (tlb_sync i).
Proof using HH Hi.
  apply (safe_iter _ _ _ _ _ _ _ (fun _ v => v = client sv false false) (fun v _ => v = client sv false true)); [done| |done]. intros _ v ->. apply safe_read_sync; [done|done|..]; intros n Hn.
  - rewrite (proj2 (Z.ltb_lt 0 n) Hn). eapply safe_bind; [apply safe_process_once|]. by intros v _ ->.
  - by rewrite (proj2 (Z.ltb_ge 0 n) Hn).
Qed.

(** The hart [t] has taken the request in, or the queue was full. *)
Lemma safe_tlb_update sv t :
  t ∈ HS -> sv t = false ->
  sf Asm i (fun v' rc => rc = SBI_IPI_UPDATE_RETRY /\ v' = client sv false false \/
                         (rc = SBI_IPI_UPDATE_SUCCESS \/ rc = SBI_IPI_UPDATE_BREAK) /\
                         v' = client (<[t := true]> sv) false false)
    (client sv false false) (tlb_update tlb_num_entries hartindex_to_hartid i t (Some r)).
Proof using HH Hi Hid Hr.
  intros Ht Hsv. unfold tlb_update. destruct (Z.eqb_spec (hartindex_to_hartid t) (hartindex_to_hartid i)) as [E|Hne].
  - apply Hid in E as ->; [|by apply HH..].
    eapply safe_bind with (Q := fun v' (_ : unit) => v' = client (<[i := true]> sv) false false).
    + apply safe_read_hgatp. intros hg. destruct (local_process_covers r hg (proj1 Hr)) as (evs & -> & Hc).
      by apply safe_execute_self.
    + intros v _ ->. cbn [safe]. auto.
  - assert (t <> i) as Hti by (by intros ->). apply safe_inplace_update; try done.
    + rewrite Z.eqb_refl. apply safe_enqueue; try done.
      * intros z Hz. rewrite (proj2 (Z.ltb_lt z 0) Hz). eapply safe_bind; [apply safe_process_once|].
        intros v _ ->. cbn [safe]. auto.
      * apply safe_count; [done..|]. intros z. cbn [safe]. auto.
    + intros z Hz. rewrite (proj2 (Z.eqb_neq _ _) Hz). apply safe_count; [done..|]. intros z'. cbn [safe]. auto.
Qed.

(** [sbi_ipi_send] of the fence event. *)
Definition sent (sv : Z -> bool) (t : Z) (v' : view) (rc : Z) : Prop :=
  exists sv', v' = client sv' false false /\
    (0 <= rc -> sv' = if rc =? SBI_IPI_UPDATE_RETRY then sv else <[t := true]> sv).

Lemma safe_send sv t event :
  event_ops event = Some tlb_ops -> sv t = false ->
  sf Asm i (sent sv t) (client sv false false)
    (sbi_ipi_send ipi_dev ipi_ops_array tlb_num_entries hartindex_to_hartid thishart_dom hsm_dev i t event (Some r)).
Proof using HH Hi Hid Hr.
  intros Hev Hsv. unfold sbi_ipi_send. rewrite Hev. apply safe_neutral; [done|by intros s; apply neutral_harts|].
  intros s g Hs _ _. unfold has_hart. cbn [fst].
  destruct (decide (is_Some (harts s !! t))) as [Ht|Ht]; [rewrite bool_decide_eq_true_2 by done|rewrite bool_decide_eq_false_2 by done].
  2:{ cbn [negb safe]. exists sv. split; [done|]. unfold SBI_EINVAL. lia. }
  apply (inv_dom _ _ _ Hs) in Ht. cbn [negb ops_of update]. eapply safe_bind; [by apply safe_tlb_update|].
  intros v rc [[-> ->]|[Hrc ->]]; [cbn; by exists sv|]. destruct (Z.eqb_spec rc SBI_IPI_UPDATE_SUCCESS) as [->|Hne]; cbn [negb].
  - eapply safe_mono; [done| |apply safe_trigger]. intros v rc [-> Hrc']. eexists. split; [done|].
    destruct Hrc' as [-> | ->]; [done|unfold SBI_EINVAL; lia].
  - destruct Hrc as [->| ->]; [done|]. eexists. by split.
Qed.

(** ** Sending to many *)

(** [T] are harts that must be served: each is still in the mask or was served. *)
Context (T : Z -> Prop).
Record todo (sv : Z -> bool) (mask : sbi_hartmask) : Prop := {
  td_wf : mask_wf mask;
  td_new j : hart_in j mask = true -> sv j = false;
  td_all j : T j -> hart_in j mask = true \/ sv j = true;
}.

Lemma todo_clear sv mask t : todo sv mask -> hart_in t mask = true ->
  todo (<[t := true]> sv) (default mask (sbi_hartmask_clear_hartindex t mask)) /\
  forall j, hart_in j (default mask (sbi_hartmask_clear_hartindex t mask)) = negb (j =? t) && hart_in j mask.
Proof using.
  intros [Hw Hn Ha] Ht. pose proof (hart_in_range t mask Ht) as Hrg.
  destruct (clear_hartindex_spec mask t Hw ltac:(lia)) as (m' & -> & Hw' & Hj). cbn [default from_option id].
  assert (forall j, hart_in j m' = negb (j =? t) && hart_in j mask) as Hj'.
  { intros j. destruct (decide (0 <= j < 128)) as [|Ho]; [by apply Hj|].
    destruct (hart_in j m') eqn:E1; [by apply hart_in_range in E1|]. destruct (hart_in j mask) eqn:E2; [by apply hart_in_range in E2|].
    by rewrite andb_false_r. }
  split; [|done]. constructor; [done|..].
  - intros j Hm. rewrite Hj' in Hm. apply andb_true_iff in Hm as [Hne Hm].
    apply negb_true_iff, Z.eqb_neq in Hne. rewrite fn_lookup_insert_ne by done. by apply Hn.
  - intros j Hp. rewrite Hj'. destruct (Z.eqb_spec j t) as [->|]; [right; by rewrite fn_lookup_insert|].
    rewrite fn_lookup_insert_ne by done. by apply Ha.
Qed.

(** What a pass leaves. *)
Definition passed (v' : view) (res : sbi_hartmask * bool + Z) : Prop :=
  exists sv, v' = client sv false false /\
    match res with
    | inr rc => rc < 0
    | inl (mask, retry) => todo sv mask /\ (retry = false -> forall j, hart_in j mask = false)
    end.

Abbreviation pass := (send_pass ipi_dev ipi_ops_array tlb_num_entries hartindex_to_hartid thishart_dom hsm_dev).

Lemma safe_send_pass event fuel : event_ops event = Some tlb_ops -> forall sv mask t retry,
  todo sv mask -> 0 <= t <= 128 -> (t < 128 -> hart_in t mask = true) ->
  (retry = false -> forall j, j < t -> hart_in j mask = false) -> (Z.to_nat (128 - t) < fuel)%nat ->
  sf Asm i passed (client sv false false) (pass fuel i event (Some r) mask t retry).
Proof using HH Hi Hid Hr.
  intros Hev. induction fuel as [|fuel IH]; intros sv mask t retry Htd Ht Hin Hlow Hf; [lia|]. cbn [send_pass].
  unfold SBI_HARTMASK_MAX_BITS at 1. destruct (Z.ltb_spec t 128) as [Hlt|Hge].
  2:{ cbn [safe]. exists sv. split; [done|]. split; [done|]. intros Hret j. destruct (hart_in j mask) eqn:E; [|done].
      pose proof (hart_in_range j mask E). rewrite Hlow in E by (done || lia). done. }
  specialize (Hin Hlt). eapply safe_bind; [apply safe_send; [done|by apply (td_new _ _ Htd)]|].
  intros v rc (sv' & -> & Hsv'). destruct (Z.ltb_spec rc 0); [cbn [safe]; by exists sv'|]. specialize (Hsv' ltac:(lia)).
  destruct (Z.eqb_spec rc SBI_IPI_UPDATE_RETRY) as [->|Hne]; subst sv'.
  - destruct (mask_next mask t (td_wf _ _ Htd) ltac:(lia)) as (n & -> & Hn & Hnin & Hbetween). cbn [default from_option id].
    apply IH; [done|lia|done|done|lia].
  - destruct (todo_clear sv mask t Htd Hin) as [Htd' Hcl]. set (mask' := default mask _) in *.
    destruct (mask_next mask' t (td_wf _ _ Htd') ltac:(lia)) as (n & -> & Hn & Hnin & Hbetween). cbn [default from_option id].
    apply IH; [done|lia|done| |lia].
    intros Hret j Hj. destruct (decide (j < t)) as [Hjt|]; [rewrite Hcl, Hlow by done; apply andb_false_r|].
    destruct (decide (j = t)) as [->|]; [by rewrite Hcl, Z.eqb_refl|apply Hbetween; lia].
Qed.

(** What [sbi_ipi_send_many] leaves of the fence event. *)
Definition fenced (v' : view) (rc : Z) : Prop :=
  exists sv, v' = client sv false true /\ (rc = 0 -> forall j, T j -> sv j = true).

Lemma safe_send_loop event mask :
  event_ops event = Some tlb_ops -> todo nobody mask ->
  sf Asm i fenced (client nobody false false)
    (Iter (send_body ipi_dev ipi_ops_array tlb_num_entries hartindex_to_hartid thishart_dom hsm_dev i event (Some r)) mask
      (fun rc => call _ <- sbi_ipi_sync ipi_dev ipi_ops_array tlb_num_entries hartindex_to_hartid thishart_dom hsm_dev i event in Ret rc)).
Proof using HH Hi Hid Hr.
  intros Hev Htd.
  apply (safe_iter _ _ _ _ _ _ _ (fun mask v => exists sv, v = client sv false false /\ todo sv mask)
           (fun v rc => exists sv, v = client sv false false /\ (rc = 0 -> forall j, T j -> sv j = true))); [eauto|..].
  - clear mask Htd. intros mask v (sv & -> & Htd). unfold send_body.
    destruct (mask_first mask (td_wf _ _ Htd)) as (t & -> & Ht & Hin & Hlow). cbn [default from_option id].
    eapply safe_bind.
    + apply safe_send_pass; [done|done|lia|done| |unfold SBI_HARTMASK_MAX_BITS; lia].
      intros _ j Hj. destruct (hart_in j mask) eqn:E; [|done]. pose proof (hart_in_range j mask E). by rewrite Hlow in E by lia.
    + intros v [[mask' retry]|rc] (sv' & -> & Hres); cbn [safe]; [|exists sv'; split; [done|]; lia].
      destruct Hres as [Htd' Hret]. destruct retry; [eauto|]. exists sv'. split; [done|]. intros _ j Hj.
      destruct (td_all _ _ Htd' j Hj) as [Hm|]; [|done]. by rewrite Hret in Hm.
  - intros v rc (sv & -> & Hsv). unfold sbi_ipi_sync. rewrite Hev. cbn [ops_of sync].
    eapply safe_bind with (Q := fun v' (_ : Z) => v' = client sv false true).
    + eapply safe_bind; [apply safe_tlb_sync|]. by intros v _ ->.
    + intros v _ ->. cbn [safe]. by exists sv.
Qed.

(** The whole request: the harts of [P] that are assigned to the domain and
    selected are served. *)
Lemma safe_tlb_request (P : Z -> Prop) hmask hbase t :
  event_ops tlb_event = Some tlb_ops -> (forall h, 0 <= hartid_to_hartindex h) ->
  (forall s, Asm s -> forall b, P b -> interruptible s.(hsm) b = true) -> (forall b, P b -> 0 <= b) ->
  (forall d, thishart_dom i = Some d -> mask_wf d.(assigned_harts)) ->
  0 <= hmask < 2 ^ 64 -> 0 <= hbase < 2 ^ 64 -> 0 <= t.(type) < SBI_TLB_TYPE_MAX ->
  r = limited tlb_range_flush_limit t ->
  (forall b, T b -> P b /\ sbi_domain_is_assigned_hart (thishart_dom i) b = true /\ selected hartid_to_hartindex hmask hbase b) ->
  sf Asm i fenced (client nobody false false)
    (sbi_tlb_request ipi_dev ipi_ops_array tlb_num_entries tlb_range_flush_limit tlb_event hartid_to_hartindex
       hartindex_to_hartid thishart_dom hsm_dev i hmask hbase t).
Proof using HH Hi Hid Hr.
  intros Hev Hix HP HP0 Hd Hhm Hhb Hty Er HT. unfold sbi_tlb_request. cbv zeta. rewrite <- Er.
  replace ((type t <? 0) || (SBI_TLB_TYPE_MAX <=? type t)) with false by lia. apply safe_pmu. unfold sbi_ipi_send_many.
  eapply safe_bind; [by apply (safe_interruptible_mask P)|]. intros v om (-> & m' & -> & Hw & Hin). cbn [default from_option id].
  destruct (select_targets_spec hartid_to_hartindex Hix hmask hbase m' Hw Hhm Hhb) as [Hw' Hsel].
  apply safe_send_loop; [done|]. constructor; [done|done|].
  intros b HTb. left. destruct (HT b HTb) as (H1 & H2 & H3). apply Hsel. auto.
Qed.
End Serve.

(** ** Interrupts, other events and boot *)

Section Other.
Context (Asm : St -> Prop) (i : Z) (Hi : i ∈ HS) (lost : Z -> bool).
Abbreviation keeps p := (sf Asm i (fun v' _ => v' = idle lost) (idle lost) p).

Lemma safe_lift {A} (p : Hsm.prog A) : keeps (lift_hsm p).
Proof using HH.
  induction p as [a|e|a k IH|c k IH]; cbn [lift_hsm]; [done|by exists lost|by apply safe_neutral_any|done].
Qed.

Lemma safe_csr f (p : prog unit) : keeps p -> keeps (Do (csr f i) (fun _ => p)).
Proof using HH. intros Hp. by apply safe_neutral_any. Qed.

Lemma safe_process_bits fuel run_ops : (forall o, keeps (run_ops o)) -> forall ty ev,
  keeps (process_bits ipi_ops_array fuel run_ops ty ev).
Proof using.
  intros Ho. induction fuel as [|fuel IH]; intros ty ev; cbn [process_bits]; [done|].
  destruct (ty =? 0); [done|]. destruct (negb _); [|apply IH]. destruct (event_ops ev); [|apply IH].
  eapply safe_bind; [apply Ho|]. intros v _ ->. apply IH.
Qed.

Lemma safe_process_with run_ops : (forall o, keeps (run_ops o)) -> keeps (ipi_process_with ipi_dev ipi_ops_array run_ops i).
Proof using HH.
  intros Ho. unfold ipi_process_with. apply safe_pmu. eapply safe_bind; [apply safe_raw_clear|].
  intros v _ ->. apply safe_ipi_type. intros z. by apply safe_process_bits.
Qed.

Lemma safe_process_halt depth : keeps (sbi_ipi_process_halt ipi_dev ipi_ops_array thishart_dom hsm_dev depth i).
Proof using HH Hi.
  induction depth as [|depth IH]; cbn [sbi_ipi_process_halt]; [done|]. eapply safe_bind; [apply safe_lift|].
  intros v rc ->. destruct (negb _); [done|]. apply safe_csr. eapply safe_bind.
  - apply safe_process_with. intros []; [by apply safe_csr|done|by apply safe_tlb_process].
  - intros v _ ->. apply safe_lift.
Qed.

Lemma safe_process o :
  keeps ((ops_of ipi_dev ipi_ops_array tlb_num_entries hartindex_to_hartid thishart_dom hsm_dev o).(process) i).
Proof using HH Hi.
  destruct o; [by apply safe_csr|apply safe_process_halt|by apply safe_tlb_process].
Qed.

Lemma safe_ipi_process : keeps (sbi_ipi_process ipi_dev ipi_ops_array tlb_num_entries hartindex_to_hartid thishart_dom hsm_dev i).
Proof using HH Hi. apply safe_process_with. intros o. apply safe_process. Qed.

(** An event that is not the fence event. *)
Context (event : Z) (Hother : event_ops event <> Some tlb_ops).

Lemma safe_send_other t data :
  keeps (sbi_ipi_send ipi_dev ipi_ops_array tlb_num_entries hartindex_to_hartid thishart_dom hsm_dev i t event data).
Proof using HH Hi Hother.
  unfold sbi_ipi_send. destruct (event_ops event) as [o|] eqn:E; [|done]. apply safe_neutral_any; [done..|]. intros [].
  2:{ done. }
  cbn [negb]. assert (keeps (ipi_trigger ipi_dev i t event)) as Ht
    by (eapply safe_mono; [done| |by apply safe_trigger]; by intros v rc [-> _]).
  destruct o; cbn [ops_of update process]; [|unfold sbi_ipi_update_halt; destruct (i =? t); [done|exact Ht]|done].
  destruct (i =? t); [|done]. eapply safe_bind; [by apply safe_csr|]. by intros v _ ->.
Qed.

Lemma safe_send_pass_other data fuel : forall mask t retry,
  keeps (send_pass ipi_dev ipi_ops_array tlb_num_entries hartindex_to_hartid thishart_dom hsm_dev fuel i event data mask t retry).
Proof using HH Hi Hother.
  induction fuel as [|fuel IH]; intros mask t retry; cbn [send_pass]; [done|]. destruct (t <? _); [|done].
  eapply safe_bind; [apply safe_send_other|]. intros v rc ->. destruct (rc <? 0); [done|]. apply IH.
Qed.

Lemma safe_send_many_other hmask hbase data :
  keeps (sbi_ipi_send_many ipi_dev ipi_ops_array tlb_num_entries hartid_to_hartindex hartindex_to_hartid thishart_dom hsm_dev
           i hmask hbase event data).
Proof using HH Hi Hother.
  unfold sbi_ipi_send_many. eapply safe_bind; [apply safe_lift|]. intros v om ->.
  apply (safe_iter _ _ _ _ _ _ _ (fun _ v => v = idle lost) (fun v _ => v = idle lost)); [done|..].
  - intros mask v ->. unfold send_body. eapply safe_bind; [apply safe_send_pass_other|].
    intros v res ->. by destruct res as [[? []]|].
  - intros v rc ->. eapply safe_bind with (Q := fun v' (_ : Z) => v' = idle lost); [|by intros v _ ->].
    unfold sbi_ipi_sync. destruct (event_ops event) as [[]|]; done.
Qed.
End Other.

(** A restarted hart drops its queue and starts counting at zero. *)
Lemma inv_drop (s : St) g i h lost :
  Inv HS s g -> g i = idle lost -> s.(harts) !! i = Some h ->
  Inv HS (upd i (set_fifo [] h) s) (<[i := idle (fun a => lost a || (0 <? entries_for a h.(tlb_fifo)))]> g).
Proof using HH.
  intros Hs Hg Hh. set (lost' := fun a : Z => _).
  assert (forall a, owed a (upd i (set_fifo [] h) s) (<[i := idle lost']> g) i = owed a s g i) as Ho.
  { intros a. pose proof (inv_owed _ _ _ Hs a i) as H1. pose proof (b2z_range (vserved (g a) i)) as Hb. revert H1. unfold owed.
    rewrite fn_lookup_insert, fifo_upd_eq, (fifo_of_eq i h s Hh), Hg. cbn [vent vsubs vlost from_option tlb_fifo set_fifo].
    unfold lost'. set (n := entries_for a (tlb_fifo h)). assert (0 <= n) by (unfold n, entries_for; lia).
    change (entries_for a []) with 0. destruct (bool_decide (a ∈ [])), (lost a); destruct (Z.ltb_spec 0 n); simpl; lia. }
  apply (change_intro HS HH i s g _ h _ i Hs Hh); rewrite ?Hg, ?fn_lookup_insert; cbn [vent vsubs vserved vreq vfin vuncounted]; try done.
  - exists []. by rewrite app_nil_r.
  - constructor.
  - intros a. rewrite Ho. gcase a i; [rewrite Hg|]; cbn [vuncounted]; lia.
  - intros a. rewrite Ho. gcase a i; [pose proof (inv_owed _ _ _ Hs i i) as H1; by rewrite Hg in H1|by apply (inv_owed _ _ _ Hs)].
  - intros a r m Hr Hsv. destruct (decide (a = i)) as [->|Hne]; [by rewrite Hg in Hr|]. rewrite fn_lookup_insert_ne in Hsv |- * by done.
    destruct (inv_served _ _ _ Hs a r m i Hr Hsv) as [_ [[Hfin Hp]|Hd]]; [left; split; [done|]|right].
    + right. rewrite fn_lookup_insert. cbn [vlost]. unfold lost'. destruct Hp as [(e & [He|He] & Hin & _)|Hl].
      * rewrite (fifo_of_eq i h s Hh) in He. apply orb_true_iff. right. apply Z.ltb_lt. unfold entries_for.
        assert (e ∈ filter (fun e => hart_in a (smask e) = true) (tlb_fifo h)) as Hf by (by apply list_elem_of_filter).
        destruct (filter _ _); [by apply elem_of_nil in Hf|simpl; lia].
      * by rewrite Hg in He.
      * rewrite Hg in Hl. cbn [vlost] in Hl. by rewrite Hl.
    + destruct (upd_trace i h (set_fifo [] h) s [] i Hh) as [evs E]; [by rewrite app_nil_r|]. by eapply done_since_grow.
Qed.

Lemma safe_boot Asm i lost : i ∈ HS ->
  sf Asm i (fun v' _ => exists lost, v' = idle lost) (idle lost)
    (call _ <- sbi_ipi_init_hart ipi_dev i in sbi_tlb_init_hart i).
Proof using HH.
  intros Hi. eapply safe_bind with (Q := fun v' (_ : unit) => v' = idle lost).
  - unfold sbi_ipi_init_hart. apply safe_neutral; [done| |].
    + intros s. apply neutral_on_hart. intros h. split_and!; [done..|]. exists []. by rewrite app_nil_r.
    + intros s g _ _ _. eapply safe_bind; [apply safe_raw_clear|]. intros v _ ->. by apply safe_csr.
  - intros v _ ->. apply safe_on_hart; [done..|]. intros s g h Hs _ Hg Hh. exists (g i). split.
    + assert (set_sync 0 h = h) as E.
      { pose proof (inv_sync _ _ _ Hs i h Hh) as E. rewrite Hg in E. cbn [vuncounted] in E.
        assert (total i s g = 0) as E0.
        { unfold total, sumZ. assert (forall b, owed i s g b = 0) as H0.
          { intros b. pose proof (inv_owed _ _ _ Hs i b) as H1. rewrite Hg in H1. cbn in H1. pose proof (owed_nonneg i s g b). lia. }
          induction (seqZ 0 128) as [|b l IH]; [done|]. cbn [foldr]. by rewrite IH, H0. }
        destruct h. unfold set_sync. cbn in *. f_equal. lia. }
      cbn [snd]. rewrite E. by apply inv_upd_same.
    + rewrite Hg. apply safe_on_hart; [done..|]. clear dependent s g. clear h. intros s g h Hs _ Hg Hh. eexists. split; [by apply inv_drop|].
      cbn [safe]. by eexists.
Qed.
End Programs.

(** ** The system *)

(** A hart runs supervisor code, is stopped, or runs the firmware. *)
Inductive control (D : Type) := Running | Stopped | In (p : prog (isys D) Hsm.exit Z).
Arguments Running {D}.
Arguments Stopped {D}.
Arguments In {D} p.

Record conf (D : Type) := Conf { mem : isys D; ctl : Z -> control D }.
Arguments Conf {D} _ _.
Arguments mem {D} _.
Arguments ctl {D} _.

Section System.
Context {D : Type} (HS : gset Z).
Context (ipi_dev : option (sbi_ipi_device D)).
Context (ipi_ops_array : list (option ops_id)) (tlb_num_entries : nat) (tlb_range_flush_limit : Z).
Context (ipi_smode_event ipi_halt_event tlb_event : Z).
Context (hartid_to_hartindex hartindex_to_hartid : Z -> Z) (thishart_dom : Z -> option sbi_domain).
Context (hsm_dev : option sbi_hsm_device).
(** The fence requests the supervisors make. *)
Context (allowed : Z -> sbi_tlb_info -> Prop).

Abbreviation St := (isys D).
Abbreviation conf := (conf D).
Abbreviation request := (sbi_tlb_request ipi_dev ipi_ops_array tlb_num_entries tlb_range_flush_limit tlb_event
                           hartid_to_hartindex hartindex_to_hartid thishart_dom hsm_dev).
Abbreviation send_many := (sbi_ipi_send_many ipi_dev ipi_ops_array tlb_num_entries hartid_to_hartindex hartindex_to_hartid
                             thishart_dom hsm_dev).

Definition set_ctl (i : Z) (x : control D) (c : conf) : conf := Conf c.(mem) (<[i := x]> c.(ctl)).

(** A step of the system: one step of a program; the end of a program; a call or
    an interrupt of a running hart; a stop and a restart; and anything the state
    of sbi_hsm.c and the interrupt hardware may do on their own. *)
Inductive step : conf -> conf -> Prop :=
| step_run i c p p' s' :
    i ∈ HS -> c.(ctl) i = In p -> pstep p c.(mem) = Some (p', s') -> step c (Conf s' (<[i := In p']> c.(ctl)))
| step_return i c rc : i ∈ HS -> c.(ctl) i = In (Ret rc) -> step c (set_ctl i Running c)
| step_exit i c e : i ∈ HS -> c.(ctl) i = In (Exit e) -> step c (set_ctl i Stopped c)
| step_request i c hmask hbase t :
    i ∈ HS -> c.(ctl) i = Running -> allowed i t -> in_range 64 hmask -> in_range 64 hbase ->
    step c (set_ctl i (In (request i hmask hbase t)) c)
| step_ipi i c hmask hbase event :
    i ∈ HS -> c.(ctl) i = Running -> event = ipi_smode_event \/ event = ipi_halt_event ->
    step c (set_ctl i (In (send_many i hmask hbase event None)) c)
| step_interrupt i c :
    i ∈ HS -> c.(ctl) i = Running ->
    step c (set_ctl i (In (call _ <- sbi_ipi_process ipi_dev ipi_ops_array tlb_num_entries hartindex_to_hartid
                                       thishart_dom hsm_dev i in Ret 0)) c)
| step_stop i c : i ∈ HS -> c.(ctl) i = Running -> step c (set_ctl i Stopped c)
| step_boot i c :
    i ∈ HS -> c.(ctl) i = Stopped ->
    step c (set_ctl i (In (call _ <- (call _ <- sbi_ipi_init_hart ipi_dev i in sbi_tlb_init_hart i) in Ret 0)) c)
| step_env c h d : step c (Conf (Isys h d c.(mem).(harts)) c.(ctl)).

(** After the boot: empty queues, counters at zero. *)
Definition initial (c : conf) : Prop :=
  (forall i, is_Some (c.(mem).(harts) !! i) <-> i ∈ HS) /\
  (forall i h, c.(mem).(harts) !! i = Some h -> h.(sync_count) = 0 /\ h.(tlb_fifo) = []) /\
  forall i, c.(ctl) i = Running \/ c.(ctl) i = Stopped.

(** Hart [a] is in a call, and hart [b] is up. *)
Definition during (a b : Z) (c : conf) : Prop :=
  interruptible c.(mem).(hsm) b = true /\ exists p, c.(ctl) a = In p.

Definition step_during (a b : Z) (c c' : conf) : Prop := during a b c /\ step c c' /\ during a b c'.

(** ** Schedules, for examples *)

Inductive act := Run (i : Z) | Return (i : Z) | Interrupt (i : Z).

Definition is_in (x : control D) : bool := match x with In _ => true | _ => false end.
Definition during_b (a b : Z) (c : conf) : bool := interruptible c.(mem).(hsm) b && is_in (c.(ctl) a).

Definition do_act (x : act) (c : conf) : option conf :=
  match x with
  | Run i => match c.(ctl) i with
             | In p => '(p', s') ← pstep p c.(mem); Some (Conf s' (<[i := In p']> c.(ctl)))
             | _ => None
             end
  | Return i => match c.(ctl) i with In (Ret _) => Some (set_ctl i Running c) | _ => None end
  | Interrupt i =>
      match c.(ctl) i with
      | Running => Some (set_ctl i (In (call _ <- sbi_ipi_process ipi_dev ipi_ops_array tlb_num_entries hartindex_to_hartid
                                                    thishart_dom hsm_dev i in Ret 0)) c)
      | _ => None
      end
  end.

Definition act_hart (x : act) : Z := match x with Run i => i | Return i => i | Interrupt i => i end.

Fixpoint schedule (a b : Z) (l : list act) (c : conf) : option conf :=
  match l with
  | [] => Some c
  | x :: l =>
      if during_b a b c && bool_decide (act_hart x ∈ HS) then
        c' ← do_act x c;
        if during_b a b c' then schedule a b l c' else None
      else None
  end.

Lemma during_b_true a b c : during_b a b c = true -> during a b c.
Proof using.
  unfold during_b, during. intros [H1 H2]%andb_true_iff. split; [done|]. destruct (ctl c a) as [| |p]; try done. by exists p.
Qed.

Lemma do_act_step x c c' : act_hart x ∈ HS -> do_act x c = Some c' -> step c c'.
Proof using.
  intros Hx E. destruct x as [i|i|i]; cbn [do_act act_hart] in *; destruct (ctl c i) as [| |p] eqn:Ec; try done.
  - destruct (pstep p (mem c)) as [[p' s']|] eqn:Ep; [|done]. simpl in E. simplify_eq. by eapply step_run.
  - destruct p; simplify_eq. by eapply step_return.
  - simplify_eq. by apply step_interrupt.
Qed.

Lemma schedule_steps a b l : forall c c', schedule a b l c = Some c' -> steps (step_during a b) c c'.
Proof using.
  induction l as [|x l IH]; intros c c' E; cbn [schedule] in E; [simplify_eq; constructor|].
  destruct (during_b a b c && _) eqn:E1; [|done]. apply andb_true_iff in E1 as [H1 H2%bool_decide_eq_true].
  destruct (do_act x c) as [c1|] eqn:Ex; [|done]. cbn [mbind option_bind] in E. destruct (during_b a b c1) eqn:E2; [|done].
  eapply steps_cons; [|by apply IH]. split; [by apply during_b_true|]. split; [by eapply do_act_step|by apply during_b_true].
Qed.
(** ** The invariant of the system *)

Context (HH : forall i, i ∈ HS -> 0 <= i < 128).
Context (Hid : forall a b, 0 <= a < 128 -> 0 <= b < 128 -> hartindex_to_hartid a = hartindex_to_hartid b -> a = b).
Context (Hindex : forall h, 0 <= hartid_to_hartindex h).
Context (Htlb : event_ops ipi_ops_array tlb_event = Some tlb_ops).
Context (Hsmode : event_ops ipi_ops_array ipi_smode_event <> Some tlb_ops).
Context (Hhalt : event_ops ipi_ops_array ipi_halt_event <> Some tlb_ops).
Context (Hdom : forall i d, thishart_dom i = Some d -> mask_wf d.(assigned_harts)).
Context (Hallowed : forall i t, allowed i t ->
  entry_ok (limited tlb_range_flush_limit t) /\ 0 <= t.(type) < SBI_TLB_TYPE_MAX /\
  forall j, hart_in j t.(smask) = bool_decide (j = i)).

Abbreviation sf := (safe (Inv HS) exit_ok).

(** A call that is over. *)
Definition finished (v : view) : Prop :=
  (exists lost, v = idle lost) \/ exists r m sv lost, v = View (Some (r, m)) sv false true None [] lost.

(** What is assumed of the states and shown of the result, for every hart. *)
Definition goals : Type := Z -> (St -> Prop) * (view -> Z -> Prop).
Definition any_goal : goals := fun _ => (fun _ => True, fun v _ => finished v).

Definition ctl_ok (sp : goals) (i : Z) (v : view) (x : control D) : Prop :=
  match x with
  | In p => sf (sp i).1 i (sp i).2 v p
  | _ => exists lost, v = idle lost
  end.

Definition sys_ok (sp : goals) (c : conf) : Prop :=
  exists g, Inv HS c.(mem) g /\ forall i, i ∈ HS -> ctl_ok sp i (g i) (c.(ctl) i).

(** A step that leaves the views of the other harts alone. *)
Lemma sys_ok_intro sp c i s' g g' x :
  Inv HS s' g' -> (forall j, j <> i -> g' j = g j) -> ctl_ok sp i (g' i) x ->
  (forall j, j ∈ HS -> ctl_ok sp j (g j) (c.(ctl) j)) -> sys_ok sp (Conf s' (<[i := x]> c.(ctl))).
Proof using.
  intros Hs Hg Hx Hc. exists g'. split; [done|]. intros j Hj. cbn [ctl]. destruct (decide (j = i)) as [->|Hne].
  - by rewrite fn_lookup_insert.
  - rewrite fn_lookup_insert_ne, Hg by done. by apply Hc.
Qed.

Lemma hart_in_limited t j : hart_in j (limited tlb_range_flush_limit t).(smask) = hart_in j t.(smask).
Proof using. unfold limited. by destruct (_ <? _). Qed.

(** The ghost view a request starts with. *)
Definition request_view (s : St) (t : sbi_tlb_info) (lost : Z -> bool) : view :=
  View (Some (limited tlb_range_flush_limit t, fun b => length (trace_of s b))) nobody false false None [] lost.

Lemma request_started c g i t lost :
  Inv HS c.(mem) g -> g i = idle lost -> allowed i t -> Inv HS c.(mem) (<[i := request_view c.(mem) t lost]> g).
Proof using Hallowed.
  intros Hs Hg Ha. destruct (Hallowed i t Ha) as (He & _ & Hm). apply inv_start; [done..|].
  intros a. by rewrite hart_in_limited.
Qed.

Lemma sys_step_ok sp c c' :
  (forall i, (sp i).1 c.(mem)) -> (forall i v rc, (sp i).2 v rc -> finished v) ->
  (forall i, (forall p, c.(ctl) i <> In p) -> sp i = any_goal i) ->
  sys_ok sp c -> step c c' -> sys_ok sp c'.
Proof using HH Hid Hindex Htlb Hsmode Hhalt Hdom Hallowed.
  intros Hasm Hfin Hfree (g & Hs & Hc) Hst. destruct Hst.
  - pose proof (Hc i H) as Hi. rewrite H0 in Hi. cbn [ctl_ok] in Hi.
    destruct (safe_step _ _ _ _ _ _ _ _ _ _ Hs (Hasm i) Hi H1) as (g' & Hg' & Hs' & Hp'). by eapply sys_ok_intro.
  - pose proof (Hc i H) as Hi. rewrite H0 in Hi. apply Hfin in Hi as [[lost Hi]|(r & m & sv & lost & Hi)].
    + by apply (sys_ok_intro sp c i c.(mem) g g); [..|exists lost|].
    + eapply sys_ok_intro; [by eapply inv_end|intros j Hj; by rewrite fn_lookup_insert_ne| |done].
      rewrite fn_lookup_insert. by exists lost.
  - pose proof (Hc i H) as Hi. rewrite H0 in Hi. destruct Hi as [lost Hi].
    by apply (sys_ok_intro sp c i c.(mem) g g); [..|exists lost|].
  - pose proof (Hc i H) as Hi. rewrite H0 in Hi. destruct Hi as [lost Hi].
    eapply sys_ok_intro; [by eapply request_started|intros j Hj; by rewrite fn_lookup_insert_ne| |done].
    rewrite fn_lookup_insert. unfold ctl_ok. rewrite Hfree by (intros p; by rewrite H0). cbn [any_goal fst snd].
    destruct (Hallowed i t H1) as (He & Hty & _).
    eapply safe_mono with (Asm := fun _ => True); [done| |apply (safe_tlb_request HS HH) with (P := fun _ => False) (T := fun _ => False); try done; apply Hdom].
    intros v rc (sv & -> & _). right. by eexists _, _, _, _.
  - pose proof (Hc i H) as Hi. rewrite H0 in Hi. destruct Hi as [lost Hi].
    apply (sys_ok_intro sp c i c.(mem) g g); [done..| |done]. rewrite Hi. unfold ctl_ok.
    rewrite Hfree by (intros p; by rewrite H0). cbn [any_goal fst snd].
    eapply safe_mono with (Asm := fun _ => True); [done| |apply (safe_send_many_other HS HH); [done|by destruct H1 as [-> | ->]]].
    intros v rc ->. left. by exists lost.
  - pose proof (Hc i H) as Hi. rewrite H0 in Hi. destruct Hi as [lost Hi].
    apply (sys_ok_intro sp c i c.(mem) g g); [done..| |done]. rewrite Hi. unfold ctl_ok.
    rewrite Hfree by (intros p; by rewrite H0). cbn [any_goal fst snd].
    eapply safe_bind; [by apply safe_ipi_process|]. intros v _ ->. left. by exists lost.
  - pose proof (Hc i H) as Hi. rewrite H0 in Hi. by apply (sys_ok_intro sp c i c.(mem) g g).
  - pose proof (Hc i H) as Hi. rewrite H0 in Hi. destruct Hi as [lost Hi].
    apply (sys_ok_intro sp c i c.(mem) g g); [done..| |done]. rewrite Hi. unfold ctl_ok.
    rewrite Hfree by (intros p; by rewrite H0). cbn [any_goal fst snd].
    eapply safe_bind; [by apply safe_boot|]. intros v _ [lost' ->]. left. by exists lost'.
  - exists g. split; [|done]. apply (inv_neutral HS HH c.(mem)); [done|]. by apply neutral_harts.
Qed.

Lemma initial_ok c : initial c -> sys_ok any_goal c.
Proof using.
  intros (Hd & Hh & Hc). exists (fun _ => idle nobody).
  assert (forall b, fifo_of c.(mem) b = []) as Hf.
  { intros b. unfold fifo_of. destruct (harts (mem c) !! b) as [h|] eqn:E; [|done]. by destruct (Hh b h E). }
  assert (forall a b, owed a c.(mem) (fun _ => idle nobody) b = 0) as Ho.
  { intros a b. unfold owed. by rewrite Hf. }
  split; [|intros i _; destruct (Hc i) as [-> | ->]; by exists nobody].
  constructor; try done.
  - intros b. by rewrite Hf.
  - constructor.
  - intros a h Ha. destruct (Hh a h Ha) as [-> _]. unfold total, sumZ.
    enough (foldr (fun b acc => owed a (mem c) (fun _ => idle nobody) b + acc) 0 (seqZ 0 128) = 0) as -> by done.
    induction (seqZ 0 128) as [|b l IH]; [done|]. cbn [foldr]. by rewrite IH, Ho.
  - intros a b. by rewrite Ho.
Qed.

Lemma reachable_ok ci c : initial ci -> steps step ci c -> sys_ok any_goal c.
Proof using HH Hid Hindex Htlb Hsmode Hhalt Hdom Hallowed.
  intros Hi Hst. eapply steps_invariant; [|by apply initial_ok|exact Hst].
  intros s t Hs Ht. by eapply sys_step_ok.
Qed.

Lemma asked_limited t c : asked t c -> asked (limited tlb_range_flush_limit t) c.
Proof using.
  unfold limited. destruct (_ <? _); [|done]. assert (forall x, in_request (TlbInfo 0 SBI_TLB_FLUSH_ALL (asid t) (vmid t) (type t) (smask t)) x)
    by (intros x; by left). destruct c as [|a x|n x|n a x]; cbn [asked type asid vmid]; [done|..]; intros; destruct_and?; by split_and?.
Qed.

(** C1: the RFENCE extension keeps its promise for requests that are page aligned
    and do not reach the top of the address space.
    Conditions on the requests, of all harts ([Hallowed], that is [entry_ok] after
    the limit on ranges): the request is for everything, or it starts at a page and
    ends at or below the last page of the address space; a supervisor fence is not
    the pair (0, 0); the VMID has fourteen bits; the type is one of the known ones
    and the source is the hart itself.  Without them fences can be left out: see
    [flush_all_request_skipped] and [last_page_request_skipped].
    Then, whatever the other harts do at the same time (their own fence requests
    merged into the same queues, full queues and retries, other interrupts, stops
    and restarts): if a hart [a] makes a fence request and the call is about to
    return without error, every hart [b] that the call selects, that is assigned to
    the domain of the caller and that stayed up during the call has executed, since
    the call began, fences that invalidate everything the request asks for. *)
Theorem rfence_call_complete ci c0 c1 a b hmask hbase t :
  initial ci -> steps step ci c0 ->
  a ∈ HS -> c0.(ctl) a = Running -> allowed a t -> in_range 64 hmask -> in_range 64 hbase ->
  steps (step_during a b) (set_ctl a (In (request a hmask hbase t)) c0) c1 ->
  c1.(ctl) a = In (Ret 0) ->
  b ∈ HS ->
  sbi_domain_is_assigned_hart (thishart_dom a) b = true -> selected hartid_to_hartindex hmask hbase b ->
  covers (drop (length (trace_of c0.(mem) b)) (trace_of c1.(mem) b)) t.
Proof using HH Hid Hindex Htlb Hsmode Hhalt Hdom Hallowed.
  intros Hi Hst Ha Hrun Hal Hhm Hhb Hpath Hret Hb Hass Hsel.
  destruct (reachable_ok ci c0 Hi Hst) as (g & Hs & Hc). pose proof (Hc a Ha) as Hca. rewrite Hrun in Hca. destruct Hca as [lost Hg].
  destruct (Hallowed a t Hal) as (He & Hty & _).
  set (T := fun x => x = b). set (m := fun x => length (trace_of (mem c0) x)).
  set (goal := (fun s : St => interruptible s.(hsm) b = true, fenced (limited tlb_range_flush_limit t) m lost T)).
  set (sp := (fun j => if decide (j = a) then goal else any_goal j) : goals).
  assert (sp a = goal) as Ea by (by unfold sp; rewrite decide_True).
  assert (forall j, j <> a -> sp j = any_goal j) as Eo by (intros j Hj; unfold sp; by rewrite decide_False).
  clearbody sp.
  assert (sys_ok sp (set_ctl a (In (request a hmask hbase t)) c0)) as Hok0.
  { exists (<[a := request_view (mem c0) t lost]> g). split; [exact (request_started c0 g a t lost Hs Hg Hal)|].
    intros j Hj. unfold set_ctl. cbn [ctl]. destruct (decide (j = a)) as [->|Hne].
    - rewrite !fn_lookup_insert. unfold ctl_ok. rewrite Ea. cbn [fst snd goal].
      apply (safe_tlb_request HS HH) with (P := T); try done.
      + by intros s Hs' x ->.
      + intros x ->. by apply HH.
      + apply Hdom.
      + by intros x ->.
    - rewrite !fn_lookup_insert_ne by done. unfold ctl_ok. rewrite Eo by done. by apply Hc. }
  assert (sys_ok sp c1) as (g1 & Hs1 & Hc1).
  { clear Hret. induction Hpath as [|c c' c'' Hp IH (Hd1 & Hst1 & Hd2)]; [done|]. eapply sys_step_ok; [| | |by apply IH|exact Hst1].
    - intros j. destruct (decide (j = a)) as [->|]; [rewrite Ea; apply Hd1|by rewrite Eo].
    - intros j v rc. destruct (decide (j = a)) as [->|]; [rewrite Ea|by rewrite Eo].
      intros (sv & -> & _). right. by eexists _, _, _, _.
    - intros j Hj. destruct (decide (j = a)) as [->|]; [|by apply Eo].
      destruct Hd1 as [_ [p Hp1]]. by destruct (Hj p). }
  specialize (Hc1 a Ha). rewrite Hret in Hc1. unfold ctl_ok in Hc1. rewrite Ea in Hc1. cbn [fst snd safe goal] in Hc1.
  destruct Hc1 as (sv & Hg1 & Hsv). specialize (Hsv eq_refl b eq_refl).
  destruct (inv_served _ _ _ Hs1 a (limited tlb_range_flush_limit t) m b) as [_ Hdone]; [by rewrite Hg1|by rewrite Hg1|].
  destruct Hdone as [[Hfin _]|Hdone]; [by rewrite Hg1 in Hfin|].
  eapply covers_wider; [apply asked_limited|]. exact Hdone.
Qed.

End System.

(** ** Witness

    Two harts: hart 0 asks both to flush two pages, hart 1 is interrupted and
    serves its queue. *)

Definition rf_dom (_ : Z) : option sbi_domain := Some (Dom [3; 0] None None 0 0 0 true).
Definition rf_dev : option (sbi_ipi_device unit) := Some (IpiDevice unit (Some (fun _ d => d)) None).
Definition rf_ops : list (option ops_id) := [Some ipi_smode_ops; Some ipi_halt_ops; Some tlb_ops].
Definition rf_info : sbi_tlb_info := TlbInfo 0x3000 0x2000 0 0 SBI_TLB_SFENCE_VMA [1; 0].
Definition rf_allowed (i : Z) (t : sbi_tlb_info) : Prop := i = 0 /\ t = rf_info.
Definition rf_hart : ipi_hart := IpiHart 0 0 [] 0 [].
Definition rf_conf : conf unit :=
  Conf (Isys (<[0 := demo_hart SBI_HSM_STATE_STARTED]> {[1 := demo_hart SBI_HSM_STATE_STARTED]}) tt
          (<[0 := rf_hart]> {[1 := rf_hart]}))
       (fun _ => Running).
Definition rf_HS : gset Z := {[0; 1]}.
Definition rf_step := step rf_HS rf_dev rf_ops 2 0x10000 0 1 2 Z.abs id rf_dom None rf_allowed.
Definition rf_called : conf unit :=
  set_ctl 0 (In (sbi_tlb_request rf_dev rf_ops 2 0x10000 2 Z.abs id rf_dom None 0 3 0 rf_info)) rf_conf.
Definition rf_schedule (l : list act) : option (conf unit) :=
  schedule rf_HS rf_dev rf_ops 2 id rf_dom None 0 1 l rf_called.

Definition rf_returned (c : option (conf unit)) : bool :=
  match c with Some c => match c.(ctl) 0 with In (Ret rc) => rc =? 0 | _ => false end | None => false end.

Definition rf_sched : list act := replicate 24 (Run 0) ++ [Interrupt 1] ++ replicate 9 (Run 1) ++ replicate 3 (Run 0).

Lemma rf_initial : initial rf_HS rf_conf.
Proof.
  unfold initial, rf_conf, rf_HS. cbn [mem ctl harts]. split; [|split; [|auto]].
  - intros i. rewrite lookup_insert_is_Some', lookup_singleton_is_Some. set_solver.
  - intros i h. rewrite lookup_insert, lookup_singleton. repeat case_decide; intros; by simplify_eq.
Qed.

Lemma rf_allowed_ok i t : rf_allowed i t ->
  entry_ok (limited 0x10000 t) /\ 0 <= t.(type) < SBI_TLB_TYPE_MAX /\ forall j, hart_in j t.(smask) = bool_decide (j = i).
Proof.
  intros [-> ->]. assert (mask_wf [1; 0]) as Hm.
  { split; [done|]. apply Forall_cons. split; [|apply Forall_singleton]; unfold in_range; lia. }
  change (limited 0x10000 rf_info) with rf_info. split_and!.
  - split; [constructor; cbn [start size vmid rf_info]; rewrite ?PAGE_SIZE_eq; try lia; by exists 3|].
    split; [|intros _ [? _]; done]. split_and!; try done; unfold in_range; cbn [start size asid vmid type rf_info]; unfold SBI_TLB_SFENCE_VMA; lia.
  - done.
  - done.
  - intros j. destruct (decide (0 <= j < 128)) as [Hj|Hj].
    + assert (forallb (fun j => eqb (hart_in j [1; 0]) (bool_decide (j = 0))) (seqZ 0 128) = true) as Hall by (vm_compute; reflexivity).
      rewrite forallb_forall in Hall. specialize (Hall j ltac:(apply list_elem_of_In, elem_of_seqZ; lia)). by apply eqb_prop in Hall.
    + rewrite bool_decide_eq_false_2 by lia. destruct (hart_in j (smask rf_info)) eqn:E; [|done]. by apply hart_in_range in E.
Qed.

Lemma rfence_call_complete_witness :
  exists c1, rf_schedule rf_sched = Some c1 /\ covers (drop (length (trace_of rf_conf.(mem) 1)) (trace_of c1.(mem) 1)) rf_info.
Proof.
  assert (rf_returned (rf_schedule rf_sched) = true) as Hr by (vm_compute; reflexivity).
  destruct (rf_schedule rf_sched) as [c1|] eqn:E; [|discriminate Hr]. exists c1. split; [reflexivity|].
  cbn [rf_returned] in Hr. destruct (ctl c1 0) as [| |p] eqn:Ec; [discriminate Hr..|].
  destruct p as [rc| | | |]; try discriminate Hr. apply Z.eqb_eq in Hr. subst rc.
  apply (rfence_call_complete rf_HS rf_dev rf_ops 2 0x10000 0 1 2 Z.abs id rf_dom None rf_allowed) with
    (ci := rf_conf) (c0 := rf_conf) (c1 := c1) (a := 0) (b := 1) (hmask := 3) (hbase := 0) (t := rf_info).
  - intros i Hi. unfold rf_HS in Hi. apply elem_of_union in Hi as [->%elem_of_singleton| ->%elem_of_singleton]; lia.
  - auto.
  - intros h. lia.
  - reflexivity.
  - discriminate.
  - discriminate.
  - intros i d [= <-]. split; [reflexivity|]. apply Forall_cons. split; [|apply Forall_singleton]; unfold in_range; lia.
  - exact rf_allowed_ok.
  - exact rf_initial.
  - constructor.
  - apply (bool_decide_unpack _). vm_compute. exact I.
  - reflexivity.
  - split; reflexivity.
  - unfold in_range. lia.
  - unfold in_range. lia.
  - apply schedule_steps with (l := rf_sched). exact E.
  - exact Ec.
  - apply (bool_decide_unpack _). vm_compute. exact I.
  - reflexivity.
  - right. exists 1. repeat split; lia.
Defined.
