(* ===== verification/Sse.v ===== *)
(** * Supervisor software events of OpenSBI (lib/sbi/sbi_sse.c, sbi_sse.h and
    sbi_ecall_sse.c), 64-bit.

    A supervisor registers handlers for events; the firmware injects a pending
    event by redirecting the trap it returns from, and takes the hart back to what
    it interrupted when the handler completes.  Local events belong to a hart, global
    ones to the hart they prefer; the events enabled on a hart are in a list in the
    order of their priority.

    The model has the state of all harts.  A pointer to an event is an [eref].  An
    operation is one atomic step: it works on the local events of its own hart, on
    a global event under the lock of the event, and on the list of a hart under the
    lock of the list.  The intrusive list is the sequence it represents ([Dlist]),
    the FIFO of injected events the queue it represents ([Fifo]).  [None] is a
    dereference of a null pointer, or an address check that does not end.  The
    callbacks of an event work on an abstract state [X]. *)

From stdpp Require Import sorting.
From S2P Require Import Prelude SbiTypes Bitops Hartmask Domain Hsm.

Local Open Scope Z_scope.

(** ** Constants *)

Definition SBI_EXT_SSE_READ_ATTR : Z := 0.
Definition SBI_EXT_SSE_WRITE_ATTR : Z := 1.
Definition SBI_EXT_SSE_REGISTER : Z := 2.
Definition SBI_EXT_SSE_UNREGISTER : Z := 3.
Definition SBI_EXT_SSE_ENABLE : Z := 4.
Definition SBI_EXT_SSE_DISABLE : Z := 5.
Definition SBI_EXT_SSE_COMPLETE : Z := 6.
Definition SBI_EXT_SSE_INJECT : Z := 7.
Definition SBI_EXT_SSE_HART_UNMASK : Z := 8.
Definition SBI_EXT_SSE_HART_MASK : Z := 9.

Definition SBI_SSE_ATTR_STATUS : Z := 0.
Definition SBI_SSE_ATTR_PRIO : Z := 1.
Definition SBI_SSE_ATTR_CONFIG : Z := 2.
Definition SBI_SSE_ATTR_PREFERRED_HART : Z := 3.
Definition SBI_SSE_ATTR_INTERRUPTED_SEPC : Z := 6.
Definition SBI_SSE_ATTR_INTERRUPTED_FLAGS : Z := 7.
Definition SBI_SSE_ATTR_INTERRUPTED_A6 : Z := 8.
Definition SBI_SSE_ATTR_INTERRUPTED_A7 : Z := 9.
Definition SBI_SSE_ATTR_MAX : Z := 10.

Definition SBI_SSE_ATTR_STATUS_STATE_MASK : Z := 0x3.
Definition SBI_SSE_ATTR_STATUS_PENDING_OFFSET : Z := 2.
Definition SBI_SSE_ATTR_STATUS_INJECT_OFFSET : Z := 3.
Definition SBI_SSE_ATTR_CONFIG_ONESHOT : Z := 1.

Definition FLAGS_STATUS_SPP : Z := Z.shiftl 1 0.
Definition FLAGS_STATUS_SPIE : Z := Z.shiftl 1 1.
Definition FLAGS_HSTATUS_SPV : Z := Z.shiftl 1 2.
Definition FLAGS_HSTATUS_SPVP : Z := Z.shiftl 1 3.

Definition SBI_SSE_STATE_UNUSED : Z := 0.
Definition SBI_SSE_STATE_REGISTERED : Z := 1.
Definition SBI_SSE_STATE_ENABLED : Z := 2.
Definition SBI_SSE_STATE_RUNNING : Z := 3.

Definition SBI_SSE_EVENT_LOCAL_RAS : Z := 0x00000000.
Definition SBI_SSE_EVENT_LOCAL_DOUBLE_TRAP : Z := 0x00000001.
Definition SBI_SSE_EVENT_GLOBAL_RAS : Z := 0x00008000.
Definition SBI_SSE_EVENT_LOCAL_PMU : Z := 0x00010000.
Definition SBI_SSE_EVENT_LOCAL_SOFTWARE : Z := 0xffff0000.
Definition SBI_SSE_EVENT_GLOBAL_SOFTWARE : Z := 0xffff8000.
Definition SBI_SSE_EVENT_GLOBAL_BIT : Z := Z.shiftl 1 15.

Definition MSTATUS_SIE : Z := 0x2.
Definition MSTATUS_SPIE : Z := Z.shiftl 1 5.
Definition MSTATUS_SPP : Z := Z.shiftl 1 8.
Definition MSTATUS_MPP_SHIFT : Z := 11.
Definition MSTATUS_MPP : Z := Z.shiftl 3 MSTATUS_MPP_SHIFT.
Definition MSTATUS_MPV : Z := 0x8000000000.
Definition HSTATUS_SPV : Z := 0x80.
Definition HSTATUS_SPVP : Z := 0x100.

(** [x & m] as a condition, and [x &= ~m]. *)
Definition has (x m : Z) : bool := negb (Z.land x m =? 0).
Definition clear (x m : Z) : Z := Z.land x (not64 m).

(** ** Data *)

(** [struct sbi_sse_cb_ops]: the callbacks, which work on the state [X]. *)
Record sbi_sse_cb_ops (X : Type) := CbOps {
  set_hartid_cb : option (Z -> Z -> X -> X);
  complete_cb : option (Z -> X -> X);
  register_cb : option (Z -> X -> X);
  unregister_cb : option (Z -> X -> X);
  enable_cb : option (Z -> X -> X);
  disable_cb : option (Z -> X -> X);
}.
Arguments CbOps {X} _ _ _ _ _ _.
Arguments set_hartid_cb {X} _.
Arguments complete_cb {X} _.
Arguments register_cb {X} _.
Arguments unregister_cb {X} _.
Arguments enable_cb {X} _.
Arguments disable_cb {X} _.

Record sse_event_info (X : Type) := EventInfo { info_event_id : Z; cb_ops : option (sbi_sse_cb_ops X) }.
Arguments EventInfo {X} _ _.
Arguments info_event_id {X} _.
Arguments cb_ops {X} _.

(** [struct sbi_sse_event_attrs] *)
Record sbi_sse_event_attrs := Attrs {
  status : Z; prio : Z; config : Z; hartid : Z; entry_pc : Z; entry_arg : Z;
  i_sepc : Z; i_flags : Z; i_a6 : Z; i_a7 : Z;
}.

Record sbi_sse_event (X : Type) := Event {
  attrs : sbi_sse_event_attrs; event_id : Z; hartindex : Z; info : sse_event_info X;
}.
Arguments Event {X} _ _ _ _.
Arguments attrs {X} _.
Arguments event_id {X} _.
Arguments hartindex {X} _.
Arguments info {X} _.

(** A pointer to an event. *)
Inductive eref := LocalEvent (h : Z) (i : nat) | GlobalEvent (i : nat).
#[export] Instance eref_eq_dec : EqDecision eref.
Proof. solve_decision. Defined.

(** [struct sse_hart_state], with the FIFO of injected events of the hart and its
    pending bit of the SSE interrupt. *)
Record sse_hart_state (X : Type) := HartState {
  enabled_event_list : list eref; local_events : list (sbi_sse_event X); masked : bool;
  inject_fifo : list Z; inject_ipi : bool;
}.
Arguments HartState {X} _ _ _ _ _.
Arguments enabled_event_list {X} _.
Arguments local_events {X} _.
Arguments masked {X} _.
Arguments inject_fifo {X} _.
Arguments inject_ipi {X} _.

(** The variables of sbi_sse.c, the state behind the callbacks and the memory of the
    supervisor, by long word.  A hart without scratch space or state (a null pointer)
    is absent: every hart that was given a scratch space has run [sbi_sse_init]. *)
Record sse_sys (X : Type) := Sse {
  harts : gmap Z (sse_hart_state X); global_events : list (sbi_sse_event X);
  supported_events : list (sse_event_info X); local_event_count : nat; global_event_count : nat;
  ext : X; mem : Z -> Z;
}.
Arguments Sse {X} _ _ _ _ _ _ _.
Arguments harts {X} _.
Arguments global_events {X} _.
Arguments supported_events {X} _.
Arguments local_event_count {X} _.
Arguments global_event_count {X} _.
Arguments ext {X} _.
Arguments mem {X} _.

(** The registers of a trap that are used, and the CSRs. *)
Record cpu := Cpu {
  mepc : Z; mstatus : Z; a0 : Z; a1 : Z; a2 : Z; a3 : Z; a4 : Z; a6 : Z; a7 : Z; sepc : Z; hstatus : Z;
}.

(** What an operation finds around it: the domain of a hart, the states of the harts
    ([Hsm]), and [sbi_ipi_send_many] to one hart with the SSE event ([Ipi]): its
    result and the hart indices whose pending bit it sets. *)
Record sse_env := Env {
  thishart_dom : Z -> option sbi_domain;
  hsm_sys : Hsm.sys;
  ipi_send_one : Z -> Z * list Z;
}.

(** ** Attributes of an event *)

Definition on_attrs {X} (f : sbi_sse_event_attrs -> sbi_sse_event_attrs) (e : sbi_sse_event X) : sbi_sse_event X :=
  Event (f e.(attrs)) e.(event_id) e.(hartindex) e.(info).

Definition set_status (v : Z) (a : sbi_sse_event_attrs) : sbi_sse_event_attrs :=
  Attrs v a.(prio) a.(config) a.(hartid) a.(entry_pc) a.(entry_arg) a.(i_sepc) a.(i_flags) a.(i_a6) a.(i_a7).
Definition set_entry_point (pc arg : Z) (a : sbi_sse_event_attrs) : sbi_sse_event_attrs :=
  Attrs a.(status) a.(prio) a.(config) a.(hartid) pc arg a.(i_sepc) a.(i_flags) a.(i_a6) a.(i_a7).
Definition set_interrupted (sepc flags a6 a7 : Z) (a : sbi_sse_event_attrs) : sbi_sse_event_attrs :=
  Attrs a.(status) a.(prio) a.(config) a.(hartid) a.(entry_pc) a.(entry_arg) sepc flags a6 a7.

(** The attributes as an array of longs. *)
Definition attr_longs (a : sbi_sse_event_attrs) : list Z :=
  [a.(status); a.(prio); a.(config); a.(hartid); a.(entry_pc); a.(entry_arg);
   a.(i_sepc); a.(i_flags); a.(i_a6); a.(i_a7)].

Definition sse_event_state {X} (e : sbi_sse_event X) : Z := Z.land e.(attrs).(status) SBI_SSE_ATTR_STATUS_STATE_MASK.
Definition sse_event_pending {X} (e : sbi_sse_event X) : bool :=
  has e.(attrs).(status) (Z.shiftl 1 SBI_SSE_ATTR_STATUS_PENDING_OFFSET).
Definition EVENT_IS_GLOBAL (id : Z) : bool := has id SBI_SSE_EVENT_GLOBAL_BIT.
Definition sse_event_is_global {X} (e : sbi_sse_event X) : bool := EVENT_IS_GLOBAL e.(event_id).

Definition sse_event_set_state {X} (new_state : Z) (e : sbi_sse_event X) : sbi_sse_event X :=
  on_attrs (fun a => set_status (Z.lor (clear a.(status) SBI_SSE_ATTR_STATUS_STATE_MASK) new_state) a) e.

Definition standard_events : list Z :=
  [SBI_SSE_EVENT_LOCAL_RAS; SBI_SSE_EVENT_LOCAL_DOUBLE_TRAP; SBI_SSE_EVENT_GLOBAL_RAS; SBI_SSE_EVENT_LOCAL_PMU;
   SBI_SSE_EVENT_LOCAL_SOFTWARE; SBI_SSE_EVENT_GLOBAL_SOFTWARE].

Definition sse_is_standard_event (id : Z) : bool := existsb (Z.eqb id) standard_events.

(** ** Injection into a hart and return from it *)

Section Cpu.
(** Whether the hypervisor extension is there. *)
Context (misa_H : bool).

Definition sse_interrupted_flags (mstatus hstatus : Z) : Z :=
  let flags := if has mstatus MSTATUS_SPIE then Z.lor 0 FLAGS_STATUS_SPIE else 0 in
  let flags := if has mstatus MSTATUS_SPP then Z.lor flags FLAGS_STATUS_SPP else flags in
  if misa_H then
    let flags := if has hstatus HSTATUS_SPV then Z.lor flags FLAGS_HSTATUS_SPV else flags in
    if has hstatus HSTATUS_SPVP then Z.lor flags FLAGS_HSTATUS_SPVP else flags
  else flags.

(** [current_hartid] is the id of the hart. *)
Definition sse_event_inject {X} (current_hartid : Z) (e : sbi_sse_event X) (c : cpu) : sbi_sse_event X * cpu :=
  let e := sse_event_set_state SBI_SSE_STATE_RUNNING e in
  let e := on_attrs (set_status (not64 (Z.shiftl 1 SBI_SSE_ATTR_STATUS_PENDING_OFFSET))) e in
  let e := on_attrs (set_interrupted c.(sepc) (sse_interrupted_flags c.(mstatus) c.(hstatus)) c.(a6) c.(a7)) e in
  let m := clear c.(mstatus) (Z.lor MSTATUS_SPP MSTATUS_SPIE) in
  let m := if has m MSTATUS_MPP then Z.lor m MSTATUS_SPP else m in
  let m := if has m MSTATUS_SIE then Z.lor m MSTATUS_SPIE else m in
  let hs :=
    if misa_H then
      let hs := c.(hstatus) in
      let hs := if has m MSTATUS_MPV then Z.lor hs HSTATUS_SPV else hs in
      let hs := clear hs HSTATUS_SPVP in
      if has hs HSTATUS_SPV && has m MSTATUS_SPP then Z.lor hs HSTATUS_SPVP else hs
    else c.(hstatus) in
  let new_sepc := c.(mepc) in
  let m := clear m (Z.lor MSTATUS_MPP MSTATUS_SIE) in
  let m := Z.lor m (Z.shiftl PRV_S MSTATUS_MPP_SHIFT) in
  let m := clear m MSTATUS_MPV in
  (e, Cpu e.(attrs).(entry_pc) m c.(a0) c.(a1) c.(a2) c.(a3) c.(a4) current_hartid e.(attrs).(entry_arg) new_sepc hs).

Definition sse_event_resume {X} (e : sbi_sse_event X) (c : cpu) : cpu :=
  let flags := e.(attrs).(i_flags) in
  let new_mepc := c.(sepc) in
  let m := clear c.(mstatus) MSTATUS_MPP in
  let m := if has m MSTATUS_SPP then Z.lor m (Z.shiftl PRV_S MSTATUS_MPP_SHIFT) else m in
  let '(m, hs) :=
    if misa_H then
      let hs := c.(hstatus) in
      let m := clear m MSTATUS_MPV in
      let m := if has hs HSTATUS_SPV then Z.lor m MSTATUS_MPV else m in
      let hs := clear hs (Z.lor HSTATUS_SPV HSTATUS_SPVP) in
      let hs := if has flags FLAGS_HSTATUS_SPV then Z.lor hs HSTATUS_SPV else hs in
      let hs := if has flags FLAGS_HSTATUS_SPVP then Z.lor hs HSTATUS_SPVP else hs in
      (m, hs)
    else (m, c.(hstatus)) in
  let m := clear m MSTATUS_SIE in
  let m := if has m MSTATUS_SPIE then Z.lor m MSTATUS_SIE else m in
  let m := clear m MSTATUS_SPIE in
  let m := if has flags FLAGS_STATUS_SPIE then Z.lor m MSTATUS_SPIE else m in
  let m := clear m MSTATUS_SPP in
  let m := if has flags FLAGS_STATUS_SPP then Z.lor m MSTATUS_SPP else m in
  Cpu new_mepc m c.(a0) c.(a1) c.(a2) c.(a3) c.(a4) e.(attrs).(i_a6) e.(attrs).(i_a7) e.(attrs).(i_sepc) hs.
End Cpu.

(** ** Operations *)

Section Sse.
Context {X : Type}.
Context (misa_H : bool) (hartid_to_hartindex hartindex_to_hartid : Z -> Z) (shl64 : Z).
Abbreviation sys := (sse_sys X).
Abbreviation event := (sbi_sse_event X).

(** Loads and stores. *)
Definition on_hart (h : Z) (f : sse_hart_state X -> sse_hart_state X) (s : sys) : sys :=
  Sse (alter f h s.(harts)) s.(global_events) s.(supported_events) s.(local_event_count) s.(global_event_count) s.(ext) s.(mem).
Definition set_list (l : list eref) (hs : sse_hart_state X) : sse_hart_state X :=
  HartState l hs.(local_events) hs.(masked) hs.(inject_fifo) hs.(inject_ipi).
Definition set_locals (l : list event) (hs : sse_hart_state X) : sse_hart_state X :=
  HartState hs.(enabled_event_list) l hs.(masked) hs.(inject_fifo) hs.(inject_ipi).
Definition set_masked (b : bool) (hs : sse_hart_state X) : sse_hart_state X :=
  HartState hs.(enabled_event_list) hs.(local_events) b hs.(inject_fifo) hs.(inject_ipi).
Definition set_fifo (q : list Z) (hs : sse_hart_state X) : sse_hart_state X :=
  HartState hs.(enabled_event_list) hs.(local_events) hs.(masked) q hs.(inject_ipi).
Definition set_ipi (b : bool) (hs : sse_hart_state X) : sse_hart_state X :=
  HartState hs.(enabled_event_list) hs.(local_events) hs.(masked) hs.(inject_fifo) b.
Definition set_ext (x : X) (s : sys) : sys :=
  Sse s.(harts) s.(global_events) s.(supported_events) s.(local_event_count) s.(global_event_count) x s.(mem).
Definition set_mem (m : Z -> Z) (s : sys) : sys :=
  Sse s.(harts) s.(global_events) s.(supported_events) s.(local_event_count) s.(global_event_count) s.(ext) m.
Definition set_globals (l : list event) (s : sys) : sys :=
  Sse s.(harts) l s.(supported_events) s.(local_event_count) s.(global_event_count) s.(ext) s.(mem).

Definition get_event (s : sys) (r : eref) : option event :=
  match r with
  | GlobalEvent i => s.(global_events) !! i
  | LocalEvent h i => hs ← s.(harts) !! h; hs.(local_events) !! i
  end.
Definition upd_event (r : eref) (f : event -> event) (s : sys) : sys :=
  match r with
  | GlobalEvent i => set_globals (alter f i s.(global_events)) s
  | LocalEvent h i => on_hart h (fun hs => set_locals (alter f i hs.(local_events)) hs) s
  end.

(** [sse_event_invoke_cb], for the callback [cb] selects. *)
Definition sse_event_invoke_cb (cb : sbi_sse_cb_ops X -> option (Z -> X -> X)) (e : event) (s : sys) : sys :=
  match e.(info).(cb_ops) with
  | Some ops => match cb ops with Some f => set_ext (f e.(event_id) s.(ext)) s | None => s end
  | None => s
  end.

Definition sse_event_info_get (id : Z) (s : sys) : option (sse_event_info X) :=
  snd <$> list_find (fun i => i.(info_event_id) = id) s.(supported_events).

(** The event with an id, or an error. *)
Definition sse_event_get (me id : Z) (s : sys) : option (Z * option eref) :=
  let missing := if sse_is_standard_event id then SBI_ENOTSUPP else SBI_EINVAL in
  if EVENT_IS_GLOBAL id then
    match list_find (fun e => e.(event_id) = id) s.(global_events) with
    | Some (i, _) => Some (SBI_OK, Some (GlobalEvent i))
    | None => Some (missing, None)
    end
  else
    hs ← s.(harts) !! me;
    match list_find (fun e => e.(event_id) = id) hs.(local_events) with
    | Some (i, _) => Some (SBI_OK, Some (LocalEvent me i))
    | None => Some (missing, None)
    end.

(** [sbi_list_del] unlinks the node from the list it is in. *)
Definition sse_event_remove_from_list (r : eref) (s : sys) : sys :=
  Sse ((fun hs => set_list (filter (fun r' => r' <> r) hs.(enabled_event_list)) hs) <$> s.(harts))
    s.(global_events) s.(supported_events) s.(local_event_count) s.(global_event_count) s.(ext) s.(mem).

(** The place of an event in a list. *)
Definition event_before (e tmp : event) : bool :=
  (e.(attrs).(prio) <? tmp.(attrs).(prio)) ||
  ((e.(attrs).(prio) =? tmp.(attrs).(prio)) && (e.(event_id) <? tmp.(event_id))).

Fixpoint insert_event (s : sys) (e : event) (r : eref) (l : list eref) : option (list eref) :=
  match l with
  | [] => Some [r]
  | t :: l' =>
      tmp ← get_event s t;
      if event_before e tmp then Some (r :: l) else cons t <$> insert_event s e r l'
  end.

Definition sse_event_add_to_list (r : eref) (s : sys) : option sys :=
  e ← get_event s r;
  hs ← s.(harts) !! e.(hartindex);
  l ← insert_event s e r hs.(enabled_event_list);
  Some (on_hart e.(hartindex) (set_list l) s).

Definition sse_event_disable (r : eref) (s : sys) : option (Z * sys) :=
  e ← get_event s r;
  if negb (sse_event_state e =? SBI_SSE_STATE_ENABLED) then Some (SBI_EINVALID_STATE, s)
  else
    let s := sse_event_invoke_cb disable_cb e s in
    let s := sse_event_remove_from_list r s in
    let s := upd_event r (sse_event_set_state SBI_SSE_STATE_REGISTERED) s in
    Some (SBI_OK, s).

(** The harts whose pending bit is set by [sbi_ipi_send_many]. *)
Definition raise_ipi (l : list Z) (s : sys) : sys := foldr (fun h => on_hart h (set_ipi true)) s l.

Definition sse_event_enable (env : sse_env) (r : eref) (s : sys) : option (Z * sys) :=
  e ← get_event s r;
  if negb (sse_event_state e =? SBI_SSE_STATE_REGISTERED) then Some (SBI_EINVALID_STATE, s)
  else
    let s := upd_event r (sse_event_set_state SBI_SSE_STATE_ENABLED) s in
    s ← sse_event_add_to_list r s;
    let s := sse_event_invoke_cb enable_cb e s in
    let s := if sse_event_is_global e && sse_event_pending e
             then raise_ipi (env.(ipi_send_one) e.(attrs).(hartid)).2 s else s in
    Some (SBI_OK, s).

Definition sse_event_register (r : eref) (handler_entry_pc handler_entry_arg : Z) (s : sys) : option (Z * sys) :=
  e ← get_event s r;
  if negb (sse_event_state e =? SBI_SSE_STATE_UNUSED) then Some (SBI_EINVALID_STATE, s)
  else
    let s := upd_event r (on_attrs (set_entry_point handler_entry_pc handler_entry_arg)) s in
    let s := upd_event r (sse_event_set_state SBI_SSE_STATE_REGISTERED) s in
    Some (SBI_OK, sse_event_invoke_cb register_cb e s).

Definition sse_event_unregister (r : eref) (s : sys) : option (Z * sys) :=
  e ← get_event s r;
  if negb (sse_event_state e =? SBI_SSE_STATE_REGISTERED) then Some (SBI_EINVALID_STATE, s)
  else
    let s := sse_event_invoke_cb unregister_cb e s in
    Some (SBI_OK, upd_event r (sse_event_set_state SBI_SSE_STATE_UNUSED) s).

Definition sse_event_set_pending (r : eref) (s : sys) : option (Z * sys) :=
  e ← get_event s r;
  if negb (sse_event_state e =? SBI_SSE_STATE_RUNNING) && negb (sse_event_state e =? SBI_SSE_STATE_ENABLED)
  then Some (SBI_EINVALID_STATE, s)
  else Some (SBI_OK, upd_event r (on_attrs (fun a => set_status (Z.lor a.(status) (Z.shiftl 1 SBI_SSE_ATTR_STATUS_PENDING_OFFSET)) a)) s).

(** *** Injection *)

Definition sse_event_is_ready (me : Z) (e : event) : bool :=
  negb (negb (sse_event_pending e) || negb (sse_event_state e =? SBI_SSE_STATE_ENABLED)
        || negb (e.(attrs).(hartid) =? hartindex_to_hartid me)).

(** The loop of [sbi_sse_process_pending_events] with [sse_event_check_inject]. *)
Fixpoint check_inject_loop (me : Z) (l : list eref) (c : cpu) (s : sys) : option (cpu * sys) :=
  match l with
  | [] => Some (c, s)
  | r :: l =>
      e ← get_event s r;
      if sse_event_state e =? SBI_SSE_STATE_RUNNING then Some (c, s)
      else if sse_event_is_ready me e then
        let '(e', c) := sse_event_inject misa_H (hartindex_to_hartid me) e c in
        Some (c, upd_event r (fun _ => e') s)
      else check_inject_loop me l c s
  end.

Definition sbi_sse_process_pending_events (me : Z) (c : cpu) (s : sys) : option (cpu * sys) :=
  hs ← s.(harts) !! me;
  if hs.(masked) then Some (c, s) else check_inject_loop me hs.(enabled_event_list) c s.

(** The result of a call: its code, whether the registers were set, and the state. *)
Definition sse_event_complete (me : Z) (r : eref) (c : cpu) (s : sys) : option (Z * bool * cpu * sys) :=
  e ← get_event s r;
  if negb (sse_event_state e =? SBI_SSE_STATE_RUNNING) then Some (SBI_EINVALID_STATE, false, c, s)
  else if negb (e.(attrs).(hartid) =? hartindex_to_hartid me) then Some (SBI_EINVAL, false, c, s)
  else
    let s := upd_event r (sse_event_set_state SBI_SSE_STATE_ENABLED) s in
    s ← (if has e.(attrs).(config) SBI_SSE_ATTR_CONFIG_ONESHOT
         then snd <$> sse_event_disable r s else Some s);
    let s := sse_event_invoke_cb complete_cb e s in
    Some (SBI_OK, true, sse_event_resume misa_H e c, s).

Fixpoint complete_loop (me : Z) (l : list eref) (c : cpu) (s : sys) : option (Z * bool * cpu * sys) :=
  match l with
  | [] => Some (SBI_OK, false, c, s)
  | r :: l =>
      tmp ← get_event s r;
      if sse_event_state tmp =? SBI_SSE_STATE_RUNNING then sse_event_complete me r c s
      else complete_loop me l c s
  end.

Definition sbi_sse_complete (me : Z) (c : cpu) (s : sys) : option (Z * bool * cpu * sys) :=
  hs ← s.(harts) !! me; complete_loop me hs.(enabled_event_list) c s.

(** Calls that work on the event with an id. *)
Definition with_event (me id : Z) (s : sys) (f : eref -> option (Z * sys)) : option (Z * sys) :=
  g ← sse_event_get me id s;
  match g with
  | (_, Some r) => f r
  | (ret, None) => Some (ret, s)
  end.

Definition sbi_sse_enable (env : sse_env) (me id : Z) (s : sys) : option (Z * sys) :=
  with_event me id s (fun r => sse_event_enable env r s).
Definition sbi_sse_disable (me id : Z) (s : sys) : option (Z * sys) :=
  with_event me id s (fun r => sse_event_disable r s).
Definition sbi_sse_unregister (me id : Z) (s : sys) : option (Z * sys) :=
  with_event me id s (fun r => sse_event_unregister r s).

(** The address checks, with enough fuel for every address of the range. *)
Definition check_range (env : sse_env) (me addr size flags : Z) : option bool :=
  sbi_domain_check_addr_range shl64 (S (Z.to_nat size)) (env.(thishart_dom) me) addr size PRV_S flags.

Definition sbi_sse_register (env : sse_env) (me id handler_entry_pc handler_entry_arg : Z) (s : sys) : option (Z * sys) :=
  if has handler_entry_pc 0x1 then Some (SBI_EINVAL, s)
  else
    ok ← check_range env me handler_entry_pc 8 SBI_DOMAIN_EXECUTE;
    if negb ok then Some (SBI_EINVALID_ADDR, s)
    else with_event me id s (fun r => sse_event_register r handler_entry_pc handler_entry_arg s).

Definition sbi_sse_hart_mask (me : Z) (s : sys) : Z * sys :=
  match s.(harts) !! me with
  | None => (SBI_EFAIL, s)
  | Some hs => if hs.(masked) then (SBI_EALREADY_STOPPED, s) else (SBI_OK, on_hart me (set_masked true) s)
  end.
Definition sbi_sse_hart_unmask (me : Z) (s : sys) : Z * sys :=
  match s.(harts) !! me with
  | None => (SBI_EFAIL, s)
  | Some hs => if negb hs.(masked) then (SBI_EALREADY_STARTED, s) else (SBI_OK, on_hart me (set_masked false) s)
  end.

Definition sse_ipi_inject_send (env : sse_env) (hid id : Z) (s : sys) : Z * sys :=
  let h := hartid_to_hartindex (u32 hid) in
  match s.(harts) !! h with
  | None => (SBI_EINVAL, s)
  | Some hs =>
      if (s.(global_event_count) + s.(local_event_count) <=? length hs.(inject_fifo))%nat then (SBI_EFAIL, s)
      else
        let s := on_hart h (fun hs => set_fifo (hs.(inject_fifo) ++ [id]) hs) s in
        let '(ret, l) := env.(ipi_send_one) hid in
        let s := raise_ipi l s in
        (if negb (ret =? 0) then SBI_EFAIL else SBI_OK, s)
  end.

Definition sse_inject_event (env : sse_env) (me id hid : Z) (s : sys) : option (Z * sys) :=
  with_event me id s (fun r =>
    e ← get_event s r;
    let hid := if sse_event_is_global e then e.(attrs).(hartid) else hid in
    if negb (hid =? hartindex_to_hartid me) then Some (sse_ipi_inject_send env hid id s)
    else sse_event_set_pending r s).

Definition sbi_sse_inject_from_ecall (env : sse_env) (me id hid : Z) (s : sys) : option (Z * sys) :=
  if negb (sbi_domain_is_assigned_hart (env.(thishart_dom) me) (hartid_to_hartindex (u32 hid))) then Some (SBI_EINVAL, s)
  else sse_inject_event env me id hid s.

Definition sbi_sse_inject_event (env : sse_env) (me id : Z) (s : sys) : option (Z * sys) :=
  sse_inject_event env me id (hartindex_to_hartid me) s.

(** The queue is taken event by event. *)
Fixpoint inject_loop (me : Z) (q : list Z) (s : sys) : option sys :=
  match q with
  | [] => Some s
  | id :: q =>
      let s := on_hart me (set_fifo q) s in
      g ← sse_event_get me id s;
      match g with
      | (_, None) => inject_loop me q s
      | (_, Some r) => x ← sse_event_set_pending r s; inject_loop me q x.2
      end
  end.

(** With the clearing of the pending bit by [sbi_ipi_process]. *)
Definition sse_ipi_inject_process (me : Z) (s : sys) : option sys :=
  hs ← s.(harts) !! me; inject_loop me hs.(inject_fifo) (on_hart me (set_ipi false) s).

(** *** Attributes *)

Definition sse_event_set_hart_id_check (env : sse_env) (me new_hartid : Z) (e : event) : option Z :=
  let hid := u32 new_hartid in
  let hd := env.(thishart_dom) me in
  if negb (sse_event_is_global e) then Some SBI_EBAD_RANGE
  else if negb (sbi_domain_is_assigned_hart hd (hartid_to_hartindex hid)) then Some SBI_EINVAL
  else
    match run (sbi_hsm_hart_get_state hartid_to_hartindex hd hid) env.(hsm_sys) with
    | Some (inl hstate, _) => Some (if negb (hstate =? SBI_HSM_STATE_STARTED) then SBI_EINVAL else SBI_OK)
    | _ => None
    end.

Definition sse_event_set_attr_check (env : sse_env) (me : Z) (e : event) (attr_id val : Z) : option Z :=
  let enabled := SBI_SSE_STATE_ENABLED <=? sse_event_state e in
  let interrupted :=
    if negb (sse_event_state e =? SBI_SSE_STATE_RUNNING) then SBI_EINVALID_STATE
    else if negb (hartindex_to_hartid me =? e.(attrs).(hartid)) then SBI_EINVAL
    else SBI_OK in
  if attr_id =? SBI_SSE_ATTR_CONFIG then
    Some (if enabled then SBI_EINVALID_STATE else if has val (not64 SBI_SSE_ATTR_CONFIG_ONESHOT) then SBI_EINVAL else SBI_OK)
  else if attr_id =? SBI_SSE_ATTR_PRIO then
    Some (if enabled then SBI_EINVALID_STATE else if negb (val =? u32 val) then SBI_EINVAL else SBI_OK)
  else if attr_id =? SBI_SSE_ATTR_PREFERRED_HART then
    if enabled then Some SBI_EINVALID_STATE else sse_event_set_hart_id_check env me val e
  else if attr_id =? SBI_SSE_ATTR_INTERRUPTED_FLAGS then
    Some (if has val (not64 (Z.lor (Z.lor (Z.lor FLAGS_STATUS_SPP FLAGS_STATUS_SPIE) FLAGS_HSTATUS_SPV) FLAGS_HSTATUS_SPVP))
          then SBI_EINVAL else interrupted)
  else if (attr_id =? SBI_SSE_ATTR_INTERRUPTED_SEPC) || (attr_id =? SBI_SSE_ATTR_INTERRUPTED_A6)
          || (attr_id =? SBI_SSE_ATTR_INTERRUPTED_A7) then Some interrupted
  else Some SBI_EBAD_RANGE.

Definition attr_write (attr_id val : Z) (a : sbi_sse_event_attrs) : sbi_sse_event_attrs :=
  if attr_id =? SBI_SSE_ATTR_CONFIG then
    Attrs a.(status) a.(prio) val a.(hartid) a.(entry_pc) a.(entry_arg) a.(i_sepc) a.(i_flags) a.(i_a6) a.(i_a7)
  else if attr_id =? SBI_SSE_ATTR_PRIO then
    Attrs a.(status) (u32 val) a.(config) a.(hartid) a.(entry_pc) a.(entry_arg) a.(i_sepc) a.(i_flags) a.(i_a6) a.(i_a7)
  else if attr_id =? SBI_SSE_ATTR_PREFERRED_HART then
    Attrs a.(status) a.(prio) a.(config) val a.(entry_pc) a.(entry_arg) a.(i_sepc) a.(i_flags) a.(i_a6) a.(i_a7)
  else if attr_id =? SBI_SSE_ATTR_INTERRUPTED_SEPC then set_interrupted val a.(i_flags) a.(i_a6) a.(i_a7) a
  else if attr_id =? SBI_SSE_ATTR_INTERRUPTED_FLAGS then set_interrupted a.(i_sepc) val a.(i_a6) a.(i_a7) a
  else if attr_id =? SBI_SSE_ATTR_INTERRUPTED_A6 then set_interrupted a.(i_sepc) a.(i_flags) val a.(i_a7) a
  else if attr_id =? SBI_SSE_ATTR_INTERRUPTED_A7 then set_interrupted a.(i_sepc) a.(i_flags) a.(i_a6) val a
  else a.

Definition attr_upd (attr_id val : Z) (e : event) : event :=
  Event (attr_write attr_id val e.(attrs)) e.(event_id)
    (if attr_id =? SBI_SSE_ATTR_PREFERRED_HART then hartid_to_hartindex (u32 val) else e.(hartindex)) e.(info).

Definition sse_event_set_attr (r : eref) (attr_id val : Z) (s : sys) : option sys :=
  e ← get_event s r;
  let s := upd_event r (attr_upd attr_id val) s in
  Some (if attr_id =? SBI_SSE_ATTR_PREFERRED_HART
        then sse_event_invoke_cb (fun o => (fun f id => f id val) <$> o.(set_hartid_cb)) e s else s).

Definition sbi_sse_attr_check (env : sse_env) (me base_attr_id attr_count phys_lo phys_hi access : Z) : option Z :=
  let end_id := base_attr_id + u32 (attr_count - 1) in
  if attr_count =? 0 then Some SBI_EINVAL
  else if SBI_SSE_ATTR_MAX <=? end_id then Some SBI_EBAD_RANGE
  else if has phys_lo (8 - 1) then Some SBI_EINVALID_ADDR
  else if negb (phys_hi =? 0) then Some SBI_EINVALID_ADDR
  else
    ok ← check_range env me phys_lo (8 * attr_count) access;
    Some (if negb ok then SBI_EINVALID_ADDR else SBI_OK).

Fixpoint copy_attrs (out : Z) (l : list Z) (m : Z -> Z) : Z -> Z :=
  match l with
  | [] => m
  | x :: l => copy_attrs (out + 8) l (<[out := x]> m)
  end.

Definition sbi_sse_read_attrs (env : sse_env) (me id base_attr_id attr_count output_phys_lo output_phys_hi : Z) (s : sys)
    : option (Z * sys) :=
  ret ← sbi_sse_attr_check env me base_attr_id attr_count output_phys_lo output_phys_hi SBI_DOMAIN_WRITE;
  if negb (ret =? 0) then Some (ret, s)
  else with_event me id s (fun r =>
    e ← get_event s r;
    let l := take (Z.to_nat attr_count) (drop (Z.to_nat base_attr_id) (attr_longs e.(attrs))) in
    Some (SBI_OK, set_mem (copy_attrs output_phys_lo l s.(mem)) s)).

(** The longs of the supervisor at an address. *)
Fixpoint read_longs (m : Z -> Z) (addr : Z) (n : nat) : list Z :=
  match n with O => [] | S n => m addr :: read_longs m (addr + 8) n end.

Fixpoint check_attrs (env : sse_env) (me : Z) (e : event) (id : Z) (vals : list Z) : option Z :=
  match vals with
  | [] => Some 0
  | val :: vals =>
      ret ← sse_event_set_attr_check env me e id val;
      if negb (ret =? 0) then Some ret else check_attrs env me e (id + 1) vals
  end.

Fixpoint set_attrs (r : eref) (id : Z) (vals : list Z) (s : sys) : option sys :=
  match vals with
  | [] => Some s
  | val :: vals => s ← sse_event_set_attr r id val s; set_attrs r (id + 1) vals s
  end.

(** The longs are read twice: [m1] is the memory when they are checked, [m2] when
    they are stored. *)
Definition sse_write_attrs (env : sse_env) (me : Z) (r : eref) (base_attr_id attr_count input_phys : Z) (m1 m2 : Z -> Z) (s : sys)
    : option (Z * sys) :=
  e ← get_event s r;
  ret ← check_attrs env me e base_attr_id (read_longs m1 input_phys (Z.to_nat attr_count));
  if negb (ret =? 0) then Some (ret, s)
  else s ← set_attrs r base_attr_id (read_longs m2 input_phys (Z.to_nat attr_count)) s; Some (ret, s).

Definition sbi_sse_write_attrs (env : sse_env) (me id base_attr_id attr_count input_phys_lo input_phys_hi : Z) (s : sys)
    : option (Z * sys) :=
  ret ← sbi_sse_attr_check env me base_attr_id attr_count input_phys_lo input_phys_hi SBI_DOMAIN_READ;
  if negb (ret =? 0) then Some (ret, s)
  else with_event me id s (fun r => sse_write_attrs env me r base_attr_id attr_count input_phys_lo s.(mem) s.(mem) s).

(** ** The ecall handler *)

(** Calls that do not touch the registers. *)
Definition plain (c : cpu) (x : option (Z * sys)) : option (Z * bool * cpu * sys) :=
  y ← x; Some (y.1, false, c, y.2).

Definition sbi_ecall_sse_handler (env : sse_env) (me funcid : Z) (c : cpu) (s : sys) : option (Z * bool * cpu * sys) :=
  if funcid =? SBI_EXT_SSE_READ_ATTR then
    plain c (sbi_sse_read_attrs env me (u32 c.(a0)) (u32 c.(a1)) (u32 c.(a2)) c.(a3) c.(a4) s)
  else if funcid =? SBI_EXT_SSE_WRITE_ATTR then
    plain c (sbi_sse_write_attrs env me (u32 c.(a0)) (u32 c.(a1)) (u32 c.(a2)) c.(a3) c.(a4) s)
  else if funcid =? SBI_EXT_SSE_REGISTER then plain c (sbi_sse_register env me (u32 c.(a0)) c.(a1) c.(a2) s)
  else if funcid =? SBI_EXT_SSE_UNREGISTER then plain c (sbi_sse_unregister me (u32 c.(a0)) s)
  else if funcid =? SBI_EXT_SSE_ENABLE then plain c (sbi_sse_enable env me (u32 c.(a0)) s)
  else if funcid =? SBI_EXT_SSE_DISABLE then plain c (sbi_sse_disable me (u32 c.(a0)) s)
  else if funcid =? SBI_EXT_SSE_COMPLETE then sbi_sse_complete me c s
  else if funcid =? SBI_EXT_SSE_INJECT then plain c (sbi_sse_inject_from_ecall env me (u32 c.(a0)) c.(a1) s)
  else if funcid =? SBI_EXT_SSE_HART_MASK then plain c (Some (sbi_sse_hart_mask me s))
  else if funcid =? SBI_EXT_SSE_HART_UNMASK then plain c (Some (sbi_sse_hart_unmask me s))
  else plain c (Some (SBI_ENOTSUPP, s)).

(** ** Adding events, initialisation and exit *)

(** [zalloc]: whether [sbi_zalloc] succeeds. *)
Definition sbi_sse_add_event (zalloc : bool) (id : Z) (ops : option (sbi_sse_cb_ops X)) (s : sys) : Z * sys :=
  match sse_event_info_get id s with
  | Some _ => (SBI_EINVAL, s)
  | None =>
      if match ops with Some o => bool_decide (is_Some o.(set_hartid_cb)) | None => false end && negb (EVENT_IS_GLOBAL id)
      then (SBI_EINVAL, s)
      else if negb zalloc then (SBI_ENOMEM, s)
      else (SBI_OK, Sse s.(harts) s.(global_events) (EventInfo id ops :: s.(supported_events))
                      s.(local_event_count) s.(global_event_count) s.(ext) s.(mem))
  end.

(** The events that are always supported. *)
Definition builtin_events : list (sse_event_info X) :=
  [EventInfo SBI_SSE_EVENT_LOCAL_SOFTWARE None; EventInfo SBI_SSE_EVENT_GLOBAL_SOFTWARE None].

Definition zero_attrs : sbi_sse_event_attrs := Attrs 0 0 0 0 0 0 0 0 0 0.

Definition sse_event_init (me : Z) (i : sse_event_info X) (a : sbi_sse_event_attrs) : event :=
  Event (Attrs (Z.lor a.(status) (Z.shiftl 1 SBI_SSE_ATTR_STATUS_INJECT_OFFSET)) a.(prio) a.(config)
           (hartindex_to_hartid me) a.(entry_pc) a.(entry_arg) a.(i_sepc) a.(i_flags) a.(i_a6) a.(i_a7))
    i.(info_event_id) me i.

Definition local_infos (s : sys) : list (sse_event_info X) :=
  filter (fun i => EVENT_IS_GLOBAL i.(info_event_id) = false) s.(supported_events).
Definition global_infos (s : sys) : list (sse_event_info X) :=
  filter (fun i => EVENT_IS_GLOBAL i.(info_event_id) = true) s.(supported_events).

Definition sse_event_count_init (s : sys) : sys :=
  Sse s.(harts) s.(global_events) s.(supported_events)
    (s.(local_event_count) + length (local_infos s)) (s.(global_event_count) + length (global_infos s)) s.(ext) s.(mem).

Definition sse_global_init (zalloc : bool) (me : Z) (s : sys) : Z * sys :=
  if negb zalloc then (SBI_ENOMEM, s)
  else (SBI_OK, set_globals ((fun i => sse_event_init me i zero_attrs) <$> global_infos s) s).

(** The events of a hart keep their attributes when the hart is initialised again. *)
Definition sse_local_init (me : Z) (s : sys) : sys :=
  on_hart me (fun hs => set_list [] (set_locals
    (zip_with (fun i e => sse_event_init me i e.(attrs)) (local_infos s) hs.(local_events)) hs)) s.

(** What the allocators and [sbi_ipi_event_create] answer; an offset is 0 when the
    scratch space is exhausted. *)
Record init_results := InitResults {
  zalloc_global : bool; shs_ptr_off : Z; sse_inject_fifo_off : Z; sse_inject_fifo_mem_off : Z;
  event_create : Z; zalloc_hart : bool;
}.

Definition sse_hart_init (res : init_results) (me : Z) (s : sys) : Z * sys :=
  let fresh := HartState [] ((fun i => Event zero_attrs 0 0 i) <$> local_infos s) true [] false in
  let s' := match s.(harts) !! me with
            | Some _ => Some s
            | None => if negb res.(zalloc_hart) then None
                      else Some (Sse (<[me := fresh]> s.(harts)) s.(global_events) s.(supported_events)
                                   s.(local_event_count) s.(global_event_count) s.(ext) s.(mem))
            end in
  match s' with
  | None => (SBI_ENOMEM, s)
  | Some s => (SBI_OK, on_hart me (set_fifo []) (sse_local_init me s))
  end.

Definition sbi_sse_init (res : init_results) (me : Z) (cold_boot : bool) (s : sys) : Z * sys :=
  if cold_boot then
    let s := sse_event_count_init s in
    let '(ret, s) := sse_global_init res.(zalloc_global) me s in
    if negb (ret =? 0) then (ret, s)
    else if res.(shs_ptr_off) =? 0 then (SBI_ENOMEM, s)
    else if res.(sse_inject_fifo_off) =? 0 then (SBI_ENOMEM, s)
    else if res.(sse_inject_fifo_mem_off) =? 0 then (SBI_ENOMEM, s)
    else if res.(event_create) <? 0 then (res.(event_create), s)
    else sse_hart_init res me s
  else sse_hart_init res me s.

Fixpoint exit_loop (me : Z) (l : list (sse_event_info X)) (s : sys) : option sys :=
  match l with
  | [] => Some s
  | i :: l =>
      g ← sse_event_get me i.(info_event_id) s;
      match g with
      | (_, None) => exit_loop me l s
      | (_, Some r) =>
          e ← get_event s r;
          if negb (e.(attrs).(hartid) =? hartindex_to_hartid me) then exit_loop me l s
          else if SBI_SSE_STATE_REGISTERED <? sse_event_state e
          then exit_loop me l (upd_event r (sse_event_set_state SBI_SSE_STATE_UNUSED) s)
          else exit_loop me l s
      end
  end.

Definition sbi_sse_exit (me : Z) (s : sys) : option sys := exit_loop me s.(supported_events) s.

End Sse.

(** ** Bits of the status registers *)

Lemma tb_clear x m i : 0 <= i < 64 -> Z.testbit (clear x m) i = Z.testbit x i && negb (Z.testbit m i).
Proof. intros Hi. unfold clear. by rewrite Z.land_spec, testbit_not64 by lia. Qed.

Lemma clear_range x m : in_range 64 x -> in_range 64 (clear x m).
Proof. intros Hx. unfold clear. apply in_range_land_l; [lia|done|apply (not64_range m)]. Qed.

Lemma tb_one k i : 0 <= i -> Z.testbit (Z.shiftl 1 k) i = (i =? k).
Proof.
  intros Hi. rewrite Z.shiftl_spec by lia. destruct (Z.eqb_spec i k) as [->|Hne]; [by rewrite Z.sub_diag|].
  destruct (decide (i < k)); [by apply Z.testbit_neg_r; lia|]. change 1 with (Z.ones 1). rewrite Z.ones_spec_high by lia. done.
Qed.

Lemma has_one x k : 0 <= k -> has x (Z.shiftl 1 k) = Z.testbit x k.
Proof.
  intros Hk. unfold has. destruct (Z.testbit x k) eqn:E.
  - apply negb_true_iff, Z.eqb_neq. intros H. apply (f_equal (fun z => Z.testbit z k)) in H.
    rewrite Z.land_spec, tb_one, E, Z.eqb_refl, Z.bits_0 in H by done. done.
  - apply negb_false_iff, Z.eqb_eq. apply Z.bits_inj'. intros i Hi. rewrite Z.land_spec, tb_one, Z.bits_0 by done.
    destruct (Z.eqb_spec i k) as [->|]; by rewrite ?E, ?andb_false_r.
Qed.

Lemma has_lor x m m' : has x (Z.lor m m') = has x m || has x m'.
Proof.
  unfold has. rewrite Z.land_lor_distr_r. destruct (Z.eqb_spec (Z.land x m) 0) as [->|H1]; [done|]. cbn [negb orb].
  apply negb_true_iff, Z.eqb_neq. intros H. apply Z.lor_eq_0_iff in H. tauto.
Qed.

Lemma tb_if (b : bool) x y i : Z.testbit (if b then x else y) i = if b then Z.testbit x i else Z.testbit y i.
Proof. by destruct b. Qed.

(** The masks as bits. *)
Lemma status_masks :
  MSTATUS_SIE = Z.shiftl 1 1 /\ MSTATUS_SPIE = Z.shiftl 1 5 /\ MSTATUS_SPP = Z.shiftl 1 8 /\
  MSTATUS_MPP = Z.lor (Z.shiftl 1 11) (Z.shiftl 1 12) /\ MSTATUS_MPV = Z.shiftl 1 39 /\
  HSTATUS_SPV = Z.shiftl 1 7 /\ HSTATUS_SPVP = Z.shiftl 1 8 /\ Z.shiftl PRV_S MSTATUS_MPP_SHIFT = Z.shiftl 1 11 /\
  FLAGS_STATUS_SPP = Z.shiftl 1 0 /\ FLAGS_STATUS_SPIE = Z.shiftl 1 1 /\ FLAGS_HSTATUS_SPV = Z.shiftl 1 2 /\
  FLAGS_HSTATUS_SPVP = Z.shiftl 1 3.
Proof. repeat split; reflexivity. Qed.

Create Rewrite HintDb ssebits.
#[export] Hint Rewrite has_lor Z.lor_spec tb_if andb_false_r andb_true_r orb_false_r orb_true_r Z.bits_0 : ssebits.
#[export] Hint Rewrite has_one tb_one tb_clear using lia : ssebits.

(** Reduces the bits of a status register to those it was computed from. *)
Ltac sse_bits := autorewrite with ssebits; cbn [Z.eqb Pos.eqb negb andb orb].

(** The flags an interrupted context is saved with. *)
Lemma interrupted_flags_bits misa_H m h :
  let f := sse_interrupted_flags misa_H m h in
  has f FLAGS_STATUS_SPP = Z.testbit m 8 /\ has f FLAGS_STATUS_SPIE = Z.testbit m 5 /\
  (misa_H = true -> has f FLAGS_HSTATUS_SPV = Z.testbit h 7 /\ has f FLAGS_HSTATUS_SPVP = Z.testbit h 8).
Proof.
  cbv zeta. destruct status_masks as (_ & E2 & E3 & _ & _ & E6 & E7 & _ & F1 & F2 & F3 & F4).
  unfold sse_interrupted_flags. rewrite E2, E3, E6, E7, F1, F2, F3, F4. sse_bits.
  destruct misa_H, (Z.testbit m 5), (Z.testbit m 8), (Z.testbit h 7), (Z.testbit h 8); done.
Qed.

(** Equality of 64-bit words, bit by bit. *)
Lemma bits64 x y : in_range 64 x -> in_range 64 y -> (forall i, 0 <= i < 64 -> Z.testbit x i = Z.testbit y i) -> x = y.
Proof.
  intros Hx Hy H. apply Z.bits_inj'. intros i Hi. destruct (decide (i < 64)); [apply H; lia|].
  by rewrite !(testbit_above 64) by (done || lia).
Qed.

Lemma range_if (b : bool) x y : in_range 64 x -> in_range 64 y -> in_range 64 (if b then x else y).
Proof. by destruct b. Qed.

Ltac sse_range :=
  repeat first [assumption | apply range_if | apply clear_range | apply in_range_lor; [lia| |]
               | (unfold in_range; vm_compute; split; congruence) ].

Ltac split_bits := repeat match goal with |- context [Z.testbit ?x ?i] => destruct (Z.testbit x i) end; cbn; intros; try done.

(** What the hart has to look like when an event is injected: it returns to U or S
    mode; without the hypervisor extension MPV is clear; and with it [hstatus.SPV] is
    only set when the hart returns to a virtual mode. *)
Definition injectable (misa_H : bool) (c : cpu) : Prop :=
  in_range 64 c.(mstatus) /\ in_range 64 c.(hstatus) /\ Z.testbit c.(mstatus) 12 = false /\
  (if misa_H then Z.testbit c.(hstatus) 7 = true -> Z.testbit c.(mstatus) 39 = true else Z.testbit c.(mstatus) 39 = false).

(** The registers an event handler has to leave as it found them. *)
Definition handler_kept (c c' : cpu) : Prop :=
  c'.(mstatus) = c.(mstatus) /\ c'.(sepc) = c.(sepc) /\ c'.(hstatus) = c.(hstatus).

Lemma inject_status misa_H {X} hid (e : sbi_sse_event X) c : injectable misa_H c ->
  let c' := (sse_event_inject misa_H hid e c).2 in
  in_range 64 c'.(mstatus) /\ in_range 64 c'.(hstatus) /\
  (forall i, 0 <= i < 64 -> Z.testbit c'.(mstatus) i =
    if i =? 1 then false else if i =? 5 then Z.testbit c.(mstatus) 1 else
    if i =? 8 then Z.testbit c.(mstatus) 11 else if i =? 11 then true else if i =? 12 then false else
    if i =? 39 then false else Z.testbit c.(mstatus) i) /\
  (forall i, 0 <= i < 64 -> Z.testbit c'.(hstatus) i =
    if misa_H then if i =? 7 then Z.testbit c.(mstatus) 39 else
                   if i =? 8 then Z.testbit c.(mstatus) 39 && Z.testbit c.(mstatus) 11 else Z.testbit c.(hstatus) i
    else Z.testbit c.(hstatus) i).
Proof.
  intros (Hm & Hh & H12 & Hv). cbv zeta.
  destruct status_masks as (E1 & E2 & E3 & E4 & E5 & E6 & E7 & E8 & _).
  unfold sse_event_inject. cbn [snd mstatus hstatus]. rewrite E1, E2, E3, E4, E5, E6, E7, E8. split_and!.
  - sse_range.
  - sse_range.
  - intros i Hi. sse_bits. rewrite H12.
    destruct (Z.eqb_spec i 1), (Z.eqb_spec i 5), (Z.eqb_spec i 8), (Z.eqb_spec i 11),
      (Z.eqb_spec i 12), (Z.eqb_spec i 39); try lia; subst;
      rewrite ?H12; split_bits.
  - intros i Hi. destruct misa_H; [|done]. sse_bits. rewrite H12.
    revert Hv. destruct (Z.eqb_spec i 7), (Z.eqb_spec i 8); try lia; subst;
      split_bits; intuition discriminate.
Qed.

(** Injecting an event and completing it takes the hart back to where it was. *)
Lemma inject_resume misa_H {X} hid (e e' : sbi_sse_event X) c c1 c2 : injectable misa_H c ->
  sse_event_inject misa_H hid e c = (e', c1) -> handler_kept c1 c2 ->
  sse_event_resume misa_H e' c2 =
    Cpu c.(mepc) c.(mstatus) c2.(a0) c2.(a1) c2.(a2) c2.(a3) c2.(a4) c.(a6) c.(a7) c.(sepc) c.(hstatus).
Proof.
  intros Hc Hi (Km & Ks & Kh). pose proof (inject_status misa_H hid e c Hc) as (Hm1 & Hh1 & Bm & Bh).
  rewrite Hi in Hm1, Hh1, Bm, Bh. cbn [snd] in *. destruct Hc as (Hm & Hh & H12 & Hv).
  pose proof (interrupted_flags_bits misa_H c.(mstatus) c.(hstatus)) as (F1 & F2 & F34). cbv zeta in F1, F2, F34.
  unfold sse_event_inject in Hi. injection Hi as He' Hc1. rewrite <- He'.
  unfold sse_event_resume. cbn [attrs on_attrs set_interrupted i_flags i_a6 i_a7 i_sepc]. rewrite Km, Ks, Kh, F1, F2.
  assert (c1.(sepc) = c.(mepc)) as -> by (by rewrite <- Hc1).
  destruct status_masks as (E1 & E2 & E3 & E4 & E5 & E6 & E7 & E8 & _).
  rewrite E1, E2, E3, E4, E5, E6, E7, E8. clear He' Hc1.
  destruct misa_H.
  - destruct F34 as [-> ->]; [done|]. f_equal; (apply bits64; [sse_range|assumption|]).
    + intros i Hi. sse_bits. rewrite !Bm, !Bh by lia. cbn [Z.eqb Pos.eqb].
      destruct (Z.eqb_spec i 1), (Z.eqb_spec i 5), (Z.eqb_spec i 8), (Z.eqb_spec i 11),
        (Z.eqb_spec i 12), (Z.eqb_spec i 39); try lia; subst; rewrite ?H12; split_bits.
    + intros i Hi. sse_bits. rewrite !Bh by lia. cbn [Z.eqb Pos.eqb].
      destruct (Z.eqb_spec i 7), (Z.eqb_spec i 8); try lia; subst; split_bits.
  - f_equal; (apply bits64; [sse_range|assumption|]).
    + intros i Hi. sse_bits. rewrite !Bm by lia. cbn [Z.eqb Pos.eqb].
      destruct (Z.eqb_spec i 1), (Z.eqb_spec i 5), (Z.eqb_spec i 8), (Z.eqb_spec i 11),
        (Z.eqb_spec i 12), (Z.eqb_spec i 39); try lia; subst; rewrite ?H12, ?Hv; split_bits.
    + intros i Hi. by rewrite Bh.
Qed.
