(* ===== verification/SseInv.v ===== *)
(** * Invariants of the supervisor software events.

    The state of [Sse] is observed through its events and its lists.  The invariant
    says that the list of a hart holds exactly the enabled and running events that
    prefer the hart, by increasing priority value and event id.  Every call keeps it,
    whichever harts make the calls in whichever order.  The running events of a hart,
    in the order of its list, are then the stack of interrupted handlers. *)

From stdpp Require Import sorting.
From S2P Require Import Prelude SbiTypes Bitops Hartmask Domain Hsm Sse.

Local Open Scope Z_scope.

Lemma sorted_mono {A} (R R' : A -> A -> Prop) l :
  (forall a b, a ∈ l -> b ∈ l -> R a b -> R' a b) -> StronglySorted R l -> StronglySorted R' l.
Proof.
  intros H. induction 1 as [|a l Hs IH Hf]; constructor.
  - apply IH. intros x y Hx Hy. apply H; by right.
  - rewrite Forall_forall in Hf |- *. intros b Hb. apply H; [left|by right|by apply Hf].
Qed.

Lemma filter_keeps {A} (P : A -> Prop) `{!forall x, Decision (P x)} (l : list A) : (forall x, x ∈ l -> P x) -> filter P l = l.
Proof.
  induction l as [|a l IH]; intros Hp; [done|]. rewrite filter_cons, decide_True by (apply Hp; left).
  f_equal. apply IH. intros x Hx. apply Hp. by right.
Qed.

(** ** The state, observed through events and lists *)

Section State.
Context {X : Type}.
Implicit Types (s : sse_sys X) (e : sbi_sse_event X) (r : eref).

Definition elist s (h : Z) : option (list eref) := enabled_event_list <$> s.(harts) !! h.
Definition ev_state s r : Z := from_option sse_event_state (-1) (get_event s r).

Lemma get_upd r f s r' : get_event (upd_event r f s) r' = if decide (r' = r) then f <$> get_event s r' else get_event s r'.
Proof.
  destruct r as [h i|i], r' as [h' i'|i']; cbn [upd_event get_event on_hart set_globals harts global_events]; try done.
  - rewrite lookup_alter. case_decide as Hh.
    + subst h'. destruct (s.(harts) !! h) as [hs|]; cbn; [|by case_decide]. rewrite list_lookup_alter.
      repeat case_decide; simplify_eq; done.
    + rewrite decide_False by congruence. done.
  - rewrite list_lookup_alter. repeat case_decide; simplify_eq; done.
Qed.

Lemma elist_upd r f s h : elist (upd_event r f s) h = elist s h.
Proof.
  destruct r as [h' i|i]; [|done]. unfold elist. cbn. rewrite lookup_alter. case_decide; [|done]. subst.
  by destruct (s.(harts) !! h).
Qed.

Lemma dom_upd r f s h : is_Some (harts (upd_event r f s) !! h) <-> is_Some (s.(harts) !! h).
Proof. destruct r; cbn; [apply lookup_alter_is_Some|done]. Qed.

Lemma get_invoke cb e s r : get_event (sse_event_invoke_cb cb e s) r = get_event s r.
Proof. unfold sse_event_invoke_cb. destruct (cb_ops _) as [o|]; [|done]. by destruct (cb o), r. Qed.
Lemma harts_invoke cb e s : harts (sse_event_invoke_cb cb e s) = s.(harts).
Proof. unfold sse_event_invoke_cb. destruct (cb_ops _) as [o|]; [|done]. by destruct (cb o). Qed.

Lemma get_remove r s r' : get_event (sse_event_remove_from_list r s) r' = get_event s r'.
Proof. destruct r' as [h i|i]; [|done]. cbn. rewrite lookup_fmap. by destruct (s.(harts) !! h). Qed.
Lemma elist_remove r s h : elist (sse_event_remove_from_list r s) h = filter (fun r' => r' <> r) <$> elist s h.
Proof. unfold elist. cbn. rewrite lookup_fmap. by destruct (s.(harts) !! h). Qed.
Lemma dom_remove r s h : is_Some (harts (sse_event_remove_from_list r s) !! h) <-> is_Some (s.(harts) !! h).
Proof. cbn. rewrite lookup_fmap. apply fmap_is_Some. Qed.

(** A change of a hart's state that keeps its events. *)
Definition keeps_events (f : sse_hart_state X -> sse_hart_state X) : Prop := forall hs, local_events (f hs) = local_events hs.
Definition keeps_list (f : sse_hart_state X -> sse_hart_state X) : Prop := forall hs, enabled_event_list (f hs) = enabled_event_list hs.

Lemma get_on_hart h f s r : keeps_events f -> get_event (on_hart h f s) r = get_event s r.
Proof.
  intros Hf. destruct r as [h' i|i]; [|done]. cbn. rewrite lookup_alter. case_decide; [|done]. subst.
  destruct (s.(harts) !! h') as [hs|]; [|done]. cbn. by rewrite Hf.
Qed.
Lemma elist_on_hart h f s h' : keeps_list f -> elist (on_hart h f s) h' = elist s h'.
Proof.
  intros Hf. unfold elist. cbn. rewrite lookup_alter. case_decide; [|done]. subst. destruct (s.(harts) !! h') as [hs|]; [|done]. cbn. by rewrite Hf.
Qed.
Lemma dom_on_hart h f s h' : is_Some (harts (on_hart h f s) !! h') <-> is_Some (s.(harts) !! h').
Proof. apply lookup_alter_is_Some. Qed.

(** States with the same events, lists and harts. *)
Record same s s' : Prop := {
  sm_get r : get_event s' r = get_event s r;
  sm_list h : elist s' h = elist s h;
  sm_sup : s'.(supported_events) = s.(supported_events);
}.

Lemma same_refl s : same s s.
Proof. by constructor. Qed.
Lemma same_trans s s' s'' : same s s' -> same s' s'' -> same s s''.
Proof. intros [G1 L1 S1] [G2 L2 S2]. constructor; intros; by rewrite ?G2, ?L2, ?S2. Qed.
Lemma same_invoke cb e s : same s (sse_event_invoke_cb cb e s).
Proof.
  constructor; [apply get_invoke|intros h; unfold elist; by rewrite harts_invoke|].
  unfold sse_event_invoke_cb. destruct (cb_ops _) as [o|]; [|done]. by destruct (cb o).
Qed.
Lemma same_on_hart h f s : keeps_events f -> keeps_list f -> same s (on_hart h f s).
Proof. intros H1 H2. constructor; intros; [by apply get_on_hart|by apply elist_on_hart|done]. Qed.
Lemma same_raise l s : same s (raise_ipi l s).
Proof.
  induction l as [|h l IH]; [apply same_refl|]. eapply same_trans; [apply IH|]. by apply same_on_hart.
Qed.
Lemma same_mem m s : same s (set_mem m s).
Proof. by constructor. Qed.

(** ** The invariant *)

Definition ev_lt s r r' : Prop :=
  exists e e', get_event s r = Some e /\ get_event s r' = Some e' /\ event_before e e' = true.

Definition ev_live s (h : Z) r : Prop :=
  exists e, get_event s r = Some e /\ SBI_SSE_STATE_ENABLED <= sse_event_state e /\ e.(hartindex) = h.

(** Events among which an id is unique. *)
Definition same_owner (r r' : eref) : Prop :=
  match r, r' with
  | LocalEvent h _, LocalEvent h' _ => h = h'
  | GlobalEvent _, GlobalEvent _ => True
  | _, _ => False
  end.

Definition ref_ok e r s : Prop :=
  match r with
  | LocalEvent h _ => e.(hartindex) = h /\ EVENT_IS_GLOBAL e.(event_id) = false
  | GlobalEvent _ => is_Some (elist s e.(hartindex)) /\ EVENT_IS_GLOBAL e.(event_id) = true
  end.

Lemma ref_ok_ext s s' e e' r : (forall h, is_Some (elist s h) -> is_Some (elist s' h)) ->
  e'.(event_id) = e.(event_id) -> e'.(hartindex) = e.(hartindex) -> ref_ok e r s -> ref_ok e' r s'.
Proof. intros Hd E1 E2. destruct r; unfold ref_ok; rewrite E1, E2; [done|]. intros [H1 H2]. split; [by apply Hd|done]. Qed.

Record sse_inv s : Prop := {
  iv_list h l r : elist s h = Some l -> r ∈ l <-> ev_live s h r;
  iv_sorted h l : elist s h = Some l -> StronglySorted (ev_lt s) l;
  iv_ref r e : get_event s r = Some e -> ref_ok e r s;
  iv_ids r r' e e' : get_event s r = Some e -> get_event s r' = Some e' -> e.(event_id) = e'.(event_id) ->
    same_owner r r' -> r = r';
}.

Lemma ev_live_same s s' h r : get_event s' r = get_event s r -> ev_live s' h r <-> ev_live s h r.
Proof. intros E. unfold ev_live. by rewrite E. Qed.

Lemma inv_same s s' : same s s' -> sse_inv s -> sse_inv s'.
Proof.
  intros [G L _] [I1 I2 I3 I4]. constructor.
  - intros h l r Hl. rewrite L in Hl. rewrite (I1 h l r Hl). symmetry. by apply ev_live_same.
  - intros h l Hl. rewrite L in Hl. specialize (I2 h l Hl). eapply sorted_mono; [|exact I2].
    intros a b _ _ (e & e' & H1 & H2 & H3). exists e, e'. by rewrite !G.
  - intros r e He. rewrite G in He. eapply ref_ok_ext; [| | |exact (I3 r e He)]; try done. intros h. by rewrite L.
  - intros r r' e e' H1 H2. rewrite G in H1, H2. by eapply I4.
Qed.

Lemma ids_on_hart s r r' e e' h : sse_inv s -> get_event s r = Some e -> get_event s r' = Some e' ->
  e.(hartindex) = h -> e'.(hartindex) = h -> e.(event_id) = e'.(event_id) -> r = r'.
Proof.
  intros Hi H1 H2 E1 E2 E. eapply (iv_ids s Hi r r' e e'); try done.
  pose proof (iv_ref s Hi r e H1) as R1. pose proof (iv_ref s Hi r' e' H2) as R2.
  destruct r, r'; cbn in *; destruct R1 as [A1 B1], R2 as [A2 B2]; try done; congruence.
Qed.

(** The order of the lists. *)
Lemma event_before_trans e1 e2 e3 : event_before e1 e2 = true -> event_before e2 e3 = true -> event_before e1 e3 = true.
Proof. unfold event_before. rewrite !orb_true_iff, !andb_true_iff, !Z.ltb_lt, !Z.eqb_eq. lia. Qed.
Lemma event_before_irrefl e : event_before e e = false.
Proof. unfold event_before. rewrite !Z.ltb_irrefl, Z.eqb_refl. done. Qed.
Lemma event_before_total e e' : e.(event_id) <> e'.(event_id) -> event_before e e' = false -> event_before e' e = true.
Proof.
  unfold event_before. rewrite orb_false_iff, orb_true_iff, andb_false_iff, andb_true_iff, !Z.ltb_lt, !Z.ltb_ge, Z.eqb_neq, Z.eqb_eq. lia.
Qed.

(** A step that changes one event, and possibly the lists. *)
Record changed s s' r e e' : Prop := {
  cg_old : get_event s r = Some e;
  cg_new : get_event s' r = Some e';
  cg_other r' : r' <> r -> get_event s' r' = get_event s r';
  cg_id : e'.(event_id) = e.(event_id);
  cg_dom h : is_Some (elist s' h) <-> is_Some (elist s h);
  cg_ref : ref_ok e' r s';
}.

Lemma inv_changed s s' r e e' : sse_inv s -> changed s s' r e e' ->
  (forall h l, elist s' h = Some l -> (forall r', r' ∈ l <-> ev_live s' h r') /\ StronglySorted (ev_lt s') l) ->
  sse_inv s'.
Proof.
  intros Hi [C1 C2 C3 C4 C5 C6] Hl. constructor.
  - intros h l r' H. exact (proj1 (Hl h l H) r').
  - intros h l H. exact (proj2 (Hl h l H)).
  - intros r' a Ha. destruct (decide (r' = r)) as [->|Hne]; [by simplify_eq|]. rewrite C3 in Ha by done.
    eapply ref_ok_ext; [| | |exact (iv_ref s Hi r' a Ha)]; try done. intros h. apply C5.
  - intros r1 r2 e1 e2 H1 H2 Heq Ho.
    assert (forall r' a, get_event s' r' = Some a -> exists b, get_event s r' = Some b /\ b.(event_id) = a.(event_id)) as Hb.
    { intros r' a Ha. destruct (decide (r' = r)) as [->|Hne]; [|rewrite C3 in Ha by done; eauto].
      exists e. split; [done|]. by simplify_eq. }
    destruct (Hb r1 e1 H1) as (b1 & B1 & E1), (Hb r2 e2 H2) as (b2 & B2 & E2). eapply (iv_ids s Hi r1 r2 b1 b2); try done. congruence.
Qed.

(** An event that stays in its list, or out of the lists, keeping its place. *)
Lemma inv_upd_in_place s r e (f : sbi_sse_event X -> sbi_sse_event X) : sse_inv s -> get_event s r = Some e ->
  (f e).(event_id) = e.(event_id) -> (f e).(hartindex) = e.(hartindex) -> (f e).(attrs).(prio) = e.(attrs).(prio) ->
  (SBI_SSE_STATE_ENABLED <= sse_event_state (f e) <-> SBI_SSE_STATE_ENABLED <= sse_event_state e) ->
  sse_inv (upd_event r f s).
Proof.
  intros Hi He Eid Eh Ep Hst.
  assert (forall r', get_event (upd_event r f s) r' = if decide (r' = r) then Some (f e) else get_event s r') as G.
  { intros r'. rewrite get_upd. case_decide; [|done]. subst. by rewrite He. }
  apply (inv_changed s (upd_event r f s) r e (f e)); [done| |].
  - constructor; [done|by rewrite G, decide_True|intros r' Hne; by rewrite G, decide_False|done|intros h; by rewrite elist_upd|].
    eapply ref_ok_ext; [| | |exact (iv_ref s Hi r e He)]; try done. intros h. by rewrite elist_upd.
  - intros h l Hl. rewrite elist_upd in Hl. split.
    + intros r'. rewrite (iv_list s Hi h l r' Hl). unfold ev_live. rewrite G. case_decide as Hd; [|done]. subst. rewrite He. split.
      * intros (a & [= <-] & Ha & Hh). exists (f e). split; [done|]. split; [by apply Hst|congruence].
      * intros (a & [= <-] & Ha & Hh). exists e. split; [done|]. split; [by apply Hst|congruence].
    + eapply sorted_mono; [|exact (iv_sorted s Hi h l Hl)]. intros a b _ _ (x & y & Hx & Hy & Hb).
      assert (forall k z, get_event s k = Some z -> exists z', get_event (upd_event r f s) k = Some z' /\
                 z'.(event_id) = z.(event_id) /\ z'.(attrs).(prio) = z.(attrs).(prio)) as Hk.
      { intros k z Hz. rewrite G. case_decide; subst; [|eauto]. exists (f e). by simplify_eq. }
      destruct (Hk a x Hx) as (x' & Hx' & I1 & P1), (Hk b y Hy) as (y' & Hy' & I2 & P2). exists x', y'. split; [done|]. split; [done|].
      unfold event_before in *. by rewrite I1, I2, P1, P2.
Qed.

(** An event that is in no list. *)
Lemma inv_upd_off s r e (f : sbi_sse_event X -> sbi_sse_event X) : sse_inv s -> get_event s r = Some e ->
  (f e).(event_id) = e.(event_id) -> ref_ok (f e) r s ->
  sse_event_state e < SBI_SSE_STATE_ENABLED -> sse_event_state (f e) < SBI_SSE_STATE_ENABLED ->
  sse_inv (upd_event r f s).
Proof.
  intros Hi He Eid Hr Ho Hn.
  assert (forall r', get_event (upd_event r f s) r' = if decide (r' = r) then Some (f e) else get_event s r') as G.
  { intros r'. rewrite get_upd. case_decide; [|done]. subst. by rewrite He. }
  assert (forall h r', ev_live (upd_event r f s) h r' <-> ev_live s h r') as Hlive.
  { intros h r'. unfold ev_live. rewrite G. case_decide; [|done]. subst. rewrite He.
    split; intros (a & [= <-] & Ha & _); unfold SBI_SSE_STATE_ENABLED in *; lia. }
  apply (inv_changed s (upd_event r f s) r e (f e)); [done| |].
  - constructor; [done|by rewrite G, decide_True|intros r' Hne; by rewrite G, decide_False|done|intros h; by rewrite elist_upd|].
    eapply ref_ok_ext; [| | |exact Hr]; try done. intros h. by rewrite elist_upd.
  - intros h l Hl. rewrite elist_upd in Hl. split; [intros r'; rewrite (iv_list s Hi h l r' Hl); by rewrite Hlive|].
    pose proof (iv_sorted s Hi h l Hl) as Hs. assert (forall a, a ∈ l -> a <> r) as Hne.
    { intros a Ha ->. apply (iv_list s Hi h l r Hl) in Ha as (a & Ha & Hs' & _). simplify_eq. unfold SBI_SSE_STATE_ENABLED in *. lia. }
    eapply sorted_mono; [|exact Hs]. intros a b Ha Hb (x & y & Hx & Hy & Hxy). exists x, y.
    rewrite !G, !decide_False; [done|by apply Hne..].
Qed.

(** ** States of an event *)

Lemma state_range e : 0 <= sse_event_state e <= 3.
Proof.
  unfold sse_event_state, SBI_SSE_ATTR_STATUS_STATE_MASK. change 3 with (Z.ones 2). rewrite Z.land_ones by lia.
  change (Z.ones 2) with 3. pose proof (Z.mod_pos_bound e.(attrs).(status) (2 ^ 2)). lia.
Qed.

Lemma state_set v e : 0 <= v < 4 -> sse_event_state (sse_event_set_state v e) = v.
Proof.
  intros Hv. unfold sse_event_state, sse_event_set_state, clear. cbn [attrs on_attrs status set_status].
  apply Z.bits_inj'. intros i Hi. rewrite Z.land_spec, Z.lor_spec, Z.land_spec.
  change SBI_SSE_ATTR_STATUS_STATE_MASK with (Z.ones 2). destruct (decide (i < 2)).
  - rewrite testbit_not64 by lia. rewrite Z.ones_spec_low by lia. cbn. by rewrite andb_false_r, andb_true_r.
  - rewrite (Z.ones_spec_high 2 i), andb_false_r by lia. symmetry. apply (testbit_above 2); [unfold in_range; lia|lia].
Qed.

Lemma set_state_keeps v e :
  (sse_event_set_state v e).(event_id) = e.(event_id) /\ (sse_event_set_state v e).(hartindex) = e.(hartindex) /\
  (sse_event_set_state v e).(attrs).(prio) = e.(attrs).(prio).
Proof. done. Qed.

Lemma state_pending e :
  sse_event_state (on_attrs (fun a => set_status (Z.lor a.(status) (Z.shiftl 1 SBI_SSE_ATTR_STATUS_PENDING_OFFSET)) a) e) =
  sse_event_state e.
Proof. unfold sse_event_state. cbn [attrs on_attrs status set_status]. rewrite Z.land_lor_distr_l. cbn. apply Z.lor_0_r. Qed.

Lemma inject_event misa_H hid e c : let e' := (sse_event_inject misa_H hid e c).1 in
  sse_event_state e' = SBI_SSE_STATE_RUNNING /\ sse_event_pending e' = false /\ e'.(event_id) = e.(event_id) /\
  e'.(hartindex) = e.(hartindex) /\ e'.(attrs).(prio) = e.(attrs).(prio) /\ e'.(attrs).(hartid) = e.(attrs).(hartid) /\
  e'.(attrs).(config) = e.(attrs).(config) /\ e'.(info) = e.(info).
Proof. done. Qed.

(** ** Handlers running on a hart *)

(** The events whose handlers run on a hart, in the order of the list. *)
Definition run_stack s (h : Z) : list eref :=
  filter (fun r => ev_state s r = SBI_SSE_STATE_RUNNING) (default [] (elist s h)).

(** A step that keeps the invariant and lets every hart go on with its handlers. *)
Definition quiet s s' : Prop :=
  sse_inv s' /\ (forall h, run_stack s' h = run_stack s h) /\ (forall h, is_Some (elist s' h) <-> is_Some (elist s h)) /\
  s'.(supported_events) = s.(supported_events).

Lemma quiet_refl s : sse_inv s -> quiet s s.
Proof. by intros. Qed.
Lemma quiet_trans s s' s'' : quiet s s' -> (sse_inv s' -> quiet s' s'') -> quiet s s''.
Proof.
  intros (I1 & R1 & D1 & S1) H. destruct (H I1) as (I2 & R2 & D2 & S2).
  split; [done|]. split; [intros h; by rewrite R2|]. split; [intros h; by rewrite D2|congruence].
Qed.
Lemma stack_same s s' h : same s s' -> run_stack s' h = run_stack s h.
Proof.
  intros [G L _]. unfold run_stack. rewrite L. apply list_filter_iff. intros r. unfold ev_state. by rewrite G.
Qed.
Lemma quiet_same s s' : same s s' -> sse_inv s -> quiet s s'.
Proof.
  intros Hs Hi. split; [by eapply inv_same|]. split; [intros h; by apply stack_same|].
  split; [intros h; by rewrite (sm_list _ _ Hs)|by apply Hs].
Qed.

Lemma ev_state_upd s r e f r' : get_event s r = Some e ->
  ev_state (upd_event r f s) r' = if decide (r' = r) then sse_event_state (f e) else ev_state s r'.
Proof. intros He. unfold ev_state. rewrite get_upd. case_decide; [|done]. subst. by rewrite He. Qed.

Lemma stack_upd s r e f h : get_event s r = Some e ->
  (sse_event_state (f e) = SBI_SSE_STATE_RUNNING <-> sse_event_state e = SBI_SSE_STATE_RUNNING) ->
  run_stack (upd_event r f s) h = run_stack s h.
Proof.
  intros He Hf. unfold run_stack. rewrite elist_upd. apply list_filter_iff. intros r'.
  rewrite (ev_state_upd s r e) by done. case_decide; [|done]. subst. unfold ev_state. rewrite He. apply Hf.
Qed.

Lemma supported_upd r f s : (upd_event r f s).(supported_events) = s.(supported_events).
Proof. by destruct r. Qed.

Lemma quiet_upd s r e f : get_event s r = Some e ->
  (sse_event_state (f e) = SBI_SSE_STATE_RUNNING <-> sse_event_state e = SBI_SSE_STATE_RUNNING) ->
  sse_inv (upd_event r f s) -> quiet s (upd_event r f s).
Proof.
  intros He Hf Hi. split; [done|]. split; [intros h; by eapply stack_upd|].
  split; [intros h; by rewrite elist_upd|apply supported_upd].
Qed.
End State.

(** ** Operations on one event *)

Section Events.
Context {X : Type}.
Implicit Types (s : sse_sys X) (e : sbi_sse_event X) (r : eref).

(** The place the search finds. *)
Lemma insert_event_spec s e r l : get_event s r = Some e -> StronglySorted (ev_lt s) l ->
  (forall r', r' ∈ l -> exists e', get_event s r' = Some e' /\ e'.(event_id) <> e.(event_id)) ->
  exists l1 l2, insert_event s e r l = Some (l1 ++ r :: l2) /\ l = l1 ++ l2 /\ StronglySorted (ev_lt s) (l1 ++ r :: l2).
Proof.
  intros He Hs Hl. induction Hs as [|t l Hs IH Hf].
  - exists [], []. split; [done|]. split; [done|]. repeat constructor.
  - destruct (Hl t) as (tmp & Ht & Hid); [left|]. cbn [insert_event]. rewrite Ht. cbn [mbind option_bind].
    destruct (event_before e tmp) eqn:Eb.
    + exists [], (t :: l). split; [done|]. split; [done|]. cbn. constructor; [by constructor|]. constructor.
      * exists e, tmp. done.
      * rewrite Forall_forall in Hf |- *. intros b Hb. destruct (Hf b Hb) as (x & y & Hx & Hy & Hxy). simplify_eq.
        exists e, y. split; [done|]. split; [done|]. by eapply event_before_trans.
    + destruct IH as (l1 & l2 & E & -> & Hs'); [intros r' Hr'; apply Hl; by right|].
      exists (t :: l1), l2. rewrite E. split; [done|]. split; [done|]. cbn. constructor; [done|].
      assert (ev_lt s t r) as Htr by (exists tmp, e; split; [done|]; split; [done|]; by apply event_before_total).
      rewrite Forall_app in Hf |- *. destruct Hf as [Hf1 Hf2]. split; [done|]. by constructor.
Qed.

(** The order depends on the ids and the priorities only. *)
Lemma ev_lt_key s s' a b :
  (forall r, (fun e => (e.(event_id), e.(attrs).(prio))) <$> get_event s' r =
             (fun e => (e.(event_id), e.(attrs).(prio))) <$> get_event s r) ->
  ev_lt s a b -> ev_lt s' a b.
Proof.
  intros H (x & y & Hx & Hy & Hb). pose proof (H a) as Ha. pose proof (H b) as Hb'. rewrite Hx in Ha. rewrite Hy in Hb'.
  destruct (get_event s' a) as [x'|] eqn:Ex; [|done]. destruct (get_event s' b) as [y'|] eqn:Ey; [|done].
  exists x', y'. split; [done|]. split; [done|]. cbn in Ha, Hb'. simplify_eq.
  unfold event_before in *. congruence.
Qed.

(** The list of an event that is in no list. *)
Lemma list_of_event s r e : sse_inv s -> get_event s r = Some e -> sse_event_state e < SBI_SSE_STATE_ENABLED ->
  exists l, elist s e.(hartindex) = Some l /\ r ∉ l /\
    forall r', r' ∈ l -> exists e', get_event s r' = Some e' /\ e'.(event_id) <> e.(event_id).
Proof.
  intros Hi He Hst. assert (exists l, elist s e.(hartindex) = Some l) as [l Hl].
  { pose proof (iv_ref s Hi r e He) as H. destruct r as [h i|i]; [|by destruct H as [[l ?] _]; exists l].
    destruct H as [-> _]. cbn in He. unfold elist. destruct (s.(harts) !! h) as [hs|]; [by eexists|done]. }
  exists l. split; [done|]. split.
  - intros (a & Ha & Hs & _)%(iv_list s Hi _ l r Hl). simplify_eq. unfold SBI_SSE_STATE_ENABLED in *. lia.
  - intros r' (a & Ha & Hsa & Hh)%(iv_list s Hi _ l r' Hl). exists a. split; [done|]. intros Eid.
    assert (r' = r) as -> by (by eapply (ids_on_hart s r' r a e)). simplify_eq. unfold SBI_SSE_STATE_ENABLED in *. lia.
Qed.

(** Enabling an event and putting it into its list. *)
Lemma add_to_list_spec s r e : let f := sse_event_set_state SBI_SSE_STATE_ENABLED in
  sse_inv s -> get_event s r = Some e -> sse_event_state e < SBI_SSE_STATE_ENABLED ->
  exists s' l1 l2, sse_event_add_to_list r (upd_event r f s) = Some s' /\
    (forall r', get_event s' r' = if decide (r' = r) then Some (f e) else get_event s r') /\
    elist s e.(hartindex) = Some (l1 ++ l2) /\ r ∉ l1 ++ l2 /\ s'.(supported_events) = s.(supported_events) /\
    (forall h, elist s' h = if decide (h = e.(hartindex)) then Some (l1 ++ r :: l2) else elist s h) /\
    StronglySorted (ev_lt s') (l1 ++ r :: l2).
Proof.
  cbv zeta. intros Hi He Hst. set (f := sse_event_set_state SBI_SSE_STATE_ENABLED). set (s1 := upd_event r f s).
  assert (forall r', get_event s1 r' = if decide (r' = r) then Some (f e) else get_event s r') as G.
  { intros r'. unfold s1. rewrite get_upd. case_decide; [|done]. subst. by rewrite He. }
  destruct (list_of_event s r e Hi He Hst) as (l & Hl & Hnr & Hids).
  assert (elist s1 e.(hartindex) = Some l) as Hl1 by (unfold s1; by rewrite elist_upd).
  destruct (insert_event_spec s1 (f e) r l) as (l1 & l2 & E & El & Hsort); [by rewrite G, decide_True| | |].
  { eapply sorted_mono; [|exact (iv_sorted s Hi _ l Hl)]. intros x y _ _. apply ev_lt_key. intros r'. rewrite G.
    case_decide; [|done]. subst. by rewrite He. }
  { intros r' Hr'. rewrite G, decide_False by (intros ->; done). by apply Hids. }
  unfold sse_event_add_to_list. rewrite G, decide_True by done. cbn [mbind option_bind]. change (hartindex (f e)) with e.(hartindex).
  unfold elist in Hl1. destruct (harts s1 !! e.(hartindex)) as [hs|] eqn:Ehs; [|done]. cbn in Hl1. injection Hl1 as El1.
  cbn [mbind option_bind]. rewrite El1, E. cbn [mbind option_bind]. eexists _, l1, l2. split; [done|].
  set (s2 := on_hart e.(hartindex) (set_list (l1 ++ r :: l2)) s1). rewrite El in Hl, Hnr.
  assert (forall r', get_event s2 r' = get_event s1 r') as G2 by (intros; by apply get_on_hart).
  split; [intros r'; by rewrite G2, G|]. split; [done|]. split; [done|]. split; [by unfold s2; cbn; unfold s1; rewrite supported_upd|]. split.
  - intros h. unfold elist, s2. cbn [on_hart harts]. rewrite lookup_alter.
    case_decide as Hd; [|rewrite decide_False by congruence; by apply elist_upd]. subst h. by rewrite decide_True, Ehs by done.
  - eapply sorted_mono; [|exact Hsort]. intros x y _ _. apply ev_lt_key. intros r'. by rewrite G2.
Qed.

Lemma add_to_list_ok s r e : let f := sse_event_set_state SBI_SSE_STATE_ENABLED in
  sse_inv s -> get_event s r = Some e -> sse_event_state e < SBI_SSE_STATE_ENABLED ->
  exists s', sse_event_add_to_list r (upd_event r f s) = Some s' /\ quiet s s'.
Proof.
  cbv zeta. intros Hi He Hst. destruct (add_to_list_spec s r e Hi He Hst) as (s' & l1 & l2 & E & G & Hl & Hnr & Hsup & L & Hsort).
  exists s'. split; [done|]. set (f := sse_event_set_state SBI_SSE_STATE_ENABLED) in *.
  assert (sse_event_state (f e) = SBI_SSE_STATE_ENABLED) as Hfe by (by apply state_set).
  assert (forall h, is_Some (elist s' h) <-> is_Some (elist s h)) as Hd.
  { intros h. rewrite L. case_decide; [|done]. subst. rewrite Hl. split; by eexists. }
  assert (forall h r', ev_live s' h r' <-> ev_live s h r' \/ (r' = r /\ h = e.(hartindex))) as Hlive.
  { intros h r'. unfold ev_live. rewrite G. case_decide as Hr.
    - subst r'. rewrite He. split; [intros (a & [= <-] & _ & <-); by right|].
      intros [(a & [= <-] & Ha & _)|[_ ->]]; [unfold SBI_SSE_STATE_ENABLED in *; lia|]. exists (f e). by rewrite Hfe.
    - split; [by left|]. by intros [?|[? _]]. }
  split; [|split; [|by split]].
  - apply (inv_changed s s' r e (f e)); [done| |].
    + constructor; [done|by rewrite G, decide_True|intros r' Hne; by rewrite G, decide_False|done|done|].
      eapply ref_ok_ext; [| | |exact (iv_ref s Hi r e He)]; try done. intros h. apply Hd.
    + intros h l Hl'. rewrite L in Hl'. split.
      * intros r'. rewrite Hlive. case_decide as Hh; simplify_eq.
        -- rewrite <- (iv_list s Hi _ _ r' Hl), !elem_of_app, elem_of_cons. naive_solver.
        -- rewrite (iv_list s Hi _ _ r' Hl'). naive_solver.
      * case_decide; simplify_eq; [done|]. eapply sorted_mono; [|exact (iv_sorted s Hi _ l Hl')]. intros x y _ _. apply ev_lt_key.
        intros r'. rewrite G. case_decide; [|done]. subst. by rewrite He.
  - intros h. unfold run_stack. rewrite L.
    assert (forall l : list eref, r ∉ l -> filter (fun r' => ev_state s' r' = SBI_SSE_STATE_RUNNING) l = filter (fun r' => ev_state s r' = SBI_SSE_STATE_RUNNING) l) as Hf.
    { intros l Hr. apply list_filter_agree. intros x Hx. unfold ev_state. by rewrite G, decide_False by (intros ->; done). }
    case_decide as Hh.
    + subst h. rewrite Hl. cbn [default from_option id]. apply not_elem_of_app in Hnr as [H1 H2].
      rewrite !filter_app, filter_cons, !Hf by done. rewrite decide_False; [done|].
      unfold ev_state. rewrite G, decide_True by done. cbn. by rewrite Hfe.
    + apply Hf. destruct (elist s h) as [l|] eqn:El; [|apply not_elem_of_nil]. cbn.
      intros (a & Ha & Hs & _)%(iv_list s Hi _ l r El). simplify_eq. unfold SBI_SSE_STATE_ENABLED in *. lia.
Qed.

Lemma quiet_chain s s' s'' : quiet s s' -> same s' s'' -> quiet s s''.
Proof. intros H Hs. eapply quiet_trans; [done|]. by apply quiet_same. Qed.

Lemma enable_ok env s r e : sse_inv s -> get_event s r = Some e ->
  exists ret s', sse_event_enable env r s = Some (ret, s') /\ quiet s s'.
Proof.
  intros Hi He. unfold sse_event_enable. rewrite He. cbn [mbind option_bind].
  destruct (Z.eqb_spec (sse_event_state e) SBI_SSE_STATE_REGISTERED) as [Hst|]; cbn [negb]; [|by eexists _, s].
  destruct (add_to_list_ok s r e) as (s' & -> & Hq); [done..|by rewrite Hst|]. cbn [mbind option_bind]. eexists _, _. split; [done|].
  eapply quiet_chain; [exact Hq|]. eapply same_trans; [apply same_invoke|]. case_match; [apply same_raise|apply same_refl].
Qed.

(** Disabling an event and taking it out of its list. *)
Lemma remove_ok s r e : let f := sse_event_set_state SBI_SSE_STATE_REGISTERED in
  sse_inv s -> get_event s r = Some e -> sse_event_state e = SBI_SSE_STATE_ENABLED ->
  quiet s (upd_event r f (sse_event_remove_from_list r s)).
Proof.
  cbv zeta. intros Hi He Hst. set (f := sse_event_set_state SBI_SSE_STATE_REGISTERED). set (s' := upd_event _ _ _).
  assert (sse_event_state (f e) = SBI_SSE_STATE_REGISTERED) as Hfe by (by apply state_set).
  assert (forall r', get_event s' r' = if decide (r' = r) then Some (f e) else get_event s r') as G.
  { intros r'. unfold s'. rewrite get_upd, get_remove. case_decide; [|done]. subst. by rewrite He. }
  assert (forall h, elist s' h = filter (fun r' => r' <> r) <$> elist s h) as L by (intros h; unfold s'; rewrite elist_upd; apply elist_remove).
  assert (forall h, is_Some (elist s' h) <-> is_Some (elist s h)) as Hd by (intros h; rewrite L; apply fmap_is_Some).
  assert (forall h r', ev_live s' h r' <-> ev_live s h r' /\ r' <> r) as Hlive.
  { intros h r'. unfold ev_live. rewrite G. case_decide as Hr; [|naive_solver]. subst. split; [|naive_solver].
    intros (a & [= <-] & Ha & _). rewrite Hfe in Ha. unfold SBI_SSE_STATE_ENABLED, SBI_SSE_STATE_REGISTERED in *. lia. }
  assert (forall l : list eref, filter (fun r' => ev_state s' r' = SBI_SSE_STATE_RUNNING) (filter (fun r' => r' <> r) l) =
                     filter (fun r' => ev_state s r' = SBI_SSE_STATE_RUNNING) l) as Hf.
  { intros l. rewrite list_filter_filter. apply list_filter_iff. intros x. unfold ev_state. rewrite G.
    case_decide as Hx; [|naive_solver]. subst. rewrite He. cbn. rewrite Hfe, Hst. by split; intros; destruct_and?. }
  split; [|split; [|split; [done|]]].
  - apply (inv_changed s s' r e (f e)); [done| |].
    + constructor; [done|by rewrite G, decide_True|intros r' Hne; by rewrite G, decide_False|done|done|].
      eapply ref_ok_ext; [| | |exact (iv_ref s Hi r e He)]; try done. intros h. apply Hd.
    + intros h l Hl'. rewrite L in Hl'. destruct (elist s h) as [l0|] eqn:El; [|done]. injection Hl' as <-. split.
      * intros r'. rewrite Hlive, list_elem_of_filter, (iv_list s Hi _ _ r' El). tauto.
      * assert (StronglySorted (ev_lt s) (filter (fun r' => r' <> r) l0)) as Hs.
        { pose proof (iv_sorted s Hi _ l0 El) as Hs. clear -Hs. induction Hs as [|x l Hs IH Hf]; [constructor|]. rewrite filter_cons.
          case_decide; [|done]. constructor; [done|]. rewrite Forall_forall in Hf |- *. intros y [_ Hy]%list_elem_of_filter. by apply Hf. }
        eapply sorted_mono; [|exact Hs]. intros x y _ _. apply ev_lt_key.
        intros r'. rewrite G. case_decide; [|done]. subst. by rewrite He.
  - intros h. unfold run_stack. rewrite L. destruct (elist s h) as [l|]; [|done]. apply Hf.
  - unfold s'. by rewrite supported_upd.
Qed.

Lemma disable_ok s r e : sse_inv s -> get_event s r = Some e ->
  exists ret s', sse_event_disable r s = Some (ret, s') /\ quiet s s'.
Proof.
  intros Hi He. unfold sse_event_disable. rewrite He. cbn [mbind option_bind].
  destruct (Z.eqb_spec (sse_event_state e) SBI_SSE_STATE_ENABLED) as [Hst|]; cbn [negb]; [|by eexists _, s].
  eexists _, _. split; [done|]. eapply quiet_trans; [apply quiet_same; [apply same_invoke|done]|]. intros Hi'.
  apply (remove_ok _ r e); [done|by rewrite get_invoke|done].
Qed.

(** Updates of an event that is in no list and does not enter one. *)
Lemma quiet_off s r e f : sse_inv s -> get_event s r = Some e -> (f e).(event_id) = e.(event_id) ->
  ref_ok (f e) r s -> sse_event_state e < SBI_SSE_STATE_ENABLED -> sse_event_state (f e) < SBI_SSE_STATE_ENABLED ->
  quiet s (upd_event r f s).
Proof.
  intros. apply (quiet_upd s r e); [done|unfold SBI_SSE_STATE_ENABLED, SBI_SSE_STATE_RUNNING in *; lia|].
  by apply (inv_upd_off s r e).
Qed.

Lemma register_ok s r e pc arg : sse_inv s -> get_event s r = Some e ->
  exists ret s', sse_event_register r pc arg s = Some (ret, s') /\ quiet s s'.
Proof.
  intros Hi He. unfold sse_event_register. rewrite He. cbn [mbind option_bind].
  destruct (Z.eqb_spec (sse_event_state e) SBI_SSE_STATE_UNUSED) as [Hst|]; cbn [negb]; [|by eexists _, s].
  eexists _, _. split; [done|]. eapply quiet_chain; [|apply same_invoke].
  eapply quiet_trans; [apply (quiet_off s r e (on_attrs (set_entry_point pc arg))); try done; [exact (iv_ref s Hi r e He)|by rewrite Hst|]|].
  { change (sse_event_state e < SBI_SSE_STATE_ENABLED). by rewrite Hst. }
  intros Hi'. set (f := on_attrs (set_entry_point pc arg)). assert (get_event (upd_event r f s) r = Some (f e)) as He'
    by (by rewrite get_upd, decide_True, He by done).
  apply (quiet_off _ r (f e)); try done; [exact (iv_ref _ Hi' r _ He')| |by rewrite state_set].
  change (sse_event_state (f e)) with (sse_event_state e). by rewrite Hst.
Qed.

Lemma unregister_ok s r e : sse_inv s -> get_event s r = Some e ->
  exists ret s', sse_event_unregister r s = Some (ret, s') /\ quiet s s'.
Proof.
  intros Hi He. unfold sse_event_unregister. rewrite He. cbn [mbind option_bind].
  destruct (Z.eqb_spec (sse_event_state e) SBI_SSE_STATE_REGISTERED) as [Hst|]; cbn [negb]; [|by eexists _, s].
  eexists _, _. split; [done|]. eapply quiet_trans; [apply quiet_same; [apply same_invoke|done]|]. intros Hi'.
  assert (get_event (sse_event_invoke_cb unregister_cb e s) r = Some e) as He' by (by rewrite get_invoke).
  apply (quiet_off _ r e); try done; [exact (iv_ref _ Hi' r _ He')|by rewrite Hst|by rewrite state_set].
Qed.

Lemma set_pending_ok s r e : sse_inv s -> get_event s r = Some e ->
  exists ret s', sse_event_set_pending r s = Some (ret, s') /\ quiet s s'.
Proof.
  intros Hi He. unfold sse_event_set_pending. rewrite He. cbn [mbind option_bind].
  destruct (negb _ && negb _); [by eexists _, s|]. eexists _, _. split; [done|].
  apply (quiet_upd s r e); [done|by rewrite state_pending|]. apply (inv_upd_in_place s r e); try done. by rewrite state_pending.
Qed.

(** An event that the search by id finds. *)
Lemma event_get_ok me id s : is_Some (elist s me) ->
  exists rc, sse_event_get me id s = Some rc /\
    match rc.2 with Some r => exists e, get_event s r = Some e /\ e.(event_id) = id | None => rc.1 = SBI_ENOTSUPP \/ rc.1 = SBI_EINVAL end.
Proof.
  intros [l Hl]. unfold sse_event_get. assert (forall b : bool, (if b then SBI_ENOTSUPP else SBI_EINVAL) = SBI_ENOTSUPP \/
    (if b then SBI_ENOTSUPP else SBI_EINVAL) = SBI_EINVAL) as Hm by (intros []; auto).
  unfold elist in Hl. destruct (s.(harts) !! me) as [hs|] eqn:Eh; [|done]. destruct (EVENT_IS_GLOBAL id).
  - destruct (list_find _ s.(global_events)) as [[i e]|] eqn:E; eexists; (split; [done|]); cbn; [|apply Hm].
    apply list_find_Some in E as (Hi & He & _). by exists e.
  - cbn [mbind option_bind]. destruct (list_find _ hs.(local_events)) as [[i e]|] eqn:E; eexists; (split; [done|]); cbn [fst snd]; [|apply Hm].
    apply list_find_Some in E as (Hi & He & _). exists e. cbn. by rewrite Eh.
Qed.

Lemma with_event_ok me id s (F : eref -> option (Z * sse_sys X)) : sse_inv s -> is_Some (elist s me) ->
  (forall r e, get_event s r = Some e -> exists ret s', F r = Some (ret, s') /\ quiet s s') ->
  exists ret s', with_event me id s F = Some (ret, s') /\ quiet s s'.
Proof.
  intros Hi Hme HF. unfold with_event. destruct (event_get_ok me id s Hme) as ([c o] & -> & Ho). cbn [mbind option_bind].
  destruct o as [r|]; [|by eexists _, s]. destruct Ho as (e & He & _). by eapply HF.
Qed.

End Events.

(** ** Injection and completion *)

Section Ops.
Local Set Default Proof Using "Type".
Context {X : Type}.
Context (misa_H : bool) (h2i i2h : Z -> Z) (shl64 : Z).
Implicit Types (s : sse_sys X) (e : sbi_sse_event X) (r : eref).

Definition busy s (me : Z) r : Prop :=
  exists e, get_event s r = Some e /\ (sse_event_state e = SBI_SSE_STATE_RUNNING \/ sse_event_is_ready i2h me e = true).

Lemma check_inject_spec s me l c : (forall r, r ∈ l -> is_Some (get_event s r)) ->
  ((forall r, r ∈ l -> ~ busy s me r) /\ check_inject_loop misa_H i2h me l c s = Some (c, s)) \/
  exists l1 r e l2, l = l1 ++ r :: l2 /\ (forall r, r ∈ l1 -> ~ busy s me r) /\ get_event s r = Some e /\
    ((sse_event_state e = SBI_SSE_STATE_RUNNING /\ check_inject_loop misa_H i2h me l c s = Some (c, s)) \/
     (sse_event_is_ready i2h me e = true /\
      check_inject_loop misa_H i2h me l c s =
        Some ((sse_event_inject misa_H (i2h me) e c).2, upd_event r (fun _ => (sse_event_inject misa_H (i2h me) e c).1) s))).
Proof.
  induction l as [|r l IH]; intros Hl.
  - left. split; [intros r Hr; by apply elem_of_nil in Hr|done].
  - destruct (Hl r) as [e He]; [left|]. cbn [check_inject_loop]. rewrite He. cbn [mbind option_bind].
    destruct (Z.eqb_spec (sse_event_state e) SBI_SSE_STATE_RUNNING) as [Hrun|Hrun].
    { right. exists [], r, e, l. split; [done|]. split; [intros r' Hr'; by apply elem_of_nil in Hr'|]. split; [done|]. by left. }
    destruct (sse_event_is_ready i2h me e) eqn:Hrd.
    { right. exists [], r, e, l. split; [done|]. split; [intros r' Hr'; by apply elem_of_nil in Hr'|]. split; [done|]. right.
      split; [done|]. by destruct (sse_event_inject misa_H (i2h me) e c). }
    assert (~ busy s me r) as Hnb by (intros (e' & He' & [?|?]); simplify_eq; congruence).
    destruct IH as [[Hn ->]|(l1 & r' & e' & l2 & -> & Hn & He' & H)]; [intros x Hx; apply Hl; by right|left|right].
    + split; [|done]. intros x [->|Hx]%elem_of_cons; [done|by apply Hn].
    + exists (r :: l1), r', e', l2. split; [done|]. split; [|done]. intros x [->|Hx]%elem_of_cons; [done|by apply Hn].
Qed.

Lemma ready_state me e : sse_event_is_ready i2h me e = true ->
  sse_event_pending e = true /\ sse_event_state e = SBI_SSE_STATE_ENABLED /\ e.(attrs).(hartid) = i2h me.
Proof.
  unfold sse_event_is_ready. rewrite negb_true_iff, !orb_false_iff, !negb_false_iff, !Z.eqb_eq. by intros [[? ?] ?].
Qed.

(** In a list in order, an element comes before those after it. *)
Lemma sorted_before s l1 r l2 x e e' : StronglySorted (ev_lt s) (l1 ++ r :: l2) -> x ∈ l2 ->
  get_event s r = Some e -> get_event s x = Some e' -> event_before e e' = true.
Proof.
  intros Hs Hx He He'. induction l1 as [|a l1 IH]; cbn in Hs; inversion Hs as [|? ? Hs' Hf]; subst.
  - rewrite Forall_forall in Hf. destruct (Hf x Hx) as (y & z & ? & ? & ?). by simplify_eq.
  - by apply IH.
Qed.

(** The events of a hart: enabled or running, and preferring it. *)
Definition on_me s (me : Z) r e : Prop :=
  get_event s r = Some e /\ e.(hartindex) = me /\ SBI_SSE_STATE_ENABLED <= sse_event_state e.

Lemma ready_on s me r e l : sse_inv s -> elist s me = Some l -> get_event s r = Some e -> e.(hartindex) = me ->
  (sse_event_state e = SBI_SSE_STATE_RUNNING \/ sse_event_is_ready i2h me e = true) -> r ∈ l.
Proof.
  intros Hi Hl He Hh Hb. apply (iv_list s Hi me l r Hl). exists e. split; [done|]. split; [|done].
  destruct Hb as [->|(_ & -> & _)%ready_state]; done.
Qed.

(** The events that may be injected on a hart now, and those that run on it. *)
Definition ready_here s (me : Z) r e : Prop :=
  get_event s r = Some e /\ e.(hartindex) = me /\ sse_event_is_ready i2h me e = true.
Definition runs_here s (me : Z) r e : Prop :=
  get_event s r = Some e /\ e.(hartindex) = me /\ sse_event_state e = SBI_SSE_STATE_RUNNING.

Lemma process_spec s me hs c : sse_inv s -> s.(harts) !! me = Some hs ->
  exists c' s', sbi_sse_process_pending_events misa_H i2h me c s = Some (c', s') /\
  ((c' = c /\ s' = s /\
    (hs.(masked) = true \/
     forall r e, ready_here s me r e -> exists r' e', runs_here s me r' e' /\ event_before e' e = true)) \/
   exists r e, hs.(masked) = false /\ ready_here s me r e /\
     (forall r' e', runs_here s me r' e' \/ ready_here s me r' e' -> r' <> r -> event_before e e' = true) /\
     c' = (sse_event_inject misa_H (i2h me) e c).2 /\
     s' = upd_event r (fun _ => (sse_event_inject misa_H (i2h me) e c).1) s).
Proof.
  intros Hi Hme. unfold sbi_sse_process_pending_events. rewrite Hme. cbn [mbind option_bind].
  destruct (masked hs) eqn:Em. { eexists _, _. split; [done|]. left. by auto. }
  set (l := enabled_event_list hs). assert (elist s me = Some l) as Hl by (unfold elist; by rewrite Hme).
  assert (forall r, r ∈ l -> exists e, get_event s r = Some e /\ e.(hartindex) = me) as Hev.
  { intros r Hr. apply (iv_list s Hi me l r Hl) in Hr as (e & He & _ & Hh). by exists e. }
  pose proof (iv_sorted s Hi me l Hl) as Hs.
  destruct (check_inject_spec s me l c) as [[Hn ->]|(l1 & r & e & l2 & El & Hn & He & H)].
  { intros r Hr. destruct (Hev r Hr) as (e & He & _). by exists e. }
  { eexists _, _. split; [done|]. left. split; [done|]. split; [done|]. right. intros r e (He & Hh & Hrd).
    exfalso. apply (Hn r); [by eapply (ready_on s me r e l); eauto|]. exists e. auto. }
  destruct (Hev r) as (e0 & He0 & Hh); [rewrite El; apply elem_of_app; right; left|]. rewrite He in He0. injection He0 as <-. subst me.
  assert (forall r' e', get_event s r' = Some e' -> e'.(hartindex) = e.(hartindex) ->
    (sse_event_state e' = SBI_SSE_STATE_RUNNING \/ sse_event_is_ready i2h e.(hartindex) e' = true) ->
    r' <> r -> event_before e e' = true) as Hord.
  { intros r' e' He' Hh' Hb Hne. assert (r' ∈ l) as Hin by (by eapply (ready_on s e.(hartindex) r' e')).
    rewrite El in Hin. rewrite El in Hs. apply elem_of_app in Hin as [Hin|Hin]; [destruct (Hn r' Hin); by exists e'|].
    apply elem_of_cons in Hin as [?|Hin]; [done|]. by eapply (sorted_before s l1 r l2 r'). }
  destruct H as [[Hrun ->]|[Hrd ->]]; eexists _, _; (split; [done|]); [left|right].
  - split; [done|]. split; [done|]. right. intros r' e' (He' & Hh' & Hrd'). exists r, e. split; [done|].
    eapply Hord; eauto. intros ->. simplify_eq. apply ready_state in Hrd' as (_ & E & _). by rewrite E in Hrun.
  - exists r, e. split; [done|]. split; [done|]. split; [|done]. intros r' e' [(H1 & H2 & H3)|(H1 & H2 & H3)] Hne; eapply Hord; eauto.
Qed.

Lemma sorted_NoDup s l : StronglySorted (ev_lt s) l -> NoDup l.
Proof.
  induction 1 as [|a l Hs IH Hf]; constructor; [|done]. intros Ha. rewrite Forall_forall in Hf.
  destruct (Hf a Ha) as (x & y & Hx & Hy & Hb). simplify_eq. by rewrite event_before_irrefl in Hb.
Qed.

(** The handlers that run on a hart to which an event does not belong. *)
Lemma stack_upd_other s r e f h : sse_inv s -> get_event s r = Some e -> e.(hartindex) <> h ->
  run_stack (upd_event r f s) h = run_stack s h.
Proof.
  intros Hi He Hh. unfold run_stack. rewrite elist_upd. destruct (elist s h) as [l|] eqn:El; [|done]. cbn [default from_option id].
  apply list_filter_agree. intros x Hx. rewrite (ev_state_upd s r e) by done. case_decide; [|done]. subst.
  apply (iv_list s Hi h l r El) in Hx as (a & Ha & _ & Hh'). by simplify_eq.
Qed.

Lemma filter_first (P Q : eref -> Prop) `{!forall x, Decision (P x)} `{!forall x, Decision (Q x)} l1 r l2 :
  (forall x, x ∈ l1 -> ~ P x /\ ~ Q x) -> (forall x, x ∈ l2 -> P x <-> Q x) -> P r -> ~ Q r ->
  filter P (l1 ++ r :: l2) = r :: filter Q (l1 ++ r :: l2).
Proof.
  intros H1 H2 Hp Hq. induction l1 as [|a l1 IH]; cbn [app].
  - rewrite !filter_cons, decide_True, decide_False by done. f_equal. by apply list_filter_agree.
  - rewrite !filter_cons, !decide_False by (apply (H1 a); left). apply IH. intros x Hx. apply H1. by right.
Qed.

(** An injected event goes on top of the handlers that run. *)
Lemma inject_stack s me r e c : let s' := upd_event r (fun _ => (sse_event_inject misa_H (i2h me) e c).1) s in
  sse_inv s -> is_Some (elist s me) -> ready_here s me r e ->
  (forall r' e', runs_here s me r' e' -> r' <> r -> event_before e e' = true) ->
  sse_inv s' /\ run_stack s' me = r :: run_stack s me /\ (forall h, h <> me -> run_stack s' h = run_stack s h).
Proof.
  cbv zeta. intros Hi [l Hl] (He & Hh & Hrd) Hord. set (e1 := (sse_event_inject misa_H (i2h me) e c).1).
  apply ready_state in Hrd as Hst. destruct Hst as (_ & Hst & _).
  assert (r ∈ l) as Hr by (by eapply (ready_on s me r e l); eauto).
  split; [|split]; [|unfold run_stack; rewrite elist_upd, Hl; cbn [default from_option id]|].
  - apply (inv_upd_in_place s r e); try done. rewrite Hst. done.
  - pose proof (iv_sorted s Hi me l Hl) as Hs. pose proof (sorted_NoDup s l Hs) as Hnd.
    apply list_elem_of_split in Hr as (l1 & l2 & El). rewrite El in Hs, Hnd |- *.
    apply NoDup_app in Hnd as (_ & Hnd1 & Hnd2). apply NoDup_cons in Hnd2 as [Hr2 _].
    apply filter_first.
    + intros x Hx. rewrite (ev_state_upd s r e) by done. assert (x <> r) as Hne by (intros ->; apply (Hnd1 r Hx); left).
      rewrite decide_False by done. enough (ev_state s x <> SBI_SSE_STATE_RUNNING) by done. intros Hrun.
      assert (x ∈ l) as Hxl by (rewrite El; apply elem_of_app; by left).
      apply (iv_list s Hi me l x Hl) in Hxl as (a & Ha & _ & Hha). unfold ev_state in Hrun. rewrite Ha in Hrun.
      assert (event_before e a = true) as Hb by (by apply (Hord x a)).
      apply list_elem_of_split in Hx as (k1 & k2 & ->). rewrite <- app_assoc in Hs.
      assert (event_before a e = true) as Hb' by (eapply (sorted_before s k1 x (k2 ++ r :: l2) r); try done; apply elem_of_app; right; left).
      pose proof (event_before_trans e a e Hb Hb') as Hbad. by rewrite event_before_irrefl in Hbad.
    + intros x Hx. rewrite (ev_state_upd s r e), decide_False by (done || intros ->; done). done.
    + by rewrite (ev_state_upd s r e), decide_True by done.
    + unfold ev_state. rewrite He. cbn. by rewrite Hst.
  - intros h Hne. by apply (stack_upd_other s r e); [..|congruence].
Qed.

Lemma complete_loop_spec s me l c : (forall r, r ∈ l -> is_Some (get_event s r)) ->
  complete_loop misa_H i2h me l c s =
  match filter (fun r => ev_state s r = SBI_SSE_STATE_RUNNING) l with
  | [] => Some (SBI_OK, false, c, s)
  | r :: _ => sse_event_complete misa_H i2h me r c s
  end.
Proof.
  induction l as [|r l IH]; intros Hl; [done|]. cbn [complete_loop]. destruct (Hl r) as [e He]; [left|]. rewrite He. cbn [mbind option_bind].
  rewrite filter_cons. assert (ev_state s r = sse_event_state e) as Es by (unfold ev_state; by rewrite He).
  destruct (Z.eqb_spec (sse_event_state e) SBI_SSE_STATE_RUNNING); [by rewrite decide_True by congruence|]. rewrite decide_False by congruence.
  apply IH. intros x Hx. apply Hl. by right.
Qed.

(** The handler that completes. *)
Lemma stack_elem s me r : sse_inv s -> r ∈ run_stack s me -> exists e, runs_here s me r e.
Proof.
  intros Hi. unfold run_stack. destruct (elist s me) as [l|] eqn:El; cbn [default from_option id]; [|intros H; by apply elem_of_nil in H].
  intros [Hs Hr]%list_elem_of_filter. apply (iv_list s Hi me l r El) in Hr as (e & He & _ & Hh). exists e. split; [done|]. split; [done|].
  unfold ev_state in Hs. by rewrite He in Hs.
Qed.

Lemma stack_NoDup s me : sse_inv s -> NoDup (run_stack s me).
Proof.
  intros Hi. unfold run_stack. apply NoDup_filter. destruct (elist s me) as [l|] eqn:El; [|constructor].
  cbn. eapply sorted_NoDup, iv_sorted; done.
Qed.

(** A handler that ends leaves the others. *)
Lemma stop_stack s me r e rest : let s' := upd_event r (sse_event_set_state SBI_SSE_STATE_ENABLED) s in
  sse_inv s -> run_stack s me = r :: rest -> runs_here s me r e ->
  sse_inv s' /\ run_stack s' me = rest /\ (forall h, h <> me -> run_stack s' h = run_stack s h).
Proof.
  clear misa_H h2i i2h shl64. cbv zeta. intros Hi Hst (He & Hh & Hrun). set (f := sse_event_set_state SBI_SSE_STATE_ENABLED).
  assert (sse_event_state (f e) = SBI_SSE_STATE_ENABLED) as Hfe by (by apply state_set). split; [|split].
  - apply (inv_upd_in_place s r e); try done. rewrite Hfe, Hrun. done.
  - pose proof (stack_NoDup s me Hi) as Hnd. rewrite Hst in Hnd. apply NoDup_cons in Hnd as [Hnr _].
    assert (run_stack (upd_event r f s) me = filter (fun x => x <> r) (run_stack s me)) as ->.
    { unfold run_stack. rewrite elist_upd, list_filter_filter. apply list_filter_agree. intros x _. rewrite (ev_state_upd s r e) by done.
      case_decide; [|tauto]. subst. rewrite Hfe. unfold SBI_SSE_STATE_ENABLED, SBI_SSE_STATE_RUNNING. split; [lia|tauto]. }
    rewrite Hst, filter_cons, decide_False by (by intros []). apply filter_keeps. intros x Hx ->. done.
  - intros h Hne. apply (stack_upd_other s r e); [done..|congruence].
Qed.

Lemma complete_spec s me hs c : sse_inv s -> s.(harts) !! me = Some hs ->
  match run_stack s me with
  | [] => sbi_sse_complete misa_H i2h me c s = Some (SBI_OK, false, c, s)
  | r :: rest => exists e, runs_here s me r e /\
      if e.(attrs).(hartid) =? i2h me then
        exists s', sbi_sse_complete misa_H i2h me c s = Some (SBI_OK, true, sse_event_resume misa_H e c, s') /\ sse_inv s' /\
          run_stack s' me = rest /\ (forall h, h <> me -> run_stack s' h = run_stack s h) /\
          (forall h, is_Some (elist s' h) <-> is_Some (elist s h)) /\ s'.(supported_events) = s.(supported_events) /\
          ev_state s' r = (if has e.(attrs).(config) SBI_SSE_ATTR_CONFIG_ONESHOT then SBI_SSE_STATE_REGISTERED else SBI_SSE_STATE_ENABLED)
      else sbi_sse_complete misa_H i2h me c s = Some (SBI_EINVAL, false, c, s)
  end.
Proof.
  intros Hi Hme. unfold sbi_sse_complete. rewrite Hme. cbn [mbind option_bind].
  assert (elist s me = Some (enabled_event_list hs)) as Hl by (unfold elist; by rewrite Hme).
  rewrite complete_loop_spec. 2: { intros r Hr. apply (iv_list s Hi me _ r Hl) in Hr as (e & He & _). by exists e. }
  assert (run_stack s me = filter (fun r => ev_state s r = SBI_SSE_STATE_RUNNING) (enabled_event_list hs)) as Est
    by (unfold run_stack; by rewrite Hl).
  rewrite <- Est. destruct (run_stack s me) as [|r rest] eqn:Er; [done|].
  destruct (stack_elem s me r Hi) as (e & He & Hh & Hrun); [rewrite Er; left|]. exists e. split; [done|].
  unfold sse_event_complete. rewrite He. cbn [mbind option_bind]. rewrite Hrun. cbn [Z.eqb Pos.eqb negb SBI_SSE_STATE_RUNNING].
  destruct (Z.eqb_spec e.(attrs).(hartid) (i2h me)) as [Hid|Hid]; cbn [negb]; [|done].
  destruct (stop_stack s me r e rest Hi Er) as (Hi1 & Hst1 & Hot1); [done|]. set (f := sse_event_set_state SBI_SSE_STATE_ENABLED) in *.
  set (s1 := upd_event r f s) in *. assert (get_event s1 r = Some (f e)) as He1 by (unfold s1; by rewrite get_upd, decide_True, He by done).
  assert (sse_event_state (f e) = SBI_SSE_STATE_ENABLED) as Hfe by (by apply state_set).
  assert (forall h, is_Some (elist s1 h) <-> is_Some (elist s h)) as Hd1 by (intros h; unfold s1; by rewrite elist_upd).
  assert (s1.(supported_events) = s.(supported_events)) as Hs1 by apply supported_upd.
  assert (exists s2, (if has e.(attrs).(config) SBI_SSE_ATTR_CONFIG_ONESHOT then snd <$> sse_event_disable r s1 else Some s1) = Some s2 /\
            quiet s1 s2 /\ ev_state s2 r = (if has e.(attrs).(config) SBI_SSE_ATTR_CONFIG_ONESHOT then SBI_SSE_STATE_REGISTERED
                                            else SBI_SSE_STATE_ENABLED)) as (s2 & -> & (Hi2 & Hq & Hd & Hsup) & Hev).
  { destruct (has _ _); [|exists s1; split; [done|]; split; [by apply quiet_refl|]; unfold ev_state; by rewrite He1].
    destruct (disable_ok s1 r (f e) Hi1 He1) as (ret & s2 & E & Hq). exists s2. rewrite E. split; [done|]. split; [done|].
    unfold sse_event_disable in E. rewrite He1 in E. cbn [mbind option_bind] in E. rewrite Hfe in E.
    cbn [Z.eqb Pos.eqb negb SBI_SSE_STATE_ENABLED] in E. injection E as _ <-. unfold ev_state.
    rewrite get_upd, decide_True, get_remove, get_invoke, He1 by done. cbn [fmap option_fmap option_map from_option]. by apply state_set. }
  cbn [mbind option_bind]. eexists. split; [done|]. pose proof (same_invoke complete_cb e s2) as Hsm.
  split; [by eapply inv_same|]. split; [by rewrite (stack_same _ _ me Hsm), Hq|].
  split; [intros h Hne; rewrite (stack_same _ _ h Hsm), Hq; by apply Hot1|].
  split; [intros h; rewrite (sm_list _ _ Hsm), Hd; apply Hd1|]. split; [by rewrite (sm_sup _ _ Hsm), Hsup|].
  unfold ev_state. rewrite get_invoke. exact Hev.
Qed.

(** ** Attributes *)

(** A started hart has its state. *)
Definition env_ok (env : sse_env) s : Prop :=
  forall i h, env.(hsm_sys) !! i = Some h -> h.(hd).(state) = SBI_HSM_STATE_STARTED -> is_Some (elist s i).

Lemma env_ok_quiet env s s' : quiet s s' -> env_ok env s -> env_ok env s'.
Proof. intros (_ & _ & Hd & _) H i h Hi Hs. apply Hd. by eapply H. Qed.

Lemma hart_id_check_ok env me val e s : env_ok env s -> sse_event_set_hart_id_check h2i env me val e = Some SBI_OK ->
  sse_event_is_global e = true /\ is_Some (elist s (h2i (u32 val))).
Proof.
  intros Hok. unfold sse_event_set_hart_id_check. destruct (sse_event_is_global e); cbn [negb]; [|done].
  destruct (sbi_domain_is_assigned_hart _ _) eqn:Ea; cbn [negb]; [|done]. unfold sbi_hsm_hart_get_state. rewrite Ea. cbn [negb].
  unfold __sbi_hsm_hart_get_state. cbn [run]. unfold has_scratch. destruct (hsm_sys env !! h2i (u32 val)) as [h|] eqn:Eh.
  - rewrite bool_decide_eq_true_2 by done. cbn [Z.b2z Z.eqb]. cbn [run]. unfold rd. rewrite Eh. cbn [fmap option_fmap option_map default from_option id].
    destruct (Z.eqb_spec h.(hd).(state) SBI_HSM_STATE_STARTED); [|done]. intros _. split; [done|]. by eapply Hok.
  - rewrite bool_decide_eq_false_2 by (by intros []). cbn. done.
Qed.

(** Which attributes may be written in which state. *)
Lemma attr_check_cases env me e id val : sse_event_set_attr_check h2i i2h env me e id val = Some SBI_OK ->
  (id = SBI_SSE_ATTR_PREFERRED_HART /\ sse_event_state e < SBI_SSE_STATE_ENABLED /\
     sse_event_set_hart_id_check h2i env me val e = Some SBI_OK) \/
  ((id = SBI_SSE_ATTR_CONFIG \/ id = SBI_SSE_ATTR_PRIO /\ val = u32 val) /\ sse_event_state e < SBI_SSE_STATE_ENABLED) \/
  ((id = SBI_SSE_ATTR_INTERRUPTED_SEPC \/ id = SBI_SSE_ATTR_INTERRUPTED_FLAGS \/ id = SBI_SSE_ATTR_INTERRUPTED_A6 \/
    id = SBI_SSE_ATTR_INTERRUPTED_A7) /\ sse_event_state e = SBI_SSE_STATE_RUNNING /\ e.(attrs).(hartid) = i2h me).
Proof.
  unfold sse_event_set_attr_check. cbv zeta.
  destruct (Z.eqb_spec id SBI_SSE_ATTR_CONFIG) as [->|_].
  { destruct (Z.leb_spec SBI_SSE_STATE_ENABLED (sse_event_state e)); [done|]. intros _. right. left. auto. }
  destruct (Z.eqb_spec id SBI_SSE_ATTR_PRIO) as [->|_].
  { destruct (Z.leb_spec SBI_SSE_STATE_ENABLED (sse_event_state e)); [done|]. destruct (Z.eqb_spec val (u32 val)); [|done].
    intros _. right. left. auto. }
  destruct (Z.eqb_spec id SBI_SSE_ATTR_PREFERRED_HART) as [->|_].
  { destruct (Z.leb_spec SBI_SSE_STATE_ENABLED (sse_event_state e)); [done|]. intros H'. left. auto. }
  intros H. right. right. assert (forall o, o = Some SBI_OK -> o = Some (if negb (sse_event_state e =? SBI_SSE_STATE_RUNNING) then SBI_EINVALID_STATE
    else if negb (i2h me =? e.(attrs).(hartid)) then SBI_EINVAL else SBI_OK) ->
    sse_event_state e = SBI_SSE_STATE_RUNNING /\ e.(attrs).(hartid) = i2h me) as Hint.
  { intros o -> Ho. destruct (Z.eqb_spec (sse_event_state e) SBI_SSE_STATE_RUNNING); [|done].
    destruct (Z.eqb_spec (i2h me) e.(attrs).(hartid)); [by split|done]. }
  destruct (Z.eqb_spec id SBI_SSE_ATTR_INTERRUPTED_FLAGS) as [->|_].
  { destruct (has _ _); [done|]. split; [auto|]. by eapply Hint. }
  destruct (Z.eqb_spec id SBI_SSE_ATTR_INTERRUPTED_SEPC) as [->|_]; [split; [auto|by eapply Hint]|].
  destruct (Z.eqb_spec id SBI_SSE_ATTR_INTERRUPTED_A6) as [->|_]; [split; [auto|by eapply Hint]|].
  destruct (Z.eqb_spec id SBI_SSE_ATTR_INTERRUPTED_A7) as [->|_]; [split; [auto|by eapply Hint]|]. done.
Qed.

Abbreviation attr_upd := (attr_upd h2i).

Lemma attr_write_status id val a : (attr_write id val a).(status) = a.(status).
Proof. unfold attr_write. repeat case_match; done. Qed.

Lemma set_attr_ok env me s r e e0 id val : sse_inv s -> env_ok env s -> get_event s r = Some e ->
  sse_event_state e = sse_event_state e0 -> e.(event_id) = e0.(event_id) ->
  sse_event_set_attr_check h2i i2h env me e0 id val = Some SBI_OK ->
  exists s', sse_event_set_attr h2i r id val s = Some s' /\ quiet s s' /\ get_event s' r = Some (attr_upd id val e).
Proof.
  intros Hi Hok He Est Eid Hc. unfold sse_event_set_attr. rewrite He. cbn [mbind option_bind]. eexists. split; [done|].
  assert (sse_event_state (attr_upd id val e) = sse_event_state e) as Hst
    by (unfold sse_event_state; cbn [attrs Sse.attr_upd]; by rewrite attr_write_status).
  assert (quiet s (upd_event r (attr_upd id val) s)) as Hq.
  { destruct (attr_check_cases env me e0 id val Hc) as [(-> & Hoff & Hh)|[[Hid Hoff]|(Hid & Hrun & _)]].
    - rewrite <- Est in Hoff. apply (quiet_off s r e); [done|done|done| |done|by rewrite Hst].
      destruct (hart_id_check_ok env me val e0 s Hok Hh) as [Hg Hsome]. unfold sse_event_is_global in Hg. rewrite <- Eid in Hg.
      pose proof (iv_ref s Hi r e He) as Hr. destruct r; [destruct Hr; congruence|by split].
    - rewrite <- Est in Hoff. apply (quiet_off s r e); [done|done|done| |done|by rewrite Hst].
      eapply ref_ok_ext; [| | |exact (iv_ref s Hi r e He)]; try done. unfold Sse.attr_upd. cbn [hartindex]. destruct Hid as [->|[-> _]]; done.
    - apply (quiet_upd s r e); [done|by rewrite Hst|]. apply (inv_upd_in_place s r e); [done|done|done| | |by rewrite Hst];
        destruct Hid as [->|[->|[->| ->]]]; done. }
  split.
  - eapply quiet_chain; [exact Hq|]. destruct (_ =? _); [apply same_invoke|apply same_refl].
  - assert (get_event (upd_event r (attr_upd id val) s) r = Some (attr_upd id val e)) as G by (by rewrite get_upd, decide_True, He by done).
    destruct (_ =? _); [by rewrite get_invoke|done].
Qed.

Fixpoint attrs_upd (id : Z) (vals : list Z) e : sbi_sse_event X :=
  match vals with [] => e | val :: vals => attrs_upd (id + 1) vals (attr_upd id val e) end.

Lemma set_attrs_ok env me r e0 id vals s e : sse_inv s -> env_ok env s -> get_event s r = Some e ->
  sse_event_state e = sse_event_state e0 -> e.(event_id) = e0.(event_id) ->
  check_attrs h2i i2h env me e0 id vals = Some 0 ->
  exists s', set_attrs h2i r id vals s = Some s' /\ quiet s s' /\ get_event s' r = Some (attrs_upd id vals e).
Proof.
  revert id s e. induction vals as [|val vals IH]; intros id s e Hi Hok He Est Eid Hc.
  - exists s. split; [done|]. split; [by apply quiet_refl|done].
  - cbn [check_attrs] in Hc. destruct (sse_event_set_attr_check h2i i2h env me e0 id val) as [ret|] eqn:Ec; [|done]. cbn [mbind option_bind] in Hc.
    destruct (Z.eqb_spec ret 0) as [->|]; cbn [negb] in Hc; [|by injection Hc].
    destruct (set_attr_ok env me s r e e0 id val Hi Hok He Est Eid Ec) as (s1 & E1 & Hq1 & G1).
    destruct (IH (id + 1) s1 (attr_upd id val e)) as (s2 & E2 & Hq2 & G2); try done.
    + apply Hq1.
    + by eapply env_ok_quiet.
    + unfold sse_event_state. cbn [attrs Sse.attr_upd]. by rewrite attr_write_status.
    + exists s2. cbn [set_attrs]. rewrite E1. cbn [mbind option_bind]. split; [done|]. split; [|done]. by eapply quiet_trans.
Qed.

Lemma attr_check_total env me e id val : is_Some (sse_event_set_attr_check h2i i2h env me e id val).
Proof.
  unfold sse_event_set_attr_check. cbv zeta. repeat (case_match; try done).
  unfold sse_event_set_hart_id_check. destruct (negb _); [done|]. destruct (sbi_domain_is_assigned_hart _ _) eqn:Ea; cbn [negb]; [|done].
  unfold sbi_hsm_hart_get_state. rewrite Ea. cbn [negb]. unfold __sbi_hsm_hart_get_state. cbn [run]. unfold has_scratch.
  destruct (bool_decide _); cbn; done.
Qed.

Lemma check_attrs_total env me e id vals : is_Some (check_attrs h2i i2h env me e id vals).
Proof.
  revert id. induction vals as [|val vals IH]; intros id; [done|]. cbn [check_attrs].
  destruct (attr_check_total env me e id val) as [ret ->]. cbn [mbind option_bind]. destruct (negb _); [done|]. apply IH.
Qed.

(** Writing attributes: all of them, or none. *)
Lemma write_attrs_ok env me r e base count phys m s : sse_inv s -> env_ok env s -> get_event s r = Some e ->
  exists ret s', sse_write_attrs h2i i2h env me r base count phys m m s = Some (ret, s') /\ quiet s s' /\
    if ret =? 0 then get_event s' r = Some (attrs_upd base (read_longs m phys (Z.to_nat count)) e) else s' = s.
Proof.
  intros Hi Hok He. unfold sse_write_attrs. rewrite He. cbn [mbind option_bind].
  destruct (check_attrs_total env me e base (read_longs m phys (Z.to_nat count))) as [ret Ec]. rewrite Ec. cbn [mbind option_bind].
  destruct (Z.eqb_spec ret 0) as [->|Hne]; cbn [negb].
  - destruct (set_attrs_ok env me r e base _ s e Hi Hok He eq_refl eq_refl Ec) as (s' & -> & Hq & G). cbn [mbind option_bind].
    eexists _, _. split; [done|]. by split.
  - eexists _, _. split; [done|]. split; [by apply quiet_refl|]. by rewrite (proj2 (Z.eqb_neq ret 0)).
Qed.

(** ** Calls *)

(** An operation is fine when it is quiet; it only fails to return when an address
    check of the domain does not end. *)
Definition fine (env : sse_env) (me : Z) s (o : option (Z * sse_sys X)) : Prop :=
  match o with
  | Some (_, s') => quiet s s'
  | None => exists a z f, check_range shl64 env me a z f = None
  end.

Lemma fine_ok env me s o : (exists ret s', o = Some (ret, s') /\ quiet s s') -> fine env me s o.
Proof. by intros (ret & s' & -> & Hq). Qed.

Lemma inject_send_ok env hid id s : sse_inv s -> quiet s (sse_ipi_inject_send h2i env hid id s).2.
Proof.
  intros Hi. unfold sse_ipi_inject_send. destruct (s.(harts) !! h2i (u32 hid)) as [hs|]; [|by apply quiet_refl].
  case_match; [by apply quiet_refl|]. destruct (ipi_send_one env hid) as [ret l].
  apply quiet_same; [|done]. eapply same_trans; [|apply same_raise]. by apply same_on_hart.
Qed.

Lemma inject_event_ok env me id hid s : sse_inv s -> is_Some (elist s me) ->
  exists ret s', sse_inject_event h2i i2h env me id hid s = Some (ret, s') /\ quiet s s'.
Proof.
  intros Hi Hme. apply with_event_ok; [done..|]. intros r e He. rewrite He. cbn [mbind option_bind].
  set (hid' := if sse_event_is_global e then _ else _). destruct (negb (hid' =? i2h me)).
  - pose proof (inject_send_ok env hid' id s Hi) as Hq. destruct (sse_ipi_inject_send h2i env hid' id s) as [ret s']. eauto.
  - by eapply set_pending_ok.
Qed.

Lemma attr_check_fine env me base count lo hi access :
  sbi_sse_attr_check shl64 env me base count lo hi access = None -> exists a z f, check_range shl64 env me a z f = None.
Proof.
  unfold sbi_sse_attr_check. cbv zeta. repeat (case_match; try done).
  destruct (check_range shl64 env me lo (8 * count) access) eqn:E; [done|]. eauto.
Qed.

Lemma read_attrs_fine env me id base count lo hi s : sse_inv s -> is_Some (elist s me) ->
  fine env me s (sbi_sse_read_attrs shl64 env me id base count lo hi s).
Proof.
  intros Hi Hme. unfold sbi_sse_read_attrs. destruct (sbi_sse_attr_check _ _ _ _ _ _ _ _) as [ret|] eqn:E; [|by eapply attr_check_fine].
  cbn [mbind option_bind]. destruct (negb _); [by apply quiet_refl|]. apply fine_ok, with_event_ok; [done..|].
  intros r e He. rewrite He. cbn [mbind option_bind]. eexists _, _. split; [done|]. by apply quiet_same; [apply same_mem|].
Qed.

Lemma write_attrs_fine env me id base count lo hi s : sse_inv s -> env_ok env s -> is_Some (elist s me) ->
  fine env me s (sbi_sse_write_attrs h2i i2h shl64 env me id base count lo hi s).
Proof.
  intros Hi Hok Hme. unfold sbi_sse_write_attrs. destruct (sbi_sse_attr_check _ _ _ _ _ _ _ _) as [ret|] eqn:E; [|by eapply attr_check_fine].
  cbn [mbind option_bind]. destruct (negb _); [by apply quiet_refl|]. apply fine_ok, with_event_ok; [done..|].
  intros r e He. destruct (write_attrs_ok env me r e base count lo s.(mem) s) as (ret' & s' & E' & Hq & _); [done..|]. eauto.
Qed.

Lemma register_fine env me id pc arg s : sse_inv s -> is_Some (elist s me) ->
  fine env me s (sbi_sse_register shl64 env me id pc arg s).
Proof.
  intros Hi Hme. unfold sbi_sse_register. destruct (has _ _); [by apply quiet_refl|].
  destruct (check_range shl64 env me pc 8 SBI_DOMAIN_EXECUTE) as [b|] eqn:E; [|by eexists _, _, _]. cbn [mbind option_bind].
  destruct (negb b); [by apply quiet_refl|]. apply fine_ok, with_event_ok; [done..|]. intros r e He. by eapply register_ok.
Qed.

Lemma mask_quiet me s : sse_inv s -> quiet s (sbi_sse_hart_mask me s).2 /\ quiet s (sbi_sse_hart_unmask me s).2.
Proof.
  intros Hi. unfold sbi_sse_hart_mask, sbi_sse_hart_unmask. destruct (s.(harts) !! me) as [hs|]; [|by split; apply quiet_refl].
  split; case_match; cbn [snd]; try (by apply quiet_refl); apply quiet_same; try done; by apply same_on_hart.
Qed.

(** A call other than the completion of a handler. *)
Lemma handler_fine env me funcid c s : sse_inv s -> env_ok env s -> is_Some (elist s me) -> funcid <> SBI_EXT_SSE_COMPLETE ->
  match sbi_ecall_sse_handler misa_H h2i i2h shl64 env me funcid c s with
  | Some (_, skip, c', s') => quiet s s' /\ skip = false /\ c' = c
  | None => exists a z f, check_range shl64 env me a z f = None
  end.
Proof.
  intros Hi Hok Hme Hf.
  assert (forall o, fine env me s o -> match plain c o with
    | Some (_, skip, c', s') => quiet s s' /\ skip = false /\ c' = c
    | None => exists a z f, check_range shl64 env me a z f = None end) as Hp by (by intros [[]|]).
  destruct (mask_quiet me s Hi) as [Hm Hu].
  unfold sbi_ecall_sse_handler.
  destruct (funcid =? SBI_EXT_SSE_READ_ATTR); [by apply Hp, read_attrs_fine|].
  destruct (funcid =? SBI_EXT_SSE_WRITE_ATTR); [by apply Hp, write_attrs_fine|].
  destruct (funcid =? SBI_EXT_SSE_REGISTER); [by apply Hp, register_fine|].
  destruct (funcid =? SBI_EXT_SSE_UNREGISTER); [apply Hp, fine_ok, with_event_ok; [done..|]; intros r e He; by eapply unregister_ok|].
  destruct (funcid =? SBI_EXT_SSE_ENABLE); [apply Hp, fine_ok, with_event_ok; [done..|]; intros r e He; by eapply enable_ok|].
  destruct (funcid =? SBI_EXT_SSE_DISABLE); [apply Hp, fine_ok, with_event_ok; [done..|]; intros r e He; by eapply disable_ok|].
  destruct (Z.eqb_spec funcid SBI_EXT_SSE_COMPLETE); [done|].
  destruct (funcid =? SBI_EXT_SSE_INJECT).
  { apply Hp. unfold sbi_sse_inject_from_ecall. destruct (negb _); [by apply quiet_refl|]. by apply fine_ok, inject_event_ok. }
  destruct (funcid =? SBI_EXT_SSE_HART_MASK); [apply Hp; by destruct (sbi_sse_hart_mask me s)|].
  destruct (funcid =? SBI_EXT_SSE_HART_UNMASK); [apply Hp; by destruct (sbi_sse_hart_unmask me s)|]. apply Hp. by apply quiet_refl.
Qed.

Lemma inject_loop_ok me q s : sse_inv s -> is_Some (elist s me) ->
  exists s', inject_loop me q s = Some s' /\ quiet s s'.
Proof.
  revert s. induction q as [|id q IH]; intros s Hi Hme; [by exists s; split; [|apply quiet_refl]|]. cbn [inject_loop].
  set (s1 := on_hart me (set_fifo q) s). assert (same s s1) as Hsm by (by apply same_on_hart).
  pose proof (quiet_same _ _ Hsm Hi) as Hq1. assert (is_Some (elist s1 me)) as Hme1 by (by rewrite (sm_list _ _ Hsm)).
  destruct (event_get_ok me id s1 Hme1) as ([rc o] & -> & Ho). cbn [mbind option_bind snd] in *. destruct o as [r|].
  - destruct Ho as (e & He & _). destruct (set_pending_ok s1 r e) as (ret & s2 & -> & Hq2); [apply Hq1|done|]. cbn [mbind option_bind snd].
    assert (quiet s s2) as Hq by (by eapply quiet_trans).
    destruct (IH s2) as (s3 & -> & Hq3); [apply Hq|by apply Hq|]. exists s3. split; [done|]. by eapply quiet_trans.
  - destruct (IH s1) as (s3 & -> & Hq3); [apply Hq1|done|]. exists s3. split; [done|]. by eapply quiet_trans.
Qed.

Lemma ipi_process_ok me s : sse_inv s -> is_Some (elist s me) ->
  exists s', sse_ipi_inject_process me s = Some s' /\ quiet s s'.
Proof.
  intros Hi Hme. unfold sse_ipi_inject_process. unfold elist in Hme. destruct (s.(harts) !! me) as [hs|] eqn:Eh; [|by destruct Hme].
  cbn [mbind option_bind]. assert (same s (on_hart me (set_ipi false) s)) as Hsm by (by apply same_on_hart).
  pose proof (quiet_same _ _ Hsm Hi) as Hq. destruct (inject_loop_ok me hs.(inject_fifo) (on_hart me (set_ipi false) s)) as (s' & -> & Hq').
  - apply Hq.
  - rewrite (sm_list _ _ Hsm). unfold elist. by rewrite Eh.
  - exists s'. split; [done|]. by eapply quiet_trans.
Qed.
End Ops.

(** ** Boot *)

Section Boot.
Context {X : Type}.
Context (i2h : Z -> Z).
Implicit Types (s : sse_sys X) (e : sbi_sse_event X) (r : eref).

(** What holds before a hart gets its state: as the invariant, but global events may
    already prefer the hart. *)
Record pre_inv (me : Z) s : Prop := {
  pv_me : s.(harts) !! me = None;
  pv_list h l r : elist s h = Some l -> r ∈ l <-> ev_live s h r;
  pv_sorted h l : elist s h = Some l -> StronglySorted (ev_lt s) l;
  pv_ref r e : get_event s r = Some e ->
    ref_ok e r s \/ ((exists i, r = GlobalEvent i) /\ EVENT_IS_GLOBAL e.(event_id) = true /\
                     e.(hartindex) = me /\ sse_event_state e < SBI_SSE_STATE_ENABLED);
  pv_ids r r' e e' : get_event s r = Some e -> get_event s r' = Some e' -> e.(event_id) = e'.(event_id) ->
    same_owner r r' -> r = r';
  pv_sup : NoDup (info_event_id <$> s.(supported_events));
}.

Lemma inv_pre me s : sse_inv s -> NoDup (info_event_id <$> s.(supported_events)) -> s.(harts) !! me = None -> pre_inv me s.
Proof. intros [I1 I2 I3 I4] Hs Hm. constructor; try done. intros r e He. left. by apply I3. Qed.

(** The events a hart starts with. *)
Definition new_locals (me : Z) s : list (sbi_sse_event X) := (fun i => sse_event_init i2h me i zero_attrs) <$> local_infos s.

Lemma zip_init me s : zip_with (fun i e => sse_event_init i2h me i e.(attrs)) (local_infos s)
    ((fun i => Event zero_attrs 0 0 i) <$> local_infos s) = new_locals me s.
Proof. unfold new_locals. induction (local_infos s) as [|i l IH]; [done|]. cbn. by rewrite IH. Qed.

Lemma hart_init_spec res me s : s.(harts) !! me = None -> res.(zalloc_hart) = true ->
  exists s', sse_hart_init i2h res me s = (SBI_OK, s') /\ s'.(harts) = <[me := HartState [] (new_locals me s) true [] false]> s.(harts) /\
    s'.(global_events) = s.(global_events) /\ s'.(supported_events) = s.(supported_events).
Proof.
  intros Hm Hz. unfold sse_hart_init. rewrite Hm, Hz. cbn [negb]. eexists. split; [done|]. split; [|done]. cbn.
  rewrite !alter_insert_eq. unfold set_fifo, set_list, set_locals. cbn [enabled_event_list local_events masked inject_fifo inject_ipi].
  do 2 f_equal. apply (zip_init me s).
Qed.

Lemma init_state me i : sse_event_state (sse_event_init i2h me i zero_attrs : sbi_sse_event X) = SBI_SSE_STATE_UNUSED.
Proof. done. Qed.

Lemma filter_infos_NoDup s (b : bool) : NoDup (info_event_id <$> s.(supported_events)) ->
  NoDup (info_event_id <$> filter (fun i => EVENT_IS_GLOBAL i.(info_event_id) = b) s.(supported_events)).
Proof. intros H. eapply sublist_NoDup; [exact H|]. apply fmap_sublist, sublist_filter. Qed.

(** A hart that gets its state. *)
Lemma boot_inv res me s s' : pre_inv me s -> sse_hart_init i2h res me s = (SBI_OK, s') ->
  sse_inv s' /\ s'.(supported_events) = s.(supported_events).
Proof.
  intros [Hm V1 V2 V3 V4 Vs] E. destruct (zalloc_hart res) eqn:Hz.
  2: { unfold sse_hart_init in E. rewrite Hm, Hz in E. done. }
  destruct (hart_init_spec res me s Hm Hz) as (s2 & E2 & Hh & Hg & Hs). rewrite E2 in E. injection E as <-. split; [|done].
  assert (forall r, get_event s2 r = match r with
            | LocalEvent h i => if decide (h = me) then new_locals me s !! i else get_event s r
            | GlobalEvent _ => get_event s r end) as G.
  { intros [h i|i]; cbn; [|by rewrite Hg]. rewrite Hh, lookup_insert. repeat case_decide; try congruence; done. }
  assert (forall h, elist s2 h = if decide (h = me) then Some [] else elist s h) as L.
  { intros h. unfold elist. rewrite Hh, lookup_insert. repeat case_decide; try congruence; done. }
  assert (forall i e, new_locals me s !! i = Some e -> e.(hartindex) = me /\ EVENT_IS_GLOBAL e.(event_id) = false /\
            sse_event_state e = SBI_SSE_STATE_UNUSED) as Hnew.
  { intros i e (x & -> & Hx)%list_lookup_fmap_Some_1. split; [done|]. split; [|done]. cbn.
    by apply list_elem_of_lookup_2, list_elem_of_filter in Hx as [Hx _]. }
  assert (forall r e, get_event s2 r = Some e -> e.(hartindex) = me -> sse_event_state e < SBI_SSE_STATE_ENABLED) as Hoff.
  { intros r e He Hhi. rewrite G in He. destruct r as [h i|i]; [case_decide as Hd|].
    - by apply Hnew in He as (_ & _ & ->).
    - destruct (V3 _ _ He) as [[Hx _]|[[? ?] _]]; congruence.
    - destruct (V3 _ _ He) as [[[l Hx] _]|(_ & _ & _ & Hx)]; [|done]. rewrite Hhi in Hx. unfold elist in Hx. by rewrite Hm in Hx. }
  assert (forall h r, h <> me -> ev_live s2 h r <-> ev_live s h r) as Hlive.
  { intros h r Hne. unfold ev_live. rewrite G. destruct r as [h' i|i]; [|done]. case_decide as Hd; [|done]. subst h'. split.
    - intros (e & (He & _)%Hnew & _ & Hx). congruence.
    - intros (e & He & _). cbn in He. by rewrite Hm in He. }
  constructor.
  - intros h l r Hl. rewrite L in Hl. case_decide as Hd; [|rewrite Hlive by done; by apply V1]. simplify_eq. split.
    + intros Hr. by apply elem_of_nil in Hr.
    + intros (e & He & Hst & Hhi). pose proof (Hoff r e He Hhi). unfold SBI_SSE_STATE_ENABLED in *. lia.
  - intros h l Hl. rewrite L in Hl. case_decide as Hd; simplify_eq; [constructor|]. eapply sorted_mono; [|exact (V2 h l Hl)].
    intros a b _ _ (x & y & Hx & Hy & Hb). exists x, y.
    assert (forall k z, get_event s k = Some z -> get_event s2 k = Some z) as Hk; [|by auto].
    intros k z Hz'. rewrite G. destruct k as [h' i|i]; [|done]. case_decide; [|done]. subst. cbn in Hz'. by rewrite Hm in Hz'.
  - intros r e He. rewrite G in He. destruct r as [h i|i]; [case_decide as Hd|].
    + apply Hnew in He as (Hx & Hy & _). subst. by split.
    + destruct (V3 _ _ He) as [[Hx Hy]|[[? ?] _]]; [by split|congruence].
    + destruct (V3 _ _ He) as [[Hx Hy]|(_ & Hy & Hx & _)]; (split; [|done]); rewrite L; case_decide; try done.
  - intros r r' e e' He He' Hid Ho. rewrite G in He, He'. destruct r as [h i|i], r' as [h' i'|i']; try done.
    + cbn in Ho. subst h'. case_decide as Hd; [|by eapply V4]. f_equal. pose proof (filter_infos_NoDup s false Vs) as Hn.
      apply list_lookup_fmap_Some_1 in He as (x & -> & Hx), He' as (y & -> & Hy). cbn in Hid.
      eapply (NoDup_lookup _ i i' (info_event_id x) Hn); rewrite list_lookup_fmap; fold (local_infos s); [by rewrite Hx|].
      rewrite Hy. cbn. by rewrite Hid.
    + by eapply V4.
Qed.

(** The state of the firmware when the boot hart starts, with the events that were
    added before. *)
Record cold_state s : Prop := {
  cd_harts : s.(harts) = ∅;
  cd_globals : s.(global_events) = [];
  cd_sup : NoDup (info_event_id <$> s.(supported_events));
}.

Lemma cold_pre me s s' : cold_state s -> sse_global_init i2h true me (sse_event_count_init s) = (SBI_OK, s') -> pre_inv me s'.
Proof.
  intros [H1 H2 H3] E. unfold sse_global_init in E. cbn [negb] in E. injection E as <-.
  assert (forall r e, get_event (set_globals ((fun i => sse_event_init i2h me i zero_attrs) <$> global_infos (sse_event_count_init s))
            (sse_event_count_init s)) r = Some e ->
            exists k i, r = GlobalEvent k /\ global_infos s !! k = Some i /\ e = sse_event_init i2h me i zero_attrs) as G.
  { intros [h k|k] e He; cbn in He; [by rewrite H1, lookup_empty in He|].
    apply list_lookup_fmap_Some_1 in He as (i & -> & Hi). by exists k, i. }
  assert (forall h, elist (set_globals ((fun i => sse_event_init i2h me i zero_attrs) <$> global_infos (sse_event_count_init s))
            (sse_event_count_init s)) h = None) as L by (intros h; unfold elist; cbn; by rewrite H1, lookup_empty).
  constructor.
  - cbn. by rewrite H1, lookup_empty.
  - intros h l r Hl. by rewrite L in Hl.
  - intros h l Hl. by rewrite L in Hl.
  - intros r e (k & i & -> & Hi & ->)%G. right. split; [by exists k|]. split; [|done]. cbn.
    by apply list_elem_of_lookup_2, list_elem_of_filter in Hi as [Hi _].
  - intros r r' e e' (k & i & -> & Hi & ->)%G (k' & i' & -> & Hi' & ->)%G Hid _. f_equal. cbn in Hid.
    eapply (NoDup_lookup _ k k' (info_event_id i) (filter_infos_NoDup s true H3)); rewrite list_lookup_fmap; fold (global_infos s); [by rewrite Hi|].
    rewrite Hi'. cbn. by rewrite Hid.
  - done.
Qed.

Lemma cold_boot_inv res me s s' : cold_state s -> sbi_sse_init i2h res me true s = (SBI_OK, s') ->
  sse_inv s' /\ s'.(supported_events) = s.(supported_events).
Proof.
  intros Hc E. unfold sbi_sse_init in E. destruct (zalloc_global res) eqn:Hz.
  2: { done. }
  destruct (sse_global_init i2h true me (sse_event_count_init s)) as [ret s1] eqn:E1.
  assert (ret = SBI_OK /\ s1.(supported_events) = s.(supported_events)) as [-> Hs1] by (unfold sse_global_init in E1; cbn in E1; injection E1 as <- <-; done).
  cbn [Z.eqb negb SBI_OK] in E. pose proof (cold_pre me s s1 Hc E1) as Hp.
  repeat (case_match; [done || by (injection E as E _; rewrite E in *; done)|]).
  destruct (boot_inv res me s1 s' Hp E) as [Hi Hs]. split; [done|congruence].
Qed.
End Boot.
