(* ===== verification/SseProps.v ===== *)
(** * What the supervisor software events promise.

    The harts make SSE calls, take interrupts and return to their supervisor in any
    order.  The theorems: the lists of enabled events stay exact and in order; the
    event that is injected has the highest priority of those that may run; handlers
    nest like calls; completing a handler takes the hart back to the interrupted
    context; and attributes are written all or none and read back.  The theorems about
    defects follow. *)

From stdpp Require Import sorting.
From S2P Require Import Prelude SbiTypes Bitops Hartmask Domain Hsm Sse SseInv.

Local Open Scope Z_scope.

Section System.
Context {X : Type}.
Context (misa_H : bool) (h2i i2h : Z -> Z) (shl64 : Z).
Implicit Types (s : sse_sys X) (e : sbi_sse_event X) (r : eref).

(** A step of the system: an SSE call of a hart, the end of a trap, the interrupt for
    queued events, an event raised by the firmware, a write of a supervisor to its
    memory, the start of another hart. *)
Inductive sse_step : sse_sys X -> sse_sys X -> Prop :=
| step_call env me funcid c ret skip c' s s' :
    env_ok env s -> is_Some (elist s me) ->
    sbi_ecall_sse_handler misa_H h2i i2h shl64 env me funcid c s = Some (ret, skip, c', s') -> sse_step s s'
| step_process me c c' s s' :
    sbi_sse_process_pending_events misa_H i2h me c s = Some (c', s') -> sse_step s s'
| step_ipi me s s' : sse_ipi_inject_process me s = Some s' -> sse_step s s'
| step_inject env me id ret s s' :
    is_Some (elist s me) -> sbi_sse_inject_event h2i i2h env me id s = Some (ret, s') -> sse_step s s'
| step_memory m s : sse_step s (set_mem m s)
| step_boot res me s s' :
    s.(harts) !! me = None -> sbi_sse_init i2h res me false s = (SBI_OK, s') -> sse_step s s'.

Definition sys_ok s : Prop := sse_inv s /\ NoDup (info_event_id <$> s.(supported_events)).

Lemma sys_ok_quiet s s' : sys_ok s -> quiet s s' -> sys_ok s'.
Proof. intros [_ Hn] (Hi & _ & _ & Hs). split; [done|]. by rewrite Hs. Qed.

Lemma elist_hart s me : is_Some (elist s me) -> exists hs, s.(harts) !! me = Some hs.
Proof. unfold elist. destruct (s.(harts) !! me) as [hs|]; [by eexists|by intros []]. Qed.

(** The end of a trap, with what it does to the handlers. *)
Lemma process_effect s me hs c : sse_inv s -> s.(harts) !! me = Some hs ->
  exists c' s', sbi_sse_process_pending_events misa_H i2h me c s = Some (c', s') /\ sse_inv s' /\
    s'.(supported_events) = s.(supported_events) /\
    ((c' = c /\ s' = s) \/
     exists r e, ready_here i2h s me r e /\ (sse_event_inject misa_H (i2h me) e c).2 = c' /\
       s' = upd_event r (fun _ => (sse_event_inject misa_H (i2h me) e c).1) s /\
       run_stack s' me = r :: run_stack s me /\ forall h, h <> me -> run_stack s' h = run_stack s h).
Proof.
  intros Hi Hme. destruct (process_spec misa_H i2h s me hs c Hi Hme) as (c' & s' & E & [(-> & -> & _)|(r & e & Hm & Hrd & Hord & Ec & Es)]).
  - eexists _, _. split; [exact E|]. split; [done|]. split; [done|]. by left.
  - eexists _, _. split; [exact E|]. subst c' s'.
    assert (is_Some (elist s me)) as Hl by (unfold elist; rewrite Hme; by eexists).
    destruct (inject_stack misa_H i2h s me r e c Hi Hl Hrd) as (Hi' & Hst & Hot).
    { intros r' e' Hr Hne. apply (Hord r' e'); [by left|done]. }
    split; [exact Hi'|]. split; [apply supported_upd|]. right. by exists r, e.
Qed.

Lemma sse_step_ok s s' : sys_ok s -> sse_step s s' -> sys_ok s'.
Proof.
  intros Hok Hst. destruct Hok as [Hi Hn] eqn:Hok'. clear Hok'. destruct Hst as
    [env me funcid c ret skip c' s s' He Hme E|me c c' s s' E|me s s' E|env me id ret s s' Hme E|m s|res me s s' Hm E].
  - destruct (decide (funcid = SBI_EXT_SSE_COMPLETE)) as [->|Hf].
    + change (sbi_sse_complete misa_H i2h me c s = Some (ret, skip, c', s')) in E. destruct (elist_hart s me Hme) as [hs Hs].
      pose proof (complete_spec misa_H i2h s me hs c Hi Hs) as H. destruct (run_stack s me) as [|r rest]; [rewrite H in E; by simplify_eq|].
      destruct H as (e & _ & H). destruct (_ =? _); [|rewrite H in E; by simplify_eq].
      destruct H as (s2 & E2 & Hi2 & _ & _ & _ & Hs2 & _). rewrite E2 in E. simplify_eq. split; [done|]. by rewrite Hs2.
    + pose proof (handler_fine misa_H h2i i2h shl64 env me funcid c s Hi He Hme Hf) as H. rewrite E in H. destruct H as [H _].
      by eapply sys_ok_quiet.
  - assert (exists hs, s.(harts) !! me = Some hs) as [hs Hs].
    { unfold sbi_sse_process_pending_events in E. destruct (s.(harts) !! me); [by eexists|done]. }
    destruct (process_effect s me hs c Hi Hs) as (c2 & s2 & E2 & Hi2 & Hs2 & _). rewrite E2 in E. simplify_eq. split; [done|]. by rewrite Hs2.
  - assert (is_Some (elist s me)) as Hme by (unfold sse_ipi_inject_process in E; unfold elist; by destruct (s.(harts) !! me)).
    destruct (ipi_process_ok me s Hi Hme) as (s2 & E2 & Hq). rewrite E2 in E. simplify_eq. by eapply sys_ok_quiet.
  - destruct (inject_event_ok h2i i2h env me id (i2h me) s Hi Hme) as (ret2 & s2 & E2 & Hq). unfold sbi_sse_inject_event in E.
    rewrite E2 in E. simplify_eq. by eapply sys_ok_quiet.
  - eapply sys_ok_quiet; [done|]. by apply quiet_same; [apply same_mem|].
  - destruct (boot_inv i2h res me s s' (inv_pre me s Hi Hn Hm) E) as [Hi' Hs']. split; [done|]. by rewrite Hs'.
Qed.

(** The lists of enabled events are exact.  After the boot hart has initialised the
    events, whatever calls the harts make, whatever events are raised and whichever
    harts start later, the list of every hart holds exactly the events that are
    enabled or running and prefer the hart, each once, by increasing priority value
    and, for equal priorities, event id; every global event prefers a hart that has
    its state; and event ids are unique. *)
Theorem sse_lists_exact res me s0 s1 s : cold_state s0 -> sbi_sse_init i2h res me true s0 = (SBI_OK, s1) ->
  steps sse_step s1 s -> sse_inv s.
Proof.
  intros Hc E Hs. destruct (cold_boot_inv i2h res me s0 s1 Hc E) as [Hi Hsup].
  assert (sys_ok s1) as H1 by (split; [done|]; rewrite Hsup; apply Hc).
  apply (steps_invariant sse_step sys_ok sse_step_ok s1 s H1 Hs).
Qed.

(** Injection follows priorities.  On the way back from a trap a hart either
    changes nothing, because events are masked or every event that is ready has a
    running one before it, or it injects an event that is pending, enabled and prefers
    the hart, and that precedes every running and every other ready event of the
    hart. *)
Theorem sse_injects_highest_priority s me hs c : sse_inv s -> s.(harts) !! me = Some hs ->
  exists c' s', sbi_sse_process_pending_events misa_H i2h me c s = Some (c', s') /\
  ((c' = c /\ s' = s /\
    (hs.(masked) = true \/
     forall r e, ready_here i2h s me r e -> exists r' e', runs_here s me r' e' /\ event_before e' e = true)) \/
   exists r e, hs.(masked) = false /\ ready_here i2h s me r e /\
     (forall r' e', runs_here s me r' e' \/ ready_here i2h s me r' e' -> r' <> r -> event_before e e' = true) /\
     c' = (sse_event_inject misa_H (i2h me) e c).2 /\
     s' = upd_event r (fun _ => (sse_event_inject misa_H (i2h me) e c).1) s).
Proof. apply process_spec. Qed.

(** C11: handlers nest like calls.  The handlers that run on a hart form a stack: the
    end of a trap leaves it or pushes the event it injects; completion pops the top,
    resumes the context saved in that event and leaves it enabled (registered if it
    is one-shot), fails if the event no longer prefers the hart, and does nothing
    when no handler runs; every other call and the interrupt for queued events leave
    the stacks of all harts as they are and return, unless an address check of the
    caller's domain does not end. *)
Theorem sse_handlers_nest s me hs c : sse_inv s -> s.(harts) !! me = Some hs ->
  (exists c' s', sbi_sse_process_pending_events misa_H i2h me c s = Some (c', s') /\
     (forall h, h <> me -> run_stack s' h = run_stack s h) /\
     (run_stack s' me = run_stack s me \/
      exists r e, ready_here i2h s me r e /\ run_stack s' me = r :: run_stack s me)) /\
  match run_stack s me with
  | [] => sbi_sse_complete misa_H i2h me c s = Some (SBI_OK, false, c, s)
  | r :: rest => exists e, runs_here s me r e /\
      if e.(attrs).(hartid) =? i2h me then
        exists s', sbi_sse_complete misa_H i2h me c s = Some (SBI_OK, true, sse_event_resume misa_H e c, s') /\
          run_stack s' me = rest /\ (forall h, h <> me -> run_stack s' h = run_stack s h) /\
          ev_state s' r = (if has e.(attrs).(config) SBI_SSE_ATTR_CONFIG_ONESHOT then SBI_SSE_STATE_REGISTERED else SBI_SSE_STATE_ENABLED)
      else sbi_sse_complete misa_H i2h me c s = Some (SBI_EINVAL, false, c, s)
  end /\
  (forall env funcid, env_ok env s -> funcid <> SBI_EXT_SSE_COMPLETE ->
     match sbi_ecall_sse_handler misa_H h2i i2h shl64 env me funcid c s with
     | Some (_, skip, c', s') => (forall h, run_stack s' h = run_stack s h) /\ skip = false /\ c' = c
     | None => exists a z f, check_range shl64 env me a z f = None
     end) /\
  (exists s', sse_ipi_inject_process me s = Some s' /\ forall h, run_stack s' h = run_stack s h).
Proof.
  intros Hi Hme. assert (is_Some (elist s me)) as Hl by (unfold elist; rewrite Hme; by eexists). split_and!.
  - destruct (process_effect s me hs c Hi Hme) as (c' & s' & E & _ & _ & [[-> ->]|(r & e & Hrd & _ & _ & Hst & Hot)]).
    + eexists _, _. split; [exact E|]. split; [done|]. by left.
    + eexists _, _. split; [exact E|]. split; [done|]. right. by exists r, e.
  - pose proof (complete_spec misa_H i2h s me hs c Hi Hme) as H. destruct (run_stack s me) as [|r rest]; [done|].
    destruct H as (e & Hr & H). exists e. split; [done|]. destruct (_ =? _); [|done].
    destruct H as (s' & E & _ & H1 & H2 & _ & _ & H3). by exists s'.
  - intros env funcid He Hf. pose proof (handler_fine misa_H h2i i2h shl64 env me funcid c s Hi He Hl Hf) as H.
    destruct (sbi_ecall_sse_handler _ _ _ _ _ _ _ _ _) as [[[[ret skip] c'] s']|]; [|done]. destruct H as [(_ & Hq & _) H]. by split.
  - destruct (ipi_process_ok me s Hi Hl) as (s' & E & (_ & Hq & _)). by exists s'.
Qed.

(** C22: the interrupted context comes back.  When the end of a trap injects an event and
    the handler later completes, having left the status, [sepc] and [hstatus] as it
    found them and not having written the saved context, the hart continues where it
    was interrupted: same program counter, status, [sepc], [hstatus], [a6] and [a7];
    and the handlers that ran before run again.  Conditions on the interrupted
    context ([injectable]): the hart returns to S or U mode, and when the return is
    not to a virtual mode, [hstatus.SPV] is clear; otherwise the code resumes in
    virtual mode what was interrupted outside of it ([resume_in_virtual_mode]). *)
Theorem sse_context_restored s me hs c c1 s1 : sse_inv s -> s.(harts) !! me = Some hs -> injectable misa_H c ->
  sbi_sse_process_pending_events misa_H i2h me c s = Some (c1, s1) -> run_stack s1 me <> run_stack s me ->
  exists r e1, get_event s1 r = Some e1 /\ run_stack s1 me = r :: run_stack s me /\
  forall s2 hs2 e2 c2, sse_inv s2 -> s2.(harts) !! me = Some hs2 -> run_stack s2 me = run_stack s1 me ->
    get_event s2 r = Some e2 -> e2.(attrs).(hartid) = e1.(attrs).(hartid) ->
    e2.(attrs).(i_sepc) = e1.(attrs).(i_sepc) -> e2.(attrs).(i_flags) = e1.(attrs).(i_flags) ->
    e2.(attrs).(i_a6) = e1.(attrs).(i_a6) -> e2.(attrs).(i_a7) = e1.(attrs).(i_a7) -> handler_kept c1 c2 ->
    exists s3, sbi_sse_complete misa_H i2h me c2 s2 =
      Some (SBI_OK, true, Cpu c.(mepc) c.(mstatus) c2.(a0) c2.(a1) c2.(a2) c2.(a3) c2.(a4) c.(a6) c.(a7) c.(sepc) c.(hstatus), s3) /\
      run_stack s3 me = run_stack s me.
Proof.
  intros Hi Hme Hinj E Hne. destruct (process_effect s me hs c Hi Hme) as (c' & s' & E' & _ & _ & H). rewrite E' in E. injection E as <- <-.
  destruct H as [[_ ->]|(r & e & (He & Hh & Hrd) & Ec & Es & Hst & _)]; [done|]. apply ready_state in Hrd as (_ & _ & Hid).
  destruct (sse_event_inject misa_H (i2h me) e c) as [e1 c1] eqn:Einj. cbn [fst snd] in Ec, Es. subst c' s'.
  pose proof (inject_event misa_H (i2h me) e c) as Hev. rewrite Einj in Hev. cbv zeta in Hev. cbn [fst] in Hev. destruct Hev as (_ & _ & _ & _ & _ & Hid1 & _).
  exists r, e1. split; [by rewrite get_upd, decide_True, He by done|]. split; [done|].
  intros s2 hs2 e2 c2 Hi2 Hme2 Hst2 He2 Eh Es Ef E6 E7 Hk. pose proof (complete_spec misa_H i2h s2 me hs2 c2 Hi2 Hme2) as Hc.
  rewrite Hst2, Hst in Hc. destruct Hc as (e3 & (He3 & _) & Hc). rewrite He2 in He3. injection He3 as <-.
  rewrite Eh, Hid1, Hid, Z.eqb_refl in Hc. destruct Hc as (s3 & E3 & _ & Hst3 & _). exists s3. split; [|done]. rewrite E3.
  rewrite <- (inject_resume misa_H (i2h me) e e1 c c1 c2 Hinj Einj Hk). unfold sse_event_resume. by rewrite Es, Ef, E6, E7.
Qed.

(** ** Attributes *)

(** The search by id finds the event with the id. *)
Lemma event_get_owner me id s rc r : sse_event_get me id s = Some (rc, Some r) ->
  (exists i, r = GlobalEvent i) \/ (exists i, r = LocalEvent me i).
Proof.
  unfold sse_event_get. destruct (EVENT_IS_GLOBAL id).
  - destruct (list_find _ _) as [[i e]|]; intros [= <- <-]. left. by exists i.
  - destruct (s.(harts) !! me) as [hs|]; [|done]. cbn [mbind option_bind]. destruct (list_find _ _) as [[i e]|]; intros [= <- <-]. right. by exists i.
Qed.

Lemma event_get_unique me s r e : sse_inv s -> get_event s r = Some e ->
  (exists i, r = GlobalEvent i) \/ (exists i, r = LocalEvent me i) -> sse_event_get me e.(event_id) s = Some (SBI_OK, Some r).
Proof.
  intros Hi He Ho. pose proof (iv_ref s Hi r e He) as Hr. unfold sse_event_get.
  destruct Ho as [[i ->]|[i ->]]; destruct Hr as [_ ->].
  - destruct (list_find_elem_of (fun x => x.(event_id) = e.(event_id)) s.(global_events) e) as [[j x] E]; [by eapply list_elem_of_lookup_2|done|].
    rewrite E. apply list_find_Some in E as (Hj & Hx & _). do 3 f_equal.
    apply (iv_ids s Hi (GlobalEvent j) (GlobalEvent i) x e); done.
  - cbn in He. destruct (s.(harts) !! me) as [hs|] eqn:Eh; [|done]. cbn [mbind option_bind] in He |- *.
    destruct (list_find_elem_of (fun x => x.(event_id) = e.(event_id)) hs.(local_events) e) as [[j x] E]; [by eapply list_elem_of_lookup_2|done|].
    rewrite E. apply list_find_Some in E as (Hj & Hx & _). do 3 f_equal.
    apply (iv_ids s Hi (LocalEvent me j) (LocalEvent me i) x e); try done; cbn; by rewrite Eh.
Qed.

(** A write to an attribute changes its long only. *)
Lemma attr_write_longs env me e id val a : sse_event_set_attr_check h2i i2h env me e id val = Some SBI_OK ->
  attr_longs (attr_write id val a) = <[Z.to_nat id := val]> (attr_longs a).
Proof.
  intros Hc. destruct (attr_check_cases h2i i2h env me e id val Hc) as [(-> & _)|[[[->|[-> Hv]] _]|([->|[->|[->| ->]]] & _)]]; try done.
  unfold attr_longs, attr_write. cbn [Z.eqb Pos.eqb SBI_SSE_ATTR_PRIO SBI_SSE_ATTR_CONFIG]. cbn [status prio config hartid entry_pc entry_arg i_sepc i_flags i_a6 i_a7].
  rewrite <- Hv. done.
Qed.

Lemma attrs_upd_longs env me e0 id vals e j : 0 <= id -> check_attrs h2i i2h env me e0 id vals = Some 0 ->
  (Z.to_nat id + length vals <= 10)%nat ->
  attr_longs (attrs_upd h2i id vals e).(attrs) !! j =
    if decide (Z.to_nat id <= j < Z.to_nat id + length vals)%nat then vals !! (j - Z.to_nat id)%nat else attr_longs e.(attrs) !! j.
Proof.
  revert id e. induction vals as [|val vals IH]; intros id e Hid Hc Hlen.
  - rewrite decide_False by (cbn; lia). done.
  - cbn [check_attrs] in Hc. destruct (sse_event_set_attr_check h2i i2h env me e0 id val) as [ret|] eqn:Ec; [|done]. cbn [mbind option_bind] in Hc.
    destruct (Z.eqb_spec ret 0) as [->|]; cbn [negb] in Hc; [|by injection Hc]. cbn [attrs_upd length] in *.
    rewrite IH by (done || lia). replace (Z.to_nat (id + 1)) with (S (Z.to_nat id)) by lia.
    cbn [attrs attr_upd]. rewrite (attr_write_longs env me e0 id val _ Ec).
    destruct (decide (j = Z.to_nat id)) as [->|Hne].
    + rewrite decide_False, decide_True by lia. rewrite Nat.sub_diag. apply list_lookup_insert_eq. cbn [attr_longs length]. lia.
    + rewrite list_lookup_insert_ne by done. destruct (decide (S (Z.to_nat id) <= j < S (Z.to_nat id) + length vals)%nat).
      * rewrite decide_True by lia. replace (j - Z.to_nat id)%nat with (S (j - S (Z.to_nat id))) by lia. done.
      * rewrite decide_False by lia. done.
Qed.

(** Longs stored in a row are read back. *)
Lemma copy_attrs_below out l m a : a < out -> copy_attrs out l m a = m a.
Proof.
  revert out m. induction l as [|x l IH]; intros out m Ha; [done|]. cbn [copy_attrs]. rewrite IH by lia.
  unfold insert, fn_insert. by rewrite decide_False by lia.
Qed.
Lemma read_copy out l m : read_longs (copy_attrs out l m) out (length l) = l.
Proof.
  revert out m. induction l as [|x l IH]; intros out m; [done|]. cbn [copy_attrs read_longs length]. rewrite IH. f_equal.
  rewrite copy_attrs_below by lia. unfold insert, fn_insert. by rewrite decide_True by done.
Qed.
Lemma length_read_longs m a n : length (read_longs m a n) = n.
Proof. revert a. induction n as [|n IH]; intros a; [done|]. cbn. by rewrite IH. Qed.

Lemma attr_check_bounds env me base count lo hi access : 0 <= base -> 0 <= count < 2 ^ 32 ->
  sbi_sse_attr_check shl64 env me base count lo hi access = Some 0 -> 0 < count /\ base + count <= 10.
Proof.
  intros Hb Hc. unfold sbi_sse_attr_check. cbv zeta. destruct (Z.eqb_spec count 0); [done|].
  rewrite (wrap_small 32) by (unfold in_range; lia). unfold SBI_SSE_ATTR_MAX. destruct (Z.leb_spec 10 (base + (count - 1))); [done|]. lia.
Qed.

(** Attributes are written all or none, and read back.  A call that writes
    attributes and reports an error has changed nothing.  One that succeeds keeps the
    invariant, stays inside the attributes of the event, and a later call that reads
    the same attributes stores the longs that were written. *)
Theorem sse_attributes_roundtrip env me id base count lo hi s ret s1 :
  sse_inv s -> env_ok env s -> is_Some (elist s me) -> 0 <= base -> 0 <= count < 2 ^ 32 ->
  sbi_sse_write_attrs h2i i2h shl64 env me id base count lo hi s = Some (ret, s1) ->
  (ret <> 0 -> s1 = s) /\
  (ret = 0 -> sse_inv s1 /\ base + count <= SBI_SSE_ATTR_MAX /\
     forall out out_hi s2, sbi_sse_read_attrs shl64 env me id base count out out_hi s1 = Some (0, s2) ->
       read_longs s2.(mem) out (Z.to_nat count) = read_longs s.(mem) lo (Z.to_nat count)).
Proof.
  intros Hi Hok Hme Hb Hc E. unfold sbi_sse_write_attrs in E.
  destruct (sbi_sse_attr_check shl64 env me base count lo hi SBI_DOMAIN_READ) as [rc|] eqn:Ech; [|done]. cbn [mbind option_bind] in E.
  destruct (Z.eqb_spec rc 0) as [->|Hrc]; cbn [negb] in E; [|injection E as <- <-; by split]. unfold with_event in E.
  destruct (event_get_ok me id s Hme) as ([rc o] & Eg & Ho). rewrite Eg in E. cbn [mbind option_bind snd fst] in E, Ho.
  destruct o as [r|]; [|injection E as <- <-; split; [done|]; intros ->; by destruct Ho]. destruct Ho as (e & He & <-).
  pose proof (attr_check_bounds env me base count lo hi _ Hb Hc Ech) as [Hc0 Hle].
  destruct (write_attrs_ok h2i i2h env me r e base count lo s.(mem) s Hi Hok He) as (ret' & s' & E' & Hq & Hres). rewrite E' in E.
  injection E as <- <-. destruct (Z.eqb_spec ret' 0) as [->|Hne]; [|by split]. split; [done|]. intros _. split; [apply Hq|]. split; [done|].
  intros out ohi s2 Er. unfold sbi_sse_read_attrs in Er.
  destruct (sbi_sse_attr_check shl64 env me base count out ohi SBI_DOMAIN_WRITE) as [rc'|]; [|done]. cbn [mbind option_bind] in Er.
  destruct (rc' =? 0) eqn:Hrc'; cbn [negb] in Er; [|injection Er as -> _; done]. clear Hrc'. unfold with_event in Er.
  set (vals := read_longs s.(mem) lo (Z.to_nat count)) in *.
  assert ((attrs_upd h2i base vals e).(event_id) = e.(event_id)) as Eid.
  { clear. revert base e. induction vals as [|v vals IH]; intros base e; [done|]. cbn [attrs_upd]. by rewrite IH. }
  rewrite <- Eid, (event_get_unique me s' r _ (proj1 Hq) Hres (event_get_owner _ _ _ _ _ Eg)) in Er. cbn [mbind option_bind] in Er.
  rewrite Hres in Er. cbn [mbind option_bind] in Er. injection Er as <-. cbn [mem set_mem].
  unfold sse_write_attrs in E'. rewrite He in E'. cbn [mbind option_bind] in E'. fold vals in E'.
  destruct (check_attrs h2i i2h env me e base vals) as [rc2|] eqn:Ec; [|done]. cbn [mbind option_bind] in E'.
  destruct (Z.eqb_spec rc2 0) as [->|]; cbn [negb] in E'; [|by injection E'].
  assert (length vals = Z.to_nat count) as Hlen by apply length_read_longs.
  assert (take (Z.to_nat count) (drop (Z.to_nat base) (attr_longs (attrs_upd h2i base vals e).(attrs))) = vals) as ->;
    [|rewrite <- Hlen; apply read_copy].
  apply list_eq. intros j. destruct (decide (j < Z.to_nat count)%nat) as [Hj|Hj].
  - rewrite lookup_take_lt, lookup_drop, (attrs_upd_longs env me e base vals e) by (done || lia).
    rewrite decide_True by lia. f_equal. lia.
  - rewrite !lookup_ge_None_2; [done|lia|rewrite length_take; lia].
Qed.
End System.

(** ** Witnesses

    Two events, one local and one global; hart 0 registers and enables both, and the
    local one, which comes first, interrupts the handler of the global one. *)

Definition demo_dom (_ : Z) : option sbi_domain :=
  Some (Dom [3; 0] (Some [3; 0]) (Some [Region 64 0 0x3f]) 0 0x80200000 PRV_S true).
Definition demo_env : sse_env := Env demo_dom ∅ (fun _ => (0, [])).
Definition demo_res : init_results := InitResults true 8 16 24 3 true.
Definition demo_cold : sse_sys unit :=
  Sse ∅ [] builtin_events 0 0 tt (fun _ => 0).
Definition demo_cpu : cpu := Cpu 0x80201000 0x80000a0800 1 2 3 4 5 6 7 0x80200444 0x80.

Inductive sse_act := ACall (me funcid a0 a1 a2 a3 a4 : Z) | AProcess (me : Z) | AMem (a v : Z) | ABoot (me : Z).

Definition do_act (a : sse_act) (s : sse_sys unit) : option (sse_sys unit) :=
  match a with
  | ACall me funcid a0 a1 a2 a3 a4 =>
      if bool_decide (is_Some (elist s me)) then
        snd <$> sbi_ecall_sse_handler true id id 0 demo_env me funcid (Cpu 0x80201000 0x800 a0 a1 a2 a3 a4 0 0 0 0) s
      else None
  | AProcess me => snd <$> sbi_sse_process_pending_events true id me demo_cpu s
  | AMem a v => Some (set_mem (<[a := v]> s.(mem)) s)
  | ABoot me => match s.(harts) !! me, sbi_sse_init id demo_res me false s with
                | None, (0, s') => Some s'
                | _, _ => None
                end
  end.

Fixpoint do_acts (l : list sse_act) (s : sse_sys unit) : option (sse_sys unit) :=
  match l with [] => Some s | a :: l => s ← do_act a s; do_acts l s end.

Lemma demo_env_ok s : env_ok demo_env (X := unit) s.
Proof. intros i h Hi. cbn in Hi. by rewrite lookup_empty in Hi. Qed.

Lemma do_sse_act_step a s s' : do_act a s = Some s' -> sse_step true id id 0 s s'.
Proof.
  destruct a as [me funcid a0 a1 a2 a3 a4|me|a v|me]; cbn [do_act].
  - case_bool_decide; [|done]. destruct (sbi_ecall_sse_handler _ _ _ _ _ _ _ _ _) as [[[[ret skip] c'] s2]|] eqn:E; [|done].
    intros [= <-]. eapply step_call; [apply demo_env_ok|done|exact E].
  - destruct (sbi_sse_process_pending_events _ _ _ _ _) as [[c' s2]|] eqn:E; [|done]. intros [= <-]. by eapply step_process.
  - intros [= <-]. apply step_memory.
  - destruct (s.(harts) !! me) eqn:Em; [done|]. destruct (sbi_sse_init id demo_res me false s) as [ret s2] eqn:E.
    destruct ret; try done. intros [= <-]. by eapply step_boot.
Qed.

Lemma do_acts_steps l s s' : do_acts l s = Some s' -> steps (sse_step true id id 0) s s'.
Proof.
  revert s. induction l as [|a l IH]; intros s; cbn [do_acts]; [intros [= <-]; constructor|].
  destruct (do_act a s) as [s1|] eqn:E; [|done]. intros H. eapply steps_cons; [by eapply do_sse_act_step|by apply IH].
Qed.

Definition demo_boot : sse_sys unit := (sbi_sse_init id demo_res 0 true demo_cold).2.
Definition demo_setup : list sse_act :=
  [ABoot 1; ACall 0 SBI_EXT_SSE_HART_UNMASK 0 0 0 0 0;
   ACall 0 SBI_EXT_SSE_REGISTER SBI_SSE_EVENT_GLOBAL_SOFTWARE 0x80300000 5 0 0;
   ACall 0 SBI_EXT_SSE_REGISTER SBI_SSE_EVENT_LOCAL_SOFTWARE 0x80400000 6 0 0;
   ACall 0 SBI_EXT_SSE_ENABLE SBI_SSE_EVENT_GLOBAL_SOFTWARE 0 0 0 0;
   ACall 0 SBI_EXT_SSE_ENABLE SBI_SSE_EVENT_LOCAL_SOFTWARE 0 0 0 0;
   ACall 0 SBI_EXT_SSE_INJECT SBI_SSE_EVENT_GLOBAL_SOFTWARE 0 0 0 0; AProcess 0;
   ACall 0 SBI_EXT_SSE_INJECT SBI_SSE_EVENT_LOCAL_SOFTWARE 0 0 0 0].
(** The global event runs, the local one is pending. *)
Definition demo_state : sse_sys unit := default demo_boot (do_acts demo_setup demo_boot).

Lemma demo_cold_ok : cold_state demo_cold.
Proof. constructor; [done|done|]. apply (bool_decide_unpack _). vm_compute. exact I. Qed.

Lemma demo_acts_run : do_acts demo_setup demo_boot = Some demo_state.
Proof.
  unfold demo_state. destruct (do_acts demo_setup demo_boot) as [s|] eqn:E; [done|].
  exfalso. assert (bool_decide (is_Some (do_acts demo_setup demo_boot)) = true) as H by (vm_compute; reflexivity). by rewrite E in H.
Qed.

Lemma demo_inv : sse_inv demo_state.
Proof.
  assert (sbi_sse_init id demo_res 0 true demo_cold = (SBI_OK, demo_boot)) as E by (vm_compute; reflexivity).
  destruct (cold_boot_inv id demo_res 0 demo_cold demo_boot demo_cold_ok E) as [Hi Hs].
  eapply (steps_invariant (sse_step true id id 0) sys_ok (sse_step_ok true id id 0) demo_boot); [|exact (do_acts_steps demo_setup _ _ demo_acts_run)].
  split; [done|]. rewrite Hs. apply demo_cold_ok.
Qed.

Lemma sse_lists_exact_witness : sse_inv demo_state /\ elist demo_state 0 = Some [LocalEvent 0 0; GlobalEvent 0].
Proof.
  split; [|vm_compute; reflexivity].
  apply (sse_lists_exact true id id 0 demo_res 0 demo_cold demo_boot demo_state demo_cold_ok); [vm_compute; reflexivity|].
  exact (do_acts_steps demo_setup _ _ demo_acts_run).
Defined.

Definition demo_hart : sse_hart_state unit := default (HartState [] [] true [] false) (demo_state.(harts) !! 0).
Lemma demo_hart_eq : demo_state.(harts) !! 0 = Some demo_hart.
Proof. unfold demo_hart. destruct (demo_state.(harts) !! 0) eqn:E; [done|]. vm_compute in E. discriminate E. Qed.

Lemma sse_injects_highest_priority_witness :
  exists c' s', sbi_sse_process_pending_events true id 0 demo_cpu demo_state = Some (c', s') /\ s' <> demo_state /\ c'.(mepc) = 0x80400000.
Proof.
  destruct (sse_injects_highest_priority true id demo_state 0 demo_hart demo_cpu demo_inv demo_hart_eq)
    as (c' & s' & E & [(-> & -> & _)|(r & e & _ & _ & _ & Ec & Es)]).
  - exfalso. assert (option_map (fun x => x.1.(mepc)) (sbi_sse_process_pending_events true id 0 demo_cpu demo_state) = Some 0x80400000) as H
      by (vm_compute; reflexivity). rewrite E in H. discriminate H.
  - exists c', s'. split; [exact E|].
    assert (option_map (fun x => (x.1.(mepc), run_stack x.2 0)) (sbi_sse_process_pending_events true id 0 demo_cpu demo_state) =
            Some (0x80400000, [LocalEvent 0 0; GlobalEvent 0])) as H by (vm_compute; reflexivity).
    rewrite E in H. cbn [option_map fst snd] in H. injection H as H1 H2. split; [|exact H1]. intros ->.
    assert (run_stack demo_state 0 = [GlobalEvent 0]) as H3 by (vm_compute; reflexivity). rewrite H3 in H2. discriminate H2.
Defined.

Lemma sse_handlers_nest_witness :
  run_stack demo_state 0 = [GlobalEvent 0] /\
  exists s', sbi_sse_complete true id 0 demo_cpu demo_state =
    Some (SBI_OK, true, sse_event_resume true (default (Event zero_attrs 0 0 (EventInfo 0 None)) (get_event demo_state (GlobalEvent 0))) demo_cpu, s') /\
    run_stack s' 0 = [].
Proof.
  assert (run_stack demo_state 0 = [GlobalEvent 0]) as H3 by (vm_compute; reflexivity). split; [exact H3|].
  destruct (sse_handlers_nest true id id 0 demo_state 0 demo_hart demo_cpu demo_inv demo_hart_eq) as (_ & H & _).
  rewrite H3 in H. destruct H as (e & (He & _ & _) & H). rewrite He. cbn [default from_option id].
  assert (option_map (fun e => e.(attrs).(hartid)) (get_event demo_state (GlobalEvent 0)) = Some 0) as Hid by (vm_compute; reflexivity).
  rewrite He in Hid. cbn [option_map] in Hid. injection Hid as Hid. rewrite Hid in H. cbn [Z.eqb id] in H.
  destruct H as (s' & E & Hst & _). exists s'. split; [exact E|exact Hst].
Defined.

(** The local event is injected and completes at once. *)
Definition demo_injected : cpu * sse_sys unit := default (demo_cpu, demo_state) (sbi_sse_process_pending_events true id 0 demo_cpu demo_state).

Lemma demo_injected_eq : sbi_sse_process_pending_events true id 0 demo_cpu demo_state = Some demo_injected.
Proof. unfold demo_injected. destruct (sbi_sse_process_pending_events _ _ _ _ _) eqn:E; [done|]. vm_compute in E. discriminate E. Qed.

Lemma demo_injectable : injectable true demo_cpu.
Proof. repeat split; try done. Qed.

Lemma demo_injected_inv : sse_inv demo_injected.2 /\ exists hs, demo_injected.2.(harts) !! 0 = Some hs.
Proof.
  destruct (process_effect true id demo_state 0 demo_hart demo_cpu demo_inv demo_hart_eq) as (c' & s' & E & Hi & _).
  rewrite demo_injected_eq in E. apply (inj Some) in E. rewrite E. cbn [snd]. split; [exact Hi|].
  assert (bool_decide (is_Some (demo_injected.2.(harts) !! 0)) = true) as H by (vm_compute; reflexivity).
  rewrite E in H. cbn [snd] in H. apply bool_decide_eq_true in H as [hs H]. by exists hs.
Qed.

Lemma sse_context_restored_witness : exists c' s3,
  sbi_sse_complete true id 0 demo_injected.1 demo_injected.2 = Some (SBI_OK, true, c', s3) /\
  c'.(mepc) = 0x80201000 /\ c'.(mstatus) = 0x80000a0800 /\ c'.(sepc) = 0x80200444 /\ run_stack s3 0 = [GlobalEvent 0].
Proof.
  destruct demo_injected_inv as (Hi1 & hs1 & Hh1).
  pose proof demo_injected_eq as E.
  assert (run_stack demo_injected.2 0 = [LocalEvent 0 0; GlobalEvent 0]) as Hs1 by (vm_compute; reflexivity).
  assert (run_stack demo_state 0 = [GlobalEvent 0]) as Hs0 by (vm_compute; reflexivity).
  revert E Hi1 Hh1 Hs1. generalize demo_injected as d. intros [c1 s1] E Hi1 Hh1 Hs1. cbn [fst snd] in *.
  destruct (sse_context_restored true id demo_state 0 demo_hart demo_cpu c1 s1 demo_inv demo_hart_eq demo_injectable E) as (r & e1 & He1 & Hst & H).
  { rewrite Hs1, Hs0. discriminate. }
  destruct (H s1 hs1 e1 c1 Hi1 Hh1 eq_refl He1 eq_refl eq_refl eq_refl eq_refl eq_refl (conj eq_refl (conj eq_refl eq_refl))) as (s3 & E3 & Hst3).
  eexists _, s3. split; [exact E3|]. split; [reflexivity|]. split; [reflexivity|]. split; [reflexivity|]. rewrite Hst3. exact Hs0.
Defined.

(** The priority and the configuration of the local event, before it is registered. *)
Definition demo_written : sse_sys unit := set_mem (fun a => if a =? 0x1000 then 77 else if a =? 0x1008 then 1 else 0) demo_boot.

Lemma demo_written_inv : sse_inv demo_written.
Proof.
  assert (sbi_sse_init id demo_res 0 true demo_cold = (SBI_OK, demo_boot)) as E by (vm_compute; reflexivity).
  destruct (cold_boot_inv id demo_res 0 demo_cold demo_boot demo_cold_ok E) as [Hi _].
  eapply inv_same; [apply same_mem|exact Hi].
Qed.

Lemma sse_attributes_roundtrip_witness : exists s1,
  sbi_sse_write_attrs id id 0 demo_env 0 SBI_SSE_EVENT_LOCAL_SOFTWARE 1 2 0x1000 0 demo_written = Some (0, s1) /\
  exists s2, sbi_sse_read_attrs 0 demo_env 0 SBI_SSE_EVENT_LOCAL_SOFTWARE 1 2 0x2000 0 s1 = Some (0, s2) /\
    read_longs s2.(mem) 0x2000 2 = [77; 1].
Proof.
  destruct (sbi_sse_write_attrs id id 0 demo_env 0 SBI_SSE_EVENT_LOCAL_SOFTWARE 1 2 0x1000 0 demo_written) as [[ret s1]|] eqn:E;
    [|vm_compute in E; discriminate E].
  assert (ret = 0) as -> by (vm_compute in E; injection E as <- _; reflexivity). exists s1. split; [reflexivity|].
  assert (option_map fst (sbi_sse_read_attrs 0 demo_env 0 SBI_SSE_EVENT_LOCAL_SOFTWARE 1 2 0x2000 0 s1) = Some 0) as Hr.
  { vm_compute in E. injection E as <-. vm_compute. reflexivity. }
  destruct (sbi_sse_read_attrs 0 demo_env 0 SBI_SSE_EVENT_LOCAL_SOFTWARE 1 2 0x2000 0 s1) as [[ret s2]|] eqn:E2; [|discriminate Hr].
  injection Hr as ->. exists s2. split; [reflexivity|].
  destruct (sse_attributes_roundtrip id id 0 demo_env 0 SBI_SSE_EVENT_LOCAL_SOFTWARE 1 2 0x1000 0 demo_written 0 s1 demo_written_inv) as [_ H];
    [apply demo_env_ok|apply (bool_decide_unpack _); vm_compute; exact I|lia|lia|exact E|].
  destruct H as (_ & _ & H); [reflexivity|]. specialize (H 0x2000 0 s2 E2). change (Z.to_nat 2) with 2%nat in H. rewrite H. vm_compute. reflexivity.
Defined.

(** ** Defects *)

(** Injection assigns the status instead of clearing the pending bit: all other bits
    are set, the reserved ones included. *)
Lemma inject_sets_reserved_status {X} misa_H hid (e : sbi_sse_event X) c :
  (sse_event_inject misa_H hid e c).1.(attrs).(status) = 0xfffffffffffffffb.
Proof. reflexivity. Qed.

(** [hstatus.SPV] is not cleared when a hart in a mode that is not virtual is
    interrupted: if it was set, the hart continues in virtual mode. *)
Lemma resume_in_virtual_mode :
  let c := Cpu 0x80201000 0x800 0 0 0 0 0 0 0 0 0x80 in
  let e := Event zero_attrs 0 0 (EventInfo 0 None) : sbi_sse_event unit in
  let '(e1, c1) := sse_event_inject true 0 e c in
  has c.(mstatus) MSTATUS_MPV = false /\ has (sse_event_resume true e1 c1).(mstatus) MSTATUS_MPV = true.
Proof. split; reflexivity. Qed.

(** The preferred hart is checked after it was truncated to 32 bits and stored as it
    is: no hart has the id that is stored. *)
Lemma preferred_hart_truncated :
  let h1 := Hart (HsmData SBI_HSM_STATE_STARTED 0 0 0 0 0 0) (Scratch 0 0 0 0 0 0) (Csrs 0 0 0 0) in
  let env := Env demo_dom {[ 1 := h1 ]} (fun _ => (0, [])) in
  let e := Event zero_attrs SBI_SSE_EVENT_GLOBAL_SOFTWARE 0 (EventInfo 0 None) : sbi_sse_event unit in
  sse_event_set_attr_check id id env 0 e SBI_SSE_ATTR_PREFERRED_HART (2 ^ 32 + 1) = Some SBI_OK /\
  (attr_upd id SBI_SSE_ATTR_PREFERRED_HART (2 ^ 32 + 1) e).(attrs).(hartid) = 2 ^ 32 + 1.
Proof. split; vm_compute; reflexivity. Qed.

(** The values are read from the memory of the supervisor twice, to check and to store
    them: a value that changes in between is stored unchecked. *)
Lemma attributes_fetched_twice :
  option_map (fun x => (x.1, option_map (fun e => e.(attrs).(config)) (get_event x.2 (LocalEvent 0 0))))
    (sse_write_attrs id id demo_env 0 (LocalEvent 0 0) SBI_SSE_ATTR_CONFIG 1 0x1000 (fun _ => 1) (fun _ => 0xff) demo_boot) =
  Some (0, Some 0xff).
Proof. vm_compute. reflexivity. Qed.

(** A hart that exits with an enabled event marks it unused and leaves it in its
    list: when it is registered and enabled again it is there twice. *)
Lemma exit_leaves_event_listed :
  let acts := [ACall 0 SBI_EXT_SSE_REGISTER SBI_SSE_EVENT_GLOBAL_SOFTWARE 0x80300000 5 0 0;
               ACall 0 SBI_EXT_SSE_ENABLE SBI_SSE_EVENT_GLOBAL_SOFTWARE 0 0 0 0] in
  option_map (fun s => (ev_state s (GlobalEvent 0), elist s 0))
    (s ← do_acts acts demo_boot; sbi_sse_exit id 0 s) = Some (SBI_SSE_STATE_UNUSED, Some [GlobalEvent 0]) /\
  option_map (fun s => elist s 0) (s ← do_acts acts demo_boot; s ← sbi_sse_exit id 0 s; do_acts acts s) =
    Some (Some [GlobalEvent 0; GlobalEvent 0]).
Proof. split; vm_compute; reflexivity. Qed.
