(* ===== verification/Rv32.v ===== *)
(** * The RISC-V emulator of course1/mini-rv32ima (mini-rv32ima.h, main.c).

    [rv32ima_step] executes one instruction on a [CPUState].  Registers,
    control registers and memory hold unsigned 32-bit (8-bit) values; every
    C operation that can wrap is followed by [u32].  A step is [None] when it
    reads or writes [state->mem] outside its [mem_size] bytes, which C leaves
    undefined. *)

From S2P Require Import Prelude.

Local Open Scope Z_scope.

(** ** Registers and control registers *)

Definition SP : nat := 2.
Definition A0 : nat := 10.
Definition A1 : nat := 11.

(** enum RV32IMA_CSR, as indices of [csrs] *)
Definition PC : nat := 0.
Definition MSTATUS : nat := 1.
Definition CYCLEL : nat := 2.
Definition CYCLEH : nat := 3.
Definition TIMERL : nat := 4.
Definition TIMERH : nat := 5.
Definition TIMERMATCHL : nat := 6.
Definition TIMERMATCHH : nat := 7.
Definition MSCRATCH : nat := 8.
Definition MTVEC : nat := 9.
Definition MIE : nat := 10.
Definition MIP : nat := 11.
Definition MEPC : nat := 12.
Definition MTVAL : nat := 13.
Definition MCAUSE : nat := 14.
Definition EXTRAFLAGS : nat := 15.
Definition CSR_COUNT : nat := 16.

Record CPUState := Cpu {
  regs : list Z;
  csrs : list Z;
  mem : Z -> Z;
  mem_offset : Z;
  mem_size : Z;
}.

Definition CSR (s : CPUState) (i : nat) : Z := nth i s.(csrs) 0.
Definition REG (s : CPUState) (i : Z) : Z := nth (Z.to_nat i) s.(regs) 0.

Definition setCSR (i : nat) (v : Z) (s : CPUState) : CPUState :=
  Cpu s.(regs) (<[i := v]> s.(csrs)) s.(mem) s.(mem_offset) s.(mem_size).
Definition setREG (i : Z) (v : Z) (s : CPUState) : CPUState :=
  Cpu (<[Z.to_nat i := v]> s.(regs)) s.(csrs) s.(mem) s.(mem_offset) s.(mem_size).
Definition setMEM (m : Z -> Z) (s : CPUState) : CPUState :=
  Cpu s.(regs) s.(csrs) m s.(mem_offset) s.(mem_size).

(** ** Little-endian accesses to [state->mem] *)

Fixpoint load_le (m : Z -> Z) (off : Z) (n : nat) : Z :=
  match n with
  | O => 0
  | S n => m off + 2 ^ 8 * load_le m (off + 1) n
  end.

Fixpoint store_le (m : Z -> Z) (off : Z) (n : nat) (v : Z) : Z -> Z :=
  match n with
  | O => m
  | S n => store_le (<[off := u8 v]> m) (off + 1) n (v / 2 ^ 8)
  end.

(** [n] bytes at offset [off]; [None] outside the buffer. *)
Definition MEMload (s : CPUState) (off : Z) (n : nat) : option Z :=
  if (0 <=? off) && (off + Z.of_nat n <=? s.(mem_size)) then Some (load_le s.(mem) off n) else None.

Definition MEMstore (s : CPUState) (off : Z) (n : nat) (v : Z) : option CPUState :=
  if (0 <=? off) && (off + Z.of_nat n <=? s.(mem_size))
  then Some (setMEM (store_le s.(mem) off n v) s) else None.

(** ** The parts of one step *)

(** Lines 89 to 106: the timer and its interrupt-pending bit. *)
Definition timer_update (s : CPUState) (elapsedUs : Z) : CPUState :=
  let new_timer := u32 (CSR s TIMERL + elapsedUs) in
  let s := if new_timer <? CSR s TIMERL then setCSR TIMERH (u32 (CSR s TIMERH + 1)) s else s in
  let s := setCSR TIMERL new_timer s in
  let timer := Z.lor (Z.shiftl (CSR s TIMERH) 32) (CSR s TIMERL) in
  let timermatch := Z.lor (Z.shiftl (CSR s TIMERMATCHH) 32) (CSR s TIMERMATCHL) in
  if (negb (CSR s TIMERMATCHH =? 0) || negb (CSR s TIMERMATCHL =? 0)) && (timermatch <? timer) then
    let s := setCSR EXTRAFLAGS (Z.land (CSR s EXTRAFLAGS) (u32 (Z.lnot 4))) s in
    setCSR MIP (Z.lor (CSR s MIP) (Z.shiftl 1 7)) s
  else setCSR MIP (Z.land (CSR s MIP) (u32 (Z.lnot (Z.shiftl 1 7)))) s.

(** What an instruction leaves for the end of the cycle, or an early return. *)
Record outcome := Out { o_trap : Z; o_rval : Z; o_pc : Z; o_rdid : Z; o_state : CPUState }.
Inductive exec_result := Done (o : outcome) | Return (ret : Z) (s : CPUState).

(** 12-bit immediate of I-type instructions, sign-extended. *)
Definition imm_i (ir : Z) : Z :=
  let imm := Z.shiftr ir 20 in
  Z.lor imm (if Z.land imm 0x800 =? 0 then 0 else 0xfffff000).

Definition reladdy (ir : Z) : Z :=
  let r := Z.lor (Z.lor (Z.lor (Z.shiftr (Z.land ir 0x80000000) 11) (Z.shiftr (Z.land ir 0x7fe00000) 20))
                        (Z.shiftr (Z.land ir 0x00100000) 9)) (Z.land ir 0x000ff000) in
  if Z.land r 0x00100000 =? 0 then r else Z.lor r 0xffe00000.

Definition immm4 (ir : Z) : Z :=
  let i := Z.lor (Z.lor (Z.lor (Z.shiftr (Z.land ir 0xf00) 7) (Z.shiftr (Z.land ir 0x7e000000) 20))
                        (Z.shiftl (Z.land ir 0x80) 4)) (Z.shiftl (Z.shiftr ir 31) 12) in
  if Z.land i 0x1000 =? 0 then i else Z.lor i 0xffffe000.

(** Offset of S-type instructions. *)
Definition imm_s (ir : Z) : Z :=
  let a := Z.lor (Z.land (Z.shiftr ir 7) 0x1f) (Z.shiftr (Z.land ir 0xfe000000) 20) in
  if Z.land a 0x800 =? 0 then a else Z.lor a 0xfffff000.

Definition rs1_of (ir : Z) : Z := Z.land (Z.shiftr ir 15) 0x1f.
Definition rs2_of (ir : Z) : Z := Z.land (Z.shiftr ir 20) 0x1f.
Definition funct3 (ir : Z) : Z := Z.land (Z.shiftr ir 12) 0x7.

(** case 0x63: Branch *)
Definition exec_branch (s : CPUState) (ir pc : Z) : outcome :=
  let rs1 := REG s (rs1_of ir) in
  let rs2 := REG s (rs2_of ir) in
  let target := u32 (u32 (pc + immm4 ir) - 4) in
  let goto (b : bool) := Out 0 0 (if b then target else pc) 0 s in
  match funct3 ir with
  | 0 => goto (s32 rs1 =? s32 rs2)
  | 1 => goto (negb (s32 rs1 =? s32 rs2))
  | 4 => goto (s32 rs1 <? s32 rs2)
  | 5 => goto (s32 rs2 <=? s32 rs1)
  | 6 => goto (rs1 <? rs2)
  | 7 => goto (rs2 <=? rs1)
  | _ => Out (2 + 1) 0 pc 0 s
  end.

(** case 0x03: Load *)
Definition exec_load (s : CPUState) (ir pc rdid : Z) : option outcome :=
  let rs1 := REG s (rs1_of ir) in
  let rsval := u32 (rs1 + imm_i ir) in
  let rsval := u32 (rsval - s.(mem_offset)) in
  if u32 (s.(mem_size) - 3) <=? rsval then
    let rsval := u32 (rsval + s.(mem_offset)) in
    if (0x10000000 <=? rsval) && (rsval <? 0x12000000) then
      let rval := if rsval =? 0x1100bffc then CSR s TIMERH
                  else if rsval =? 0x1100bff8 then CSR s TIMERL else 0 in
      Some (Out 0 rval pc rdid s)
    else Some (Out (5 + 1) rsval pc rdid s)
  else
    match funct3 ir with
    | 0 => v ← MEMload s rsval 1; Some (Out 0 (u32 (signed 8 v)) pc rdid s)
    | 1 => v ← MEMload s rsval 2; Some (Out 0 (u32 (signed 16 v)) pc rdid s)
    | 2 => v ← MEMload s rsval 4; Some (Out 0 v pc rdid s)
    | 4 => v ← MEMload s rsval 1; Some (Out 0 v pc rdid s)
    | 5 => v ← MEMload s rsval 2; Some (Out 0 v pc rdid s)
    | _ => Some (Out (2 + 1) 0 pc rdid s)
    end.

(** case 0x23: Store *)
Definition exec_store (s : CPUState) (ir pc : Z) : option exec_result :=
  let rs1 := REG s (rs1_of ir) in
  let rs2 := REG s (rs2_of ir) in
  let addy := u32 (imm_s ir + u32 (rs1 - s.(mem_offset))) in
  if u32 (s.(mem_size) - 3) <=? addy then
    let addy := u32 (addy + s.(mem_offset)) in
    if (0x10000000 <=? addy) && (addy <? 0x12000000) then
      if addy =? 0x11004004 then Some (Done (Out 0 0 pc 0 (setCSR TIMERMATCHH rs2 s)))
      else if addy =? 0x11004000 then Some (Done (Out 0 0 pc 0 (setCSR TIMERMATCHL rs2 s)))
      else if addy =? 0x11100000 then Some (Return (s32 rs2) (setCSR PC (u32 (pc + 4)) s))
      else Some (Done (Out 0 0 pc 0 s))
    else Some (Done (Out (7 + 1) addy pc 0 s))
  else
    match funct3 ir with
    | 0 => s ← MEMstore s addy 1 rs2; Some (Done (Out 0 0 pc 0 s))
    | 1 => s ← MEMstore s addy 2 rs2; Some (Done (Out 0 0 pc 0 s))
    | 2 => s ← MEMstore s addy 4 rs2; Some (Done (Out 0 0 pc 0 s))
    | _ => Some (Done (Out (2 + 1) 0 pc 0 s))
    end.

(** RV32M: [switch] of lines 259 to 288. *)
Definition exec_muldiv (f3 rs1 rs2 : Z) : Z :=
  match f3 with
  | 0 => u32 (rs1 * rs2)
  | 1 => u32 (Z.shiftr (s32 rs1 * s32 rs2) 32)
  | 2 => u32 (Z.shiftr (u64 (u64 (s32 rs1) * rs2)) 32)
  | 3 => u32 (Z.shiftr (u64 (rs1 * rs2)) 32)
  | 4 => if rs2 =? 0 then u32 (-1)
         else if (s32 rs1 =? - 2 ^ 31) && (s32 rs2 =? -1) then rs1
         else u32 (Z.quot (s32 rs1) (s32 rs2))
  | 5 => if rs2 =? 0 then 0xffffffff else rs1 / rs2
  | 6 => if rs2 =? 0 then rs1
         else if (s32 rs1 =? - 2 ^ 31) && (s32 rs2 =? -1) then 0
         else u32 (Z.rem (s32 rs1) (s32 rs2))
  | 7 => if rs2 =? 0 then rs1 else rs1 `mod` rs2
  | _ => 0
  end.

(** The shared [switch] of lines 290 to 299. *)
Definition exec_alu (ir is_reg rs1 rs2 : Z) : Z :=
  match funct3 ir with
  | 0 => if negb (is_reg =? 0) && negb (Z.land ir 0x40000000 =? 0) then u32 (rs1 - rs2) else u32 (rs1 + rs2)
  | 1 => u32 (Z.shiftl rs1 (Z.land rs2 0x1F))
  | 2 => Z.b2z (s32 rs1 <? s32 rs2)
  | 3 => Z.b2z (rs1 <? rs2)
  | 4 => Z.lxor rs1 rs2
  | 5 => if negb (Z.land ir 0x40000000 =? 0) then u32 (Z.shiftr (s32 rs1) (Z.land rs2 0x1F))
         else Z.shiftr rs1 (Z.land rs2 0x1F)
  | 6 => Z.lor rs1 rs2
  | 7 => Z.land rs1 rs2
  | _ => 0
  end.

(** case 0x13 and 0x33: Op-immediate and Op *)
Definition exec_op (s : CPUState) (ir : Z) : Z :=
  let imm := imm_i ir in
  let rs1 := REG s (rs1_of ir) in
  let is_reg := if Z.land ir 0x20 =? 0 then 0 else 1 in
  let rs2 := if is_reg =? 0 then imm else REG s (Z.land imm 0x1f) in
  if negb (is_reg =? 0) && negb (Z.land ir 0x02000000 =? 0) then exec_muldiv (funct3 ir) rs1 rs2
  else exec_alu ir is_reg rs1 rs2.

(** The CSR a Zicsr instruction reads. *)
Definition csr_read (s : CPUState) (cycle csrno : Z) : Z :=
  match csrno with
  | 0x340 => CSR s MSCRATCH
  | 0x305 => CSR s MTVEC
  | 0x304 => CSR s MIE
  | 0xC00 => cycle
  | 0x344 => CSR s MIP
  | 0x341 => CSR s MEPC
  | 0x300 => CSR s MSTATUS
  | 0x342 => CSR s MCAUSE
  | 0x343 => CSR s MTVAL
  | 0xf11 => 0xff0ff0ff
  | 0x301 => 0x40401101
  | _ => 0
  end.

Definition csr_write (csrno writeval : Z) (s : CPUState) : CPUState :=
  match csrno with
  | 0x340 => setCSR MSCRATCH writeval s
  | 0x305 => setCSR MTVEC writeval s
  | 0x304 => setCSR MIE writeval s
  | 0x344 => setCSR MIP writeval s
  | 0x341 => setCSR MEPC writeval s
  | 0x300 => setCSR MSTATUS writeval s
  | 0x342 => setCSR MCAUSE writeval s
  | 0x343 => setCSR MTVAL writeval s
  | _ => s
  end.

Definition csr_writeval (microop rval rs1 rs1imm : Z) : Z :=
  match microop with
  | 1 => rs1
  | 2 => Z.lor rval rs1
  | 3 => Z.land rval (u32 (Z.lnot rs1))
  | 5 => rs1imm
  | 6 => Z.lor rval rs1imm
  | 7 => Z.land rval (u32 (Z.lnot rs1imm))
  | _ => rs1
  end.

(** case 0x73: Zicsr, WFI, MRET, ECALL, EBREAK *)
Definition exec_system (s : CPUState) (ir pc cycle rdid : Z) : exec_result :=
  let csrno := Z.shiftr ir 20 in
  let microop := Z.land (Z.shiftr ir 12) 0x7 in
  if negb (Z.land microop 3 =? 0) then
    let rs1imm := Z.land (Z.shiftr ir 15) 0x1f in
    let rs1 := REG s rs1imm in
    let rval := csr_read s cycle csrno in
    let writeval := csr_writeval microop rval rs1 rs1imm in
    Done (Out 0 rval pc rdid (csr_write csrno writeval s))
  else if microop =? 0 then
    if csrno =? 0x105 then
      let s := setCSR MSTATUS (Z.lor (CSR s MSTATUS) 8) s in
      let s := setCSR EXTRAFLAGS (Z.lor (CSR s EXTRAFLAGS) 4) s in
      Return 1 (setCSR PC (u32 (pc + 4)) s)
    else if Z.land csrno 0xff =? 0x02 then
      let startmstatus := CSR s MSTATUS in
      let startextraflags := CSR s EXTRAFLAGS in
      let s := setCSR MSTATUS (Z.lor (Z.lor (Z.shiftr (Z.land startmstatus 0x80) 4)
                                            (Z.shiftl (Z.land startextraflags 3) 11)) 0x80) s in
      let s := setCSR EXTRAFLAGS (Z.lor (Z.land startextraflags (u32 (Z.lnot 3)))
                                        (Z.land (Z.shiftr startmstatus 11) 3)) s in
      Done (Out 0 0 (u32 (CSR s MEPC - 4)) 0 s)
    else
      match csrno with
      | 0 => Done (Out (if Z.land (CSR s EXTRAFLAGS) 3 =? 0 then 8 + 1 else 11 + 1) 0 pc 0 s)
      | 1 => Done (Out (3 + 1) 0 pc 0 s)
      | _ => Done (Out (2 + 1) 0 pc 0 s)
      end
  else Done (Out (2 + 1) 0 pc rdid s).

(** The [switch] on [irmid] of RV32A: [(trap, rval, rs2, dowrite, state)]. *)
Definition amo_switch (s : CPUState) (irmid rs1 rs2 rval : Z) : Z * Z * Z * bool * CPUState :=
  match irmid with
  | 2 => (0, rval, rs2, false,
          setCSR EXTRAFLAGS (Z.lor (Z.land (CSR s EXTRAFLAGS) 0x07) (u32 (Z.shiftl rs1 3))) s)
  | 3 => let fail := negb (Z.shiftr (CSR s EXTRAFLAGS) 3 =? Z.land rs1 0x1fffffff) in
         (0, Z.b2z fail, rs2, negb fail, s)
  | 1 => (0, rval, rs2, true, s)
  | 0 => (0, rval, u32 (rs2 + rval), true, s)
  | 4 => (0, rval, Z.lxor rs2 rval, true, s)
  | 12 => (0, rval, Z.land rs2 rval, true, s)
  | 8 => (0, rval, Z.lor rs2 rval, true, s)
  | 16 => (0, rval, if s32 rs2 <? s32 rval then rs2 else rval, true, s)
  | 20 => (0, rval, if s32 rval <? s32 rs2 then rs2 else rval, true, s)
  | 24 => (0, rval, if rs2 <? rval then rs2 else rval, true, s)
  | 28 => (0, rval, if rval <? rs2 then rs2 else rval, true, s)
  | _ => (2 + 1, rval, rs2, false, s)
  end.

(** case 0x2f: RV32A *)
Definition exec_amo (s : CPUState) (ir pc rdid : Z) : option outcome :=
  let rs1 := REG s (rs1_of ir) in
  let rs2 := REG s (rs2_of ir) in
  let irmid := Z.land (Z.shiftr ir 27) 0x1f in
  let rs1 := u32 (rs1 - s.(mem_offset)) in
  if u32 (s.(mem_size) - 3) <=? rs1 then
    Some (Out (7 + 1) (u32 (rs1 + s.(mem_offset))) pc rdid s)
  else
    rval ← MEMload s rs1 4;
    let '(trap, rval, rs2, dowrite, s) := amo_switch s irmid rs1 rs2 rval in
    s ← (if dowrite : bool then MEMstore s rs1 4 rs2 else Some s);
    Some (Out trap rval pc rdid s).

(** The [switch] on the opcode. *)
Definition exec_insn (s : CPUState) (ir pc cycle : Z) : option exec_result :=
  let rdid := Z.land (Z.shiftr ir 7) 0x1f in
  match Z.land ir 0x7f with
  | 0x37 => Some (Done (Out 0 (Z.land ir 0xfffff000) pc rdid s))
  | 0x17 => Some (Done (Out 0 (u32 (pc + Z.land ir 0xfffff000)) pc rdid s))
  | 0x6F => Some (Done (Out 0 (u32 (pc + 4)) (u32 (u32 (pc + reladdy ir) - 4)) rdid s))
  | 0x67 => Some (Done (Out 0 (u32 (pc + 4))
              (u32 (Z.land (u32 (REG s (rs1_of ir) + imm_i ir)) (u32 (Z.lnot 1)) - 4)) rdid s))
  | 0x63 => Some (Done (exec_branch s ir pc))
  | 0x03 => o ← exec_load s ir pc rdid; Some (Done o)
  | 0x23 => exec_store s ir pc
  | 0x13 | 0x33 => Some (Done (Out 0 (exec_op s ir) pc rdid s))
  | 0x0f => Some (Done (Out 0 0 pc 0 s))
  | 0x73 => Some (exec_system s ir pc cycle rdid)
  | 0x2f => o ← exec_amo s ir pc rdid; Some (Done o)
  | _ => Some (Done (Out (2 + 1) 0 pc rdid s))
  end.

(** Lines 446 to 464: the cause, the interrupted PC and the previous mode are
    saved and the processor enters machine mode at [MTVEC]. *)
Definition trap_enter (s : CPUState) (trap rval pc : Z) : CPUState * Z :=
  let '(s, pc) :=
    if negb (Z.land trap 0x80000000 =? 0) then
      (setCSR MTVAL 0 (setCSR MCAUSE trap s), u32 (pc + 4))
    else
      (setCSR MTVAL (if (5 <? trap) && (trap <=? 8) then rval else pc)
         (setCSR MCAUSE (u32 (trap - 1)) s), pc) in
  let s := setCSR MEPC pc s in
  let s := setCSR MSTATUS (Z.lor (Z.shiftl (Z.land (CSR s MSTATUS) 0x08) 4)
                                 (Z.shiftl (Z.land (CSR s EXTRAFLAGS) 3) 11)) s in
  let pc := u32 (CSR s MTVEC - 4) in
  let s := setCSR EXTRAFLAGS (Z.lor (CSR s EXTRAFLAGS) 3) s in
  (s, u32 (pc + 4)).

(** Lines 444 to 471: traps and interrupts, the cycle counter and the PC. *)
Definition cycle_end (s : CPUState) (trap rval pc cycle : Z) : Z * CPUState :=
  let '(s, pc) := if negb (trap =? 0) then trap_enter s trap rval pc else (s, pc) in
  let s := if cycle <? CSR s CYCLEL then setCSR CYCLEH (u32 (CSR s CYCLEH + 1)) s else s in
  let s := setCSR CYCLEL cycle s in
  (0, setCSR PC pc s).

(** The timer interrupt is pending, enabled and not masked. *)
Definition timer_interrupt (s : CPUState) : bool :=
  negb (Z.land (CSR s MIP) (Z.shiftl 1 7) =? 0) && negb (Z.land (CSR s MIE) (Z.shiftl 1 7) =? 0)
  && negb (Z.land (CSR s MSTATUS) 0x8 =? 0).

(** Lines 124 to 471: fetch, execute, write back, end of cycle. *)
Definition run_insn (s : CPUState) : option (Z * CPUState) :=
  let pc := CSR s PC in
  let cycle := u32 (CSR s CYCLEL + 1) in
  let ofs_pc := u32 (pc - s.(mem_offset)) in
  if s.(mem_size) <=? ofs_pc then Some (cycle_end s (1 + 1) 0 pc cycle)
  else if negb (Z.land ofs_pc 3 =? 0) then Some (cycle_end s (1 + 0) 0 pc cycle)
  else
    ir ← MEMload s ofs_pc 4;
    r ← exec_insn s ir pc cycle;
    match r with
    | Return ret s => Some (ret, s)
    | Done (Out trap rval pc rdid s) =>
        if negb (trap =? 0) then Some (cycle_end s trap rval pc cycle)
        else
          let s := if negb (rdid =? 0) then setREG rdid rval s else s in
          Some (cycle_end s 0 rval (u32 (pc + 4)) cycle)
    end.

Definition rv32ima_step (s : CPUState) (elapsedUs : Z) : option (Z * CPUState) :=
  let s := timer_update s elapsedUs in
  if negb (Z.land (CSR s EXTRAFLAGS) 4 =? 0) then Some (1, s)
  else if timer_interrupt s then
    Some (cycle_end s 0x80000007 0 (u32 (CSR s PC - 4)) (CSR s CYCLEL))
  else run_insn s.

(** ** The invariant of the emulator state *)

(** 32 registers with [regs[0] = 0], 16 control registers, memory of bytes, a
    buffer whose size is a positive multiple of four. *)
Record wf (s : CPUState) : Prop := Wf {
  wf_regs_len : length s.(regs) = 32%nat;
  wf_regs : Forall (in_range 32) s.(regs);
  wf_zero : REG s 0 = 0;
  wf_csrs_len : length s.(csrs) = CSR_COUNT;
  wf_csrs : Forall (in_range 32) s.(csrs);
  wf_mem : forall a, in_range 8 (s.(mem) a);
  wf_offset : in_range 32 s.(mem_offset);
  wf_size : in_range 32 s.(mem_size);
  wf_size4 : s.(mem_size) `mod` 4 = 0;
  wf_size_pos : 4 <= s.(mem_size);
}.

Lemma CSR_range s i : wf s -> in_range 32 (CSR s i).
Proof.
  intros Hs. unfold CSR. destruct (nth_in_or_default i s.(csrs) 0) as [Hin| ->]; [|rng].
  pose proof (wf_csrs s Hs) as HF. rewrite List.Forall_forall in HF. auto.
Qed.

Lemma REG_range s i : wf s -> in_range 32 (REG s i).
Proof.
  intros Hs. unfold REG. destruct (nth_in_or_default (Z.to_nat i) s.(regs) 0) as [Hin| ->]; [|rng].
  pose proof (wf_regs s Hs) as HF. rewrite List.Forall_forall in HF. auto.
Qed.

#[local] Hint Resolve CSR_range REG_range wf_offset wf_size : rng.

Lemma wf_setCSR s i v : wf s -> in_range 32 v -> wf (setCSR i v s).
Proof.
  intros [] Hv. split; simpl; try done.
  - by rewrite length_insert.
  - by apply Forall_insert.
Qed.

Lemma wf_setREG s i v : wf s -> 0 < i -> in_range 32 v -> wf (setREG i v s).
Proof.
  intros [] Hi Hv. split; simpl; try done.
  - by rewrite length_insert.
  - by apply Forall_insert.
  - unfold REG in *. simpl. destruct (regs s) as [|r rs]; [done|].
    destruct (Z.to_nat i) eqn:E; [lia|]. done.
Qed.

Lemma wf_setMEM s m : wf s -> (forall a, in_range 8 (m a)) -> wf (setMEM m s).
Proof. intros [] Hm. by split. Qed.

#[local] Hint Extern 1 (wf (setCSR _ _ _)) => (apply wf_setCSR; [|rng]) : rng.

(** [insert] on functions, at its two cases *)
Lemma fn_insert_eq (m : Z -> Z) a v : (<[a := v]> m) a = v.
Proof. by rewrite fn_lookup_insert. Qed.

Lemma fn_insert_ne (m : Z -> Z) a b v : a <> b -> (<[a := v]> m) b = m b.
Proof. intros. by rewrite fn_lookup_insert_ne. Qed.

Lemma store_le_bytes n : forall m off v,
  (forall a, in_range 8 (m a)) -> forall a, in_range 8 (store_le m off n v a).
Proof.
  induction n as [|n IH]; intros m off v Hm; simpl; [done|]. apply IH. intros a.
  destruct (decide (off = a)) as [->|]; [rewrite fn_insert_eq; rng|by rewrite fn_insert_ne].
Qed.

Lemma load_le_range n : forall m off,
  (forall a, in_range 8 (m a)) -> in_range (8 * Z.of_nat n) (load_le m off n).
Proof.
  induction n as [|n IH]; intros m off Hm; [unfold in_range; simpl; lia|].
  specialize (IH m (off + 1) Hm). pose proof (Hm off). cbn [load_le].
  unfold in_range in *. replace (8 * Z.of_nat (S n)) with (8 + 8 * Z.of_nat n) by lia.
  rewrite Z.pow_add_r by lia. nia.
Qed.

(** Memory outside the stored bytes keeps its value. *)
Lemma store_le_frame n : forall m off v a,
  a < off \/ off + Z.of_nat n <= a -> store_le m off n v a = m a.
Proof.
  induction n as [|n IH]; intros m off v a Ha; [done|]. cbn [store_le].
  rewrite IH by lia. apply fn_insert_ne. lia.
Qed.

(** A load of the bytes just stored gives back the value, at their width. *)
Lemma load_store_le n : forall m off v,
  load_le (store_le m off n v) off n = wrap (8 * Z.of_nat n) v.
Proof.
  induction n as [|n IH]; intros m off v; [symmetry; apply Z.mod_1_r|].
  cbn [store_le load_le]. rewrite IH, store_le_frame, fn_insert_eq by lia.
  replace (8 * Z.of_nat (S n)) with (8 + 8 * Z.of_nat n) by lia. unfold wrap.
  rewrite Z.pow_add_r by lia.
  rewrite Z.rem_mul_r by (try apply Z.pow_nonzero; lia || apply pow2_pos; lia). lia.
Qed.

(** ** Every part of a step keeps the invariant *)

Lemma timer_update_wf s e : wf s -> wf (timer_update s e).
Proof.
  intros Hs. unfold timer_update.
  assert (forall s, wf s -> wf (setCSR MIP (Z.land (CSR s MIP) (u32 (Z.lnot (Z.shiftl 1 7)))) s) /\
    wf (setCSR MIP (Z.lor (CSR s MIP) (Z.shiftl 1 7)) s) /\
    wf (setCSR EXTRAFLAGS (Z.land (CSR s EXTRAFLAGS) (u32 (Z.lnot 4))) s)) as Hset.
  { intros t Ht. split_and!; apply wf_setCSR; rng. }
  set (t := setCSR TIMERL _ _). assert (wf t) as Ht.
  { apply wf_setCSR; [|rng]. case_match; [apply wf_setCSR; rng|done]. }
  case_match; [|by apply Hset]. by apply Hset, Hset.
Qed.

(** A value the instruction leaves behind is well-formed. *)
Definition outcome_ok (o : outcome) : Prop :=
  wf o.(o_state) /\ in_range 32 o.(o_trap) /\ in_range 32 o.(o_rval) /\
  in_range 32 o.(o_pc) /\ 0 <= o.(o_rdid).

Definition result_ok (r : exec_result) : Prop :=
  match r with Done o => outcome_ok o | Return _ s => wf s end.

Ltac outcome := split_and!; cbn [o_state o_trap o_rval o_pc o_rdid]; rng.

Lemma imm_i_range ir : in_range 32 ir -> in_range 32 (imm_i ir).
Proof. intros. unfold imm_i. case_match; rng. Qed.

Lemma imm_s_range ir : in_range 32 ir -> in_range 32 (imm_s ir).
Proof. intros. unfold imm_s. case_match; rng. Qed.

#[local] Hint Resolve imm_i_range imm_s_range : rng.

(** An access below [mem_size - 3] is inside the buffer, at every width. *)
Lemma MEMload_ok s off n :
  wf s -> in_range 32 off -> off < u32 (s.(mem_size) - 3) -> (n <= 4)%nat ->
  exists v, MEMload s off n = Some v /\ v = load_le s.(mem) off n /\ in_range (8 * Z.of_nat n) v.
Proof.
  intros Hs Ho Hlt Hn. pose proof (wf_size s Hs). pose proof (wf_size_pos s Hs).
  rewrite wrap_small in Hlt by (unfold in_range in *; lia).
  unfold MEMload. replace ((0 <=? off) && _) with true by (unfold in_range in *; lia).
  eexists; split_and!; [done..|]. apply load_le_range, wf_mem, Hs.
Qed.

Lemma MEMstore_ok s off n v :
  wf s -> in_range 32 off -> off < u32 (s.(mem_size) - 3) -> (n <= 4)%nat ->
  MEMstore s off n v = Some (setMEM (store_le s.(mem) off n v) s) /\
  wf (setMEM (store_le s.(mem) off n v) s).
Proof.
  intros Hs Ho Hlt Hn. pose proof (wf_size s Hs). pose proof (wf_size_pos s Hs).
  rewrite wrap_small in Hlt by (unfold in_range in *; lia).
  unfold MEMstore. replace ((0 <=? off) && _) with true by (unfold in_range in *; lia).
  split; [done|]. apply wf_setMEM; [done|]. apply store_le_bytes, wf_mem, Hs.
Qed.

(** The widths of the memory accesses. *)
Lemma in_range_32 n v : (n <= 4)%nat -> in_range (8 * Z.of_nat n) v -> in_range 32 v.
Proof. intros. eapply in_range_mono; [done|lia]. Qed.

Lemma exec_branch_ok s ir pc : wf s -> in_range 32 pc -> outcome_ok (exec_branch s ir pc).
Proof.
  intros Hs Hpc. unfold exec_branch.
  assert (forall b : bool, outcome_ok
    (Out 0 0 (if b then u32 (u32 (pc + immm4 ir) - 4) else pc) 0 s)) by (intros []; outcome).
  assert (outcome_ok (Out (2 + 1) 0 pc 0 s)) by outcome.
  cbv zeta. repeat first [done | case_match].
Qed.

Lemma exec_load_ok s ir pc rdid :
  wf s -> in_range 32 ir -> in_range 32 pc -> 0 <= rdid ->
  exists o, exec_load s ir pc rdid = Some o /\ outcome_ok o.
Proof.
  intros Hs Hir Hpc Hrd. unfold exec_load. cbv zeta. set (a := u32 (_ - mem_offset s)).
  destruct (Z.leb_spec (u32 (mem_size s - 3)) a) as [|Hlt].
  { case_match; eexists; (split; [done|]); outcome. }
  assert (forall n (f : Z -> Z), (n <= 4)%nat ->
    (forall v, in_range (8 * Z.of_nat n) v -> in_range 32 (f v)) ->
    exists o, (v ← MEMload s a n; Some (Out 0 (f v) pc rdid s)) = Some o /\ outcome_ok o) as Hl.
  { intros n f Hn Hf. destruct (MEMload_ok s a n) as (v & -> & _ & Hv); [done|unfold a; rng|done..|].
    eexists; split; [done|]. outcome. }
  assert (exists o, Some (Out (2 + 1) 0 pc rdid s) = Some o /\ outcome_ok o)
    by (eexists; split; [done|outcome]).
  assert (forall n, (n <= 4)%nat ->
    exists o, (v ← MEMload s a n; Some (Out 0 v pc rdid s)) = Some o /\ outcome_ok o) as Hid
    by (intros n Hn; apply (Hl n id Hn); intros; by eapply in_range_32).
  repeat first [done | apply Hid; lia | apply (Hl 1%nat (fun v => u32 (signed 8 v))); [lia|intros; rng]
    | apply (Hl 2%nat (fun v => u32 (signed 16 v))); [lia|intros; rng] | case_match].
Qed.

Lemma exec_store_ok s ir pc :
  wf s -> in_range 32 ir -> in_range 32 pc ->
  exists r, exec_store s ir pc = Some r /\ result_ok r.
Proof.
  intros Hs Hir Hpc. unfold exec_store. cbv zeta. set (a := u32 (_ + _)). set (rs2 := REG s _).
  assert (in_range 32 rs2) by (apply REG_range, Hs).
  destruct (Z.leb_spec (u32 (mem_size s - 3)) a) as [|Hlt].
  { assert (forall i, wf (setCSR i rs2 s)) by (intros; by apply wf_setCSR).
    assert (wf (setCSR PC (u32 (pc + 4)) s)) by (apply wf_setCSR; rng).
    repeat case_match; eexists; (split; [done|]); first [done | outcome]. }
  assert (forall n, (n <= 4)%nat ->
    exists r, (s ← MEMstore s a n rs2; Some (Done (Out 0 0 pc 0 s))) = Some r /\ result_ok r) as Hl.
  { intros n Hn. destruct (MEMstore_ok s a n rs2) as (-> & Hw); [done|unfold a; rng|done..|].
    eexists; split; [done|]. outcome. }
  assert (exists r, Some (Done (Out (2 + 1) 0 pc 0 s)) = Some r /\ result_ok r)
    by (eexists; split; [done|outcome]).
  repeat first [done | apply Hl; lia | case_match].
Qed.

Lemma exec_muldiv_range f3 a b : in_range 32 a -> in_range 32 b -> in_range 32 (exec_muldiv f3 a b).
Proof.
  intros Ha Hb.
  assert (b <> 0 -> in_range 32 (a / b) /\ in_range 32 (a `mod` b)) as Hdm.
  { intros. unfold in_range in *. pose proof (Z.mod_pos_bound a b). pose proof (Z.div_pos a b).
    pose proof (Z.div_le_upper_bound a b a). nia. }
  unfold exec_muldiv. repeat case_match; first [rng | apply Hdm; lia].
Qed.

Lemma exec_op_range s ir : wf s -> in_range 32 ir -> in_range 32 (exec_op s ir).
Proof.
  intros Hs Hir. unfold exec_op. cbv zeta. generalize (if Z.land ir 0x20 =? 0 then 0 else 1). intros isr.
  assert (in_range 32 (REG s (rs1_of ir))) as Ha by (apply REG_range, Hs).
  assert (in_range 32 (if isr =? 0 then imm_i ir else REG s (Z.land (imm_i ir) 31))) as Hb
    by (case_match; rng).
  revert Ha Hb. generalize (REG s (rs1_of ir)) as a.
  generalize (if isr =? 0 then imm_i ir else REG s (Z.land (imm_i ir) 31)) as b. intros b a Ha Hb.
  case_match; [by apply exec_muldiv_range|]. unfold exec_alu.
  assert (0 <= Z.land b 31) by (apply Z.land_nonneg; lia). repeat case_match; rng.
Qed.

Lemma exec_system_ok s ir pc cycle rdid :
  wf s -> in_range 32 ir -> in_range 32 pc -> in_range 32 cycle -> 0 <= rdid ->
  result_ok (exec_system s ir pc cycle rdid).
Proof.
  intros Hs Hir Hpc Hc Hrd. unfold exec_system. cbv zeta.
  assert (forall n, in_range 32 (csr_read s cycle n)) as Hread
    by (intros n; unfold csr_read; repeat case_match; rng).
  assert (forall n v, in_range 32 v -> wf (csr_write n v s)) as Hwr
    by (intros n v Hv; unfold csr_write; repeat case_match; done || by apply wf_setCSR).
  assert (forall m v x y, in_range 32 v -> in_range 32 x -> in_range 32 y ->
    in_range 32 (csr_writeval m v x y)) as Hwv
    by (intros; unfold csr_writeval; repeat case_match; rng).
  destruct (negb (Z.land _ 3 =? 0)).
  { outcome. apply Hwr, Hwv; rng. }
  destruct (_ =? 0); [|outcome]. destruct (_ =? 0x105); [simpl; rng|].
  destruct (_ =? 2); [split_and!; simpl; [apply wf_setCSR; [apply wf_setCSR|]|..]; rng|].
  assert (forall trap, in_range 32 trap -> outcome_ok (Out trap 0 pc 0 s)) as Ho by (intros; outcome).
  clear Hread Hwr Hwv. destruct (Z.shiftr ir 20) as [|[]|]; cbn [result_ok]; apply Ho; try case_match; rng.
Qed.

Lemma amo_switch_ok s m a b v trap rval b' dw s' :
  wf s -> in_range 32 b -> in_range 32 v ->
  amo_switch s m a b v = (trap, rval, b', dw, s') ->
  wf s' /\ in_range 32 trap /\ in_range 32 rval /\ in_range 32 b' /\
  s'.(mem_offset) = s.(mem_offset) /\ s'.(mem_size) = s.(mem_size).
Proof.
  intros Hs Hb Hv. assert (wf (setCSR EXTRAFLAGS
    (Z.lor (Z.land (CSR s EXTRAFLAGS) 7) (u32 (Z.shiftl a 3))) s)) by (apply wf_setCSR; rng).
  unfold amo_switch. repeat case_match; intros; simplify_eq; split_and!; rng.
Qed.

Lemma exec_amo_ok s ir pc rdid :
  wf s -> in_range 32 pc -> 0 <= rdid ->
  exists o, exec_amo s ir pc rdid = Some o /\ outcome_ok o.
Proof.
  intros Hs Hpc Hrd. unfold exec_amo. cbv zeta. set (a := u32 (_ - mem_offset s)).
  assert (in_range 32 a) by (unfold a; rng).
  destruct (Z.leb_spec (u32 (mem_size s - 3)) a) as [|Hlt]; [eexists; split; [done|outcome]|].
  destruct (MEMload_ok s a 4) as (v & -> & _ & Hv); [done..|].
  change (8 * Z.of_nat 4) with 32 in Hv. cbn [mbind option_bind].
  destruct (amo_switch _ _ _ _ _) as [[[[trap rval] b'] dw] s'] eqn:E.
  apply amo_switch_ok in E as (Hs' & ? & ? & ? & Eo & Es); [|rng..].
  destruct dw; cbn [mbind option_bind]; [|eexists; split; [done|outcome]].
  destruct (MEMstore_ok s' a 4 b') as (-> & Hw); [done..|by rewrite Es|lia|].
  eexists; split; [done|outcome].
Qed.

Lemma exec_insn_ok s ir pc cycle :
  wf s -> in_range 32 ir -> in_range 32 pc -> in_range 32 cycle ->
  exists r, exec_insn s ir pc cycle = Some r /\ result_ok r.
Proof.
  intros Hs Hir Hpc Hc. unfold exec_insn. cbv zeta. set (rdid := Z.land (Z.shiftr ir 7) 31).
  assert (0 <= rdid) by (apply Z.land_nonneg; lia). clearbody rdid.
  pose proof (exec_load_ok s ir pc rdid Hs Hir Hpc) as (ol & El & Hol); [done|].
  pose proof (exec_amo_ok s ir pc rdid Hs Hpc) as (oa & Ea & Hoa); [done|].
  pose proof (exec_store_ok s ir pc Hs Hir Hpc) as Hst.
  pose proof (exec_branch_ok s ir pc Hs Hpc).
  pose proof (exec_op_range s ir Hs Hir) as Hop. revert Hop. generalize (exec_op s ir). intros v Hop.
  pose proof (exec_system_ok s ir pc cycle rdid Hs Hir Hpc Hc ltac:(done)).
  rewrite El, Ea. cbn [mbind option_bind].
  repeat lazymatch goal with |- exists r, match _ with _ => _ end = _ /\ _ => case_match end;
    lazymatch goal with
    | |- exists r, Some (Done ?o) = _ /\ _ => exists (Done o)
    | |- exists r, Some ?r' = _ /\ _ => exists r'
    | |- _ => idtac
    end;
    lazymatch goal with
    | |- exists r, _ => exact Hst
    | |- _ /\ result_ok (Done (Out _ _ _ _ _)) => split; [reflexivity|outcome]
    | |- _ /\ result_ok (Done _) => split; [reflexivity|]; cbn [result_ok]; assumption
    | |- _ => split; [reflexivity|assumption]
    end.
Qed.

Lemma trap_enter_ok s trap rval pc s' pc' :
  wf s -> in_range 32 trap -> in_range 32 rval -> in_range 32 pc ->
  trap_enter s trap rval pc = (s', pc') -> wf s' /\ in_range 32 pc'.
Proof.
  intros Hs Ht Hr Hpc. unfold trap_enter.
  assert (forall t p, wf t -> in_range 32 p -> forall s' pc',
    (let s := setCSR MEPC p t in
     let s := setCSR MSTATUS (Z.lor (Z.shiftl (Z.land (CSR s MSTATUS) 0x08) 4)
                                    (Z.shiftl (Z.land (CSR s EXTRAFLAGS) 3) 11)) s in
     let pc := u32 (CSR s MTVEC - 4) in
     (setCSR EXTRAFLAGS (Z.lor (CSR s EXTRAFLAGS) 3) s, u32 (pc + 4))) = (s', pc') ->
    wf s' /\ in_range 32 pc') as Htail.
  { intros t p Hwt Hp ?? [= <- <-]. split; [|rng].
    assert (wf (setCSR MEPC p t)) as Hm by rng. revert Hm. generalize (setCSR MEPC p t) as u.
    intros u Hu. apply wf_setCSR; [apply wf_setCSR|]; rng. }
  destruct (negb (Z.land trap _ =? 0)); apply Htail; rng.
Qed.

Lemma cycle_end_ok s trap rval pc cycle :
  wf s -> in_range 32 trap -> in_range 32 rval -> in_range 32 pc -> in_range 32 cycle ->
  exists s', cycle_end s trap rval pc cycle = (0, s') /\ wf s'.
Proof.
  intros Hs Ht Hr Hpc Hc. unfold cycle_end.
  destruct (if negb (trap =? 0) then _ else _) as [t p] eqn:E.
  assert (wf t /\ in_range 32 p) as [Hw Hp].
  { destruct (negb (trap =? 0)); [by eapply trap_enter_ok in E|by simplify_eq]. }
  eexists; split; [done|]. apply wf_setCSR; [|done]. apply wf_setCSR; [|done].
  destruct (_ <? _); rng.
Qed.

Lemma run_insn_ok s : wf s -> exists ret s', run_insn s = Some (ret, s') /\ wf s'.
Proof.
  intros Hs. unfold run_insn. cbv zeta. set (a := u32 (CSR s PC - mem_offset s)).
  assert (in_range 32 a) by (unfold a; rng).
  assert (forall t trap rval pc, wf t -> in_range 32 trap -> in_range 32 rval -> in_range 32 pc ->
    exists ret s', Some (cycle_end t trap rval pc (u32 (CSR s CYCLEL + 1))) = Some (ret, s') /\ wf s') as Hend.
  { intros t trap rval pc ????. destruct (cycle_end_ok t trap rval pc (u32 (CSR s CYCLEL + 1)))
      as (s' & -> & ?); rng. }
  destruct (Z.leb_spec (mem_size s) a) as [|Hlt]; [apply Hend; rng|].
  destruct (Z.eqb_spec (Z.land a 3) 0) as [Ha|]; cbn [negb]; [|apply Hend; rng].
  change 3 with (2 ^ 2 - 1) in Ha. rewrite land_low in Ha by lia.
  change (2 ^ 2) with 4 in Ha. pose proof (wf_size4 s Hs). pose proof (wf_size s Hs).
  destruct (MEMload_ok s a 4) as (ir & -> & _ & Hir); [done..| |done|].
  { rewrite wrap_small; unfold in_range in *; pose proof (wf_size_pos s Hs);
      Z.to_euclidean_division_equations; lia. }
  change (8 * Z.of_nat 4) with 32 in Hir.
  destruct (exec_insn_ok s ir (CSR s PC) (u32 (CSR s CYCLEL + 1))) as (r & Er & Hr); [rng..|].
  cbn [mbind option_bind]. rewrite Er. cbn [mbind option_bind].
  destruct r as [[trap rval pc rdid t]|ret t]; [|eauto]. destruct Hr as (?&?&?&?&?); simpl in *.
  destruct (negb (trap =? 0)); [by apply Hend|]. apply Hend; [|rng..].
  destruct (Z.eqb_spec rdid 0); cbn [negb]; [done|]. apply wf_setREG; [done|lia|done].
Qed.

(** ** The emulator's main program (main.c) *)

Definition RAM_SIZE : Z := 64 * 1024 * 1024.
Definition RAM_TEXT_START : Z := 0.
Definition RAM_STACK_START : Z := RAM_SIZE / 2.
Definition RAM_TEXT_END : Z := RAM_STACK_START.
Definition RAM_STACK_END : Z := RAM_SIZE.
Definition MAX_MAINARGS : nat := 4.

Definition int_ok (z : Z) : bool := (- 2 ^ 31 <=? z) && (z <? 2 ^ 31).

(** [xtoi] of the characters after the [0x] prefix; [None] when the [int]
    [res] overflows.  The assignment of the first branch is [res =+ ...]. *)
Fixpoint xtoi_loop (res : Z) (s : list Z) : option Z :=
  match s with
  | [] => Some res
  | c :: s =>
      let scaled := res * 16 in
      let res := if (97 <=? c) && (c <=? 102) then c - 97 else scaled + (c - 48) in
      if int_ok scaled && int_ok res then xtoi_loop res s else None
  end.

Definition xtoi (s : list Z) : option Z := xtoi_loop 0 (drop 2 s).

(** [memcpy] of the main arguments, little-endian *)
Fixpoint store_args (m : Z -> Z) (sp : Z) (margs : list Z) : Z -> Z :=
  match margs with
  | [] => m
  | v :: margs => store_args (store_le m sp 4 v) (sp + 4) margs
  end.

(** The state [main] starts the emulation in; [None] for its error exits: an
    image that does not fit below the stack, or that [fread] reads nothing of. *)
Definition main_init (image margs : list Z) : option CPUState :=
  if RAM_TEXT_END - RAM_TEXT_START <? Z.of_nat (length image) then None
  else if (length image =? 0)%nat then None
  else
    let margs := take MAX_MAINARGS margs in
    let margc := Z.of_nat (length margs) in
    let sp := RAM_STACK_END - margc * 4 in
    let mem0 a := if 0 <=? a then nth (Z.to_nat a) image 0 else 0 in
    Some (Cpu (<[A1 := sp]> (<[A0 := margc]> (<[SP := sp]> (replicate 32 0))))
              (<[PC := RAM_TEXT_START]> (replicate CSR_COUNT 0))
              (store_args mem0 sp margs) RAM_TEXT_START RAM_SIZE).

(** [debug_climit = 10000] *)
Definition debug_climit : nat := 100 * 100.

(** The [do ... while] of [main]: [climit] bounds the number of steps. *)
Fixpoint main_loop (climit : nat) (s : CPUState) : option (Z * CPUState) :=
  match climit with
  | O => None
  | S n =>
      '(ret, s) ← rv32ima_step s 1;
      match n with
      | O => Some (ret, s)
      | S _ => if (ret =? 0) && negb (CSR s PC =? 0) then main_loop n s else Some (ret, s)
      end
  end.

Lemma store_args_bytes margs : forall m sp,
  (forall a, in_range 8 (m a)) -> forall a, in_range 8 (store_args m sp margs a).
Proof.
  induction margs as [|v l IH]; intros m sp Hm; cbn [store_args]; [done|]. apply IH, store_le_bytes, Hm.
Qed.

Lemma main_init_wf image margs s :
  Forall (in_range 8) image -> main_init image margs = Some s -> wf s.
Proof.
  intros Hi. unfold main_init. case_match; [done|]. case_match; [done|]. intros [= <-].
  pose proof (length_take margs MAX_MAINARGS) as Hl. revert Hl.
  generalize (take MAX_MAINARGS margs) as l. unfold MAX_MAINARGS. intros l Hl.
  assert (Hr : forall z, 0 <= z <= RAM_SIZE -> in_range 32 z).
  { unfold in_range, RAM_SIZE. lia. }
  split; cbn [regs csrs mem mem_offset mem_size]; try done.
  - simpl. repeat (apply List.Forall_cons; [apply Hr; unfold RAM_STACK_END, RAM_SIZE; lia|]).
    apply List.Forall_nil.
  - simpl. repeat (apply List.Forall_cons; [apply Hr; unfold RAM_TEXT_START, RAM_SIZE; lia|]).
    apply List.Forall_nil.
  - apply store_args_bytes. intros a. case_match; [|rng].
    destruct (nth_in_or_default (Z.to_nat a) image 0) as [Hin| ->]; [|rng].
    rewrite List.Forall_forall in Hi. auto.
Qed.

Lemma step_ok s e : wf s -> in_range 32 e -> exists ret s', rv32ima_step s e = Some (ret, s') /\ wf s'.
Proof.
  intros Hs He. unfold rv32ima_step. cbv zeta.
  pose proof (timer_update_wf s e Hs) as Hw. revert Hw. generalize (timer_update s e) as t.
  intros t Ht. case_match; [eauto|]. case_match; [|by apply run_insn_ok].
  destruct (cycle_end_ok t 0x80000007 0 (u32 (CSR t PC - 4)) (CSR t CYCLEL)) as (s' & -> & ?); eauto; rng.
Qed.

Lemma main_loop_ok n : forall s, wf s -> exists ret s', main_loop (S n) s = Some (ret, s') /\ wf s'.
Proof.
  assert (in_range 32 1) as H1 by rng.
  induction n as [|n IH]; intros s Hs; cbn [main_loop];
    destruct (step_ok s 1 Hs H1) as (ret & s' & -> & Hs'); cbn [mbind option_bind]; [eauto|].
  case_match; [|eauto]. by apply IH.
Qed.

(** C34: one step of the emulator never reads or writes guest memory outside its
    buffer, for any instruction word, and keeps the registers, the control
    registers and the memory well-formed ([x0] stays zero). *)
Theorem rv32ima_step_total s e :
  wf s -> in_range 32 e -> exists ret s', rv32ima_step s e = Some (ret, s') /\ wf s'.
Proof. apply step_ok. Qed.

(** Whatever the image and the arguments, the emulation that [main] starts
    ends within its limit of 10000 steps, in a well-formed state, without an
    access outside the guest's memory. *)
Theorem main_emulation_total image margs s :
  Forall (in_range 8) image -> main_init image margs = Some s ->
  exists ret s', main_loop debug_climit s = Some (ret, s') /\ wf s'.
Proof.
  intros Hi Hs. unfold debug_climit. apply (main_loop_ok (100 * 100 - 1)). by eapply main_init_wf.
Qed.

(** [addi a0, a0, 1; sw a0, 0(a1)] as an image *)
Definition demo_image : list Z := [0x13; 0x05; 0x15; 0x00; 0x23; 0xa0; 0xa5; 0x00].

Definition demo_state : CPUState := default (Cpu [] [] (fun _ => 0) 0 0) (main_init demo_image [7; 8]).

Lemma demo_image_bytes : Forall (in_range 8) demo_image.
Proof. unfold demo_image. repeat constructor; unfold in_range; lia. Defined.

Lemma rv32ima_step_total_witness :
  wf demo_state /\ exists ret s', rv32ima_step demo_state 1 = Some (ret, s') /\ wf s'.
Proof.
  assert (wf demo_state) as H by (apply (main_init_wf demo_image [7; 8]); [apply demo_image_bytes|reflexivity]).
  split; [exact H|]. apply (rv32ima_step_total demo_state 1 H). unfold in_range; lia.
Defined.

Lemma main_emulation_total_witness :
  exists ret s', main_loop debug_climit demo_state = Some (ret, s') /\ wf s'.
Proof.
  apply (main_emulation_total demo_image [7; 8]); [apply demo_image_bytes|reflexivity].
Defined.

(** The two instructions of the image run: [a0] is 3, and stored at [a1]. *)
Example demo_runs :
  (s1 ← rv32ima_step demo_state 1; s2 ← rv32ima_step s1.2 1;
   Some (REG s2.2 10, load_le s2.2.(mem) (REG s2.2 11) 4, CSR s2.2 PC)) = Some (3, 3, 8).
Proof. reflexivity. Qed.

(** [xtoi] of 0x1a is 0, not 26. *)
Example xtoi_letter : xtoi [48; 120; 49; 97] = Some 0.
Proof. reflexivity. Qed.
