(* ===== verification/Rv32Isa.v ===== *)
(** * The emulator against the RV32IMA instruction set.

    [instr] is the instruction set with its operands as numbers, [encode] its
    32-bit encodings, [isa_exec] the meaning of an instruction on registers,
    memory and PC.  The theorems show that [rv32ima_step] on the encoding of an
    instruction does what [isa_exec] says, so that the emulator's bit-level
    decoding and its casts between signed and unsigned are right. *)

From S2P Require Import Prelude Rv32.

Local Open Scope Z_scope.

(** ** Sign extension with a mask *)

Lemma sext_mask w x :
  0 < w < 32 -> in_range w x ->
  (if Z.land x (2 ^ (w - 1)) =? 0 then x else Z.lor x (2 ^ 32 - 2 ^ w)) = u32 (signed w x).
Proof.
  intros Hw Hx.
  assert (2 ^ w = 2 * 2 ^ (w - 1)) as E by (rewrite <- Z.pow_succ_r by lia; f_equal; lia).
  assert (2 ^ 32 = 2 ^ (32 - w) * 2 ^ w) as E32 by (rewrite <- Z.pow_add_r by lia; f_equal; lia).
  pose proof (pow2_pos (w - 1)) as Hp. assert (2 ^ w <= 2 ^ 32) as Hle by (apply Z.pow_le_mono_r; lia).
  rewrite <- (Z.mul_1_l (2 ^ (w - 1))) at 1. change 1 with (2 ^ 1 - 1) at 1.
  rewrite land_field by lia. change (2 ^ 1) with 2.
  unfold signed. rewrite (wrap_small w x) by done. unfold in_range in *.
  assert (x / 2 ^ (w - 1) = if x <? 2 ^ (w - 1) then 0 else 1) as ->.
  { destruct (Z.ltb_spec x (2 ^ (w - 1))); [apply Z.div_small; lia|].
    symmetry. apply Z.div_unique with (x - 2 ^ (w - 1)); lia. }
  destruct (Z.ltb_spec x (2 ^ (w - 1))).
  - rewrite Z.mod_0_l, Z.mul_0_l, Z.eqb_refl by lia. symmetry. apply wrap_small. unfold in_range. lia.
  - change (1 `mod` 2) with 1. destruct (Z.eqb_spec (1 * 2 ^ (w - 1)) 0); [lia|].
    replace (2 ^ 32 - 2 ^ w) with ((2 ^ (32 - w) - 1) * 2 ^ w) by lia.
    rewrite lor_disjoint_add by (unfold in_range; lia).
    replace (x - 2 ^ w) with (x + (2 ^ (32 - w) - 1) * 2 ^ w + (-1) * 2 ^ 32) by lia.
    rewrite wrap_period by lia. symmetry. apply wrap_small. unfold in_range. lia.
Qed.

(** ** Instruction words

    Every format is the R format with its fields reused for immediates. *)

Definition pack (op rd f3 rs1 rs2 f7 : Z) : Z :=
  op + rd * 2 ^ 7 + f3 * 2 ^ 12 + rs1 * 2 ^ 15 + rs2 * 2 ^ 20 + f7 * 2 ^ 25.

Section Fields.
Context (op rd f3 rs1 rs2 f7 : Z).
Context (Hop : in_range 7 op) (Hrd : in_range 5 rd) (Hf3 : in_range 3 f3).
Context (Hrs1 : in_range 5 rs1) (Hrs2 : in_range 5 rs2) (Hf7 : in_range 7 f7).

Let ir := pack op rd f3 rs1 rs2 f7.

Lemma pack_range : in_range 32 ir.
Proof. unfold ir, pack, in_range in *. lia. Qed.

(** [field k n]: the [n] bits of the word from bit [k]. *)
Lemma pack_fields :
  ir `mod` 2 ^ 7 = op /\ (ir / 2 ^ 7) `mod` 2 ^ 5 = rd /\ (ir / 2 ^ 12) `mod` 2 ^ 3 = f3 /\
  (ir / 2 ^ 15) `mod` 2 ^ 5 = rs1 /\ (ir / 2 ^ 20) `mod` 2 ^ 5 = rs2 /\ ir / 2 ^ 25 = f7.
Proof.
  unfold ir, pack, in_range in *.
  split_and!; Z.to_euclidean_division_equations; lia.
Qed.

Lemma pack_opcode : Z.land ir 0x7f = op.
Proof. change 0x7f with (2 ^ 7 - 1). rewrite land_low by lia. apply pack_fields. Qed.

Lemma pack_rd : Z.land (Z.shiftr ir 7) 0x1f = rd.
Proof.
  change 0x1f with (2 ^ 5 - 1). rewrite land_low, Z.shiftr_div_pow2 by lia. apply pack_fields.
Qed.

Lemma pack_funct3 : funct3 ir = f3.
Proof.
  unfold funct3. change 0x7 with (2 ^ 3 - 1). rewrite land_low, Z.shiftr_div_pow2 by lia.
  apply pack_fields.
Qed.

Lemma pack_rs1 : rs1_of ir = rs1.
Proof.
  unfold rs1_of. change 0x1f with (2 ^ 5 - 1). rewrite land_low, Z.shiftr_div_pow2 by lia.
  apply pack_fields.
Qed.

Lemma pack_rs2 : rs2_of ir = rs2.
Proof.
  unfold rs2_of. change 0x1f with (2 ^ 5 - 1). rewrite land_low, Z.shiftr_div_pow2 by lia.
  apply pack_fields.
Qed.

Lemma pack_irmid : Z.land (Z.shiftr ir 27) 0x1f = f7 / 4.
Proof.
  change 0x1f with (2 ^ 5 - 1). rewrite land_low, Z.shiftr_div_pow2 by lia.
  unfold ir, pack, in_range in *. Z.to_euclidean_division_equations; lia.
Qed.

Lemma pack_high12 : Z.shiftr ir 20 = rs2 + f7 * 2 ^ 5.
Proof.
  rewrite Z.shiftr_div_pow2 by lia. unfold ir, pack, in_range in *.
  Z.to_euclidean_division_equations; lia.
Qed.

(** Bit [5] of funct7 selects SUB and SRA, bit [0] RV32M. *)
Lemma pack_bit30 : (Z.land ir 0x40000000 =? 0) = ((f7 / 32) `mod` 2 =? 0).
Proof.
  change 0x40000000 with ((2 ^ 1 - 1) * 2 ^ 30). rewrite land_field by lia.
  replace (ir / 2 ^ 30) with (f7 / 32);
    [|unfold ir, pack, in_range in *; Z.to_euclidean_division_equations; lia].
  change (2 ^ 1) with 2. generalize ((f7 / 32) `mod` 2) as b. intros b.
  destruct (Z.eqb_spec (b * 2 ^ 30) 0), (Z.eqb_spec b 0); lia.
Qed.

Lemma pack_bit25 : (Z.land ir 0x02000000 =? 0) = (f7 `mod` 2 =? 0).
Proof.
  change 0x02000000 with ((2 ^ 1 - 1) * 2 ^ 25). rewrite land_field by lia.
  replace (ir / 2 ^ 25) with f7 by (symmetry; apply pack_fields).
  change (2 ^ 1) with 2. generalize (f7 `mod` 2) as b. intros b.
  destruct (Z.eqb_spec (b * 2 ^ 25) 0), (Z.eqb_spec b 0); lia.
Qed.

(** ** Immediates *)

Lemma pack_imm_i : imm_i ir = u32 (signed 12 (rs2 + f7 * 2 ^ 5)).
Proof.
  unfold imm_i. cbv zeta. rewrite pack_high12.
  rewrite <- (sext_mask 12) by (unfold in_range in *; lia).
  change (2 ^ (12 - 1)) with 0x800. change (2 ^ 32 - 2 ^ 12) with 0xfffff000.
  case_match; [apply Z.lor_0_r|done].
Qed.

Lemma pack_imm_s : imm_s ir = u32 (signed 12 (rd + f7 * 2 ^ 5)).
Proof.
  unfold imm_s. cbv zeta. rewrite pack_rd.
  change 0xfe000000 with ((2 ^ 7 - 1) * 2 ^ 25). rewrite land_field by lia.
  replace (ir / 2 ^ 25) with f7 by (symmetry; apply pack_fields).
  rewrite (Z.mod_small f7) by (unfold in_range in *; lia).
  replace (Z.shiftr (f7 * 2 ^ 25) 20) with (f7 * 2 ^ 5)
    by (rewrite Z.shiftr_div_pow2 by lia; Z.to_euclidean_division_equations; lia).
  rewrite lor_disjoint_add by (done || lia).
  by rewrite <- (sext_mask 12) by (unfold in_range in *; lia).
Qed.

Lemma pack_imm_b :
  immm4 ir = u32 (signed 13 (rd / 2 * 2 + f7 `mod` 2 ^ 6 * 2 ^ 5 + rd `mod` 2 * 2 ^ 11 + f7 / 2 ^ 6 * 2 ^ 12)).
Proof.
  unfold immm4. cbv zeta.
  change 0xf00 with ((2 ^ 4 - 1) * 2 ^ 8). change 0x7e000000 with ((2 ^ 6 - 1) * 2 ^ 25).
  change 0x80 with ((2 ^ 1 - 1) * 2 ^ 7). rewrite !land_field by lia.
  replace ((ir / 2 ^ 8) `mod` 2 ^ 4) with (rd / 2)
    by (unfold ir, pack, in_range in *; Z.to_euclidean_division_equations; lia).
  replace (ir / 2 ^ 25) with f7 by (symmetry; apply pack_fields).
  replace ((ir / 2 ^ 7) `mod` 2 ^ 1) with (rd `mod` 2)
    by (unfold ir, pack, in_range in *; Z.to_euclidean_division_equations; lia).
  replace (Z.shiftr ir 31) with (f7 / 2 ^ 6)
    by (rewrite Z.shiftr_div_pow2 by lia; unfold ir, pack, in_range in *;
        Z.to_euclidean_division_equations; lia).
  set (i := Z.lor _ _).
  assert (i = rd / 2 * 2 + f7 `mod` 2 ^ 6 * 2 ^ 5 + rd `mod` 2 * 2 ^ 11 + f7 / 2 ^ 6 * 2 ^ 12) as ->.
  { unfold i. rewrite Z.shiftl_mul_pow2, !Z.shiftr_div_pow2, (Z.shiftl_mul_pow2 _ 12) by lia.
    replace (rd / 2 * 2 ^ 8 / 2 ^ 7) with (rd / 2 * 2) by (Z.to_euclidean_division_equations; lia).
    replace (f7 `mod` 2 ^ 6 * 2 ^ 25 / 2 ^ 20) with (f7 `mod` 2 ^ 6 * 2 ^ 5)
      by (Z.to_euclidean_division_equations; lia).
    rewrite <- Z.mul_assoc. change (2 ^ 7 * 2 ^ 4) with (2 ^ 11).
    rewrite (lor_disjoint_add (rd / 2 * 2) _ 5), (lor_disjoint_add _ (rd `mod` 2) 11),
      (lor_disjoint_add _ (f7 / 2 ^ 6) 12);
      unfold in_range in *; try lia; Z.to_euclidean_division_equations; lia. }
  by rewrite <- (sext_mask 13) by (unfold in_range in *; Z.to_euclidean_division_equations; lia).
Qed.

Lemma pack_imm_j :
  reladdy ir = u32 (signed 21 (rs2 / 2 * 2 + f7 `mod` 2 ^ 6 * 2 ^ 5 + rs2 `mod` 2 * 2 ^ 11 +
                               (f3 + rs1 * 2 ^ 3) * 2 ^ 12 + f7 / 2 ^ 6 * 2 ^ 20)).
Proof.
  unfold reladdy. cbv zeta.
  change 0x80000000 with ((2 ^ 1 - 1) * 2 ^ 31). change 0x7fe00000 with ((2 ^ 10 - 1) * 2 ^ 21).
  change 0x00100000 with ((2 ^ 1 - 1) * 2 ^ 20) at 1. change 0x000ff000 with ((2 ^ 8 - 1) * 2 ^ 12).
  set (i := Z.lor (Z.lor (Z.lor _ _) _) _).
  assert (i = rs2 / 2 * 2 + f7 `mod` 2 ^ 6 * 2 ^ 5 + rs2 `mod` 2 * 2 ^ 11 +
              (f3 + rs1 * 2 ^ 3) * 2 ^ 12 + f7 / 2 ^ 6 * 2 ^ 20) as ->.
  { unfold i. rewrite !land_field by lia.
    replace ((ir / 2 ^ 31) `mod` 2 ^ 1) with (f7 / 2 ^ 6)
      by (unfold ir, pack, in_range in *; Z.to_euclidean_division_equations; lia).
    replace ((ir / 2 ^ 21) `mod` 2 ^ 10) with (rs2 / 2 + f7 `mod` 2 ^ 6 * 2 ^ 4)
      by (unfold ir, pack, in_range in *; Z.to_euclidean_division_equations; lia).
    replace ((ir / 2 ^ 20) `mod` 2 ^ 1) with (rs2 `mod` 2)
      by (unfold ir, pack, in_range in *; Z.to_euclidean_division_equations; lia).
    replace ((ir / 2 ^ 12) `mod` 2 ^ 8) with (f3 + rs1 * 2 ^ 3)
      by (unfold ir, pack, in_range in *; Z.to_euclidean_division_equations; lia).
    rewrite !Z.shiftr_div_pow2 by lia.
    replace (f7 / 2 ^ 6 * 2 ^ 31 / 2 ^ 11) with (f7 / 2 ^ 6 * 2 ^ 20)
      by (Z.to_euclidean_division_equations; lia).
    replace ((rs2 / 2 + f7 `mod` 2 ^ 6 * 2 ^ 4) * 2 ^ 21 / 2 ^ 20)
      with ((rs2 / 2 + f7 `mod` 2 ^ 6 * 2 ^ 4) * 2) by (Z.to_euclidean_division_equations; lia).
    replace (rs2 `mod` 2 * 2 ^ 20 / 2 ^ 9) with (rs2 `mod` 2 * 2 ^ 11)
      by (Z.to_euclidean_division_equations; lia).
    rewrite (Z.lor_comm (f7 / 2 ^ 6 * 2 ^ 20)).
    rewrite <- (Z.lor_assoc _ (f7 / 2 ^ 6 * 2 ^ 20)), (Z.lor_comm (f7 / 2 ^ 6 * 2 ^ 20)), Z.lor_assoc.
    rewrite <- (Z.lor_assoc _ (f7 / 2 ^ 6 * 2 ^ 20)), (Z.lor_comm (f7 / 2 ^ 6 * 2 ^ 20)), Z.lor_assoc.
    rewrite (lor_disjoint_add _ (rs2 `mod` 2) 11), (lor_disjoint_add _ (f3 + rs1 * 2 ^ 3) 12),
      (lor_disjoint_add _ (f7 / 2 ^ 6) 20);
      unfold in_range in *; try lia; Z.to_euclidean_division_equations; lia. }
  by rewrite <- (sext_mask 21) by (unfold in_range in *; Z.to_euclidean_division_equations; lia).
Qed.

Lemma pack_imm_u : Z.land ir 0xfffff000 = (f3 + rs1 * 2 ^ 3 + rs2 * 2 ^ 8 + f7 * 2 ^ 13) * 2 ^ 12.
Proof.
  change 0xfffff000 with ((2 ^ 20 - 1) * 2 ^ 12). rewrite land_field by lia.
  unfold ir, pack, in_range in *. Z.to_euclidean_division_equations; lia.
Qed.
End Fields.

(** ** The instruction set *)

Inductive alu_op := ADD | SUB | SLL | SLT | SLTU | XOR | SRL | SRA | OR | AND.
Inductive mul_op := MUL | MULH | MULHSU | MULHU | DIV | DIVU | REM | REMU.
Inductive branch_op := BEQ | BNE | BLT | BGE | BLTU | BGEU.
Inductive load_op := LB | LH | LW | LBU | LHU.
Inductive store_op := SB | SH | SW.
Inductive amo_op := AMOSWAP | AMOADD | AMOXOR | AMOAND | AMOOR | AMOMIN | AMOMAX | AMOMINU | AMOMAXU.

(** Offsets and 12-bit immediates are signed; [Lui] and [Auipc] have the upper
    20 bits; [OpImm] of a shift has the shift amount. *)
Inductive instr :=
| Lui (rd imm : Z) | Auipc (rd imm : Z) | Jal (rd off : Z) | Jalr (rd rs1 imm : Z)
| Branch (o : branch_op) (rs1 rs2 off : Z)
| Load (o : load_op) (rd rs1 imm : Z) | Store (o : store_op) (rs1 rs2 imm : Z)
| OpImm (o : alu_op) (rd rs1 imm : Z) | Op (o : alu_op) (rd rs1 rs2 : Z)
| MulDiv (o : mul_op) (rd rs1 rs2 : Z) | Amo (o : amo_op) (rd rs1 rs2 : Z) | Fence.

Definition alu_f3 (o : alu_op) : Z :=
  match o with ADD | SUB => 0 | SLL => 1 | SLT => 2 | SLTU => 3 | XOR => 4 | SRL | SRA => 5 | OR => 6 | AND => 7 end.
Definition alu_f7 (o : alu_op) : Z := match o with SUB | SRA => 32 | _ => 0 end.
Definition mul_f3 (o : mul_op) : Z :=
  match o with MUL => 0 | MULH => 1 | MULHSU => 2 | MULHU => 3 | DIV => 4 | DIVU => 5 | REM => 6 | REMU => 7 end.
Definition branch_f3 (o : branch_op) : Z :=
  match o with BEQ => 0 | BNE => 1 | BLT => 4 | BGE => 5 | BLTU => 6 | BGEU => 7 end.
Definition load_f3 (o : load_op) : Z := match o with LB => 0 | LH => 1 | LW => 2 | LBU => 4 | LHU => 5 end.
Definition store_f3 (o : store_op) : Z := match o with SB => 0 | SH => 1 | SW => 2 end.
Definition amo_f5 (o : amo_op) : Z :=
  match o with AMOSWAP => 1 | AMOADD => 0 | AMOXOR => 4 | AMOAND => 12 | AMOOR => 8
             | AMOMIN => 16 | AMOMAX => 20 | AMOMINU => 24 | AMOMAXU => 28 end.

Definition is_shift (o : alu_op) : bool := match o with SLL | SRL | SRA => true | _ => false end.

(** The I format. *)
Definition pack_i (op rd f3 rs1 imm : Z) : Z := pack op rd f3 rs1 (imm `mod` 32) ((imm / 32) `mod` 128).

Definition encode (i : instr) : Z :=
  match i with
  | Lui rd imm => pack 0x37 rd (imm `mod` 8) ((imm / 8) `mod` 32) ((imm / 256) `mod` 32) (imm / 2 ^ 13)
  | Auipc rd imm => pack 0x17 rd (imm `mod` 8) ((imm / 8) `mod` 32) ((imm / 256) `mod` 32) (imm / 2 ^ 13)
  | Jal rd off =>
      pack 0x6F rd ((off / 2 ^ 12) `mod` 8) ((off / 2 ^ 15) `mod` 32)
        ((off / 2) `mod` 16 * 2 + (off / 2 ^ 11) `mod` 2) ((off / 2 ^ 20) `mod` 2 * 2 ^ 6 + (off / 2 ^ 5) `mod` 64)
  | Jalr rd rs1 imm => pack_i 0x67 rd 0 rs1 imm
  | Branch o rs1 rs2 off =>
      pack 0x63 ((off / 2) `mod` 16 * 2 + (off / 2 ^ 11) `mod` 2) (branch_f3 o) rs1 rs2
        ((off / 2 ^ 12) `mod` 2 * 2 ^ 6 + (off / 2 ^ 5) `mod` 64)
  | Load o rd rs1 imm => pack_i 0x03 rd (load_f3 o) rs1 imm
  | Store o rs1 rs2 imm => pack 0x23 (imm `mod` 32) (store_f3 o) rs1 rs2 ((imm / 32) `mod` 128)
  | OpImm o rd rs1 imm => pack_i 0x13 rd (alu_f3 o) rs1 (if is_shift o then imm + alu_f7 o * 32 else imm)
  | Op o rd rs1 rs2 => pack 0x33 rd (alu_f3 o) rs1 rs2 (alu_f7 o)
  | MulDiv o rd rs1 rs2 => pack 0x33 rd (mul_f3 o) rs1 rs2 1
  | Amo o rd rs1 rs2 => pack 0x2f rd 2 rs1 rs2 (amo_f5 o * 4)
  | Fence => pack 0x0f 0 0 0 0 0
  end.

(** Operands in their ranges. *)
Definition reg_ok (r : Z) : bool := (0 <=? r) && (r <? 32).
Definition imm_ok (w z : Z) : bool := (- 2 ^ (w - 1) <=? z) && (z <? 2 ^ (w - 1)).

Definition valid (i : instr) : bool :=
  match i with
  | Lui rd imm | Auipc rd imm => reg_ok rd && (0 <=? imm) && (imm <? 2 ^ 20)
  | Jal rd off => reg_ok rd && imm_ok 21 off && (off `mod` 2 =? 0)
  | Jalr rd rs1 imm => reg_ok rd && reg_ok rs1 && imm_ok 12 imm
  | Branch _ rs1 rs2 off => reg_ok rs1 && reg_ok rs2 && imm_ok 13 off && (off `mod` 2 =? 0)
  | Load _ rd rs1 imm => reg_ok rd && reg_ok rs1 && imm_ok 12 imm
  | Store _ rs1 rs2 imm => reg_ok rs1 && reg_ok rs2 && imm_ok 12 imm
  | OpImm o rd rs1 imm =>
      reg_ok rd && reg_ok rs1 && (if is_shift o then reg_ok imm else imm_ok 12 imm)
      && match o with SUB => false | _ => true end
  | Op _ rd rs1 rs2 | MulDiv _ rd rs1 rs2 | Amo _ rd rs1 rs2 => reg_ok rd && reg_ok rs1 && reg_ok rs2
  | Fence => true
  end.

(** ** What the instructions mean *)

Definition alu (o : alu_op) (a b : Z) : Z :=
  match o with
  | ADD => u32 (a + b)
  | SUB => u32 (a - b)
  | SLL => u32 (a * 2 ^ (b `mod` 32))
  | SLT => if s32 a <? s32 b then 1 else 0
  | SLTU => if a <? b then 1 else 0
  | XOR => Z.lxor a b
  | SRL => a / 2 ^ (b `mod` 32)
  | SRA => u32 (s32 a / 2 ^ (b `mod` 32))
  | OR => Z.lor a b
  | AND => Z.land a b
  end.

(** Products and quotients of the mathematical integers; division by zero gives
    all ones and the dividend, and the overflow of DIV wraps. *)
Definition muldiv (o : mul_op) (a b : Z) : Z :=
  match o with
  | MUL => u32 (a * b)
  | MULH => u32 (s32 a * s32 b / 2 ^ 32)
  | MULHSU => u32 (s32 a * b / 2 ^ 32)
  | MULHU => u32 (a * b / 2 ^ 32)
  | DIV => if b =? 0 then 2 ^ 32 - 1 else u32 (Z.quot (s32 a) (s32 b))
  | DIVU => if b =? 0 then 2 ^ 32 - 1 else a / b
  | REM => if b =? 0 then a else u32 (Z.rem (s32 a) (s32 b))
  | REMU => if b =? 0 then a else a `mod` b
  end.

Definition taken (o : branch_op) (a b : Z) : bool :=
  match o with
  | BEQ => a =? b | BNE => negb (a =? b)
  | BLT => s32 a <? s32 b | BGE => s32 b <=? s32 a
  | BLTU => a <? b | BGEU => b <=? a
  end.

Definition loaded (o : load_op) (m : Z -> Z) (off : Z) : Z :=
  match o with
  | LB => u32 (signed 8 (load_le m off 1)) | LH => u32 (signed 16 (load_le m off 2))
  | LW => load_le m off 4 | LBU => load_le m off 1 | LHU => load_le m off 2
  end.

Definition store_width (o : store_op) : nat := match o with SB => 1 | SH => 2 | SW => 4 end.

Definition amo (o : amo_op) (old b : Z) : Z :=
  match o with
  | AMOSWAP => b | AMOADD => u32 (old + b) | AMOXOR => Z.lxor old b
  | AMOAND => Z.land old b | AMOOR => Z.lor old b
  | AMOMIN => if s32 b <? s32 old then b else old
  | AMOMAX => if s32 old <? s32 b then b else old
  | AMOMINU => Z.min old b
  | AMOMAXU => Z.max old b
  end.

Definition wX (rd v : Z) (s : CPUState) : CPUState := if rd =? 0 then s else setREG rd v s.

(** The offset in RAM of guest address [a], when all four bytes from it are in RAM. *)
Definition ram (s : CPUState) (a : Z) : option Z :=
  let off := u32 (a - s.(mem_offset)) in if off <? s.(mem_size) - 3 then Some off else None.

(** The state after the instruction and the next PC. *)
Definition isa_exec (s : CPUState) (i : instr) : option (CPUState * Z) :=
  let pc := CSR s PC in
  let next := u32 (pc + 4) in
  match i with
  | Lui rd imm => Some (wX rd (imm * 2 ^ 12) s, next)
  | Auipc rd imm => Some (wX rd (u32 (pc + imm * 2 ^ 12)) s, next)
  | Jal rd off => Some (wX rd next s, u32 (pc + off))
  | Jalr rd rs1 imm => let t := u32 (REG s rs1 + imm) in Some (wX rd next s, t - t `mod` 2)
  | Branch o rs1 rs2 off => Some (s, if taken o (REG s rs1) (REG s rs2) then u32 (pc + off) else next)
  | Load o rd rs1 imm =>
      off ← ram s (REG s rs1 + imm); Some (wX rd (loaded o s.(mem) off) s, next)
  | Store o rs1 rs2 imm =>
      off ← ram s (REG s rs1 + imm);
      Some (setMEM (store_le s.(mem) off (store_width o) (REG s rs2)) s, next)
  | OpImm o rd rs1 imm => Some (wX rd (alu o (REG s rs1) (u32 imm)) s, next)
  | Op o rd rs1 rs2 => Some (wX rd (alu o (REG s rs1) (REG s rs2)) s, next)
  | MulDiv o rd rs1 rs2 => Some (wX rd (muldiv o (REG s rs1) (REG s rs2)) s, next)
  | Amo o rd rs1 rs2 =>
      off ← ram s (REG s rs1);
      let old := load_le s.(mem) off 4 in
      Some (wX rd old (setMEM (store_le s.(mem) off 4 (amo o old (REG s rs2))) s), next)
  | Fence => Some (s, next)
  end.

(** The 64-bit cycle counter counts the instruction and the PC moves on. *)
Definition retire (s : CPUState) (pc : Z) : CPUState :=
  let n := CSR s CYCLEH * 2 ^ 32 + CSR s CYCLEL + 1 in
  setCSR PC pc (setCSR CYCLEL (n `mod` 2 ^ 32) (setCSR CYCLEH ((n / 2 ^ 32) `mod` 2 ^ 32) s)).

(** ** Arithmetic of the emulator *)

Lemma wrap_shift_64 x : u32 (Z.shiftr (u64 x) 32) = u32 (x / 2 ^ 32).
Proof.
  rewrite Z.shiftr_div_pow2 by lia. unfold wrap. change (2 ^ 64) with (2 ^ 32 * 2 ^ 32).
  rewrite Z.rem_mul_r by lia. rewrite Z.mul_comm, Z.div_add by lia.
  rewrite Z.div_small by (apply Z.mod_pos_bound; lia). rewrite Z.add_0_l. by apply Z.mod_mod.
Qed.

Lemma s32_min a : in_range 32 a -> s32 a = - 2 ^ 31 -> a = 2 ^ 31.
Proof.
  intros Ha. unfold signed. rewrite wrap_small by done. change (32 - 1) with 31.
  unfold in_range in Ha. case_match; lia.
Qed.

Lemma exec_muldiv_spec o a b :
  in_range 32 a -> in_range 32 b -> exec_muldiv (mul_f3 o) a b = muldiv o a b.
Proof.
  intros Ha Hb. destruct o; cbn [mul_f3 muldiv exec_muldiv]; try done.
  - by rewrite Z.shiftr_div_pow2 by lia.
  - rewrite <- wrap_shift_64. do 2 f_equal. unfold wrap. by rewrite Zmult_mod_idemp_l.
  - apply wrap_shift_64.
  - destruct (b =? 0); [done|]. destruct (Z.eqb_spec (s32 a) (- 2 ^ 31)) as [Ea|]; [|done].
    destruct (Z.eqb_spec (s32 b) (-1)) as [Eb|]; [|done]. rewrite Ea, Eb. simpl.
    rewrite (s32_min a) by done. reflexivity.
  - destruct (b =? 0); [done|]. destruct (Z.eqb_spec (s32 a) (- 2 ^ 31)) as [Ea|]; [|done].
    destruct (Z.eqb_spec (s32 b) (-1)) as [Eb|]; [|done]. rewrite Ea, Eb. reflexivity.
Qed.

(** The shared [switch], with bit 30 of the word as [b30]. *)
Lemma exec_alu_spec ir isr o a b b' :
  funct3 ir = alu_f3 o ->
  (isr = 0 -> o <> SUB /\ (o = SRA \/ o = SRL -> Z.land ir 0x40000000 = 0 <-> o = SRL)) ->
  (isr = 1 -> (Z.land ir 0x40000000 =? 0) = (alu_f7 o =? 0)) ->
  isr = 0 \/ isr = 1 ->
  (if is_shift o then b `mod` 32 = b' `mod` 32 else b = b') ->
  exec_alu ir isr a b = alu o a b'.
Proof.
  intros Hf H0 H1 Hisr Hb. unfold exec_alu. rewrite Hf.
  assert (Hland : forall z, Z.land z 0x1f = z `mod` 32).
  { intros z. change 0x1f with (2 ^ 5 - 1). by rewrite land_low. }
  assert (0 <= b `mod` 32) by (apply Z.mod_pos_bound; lia).
  destruct o; cbn [alu_f3 is_shift alu alu_f7] in *; subst.
  - destruct Hisr as [->| ->]; [done|]. by rewrite H1.
  - destruct Hisr as [->| ->]; [naive_solver|]. by rewrite H1.
  - by rewrite Hland, Z.shiftl_mul_pow2, Hb by lia.
  - by destruct (s32 a <? s32 b').
  - by destruct (a <? b').
  - done.
  - destruct (Z.eqb_spec (Z.land ir 0x40000000) 0) as [|Hn]; cbn [negb].
    + by rewrite Hland, Z.shiftr_div_pow2, Hb by lia.
    + destruct Hisr as [->| ->]; [naive_solver|]. by specialize (H1 eq_refl).
  - destruct (Z.eqb_spec (Z.land ir 0x40000000) 0) as [Hz|Hn]; cbn [negb].
    + destruct Hisr as [->| ->]; [|by specialize (H1 eq_refl)].
      destruct (H0 eq_refl) as [_ H2]. destruct (H2 (or_introl eq_refl)) as [H3 _]. by specialize (H3 Hz).
    + by rewrite Hland, Z.shiftr_div_pow2, Hb by lia.
  - done.
  - done.
Qed.

(** ** One instruction *)

(** The instruction completes without a trap and leaves [s'] and [pc']. *)
Definition commits (r : option exec_result) (s' : CPUState) (pc' : Z) : Prop :=
  exists rval pc0 rdid s1,
    r = Some (Done (Out 0 rval pc0 rdid s1)) /\ wX rdid rval s1 = s' /\ u32 (pc0 + 4) = pc'.

Lemma imm12_roundtrip imm :
  imm_ok 12 imm = true -> signed 12 (imm `mod` 32 + (imm / 32) `mod` 128 * 2 ^ 5) = imm.
Proof.
  intros H. replace (imm `mod` 32 + _) with (wrap 12 imm)
    by (unfold wrap; Z.to_euclidean_division_equations; lia).
  apply signed_small; [lia|]. unfold imm_ok in H. lia.
Qed.

(** A number is its digits: [n] low bits, then the rest. *)
Lemma mod_split x a b c :
  0 <= a -> 0 <= b -> c = a + b -> x `mod` 2 ^ c = x `mod` 2 ^ a + (x / 2 ^ a) `mod` 2 ^ b * 2 ^ a.
Proof.
  intros ?? ->. rewrite Z.pow_add_r, Z.rem_mul_r by (try apply Z.pow_nonzero; try apply pow2_pos; lia). lia.
Qed.

Lemma split_pair a b k : 0 < k -> 0 <= b < k -> (a * k + b) / k = a /\ (a * k + b) `mod` k = b.
Proof.
  intros. split.
  - symmetry. apply Z.div_unique with b; lia.
  - symmetry. apply Z.mod_unique with a; lia.
Qed.

Lemma off13_roundtrip off :
  imm_ok 13 off = true -> off `mod` 2 = 0 ->
  let rd := (off / 2) `mod` 16 * 2 + (off / 2 ^ 11) `mod` 2 in
  let f7 := (off / 2 ^ 12) `mod` 2 * 2 ^ 6 + (off / 2 ^ 5) `mod` 64 in
  signed 13 (rd / 2 * 2 + f7 `mod` 2 ^ 6 * 2 ^ 5 + rd `mod` 2 * 2 ^ 11 + f7 / 2 ^ 6 * 2 ^ 12) = off.
Proof.
  intros H H2. cbv zeta.
  destruct (split_pair ((off / 2) `mod` 16) ((off / 2 ^ 11) `mod` 2) 2) as [-> ->];
    [lia|apply Z.mod_pos_bound; lia|].
  destruct (split_pair ((off / 2 ^ 12) `mod` 2) ((off / 2 ^ 5) `mod` 64) (2 ^ 6)) as [-> ->];
    [lia|apply Z.mod_pos_bound; lia|].
  replace (_ + _ * 2 ^ 12) with (wrap 13 off);
    [apply signed_small; [lia|]; unfold imm_ok in H; lia|].
  unfold wrap. rewrite (mod_split off 12 1 13), (mod_split off 11 1 12), (mod_split off 5 6 11),
    (mod_split off 1 4 5) by lia. change (2 ^ 1) with 2. change (2 ^ 4) with 16.
  change (2 ^ 6) with 64. change (2 ^ 3) with 8. change (2 ^ 5) with 32. rewrite H2. lia.
Qed.

Lemma off21_roundtrip off :
  imm_ok 21 off = true -> off `mod` 2 = 0 ->
  let f3 := (off / 2 ^ 12) `mod` 8 in
  let rs1 := (off / 2 ^ 15) `mod` 32 in
  let rs2 := (off / 2) `mod` 16 * 2 + (off / 2 ^ 11) `mod` 2 in
  let f7 := (off / 2 ^ 20) `mod` 2 * 2 ^ 6 + (off / 2 ^ 5) `mod` 64 in
  signed 21 (rs2 / 2 * 2 + f7 `mod` 2 ^ 6 * 2 ^ 5 + rs2 `mod` 2 * 2 ^ 11 +
             (f3 + rs1 * 2 ^ 3) * 2 ^ 12 + f7 / 2 ^ 6 * 2 ^ 20) = off.
Proof.
  intros H H2. cbv zeta.
  destruct (split_pair ((off / 2) `mod` 16) ((off / 2 ^ 11) `mod` 2) 2) as [-> ->];
    [lia|apply Z.mod_pos_bound; lia|].
  destruct (split_pair ((off / 2 ^ 20) `mod` 2) ((off / 2 ^ 5) `mod` 64) (2 ^ 6)) as [-> ->];
    [lia|apply Z.mod_pos_bound; lia|].
  replace (_ + _ * 2 ^ 20) with (wrap 21 off);
    [apply signed_small; [lia|]; unfold imm_ok in H; lia|].
  unfold wrap. rewrite (mod_split off 20 1 21), (mod_split off 15 5 20), (mod_split off 12 3 15),
    (mod_split off 11 1 12), (mod_split off 5 6 11), (mod_split off 1 4 5) by lia.
  change (2 ^ 1) with 2. change (2 ^ 4) with 16.
  change (2 ^ 6) with 64. change (2 ^ 3) with 8. change (2 ^ 5) with 32. rewrite H2. lia.
Qed.

Lemma u32_back x : u32 (u32 (u32 x - 4) + 4) = u32 x.
Proof.
  rewrite wrap_add_l. replace (u32 x - 4 + 4) with (u32 x) by lia. apply wrap_wrap. lia.
Qed.

(** Operands and opcode fields fit their bits. *)
Lemma reg_ok_range r : reg_ok r = true -> in_range 5 r.
Proof. unfold reg_ok, in_range. lia. Qed.
Lemma mod_range x n w : 0 <= w -> n = 2 ^ w -> in_range w (x `mod` n).
Proof. intros Hw ->. by apply wrap_range. Qed.
Lemma alu_f3_range o : in_range 3 (alu_f3 o).
Proof. destruct o; unfold in_range; cbn; lia. Qed.
Lemma alu_f7_range o : in_range 7 (alu_f7 o).
Proof. destruct o; unfold in_range; cbn; lia. Qed.
Lemma mul_f3_range o : in_range 3 (mul_f3 o).
Proof. destruct o; unfold in_range; cbn; lia. Qed.
Lemma branch_f3_range o : in_range 3 (branch_f3 o).
Proof. destruct o; unfold in_range; cbn; lia. Qed.
Lemma load_f3_range o : in_range 3 (load_f3 o).
Proof. destruct o; unfold in_range; cbn; lia. Qed.
Lemma store_f3_range o : in_range 3 (store_f3 o).
Proof. destruct o; unfold in_range; cbn; lia. Qed.
Lemma amo_f7_range o : in_range 7 (amo_f5 o * 4).
Proof. destruct o; unfold in_range; cbn; lia. Qed.
Lemma off_rd_range off k : in_range 5 ((off / 2) `mod` 16 * 2 + (off / k) `mod` 2).
Proof.
  unfold in_range. pose proof (Z.mod_pos_bound (off / 2) 16). pose proof (Z.mod_pos_bound (off / k) 2). lia.
Qed.
Lemma off_f7_range off k : in_range 7 ((off / k) `mod` 2 * 2 ^ 6 + (off / 2 ^ 5) `mod` 64).
Proof.
  unfold in_range. pose proof (Z.mod_pos_bound (off / 2 ^ 5) 64). pose proof (Z.mod_pos_bound (off / k) 2). lia.
Qed.
Lemma upper_f7_range imm : 0 <= imm < 2 ^ 20 -> in_range 7 (imm / 2 ^ 13).
Proof. unfold in_range. intros. Z.to_euclidean_division_equations; lia. Qed.

Create HintDb isa.
#[local] Hint Resolve reg_ok_range alu_f3_range alu_f7_range mul_f3_range branch_f3_range load_f3_range
  store_f3_range amo_f7_range off_rd_range off_f7_range : isa.
#[local] Hint Extern 1 (in_range _ (_ / _)) => (apply upper_f7_range; lia) : isa.
#[local] Hint Extern 1 (in_range _ (_ `mod` _)) => (apply mod_range; [lia|reflexivity]) : isa.
#[local] Hint Extern 1 (in_range _ (Zpos _)) => rng : isa.
#[local] Hint Extern 1 (in_range _ 0) => rng : isa.

(** The fields of [valid]. *)
Ltac valid_fields H :=
  cbn [valid] in H; repeat (rewrite andb_true_iff in H; destruct H as [H ?]); rewrite ?Z.leb_le, ?Z.ltb_lt, ?Z.eqb_eq in *.

Section OneInstruction.
Context (s : CPUState) (Hs : wf s) (cycle : Z).

Let pc := CSR s PC.

Lemma exec_upper rd imm s' pc' i :
  i = Lui rd imm \/ i = Auipc rd imm -> valid i = true -> isa_exec s i = Some (s', pc') ->
  commits (exec_insn s (encode i) pc cycle) s' pc'.
Proof.
  intros Hi Hv Hx. assert (imm `mod` 8 + (imm / 8) `mod` 32 * 2 ^ 3 + (imm / 256) `mod` 32 * 2 ^ 8 +
    imm / 2 ^ 13 * 2 ^ 13 = imm) as E by (Z.to_euclidean_division_equations; lia).
  destruct Hi as [-> | ->]; valid_fields Hv; injection Hx as <- <-; cbn [encode]; unfold exec_insn;
    rewrite pack_opcode, pack_imm_u, pack_rd, E by eauto with isa;
    do 4 eexists; (split; [reflexivity|]); by split.
Qed.

Lemma exec_jal rd off s' pc' :
  valid (Jal rd off) = true -> isa_exec s (Jal rd off) = Some (s', pc') ->
  commits (exec_insn s (encode (Jal rd off)) pc cycle) s' pc'.
Proof.
  intros Hv [= <- <-]. valid_fields Hv. cbn [encode]. unfold exec_insn.
  rewrite pack_opcode, pack_imm_j, pack_rd, off21_roundtrip by eauto with isa.
  do 4 eexists; (split; [reflexivity|]); split; [done|]. rewrite wrap_add_r. apply u32_back.
Qed.

Lemma exec_jalr rd rs1 imm s' pc' :
  valid (Jalr rd rs1 imm) = true -> isa_exec s (Jalr rd rs1 imm) = Some (s', pc') ->
  commits (exec_insn s (encode (Jalr rd rs1 imm)) pc cycle) s' pc'.
Proof.
  intros Hv [= <- <-]. valid_fields Hv. cbn [encode]. unfold exec_insn, pack_i.
  rewrite pack_opcode, pack_imm_i, pack_rd, pack_rs1, imm12_roundtrip by eauto with isa.
  do 4 eexists; (split; [reflexivity|]); split; [done|]. rewrite wrap_add_r.
  set (t := u32 (REG s rs1 + imm)). assert (in_range 32 t) as Ht by (unfold t; rng).
  replace (Z.land t (u32 (Z.lnot 1))) with (t - t `mod` 2).
  - assert (in_range 32 (t - t `mod` 2)) as Hr
      by (unfold in_range in *; pose proof (Z.mod_pos_bound t 2); pose proof (Z.mod_le t 2); lia).
    rewrite <- (wrap_small 32 (t - t `mod` 2)) at 1 by done. rewrite u32_back. by apply wrap_small.
  - change (t `mod` 2) with (t `mod` 2 ^ 1). rewrite <- (land_lnot_ones t 1) by lia. zbits i Hi. change (2 ^ 1 - 1) with 1.
    case_bool_decide; [done|]. by rewrite (testbit_above 32 t) by (done || lia).
Qed.

Lemma exec_br o rs1 rs2 off s' pc' :
  valid (Branch o rs1 rs2 off) = true -> isa_exec s (Branch o rs1 rs2 off) = Some (s', pc') ->
  commits (exec_insn s (encode (Branch o rs1 rs2 off)) pc cycle) s' pc'.
Proof.
  intros Hv [= <- <-]. valid_fields Hv. cbn [encode]. unfold exec_insn.
  rewrite pack_opcode by eauto with isa. unfold exec_branch.
  rewrite pack_rs1, pack_rs2, pack_imm_b, pack_funct3, off13_roundtrip by eauto with isa.
  set (a := REG s rs1). set (b := REG s rs2).
  assert ((s32 a =? s32 b) = (a =? b)) as Eeq.
  { assert (in_range 32 a /\ in_range 32 b) as [Ha Hb] by (split; apply REG_range, Hs).
    destruct (Z.eqb_spec (s32 a) (s32 b)) as [E|], (Z.eqb_spec a b); try congruence.
    apply (f_equal u32) in E. rewrite !wrap_signed, !wrap_small in E by (done || lia). congruence. }
  rewrite Eeq, wrap_add_r.
  exists 0, (if taken o a b then u32 (u32 (pc + off) - 4) else pc), 0, s.
  split; [by destruct o|]. split; [done|]. case_match; [apply u32_back|done].
Qed.

(** [ram] is the emulator's bounds check. *)
Lemma ram_ok a off :
  ram s a = Some off ->
  off = u32 (a - s.(mem_offset)) /\ in_range 32 off /\ (u32 (s.(mem_size) - 3) <=? off) = false /\
  forall n, (n <= 4)%nat -> MEMload s off n = Some (load_le s.(mem) off n) /\
    forall v, MEMstore s off n v = Some (setMEM (store_le s.(mem) off n v) s).
Proof.
  unfold ram. intros H. case_match; [|done]. injection H as H. subst off.
  assert (in_range 32 (u32 (a - mem_offset s))) as Hr by rng.
  assert (u32 (s.(mem_size) - 3) = s.(mem_size) - 3) as E.
  { apply wrap_small. pose proof (wf_size s Hs). pose proof (wf_size_pos s Hs).
    unfold in_range in *. lia. }
  split_and!; [done..|lia|]. intros n Hn. split.
  - destruct (MEMload_ok s (u32 (a - mem_offset s)) n) as (v & -> & -> & _); [done..|lia|done|done].
  - intros v. apply MEMstore_ok; [done..|lia|done].
Qed.

Lemma exec_ld o rd rs1 imm s' pc' :
  valid (Load o rd rs1 imm) = true -> isa_exec s (Load o rd rs1 imm) = Some (s', pc') ->
  commits (exec_insn s (encode (Load o rd rs1 imm)) pc cycle) s' pc'.
Proof.
  intros Hv Hx. valid_fields Hv. cbn [isa_exec] in Hx.
  destruct (ram s _) as [off|] eqn:Hram; [|done]. injection Hx as <- <-.
  apply ram_ok in Hram as (Eoff & _ & Hb & Hl). cbn [encode]. unfold exec_insn, pack_i.
  rewrite pack_opcode by eauto with isa. unfold exec_load.
  rewrite pack_rs1, pack_imm_i, pack_rd, pack_funct3, imm12_roundtrip by eauto with isa.
  rewrite wrap_add_r, wrap_sub_l, <- Eoff, Hb.
  exists (loaded o s.(mem) off), pc, rd, s. split; [|done].
  destruct (Hl 1%nat ltac:(lia)) as [E1 _], (Hl 2%nat ltac:(lia)) as [E2 _], (Hl 4%nat ltac:(lia)) as [E4 _].
  by destruct o; cbn [load_f3]; rewrite ?E1, ?E2, ?E4.
Qed.

Lemma exec_st o rs1 rs2 imm s' pc' :
  valid (Store o rs1 rs2 imm) = true -> isa_exec s (Store o rs1 rs2 imm) = Some (s', pc') ->
  commits (exec_insn s (encode (Store o rs1 rs2 imm)) pc cycle) s' pc'.
Proof.
  intros Hv Hx. valid_fields Hv. cbn [isa_exec] in Hx.
  destruct (ram s _) as [off|] eqn:Hram; [|done]. injection Hx as <- <-.
  apply ram_ok in Hram as (Eoff & _ & Hb & Hl). cbn [encode]. unfold exec_insn.
  rewrite pack_opcode by eauto with isa. unfold exec_store.
  rewrite pack_rs1, pack_rs2, pack_imm_s, pack_funct3, imm12_roundtrip by eauto with isa.
  rewrite wrap_add_l, wrap_add_r.
  replace (imm + (REG s rs1 - mem_offset s)) with (REG s rs1 + imm - mem_offset s) by lia.
  rewrite <- Eoff, Hb.
  destruct (Hl 1%nat ltac:(lia)) as [_ E1], (Hl 2%nat ltac:(lia)) as [_ E2], (Hl 4%nat ltac:(lia)) as [_ E4].
  exists 0, pc, 0, (setMEM (store_le s.(mem) off (store_width o) (REG s rs2)) s).
  split; [|done]. by destruct o; cbn [store_f3 store_width]; rewrite ?E1, ?E2, ?E4.
Qed.

Lemma exec_opimm o rd rs1 imm s' pc' :
  valid (OpImm o rd rs1 imm) = true -> isa_exec s (OpImm o rd rs1 imm) = Some (s', pc') ->
  commits (exec_insn s (encode (OpImm o rd rs1 imm)) pc cycle) s' pc'.
Proof.
  intros Hv [= <- <-]. valid_fields Hv. cbn [encode]. unfold exec_insn, pack_i.
  rewrite pack_opcode by eauto with isa. cbv iota beta zeta. rewrite pack_rd by eauto with isa.
  do 4 eexists; (split; [reflexivity|]); split; [|done]. f_equal.
  unfold exec_op. set (fld := if is_shift o then _ else _).
  assert (imm_ok 12 fld = true) as Hf.
  { unfold fld. destruct o; cbn in *; unfold imm_ok, reg_ok in *; lia. }
  assert (Z.land (pack 0x13 rd (alu_f3 o) rs1 (fld `mod` 32) ((fld / 32) `mod` 128)) 0x20 = 0) as ->.
  { change 0x20 with ((2 ^ 1 - 1) * 2 ^ 5). rewrite land_field by lia. unfold pack.
    pose proof (alu_f3_range o). unfold in_range, reg_ok in *. Z.to_euclidean_division_equations; lia. }
  cbv zeta. rewrite Z.eqb_refl, pack_rs1, pack_imm_i, imm12_roundtrip by eauto with isa.
  cbn [negb andb Z.eqb]. apply (exec_alu_spec _ 0 o); [apply pack_funct3; eauto with isa| |done|by left|].
  - intros _. split; [by intros ->|]. intros Hsh.
    pose proof (pack_bit30 0x13 rd (alu_f3 o) rs1 (fld `mod` 32) ((fld / 32) `mod` 128)
      ltac:(eauto with isa) ltac:(eauto with isa) ltac:(eauto with isa) ltac:(eauto with isa)
      ltac:(eauto with isa) ltac:(eauto with isa)) as Hbit.
    rewrite <- Z.eqb_eq, Hbit. unfold fld.
    destruct Hsh as [-> | ->]; cbn [is_shift alu_f7] in *; unfold reg_ok in *; rewrite Z.eqb_eq.
    + split; [|done]. intros E. exfalso. Z.to_euclidean_division_equations; lia.
    + split; [done|]. intros _. Z.to_euclidean_division_equations; lia.
  - unfold fld. destruct o; cbn [is_shift alu_f7] in *; try done; unfold wrap, reg_ok in *;
      Z.to_euclidean_division_equations; lia.
Qed.

Lemma exec_rr ir f3 rd rs1 rs2 f7 :
  ir = pack 0x33 rd f3 rs1 rs2 f7 ->
  reg_ok rd = true -> in_range 3 f3 -> reg_ok rs1 = true -> reg_ok rs2 = true -> in_range 7 f7 ->
  exec_op s ir = (if f7 `mod` 2 =? 0 then exec_alu ir 1 (REG s rs1) (REG s rs2)
                  else exec_muldiv f3 (REG s rs1) (REG s rs2)).
Proof.
  intros -> ?????. unfold exec_op.
  assert (Z.land (pack 0x33 rd f3 rs1 rs2 f7) 0x20 <> 0) as Hn.
  { change 0x20 with ((2 ^ 1 - 1) * 2 ^ 5). rewrite land_field by lia. unfold pack.
    unfold in_range, reg_ok in *. Z.to_euclidean_division_equations; lia. }
  apply Z.eqb_neq in Hn. rewrite Hn. cbv zeta.
  rewrite pack_bit25, pack_rs1, pack_funct3 by eauto with isa. cbn [negb andb Z.eqb].
  replace (Z.land (imm_i _) 0x1f) with rs2; [by destruct (f7 `mod` 2 =? 0)|].
  rewrite pack_imm_i by eauto with isa. change 0x1f with (2 ^ 5 - 1). rewrite land_low by lia.
  assert (in_range 5 rs2) as Hr by eauto with isa.
  assert (wrap 12 (signed 12 (rs2 + f7 * 2 ^ 5)) = rs2 + f7 * 2 ^ 5) as E.
  { rewrite wrap_signed by lia. apply wrap_small. unfold in_range in *. lia. }
  unfold wrap, in_range in *. Z.to_euclidean_division_equations; lia.
Qed.

Lemma exec_reg o rd rs1 rs2 s' pc' :
  valid (Op o rd rs1 rs2) = true -> isa_exec s (Op o rd rs1 rs2) = Some (s', pc') ->
  commits (exec_insn s (encode (Op o rd rs1 rs2)) pc cycle) s' pc'.
Proof.
  intros Hv [= <- <-]. valid_fields Hv. cbn [encode]. unfold exec_insn.
  rewrite pack_opcode by eauto with isa. cbv iota beta zeta. rewrite pack_rd by eauto with isa.
  do 4 eexists; (split; [reflexivity|]); split; [|done]. f_equal.
  erewrite exec_rr; [|reflexivity|eauto with isa..].
  replace (alu_f7 o `mod` 2 =? 0) with true by (by destruct o).
  apply (exec_alu_spec _ 1 o); [apply pack_funct3; eauto with isa|done| |by right|by destruct (is_shift o)].
  intros _. rewrite pack_bit30 by eauto with isa. by destruct o.
Qed.

Lemma exec_md o rd rs1 rs2 s' pc' :
  valid (MulDiv o rd rs1 rs2) = true -> isa_exec s (MulDiv o rd rs1 rs2) = Some (s', pc') ->
  commits (exec_insn s (encode (MulDiv o rd rs1 rs2)) pc cycle) s' pc'.
Proof.
  intros Hv [= <- <-]. valid_fields Hv. cbn [encode]. unfold exec_insn.
  rewrite pack_opcode by eauto with isa. cbv iota beta zeta. rewrite pack_rd by eauto with isa.
  do 4 eexists; (split; [reflexivity|]); split; [|done]. f_equal.
  erewrite exec_rr; [|reflexivity|eauto with isa..]. simpl.
  apply exec_muldiv_spec; apply REG_range, Hs.
Qed.

Lemma exec_am o rd rs1 rs2 s' pc' :
  valid (Amo o rd rs1 rs2) = true -> isa_exec s (Amo o rd rs1 rs2) = Some (s', pc') ->
  commits (exec_insn s (encode (Amo o rd rs1 rs2)) pc cycle) s' pc'.
Proof.
  intros Hv Hx. valid_fields Hv. cbn [isa_exec] in Hx.
  destruct (ram s _) as [off|] eqn:Hram; [|done]. injection Hx as <- <-.
  apply ram_ok in Hram as (Eoff & _ & Hb & Hl). cbn [encode]. unfold exec_insn.
  rewrite pack_opcode by eauto with isa. unfold exec_amo.
  rewrite pack_rs1, pack_rs2, pack_irmid, pack_rd by eauto with isa. rewrite <- Eoff, Hb.
  destruct (Hl 4%nat ltac:(lia)) as [-> Hst]. cbn [mbind option_bind].
  set (old := load_le s.(mem) off 4). set (b := REG s rs2).
  replace (amo_f5 o * 4 / 4) with (amo_f5 o) by (by destruct o).
  assert (amo_switch s (amo_f5 o) off b old = (0, old, amo o old b, true, s)) as ->.
  { destruct o; cbn [amo_f5 amo amo_switch]; try done;
      [by rewrite (Z.add_comm b)|by rewrite Z.lxor_comm|by rewrite Z.land_comm|by rewrite Z.lor_comm|..];
      f_equal; f_equal; f_equal.
    - destruct (Z.ltb_spec b old); lia.
    - destruct (Z.ltb_spec old b); lia. }
  rewrite Hst. cbn [mbind option_bind]. do 4 eexists; (split; [reflexivity|]); by split.
Qed.
End OneInstruction.

Lemma exec_encoded s i cycle s' pc' :
  wf s -> valid i = true -> isa_exec s i = Some (s', pc') ->
  commits (exec_insn s (encode i) (CSR s PC) cycle) s' pc'.
Proof.
  intros Hs Hv Hx. destruct i.
  - eapply exec_upper; [by left|done..].
  - eapply exec_upper; [by right|done..].
  - by apply exec_jal.
  - by apply exec_jalr.
  - by apply exec_br.
  - by apply exec_ld.
  - by apply exec_st.
  - by apply exec_opimm.
  - by apply exec_reg.
  - by apply exec_md.
  - by apply exec_am.
  - injection Hx as <- <-. exists 0, (CSR s PC), 0, s. done.
Qed.

(** Instructions of the set leave the control registers alone. *)
Lemma isa_exec_csrs s i s' pc' : isa_exec s i = Some (s', pc') -> s'.(csrs) = s.(csrs).
Proof.
  assert (forall rd v t, (wX rd v t).(csrs) = t.(csrs)) as Hw by (intros; unfold wX; by case_match).
  destruct i; cbn [isa_exec]; try destruct (ram s _); cbn [mbind option_bind]; intros; simplify_eq;
    rewrite ?Hw; done.
Qed.

Lemma setCSR_id s n v : length s.(csrs) = CSR_COUNT -> (n < CSR_COUNT)%nat -> v = CSR s n -> setCSR n v s = s.
Proof.
  intros Hl Hn ->. destruct s as [r c m o z]; unfold setCSR, CSR in *; cbn [csrs regs mem mem_offset mem_size] in *.
  f_equal. apply list_insert_id. destruct (nth_lookup_or_length c n 0) as [|]; [done|lia].
Qed.

Lemma cycle_end_retire s s' rval pc' :
  wf s -> s'.(csrs) = s.(csrs) ->
  cycle_end s' 0 rval pc' (u32 (CSR s CYCLEL + 1)) = (0, retire s' pc').
Proof.
  intros Hs Ec. assert (forall n, CSR s' n = CSR s n) as EC by (intros; unfold CSR; by rewrite Ec).
  pose proof (CSR_range s CYCLEL Hs) as Hl. pose proof (CSR_range s CYCLEH Hs) as Hh.
  unfold cycle_end, retire. cbn [negb Z.eqb]. rewrite !EC. cbv zeta.
  unfold wrap, in_range in *. destruct (decide (CSR s CYCLEL = 2 ^ 32 - 1)) as [E|].
  - rewrite E. change ((2 ^ 32 - 1 + 1) `mod` 2 ^ 32) with 0. change (0 <? 2 ^ 32 - 1) with true.
    replace (CSR s CYCLEH * 2 ^ 32 + (2 ^ 32 - 1) + 1) with (0 + (CSR s CYCLEH + 1) * 2 ^ 32) by lia.
    rewrite Z.mod_add, Z.div_add by lia. done.
  - rewrite (Z.mod_small (CSR s CYCLEL + 1)) by lia.
    destruct (Z.ltb_spec (CSR s CYCLEL + 1) (CSR s CYCLEL)); [lia|].
    replace (CSR s CYCLEH * 2 ^ 32 + CSR s CYCLEL + 1) with (CSR s CYCLEL + 1 + CSR s CYCLEH * 2 ^ 32) by lia.
    rewrite Z.mod_add, Z.div_add, (Z.mod_small (CSR s CYCLEL + 1)), (Z.div_small (CSR s CYCLEL + 1)),
      Z.add_0_l, (Z.mod_small (CSR s CYCLEH)) by lia.
    rewrite (setCSR_id s' CYCLEH); [done|by rewrite Ec; apply wf_csrs_len|unfold CYCLEH, CSR_COUNT; lia|].
    by rewrite EC.
Qed.

(** C3: the emulator implements RV32IM with the AMOs.  When the processor runs
    (not waiting, no timer interrupt due) and the word at the PC is the encoding
    of an instruction whose memory operand is in RAM, a step does exactly what
    the instruction means and counts one cycle. *)
Theorem rv32ima_step_isa s e i s' pc' :
  wf s -> in_range 32 e ->
  let t := timer_update s e in
  let ofs := u32 (CSR t PC - t.(mem_offset)) in
  Z.land (CSR t EXTRAFLAGS) 4 = 0 -> timer_interrupt t = false ->
  ofs < t.(mem_size) -> ofs `mod` 4 = 0 -> load_le t.(mem) ofs 4 = encode i ->
  valid i = true -> isa_exec t i = Some (s', pc') ->
  rv32ima_step s e = Some (0, retire s' pc').
Proof.
  intros Hs He t ofs Hwfi Hint Hofs Hal Hfetch Hv Hx. unfold rv32ima_step. fold t. cbv zeta.
  rewrite Hwfi, Hint. cbn [Z.eqb negb]. pose proof (timer_update_wf s e Hs : wf t) as Ht.
  unfold run_insn. cbv zeta. fold ofs. replace (mem_size t <=? ofs) with false by lia.
  replace (Z.land ofs 3) with 0 by (change 3 with (2 ^ 2 - 1); rewrite land_low by lia; done).
  cbn [Z.eqb negb].
  assert (in_range 32 ofs) as Hr by (unfold ofs; rng).
  assert (MEMload t ofs 4 = Some (encode i)) as ->.
  { unfold MEMload. pose proof (wf_size4 t Ht). unfold in_range in Hr.
    assert (ofs + Z.of_nat 4 <= mem_size t).
    { clear -Hal Hofs H. clearbody ofs. Z.to_euclidean_division_equations; lia. }
    destruct (Z.leb_spec 0 ofs); [|lia].
    destruct (Z.leb_spec (ofs + Z.of_nat 4) (mem_size t)); [|lia]. by rewrite Hfetch. }
  destruct (exec_encoded t i (u32 (CSR t CYCLEL + 1)) s' pc' Ht Hv Hx) as (rval & pc0 & rdid & s1 & E & Ew & Ep).
  cbn [mbind option_bind]. rewrite E. cbn [mbind option_bind Z.eqb negb].
  rewrite Ep. unfold wX in Ew. rewrite <- (cycle_end_retire t s' rval); [|done|by eapply isa_exec_csrs].
  destruct (rdid =? 0); cbn [negb]; by rewrite Ew.
Qed.

Lemma rv32ima_step_isa_witness :
  rv32ima_step demo_state 1 =
    Some (0, retire (wX 10 (alu ADD 2 1) (timer_update demo_state 1)) 4).
Proof.
  apply (rv32ima_step_isa demo_state 1 (OpImm ADD 10 10 1));
    [apply (main_init_wf demo_image [7; 8]); [apply demo_image_bytes|reflexivity]
    |unfold in_range; lia|reflexivity..].
Defined.

(** ** Traps *)

Lemma CSR_setCSR_eq s n v : (n < length s.(csrs))%nat -> CSR (setCSR n v s) n = v.
Proof.
  intros. unfold CSR, setCSR. cbn [csrs]. rewrite nth_lookup, list_lookup_insert_eq; done.
Qed.

Lemma CSR_setCSR_ne s n k v : n <> k -> CSR (setCSR n v s) k = CSR s k.
Proof.
  intros. unfold CSR, setCSR. cbn [csrs]. by rewrite !nth_lookup, list_lookup_insert_ne.
Qed.

Lemma csrs_len_setCSR s n v : length (setCSR n v s).(csrs) = length s.(csrs).
Proof. apply length_insert. Qed.

Create Rewrite HintDb csr.
#[local] Hint Rewrite CSR_setCSR_eq using (rewrite ?csrs_len_setCSR; unfold PC, MSTATUS, CYCLEL, CYCLEH, MTVEC, MEPC, MTVAL, MCAUSE, EXTRAFLAGS; lia) : csr.
#[local] Hint Rewrite CSR_setCSR_ne using (unfold PC, MSTATUS, CYCLEL, CYCLEH, MTVEC, MEPC, MTVAL, MCAUSE, EXTRAFLAGS; lia) : csr.

Lemma cycle_end_exception s trap rval pc cycle s1 :
  wf s -> 0 < trap < 2 ^ 31 -> cycle_end s trap rval pc cycle = (0, s1) ->
  s1.(regs) = s.(regs) /\ s1.(mem) = s.(mem) /\ length s1.(csrs) = 16%nat /\
  CSR s1 MEPC = pc /\ CSR s1 MCAUSE = trap - 1 /\
  CSR s1 PC = u32 (u32 (CSR s MTVEC - 4) + 4) /\
  CSR s1 MSTATUS = Z.lor (Z.shiftl (Z.land (CSR s MSTATUS) 0x08) 4) (Z.shiftl (Z.land (CSR s EXTRAFLAGS) 3) 11) /\
  CSR s1 EXTRAFLAGS = Z.lor (CSR s EXTRAFLAGS) 3.
Proof.
  intros Hs Ht. pose proof (wf_csrs_len s Hs : _ = 16%nat) as Hl. unfold cycle_end.
  assert ((trap =? 0) = false) as -> by lia. cbn [negb]. unfold trap_enter.
  assert (Z.land trap 0x80000000 = 0) as ->.
  { change 0x80000000 with ((2 ^ 1 - 1) * 2 ^ 31). rewrite land_field by lia.
    rewrite (Z.div_small trap) by lia. done. }
  cbn [Z.eqb negb]. intros [= <-].
  rewrite (wrap_small 32 (trap - 1)) by (unfold in_range; lia).
  destruct (cycle <? _); cbn [regs mem setCSR]; rewrite !csrs_len_setCSR;
    split_and!; try done; by autorewrite with csr.
Qed.

Lemma land_8 x : Z.land x 8 = 0 \/ Z.land x 8 = 8.
Proof.
  change 8 with ((2 ^ 1 - 1) * 2 ^ 3). rewrite land_field by lia.
  pose proof (Z.mod_pos_bound (x / 2 ^ 3) 2). change (2 ^ 1) with 2. lia.
Qed.

Lemma land_3 x : Z.land x 3 = 0 \/ Z.land x 3 = 1 \/ Z.land x 3 = 2 \/ Z.land x 3 = 3.
Proof.
  change 3 with (2 ^ 2 - 1). rewrite land_low by lia.
  pose proof (Z.mod_pos_bound x (2 ^ 2)). lia.
Qed.

(** Entering machine mode and restoring the mode bits. *)
Lemma mode_restore e :
  in_range 32 e -> Z.lor (Z.land (Z.lor e 3) (u32 (Z.lnot 3))) (Z.land e 3) = e.
Proof.
  intros He. zbits i Hi. case_bool_decide.
  - by destruct (Z.testbit e i), (Z.testbit 3 i).
  - rewrite (testbit_above 32 e i) by (done || lia). by destruct (Z.testbit 3 i).
Qed.

Lemma exec_mret s pc cycle :
  exec_system s 0x30200073 pc cycle 0 =
  let m := CSR s MSTATUS in let e := CSR s EXTRAFLAGS in
  let s := setCSR EXTRAFLAGS (Z.lor (Z.land e (u32 (Z.lnot 3))) (Z.land (Z.shiftr m 11) 3))
             (setCSR MSTATUS (Z.lor (Z.lor (Z.shiftr (Z.land m 0x80) 4) (Z.shiftl (Z.land e 3) 11)) 0x80) s) in
  Done (Out 0 0 (u32 (CSR s MEPC - 4)) 0 s).
Proof. reflexivity. Qed.

(** An exception enters machine mode at [MTVEC] with interrupts off and the
    faulting PC saved; MRET from there returns to that PC with the privilege
    mode and the interrupt enable bit as they were, registers and memory
    untouched. *)
Theorem exception_mret_roundtrip s trap rval pc cycle s1 handler_pc cycle' :
  wf s -> 0 < trap < 2 ^ 31 -> cycle_end s trap rval pc cycle = (0, s1) ->
  CSR s1 PC = CSR s MTVEC /\ CSR s1 MCAUSE = trap - 1 /\
  Z.land (CSR s1 EXTRAFLAGS) 3 = 3 /\ Z.land (CSR s1 MSTATUS) 8 = 0 /\
  exists s2,
    exec_system s1 0x30200073 handler_pc cycle' 0 = Done (Out 0 0 (u32 (pc - 4)) 0 s2) /\
    CSR s2 EXTRAFLAGS = CSR s EXTRAFLAGS /\
    Z.land (CSR s2 MSTATUS) 8 = Z.land (CSR s MSTATUS) 8 /\
    s2.(regs) = s.(regs) /\ s2.(mem) = s.(mem).
Proof.
  intros Hs Ht Hc.
  destruct (cycle_end_exception s trap rval pc cycle s1 Hs Ht Hc) as (Er & Em & Hl & Epc & Ecause & Etv & Est & Eex).
  pose proof (CSR_range s MTVEC Hs) as Hmtvec. pose proof (CSR_range s EXTRAFLAGS Hs) as Hex.
  split_and!; [|done|rewrite Eex|rewrite Est|].
  - rewrite Etv, wrap_add_l. replace (CSR s MTVEC - 4 + 4) with (CSR s MTVEC) by lia. by apply wrap_small.
  - zbits i Hi. by destruct (Z.testbit (CSR s EXTRAFLAGS) i), (Z.testbit 3 i).
  - destruct (land_8 (CSR s MSTATUS)) as [-> | ->], (land_3 (CSR s EXTRAFLAGS)) as [-> |[-> |[-> | ->]]];
      reflexivity.
  - rewrite exec_mret. eexists. split_and!; [by f_equal; f_equal; autorewrite with csr; rewrite Epc|..|done|done];
      autorewrite with csr.
    + rewrite Est, Eex. etransitivity; [|apply (mode_restore _ Hex)]. f_equal.
      destruct (land_8 (CSR s MSTATUS)) as [-> | ->], (land_3 (CSR s EXTRAFLAGS)) as [-> |[-> |[-> | ->]]];
        reflexivity.
    + rewrite Est, Eex. replace (Z.land (Z.lor (CSR s EXTRAFLAGS) 3) 3) with 3
        by (symmetry; zbits i Hi; by destruct (Z.testbit (CSR s EXTRAFLAGS) i), (Z.testbit 3 i)).
      destruct (land_8 (CSR s MSTATUS)) as [-> | ->], (land_3 (CSR s EXTRAFLAGS)) as [-> |[-> |[-> | ->]]];
        reflexivity.
Qed.

Lemma exception_mret_roundtrip_witness :
  exists s1 s2, cycle_end demo_state 3 0 0 1 = (0, s1) /\
    exec_system s1 0x30200073 64 2 0 = Done (Out 0 0 (u32 (0 - 4)) 0 s2) /\
    CSR s2 EXTRAFLAGS = CSR demo_state EXTRAFLAGS.
Proof.
  assert (wf demo_state) as H by (apply (main_init_wf demo_image [7; 8]); [apply demo_image_bytes|reflexivity]).
  destruct (exception_mret_roundtrip demo_state 3 0 0 1 (snd (cycle_end demo_state 3 0 0 1)) 64 2 H
    ltac:(lia) eq_refl) as (_ & _ & _ & _ & s2 & E & Eex & _).
  exists (snd (cycle_end demo_state 3 0 0 1)), s2. exact (conj eq_refl (conj E Eex)).
Defined.

(** ** Load-reserved and store-conditional *)

Definition lr_w (rd rs1 : Z) : Z := pack 0x2f rd 2 rs1 0 8.
Definition sc_w (rd rs1 rs2 : Z) : Z := pack 0x2f rd 2 rs1 rs2 12.

Lemma reservation_kept e off :
  Z.shiftr (Z.lor (Z.land e 7) (u32 (Z.shiftl off 3))) 3 = Z.land off 0x1fffffff.
Proof.
  change 0x1fffffff with (Z.ones 29). zbits i Hi.
  change 7 with (Z.ones 3). rewrite Z.ones_spec_high by lia. rewrite andb_false_r. simpl.
  destruct (decide (i < 29)).
  - rewrite Z.ones_spec_low, bool_decide_eq_true_2 by lia. rewrite andb_true_r. simpl.
    f_equal. lia.
  - rewrite Z.ones_spec_high, bool_decide_eq_false_2 by lia. by rewrite andb_false_r.
Qed.

(** Store-conditional.  After a load-reserved in RAM, as long as the
    reservation is not replaced, SC.W stores and returns 0 exactly when it
    addresses the reserved word (addresses are compared modulo 2^29); otherwise
    it returns 1 and changes nothing. *)
Theorem lr_sc s rd rs1 o1 s2 rd' rs1' rs2 pc :
  wf s -> wf s2 -> in_range 32 pc -> reg_ok rd = true -> reg_ok rs1 = true -> reg_ok rd' = true ->
  reg_ok rs1' = true -> reg_ok rs2 = true ->
  exec_amo s (lr_w rd rs1) pc rd = Some o1 -> o1.(o_trap) = 0 ->
  CSR s2 EXTRAFLAGS = CSR o1.(o_state) EXTRAFLAGS ->
  let a := u32 (REG s rs1 - s.(mem_offset)) in
  let b := u32 (REG s2 rs1' - s2.(mem_offset)) in
  b < s2.(mem_size) - 3 ->
  exec_amo s2 (sc_w rd' rs1' rs2) pc rd' = Some
    (if Z.land a 0x1fffffff =? Z.land b 0x1fffffff
     then Out 0 0 pc rd' (setMEM (store_le s2.(mem) b 4 (REG s2 rs2)) s2)
     else Out 0 1 pc rd' s2).
Proof.
  intros Hs Hs2 Hpc Hrd Hr1 Hrd' Hr1' Hr2 Hlr Htrap Hex a b Hb.
  assert (CSR s2 EXTRAFLAGS = Z.lor (Z.land (CSR s EXTRAFLAGS) 7) (u32 (Z.shiftl a 3))) as Eres.
  { rewrite Hex. revert Hlr Htrap. unfold exec_amo, lr_w.
    rewrite pack_rs1, pack_irmid by eauto with isa. fold a. change (8 / 4) with 2.
    case_match; [intros [= <-]; done|]. destruct (MEMload _ _ _); [|done]. cbn [mbind option_bind amo_switch].
    intros [= <-] _. cbn [o_state]. apply CSR_setCSR_eq. rewrite (wf_csrs_len s Hs). unfold EXTRAFLAGS, CSR_COUNT. lia. }
  unfold exec_amo, sc_w. rewrite pack_rs1, pack_rs2, pack_irmid by eauto with isa. fold b. change (12 / 4) with 3.
  assert (in_range 32 b) as Hrb by (unfold b; rng).
  assert (u32 (mem_size s2 - 3) = mem_size s2 - 3) as Esz.
  { apply wrap_small. pose proof (wf_size s2 Hs2). pose proof (wf_size_pos s2 Hs2). unfold in_range in *. lia. }
  assert ((u32 (mem_size s2 - 3) <=? b) = false) as -> by lia.
  destruct (MEMload_ok s2 b 4) as (v & -> & _ & _); [done..|lia|lia|]. cbn [mbind option_bind amo_switch].
  rewrite Eres, reservation_kept.
  destruct (Z.land a _ =? Z.land b _); cbn [negb Z.b2z]; [|done].
  destruct (MEMstore_ok s2 b 4 (REG s2 rs2)) as [-> _]; [done..|lia|lia|]. done.
Qed.

Lemma lr_sc_witness :
  exists o1, exec_amo demo_state (lr_w 5 11) 0 5 = Some o1 /\
    option_map (fun o => (o.(o_rval), load_le o.(o_state).(mem) (RAM_SIZE - 8) 4))
      (exec_amo o1.(o_state) (sc_w 6 11 10) 0 6) = Some (0, 2).
Proof.
  assert (wf demo_state) as H by (apply (main_init_wf demo_image [7; 8]); [apply demo_image_bytes|reflexivity]).
  destruct (exec_amo_ok demo_state (lr_w 5 11) 0 5 H ltac:(rng) ltac:(lia)) as (o1 & E & Hw & _).
  exists o1. split; [exact E|].
  assert (o1 = Out 0 7 0 5 (setCSR EXTRAFLAGS (8 * (RAM_SIZE - 8)) demo_state)) as ->.
  { enough (Some o1 = Some (Out 0 7 0 5 (setCSR EXTRAFLAGS (8 * (RAM_SIZE - 8)) demo_state))) by congruence.
    rewrite <- E. reflexivity. }
  rewrite (lr_sc demo_state 5 11 _ _ 6 11 10 0 H Hw ltac:(rng) eq_refl eq_refl eq_refl eq_refl eq_refl
    E eq_refl eq_refl) by reflexivity. reflexivity.
Defined.

(** Reset state has no reservation, yet SC.W to offset 0 of RAM succeeds. *)
Example sc_without_reservation :
  option_map (fun o => (o.(o_trap), o.(o_rval))) (exec_amo demo_state (sc_w 6 0 10) 0 6) = Some (0, 0).
Proof. reflexivity. Qed.

(** A byte load of the last byte of RAM faults. *)
Example lb_last_byte_faults :
  option_map (fun o => o.(o_trap)) (exec_load (setREG 5 (RAM_SIZE - 1) demo_state) (encode (Load LBU 6 5 0)) 0 6) = Some 6.
Proof. reflexivity. Qed.
