(* ===== verification/Hanoi.v ===== *)
(** * The Tower of Hanoi programs of course1/hanoi.

    [hanoi_r] is the recursive program (hanoi-r.c), [hanoi_nr] its version with
    an explicit stack of frames and program counters (hanoi-nr.c), [hanoi_o3]
    the one with stages (hanoi-o3mini.c).  What a program prints is the list of
    its moves.  A stack is a list, its top first; pushing a frame on a full
    array is [None] ([hanoi-nr.c] writes past [stk], the others exit), as is an
    overflow of [int]. *)

From S2P Require Import Prelude.

Local Open Scope Z_scope.

(** A value an [int] can hold. *)
Definition int_fits (z : Z) : bool := (- 2 ^ 31 <=? z) && (z <? 2 ^ 31).

(** ** The recursive program *)

Abbreviation move := (Z * Z)%type.

(** [None] when the recursion never reaches [n == 1], or the sum overflows. *)
Fixpoint hanoi_r (n : nat) (from to via : Z) : option (list move * Z) :=
  match n with
  | O => None
  | S n' =>
      if (n' =? 0)%nat then Some ([(from, to)], 1)
      else
        '(m1, c1) ← hanoi_r n' from via to;
        '(m3, c2) ← hanoi_r n' via to from;
        if int_fits (c1 + c2) && int_fits (c1 + c2 + 1)
        then Some (m1 ++ [(from, to)] ++ m3, c1 + c2 + 1) else None
  end.

(** ** The game *)

(** Pegs hold disks as increasing lists of sizes, the top disk first. *)
Abbreviation pegs := (Z -> list nat).

(** Moving the top disk of one peg to another: [None] if there is none or it
    would lie on a smaller one. *)
Definition play_move (p : pegs) (m : move) : option pegs :=
  let '(a, b) := m in
  match p a with
  | [] => None
  | d :: ds =>
      match p b with
      | e :: _ => if (d <? e)%nat then Some (<[b := d :: p b]> (<[a := ds]> p)) else None
      | [] => Some (<[b := [d]]> (<[a := ds]> p))
      end
  end.

Fixpoint play (p : pegs) (ms : list move) : option pegs :=
  match ms with
  | [] => Some p
  | m :: ms => p ← play_move p m; play p ms
  end.

(** ** The program with explicit frames *)

Record Frame := MkFrame { f_pc : Z; f_n : Z; f_from : Z; f_to : Z; f_via : Z; f_c1 : Z; f_c2 : Z }.

(** The stack, [retval] and the moves printed so far. *)
Record nr_state := Nr { stk : list Frame; retval : Z; printed : list move }.

Definition STK : nat := 64.

(** [call(...)]: a new frame with [pc = 0] above [k]. *)
Definition call (k : list Frame) (n from to via : Z) : option (list Frame) :=
  if (length k <? STK)%nat then Some (MkFrame 0 n from to via 0 0 :: k) else None.

(** One iteration of [while (1)].  The frame [f] keeps its slot when a callee is
    pushed above it, and is dead once it has returned. *)
Definition nr_body (s : nr_state) : option (nr_state + list move * Z) :=
  match s.(stk) with
  | [] => Some (inr (s.(printed), s.(retval)))
  | f :: k =>
      let next_pc := f.(f_pc) + 1 in
      let f' := MkFrame next_pc f.(f_n) f.(f_from) f.(f_to) f.(f_via) f.(f_c1) f.(f_c2) in
      match f.(f_pc) with
      | 0 => if f.(f_n) =? 1 then Some (inl (Nr k 1 (s.(printed) ++ [(f.(f_from), f.(f_to))])))
             else Some (inl (Nr (f' :: k) s.(retval) s.(printed)))
      | 1 => k ← call (f' :: k) (f.(f_n) - 1) f.(f_from) f.(f_via) f.(f_to);
             Some (inl (Nr k s.(retval) s.(printed)))
      | 2 => Some (inl (Nr (MkFrame next_pc f.(f_n) f.(f_from) f.(f_to) f.(f_via) s.(retval) f.(f_c2) :: k)
                           s.(retval) s.(printed)))
      | 3 => k ← call (f' :: k) 1 f.(f_from) f.(f_to) f.(f_via);
             Some (inl (Nr k s.(retval) s.(printed)))
      | 4 => k ← call (f' :: k) (f.(f_n) - 1) f.(f_via) f.(f_to) f.(f_from);
             Some (inl (Nr k s.(retval) s.(printed)))
      | 5 => Some (inl (Nr (MkFrame next_pc f.(f_n) f.(f_from) f.(f_to) f.(f_via) f.(f_c1) s.(retval) :: k)
                           s.(retval) s.(printed)))
      | 6 => let v := f.(f_c1) + f.(f_c2) + 1 in
             if int_fits (f.(f_c1) + f.(f_c2)) && int_fits v then Some (inl (Nr k v s.(printed))) else None
      | _ => None
      end
  end.

Definition hanoi_nr (fuel : nat) (n from to via : Z) : option (list move * Z) :=
  k ← call [] n from to via; loop nr_body fuel (Nr k 0 []).

(** ** The program with stages *)

Record oframe := OFrame { o_n : Z; o_from : Z; o_aux : Z; o_to : Z; o_stage : Z }.

Definition STACK_SIZE : nat := 1000.

(** [push] exits when the stack is full. *)
Definition push {A} (frame : A) (stack : list A) : option (list A) :=
  if (length stack <? STACK_SIZE)%nat then Some (frame :: stack) else None.

Definition o3_body (s : list oframe * list move) : option (list oframe * list move + list move) :=
  let '(stack, out) := s in
  match stack with
  | [] => Some (inr out)
  | c :: k =>
      if (c.(o_n) =? 1) && (c.(o_stage) =? 0) then Some (inl (k, out ++ [(c.(o_from), c.(o_to))]))
      else if c.(o_stage) =? 0 then
        k ← push (OFrame (c.(o_n) - 1) c.(o_from) c.(o_to) c.(o_aux) 0)
                 (OFrame c.(o_n) c.(o_from) c.(o_aux) c.(o_to) 1 :: k);
        Some (inl (k, out))
      else if c.(o_stage) =? 1 then
        k ← push (OFrame (c.(o_n) - 1) c.(o_aux) c.(o_from) c.(o_to) 0)
                 (OFrame c.(o_n) c.(o_from) c.(o_aux) c.(o_to) 2 :: k);
        Some (inl (k, out ++ [(c.(o_from), c.(o_to))]))
      else Some (inl (k, out))
  end.

Definition hanoi_o3 (fuel : nat) (n from aux to : Z) : option (list move) :=
  k ← push (OFrame n from aux to 0) []; loop o3_body fuel (k, []).

(** ** The moves *)

Fixpoint moves (n : nat) (from to via : Z) : list move :=
  match n with
  | O => []
  | S n => moves n from via to ++ [(from, to)] ++ moves n via to from
  end.

Lemma moves_length n : forall a b c, Z.of_nat (length (moves n a b c)) = 2 ^ Z.of_nat n - 1.
Proof.
  induction n as [|n IH]; intros a b c; [done|]. cbn [moves].
  rewrite !length_app. cbn [length]. rewrite (Nat2Z.inj_succ n), Z.pow_succ_r by lia.
  rewrite !Nat2Z.inj_add, !IH. lia.
Qed.

Lemma pow_small n : (1 <= n <= 31)%nat -> 2 <= 2 ^ Z.of_nat n <= 2 ^ 31.
Proof.
  intros. pose proof (Z.pow_le_mono_r 2 1 (Z.of_nat n) ltac:(lia) ltac:(lia)).
  pose proof (Z.pow_le_mono_r 2 (Z.of_nat n) 31 ltac:(lia) ltac:(lia)). lia.
Qed.

Lemma hanoi_r_moves n : (1 <= n <= 31)%nat -> forall a b c,
  hanoi_r n a b c = Some (moves n a b c, 2 ^ Z.of_nat n - 1).
Proof.
  induction n as [|n IH]; intros Hn a b c; [lia|]. cbn [hanoi_r].
  destruct (Nat.eqb_spec n 0) as [->|]; [done|]. rewrite !IH by lia. cbn [mbind option_bind].
  pose proof (pow_small (S n) ltac:(lia)) as Hp. rewrite Nat2Z.inj_succ, Z.pow_succ_r in * by lia.
  pose proof (pow_small n ltac:(lia)).
  assert (int_fits (2 ^ Z.of_nat n - 1 + (2 ^ Z.of_nat n - 1)) = true) as -> by (unfold int_fits; lia).
  assert (int_fits (2 ^ Z.of_nat n - 1 + (2 ^ Z.of_nat n - 1) + 1) = true) as -> by (unfold int_fits; lia).
  cbn [andb]. do 2 f_equal. lia.
Qed.

Lemma play_app p ms ms' : play p (ms ++ ms') = p' ← play p ms; play p' ms'.
Proof.
  revert p. induction ms as [|m ms IH]; intros p; simpl; [done|].
  destruct (play_move p m); simpl; [apply IH|done].
Qed.

(** Disks of size at least [n]. *)
Definition big (n : nat) (l : list nat) : Prop := Forall (fun d => n <= d)%nat l.

Lemma big_weaken m n l : (n <= m)%nat -> big m l -> big n l.
Proof. intros. eapply Forall_impl; [done|]. simpl. lia. Qed.

Lemma play_moves n : forall a b c p rest,
  a <> b -> b <> c -> a <> c -> p a = seq 0 n ++ rest -> big n rest -> big n (p b) -> big n (p c) ->
  exists p', play p (moves n a b c) = Some p' /\ p' a = rest /\ p' b = seq 0 n ++ p b /\ p' c = p c /\
    forall x, x <> a -> x <> b -> x <> c -> p' x = p x.
Proof.
  induction n as [|n IH]; intros a b c p rest Hab Hbc Hac Ea Hr Hb Hc; [by exists p|].
  cbn [moves]. rewrite seq_S, <- app_assoc in Ea. simpl in Ea.
  destruct (IH a c b p (n :: rest)) as (p1 & E1 & E1a & E1c & E1b & E1o);
    [done..| |by eapply big_weaken, Hc; lia|by eapply big_weaken, Hb; lia|].
  { constructor; [lia|]. eapply big_weaken, Hr. lia. }
  rewrite play_app, E1. cbn [mbind option_bind]. rewrite play_app.
  assert (exists p2, play p1 [(a, b)] = Some p2 /\ p2 a = rest /\ p2 b = n :: p b /\ p2 c = p1 c /\
    (forall x, x <> a -> x <> b -> p2 x = p1 x)) as (p2 & -> & E2a & E2b & E2c & E2o).
  { exists (<[b := n :: p b]> (<[a := rest]> p1)). split_and!.
    - simpl. rewrite E1a, E1b. destruct (p b) as [|e l] eqn:Eb; [done|].
      apply Forall_cons in Hb as [Hb _]. destruct (Nat.ltb_spec n e); [done|lia].
    - rewrite fn_lookup_insert_ne by done. by rewrite fn_lookup_insert.
    - by rewrite fn_lookup_insert.
    - by rewrite !fn_lookup_insert_ne by done.
    - intros. by rewrite !fn_lookup_insert_ne by done. }
  cbn [mbind option_bind].
  destruct (IH c b a p2 (p c)) as (p3 & E3 & E3c & E3b & E3a & E3o);
    [done..|by rewrite E2c, E1c|by eapply big_weaken, Hc; lia| |rewrite E2a; by eapply big_weaken, Hr; lia|].
  { rewrite E2b. constructor; [done|]. eapply big_weaken, Hb. lia. }
  exists p3. rewrite E3. split_and!; [done|congruence| |done|].
  - rewrite E3b, E2b, seq_S, <- app_assoc. done.
  - intros x ???. rewrite E3o, E2o, E1o by done. done.
Qed.

(** ** The explicit stack *)

Lemma call_ok k n a b c :
  (length k < STK)%nat -> call k n a b c = Some (MkFrame 0 n a b c 0 0 :: k).
Proof. intros. unfold call. destruct (Nat.ltb_spec (length k) STK); [done|lia]. Qed.

(** A frame at its start runs to its return, above any stack with room. *)
Lemma nr_frame n : (1 <= n <= 31)%nat -> forall a b c k r out,
  (length k + n <= STK)%nat ->
  exists cost, reaches nr_body cost
    (Nr (MkFrame 0 (Z.of_nat n) a b c 0 0 :: k) r out)
    (Nr k (2 ^ Z.of_nat n - 1) (out ++ moves n a b c)).
Proof.
  induction n as [|n IH]; intros Hn a b c k r out Hk; [lia|].
  destruct (decide (n = 0%nat)) as [->|Hn0]; [exists 1%nat; by apply reaches_one|].
  pose proof (pow_small (S n) ltac:(lia)) as Hp. pose proof (pow_small n ltac:(lia)).
  assert (2 ^ Z.of_nat (S n) = 2 * 2 ^ Z.of_nat n) as E2 by (rewrite Nat2Z.inj_succ, Z.pow_succ_r by lia; lia).
  set (v := 2 ^ Z.of_nat n - 1) in *. set (N := Z.of_nat (S n)) in *.
  assert (N - 1 = Z.of_nat n) as EN by (unfold N; lia). clearbody N.
  destruct (IH ltac:(lia) a c b (MkFrame 2 N a b c 0 0 :: k) r out) as (n1 & R1); [simpl; lia|].
  set (out1 := out ++ moves n a c b) in R1. set (out2 := out1 ++ [(a, b)]).
  destruct (IH ltac:(lia) c b a (MkFrame 5 N a b c v 0 :: k) 1 out2) as (n3 & R3); [simpl; lia|].
  exists (2 + (n1 + (2 + (1 + (1 + (n3 + 2))))))%nat.
  eapply reaches_trans with (t := Nr (MkFrame 0 (Z.of_nat n) a c b 0 0 :: MkFrame 2 N a b c 0 0 :: k) r out).
  { apply reaches_step with (t := Nr (MkFrame 1 N a b c 0 0 :: k) r out).
    - cbn. destruct (Z.eqb_spec N 1); [lia|done].
    - apply reaches_one. unfold nr_body. cbn [stk f_pc f_n f_from f_to f_via f_c1 f_c2]. rewrite EN.
      by rewrite call_ok by (simpl; lia). }
  eapply reaches_trans; [exact R1|].
  eapply reaches_trans with (t := Nr (MkFrame 0 1 a b c 0 0 :: MkFrame 4 N a b c v 0 :: k) v out1).
  { eapply reaches_step; [reflexivity|apply reaches_one]. cbn. by rewrite call_ok by (simpl; lia). }
  eapply reaches_trans with (t := Nr (MkFrame 4 N a b c v 0 :: k) 1 out2); [by apply reaches_one|].
  eapply reaches_trans with (t := Nr (MkFrame 0 (Z.of_nat n) c b a 0 0 :: MkFrame 5 N a b c v 0 :: k) 1 out2).
  { apply reaches_one. unfold nr_body. cbn [stk f_pc f_n f_from f_to f_via f_c1 f_c2]. rewrite EN.
    by rewrite call_ok by (simpl; lia). }
  eapply reaches_trans; [exact R3|]. eapply reaches_step; [reflexivity|apply reaches_one]. cbn.
  assert (int_fits (v + v) = true) as -> by (unfold int_fits; lia).
  assert (int_fits (v + v + 1) = true) as -> by (unfold int_fits; lia). cbn [andb].
  replace (v + v + 1) with (2 ^ N - 1) by lia. cbn [moves]. unfold out2, out1. by rewrite <- !app_assoc.
Qed.

Lemma push_ok {A} (x : A) k : (length k < STACK_SIZE)%nat -> push x k = Some (x :: k).
Proof. intros. unfold push. destruct (Nat.ltb_spec (length k) STACK_SIZE); [done|lia]. Qed.

Lemma o3_frame n : (1 <= n)%nat -> forall a b c k out,
  (length k + n <= STACK_SIZE)%nat ->
  exists cost, reaches o3_body cost (OFrame (Z.of_nat n) a c b 0 :: k, out) (k, out ++ moves n a b c).
Proof.
  induction n as [|n IH]; intros Hn a b c k out Hk; [lia|].
  destruct (decide (n = 0%nat)) as [->|Hn0]; [exists 1%nat; by apply reaches_one|].
  set (N := Z.of_nat (S n)). assert (N - 1 = Z.of_nat n) as EN by (unfold N; lia).
  assert ((N =? 1) = false) as EN1 by lia. clearbody N.
  destruct (IH ltac:(lia) a c b (OFrame N a c b 1 :: k) out) as (n1 & R1); [simpl; lia|].
  set (out1 := out ++ moves n a c b) in R1.
  destruct (IH ltac:(lia) c b a (OFrame N a c b 2 :: k) (out1 ++ [(a, b)])) as (n3 & R3); [simpl; lia|].
  exists (1 + (n1 + (1 + (n3 + 1))))%nat.
  eapply reaches_trans.
  { apply reaches_one. cbn -[Z.sub push]. rewrite EN1. cbn [andb]. by rewrite push_ok by (simpl; lia). }
  rewrite EN. eapply reaches_trans; [exact R1|]. eapply reaches_trans.
  { apply reaches_one. cbn -[Z.sub push]. rewrite EN1. cbn [andb]. by rewrite push_ok by (simpl; lia). }
  rewrite EN. eapply reaches_trans; [exact R3|]. apply reaches_one. cbn. rewrite EN1. cbn [andb].
  unfold out1. cbn [moves]. by rewrite <- !app_assoc.
Qed.

(** The recursive program solves the puzzle.  Its moves are legal (no disk
    ever lies on a smaller one), take the [n] smallest disks from one peg to
    another leaving all others in place, and the value returned is their
    number, [2^n - 1]. *)
Theorem hanoi_r_solves n from to via p rest :
  (1 <= n <= 31)%nat -> from <> to -> to <> via -> from <> via ->
  p from = seq 0 n ++ rest -> big n rest -> big n (p to) -> big n (p via) ->
  exists ms p', hanoi_r n from to via = Some (ms, 2 ^ Z.of_nat n - 1) /\
    Z.of_nat (length ms) = 2 ^ Z.of_nat n - 1 /\
    play p ms = Some p' /\ p' from = rest /\ p' to = seq 0 n ++ p to /\ p' via = p via /\
    forall x, x <> from -> x <> to -> x <> via -> p' x = p x.
Proof.
  intros Hn ???????. destruct (play_moves n from to via p rest) as (p' & ?); [done..|].
  exists (moves n from to via), p'. split; [by apply hanoi_r_moves|]. split; [apply moves_length|done].
Qed.

Lemma hanoi_r_solves_witness :
  exists ms p', hanoi_r 3 65 66 67 = Some (ms, 7) /\
    play (fun x => if x =? 65 then [0; 1; 2]%nat else []) ms = Some p' /\ p' 66 = [0; 1; 2]%nat.
Proof.
  destruct (hanoi_r_solves 3 65 66 67 (fun x => if x =? 65 then [0; 1; 2]%nat else []) [])
    as (ms & p' & E & _ & Ep & _ & Eb & _);
    [lia|lia|lia|lia|reflexivity|apply List.Forall_nil|apply List.Forall_nil|apply List.Forall_nil|].
  exists ms, p'. exact (conj E (conj Ep Eb)).
Defined.

(** The program with an explicit stack prints the same moves and returns the
    same value as the recursive one, and its 64 frames are enough; so does the
    program with stages (which returns nothing). *)
Theorem hanoi_stack_equiv n from to via :
  (1 <= n <= 31)%nat ->
  exists fuel ms c, hanoi_r n from to via = Some (ms, c) /\
    (forall fuel', (fuel <= fuel')%nat ->
       hanoi_nr fuel' (Z.of_nat n) from to via = Some (ms, c) /\
       hanoi_o3 fuel' (Z.of_nat n) from via to = Some ms).
Proof.
  intros Hn. destruct (nr_frame n Hn from to via [] 0 []) as (n1 & R1); [simpl; unfold STK; lia|].
  destruct (o3_frame n ltac:(lia) from to via [] []) as (n2 & R2); [simpl; unfold STACK_SIZE; lia|].
  exists (n1 + 1 + (n2 + 1))%nat, (moves n from to via), (2 ^ Z.of_nat n - 1).
  split; [by apply hanoi_r_moves|]. intros fuel' Hf. split.
  - unfold hanoi_nr. rewrite call_ok by (simpl; unfold STK; lia). cbn [mbind option_bind].
    apply (loop_mono _ (n1 + 1)); [lia|]. by eapply loop_result.
  - unfold hanoi_o3. rewrite push_ok by (simpl; unfold STACK_SIZE; lia). cbn [mbind option_bind].
    apply (loop_mono _ (n2 + 1)); [lia|]. by eapply loop_result.
Qed.

Lemma hanoi_stack_equiv_witness :
  exists fuel ms, hanoi_r 4 65 66 67 = Some (ms, 15) /\ hanoi_nr fuel 4 65 66 67 = Some (ms, 15).
Proof.
  destruct (hanoi_stack_equiv 4 65 66 67) as (fuel & ms & c & E & H); [lia|].
  exists fuel, ms. assert (c = 15) as Ec.
  { rewrite (hanoi_r_moves 4) in E by lia. injection E as _ E. symmetry. exact E. }
  rewrite Ec in E, H. split; [exact E|apply (H fuel); lia].
Defined.
