(* ===== verification/FgStack.v ===== *)
(** * The mutually recursive functions of course1/hanoi/f_g.c and f_g1.c.

    [fg_rec] is the recursive pair [f], [g]; [fg_body] is one iteration of the
    loop of [f_g] in f_g.c (one callee at a time) and [fg1_body] that of f_g1.c
    (both callees at once).  The stack is a list, its top first; pushing on a
    full stack and an overflow of [ans] are [None]. *)

From S2P Require Import Prelude Hanoi.

Local Open Scope Z_scope.

(** [isg = false] is [f], [true] is [g] ([flag] 0 and 1 of a frame). *)
Definition left (isg : bool) (n : Z) : bool * Z := (false, if isg then n + 1 else n - 1).
Definition right (isg : bool) (n : Z) : bool * Z := (true, if isg then n - 1 else n - 2).

(** The recursion of [f] and [g], with fuel for its depth. *)
Fixpoint fg_rec (fuel : nat) (isg : bool) (n : Z) : option Z :=
  match fuel with
  | O => None
  | S fuel =>
      if n <=? 1 then Some 1
      else
        a ← fg_rec fuel (left isg n).1 (left isg n).2;
        b ← fg_rec fuel (right isg n).1 (right isg n).2;
        if int_fits (a + b) then Some (a + b) else None
  end.

Record fgframe := FgFrame { fg_n : Z; fg_flag : bool; fg_stage : Z }.

Definition fg_frame (c : bool * Z) : fgframe := FgFrame c.2 c.1 0.

(** f_g.c *)
Definition fg_body (s : list fgframe * Z) : option (list fgframe * Z + Z) :=
  let '(stack, ans) := s in
  match stack with
  | [] => Some (inr ans)
  | c :: k =>
      let at_stage z := FgFrame c.(fg_n) c.(fg_flag) z in
      if (c.(fg_n) <=? 1) && (c.(fg_stage) =? 0) then
        if int_fits (ans + 1) then Some (inl (k, ans + 1)) else None
      else if c.(fg_stage) =? 0 then
        k ← push (fg_frame (left c.(fg_flag) c.(fg_n))) (at_stage 1 :: k); Some (inl (k, ans))
      else if c.(fg_stage) =? 1 then
        k ← push (fg_frame (right c.(fg_flag) c.(fg_n))) (at_stage 2 :: k); Some (inl (k, ans))
      else if c.(fg_stage) =? 2 then Some (inl (k, ans))
      else Some (inl (c :: k, ans))
  end.

(** f_g1.c *)
Definition fg1_body (s : list fgframe * Z) : option (list fgframe * Z + Z) :=
  let '(stack, ans) := s in
  match stack with
  | [] => Some (inr ans)
  | c :: k =>
      if (c.(fg_n) <=? 1) && (c.(fg_stage) =? 0) then
        if int_fits (ans + 1) then Some (inl (k, ans + 1)) else None
      else if c.(fg_stage) =? 0 then
        k ← push (fg_frame (left c.(fg_flag) c.(fg_n))) (FgFrame c.(fg_n) c.(fg_flag) 1 :: k);
        k ← push (fg_frame (right c.(fg_flag) c.(fg_n))) k;
        Some (inl (k, ans))
      else if c.(fg_stage) =? 1 then Some (inl (k, ans))
      else Some (inl (c :: k, ans))
  end.

(** [f_g(n, flag)] of the two programs *)
Definition f_g (fuel : nat) (n : Z) (flag : bool) : option Z :=
  k ← push (FgFrame n flag 0) []; loop fg_body fuel (k, 0).
Definition f_g1 (fuel : nat) (n : Z) (flag : bool) : option Z :=
  k ← push (FgFrame n flag 0) []; loop fg1_body fuel (k, 0).

(** ** The values of the recursion *)

(** Depth of the recursion: every call strictly decreases it. *)
Definition mu (isg : bool) (n : Z) : nat := Z.to_nat (if isg then 2 * n + 3 else 2 * n).

Fixpoint fgz (fuel : nat) (isg : bool) (n : Z) : Z :=
  match fuel with
  | O => 1
  | S fuel => if n <=? 1 then 1
              else fgz fuel (left isg n).1 (left isg n).2 + fgz fuel (right isg n).1 (right isg n).2
  end.

Definition fg_value (isg : bool) (n : Z) : Z := fgz (mu isg n) isg n.

Lemma mu_left isg n : 2 <= n -> (mu (left isg n).1 (left isg n).2 < mu isg n)%nat.
Proof. intros. unfold mu, left. destruct isg; simpl; lia. Qed.

Lemma mu_right isg n : 2 <= n -> (mu (right isg n).1 (right isg n).2 < mu isg n)%nat.
Proof. intros. unfold mu, right. destruct isg; simpl; lia. Qed.

Lemma fgz_enough k : forall k' isg n, (mu isg n <= k)%nat -> (mu isg n <= k')%nat -> fgz k isg n = fgz k' isg n.
Proof.
  assert (forall isg n, mu isg n = 0%nat -> n <= 1) as H0 by (intros [] n; unfold mu; lia).
  induction k as [|k IH]; intros [|k'] isg n Hk Hk'; cbn [fgz]; [done|..].
  - destruct (Z.leb_spec n 1) as [|Hn]; [done|]. assert (n <= 1) by (apply (H0 isg); lia). lia.
  - destruct (Z.leb_spec n 1) as [|Hn]; [done|]. assert (n <= 1) by (apply (H0 isg); lia). lia.
  - destruct (Z.leb_spec n 1) as [|Hn]; [done|].
    pose proof (mu_left isg n ltac:(lia)). pose proof (mu_right isg n ltac:(lia)). f_equal; apply IH; lia.
Qed.

Lemma fg_value_eq isg n :
  fg_value isg n = if n <=? 1 then 1 else
    fg_value (left isg n).1 (left isg n).2 + fg_value (right isg n).1 (right isg n).2.
Proof.
  unfold fg_value. rewrite (fgz_enough _ (S (mu isg n))) by lia. cbn [fgz].
  destruct (Z.leb_spec n 1) as [|Hn]; [done|].
  pose proof (mu_left isg n ltac:(lia)). pose proof (mu_right isg n ltac:(lia)). f_equal; apply fgz_enough; lia.
Qed.

Lemma fg_value_pos isg n : 1 <= fg_value isg n.
Proof.
  unfold fg_value. generalize (mu isg n) as k. intros k. revert isg n.
  induction k as [|k IH]; intros isg n; cbn [fgz]; [lia|]. destruct (Z.leb_spec n 1) as [|]; [lia|].
  pose proof (IH (left isg n).1 (left isg n).2). pose proof (IH (right isg n).1 (right isg n).2). lia.
Qed.

Lemma fg_rec_value k : forall isg n,
  (mu isg n < k)%nat ->
  fg_rec k isg n = if int_fits (fg_value isg n) then Some (fg_value isg n) else None.
Proof.
  induction k as [|k IH]; intros isg n Hk; [lia|]. rewrite fg_value_eq. cbn [fg_rec].
  destruct (Z.leb_spec n 1) as [|Hn]; [done|].
  pose proof (mu_left isg n ltac:(lia)). pose proof (mu_right isg n ltac:(lia)). rewrite !IH by lia.
  pose proof (fg_value_pos (left isg n).1 (left isg n).2).
  pose proof (fg_value_pos (right isg n).1 (right isg n).2).
  revert H1 H2. generalize (fg_value (left isg n).1 (left isg n).2) as a.
  generalize (fg_value (right isg n).1 (right isg n).2) as b. intros b a Ha Hb.
  destruct (int_fits a) eqn:Ea, (int_fits b) eqn:Eb; cbn [mbind option_bind]; try done;
    destruct (int_fits (a + b)) eqn:Eab; try done; unfold int_fits in *; lia.
Qed.

Lemma fg_rec_mono k : forall k' isg n v,
  (k <= k')%nat -> fg_rec k isg n = Some v -> fg_rec k' isg n = Some v.
Proof.
  induction k as [|k IH]; intros [|k'] isg n v Hk; cbn [fg_rec]; try done; try lia.
  destruct (n <=? 1); [done|].
  destruct (fg_rec k (left isg n).1 _) as [a|] eqn:Ea; [|done].
  destruct (fg_rec k (right isg n).1 _) as [b|] eqn:Eb; [|done].
  by rewrite (IH k' _ _ a ltac:(lia) Ea), (IH k' _ _ b ltac:(lia) Eb).
Qed.

(** ** The loops *)

Lemma fg_run m : forall isg n k ans,
  (mu isg n <= m)%nat -> (length k + mu isg n < STACK_SIZE)%nat ->
  0 <= ans -> ans + fg_value isg n < 2 ^ 31 ->
  exists cost, reaches fg_body cost (FgFrame n isg 0 :: k, ans) (k, ans + fg_value isg n).
Proof.
  induction m as [m IH] using lt_wf_ind. intros isg n k ans Hm Hk Ha Hv. rewrite fg_value_eq in *.
  destruct (Z.leb_spec n 1) as [Hn|Hn].
  { exists 1%nat. apply reaches_one. cbn. destruct (Z.leb_spec n 1); [|lia]. cbn [andb].
    assert (int_fits (ans + 1) = true) as -> by (unfold int_fits; lia). done. }
  pose proof (mu_left isg n ltac:(lia)) as Hl. pose proof (mu_right isg n ltac:(lia)) as Hr.
  pose proof (fg_value_pos (right isg n).1 (right isg n).2).
  pose proof (fg_value_pos (left isg n).1 (left isg n).2).
  set (a := fg_value (left isg n).1 (left isg n).2) in *.
  set (b := fg_value (right isg n).1 (right isg n).2) in *.
  destruct (IH (mu (left isg n).1 (left isg n).2) ltac:(lia) (left isg n).1 (left isg n).2
    (FgFrame n isg 1 :: k) ans) as (c1 & R1); [lia|simpl length; lia|lia|fold a; lia|]. fold a in R1.
  destruct (IH (mu (right isg n).1 (right isg n).2) ltac:(lia) (right isg n).1 (right isg n).2
    (FgFrame n isg 2 :: k) (ans + a)) as (c2 & R2); [lia|simpl length; lia|lia|fold b; lia|]. fold b in R2.
  assert ((n <=? 1) = false) as En by lia.
  exists (1 + (c1 + (1 + (c2 + 1))))%nat.
  eapply reaches_trans.
  { apply reaches_one. cbn -[push]. rewrite En. cbn [andb]. by rewrite push_ok by (simpl length; lia). }
  eapply reaches_trans; [exact R1|]. eapply reaches_trans.
  { apply reaches_one. cbn -[push]. rewrite En. cbn [andb]. by rewrite push_ok by (simpl length; lia). }
  eapply reaches_trans; [exact R2|]. apply reaches_one. cbn. rewrite En. cbn [andb].
  by rewrite <- Z.add_assoc.
Qed.

Lemma fg1_run m : forall isg n k ans,
  (mu isg n <= m)%nat -> (length k + 2 * mu isg n < STACK_SIZE)%nat ->
  0 <= ans -> ans + fg_value isg n < 2 ^ 31 ->
  exists cost, reaches fg1_body cost (FgFrame n isg 0 :: k, ans) (k, ans + fg_value isg n).
Proof.
  induction m as [m IH] using lt_wf_ind. intros isg n k ans Hm Hk Ha Hv. rewrite fg_value_eq in *.
  destruct (Z.leb_spec n 1) as [Hn|Hn].
  { exists 1%nat. apply reaches_one. cbn. destruct (Z.leb_spec n 1); [|lia]. cbn [andb].
    assert (int_fits (ans + 1) = true) as -> by (unfold int_fits; lia). done. }
  pose proof (mu_left isg n ltac:(lia)) as Hl. pose proof (mu_right isg n ltac:(lia)) as Hr.
  pose proof (fg_value_pos (right isg n).1 (right isg n).2).
  pose proof (fg_value_pos (left isg n).1 (left isg n).2).
  set (a := fg_value (left isg n).1 (left isg n).2) in *.
  set (b := fg_value (right isg n).1 (right isg n).2) in *.
  set (L := fg_frame (left isg n)). set (C := FgFrame n isg 1).
  destruct (IH (mu (right isg n).1 (right isg n).2) ltac:(lia) (right isg n).1 (right isg n).2
    (L :: C :: k) ans) as (c1 & R1); [lia|simpl length; lia|lia|fold b; lia|]. fold b in R1.
  destruct (IH (mu (left isg n).1 (left isg n).2) ltac:(lia) (left isg n).1 (left isg n).2
    (C :: k) (ans + b)) as (c2 & R2); [lia|simpl length; lia|lia|fold a; lia|]. fold a in R2.
  assert ((n <=? 1) = false) as En by lia.
  exists (1 + (c1 + (c2 + 1)))%nat.
  eapply reaches_trans.
  { apply reaches_one. cbn -[push]. rewrite En. cbn [andb]. rewrite push_ok by (simpl length; lia).
    cbn [mbind option_bind]. by rewrite push_ok by (simpl length; lia). }
  eapply reaches_trans; [exact R1|]. eapply reaches_trans; [exact R2|]. apply reaches_one. cbn.
  rewrite En. cbn [andb]. do 3 f_equal. lia.
Qed.

(** Both stack programs compute the recursive functions.  Whenever the
    recursion of [f] (or [g]) returns a value, so do [f_g] of f_g.c and of
    f_g1.c, the same one, within the 1000 frames of their stack. *)
Theorem fg_stack_equiv isg n depth v :
  n <= 248 -> fg_rec depth isg n = Some v ->
  exists fuel, forall fuel', (fuel <= fuel')%nat ->
    f_g fuel' n isg = Some v /\ f_g1 fuel' n isg = Some v.
Proof.
  intros Hn Hrec.
  assert (v = fg_value isg n /\ fg_value isg n < 2 ^ 31) as [-> Hv].
  { pose proof (fg_rec_mono _ (Nat.max depth (S (mu isg n))) isg n v (Nat.le_max_l _ _) Hrec) as E.
    rewrite fg_rec_value in E by lia. destruct (int_fits (fg_value isg n)) eqn:Ef; [|done].
    unfold int_fits in Ef. split; [congruence|lia]. }
  assert (mu isg n <= 499)%nat as Hmu by (unfold mu; destruct isg; lia).
  destruct (fg_run _ isg n [] 0 (le_n _)) as (c1 & R1); [simpl length; unfold STACK_SIZE; lia|lia|lia|].
  destruct (fg1_run _ isg n [] 0 (le_n _)) as (c2 & R2); [simpl length; unfold STACK_SIZE; lia|lia|lia|].
  exists (c1 + 1 + (c2 + 1))%nat. intros fuel' Hf.
  unfold f_g, f_g1. rewrite push_ok by (simpl; unfold STACK_SIZE; lia). cbn [mbind option_bind].
  split; [apply (loop_mono _ (c1 + 1))|apply (loop_mono _ (c2 + 1))]; try lia; by eapply loop_result.
Qed.

Lemma fg_stack_equiv_witness :
  exists fuel, f_g fuel 10 false = Some 2207 /\ f_g1 fuel 10 false = Some 2207.
Proof.
  destruct (fg_stack_equiv false 10 30 2207) as (fuel & H); [lia|reflexivity|].
  exists fuel. apply H. lia.
Defined.
