(* ===== verification/Logisim.v ===== *)
(** * The digital circuit simulator of course1/logisim (logisim.h, logisim.c).

    The gates built from NAND, two flip-flops and one clock cycle of the circuit
    of [main]; a cycle prints the wires [A] to [G], the segments of a display. *)

From S2P Require Import Prelude.

(** ** Gates *)

Definition NAND (X Y : bool) : bool := negb (X && Y).
Definition NOT (X : bool) : bool := NAND X true.
Definition AND (X Y : bool) : bool := NOT (NAND X Y).
Definition OR (X Y : bool) : bool := NAND (NOT X) (NOT Y).

Lemma NOT_spec X : NOT X = negb X.
Proof. by destruct X. Qed.
Lemma AND_spec X Y : AND X Y = X && Y.
Proof. by destruct X, Y. Qed.
Lemma OR_spec X Y : OR X Y = X || Y.
Proof. by destruct X, Y. Qed.

(** ** The circuit *)

Record wires := Wires {
  X : bool; Y : bool; X1 : bool; Y1 : bool;
  A : bool; B : bool; C : bool; D : bool; E : bool; F : bool; G : bool;
}.

(** The wires and the values held by the flip-flops [b1] and [b0]. *)
Record circuit := Circuit { w : wires; b1 : bool; b0 : bool }.

(** Globals are zero before [main]. *)
Definition initial : circuit :=
  Circuit (Wires false false false false false false false false false false false) false false.

(** The body of [CLOCK_CYCLE]: combinatorial logic, edge triggering, and the
    printed wires. *)
Definition clock_cycle (c : circuit) : circuit * list bool :=
  let w0 := c.(w) in
  let x1 := AND (NOT w0.(X)) w0.(Y) in
  let y1 := NOT (OR w0.(X) w0.(Y)) in
  let a := NOT w0.(Y) in
  let c' := NOT w0.(X) in
  let f := y1 in
  let g := w0.(X) in
  let v0 := y1 in
  let v1 := x1 in
  (Circuit (Wires v1 v0 x1 y1 a true c' a a f g) v1 v0, [a; true; c'; a; a; f; g]).

(** The outputs of the first [n] cycles. *)
Fixpoint run (n : nat) (c : circuit) : list (list bool) :=
  match n with
  | O => []
  | S n => let '(c, out) := clock_cycle c in out :: run n c
  end.

(** The segments [A] to [G] that show a digit. *)
Definition segments (d : nat) : list bool :=
  match d with
  | 0 => [true; true; true; true; true; true; false]
  | 1 => [false; true; true; false; false; false; false]
  | 2 => [true; true; false; true; true; false; true]
  | _ => []
  end%nat.

(** The state of the counter. *)
Definition counts (c : circuit) (d : nat) : Prop :=
  match d with
  | 0 => c.(w).(X) = false /\ c.(w).(Y) = false
  | 1 => c.(w).(X) = false /\ c.(w).(Y) = true
  | 2 => c.(w).(X) = true /\ c.(w).(Y) = false
  | _ => False
  end%nat.

Lemma clock_cycle_counts c d :
  counts c d -> (clock_cycle c).2 = segments d /\ counts (clock_cycle c).1 (if (d =? 2)%nat then 0 else d + 1)%nat.
Proof.
  destruct c as [[x y ? ? ? ? ? ? ? ? ?] v1 v0], d as [|[|[|d]]]; simpl; intros H; try done;
    destruct H as [-> ->]; done.
Qed.

#[local] Arguments Nat.modulo : simpl never.

Lemma run_counts n : forall c d i,
  counts c d -> (i < n)%nat -> run n c !! i = Some (segments ((d + i) mod 3)).
Proof.
  induction n as [|n IH]; intros c d i Hc Hi; [lia|]. cbn [run].
  destruct (clock_cycle_counts c d Hc) as [Eo Hc']. destruct (clock_cycle c) as [c' out]. simpl in *.
  assert (d < 3)%nat as Hd by (destruct d as [|[|[|d]]]; simpl in Hc; lia || done).
  destruct i as [|i]; simpl; [by rewrite Nat.add_0_r, Nat.mod_small, Eo|].
  rewrite (IH _ _ i Hc') by lia. do 2 f_equal.
  destruct (Nat.eqb_spec d 2) as [->|]; [|f_equal; lia].
  rewrite <- (Nat.Div0.mod_add (0 + i) 1 3). f_equal. lia.
Qed.

(** The circuit displays 0, 1, 2, 0, 1, 2, ...: cycle [i] prints the seven
    segments of the digit [i mod 3]. *)
Theorem circuit_counts_mod3 n i :
  (i < n)%nat -> run n initial !! i = Some (segments (i mod 3)).
Proof. intros Hi. by apply (run_counts n initial 0 i). Qed.

Lemma circuit_counts_mod3_witness : run 6 initial !! 5%nat = Some (segments 2).
Proof. apply (circuit_counts_mod3 6 5). lia. Defined.

(** Whatever the flip-flops hold at power-up, the counter counts from the
    second cycle on. *)
Lemma circuit_self_starts c : exists d, counts (clock_cycle c).1 d.
Proof.
  destruct c as [[[] [] ? ? ? ? ? ? ? ? ?] v1 v0]; [exists 0%nat|exists 0%nat|exists 2%nat|exists 1%nat]; done.
Qed.
