(* ===== verification/Labyrinth.v ===== *)
(** * The labyrinth game of os2025/labyrinth (labyrinth.c, labyrinth.h).

    [map] is the flat array behind [char map[MAX_ROWS][MAX_COLS]], so that a
    store one past the end of a row lands in the next row, as in C.  Loading
    reads the bytes of a file through [fgets]; [dfs] threads the set of visited
    cells and has fuel for its depth; [movePlayer] returns the new map. *)

From S2P Require Import Prelude.

Local Open Scope Z_scope.

Definition MAX_ROWS : Z := 100.
Definition MAX_COLS : Z := 100.

Record Labyrinth := Lab { map : list Z; rows : Z; cols : Z }.
Abbreviation Position := (Z * Z)%type.

(** [labyrinth->map[row][col]] *)
Definition cell (l : Labyrinth) (row col : Z) : Z := nth (Z.to_nat (row * MAX_COLS + col)) l.(map) 0.

Definition set_cell (l : Labyrinth) (row col v : Z) : Labyrinth :=
  Lab (<[Z.to_nat (row * MAX_COLS + col) := v]> l.(map)) l.(rows) l.(cols).

Definition is_digit (c : Z) : bool := (48 <=? c) && (c <=? 57).

Definition isValidPlayer (playerId : Z) : bool := is_digit playerId.

(** ** Searching *)

Definition isEmptySpace (l : Labyrinth) (row col : Z) : bool :=
  if (row <? 0) || (l.(rows) <=? row) || (col <? 0) || (l.(cols) <=? col) then false
  else (cell l row col =? 46) || is_digit (cell l row col).

(** The cells in the order of the nested [for] loops. *)
Definition positions (l : Labyrinth) : list Position :=
  r ← seqZ 0 l.(rows); c ← seqZ 0 l.(cols); [(r, c)].

Definition first_pos (P : Position -> bool) (ps : list Position) : Position :=
  match list_find (fun p => P p = true) ps with Some (_, p) => p | None => (-1, -1) end.

Definition findPlayer (l : Labyrinth) (playerId : Z) : Position :=
  first_pos (fun p => cell l p.1 p.2 =? playerId) (positions l).

Definition findFirstEmptySpace (l : Labyrinth) : Position :=
  first_pos (fun p => isEmptySpace l p.1 p.2) (positions l).

(** ** Connectedness *)

Abbreviation visited_t := (gset (Z * Z)).

Definition offsets : list (Z * Z) := [(-1, 0); (1, 0); (0, -1); (0, 1)].

Definition in_map (l : Labyrinth) (p : Position) : bool :=
  (0 <=? p.1) && (p.1 <? l.(rows)) && (0 <=? p.2) && (p.2 <? l.(cols)).

(** The body of the [for] loop, with the recursive call as [rec]. *)
Definition visit (rec : Z -> Z -> visited_t -> option visited_t) (l : Labyrinth) (row col : Z)
    (o : Z * Z) (visited : visited_t) : option visited_t :=
  let newRow := row + o.1 in
  let newCol := col + o.2 in
  if in_map l (newRow, newCol) && negb (bool_decide ((newRow, newCol) ∈ visited))
     && isEmptySpace l newRow newCol
  then rec newRow newCol ({[(newRow, newCol)]} ∪ visited)
  else Some visited.

Fixpoint dfs (fuel : nat) (l : Labyrinth) (row col : Z) (visited : visited_t) : option visited_t :=
  match fuel with
  | O => None
  | S fuel =>
      visited ← visit (dfs fuel l) l row col (-1, 0) visited;
      visited ← visit (dfs fuel l) l row col (1, 0) visited;
      visited ← visit (dfs fuel l) l row col (0, -1) visited;
      visit (dfs fuel l) l row col (0, 1) visited
  end.

Definition isConnected (fuel : nat) (l : Labyrinth) : option bool :=
  let start := findFirstEmptySpace l in
  if (start.1 =? -1) && (start.2 =? -1) then Some false
  else
    visited ← dfs fuel l start.1 start.2 {[start]};
    Some (forallb (fun p => negb (isEmptySpace l p.1 p.2 && negb (bool_decide (p ∈ visited)))) (positions l)).

(** ** Moving *)

Definition direction_of (direction : string) : option (Z * Z) :=
  if decide (direction = "up"%string) then Some (-1, 0)
  else if decide (direction = "down"%string) then Some (1, 0)
  else if decide (direction = "left"%string) then Some (0, -1)
  else if decide (direction = "right"%string) then Some (0, 1)
  else None.

(** The result of [movePlayer] and the labyrinth it leaves (and saves). *)
Definition movePlayer (l : Labyrinth) (playerId : Z) (direction : string) : bool * Labyrinth :=
  let playerPos := findPlayer l playerId in
  let playerPos := if (playerPos.1 =? -1) && (playerPos.2 =? -1) then findFirstEmptySpace l else playerPos in
  if (playerPos.1 =? -1) && (playerPos.2 =? -1) then (false, l)
  else
    match direction_of direction with
    | None => (false, l)
    | Some (rowOffset, colOffset) =>
        let newRow := playerPos.1 + rowOffset in
        let newCol := playerPos.2 + colOffset in
        if (newRow <? 0) || (l.(rows) <=? newRow) || (newCol <? 0) || (l.(cols) <=? newCol) then (false, l)
        else if negb (isEmptySpace l newRow newCol) || is_digit (cell l newRow newCol) then (false, l)
        else (true, set_cell (set_cell l playerPos.1 playerPos.2 46) newRow newCol playerId)
    end.

(** ** Files *)

(** [fgets(line, n + 1, file)]: at most [n] bytes, up to and with a newline. *)
Fixpoint fgets (n : nat) (file : list Z) : list Z * list Z :=
  match n, file with
  | S n, c :: file => if c =? 10 then ([c], file) else let '(line, file) := fgets n file in (c :: line, file)
  | _, _ => ([], file)
  end.

(** [strlen]: up to the first NUL. *)
Fixpoint strlen (s : list Z) : nat :=
  match s with
  | [] => 0
  | c :: s => if c =? 0 then 0 else S (strlen s)
  end.

(** [strncpy(dst, src, n)] pads with NULs. *)
Definition strncpy (src : list Z) (n : nat) : list Z :=
  let s := take n (take (strlen src) src) in s ++ replicate (n - length s) 0.

(** The [while] loop of [loadMap]: [None] for its error returns. *)
Fixpoint load_rows (fuel : nat) (m : list Z) (row : Z) (file : list Z) : option (list Z * Z) :=
  match fuel with
  | O => None
  | S fuel =>
      match fgets (Z.to_nat MAX_COLS + 1) file with
      | ([], _) => Some (m, row)
      | (line, file) =>
          let len := strlen line in
          let line := if (0 <? len)%nat && (nth (len - 1) line 0 =? 10) then <[(len - 1)%nat := 0]> line else line in
          if MAX_COLS <? Z.of_nat len then None
          else if MAX_ROWS <=? row then None
          else
            let at_row := Z.to_nat (row * MAX_COLS) in
            let m := list_inserts at_row (strncpy line (Z.to_nat MAX_COLS)) m in
            let m := <[(at_row + len)%nat := 0]> m in
            load_rows fuel m (row + 1) file
      end
  end.

(** [m0] is what the map holds before; the fuel bounds the number of lines. *)
Definition loadMap (fuel : nat) (m0 : list Z) (file : list Z) : option Labyrinth :=
  '(m, row) ← load_rows (S (length file)) m0 0 file;
  let l := Lab m row (Z.of_nat (strlen m)) in
  ok ← isConnected fuel l;
  if ok : bool then Some l else None.

(** The bytes [saveMap] writes. *)
Definition row_string (l : Labyrinth) (row : Z) : list Z :=
  let s := drop (Z.to_nat (row * MAX_COLS)) l.(map) in take (strlen s) s.

Definition saveMap (l : Labyrinth) : list Z :=
  r ← seqZ 0 l.(rows); row_string l r ++ [10].

(** ** Searching finds *)

Lemma elem_of_positions l p : p ∈ positions l <-> in_map l p = true.
Proof.
  unfold positions, in_map. destruct p as [r c]. simpl.
  rewrite list_elem_of_bind. split.
  - intros (r' & Hc & Hr). rewrite list_elem_of_bind in Hc. destruct Hc as (c' & He & Hc).
    apply list_elem_of_singleton in He. simplify_eq. rewrite elem_of_seqZ in *. lia.
  - intros H. exists r. rewrite list_elem_of_bind, elem_of_seqZ. split; [|lia].
    exists c. rewrite elem_of_seqZ. split; [by apply list_elem_of_singleton|lia].
Qed.

Lemma first_pos_spec P l :
  let p := first_pos P (positions l) in
  if (p.1 =? -1) && (p.2 =? -1) then (forall q, in_map l q = true -> P q = false)
  else in_map l p = true /\ P p = true.
Proof.
  cbv zeta. unfold first_pos. destruct (list_find _ _) as [[i p]|] eqn:E.
  - apply list_find_Some in E as (Hp & HP & _). apply list_elem_of_lookup_2, elem_of_positions in Hp.
    replace ((p.1 =? -1) && _) with false; [done|].
    unfold in_map in Hp. symmetry. apply andb_false_iff. left. lia.
  - simpl. intros q Hq. apply list_find_None in E. rewrite Forall_forall in E.
    apply not_true_is_false, E. by apply elem_of_positions.
Qed.

(** ** Depth-first search *)

Definition free (l : Labyrinth) (p : Position) : Prop := isEmptySpace l p.1 p.2 = true.

Definition adjacent (p q : Position) : Prop := exists o, o ∈ offsets /\ q = (p.1 + o.1, p.2 + o.2).

(** Steps between free cells *)
Definition walk (l : Labyrinth) (p q : Position) : Prop := adjacent p q /\ free l q.

(** The free cells *)
Definition space (l : Labyrinth) : visited_t :=
  list_to_set (filter (fun p => isEmptySpace l p.1 p.2 = true) (positions l)).

Lemma free_in_map l p : free l p -> in_map l p = true.
Proof. unfold free, isEmptySpace, in_map. case_match; [done|]. intros _. lia. Qed.

Lemma elem_of_space l p : p ∈ space l <-> free l p.
Proof.
  unfold space. rewrite elem_of_list_to_set, list_elem_of_filter, elem_of_positions.
  split; [by intros []|]. intros H. split; [done|]. by apply free_in_map.
Qed.

(** [v'] extends [v] by free cells reachable from [p] whose free neighbours are
    all in [v']. *)
Record explored (l : Labyrinth) (p : Position) (v v' : visited_t) : Prop := Explored {
  ex_mono : v ⊆ v';
  ex_reach : forall x, x ∈ v' -> x ∈ v \/ (free l x /\ rtc (walk l) p x);
  ex_closed : forall x y, x ∈ v' -> x ∉ v -> walk l x y -> y ∈ v';
}.

Lemma explored_refl l p v : explored l p v v.
Proof. split; [done|by left|done]. Qed.

Lemma explored_trans l p v1 v2 v3 :
  explored l p v1 v2 -> explored l p v2 v3 -> explored l p v1 v3.
Proof.
  intros [M1 R1 C1] [M2 R2 C2]. split; [set_solver|..].
  - intros x Hx. destruct (R2 x Hx) as [H|]; [by apply R1|by right].
  - intros x y Hx Hn Hw. destruct (decide (x ∈ v2)); [|by apply (C2 x)].
    apply M2. by apply (C1 x).
Qed.

(** One neighbour [q] of [p] explored in full. *)
Lemma explored_step l p q v v' :
  walk l p q -> explored l q ({[q]} ∪ v) v' -> (forall y, walk l q y -> y ∈ v') -> explored l p v v'.
Proof.
  intros Hw [M R C] Hq. split; [set_solver|..].
  - intros x Hx. destruct (decide (x ∈ v)); [by left|right].
    destruct (R x Hx) as [H|[Hf Hr]]; [|split; [done|by eapply rtc_l]].
    assert (x = q) as -> by set_solver. split; [apply Hw|by apply rtc_once].
  - intros x y Hx Hn Hxy. destruct (decide (x = q)) as [->|]; [by apply Hq|].
    apply (C x); [done|set_solver|done].
Qed.

Definition unseen (l : Labyrinth) (v : visited_t) : nat := size (space l ∖ v).

Lemma unseen_mono l v v' : v ⊆ v' -> (unseen l v' <= unseen l v)%nat.
Proof. intros. apply subseteq_size. set_solver. Qed.

Lemma unseen_visit l q v : free l q -> q ∉ v -> (unseen l ({[q]} ∪ v) < unseen l v)%nat.
Proof.
  intros Hf Hq. apply subset_size. apply elem_of_space in Hf. set_solver.
Qed.

Lemma dfs_explores fuel : forall l row col v,
  (unseen l v < fuel)%nat ->
  exists v', dfs fuel l row col v = Some v' /\ explored l (row, col) v v' /\
    forall y, walk l (row, col) y -> y ∈ v'.
Proof.
  induction fuel as [|fuel IH]; intros l row col v Hf; [lia|]. cbn [dfs].
  assert (Hvisit : forall o w, o ∈ offsets -> (unseen l w < S fuel)%nat ->
    exists w', visit (dfs fuel l) l row col o w = Some w' /\ explored l (row, col) w w' /\
      (free l (row + o.1, col + o.2) -> (row + o.1, col + o.2) ∈ w')).
  { intros o w Ho Hu. unfold visit. set (q := (row + o.1, col + o.2)).
    destruct (in_map l q && negb (bool_decide (q ∈ w)) && isEmptySpace l (row + o.1) (col + o.2)) eqn:Ec.
    - rewrite !andb_true_iff in Ec. destruct Ec as [[Hin Hnv] Hfree].
      apply negb_true_iff, bool_decide_eq_false in Hnv.
      destruct (IH l (row + o.1) (col + o.2) ({[q]} ∪ w)) as (w' & E & Hex & Hall);
        [pose proof (unseen_visit l q w Hfree Hnv); lia|].
      exists w'. split; [exact E|]. split; [|intros _; apply (ex_mono _ _ _ _ Hex); set_solver].
      eapply (explored_step _ _ q); [|exact Hex|exact Hall]. split; [by exists o|done].
    - exists w. split; [done|]. split; [apply explored_refl|]. intros Hfree.
      rewrite (free_in_map l q Hfree) in Ec. unfold free in Hfree. fold q in Ec. simpl in Hfree.
      rewrite Hfree, andb_true_r in Ec. simpl in Ec. apply negb_false_iff, bool_decide_eq_true in Ec. done. }
  destruct (Hvisit (-1, 0) v) as (v1 & -> & X1 & A1); [set_solver|lia|]. cbn [mbind option_bind].
  pose proof (unseen_mono l _ _ (ex_mono _ _ _ _ X1)).
  destruct (Hvisit (1, 0) v1) as (v2 & -> & X2 & A2); [set_solver|lia|]. cbn [mbind option_bind].
  pose proof (unseen_mono l _ _ (ex_mono _ _ _ _ X2)).
  destruct (Hvisit (0, -1) v2) as (v3 & -> & X3 & A3); [set_solver|lia|]. cbn [mbind option_bind].
  pose proof (unseen_mono l _ _ (ex_mono _ _ _ _ X3)).
  destruct (Hvisit (0, 1) v3) as (v4 & -> & X4 & A4); [set_solver|lia|].
  exists v4. split; [done|]. split; [eauto using explored_trans|].
  pose proof (ex_mono _ _ _ _ X2). pose proof (ex_mono _ _ _ _ X3). pose proof (ex_mono _ _ _ _ X4).
  intros y [[o [Ho ->]] Hy]. unfold offsets in Ho. simpl in *.
  rewrite !elem_of_cons in Ho.
  destruct Ho as [->|[->|[->|[->|Ho]]]]; [..|by apply elem_of_nil in Ho]; simpl in *; set_solver.
Qed.

Lemma adjacent_sym p q : adjacent p q -> adjacent q p.
Proof.
  intros (o & Ho & ->). exists (- o.1, - o.2). simpl. split.
  - unfold offsets in *. rewrite !elem_of_cons in *.
    destruct Ho as [->|[->|[->|[->|Ho]]]]; [..|by apply elem_of_nil in Ho]; simpl; tauto.
  - destruct p; simpl. f_equal; lia.
Qed.

Lemma walk_back l p q : free l p -> rtc (walk l) p q -> rtc (walk l) q p.
Proof.
  intros Hp Hr. revert Hp. induction Hr as [p|p x q [Ha Hx] Hr IH]; intros Hp; [done|].
  eapply rtc_r; [by apply IH|]. split; [by apply adjacent_sym|done].
Qed.

Lemma length_positions l : length (positions l) = (Z.to_nat l.(rows) * Z.to_nat l.(cols))%nat.
Proof.
  unfold positions. rewrite <- (length_seqZ 0 (rows l)) at 1.
  assert (forall cs : list Z, forall rs : list Z,
    length (r ← rs; c ← cs; [(r, c)]) = (length rs * length cs)%nat) as H.
  { intros cs rs. induction rs as [|r rs IH]; [done|]. rewrite bind_cons, length_app, IH.
    cbn [length Nat.mul]. f_equal. clear IH. induction cs as [|c cs IHc]; [done|].
    by rewrite bind_cons, length_app, IHc. }
  rewrite H, !length_seqZ. done.
Qed.

Lemma unseen_bound l v : (unseen l v <= Z.to_nat l.(rows) * Z.to_nat l.(cols))%nat.
Proof.
  rewrite <- length_positions. unfold unseen.
  transitivity (size (space l)); [apply subseteq_size; set_solver|].
  unfold space. transitivity (length (filter (fun p => isEmptySpace l p.1 p.2 = true) (positions l)));
    [|apply length_filter].
  generalize (filter (fun p => isEmptySpace l p.1 p.2 = true) (positions l)) as ps. intros ps.
  induction ps as [|p ps IH]; [done|]. cbn [length]. rewrite list_to_set_cons.
  transitivity (size ({[p]} : visited_t) + size (list_to_set ps : visited_t))%nat; [|rewrite size_singleton; lia].
  rewrite size_union_alt. pose proof (subseteq_size (list_to_set ps ∖ {[p]}) (list_to_set ps : visited_t) ltac:(set_solver)). lia.
Qed.

Lemma isConnected_spec l fuel :
  (Z.to_nat l.(rows) * Z.to_nat l.(cols) < fuel)%nat ->
  exists b, isConnected fuel l = Some b /\
    (b = true <-> (exists p, free l p) /\ forall p q, free l p -> free l q -> rtc (walk l) p q).
Proof.
  intros Hf. unfold isConnected, findFirstEmptySpace.
  pose proof (first_pos_spec (fun p => isEmptySpace l p.1 p.2) l) as Hs. cbv zeta in *.
  set (start := first_pos _ _) in *. destruct ((start.1 =? -1) && (start.2 =? -1)).
  { exists false. split; [done|]. split; [done|]. intros [[p Hp] _].
    pose proof (Hs p (free_in_map l p Hp)) as E. unfold free in Hp. congruence. }
  destruct Hs as [Hin Hst]. destruct (dfs_explores fuel l start.1 start.2 {[start]}) as (v & -> & Hex & Hnb);
    [pose proof (unseen_bound l {[start]}); lia|]. rewrite <- surjective_pairing in Hex, Hnb.
  cbn [mbind option_bind]. eexists. split; [done|].
  assert (forall p, rtc (walk l) start p -> p ∈ v) as Hall.
  { intros p Hr. apply rtc_nsteps in Hr as [n Hr]. revert p Hr. induction n as [|n IH]; intros p Hr.
    - inversion Hr; subst. apply (ex_mono _ _ _ _ Hex). set_solver.
    - apply nsteps_inv_r in Hr as (x & Hr & Hw). specialize (IH x Hr).
      destruct (decide (x = start)) as [->|]; [by apply Hnb|]. apply (ex_closed _ _ _ _ Hex x); [done|set_solver|done]. }
  rewrite forallb_forall. split.
  - intros H. assert (forall p, free l p -> rtc (walk l) start p) as Hreach.
    { intros p Hp. assert (In p (positions l)) as Hpi by (apply list_elem_of_In, elem_of_positions, free_in_map, Hp).
      specialize (H p Hpi). unfold free in Hp. rewrite Hp in H. simpl in H. rewrite negb_involutive in H.
      apply bool_decide_eq_true in H. destruct (ex_reach _ _ _ _ Hex p H) as [Hs|[_ Hr]]; [|done].
      apply elem_of_singleton in Hs as ->. apply rtc_refl. }
    split; [by exists start|]. intros p q Hp Hq. etransitivity; [apply walk_back, Hreach, Hp; done|by apply Hreach].
  - intros [_ H] p Hp. apply list_elem_of_In, elem_of_positions in Hp.
    destruct (isEmptySpace l p.1 p.2) eqn:Ep; [|done]. simpl. rewrite negb_involutive.
    apply bool_decide_eq_true, Hall, H; done.
Qed.

(** The cells one can stand on: those of the map with a [.] (46) or a player, which
    is one of the digits (48 to 57).  One step goes to a neighbour in a row or a
    column. *)
Definition open_cell (l : Labyrinth) (p : Position) : Prop :=
  0 <= p.1 < l.(rows) /\ 0 <= p.2 < l.(cols) /\ (cell l p.1 p.2 = 46 \/ 48 <= cell l p.1 p.2 <= 57).
Definition open_step (l : Labyrinth) (p q : Position) : Prop :=
  Z.abs (p.1 - q.1) + Z.abs (p.2 - q.2) = 1 /\ open_cell l q.

Lemma open_free l p : open_cell l p <-> free l p.
Proof.
  unfold open_cell, free, isEmptySpace, is_digit. destruct ((p.1 <? 0) || _ || _ || _) eqn:E; split; intros H; try done; lia.
Qed.

Lemma open_step_walk l p q : open_step l p q <-> walk l p q.
Proof.
  unfold open_step, walk. rewrite open_free. destruct p as [r c], q as [r' c']. cbn [fst snd]. split; intros [H Hf]; (split; [|done]).
  - unfold adjacent. cbn [fst snd]. exists (r' - r, c' - c). cbn [fst snd]. split; [|f_equal; lia].
    assert ((r' - r, c' - c) = (-1, 0) \/ (r' - r, c' - c) = (1, 0) \/ (r' - r, c' - c) = (0, -1) \/ (r' - r, c' - c) = (0, 1)) as Ho.
    { assert (r' - r = -1 /\ c' - c = 0 \/ r' - r = 1 /\ c' - c = 0 \/ r' - r = 0 /\ c' - c = -1 \/ r' - r = 0 /\ c' - c = 1) by lia. intuition congruence. }
    unfold offsets. rewrite !elem_of_cons. tauto.
  - destruct H as (o & Ho & [= -> ->]). unfold offsets in Ho. rewrite !elem_of_cons in Ho. cbn [fst snd] in *.
    destruct Ho as [->|[->|[->|[->|Ho%elem_of_nil]]]]; cbn [fst snd]; try done; lia.
Qed.

(** C33: a labyrinth is accepted as connected exactly when it has an open cell
    (a [.] or a player) and every open cell can be reached from every other by
    steps up, down, left and right through open cells; the depth of the
    recursion is at most the number of cells. *)
Theorem isConnected_correct l fuel :
  (Z.to_nat l.(rows) * Z.to_nat l.(cols) < fuel)%nat ->
  exists b, isConnected fuel l = Some b /\
    (b = true <-> (exists p, open_cell l p) /\ forall p q, open_cell l p -> open_cell l q -> rtc (open_step l) p q).
Proof.
  intros Hf. destruct (isConnected_spec l fuel Hf) as (b & Hb & H). exists b. split; [done|]. rewrite H.
  assert (forall p q, rtc (open_step l) p q <-> rtc (walk l) p q) as Hr.
  { intros p q. split; apply rtc_subrel; intros x y; apply open_step_walk. }
  setoid_rewrite open_free. setoid_rewrite Hr. done.
Qed.

(** ** Moving *)

Record lab_wf (l : Labyrinth) : Prop := LabWf {
  lw_len : length l.(map) = Z.to_nat (MAX_ROWS * MAX_COLS);
  lw_rows : 0 <= l.(rows) <= MAX_ROWS;
  lw_cols : 0 <= l.(cols) <= MAX_COLS;
}.

Lemma cell_index l p :
  lab_wf l -> in_map l p = true -> (Z.to_nat (p.1 * MAX_COLS + p.2) < length l.(map))%nat.
Proof.
  intros [Hlen Hr Hc] Hp. rewrite Hlen. unfold in_map, MAX_ROWS, MAX_COLS in *. lia.
Qed.

Lemma cell_set_eq l p v : lab_wf l -> in_map l p = true -> cell (set_cell l p.1 p.2 v) p.1 p.2 = v.
Proof.
  intros Hw Hp. unfold cell, set_cell. cbn [map]. rewrite nth_lookup, list_lookup_insert_eq; [done|].
  by apply cell_index.
Qed.

Lemma cell_set_ne l p q v :
  lab_wf l -> in_map l p = true -> in_map l q = true -> p <> q ->
  cell (set_cell l p.1 p.2 v) q.1 q.2 = cell l q.1 q.2.
Proof.
  intros [_ _ Hc] Hp Hq Hne. unfold cell, set_cell. cbn [map]. rewrite !nth_lookup, list_lookup_insert_ne; [done|].
  intros E. apply Hne. destruct p, q; unfold in_map, MAX_COLS in *; simpl in *. f_equal; nia.
Qed.

Lemma set_cell_wf l r c v : lab_wf l -> lab_wf (set_cell l r c v).
Proof. intros []. split; [|done..]. unfold set_cell. cbn [map]. by rewrite length_insert. Qed.

Lemma free_cell l p : in_map l p = true -> free l p <-> (cell l p.1 p.2 =? 46) || is_digit (cell l p.1 p.2) = true.
Proof.
  intros Hp. unfold free, isEmptySpace. unfold in_map in Hp. case_match; [lia|done].
Qed.

(** Where [movePlayer] starts from. *)
Definition startPos (l : Labyrinth) (playerId : Z) : Position :=
  let p := findPlayer l playerId in
  if (p.1 =? -1) && (p.2 =? -1) then findFirstEmptySpace l else p.

Lemma startPos_spec l id :
  isValidPlayer id = true ->
  let p := startPos l id in
  (p.1 =? -1) && (p.2 =? -1) = false ->
  free l p /\ ((exists q, in_map l q = true /\ cell l q.1 q.2 = id) -> cell l p.1 p.2 = id).
Proof.
  intros Hid. unfold startPos, findPlayer, findFirstEmptySpace.
  pose proof (first_pos_spec (fun p => cell l p.1 p.2 =? id) l) as H1. cbv zeta in *.
  set (p := first_pos (fun p => cell l p.1 p.2 =? id) _) in *. destruct ((p.1 =? -1) && (p.2 =? -1)) eqn:E1.
  - pose proof (first_pos_spec (fun p => isEmptySpace l p.1 p.2) l) as H2. cbv zeta in *.
    intros E2. rewrite E2 in H2. split; [apply H2|]. intros (q & Hq & Hc). specialize (H1 q Hq). simpl in H1. lia.
  - intros _. destruct H1 as [Hin Hc]. apply Z.eqb_eq in Hc. split; [|done]. apply free_cell; [done|].
    unfold isValidPlayer in Hid. rewrite Hc, Hid. apply orb_true_r.
Qed.

Lemma isConnected_free_ext l l' fuel :
  l'.(rows) = l.(rows) -> l'.(cols) = l.(cols) -> (forall p, free l' p <-> free l p) ->
  (Z.to_nat l.(rows) * Z.to_nat l.(cols) < fuel)%nat -> isConnected fuel l' = isConnected fuel l.
Proof.
  intros Er Ec Hfree Hf. destruct (isConnected_spec l fuel Hf) as (b & -> & Hb).
  destruct (isConnected_spec l' fuel) as (b' & -> & Hb'); [by rewrite Er, Ec|]. f_equal.
  assert (Hw : forall p q, walk l' p q <-> walk l p q) by (intros; unfold walk; by rewrite Hfree).
  assert (Hrtc : forall p q, rtc (walk l') p q <-> rtc (walk l) p q).
  { intros p q. split; intros H; (eapply rtc_subrel; [|exact H]); intros ???; by apply Hw. }
  apply eq_bool_prop_intro. rewrite !Is_true_true, Hb, Hb'. setoid_rewrite Hfree. setoid_rewrite Hrtc. done.
Qed.

(** Swapping a free cell and a [.] for a [.] and a player. *)
Lemma move_cells l p q id :
  lab_wf l -> is_digit id = true -> free l p -> in_map l q = true -> cell l q.1 q.2 = 46 -> p <> q ->
  let l' := set_cell (set_cell l p.1 p.2 46) q.1 q.2 id in
  lab_wf l' /\ (forall x, free l' x <-> free l x) /\ cell l' p.1 p.2 = 46 /\ cell l' q.1 q.2 = id /\
  (forall r, in_map l r = true -> r <> p -> r <> q -> cell l' r.1 r.2 = cell l r.1 r.2).
Proof.
  intros Hw Hid Hfp Hq Hcq Hne l'. pose proof (free_in_map l p Hfp) as Hp.
  assert (lab_wf (set_cell l p.1 p.2 46)) as Hw1 by by apply set_cell_wf.
  assert (lab_wf l') as Hw' by by apply set_cell_wf.
  assert (cell l' p.1 p.2 = 46) as Ep.
  { unfold l'. rewrite (cell_set_ne _ q p) by done. by apply cell_set_eq. }
  assert (cell l' q.1 q.2 = id) as Eq by by apply cell_set_eq.
  assert (forall r, in_map l r = true -> r <> p -> r <> q -> cell l' r.1 r.2 = cell l r.1 r.2) as Er.
  { intros r Hr ??. unfold l'. rewrite (cell_set_ne _ q r) by done. by apply cell_set_ne. }
  split_and!; [done| |done..]. intros x. destruct (in_map l x) eqn:Hx.
  - rewrite (free_cell l x Hx), (free_cell l' x Hx).
    destruct (decide (x = p)) as [->|]; [rewrite Ep, <- (free_cell l p Hp); tauto|].
    destruct (decide (x = q)) as [->|]; [rewrite Eq, Hid, Hcq, orb_true_r; tauto|]. by rewrite Er.
  - split; intros H%free_in_map; [change (in_map l' x) with (in_map l x) in H|]; congruence.
Qed.

(** A move.  A failed [movePlayer] changes nothing.  A successful one takes
    the player from its cell (the first free cell if it is not on the map) one
    step in the given direction onto a cell that held [.], and leaves [.] behind;
    no other cell changes, the free cells stay the same and so does the verdict
    of [isConnected]. *)
Theorem movePlayer_correct l id dir ok l' fuel :
  lab_wf l -> isValidPlayer id = true -> movePlayer l id dir = (ok, l') ->
  (Z.to_nat l.(rows) * Z.to_nat l.(cols) < fuel)%nat ->
  lab_wf l' /\ isConnected fuel l' = isConnected fuel l /\
  if ok then exists o, direction_of dir = Some o /\
      let p := startPos l id in
      let q := (p.1 + o.1, p.2 + o.2) in
      in_map l p = true /\ in_map l q = true /\ cell l q.1 q.2 = 46 /\
      cell l' p.1 p.2 = 46 /\ cell l' q.1 q.2 = id /\
      (forall r, in_map l r = true -> r <> p -> r <> q -> cell l' r.1 r.2 = cell l r.1 r.2)
  else l' = l.
Proof.
  intros Hw Hid Hmv Hf. revert Hmv. unfold movePlayer. fold (startPos l id). cbv zeta.
  pose proof (startPos_spec l id Hid) as Hs. cbv zeta in Hs.
  destruct (_ && _); [intros [= <- <-]; done|]. destruct (Hs eq_refl) as [Hfp _].
  destruct (direction_of dir) as [[dr dc]|] eqn:Ed; [|intros [= <- <-]; done].
  set (p := startPos l id) in *. set (q := (p.1 + dr, p.2 + dc)).
  destruct (_ || (cols l <=? p.2 + dc)) eqn:Eb; [intros [= <- <-]; done|].
  assert (in_map l q = true) as Hq by (unfold in_map, q; simpl; lia).
  destruct (negb _ || _) eqn:Eo; [intros [= <- <-]; done|]. intros [= <- <-].
  apply orb_false_iff in Eo as [Efree Edig]. apply negb_false_iff in Efree.
  assert (cell l q.1 q.2 = 46) as Hcq.
  { apply (free_cell l q Hq) in Efree. simpl in *. rewrite Edig in Efree. lia. }
  assert (p <> q) as Hne.
  { intros E. unfold direction_of in Ed. assert (p.1 = p.1 + dr /\ p.2 = p.2 + dc) as [? ?] by (rewrite E at 1 3; done).
    repeat case_match; simplify_eq; lia. }
  destruct (move_cells l p q id Hw Hid Hfp Hq Hcq Hne) as (Hw' & Hfree & Ep & Eq & Er).
  split; [exact Hw'|]. split; [by apply isConnected_free_ext|].
  exists (dr, dc). split; [done|]. split_and!; [by apply free_in_map|done..].
Qed.

(** ** Saving and loading *)

Lemma strlen_app s t : 0 ∉ s -> strlen (s ++ 0 :: t) = length s.
Proof.
  induction s as [|c s IH]; intros H; [done|]. rewrite not_elem_of_cons in H. destruct H as [Hc Hs].
  simpl. destruct (Z.eqb_spec c 0); [congruence|]. by rewrite IH.
Qed.

Lemma strlen_full s : 0 ∉ s -> strlen s = length s.
Proof.
  induction s as [|c s IH]; intros H; [done|]. rewrite not_elem_of_cons in H. destruct H as [Hc Hs].
  simpl. destruct (Z.eqb_spec c 0); [congruence|]. by rewrite IH.
Qed.

Lemma strlen_no_zero s : 0 ∉ take (strlen s) s.
Proof.
  induction s as [|c s IH]; simpl; [apply not_elem_of_nil|].
  destruct (Z.eqb_spec c 0); simpl; [apply not_elem_of_nil|]. rewrite not_elem_of_cons. done.
Qed.

Lemma fgets_line n s rest : 10 ∉ s -> (length s < n)%nat -> fgets n (s ++ 10 :: rest) = (s ++ [10], rest).
Proof.
  revert s. induction n as [|n IH]; intros [|c s] Hs Hn; simpl in *; try lia; [done|].
  rewrite not_elem_of_cons in Hs. destruct Hs as [Hc Hs]. destruct (Z.eqb_spec c 10); [congruence|].
  rewrite IH by (done || lia). done.
Qed.

Lemma strncpy_line s n : 0 ∉ s -> (length s < n)%nat -> strncpy (s ++ [0]) n = s ++ replicate (n - length s) 0.
Proof.
  intros Hs Hn. unfold strncpy. rewrite strlen_app by done. rewrite take_app_length.
  by rewrite take_ge by lia.
Qed.

(** A store at one index leaves the other rows alone. *)
Lemma chunk_insert_ne es i j v (m : list Z) :
  (j < i * es \/ i * es + es <= j)%nat -> chunk es i (<[j := v]> m) = chunk es i m.
Proof.
  intros H. unfold chunk. apply list_eq. intros k. destruct (decide (k < es)%nat); [|by rewrite !lookup_take_ge by lia].
  rewrite !lookup_take_lt, !lookup_drop by done. apply list_lookup_insert_ne. lia.
Qed.

(** One line of a saved map. *)
Lemma load_row fuel m row s rest :
  length m = Z.to_nat (MAX_ROWS * MAX_COLS) -> 0 <= row < MAX_ROWS ->
  0 ∉ s -> 10 ∉ s -> (length s < 100)%nat ->
  exists m', load_rows (S fuel) m row (s ++ 10 :: rest) = load_rows fuel m' (row + 1) rest /\
    length m' = Z.to_nat (MAX_ROWS * MAX_COLS) /\
    chunk 100 (Z.to_nat row) m' = s ++ replicate (100 - length s) 0 /\
    (forall i, (i < Z.to_nat row)%nat -> chunk 100 i m' = chunk 100 i m).
Proof.
  intros Hm Hrow H0 H10 Hs. cbn [load_rows]. change (Z.to_nat MAX_COLS + 1)%nat with 101%nat.
  rewrite fgets_line by (done || lia). destruct (s ++ [10]) as [|c0 line] eqn:El; [by destruct s|].
  rewrite <- El. clear El c0 line.
  assert (strlen (s ++ [10]) = S (length s)) as ->.
  { rewrite strlen_full; [rewrite length_app; simpl; lia|]. rewrite elem_of_app, list_elem_of_singleton. naive_solver lia. }
  cbn [Nat.ltb Nat.leb]. replace (S (length s) - 1)%nat with (length s) by lia.
  rewrite app_nth2, Nat.sub_diag by lia. cbn [nth Z.eqb Pos.eqb andb].
  rewrite insert_app_r_alt, Nat.sub_diag by lia. cbn [insert list_insert].
  unfold MAX_COLS, MAX_ROWS in *.
  assert ((100 <? Z.of_nat (S (length s))) = false) as -> by (apply Z.ltb_ge; lia). assert ((100 <=? row) = false) as -> by lia.
  cbv zeta. set (m1 := list_inserts _ _ m). eexists. split; [reflexivity|].
  set (r := Z.to_nat row). assert (Z.to_nat (row * 100) = (r * 100)%nat) as Er by (unfold r; lia).
  assert (length m1 = length m) as Hm1 by (unfold m1; by rewrite length_inserts).
  assert (length (s ++ replicate (100 - length s) 0) = 100%nat) as Hl by (rewrite length_app, length_replicate; lia).
  assert (chunk 100 r m1 = s ++ replicate (100 - length s) 0) as Hc.
  { unfold m1. rewrite strncpy_line by (done || lia). rewrite Er.
    apply (chunk_store_eq 100 r 100); [rewrite Hm; lia|unfold r; lia|done]. }
  split; [by rewrite length_insert, Hm1|]. rewrite Er. split.
  - destruct (decide (S (length s) < 100)%nat); [|by rewrite chunk_insert_ne by lia].
    rewrite list_insert_id; [done|].
    assert (chunk 100 r m1 !! S (length s) = Some 0) as E.
    { rewrite Hc, lookup_app_r by lia. apply lookup_replicate_2. lia. }
    unfold chunk in E. rewrite lookup_take_lt, lookup_drop in E by lia. exact E.
  - intros i Hi. rewrite chunk_insert_ne by nia. unfold m1. rewrite strncpy_line by (done || lia). rewrite Er.
    apply chunk_store_ne; [lia|done].
Qed.

Definition join_lines (ls : list (list Z)) : list Z := s ← ls; s ++ [10].

Definition line_ok (s : list Z) : Prop := 0 ∉ s /\ 10 ∉ s /\ (length s < 100)%nat.

Lemma load_lines ls : forall fuel m row,
  length m = Z.to_nat (MAX_ROWS * MAX_COLS) -> 0 <= row -> row + Z.of_nat (length ls) <= MAX_ROWS ->
  Forall line_ok ls -> (length ls < fuel)%nat ->
  exists m', load_rows fuel m row (join_lines ls) = Some (m', row + Z.of_nat (length ls)) /\
    length m' = Z.to_nat (MAX_ROWS * MAX_COLS) /\
    (forall i s, ls !! i = Some s -> chunk 100 (Z.to_nat row + i) m' = s ++ replicate (100 - length s) 0) /\
    (forall i, (i < Z.to_nat row)%nat -> chunk 100 i m' = chunk 100 i m).
Proof.
  induction ls as [|s ls IH]; intros fuel m row Hm Hrow Hmax Hok Hf.
  - destruct fuel as [|fuel]; [simpl in Hf; lia|]. exists m. simpl. rewrite Z.add_0_r. split_and!; try done.
  - destruct fuel as [|fuel]; [lia|]. apply Forall_cons in Hok as [(H0 & H10 & Hs) Hok].
    cbn [length] in Hf, Hmax. change (join_lines (s :: ls)) with ((s ++ [10]) ++ join_lines ls).
    rewrite <- app_assoc. cbn [app].
    destruct (load_row fuel m row s (join_lines ls)) as (m1 & -> & Hm1 & Hc & Hfr); [done|lia|done..|].
    destruct (IH fuel m1 (row + 1) Hm1) as (m' & -> & Hm' & Hcs & Hfr'); [lia|lia|done|lia|].
    exists m'. split_and!; [do 2 f_equal; cbn [length]; lia|done|..].
    + intros [|i] s' Hi; simpl in Hi.
      * injection Hi as <-. rewrite Nat.add_0_r, Hfr', Hc by lia. done.
      * replace (Z.to_nat row + S i)%nat with (Z.to_nat (row + 1) + i)%nat by lia. by apply Hcs.
    + intros i Hi. rewrite Hfr', Hfr by lia. done.
Qed.

(** A rectangular map whose rows are strings of [cols] characters. *)
Record rect (l : Labyrinth) : Prop := Rect {
  rc_wf : lab_wf l;
  rc_rows : 1 <= l.(rows);
  rc_cols : l.(cols) < MAX_COLS;
  rc_row : forall r, 0 <= r < l.(rows) -> Z.of_nat (length (row_string l r)) = l.(cols) /\ 10 ∉ row_string l r;
}.

Lemma chunk_prefix m i s : chunk 100 i m = s ++ replicate (100 - length s) 0 -> (length s < 100)%nat ->
  exists t, drop (i * 100) m = s ++ 0 :: t.
Proof.
  intros Hc Hs. unfold chunk in Hc. rewrite <- (take_drop 100 (drop (i * 100) m)), Hc.
  destruct (100 - length s)%nat as [|k] eqn:E; [lia|]. eexists. rewrite <- app_assoc. simpl. reflexivity.
Qed.

Lemma row_string_chunk l r s :
  0 <= r -> chunk 100 (Z.to_nat r) l.(map) = s ++ replicate (100 - length s) 0 -> 0 ∉ s -> (length s < 100)%nat ->
  row_string l r = s /\ forall c, 0 <= c < Z.of_nat (length s) -> cell l r c = nth (Z.to_nat c) s 0.
Proof.
  intros Hr Hc H0 Hs. destruct (chunk_prefix _ _ _ Hc Hs) as [t Et]. unfold row_string, cell, MAX_COLS.
  replace (Z.to_nat (r * 100)) with (Z.to_nat r * 100)%nat by lia. rewrite Et. split.
  - by rewrite strlen_app, take_app_length.
  - intros c Hcr. replace (Z.to_nat (r * 100 + c)) with (Z.to_nat r * 100 + Z.to_nat c)%nat by lia.
    rewrite !nth_lookup, <- lookup_drop, Et, lookup_app_l by lia. done.
Qed.

Lemma cell_row_string l r c :
  0 <= r -> 0 <= c < Z.of_nat (length (row_string l r)) -> cell l r c = nth (Z.to_nat c) (row_string l r) 0.
Proof.
  intros Hr Hc. unfold cell, row_string in *. set (s := drop _ _) in *.
  replace (Z.to_nat (r * MAX_COLS + c)) with (Z.to_nat (r * MAX_COLS) + Z.to_nat c)%nat by (unfold MAX_COLS; lia).
  rewrite !nth_lookup, <- lookup_drop. fold s. rewrite length_take in Hc. by rewrite lookup_take_lt by lia.
Qed.

(** A saved labyrinth loads back.  The file [saveMap] writes for a connected
    rectangular labyrinth of at most 99 columns is accepted by [loadMap], which
    gives the same rows and columns and the same cells, whatever the memory held
    before. *)
Theorem save_load_roundtrip l m0 fuel :
  rect l -> length m0 = Z.to_nat (MAX_ROWS * MAX_COLS) ->
  (Z.to_nat l.(rows) * Z.to_nat l.(cols) < fuel)%nat -> isConnected fuel l = Some true ->
  exists l', loadMap fuel m0 (saveMap l) = Some l' /\ l'.(rows) = l.(rows) /\ l'.(cols) = l.(cols) /\
    forall r c, in_map l (r, c) = true -> cell l' r c = cell l r c.
Proof.
  intros [Hwf Hrows Hcols Hrow] Hm0 Hf Hcon. set (ls := row_string l <$> seqZ 0 l.(rows)).
  assert (saveMap l = join_lines ls) as ->.
  { unfold saveMap, join_lines, ls. generalize (seqZ 0 (rows l)) as rs. intros rs.
    induction rs as [|r rs IH]; [done|]. rewrite fmap_cons, !bind_cons, IH. done. }
  assert (Z.of_nat (length ls) = l.(rows)) as Hlen by (unfold ls; rewrite length_fmap, length_seqZ; lia).
  assert (forall r, 0 <= r < l.(rows) -> line_ok (row_string l r)) as Hok.
  { intros r Hr. destruct (Hrow r Hr) as [El H10]. split_and!; [apply strlen_no_zero|done|].
    unfold MAX_COLS in Hcols. lia. }
  destruct (load_lines ls (S (length (join_lines ls))) m0 0 Hm0) as (m' & Eload & Hm' & Hc & _).
  { lia. } { rewrite Hlen. apply Hwf. }
  { apply Forall_forall. intros s (r & -> & Hr)%list_elem_of_fmap. apply elem_of_seqZ in Hr. apply Hok. lia. }
  { unfold join_lines. clear. induction ls as [|s ls IH]; [simpl; lia|].
    rewrite bind_cons, !length_app. cbn [length] in *. lia. }
  unfold loadMap. rewrite Eload. cbn [mbind option_bind]. rewrite Z.add_0_l, Hlen.
  assert (forall r, 0 <= r < l.(rows) ->
    chunk 100 (Z.to_nat r) m' = row_string l r ++ replicate (100 - length (row_string l r)) 0) as Hch.
  { intros r Hr. specialize (Hc (Z.to_nat r) (row_string l r)). apply Hc. unfold ls.
    rewrite list_lookup_fmap, (lookup_seqZ_lt 0 (rows l) (Z.to_nat r)) by lia. simpl. do 2 f_equal. lia. }
  set (l' := Lab m' (rows l) _).
  assert (l'.(cols) = l.(cols)) as Ec.
  { unfold l'. cbn [cols]. destruct (chunk_prefix m' 0 _ (Hch 0 ltac:(lia))) as [t Et];
      [apply Hok; lia|]. cbn [Nat.mul] in Et. rewrite drop_0 in Et. rewrite Et, strlen_app;
      [apply Hrow; lia|apply Hok; lia]. }
  assert (forall r c, in_map l (r, c) = true -> cell l' r c = cell l r c) as Ecell.
  { intros r c Hin. unfold in_map in Hin. simpl in Hin. destruct (Hok r ltac:(lia)) as (H0 & _ & Hs).
    destruct (Hrow r ltac:(lia)) as [El _]. rewrite (cell_row_string l r c) by lia.
    apply (row_string_chunk l' r); [lia|apply Hch; lia|done..|lia]. }
  exists l'. rewrite (isConnected_free_ext l l' fuel eq_refl Ec); [rewrite Hcon; done| |done].
  intros [r c]. assert (in_map l' (r, c) = in_map l (r, c)) as Ein by (unfold in_map; by rewrite Ec).
  destruct (in_map l (r, c)) eqn:Hin.
  - rewrite (free_cell l' (r, c) Ein), (free_cell l (r, c) Hin). simpl. by rewrite Ecell.
  - split; intros H%free_in_map; congruence.
Qed.

(** ** A small labyrinth

<<
    #.#
    .01
>> *)
Definition demo : Labyrinth :=
  Lab ([35; 46; 35] ++ replicate 97 0 ++ [46; 48; 49] ++ replicate 97 0 ++ replicate (98 * 100) 0) 2 3.

Lemma demo_wf : lab_wf demo.
Proof. split; [vm_compute; reflexivity|unfold MAX_ROWS; simpl; lia|unfold MAX_COLS; simpl; lia]. Defined.

Lemma demo_rect : rect demo.
Proof.
  split; [apply demo_wf|simpl; lia|unfold MAX_COLS; simpl; lia|].
  intros r Hr. simpl in Hr. assert (r = 0 \/ r = 1) as [-> | ->] by lia.
  - split; [vm_compute; reflexivity|]. change (row_string demo 0) with [35; 46; 35]. set_solver by lia.
  - split; [vm_compute; reflexivity|]. change (row_string demo 1) with [46; 48; 49]. set_solver by lia.
Defined.

Lemma isConnected_correct_witness :
  isConnected 10 demo = Some true /\ rtc (open_step demo) (1, 2) (0, 1).
Proof.
  destruct (isConnected_correct demo 10) as (b & E & Hb); [simpl; lia|].
  assert (isConnected 10 demo = Some true) as E' by (vm_compute; reflexivity).
  split; [exact E'|]. rewrite E' in E. injection E as <-. apply Hb; [reflexivity| |]; vm_compute; intuition congruence.
Defined.

Lemma movePlayer_correct_witness :
  cell (movePlayer demo 48 "left").2 1 0 = 48 /\ lab_wf (movePlayer demo 48 "left").2.
Proof.
  destruct (movePlayer_correct demo 48 "left" true (movePlayer demo 48 "left").2 10) as (Hw & _ & o & Ed & H);
    [apply demo_wf|vm_compute; reflexivity|vm_compute; reflexivity|simpl; lia|].
  injection Ed as <-. split; [|exact Hw]. exact (proj1 (proj2 (proj2 (proj2 (proj2 H))))).
Defined.

Lemma save_load_roundtrip_witness :
  exists l', loadMap 10 (replicate (100 * 100) 7) (saveMap demo) = Some l' /\ l'.(cols) = 3.
Proof.
  destruct (save_load_roundtrip demo (replicate (100 * 100) 7) 10) as (l' & E & _ & Ec & _);
    [apply demo_rect|vm_compute; reflexivity|simpl; lia|vm_compute; reflexivity|].
  exists l'. exact (conj E Ec).
Defined.

(** A player who is not on the map starts at the first free cell even when
    another player stands there, and that player is erased. *)
Example newcomer_erases_player :
  let l := Lab ([48; 46] ++ replicate 98 0 ++ replicate (99 * 100) 0) 1 2 in
  let '(ok, l') := movePlayer l 50 "right" in
  ok = true /\ findPlayer l 48 = (0, 0) /\ findPlayer l' 48 = (-1, -1).
Proof. vm_compute. done. Qed.

(** A row of [MAX_COLS] characters that ends in a newline is refused. *)
Example full_width_row_refused :
  load_rows 5 (replicate (100 * 100) 0) 0 (replicate 100 46 ++ [10]) = None.
Proof. vm_compute. done. Qed.
