(* ===== verification/Pstree.v ===== *)
(** * The process tree printer (os2025/pstree/pstree.c).

    The program reads the entries of /proc, builds one node per process in a hash
    table, links every node to its parent through first-child and next-sibling
    pointers, and prints the tree under process 1, in table order or sorted by
    process id.  A pointer to a node is an index into the list of nodes that
    [malloc] returned ([heap]); the files and the directory are parameters, of which
    [process], [stat_text] and [proc_entry] give what proc(5) documents.
    Allocation does not fail.  What is printed is the list of the arguments of
    [printf], already formatted. *)

From Stdlib Require Import Ascii.
From stdpp Require Import pretty sorting.
From S2P Require Import Prelude.

Local Open Scope string_scope.
Local Open Scope Z_scope.

(** ** Data *)

Record ProcessNode := PNode {
  pid : Z; ppid : Z; name : string;
  parent : option nat; children : option nat; sibling : option nat;
}.

(** A bucket is the chain of its [HashNode]s. *)
Record HashTable := HT { buckets : list (list (Z * nat)); ht_size : Z }.

Definition HASH_TABLE_SIZE : Z := 1024.

(** ** Strings of the C library *)

Definition isdigit (c : Ascii.ascii) : bool :=
  (48 <=? Z.of_nat (Ascii.nat_of_ascii c)) && (Z.of_nat (Ascii.nat_of_ascii c) <=? 57).
Definition isspace (c : Ascii.ascii) : bool :=
  let n := Z.of_nat (Ascii.nat_of_ascii c) in (n =? 32) || ((9 <=? n) && (n <=? 13)).

Fixpoint strchr (s : string) (c : Ascii.ascii) : option nat :=
  match s with
  | "" => None
  | String x s => if decide (x = c) then Some O else S <$> strchr s c
  end.

Fixpoint skip (f : Ascii.ascii -> bool) (s : string) : string :=
  match s with
  | "" => ""
  | String x s' => if f x then skip f s' else s
  end.

Fixpoint str_drop (n : nat) (s : string) : string :=
  match n, s with
  | S n, String _ s => str_drop n s
  | _, _ => s
  end.

Fixpoint str_take (n : nat) (s : string) : string :=
  match n, s with
  | S n, String x s => String x (str_take n s)
  | _, _ => ""
  end.

Fixpoint digits (acc : Z) (s : string) : Z :=
  match s with
  | "" => acc
  | String x s => if isdigit x then digits (acc * 10 + (Z.of_nat (Ascii.nat_of_ascii x) - 48)) s else acc
  end.

(** [atoi], for values an [int] holds. *)
Definition atoi (s : string) : Z :=
  match skip isspace s with
  | String "-"%char s => - digits 0 s
  | String "+"%char s => digits 0 s
  | s => digits 0 s
  end.

(** [fgets] into [n] bytes: the rest of the line, with its newline, or [n - 1]
    characters of it; [None] at the end of the file. *)
Fixpoint line_of (n : nat) (s : string) : string :=
  match n, s with
  | S n, String x s => if decide (x = Ascii.ascii_of_nat 10) then String x "" else String x (line_of n s)
  | _, _ => ""
  end.
Definition fgets_buf (n : nat) (s : string) : option string :=
  match s with "" => None | _ => Some (line_of (n - 1) s) end.

(** ** The functions of the program *)

Fixpoint is_numeric (s : string) : bool :=
  match s with
  | "" => true
  | String x s => if negb (isdigit x) then false else is_numeric s
  end.

Definition create_hash_table (size : Z) : HashTable := HT (replicate (Z.to_nat size) []) size.

(** [pid % ht->size] is computed on [size_t]. *)
Definition hash_index (ht : HashTable) (p : Z) : nat := Z.to_nat (u64 p `mod` ht.(ht_size)).

Definition hash_table_insert (ht : HashTable) (p : Z) (process : nat) : HashTable :=
  let index := hash_index ht p in
  HT (alter (cons (p, process)) index ht.(buckets)) ht.(ht_size).

Fixpoint chain_lookup (chain : list (Z * nat)) (p : Z) : option nat :=
  match chain with
  | [] => None
  | (q, process) :: chain => if q =? p then Some process else chain_lookup chain p
  end.

Definition hash_table_lookup (ht : HashTable) (p : Z) : option nat :=
  chain_lookup (default [] (ht.(buckets) !! hash_index ht p)) p.

(** [file] is the contents of /proc/<pid>/stat, if it can be opened. *)
Definition read_process_info (file : option string) (name_size : nat) : option (Z * string) :=
  contents ← file;
  buffer ← fgets_buf 1024 contents;
  start ← strchr buffer "("%char;
  end_ ← strchr buffer ")"%char;
  if (end_ <=? start)%nat then None
  else
    let start := S start in
    let name_len := (end_ - start)%nat in
    let name_len := if (name_size - 1 <? name_len)%nat then (name_size - 1)%nat else name_len in
    let name := str_take name_len (str_drop start buffer) in
    let p := skip (fun c => bool_decide (c = " "%char)) (str_drop (end_ + 1) buffer) in
    match p with
    | "" => None
    | String _ p => Some (atoi (skip (fun c => bool_decide (c = " "%char)) p), name)
    end.

(** An entry of the directory: whether it is a directory, and its name. *)
Definition dirent : Type := bool * string.

Section Main.
Context (stat_file : Z -> option string).

(** The body of the loop over /proc. *)
Definition read_entry (e : dirent) (st : list ProcessNode * HashTable) : list ProcessNode * HashTable :=
  let '(heap, ht) := st in
  if e.1 && is_numeric e.2 then
    let p := atoi e.2 in
    match read_process_info (stat_file p) 256 with
    | None => st
    | Some (pp, nm) => ((heap ++ [PNode p pp (str_take 255 nm) None None None])%list, hash_table_insert ht p (length heap))
    end
  else st.

Definition read_proc (entries : list dirent) : list ProcessNode * HashTable :=
  foldl (fun st e => read_entry e st) ([], create_hash_table HASH_TABLE_SIZE) entries.
End Main.

(** The stores of the linking loop. *)
Definition set_parent (v : nat) (n : ProcessNode) : ProcessNode :=
  PNode n.(pid) n.(ppid) n.(name) (Some v) n.(children) n.(sibling).
Definition set_sibling (v : option nat) (n : ProcessNode) : ProcessNode :=
  PNode n.(pid) n.(ppid) n.(name) n.(parent) n.(children) v.
Definition set_children (v : nat) (n : ProcessNode) : ProcessNode :=
  PNode n.(pid) n.(ppid) n.(name) n.(parent) (Some v) n.(sibling).

(** The body of the linking loop, with the message on [stderr]. *)
Definition link_node (ht : HashTable) (k : nat) (st : list ProcessNode * list string) : list ProcessNode * list string :=
  let '(heap, err) := st in
  match heap !! k with
  | None => st
  | Some node =>
      if negb (node.(ppid) =? 0) then
        match hash_table_lookup ht node.(ppid) with
        | Some j =>
            let heap := alter (set_parent j) k heap in
            let heap := alter (set_sibling (heap !! j ≫= children)) k heap in
            let heap := alter (set_children k) j heap in
            (heap, err)
        | None => (heap, (err ++ ["找不到父进程" +:+ pretty node.(ppid) +:+ "(子进程" +:+ pretty node.(pid) +:+ ")
"])%list)
        end
      else st
  end.

Definition link_all (ht : HashTable) (heap : list ProcessNode) : list ProcessNode * list string :=
  foldl (fun st hn => link_node ht hn.2 st) (heap, []) (concat ht.(buckets)).

(** The siblings from a pointer on. *)
Fixpoint siblings (fuel : nat) (heap : list ProcessNode) (child : option nat) : option (list nat) :=
  match child with
  | None => Some []
  | Some c =>
      match fuel with
      | O => None
      | S fuel => n ← heap !! c; l ← siblings fuel heap n.(sibling); Some (c :: l)
      end
  end.

(** The text before a node at a depth. *)
Fixpoint indent (depth : nat) (is_last : bool) : list string :=
  match depth with
  | O => []
  | S i => (if (i =? 0)%nat then (if is_last then "'--" else "|--") else "    ") :: indent i is_last
  end.

Definition label (n : ProcessNode) : string := n.(name) +:+ "(" +:+ pretty n.(pid) +:+ ")
".

(** [qsort] with [compare_pid]. *)
Definition compare_pid (a b : Z * nat) : Prop := a.1 - b.1 <= 0.
#[export] Instance compare_pid_dec a b : Decision (compare_pid a b).
Proof. unfold compare_pid. apply _. Defined.

(** The array [sort_children] returns. *)
Definition sort_children (heap : list ProcessNode) (node : ProcessNode) : option (list nat) :=
  l ← siblings (length heap) heap node.(children);
  arr ← mapM (fun c => n ← heap !! c; Some (n.(pid), c)) l;
  Some (snd <$> merge_sort compare_pid arr).

(** The loop that prints the children of a node, in the order of [l]. *)
Definition print_each (f : nat -> bool -> option (list string)) : list nat -> option (list string) :=
  fix go l :=
    match l with
    | [] => Some []
    | c :: l =>
        a ← f c (match l with [] => true | _ => false end);
        b ← go l;
        Some (a ++ b)%list
    end.

Fixpoint print_node (fuel : nat) (heap : list ProcessNode) (k depth : nat) (is_last : bool) : option (list string) :=
  match fuel with
  | O => None
  | S fuel =>
      node ← heap !! k;
      l ← siblings (length heap) heap node.(children);
      rest ← print_each (fun c last => print_node fuel heap c (depth + 1) last) l;
      Some (indent depth is_last ++ [label node] ++ rest)%list
  end.

Fixpoint print_node_sorted (fuel : nat) (heap : list ProcessNode) (k depth : nat) (is_last : bool) : option (list string) :=
  match fuel with
  | O => None
  | S fuel =>
      node ← heap !! k;
      sorted_child ← sort_children heap node;
      rest ← print_each (fun c last => print_node_sorted fuel heap c (depth + 1) last) sorted_child;
      Some (indent depth is_last ++ [label node] ++ rest)%list
  end.

Definition print_process_tree (fuel : nat) (heap : list ProcessNode) (root : nat) : option (list string) :=
  node ← heap !! root;
  l ← siblings (length heap) heap node.(children);
  rest ← print_each (fun c last => print_node fuel heap c 1 last) l;
  Some (label node :: rest).

Definition print_process_tree_sorted (fuel : nat) (heap : list ProcessNode) (root : nat) : option (list string) :=
  node ← heap !! root;
  sorted_child ← sort_children heap node;
  rest ← print_each (fun c last => print_node_sorted fuel heap c 1 last) sorted_child;
  Some (label node :: rest).

(** The nodes [free_resources] frees. *)
Definition free_resources (ht : HashTable) : list nat := snd <$> concat ht.(buckets).

(** [main] after the directory was read; the fuel bounds the depth of the tree. *)
Definition pstree_main (stat_file : Z -> option string) (sorted : bool) (entries : list dirent)
    : option (list string * list string) :=
  let '(heap, ht) := read_proc stat_file entries in
  let '(heap, err) := link_all ht heap in
  match hash_table_lookup ht 1 with
  | None => Some ([], err)
  | Some root =>
      out ← (if sorted then print_process_tree_sorted else print_process_tree) (length heap) heap root;
      Some (out, err)
  end.

(** ** The hash table *)

(** What the table holds: every node under its process id. *)
Definition entries_of (heap : list ProcessNode) : list (Z * nat) := imap (fun k n => (n.(pid), k)) heap.

Record table_ok (heap : list ProcessNode) (ht : HashTable) : Prop := {
  tb_size : ht.(ht_size) = HASH_TABLE_SIZE;
  tb_len : length ht.(buckets) = Z.to_nat HASH_TABLE_SIZE;
  tb_perm : concat ht.(buckets) ≡ₚ entries_of heap;
  tb_index i chain x : ht.(buckets) !! i = Some chain -> x ∈ chain -> hash_index ht x.1 = i;
  tb_fresh n : n ∈ heap -> n.(parent) = None /\ n.(children) = None /\ n.(sibling) = None;
}.

Lemma hash_index_lt heap ht p : table_ok heap ht -> (hash_index ht p < length ht.(buckets))%nat.
Proof.
  intros Ht. rewrite (tb_len _ _ Ht). unfold hash_index. rewrite (tb_size _ _ Ht). unfold HASH_TABLE_SIZE.
  pose proof (Z.mod_pos_bound (u64 p) 1024). lia.
Qed.

Lemma concat_alter_cons {A} (x : A) i (l : list (list A)) : (i < length l)%nat ->
  concat (alter (cons x) i l) ≡ₚ x :: concat l.
Proof.
  revert i. induction l as [|a l IH]; intros i Hi; [simpl in Hi; lia|]. destruct i as [|i]; cbn; [done|].
  rewrite IH by (simpl in Hi; lia). by rewrite Permutation_middle.
Qed.

Lemma table_insert heap ht n : table_ok heap ht -> n.(parent) = None /\ n.(children) = None /\ n.(sibling) = None ->
  table_ok (heap ++ [n]) (hash_table_insert ht n.(pid) (length heap)).
Proof.
  intros Ht Hn. pose proof (hash_index_lt heap ht n.(pid) Ht) as Hi. unfold hash_table_insert. constructor; cbn [buckets ht_size].
  - apply Ht.
  - rewrite length_alter. apply Ht.
  - rewrite concat_alter_cons by done. rewrite (tb_perm _ _ Ht). unfold entries_of. rewrite imap_app. cbn.
    rewrite Nat.add_0_r. by rewrite Permutation_cons_append.
  - intros i chain x Hlk Hx. change (hash_index (HT _ (ht_size ht)) x.1) with (hash_index ht x.1).
    destruct (decide (hash_index ht n.(pid) = i)) as [E|Hne].
    + rewrite E, list_lookup_alter_eq in Hlk. destruct (buckets ht !! i) as [c|] eqn:Ec; [|done]. simplify_eq/=.
      apply elem_of_cons in Hx as [->|Hx]; [done|]. by eapply tb_index.
    + rewrite list_lookup_alter_ne in Hlk by done. by eapply tb_index.
  - intros n' [Hn'|Hn']%elem_of_app; [by eapply tb_fresh|]. apply list_elem_of_singleton in Hn' as ->. done.
Qed.

Lemma read_proc_ok stat_file entries :
  table_ok (read_proc stat_file entries).1 (read_proc stat_file entries).2.
Proof.
  unfold read_proc. assert (table_ok [] (create_hash_table HASH_TABLE_SIZE)) as H0.
  { constructor; cbn [buckets create_hash_table].
    - done.
    - by rewrite length_replicate.
    - generalize (Z.to_nat HASH_TABLE_SIZE). intros m. induction m; done.
    - intros i chain x Hl. apply lookup_replicate in Hl as [-> _]. intros Hx. by apply elem_of_nil in Hx.
    - intros n Hn. by apply elem_of_nil in Hn. }
  revert H0. generalize (@nil ProcessNode) (create_hash_table HASH_TABLE_SIZE). induction entries as [|e entries IH]; intros heap ht Ht; [done|].
  cbn [foldl]. unfold read_entry at 2 4. destruct (e.1 && is_numeric e.2); [|by apply IH].
  destruct (read_process_info _ _) as [[pp nm]|]; [|by apply IH]. apply IH.
  set (n := PNode (atoi e.2) pp (str_take 255 nm) None None None). change (atoi e.2) with n.(pid). by apply table_insert.
Qed.

Lemma entries_of_elem heap p k : (p, k) ∈ entries_of heap <-> exists n, heap !! k = Some n /\ n.(pid) = p.
Proof.
  unfold entries_of. rewrite list_elem_of_lookup. setoid_rewrite list_lookup_imap. split.
  - intros (i & Hi). destruct (heap !! i) as [n|] eqn:E; [|done]. simplify_eq/=. eauto.
  - intros (n & Hn & <-). exists k. by rewrite Hn.
Qed.

Lemma chain_lookup_elem chain p : match chain_lookup chain p with
                                  | Some k => (p, k) ∈ chain
                                  | None => forall k, (p, k) ∉ chain
                                  end.
Proof.
  induction chain as [|[q j] chain IH]; cbn [chain_lookup]; [intros k; apply not_elem_of_nil|].
  destruct (Z.eqb_spec q p) as [->|Hne]; [apply list_elem_of_here|]. destruct (chain_lookup chain p) as [k|].
  - by apply elem_of_cons; right.
  - intros k [?|?]%elem_of_cons; [congruence|]. by eapply IH.
Qed.

(** The table finds the node of a process id. *)
Lemma lookup_spec heap ht p k : table_ok heap ht -> NoDup (pid <$> heap) ->
  hash_table_lookup ht p = Some k <-> exists n, heap !! k = Some n /\ n.(pid) = p.
Proof.
  intros Ht Hnd. unfold hash_table_lookup.
  destruct (lookup_lt_is_Some_2 _ _ (hash_index_lt heap ht p Ht)) as [chain Hc]. rewrite Hc. cbn [default from_option id].
  assert (forall j, (p, j) ∈ chain <-> exists n, heap !! j = Some n /\ n.(pid) = p) as Hch.
  { intros j. rewrite <- entries_of_elem, <- (tb_perm _ _ Ht). rewrite (list_elem_of_In (concat _)), in_concat. setoid_rewrite <- list_elem_of_In. split.
    - intros Hj. exists chain. split; [by eapply list_elem_of_lookup_2|done].
    - intros (c & [i Hi]%list_elem_of_lookup & Hj). pose proof (tb_index _ _ Ht i c (p, j) Hi Hj) as E. cbn [fst] in E.
      rewrite E in Hc. by simplify_eq. }
  pose proof (chain_lookup_elem chain p) as He. destruct (chain_lookup chain p) as [j|]; rewrite <- Hch.
  - split; [by intros [= ->]|]. intros Hk. f_equal. apply Hch in He as (n & Hn & Ep). apply Hch in Hk as (n' & Hn' & Ep').
    assert ((pid <$> heap) !! j = Some p /\ (pid <$> heap) !! k = Some p) as [H1 H2]
      by (rewrite !list_lookup_fmap, Hn, Hn'; cbn; by rewrite Ep, Ep').
    by eapply NoDup_lookup.
  - split; [done|]. intros Hk. by destruct (He k).
Qed.

Lemma table_order heap ht : table_ok heap ht -> free_resources ht ≡ₚ seq 0 (length heap).
Proof.
  intros Ht. unfold free_resources. rewrite (tb_perm _ _ Ht). unfold entries_of. rewrite fmap_imap.
  apply reflexive_eq. apply list_eq. intros i. rewrite list_lookup_imap.
  destruct (decide (i < length heap)%nat) as [Hi|Hi].
  - rewrite lookup_seq_lt by done. destruct (lookup_lt_is_Some_2 _ _ Hi) as [n ->]. done.
  - rewrite lookup_seq_ge, lookup_ge_None_2 by lia. done.
Qed.

(** ** Linking *)

Definition sib (heap : list ProcessNode) (k : nat) : option nat := heap !! k ≫= sibling.
Definition chd (heap : list ProcessNode) (k : nat) : option nat := heap !! k ≫= children.
Definition core (n : ProcessNode) : Z * Z * string := (n.(pid), n.(ppid), n.(name)).

(** The sibling chain from a pointer is a list of nodes. *)
Fixpoint chain (heap : list ProcessNode) (p : option nat) (l : list nat) : Prop :=
  match l with
  | [] => p = None
  | c :: l => p = Some c /\ (c < length heap)%nat /\ chain heap (sib heap c) l
  end.

Lemma chain_frame heap heap' p l : length heap = length heap' -> (forall c, c ∈ l -> sib heap' c = sib heap c) ->
  chain heap p l -> chain heap' p l.
Proof.
  intros Hlen. revert p. induction l as [|c l IH]; intros p Hs; [done|]. cbn [chain]. intros (-> & Hc & Hl). repeat split; [lia|].
  rewrite Hs by apply list_elem_of_here. apply IH; [|done]. intros c' Hc'. apply Hs. by apply list_elem_of_further.
Qed.

Lemma siblings_chain heap fuel p l : chain heap p l -> (length l <= fuel)%nat -> siblings fuel heap p = Some l.
Proof.
  revert fuel p. induction l as [|c l IH]; intros fuel p; cbn [chain].
  - intros -> _. by destruct fuel.
  - intros (-> & Hc & Hl) Hf. destruct fuel as [|fuel]; [cbn in Hf; lia|]. cbn [siblings].
    unfold sib in Hl. destruct (lookup_lt_is_Some_2 _ _ Hc) as [n E]. rewrite E in *. cbn in Hl |- *.
    rewrite (IH fuel) by (done || (cbn in Hf; lia)). done.
Qed.

Section Link.
Context (heap0 : list ProcessNode) (ht : HashTable).

(** The parent the program finds for a node. *)
Definition par (k : nat) : option nat :=
  n ← heap0 !! k; if n.(ppid) =? 0 then None else hash_table_lookup ht n.(ppid).

Definition kids (order : list nat) (j : nat) : list nat := rev (filter (fun k => par k = Some j) order).

Definition orphan (k : nat) : option string :=
  n ← heap0 !! k;
  if (n.(ppid) =? 0) || bool_decide (is_Some (hash_table_lookup ht n.(ppid))) then None
  else Some ("找不到父进程" +:+ pretty n.(ppid) +:+ "(子进程" +:+ pretty n.(pid) +:+ ")
").

Record linked (order : list nat) (st : list ProcessNode * list string) : Prop := {
  lk_core : core <$> st.1 = core <$> heap0;
  lk_chain j : (j < length heap0)%nat -> chain st.1 (chd st.1 j) (kids order j);
  lk_err : st.2 = omap orphan order;
}.

Lemma linked_length order st : linked order st -> length st.1 = length heap0.
Proof. intros [H _ _]. apply (f_equal length) in H. by rewrite !length_fmap in H. Qed.

Lemma core_eq heap k n : core <$> heap = core <$> heap0 -> heap !! k = Some n ->
  exists n0, heap0 !! k = Some n0 /\ n0.(pid) = n.(pid) /\ n0.(ppid) = n.(ppid) /\ n0.(name) = n.(name).
Proof.
  intros Hc Hn. assert ((core <$> heap0) !! k = Some (core n)) as E by (by rewrite <- Hc, list_lookup_fmap, Hn).
  rewrite list_lookup_fmap in E. destruct (heap0 !! k) as [n0|]; [|done]. unfold core in E. cbn in E. simplify_eq. eauto.
Qed.

Definition upd_links (k j : nat) (heap : list ProcessNode) : list ProcessNode :=
  let heap := alter (set_parent j) k heap in
  let heap := alter (set_sibling (heap !! j ≫= children)) k heap in
  alter (set_children k) j heap.

Lemma upd_links_lookup k j heap i : (k < length heap)%nat -> (j < length heap)%nat ->
  length (upd_links k j heap) = length heap /\ core <$> upd_links k j heap = core <$> heap /\
  chd (upd_links k j heap) i = (if decide (i = j) then Some k else chd heap i) /\
  sib (upd_links k j heap) i = (if decide (i = k) then chd heap j else sib heap i).
Proof.
  intros Hk Hj. unfold upd_links. cbv zeta. set (h1 := alter (set_parent j) k heap).
  assert (h1 !! j ≫= children = chd heap j) as ->.
  { unfold h1, chd. rewrite list_lookup_alter. case_decide; [|done]. subst. by destruct (heap !! j). }
  repeat split.
  - unfold h1. by rewrite !length_alter.
  - unfold h1. apply list_eq. intros m. rewrite !list_lookup_fmap, !list_lookup_alter.
    repeat case_decide; subst; destruct (heap !! _); done.
  - unfold h1, chd. rewrite !list_lookup_alter. destruct (lookup_lt_is_Some_2 _ _ Hj) as [nj Ej].
    repeat case_decide; subst; try congruence; rewrite ?Ej; try done; by destruct (heap !! i).
  - unfold h1, sib. rewrite !list_lookup_alter. destruct (lookup_lt_is_Some_2 _ _ Hk) as [nk Ek].
    repeat case_decide; subst; try congruence; rewrite ?Ek; try done; by destruct (heap !! i).
Qed.

Context (Htab : table_ok heap0 ht) (Hnd : NoDup (pid <$> heap0)).

Lemma par_lt k j : par k = Some j -> (k < length heap0)%nat /\ (j < length heap0)%nat.
Proof using Htab Hnd.
  unfold par. intros H. destruct (heap0 !! k) as [n|] eqn:E; [|done]. cbn in H. destruct (ppid n =? 0); [done|].
  apply (lookup_spec heap0) in H as (n' & Hn' & _); [|done..]. split; by eapply lookup_lt_Some.
Qed.

Lemma kids_elem order c j : c ∈ kids order j <-> par c = Some j /\ c ∈ order.
Proof. unfold kids. by rewrite list_elem_of_In, <- in_rev, <- list_elem_of_In, list_elem_of_filter. Qed.

Lemma link_node_linked order k st : linked order st -> k ∉ order -> (k < length heap0)%nat ->
  linked (order ++ [k]) (link_node ht k st).
Proof using Htab Hnd.
  intros Hl Hk Hlt. destruct st as [heap err]. pose proof (linked_length _ _ Hl) as Hlen. cbn [fst] in Hlen.
  destruct Hl as [Hc Hch He]. cbn [fst snd] in *. unfold link_node.
  destruct (lookup_lt_is_Some_2 heap k) as [n En]; [lia|]. rewrite En. destruct (core_eq _ _ _ Hc En) as (n0 & En0 & Ep & Epp & Enm).
  assert (forall j, kids (order ++ [k]) j = (if decide (par k = Some j) then [k] else []) ++ kids order j)%list as Hkids.
  { intros j. unfold kids. rewrite filter_app, rev_app_distr. f_equal. cbn. by case_decide. }
  assert (par k = if n.(ppid) =? 0 then None else hash_table_lookup ht n.(ppid)) as Hpar
    by (unfold par; rewrite En0; cbn; by rewrite Epp).
  assert (orphan k = if (n.(ppid) =? 0) || bool_decide (is_Some (hash_table_lookup ht n.(ppid))) then None
    else Some ("找不到父进程" +:+ pretty n.(ppid) +:+ "(子进程" +:+ pretty n.(pid) +:+ ")
")) as Horph by (unfold orphan; rewrite En0; cbn; by rewrite Epp, Ep).
  assert (omap orphan (order ++ [k]) = err ++ match orphan k with Some m => [m] | None => [] end)%list as Herr.
  { rewrite omap_app, <- He. done. }
  destruct (Z.eqb_spec n.(ppid) 0) as [Hz|Hz]; cbn [negb].
  { constructor; cbn [fst snd]; [done| |].
    - intros j Hj. rewrite Hkids, Hpar. rewrite decide_False by done. by apply Hch.
    - rewrite Herr, Horph. cbn [orb]. by rewrite app_nil_r. }
  destruct (hash_table_lookup ht n.(ppid)) as [j|] eqn:Ej.
  - destruct (par_lt k j Hpar) as [_ Hj]. fold (upd_links k j heap). 
    destruct (upd_links_lookup k j heap 0) as (Hlen' & Hcore & _ & _); [lia..|].
    assert (forall i, chd (upd_links k j heap) i = (if decide (i = j) then Some k else chd heap i)) as Hchd
      by (intros i; apply upd_links_lookup; lia).
    assert (forall i, sib (upd_links k j heap) i = (if decide (i = k) then chd heap j else sib heap i)) as Hsib
      by (intros i; apply upd_links_lookup; lia).
    change (linked (order ++ [k]) (upd_links k j heap, err)). constructor; cbn [fst snd].
    + by rewrite Hcore.
    + intros j' Hj'. assert (chain (upd_links k j heap) (chd heap j') (kids order j')) as Hfr.
      { apply (chain_frame heap); [by rewrite Hlen'| |by apply Hch]. intros c [_ Hc']%kids_elem.
        rewrite Hsib, decide_False by congruence. done. }
      rewrite Hkids, Hchd. rewrite Hpar. destruct (decide (j' = j)) as [->|Hne].
      * rewrite decide_True by done. cbn [app chain]. split; [done|]. split; [lia|]. by rewrite Hsib, decide_True by done.
      * rewrite decide_False by congruence. done.
    + rewrite Herr, Horph. cbn [orb]. rewrite bool_decide_true by eauto. by rewrite app_nil_r.
  - constructor; cbn [fst snd]; [done| |].
    + intros j' Hj'. rewrite Hkids, Hpar. rewrite decide_False by done. by apply Hch.
    + rewrite Herr, Horph. cbn [orb]. rewrite bool_decide_false by (by intros [? ?]). done.
Qed.

Lemma link_all_linked : linked (free_resources ht) (link_all ht heap0).
Proof using Htab Hnd.
  assert (linked [] (heap0, [])) as H0.
  { constructor; cbn [fst snd]; [done| |done]. intros j Hj. cbn. unfold chd. destruct (heap0 !! j) as [n|] eqn:E; [|done].
    apply (tb_fresh _ _ Htab). by eapply list_elem_of_lookup_2. }
  assert (free_resources ht ≡ₚ seq 0 (length heap0)) as Hp by by apply table_order.
  assert (NoDup ([] ++ free_resources ht)) as Hno by (rewrite Hp; apply NoDup_seq).
  assert (forall k, k ∈ free_resources ht -> (k < length heap0)%nat) as Hlt
    by (intros k; rewrite Hp, elem_of_seq; lia).
  change (linked ([] ++ free_resources ht) (link_all ht heap0)).
  revert H0 Hno Hlt. unfold link_all, free_resources. generalize (@nil nat) (heap0, @nil string).
  induction (concat (buckets ht)) as [|[p k] l IH]; intros done st Hd Hno Hlt.
  { cbn. by rewrite app_nil_r. }
  cbn [foldl fmap list_fmap snd] in Hno |- *.
  specialize (IH (done ++ [k])%list (link_node ht k st)). rewrite <- !app_assoc in IH. cbn [app] in IH. apply IH; [|done|].
  - apply link_node_linked; [done| |apply Hlt; left].
    apply NoDup_app in Hno as (_ & Hn & _). intros Hk. apply (Hn k Hk). left.
  - intros k' Hk'. apply Hlt. by right.
Qed.
End Link.

(** ** Trees *)

Inductive ptree := PT (k : nat) (ts : list ptree).
Definition proot (t : ptree) : nat := let 'PT k _ := t in k.

Lemma ptree_rect' (P : ptree -> Prop) : (forall k ts, Forall P ts -> P (PT k ts)) -> forall t, P t.
Proof.
  intros H. fix IH 1. intros [k ts]. apply H. induction ts as [|t ts IHts]; constructor; [apply IH|apply IHts].
Qed.

Fixpoint flatten (t : ptree) : list nat := let 'PT k ts := t in k :: concat (flatten <$> ts).

(** The text before a node: four blanks per level, then the branch, which differs for
    the last child; the root has none. *)
Definition lead (depth : nat) (is_last : bool) : list string :=
  match depth with
  | O => []
  | S d => (replicate d "    " ++ [if is_last then "'--" else "|--"])%list
  end.
Definition line_text (nm : string) (p : Z) : string := String.concat "" [nm; "("; pretty p; ")
"].

Lemma indent_lead d last : indent d last = lead d last.
Proof. induction d as [|[|d] IH]; [done..|]. change (indent (S (S d)) last) with ("    " :: indent (S d) last). by rewrite IH. Qed.

Lemma label_line n : label n = line_text n.(name) n.(pid).
Proof. done. Qed.

(** What is printed for a tree: every node on a line of its own, indented by its
    depth, the last child of a node marked as such, before its children. *)
Fixpoint layout (heap : list ProcessNode) (depth : nat) (is_last : bool) (t : ptree) : list string :=
  let 'PT k ts := t in
  (lead depth is_last ++ from_option (fun n => line_text n.(name) n.(pid)) ""%string (heap !! k) ::
    (fix go ts := match ts with
                  | [] => []
                  | t :: ts => layout heap (depth + 1) (match ts with [] => true | _ => false end) t ++ go ts
                  end) ts)%list.

Inductive tree_of (ch : nat -> list nat) : ptree -> Prop :=
| tree_of_PT k ts : proot <$> ts = ch k -> Forall (tree_of ch) ts -> tree_of ch (PT k ts).

(** The tree unfolded from a node, to a depth. *)
Fixpoint unfold_tree (ch : nat -> list nat) (fuel k : nat) : option ptree :=
  match fuel with
  | O => None
  | S fuel => ts ← mapM (unfold_tree ch fuel) (ch k); Some (PT k ts)
  end.

Lemma unfold_tree_spec ch fuel k t : unfold_tree ch fuel k = Some t -> proot t = k /\ tree_of ch t.
Proof.
  revert k t. induction fuel as [|fuel IH]; intros k t; [done|]. cbn [unfold_tree]. intros (ts & Hts & [= <-])%bind_Some.
  split; [done|]. apply mapM_Some in Hts. constructor.
  - clear - IH Hts. induction Hts; [done|]. cbn. f_equal; [by eapply IH|done].
  - eapply Forall2_Forall_r; [exact Hts|]. apply Forall_forall. intros c _ t' Ht'. by eapply IH.
Qed.

Section Print.
Context (heap heap' : list ProcessNode) (ch : nat -> list nat) (G : ProcessNode -> option (list nat)).
Context (P : nat -> nat -> nat -> bool -> option (list string)).
Hypothesis Hcore : core <$> heap' = core <$> heap.
Hypothesis HG : forall k n, heap' !! k = Some n -> G n = Some (ch k).
Hypothesis Hch : forall k c, c ∈ ch k -> (c < length heap)%nat.
Hypothesis HP : forall fuel k d last n, heap' !! k = Some n ->
  P (S fuel) k d last = (l ← G n; rest ← print_each (fun c last => P fuel c (d + 1)%nat last) l;
                         Some (indent d last ++ [label n] ++ rest)%list).

Lemma heap_label k : (k < length heap)%nat -> exists n, heap' !! k = Some n /\ from_option (fun n => line_text n.(name) n.(pid)) "" (heap !! k) = label n.
Proof using Hcore.
  intros Hk. destruct (lookup_lt_is_Some_2 _ _ Hk) as [n E]. destruct (core_eq heap' heap k n) as (n' & E' & Hp & Hpp & Hn); [done..|].
  exists n'. split; [done|]. rewrite E. cbn [from_option]. by rewrite label_line, Hp, Hn.
Qed.

(** A printer that follows the children of the nodes prints the layout of the tree. *)
Lemma print_layout fuel k t d last : unfold_tree ch fuel k = Some t -> (k < length heap)%nat ->
  P fuel k d last = Some (layout heap d last t).
Proof using All.
  revert k t d last. induction fuel as [|fuel IH]; intros k t d last; [done|]. cbn [unfold_tree].
  intros (ts & Hts & [= <-])%bind_Some Hk. destruct (heap_label k Hk) as (n & En & El).
  rewrite (HP fuel k d last n En), (HG k n En), indent_lead. cbn [mbind option_bind layout]. rewrite El.
  apply mapM_Some in Hts. pose proof (Hch k) as Hc. clear - IH Hts Hc.
  match goal with |- (_ ≫= _) = Some (_ ++ _ :: ?r)%list => enough (print_each (fun c last => P fuel c (d + 1)%nat last) (ch k) = Some r) as -> by done end.
  induction Hts as [|c t l ts Ht Hts IHl]; [done|]. cbn [print_each].
  rewrite (IH c t) by (done || apply Hc; left). cbn [mbind option_bind].
  rewrite IHl by (intros c' Hc'; apply Hc; by right). cbn. do 2 f_equal. inversion Hts; by subst.
Qed.
End Print.

(** ** No cycle is reachable from a node without a parent *)

Section Acyclic.
Context (par : nat -> option nat) (ch : nat -> list nat) (n : nat).
Hypothesis Hch : forall k c, c ∈ ch k <-> par c = Some k.
Hypothesis Hlt : forall k c, par c = Some k -> (c < n)%nat.
Hypothesis Hchnd : forall k, NoDup (ch k).

(** The nodes from a node up to one without a parent. *)
Inductive up : list nat -> Prop :=
| up_root r : par r = None -> up [r]
| up_step c k p : par c = Some k -> up (k :: p) -> up (c :: k :: p).

Lemma up_det c p p' : up (c :: p) -> up (c :: p') -> p = p'.
Proof using Type.
  revert c p'. induction p as [|k p IH]; intros c p' H1 H2; inversion H1; subst; inversion H2; subst; try congruence.
  assert (k0 = k) as -> by congruence. f_equal. by eapply IH.
Qed.

Lemma up_suffix l c p : up (l ++ c :: p) -> up (c :: p).
Proof using Type.
  induction l as [|x l IH]; [done|]. cbn. intros H. inversion H; [by destruct l|].
  apply IH. by match goal with E : _ :: _ = _ |- _ => rewrite <- E end.
Qed.

Lemma up_NoDup l : up l -> NoDup l.
Proof using Type.
  induction 1 as [r Hr|c k p Hp Hu IH]; [apply NoDup_singleton|]. constructor; [|done]. intros (l1 & l2 & E)%list_elem_of_split.
  assert (up (c :: l2)) as H2 by (apply (up_suffix l1); by rewrite <- E).
  pose proof (up_det c (k :: p) l2 (up_step _ _ _ Hp Hu) H2) as E'. rewrite <- E' in E.
  apply (f_equal length) in E. rewrite length_app in E. cbn in E. lia.
Qed.

Lemma up_length l : up l -> (forall x, x ∈ l -> (x < n)%nat) -> (length l <= n)%nat.
Proof using Type.
  intros Hu Hl. rewrite <- (length_seq n 0). apply submseteq_length, NoDup_submseteq; [by apply up_NoDup|].
  intros x Hx. apply elem_of_seq. split; [lia|]. by apply Hl.
Qed.

(** The unfolding of the tree under such a node ends. *)
Lemma unfold_total fuel k p : up (k :: p) -> (forall x, x ∈ k :: p -> (x < n)%nat) -> (n < fuel + length (k :: p))%nat ->
  exists t, unfold_tree ch fuel k = Some t.
Proof using Hch Hlt.
  revert k p. induction fuel as [|fuel IH]; intros k p Hu Hl Hf.
  - apply up_length in Hl; [cbn in *; lia|done].
  - cbn [unfold_tree]. assert (exists ts, mapM (unfold_tree ch fuel) (ch k) = Some ts) as [ts ->]; [|by eexists].
    apply mapM_is_Some, Forall_forall. intros c Hc%Hch. destruct (IH c (k :: p)) as [t Ht]; [by constructor| | |by eexists].
    + intros x [->|Hx]%elem_of_cons; [by eapply Hlt|by apply Hl].
    + cbn in *. lia.
Qed.

Lemma flatten_up t p : tree_of ch t -> up (proot t :: p) -> forall x, x ∈ flatten t ->
  exists q, up (q ++ proot t :: p) /\ head (q ++ proot t :: p) = Some x.
Proof using Hch.
  revert p. induction t as [k ts IH] using ptree_rect'. intros p Ht Hu x Hx. cbn [proot flatten] in *.
  inversion Ht as [? ? Hr Hts]; subst. apply elem_of_cons in Hx as [->|Hx]; [by exists []|].
  apply list_elem_of_In, in_concat in Hx as (l & [t' [E Hin]]%list_elem_of_In%list_elem_of_fmap & Hx). subst.
  rewrite Forall_forall in IH, Hts. apply list_elem_of_In in Hx.
  assert (par (proot t') = Some k) as Hp by (apply Hch; rewrite <- Hr; by apply list_elem_of_fmap_2).
  destruct (IH t' Hin (k :: p) (Hts _ Hin) (up_step _ _ _ Hp Hu) x Hx) as (q & Hq & Hh).
  exists (q ++ [proot t'])%list. by rewrite <- app_assoc.
Qed.

Lemma head_eq {A} (l : list A) x : head l = Some x -> exists l', l = x :: l'.
Proof. destruct l; [done|]. intros [= ->]. by eexists. Qed.

(** Two nodes of the tree with the same node under them have paths of one length. *)
Lemma up_meet q q' a b p p' x : up (q ++ a :: p) -> head (q ++ a :: p) = Some x ->
  up (q' ++ b :: p') -> head (q' ++ b :: p') = Some x -> (q ++ a :: p = q' ++ b :: p')%list.
Proof using Type.
  intros H1 (l1 & E1)%head_eq H2 (l2 & E2)%head_eq. rewrite E1 in H1 |- *. rewrite E2 in H2 |- *. f_equal. by eapply up_det.
Qed.

Lemma concat_NoDup {A} (ls : list (list A)) : Forall NoDup ls ->
  (forall i j l l' x, ls !! i = Some l -> ls !! j = Some l' -> x ∈ l -> x ∈ l' -> i = j) -> NoDup (concat ls).
Proof.
  induction 1 as [|l ls Hl Hls IH]; intros Hd; [constructor|]. cbn. apply NoDup_app. split; [done|]. split.
  - intros x Hx (l' & Hl' & Hx')%list_elem_of_In%in_concat. apply list_elem_of_In, list_elem_of_lookup in Hl' as [i Hi].
    apply list_elem_of_In in Hx'. by specialize (Hd O (S i) l l' x eq_refl Hi Hx Hx').
  - apply IH. intros i j a b x Ha Hb Hxa Hxb. by specialize (Hd (S i) (S j) a b x Ha Hb Hxa Hxb) as [= ->].
Qed.

Lemma flatten_NoDup t p : tree_of ch t -> up (proot t :: p) -> NoDup (flatten t).
Proof using Hch Hchnd.
  revert p. induction t as [k ts IH] using ptree_rect'. intros p Ht Hu. cbn [proot flatten] in *.
  inversion Ht as [? ? Hr Hts]; subst. rewrite Forall_forall in IH, Hts.
  assert (forall t', t' ∈ ts -> up (proot t' :: k :: p)) as Hup.
  { intros t' Hin. constructor; [|done]. apply Hch. rewrite <- Hr. by apply list_elem_of_fmap_2. }
  constructor.
  - intros (l & [t' [-> Hin]]%list_elem_of_In%list_elem_of_fmap & Hx%list_elem_of_In)%list_elem_of_In%in_concat.
    destruct (flatten_up t' (k :: p) (Hts _ Hin) (Hup _ Hin) k Hx) as (q & Hq & Hh).
    pose proof (up_meet q [] _ k _ p k Hq Hh Hu eq_refl) as E. apply (f_equal length) in E. rewrite length_app in E. cbn in E. lia.
  - apply concat_NoDup.
    + apply Forall_fmap, Forall_forall. intros t' Hin. by eapply (IH t' Hin (k :: p)); [apply Hts|apply Hup].
    + intros i j l l' x Hi Hj Hx Hx'. rewrite list_lookup_fmap in Hi, Hj.
      destruct (ts !! i) as [a|] eqn:Ea; [|done]. destruct (ts !! j) as [b|] eqn:Eb; [|done]. simplify_eq/=.
      pose proof (list_elem_of_lookup_2 _ _ _ Ea) as Ha. pose proof (list_elem_of_lookup_2 _ _ _ Eb) as Hb.
      destruct (flatten_up a (k :: p) (Hts _ Ha) (Hup _ Ha) x Hx) as (q & Hq & Hh).
      destruct (flatten_up b (k :: p) (Hts _ Hb) (Hup _ Hb) x Hx') as (q' & Hq' & Hh').
      pose proof (up_meet _ _ _ _ _ _ _ Hq Hh Hq' Hh') as E. 
      apply (NoDup_lookup (ch k) i j (proot a)); [done|by rewrite <- Hr, list_lookup_fmap, Ea|].
      rewrite <- Hr, list_lookup_fmap, Eb. cbn. f_equal.
      assert (length q = length q') as Hl by (apply (f_equal length) in E; rewrite !length_app in E; cbn in E; lia).
      apply app_inj_1 in E as [_ E]; [|done]. congruence.
Qed.

(** The nodes of the tree are the descendants of its root. *)
Lemma flatten_descendants t x : tree_of ch t -> x ∈ flatten t <-> rtc (fun c k => par c = Some k) x (proot t).
Proof using Hch.
  revert x. induction t as [k ts IH] using ptree_rect'. intros x Ht. cbn [proot flatten] in *.
  inversion Ht as [? ? Hr Hts]; subst. rewrite Forall_forall in IH, Hts. rewrite elem_of_cons. split.
  - intros [->|Hx]; [done|].
    apply list_elem_of_In, in_concat in Hx as (l & [t' [-> Hin]]%list_elem_of_In%list_elem_of_fmap & Hx%list_elem_of_In).
    apply (IH t' Hin x (Hts _ Hin)) in Hx. eapply rtc_r; [done|]. apply Hch. rewrite <- Hr. by apply list_elem_of_fmap_2.
  - intros [->|(c & Hx & Hc)]%rtc_inv_r; [by left|]. right. apply Hch in Hc. rewrite <- Hr in Hc.
    apply list_elem_of_fmap in Hc as (t' & -> & Hin). apply list_elem_of_In, in_concat. exists (flatten t'). split.
    + by apply list_elem_of_In, list_elem_of_fmap_2.
    + by apply list_elem_of_In, (IH t' Hin x (Hts _ Hin)).
Qed.
End Acyclic.

(** ** The program *)

Definition child_of (heap : list ProcessNode) (c k : nat) : Prop :=
  exists a b, heap !! c = Some a /\ heap !! k = Some b /\ a.(ppid) <> 0 /\ a.(ppid) = b.(pid).

Definition pid_of (heap : list ProcessNode) (c : nat) : Z := from_option pid 0 (heap !! c).

(** The children of every node are the processes whose parent process it is, each
    once, by increasing process id when [sorted]. *)
Inductive process_tree (heap : list ProcessNode) (sorted : bool) : ptree -> Prop :=
| process_tree_PT k ts :
    NoDup (proot <$> ts) -> (forall c, c ∈ proot <$> ts <-> child_of heap c k) ->
    (sorted = true -> Sorted Z.le (pid_of heap ∘ proot <$> ts)) ->
    Forall (process_tree heap sorted) ts -> process_tree heap sorted (PT k ts).

Section Program.
Context (heap : list ProcessNode) (ht : HashTable) (sorted : bool).
Context (Htab : table_ok heap ht) (Hnd : NoDup (pid <$> heap)).
Let order := free_resources ht.
Let heap' := (link_all ht heap).1.

Definition by_pid (l : list nat) : list nat :=
  snd <$> merge_sort compare_pid ((fun c => (pid_of heap c, c)) <$> l).
Definition ch (k : nat) : list nat := if sorted then by_pid (kids heap ht order k) else kids heap ht order k.

Lemma par_child c k : par heap ht c = Some k <-> child_of heap c k.
Proof using Htab Hnd.
  unfold par, child_of. split.
  - destruct (heap !! c) as [a|] eqn:Ea; [|done]. cbn. destruct (Z.eqb_spec a.(ppid) 0); [done|].
    intros (b & Hb & Hp)%(lookup_spec heap); [|done..]. exists a, b. by rewrite Hp.
  - intros (a & b & -> & Hb & Hz & Hp). cbn. rewrite (proj2 (Z.eqb_neq _ _)) by done. apply (lookup_spec heap); [done..|]. by exists b.
Qed.

Lemma by_pid_perm l : by_pid l ≡ₚ l.
Proof using Type.
  unfold by_pid. rewrite merge_sort_Permutation, <- list_fmap_compose. apply reflexive_eq.
  rewrite <- (list_fmap_id l) at 2. apply list_fmap_ext. by intros.
Qed.

Lemma by_pid_sorted l : Sorted Z.le (pid_of heap <$> by_pid l).
Proof using Type.
  unfold by_pid. set (arr := _ <$> l). assert (Sorted compare_pid (merge_sort compare_pid arr)) as Hs.
  { apply Sorted_merge_sort. intros a b. unfold compare_pid. lia. }
  assert (Forall (fun x => x.1 = pid_of heap x.2) (merge_sort compare_pid arr)) as Hf.
  { rewrite merge_sort_Permutation. unfold arr. apply Forall_fmap, Forall_true. done. }
  clear -Hs Hf. induction Hs as [|a xs Hs IH Hh]; [constructor|]. inversion Hf; subst. cbn. constructor; [by apply IH|].
  destruct Hh as [|b l' Hab]; [constructor|]. cbn. constructor. unfold compare_pid in Hab. inversion Hf as [|? ? Ha Hf']; subst.
  inversion Hf'; subst. rewrite <- Ha. cbn in *. lia.
Qed.

Lemma order_perm : order ≡ₚ seq 0 (length heap).
Proof using Htab. by apply table_order. Qed.

Lemma kids_NoDup k : NoDup (kids heap ht order k).
Proof using Htab.
  unfold kids. rewrite <- Permutation_rev. apply NoDup_filter. rewrite order_perm. apply NoDup_seq.
Qed.

Lemma ch_kids k : ch k ≡ₚ kids heap ht order k.
Proof using Type. unfold ch. destruct sorted; [apply by_pid_perm|done]. Qed.

Lemma ch_NoDup k : NoDup (ch k).
Proof using Htab. rewrite ch_kids. apply kids_NoDup. Qed.

Lemma ch_elem k c : c ∈ ch k <-> par heap ht c = Some k.
Proof using Htab Hnd.
  rewrite ch_kids, kids_elem, order_perm, elem_of_seq. split; [tauto|]. intros H.
  split; [done|]. apply par_lt in H; [lia|done..].
Qed.

Lemma linked_final : linked heap ht order (link_all ht heap).
Proof using Htab Hnd. by apply link_all_linked. Qed.

Lemma heap'_length : length heap' = length heap.
Proof using Htab Hnd. eapply linked_length, linked_final. Qed.

Lemma siblings_kids k n : heap' !! k = Some n ->
  siblings (length heap') heap' n.(children) = Some (kids heap ht order k).
Proof using Htab Hnd.
  intros En. assert (k < length heap)%nat as Hk by (rewrite <- heap'_length; by eapply lookup_lt_Some).
  apply siblings_chain.
  - pose proof (lk_chain _ _ _ _ linked_final k Hk) as H. fold heap' in H. unfold chd in H. by rewrite En in H.
  - rewrite heap'_length, <- (length_seq (length heap) 0), <- order_perm.
    apply submseteq_length, NoDup_submseteq; [apply kids_NoDup|]. by intros c [_ Hc]%kids_elem.
Qed.

Lemma sort_children_kids k n : heap' !! k = Some n -> sort_children heap' n = Some (by_pid (kids heap ht order k)).
Proof using Htab Hnd.
  intros En. unfold sort_children. rewrite (siblings_kids k n En). cbn [mbind option_bind].
  assert (forall c, c ∈ kids heap ht order k -> exists a, heap' !! c = Some a /\ pid_of heap c = a.(pid)) as Hc.
  { intros c [Hp _]%kids_elem. apply par_lt in Hp as [Hc _]; [|done..]. rewrite <- heap'_length in Hc.
    apply lookup_lt_is_Some_2 in Hc as [a Ea]. exists a. split; [done|].
    destruct (core_eq heap heap' c a (lk_core _ _ _ _ linked_final) Ea) as (a0 & E0 & Hpid & _). unfold pid_of. by rewrite E0. }
  unfold by_pid. enough (mapM (fun c => m ← heap' !! c; Some (m.(pid), c)) (kids heap ht order k) =
    Some ((fun c => (pid_of heap c, c)) <$> kids heap ht order k)) as -> by done.
  revert Hc. generalize (kids heap ht order k). intros l. induction l as [|c l IH]; intros Hc; [done|].
  destruct (Hc c ltac:(left)) as (a & Ea & Ep). cbn. rewrite Ea. cbn. rewrite IH by (intros c' Hc'; apply Hc; by right). cbn. by rewrite Ep.
Qed.

Lemma tree_of_process t : tree_of ch t -> process_tree heap sorted t.
Proof using Htab Hnd.
  induction t as [k ts IH] using ptree_rect'. intros Ht. inversion Ht as [? ? Hr Hts]; subst. constructor.
  - rewrite Hr. apply ch_NoDup.
  - intros c. rewrite Hr, ch_elem. apply par_child.
  - intros Es. rewrite list_fmap_compose, Hr. unfold ch. rewrite Es. apply by_pid_sorted.
  - rewrite Forall_forall in *. intros t Hin. apply IH; [done|]. by apply Hts.
Qed.

Definition printer (fuel : nat) (root : nat) : option (list string) :=
  (if sorted then print_process_tree_sorted else print_process_tree) fuel heap' root.

Lemma print_tree_layout root n : heap !! root = Some n -> par heap ht root = None ->
  exists t, printer (length heap') root = Some (layout heap 0 true t) /\ tree_of ch t /\ proot t = root /\
    NoDup (flatten t).
Proof using Htab Hnd.
  intros En Hp. assert (root < length heap)%nat as Hr by by eapply lookup_lt_Some.
  assert (up (par heap ht) [root]) as Hu by by constructor.
  destruct (unfold_total (par heap ht) ch (length heap) ch_elem (fun k c H => proj1 (par_lt _ _ Htab Hnd _ _ H)) (S (length heap)) root [])
    as [t Ht]; [done| |cbn; lia|]. { intros x [->|Hx%elem_of_nil]%elem_of_cons; done. }
  exists t. pose proof (unfold_tree_spec _ _ _ _ Ht) as [Hroot Hof]. split; [|split; [done|split; [done|]]].
  2: { rewrite <- Hroot in Hu. by eapply (flatten_NoDup _ ch ch_elem ch_NoDup). }
  pose proof (lk_core _ _ _ _ linked_final) as Hcore. fold heap' in Hcore.
  assert (forall k c, c ∈ ch k -> (c < length heap)%nat) as Hlt.
  { intros k c Hc%ch_elem. by apply par_lt in Hc as [Hc _]. }
  destruct (heap_label heap heap' Hcore root Hr) as (m & Em & El).
  unfold printer. destruct sorted eqn:Es.
  - change (print_node_sorted (S (length heap')) heap' root 0 true = Some (layout heap 0 true t)). rewrite heap'_length.
    apply (print_layout heap heap' ch (sort_children heap') (fun fuel => print_node_sorted fuel heap')); try done.
    + intros k n' Hn'. unfold ch. rewrite Es. by apply sort_children_kids.
    + intros fuel k d last n' Hn'. cbn [print_node_sorted]. by rewrite Hn'.
  - change (print_node (S (length heap')) heap' root 0 true = Some (layout heap 0 true t)). rewrite heap'_length.
    apply (print_layout heap heap' ch (fun n => siblings (length heap') heap' n.(children)) (fun fuel => print_node fuel heap')); try done.
    + intros k n' Hn'. unfold ch. rewrite Es. by apply siblings_kids.
    + intros fuel k d last n' Hn'. cbn [print_node]. by rewrite Hn'.
Qed.
End Program.

(** ** The files of the system *)

(** A process, and what /proc/<pid>/stat says of it: the id, the name in
    parentheses, the state, the id of the parent, and further fields. *)
Record process := Process { p_pid : Z; p_name : string; p_state : Ascii.ascii; p_ppid : Z; p_rest : string }.

Definition stat_line (pr : process) (rest : string) : string :=
  pretty pr.(p_pid) +:+ " (" +:+ pr.(p_name) +:+ ") " +:+ String pr.(p_state) (" " +:+ pretty pr.(p_ppid) +:+ " " +:+ rest).
Definition stat_text (pr : process) : string := stat_line pr pr.(p_rest).

Definition LF : Ascii.ascii := Ascii.ascii_of_nat 10.

(** Ids are those of an [int]; the name has no closing parenthesis and no line end,
    and fits the buffer for names; the state is a character that is no blank; the
    fields up to the id of the parent fit the buffer for the line. *)
Record process_ok (pr : process) : Prop := {
  po_pid : 0 <= pr.(p_pid) < 2 ^ 31;
  po_ppid : 0 <= pr.(p_ppid) < 2 ^ 31;
  po_paren : strchr pr.(p_name) ")"%char = None;
  po_line : strchr pr.(p_name) LF = None;
  po_name : (String.length pr.(p_name) <= 255)%nat;
  po_state : pr.(p_state) <> " "%char /\ pr.(p_state) <> LF;
  po_len : (String.length (stat_line pr "") <= 1023)%nat;
}.

Local Arguments String.append !_ _ / : simpl nomatch.

Lemma str_app_assoc (a b c : string) : (a +:+ b) +:+ c = a +:+ (b +:+ c).
Proof. induction a as [|x a IH]; [done|]. cbn. by rewrite IH. Qed.

Lemma str_app_nil (a : string) : a +:+ "" = a.
Proof. induction a as [|x a IH]; [done|]. cbn. by rewrite IH. Qed.

Lemma strchr_app a b c : strchr a c = None -> strchr (a +:+ b) c = Nat.add (String.length a) <$> strchr b c.
Proof.
  induction a as [|x a IH]; cbn; [by destruct (strchr b c)|]. case_decide; [done|]. destruct (strchr a c); [done|]. intros _.
  rewrite IH by done. by destruct (strchr b c).
Qed.

Lemma strchr_eq a c : strchr (String c a) c = Some O.
Proof. cbn. by rewrite decide_True. Qed.

Lemma strchr_ne a c x : x <> c -> strchr (String x a) c = S <$> strchr a c.
Proof. intros. cbn. by rewrite decide_False. Qed.

Lemma line_of_app a b n : strchr a LF = None -> (String.length a <= n)%nat -> line_of n (a +:+ b) = a +:+ line_of (n - String.length a) b.
Proof.
  revert n. induction a as [|x a IH]; intros n Ha Hn; cbn in *; [by rewrite Nat.sub_0_r|]. destruct n as [|n]; [lia|]. cbn.
  unfold LF in Ha. case_decide; [done|]. rewrite IH; [done| |lia]. by destruct (strchr a _).
Qed.

Lemma str_drop_app a b n : str_drop (String.length a + n) (a +:+ b) = str_drop n b.
Proof. induction a as [|x a IH]; [done|]. cbn. apply IH. Qed.

Lemma str_take_app a b : str_take (String.length a) (a +:+ b) = a.
Proof. induction a as [|x a IH]; [by destruct b|]. cbn. by rewrite IH. Qed.

Lemma str_take_all a n : (String.length a <= n)%nat -> str_take n a = a.
Proof.
  revert n. induction a as [|x a IH]; intros n Hn; [by destruct n|]. cbn in Hn. destruct n as [|n]; [lia|]. cbn. rewrite IH by lia. done.
Qed.

(** *** Numbers *)

Lemma pretty_char_digit k : (k < 10)%N -> isdigit (pretty_N_char k) = true /\ Z.of_nat (Ascii.nat_of_ascii (pretty_N_char k)) - 48 = Z.of_N k.
Proof.
  intros Hk. assert (k = 0 \/ k = 1 \/ k = 2 \/ k = 3 \/ k = 4 \/ k = 5 \/ k = 6 \/ k = 7 \/ k = 8 \/ k = 9)%N as E by lia.
  by repeat (destruct E as [->|E]; [by split|]); subst.
Qed.

Lemma pretty_go_digits x s : digits 0 (pretty_N_go x s) = digits (Z.of_N x) s /\ is_numeric (pretty_N_go x s) = is_numeric s.
Proof.
  revert s. induction (N.lt_wf_0 x) as [x _ IH]; intros s. destruct (decide (x = 0)%N) as [->|Hx]; [by rewrite pretty_N_go_0|].
  rewrite pretty_N_go_step by lia. assert (x `div` 10 < x)%N as Hlt by (apply N.div_lt; lia). destruct (IH _ Hlt (String (pretty_N_char (x `mod` 10)) s)) as [-> ->].
  destruct (pretty_char_digit (x `mod` 10)%N) as [Hd Hv]; [apply N.mod_lt; lia|]. cbn [digits is_numeric]. rewrite Hd. cbn [negb]. split; [|done].
  f_equal. rewrite Hv, N2Z.inj_div, N2Z.inj_mod. pose proof (Z.div_mod (Z.of_N x) (Z.of_N 10)). lia.
Qed.

Lemma pretty_digits z : 0 <= z -> is_numeric (pretty z) = true /\ digits 0 (pretty z) = z.
Proof.
  intros Hz. destruct z as [|x|x]; [done| |lia]. destruct (pretty_go_digits (N.pos x) "") as [E1 E2]. by split.
Qed.

(** A number, up to the character that ends it. *)
Lemma digits_app acc a b : is_numeric a = true -> digits acc (a +:+ b) = digits (digits acc a) b.
Proof. revert acc. induction a as [|x a IH]; intros acc Ha; [done|]. cbn in *. destruct (isdigit x); [by apply IH|done]. Qed.

Lemma numeric_lacks s c : is_numeric s = true -> isdigit c = false -> strchr s c = None.
Proof.
  intros Hs Hc. induction s as [|x s IH]; [done|]. cbn in *. destruct (isdigit x) eqn:Ex; [|done]. case_decide; [congruence|]. by rewrite IH.
Qed.

Lemma digit_cases c : isdigit c = true -> isspace c = false /\ c <> "-"%char /\ c <> "+"%char /\ c <> " "%char.
Proof.
  intros H. split_and!; [|by intros ->..]. unfold isdigit, isspace in *. apply andb_true_iff in H as [H1%Z.leb_le H2%Z.leb_le].
  rewrite (proj2 (Z.eqb_neq _ _)), (proj2 (Z.leb_gt _ 13)) by lia. apply andb_false_r.
Qed.

Lemma pretty_nonempty z : 0 <= z -> exists c s, pretty z = String c s /\ isdigit c = true.
Proof.
  intros Hz. destruct (pretty z) as [|c s] eqn:E; [destruct (pretty_digits z Hz) as [_ H]; rewrite E in H; subst z; done|].
  exists c, s. split; [done|]. destruct (pretty_digits z Hz) as [H _]. rewrite E in H. cbn in H. by destruct (isdigit c).
Qed.

Lemma atoi_pretty z b : 0 <= z -> (match b with "" => true | String c _ => negb (isdigit c) end) = true -> atoi (pretty z +:+ b) = z.
Proof.
  intros Hz Hb. destruct (pretty_digits z Hz) as [Hn Hd]. destruct (pretty_nonempty z Hz) as (c & s & E & Hc).
  destruct (digit_cases c Hc) as (H1 & H2 & H3 & _). unfold atoi. rewrite E in *. cbn [String.append skip]. rewrite H1.
  assert (digits 0 (String c (s +:+ b)) = z) as Hv.
  { change (String c (s +:+ b)) with (String c s +:+ b). rewrite digits_app, Hd by done. destruct b as [|x b]; [done|]. cbn. by destruct (isdigit x). }
  destruct c as [[] [] [] [] [] [] [] []]; try exact Hv; done.
Qed.

(** *** A file is read back *)

Lemma stat_line_app pr r : stat_line pr r = stat_line pr "" +:+ r.
Proof. unfold stat_line. rewrite !str_app_assoc. cbn [String.append]. by rewrite !str_app_assoc. Qed.

Lemma stat_line_shape pr r : exists a, a = pretty pr.(p_pid) +:+ " " /\
  stat_line pr r = a +:+ String "("%char (pr.(p_name) +:+ String ")"%char (String " "%char (String pr.(p_state) (String " "%char (pretty pr.(p_ppid) +:+ String " "%char r))))).
Proof. eexists. split; [done|]. unfold stat_line. rewrite !str_app_assoc. done. Qed.

Lemma read_process_info_ok pr : process_ok pr -> read_process_info (Some (stat_text pr)) 256 = Some (pr.(p_ppid), pr.(p_name)).
Proof.
  intros [Hpid Hppid Hpar Hlf Hlen [Hs1 Hs2] Hbuf]. unfold read_process_info, stat_text. cbn [mbind option_bind].
  destruct (pretty_digits pr.(p_pid) ltac:(lia)) as [Hnum _]. destruct (pretty_digits pr.(p_ppid) ltac:(lia)) as [Hnum2 _].
  assert (strchr (stat_line pr "") LF = None) as Hnl.
  { destruct (stat_line_shape pr "") as (a & -> & ->). rewrite str_app_assoc, strchr_app by (by apply numeric_lacks). cbn.
    rewrite strchr_app by done. cbn. rewrite (decide_False (P := p_state pr = LF)) by done.
    rewrite strchr_app by (by apply numeric_lacks). done. }
  assert (fgets_buf 1024 (stat_line pr (p_rest pr)) = Some (stat_line pr (line_of (1023 - String.length (stat_line pr "")) (p_rest pr)))) as ->.
  { rewrite (stat_line_app pr (p_rest pr)), (stat_line_app pr (line_of _ _)). rewrite <- line_of_app by done. unfold fgets_buf.
    destruct (pretty_nonempty pr.(p_pid) ltac:(lia)) as (c & s & E & _). unfold stat_line. rewrite E. done. }
  cbn [mbind option_bind]. set (r := line_of _ _). destruct (stat_line_shape pr r) as (a & Ea & ->).
  assert (strchr a "("%char = None /\ strchr a ")"%char = None) as [Ha1 Ha2]
    by (rewrite Ea; split; rewrite strchr_app by (by apply numeric_lacks); done).
  rewrite (strchr_app a _ "("%char), strchr_eq by done. rewrite (strchr_app a _ ")"%char), strchr_ne, strchr_app, strchr_eq by done.
  cbn [fmap option_fmap option_map mbind option_bind].
  rewrite !Nat.add_0_r. replace (String.length a + S (String.length (p_name pr)) <=? String.length a)%nat with false by (symmetry; apply Nat.leb_gt; lia).
  replace (String.length a + S (String.length (p_name pr)) - S (String.length a))%nat with (String.length (p_name pr)) by lia.
  replace (256 - 1 <? String.length (p_name pr))%nat with false by (symmetry; apply Nat.ltb_ge; lia).
  replace (S (String.length a)) with (String.length a + 1)%nat by lia. rewrite str_drop_app. cbn [str_drop].
  replace (str_take (String.length (p_name pr)) _) with (p_name pr) by (symmetry; destruct (p_name pr); cbn; [done|by rewrite str_take_app]).
  rewrite <- Nat.add_assoc, str_drop_app. replace (S (String.length (p_name pr)) + 1)%nat with (S (String.length (p_name pr) + 1)) by lia. cbn [str_drop].
  rewrite str_drop_app. cbn [str_drop skip]. rewrite bool_decide_eq_true_2, bool_decide_eq_false_2 by done.
  cbn [skip]. rewrite bool_decide_eq_true_2 by done. destruct (pretty_nonempty pr.(p_ppid) ltac:(lia)) as (c & s & E & Hc). destruct (digit_cases c Hc) as (_ & _ & _ & Hsp).
  assert (skip (fun c => bool_decide (c = " "%char)) (pretty pr.(p_ppid) +:+ String " "%char r) = pretty pr.(p_ppid) +:+ String " "%char r) as ->
    by (rewrite E; cbn; by rewrite bool_decide_eq_false_2).
  by rewrite atoi_pretty by (done || lia).
Qed.

(** *** The directory *)

(** An entry of /proc: the directory of a process, named by the id, or another entry,
    which is no directory or has a character in its name that is no digit. *)
Inductive proc_entry := ProcDir (q : Z) | Other (e : dirent).

Definition dirent_of (e : proc_entry) : dirent :=
  match e with ProcDir q => (true, pretty q) | Other e => e end.
Definition dir_pid (e : proc_entry) : option Z := match e with ProcDir q => Some q | Other _ => None end.
Definition other_name (s : string) : Prop :=
  exists a c b, s = a +:+ String c b /\ c ∉ String.list_ascii_of_string "0123456789".
Definition entry_ok (e : proc_entry) : Prop :=
  match e with
  | ProcDir q => 0 <= q < 2 ^ 31
  | Other (is_dir, s) => is_dir = false \/ other_name s
  end.

Lemma digit_char c : isdigit c = true -> c ∈ String.list_ascii_of_string "0123456789".
Proof.
  intros H. apply (bool_decide_unpack _). revert H. by destruct c as [[] [] [] [] [] [] [] []].
Qed.

Lemma other_name_skipped s : other_name s -> is_numeric s = false.
Proof.
  intros (a & c & b & -> & Hc). induction a as [|x a IH]; cbn.
  - destruct (isdigit c) eqn:E; [|done]. by apply digit_char in E.
  - by destruct (isdigit x).
Qed.

Section Files.
(** The processes whose files can be read, by their ids. *)
Context (procs : Z -> option process).
Definition stat_file_of (q : Z) : option string := stat_text <$> procs q.

(** The processes of a directory, in its order. *)
Definition listed (es : list proc_entry) : list process := omap procs (omap dir_pid es).
Definition procs_ok : Prop := forall q pr, procs q = Some pr -> pr.(p_pid) = q /\ process_ok pr.

Definition node_of (pr : process) : ProcessNode := PNode pr.(p_pid) pr.(p_ppid) pr.(p_name) None None None.

Context (Hprocs : procs_ok).

Lemma read_entry_files e st : entry_ok e ->
  (read_entry stat_file_of (dirent_of e) st).1 = (st.1 ++ from_option (fun pr => [node_of pr]) [] (dir_pid e ≫= procs))%list.
Proof using Hprocs.
  destruct st as [heap ht]. destruct e as [q|[is_dir s]]; cbn [entry_ok dirent_of dir_pid mbind option_bind]; intros He.
  - destruct (pretty_digits q ltac:(lia)) as [Hn _]. unfold read_entry. cbn [fst snd]. rewrite Hn. cbn [andb].
    assert (atoi (pretty q) = q) as -> by (rewrite <- (str_app_nil (pretty q)); apply atoi_pretty; [lia|done]).
    unfold stat_file_of. destruct (procs q) as [pr|] eqn:Eq; cbn [fmap option_fmap option_map from_option]; [|by rewrite app_nil_r].
    destruct (Hprocs q pr Eq) as [Hq Hok]. rewrite read_process_info_ok by done. cbn [fst]. unfold node_of.
    rewrite str_take_all by apply Hok. by rewrite Hq.
  - unfold read_entry. cbn [fst snd from_option]. rewrite app_nil_r.
    destruct He as [->|He%other_name_skipped]; [done|]. rewrite He. by rewrite andb_false_r.
Qed.

(** One node per process of the directory, with the ids and the name of the process. *)
Lemma read_proc_files es : Forall entry_ok es ->
  (read_proc stat_file_of (dirent_of <$> es)).1 = node_of <$> listed es.
Proof using Hprocs.
  intros Hes. unfold read_proc, listed.
  enough (forall st, (foldl (fun st e => read_entry stat_file_of e st) st (dirent_of <$> es)).1 =
    (st.1 ++ (node_of <$> omap procs (omap dir_pid es)))%list) as -> by done.
  induction Hes as [|e es He Hes IH]; intros st; [by rewrite app_nil_r|].
  cbn [fmap list_fmap foldl]. rewrite IH, read_entry_files by done. rewrite <- app_assoc. f_equal.
  cbn [omap list_omap]. destruct (dir_pid e) as [q|]; [|done]. cbn [mbind option_bind omap list_omap]. by destruct (procs q).
Qed.

Lemma listed_NoDup es : NoDup (omap dir_pid es) -> NoDup (pid <$> (node_of <$> listed es)).
Proof using Hprocs.
  unfold listed. generalize (omap dir_pid es). intros l Hl. rewrite <- list_fmap_compose.
  induction Hl as [|q l Hq Hl IH]; [constructor|]. cbn [omap list_omap]. destruct (procs q) as [pr|] eqn:E; [|done].
  cbn. constructor; [|done]. destruct (Hprocs q pr E) as [-> _].
  intros (pr' & -> & (q' & Hq' & E')%list_elem_of_omap)%list_elem_of_fmap. destruct (Hprocs q' pr' E') as [Eq _]. cbn in *. by rewrite Eq in Hq.
Qed.

Lemma listed_elem es q pr : ProcDir q ∈ es -> procs q = Some pr -> pr ∈ listed es.
Proof using Type.
  intros He Hp. apply list_elem_of_omap. exists q. split; [|done]. apply list_elem_of_omap. by exists (ProcDir q).
Qed.
End Files.

(** *** Messages *)

(** The message for a process whose parent is not among the processes. *)
Definition lost (ps : list process) (pr : process) : option string :=
  if decide (pr.(p_ppid) = 0 \/ pr.(p_ppid) ∈ p_pid <$> ps) then None
  else Some (String.concat "" ["找不到父进程"; pretty pr.(p_ppid); "(子进程"; pretty pr.(p_pid); ")
"]).

Lemma orphan_lost ps ht k pr : table_ok (node_of <$> ps) ht -> NoDup (pid <$> (node_of <$> ps)) -> ps !! k = Some pr ->
  orphan (node_of <$> ps) ht k = lost ps pr.
Proof.
  intros Ht Hnd Hk. unfold orphan, lost. rewrite list_lookup_fmap, Hk. cbn [fmap option_fmap option_map mbind option_bind node_of ppid pid].
  destruct (Z.eqb_spec (p_ppid pr) 0) as [E|E]; cbn [orb]; [rewrite decide_True by (by left); done|].
  assert (is_Some (hash_table_lookup ht (p_ppid pr)) <-> p_ppid pr ∈ p_pid <$> ps) as Hiff.
  { split.
    - intros [j (n & Hn & Hp)%(lookup_spec (node_of <$> ps))]; [|done..]. rewrite list_lookup_fmap in Hn.
      destruct (ps !! j) as [pr'|] eqn:Ej; [|done]. simplify_eq/=. rewrite <- Hp. apply list_elem_of_fmap_2. by eapply list_elem_of_lookup_2.
    - intros (pr' & Hp & [j Hj]%list_elem_of_lookup)%list_elem_of_fmap. exists j. apply (lookup_spec (node_of <$> ps)); [done..|].
      exists (node_of pr'). by rewrite list_lookup_fmap, Hj. }
  destruct (decide (p_ppid pr = 0 \/ p_ppid pr ∈ p_pid <$> ps)) as [[?|H]|H]; [done| |].
  - by rewrite bool_decide_eq_true_2 by by apply Hiff.
  - rewrite bool_decide_eq_false_2 by (intros ?%Hiff; tauto). done.
Qed.

Lemma orphans_lost ps ht : table_ok (node_of <$> ps) ht -> NoDup (pid <$> (node_of <$> ps)) ->
  omap (orphan (node_of <$> ps) ht) (free_resources ht) ≡ₚ omap (lost ps) ps.
Proof.
  intros Ht Hnd. rewrite (table_order _ _ Ht), length_fmap. apply reflexive_eq.
  pose proof (fun k pr => orphan_lost ps ht k pr Ht Hnd) as Ho. revert Ho.
  generalize (orphan (node_of <$> ps) ht) (lost ps). clear. intros f g Ho.
  enough (forall m, (forall k pr, ps !! k = Some pr -> f (m + k)%nat = g pr) -> omap f (seq m (length ps)) = omap g ps) as H by (by apply (H O)).
  clear Ho. induction ps as [|pr ps IH]; intros m Hm; [done|]. cbn [length seq omap list_omap].
  rewrite <- (Hm O pr eq_refl), Nat.add_0_r. rewrite (IH (S m)); [done|]. intros k pr' Hk. rewrite <- (Hm (S k) pr' Hk). f_equal. lia.
Qed.

(** C38: [pstree] prints the process tree of the system.  [procs] are the processes
    whose stat files can be opened, with their true ids, names and parents; a file has
    the format proc(5) documents ([stat_text]), and the entries [es] of /proc are the
    directories of distinct processes and other entries, of which none is a directory
    with a name of digits only.  The names have no closing parenthesis
    ([name_with_parenthesis] shows a process whose name has one: the program cuts the
    name and reads a wrong parent), no line end and at most 255 characters.  When
    process 1 is listed and its parent id is 0, the program prints the layout of a
    tree (every node on its line, indented by its depth, before its children; the last
    child marked) whose root is process 1, in which the children of a process are
    exactly the listed processes whose parent it is (in increasing order of process id
    with [-n]), and which has every descendant of process 1 exactly once.  It writes
    one message for every listed process whose parent is not listed.  In particular
    the loops over siblings and the recursion end, whatever cycles the parent ids of
    the other processes form, and every node is freed exactly once. *)
Theorem pstree_prints_tree procs sorted es init :
  let ps := listed procs es in
  let heap := node_of <$> ps in
  procs_ok procs -> Forall entry_ok es -> NoDup (omap dir_pid es) ->
  ProcDir 1 ∈ es -> procs 1 = Some init -> init.(p_ppid) = 0 ->
  exists t err root,
    pstree_main (stat_file_of procs) sorted (dirent_of <$> es) = Some (layout heap 0 true t, err) /\
    err ≡ₚ omap (lost ps) ps /\
    ps !! root = Some init /\ proot t = root /\ process_tree heap sorted t /\ NoDup (flatten t) /\
    (forall x, x ∈ flatten t <-> rtc (child_of heap) x root) /\
    free_resources (read_proc (stat_file_of procs) (dirent_of <$> es)).2 ≡ₚ seq 0 (length ps).
Proof.
  cbv zeta. intros Hok Hes Hnd' He Hi H0. pose proof (read_proc_ok (stat_file_of procs) (dirent_of <$> es)) as Htab.
  pose proof (read_proc_files procs Hok es Hes) as Hheap. pose proof (listed_NoDup procs Hok es Hnd') as Hnd.
  destruct (list_elem_of_lookup_1 _ _ (listed_elem procs es 1 init He Hi)) as [root Hroot0].
  destruct (Hok 1 init Hi) as [H1 _]. unfold pstree_main.
  destruct (read_proc _ _) as [heap ht]. cbn [fst snd] in *. rewrite Hheap in *. clear Hheap.
  set (ps := listed procs es) in *. assert ((node_of <$> ps) !! root = Some (node_of init)) as En by (by rewrite list_lookup_fmap, Hroot0).
  assert (par (node_of <$> ps) ht root = None) as Hp by (unfold par; rewrite En; cbn; by rewrite H0).
  destruct (print_tree_layout _ ht sorted Htab Hnd root _ En Hp) as (t & Hpr & Hof & Hroot & Hno).
  pose proof (lk_err _ _ _ _ (linked_final _ ht Htab Hnd)) as Herr.
  assert (hash_table_lookup ht 1 = Some root) as Hl by (apply (lookup_spec (node_of <$> ps)); [done..|]; by exists (node_of init)).
  unfold printer in Hpr. destruct (link_all ht _) as [heap' err]. cbn [fst snd] in *. rewrite Hl, Hpr. cbn [mbind option_bind].
  exists t, err, root. split; [done|]. split; [rewrite Herr; by apply orphans_lost|]. split; [done|]. split; [done|].
  split; [by eapply tree_of_process|]. split; [done|]. split; [|rewrite (table_order _ _ Htab); by rewrite length_fmap].
  intros x. rewrite (flatten_descendants _ _ (ch_elem _ ht sorted Htab Hnd) t x Hof), Hroot.
  split; apply rtc_subrel; intros c k; apply par_child; done.
Qed.

(** Four processes: a login shell under [init], and one whose parent ended; process 12
    ended before its file was opened. *)
Definition demo_procs (q : Z) : option process :=
  if q =? 1 then Some (Process 1 "init" "S"%char 0 "1 1") else
  if q =? 7 then Some (Process 7 "sh" "R"%char 1031 "7 7") else
  if q =? 1031 then Some (Process 1031 "(login" "S"%char 1 "1 1") else
  if q =? 9 then Some (Process 9 "lost" "S"%char 8 "1 1") else None.
Definition demo_entries : list proc_entry :=
  [ProcDir 1; ProcDir 9; Other (true, "self"); ProcDir 7; Other (false, "uptime"); ProcDir 1031; ProcDir 12].

Lemma demo_procs_ok : procs_ok demo_procs.
Proof.
  intros q pr. unfold demo_procs. repeat case_match; intros; simplify_eq; split; try (symmetry; by apply Z.eqb_eq).
  all: constructor; cbn [p_pid p_name p_state p_ppid p_rest]; try lia; try done; try (by split); apply Nat.leb_le; vm_compute; reflexivity.
Qed.

Lemma demo_entries_ok : Forall entry_ok demo_entries /\ NoDup (omap dir_pid demo_entries) /\ ProcDir 1 ∈ demo_entries.
Proof.
  split; [|split; [apply (bool_decide_unpack _); vm_compute; exact I|left]].
  unfold demo_entries. repeat (apply Forall_cons; split); try apply Forall_nil; cbn [entry_ok]; try lia; try tauto; right. exists "", "s"%char, "elf". split; [done|]. apply (bool_decide_unpack _). vm_compute. exact I.
Qed.

Lemma pstree_prints_tree_witness : exists t err,
  layout (node_of <$> listed demo_procs demo_entries) 0 true t = ["init(1)
"; "'--"; "(login(1031)
"; "    "; "'--"; "sh(7)
"] /\ err = ["找不到父进程8(子进程9)
"] /\ process_tree (node_of <$> listed demo_procs demo_entries) true t /\ NoDup (flatten t).
Proof.
  destruct (pstree_prints_tree demo_procs true demo_entries (Process 1 "init" "S"%char 0 "1 1")) as (t & err & root & H & _ & _ & _ & Ht & Hno & _).
  - exact demo_procs_ok.
  - exact (proj1 demo_entries_ok).
  - exact (proj1 (proj2 demo_entries_ok)).
  - exact (proj2 (proj2 demo_entries_ok)).
  - reflexivity.
  - reflexivity.
  - exists t, err. assert (pstree_main (stat_file_of demo_procs) true (dirent_of <$> demo_entries) = Some (["init(1)
"; "'--"; "(login(1031)
"; "    "; "'--"; "sh(7)
"], ["找不到父进程8(子进程9)
"])) as E by (vm_compute; reflexivity). rewrite H in E. pose proof (Some_inj _ _ E) as E'.
    split; [exact (f_equal fst E')|]. split; [exact (f_equal snd E')|by split].
Defined.

(** A process whose name has a closing parenthesis: the name is cut there, and what
    follows is read as the state and the parent id. *)
Lemma name_with_parenthesis : read_process_info (Some "12 (a)b) S 7 0") 256 = Some (0, "a").
Proof. reflexivity. Qed.
