(* ===== verification/Minilibc.v ===== *)
(** * A small C library (course5/minilibc/src)

    Memory is a finite map from addresses to bytes: a byte that is not mapped
    cannot be accessed ([None]).  The system calls are those of Linux on x86-64:
    [mmap] answers a request with an address or an error number below 0, [write] is
    given the bytes; both are parameters.  [wr_ret] is what [write] returns. *)

From S2P Require Import Prelude SbiTypes ConsoleProps.

Local Open Scope Z_scope.

Abbreviation mem := (gmap Z Z).

(** ** string.c *)

Fixpoint strlen_loop (fuel : nat) (m : mem) (s p : Z) : option Z :=
  match fuel with O => None | S fuel => c ← m !! p; if c =? 0 then Some (p - s) else strlen_loop fuel m s (p + 1) end.
Definition strlen (fuel : nat) (m : mem) (s : Z) : option Z := strlen_loop fuel m s s.

Definition store_byte (m : mem) (a c : Z) : option mem := if bool_decide (is_Some (m !! a)) then Some (<[a := c]> m) else None.

Fixpoint strcpy_loop (fuel : nat) (m : mem) (d src : Z) : option mem :=
  match fuel with
  | O => None
  | S fuel => c ← m !! src; m ← store_byte m d c; if c =? 0 then Some m else strcpy_loop fuel m (d + 1) (src + 1)
  end.
Definition strcpy (fuel : nat) (m : mem) (dest src : Z) : option (Z * mem) := m ← strcpy_loop fuel m dest src; Some (dest, m).

Fixpoint strcmp (fuel : nat) (m : mem) (s1 s2 : Z) : option Z :=
  match fuel with
  | O => None
  | S fuel =>
      c1 ← m !! s1;
      if c1 =? 0 then c2 ← m !! s2; Some (c1 - c2)
      else c2 ← m !! s2; if c1 =? c2 then strcmp fuel m (s1 + 1) (s2 + 1) else Some (c1 - c2)
  end.

(** ** stdio.c *)

(** Writes outside an array of [n] bytes. *)
Definition put (n : nat) (buf : list Z) (c : Z) : option (list Z) := if (length buf <? n)%nat then Some (buf ++ [c]) else None.
Fixpoint put_all (n : nat) (buf l : list Z) : option (list Z) := match l with [] => Some buf | c :: l => buf ← put n buf c; put_all n buf l end.

(** [while (number > 0)]: the digits, the last one first; [char temp[20]]. *)
Fixpoint int_digits (fuel : nat) (temp : list Z) (number : Z) : option (list Z) :=
  match fuel with
  | O => None
  | S fuel => if 0 <? number then temp ← put 20 temp (48 + Z.rem number 10); int_digits fuel temp (Z.quot number 10) else Some temp
  end.

(** The characters [print_int] writes; [-number] wraps around. *)
Definition print_int (number : Z) : option (list Z) :=
  let negative := number <? 0 in
  let number := if negative then s32 (- number) else number in
  temp ← (if number =? 0 then put 20 [] 48 else int_digits 21 [] number);
  Some ((if negative then [45] else []) ++ rev temp).

Section Stdio.
Context (wr_ret : Z -> list Z -> Z).

(** Output is the list of requests, the last one first. *)
Definition write (fd : Z) (bytes : list Z) (out : list (Z * list Z)) : Z * list (Z * list Z) := (wr_ret fd bytes, (fd, bytes) :: out).

(** [n] bytes of memory. *)
Fixpoint read_bytes (m : mem) (a : Z) (n : nat) : option (list Z) :=
  match n with O => Some [] | S n => c ← m !! a; l ← read_bytes m (a + 1) n; Some (c :: l) end.

Definition puts (fuel : nat) (m : mem) (s : Z) (out : list (Z * list Z)) : option (Z * list (Z * list Z)) :=
  len ← strlen fuel m s;
  bytes ← read_bytes m s (Z.to_nat len);
  let '(written, out) := write 1 bytes out in
  if written <? 0 then Some (-1, out)
  else let '(written, out) := write 1 [10] out in if written <? 0 then Some (-1, out) else Some (0, out).

(** [buffer + count] of [char buffer[1024]]; the arguments are words. *)
Fixpoint printf_loop (fuel : nat) (m : mem) (p : Z) (args : list Z) (buf : list Z) : option (list Z) :=
  match fuel with
  | O => None
  | S fuel =>
      c ← m !! p;
      if c =? 0 then Some buf
      else if negb (c =? 37) then buf ← put 1024 buf c; printf_loop fuel m (p + 1) args buf
      else
        c ← m !! (p + 1);
        if c =? 115 then
          match args with
          | [] => None
          | s :: args =>
              l ← (if s =? 0 then Some [40; 110; 117; 108; 108; 41] else len ← strlen fuel m s; read_bytes m s (Z.to_nat len));
              buf ← put_all 1024 buf l; printf_loop fuel m (p + 2) args buf
          end
        else if c =? 100 then
          match args with
          | [] => None
          | n :: args => l ← print_int (s32 n); buf ← put_all 1024 buf l; printf_loop fuel m (p + 2) args buf
          end
        else if c =? 37 then buf ← put 1024 buf 37; printf_loop fuel m (p + 2) args buf
        else buf ← put 1024 buf 37; buf ← put 1024 buf c; printf_loop fuel m (p + 2) args buf
  end.

Definition printf (fuel : nat) (m : mem) (format : Z) (args : list Z) (out : list (Z * list Z)) : option (Z * list (Z * list Z)) :=
  buf ← printf_loop fuel m format args [];
  let '(_, out) := write 1 buf out in
  Some (Z.of_nat (length buf), out).
End Stdio.

(** ** malloc.c *)

(** A word of 8 bytes, the lowest first. *)
Fixpoint store_le (n : nat) (m : mem) (a v : Z) : option mem :=
  match n with O => Some m | S n => m ← store_byte m a (v `mod` 256); store_le n m (a + 1) (v / 256) end.
Fixpoint load_le (n : nat) (m : mem) (a : Z) : option Z :=
  match n with O => Some 0 | S n => c ← m !! a; v ← load_le n m (a + 1); Some (c + 256 * v) end.

Definition pages (size : Z) : Z := (size + 4095) / 4096 * 4096.
Definition zero_pages (a n : Z) : mem := list_to_map (map (fun x => (x, 0)) (seqZ a n)).

Section Malloc.
(** The answer of the kernel to a request for [size] bytes. *)
Context (mmap_at : mem -> Z -> Z).

Definition mmap (m : mem) (size : Z) : Z * mem :=
  let r := mmap_at m size in
  if r <? 0 then (u64 r, m) else (r, zero_pages r (pages size) ∪ m).

Definition munmap (m : mem) (addr size : Z) : mem :=
  if addr `mod` 4096 =? 0 then filter (fun p => p.1 < addr \/ addr + pages size <= p.1) m else m.

(** [None] is a fault. *)
Definition malloc (size : Z) (m : mem) : option (Z * mem) :=
  let size := Z.land (u64 (size + 7)) (u64 (Z.lnot 7)) in
  let total_size := u64 (size + 8) in
  let '(block, m) := mmap m total_size in
  if block =? u64 (-1) then Some (0, m)
  else m ← store_le 8 m block size; Some (u64 (block + 8), m).

Definition free (ptr : Z) (m : mem) : option mem :=
  if negb (ptr =? 0) then
    size ← load_le 8 m (u64 (ptr - 8));
    Some (munmap m (u64 (ptr - 8)) (u64 (size + 8)))
  else Some m.
End Malloc.

(** ** Strings *)

(** A string at address [a]. *)
Fixpoint cstr (m : mem) (a : Z) (l : list Z) : Prop :=
  match l with [] => m !! a = Some 0 | c :: l => m !! a = Some c /\ c <> 0 /\ cstr m (a + 1) l end.

Lemma strlen_loop_spec m s l : forall fuel p, cstr m p l -> (length l < fuel)%nat -> strlen_loop fuel m s p = Some (p - s + Z.of_nat (length l)).
Proof.
  induction l as [|c l IH]; intros [|fuel] p Hs Hf; cbn [length] in Hf; try lia; cbn [strlen_loop cstr] in *.
  - rewrite Hs. cbn. f_equal. lia.
  - destruct Hs as (-> & Hc & Hs). cbn [mbind option_bind]. rewrite (proj2 (Z.eqb_neq c 0)) by done. rewrite (IH fuel (p + 1)) by (done || lia). cbn [length]. f_equal. lia.
Qed.

Lemma read_bytes_cstr m l : forall a, cstr m a l -> read_bytes m a (length l) = Some l.
Proof. induction l as [|c l IH]; intros a Hs; [done|]. cbn [cstr length read_bytes] in *. destruct Hs as (-> & _ & Hs). cbn [mbind option_bind]. by rewrite (IH _ Hs). Qed.

Lemma cstr_read fuel m s l : cstr m s l -> (length l < fuel)%nat -> (len ← strlen fuel m s; read_bytes m s (Z.to_nat len)) = Some l.
Proof.
  intros Hs Hf. unfold strlen. rewrite (strlen_loop_spec m s l) by done. cbn [mbind option_bind]. replace (Z.to_nat (s - s + Z.of_nat (length l))) with (length l) by lia. by apply read_bytes_cstr.
Qed.

Lemma cstr_bytes m l : forall a, cstr m a l <-> (forall i c, l !! i = Some c -> m !! (a + Z.of_nat i) = Some c /\ c <> 0) /\ m !! (a + Z.of_nat (length l)) = Some 0.
Proof.
  induction l as [|x l IH]; intros a; cbn [cstr length].
  - rewrite Z.add_0_r. split; [by intros H; split|by intros [_ H]].
  - rewrite IH. split.
    + intros (H0 & Hx & H1 & H2). split; [|by replace (a + Z.of_nat (S (length l))) with (a + 1 + Z.of_nat (length l)) by lia]. intros [|i] c Hi; cbn in Hi; [injection Hi as <-; by rewrite Z.add_0_r|].
      replace (a + Z.of_nat (S i)) with (a + 1 + Z.of_nat i) by lia. by apply H1.
    + intros [H1 H2]. destruct (H1 0%nat x eq_refl) as [H0 Hx]. rewrite Z.add_0_r in H0. split_and!; [done..| |by replace (a + 1 + Z.of_nat (length l)) with (a + Z.of_nat (S (length l))) by lia].
      intros i c Hi. replace (a + 1 + Z.of_nat i) with (a + Z.of_nat (S i)) by lia. by apply H1.
Qed.

(** Copying a string to mapped memory apart from it. *)
Lemma strcpy_loop_spec l : forall fuel m d src, cstr m src l -> (length l < fuel)%nat ->
  (forall i, 0 <= i <= Z.of_nat (length l) -> is_Some (m !! (d + i))) -> (d + Z.of_nat (length l) < src \/ src + Z.of_nat (length l) < d) ->
  exists m', strcpy_loop fuel m d src = Some m' /\ cstr m' d l /\ forall a, a < d \/ d + Z.of_nat (length l) < a -> m' !! a = m !! a.
Proof.
  induction l as [|c l IH]; intros [|fuel] m d src Hs Hf Hd Hap; cbn [length] in *; try lia; cbn [strcpy_loop].
  - cbn [cstr] in Hs. rewrite Hs. cbn [mbind option_bind]. unfold store_byte. rewrite bool_decide_true by (specialize (Hd 0); rewrite Z.add_0_r in Hd; apply Hd; lia). cbn.
    eexists. split; [done|]. split; [by rewrite lookup_insert_eq|]. intros a Ha. rewrite lookup_insert_ne by lia. done.
  - cbn [cstr] in Hs. destruct Hs as (E & Hc & Hs). rewrite E. cbn [mbind option_bind]. unfold store_byte. rewrite bool_decide_true by (specialize (Hd 0); rewrite Z.add_0_r in Hd; apply Hd; lia). cbn [mbind option_bind]. rewrite (proj2 (Z.eqb_neq c 0)) by done.
    destruct (IH fuel (<[d := c]> m) (d + 1) (src + 1)) as (m' & E' & Hs' & Ho').
    + rewrite cstr_bytes in Hs |- *. destruct Hs as [H1 H2]. split; [intros i x Hi; pose proof (lookup_lt_Some _ _ _ Hi); rewrite lookup_insert_ne by lia; by apply H1|rewrite lookup_insert_ne by lia; done].
    + lia.
    + intros i Hi. replace (d + 1 + i) with (d + (i + 1)) by lia. rewrite lookup_insert_ne by lia. apply Hd. lia.
    + lia.
    + exists m'. split; [done|]. split; [|intros a Ha; rewrite Ho' by lia; rewrite lookup_insert_ne by lia; done]. cbn [cstr]. rewrite Ho', lookup_insert_eq by lia. done.
Qed.

(** The sign of the difference at the first place where the strings differ. *)
Lemma strcmp_spec l1 : forall fuel m s1 s2 l2, cstr m s1 l1 -> cstr m s2 l2 -> (length l1 < fuel)%nat ->
  exists r, strcmp fuel m s1 s2 = Some r /\ (r = 0 <-> l1 = l2) /\ exists n, take n (l1 ++ [0]) = take n (l2 ++ [0]) /\ r = nth n (l1 ++ [0]) 0 - nth n (l2 ++ [0]) 0.
Proof.
  induction l1 as [|c1 l1 IH]; intros [|fuel] m s1 s2 l2 H1 H2 Hf; cbn [length] in Hf; try lia; cbn [strcmp].
  - cbn [cstr] in H1. rewrite H1. cbn [mbind option_bind Z.eqb]. destruct l2 as [|c2 l2]; cbn [cstr] in H2; [rewrite H2|destruct H2 as (-> & ? & _)]; (eexists; split; [done|]; split; [|by exists 0%nat]); [done|]. split; [lia|done].
  - cbn [cstr] in H1. destruct H1 as (-> & Hc1 & H1). cbn [mbind option_bind]. rewrite (proj2 (Z.eqb_neq c1 0)) by done. destruct l2 as [|c2 l2]; cbn [cstr] in H2.
    + rewrite H2. cbn [mbind option_bind]. rewrite (proj2 (Z.eqb_neq c1 0)) by done. eexists. split; [done|]. split; [split; [lia|done]|by exists 0%nat].
    + destruct H2 as (-> & Hc2 & H2). cbn [mbind option_bind]. destruct (Z.eqb_spec c1 c2) as [<-|Hne].
      * destruct (IH fuel m (s1 + 1) (s2 + 1) l2 H1 H2) as (r & E & Hr & n & Ht & Hn); [lia|]. exists r. split; [done|]. split; [rewrite Hr; split; congruence|]. exists (S n). cbn. by rewrite Ht.
      * eexists. split; [done|]. split; [split; [lia|congruence]|by exists 0%nat].
Qed.

(** ** printf *)

Lemma put_all_spec n l : forall buf, (length buf <= n)%nat -> put_all n buf l = if (length buf + length l <=? n)%nat then Some (buf ++ l) else None.
Proof.
  induction l as [|c l IH]; intros buf Hb; cbn [put_all length].
  - rewrite (proj2 (Nat.leb_le _ _)) by lia. by rewrite app_nil_r.
  - unfold put. destruct (Nat.ltb_spec (length buf) n); cbn [mbind option_bind].
    + rewrite IH by (rewrite length_app; cbn; lia). rewrite length_app, <- app_assoc. cbn [length app]. by replace (length buf + 1 + length l)%nat with (length buf + S (length l))%nat by lia.
    + by rewrite (proj2 (Nat.leb_gt _ _)) by lia.
Qed.

Lemma int_digits_S fuel temp number : int_digits (S fuel) temp number =
  if 0 <? number then temp ← put 20 temp (48 + Z.rem number 10); int_digits fuel temp (Z.quot number 10) else Some temp.
Proof. done. Qed.

Lemma int_digits_spec : forall fuel temp u, 0 <= u < 10 ^ Z.of_nat fuel -> (length temp + fuel <= 20)%nat ->
  exists vs, int_digits (S fuel) temp u = Some (temp ++ rev (map (digit_char false) vs)) /\ Forall (fun v => 0 <= v < 10) vs /\
    value_of 10 vs = u /\ (vs = [] <-> u = 0) /\ (u <> 0 -> hd 0 vs <> 0).
Proof.
  induction fuel as [|fuel IH]; intros temp u Hu Hl; rewrite int_digits_S.
  - change (10 ^ Z.of_nat 0) with 1 in Hu. assert (u = 0) as -> by lia. exists []. cbn. rewrite app_nil_r. done.
  - destruct (Z.ltb_spec 0 u) as [Hp|]; [|assert (u = 0) as -> by lia; exists []; cbn; rewrite app_nil_r; done].
    unfold put. rewrite (proj2 (Nat.ltb_lt _ _)) by lia. cbn [mbind option_bind]. rewrite Z.rem_mod_nonneg, Z.quot_div_nonneg by lia. pose proof (Z.mod_pos_bound u 10 ltac:(lia)) as Ht. pose proof (Z.div_mod u 10 ltac:(lia)) as Ed.
    replace (Z.of_nat (S fuel)) with (1 + Z.of_nat fuel) in Hu by lia. rewrite Z.pow_add_r, Z.pow_1_r in Hu by lia.
    destruct (IH (temp ++ [48 + u `mod` 10]) (u / 10)) as (vs & E & Hvs & Hval & Hnil & Hhd); [split; [apply Z.div_pos; lia|apply Z.div_lt_upper_bound; lia]|rewrite length_app; cbn; lia|].
    rewrite E.
    exists (vs ++ [u `mod` 10]). split_and!.
    + rewrite map_app, rev_app_distr, <- app_assoc. cbn [map rev app]. do 3 f_equal. unfold digit_char. destruct (Z.ltb_spec (u `mod` 10) 10); [done|lia].
    + apply Forall_app. split; [done|]. by apply Forall_singleton.
    + rewrite value_of_snoc, Hval. lia.
    + split; [by destruct vs|lia].
    + intros _. destruct vs as [|v vs]; [|apply Hhd; intros H0; by apply Hnil in H0]. cbn. assert (u / 10 = 0) as E0 by (by apply Hnil). lia.
Qed.

(** Every [int] but the least is printed in decimal. *)
Lemma print_int_spec n : - 2 ^ 31 < n < 2 ^ 31 -> exists ds, numeral 10 false (Z.abs n) ds /\ print_int n = Some ((if n <? 0 then [45] else []) ++ ds).
Proof.
  intros Hn. unfold print_int. set (u := if n <? 0 then s32 (- n) else n).
  assert (u = Z.abs n) as Eu. { unfold u. destruct (Z.ltb_spec n 0); [|lia]. replace (s32 (- n)) with (- n); [lia|]. symmetry. transitivity (s32 (wrap 32 (- n))); [|apply signed_small; lia]. unfold signed. by rewrite wrap_wrap. }
  rewrite Eu. destruct (Z.eqb_spec (Z.abs n) 0) as [E0|Hnz].
  - exists [48]. split; [|done]. rewrite E0. exists [0]. split_and!; try done. constructor; [lia|done].
  - destruct (int_digits_spec 20 [] (Z.abs n)) as (vs & E & Hvs & Hval & Hnil & Hhd); [split; [lia|]; assert (2 ^ 31 < 10 ^ Z.of_nat 20) by (by vm_compute); lia|cbn; lia|].
    rewrite E. cbn [mbind option_bind app]. rewrite rev_involutive. exists (map (digit_char false) vs). split; [|done]. specialize (Hhd Hnz).
    exists vs. split_and!; [done..|by intros ->|by intros ?].
Qed.

(** What a format means: the text of a format with its arguments. *)
Inductive fmt_text (m : mem) : list Z -> list Z -> list Z -> Prop :=
| ft_nil args : fmt_text m [] args []
| ft_lit c fmt args t : c <> 37 -> fmt_text m fmt args t -> fmt_text m (c :: fmt) args (c :: t)
| ft_percent fmt args t : fmt_text m fmt args t -> fmt_text m (37 :: 37 :: fmt) args (37 :: t)
| ft_str s l fmt args t : s <> 0 -> cstr m s l -> fmt_text m fmt args t -> fmt_text m (37 :: 115 :: fmt) (s :: args) (l ++ t)
| ft_null fmt args t : fmt_text m fmt args t -> fmt_text m (37 :: 115 :: fmt) (0 :: args) ([40; 110; 117; 108; 108; 41] ++ t)
| ft_int w ds fmt args t : numeral 10 false (Z.abs (s32 w)) ds -> fmt_text m fmt args t ->
    fmt_text m (37 :: 100 :: fmt) (w :: args) (((if s32 w <? 0 then [45] else []) ++ ds) ++ t)
| ft_other c fmt args t : c <> 37 -> c <> 115 -> c <> 100 -> fmt_text m fmt args t -> fmt_text m (37 :: c :: fmt) args (37 :: c :: t).

(** A format with the arguments it asks for: no single percent sign at its end,
    strings of at most [n] bytes, and no argument [INT_MIN]. *)
Fixpoint fmt_ok (m : mem) (n : nat) (fmt args : list Z) : Prop :=
  match fmt with
  | [] => True
  | c :: fmt =>
      if c =? 37 then
        match fmt with
        | [] => False
        | c :: fmt =>
            if c =? 115 then match args with [] => False | s :: args => (s = 0 \/ exists l, cstr m s l /\ (length l <= n)%nat) /\ fmt_ok m n fmt args end
            else if c =? 100 then match args with [] => False | w :: args => s32 w <> - 2 ^ 31 /\ fmt_ok m n fmt args end
            else fmt_ok m n fmt args
        end
      else fmt_ok m n fmt args
  end.

Definition text_result (buf text : list Z) : option (list Z) := if (length buf + length text <=? 1024)%nat then Some (buf ++ text) else None.

Lemma text_result_step buf l text : (length buf <= 1024)%nat -> text_result buf (l ++ text) = (b ← put_all 1024 buf l; text_result b text).
Proof.
  intros Hb. rewrite put_all_spec by done. unfold text_result. rewrite length_app. destruct (Nat.leb_spec (length buf + length l) 1024); cbn [mbind option_bind].
  - by rewrite length_app, <- app_assoc, Nat.add_assoc.
  - by rewrite (proj2 (Nat.leb_gt _ _)) by lia.
Qed.

Lemma put_all_length buf l b : (length buf <= 1024)%nat -> put_all 1024 buf l = Some b -> (length b <= 1024)%nat.
Proof. intros Hb. rewrite put_all_spec by done. destruct (Nat.leb_spec (length buf + length l) 1024); [|done]. intros [= <-]. rewrite length_app. lia. Qed.

(** One conversion, then the rest of the format. *)
Lemma printf_rest buf l (K : list Z -> option (list Z)) t : (length buf <= 1024)%nat -> (forall b, (length b <= 1024)%nat -> K b = text_result b t) ->
  (b ← put_all 1024 buf l; K b) = text_result buf (l ++ t).
Proof.
  intros Hb HK. rewrite text_result_step by done. destruct (put_all 1024 buf l) as [b|] eqn:E; [|done]. cbn [mbind option_bind]. apply HK. by apply (put_all_length buf l).
Qed.

Lemma put_all_1 buf c : put_all 1024 buf [c] = put 1024 buf c.
Proof. cbn. by destruct (put 1024 buf c). Qed.

Lemma put_all_2 buf c d (K : list Z -> option (list Z)) : (b ← put_all 1024 buf [c; d]; K b) = (b ← put 1024 buf c; b ← put 1024 b d; K b).
Proof. cbn. destruct (put 1024 buf c) as [b|]; cbn; [|done]. by destruct (put 1024 b d). Qed.

Lemma printf_loop_spec m n : forall k fmt args fuel p, (length fmt <= k)%nat -> cstr m p fmt -> fmt_ok m n fmt args -> (length fmt + n < fuel)%nat ->
  exists text, fmt_text m fmt args text /\ forall buf, (length buf <= 1024)%nat -> printf_loop fuel m p args buf = text_result buf text.
Proof.
  induction k as [|k IH]; intros fmt args [|fuel] p Hk Hs Hok Hf; try lia; (destruct fmt as [|c fmt];
    [exists []; split; [constructor|]; intros buf Hb; cbn [printf_loop cstr] in *; rewrite Hs; cbn; unfold text_result; rewrite (proj2 (Nat.leb_le _ _)) by (cbn; lia); by rewrite app_nil_r|cbn [length] in Hk; try lia]).
  cbn [cstr length] in Hs, Hf. destruct Hs as (E & Hc & Hs). cbn [printf_loop]. rewrite E. cbn [mbind option_bind]. rewrite (proj2 (Z.eqb_neq c 0)) by done. cbn [fmt_ok] in Hok. destruct (Z.eqb_spec c 37) as [->|H37]; cbn [negb].
  2:{ destruct (IH fmt args fuel (p + 1) ltac:(lia) Hs Hok ltac:(lia)) as (t & Ht & HK). exists (c :: t). split; [by constructor|]. intros buf Hb. change (c :: t) with ([c] ++ t). rewrite <- (put_all_1 buf c). by apply printf_rest. }
  destruct fmt as [|c fmt]; [done|]. cbn [cstr length] in Hs, Hf, Hk. destruct Hs as (E1 & Hc1 & Hs). rewrite E1. cbn [mbind option_bind]. replace (p + 1 + 1) with (p + 2) in Hs by lia.
  destruct (Z.eqb_spec c 115) as [->|H115]; [|destruct (Z.eqb_spec c 100) as [->|H100]; [|destruct (Z.eqb_spec c 37) as [->|H37]]].
  - destruct args as [|s args]; [done|]. destruct Hok as [Hstr Hok]. destruct (IH fmt args fuel (p + 2) ltac:(lia) Hs Hok ltac:(lia)) as (t & Ht & HK). destruct (Z.eqb_spec s 0) as [->|Hs0].
    + eexists. split; [by apply ft_null|]. intros buf Hb. cbn [mbind option_bind]. by apply printf_rest.
    + destruct Hstr as [?|(l & Hl & Hln)]; [done|]. exists (l ++ t). split; [by apply ft_str|]. intros buf Hb. rewrite (cstr_read fuel m s l) by (done || lia). cbn [mbind option_bind]. by apply printf_rest.
  - destruct args as [|w args]; [done|]. destruct Hok as [Hw Hok]. destruct (IH fmt args fuel (p + 2) ltac:(lia) Hs Hok ltac:(lia)) as (t & Ht & HK). pose proof (signed_range 32 w ltac:(lia)) as Hr. change (2 ^ (32 - 1)) with (2 ^ 31) in Hr.
    destruct (print_int_spec (s32 w)) as (ds & Hds & ->); [lia|]. eexists. split; [by apply ft_int|]. intros buf Hb. cbn [mbind option_bind]. by apply printf_rest.
  - destruct (IH fmt args fuel (p + 2) ltac:(lia) Hs Hok ltac:(lia)) as (t & Ht & HK). exists (37 :: t). split; [by constructor|]. intros buf Hb. change (37 :: t) with ([37] ++ t). rewrite <- (put_all_1 buf 37). by apply printf_rest.
  - destruct (IH fmt args fuel (p + 2) ltac:(lia) Hs Hok ltac:(lia)) as (t & Ht & HK). exists (37 :: c :: t). split; [by apply ft_other|]. intros buf Hb. change (37 :: c :: t) with ([37; c] ++ t). rewrite <- put_all_2. by apply printf_rest.
Qed.

(** [printf] of the small C library writes what the format means.  For a
    format that ends and has its arguments, in any memory, it makes one [write]
    request with the characters of the format in which %s is replaced by the
    string, %d by the decimal numeral of the integer with its sign and %% by a
    percent sign, and it returns their number, provided the text fits the
    buffer of 1024 characters; a longer text overruns the buffer. *)
Theorem printf_writes_text wr_ret m n fmt args fuel p out : cstr m p fmt -> fmt_ok m n fmt args -> (length fmt + n < fuel)%nat ->
  exists text, fmt_text m fmt args text /\
    printf wr_ret fuel m p args out = if (length text <=? 1024)%nat then Some (Z.of_nat (length text), (1, text) :: out) else None.
Proof.
  intros Hs Hok Hf. destruct (printf_loop_spec m n (length fmt) fmt args fuel p ltac:(lia) Hs Hok Hf) as (text & Ht & HK). exists text. split; [done|].
  unfold printf. rewrite HK by (cbn; lia). unfold text_result. cbn [length app Nat.add]. destruct (length text <=? 1024)%nat; done.
Qed.

(** ** malloc and free *)

Lemma zero_pages_in a n x : a <= x < a + n -> zero_pages a n !! x = Some 0.
Proof.
  intros Hx. apply elem_of_list_to_map.
  - rewrite <- list_fmap_compose. rewrite list_fmap_id. apply NoDup_seqZ.
  - apply list_elem_of_fmap. exists x. split; [done|]. by apply elem_of_seqZ.
Qed.

Lemma zero_pages_out a n x : x < a \/ a + n <= x -> zero_pages a n !! x = None.
Proof.
  intros Hx. apply not_elem_of_list_to_map. rewrite <- list_fmap_compose, list_fmap_id. rewrite elem_of_seqZ. lia.
Qed.

Lemma store_le_spec n : forall m a v, (forall x, a <= x < a + Z.of_nat n -> is_Some (m !! x)) ->
  exists m', store_le n m a v = Some m' /\ load_le n m' a = Some (v `mod` 256 ^ Z.of_nat n) /\ (forall x, x < a \/ a + Z.of_nat n <= x -> m' !! x = m !! x) /\
    forall x, is_Some (m !! x) -> is_Some (m' !! x).
Proof.
  induction n as [|n IH]; intros m a v Hm; cbn [store_le load_le].
  - exists m. rewrite Z.pow_0_r, Z.mod_1_r. done.
  - unfold store_byte. rewrite bool_decide_true by (apply Hm; lia). cbn [mbind option_bind].
    destruct (IH (<[a := v `mod` 256]> m) (a + 1) (v / 256)) as (m' & E & Hl & Ho & Hd).
    { intros x Hx. rewrite lookup_insert_ne by lia. apply Hm. lia. }
    exists m'. split; [done|]. rewrite (Ho a), lookup_insert_eq by lia. cbn [mbind option_bind]. rewrite Hl. cbn [mbind option_bind]. split_and!.
    + f_equal. replace (Z.of_nat (S n)) with (1 + Z.of_nat n) by lia. rewrite Z.pow_add_r, Z.pow_1_r by lia. rewrite Z.rem_mul_r by lia. done.
    + intros x Hx. rewrite Ho, lookup_insert_ne by lia. done.
    + intros x Hx. apply Hd. destruct (decide (x = a)) as [->|]; [rewrite lookup_insert_eq; by eexists|by rewrite lookup_insert_ne].
Qed.

Lemma load_le_ext n m m' : forall a, (forall x, a <= x < a + Z.of_nat n -> m' !! x = m !! x) -> load_le n m' a = load_le n m a.
Proof.
  induction n as [|n IH]; intros a H; [done|]. cbn [load_le]. rewrite (H a) by lia. destruct (m !! a); [|done]. cbn [mbind option_bind]. rewrite IH; [done|]. intros x Hx. apply H. lia.
Qed.

(** What the kernel promises: an error number, or the address of whole pages that
    were not mapped, below the end of user memory. *)
Definition kernel_ok (mmap_at : mem -> Z -> Z) : Prop := forall m size, 0 < size ->
  let r := mmap_at m size in
  -4095 <= r < 0 \/ (0 < r /\ r `mod` 4096 = 0 /\ r + pages size <= 2 ^ 47 /\ forall x, r <= x < r + pages size -> m !! x = None).

(** Writes of the program to its block. *)
Definition writes_inside (p size : Z) (m m' : mem) : Prop := forall x, x < p \/ p + size <= x -> m' !! x = m !! x.

Definition block_size (size : Z) : Z := (size + 7) / 8 * 8.

Lemma malloc_sizes size : 0 <= size -> size < 2 ^ 63 ->
  Z.land (u64 (size + 7)) (u64 (Z.lnot 7)) = block_size size /\ u64 (block_size size + 8) = block_size size + 8 /\ size <= block_size size < size + 8 /\ block_size size + 8 <= pages (block_size size + 8).
Proof.
  intros H0 H1. assert (size <= block_size size < size + 8) as Hb. { unfold block_size. pose proof (Z.div_mod (size + 7) 8 ltac:(lia)). pose proof (Z.mod_pos_bound (size + 7) 8 ltac:(lia)). lia. }
  split_and!; [|apply wrap_small; unfold in_range; lia|lia|lia|].
  - rewrite (wrap_small 64 (size + 7)) by (unfold in_range; lia). change (u64 (Z.lnot 7)) with (Z.ldiff (Z.ones 64) 7). rewrite Z.ldiff_land, Z.land_assoc, <- wrap_land, wrap_small by (lia || unfold in_range; lia).
    change 7 with (2 ^ 3 - 1). rewrite land_lnot_ones by lia. unfold block_size. pose proof (Z.div_mod (size + (2 ^ 3 - 1)) 8 ltac:(lia)). change (2 ^ 3) with 8 in *. replace (8 - 1) with 7 in * by lia. lia.
  - unfold pages. pose proof (Z.div_mod (block_size size + 8 + 4095) 4096 ltac:(lia)). pose proof (Z.mod_pos_bound (block_size size + 8 + 4095) 4096 ltac:(lia)). lia.
Qed.

(** C31: [malloc] and [free] of the small C library are a round trip through the
    kernel.  When [mmap] answers with an address, [malloc] returns a block of at
    least the size asked for, aligned to 8, none of whose bytes was mapped
    before, and leaves all mapped bytes as they were; whatever the program then
    writes inside the block, [free] gives back exactly the memory there was before
    the call. *)
Theorem malloc_free_roundtrip mmap_at size m : kernel_ok mmap_at -> 0 <= size < 2 ^ 63 ->
  0 <= mmap_at m (block_size size + 8) ->
  exists p m', malloc mmap_at size m = Some (p, m') /\ 0 < p /\ p `mod` 8 = 0 /\
    (forall x, p <= x < p + size -> m !! x = None /\ is_Some (m' !! x)) /\ m ⊆ m' /\
    forall m'', writes_inside p size m' m'' -> free p m'' = Some m.
Proof.
  intros Hk [H0 H1] Hr. destruct (malloc_sizes size H0 H1) as (E1 & E2 & Hb & Hpg). destruct (Hk m (block_size size + 8) ltac:(lia)) as [?|(Hpos & Hal & Hend & Hnew)]; [lia|]. unfold malloc, mmap. rewrite E1, E2.
  set (r := mmap_at m (block_size size + 8)) in *. rewrite (proj2 (Z.ltb_ge r 0)) by lia. set (n := pages (block_size size + 8)) in *. set (m1 := zero_pages r n ∪ m).
  assert (forall x, r <= x < r + n -> m1 !! x = Some 0) as Hin by (intros x Hx; apply lookup_union_Some_l; by apply zero_pages_in).
  assert (forall x, x < r \/ r + n <= x -> m1 !! x = m !! x) as Hout by (intros x Hx; apply lookup_union_r; by apply zero_pages_out).
  rewrite (proj2 (Z.eqb_neq r (u64 (-1)))) by (change (u64 (-1)) with (2 ^ 64 - 1); lia).
  destruct (store_le_spec 8 m1 r (block_size size)) as (m2 & -> & Hl & Ho & Hd); [intros x Hx; rewrite Hin by lia; by eexists|]. cbn [mbind option_bind]. rewrite wrap_small by (unfold in_range; lia).
  rewrite Z.mod_small in Hl by (change (256 ^ Z.of_nat 8) with (2 ^ 64); lia). change (Z.of_nat 8) with 8 in *.
  exists (r + 8), m2. split_and!; [done|lia| | | |].
  - apply Z.mod_divide in Hal as [q Hq]; [|lia]. rewrite Hq. replace (q * 4096 + 8) with ((q * 512 + 1) * 8) by lia. by apply Z.mod_mul.
  - intros x Hx. split; [apply Hnew; lia|]. apply Hd. rewrite Hin by lia. by eexists.
  - apply map_subseteq_spec. intros x c Hx. assert (x < r \/ r + n <= x) as Hcase. { destruct (decide (r <= x < r + n)) as [Hi|]; [|lia]. by rewrite (Hnew x Hi) in Hx. } rewrite Ho by lia. by rewrite Hout.
  - intros m3 Hw. unfold free. rewrite (proj2 (Z.eqb_neq (r + 8) 0)) by lia. cbn [negb]. replace (r + 8 - 8) with r by lia. rewrite (wrap_small 64 r) by (unfold in_range; lia).
    rewrite (load_le_ext 8 m2 m3 r) by (intros x Hx; apply Hw; lia). rewrite Hl. cbn [mbind option_bind]. rewrite E2. unfold munmap. rewrite Hal. fold n. cbn [Z.eqb]. f_equal. apply map_eq. intros x.
    destruct (decide (r <= x < r + n)) as [Hi|Hi].
    + rewrite (Hnew x Hi). apply map_lookup_filter_None_2. right. intros c _. cbn. lia.
    + rewrite map_lookup_filter, Hw, Ho, Hout by lia. destruct (m !! x); [|done]. cbn. rewrite option_guard_True by (cbn; lia). done.
Qed.

(** ** Examples *)

Definition mem_of (a : Z) (l : list Z) : mem := list_to_map (zip (seqZ a (Z.of_nat (length l))) l).

(** "n=%d %s" and "ok". *)
Definition demo_mem : mem := mem_of 100 [110; 61; 37; 100; 32; 37; 115; 0; 111; 107; 0].

Lemma printf_writes_text_witness :
  printf (fun _ _ => 0) 20 demo_mem 100 [2 ^ 64 - 42; 108] [] = Some (8, [(1, [110; 61; 45; 52; 50; 32; 111; 107])]) /\
  exists text, fmt_text demo_mem [110; 61; 37; 100; 32; 37; 115] [2 ^ 64 - 42; 108] text /\ length text = 8%nat.
Proof.
  assert (printf (fun _ _ => 0) 20 demo_mem 100 [2 ^ 64 - 42; 108] [] = Some (8, [(1, [110; 61; 45; 52; 50; 32; 111; 107])])) as E by (vm_compute; reflexivity).
  split; [exact E|]. destruct (printf_writes_text (fun _ _ => 0) demo_mem 2 [110; 61; 37; 100; 32; 37; 115] [2 ^ 64 - 42; 108] 20 100 []) as (text & Ht & E2).
  - repeat split; try (vm_compute; reflexivity); lia.
  - split; [vm_compute; congruence|]. split; [|exact I]. right. exists [111; 107]. split; [repeat split; try (vm_compute; reflexivity); lia|cbn; lia].
  - cbn. lia.
  - exists text. split; [exact Ht|]. rewrite E in E2. destruct (length text <=? 1024)%nat; [|discriminate E2]. injection E2 as E2 _. lia.
Defined.

(** A kernel with one place for a mapping. *)
Definition one_place (m : mem) (size : Z) : Z :=
  if (pages size <=? 2 ^ 46) && forallb (fun x => bool_decide (m !! x = None)) (seqZ 4096 (pages size)) then 4096 else -12.

Lemma one_place_ok : kernel_ok one_place.
Proof.
  intros m size Hs. unfold one_place. destruct (_ && _) eqn:E; [right|left; cbn; lia]. apply andb_true_iff in E as [E1%Z.leb_le E2]. split_and!; [lia|done|lia|]. intros x Hx.
  rewrite forallb_forall in E2. specialize (E2 x). rewrite bool_decide_eq_true in E2. apply E2. apply list_elem_of_In, elem_of_seqZ. lia.
Qed.

Lemma malloc_free_roundtrip_witness :
  exists p m', malloc one_place 100 demo_mem = Some (p, m') /\ p = 4104 /\ free p m' = Some demo_mem.
Proof.
  destruct (malloc_free_roundtrip one_place 100 demo_mem one_place_ok) as (p & m' & E & _ & _ & _ & _ & H); [lia|vm_compute; congruence|].
  exists p, m'. split; [exact E|]. split; [|apply H; intros x _; reflexivity]. destruct (malloc one_place 100 demo_mem) as [[p0 m0]|] eqn:E0; [|discriminate E].
  assert (fst <$> malloc one_place 100 demo_mem = Some 4104) as Ep by (vm_compute; reflexivity). rewrite E0 in Ep. injection Ep as Ep. injection E as E _. congruence.
Defined.

(** The least [int] loses its digits. *)
Example int_min_printed : print_int (- 2 ^ 31) = Some [45].
Proof. reflexivity. Qed.

(** A percent sign at the end of the format: the terminator is printed and the
    bytes behind it are taken for the rest of the format. *)
Example percent_at_end : printf (fun _ _ => 0) 20 (mem_of 100 [97; 37; 0; 98; 0]) 100 [] [] = Some (4, [(1, [97; 37; 0; 98])]).
Proof. vm_compute. reflexivity. Qed.

(** [mmap] without memory answers -12, which is not -1: the block is written at that address. *)
Example failed_mmap_faults : malloc (fun _ _ => -12) 100 demo_mem = None.
Proof. vm_compute. reflexivity. Qed.

(** The size wraps around: a request for almost all of memory gets a block of none. *)
Example huge_request_succeeds : (r ← malloc one_place (2 ^ 64 - 1) ∅; size ← load_le 8 r.2 4096; Some (r.1, size)) = Some (4104, 0).
Proof. vm_compute. reflexivity. Qed.
